(* ===== verification/_CoqProject ===== *)
-Q . S2P
Prelude.v
Ct.v
Block.v
Params.v
Store.v
Writable.v
Trace.v
Schedule.v
Bucket.v
PosMap.v
Stash.v
Overlay.v
Evict.v
EvictPlan.v
EvictApply.v
EvictPath.v
Rng.v
State.v
Circuit.v
Blocks.v
CircuitInv.v
CircuitOps.v
Build.v
BuildProofs.v
CircuitSpec.v
CircuitTrace.v
Oblivious.v
FrontCache.v
Aead.v
Hash.v
Merkle.v
TieredMerkle.v
SealedState.v
Fixint.v
SealedSpec.v
FileStore.v
Embedded.v
EmbeddedSpec.v
CandidateBins.v
Float64.v
Direct.v
Packed.v
IndexTable.v
Slots.v
IndexProofs.v
OramReads.v
DirectReader.v
DirectLookup.v
DirectSpec.v
Cuckoo.v
CuckooSpec.v
Extract.v
Sizing.v
Stress.v
StressSpec.v
RingStress.v
RingStressSpec.v
Evidence.v
EvidenceSpec.v
Disk.v
StoreTraces.v
ReopenStore.v
ReopenKeys.v
ImageFiles.v
ImageOps.v
ImageOpen.v
ImageRest.v
ImageSession.v
ImageBuild.v
ImageSpec.v
Bench.v
BenchSpec.v
BenchDirect.v
PosMapScan.v
BuildDirect.v
BuildDirectSpec.v
BatchIo.v
BatchIoSpec.v
Sweeps.v
Commands.v
