(* ===== verification/Prelude.v ===== *)
(** * Verification development for the disk-backed Circuit ORAM (root file)

    The repository is a Rust crate, [bitcoinpir-oram]: an oblivious array of fixed
    blocks kept on disk.  A trusted controller holds a position map, a stash, a
    generator and an eviction schedule; the blocks are in a complete binary tree of
    buckets, each bucket being one page of a metadata store and one page of a payload
    store; an access reads the root-to-leaf path of the block's leaf, takes the block
    into the stash, gives it a fresh leaf and writes the path back; scheduled
    evictions move blocks from the stash down their paths.  The stores are composed
    of wrappers (caching, encryption, authentication, tracing) over memory or a file.
    The trusted state is saved to sealed files between runs.  Over the controller,
    table readers serve a database: a dictionary of script hashes with its array of
    chunks, and cuckoo tables read bin by bin.

    ** Conventions

    A [usize] or [u64] is a [Z]; where the source can leave the 64-bit range the
    product or sum is wrapped as a release build does ([wrap 64]), or checked where
    the source checks.  The sizes of pages and of tree nodes ([circuit_meta_page_bytes],
    [circuit_payload_page_bytes], [physical_page_size_for]) and the file offset of a
    page ([fp_offset]) are left unwrapped: they are used below [2 ^ 64] only, which the
    hypotheses on sizes ([fits]) and on the shape of a store say.  A byte is a [Z] in [0, 256), a byte string a [list Z].  A
    function that can fail returns an [outcome]: a value, an error of [src/src/error.rs]
    (its format string without the interpolated arguments), a panic, or the statement
    that it never returns ([Diverges]).  A method on
    [&mut self] is a computation [M S A], which also gives the state left behind by an
    error.  A buffer the callee fills is passed in and returned.  Loops are structural
    recursion on the list of iterations ([foldM], [ofold], [iterM], [mapM]).

    ** Files and what they model

    - [Prelude]: errors, outcomes, the state monad, machine words, slices, shared
      lemmas and tactics ([zbool], [words], the hint database [oram]).
    - [Ct] ([ct.rs]), [Block] ([block.rs]), [Params] ([params.rs]): masked selection,
      the serialized block, the sizing parameters and the heap numbering of the tree.
    - [Store] ([store.rs]): the traits [PageStore] and [PathPageStore] as classes, the
      contract "an array of pages" ([LawfulPageStore], [LawfulPathStore]) that every
      store discharges and every client assumes, the blanket implementation and
      [MemPageStore]; [Trace]: [TracingStore] and the traces of computations;
      [FrontCache]: [FrontCachedPageStore]; [FileStore]: [FilePageStore].
    - [Schedule], [Bucket], [PosMap], [Stash], [Overlay], [Evict], [Circuit], [Build]
      ([circuit.rs]): the eviction schedule, bucket pages, the full scans of the
      position map and the stash, overlays of prefetched paths, path eviction, the
      controller, the trusted builder; [Rng]: the generator; [State]: the state
      records.  [EvictPlan], [EvictApply], [EvictPath], [Blocks], [CircuitInv],
      [CircuitOps], [BuildProofs] hold their proofs, [CircuitSpec] the properties of
      the controller, [CircuitTrace] and [Oblivious] what the host sees.
    - [Aead] ([aead.rs]): the encrypted store.  [Hash], [Merkle], [TieredMerkle]
      ([merkle.rs]): the hashes, the store with the whole hash tree in memory, the
      store with only the top levels trusted.  [Embedded], [EmbeddedSpec]
      ([embedded_tree.rs]): the path store with child hashes inside the pages.
    - [SealedState], [SealedSpec], [Fixint] ([state.rs]): state files, plain and
      encrypted, and the file system they are written to.
    - [CandidateBins], [Direct], [IndexTable], [DirectReader] ([direct.rs]): the bins of
      a script hash, table files with their metadata and the CHUNK source, the cuckoo
      placement with the INDEX source and the masked scan of a bin, the readers over a
      controller.  [Float64] is the binary64 arithmetic of the load factors; [Packed]
      packs items into blocks, for both kinds of table.  [IndexProofs],
      [OramReads], [DirectLookup] hold the proofs, [DirectSpec] the properties.
    - [Cuckoo] ([cuckoo.rs]): table headers, the packed source and the bin reader;
      [CuckooSpec] its properties.  [Sizing]: the estimates of both modules.
    - [bin/oramctl.rs], the command-line tool: [Extract] the extraction of CHUNK tables
      from a database; [Evidence] ([EvidenceSpec]) the cursor readers of the evidence
      files with UTF-8, the decoders of the build evidence and of the root bundle, and
      the checks that bind source files to them.  [ReopenStore] the tool's own stores;
      [ImageFiles] the paths of an image, its authentication layouts and the stores
      opened on its files, where a boxed store is a sum of stores; [ImageOps] the build
      of an image and its opening and closing by the commands that use it.  [Writable]
      and [Disk] say when a store can be initialized and what its file holds after a
      flush; [ReopenKeys] what a store keeps of its configuration; [StoreTraces] what
      the host sees of a cached store with hashes in a sidecar; [ImageOpen],
      [ImageRest], [ImageSession], [ImageBuild] hold the proofs, [ImageSpec] concrete
      images and the properties.
    - The commands: [Bench] ([BenchSpec], [BenchDirect]) builds the images of cuckoo
      tables, reads images back and compares them with the source files
      ([build-circuit], [bench-circuit], [verify-circuit-bins], [bench-direct]);
      [BuildDirect] ([BuildDirectSpec]) [build-direct] with the evidence it writes;
      [BatchIo] ([BatchIoSpec]) the planner [plan-direct-batch-io]; [PosMapScan]
      [bench-pos-map] with its proof; [Sweeps] the tables of sizes and simulations
      ([size-cuckoo], [size-direct], [stress-circuit], [stress-ring-direct]);
      [Commands] the arguments of all commands, [main], and what the commands do one
      after the other on the same files.
    - [Stress] ([stress.rs]), [RingStress] ([ring_stress.rs]): the simulators
      that measure stash and eviction debt on trees of block ids, of this ORAM and of
      Ring ORAM; [StressSpec], [RingStressSpec] their properties.  The two modules of
      the source repeat the functions on the tree, the statistics and the choice of
      ids, which are defined once here.  [Slots]: lemmas on arrays of slots with a
      mark for the empty one, for the tables and the simulators.

    ** Groups of theorems

    - Refinement of an abstract array: [CircuitSpec.oram_refines_array] (any sequence
      of accesses, batches, dummies and drains), with the exact behaviour of each
      operation, errors included, in the other theorems of [CircuitSpec]; a batch is
      its accesses one after the other exactly when its distinct blocks fit in the
      stash ([CircuitSpec.access_batch_sequential]; [CircuitSpec.batch_overflow_corrupts]
      runs a batch that overflows); the builder establishes the invariant [oram_inv].  The stores refine an array of pages:
      the instances of [LawfulPageStore] and [LawfulPathStore], and
      [EmbeddedSpec.embedded_tree_is_array].
    - Images: a built image and any number of sessions on its files, each opening the
      stores again from the bytes on disk, are one array
      ([ImageSpec.direct_image_lifetime], [ImageSpec.circuit_image_lifetime]): the
      whole stack of stores under the controller, for plain and sealed files, with or
      without a cache, and for the three ways of authentication.
    - The commands confirm what was built: on a built image, every bin, block, script
      hash and chunk that [verify-circuit-bins], [bench-circuit] and [bench-direct]
      draw is found equal to the source file's, and the image still serves the table
      ([BenchSpec.circuit_commands_confirm], [BenchDirect.direct_index_confirmed],
      [BenchDirect.direct_chunks_confirmed]); through [main], for both levels in one
      directory, [Commands.circuit_tool_confirms] and [Commands.direct_commands_confirm].  The evidence of a build is true
      of the files it leaves ([BuildDirectSpec.build_direct_evidence_exact]).
    - Invariants: [oram_inv] ("every block is exactly once in the stash or on its
      path"), [EvictPath.eviction_preserves_blocks].
    - Obliviousness: the traces of a run are a function of the shapes of its operations
      (paths read, drain budgets; a dummy has the shape of an access) and of the leaves
      looked up, and for two runs of the same shapes a bijection of tapes makes these
      leaves the same ([Oblivious.traces_depend_on_shapes_only],
      [Oblivious.revealed_leaves_unbiased]).  On cached stores with hashes in a sidecar,
      runs of the same requests on the same tape show the same accesses to data and to
      hashes ([StoreTraces.authenticated_traces_independent_of_data]).
    - Costs: the planner counts the accesses to pages that the controller makes, but
      for the metadata of evicted paths, which it counts twice
      ([BatchIoSpec.batch_plan_counts_accesses]), and the floor it prints is the least
      number of transfers ([BatchIoSpec.coalesced_floor_is_optimal]).
    - Scans: the masked scans that [bench-pos-map] times are accesses to a plain array
      ([PosMapScan.pos_map_scans_are_array_runs]).
    - Authentication against a host that replaces pages, for the three authenticated
      stores and the encrypted one; each says authentic, refused, or an explicit
      collision of the hash.  [TieredMerkle.tiered_write_adopts_served_hashes] proves a
      limit of the tiered store, [EmbeddedSpec.write_paths_rejected_moves_root] one of
      the embedded store.
    - Tables: the blocks of a source are the array the builder stores and the readers
      address, so a lookup answers as a dictionary of the file
      ([DirectSpec.direct_index_is_dictionary]), chunk and bin reads return the file's
      bytes, batches answer as single lookups, and dummy lookups spend what real ones
      do.  The insertions place every record in a candidate bin or report failure
      ([DirectSpec.index_table_places_records]).
    - Simulators: a run of a valid configuration returns its report, loses no block, and
      reports exact statistics of its samples; the debt cap is kept, and in the history
      of reads and rewrites of a Ring ORAM run no bucket is read more often than it has
      dummy slots between rewrites ([RingStressSpec.ring_read_budget_kept]); a sweep simulates the trees the images
      have ([Sweeps.ring_sweep_simulates_images]).
    - Bounds: what a cuckoo header says of its file modulo [2 ^ 64]
      ([CuckooSpec.cuckoo_table_opens]), and estimates that describe the image, each of
      their counts exact when it is a word ([Sizing.estimates_describe_images]).
    - Round trips and encodings: blocks, buckets, pages, state files, evidence files.
    - Source binding: an evidence file or root bundle is accepted exactly when it is the
      encoding of a record with valid fields; what the checks before a direct build
      compare, and that the value of a starting MuHash is not among it
      ([EvidenceSpec.source_binding_exact]); extracted
      chunk tables hold the chunks of the database
      ([Extract.extract_direct_chunks_correct]).
    - Termination: the search for candidate bins ends exactly when the table has enough
      of them ([CandidateBins.candidate_bins_terminate]); the transfer loops of the file
      store and the debt-cap loop of the simulator end; all other loops are structural.

    ** Fuel and bounds

    Tree nodes are 64-bit, so the upward loops of the hash stores get 65 halvings,
    which reach the root from any node; page counts are at most [2^62] there.  The
    transfer loops of [FileStore] get one turn more than bytes to move, which a turn
    that moves nothing ends.  The candidate search gets [2 ^ 64 + 1] turns, after which
    its counter has taken every value and, the hash being a bijection of the words,
    every bin has come up: a search still running then never ends.  An insertion makes
    at most the source's 10,000 kicks.  The debt-cap loop gets one turn more than there
    are pending evictions, each turn completing one.  The loop of a benchmark gets as
    many turns as there are operations, each batch being at least one of them.  The
    planner's walks up a hash tree get the 65 halvings of the stores.  Capacity
    hypotheses ([fits], [can_record]) say that page sizes and public counters stay
    below [2^64].

    ** Parameters

    Third-party code is a parameter with the laws it documents, each with a concrete
    instance used by the examples: [Subtle] (constant-time choices), [Rng] (no law),
    the cipher and the operating system's randomness ([Aead]), SHA-256 with 32-byte
    digests and no collision freedom assumed ([Hash]), bincode's round trip
    ([SealedState], instance [Fixint]), the outcome of each file transfer
    ([FileStore]) and of each file-system call ([SealedState]), the mapping of a
    file into memory, which yields its bytes ([Direct]), the hex crate ([Evidence]),
    the share of the system's randomness each open store draws from
    ([ImageFiles.HostIo]), and the JSON encoding of the evidence ([BuildDirect.Json]).

    ** Not modelled

    Of [bin/oramctl.rs], how [clap] parses a command line, the text of the printed lines
    and their timings (the numbers are modelled); [lib.rs] (re-exports) and the text
    labels of the access patterns.  A directory is the files whose paths begin with its
    name: subdirectories and symbolic links in a listing are not modelled.
    Timing and compiler effects below the masks, the contents of a caller's buffer
    after an error, zeroization of freed memory and the durability of [fsync] are
    outside the model.  A capacity that does not fit in memory aborts the process and
    is not an outcome. *)

From stdpp Require Export base gmap list list_numbers numbers strings sorting.
From Stdlib Require Export ZArith Lia ZifyBool.

#[global] Open Scope Z_scope.

(** ** Errors: [src/src/error.rs]

    [InvalidParams] and [InvalidInput] carry the format string of the source;
    the interpolated arguments are dropped. *)
Inductive Error : Type :=
| InvalidParams (msg : string)
| InvalidInput (msg : string)
| StashOverflow (len capacity : Z)
| BlockNotFound (logical_id : Z)
| IoError
| BincodeError
| HexError
| AeadError.

#[global] Instance Error_eq_dec : EqDecision Error.
Proof. solve_decision. Defined.

(** ** Outcomes: a call returns a value, returns an error, panics, or never returns. *)
Inductive outcome (A : Type) : Type :=
| Ok (a : A)
| Err (e : Error)
| Panic
| Diverges.
Arguments Ok {A} a.
Arguments Err {A} e.
Arguments Panic {A}.
Arguments Diverges {A}.

(** The call came back, with a value or an error. *)
Definition returned {A} (r : outcome A) : bool := match r with Ok _ | Err _ => true | _ => false end.

Definition obind {A B} (m : outcome A) (k : A -> outcome B) : outcome B :=
  match m with
  | Ok a => k a
  | Err e => Err e
  | Panic => Panic
  | Diverges => Diverges
  end.

(** State-passing computations: the state survives an error, as a [&mut]
    argument does when a method returns early through [?]. *)
Definition M (S A : Type) : Type := S -> outcome A * S.

Definition ret {S A} (a : A) : M S A := fun s => (Ok a, s).
Definition fail {S A} (e : Error) : M S A := fun s => (Err e, s).
Definition panic {S A} : M S A := fun s => (Panic, s).
Definition lift {S A} (o : outcome A) : M S A := fun s => (o, s).
Definition gets {S A} (f : S -> A) : M S A := fun s => (Ok (f s), s).
Definition modify {S} (f : S -> S) : M S unit := fun s => (Ok tt, f s).

Definition bind {S A B} (m : M S A) (k : A -> M S B) : M S B :=
  fun s => match m s with
           | (Ok a, s') => k a s'
           | (Err e, s') => (Err e, s')
           | (Panic, s') => (Panic, s')
           | (Diverges, s') => (Diverges, s')
           end.

(** Run a computation on a component of the state. *)
Definition zoom {T S A} (get : T -> S) (put : S -> T -> T) (m : M S A) : M T A :=
  fun t => let (r, s) := m (get t) in (r, put s t).

Declare Scope oram_scope.
Delimit Scope oram_scope with oram.
#[global] Open Scope oram_scope.
Notation "'let?' x := m 'in' k" := (obind m (fun x => k))
  (at level 10, x pattern, m at level 100, k at level 200) : oram_scope.
Notation "'let*' x := m 'in' k" := (bind m (fun x => k))
  (at level 10, x pattern, m at level 100, k at level 200) : oram_scope.
Definition guardo (b : bool) (e : Error) : outcome unit := if b then Ok tt else Err e.
Definition guardm {S} (b : bool) (e : Error) : M S unit := if b then ret tt else fail e.

Fixpoint omap_m {A B} (f : A -> outcome B) (l : list A) : outcome (list B) :=
  match l with
  | [] => Ok []
  | x :: l => let? y := f x in let? ys := omap_m f l in Ok (y :: ys)
  end.

Fixpoint ofold {A B} (f : B -> A -> outcome B) (b : B) (l : list A) : outcome B :=
  match l with
  | [] => Ok b
  | x :: l => let? b' := f b x in ofold f b' l
  end.

Fixpoint mapM {S A B} (f : A -> M S B) (l : list A) : M S (list B) :=
  match l with
  | [] => ret []
  | x :: l => let* y := f x in let* ys := mapM f l in ret (y :: ys)
  end.

Fixpoint iterM {S A} (f : A -> M S unit) (l : list A) : M S unit :=
  match l with
  | [] => ret tt
  | x :: l => let* _ := f x in iterM f l
  end.

(** A [for] loop over [l] that threads local variables and the state. *)
Fixpoint foldM {S A B} (f : B -> A -> M S B) (b : B) (l : list A) : M S B :=
  match l with
  | [] => ret b
  | x :: l => let* b' := f b x in foldM f b' l
  end.

(** ** Machine integers: an unsigned word is a [Z] in [0, 2^w). *)
Definition u8_max : Z := 255.
Definition u32_max : Z := 4294967295.
Definition u64_max : Z := 18446744073709551615.
Definition wrap (w z : Z) : Z := z mod 2 ^ w.

Definition is_u8 (z : Z) : Prop := 0 <= z < 256.
Definition is_u32 (z : Z) : Prop := 0 <= z < 4294967296.
Definition is_u64 (z : Z) : Prop := 0 <= z < 18446744073709551616.

(** [checked_add], [checked_mul], [checked_sub] of a 64-bit word. *)
Definition checked_add64 (a b : Z) : option Z := if a + b <=? u64_max then Some (a + b) else None.
Definition checked_mul64 (a b : Z) : option Z := if a * b <=? u64_max then Some (a * b) else None.
Definition checked_sub64 (a b : Z) : option Z := if b <=? a then Some (a - b) else None.
(** [a * b], [a + b], [a - b] of 64-bit words, as a release build computes them. *)
Definition mul64 (a b : Z) : Z := wrap 64 (a * b).
Definition add64 (a b : Z) : Z := wrap 64 (a + b).
Definition sub64 (a b : Z) : Z := wrap 64 (a - b).
Definition ok_or {A} (o : option A) (e : Error) : outcome A :=
  match o with Some a => Ok a | None => Err e end.

(** Trailing zeros, powers of two ([usize::trailing_zeros], [is_power_of_two],
    [next_power_of_two] and its checked form; the unchecked one wraps to 0). *)
Fixpoint pos_trailing_zeros (p : positive) : Z :=
  match p with
  | xO p => 1 + pos_trailing_zeros p
  | _ => 0
  end.
Definition trailing_zeros (z : Z) : Z :=
  match z with Zpos p => pos_trailing_zeros p | _ => 64 end.
Fixpoint pos_is_pow2 (p : positive) : bool :=
  match p with xH => true | xO p => pos_is_pow2 p | xI _ => false end.
Definition is_power_of_two (z : Z) : bool :=
  match z with Zpos p => pos_is_pow2 p | _ => false end.
Definition checked_next_power_of_two (z : Z) : option Z :=
  let p := if z <=? 1 then 1 else 2 ^ (Z.log2 (z - 1) + 1) in
  if p <=? u64_max then Some p else None.
Definition next_power_of_two (z : Z) : Z := default 0 (checked_next_power_of_two z).
Definition div_ceil (a b : Z) : Z := (a + b - 1) / b.

(** ** Byte strings and slices *)
Abbreviation byte := Z (only parsing).
Abbreviation bytes := (list Z) (only parsing).
Definition lenZ {A} (l : list A) : Z := Z.of_nat (length l).
Definition zeros (n : Z) : bytes := replicate (Z.to_nat n) 0.
Definition bytes_ok (l : bytes) : Prop := Forall is_u8 l.

(** [l[off .. off + len]]: panics out of range. *)
Definition slice {A} (l : list A) (off len : Z) : outcome (list A) :=
  if (0 <=? off) && (0 <=? len) && (off + len <=? lenZ l)
  then Ok (take (Z.to_nat len) (drop (Z.to_nat off) l)) else Panic.

(** [l[off .. off + len].copy_from_slice(src)] with [len = src.len()]. *)
Definition splice {A} (l : list A) (off : Z) (src : list A) : outcome (list A) :=
  if (0 <=? off) && (off + lenZ src <=? lenZ l)
  then Ok (take (Z.to_nat off) l ++ src ++ drop (Z.to_nat (off + lenZ src)) l) else Panic.

(** [dst.copy_from_slice(src)] on whole buffers. *)
Definition copy_from_slice {A} (dst src : list A) : outcome (list A) :=
  if lenZ dst =? lenZ src then Ok src else Panic.

(** [l[i]]: panics out of range. *)
Definition indexZ {A} (l : list A) (i : Z) : outcome A :=
  if 0 <=? i then match l !! Z.to_nat i with Some x => Ok x | None => Panic end else Panic.
(** [l[i] = x]: panics out of range. *)
Definition updateZ {A} (l : list A) (i : Z) (x : A) : outcome (list A) :=
  if (0 <=? i) && (i <? lenZ l) then Ok (<[Z.to_nat i := x]> l) else Panic.

(** [iter().enumerate()]. *)
Fixpoint enumerate_from {A} (i : Z) (l : list A) : list (Z * A) :=
  match l with
  | [] => []
  | x :: l => (i, x) :: enumerate_from (i + 1) l
  end.
Definition enumerate {A} (l : list A) : list (Z * A) := enumerate_from 0 l.

(** [chunks_exact(n)]: the full chunks, the remainder is dropped; panics when [n = 0]. *)
Fixpoint chunks_fuel {A} (fuel n : nat) (l : list A) : list (list A) :=
  match fuel with
  | O => []
  | S fuel => if decide (n <= length l)%nat
              then take n l :: chunks_fuel fuel n (drop n l) else []
  end.
Definition chunks_exact {A} (n : Z) (l : list A) : outcome (list (list A)) :=
  if n <=? 0 then Panic else Ok (chunks_fuel (length l) (Z.to_nat n) l).

(** [to_le_bytes] and [from_le_bytes] of an [n]-byte word. *)
Fixpoint to_le (n : nat) (z : Z) : bytes :=
  match n with
  | O => []
  | S n => z mod 256 :: to_le n (z / 256)
  end.
Fixpoint from_le (l : bytes) : Z :=
  match l with
  | [] => 0
  | b :: l => b + 256 * from_le l
  end.

(** * Shared lemmas and automation *)

Create HintDb oram.

Ltac zbool :=
  repeat match goal with
  | H : (_ && _)%bool = true |- _ => apply andb_true_iff in H as [? ?]
  | H : (_ =? _) = true |- _ => apply Z.eqb_eq in H
  | H : (_ =? _) = false |- _ => apply Z.eqb_neq in H
  | H : (_ <=? _) = true |- _ => apply Z.leb_le in H
  | H : (_ <=? _) = false |- _ => apply Z.leb_gt in H
  | H : (_ <? _) = true |- _ => apply Z.ltb_lt in H
  | H : (_ <? _) = false |- _ => apply Z.ltb_ge in H
  end.

(** Unfold the byte and word range predicates and finish with [lia]. *)
Ltac words := unfold is_u8, is_u32, is_u64, u8_max, u32_max, u64_max in *; lia.

Section Monads.

Lemma Ok_inj {A} (a b : A) : Ok a = Ok b -> a = b.
Proof. by intros [=]. Qed.

Lemma obind_Ok {A B} (m : outcome A) (k : A -> outcome B) b :
  obind m k = Ok b <-> exists a, m = Ok a /\ k a = Ok b.
Proof. destruct m; simpl; naive_solver. Qed.

Lemma bind_Ok {S A B} (m : M S A) (k : A -> M S B) s b s' :
  bind m k s = (Ok b, s') <-> exists a s1, m s = (Ok a, s1) /\ k a s1 = (Ok b, s').
Proof. unfold bind. destruct (m s) as [[]]; naive_solver. Qed.

Lemma bind_eq {S A B} (m : M S A) (k : A -> M S B) s a s1 :
  m s = (Ok a, s1) -> bind m k s = k a s1.
Proof. unfold bind. by intros ->. Qed.

Lemma bind_err {S A B} (m : M S A) (k : A -> M S B) s e s1 :
  m s = (Err e, s1) -> bind m k s = (Err e, s1).
Proof. unfold bind. by intros ->. Qed.

Lemma bind_lift {S A B} (o : outcome A) (k : A -> M S B) s :
  bind (lift o) k s = match o with Ok a => k a s | Err e => (Err e, s) | Panic => (Panic, s) | Diverges => (Diverges, s) end.
Proof. by destruct o. Qed.

Lemma bind_gets {S A B} (f : S -> A) (k : A -> M S B) s : bind (gets f) k s = k (f s) s.
Proof. done. Qed.

Lemma bind_modify {S B} (f : S -> S) (k : unit -> M S B) s : bind (modify f) k s = k tt (f s).
Proof. done. Qed.

Lemma bind_guardm {S B} b e (k : unit -> M S B) s :
  bind (guardm b e) k s = if b then k tt s else (Err e, s).
Proof. by destruct b. Qed.

Lemma zoom_eq {T S A} get put (m : M S A) (t : T) r s' :
  m (get t) = (r, s') -> zoom get put m t = (r, put s' t).
Proof. unfold zoom. by intros ->. Qed.

Lemma omap_m_Ok {A B} (f : A -> outcome B) l l' :
  omap_m f l = Ok l' <-> Forall2 (fun x y => f x = Ok y) l l'.
Proof.
  revert l'. induction l as [|x l IH]; intros l'; simpl.
  - split; [intros [= <-]; constructor | by inversion 1].
  - rewrite obind_Ok. setoid_rewrite obind_Ok. setoid_rewrite IH.
    split; [intros (y & ? & ys & ? & [= <-]); by constructor|].
    inversion 1; subst. naive_solver.
Qed.

Lemma omap_m_pure {A B} (f : A -> outcome B) (g : A -> B) l :
  (forall x, x ∈ l -> f x = Ok (g x)) -> omap_m f l = Ok (g <$> l).
Proof.
  intros H. apply omap_m_Ok, Forall2_fmap_r, Forall_Forall2_diag, Forall_forall. naive_solver.
Qed.

Lemma ofold_app {A B} (f : B -> A -> outcome B) b l1 l2 :
  ofold f b (l1 ++ l2) = obind (ofold f b l1) (fun b => ofold f b l2).
Proof. revert b; induction l1 as [|x l1 IH]; intros b; simpl; [done|]. destruct (f b x); simpl; auto. Qed.

Lemma ofold_inv {A B} (I : B -> Prop) (f : B -> A -> outcome B) l :
  (forall b x, x ∈ l -> I b -> exists b', f b x = Ok b' /\ I b') ->
  forall b, I b -> exists b', ofold f b l = Ok b' /\ I b'.
Proof.
  induction l as [|x l IH]; intros Hf b Hb; simpl; [eauto|].
  destruct (Hf b x) as (b1 & -> & Hb1); [set_solver|done|]. simpl.
  apply IH; [|done]. intros; apply Hf; set_solver.
Qed.

(** Loop invariants over the elements already visited. *)
Lemma foldM_inv {S A B} (I : list A -> B -> S -> Prop) (f : B -> A -> M S B) l b s :
  (forall before x after b s, l = before ++ x :: after -> I before b s ->
     exists b' s', f b x s = (Ok b', s') /\ I (before ++ [x]) b' s') ->
  I [] b s -> exists b' s', foldM f b l s = (Ok b', s') /\ I l b' s'.
Proof.
  intros Hf. cut (forall before after b s, l = before ++ after -> I before b s ->
    exists b' s', foldM f b after s = (Ok b', s') /\ I l b' s').
  { intros Hc HI. by apply (Hc [] l). }
  intros before after. revert before. induction after as [|x after IH]; intros before b1 s1 Hl HI; cbn [foldM].
  - rewrite app_nil_r in Hl. subst. by eexists _, _.
  - destruct (Hf before x after b1 s1 Hl HI) as (b2 & s2 & E & HI2). rewrite (bind_eq _ _ _ _ _ E).
    apply (IH (before ++ [x])); [by rewrite <-app_assoc|done].
Qed.

Lemma ofold_prefix_inv {A B} (I : list A -> B -> Prop) (f : B -> A -> outcome B) l b :
  (forall before x after b, l = before ++ x :: after -> I before b -> exists b', f b x = Ok b' /\ I (before ++ [x]) b') ->
  I [] b -> exists b', ofold f b l = Ok b' /\ I l b'.
Proof.
  intros Hf. cut (forall before after b, l = before ++ after -> I before b ->
    exists b', ofold f b after = Ok b' /\ I l b').
  { intros Hc HI. by apply (Hc [] l). }
  intros before after. revert before. induction after as [|x after IH]; intros before b1 Hl HI; cbn [ofold].
  - rewrite app_nil_r in Hl. subst. by eexists.
  - destruct (Hf before x after b1 Hl HI) as (b2 & E & HI2). rewrite E. cbn [obind].
    apply (IH (before ++ [x])); [by rewrite <-app_assoc|done].
Qed.

Lemma ofold_Forall2 {A A' B} (f : B -> A -> outcome B) (g : B -> A' -> outcome B) b l l' :
  Forall2 (fun x y => forall b, f b x = g b y) l l' -> ofold f b l = ofold g b l'.
Proof.
  intros Hl. revert b. induction Hl as [|x y l l' Hxy _ IH]; intros b; simpl; [done|].
  rewrite Hxy. destruct (g b y); simpl; auto.
Qed.

Lemma ofold_pure {A B} (f : B -> A -> outcome B) (g : B -> A -> B) b l :
  (forall b x, x ∈ l -> f b x = Ok (g b x)) -> ofold f b l = Ok (foldl g b l).
Proof.
  revert b. induction l as [|x l IH]; intros b Hf; simpl; [done|].
  rewrite Hf by set_solver. simpl. apply IH. set_solver.
Qed.

Lemma omap_m_app {A B} (f : A -> outcome B) l1 l2 r1 r2 :
  omap_m f l1 = Ok r1 -> omap_m f l2 = Ok r2 -> omap_m f (l1 ++ l2) = Ok (r1 ++ r2).
Proof. rewrite !omap_m_Ok. apply Forall2_app. Qed.

Lemma elem_of_concat {A} (x : A) ls : x ∈ concat ls <-> exists l, l ∈ ls /\ x ∈ l.
Proof.
  induction ls as [|l ls IH]; cbn [concat]; [set_solver|]. rewrite elem_of_app, IH. set_solver.
Qed.

Lemma Forall2_concat_rows {A B} (P : A -> B -> Prop) ls rs :
  Forall2 (Forall2 P) ls rs -> Forall2 P (concat ls) (concat rs).
Proof. induction 1; simpl; [constructor|]. by apply Forall2_app. Qed.

End Monads.

Section Words.

Lemma wrap_small w z : 0 <= z < 2 ^ w -> wrap w z = z.
Proof. intros. by apply Z.mod_small. Qed.

Lemma mul64_small a b : 0 <= a * b <= u64_max -> mul64 a b = a * b.
Proof. intros. apply wrap_small. unfold u64_max in *. lia. Qed.
Lemma add64_small a b : 0 <= a + b <= u64_max -> add64 a b = a + b.
Proof. intros. apply wrap_small. unfold u64_max in *. lia. Qed.
Lemma sub64_small a b : 0 <= a - b <= u64_max -> sub64 a b = a - b.
Proof. intros. apply wrap_small. unfold u64_max in *. lia. Qed.

Lemma checked_add64_Some a b c : checked_add64 a b = Some c <-> c = a + b /\ a + b <= u64_max.
Proof. unfold checked_add64. destruct (_ <=? _) eqn:E; zbool; naive_solver lia. Qed.
Lemma checked_mul64_Some a b c : checked_mul64 a b = Some c <-> c = a * b /\ a * b <= u64_max.
Proof. unfold checked_mul64. destruct (_ <=? _) eqn:E; zbool; naive_solver lia. Qed.
Lemma checked_sub64_Some a b c : checked_sub64 a b = Some c <-> c = a - b /\ b <= a.
Proof. unfold checked_sub64. destruct (_ <=? _) eqn:E; zbool; naive_solver lia. Qed.

Lemma pos_trailing_zeros_nonneg p : 0 <= pos_trailing_zeros p.
Proof. induction p; simpl; lia. Qed.

Lemma pos_is_pow2_spec p :
  pos_is_pow2 p = true -> Zpos p = 2 ^ pos_trailing_zeros p.
Proof.
  induction p as [p IH|p IH|]; simpl; try done. intros H.
  rewrite Z.pow_add_r; [|lia|apply pos_trailing_zeros_nonneg]. rewrite <-IH by done. lia.
Qed.

Lemma is_power_of_two_eq z : is_power_of_two z = true -> z = 2 ^ trailing_zeros z.
Proof. destruct z; simpl; try done. apply pos_is_pow2_spec. Qed.

Lemma pos_pow2 (n : nat) p :
  Zpos p = 2 ^ Z.of_nat n -> pos_is_pow2 p = true /\ pos_trailing_zeros p = Z.of_nat n.
Proof.
  revert p. induction n as [|n IH]; intros p Hp.
  - change (Z.pos p = 1) in Hp. by assert (p = 1%positive) as -> by lia.
  - rewrite Nat2Z.inj_succ, Z.pow_succ_r in Hp by lia.
    destruct p as [p|p|]; simpl; [lia| |lia].
    destruct (IH p) as [-> ->]; lia.
Qed.

Lemma pow2_facts k : 0 <= k -> is_power_of_two (2 ^ k) = true /\ trailing_zeros (2 ^ k) = k.
Proof.
  intros Hk. rewrite <-(Z2Nat.id k) by done.
  pose proof (Z.pow_pos_nonneg 2 (Z.of_nat (Z.to_nat k)) ltac:(lia) ltac:(lia)).
  destruct (2 ^ Z.of_nat (Z.to_nat k)) as [|p|] eqn:E; try lia. by apply pos_pow2.
Qed.

Lemma checked_next_power_of_two_spec z p :
  checked_next_power_of_two z = Some p ->
  is_power_of_two p = true /\ z <= p /\ 1 <= p /\ (1 < z -> p < 2 * z) /\ p <= u64_max.
Proof.
  unfold checked_next_power_of_two. destruct (z <=? 1) eqn:E; zbool.
  - simpl. intros [= <-]. repeat split; try lia; words.
  - destruct (_ <=? u64_max) eqn:E2; [|done]. intros [= <-]. zbool.
    pose proof (Z.log2_spec (z - 1) ltac:(lia)). pose proof (Z.log2_nonneg (z - 1)).
    rewrite <-Z.add_1_r, Z.pow_add_r in * by lia.
    split; [|lia].
    rewrite <-Z.pow_add_r by lia. by apply pow2_facts; lia.
Qed.

Lemma next_power_of_two_total z : z <= 2 ^ 62 ->
  exists k, 0 <= k <= 62 /\ checked_next_power_of_two z = Some (2 ^ k) /\ z <= 2 ^ k.
Proof.
  intros Hz. unfold checked_next_power_of_two. destruct (z <=? 1) eqn:E; zbool.
  - exists 0. change (2 ^ 0) with 1. split; [lia|]. split; [done|lia].
  - exists (Z.log2 (z - 1) + 1). pose proof (Z.log2_nonneg (z - 1)). pose proof (Z.log2_spec (z - 1) ltac:(lia)) as Hs.
    assert (Z.log2 (z - 1) < 62) by (apply Z.log2_lt_pow2; lia).
    assert (2 ^ (Z.log2 (z - 1) + 1) <= 2 ^ 62) by (apply Z.pow_le_mono_r; lia).
    rewrite (proj2 (Z.leb_le _ _)) by (change (2 ^ 62) with 4611686018427387904 in *; words).
    rewrite Z.add_1_r. split; [lia|]. split; [done|lia].
Qed.

End Words.

Section Bytes.

Lemma lenZ_nonneg {A} (l : list A) : 0 <= lenZ l.
Proof. unfold lenZ; lia. Qed.
#[global] Instance lenZ_perm {A} : Proper ((≡ₚ) ==> (=)) (@lenZ A).
Proof. intros l1 l2 Hl. unfold lenZ. by rewrite Hl. Qed.
Lemma lenZ_app {A} (l1 l2 : list A) : lenZ (l1 ++ l2) = lenZ l1 + lenZ l2.
Proof. unfold lenZ. rewrite length_app. lia. Qed.
Lemma lenZ_cons {A} (x : A) l : lenZ (x :: l) = 1 + lenZ l.
Proof. unfold lenZ. simpl. lia. Qed.
Lemma lenZ_fmap {A B} (f : A -> B) l : lenZ (f <$> l) = lenZ l.
Proof. unfold lenZ. by rewrite length_fmap. Qed.
Lemma lenZ_zeros n : 0 <= n -> lenZ (zeros n) = n.
Proof. unfold lenZ, zeros. rewrite length_replicate. lia. Qed.
Lemma zeros_ok n : bytes_ok (zeros n).
Proof. apply Forall_replicate. words. Qed.

Lemma slice_Ok {A} (l : list A) off len r :
  slice l off len = Ok r ->
  0 <= off /\ 0 <= len /\ off + len <= lenZ l /\ r = take (Z.to_nat len) (drop (Z.to_nat off) l).
Proof. unfold slice. destruct (_ && _) eqn:E; [|done]. intros [= <-]. zbool. by split_and!. Qed.

Lemma slice_app {A} (a b c : list A) off len :
  off = lenZ a -> len = lenZ b -> slice (a ++ b ++ c) off len = Ok b.
Proof.
  intros -> ->. unfold slice, lenZ. rewrite !length_app, !Nat2Z.id.
  case_match eqn:E; [|lia]. f_equal.
  by rewrite drop_app_length, take_app_length.
Qed.

Lemma slice_all {A} (a : list A) len : len = lenZ a -> slice a 0 len = Ok a.
Proof.
  intros ->. unfold slice. case_match eqn:E; [|unfold lenZ in *; lia].
  f_equal. unfold lenZ. rewrite Nat2Z.id, drop_0. by apply take_ge.
Qed.

Lemma slice_prefix {A} (a b : list A) len : len = lenZ a -> slice (a ++ b) 0 len = Ok a.
Proof. intros ->. by rewrite <-(slice_app [] a b 0 (lenZ a)). Qed.

Lemma slice_suffix {A} (a b : list A) off len :
  off = lenZ a -> len = lenZ b -> slice (a ++ b) off len = Ok b.
Proof. intros -> ->. rewrite <-(app_nil_r b) at 1. by apply slice_app. Qed.

Lemma splice_app {A} (a b b' c : list A) off :
  off = lenZ a -> lenZ b' = lenZ b -> splice (a ++ b ++ c) off b' = Ok (a ++ b' ++ c).
Proof.
  unfold splice, lenZ. intros -> Hb. rewrite !length_app.
  case_match eqn:E; [|lia]. f_equal. rewrite Nat2Z.id, take_app_length. f_equal. f_equal.
  replace (Z.to_nat (Z.of_nat (length a) + Z.of_nat (length b'))) with (length a + length b)%nat by lia.
  rewrite <-drop_drop, drop_app_length. apply drop_app_length.
Qed.

Lemma splice_length {A} (l src l' : list A) off :
  splice l off src = Ok l' -> lenZ l' = lenZ l.
Proof.
  unfold splice. case_match eqn:E; [|done]. intros [= <-]. zbool.
  unfold lenZ in *. rewrite !length_app, length_take, length_drop. lia.
Qed.

Lemma slice_split {A} (l : list A) off len :
  0 <= off -> 0 <= len -> off + len <= lenZ l ->
  exists a b c, l = a ++ b ++ c /\ lenZ a = off /\ lenZ b = len /\ slice l off len = Ok b.
Proof.
  intros. exists (take (Z.to_nat off) l), (take (Z.to_nat len) (drop (Z.to_nat off) l)),
    (drop (Z.to_nat len) (drop (Z.to_nat off) l)).
  unfold lenZ in *. rewrite !length_take, length_drop. split; [by rewrite !take_drop|].
  split; [lia|]. split; [lia|]. unfold slice, lenZ. case_match; [done|]. lia.
Qed.

Lemma indexZ_Ok {A} (l : list A) i x : indexZ l i = Ok x <-> 0 <= i /\ l !! Z.to_nat i = Some x.
Proof. unfold indexZ. destruct (0 <=? i) eqn:E; zbool; [|naive_solver lia]. case_match; naive_solver. Qed.

Lemma indexZ_nat {A} (l : list A) (i : nat) x : l !! i = Some x -> indexZ l (Z.of_nat i) = Ok x.
Proof. intros. apply indexZ_Ok. rewrite Nat2Z.id. split; [lia|done]. Qed.

Lemma indexZ_app {A} (a : list A) x b i : i = lenZ a -> indexZ (a ++ x :: b) i = Ok x.
Proof.
  intros ->. apply indexZ_Ok. unfold lenZ. rewrite Nat2Z.id. split; [lia|].
  by rewrite lookup_app_r, Nat.sub_diag by lia.
Qed.

Lemma updateZ_app {A} (a : list A) x y b i : i = lenZ a -> updateZ (a ++ x :: b) i y = Ok (a ++ y :: b).
Proof.
  intros ->. unfold updateZ, lenZ. rewrite length_app. cbn [length].
  case_match eqn:E; [|lia]. f_equal. rewrite Nat2Z.id. by rewrite insert_app_r_alt, Nat.sub_diag by lia.
Qed.

Lemma indexZ_fmap {A B} (f : A -> B) l i x : indexZ l i = Ok x -> indexZ (f <$> l) i = Ok (f x).
Proof. rewrite !indexZ_Ok, list_lookup_fmap. intros [? ->]. done. Qed.

Lemma indexZ_lookup {A} (l : list A) i x : l !! Z.to_nat i = Some x -> 0 <= i -> indexZ l i = Ok x.
Proof. intros. by apply indexZ_Ok. Qed.

Lemma to_le_length n z : length (to_le n z) = n.
Proof. revert z; induction n; intros; simpl; auto. Qed.

Lemma to_le_ok n z : bytes_ok (to_le n z).
Proof.
  revert z; induction n; intros; simpl; constructor; [|apply IHn].
  pose proof (Z.mod_pos_bound z 256). words.
Qed.

Lemma from_to_le n z : from_le (to_le n z) = z mod 256 ^ Z.of_nat n.
Proof.
  revert z; induction n as [|n IH]; intros z; cbn [to_le from_le].
  - by rewrite Z.mod_1_r.
  - rewrite IH, Nat2Z.inj_succ, Z.pow_succ_r by lia. rewrite Z.rem_mul_r; lia.
Qed.

Lemma to_from_le l : bytes_ok l -> to_le (length l) (from_le l) = l.
Proof.
  induction 1 as [|b l Hb _ IH]; cbn [length to_le from_le]; [done|].
  unfold is_u8 in Hb. f_equal.
  - rewrite (Z.mul_comm 256), Z.mod_add by lia. by apply Z.mod_small.
  - rewrite (Z.mul_comm 256), Z.div_add, Z.div_small by lia. by rewrite Z.add_0_l.
Qed.

Lemma to_from_le_len n l : bytes_ok l -> length l = n -> to_le n (from_le l) = l.
Proof. intros ? <-. by apply to_from_le. Qed.

Lemma from_le_bound l : bytes_ok l -> 0 <= from_le l < 256 ^ lenZ l.
Proof.
  induction 1 as [|b l Hb _ IH]; [done|]. rewrite lenZ_cons, Z.pow_add_r by (unfold lenZ; lia).
  cbn [from_le]. words.
Qed.

Lemma to_le_inj n a b : 0 <= a < 256 ^ Z.of_nat n -> 0 <= b < 256 ^ Z.of_nat n ->
  to_le n a = to_le n b -> a = b.
Proof.
  intros Ha Hb H. apply (f_equal from_le) in H. rewrite !from_to_le in H.
  by rewrite !Z.mod_small in H.
Qed.

Lemma chunks_fuel_concat {A} (n : nat) (ls : list (list A)) fuel :
  (0 < n)%nat -> Forall (fun l => length l = n) ls -> (length ls <= fuel)%nat ->
  chunks_fuel fuel n (concat ls) = ls.
Proof.
  intros Hn Hls. revert fuel. induction Hls as [|l ls Hl _ IH]; intros fuel Hf; simpl in *.
  - destruct fuel; [done|]. simpl. case_decide; [lia|done].
  - destruct fuel as [|fuel]; [lia|]. simpl. rewrite length_app, decide_True by lia.
    subst n. rewrite take_app_length, drop_app_length. f_equal. apply IH; lia.
Qed.

Lemma chunks_exact_concat {A} n (ls : list (list A)) :
  0 < n -> Forall (fun l => lenZ l = n) ls -> chunks_exact n (concat ls) = Ok ls.
Proof.
  intros Hn Hls. unfold chunks_exact. destruct (n <=? 0) eqn:E; zbool; [lia|]. f_equal.
  apply chunks_fuel_concat; [lia| |].
  - eapply Forall_impl; [done|]. unfold lenZ. intros; lia.
  - clear E. induction Hls as [|l ls Hl _ IH]; simpl; [lia|]. rewrite length_app.
    unfold lenZ in Hl. lia.
Qed.

Lemma lenZ_concat {A} n (ls : list (list A)) :
  Forall (fun l => lenZ l = n) ls -> lenZ (concat ls) = lenZ ls * n.
Proof. induction 1 as [|l ls Hl _ IH]; simpl; [done|]. rewrite lenZ_app, lenZ_cons, IH, Hl. lia. Qed.

Lemma length_enumerate_from {A} i (l : list A) : length (enumerate_from i l) = length l.
Proof. revert i. induction l; intros; simpl; auto. Qed.

Lemma lookup_enumerate_from {A} i (l : list A) k :
  enumerate_from i l !! k = (fun x => (i + Z.of_nat k, x)) <$> l !! k.
Proof.
  revert i k. induction l as [|x l IH]; intros i [|k]; simpl; [done..| |].
  - by rewrite Z.add_0_r.
  - rewrite IH. destruct (l !! k); simpl; [|done]. do 2 f_equal. lia.
Qed.

Lemma lookup_enumerate {A} (l : list A) k : enumerate l !! k = (fun x => (Z.of_nat k, x)) <$> l !! k.
Proof. apply (lookup_enumerate_from 0). Qed.

Lemma enumerate_from_app {A} i (l1 l2 : list A) :
  enumerate_from i (l1 ++ l2) = enumerate_from i l1 ++ enumerate_from (i + lenZ l1) l2.
Proof.
  revert i. induction l1 as [|x l1 IH]; intros i; cbn [app enumerate_from]; [by rewrite Z.add_0_r|].
  by rewrite IH, lenZ_cons, Z.add_assoc.
Qed.

(** Positions in the ranges of [for] loops. *)
Lemma seqZ_split m n before x after :
  seqZ m n = before ++ x :: after -> x = m + lenZ before /\ m <= x < m + n.
Proof.
  intros E. assert (seqZ m n !! length before = Some x) as Hx by (by rewrite E, list_lookup_middle).
  apply lookup_seqZ in Hx. unfold lenZ. lia.
Qed.

Lemma seqZ_reverse_split m n before x after :
  reverse (seqZ m n) = before ++ x :: after ->
  x = m + n - 1 - lenZ before /\ m <= x < m + n /\ forall y, y ∈ before <-> x < y < m + n.
Proof.
  intros E. assert (length (seqZ m n) = length before + S (length after))%nat as Hlen.
  { rewrite <-(length_reverse (seqZ m n)), E, length_app. simpl. lia. }
  rewrite length_seqZ in Hlen.
  assert (forall k, (k < length before + S (length after))%nat ->
    (before ++ x :: after) !! k = Some (m + n - 1 - Z.of_nat k)) as Hk.
  { intros k Hk. rewrite <-E, reverse_lookup by (rewrite length_seqZ; lia).
    rewrite length_seqZ. apply lookup_seqZ. lia. }
  assert (x = m + n - 1 - lenZ before) as ->.
  { specialize (Hk (length before) ltac:(lia)). rewrite list_lookup_middle in Hk by done.
    injection Hk. unfold lenZ. lia. }
  unfold lenZ. split; [done|]. split; [lia|]. intros y. split.
  - intros [k Hy]%list_elem_of_lookup. pose proof (lookup_lt_Some _ _ _ Hy).
    specialize (Hk k ltac:(lia)). rewrite lookup_app_l in Hk by lia. rewrite Hy in Hk. injection Hk. lia.
  - intros Hy. specialize (Hk (Z.to_nat (m + n - 1 - y)) ltac:(lia)). rewrite lookup_app_l in Hk by lia.
    apply list_elem_of_lookup. eexists. rewrite Hk. f_equal. lia.
Qed.

(** Filling a buffer tile by tile: [f] overwrites the [i]-th tile of [n]
    elements with [enc x]. *)
Lemma ofold_tiles {A B} (n : Z) (enc : A -> list B) (f : list B -> Z * A -> outcome (list B)) xs :
  (forall x, x ∈ xs -> lenZ (enc x) = n) ->
  (forall i x pre old post, x ∈ xs -> lenZ pre = i * n -> lenZ old = n ->
     f (pre ++ old ++ post) (i, x) = Ok (pre ++ enc x ++ post)) ->
  forall i pre rest, 0 <= n -> lenZ pre = i * n -> lenZ rest = lenZ xs * n ->
  ofold f (pre ++ rest) (enumerate_from i xs) = Ok (pre ++ concat (enc <$> xs)).
Proof.
  induction xs as [|x xs IH]; intros Hlen Hf i pre rest Hn Hpre Hrest.
  { simpl. destruct rest; [done|]. rewrite lenZ_cons in Hrest. unfold lenZ in Hrest. simpl in *. lia. }
  rewrite lenZ_cons in *. cbn [enumerate_from ofold fmap list_fmap concat].
  pose proof (lenZ_nonneg xs).
  replace rest with (take (Z.to_nat n) rest ++ drop (Z.to_nat n) rest) by apply take_drop.
  rewrite Hf; [|set_solver|done|]; [|unfold lenZ in *; rewrite length_take; nia]. cbn [obind].
  rewrite app_assoc.
  specialize (Hlen x ltac:(set_solver)) as Hx.
  rewrite IH; [by rewrite <-app_assoc|set_solver| |done| |].
  - intros. apply Hf; set_solver.
  - rewrite lenZ_app. lia.
  - unfold lenZ in *. rewrite length_drop. nia.
Qed.

Lemma chunks_fuel_lengths {A} fuel n (l : list A) :
  Forall (fun c => length c = n) (chunks_fuel fuel n l).
Proof.
  revert l; induction fuel; intros l; simpl; [constructor|]. case_decide; [|constructor].
  constructor; [|done]. rewrite length_take. lia.
Qed.

Lemma bytes_ok_take_drop l n : bytes_ok l -> bytes_ok (take n l) /\ bytes_ok (drop n l).
Proof. split; [by apply Forall_take|by apply Forall_drop]. Qed.

End Bytes.

#[export] Hint Rewrite @lenZ_app @lenZ_cons @lenZ_fmap : oram.
#[export] Hint Resolve zeros_ok to_le_ok lenZ_nonneg : oram.

#[global] Arguments to_le : simpl never.
#[global] Arguments from_le : simpl never.
#[global] Arguments lenZ : simpl never.
#[global] Arguments zeros : simpl never.
