(* ===== verification/Ct.v ===== *)
(** * Constant-shape selection helpers ([src/src/ct.rs])

    The [subtle] crate is not part of the repository: its operations are the
    class [Subtle] and its documented behaviour the class [SubtleLaws].  The
    helpers of [ct.rs] are definitions over that interface; [cmov_usize] and the
    masks, which [ct.rs] computes itself, are written out on machine words. *)

From S2P Require Import Prelude.

(** Interface of the [subtle] crate used by the program ([Choice], the bit
    operators, [ConstantTimeEq::ct_eq] and
    [ConditionallySelectable::conditional_assign]). *)
Class Subtle : Type := {
  Choice : Type;
  choice_from_u8 : Z -> Choice;
  unwrap_u8 : Choice -> Z;
  bool_from : Choice -> bool;
  choice_bitnot : Choice -> Choice;
  choice_bitand : Choice -> Choice -> Choice;
  choice_bitor : Choice -> Choice -> Choice;
  ct_eq : Z -> Z -> Choice;
  conditional_assign : Z -> Z -> Choice -> Z
}.

(** Documented behaviour of the crate: a choice is the bit 0 or 1. *)
Class SubtleLaws `{Subtle} : Prop := {
  unwrap_bit : forall c, unwrap_u8 c = 0 \/ unwrap_u8 c = 1;
  unwrap_from_u8 : forall b, b = 0 \/ b = 1 -> unwrap_u8 (choice_from_u8 b) = b;
  bool_from_unwrap : forall c, bool_from c = (unwrap_u8 c =? 1);
  unwrap_bitnot : forall c, unwrap_u8 (choice_bitnot c) = 1 - unwrap_u8 c;
  unwrap_bitand : forall a b, unwrap_u8 (choice_bitand a b) = unwrap_u8 a * unwrap_u8 b;
  unwrap_bitor : forall a b, unwrap_u8 (choice_bitor a b) = Z.max (unwrap_u8 a) (unwrap_u8 b);
  unwrap_ct_eq : forall a b, unwrap_u8 (ct_eq a b) = if a =? b then 1 else 0;
  conditional_assign_spec : forall dst src c,
    conditional_assign dst src c = if unwrap_u8 c =? 1 then src else dst
}.

Section Helpers.
Context `{Subtle}.

Definition bool_to_u8 (b : bool) : Z := if b then 1 else 0.
Definition choice_from_bool (value : bool) : Choice := choice_from_u8 (bool_to_u8 value).
Definition not (c : Choice) : Choice := choice_bitnot c.
Definition and (lhs rhs : Choice) : Choice := choice_bitand lhs rhs.
Definition or (lhs rhs : Choice) : Choice := choice_bitor lhs rhs.

Definition mask8 (c : Choice) : Z := wrap 8 (0 - unwrap_u8 c).
Definition mask32 (c : Choice) : Z := wrap 32 (0 - unwrap_u8 c).
Definition mask64 (c : Choice) : Z := wrap 64 (0 - unwrap_u8 c).

Definition is_zero_u64 (value : Z) : Choice := ct_eq value 0.
Definition eq_u64 (lhs rhs : Z) : Choice := ct_eq lhs rhs.
Definition eq_u32 (lhs rhs : Z) : Choice := ct_eq lhs rhs.
Definition eq_usize (lhs rhs : Z) : Choice := ct_eq lhs rhs.

Definition cmov_u8 (dst src : Z) (c : Choice) : Z := conditional_assign dst src c.
Definition cmov_u32 (dst src : Z) (c : Choice) : Z := conditional_assign dst src c.
Definition cmov_u64 (dst src : Z) (c : Choice) : Z := conditional_assign dst src c.
(** [mask = 0usize.wrapping_sub(choice); *dst ^= ( *dst ^ src) & mask] *)
Definition cmov_usize (dst src : Z) (c : Choice) : Z :=
  Z.lxor dst (Z.land (Z.lxor dst src) (wrap 64 (0 - unwrap_u8 c))).
(** The loop over [dst.iter_mut().zip(src)]. *)
Fixpoint cmov_bytes (dst src : bytes) (c : Choice) : bytes :=
  match dst, src with
  | d :: dst, s :: src => conditional_assign d s c :: cmov_bytes dst src c
  | _, _ => dst
  end.

(** [clear_payload_volatile_if] ([block.rs]) and [clear_payload_if]
    ([circuit.rs]): and every byte with the keep mask [!mask8(choice)]. *)
Definition keep_mask (c : Choice) : Z := Z.lxor 255 (mask8 c).
Definition clear_payload_volatile_if (payload : bytes) (c : Choice) : bytes :=
  (fun current => Z.land current (keep_mask c)) <$> payload.
Definition clear_payload_if (payload : bytes) (c : Choice) : bytes :=
  (fun current => Z.land current (keep_mask c)) <$> payload.

(** The truth value of a choice. *)
Definition truth (c : Choice) : bool := unwrap_u8 c =? 1.

End Helpers.

(** The reference implementation of the interface, used by concrete inputs. *)
Definition bool_subtle : Subtle := {|
  Choice := bool;
  choice_from_u8 := fun b => b =? 1;
  unwrap_u8 := fun b : bool => if b then 1 else 0;
  bool_from := fun b => b;
  choice_bitnot := negb;
  choice_bitand := andb;
  choice_bitor := orb;
  ct_eq := Z.eqb;
  conditional_assign := fun dst src (c : bool) => if c then src else dst
|}.

Lemma bool_subtle_laws : @SubtleLaws bool_subtle.
Proof.
  split; simpl; try (intros []; auto; fail); intros; repeat case_match; naive_solver lia.
Qed.

Section Lemmas.
Context `{SubtleLaws}.

Lemma truth_from_bool b : truth (choice_from_bool b) = b.
Proof. unfold truth, choice_from_bool. rewrite unwrap_from_u8; by destruct b; auto. Qed.
Lemma truth_not c : truth (not c) = negb (truth c).
Proof. unfold truth, not. rewrite unwrap_bitnot. destruct (unwrap_bit c) as [-> | ->]; done. Qed.
Lemma truth_and a b : truth (and a b) = truth a && truth b.
Proof.
  unfold truth, and. rewrite unwrap_bitand.
  by destruct (unwrap_bit a) as [-> | ->], (unwrap_bit b) as [-> | ->].
Qed.
Lemma truth_or a b : truth (or a b) = truth a || truth b.
Proof.
  unfold truth, or. rewrite unwrap_bitor.
  by destruct (unwrap_bit a) as [-> | ->], (unwrap_bit b) as [-> | ->].
Qed.
Lemma truth_ct_eq a b : truth (ct_eq a b) = (a =? b).
Proof. unfold truth. rewrite unwrap_ct_eq. by case_match. Qed.
Lemma truth_eq_u64 a b : truth (eq_u64 a b) = (a =? b).
Proof. apply truth_ct_eq. Qed.
Lemma truth_eq_u32 a b : truth (eq_u32 a b) = (a =? b).
Proof. apply truth_ct_eq. Qed.
Lemma truth_eq_usize a b : truth (eq_usize a b) = (a =? b).
Proof. apply truth_ct_eq. Qed.
Lemma truth_is_zero_u64 a : truth (is_zero_u64 a) = (a =? 0).
Proof. apply truth_ct_eq. Qed.
Lemma truth_bool_from c : bool_from c = truth c.
Proof. apply bool_from_unwrap. Qed.

Lemma unwrap_truth c : unwrap_u8 c = if truth c then 1 else 0.
Proof. unfold truth. by destruct (unwrap_bit c) as [-> | ->]. Qed.
Lemma unwrap_not_truth c : (unwrap_u8 (not c) =? 1) = negb (truth c).
Proof. apply truth_not. Qed.

Lemma conditional_assign_truth dst src c :
  conditional_assign dst src c = if truth c then src else dst.
Proof. apply conditional_assign_spec. Qed.
Lemma cmov_u8_truth dst src c : cmov_u8 dst src c = if truth c then src else dst.
Proof. apply conditional_assign_truth. Qed.
Lemma cmov_u32_truth dst src c : cmov_u32 dst src c = if truth c then src else dst.
Proof. apply conditional_assign_truth. Qed.
Lemma cmov_u64_truth dst src c : cmov_u64 dst src c = if truth c then src else dst.
Proof. apply conditional_assign_truth. Qed.

Lemma cmov_bytes_truth dst src c :
  length dst = length src -> cmov_bytes dst src c = if truth c then src else dst.
Proof.
  revert src. induction dst as [|d dst IH]; intros [|s src] ?; simplify_eq/=; [by case_match|].
  rewrite conditional_assign_truth, IH by done. by case_match.
Qed.

Lemma land_mask64 x : is_u64 x -> Z.land x 18446744073709551615 = x.
Proof.
  intros Hx. change 18446744073709551615 with (Z.ones 64).
  rewrite Z.land_ones by lia. apply Z.mod_small. words.
Qed.

Lemma is_u64_lxor a b : is_u64 a -> is_u64 b -> is_u64 (Z.lxor a b).
Proof.
  unfold is_u64. intros Ha Hb. change 18446744073709551616 with (2 ^ 64) in *.
  split; [apply Z.lxor_nonneg; lia|].
  destruct (decide (Z.lxor a b = 0)) as [->|]; [lia|].
  assert (0 <= Z.lxor a b) by (apply Z.lxor_nonneg; lia).
  apply Z.log2_lt_pow2; [lia|].
  eapply Z.le_lt_trans; [apply Z.log2_lxor; lia|].
  apply Z.max_lub_lt.
  - destruct (decide (a = 0)) as [->|]; [simpl; lia|]. apply Z.log2_lt_pow2; lia.
  - destruct (decide (b = 0)) as [->|]; [simpl; lia|]. apply Z.log2_lt_pow2; lia.
Qed.

Lemma cmov_usize_truth dst src c :
  is_u64 dst -> is_u64 src -> cmov_usize dst src c = if truth c then src else dst.
Proof.
  intros Hd Hs. unfold cmov_usize. rewrite unwrap_truth. destruct (truth c).
  - change (wrap 64 (0 - 1)) with 18446744073709551615.
    rewrite land_mask64 by by apply is_u64_lxor.
    by rewrite <-Z.lxor_assoc, Z.lxor_nilpotent, Z.lxor_0_l.
  - change (wrap 64 (0 - 0)) with 0. by rewrite Z.land_0_r, Z.lxor_0_r.
Qed.

Lemma keep_mask_truth b c : is_u8 b -> Z.land b (keep_mask c) = if truth c then 0 else b.
Proof.
  intros Hb. unfold keep_mask, mask8. rewrite unwrap_truth. destruct (truth c).
  - change (Z.lxor 255 (wrap 8 (0 - 1))) with 0. apply Z.land_0_r.
  - change (Z.lxor 255 (wrap 8 (0 - 0))) with (Z.ones 8).
    rewrite Z.land_ones by lia. apply Z.mod_small. words.
Qed.

Lemma clear_payload_truth l c :
  bytes_ok l -> clear_payload_if l c = if truth c then zeros (lenZ l) else l.
Proof.
  intros Hl. unfold clear_payload_if, zeros, lenZ. rewrite Nat2Z.id.
  induction Hl as [|b l Hb _ IH]; [by case_match|].
  rewrite fmap_cons, keep_mask_truth, IH by done. by case_match.
Qed.
Lemma clear_payload_volatile_truth l c :
  bytes_ok l -> clear_payload_volatile_if l c = if truth c then zeros (lenZ l) else l.
Proof. apply clear_payload_truth. Qed.

End Lemmas.

#[export] Hint Rewrite @truth_from_bool @truth_not @truth_and @truth_or @truth_eq_u64
  @truth_eq_u32 @truth_eq_usize @truth_is_zero_u64 @cmov_u8_truth @cmov_u32_truth
  @cmov_u64_truth @conditional_assign_truth @unwrap_not_truth using typeclasses eauto : ct.

(** Evaluate the choices of the goal to booleans. *)
Ltac ct_simpl := autorewrite with ct.
