(* ===== verification/Block.v ===== *)
(** * Logical ORAM blocks ([src/src/block.rs])

    The slot record, its masked updates and its fixed-size serialization. *)

From S2P Require Import Prelude Ct.

Definition OCCUPIED : Z := 1.
Definition EMPTY : Z := 0.

(** Mirror of [struct OramBlock]. *)
Record OramBlock : Type := mkBlock {
  occupied : bool;
  logical_id : Z;
  leaf : Z;
  payload : bytes
}.

#[global] Instance OramBlock_eq_dec : EqDecision OramBlock.
Proof. solve_decision. Defined.

(** [OramBlock::dummy] *)
Definition block_dummy (block_size : Z) : OramBlock :=
  mkBlock false u64_max u32_max (zeros block_size).

(** [OramBlock::real] *)
Definition block_real (logical_id leaf : Z) (payload : bytes) (block_size : Z) : outcome OramBlock :=
  if lenZ payload =? block_size then Ok (mkBlock true logical_id leaf payload)
  else Err (InvalidInput "payload len {} != block_size {}").

(** [OramBlock::serialized_len] *)
Definition serialized_len (block_size : Z) : Z := 1 + 8 + 4 + block_size.

Section Ops.
Context `{Subtle}.

(** [OramBlock::logical_id_choice] *)
Definition block_logical_id_choice (b : OramBlock) (id : Z) : Choice :=
  and (choice_from_bool (occupied b)) (eq_u64 (logical_id b) id).

(** [OramBlock::cmov_from] *)
Definition block_cmov_from (b other : OramBlock) (c : Choice) : OramBlock :=
  let occ := cmov_u8 (bool_to_u8 (occupied b)) (bool_to_u8 (occupied other)) c in
  mkBlock (negb (occ =? 0))
    (cmov_u64 (logical_id b) (logical_id other) c)
    (cmov_u32 (leaf b) (leaf other) c)
    (cmov_bytes (payload b) (payload other) c).

(** [OramBlock::clear_if] *)
Definition block_clear_if (b : OramBlock) (c : Choice) : OramBlock :=
  let occ := cmov_u8 (bool_to_u8 (occupied b)) EMPTY c in
  mkBlock (negb (occ =? 0))
    (cmov_u64 (logical_id b) u64_max c)
    (cmov_u32 (leaf b) u32_max c)
    (clear_payload_volatile_if (payload b) c).

End Ops.

(** [OramBlock::encode_into]: the new contents of [out]; the four writes tile
    the buffer. *)
Definition block_encode_into (b : OramBlock) (out : bytes) (block_size : Z) : outcome bytes :=
  if negb (lenZ out =? serialized_len block_size)
  then Err (InvalidInput "block output len {} != expected {}")
  else if negb (lenZ (payload b) =? block_size)
  then Err (InvalidInput "payload len {} != block_size {}")
  else Ok ((if occupied b then OCCUPIED else EMPTY)
             :: to_le 8 (logical_id b) ++ to_le 4 (leaf b) ++ payload b).

(** The occupied byte, shared by the block and the metadata-slot decoders. *)
Definition decode_occupied (b : Z) (msg : string) : outcome bool :=
  if b =? EMPTY then Ok false else if b =? OCCUPIED then Ok true else Err (InvalidInput msg).

(** [OramBlock::decode_from] *)
Definition block_decode_from (input : bytes) (block_size : Z) : outcome OramBlock :=
  if negb (lenZ input =? serialized_len block_size)
  then Err (InvalidInput "block input len {} != expected {}")
  else
    let? b0 := indexZ input 0 in
    let? occ := decode_occupied b0 "invalid occupied byte {other}" in
    let? id := slice input 1 8 in
    let? lf := slice input 9 4 in
    let? pl := slice input 13 (lenZ input - 13) in
    Ok (mkBlock occ (from_le id) (from_le lf) pl).

(** ** Well-formed blocks: every field in its machine range. *)
Definition block_ok (block_size : Z) (b : OramBlock) : Prop :=
  is_u64 (logical_id b) /\ is_u32 (leaf b) /\ lenZ (payload b) = block_size /\ bytes_ok (payload b).

Definition set_payload (pl : bytes) (b : OramBlock) : OramBlock :=
  mkBlock (occupied b) (logical_id b) (leaf b) pl.
Definition set_leaf (lf : Z) (b : OramBlock) : OramBlock :=
  mkBlock (occupied b) (logical_id b) lf (payload b).

Section Lemmas.

Lemma block_dummy_ok bs : 0 <= bs -> block_ok bs (block_dummy bs).
Proof. intros. split_and!; simpl; [words..|by apply lenZ_zeros|auto with oram]. Qed.

Lemma block_real_ok id lf pl bs :
  is_u64 id -> is_u32 lf -> bytes_ok pl -> lenZ pl = bs ->
  block_real id lf pl bs = Ok (mkBlock true id lf pl) /\ block_ok bs (mkBlock true id lf pl).
Proof. intros. unfold block_real. by rewrite (proj2 (Z.eqb_eq _ _)). Qed.

Section Masked.
Context `{SubtleLaws}.

Lemma truth_logical_id_choice b id :
  truth (block_logical_id_choice b id) = occupied b && (logical_id b =? id).
Proof. unfold block_logical_id_choice. by ct_simpl. Qed.

Lemma occ_mask (b c : bool) : negb ((if b then 1 else 0) =? 0) = b.
Proof. by destruct b. Qed.

Lemma block_cmov_from_truth b other c :
  length (payload b) = length (payload other) ->
  block_cmov_from b other c = if truth c then other else b.
Proof.
  intros. unfold block_cmov_from. ct_simpl. rewrite cmov_bytes_truth by done.
  destruct b as [[] ???], other as [[] ???]; by destruct (truth c).
Qed.

Lemma block_clear_if_truth bs b c :
  block_ok bs b -> block_clear_if b c = if truth c then block_dummy bs else b.
Proof.
  intros (_ & _ & Hl & Hp). unfold block_clear_if. ct_simpl.
  rewrite clear_payload_volatile_truth, Hl by done. destruct b as [[] ???]; by destruct (truth c).
Qed.

End Masked.

Lemma block_encode_length b out bs r :
  block_encode_into b out bs = Ok r -> lenZ r = serialized_len bs.
Proof.
  unfold block_encode_into, serialized_len. do 2 (case_match; [done|]).
  intros <-%Ok_inj. unfold lenZ in *. cbn [length]. rewrite ?length_app, ?to_le_length. lia.
Qed.

Lemma block_encode_ok bs b out :
  block_ok bs b -> lenZ out = serialized_len bs ->
  block_encode_into b out bs = Ok ((if occupied b then OCCUPIED else EMPTY)
             :: to_le 8 (logical_id b) ++ to_le 4 (leaf b) ++ payload b).
Proof.
  intros (_ & _ & Hl & _) Ho. unfold block_encode_into. by rewrite Ho, Hl, !Z.eqb_refl.
Qed.

(** Field extraction from an encoded slot, shared with the metadata codec. *)
Lemma decode_fields (b0 : Z) (i8 i4 pl : bytes) :
  length i8 = 8%nat -> length i4 = 4%nat ->
  indexZ (b0 :: i8 ++ i4 ++ pl) 0 = Ok b0 /\
  slice (b0 :: i8 ++ i4 ++ pl) 1 8 = Ok i8 /\
  slice (b0 :: i8 ++ i4 ++ pl) 9 4 = Ok i4 /\
  slice (b0 :: i8 ++ i4 ++ pl) 13 (lenZ (b0 :: i8 ++ i4 ++ pl) - 13) = Ok pl.
Proof.
  intros H8 H4. split; [done|]. split; [|split].
  - apply (slice_app [b0]); unfold lenZ; simpl; lia.
  - apply (slice_app (b0 :: i8)); unfold lenZ; simpl; lia.
  - change (b0 :: i8 ++ i4 ++ pl) with ([b0] ++ i8 ++ i4 ++ pl). rewrite !app_assoc.
    apply slice_suffix; unfold lenZ; rewrite ?length_app; simpl; lia.
Qed.

(** Every 13-byte-headed buffer splits into the four fields. *)
Lemma slot_split (input : bytes) n :
  0 <= n -> lenZ input = 13 + n ->
  exists b0 i8 i4 pl, input = b0 :: i8 ++ i4 ++ pl /\
    length i8 = 8%nat /\ length i4 = 4%nat /\ lenZ pl = n.
Proof.
  intros Hn Hl. destruct input as [|b0 input]; [unfold lenZ in Hl; simpl in *; lia|].
  exists b0, (take 8 input), (take 4 (drop 8 input)), (drop 4 (drop 8 input)).
  rewrite lenZ_cons in Hl. unfold lenZ in *.
  split; [by rewrite !take_drop|]. rewrite !length_take, !length_drop. lia.
Qed.

Lemma decode_occupied_bool (o : bool) msg :
  decode_occupied (if o then OCCUPIED else EMPTY) msg = Ok o.
Proof. by destruct o. Qed.

Lemma decode_occupied_Ok b msg o :
  decode_occupied b msg = Ok o -> b = if o then OCCUPIED else EMPTY.
Proof.
  unfold decode_occupied. repeat case_match; zbool; naive_solver.
Qed.

Lemma from_le_u64 l : bytes_ok l -> length l = 8%nat -> is_u64 (from_le l).
Proof. intros H Hl. pose proof (from_le_bound l H) as Hb. unfold lenZ in Hb. rewrite Hl in Hb. words. Qed.
Lemma from_le_u32 l : bytes_ok l -> length l = 4%nat -> is_u32 (from_le l).
Proof. intros H Hl. pose proof (from_le_bound l H) as Hb. unfold lenZ in Hb. rewrite Hl in Hb. words. Qed.

Lemma decode_encode_block_aux bs b out r :
  block_ok bs b -> block_encode_into b out bs = Ok r -> block_decode_from r bs = Ok b.
Proof.
  intros Hok He. pose proof (block_encode_length _ _ _ _ He) as Hlen.
  destruct Hok as (Hid & Hlf & Hl & Hp).
  unfold block_encode_into in He. do 2 (case_match; [done|]). apply Ok_inj in He as <-.
  unfold block_decode_from. rewrite Hlen, Z.eqb_refl. cbn [negb]. rewrite <-Hlen.
  destruct (decode_fields (if occupied b then OCCUPIED else EMPTY) (to_le 8 (logical_id b))
    (to_le 4 (leaf b)) (payload b)) as (-> & -> & -> & ->); [apply to_le_length..|].
  cbn [obind]. rewrite decode_occupied_bool. cbn [obind].
  rewrite !from_to_le, !Z.mod_small by words. by destruct b.
Qed.

Lemma encode_decode_block_aux bs b out input :
  0 <= bs -> bytes_ok input -> lenZ out = serialized_len bs ->
  block_decode_from input bs = Ok b ->
  block_ok bs b /\ block_encode_into b out bs = Ok input.
Proof.
  intros Hbs Hin Hout. unfold block_decode_from.
  destruct (lenZ input =? serialized_len bs) eqn:E; [|done]. cbn [negb]. zbool.
  destruct (slot_split input bs) as (b0 & i8 & i4 & pl & -> & H8 & H4 & Hpl); [done|done|].
  destruct (decode_fields b0 i8 i4 pl) as (-> & -> & -> & ->); [done..|]. cbn [obind].
  rewrite obind_Ok. intros (o & Ho & [= <-]). apply decode_occupied_Ok in Ho as ->.
  apply Forall_cons in Hin as [_ Hin]. apply Forall_app in Hin as [Hin8 Hin].
  apply Forall_app in Hin as [Hin4 Hinp].
  assert (block_ok bs (mkBlock o (from_le i8) (from_le i4) pl)) as Hok.
  { split_and!; simpl; [by apply from_le_u64|by apply from_le_u32|done|done]. }
  split; [done|]. rewrite (block_encode_ok _ _ _ Hok Hout).
  cbn [occupied logical_id leaf payload]. by rewrite (to_from_le_len 8), (to_from_le_len 4).
Qed.

End Lemmas.

(** ** Properties *)

(** The serialized form of a block is a bijection: encoding a well-formed
    block into a buffer of the right length succeeds with [serialized_len] bytes
    that decode to the block, whatever the buffer held; and any byte string that
    decodes is the encoding of the block it decodes to. *)
Theorem block_codec_bijective (bs : Z) (b : OramBlock) (out input : bytes) :
  0 <= bs -> bytes_ok input -> lenZ out = serialized_len bs ->
  (block_ok bs b ->
     exists enc, block_encode_into b out bs = Ok enc /\ lenZ enc = serialized_len bs /\
       block_decode_from enc bs = Ok b) /\
  (block_decode_from input bs = Ok b -> block_ok bs b /\ block_encode_into b out bs = Ok input).
Proof.
  intros Hbs Hin Hout. split; [|by apply encode_decode_block_aux].
  intros Hb. pose proof (block_encode_ok _ _ _ Hb Hout) as E. eexists. split; [exact E|]. split.
  - exact (block_encode_length _ _ _ _ E).
  - exact (decode_encode_block_aux _ _ _ _ Hb E).
Qed.

Lemma block_codec_bijective_witness :
  exists enc, block_encode_into (mkBlock true 7 3 [1; 2]) (zeros 15) 2 = Ok enc /\ lenZ enc = 15 /\
    block_decode_from enc 2 = Ok (mkBlock true 7 3 [1; 2]).
Proof.
  refine (proj1 (block_codec_bijective 2 (mkBlock true 7 3 [1; 2]) (zeros 15) [] _ _ _) _).
  - discriminate.
  - apply Forall_nil. exact I.
  - reflexivity.
  - split_and!; [split; vm_compute; intuition discriminate..|reflexivity|].
    repeat constructor; vm_compute; intuition discriminate.
Defined.
