(* ===== verification/Params.v ===== *)
(** * ORAM sizing parameters and tree geometry ([src/src/params.rs])

    Heap-array node numbering of the complete binary tree, root-to-leaf paths
    and the constructors' checks. *)

From S2P Require Import Prelude Block.

(** Mirror of [struct OramParams]; every field is a [usize]. *)
Record OramParams : Type := mkParams {
  logical_blocks : Z;
  block_size : Z;
  bucket_size : Z;
  leaves : Z;
  stash_capacity : Z
}.

#[global] Instance OramParams_eq_dec : EqDecision OramParams.
Proof. solve_decision. Defined.

(** [OramParams::leaf_bits] *)
Definition leaf_bits (p : OramParams) : Z := trailing_zeros (leaves p).

(** [OramParams::height] *)
Definition height (p : OramParams) : Z := leaf_bits p + 1.

(** [OramParams::with_leaves] *)
Definition with_leaves (lb bs lv : Z) : outcome OramParams :=
  if lb =? 0 then Err (InvalidParams "logical_blocks must be > 0")
  else if bs =? 0 then Err (InvalidParams "block_size must be > 0")
  else if negb (is_power_of_two lv) || (lv <? 2)
  then Err (InvalidParams "leaves must be a power of two >= 2")
  else if u32_max <? lv then Err (InvalidParams "leaves must fit in u32 leaf labels")
  else Ok (mkParams lb bs 4 lv 512).

(** [OramParams::new] *)
Definition params_new (lb bs : Z) : outcome OramParams :=
  with_leaves lb bs (next_power_of_two (Z.max lb 2)).

(** [OramParams::with_bucket_size] *)
Definition with_bucket_size (p : OramParams) (bsz : Z) : outcome OramParams :=
  if bsz =? 0 then Err (InvalidParams "bucket_size must be > 0")
  else Ok (mkParams (logical_blocks p) (block_size p) bsz (leaves p) (stash_capacity p)).

(** [OramParams::with_stash_capacity]: the product wraps as a release build's
    [usize] multiplication does. *)
Definition with_stash_capacity (p : OramParams) (cap : Z) : outcome OramParams :=
  if cap <? wrap 64 (bucket_size p * height p)
  then Err (InvalidParams "stash_capacity should be at least bucket_size * height")
  else Ok (mkParams (logical_blocks p) (block_size p) (bucket_size p) (leaves p) cap).

(** [OramParams::bucket_count] *)
Definition bucket_count (p : OramParams) : Z := leaves p * 2 - 1.

(** [OramParams::bucket_bytes] *)
Definition bucket_bytes (p : OramParams) : Z := bucket_size p * serialized_len (block_size p).

(** [OramParams::node_index] *)
Definition node_index (p : OramParams) (depth lf : Z) : Z :=
  let level_offset := Z.shiftl 1 depth - 1 in
  if depth =? 0 then level_offset
  else
    let shift := leaf_bits p - depth in
    level_offset + Z.land (Z.shiftr lf shift) (Z.shiftl 1 depth - 1).

(** [OramParams::path_nodes] *)
Definition path_nodes (p : OramParams) (lf : Z) : list Z :=
  (fun depth => node_index p depth lf) <$> seqZ 0 (height p).

(** [OramParams::node_contains_leaf] *)
Definition node_contains_leaf (p : OramParams) (depth node_idx lf : Z) : bool :=
  node_index p depth lf =? node_idx.

(** ** Well-formed parameters: what the constructors accept. *)
Record params_ok (p : OramParams) : Prop := {
  ok_blocks : 0 < logical_blocks p;
  ok_block_size : 0 < block_size p;
  ok_bucket_size : 0 < bucket_size p;
  ok_leaves : leaves p = 2 ^ leaf_bits p;
  ok_bits : 1 <= leaf_bits p < 32;
  ok_capacity : 0 <= stash_capacity p
}.

(** A leaf label of the tree. *)
Definition leaf_ok (p : OramParams) (lf : Z) : Prop := 0 <= lf < leaves p.

(** The parent and children of a heap-array node. *)
Definition left_child (n : Z) : Z := n * 2 + 1.
Definition right_child (n : Z) : Z := n * 2 + 2.

(** A root-to-descendant path inside a tree of [count] pages. *)
Fixpoint descends (count parent : Z) (path : list Z) : Prop :=
  match path with
  | [] => True
  | n :: path => n < count /\ (n = left_child parent \/ n = right_child parent) /\ descends count n path
  end.
Definition tree_path (count : Z) (path : list Z) : Prop :=
  exists rest, path = 0 :: rest /\ 0 < count /\ descends count 0 rest.

(** The dummy block of a parameter set is well formed. *)
Lemma dummy_ok p : params_ok p -> block_ok (block_size p) (block_dummy (block_size p)).
Proof. intros []. apply block_dummy_ok. lia. Qed.

Section Constructors.

Lemma with_leaves_ok lb bs lv p :
  0 <= lb -> 0 <= bs -> with_leaves lb bs lv = Ok p ->
  params_ok p /\ logical_blocks p = lb /\ block_size p = bs /\ leaves p = lv.
Proof.
  intros Hlb Hbs. unfold with_leaves. do 2 (case_match; [done|]).
  destruct (negb _ || _) eqn:Hpow; [done|]. case_match; [done|]. intros [= <-].
  apply orb_false_iff in Hpow as [Hpow%negb_false_iff%is_power_of_two_eq ?]. zbool.
  split; [|done]. unfold leaf_bits. split; cbn [logical_blocks block_size bucket_size leaves stash_capacity];
    try lia; [done|].
  destruct lv as [|q|]; try lia. unfold leaf_bits. cbn [leaves trailing_zeros] in *. pose proof (pos_trailing_zeros_nonneg q).
  split.
  - destruct (decide (pos_trailing_zeros q = 0)) as [E|]; [rewrite E in Hpow; simpl in Hpow; lia|lia].
  - apply (Z.pow_lt_mono_r_iff 2); [lia|lia|]. unfold u32_max in *. lia.
Qed.

Lemma with_bucket_size_ok p bsz p' :
  params_ok p -> 0 <= bsz -> with_bucket_size p bsz = Ok p' -> params_ok p'.
Proof.
  intros [] Hb. unfold with_bucket_size. case_match; [done|]. intros [= <-]. zbool.
  split; simpl; auto; lia.
Qed.

Lemma with_stash_capacity_ok p cap p' :
  params_ok p -> 0 <= cap -> with_stash_capacity p cap = Ok p' -> params_ok p'.
Proof.
  intros [] Hb. unfold with_stash_capacity. case_match; [done|]. intros [= <-]. split; simpl; auto.
Qed.

End Constructors.

Section Geometry.
Context (p : OramParams) (Hp : params_ok p).

Lemma height_pos : 2 <= height p <= 32.
Proof. destruct Hp. unfold height. lia. Qed.

Lemma leaves_pos : 2 <= leaves p /\ leaves p < 2 ^ 32.
Proof.
  destruct Hp. rewrite ok_leaves0. split.
  - replace 2 with (2 ^ 1) at 1 by done. apply Z.pow_le_mono_r; lia.
  - apply Z.pow_lt_mono_r; lia.
Qed.

Lemma leaf_ok_u32 lf : leaf_ok p lf -> is_u32 lf.
Proof. pose proof leaves_pos. unfold leaf_ok, is_u32. lia. Qed.

Lemma leaf_lt_pow lf : leaf_ok p lf -> 0 <= lf < 2 ^ leaf_bits p.
Proof. unfold leaf_ok. by rewrite <-(ok_leaves p Hp). Qed.

(** The mask of [node_index] is redundant on valid leaves: the node is the
    leaf's prefix of [depth] bits. *)
Lemma node_index_eq depth lf :
  leaf_ok p lf -> 0 <= depth < height p ->
  node_index p depth lf = 2 ^ depth - 1 + lf / 2 ^ (leaf_bits p - depth).
Proof.
  intros Hlf%leaf_lt_pow Hd. unfold node_index, height in *.
  rewrite Z.shiftl_1_l. destruct (depth =? 0) eqn:E; zbool.
  - subst. rewrite Z.sub_0_r, Z.div_small by lia. lia.
  - replace (2 ^ depth - 1) with (Z.ones depth) at 2 by (rewrite Z.ones_equiv; lia).
    rewrite Z.land_ones, Z.shiftr_div_pow2 by lia. f_equal. apply Z.mod_small. split.
    + apply Z.div_pos; lia.
    + apply Z.div_lt_upper_bound; [lia|]. rewrite <-Z.pow_add_r by lia.
      replace (leaf_bits p - depth + depth) with (leaf_bits p) by lia. lia.
Qed.

Lemma prefix_bound depth lf :
  leaf_ok p lf -> 0 <= depth < height p -> 0 <= lf / 2 ^ (leaf_bits p - depth) < 2 ^ depth.
Proof.
  intros Hlf%leaf_lt_pow Hd. unfold height in Hd. split; [apply Z.div_pos; lia|].
  apply Z.div_lt_upper_bound; [lia|]. rewrite <-Z.pow_add_r by lia.
  replace (leaf_bits p - depth + depth) with (leaf_bits p) by lia. lia.
Qed.

Lemma node_index_bound depth lf :
  leaf_ok p lf -> 0 <= depth < height p ->
  2 ^ depth - 1 <= node_index p depth lf < 2 ^ (depth + 1) - 1.
Proof.
  intros Hlf Hd. rewrite node_index_eq by done. pose proof (prefix_bound depth lf Hlf Hd).
  rewrite Z.pow_add_r by lia. lia.
Qed.

Lemma bucket_count_eq : bucket_count p = 2 ^ height p - 1.
Proof. unfold bucket_count, height. rewrite Z.pow_add_r, (ok_leaves p Hp); destruct Hp; lia. Qed.

Lemma node_index_range depth lf :
  leaf_ok p lf -> 0 <= depth < height p -> 0 <= node_index p depth lf < bucket_count p.
Proof.
  intros Hlf Hd. pose proof (node_index_bound depth lf Hlf Hd). rewrite bucket_count_eq.
  assert (1 <= 2 ^ depth) by (apply (Z.pow_le_mono_r 2 0); lia).
  assert (2 ^ (depth + 1) <= 2 ^ height p) by (apply Z.pow_le_mono_r; lia). lia.
Qed.

Lemma node_index_child depth lf :
  leaf_ok p lf -> 0 <= depth -> depth + 1 < height p ->
  node_index p (depth + 1) lf = left_child (node_index p depth lf) \/
  node_index p (depth + 1) lf = right_child (node_index p depth lf).
Proof.
  intros Hlf Hd Hd'. rewrite !node_index_eq by (done || lia). unfold height in Hd'.
  rewrite (Z.pow_add_r 2 depth 1) by lia.
  replace (leaf_bits p - depth) with (leaf_bits p - (depth + 1) + 1) by lia.
  rewrite (Z.pow_add_r 2 (leaf_bits p - (depth + 1)) 1), <-Z.div_div by lia.
  change (2 ^ 1) with 2. unfold left_child, right_child.
  set (q := lf / 2 ^ (leaf_bits p - (depth + 1))).
  pose proof (Z.div_mod q 2). pose proof (Z.mod_pos_bound q 2). lia.
Qed.

(** Sharing a node means sharing every node above it. *)
Lemma node_index_ancestor d d' lf lf' :
  leaf_ok p lf -> leaf_ok p lf' -> 0 <= d <= d' -> d' < height p ->
  node_index p d' lf = node_index p d' lf' -> node_index p d lf = node_index p d lf'.
Proof.
  intros Hlf Hlf' Hd Hd'. rewrite !node_index_eq by (done || lia). intros E.
  assert (lf / 2 ^ (leaf_bits p - d') = lf' / 2 ^ (leaf_bits p - d')) as E' by lia.
  f_equal. unfold height in Hd'.
  replace (leaf_bits p - d) with ((leaf_bits p - d') + (d' - d)) by lia.
  rewrite Z.pow_add_r, <-!Z.div_div by lia. by rewrite E'.
Qed.

(** The level of a node is determined by its index. *)
Lemma node_index_depth d d' lf lf' :
  leaf_ok p lf -> leaf_ok p lf' -> 0 <= d < height p -> 0 <= d' < height p ->
  node_index p d lf = node_index p d' lf' -> d = d'.
Proof.
  intros Hlf Hlf' Hd Hd' E.
  pose proof (node_index_bound d lf Hlf Hd). pose proof (node_index_bound d' lf' Hlf' Hd').
  destruct (Z.lt_trichotomy d d') as [Hlt|[?|Hlt]]; [|done|].
  - assert (2 ^ (d + 1) <= 2 ^ d') by (apply Z.pow_le_mono_r; lia). lia.
  - assert (2 ^ (d' + 1) <= 2 ^ d) by (apply Z.pow_le_mono_r; lia). lia.
Qed.

Lemma path_nodes_length lf : lenZ (path_nodes p lf) = height p.
Proof.
  unfold path_nodes. rewrite lenZ_fmap. unfold lenZ. rewrite length_seqZ.
  pose proof height_pos. lia.
Qed.

Lemma path_nodes_lookup lf (d : nat) n :
  path_nodes p lf !! d = Some n <-> Z.of_nat d < height p /\ n = node_index p (Z.of_nat d) lf.
Proof.
  unfold path_nodes. rewrite list_lookup_fmap, fmap_Some. setoid_rewrite lookup_seqZ. split.
  - intros (z & [-> ?] & ->). by rewrite Z.add_0_l.
  - intros [? ->]. exists (Z.of_nat d). by rewrite Z.add_0_l.
Qed.

Lemma elem_of_path_nodes lf n :
  n ∈ path_nodes p lf <-> exists d, 0 <= d < height p /\ n = node_index p d lf.
Proof.
  unfold path_nodes. rewrite list_elem_of_fmap. setoid_rewrite elem_of_seqZ.
  split; intros (d & ? & ?); exists d; split; (done || lia).
Qed.

Lemma path_nodes_NoDup lf : leaf_ok p lf -> NoDup (path_nodes p lf).
Proof.
  intros Hlf. unfold path_nodes. apply NoDup_fmap_2_strong; [|apply NoDup_seqZ].
  intros d d' Hd%elem_of_seqZ Hd'%elem_of_seqZ E. eapply node_index_depth; [..|exact E]; (done || lia).
Qed.

Lemma path_nodes_range lf n : leaf_ok p lf -> n ∈ path_nodes p lf -> 0 <= n < bucket_count p.
Proof. intros Hlf (d & Hd & ->)%elem_of_path_nodes. by apply node_index_range. Qed.

Lemma path_descends lf k d :
  leaf_ok p lf -> 0 <= d -> d + 1 + Z.of_nat k <= height p ->
  descends (bucket_count p) (node_index p d lf)
    ((fun depth => node_index p depth lf) <$> seqZ (d + 1) (Z.of_nat k)).
Proof.
  intros Hlf. revert d. induction k as [|k IH]; intros d Hd Hk; [done|].
  rewrite seqZ_cons by lia. cbn [fmap list_fmap descends]. split_and!.
  - apply node_index_range; (done || lia).
  - apply node_index_child; (done || lia).
  - replace (Z.succ (d + 1)) with (d + 1 + 1) by lia.
    replace (Z.pred (Z.of_nat (S k))) with (Z.of_nat k) by lia. apply IH; lia.
Qed.

Lemma path_nodes_tree_path lf : leaf_ok p lf -> tree_path (bucket_count p) (path_nodes p lf).
Proof.
  intros Hlf. pose proof height_pos. pose proof leaves_pos.
  exists ((fun depth => node_index p depth lf) <$> seqZ 1 (leaf_bits p)). split_and!.
  - unfold path_nodes. rewrite seqZ_cons by lia. cbn [fmap list_fmap]. f_equal.
    f_equal. f_equal. unfold height. lia.
  - unfold bucket_count. lia.
  - pose proof (path_descends lf (Z.to_nat (leaf_bits p)) 0 Hlf ltac:(lia)) as Hdesc.
    unfold height in *. rewrite Z2Nat.id in Hdesc by lia. apply Hdesc. lia.
Qed.

End Geometry.

(** ** Properties *)

(** For every leaf of a well-formed tree, [path_nodes] lists [height]
    distinct in-range pages, starting at the root and each a child of the one
    before; two leaves share a node at a level exactly when their labels agree on
    that many leading bits. *)
Theorem path_nodes_correct p lf lf' :
  params_ok p -> leaf_ok p lf -> leaf_ok p lf' ->
  lenZ (path_nodes p lf) = height p /\ NoDup (path_nodes p lf) /\
  tree_path (bucket_count p) (path_nodes p lf) /\
  (forall n, n ∈ path_nodes p lf -> 0 <= n < bucket_count p) /\
  (forall d, 0 <= d < height p ->
     node_contains_leaf p d (node_index p d lf) lf' = true <->
     lf / 2 ^ (leaf_bits p - d) = lf' / 2 ^ (leaf_bits p - d)).
Proof.
  intros Hp Hlf Hlf'. split_and!.
  - by apply path_nodes_length.
  - by apply path_nodes_NoDup.
  - by apply path_nodes_tree_path.
  - intros n. by apply path_nodes_range.
  - intros d Hd. unfold node_contains_leaf. rewrite Z.eqb_eq, !node_index_eq by done. lia.
Qed.

Lemma path_nodes_correct_witness :
  let p := mkParams 16 32 2 8 128 in
  path_nodes p 5 = [0; 2; 5; 12] /\ NoDup (path_nodes p 5).
Proof.
  assert (params_ok (mkParams 16 32 2 8 128)) as Hp by (split; vm_compute; intuition discriminate).
  split; [reflexivity|].
  apply (path_nodes_correct (mkParams 16 32 2 8 128) 5 4 Hp); vm_compute; intuition discriminate.
Defined.

(** C30: a parameter set built by [with_leaves], [with_bucket_size] and
    [with_stash_capacity] is well formed, its page count is
    [2 ^ height - 1], and the stash bound the builder promises holds as long as
    [bucket_size * height] does not wrap a 64-bit word. *)
Theorem params_builder_ok lb bs lv bsz cap p1 p2 p3 :
  0 <= lb -> 0 <= bs -> 0 <= bsz -> 0 <= cap ->
  with_leaves lb bs lv = Ok p1 -> with_bucket_size p1 bsz = Ok p2 ->
  with_stash_capacity p2 cap = Ok p3 ->
  params_ok p3 /\ bucket_count p3 = 2 ^ height p3 - 1 /\
  (bsz < 2 ^ 58 -> bsz * height p3 <= stash_capacity p3).
Proof.
  intros Hlb Hbs Hbsz Hcap H1 H2 H3.
  pose proof (with_leaves_ok _ _ _ _ Hlb Hbs H1) as (Hp1 & _).
  pose proof (with_bucket_size_ok _ _ _ Hp1 Hbsz H2) as Hp2.
  pose proof (with_stash_capacity_ok _ _ _ Hp2 Hcap H3) as Hp3.
  split_and!; [done|by apply bucket_count_eq|]. intros Hsmall.
  pose proof (height_pos p2 Hp2) as Hh.
  unfold with_stash_capacity in H3. unfold with_bucket_size in H2.
  case_match; [done|]. case_match; [done|]. injection H2 as <-. injection H3 as <-.
  cbn [bucket_size stash_capacity] in *. zbool.
  unfold height, leaf_bits in *; cbn [leaves] in *.
  rewrite wrap_small in * by (split; [nia|]; change (2 ^ 64) with (2 ^ 58 * 64); nia).
  lia.
Qed.

Lemma params_builder_ok_witness :
  params_ok (mkParams 16 32 2 8 128) /\ 2 * height (mkParams 16 32 2 8 128) <= 128.
Proof.
  destruct (params_builder_ok 16 32 8 2 128 (mkParams 16 32 4 8 512) (mkParams 16 32 2 8 512)
    (mkParams 16 32 2 8 128)) as (H & _ & H'); try reflexivity; try lia.
  split; [exact H|]. apply H'. reflexivity.
Defined.
