(* ===== verification/Store.v ===== *)
(** * Page-store interfaces and the in-memory store ([src/src/store.rs])

    [PageStore] and [PathPageStore] are the traits of the source; their laws
    [LawfulPageStore] and [LawfulPathStore] are the contract the ORAM controller
    relies on: a store behaves as an array of fixed-size pages.  The blanket
    implementation of the path trait and [MemPageStore] are verified here, the
    other stores in their own files. *)

From S2P Require Import Prelude Params.

(** Mirror of [struct TieredMerkleState] ([merkle.rs]). *)
Record TieredMerkleState : Type := mkTieredMerkleState {
  tms_store_id : bytes;
  tms_page_count : Z;
  tms_page_size : Z;
  tms_trusted_levels : Z;
  tms_hash_page_size : Z;
  tms_trusted_hashes : list bytes
}.

(** Mirror of [struct EmbeddedTreeState] ([embedded_tree.rs]). *)
Record EmbeddedTreeState : Type := mkEmbeddedTreeState {
  ets_store_id : bytes;
  ets_page_count : Z;
  ets_logical_page_size : Z;
  ets_root_hash : bytes
}.

#[global] Instance TieredMerkleState_eq_dec : EqDecision TieredMerkleState.
Proof. solve_decision. Defined.
#[global] Instance EmbeddedTreeState_eq_dec : EqDecision EmbeddedTreeState.
Proof. solve_decision. Defined.

(** The trait [PageStore]; a read takes the caller's buffer and returns its new
    contents. *)
Class PageStore (S : Type) : Type := {
  ps_page_size : S -> Z;
  ps_page_count : S -> Z;
  ps_read_page : Z -> bytes -> M S bytes;
  ps_write_page : Z -> bytes -> M S unit;
  ps_read_pages : list Z -> M S (list bytes);
  ps_write_pages : list Z -> list bytes -> M S unit;
  ps_flush : M S unit;
  ps_tiered_merkle_state : S -> option TieredMerkleState
}.

(** The trait [PathPageStore]. *)
Class PathPageStore (S : Type) : Type := {
  pp_page_size : S -> Z;
  pp_page_count : S -> Z;
  pp_read_path_pages : list Z -> M S (list bytes);
  pp_write_path_pages : list Z -> list bytes -> M S unit;
  pp_read_paths_pages : list (list Z) -> M S (list (list bytes));
  pp_write_paths_pages : list (list Z) -> list (list bytes) -> M S unit;
  pp_flush : M S unit;
  pp_tiered_merkle_state : S -> option TieredMerkleState;
  pp_embedded_tree_state : S -> option EmbeddedTreeState
}.

Section Defaults.
Context {S : Type} (page_size page_count : S -> Z)
  (read_page : Z -> bytes -> M S bytes) (write_page : Z -> bytes -> M S unit).

(** The trait's default [read_pages]. *)
Definition default_read_pages (page_indices : list Z) : M S (list bytes) :=
  let* size := gets page_size in
  mapM (fun page_idx => read_page page_idx (zeros size)) page_indices.

(** The trait's default [write_pages]. *)
Definition default_write_pages (page_indices : list Z) (pages : list bytes) : M S unit :=
  let* _ := guardm (lenZ page_indices =? lenZ pages)
              (InvalidInput "page index count {} != page count {}") in
  let* size := gets page_size in
  iterM (fun ip : Z * bytes =>
           let* _ := guardm (lenZ ip.2 =? size) (InvalidInput "page len {} != page_size {}") in
           write_page ip.1 ip.2)
        (zip page_indices pages).

(** The helper [check_page]. *)
Definition check_page (page_idx len : Z) : M S unit :=
  let* count := gets page_count in
  let* _ := guardm (negb (count <=? page_idx)) (InvalidInput "page_idx {} out of range {}") in
  let* size := gets page_size in
  guardm (len =? size) (InvalidInput "page buffer len {} != page_size {}").

End Defaults.

(** ** In-memory page store *)

(** Mirror of [struct MemPageStore]. *)
Record MemPageStore : Type := mkMem { mem_page_size : Z; mem_pages : bytes }.

(** [MemPageStore::new] *)
Definition mem_new (page_count page_size : Z) : outcome MemPageStore :=
  if (page_count =? 0) || (page_size =? 0)
  then Err (InvalidInput "page_count and page_size must be > 0")
  else Ok (mkMem page_size (zeros (page_count * page_size))).

Definition mem_page_count (s : MemPageStore) : Z := lenZ (mem_pages s) / mem_page_size s.

(** [<MemPageStore as PageStore>::read_page] *)
Definition mem_read_page (page_idx : Z) (out : bytes) : M MemPageStore bytes :=
  let* _ := check_page mem_page_size mem_page_count page_idx (lenZ out) in
  let* s := gets (fun s => s) in
  let start := page_idx * mem_page_size s in
  let* src := lift (slice (mem_pages s) start (mem_page_size s)) in
  lift (copy_from_slice out src).

(** [<MemPageStore as PageStore>::write_page] *)
Definition mem_write_page (page_idx : Z) (input : bytes) : M MemPageStore unit :=
  let* _ := check_page mem_page_size mem_page_count page_idx (lenZ input) in
  let* s := gets (fun s => s) in
  let start := page_idx * mem_page_size s in
  let* pages := lift (splice (mem_pages s) start input) in
  modify (fun s => mkMem (mem_page_size s) pages).

#[export] Instance mem_page_store : PageStore MemPageStore := {|
  ps_page_size := mem_page_size;
  ps_page_count := mem_page_count;
  ps_read_page := mem_read_page;
  ps_write_page := mem_write_page;
  ps_read_pages := default_read_pages mem_page_size mem_read_page;
  ps_write_pages := default_write_pages mem_page_size mem_write_page;
  ps_flush := ret tt;
  ps_tiered_merkle_state := fun _ => None
|}.

(** ** The blanket implementation [impl<T: PageStore> PathPageStore for T] *)

Section Blanket.
Context {S : Type} `{PageStore S}.

(** Hand the flat pages back path by path; [iter.next().expect(..)] panics. *)
Fixpoint regroup (paths : list (list Z)) (flat : list bytes) : outcome (list (list bytes)) :=
  match paths with
  | [] => Ok []
  | path :: paths =>
      if (length path <=? length flat)%nat
      then let? rest := regroup paths (drop (length path) flat) in
           Ok (take (length path) flat :: rest)
      else Panic
  end.

Definition flat_read_paths_pages (paths : list (list Z)) : M S (list (list bytes)) :=
  let* flat_pages := ps_read_pages (concat paths) in
  lift (regroup paths flat_pages).

Definition flat_write_paths_pages (paths : list (list Z)) (pages : list (list bytes)) : M S unit :=
  let* _ := guardm (lenZ paths =? lenZ pages)
              (InvalidInput "path count {} != page-path count {}") in
  let* _ := guardm (forallb (fun pp : list Z * list bytes => lenZ pp.1 =? lenZ pp.2) (zip paths pages))
              (InvalidInput "path length {} != page count {}") in
  ps_write_pages (concat paths) (concat pages).

End Blanket.

#[export] Instance blanket_path_store {S} `{PageStore S} : PathPageStore S | 100 := {|
  pp_page_size := ps_page_size;
  pp_page_count := ps_page_count;
  pp_read_path_pages := ps_read_pages;
  pp_write_path_pages := ps_write_pages;
  pp_read_paths_pages := flat_read_paths_pages;
  pp_write_paths_pages := flat_write_paths_pages;
  pp_flush := ps_flush;
  pp_tiered_merkle_state := ps_tiered_merkle_state;
  pp_embedded_tree_state := fun _ => None
|}.

(** ** The contract: an array of pages *)

(** Point and sequential update of a page array. *)
Definition page_upd {A} (i : Z) (x : A) (f : Z -> A) : Z -> A :=
  fun j => if j =? i then x else f j.
Fixpoint pages_upd {A} (idxs : list Z) (xs : list A) (f : Z -> A) : Z -> A :=
  match idxs, xs with
  | i :: idxs, x :: xs => pages_upd idxs xs (page_upd i x f)
  | _, _ => f
  end.
Fixpoint paths_upd (paths : list (list Z)) (xss : list (list bytes)) (f : Z -> bytes) : Z -> bytes :=
  match paths, xss with
  | path :: paths, xs :: xss => paths_upd paths xss (pages_upd path xs f)
  | _, _ => f
  end.

Definition in_range (count i : Z) : Prop := 0 <= i < count.
Definition page_ok (size : Z) (page : bytes) : Prop := lenZ page = size /\ bytes_ok page.

(** [s'] is a good store of the same dimensions whose pages are [f]. *)
Definition page_next {S} (ok : S -> Prop) (size count : S -> Z) (content : S -> Z -> bytes)
    (s : S) (f : Z -> bytes) (s' : S) : Prop :=
  ok s' /\ size s' = size s /\ count s' = count s /\
  forall j, in_range (count s) j -> content s' j = f j.

Class LawfulPageStore (S : Type) `{PageStore S} : Type := {
  ps_ok : S -> Prop;
  ps_content : S -> Z -> bytes;
  ps_content_ok : forall s i, ps_ok s -> in_range (ps_page_count s) i ->
    page_ok (ps_page_size s) (ps_content s i);
  ps_dims_ok : forall s, ps_ok s -> 0 < ps_page_size s /\ 0 < ps_page_count s;
  ps_read_page_ok : forall s i out, ps_ok s -> in_range (ps_page_count s) i ->
    lenZ out = ps_page_size s ->
    exists s', ps_read_page i out s = (Ok (ps_content s i), s') /\ 
      page_next ps_ok ps_page_size ps_page_count ps_content s (ps_content s) s';
  ps_write_page_ok : forall s i page, ps_ok s -> in_range (ps_page_count s) i ->
    page_ok (ps_page_size s) page ->
    exists s', ps_write_page i page s = (Ok tt, s') /\ 
      page_next ps_ok ps_page_size ps_page_count ps_content s (page_upd i page (ps_content s)) s';
  ps_read_pages_ok : forall s idxs, ps_ok s -> Forall (in_range (ps_page_count s)) idxs ->
    exists s', ps_read_pages idxs s = (Ok (ps_content s <$> idxs), s') /\ 
      page_next ps_ok ps_page_size ps_page_count ps_content s (ps_content s) s';
  ps_write_pages_ok : forall s idxs pages, ps_ok s -> Forall (in_range (ps_page_count s)) idxs ->
    Forall (page_ok (ps_page_size s)) pages -> length idxs = length pages ->
    exists s', ps_write_pages idxs pages s = (Ok tt, s') /\ 
      page_next ps_ok ps_page_size ps_page_count ps_content s (pages_upd idxs pages (ps_content s)) s';
  ps_flush_ok : forall s, ps_ok s -> exists s', ps_flush s = (Ok tt, s') /\
      page_next ps_ok ps_page_size ps_page_count ps_content s (ps_content s) s'
}.

Class LawfulPathStore (S : Type) `{PathPageStore S} : Type := {
  pp_ok : S -> Prop;
  pp_content : S -> Z -> bytes;
  pp_content_ok : forall s i, pp_ok s -> in_range (pp_page_count s) i ->
    page_ok (pp_page_size s) (pp_content s i);
  pp_read_path_pages_ok : forall s path, pp_ok s -> tree_path (pp_page_count s) path ->
    exists s', pp_read_path_pages path s = (Ok (pp_content s <$> path), s') /\
      page_next pp_ok pp_page_size pp_page_count pp_content s (pp_content s) s';
  pp_write_path_pages_ok : forall s path pages, pp_ok s -> tree_path (pp_page_count s) path ->
    Forall (page_ok (pp_page_size s)) pages -> length path = length pages ->
    exists s', pp_write_path_pages path pages s = (Ok tt, s') /\
      page_next pp_ok pp_page_size pp_page_count pp_content s (pages_upd path pages (pp_content s)) s';
  pp_read_paths_pages_ok : forall s paths, pp_ok s -> Forall (tree_path (pp_page_count s)) paths ->
    exists s', pp_read_paths_pages paths s = (Ok ((fun path : list Z => pp_content s <$> path) <$> paths), s') /\
      page_next pp_ok pp_page_size pp_page_count pp_content s (pp_content s) s';
  pp_write_paths_pages_ok : forall s paths pages, pp_ok s ->
    Forall (tree_path (pp_page_count s)) paths ->
    Forall (Forall (page_ok (pp_page_size s))) pages ->
    Forall2 (fun path ps => length path = length ps) paths pages ->
    exists s', pp_write_paths_pages paths pages s = (Ok tt, s') /\
      page_next pp_ok pp_page_size pp_page_count pp_content s (paths_upd paths pages (pp_content s)) s';
  pp_flush_ok : forall s, pp_ok s -> exists s', pp_flush s = (Ok tt, s') /\
      page_next pp_ok pp_page_size pp_page_count pp_content s (pp_content s) s'
}.

#[global] Hint Mode LawfulPageStore ! - : typeclass_instances.
Notation ps_next := (page_next ps_ok ps_page_size ps_page_count ps_content).
Notation pp_next := (page_next pp_ok pp_page_size pp_page_count pp_content).

Section Updates.

Lemma page_upd_eq {A} i (x : A) f : page_upd i x f i = x.
Proof. unfold page_upd. by rewrite Z.eqb_refl. Qed.
Lemma page_upd_ne {A} i j (x : A) f : i <> j -> page_upd i x f j = f j.
Proof. unfold page_upd. intros. case_match; zbool; [congruence|done]. Qed.

Lemma pages_upd_pointwise {A} idxs xs (f g : Z -> A) j : f j = g j -> pages_upd idxs xs f j = pages_upd idxs xs g j.
Proof.
  revert xs f g. induction idxs as [|i idxs IH]; intros [|x xs] f g Hfg; simpl; auto.
  apply IH. unfold page_upd. by case_match.
Qed.
Lemma paths_upd_pointwise paths xss f g j :
  f j = g j -> paths_upd paths xss f j = paths_upd paths xss g j.
Proof.
  revert xss f g. induction paths as [|i paths IH]; intros [|x xss] f g Hfg; simpl; auto.
  apply IH. by apply pages_upd_pointwise.
Qed.

Lemma pages_upd_not_elem {A} idxs xs (f : Z -> A) j : j ∉ idxs -> pages_upd idxs xs f j = f j.
Proof.
  revert xs f. induction idxs as [|i idxs IH]; intros [|x xs] f Hj; simpl; auto.
  rewrite not_elem_of_cons in Hj. destruct Hj. rewrite IH by done. by apply page_upd_ne.
Qed.

(** Writing the values of one function leaves that function on the written pages. *)
Lemma pages_upd_fmap {A} idxs (g : Z -> A) f j :
  pages_upd idxs (g <$> idxs) f j = if decide (j ∈ idxs) then g j else f j.
Proof.
  revert f. induction idxs as [|i idxs IH]; intros f; cbn [fmap list_fmap pages_upd].
  { by rewrite decide_False by apply not_elem_of_nil. }
  rewrite IH. unfold page_upd. destruct (j =? i) eqn:E; zbool.
  - subst j. rewrite (decide_True (P := i ∈ i :: idxs)) by set_solver. by case_decide.
  - by rewrite (decide_ext (j ∈ i :: idxs) (j ∈ idxs)) by set_solver.
Qed.

Lemma pages_upd_lookup {A} idxs xs (f : Z -> A) (d : nat) n x :
  NoDup idxs -> idxs !! d = Some n -> xs !! d = Some x -> pages_upd idxs xs f n = x.
Proof.
  intros Hnd. revert xs f d. induction Hnd as [|i idxs Hi _ IH]; intros [|y xs] f [|d] Hd Hx; simplify_eq/=.
  - rewrite pages_upd_not_elem by done. apply page_upd_eq.
  - by eapply IH.
Qed.

Lemma pages_upd_compose {A B} (g : A -> B) idxs xs f j :
  g (pages_upd idxs xs f j) = pages_upd idxs (g <$> xs) (g ∘ f) j.
Proof.
  revert xs f. induction idxs as [|i idxs IH]; intros [|x xs] f; simpl; try done.
  rewrite IH. apply pages_upd_pointwise. unfold page_upd. simpl. by case_match.
Qed.

Lemma paths_upd_fmap (paths : list (list Z)) (g : Z -> bytes) f j :
  paths_upd paths ((fun path : list Z => g <$> path) <$> paths) f j =
  if decide (j ∈ concat paths) then g j else f j.
Proof.
  revert f. induction paths as [|path paths IH]; intros f; cbn [fmap list_fmap paths_upd concat].
  { by rewrite decide_False by apply not_elem_of_nil. }
  rewrite IH, pages_upd_fmap. repeat case_decide; set_solver.
Qed.

Lemma pages_upd_app {A} is1 (xs1 : list A) is2 xs2 f :
  length is1 = length xs1 ->
  pages_upd (is1 ++ is2) (xs1 ++ xs2) f = pages_upd is2 xs2 (pages_upd is1 xs1 f).
Proof.
  revert xs1 f. induction is1 as [|i is1 IH]; intros [|x xs1] f ?; simplify_eq/=; auto.
Qed.

Lemma pages_upd_concat paths xss f :
  Forall2 (fun path ps : list _ => length path = length ps) paths xss ->
  pages_upd (concat paths) (concat xss) f = paths_upd paths xss f.
Proof.
  intros Hl. revert f. induction Hl as [|p ps paths xss Hp _ IH]; intros f; simpl; [done|].
  by rewrite pages_upd_app, IH.
Qed.

Context {S : Type} {ok : S -> Prop} {size count : S -> Z} {content : S -> Z -> bytes}.
Local Abbreviation next := (page_next ok size count content).

Lemma page_next_refl s : ok s -> next s (content s) s.
Proof. by repeat split. Qed.

Lemma page_next_ok s f s' : next s f s' -> ok s' /\ size s' = size s /\ count s' = count s.
Proof. by intros (? & ? & ? & ?). Qed.

Lemma page_next_ext s f g s' :
  (forall j, in_range (count s) j -> f j = g j) -> next s f s' -> next s g s'.
Proof. intros Hfg (? & ? & ? & Hf). unfold page_next. split_and!; auto. intros. rewrite Hf; auto. Qed.

Lemma page_next_trans s f s1 h s2 :
  next s f s1 -> next s1 h s2 -> next s h s2.
Proof.
  intros (? & Hs & Hc & Hf) (? & Hs' & Hc' & Hh). unfold page_next. split_and!; try congruence.
  intros j Hj. apply Hh. by rewrite Hc.
Qed.

(** The contract of one page read and one page write gives that of the trait's
    default batch methods. *)
Context (read_page : Z -> bytes -> M S bytes) (write_page : Z -> bytes -> M S unit).
Context (Hsize : forall s, ok s -> 0 < size s).
Context (Hread : forall s i out, ok s -> in_range (count s) i -> lenZ out = size s ->
  exists s', read_page i out s = (Ok (content s i), s') /\ next s (content s) s').
Context (Hwrite : forall s i page, ok s -> in_range (count s) i -> page_ok (size s) page ->
  exists s', write_page i page s = (Ok tt, s') /\ next s (page_upd i page (content s)) s').

Lemma mapM_read_ok s n idxs :
  ok s -> n = size s -> Forall (in_range (count s)) idxs ->
  exists s', mapM (fun i => read_page i (zeros n)) idxs s = (Ok (content s <$> idxs), s') /\
    next s (content s) s'.
Proof.
  intros Hok -> Hi. revert s Hok Hi. induction idxs as [|i idxs IH]; intros s Hok Hi.
  { exists s. split; [done|]. by apply page_next_refl. }
  apply Forall_cons in Hi as [Hi His]. cbn [mapM].
  destruct (Hread s i (zeros (size s))) as (s1 & E1 & Hn1); [done|done| |].
  { apply lenZ_zeros. specialize (Hsize s Hok). lia. }
  rewrite (bind_eq _ _ _ _ _ E1). pose proof Hn1 as (Hok1 & Hs1 & Hc1 & Hf1).
  destruct (IH s1) as (s2 & E2 & Hn2); [done|by rewrite Hc1|].
  rewrite Hs1 in E2. rewrite (bind_eq _ _ _ _ _ E2). exists s2. split.
  - cbn [fmap list_fmap]. unfold ret. do 2 f_equal. f_equal.
    apply list_fmap_ext. intros k j Hj. apply Hf1.
    eapply Forall_lookup_1 in His; done.
  - eapply page_next_trans; [done|]. eapply page_next_ext; [|done].
    intros j Hj. apply Hf1. by rewrite <-Hc1.
Qed.

Lemma default_read_pages_ok s idxs :
  ok s -> Forall (in_range (count s)) idxs ->
  exists s', default_read_pages size read_page idxs s = (Ok (content s <$> idxs), s') /\
    next s (content s) s'.
Proof. intros. unfold default_read_pages. rewrite bind_gets. by apply mapM_read_ok. Qed.

Lemma default_write_pages_ok s idxs pages :
  ok s -> Forall (in_range (count s)) idxs -> Forall (page_ok (size s)) pages ->
  length idxs = length pages ->
  exists s', default_write_pages size write_page idxs pages s = (Ok tt, s') /\
    next s (pages_upd idxs pages (content s)) s'.
Proof.
  intros Hok Hi Hp Hl. unfold default_write_pages.
  rewrite bind_guardm, bind_gets. unfold lenZ at 1 2. rewrite Hl, Z.eqb_refl.
  remember (size s) as n eqn:Hn. revert s pages Hok Hn Hi Hp Hl.
  induction idxs as [|i idxs IH]; intros s [|x pages] Hok Hn Hi Hp Hl; simplify_eq/=.
  { exists s. split; [done|]. by apply page_next_refl. }
  apply Forall_cons in Hi as [Hi His]. apply Forall_cons in Hp as [Hx Hps].
  destruct (Hwrite s i x) as (s1 & E1 & Hn1); [done..|].
  destruct (page_next_ok _ _ _ Hn1) as (Hok1 & Hs1 & Hc1).
  destruct Hx as [Hx Hxb]. erewrite bind_eq; [|by rewrite bind_guardm, Hx, Z.eqb_refl].
  destruct (IH s1 pages) as (s2 & E2 & Hn2); [done|congruence|by rewrite Hc1|done|lia|].
  exists s2. split; [done|]. eapply page_next_trans; [exact Hn1|].
  eapply page_next_ext; [|exact Hn2].
  intros j Hj. apply pages_upd_pointwise. destruct Hn1 as (_ & _ & _ & Hf1).
  apply Hf1. by rewrite <-Hc1.
Qed.

End Updates.

(** ** [MemPageStore] satisfies the contract *)

Section Mem.

Definition mem_ok (s : MemPageStore) : Prop :=
  0 < mem_page_size s /\ 0 < mem_page_count s /\
  lenZ (mem_pages s) = mem_page_count s * mem_page_size s /\ bytes_ok (mem_pages s).

Definition mem_content (s : MemPageStore) (i : Z) : bytes :=
  take (Z.to_nat (mem_page_size s)) (drop (Z.to_nat (i * mem_page_size s)) (mem_pages s)).

(** The flat buffer around page [i]. *)
Lemma mem_split s i :
  mem_ok s -> in_range (mem_page_count s) i ->
  exists a c, mem_pages s = a ++ mem_content s i ++ c /\ lenZ a = i * mem_page_size s /\
    lenZ (mem_content s i) = mem_page_size s.
Proof.
  intros (Hs & Hc & Hl & _) Hi. unfold in_range in Hi.
  destruct (slice_split (mem_pages s) (i * mem_page_size s) (mem_page_size s))
    as (a & b & c & E & Ha & Hb & Hsl); [nia|lia|nia|].
  apply slice_Ok in Hsl as (_ & _ & _ & ->). exists a, c. done.
Qed.

Lemma mem_check_ok s i len :
  in_range (mem_page_count s) i -> len = mem_page_size s ->
  check_page mem_page_size mem_page_count i len s = (Ok tt, s).
Proof.
  intros Hi ->. unfold check_page. rewrite bind_gets, bind_guardm, bind_gets.
  destruct Hi. rewrite (proj2 (Z.leb_gt _ _)) by lia. cbn [negb].
  unfold guardm. by rewrite Z.eqb_refl.
Qed.

Lemma mem_content_ok s i :
  mem_ok s -> in_range (mem_page_count s) i -> page_ok (mem_page_size s) (mem_content s i).
Proof.
  intros Hok Hi. destruct (mem_split s i Hok Hi) as (a & c & _ & _ & ?). split; [done|].
  destruct Hok as (_ & _ & _ & Hb). unfold mem_content. by apply Forall_take, Forall_drop.
Qed.

Lemma mem_read_page_ok s i out :
  mem_ok s -> in_range (mem_page_count s) i -> lenZ out = mem_page_size s ->
  mem_read_page i out s = (Ok (mem_content s i), s).
Proof.
  intros Hok Hi Ho. destruct (mem_split s i Hok Hi) as (a & c & E & Ha & Hb).
  unfold mem_read_page. rewrite (bind_eq _ _ _ _ _ (mem_check_ok s i _ Hi Ho)), bind_gets.
  rewrite E, (slice_app a _ c) by done. rewrite bind_lift. unfold lift, copy_from_slice.
  by rewrite Ho, Hb, Z.eqb_refl.
Qed.

Lemma mem_write_page_ok s i page :
  mem_ok s -> in_range (mem_page_count s) i -> page_ok (mem_page_size s) page ->
  exists s', mem_write_page i page s = (Ok tt, s') /\
    page_next mem_ok mem_page_size mem_page_count mem_content s (page_upd i page (mem_content s)) s'.
Proof.
  intros Hok Hi [Hp Hpb]. destruct (mem_split s i Hok Hi) as (a & c & E & Ha & Hb).
  unfold mem_write_page. rewrite (bind_eq _ _ _ _ _ (mem_check_ok s i _ Hi Hp)), bind_gets.
  rewrite E, (splice_app a (mem_content s i) page c) by congruence.
  rewrite bind_lift. eexists. split; [done|].
  assert (lenZ (a ++ page ++ c) = lenZ (mem_pages s)) as Hlen.
  { rewrite E, !lenZ_app. lia. }
  destruct Hok as (Hs & Hc & Hl & Hby).
  assert (mem_page_count (mkMem (mem_page_size s) (a ++ page ++ c)) = mem_page_count s) as Hcnt.
  { unfold mem_page_count. cbn [mem_page_size mem_pages]. by rewrite Hlen. }
  split_and!; [|done|exact Hcnt|].
  - split_and!; [done|by rewrite Hcnt| |].
    + by rewrite Hcnt; cbn [mem_page_size mem_pages]; rewrite Hlen.
    + cbn [mem_pages]. rewrite E in Hby. unfold bytes_ok in *. rewrite !Forall_app in *. naive_solver.
  - intros j Hj. unfold in_range in *. unfold page_upd. cbn [mem_page_size mem_pages].
    destruct (j =? i) eqn:Eji; zbool.
    + subst j. unfold mem_content at 1. cbn [mem_page_size mem_pages].
      rewrite <-Ha, <-Hp. unfold lenZ. rewrite !Nat2Z.id.
      by rewrite drop_app_length, take_app_length.
    + unfold mem_content. cbn [mem_page_size mem_pages]. apply list_eq. intros k.
      destruct (decide (Z.of_nat k < mem_page_size s)); [|rewrite !lookup_take_ge by lia; done].
      rewrite !lookup_take_lt, !lookup_drop by lia. rewrite E. unfold lenZ in *.
      destruct (decide (j < i)).
      * rewrite !lookup_app_l by nia. done.
      * rewrite !(lookup_app_r a) by nia. rewrite !lookup_app_r by nia.
        f_equal. lia.
Qed.

End Mem.

(** ** Flat buffers of [n] pages, shared by the buffering stores *)

Section Regions.
Context (n size : Z) (Hsize : 0 < size).

Definition page_at (size : Z) (buf : bytes) (i : Z) : bytes :=
  take (Z.to_nat size) (drop (Z.to_nat (i * size)) buf).

Lemma region_mem buf i : lenZ buf = n * size -> bytes_ok buf -> in_range n i ->
  mem_ok (mkMem size buf) /\ mem_page_count (mkMem size buf) = n.
Proof.
  intros Hl Hb Hi. assert (mem_page_count (mkMem size buf) = n) as Hc.
  { unfold mem_page_count. cbn [mem_page_size mem_pages]. rewrite Hl. apply Z.div_mul. lia. }
  unfold in_range in Hi. unfold mem_ok. rewrite Hc. cbn [mem_page_size mem_pages]. split_and!; (done || lia).
Qed.

Lemma region_slice buf i : lenZ buf = n * size -> bytes_ok buf -> in_range n i ->
  slice buf (i * size) size = Ok (page_at size buf i) /\ page_ok size (page_at size buf i).
Proof.
  intros Hl Hb Hi. destruct (region_mem buf i Hl Hb Hi) as [Hok Hc]. rewrite <-Hc in Hi.
  destruct (mem_split _ i Hok Hi) as (a & c & E & Ha & Hlen). cbn [mem_pages mem_page_size] in *.
  split; [|by apply (mem_content_ok (mkMem size buf))]. rewrite E at 1.
  by rewrite (slice_app a _ c) by done.
Qed.

Lemma region_splice buf i page : lenZ buf = n * size -> bytes_ok buf -> in_range n i -> page_ok size page ->
  exists buf', splice buf (i * size) page = Ok buf' /\ lenZ buf' = n * size /\ bytes_ok buf' /\
    forall j, in_range n j -> page_at size buf' j = page_upd i page (page_at size buf) j.
Proof.
  intros Hl Hb Hi Hp. destruct (region_mem buf i Hl Hb Hi) as [Hok Hc]. pose proof Hi as Hi'. rewrite <-Hc in Hi'.
  destruct (mem_write_page_ok _ i page Hok Hi' Hp) as (s' & E & (Hs & Hsok & Hs3 & Hs4) & Hcnt & Hj).
  unfold mem_write_page in E. rewrite (bind_eq _ _ _ _ _ (mem_check_ok _ i _ Hi' (proj1 Hp))), bind_gets, bind_lift in E.
  cbn [mem_pages mem_page_size] in *. destruct (splice buf (i * size) page) as [buf'| | |] eqn:Ebuf; [|done..].
  injection E as <-. cbn [mem_pages mem_page_size] in *. exists buf'. destruct Hj as [Hj Hcontent].
  split_and!; [done|by rewrite Hs3, Hj, Hc|done|]. intros j Hj'. apply Hcontent. by rewrite Hc.
Qed.

Lemma region_zeros i : in_range n i -> page_at size (zeros (n * size)) i = zeros size.
Proof.
  intros Hi. unfold page_at, zeros, in_range in *. rewrite drop_replicate, take_replicate. f_equal. nia.
Qed.

End Regions.

#[export] Instance mem_lawful : LawfulPageStore MemPageStore := {|
  ps_ok := mem_ok;
  ps_content := mem_content;
  ps_content_ok := mem_content_ok;
  ps_dims_ok := fun s H => conj (proj1 H) (proj1 (proj2 H));
  ps_read_page_ok := fun s i out Hok Hi Ho =>
    ex_intro _ s (conj (mem_read_page_ok s i out Hok Hi Ho) (page_next_refl s Hok));
  ps_write_page_ok := mem_write_page_ok;
  ps_read_pages_ok := default_read_pages_ok mem_read_page (fun s H => proj1 H)
    (fun s i out Hok Hi Ho =>
       ex_intro _ s (conj (mem_read_page_ok s i out Hok Hi Ho) (page_next_refl s Hok)));
  ps_write_pages_ok := default_write_pages_ok mem_write_page mem_write_page_ok;
  ps_flush_ok := fun s Hok => ex_intro _ s (conj eq_refl (page_next_refl s Hok))
|}.

(** ** The blanket implementation satisfies the path contract *)

Section BlanketLaws.

Lemma descends_range count parent path :
  0 <= parent -> descends count parent path -> Forall (in_range count) path.
Proof.
  revert parent. induction path as [|n path IH]; intros parent Hp Hd; [constructor|].
  destruct Hd as (Hn & Hc & Hd). unfold left_child, right_child in Hc.
  constructor; [split; lia|]. apply (IH n); [lia|done].
Qed.

Lemma tree_path_range count path : tree_path count path -> Forall (in_range count) path.
Proof.
  intros (rest & -> & Hc & Hd). constructor; [split; lia|]. by apply (descends_range count 0).
Qed.

Lemma tree_paths_range count paths :
  Forall (tree_path count) paths -> Forall (in_range count) (concat paths).
Proof.
  induction 1 as [|path paths Hp _ IH]; simpl; [constructor|].
  apply Forall_app. split; [by apply tree_path_range|done].
Qed.

Lemma regroup_fmap (paths : list (list Z)) (f : Z -> bytes) :
  regroup paths (f <$> concat paths) = Ok ((fun path : list Z => f <$> path) <$> paths).
Proof.
  induction paths as [|path paths IH]; [done|]. cbn [regroup concat].
  rewrite fmap_app, length_app, length_fmap.
  rewrite (proj2 (Nat.leb_le _ _)) by lia.
  rewrite <-(length_fmap f path), drop_app_length, take_app_length, IH. done.
Qed.

Context {S : Type} `{LawfulPageStore S}.

Lemma flat_read_ok (s : S) paths :
  ps_ok s -> Forall (tree_path (ps_page_count s)) paths ->
  exists s', flat_read_paths_pages paths s =
      (Ok ((fun path : list Z => ps_content s <$> path) <$> paths), s') /\ ps_next s (ps_content s) s'.
Proof.
  intros Hok Hp. unfold flat_read_paths_pages.
  destruct (ps_read_pages_ok s (concat paths)) as (s' & E & Hn); [done|by apply tree_paths_range|].
  rewrite (bind_eq _ _ _ _ _ E). exists s'. unfold lift. by rewrite regroup_fmap.
Qed.

Lemma flat_write_ok (s : S) paths pages :
  ps_ok s -> Forall (tree_path (ps_page_count s)) paths ->
  Forall (Forall (page_ok (ps_page_size s))) pages ->
  Forall2 (fun path ps : list _ => length path = length ps) paths pages ->
  exists s', flat_write_paths_pages paths pages s = (Ok tt, s') /\
    ps_next s (paths_upd paths pages (ps_content s)) s'.
Proof.
  intros Hok Hp Hpg Hl. unfold flat_write_paths_pages. rewrite !bind_guardm.
  rewrite (proj2 (Z.eqb_eq _ _)) by (unfold lenZ; by erewrite Forall2_length).
  assert (forallb (fun pp : list Z * list bytes => lenZ pp.1 =? lenZ pp.2) (zip paths pages) = true) as ->.
  { clear -Hl. induction Hl as [|p q paths pages Hpq _ IH]; simpl; [done|].
    rewrite IH, andb_true_r. unfold lenZ. lia. }
  destruct (ps_write_pages_ok s (concat paths) (concat pages)) as (s' & E & Hn);
    [done|by apply tree_paths_range| | |].
  - clear -Hpg. induction Hpg; simpl; [constructor|]. by apply Forall_app.
  - clear -Hl. induction Hl as [|p q paths pages Hpq _ IH]; simpl; [done|].
    rewrite !length_app. lia.
  - exists s'. split; [done|]. by rewrite <-pages_upd_concat.
Qed.

End BlanketLaws.

#[export] Instance blanket_lawful {S} `{LawfulPageStore S} : LawfulPathStore S := {|
  pp_ok := ps_ok;
  pp_content := ps_content;
  pp_content_ok := ps_content_ok;
  pp_read_path_pages_ok := fun s path Hok Hp =>
    ps_read_pages_ok s path Hok (tree_path_range _ _ Hp);
  pp_write_path_pages_ok := fun s path pages Hok Hp Hpg Hl =>
    ps_write_pages_ok s path pages Hok (tree_path_range _ _ Hp) Hpg Hl;
  pp_read_paths_pages_ok := flat_read_ok;
  pp_write_paths_pages_ok := flat_write_ok;
  pp_flush_ok := ps_flush_ok
|}.

(** A fresh in-memory store is good and all zero. *)
Lemma mem_new_ok count size s :
  0 <= count -> 0 <= size -> mem_new count size = Ok s ->
  mem_ok s /\ mem_page_count s = count /\ mem_page_size s = size /\
  forall i, in_range count i -> mem_content s i = zeros size.
Proof.
  intros Hc Hs. unfold mem_new. destruct (_ || _) eqn:E; [done|]. intros <-%Ok_inj.
  apply orb_false_iff in E as [? ?]. zbool.
  assert (mem_page_count (mkMem size (zeros (count * size))) = count) as Hcnt.
  { unfold mem_page_count. cbn [mem_page_size mem_pages]. rewrite lenZ_zeros by nia.
    apply Z.div_mul. lia. }
  split_and!; [|exact Hcnt|done|].
  - unfold mem_ok. rewrite Hcnt. cbn [mem_page_size mem_pages].
    split_and!; [lia|lia|apply lenZ_zeros; nia|apply zeros_ok].
  - intros i Hi. unfold mem_content, zeros, in_range in *. cbn [mem_page_size mem_pages].
    rewrite drop_replicate, take_replicate. f_equal. nia.
Qed.

(** ** Properties *)

(** A fresh in-memory store of positive dimensions behaves as an array of
    zero pages: pages are stored and read back independently of each other, and
    an out-of-range index or a buffer of the wrong length is refused without
    effect. *)
Theorem mem_store_is_array count size i j page out :
  0 < count -> 0 < size -> 0 <= i -> in_range count j -> bytes_ok page -> lenZ out = size ->
  exists s, mem_new count size = Ok s /\
    mem_read_page j out s = (Ok (zeros size), s) /\
    (if (i <? count) && (lenZ page =? size)
     then exists s', mem_write_page i page s = (Ok tt, s') /\
            mem_read_page j out s' = (Ok (if j =? i then page else zeros size), s')
     else exists e, mem_write_page i page s = (Err e, s)).
Proof.
  intros Hc Hs Hi Hj Hpg Hout. eexists. split.
  { unfold mem_new. by rewrite !(proj2 (Z.eqb_neq _ _)) by lia. }
  set (s := mkMem size (zeros (count * size))).
  destruct (mem_new_ok count size s) as (Hok & Hcnt & Hsz & Hz); [lia|lia| |].
  { unfold mem_new. by rewrite !(proj2 (Z.eqb_neq _ _)) by lia. }
  split. { rewrite (mem_read_page_ok s j out Hok) by (by rewrite ?Hcnt). by rewrite Hz. }
  destruct (i <? count) eqn:Ei; cbn [andb]; [destruct (lenZ page =? size) eqn:El|]; zbool.
  - destruct (mem_write_page_ok s i page Hok) as (s' & E & Hok' & Hsz' & Hcnt' & Hs').
    { rewrite Hcnt. split; lia. }
    { by split. }
    exists s'. split; [done|]. rewrite (mem_read_page_ok s' j out Hok') by (rewrite ?Hcnt', ?Hsz', ?Hcnt; done).
    rewrite Hs' by (by rewrite Hcnt). unfold page_upd. by rewrite Hz.
  - exists (InvalidInput "page buffer len {} != page_size {}").
    apply bind_err. unfold check_page. rewrite bind_gets, Hcnt.
    unfold guardm. rewrite (proj2 (Z.leb_gt _ _)) by lia. cbn [negb]. 
    cbn. rewrite (proj2 (Z.eqb_neq _ _)) by done. reflexivity.
  - exists (InvalidInput "page_idx {} out of range {}").
    apply bind_err. unfold check_page. rewrite bind_gets, Hcnt.
    rewrite (proj2 (Z.leb_le _ _)) by lia. reflexivity.
Qed.

Lemma mem_store_is_array_witness :
  exists s, mem_new 3 2 = Ok s /\ mem_read_page 1 [0; 0] s = (Ok (zeros 2), s) /\
    exists s', mem_write_page 1 [5; 6] s = (Ok tt, s') /\ mem_read_page 1 [0; 0] s' = (Ok [5; 6], s').
Proof.
  apply (mem_store_is_array 3 2 1 1 [5; 6] [0; 0]); try reflexivity; try (vm_compute; intuition discriminate).
  repeat constructor; vm_compute; intuition discriminate.
Defined.
