(* ===== verification/Writable.v ===== *)
(** * Stores that are written before they can be read

    The offline builder writes every page of stores whose pages may not be readable
    yet: pages of an encrypted file that were never sealed, a cache that was never
    loaded.  [WritableStore] is the part of the contract it needs; an array of pages
    ([LawfulPageStore]) satisfies it. *)

From S2P Require Import Prelude Params Store.

Class WritableStore (S : Type) `{PageStore S} : Type := {
  ws_ok : S -> Prop;
  (** page [i] has been written and would read as [page] *)
  ws_holds : S -> Z -> bytes -> Prop;
  ws_write_page_ok : forall s i page, ws_ok s -> in_range (ps_page_count s) i -> page_ok (ps_page_size s) page ->
    exists s', ps_write_page i page s = (Ok tt, s') /\ ws_ok s' /\
      ps_page_size s' = ps_page_size s /\ ps_page_count s' = ps_page_count s /\ ws_holds s' i page /\
      forall j p, j <> i -> in_range (ps_page_count s) j -> ws_holds s j p -> ws_holds s' j p
}.
#[global] Hint Mode WritableStore ! - : typeclass_instances.

Section Runs.
Context {S : Type} `{WritableStore S}.

(** [s'] is [s] after writes of [pages] to the pages from [k] on. *)
Definition ws_writes (s : S) (k : Z) (pages : list bytes) (s' : S) : Prop :=
  ws_ok s' /\ ps_page_size s' = ps_page_size s /\ ps_page_count s' = ps_page_count s /\
  (forall j p, in_range (ps_page_count s) j -> ~ k <= j < k + lenZ pages -> ws_holds s j p -> ws_holds s' j p) /\
  (forall i p, pages !! i = Some p -> ws_holds s' (k + Z.of_nat i) p).

Lemma ws_writes_nil s k : ws_ok s -> ws_writes s k [] s.
Proof. intros Hs. by split_and!; try done; intros ? ?; rewrite ?lookup_nil. Qed.

(** One write, then the run of the pages after it. *)
Lemma ws_writes_cons s k page pages :
  ws_ok s -> 0 <= k -> k + lenZ (page :: pages) <= ps_page_count s -> page_ok (ps_page_size s) page ->
  exists s1, ps_write_page k page s = (Ok tt, s1) /\ ws_ok s1 /\
    ps_page_size s1 = ps_page_size s /\ ps_page_count s1 = ps_page_count s /\
    forall s2, ws_writes s1 (k + 1) pages s2 -> ws_writes s k (page :: pages) s2.
Proof.
  intros Hs Hk Hl Hp. rewrite lenZ_cons in Hl. pose proof (lenZ_nonneg pages).
  destruct (ws_write_page_ok s k page Hs ltac:(split; lia) Hp) as (s1 & E & Hs1 & Hz1 & Hc1 & Hk1 & Hj1).
  exists s1. split_and!; try done. intros s2 (Hs2 & Hz2 & Hc2 & Hj2 & Hp2). split_and!; [done|congruence|congruence| |].
  - intros j p Hj Hn Hh. rewrite lenZ_cons in Hn. apply Hj2; [by rewrite Hc1|lia|]. apply Hj1; [lia|done|done].
  - intros [|i] p Hi; simplify_eq/=.
    + rewrite Z.add_0_r. apply Hj2; [rewrite Hc1; split; lia|lia|done].
    + replace (k + Z.of_nat (Datatypes.S i)) with (k + 1 + Z.of_nat i) by lia. by apply Hp2.
Qed.

(** The same page in a run of places *)
Lemma write_const_ok page (n : nat) k (s : S) : ws_ok s -> 0 <= k -> k + Z.of_nat n <= ps_page_count s -> page_ok (ps_page_size s) page ->
  exists s', iterM (fun page_idx => ps_write_page page_idx page) (seqZ k (Z.of_nat n)) s = (Ok tt, s') /\ ws_writes s k (replicate n page) s'.
Proof.
  revert k s. induction n as [|n IH]; intros k s Hs Hk Hc Hp.
  { exists s. split; [done|by apply ws_writes_nil]. }
  rewrite seqZ_cons by lia. cbn [iterM replicate].
  destruct (ws_writes_cons s k page (replicate n page) Hs Hk) as (s1 & E1 & Hs1 & Hz1 & Hc1 & Hw);
    [rewrite lenZ_cons; unfold lenZ; rewrite length_replicate; lia|done|].
  rewrite (bind_eq _ _ _ _ _ E1). replace (Z.pred (Z.of_nat (Datatypes.S n))) with (Z.of_nat n) by lia. replace (Z.succ k) with (k + 1) by lia.
  destruct (IH (k + 1) s1) as (s2 & E2 & Hw2); [done|lia|lia|by rewrite Hz1|]. exists s2. split; [exact E2|by apply Hw].
Qed.

End Runs.

(** An array of pages is writable: it holds its contents. *)
Definition lawful_writable {S} `{LawfulPageStore S} : WritableStore S.
Proof.
  refine {| ws_ok := ps_ok; ws_holds := fun s i page => ps_content s i = page |}.
  intros s i page Hs Hi Hp. destruct (ps_write_page_ok s i page Hs Hi Hp) as (s' & E & Hs' & Hz & Hc & Hj).
  exists s'. split_and!; try done; [by rewrite Hj, page_upd_eq|]. intros j p Hne Hr <-. by rewrite Hj, page_upd_ne.
Defined.
