(* ===== verification/Trace.v ===== *)
(** * Access traces ([src/src/store.rs], [TracingStore])

    A store wrapper that records every page it is asked for: what the host sees.
    [emits] says which pages a successful computation touches, in order, and
    composes along the monad, so that the trace of an operation is read off its
    code. *)

From S2P Require Import Prelude Store.

(** [enum TraceEvent] *)
Inductive TraceEvent : Type := TraceRead (page_idx : Z) | TraceWrite (page_idx : Z).

(** Mirror of [struct TracingStore]; the [RefCell] is read and written by the
    owner only. *)
Record TracingStore (S : Type) : Type := mkTracing { tr_inner : S; trace : list TraceEvent }.
Arguments mkTracing {S}. Arguments tr_inner {S}. Arguments trace {S}.

Section Tracing.
Context {S : Type} `{PageStore S}.
Local Abbreviation TS := (TracingStore S).

(** [TracingStore::new] *)
Definition tracing_new (inner : S) : TS := mkTracing inner [].

(** [TracingStore::take_trace] *)
Definition take_trace : M TS (list TraceEvent) := fun s => (Ok (trace s), mkTracing (tr_inner s) []).

Definition set_tr_inner (i : S) (s : TS) : TS := mkTracing i (trace s).
Definition on_tr_inner {A} (m : M S A) : M TS A := zoom tr_inner set_tr_inner m.
Definition push_event (e : TraceEvent) : M TS unit := modify (fun s => mkTracing (tr_inner s) (trace s ++ [e])).

Definition tracing_page_size (s : TS) : Z := ps_page_size (tr_inner s).
Definition tracing_page_count (s : TS) : Z := ps_page_count (tr_inner s).

(** [<TracingStore as PageStore>::read_page] *)
Definition tracing_read_page (page_idx : Z) (out : bytes) : M TS bytes :=
  let* _ := push_event (TraceRead page_idx) in on_tr_inner (ps_read_page page_idx out).

(** [<TracingStore as PageStore>::write_page] *)
Definition tracing_write_page (page_idx : Z) (input : bytes) : M TS unit :=
  let* _ := push_event (TraceWrite page_idx) in on_tr_inner (ps_write_page page_idx input).

(** [<TracingStore as PageStore>]: the batch methods are the trait's defaults. *)
#[export] Instance tracing_page_store : PageStore TS := {|
  ps_page_size := tracing_page_size;
  ps_page_count := tracing_page_count;
  ps_read_page := tracing_read_page;
  ps_write_page := tracing_write_page;
  ps_read_pages := default_read_pages tracing_page_size tracing_read_page;
  ps_write_pages := default_write_pages tracing_page_size tracing_write_page;
  ps_flush := on_tr_inner ps_flush;
  ps_tiered_merkle_state := fun _ => None
|}.

End Tracing.

(** ** Tracing does not change what the store does *)

Section Lawful.
Context {S : Type} `{LawfulPageStore S}.
Local Abbreviation TS := (TracingStore S).

Definition tracing_ok (s : TS) : Prop := ps_ok (tr_inner s).
Definition tracing_content (s : TS) : Z -> bytes := ps_content (tr_inner s).
Local Abbreviation next := (page_next tracing_ok tracing_page_size tracing_page_count tracing_content).

Lemma tracing_read_page_ok (s : TS) i out :
  tracing_ok s -> in_range (tracing_page_count s) i -> lenZ out = tracing_page_size s ->
  exists s', tracing_read_page i out s = (Ok (tracing_content s i), s') /\ next s (tracing_content s) s'.
Proof.
  intros Hs Hi Ho. destruct (ps_read_page_ok (tr_inner s) i out Hs Hi Ho) as (s' & E & Hn).
  exists (mkTracing s' (trace s ++ [TraceRead i])). split; [|exact Hn]. unfold tracing_read_page, push_event. rewrite bind_modify.
  apply (zoom_eq tr_inner set_tr_inner), E.
Qed.

Lemma tracing_write_page_ok (s : TS) i page :
  tracing_ok s -> in_range (tracing_page_count s) i -> page_ok (tracing_page_size s) page ->
  exists s', tracing_write_page i page s = (Ok tt, s') /\ next s (page_upd i page (tracing_content s)) s'.
Proof.
  intros Hs Hi Hp. destruct (ps_write_page_ok (tr_inner s) i page Hs Hi Hp) as (s' & E & Hn).
  exists (mkTracing s' (trace s ++ [TraceWrite i])). split; [|exact Hn]. unfold tracing_write_page, push_event. rewrite bind_modify.
  apply (zoom_eq tr_inner set_tr_inner), E.
Qed.

Lemma tracing_flush_ok (s : TS) :
  tracing_ok s -> exists s', on_tr_inner ps_flush s = (Ok tt, s') /\ next s (tracing_content s) s'.
Proof.
  intros Hs. destruct (ps_flush_ok (tr_inner s) Hs) as (s' & E & Hn).
  exists (mkTracing s' (trace s)). split; [|exact Hn]. apply (zoom_eq tr_inner set_tr_inner), E.
Qed.

Lemma tracing_size_pos (s : TS) : tracing_ok s -> 0 < tracing_page_size s.
Proof. intros Hs. by destruct (ps_dims_ok _ Hs). Qed.

#[export] Instance tracing_lawful : LawfulPageStore TS := {|
  ps_ok := tracing_ok;
  ps_content := tracing_content;
  ps_content_ok := fun s i Hs Hi => ps_content_ok (tr_inner s) i Hs Hi;
  ps_dims_ok := fun s Hs => ps_dims_ok (tr_inner s) Hs;
  ps_read_page_ok := tracing_read_page_ok;
  ps_write_page_ok := tracing_write_page_ok;
  ps_read_pages_ok := default_read_pages_ok tracing_read_page tracing_size_pos tracing_read_page_ok;
  ps_write_pages_ok := default_write_pages_ok tracing_write_page tracing_write_page_ok;
  ps_flush_ok := tracing_flush_ok
|}.

End Lawful.

(** ** Which events a successful computation emits

    [P] is a part of the state that the computation keeps and that the events depend on:
    the number of cached pages, the layout of a hash tree. *)

Section Emits.
Context {T E : Type} (P : T -> Prop) (tr : T -> list E).

Definition emits_at {A} (m : M T A) (s : T) (evs : list E) : Prop :=
  P s -> forall a s', m s = (Ok a, s') -> P s' /\ tr s' = tr s ++ evs.
Definition emits {A} (m : M T A) (evs : list E) : Prop := forall s, emits_at m s evs.

Lemma emits_ret {A} (a : A) : emits (ret a) [].
Proof. intros s HP b s' [= _ <-]. by rewrite app_nil_r. Qed.

Lemma emits_lift {A} (o : outcome A) : emits (lift o) [].
Proof. intros s HP b s' [= _ <-]. by rewrite app_nil_r. Qed.

Lemma emits_gets {A} (f : T -> A) : emits (gets f) [].
Proof. intros s HP b s' [= _ <-]. by rewrite app_nil_r. Qed.

Lemma emits_guardm b e : emits (guardm b e) [].
Proof. intros s HP r s'. destruct b; [intros [= _ <-]; by rewrite app_nil_r|done]. Qed.

Lemma emits_modify f : (forall s, P s -> P (f s) /\ tr (f s) = tr s) -> emits (modify f) [].
Proof. intros Hf s HP b s' [= _ <-]. destruct (Hf s HP) as [? ->]. by rewrite app_nil_r. Qed.

Lemma emits_at_bind {A B} (m : M T A) (k : A -> M T B) s e1 e2 :
  emits_at m s e1 -> (forall a, emits (k a) e2) -> emits_at (bind m k) s (e1 ++ e2).
Proof.
  intros Hm Hk HP b s' (a & s1 & E1 & E2)%bind_Ok. destruct (Hm HP a s1 E1) as [HP1 Ht1].
  destruct (Hk a s1 HP1 b s' E2) as [HP2 ->]. by rewrite Ht1, app_assoc.
Qed.

Lemma emits_bind {A B} (m : M T A) (k : A -> M T B) e1 e2 :
  emits m e1 -> (forall a, emits (k a) e2) -> emits (bind m k) (e1 ++ e2).
Proof. intros Hm Hk s. by apply emits_at_bind. Qed.

(** The steps that emit nothing. *)
Lemma emits_skip {A B} (m : M T A) (k : A -> M T B) evs :
  emits m [] -> (forall a, emits (k a) evs) -> emits (bind m k) evs.
Proof. intros Hm Hk. by apply (emits_bind m k [] evs). Qed.

(** The last event-free steps. *)
Lemma emits_then {A B} (m : M T A) (k : A -> M T B) evs :
  emits m evs -> (forall a, emits (k a) []) -> emits (bind m k) evs.
Proof. intros Hm Hk. rewrite <-(app_nil_r evs). by apply emits_bind. Qed.

Lemma emits_at_gets {A B} (f : T -> A) (k : A -> M T B) s evs :
  emits_at (k (f s)) s evs -> emits_at (bind (gets f) k) s evs.
Proof. done. Qed.
(** Reading the state says what it is. *)
Lemma emits_gets_bind {A B} (f : T -> A) (k : A -> M T B) evs :
  (forall s, P s -> emits_at (k (f s)) s evs) -> emits (bind (gets f) k) evs.
Proof. intros Hk s HP. exact (Hk s HP HP). Qed.

Lemma emits_mapM {A B} (f : A -> M T B) (ev : A -> list E) l :
  (forall x, emits (f x) (ev x)) -> emits (mapM f l) (l ≫= ev).
Proof.
  intros Hf. induction l as [|x l IH]; cbn [mapM]; [apply emits_ret|]. rewrite bind_cons.
  apply (emits_bind _ _ (ev x) (l ≫= ev)); [done|]. intros y.
  apply emits_then; [done|]. intros ys. apply emits_ret.
Qed.

Lemma emits_iterM {A} (f : A -> M T unit) (ev : A -> list E) l :
  (forall x, emits (f x) (ev x)) -> emits (iterM f l) (l ≫= ev).
Proof.
  intros Hf. induction l as [|x l IH]; cbn [iterM]; [apply emits_ret|]. rewrite bind_cons.
  apply (emits_bind _ _ (ev x) (l ≫= ev)); [done|]. by intros [].
Qed.

End Emits.

(** Zooming into a part of the state with its own trace, or with none. *)
Lemma emits_zoom {T S A E} (get : T -> S) (put : S -> T -> T) (m : M S A)
    (P : T -> Prop) (P' : S -> Prop) (tr : T -> list E) (tr' : S -> list E) evs :
  (forall t, P t -> P' (get t)) -> (forall s t, P t -> P' s -> P (put s t)) ->
  (forall t, tr t = tr' (get t)) -> (forall s t, get (put s t) = s) ->
  emits P' tr' m evs -> emits P tr (zoom get put m) evs.
Proof.
  intros HP1 HP2 Ht Hgp Hm t HP a t'. unfold zoom. destruct (m (get t)) as [r s1] eqn:Em. intros [= -> <-].
  destruct (Hm _ (HP1 t HP) _ _ Em) as [HP' E']. split; [by apply HP2|]. by rewrite !Ht, Hgp, E'.
Qed.

Lemma emits_zoom_other {T S A E} (get : T -> S) (put : S -> T -> T) (m : M S A) (P : T -> Prop) (tr : T -> list E) :
  (forall s t, P t -> P (put s t) /\ tr (put s t) = tr t) -> emits P tr (zoom get put m) [].
Proof.
  intros Ht t HP a t'. unfold zoom. destruct (m (get t)) as [r s1]. intros [= _ <-].
  destruct (Ht s1 t HP) as [? ->]. by rewrite app_nil_r.
Qed.

(** ** The events of stores

    What a wrapper does to the pages below it: [pe_event] gives the accesses that one
    access of the store makes in a log kept somewhere below, as long as [pe_state]
    holds. *)

Record PageEvents (S : Type) `{PageStore S} : Type := mkPageEvents {
  pe_state : S -> Prop;
  pe_log : S -> list TraceEvent;
  pe_event : TraceEvent -> list TraceEvent;
  pe_read_page i out : emits pe_state pe_log (ps_read_page i out) (pe_event (TraceRead i));
  pe_write_page i page : emits pe_state pe_log (ps_write_page i page) (pe_event (TraceWrite i));
  pe_read_pages idxs : emits pe_state pe_log (ps_read_pages idxs) ((TraceRead <$> idxs) ≫= pe_event);
  pe_write_pages idxs pages : emits pe_state pe_log (ps_write_pages idxs pages) ((TraceWrite <$> idxs) ≫= pe_event)
}.
Arguments mkPageEvents {S _}. Arguments pe_state {S _}. Arguments pe_log {S _}. Arguments pe_event {S _}.
Arguments pe_read_page {S _}. Arguments pe_write_page {S _}. Arguments pe_read_pages {S _}. Arguments pe_write_pages {S _}.

Record StoreEvents (S : Type) `{PathPageStore S} : Type := mkStoreEvents {
  se_state : S -> Prop;
  se_log : S -> list TraceEvent;
  se_event : TraceEvent -> list TraceEvent;
  se_read_path path : emits se_state se_log (pp_read_path_pages path) ((TraceRead <$> path) ≫= se_event);
  se_write_path path pages : emits se_state se_log (pp_write_path_pages path pages) ((TraceWrite <$> path) ≫= se_event);
  se_read_paths paths : emits se_state se_log (pp_read_paths_pages paths) ((TraceRead <$> concat paths) ≫= se_event);
  se_write_paths paths pages : emits se_state se_log (pp_write_paths_pages paths pages) ((TraceWrite <$> concat paths) ≫= se_event)
}.
Arguments mkStoreEvents {S _}. Arguments se_state {S _}. Arguments se_log {S _}. Arguments se_event {S _}.
Arguments se_read_path {S _}. Arguments se_write_path {S _}. Arguments se_read_paths {S _}. Arguments se_write_paths {S _}.

(** The trait's default batch methods make the accesses one by one. *)
Section DefaultEvents.
Context {S : Type} (P : S -> Prop) (tr : S -> list TraceEvent) (ev : TraceEvent -> list TraceEvent).
Context (page_size : S -> Z) (read_page : Z -> bytes -> M S bytes) (write_page : Z -> bytes -> M S unit).
Context (Hread : forall i out, emits P tr (read_page i out) (ev (TraceRead i))).
Context (Hwrite : forall i page, emits P tr (write_page i page) (ev (TraceWrite i))).

Lemma default_read_emits idxs : emits P tr (default_read_pages page_size read_page idxs) ((TraceRead <$> idxs) ≫= ev).
Proof.
  apply emits_skip; [apply emits_gets|]. intros n.
  replace ((TraceRead <$> idxs) ≫= ev) with (idxs ≫= (fun i => ev (TraceRead i))); [by apply emits_mapM|].
  induction idxs as [|i idxs IH]; [done|]. cbn [fmap list_fmap]. by rewrite !bind_cons, IH.
Qed.
Lemma default_write_emits idxs pages : emits P tr (default_write_pages page_size write_page idxs pages) ((TraceWrite <$> idxs) ≫= ev).
Proof.
  intros s HP a s'. unfold default_write_pages. rewrite bind_guardm.
  destruct (lenZ idxs =? lenZ pages) eqn:El; [|done]. zbool. rewrite bind_gets. revert a s'.
  assert ((TraceWrite <$> idxs) ≫= ev = zip idxs pages ≫= (fun ip : Z * bytes => ev (TraceWrite ip.1))) as ->.
  { unfold lenZ in El. rewrite <-(fst_zip idxs pages) at 1 by lia. generalize (zip idxs pages). intros l.
    induction l as [|ip l IH]; [done|]. cbn [fmap list_fmap]. by rewrite !bind_cons, IH. }
  refine (emits_iterM P tr _ _ (zip idxs pages) _ s HP). intros [i page]. cbn [fst snd].
  apply emits_skip; [apply emits_guardm|]. intros _. apply Hwrite.
Qed.
End DefaultEvents.

(** A store of pages used as a store of paths *)
Section Blanket.
Context {S : Type} `{PageStore S} (E : PageEvents S).

Lemma blanket_read_paths_emits paths : emits (pe_state E) (pe_log E) (flat_read_paths_pages paths) ((TraceRead <$> concat paths) ≫= pe_event E).
Proof. apply emits_then; [apply pe_read_pages|]. intros flat. apply emits_lift. Qed.
Lemma blanket_write_paths_emits paths pages :
  emits (pe_state E) (pe_log E) (flat_write_paths_pages paths pages) ((TraceWrite <$> concat paths) ≫= pe_event E).
Proof.
  apply emits_skip; [apply emits_guardm|]. intros _. apply emits_skip; [apply emits_guardm|]. intros _.
  apply pe_write_pages.
Qed.
Definition blanket_events : StoreEvents S :=
  mkStoreEvents (pe_state E) (pe_log E) (pe_event E) (pe_read_pages E) (pe_write_pages E) blanket_read_paths_emits blanket_write_paths_emits.
End Blanket.

(** [TracingStore] records its own accesses. *)
Lemma list_bind_single {A} (l : list A) : (l ≫= fun x => [x]) = l.
Proof. induction l as [|x l IH]; [done|]. by rewrite bind_cons, IH. Qed.

Section TracingEvents.
Context {S : Type} `{PageStore S}.

Lemma push_event_emits (e : TraceEvent) : emits (fun _ => True) (@trace S) (push_event e) [e].
Proof. intros s _ a s' [= _ <-]. done. Qed.
Lemma tracing_read_page_emits i out : emits (fun _ => True) (@trace S) (tracing_read_page i out) [TraceRead i].
Proof. apply emits_then; [apply push_event_emits|]. intros _. by apply emits_zoom_other. Qed.
Lemma tracing_write_page_emits i page : emits (fun _ => True) (@trace S) (tracing_write_page i page) [TraceWrite i].
Proof. apply emits_then; [apply push_event_emits|]. intros _. by apply emits_zoom_other. Qed.

Definition tracing_events : PageEvents (TracingStore S) :=
  mkPageEvents (fun _ => True) trace (fun e => [e]) tracing_read_page_emits tracing_write_page_emits
    (default_read_emits _ _ _ _ _ tracing_read_page_emits) (default_write_emits _ _ _ _ _ tracing_write_page_emits).
End TracingEvents.
