(* ===== verification/Schedule.v ===== *)
(** * Deterministic eviction schedule ([src/src/circuit.rs], lines 20-157)

    Public counters of the reverse-bit-order eviction schedule. *)

From S2P Require Import Prelude Params.

(** Mirror of [struct CircuitEvictionSchedule]. *)
Record CircuitEvictionSchedule : Type := mkSchedule {
  sch_leaf_bits : Z;
  evictions_per_access : Z;
  issued_accesses : Z;
  completed_evictions : Z
}.

#[global] Instance CircuitEvictionSchedule_eq_dec : EqDecision CircuitEvictionSchedule.
Proof. solve_decision. Defined.

Definition DEFAULT_EVICTIONS_PER_ACCESS : Z := 2.

(** [u32::reverse_bits] on [n] bits: bit 0 becomes bit [n - 1]. *)
Fixpoint reverse_bits (n : nat) (z : Z) : Z :=
  match n with
  | O => 0
  | S n => 2 ^ Z.of_nat n * (z mod 2) + reverse_bits n (z / 2)
  end.

(** [reverse_bits_mod] *)
Definition reverse_bits_mod (index leaf_bits : Z) : Z :=
  let mask := if leaf_bits =? 32 then u32_max else Z.shiftl 1 leaf_bits - 1 in
  let low := Z.land (wrap 32 index) mask in
  Z.shiftr (reverse_bits 32 low) (32 - leaf_bits).

(** [CircuitEvictionSchedule::with_rate] *)
Definition with_rate (p : OramParams) (rate : Z) : CircuitEvictionSchedule :=
  mkSchedule (leaf_bits p) rate 0 0.

(** [CircuitEvictionSchedule::new] *)
Definition schedule_new (p : OramParams) : CircuitEvictionSchedule :=
  with_rate p DEFAULT_EVICTIONS_PER_ACCESS.

(** [CircuitEvictionSchedule::pending_evictions] *)
Definition pending_evictions (s : CircuitEvictionSchedule) : outcome Z :=
  let? scheduled := ok_or (checked_mul64 (issued_accesses s) (evictions_per_access s))
                      (InvalidInput "eviction counter overflow") in
  ok_or (checked_sub64 scheduled (completed_evictions s))
    (InvalidInput "completed evictions exceed schedule").

(** [CircuitEvictionSchedule::from_counters] *)
Definition from_counters (p : OramParams) (rate issued completed : Z) : outcome CircuitEvictionSchedule :=
  let schedule := mkSchedule (leaf_bits p) rate issued completed in
  let? _ := pending_evictions schedule in
  Ok schedule.

(** [CircuitEvictionSchedule::record_access] *)
Definition record_access : M CircuitEvictionSchedule unit :=
  let* s := gets (fun s => s) in
  let* issued := lift (ok_or (checked_add64 (issued_accesses s) 1)
                         (InvalidInput "access counter overflow")) in
  modify (fun s => mkSchedule (sch_leaf_bits s) (evictions_per_access s) issued (completed_evictions s)).

(** [CircuitEvictionSchedule::validate_for_params] *)
Definition validate_for_params (s : CircuitEvictionSchedule) (p : OramParams) : outcome unit :=
  if negb (sch_leaf_bits s =? leaf_bits p)
  then Err (InvalidInput "schedule leaf_bits {} != params leaf_bits {}")
  else let? _ := pending_evictions s in Ok tt.

(** [CircuitEvictionSchedule::next_eviction_leaf] *)
Definition next_eviction_leaf (s : CircuitEvictionSchedule) : Z :=
  reverse_bits_mod (completed_evictions s) (sch_leaf_bits s).

(** [CircuitEvictionSchedule::complete_one_eviction] *)
Definition complete_one_eviction : M CircuitEvictionSchedule (option Z) :=
  let* s := gets (fun s => s) in
  let* pending := lift (pending_evictions s) in
  if pending =? 0 then ret None
  else
    let lf := next_eviction_leaf s in
    let* completed := lift (ok_or (checked_add64 (completed_evictions s) 1)
                              (InvalidInput "eviction counter overflow")) in
    let* _ := modify (fun s => mkSchedule (sch_leaf_bits s) (evictions_per_access s)
                                 (issued_accesses s) completed) in
    ret (Some lf).

(** [CircuitEvictionSchedule::drain_evictions]: the loop over [0..budget], left
    at the first [None]. *)
Fixpoint drain_loop (budget : nat) : M CircuitEvictionSchedule (list Z) :=
  match budget with
  | O => ret []
  | S budget =>
      let* next := complete_one_eviction in
      match next with
      | None => ret []
      | Some lf => let* rest := drain_loop budget in ret (lf :: rest)
      end
  end.
Definition schedule_drain_evictions (budget : Z) : M CircuitEvictionSchedule (list Z) :=
  drain_loop (Z.to_nat budget).

(** [CircuitEvictionSchedule::eviction_leaf_at] *)
Definition eviction_leaf_at (p : OramParams) (eviction_index : Z) : Z :=
  reverse_bits_mod eviction_index (leaf_bits p).

(** ** Invariant: the counters are words and the debt is a word. *)
Record schedule_ok (s : CircuitEvictionSchedule) : Prop := {
  sok_bits : 1 <= sch_leaf_bits s <= 32;
  sok_rate : 0 <= evictions_per_access s;
  sok_issued : 0 <= issued_accesses s <= u64_max;
  sok_completed : 0 <= completed_evictions s;
  sok_debt : completed_evictions s <= issued_accesses s * evictions_per_access s <= u64_max
}.

(** The debt of a valid schedule. *)
Definition debt (s : CircuitEvictionSchedule) : Z :=
  issued_accesses s * evictions_per_access s - completed_evictions s.

Definition advance (n : Z) (s : CircuitEvictionSchedule) : CircuitEvictionSchedule :=
  mkSchedule (sch_leaf_bits s) (evictions_per_access s) (issued_accesses s) (completed_evictions s + n).

Definition issue (n : Z) (s : CircuitEvictionSchedule) : CircuitEvictionSchedule :=
  mkSchedule (sch_leaf_bits s) (evictions_per_access s) (issued_accesses s + n) (completed_evictions s).

(** An access can still be recorded without overflowing the debt product. *)
Definition can_record (n : Z) (s : CircuitEvictionSchedule) : Prop :=
  (issued_accesses s + n) * evictions_per_access s <= u64_max /\ issued_accesses s + n <= u64_max.

Section BitReversal.

Lemma reverse_bits_range n z : 0 <= reverse_bits n z < 2 ^ Z.of_nat n.
Proof.
  revert z. induction n as [|n IH]; intros z; [done|].
  cbn [reverse_bits]. specialize (IH (z / 2)). pose proof (Z.mod_pos_bound z 2 ltac:(lia)).
  rewrite Nat2Z.inj_succ, Z.pow_succ_r by lia. nia.
Qed.

(** The bits of [a + 2 ^ n * b] with [a] below [2 ^ n]. *)
Lemma testbit_concat n a b j :
  0 <= n -> 0 <= a < 2 ^ n -> 0 <= j ->
  Z.testbit (2 ^ n * b + a) j = if j <? n then Z.testbit a j else Z.testbit b (j - n).
Proof.
  intros Hn Ha Hj. destruct (j <? n) eqn:E; zbool.
  - rewrite <-(Z.mod_pow2_bits_low _ n j), Z.add_comm, Z.mul_comm, Z.mod_add, Z.mod_small by lia. done.
  - replace j with ((j - n) + n) at 1 by lia. rewrite <-Z.div_pow2_bits by lia. f_equal.
    rewrite Z.add_comm, Z.mul_comm, Z.div_add, Z.div_small; lia.
Qed.

Lemma reverse_bits_testbit n z j :
  Z.testbit (reverse_bits n z) j =
  (0 <=? j) && (j <? Z.of_nat n) && Z.testbit z (Z.of_nat n - 1 - j).
Proof.
  destruct (0 <=? j) eqn:Hj; zbool; [|by rewrite Z.testbit_neg_r]. cbn [andb].
  revert z. induction n as [|n IH]; intros z; cbn [reverse_bits].
  { rewrite Z.testbit_0_l. by rewrite (proj2 (Z.ltb_ge _ _)). }
  rewrite testbit_concat, IH by (apply reverse_bits_range || lia).
  destruct (Z.lt_trichotomy j (Z.of_nat n)) as [Hlt|[->|Hgt]].
  - rewrite !(proj2 (Z.ltb_lt _ _)) by lia. cbn [andb].
    rewrite Z.div2_bits by lia. f_equal. lia.
  - rewrite (proj2 (Z.ltb_ge _ _)), (proj2 (Z.ltb_lt _ _)) by lia. cbn [andb].
    rewrite Z.sub_diag. change (z mod 2) with (z mod 2 ^ 1).
    rewrite Z.mod_pow2_bits_low by lia. f_equal. lia.
  - rewrite !(proj2 (Z.ltb_ge _ _)) by lia. cbn [andb]. apply (Z.mod_pow2_bits_high z 1). lia.
Qed.

Lemma land_mask z k : 0 <= k < 32 ->
  Z.land (wrap 32 z) (Z.shiftl 1 k - 1) = z mod 2 ^ k.
Proof.
  intros Hk. rewrite Z.shiftl_1_l.
  replace (2 ^ k - 1) with (Z.ones k) by (rewrite Z.ones_equiv; lia).
  rewrite Z.land_ones by lia. unfold wrap.
  replace 32 with (k + (32 - k)) by lia. rewrite Z.pow_add_r, Z.rem_mul_r by lia.
  rewrite (Z.mul_comm (2 ^ k)), Z.mod_add by lia. apply Z.mod_mod. lia.
Qed.

(** [reverse_bits_mod] reverses the low [k] bits of the index. *)
Lemma reverse_bits_mod_eq index k :
  1 <= k <= 32 -> reverse_bits_mod index k = reverse_bits (Z.to_nat k) index.
Proof.
  intros Hk. unfold reverse_bits_mod.
  assert (Z.land (wrap 32 index) (if k =? 32 then u32_max else Z.shiftl 1 k - 1) = index mod 2 ^ k) as ->.
  { destruct (k =? 32) eqn:E; zbool; [|by apply land_mask; lia]. subst k.
    change u32_max with (Z.ones 32). rewrite Z.land_ones by lia. unfold wrap. by rewrite Z.mod_mod. }
  apply Z.bits_inj'. intros j Hj. rewrite Z.shiftr_spec, !reverse_bits_testbit by done.
  change (Z.of_nat 32) with 32. rewrite Z2Nat.id by lia.
  rewrite !(proj2 (Z.leb_le 0 _)) by lia. cbn [andb].
  destruct (j <? k) eqn:E; zbool.
  - rewrite (proj2 (Z.ltb_lt _ _)) by lia. cbn [andb].
    rewrite Z.mod_pow2_bits_low by lia. f_equal. lia.
  - by rewrite (proj2 (Z.ltb_ge _ _)) by lia.
Qed.

Lemma reverse_bits_mod_range index k : 1 <= k <= 32 -> 0 <= reverse_bits_mod index k < 2 ^ k.
Proof.
  intros Hk. rewrite reverse_bits_mod_eq by done.
  pose proof (reverse_bits_range (Z.to_nat k) index). by rewrite Z2Nat.id in * by lia.
Qed.

Lemma reverse_bits_mod_involutive index k :
  1 <= k <= 32 -> reverse_bits_mod (reverse_bits_mod index k) k = index mod 2 ^ k.
Proof.
  intros Hk. rewrite !reverse_bits_mod_eq by done. apply Z.bits_inj'. intros j Hj.
  rewrite !reverse_bits_testbit, !Z2Nat.id by lia.
  destruct (j <? k) eqn:E; zbool.
  - rewrite !(proj2 (Z.leb_le 0 _)), (proj2 (Z.ltb_lt _ _)), Z.mod_pow2_bits_low by lia. cbn [andb].
    f_equal. lia.
  - rewrite Z.mod_pow2_bits_high by lia. by rewrite andb_false_r.
Qed.

Lemma reverse_bits_mod_mod index k :
  1 <= k <= 32 -> reverse_bits_mod (index mod 2 ^ k) k = reverse_bits_mod index k.
Proof.
  intros Hk. rewrite !reverse_bits_mod_eq by done. apply Z.bits_inj'. intros j Hj.
  rewrite !reverse_bits_testbit, !Z2Nat.id by lia.
  destruct (j <? k) eqn:E; zbool; [|by rewrite !andb_false_r].
  by rewrite Z.mod_pow2_bits_low by lia.
Qed.

End BitReversal.

Section Counters.

Lemma pending_evictions_ok s : schedule_ok s -> pending_evictions s = Ok (debt s).
Proof.
  intros []. unfold pending_evictions, checked_mul64, checked_sub64.
  rewrite (proj2 (Z.leb_le _ _)) by lia. cbn [ok_or obind].
  by rewrite (proj2 (Z.leb_le _ _)) by lia.
Qed.

Lemma debt_nonneg s : schedule_ok s -> 0 <= debt s.
Proof. intros []. unfold debt. lia. Qed.

Lemma record_access_ok s :
  schedule_ok s -> can_record 1 s ->
  record_access s = (Ok tt, issue 1 s) /\ schedule_ok (issue 1 s).
Proof.
  intros [] [Hc Hi]. unfold record_access. rewrite bind_gets, bind_lift.
  unfold checked_add64. rewrite (proj2 (Z.leb_le _ _)) by done. cbn [ok_or].
  split; [done|]. split; simpl; lia.
Qed.

Lemma record_access_err s s' e :
  record_access s = (Err e, s') -> s' = s /\ issued_accesses s + 1 > u64_max.
Proof.
  unfold record_access. rewrite bind_gets, bind_lift. unfold checked_add64.
  destruct (_ <=? _) eqn:E; [done|]. cbn [ok_or]. intros [= <- <-]. zbool. split; [done|lia].
Qed.

Lemma complete_one_eviction_none s :
  schedule_ok s -> debt s = 0 -> complete_one_eviction s = (Ok None, s).
Proof.
  intros Hs Hd. unfold complete_one_eviction.
  by rewrite bind_gets, bind_lift, pending_evictions_ok, Hd.
Qed.

Lemma complete_one_eviction_some s :
  schedule_ok s -> 0 < debt s ->
  complete_one_eviction s = (Ok (Some (next_eviction_leaf s)), advance 1 s) /\ schedule_ok (advance 1 s).
Proof.
  intros Hs Hd. unfold complete_one_eviction.
  rewrite bind_gets, bind_lift, pending_evictions_ok by done.
  rewrite (proj2 (Z.eqb_neq _ _)) by lia. destruct Hs. unfold debt in Hd.
  rewrite bind_lift. unfold checked_add64. rewrite (proj2 (Z.leb_le _ _)) by lia. cbn [ok_or].
  split; [done|]. split; simpl; lia.
Qed.

Lemma advance_0 s : advance 0 s = s.
Proof. destruct s. unfold advance. simpl. f_equal. lia. Qed.
Lemma advance_add n m s : advance m (advance n s) = advance (n + m) s.
Proof. destruct s. unfold advance. simpl. f_equal. lia. Qed.
Lemma issue_0 s : issue 0 s = s.
Proof. destruct s. unfold issue. simpl. f_equal. lia. Qed.
Lemma issue_add n m s : issue m (issue n s) = issue (n + m) s.
Proof. destruct s. unfold issue. simpl. f_equal. lia. Qed.

(** Room for [1 + n] accesses is room for one and then [n] more. *)
Lemma can_record_split n s :
  0 <= n -> schedule_ok s -> can_record (1 + n) s -> can_record 1 s /\ can_record n (issue 1 s).
Proof.
  intros Hn [] [Hm Hi]. unfold can_record, issue. simpl.
  replace (issued_accesses s + 1 + n) with (issued_accesses s + (1 + n)) by lia.
  split; [split; nia|done].
Qed.
Lemma advance_ok n s : schedule_ok s -> 0 <= n <= debt s -> schedule_ok (advance n s).
Proof. intros [] Hn. unfold debt in Hn. split; simpl; lia. Qed.
Lemma debt_advance n s : debt (advance n s) = debt s - n.
Proof. unfold debt. simpl. lia. Qed.

(** The leaves of the next [n] evictions. *)
Definition eviction_leaves (s : CircuitEvictionSchedule) (n : Z) : list Z :=
  (fun i => reverse_bits_mod i (sch_leaf_bits s)) <$> seqZ (completed_evictions s) n.

Lemma eviction_leaves_cons s n :
  0 < n -> eviction_leaves s n = next_eviction_leaf s :: eviction_leaves (advance 1 s) (n - 1).
Proof.
  intros. unfold eviction_leaves. rewrite seqZ_cons by done. cbn [fmap list_fmap].
  done.
Qed.

Lemma drain_loop_ok n s :
  schedule_ok s ->
  let k := Z.min (Z.of_nat n) (debt s) in
  drain_loop n s = (Ok (eviction_leaves s k), advance k s) /\ schedule_ok (advance k s).
Proof.
  revert s. induction n as [|n IH]; intros s Hs; cbn zeta.
  { pose proof (debt_nonneg s Hs). rewrite Z.min_l by lia. rewrite advance_0. done. }
  cbn [drain_loop]. pose proof (debt_nonneg s Hs).
  destruct (decide (debt s = 0)) as [Hd|Hd].
  - rewrite (bind_eq _ _ _ _ _ (complete_one_eviction_none s Hs Hd)), Hd, Z.min_r by lia.
    by rewrite advance_0.
  - destruct (complete_one_eviction_some s Hs) as [E Hs1]; [lia|].
    rewrite (bind_eq _ _ _ _ _ E). destruct (IH (advance 1 s) Hs1) as [E2 Hs2].
    rewrite debt_advance in *. rewrite (bind_eq _ _ _ _ _ E2).
    rewrite advance_add in *.
    replace (1 + Z.min (Z.of_nat n) (debt s - 1)) with (Z.min (Z.of_nat (S n)) (debt s)) in * by lia.
    split; [|done]. unfold ret. rewrite (eviction_leaves_cons s) by lia.
    by replace (Z.min (Z.of_nat (S n)) (debt s) - 1) with (Z.min (Z.of_nat n) (debt s - 1)) by lia.
Qed.

End Counters.

(** ** Properties *)

(** C29: any window of [2 ^ leaf_bits] consecutive eviction indices visits every
    leaf of the tree exactly once (reverse-bit order is a permutation of the
    leaves), whatever the window's start. *)
Theorem eviction_order_covers_leaves p start lf :
  params_ok p -> leaf_ok p lf -> 0 <= start ->
  exists! i, start <= i < start + leaves p /\ eviction_leaf_at p i = lf.
Proof.
  intros Hp Hlf Hstart. pose proof (ok_bits p Hp) as Hb.
  pose proof (leaf_lt_pow p Hp lf Hlf) as Hl. unfold eviction_leaf_at.
  set (k := leaf_bits p) in *. rewrite (ok_leaves p Hp). fold k.
  set (r := reverse_bits_mod lf k).
  assert (0 <= r < 2 ^ k) as Hr by (apply reverse_bits_mod_range; lia).
  assert (0 < 2 ^ k) as H2 by lia.
  exists (start + (r - start) mod 2 ^ k). split.
  - pose proof (Z.mod_pos_bound (r - start) (2 ^ k) H2). split; [lia|].
    assert ((start + (r - start) mod 2 ^ k) mod 2 ^ k = r) as Hm.
    { rewrite Z.add_mod_idemp_r by lia. replace (start + (r - start)) with r by lia.
      by apply Z.mod_small. }
    rewrite <-reverse_bits_mod_mod, Hm by lia. unfold r.
    rewrite reverse_bits_mod_involutive by lia. by apply Z.mod_small.
  - intros i [Hi E].
    assert (i mod 2 ^ k = r) as Hm.
    { rewrite <-(reverse_bits_mod_involutive i k) by lia. by rewrite E. }
    rewrite <-Hm, Zminus_mod_idemp_l. rewrite (Z.mod_small (i - start)) by lia. lia.
Qed.

Lemma eviction_order_covers_leaves_witness :
  let p := mkParams 16 32 2 8 128 in
  exists! i, 5 <= i < 5 + 8 /\ eviction_leaf_at p i = 3.
Proof.
  apply (eviction_order_covers_leaves (mkParams 16 32 2 8 128) 5 3);
    [split; vm_compute; intuition discriminate|vm_compute; intuition discriminate|lia].
Defined.

(** On a valid schedule [drain_evictions] never fails: it completes
    [min budget debt] evictions, returns their leaves in reverse-bit order and
    leaves a valid schedule with that much less debt. *)
Theorem schedule_drain_correct s budget :
  schedule_ok s -> 0 <= budget ->
  let n := Z.min budget (debt s) in
  schedule_drain_evictions budget s = (Ok (eviction_leaves s n), advance n s) /\
  schedule_ok (advance n s) /\ debt (advance n s) = debt s - n /\
  Forall (fun lf => 0 <= lf < 2 ^ sch_leaf_bits s) (eviction_leaves s n).
Proof.
  intros Hs Hb n. unfold schedule_drain_evictions.
  destruct (drain_loop_ok (Z.to_nat budget) s Hs) as [E Hs']. rewrite Z2Nat.id in * by done.
  split_and!; [done|done|apply debt_advance|].
  unfold eviction_leaves. apply Forall_fmap, Forall_forall. intros i _.
  apply reverse_bits_mod_range, Hs.
Qed.

Lemma schedule_drain_correct_witness :
  let s := mkSchedule 3 2 4 3 in
  schedule_drain_evictions 9 s = (Ok [6; 1; 5; 3; 7], mkSchedule 3 2 4 8) /\ schedule_ok s.
Proof.
  assert (schedule_ok (mkSchedule 3 2 4 3)) as Hs by (split; vm_compute; intuition discriminate).
  split; [|exact Hs].
  exact (proj1 (schedule_drain_correct (mkSchedule 3 2 4 3) 9 Hs ltac:(lia))).
Defined.
