(* ===== verification/Bucket.v ===== *)
(** * Split buckets ([src/src/circuit.rs], metadata and payload pages)

    A bucket of the tree is stored as two pages, the slot metadata in one and
    the slot payloads in the other.  The codecs of both pages are here, and the
    masked operations on one slot; the lemmas relate a pair of pages to the list
    of blocks it stores. *)

From S2P Require Import Prelude Ct Block.

Definition META_OCCUPIED : Z := 1.
Definition META_EMPTY : Z := 0.

(** Mirror of [struct CircuitMetaSlot]. *)
Record CircuitMetaSlot : Type := mkMeta {
  ms_occupied : bool;
  ms_logical_id : Z;
  ms_leaf : Z
}.

#[global] Instance CircuitMetaSlot_eq_dec : EqDecision CircuitMetaSlot.
Proof. solve_decision. Defined.

(** [CircuitMetaSlot::SERIALIZED_LEN] *)
Definition META_SERIALIZED_LEN : Z := 1 + 8 + 4.

(** [CircuitMetaSlot::dummy] and [CircuitMetaSlot::real] *)
Definition meta_dummy : CircuitMetaSlot := mkMeta false u64_max u32_max.
Definition meta_real (logical_id leaf : Z) : CircuitMetaSlot := mkMeta true logical_id leaf.

(** [CircuitMetaSlot::encode_into]: the new contents of [out]. *)
Definition meta_encode_into (m : CircuitMetaSlot) (out : bytes) : outcome bytes :=
  if negb (lenZ out =? META_SERIALIZED_LEN)
  then Err (InvalidInput "meta output len {} != expected {}")
  else Ok ((if ms_occupied m then META_OCCUPIED else META_EMPTY)
             :: to_le 8 (ms_logical_id m) ++ to_le 4 (ms_leaf m)).

(** [CircuitMetaSlot::decode_from] *)
Definition meta_decode_from (input : bytes) : outcome CircuitMetaSlot :=
  if negb (lenZ input =? META_SERIALIZED_LEN)
  then Err (InvalidInput "meta input len {} != expected {}")
  else
    let? b0 := indexZ input 0 in
    let? occ := decode_occupied b0 "invalid meta occupied byte {other}" in
    let? id := slice input 1 8 in
    let? lf := slice input 9 4 in
    Ok (mkMeta occ (from_le id) (from_le lf)).

Section MetaMasked.
Context `{Subtle}.

(** [CircuitMetaSlot::logical_id_choice] *)
Definition meta_logical_id_choice (m : CircuitMetaSlot) (id : Z) : Choice :=
  and (choice_from_bool (ms_occupied m)) (eq_u64 (ms_logical_id m) id).

(** [CircuitMetaSlot::clear_if] *)
Definition meta_clear_if (m : CircuitMetaSlot) (c : Choice) : CircuitMetaSlot :=
  let occ := cmov_u8 (bool_to_u8 (ms_occupied m)) META_EMPTY c in
  mkMeta (negb (occ =? 0)) (cmov_u64 (ms_logical_id m) u64_max c) (cmov_u32 (ms_leaf m) u32_max c).

(** [CircuitMetaSlot::cmov_from] *)
Definition meta_cmov_from (m other : CircuitMetaSlot) (c : Choice) : CircuitMetaSlot :=
  let occ := cmov_u8 (bool_to_u8 (ms_occupied m)) (bool_to_u8 (ms_occupied other)) c in
  mkMeta (negb (occ =? 0)) (cmov_u64 (ms_logical_id m) (ms_logical_id other) c)
    (cmov_u32 (ms_leaf m) (ms_leaf other) c).

(** [cmov_block_from_meta_payload] *)
Definition cmov_block_from_meta_payload (b : OramBlock) (m : CircuitMetaSlot) (pl : bytes)
    (c : Choice) : OramBlock :=
  let occ := cmov_u8 (bool_to_u8 (occupied b)) (bool_to_u8 (ms_occupied m)) c in
  mkBlock (negb (occ =? 0)) (cmov_u64 (logical_id b) (ms_logical_id m) c)
    (cmov_u32 (leaf b) (ms_leaf m) c) (cmov_bytes (payload b) pl c).

End MetaMasked.

(** ** Pages *)

(** [circuit_meta_page_bytes], [circuit_payload_page_bytes] *)
Definition circuit_meta_page_bytes (bucket_size : Z) : Z := bucket_size * META_SERIALIZED_LEN.
Definition circuit_payload_page_bytes (bucket_size block_size : Z) : Z := bucket_size * block_size.

(** Mirror of [struct CircuitMetaBucket] and [struct CircuitPayloadBucket]. *)
Record CircuitMetaBucket : Type := mkMetaBucket { mb_slots : list CircuitMetaSlot }.
Record CircuitPayloadBucket : Type := mkPayloadBucket { pb_slots : list bytes }.

(** [CircuitMetaBucket::dummy] *)
Definition meta_bucket_dummy (bucket_size : Z) : CircuitMetaBucket :=
  mkMetaBucket (replicate (Z.to_nat bucket_size) meta_dummy).

(** [CircuitMetaBucket::encode_into]: the new contents of [out]. *)
Definition meta_bucket_encode_into (b : CircuitMetaBucket) (bucket_size : Z) (out : bytes)
    : outcome bytes :=
  if negb (lenZ (mb_slots b) =? bucket_size)
  then Err (InvalidInput "meta bucket has {} slots, expected {}")
  else if negb (lenZ out =? circuit_meta_page_bytes bucket_size)
  then Err (InvalidInput "meta output len {} != expected {}")
  else ofold (fun out (islot : Z * CircuitMetaSlot) =>
         let start := islot.1 * META_SERIALIZED_LEN in
         let? dst := slice out start META_SERIALIZED_LEN in
         let? enc := meta_encode_into islot.2 dst in
         splice out start enc)
       out (enumerate (mb_slots b)).

(** [CircuitMetaBucket::encode] *)
Definition meta_bucket_encode (b : CircuitMetaBucket) (bucket_size : Z) : outcome bytes :=
  meta_bucket_encode_into b bucket_size (zeros (circuit_meta_page_bytes bucket_size)).

(** [CircuitMetaBucket::decode] *)
Definition meta_bucket_decode (input : bytes) (bucket_size : Z) : outcome CircuitMetaBucket :=
  if negb (lenZ input =? circuit_meta_page_bytes bucket_size)
  then Err (InvalidInput "meta bucket input len {} != expected {}")
  else
    let? chunks := chunks_exact META_SERIALIZED_LEN input in
    let? slots := omap_m meta_decode_from chunks in
    Ok (mkMetaBucket slots).

(** [CircuitPayloadBucket::dummy] *)
Definition payload_bucket_dummy (bucket_size block_size : Z) : CircuitPayloadBucket :=
  mkPayloadBucket (replicate (Z.to_nat bucket_size) (zeros block_size)).

(** [CircuitPayloadBucket::encode] *)
Definition payload_bucket_encode (b : CircuitPayloadBucket) (bucket_size block_size : Z)
    : outcome bytes :=
  if negb (lenZ (pb_slots b) =? bucket_size)
  then Err (InvalidInput "payload bucket has {} slots, expected {}")
  else ofold (fun out (islot : Z * bytes) =>
         if negb (lenZ islot.2 =? block_size)
         then Err (InvalidInput "payload slot len {} != block_size {}")
         else splice out (islot.1 * block_size) islot.2)
       (zeros (circuit_payload_page_bytes bucket_size block_size))
       (enumerate (pb_slots b)).

(** [CircuitPayloadBucket::decode] *)
Definition payload_bucket_decode (input : bytes) (bucket_size block_size : Z)
    : outcome CircuitPayloadBucket :=
  if negb (lenZ input =? circuit_payload_page_bytes bucket_size block_size)
  then Err (InvalidInput "payload bucket input len {} != expected {}")
  else
    let? chunks := chunks_exact block_size input in
    Ok (mkPayloadBucket chunks).

(** ** Blocks and pages *)

(** The metadata of a block, the block of a slot, and the encoded slot. *)
Definition block_meta (b : OramBlock) : CircuitMetaSlot :=
  mkMeta (occupied b) (logical_id b) (leaf b).
Definition meta_block (m : CircuitMetaSlot) (pl : bytes) : OramBlock :=
  mkBlock (ms_occupied m) (ms_logical_id m) (ms_leaf m) pl.
Definition meta_ok (m : CircuitMetaSlot) : Prop := is_u64 (ms_logical_id m) /\ is_u32 (ms_leaf m).
Definition meta_bytes (m : CircuitMetaSlot) : bytes :=
  (if ms_occupied m then META_OCCUPIED else META_EMPTY)
    :: to_le 8 (ms_logical_id m) ++ to_le 4 (ms_leaf m).

(** The two pages of a bucket of blocks. *)
Definition meta_page (bucket : list OramBlock) : bytes := concat ((meta_bytes ∘ block_meta) <$> bucket).
Definition payload_page (bucket : list OramBlock) : bytes := concat (payload <$> bucket).

(** A bucket: [bucket_size] well-formed blocks. *)
Definition bucket_ok (bucket_size block_size : Z) (bucket : list OramBlock) : Prop :=
  lenZ bucket = bucket_size /\ Forall (block_ok block_size) bucket.

Section Slots.

Lemma meta_bytes_length m : lenZ (meta_bytes m) = META_SERIALIZED_LEN.
Proof. unfold meta_bytes, lenZ. cbn [length]. by rewrite length_app, !to_le_length. Qed.

Lemma meta_bytes_ok m : bytes_ok (meta_bytes m).
Proof.
  unfold meta_bytes. apply Forall_cons. split; [destruct (ms_occupied m); unfold is_u8, META_OCCUPIED, META_EMPTY; lia|].
  apply Forall_app. split; apply to_le_ok.
Qed.

Lemma meta_encode_ok m out :
  lenZ out = META_SERIALIZED_LEN -> meta_encode_into m out = Ok (meta_bytes m).
Proof. intros H. unfold meta_encode_into. by rewrite H. Qed.

Lemma meta_decode_bytes m : meta_ok m -> meta_decode_from (meta_bytes m) = Ok m.
Proof.
  intros [Hid Hlf]. unfold meta_decode_from. rewrite meta_bytes_length, Z.eqb_refl. cbn [negb].
  unfold meta_bytes. rewrite <-(app_nil_r (to_le 4 (ms_leaf m))).
  destruct (decode_fields (if ms_occupied m then META_OCCUPIED else META_EMPTY)
    (to_le 8 (ms_logical_id m)) (to_le 4 (ms_leaf m)) []) as (-> & -> & -> & _); [apply to_le_length..|].
  cbn [obind]. rewrite (decode_occupied_bool (ms_occupied m)). cbn [obind].
  rewrite !from_to_le, !Z.mod_small by words. by destruct m.
Qed.

Lemma meta_decode_Ok input m :
  bytes_ok input -> meta_decode_from input = Ok m -> input = meta_bytes m /\ meta_ok m.
Proof.
  intros Hin. unfold meta_decode_from. destruct (lenZ input =? META_SERIALIZED_LEN) eqn:E; [|done].
  cbn [negb]. zbool.
  destruct (slot_split input 0) as (b0 & i8 & i4 & pl & -> & H8 & H4 & Hpl); [done|done|].
  destruct (decode_fields b0 i8 i4 pl) as (-> & -> & -> & _); [done..|]. cbn [obind].
  destruct pl; [|rewrite lenZ_cons in Hpl; pose proof (lenZ_nonneg pl); lia].
  rewrite obind_Ok. intros (o & Ho%decode_occupied_Ok & [= <-]). rewrite app_nil_r in *.
  apply Forall_cons in Hin as [_ [Hin8 Hin4]%Forall_app].
  unfold meta_bytes, meta_ok. cbn [ms_occupied ms_logical_id ms_leaf]. split.
  - by rewrite Ho, (to_from_le_len 8), (to_from_le_len 4).
  - split; [by apply from_le_u64|by apply from_le_u32].
Qed.

Context `{SubtleLaws}.

Lemma truth_meta_logical_id_choice m id :
  truth (meta_logical_id_choice m id) = ms_occupied m && (ms_logical_id m =? id).
Proof. unfold meta_logical_id_choice. by ct_simpl. Qed.

Lemma meta_clear_if_truth m c : meta_clear_if m c = if truth c then meta_dummy else m.
Proof. unfold meta_clear_if. ct_simpl. destruct m as [[] ??]; by destruct (truth c). Qed.

Lemma meta_cmov_from_truth m other c : meta_cmov_from m other c = if truth c then other else m.
Proof.
  unfold meta_cmov_from. ct_simpl.
  destruct m as [[] ??], other as [[] ??]; by destruct (truth c).
Qed.

Lemma cmov_block_from_meta_payload_truth b m pl c :
  length (payload b) = length pl ->
  cmov_block_from_meta_payload b m pl c = if truth c then meta_block m pl else b.
Proof.
  intros. unfold cmov_block_from_meta_payload. ct_simpl. rewrite cmov_bytes_truth by done.
  destruct b as [[] ???], m as [[] ??]; by destruct (truth c).
Qed.

End Slots.

Section Pages.
Context (bsz bs : Z) (Hbsz : 0 < bsz) (Hbs : 0 < bs).

Lemma meta_block_meta b : meta_block (block_meta b) (payload b) = b.
Proof. by destruct b. Qed.
Lemma block_meta_ok b : block_ok bs b -> meta_ok (block_meta b).
Proof. intros (? & ? & _). by split. Qed.
Lemma block_meta_dummy : block_meta (block_dummy bs) = meta_dummy.
Proof. done. Qed.

Lemma meta_encode_slots slots out :
  lenZ slots = bsz -> lenZ out = circuit_meta_page_bytes bsz ->
  meta_bucket_encode_into (mkMetaBucket slots) bsz out = Ok (concat (meta_bytes <$> slots)).
Proof.
  intros Hl Ho. unfold meta_bucket_encode_into. cbn [mb_slots]. rewrite Hl, Ho, !Z.eqb_refl. cbn [negb].
  apply (ofold_tiles META_SERIALIZED_LEN meta_bytes _ slots) with (pre := []);
    [intros; apply meta_bytes_length| |done|done|by rewrite Hl].
  - intros i x pre old post _ Hpre Hold. cbn [fst snd].
    rewrite (slice_app pre old post) by done. cbn [obind].
    rewrite meta_encode_ok by done. cbn [obind]. apply splice_app; [done|].
    by rewrite meta_bytes_length.
Qed.

Lemma payload_encode_slots slots :
  lenZ slots = bsz -> Forall (fun s => lenZ s = bs) slots ->
  payload_bucket_encode (mkPayloadBucket slots) bsz bs = Ok (concat slots).
Proof.
  intros Hl Hs. unfold payload_bucket_encode. cbn [pb_slots]. rewrite Hl, Z.eqb_refl. cbn [negb].
  rewrite Forall_forall in Hs. rewrite <-Hl. rewrite <-(list_fmap_id slots) at 3.
  apply (ofold_tiles bs id _ slots) with (pre := []) (rest := zeros _); [exact Hs| |lia|done|].
  - intros i x pre old post Hx Hpre Hold. cbn [fst snd]. rewrite (Hs x Hx), Z.eqb_refl. cbn [negb].
    apply splice_app; [done|]. unfold id. by rewrite (Hs x Hx).
  - rewrite lenZ_zeros; [by rewrite Hl|]. unfold circuit_payload_page_bytes. nia.
Qed.

Context (bucket : list OramBlock) (Hb : bucket_ok bsz bs bucket).

Lemma meta_page_length : lenZ (meta_page bucket) = circuit_meta_page_bytes bsz.
Proof.
  destruct Hb as [Hl _]. unfold meta_page. erewrite lenZ_concat.
  - rewrite lenZ_fmap, Hl. done.
  - apply Forall_fmap, Forall_true. intros. apply meta_bytes_length.
Qed.

Lemma payload_page_length : lenZ (payload_page bucket) = circuit_payload_page_bytes bsz bs.
Proof.
  destruct Hb as [Hl Hf]. unfold payload_page. erewrite lenZ_concat.
  - by rewrite lenZ_fmap, Hl.
  - apply Forall_fmap. eapply Forall_impl; [exact Hf|]. by intros ? (_ & _ & ? & _).
Qed.

Lemma meta_page_ok : bytes_ok (meta_page bucket).
Proof.
  unfold meta_page. apply Forall_concat, Forall_fmap, Forall_true. intros. apply meta_bytes_ok.
Qed.

Lemma payload_page_ok : bytes_ok (payload_page bucket).
Proof.
  destruct Hb as [_ Hf]. unfold payload_page. apply Forall_concat, Forall_fmap.
  eapply Forall_impl; [exact Hf|]. by intros ? (_ & _ & _ & ?).
Qed.

Lemma meta_decode_page :
  meta_bucket_decode (meta_page bucket) bsz = Ok (mkMetaBucket (block_meta <$> bucket)).
Proof.
  unfold meta_bucket_decode. rewrite meta_page_length, Z.eqb_refl. cbn [negb]. unfold meta_page.
  rewrite chunks_exact_concat; [|done|].
  - cbn [obind]. rewrite list_fmap_compose.
    assert (omap_m meta_decode_from (meta_bytes <$> (block_meta <$> bucket)) = Ok (block_meta <$> bucket)) as ->; [|done].
    apply omap_m_Ok, Forall2_fmap_l, Forall2_fmap, Forall_Forall2_diag.
    destruct Hb as [_ Hf]. eapply Forall_impl; [exact Hf|]. intros b Hbk.
    by apply meta_decode_bytes, block_meta_ok.
  - apply Forall_fmap, Forall_true. intros. apply meta_bytes_length.
Qed.

Lemma payload_decode_page :
  payload_bucket_decode (payload_page bucket) bsz bs = Ok (mkPayloadBucket (payload <$> bucket)).
Proof.
  unfold payload_bucket_decode. rewrite payload_page_length, Z.eqb_refl. cbn [negb]. unfold payload_page.
  rewrite chunks_exact_concat; [done|done|].
  destruct Hb as [_ Hf]. apply Forall_fmap. eapply Forall_impl; [exact Hf|]. by intros ? (_ & _ & ? & _).
Qed.

Lemma meta_encode_page :
  meta_bucket_encode (mkMetaBucket (block_meta <$> bucket)) bsz = Ok (meta_page bucket).
Proof.
  unfold meta_bucket_encode. rewrite meta_encode_slots.
  - by rewrite <-list_fmap_compose.
  - destruct Hb. by rewrite lenZ_fmap.
  - apply lenZ_zeros. unfold circuit_meta_page_bytes, META_SERIALIZED_LEN. lia.
Qed.

Lemma payload_encode_page :
  payload_bucket_encode (mkPayloadBucket (payload <$> bucket)) bsz bs = Ok (payload_page bucket).
Proof.
  destruct Hb as [Hl Hf]. apply payload_encode_slots; [by rewrite lenZ_fmap|].
  apply Forall_fmap. eapply Forall_impl; [exact Hf|]. by intros ? (_ & _ & ? & _).
Qed.

End Pages.

(** ** Properties *)

(** A bucket of [bucket_size] well-formed blocks round-trips through its two
    pages: both encoders succeed, the pages have the sizes the stores are opened
    with and hold bytes, and the decoders give the slots back. *)
Theorem bucket_pages_roundtrip bsz bs bucket :
  0 < bsz -> 0 < bs -> bucket_ok bsz bs bucket ->
  exists mp pp,
    meta_bucket_encode (mkMetaBucket (block_meta <$> bucket)) bsz = Ok mp /\
    payload_bucket_encode (mkPayloadBucket (payload <$> bucket)) bsz bs = Ok pp /\
    lenZ mp = circuit_meta_page_bytes bsz /\ lenZ pp = circuit_payload_page_bytes bsz bs /\
    bytes_ok mp /\ bytes_ok pp /\
    meta_bucket_decode mp bsz = Ok (mkMetaBucket (block_meta <$> bucket)) /\
    payload_bucket_decode pp bsz bs = Ok (mkPayloadBucket (payload <$> bucket)).
Proof.
  intros Hbsz Hbs Hb. exists (meta_page bucket), (payload_page bucket).
  split_and!; [by apply (meta_encode_page bsz bs)|by apply payload_encode_page
    |by apply (meta_page_length bsz bs)|by apply payload_page_length|apply meta_page_ok
    |by apply (payload_page_ok bsz bs)|by apply (meta_decode_page bsz bs)|by apply payload_decode_page].
Qed.

Lemma bucket_pages_roundtrip_witness :
  exists mp, meta_bucket_encode
    (mkMetaBucket (block_meta <$> [mkBlock true 7 3 [1; 2]; block_dummy 2])) 2 = Ok mp /\
    lenZ mp = 26.
Proof.
  destruct (bucket_pages_roundtrip 2 2 [mkBlock true 7 3 [1; 2]; block_dummy 2])
    as (mp & pp & H & _ & Hl & _); [lia|lia| |by exists mp].
  split; [done|]. repeat constructor; simpl; try lia; done.
Defined.

(** A metadata slot is decoded from a 13-byte buffer exactly when its first
    byte is 0 or 1; the decoder inverts the encoder on words and re-encoding a
    decoded slot restores the buffer, so the encoding is canonical. *)
Theorem meta_slot_canonical (m : CircuitMetaSlot) (out input : bytes) :
  lenZ out = META_SERIALIZED_LEN -> bytes_ok input ->
  (meta_ok m -> exists enc, meta_encode_into m out = Ok enc /\ meta_decode_from enc = Ok m) /\
  (meta_decode_from input = Ok m -> meta_encode_into m out = Ok input /\ meta_ok m) /\
  (lenZ input = META_SERIALIZED_LEN ->
     (exists m', meta_decode_from input = Ok m') <->
     (indexZ input 0 = Ok META_EMPTY \/ indexZ input 0 = Ok META_OCCUPIED)).
Proof.
  intros Ho Hin. split_and!.
  - intros Hm. exists (meta_bytes m). split; [by apply meta_encode_ok|by apply meta_decode_bytes].
  - intros Hd. destruct (meta_decode_Ok input m Hin Hd) as [-> ?]. split; [by apply meta_encode_ok|done].
  - intros Hl. destruct (slot_split input 0) as (b0 & i8 & i4 & pl & -> & H8 & H4 & Hpl); [done|done|].
    destruct (decode_fields b0 i8 i4 pl) as (E0 & E1 & E2 & _); [done..|].
    unfold meta_decode_from. rewrite Hl, E0, E1, E2. cbn [obind]. rewrite Z.eqb_refl. cbn [negb].
    unfold decode_occupied, META_EMPTY, META_OCCUPIED, EMPTY, OCCUPIED.
    destruct (b0 =? 0) eqn:?; zbool; [subst; naive_solver|].
    destruct (b0 =? 1) eqn:?; zbool; [subst; naive_solver|]. cbn [obind]. naive_solver.
Qed.

Lemma meta_slot_canonical_witness :
  exists enc, meta_encode_into (mkMeta true 7 3) (zeros 13) = Ok enc /\ meta_decode_from enc = Ok (mkMeta true 7 3).
Proof.
  apply (meta_slot_canonical (mkMeta true 7 3) (zeros 13) []); [done|by apply Forall_nil|split; simpl; words].
Defined.
