(* ===== verification/PosMap.v ===== *)
(** * Position-map scans ([src/src/circuit.rs], [scan_pos_map_*] and
    [batch_access_leaves])

    Every lookup and update touches the whole position map and selects by mask;
    the lemmas give the array operation each scan computes. *)

From S2P Require Import Prelude Ct.

Section Ops.
Context `{Subtle}.

(** [scan_pos_map_lookup] *)
Definition scan_pos_map_lookup (pos_map : list Z) (logical_id : Z) : Z :=
  foldl (fun leaf (ic : Z * Z) => cmov_u32 leaf ic.2 (eq_u64 ic.1 logical_id)) 0 (enumerate pos_map).

(** [scan_pos_map_update] *)
Definition scan_pos_map_update (pos_map : list Z) (logical_id new_leaf : Z) : list Z :=
  (fun il : Z * Z => cmov_u32 il.2 new_leaf (eq_u64 il.1 logical_id)) <$> enumerate pos_map.

(** [scan_pos_map_lookup_batch]: every entry is offered to every result. *)
Definition scan_pos_map_lookup_batch (pos_map logical_ids : list Z) : list Z :=
  foldl (fun leaves (ic : Z * Z) =>
           zip_with (fun id leaf => cmov_u32 leaf ic.2 (eq_u64 ic.1 id)) logical_ids leaves)
    (replicate (length logical_ids) 0) (enumerate pos_map).

(** [scan_pos_map_update_batch] *)
Definition scan_pos_map_update_batch (pos_map logical_ids new_leaves : list Z) : list Z :=
  (fun il : Z * Z =>
     foldl (fun leaf (u : Z * Z) => cmov_u32 leaf u.2 (eq_u64 il.1 u.1)) il.2
       (zip logical_ids new_leaves)) <$> enumerate pos_map.

(** [batch_access_leaves]: entry [i] takes the new leaf of every earlier [j < i]
    with the same id, in order. *)
Definition batch_access_leaves (logical_ids old_leaves new_leaves : list Z) : list Z :=
  (fun il : Z * (Z * Z) =>
     foldl (fun leaf (u : Z * Z) => cmov_u32 leaf u.2 (eq_u64 il.2.1 u.1)) il.2.2
       (take (Z.to_nat il.1) (zip logical_ids new_leaves)))
    <$> enumerate (zip logical_ids old_leaves).

End Ops.

(** ** Reference: an array indexed by logical id *)

Definition pm_get (pos_map : list Z) (id : Z) : Z := default 0 (pos_map !! Z.to_nat id).
Definition pm_set (pos_map : list Z) (u : Z * Z) : list Z := <[Z.to_nat u.1 := u.2]> pos_map.

(** The leaves [id] is found at when the accesses run one after the other. *)
Fixpoint sequential_leaves (pos_map ids new_leaves : list Z) : list Z :=
  match ids, new_leaves with
  | id :: ids, lf :: new_leaves => pm_get pos_map id :: sequential_leaves (pm_set pos_map (id, lf)) ids new_leaves
  | _, _ => []
  end.

Section Lemmas.
Context `{SubtleLaws}.

Lemma length_pm_sets us pm : length (foldl pm_set pm us) = length pm.
Proof. revert pm; induction us as [|u us IH]; intros pm; simpl; [done|]. rewrite IH. apply length_insert. Qed.

Lemma scan_fold_lookup i pm id acc :
  0 <= i -> i <= id ->
  foldl (fun leaf (ic : Z * Z) => cmov_u32 leaf ic.2 (eq_u64 ic.1 id)) acc (enumerate_from i pm) =
  default acc (pm !! Z.to_nat (id - i)).
Proof.
  revert i acc. induction pm as [|x pm IH]; intros i acc Hi Hid; [done|].
  cbn [enumerate_from foldl fst snd]. ct_simpl. destruct (decide (i = id)) as [->|Hne].
  - rewrite Z.eqb_refl, Z.sub_diag. simpl. clear IH.
    assert (forall k a, id < k -> foldl (fun leaf (ic : Z * Z) => cmov_u32 leaf ic.2 (eq_u64 ic.1 id)) a
      (enumerate_from k pm) = a) as Hskip; [|apply Hskip; lia].
    clear -H0. induction pm as [|y pm IH]; intros k a Hk; [done|].
    cbn [enumerate_from foldl fst snd]. ct_simpl. rewrite (proj2 (Z.eqb_neq k id)) by lia. apply IH. lia.
  - rewrite (proj2 (Z.eqb_neq i id)) by done. rewrite IH by lia.
    replace (Z.to_nat (id - i)) with (S (Z.to_nat (id - (i + 1)))) by lia. done.
Qed.

Lemma scan_pos_map_lookup_get pm id : 0 <= id -> scan_pos_map_lookup pm id = pm_get pm id.
Proof. intros. unfold scan_pos_map_lookup, pm_get, enumerate. rewrite scan_fold_lookup by lia. by rewrite Z.sub_0_r. Qed.

Lemma scan_pos_map_update_set pm id lf :
  0 <= id -> scan_pos_map_update pm id lf = pm_set pm (id, lf).
Proof.
  intros Hid. unfold scan_pos_map_update, pm_set. cbn [fst snd]. apply list_eq. intros k.
  rewrite list_lookup_fmap, lookup_enumerate. destruct (decide (k = Z.to_nat id)) as [->|Hne].
  - destruct (pm !! Z.to_nat id) eqn:E; simpl.
    + rewrite list_lookup_insert_eq by by eapply lookup_lt_Some. ct_simpl.
      by rewrite (proj2 (Z.eqb_eq _ _)) by lia.
    + apply lookup_ge_None in E. symmetry. apply lookup_ge_None. by rewrite length_insert.
  - rewrite list_lookup_insert_ne by done. destruct (pm !! k); simpl; [|done].
    ct_simpl. by rewrite (proj2 (Z.eqb_neq _ _)) by lia.
Qed.

(** Offering a sequence of updates to one entry is the entry of the updated array. *)
Lemma fold_updates pm us id :
  0 <= id < lenZ pm -> Forall (fun u : Z * Z => 0 <= u.1) us ->
  foldl (fun leaf (u : Z * Z) => cmov_u32 leaf u.2 (eq_u64 id u.1)) (pm_get pm id) us =
  pm_get (foldl pm_set pm us) id.
Proof.
  intros Hid Hus. revert pm Hid. induction Hus as [|u us Hu _ IH]; intros pm Hid; [done|].
  cbn [foldl]. rewrite <-IH.
  2: { unfold pm_set, lenZ in *. by rewrite length_insert. }
  f_equal. ct_simpl. unfold pm_get, pm_set, lenZ in *. destruct (id =? u.1) eqn:E; zbool.
  - subst. rewrite list_lookup_insert_eq by lia. done.
  - rewrite list_lookup_insert_ne by lia. done.
Qed.

Lemma scan_pos_map_update_batch_set pm ids nls :
  Forall (fun id => 0 <= id) ids ->
  scan_pos_map_update_batch pm ids nls = foldl pm_set pm (zip ids nls).
Proof.
  intros Hids. unfold scan_pos_map_update_batch. apply list_eq. intros k.
  rewrite list_lookup_fmap, lookup_enumerate. destruct (pm !! k) as [x|] eqn:E; simpl.
  - pose proof (lookup_lt_Some _ _ _ E) as Hlt.
    assert (pm_get pm (Z.of_nat k) = x) as <- by (unfold pm_get; by rewrite Nat2Z.id, E).
    rewrite fold_updates; [unfold pm_get; rewrite Nat2Z.id|..].
    + destruct (foldl pm_set pm (zip ids nls) !! k) eqn:E2; [done|].
      apply lookup_ge_None in E2. rewrite length_pm_sets in E2. lia.
    + unfold lenZ. lia.
    + clear -Hids. revert nls. induction Hids; intros [|]; simpl; constructor; auto.
  - apply lookup_ge_None in E. symmetry. apply lookup_ge_None. by rewrite length_pm_sets.
Qed.

Lemma scan_pos_map_lookup_batch_get pm ids :
  Forall (fun id => 0 <= id) ids -> scan_pos_map_lookup_batch pm ids = pm_get pm <$> ids.
Proof.
  intros Hids. unfold scan_pos_map_lookup_batch, enumerate.
  assert (forall i accs, length accs = length ids ->
    foldl (fun leaves (ic : Z * Z) =>
             zip_with (fun id leaf => cmov_u32 leaf ic.2 (eq_u64 ic.1 id)) ids leaves) accs (enumerate_from i pm)
    = zip_with (fun id acc => foldl (fun leaf (ic : Z * Z) => cmov_u32 leaf ic.2 (eq_u64 ic.1 id)) acc
                                (enumerate_from i pm)) ids accs) as Hgen.
  { induction pm as [|x pm IH]; intros i accs Hl; cbn [enumerate_from foldl].
    - clear -Hl. revert accs Hl. induction ids; intros [|] ?; simplify_eq/=; f_equal; auto.
    - rewrite IH; [|rewrite length_zip_with; lia].
      clear -Hl. revert accs Hl. induction ids; intros [|] ?; simplify_eq/=; f_equal; auto. }
  rewrite Hgen by apply length_replicate. clear Hgen. induction Hids as [|id ids Hid _ IH]; simpl; [done|].
  f_equal; [|exact IH]. by apply scan_pos_map_lookup_get.
Qed.

Lemma sequential_leaves_lookup pm ids nls k id :
  length ids = length nls -> ids !! k = Some id ->
  sequential_leaves pm ids nls !! k = Some (pm_get (foldl pm_set pm (take k (zip ids nls))) id).
Proof.
  revert pm nls k. induction ids as [|id0 ids IH]; intros pm [|lf nls] [|k] Hl Hk; simplify_eq/=; [done|].
  by apply IH.
Qed.

Lemma length_sequential_leaves pm ids nls :
  length ids = length nls -> length (sequential_leaves pm ids nls) = length ids.
Proof. revert pm nls. induction ids; intros pm [|] ?; simplify_eq/=; auto. Qed.

Lemma batch_access_leaves_sequential pm ids nls :
  length ids = length nls -> Forall (fun id => 0 <= id < lenZ pm) ids ->
  batch_access_leaves ids (scan_pos_map_lookup_batch pm ids) nls = sequential_leaves pm ids nls.
Proof.
  intros Hl Hids. rewrite scan_pos_map_lookup_batch_get.
  2: { eapply Forall_impl; [exact Hids|]. intros ? []. done. }
  unfold batch_access_leaves. apply list_eq. intros k.
  rewrite list_lookup_fmap, lookup_enumerate, lookup_zip_with, list_lookup_fmap.
  destruct (ids !! k) as [id|] eqn:E; simpl.
  - rewrite (sequential_leaves_lookup _ _ _ _ id) by done. rewrite Nat2Z.id. f_equal. cbn [fst snd].
    apply fold_updates; [by eapply Forall_lookup_1 in Hids|].
    apply Forall_take. clear -Hids. revert nls.
    induction Hids as [|? ids []]; intros [|]; simpl; constructor; auto.
  - symmetry. apply lookup_ge_None. rewrite length_sequential_leaves by done.
    by apply lookup_ge_None in E.
Qed.

End Lemmas.

(** ** Properties *)

(** The oblivious batch scans compute what the accesses would see one after
    the other: access [i] goes to the leaf the position map holds after the
    first [i] remappings (repeated ids included), and the final update leaves
    the position map of the whole sequence. *)
Theorem batch_scans_sequential `{SubtleLaws} pos_map ids new_leaves :
  length ids = length new_leaves -> Forall (fun id => 0 <= id < lenZ pos_map) ids ->
  batch_access_leaves ids (scan_pos_map_lookup_batch pos_map ids) new_leaves =
    sequential_leaves pos_map ids new_leaves /\
  scan_pos_map_update_batch pos_map ids new_leaves =
    foldl (fun pm u => scan_pos_map_update pm u.1 u.2) pos_map (zip ids new_leaves).
Proof.
  intros Hl Hids. split; [by apply batch_access_leaves_sequential|].
  rewrite scan_pos_map_update_batch_set by (eapply Forall_impl; [exact Hids|]; intros ? []; done).
  assert (Forall (fun u : Z * Z => 0 <= u.1) (zip ids new_leaves)) as Hus.
  { clear -Hids. revert new_leaves. induction Hids as [|? ids []]; intros [|]; simpl; constructor; auto. }
  clear Hl Hids. revert pos_map. induction Hus as [|[id lf] us Hu _ IH]; intros pm; [done|].
  cbn [foldl fst snd]. by rewrite scan_pos_map_update_set, IH.
Qed.

Lemma batch_scans_sequential_witness :
  let B := bool_subtle in
  batch_access_leaves [2; 0; 2] (scan_pos_map_lookup_batch [10; 11; 12] [2; 0; 2]) [5; 6; 7] = [12; 10; 5] /\
  scan_pos_map_update_batch [10; 11; 12] [2; 0; 2] [5; 6; 7] = [6; 11; 7].
Proof.
  destruct (@batch_scans_sequential bool_subtle bool_subtle_laws [10; 11; 12] [2; 0; 2] [5; 6; 7]) as [H1 H2].
  - reflexivity.
  - repeat constructor; vm_compute; congruence.
  - split; [exact H1|exact H2].
Defined.
