(* ===== verification/Stash.v ===== *)
(** * The fixed-capacity stash ([src/src/circuit.rs], stash methods)

    Every operation scans all slots and selects by mask; the lemmas give the
    list operation each scan computes and its effect on the occupied blocks. *)

From S2P Require Import Prelude Ct Block Bucket.

Section Ops.
Context `{Subtle}.

(** The insertion loop of [insert_into_stash] and [insert_candidate_into_stash]. *)
Fixpoint insert_scan (block : OramBlock) (choice inserted : Choice) (slots : list OramBlock)
    : list OramBlock * Choice :=
  match slots with
  | [] => ([], inserted)
  | slot :: slots =>
      let can_insert := and (and choice (not inserted)) (not (choice_from_bool (occupied slot))) in
      let (rest, inserted') := insert_scan block choice (or inserted can_insert) slots in
      (block_cmov_from slot block can_insert :: rest, inserted')
  end.

(** The loop followed by the overflow test. *)
Definition insert_masked (capacity : Z) (block : OramBlock) (choice : Choice)
    : M (list OramBlock) unit := fun stash =>
  let (stash', inserted) := insert_scan block choice (not choice) stash in
  if unwrap_u8 (not inserted) =? 1
  then (Err (StashOverflow (capacity + 1) capacity), stash')
  else (Ok tt, stash').

(** [CircuitOram::insert_into_stash] *)
Definition insert_into_stash (capacity : Z) (block : OramBlock) : M (list OramBlock) unit :=
  insert_masked capacity block (choice_from_bool (occupied block)).

(** [CircuitOram::insert_candidate_into_stash] *)
Definition insert_candidate_into_stash (capacity block_size : Z) (meta : CircuitMetaSlot)
    (pl : bytes) (insert_choice : Choice) : M (list OramBlock) unit :=
  let* _ := guardm (lenZ pl =? block_size) (InvalidInput "payload len {} != block_size {}") in
  insert_masked capacity (mkBlock true (ms_logical_id meta) (ms_leaf meta) pl) insert_choice.

(** [CircuitOram::pad_stash] *)
Definition pad_stash (capacity block_size : Z) (stash : list OramBlock) : list OramBlock :=
  if capacity <? lenZ stash then stash
  else stash ++ replicate (Z.to_nat (capacity - lenZ stash)) (block_dummy block_size).

(** [CircuitOram::occupied_stash_len] *)
Definition occupied_stash_len (stash : list OramBlock) : Z :=
  foldl (fun n b => n + unwrap_u8 (choice_from_bool (occupied b))) 0 stash.

(** [CircuitOram::check_stash] *)
Definition check_stash (capacity : Z) (stash : list OramBlock) : outcome unit :=
  if capacity <? occupied_stash_len stash
  then Err (StashOverflow (occupied_stash_len stash) capacity)
  else if negb (lenZ stash =? capacity)
  then Err (InvalidInput "stash slots {} != stash_capacity {}")
  else Ok tt.

(** The lookup loop of [access] and [access_batch]: output buffer and [found]. *)
Definition stash_lookup (block_size id : Z) (stash : list OramBlock) : bytes * Choice :=
  foldl (fun (acc : bytes * Choice) b =>
           let matched := block_logical_id_choice b id in
           (cmov_bytes acc.1 (payload b) matched, or acc.2 matched))
    (zeros block_size, choice_from_bool false) stash.

(** The update loop of [access] and [access_batch]. *)
Definition stash_update (id new_leaf : Z) (new_payload : bytes) (stash : list OramBlock)
    : list OramBlock :=
  (fun b => let matched := block_logical_id_choice b id in
            mkBlock (occupied b) (logical_id b) (cmov_u32 (leaf b) new_leaf matched)
              (cmov_bytes (payload b) new_payload matched)) <$> stash.

End Ops.

(** ** Reference operations *)

(** The occupied blocks of a list of slots. *)
Definition occ (l : list OramBlock) : list OramBlock := filter (fun b => occupied b = true) l.

(** Insert in the first free slot. *)
Fixpoint insert_first (block : OramBlock) (slots : list OramBlock) : option (list OramBlock) :=
  match slots with
  | [] => None
  | slot :: slots =>
      if occupied slot then cons slot <$> insert_first block slots else Some (block :: slots)
  end.

Definition has_id (id : Z) (b : OramBlock) : bool := occupied b && (logical_id b =? id).

Section Occ.

Lemma occ_app l1 l2 : occ (l1 ++ l2) = occ l1 ++ occ l2.
Proof. apply filter_app. Qed.
#[global] Instance occ_perm : Proper ((≡ₚ) ==> (≡ₚ)) occ.
Proof. intros l1 l2 H. unfold occ. by rewrite H. Qed.
Lemma occ_cons_true b l : occupied b = true -> occ (b :: l) = b :: occ l.
Proof. intros. unfold occ. by rewrite filter_cons_True. Qed.
Lemma occ_cons_false b l : occupied b = false -> occ (b :: l) = occ l.
Proof. intros. unfold occ. rewrite filter_cons_False; [done|]. by rewrite H. Qed.
Lemma occ_dummies n bs : occ (replicate n (block_dummy bs)) = [].
Proof. induction n; [done|]. simpl. rewrite occ_cons_false; done. Qed.
Lemma elem_of_occ b l : b ∈ occ l <-> occupied b = true /\ b ∈ l.
Proof. unfold occ. by rewrite list_elem_of_filter. Qed.
Lemma occ_concat ls : occ (concat ls) = concat (occ <$> ls).
Proof. induction ls as [|l ls IH]; [done|]. cbn [concat fmap list_fmap]. by rewrite occ_app, IH. Qed.
Lemma length_occ l : lenZ (occ l) <= lenZ l.
Proof. unfold occ, lenZ. pose proof (length_filter (fun b => occupied b = true) l). lia. Qed.

Lemma insert_first_Some block slots slots' :
  occupied block = true -> insert_first block slots = Some slots' ->
  occ slots' ≡ₚ block :: occ slots /\ length slots' = length slots.
Proof.
  intros Hb. revert slots'. induction slots as [|s slots IH]; intros slots'; simpl; [done|].
  destruct (occupied s) eqn:E.
  - rewrite fmap_Some. intros (l & Hl & ->). destruct (IH l Hl) as [Hp Hlen].
    rewrite !(occ_cons_true s) by done. split; [rewrite Hp; constructor|simpl; lia].
  - intros [= <-]. rewrite occ_cons_true, occ_cons_false by done. done.
Qed.

Lemma insert_first_Forall (P : OramBlock -> Prop) block slots slots' :
  P block -> Forall P slots -> insert_first block slots = Some slots' -> Forall P slots'.
Proof.
  intros Hb Hf. revert slots'. induction Hf as [|s slots Hs Hss IH]; intros slots'; simpl; [done|].
  destruct (occupied s).
  - rewrite fmap_Some. intros (l & Hl & ->). constructor; auto.
  - intros [= <-]. by constructor.
Qed.

Lemma insert_first_None block slots :
  insert_first block slots = None <-> lenZ (occ slots) = lenZ slots.
Proof.
  induction slots as [|s slots IH]; simpl; [done|].
  destruct (occupied s) eqn:E.
  - rewrite fmap_None, IH. rewrite occ_cons_true by done. rewrite !lenZ_cons. lia.
  - rewrite occ_cons_false, lenZ_cons by done. pose proof (length_occ slots). split; [done|lia].
Qed.

Lemma insert_first_free block slots :
  lenZ (occ slots) < lenZ slots -> exists slots', insert_first block slots = Some slots'.
Proof. intros. destruct (insert_first block slots) eqn:E; [eauto|]. apply insert_first_None in E. lia. Qed.

End Occ.

Section Lemmas.
Context `{SubtleLaws} (bs : Z).

Lemma insert_scan_done block c ins slots :
  Forall (block_ok bs) slots -> lenZ (payload block) = bs ->
  truth ins = true \/ truth c = false ->
  (insert_scan block c ins slots).1 = slots /\ truth (insert_scan block c ins slots).2 = truth ins.
Proof.
  intros Hs Hb. revert ins. induction Hs as [|s slots Hs _ IH]; intros ins Hor; simpl; [done|].
  set (can := and _ _).
  assert (truth can = false) as Hcan.
  { unfold can. ct_simpl. destruct Hor as [-> | ->]; simpl; by rewrite ?andb_false_r. }
  destruct (IH (or ins can)) as [IH1 IH2].
  { ct_simpl. rewrite Hcan, orb_false_r. done. }
  destruct (insert_scan block c (or ins can) slots) as [rest ins']. simpl in *. subst rest.
  rewrite IH2. split; [|ct_simpl; by rewrite Hcan, orb_false_r].
  rewrite block_cmov_from_truth; [by rewrite Hcan|]. destruct Hs as (_ & _ & ? & _). unfold lenZ in *. lia.
Qed.

Lemma insert_scan_spec block c ins slots :
  Forall (block_ok bs) slots -> lenZ (payload block) = bs ->
  truth ins = false -> truth c = true ->
  (insert_scan block c ins slots).1 = default slots (insert_first block slots) /\
  truth (insert_scan block c ins slots).2 = bool_decide (is_Some (insert_first block slots)).
Proof.
  intros Hs Hb. revert ins. induction Hs as [|s slots Hs Hss IH]; intros ins Hins Hc; simpl; [done|].
  set (can := and _ _).
  assert (truth can = negb (occupied s)) as Hcan.
  { unfold can. ct_simpl. by rewrite Hins, Hc. }
  destruct Hs as (_ & _ & Hl & _).
  assert (block_cmov_from s block can = if negb (occupied s) then block else s) as Hcm.
  { rewrite block_cmov_from_truth; [by rewrite Hcan|]. unfold lenZ in *. lia. }
  destruct (occupied s) eqn:Eocc; simpl in *.
  - destruct (IH (or ins can)) as [IH1 IH2]; [ct_simpl; by rewrite Hins, Hcan|done|].
    destruct (insert_scan block c (or ins can) slots) as [rest ins']. simpl in *.
    rewrite IH1, IH2, Hcm. by destruct (insert_first block slots).
  - destruct (insert_scan_done block c (or ins can) slots) as [D1 D2]; [done|done| |].
    { left. ct_simpl. by rewrite Hcan, orb_true_r. }
    destruct (insert_scan block c (or ins can) slots) as [rest ins']. simpl in *. subst rest.
    rewrite Hcm, D2. ct_simpl. by rewrite Hcan, orb_true_r.
Qed.

(** A masked insertion is the insertion in the first free slot, or nothing. *)
Lemma insert_masked_spec cap block c slots :
  Forall (block_ok bs) slots -> lenZ (payload block) = bs ->
  insert_masked cap block c slots =
    if truth c then
      match insert_first block slots with
      | Some slots' => (Ok tt, slots')
      | None => (Err (StashOverflow (cap + 1) cap), slots)
      end
    else (Ok tt, slots).
Proof.
  intros Hs Hb. unfold insert_masked. destruct (truth c) eqn:Hc.
  - destruct (insert_scan_spec block c (not c) slots) as [H1 H2]; [done|done|ct_simpl; by rewrite Hc|done|].
    destruct (insert_scan block c (not c) slots) as [rest ins]. simpl in *. ct_simpl.
    rewrite H1, H2. by destruct (insert_first block slots).
  - destruct (insert_scan_done block c (not c) slots) as [H1 H2]; [done|done|by right|].
    destruct (insert_scan block c (not c) slots) as [rest ins]. simpl in *. ct_simpl.
    rewrite H1, H2. ct_simpl. by rewrite Hc.
Qed.

Lemma insert_into_stash_spec cap block slots :
  Forall (block_ok bs) slots -> lenZ (payload block) = bs ->
  insert_into_stash cap block slots =
    if occupied block then
      match insert_first block slots with
      | Some slots' => (Ok tt, slots')
      | None => (Err (StashOverflow (cap + 1) cap), slots)
      end
    else (Ok tt, slots).
Proof. intros. unfold insert_into_stash. rewrite insert_masked_spec by done. by ct_simpl. Qed.

Lemma occupied_stash_len_occ stash : occupied_stash_len stash = lenZ (occ stash).
Proof.
  unfold occupied_stash_len. rewrite <-(Z.add_0_l (lenZ (occ stash))). generalize 0 at 1 2 as n.
  induction stash as [|b stash IH]; intros n; simpl.
  - change (lenZ (occ [])) with 0. lia.
  - rewrite IH, unwrap_truth. ct_simpl. destruct (occupied b) eqn:E.
    + rewrite occ_cons_true, lenZ_cons by done. lia.
    + rewrite occ_cons_false by done. lia.
Qed.

Lemma check_stash_ok cap stash : lenZ stash = cap -> check_stash cap stash = Ok tt.
Proof.
  intros Hl. unfold check_stash. rewrite occupied_stash_len_occ, Hl, Z.eqb_refl.
  pose proof (length_occ stash). by rewrite (proj2 (Z.ltb_ge _ _)) by lia.
Qed.

Lemma check_stash_Ok cap stash : check_stash cap stash = Ok tt -> lenZ stash = cap.
Proof. unfold check_stash. repeat case_match; try done. intros _. by zbool; destruct (lenZ stash =? cap) eqn:?; zbool. Qed.

Lemma pad_stash_spec cap stash :
  0 <= bs -> lenZ stash <= cap -> Forall (block_ok bs) stash ->
  lenZ (pad_stash cap bs stash) = cap /\ Forall (block_ok bs) (pad_stash cap bs stash) /\
  occ (pad_stash cap bs stash) = occ stash.
Proof.
  intros Hbs Hl Hok. unfold pad_stash. rewrite (proj2 (Z.ltb_ge _ _)) by done. split_and!.
  - rewrite lenZ_app. unfold lenZ in *. rewrite length_replicate. lia.
  - apply Forall_app. split; [done|]. apply Forall_replicate. by apply block_dummy_ok.
  - by rewrite occ_app, occ_dummies, app_nil_r.
Qed.

(** The lookup scan: the payload of the matching block, if it is unique. *)
Lemma stash_lookup_none id stash :
  Forall (block_ok bs) stash -> (forall b, b ∈ stash -> has_id id b = false) ->
  forall out (f : Choice), lenZ out = bs -> truth f = truth f ->
  let r := foldl (fun (acc : bytes * Choice) b =>
             (cmov_bytes acc.1 (payload b) (block_logical_id_choice b id),
              or acc.2 (block_logical_id_choice b id))) (out, f) stash in
  r.1 = out /\ truth r.2 = truth f.
Proof.
  intros Hok. induction Hok as [|b stash Hb _ IH]; intros Hno out f Ho _; [done|]. cbn [foldl fst snd].
  assert (truth (block_logical_id_choice b id) = false) as Hm.
  { rewrite truth_logical_id_choice. apply Hno. set_solver. }
  destruct Hb as (_ & _ & Hl & _). rewrite cmov_bytes_truth, Hm by (unfold lenZ in *; lia).
  destruct (IH ltac:(set_solver) out (or f (block_logical_id_choice b id)) Ho eq_refl) as [-> ->].
  split; [done|]. ct_simpl. by rewrite Hm, orb_false_r.
Qed.

Lemma stash_lookup_split id l b r :
  0 <= bs -> Forall (block_ok bs) (l ++ b :: r) -> has_id id b = true ->
  (forall b', b' ∈ l ++ r -> has_id id b' = false) ->
  (stash_lookup bs id (l ++ b :: r)).1 = payload b /\ truth (stash_lookup bs id (l ++ b :: r)).2 = true.
Proof.
  intros Hbs Hok Hb Hno. apply Forall_app in Hok as [Hl [Hbk Hr]%Forall_cons].
  unfold stash_lookup. rewrite foldl_app. cbn [foldl].
  destruct (stash_lookup_none id l Hl ltac:(set_solver) (zeros bs) (choice_from_bool false)) as [E1 E2];
    [by apply lenZ_zeros|done|].
  destruct (foldl _ _ l) as [out f]. cbn [fst snd] in *. subst out.
  assert (truth (block_logical_id_choice b id) = true) as Hm by by rewrite truth_logical_id_choice.
  destruct Hbk as (_ & _ & Hlb & _).
  rewrite cmov_bytes_truth, Hm by (unfold lenZ, zeros in *; rewrite length_replicate; lia).
  destruct (stash_lookup_none id r Hr ltac:(set_solver) (payload b) (or f (block_logical_id_choice b id)))
    as [-> ->]; [done|done|].
  split; [done|]. ct_simpl. by rewrite Hm, orb_true_r.
Qed.

Lemma stash_lookup_missing id stash :
  0 <= bs -> Forall (block_ok bs) stash -> (forall b, b ∈ stash -> has_id id b = false) ->
  truth (stash_lookup bs id stash).2 = false.
Proof.
  intros Hbs Hok Hno.
  destruct (stash_lookup_none id stash Hok Hno (zeros bs) (choice_from_bool false)) as [_ E];
    [by apply lenZ_zeros|done|].
  unfold stash_lookup. rewrite E. by ct_simpl.
Qed.

Lemma stash_update_eq id nl np stash :
  Forall (block_ok bs) stash -> lenZ np = bs ->
  stash_update id nl np stash =
    (fun b => if has_id id b then mkBlock true id nl np else b) <$> stash.
Proof.
  intros Hok Hnp. unfold stash_update. induction Hok as [|b stash Hb _ IH]; [done|].
  cbn [fmap list_fmap]. f_equal; [|exact IH]. destruct Hb as (_ & _ & Hl & _). ct_simpl.
  rewrite cmov_bytes_truth by (unfold lenZ in *; lia). rewrite truth_logical_id_choice.
  unfold has_id. destruct b as [o i lf pl]; simpl. destruct o, (i =? id) eqn:E; simpl; zbool; by subst.
Qed.

End Lemmas.
