(* ===== verification/Overlay.v ===== *)
(** * Page overlays ([src/src/circuit.rs], [overlay_path_pages] and
    [collect_overlay_paths])

    A batch of paths is read once, merged into a map keyed by page index,
    updated in memory, and handed back path by path for the write. *)

From S2P Require Import Prelude Store.

(** [BTreeMap<usize, Vec<u8>>] *)
Abbreviation overlay := (gmap Z bytes).

(** One page of one path. *)
Definition overlay_page (page_size : Z) (m : overlay) (ip : Z * bytes) : outcome overlay :=
  if negb (lenZ ip.2 =? page_size) then Err (InvalidInput "path page len {} != page_size {}")
  else match m !! ip.1 with
       | Some existing =>
           if decide (existing = ip.2) then Ok m
           else Err (InvalidInput "batch read returned inconsistent bytes for page {}")
       | None => Ok (<[ip.1 := ip.2]> m)
       end.

(** [overlay_path_pages] *)
Definition overlay_path_pages (paths : list (list Z)) (path_pages : list (list bytes))
    (page_size : Z) : outcome overlay :=
  if negb (lenZ paths =? lenZ path_pages)
  then Err (InvalidInput "path count {} != page-path count {}")
  else ofold (fun m (pp : list Z * list bytes) =>
         if negb (lenZ pp.1 =? lenZ pp.2) then Err (InvalidInput "path length {} != page count {}")
         else ofold (overlay_page page_size) m (zip pp.1 pp.2))
       ∅ (zip paths path_pages).

(** [collect_overlay_paths] *)
Definition collect_overlay_paths (paths : list (list Z)) (m : overlay) : outcome (list (list bytes)) :=
  omap_m (fun path : list Z =>
    omap_m (fun page_idx =>
      ok_or (m !! page_idx) (InvalidInput "batch overlay missing requested page {}")) path) paths.

(** ** An overlay holds the pages [f] on the indices [dom]. *)
Definition overlay_of (f : Z -> bytes) (dom : list Z) (m : overlay) : Prop :=
  forall n, m !! n = if decide (n ∈ dom) then Some (f n) else None.

Section Lemmas.
Context (f : Z -> bytes) (size : Z).

Lemma overlay_of_lookup dom m n : overlay_of f dom m -> n ∈ dom -> m !! n = Some (f n).
Proof. intros H ?. rewrite (H n). by rewrite decide_True. Qed.

Lemma overlay_of_insert dom m n x :
  overlay_of f dom m -> n ∈ dom -> overlay_of (page_upd n x f) dom (<[n := x]> m).
Proof.
  intros H Hn k. destruct (decide (n = k)) as [->|Hne].
  - by rewrite lookup_insert_eq, decide_True, page_upd_eq.
  - rewrite lookup_insert_ne, (H k) by done. by rewrite page_upd_ne.
Qed.

Lemma overlay_of_ext g dom m : (forall n, n ∈ dom -> f n = g n) -> overlay_of f dom m -> overlay_of g dom m.
Proof. intros Hfg H n. rewrite (H n). case_decide; [|done]. by rewrite Hfg. Qed.

Lemma overlay_path_ok dom m path :
  overlay_of f dom m -> Forall (fun n => lenZ (f n) = size) path ->
  exists m', ofold (overlay_page size) m (zip path (f <$> path)) = Ok m' /\ overlay_of f (dom ++ path) m'.
Proof.
  intros Hm Hp. revert dom m Hm. induction Hp as [|n path Hn _ IH]; intros dom m Hm.
  { exists m. split; [done|]. by rewrite app_nil_r. }
  cbn [fmap list_fmap zip zip_with ofold]. unfold overlay_page at 1. cbn [fst snd].
  rewrite Hn, Z.eqb_refl. cbn [negb]. rewrite (Hm n). destruct (decide (n ∈ dom)) as [Hin|Hnin].
  - rewrite decide_True by done. cbn [obind]. destruct (IH dom m Hm) as (m' & -> & Hm').
    exists m'. split; [done|]. intros k. rewrite (Hm' k).
    repeat case_decide; try done; set_solver.
  - cbn [obind]. destruct (IH (dom ++ [n]) (<[n := f n]> m)) as (m' & -> & Hm').
    + intros k. destruct (decide (n = k)) as [->|Hne].
      * rewrite lookup_insert_eq, decide_True; [done|set_solver].
      * rewrite lookup_insert_ne, (Hm k) by done. repeat case_decide; try done; set_solver.
    + exists m'. split; [done|]. by rewrite <-app_assoc in Hm'.
Qed.

Lemma overlay_path_pages_ok paths :
  Forall (Forall (fun n => lenZ (f n) = size)) paths ->
  exists m, overlay_path_pages paths ((fun path : list Z => f <$> path) <$> paths) size = Ok m /\
    overlay_of f (concat paths) m.
Proof.
  intros Hp. unfold overlay_path_pages. rewrite lenZ_fmap, Z.eqb_refl. cbn [negb].
  enough (forall dom m, overlay_of f dom m -> exists m',
    ofold (fun m (pp : list Z * list bytes) =>
         if negb (lenZ pp.1 =? lenZ pp.2) then Err (InvalidInput "path length {} != page count {}")
         else ofold (overlay_page size) m (zip pp.1 pp.2))
       m (zip paths ((fun path : list Z => f <$> path) <$> paths)) = Ok m' /\
    overlay_of f (dom ++ concat paths) m') as Hgen.
  { destruct (Hgen [] ∅) as (m & E & Hm); [|eauto]. intros n. rewrite lookup_empty.
    by rewrite decide_False by apply not_elem_of_nil. }
  induction Hp as [|path paths Hp _ IH]; intros dom m Hm.
  { exists m. split; [done|]. by rewrite app_nil_r. }
  cbn [fmap list_fmap zip zip_with ofold concat fst snd]. rewrite lenZ_fmap, Z.eqb_refl. cbn [negb].
  destruct (overlay_path_ok dom m path Hm Hp) as (m1 & -> & Hm1). cbn [obind].
  destruct (IH _ _ Hm1) as (m2 & E & Hm2). exists m2. split; [exact E|]. by rewrite <-app_assoc in Hm2.
Qed.

Lemma collect_overlay_paths_ok paths m :
  overlay_of f (concat paths) m ->
  collect_overlay_paths paths m = Ok ((fun path : list Z => f <$> path) <$> paths).
Proof.
  intros Hm. apply omap_m_pure. intros path Hpath. apply omap_m_pure. intros n Hn.
  rewrite (overlay_of_lookup _ _ _ Hm); [done|]. apply elem_of_concat. by exists path.
Qed.

End Lemmas.

(** ** Properties *)

(** Reading a batch of (possibly overlapping) paths of an array of pages
    into an overlay succeeds and loses nothing: collecting the same paths gives
    the pages back, and the overlay holds exactly the pages the paths touch. *)
Theorem overlay_roundtrip (f : Z -> bytes) (size : Z) (paths : list (list Z)) :
  Forall (Forall (fun n => lenZ (f n) = size)) paths ->
  let pages := (fun path : list Z => f <$> path) <$> paths in
  exists m, overlay_path_pages paths pages size = Ok m /\
    collect_overlay_paths paths m = Ok pages /\
    forall n, m !! n = if decide (n ∈ concat paths) then Some (f n) else None.
Proof.
  intros Hp pages. destruct (overlay_path_pages_ok f size paths Hp) as (m & E & Hm).
  exists m. split_and!; [done|by apply collect_overlay_paths_ok|exact Hm].
Qed.

Lemma overlay_roundtrip_witness :
  exists m, overlay_path_pages [[0; 1]; [0; 2]] [[[7]; [8]]; [[7]; [9]]] 1 = Ok m.
Proof.
  destruct (overlay_roundtrip (fun n => [n + 7]) 1 [[0; 1]; [0; 2]]) as (m & E & _).
  - repeat constructor.
  - exists m. exact E.
Defined.

(** A batch read that returns different bytes for the same page is
    rejected. *)
Theorem overlay_rejects_inconsistent (size : Z) (n : Z) (p q : bytes) (path1 path2 : list Z)
    (pages1 pages2 : list bytes) :
  lenZ p = size -> lenZ q = size -> p <> q ->
  exists e, overlay_path_pages [n :: path1; n :: path2] [p :: pages1; q :: pages2] size = Err e.
Proof.
  intros Hp Hq Hpq.
  assert (forall m ips, (forall m', ofold (overlay_page size) m ips = Ok m' ->
    forall k x, m !! k = Some x -> m' !! k = Some x) /\ ofold (overlay_page size) m ips <> Panic /\ ofold (overlay_page size) m ips <> Diverges) as Hmono.
  { intros m ips. revert m. induction ips as [|[i x] ips IH]; intros m; cbn [ofold].
    { split; [|done]. by intros m' <-%Ok_inj. }
    unfold overlay_page at 1 3 5. cbn [fst snd]. destruct (lenZ x =? size); cbn [negb]; [|done].
    destruct (m !! i) as [e|] eqn:E.
    - destruct (decide (e = x)); [|done]. apply IH.
    - destruct (IH (<[i := x]> m)) as [IH1 IH2]. split; [|done]. intros m' Hm' k y Hk.
      eapply IH1; [done|]. rewrite lookup_insert_ne; [done|]. congruence. }
  unfold overlay_path_pages. cbn [zip zip_with ofold fst snd].
  change (lenZ [n :: path1; n :: path2] =? lenZ [p :: pages1; q :: pages2]) with true. cbn [negb].
  destruct (lenZ (n :: path1) =? lenZ (p :: pages1)); cbn [negb]; [|by eexists].
  unfold overlay_page at 1. cbn [fst snd]. rewrite Hp, Z.eqb_refl. cbn [negb].
  rewrite lookup_empty. cbn [obind].
  destruct (Hmono (<[n := p]> ∅) (zip path1 pages1)) as [Hkeep Hnp].
  destruct (ofold (overlay_page size) (<[n := p]> ∅) (zip path1 pages1)) as [m1|e| |]; cbn [obind];
    [|by eexists|by destruct Hnp..].
  destruct (lenZ (n :: path2) =? lenZ (q :: pages2)); cbn [negb]; [|by eexists].
  unfold overlay_page at 1. cbn [fst snd]. rewrite Hq, Z.eqb_refl. cbn [negb].
  rewrite (Hkeep m1 eq_refl n p) by apply lookup_insert_eq. rewrite decide_False by done. by eexists.
Qed.

Lemma overlay_rejects_inconsistent_witness :
  exists e, overlay_path_pages [[0]; [0]] [[[1]]; [[2]]] 1 = Err e.
Proof. apply (overlay_rejects_inconsistent 1 0 [1] [2] [] [] [] []); [reflexivity|reflexivity|discriminate]. Defined.
