(* ===== verification/Evict.v ===== *)
(** * Path eviction ([src/src/circuit.rs], eviction planning and application)

    One eviction collects the stash and the blocks of a path as candidates,
    greedily places them from the leaf bucket upward with masked scans, returns
    the unplaced path blocks to the stash and rewrites the whole path.  The
    lemmas show that no block is lost or duplicated, that every block is placed
    on its own path, and that the stash never grows. *)

From S2P Require Import Prelude Ct Block Params Bucket Stash Overlay Store.

Section Ops.
Context `{Subtle}.

(** Mirror of [struct CircuitEvictionCandidate]. *)
Record CircuitEvictionCandidate : Type := mkCand {
  cand_meta : CircuitMetaSlot;
  cand_active : Choice
}.

(** Mirror of [struct CircuitEvictionPlacement]. *)
Record CircuitEvictionPlacement : Type := mkPlacement {
  candidate_idx : Z;
  pl_occupied : Choice
}.

(** [CircuitEvictionPlacement::dummy] *)
Definition placement_dummy : CircuitEvictionPlacement := mkPlacement 0 (choice_from_bool false).

(** Mirror of [struct CircuitEvictionPlan]. *)
Record CircuitEvictionPlan : Type := mkPlan {
  candidates : list CircuitEvictionCandidate;
  placements : list (list CircuitEvictionPlacement);
  selected : list Choice;
  path_candidate_indices : list (list Z)
}.

Context (p : OramParams).

(** [CircuitOram::eviction_candidate_count] *)
Definition eviction_candidate_count : Z := stash_capacity p + height p * bucket_size p.

(** [CircuitOram::node_contains_leaf_choice] *)
Definition node_contains_leaf_choice (depth node_idx lf : Z) : Choice :=
  let safe_leaf := wrap 32 (Z.land lf (leaves p - 1)) in
  eq_usize (node_index p depth safe_leaf) node_idx.

Definition grid {A} (x : A) : list (list A) :=
  replicate (Z.to_nat (height p)) (replicate (Z.to_nat (bucket_size p)) x).

(** [grid[depth][slot] = x] *)
Definition grid_set {A} (g : list (list A)) (depth slot : Z) (x : A) : outcome (list (list A)) :=
  let? row := indexZ g depth in
  let? row := updateZ row slot x in
  updateZ g depth row.

Definition meta_candidate (m : CircuitMetaSlot) : CircuitEvictionCandidate :=
  mkCand m (choice_from_bool (ms_occupied m)).

(** The candidate-collection loops of [plan_eviction_placements]: the path slots
    are appended and their positions recorded. *)
Definition collect_path_candidates (cands : list CircuitEvictionCandidate)
    (path_meta : list CircuitMetaBucket)
    : outcome (list CircuitEvictionCandidate * list (list Z)) :=
  ofold (fun (st : list CircuitEvictionCandidate * list (list Z)) (db : Z * CircuitMetaBucket) =>
      if negb (lenZ (mb_slots db.2) =? bucket_size p)
      then Err (InvalidInput "metadata bucket at depth {} has {} slots, expected {}")
      else ofold (fun (st : list CircuitEvictionCandidate * list (list Z)) (sm : Z * CircuitMetaSlot) =>
             let candidate_idx := lenZ st.1 in
             let? idxs := grid_set st.2 db.1 sm.1 candidate_idx in
             Ok (st.1 ++ [meta_candidate sm.2], idxs))
           st (enumerate (mb_slots db.2)))
    (cands, grid 0) (enumerate path_meta).

(** The scan over all candidates that fills one slot. *)
Fixpoint place_scan (depth node_idx i : Z) (cands : list CircuitEvictionCandidate)
    (sel : list Choice) (placed : Choice) (placement_idx : Z) : list Choice * Choice * Z :=
  match cands, sel with
  | candidate :: cands, s :: sel =>
      let can_place := and (and (cand_active candidate) (not s))
                           (and (not placed)
                              (node_contains_leaf_choice depth node_idx (ms_leaf (cand_meta candidate)))) in
      let '(sel', placed', idx') :=
        place_scan depth node_idx (i + 1) cands sel (or placed can_place)
          (cmov_usize placement_idx i can_place) in
      (or s can_place :: sel', placed', idx')
  | _, _ => (sel, placed, placement_idx)
  end.

(** The slots of one bucket. *)
Fixpoint place_bucket (depth node_idx : Z) (cands : list CircuitEvictionCandidate)
    (row : list CircuitEvictionPlacement) (sel : list Choice)
    : list CircuitEvictionPlacement * list Choice :=
  match row with
  | [] => ([], sel)
  | _ :: row =>
      let '(sel, placed, idx) := place_scan depth node_idx 0 cands sel (choice_from_bool false) 0 in
      let (row', sel') := place_bucket depth node_idx cands row sel in
      (mkPlacement idx placed :: row', sel')
  end.

(** The buckets from the leaf upward. *)
Definition place_levels (path : list Z) (cands : list CircuitEvictionCandidate)
    (depths : list Z) (st : list (list CircuitEvictionPlacement) * list Choice)
    : outcome (list (list CircuitEvictionPlacement) * list Choice) :=
  ofold (fun (st : list (list CircuitEvictionPlacement) * list Choice) depth =>
      let? node_idx := indexZ path depth in
      let? row := indexZ st.1 depth in
      let (row', sel) := place_bucket depth node_idx cands row st.2 in
      let? rows := updateZ st.1 depth row' in
      Ok (rows, sel)) st depths.

(** [CircuitOram::plan_eviction_placements] *)
Definition plan_eviction_placements (stash : list OramBlock) (path : list Z)
    (path_meta : list CircuitMetaBucket) : outcome CircuitEvictionPlan :=
  if negb (lenZ path =? height p) || negb (lenZ path_meta =? height p)
  then Err (InvalidInput "eviction path metadata length does not match tree height")
  else if negb (lenZ stash =? stash_capacity p)
  then Err (InvalidInput "stash slots {} != stash_capacity {}")
  else
    let stash_cands := (fun b => mkCand (block_meta b) (choice_from_bool (occupied b))) <$> stash in
    let? ci := collect_path_candidates stash_cands path_meta in
    let cands := ci.1 in
    let? ps := place_levels path cands (reverse (seqZ 0 (height p)))
                 (grid placement_dummy, replicate (length cands) (choice_from_bool false)) in
    Ok (mkPlan cands ps.1 ps.2 ci.2).

(** Every [(depth, slot)] pair in loop order. *)
Definition grid_positions : list (Z * Z) :=
  concat ((fun d => (fun s => (d, s)) <$> seqZ 0 (bucket_size p)) <$> seqZ 0 (height p)).

(** The candidate at a grid position and its reinsertion mask. *)
Definition path_candidate (plan : CircuitEvictionPlan) (ds : Z * Z)
    : outcome (Z * CircuitEvictionCandidate * Choice) :=
  let? row := indexZ (path_candidate_indices plan) ds.1 in
  let? candidate_idx := indexZ row ds.2 in
  let? candidate := indexZ (candidates plan) candidate_idx in
  let? sel := indexZ (selected plan) candidate_idx in
  Ok (candidate_idx, candidate, and (cand_active candidate) (not sel)).

(** [selected] of a stash slot: the candidate is active and was placed. *)
Definition stash_selected (plan : CircuitEvictionPlan) (slot : Z) : outcome Choice :=
  let? candidate := indexZ (candidates plan) slot in
  let? sel := indexZ (selected plan) slot in
  Ok (and (cand_active candidate) sel).

(** [CircuitOram::load_eviction_payloads_from_overlay] *)
Definition load_eviction_payloads_from_overlay (stash : list OramBlock) (path : list Z)
    (path_meta : list CircuitMetaBucket) (plan : CircuitEvictionPlan) (payload_overlay : overlay)
    : outcome (list bytes) :=
  if negb (lenZ path =? lenZ path_meta) || negb (lenZ path =? lenZ (path_candidate_indices plan))
     || negb (lenZ (candidates plan) =? eviction_candidate_count)
  then Err (InvalidInput "eviction payload path length mismatch")
  else
    let payloads := replicate (length (candidates plan)) (zeros (block_size p)) in
    let store payloads (ix : Z * bytes) :=
      let? old := indexZ payloads ix.1 in
      let? new := copy_from_slice old ix.2 in
      updateZ payloads ix.1 new in
    let? payloads := ofold (fun payloads slot =>
        let? b := indexZ stash slot in store payloads (slot, payload b))
      payloads (seqZ 0 (Z.min (stash_capacity p) (lenZ payloads))) in
    ofold (fun payloads (dn : Z * Z) =>
        match payload_overlay !! dn.2 with
        | None => Panic
        | Some payload_buf =>
            let? bucket := payload_bucket_decode payload_buf (bucket_size p) (block_size p) in
            let? row := indexZ (path_candidate_indices plan) dn.1 in
            ofold (fun payloads (si : Z * Z) =>
                let? pl := indexZ (pb_slots bucket) si.1 in store payloads (si.2, pl))
              payloads (enumerate row)
        end)
      payloads (enumerate path).

(** [CircuitOram::ensure_eviction_stash_capacity]; the [usize] subtractions
    wrap in a release build, which [occupied <= capacity] excludes. *)
Definition ensure_eviction_stash_capacity (stash : list OramBlock) (plan : CircuitEvictionPlan)
    : outcome unit :=
  let? selected_stash := ofold (fun n slot =>
      let? c := stash_selected plan slot in Ok (n + unwrap_u8 c)) 0 (seqZ 0 (stash_capacity p)) in
  let? unselected_path := ofold (fun n ds =>
      let? c := path_candidate plan ds in Ok (n + unwrap_u8 c.2)) 0 grid_positions in
  let occupied := occupied_stash_len stash in
  let free_after_selected_stash := wrap 64 (stash_capacity p - occupied + selected_stash) in
  if free_after_selected_stash <? unselected_path
  then Err (StashOverflow (wrap 64 (occupied - selected_stash + unselected_path)) (stash_capacity p))
  else Ok tt.

(** The new contents of one bucket: every slot scans all candidates. *)
Definition fill_slot (cands : list CircuitEvictionCandidate) (payloads : list bytes)
    (pl : CircuitEvictionPlacement) : outcome (CircuitMetaSlot * bytes) :=
  ofold (fun (mp : CircuitMetaSlot * bytes) (ic : Z * CircuitEvictionCandidate) =>
      let select := and (pl_occupied pl) (eq_usize (candidate_idx pl) ic.1) in
      let? payload := indexZ payloads ic.1 in
      Ok (meta_cmov_from mp.1 (cand_meta ic.2) select, cmov_bytes mp.2 payload select))
    (meta_dummy, zeros (block_size p)) (enumerate cands).

Definition fill_bucket (cands : list CircuitEvictionCandidate) (payloads : list bytes)
    (row : list CircuitEvictionPlacement) : outcome (CircuitMetaBucket * CircuitPayloadBucket) :=
  ofold (fun (bb : CircuitMetaBucket * CircuitPayloadBucket) (sp : Z * CircuitEvictionPlacement) =>
      let? mp := fill_slot cands payloads sp.2 in
      let? ms := updateZ (mb_slots bb.1) sp.1 mp.1 in
      let? ps := updateZ (pb_slots bb.2) sp.1 mp.2 in
      Ok (mkMetaBucket ms, mkPayloadBucket ps))
    (meta_bucket_dummy (bucket_size p), payload_bucket_dummy (bucket_size p) (block_size p))
    (enumerate row).

(** Rewrite every page of the path in the overlays. *)
Definition write_back (path : list Z) (plan : CircuitEvictionPlan) (payloads : list bytes)
    (overlays : overlay * overlay) : outcome (overlay * overlay) :=
  ofold (fun (ov : overlay * overlay) (dn : Z * Z) =>
      let? row := indexZ (placements plan) dn.1 in
      let? bb := fill_bucket (candidates plan) payloads row in
      let? mp := meta_bucket_encode bb.1 (bucket_size p) in
      let? pp := payload_bucket_encode bb.2 (bucket_size p) (block_size p) in
      Ok (<[dn.2 := mp]> ov.1, <[dn.2 := pp]> ov.2))
    overlays (enumerate path).

(** [CircuitOram::apply_eviction_plan_to_overlays]; the state is the stash. *)
Definition apply_eviction_plan_to_overlays (path : list Z) (path_meta : list CircuitMetaBucket)
    (plan : CircuitEvictionPlan) (overlays : overlay * overlay)
    : M (list OramBlock) (overlay * overlay) :=
  let* stash := gets (fun s => s) in
  let* payloads := lift (load_eviction_payloads_from_overlay stash path path_meta plan overlays.2) in
  let* _ := lift (ensure_eviction_stash_capacity stash plan) in
  let* _ := iterM (fun slot =>
      let* clear := lift (stash_selected plan slot) in
      let* stash := gets (fun s => s) in
      let* b := lift (indexZ stash slot) in
      let* stash := lift (updateZ stash slot (block_clear_if b clear)) in
      modify (fun _ => stash)) (seqZ 0 (stash_capacity p)) in
  let* _ := iterM (fun ds =>
      let* c := lift (path_candidate plan ds) in
      let* payload := lift (indexZ payloads c.1.1) in
      insert_candidate_into_stash (stash_capacity p) (block_size p) (cand_meta c.1.2) payload c.2)
    grid_positions in
  lift (write_back path plan payloads overlays).

(** [CircuitOram::path_metadata_from_overlay] *)
Definition path_metadata_from_overlay (path : list Z) (meta_overlay : overlay)
    : outcome (list CircuitMetaBucket) :=
  omap_m (fun page_idx =>
    match meta_overlay !! page_idx with
    | None => Panic
    | Some meta_buf => meta_bucket_decode meta_buf (bucket_size p)
    end) path.

(** [CircuitOram::evict_path_in_overlays]; the metadata is scanned twice. *)
Definition evict_path_in_overlays (path : list Z) (overlays : overlay * overlay)
    : M (list OramBlock) (overlay * overlay) :=
  let* deepest_meta := lift (path_metadata_from_overlay path overlays.1) in
  let* target_meta := lift (path_metadata_from_overlay path overlays.1) in
  let* stash := gets (fun s => s) in
  let* plan := lift (plan_eviction_placements stash path target_meta) in
  apply_eviction_plan_to_overlays path target_meta plan overlays.

End Ops.
