(* ===== verification/EvictPlan.v ===== *)
(** * Correctness of eviction planning

    The plan computed by [plan_eviction_placements] is a greedy assignment of
    candidates to path slots: every placed candidate is occupied and belongs to
    the bucket's subtree, the placed blocks are exactly the selected candidates,
    and at least as many blocks are placed as the path held. *)

From S2P Require Import Prelude Ct Block Params Bucket Stash Overlay Store Evict.

(** The candidates whose flag is set, and the others. *)
Fixpoint picked (s : list bool) (c : list OramBlock) : list OramBlock :=
  match s, c with
  | f :: s, b :: c => if f then b :: picked s c else picked s c
  | _, _ => []
  end.
Definition left_out (s : list bool) (c : list OramBlock) : list OramBlock := picked (negb <$> s) c.

Section Picked.

Lemma picked_app s1 s2 c1 c2 :
  length s1 = length c1 -> picked (s1 ++ s2) (c1 ++ c2) = picked s1 c1 ++ picked s2 c2.
Proof.
  revert c1. induction s1 as [|[] s1 IH]; intros [|b c1] ?; simplify_eq/=; [done| |]; rewrite IH by done; done.
Qed.

Lemma left_out_app s1 s2 c1 c2 :
  length s1 = length c1 -> left_out (s1 ++ s2) (c1 ++ c2) = left_out s1 c1 ++ left_out s2 c2.
Proof. intros. unfold left_out. rewrite fmap_app. apply picked_app. by rewrite length_fmap. Qed.

Lemma picked_insert s c j b :
  s !! j = Some false -> c !! j = Some b -> picked (<[j := true]> s) c ≡ₚ b :: picked s c.
Proof.
  revert c j. induction s as [|f s IH]; intros [|b' c] [|j] Hs Hc; simplify_eq/=; [done|].
  destruct f; [|by apply IH]. rewrite IH by done. apply Permutation_swap.
Qed.

Lemma left_out_insert s c j b :
  s !! j = Some false -> c !! j = Some b -> left_out s c ≡ₚ b :: left_out (<[j := true]> s) c.
Proof.
  unfold left_out. revert c j.
  induction s as [|f s IH]; intros [|b' c] [|j] Hs Hc; simplify_eq/=; [done|].
  destruct f; simpl; [by apply IH|]. rewrite IH by done. apply Permutation_swap.
Qed.

Lemma picked_none n c : picked (replicate n false) c = [].
Proof. revert c. induction n; intros [|]; simpl; auto. Qed.

Lemma picked_split s c : length s = length c -> c ≡ₚ picked s c ++ left_out s c.
Proof.
  unfold left_out. revert c. induction s as [|[] s IH]; intros [|b c] Hl; simplify_eq/=; [done| |].
  - by rewrite <-IH.
  - rewrite <-Permutation_middle. by rewrite <-IH.
Qed.

(** If every occupied candidate is picked, at least that many are. *)
Lemma picked_covers s c :
  length s = length c ->
  (forall i b, c !! i = Some b -> occupied b = true -> s !! i = Some true) ->
  lenZ (occ c) <= lenZ (picked s c).
Proof.
  revert c. induction s as [|f s IH]; intros [|b c] Hl Hall; simplify_eq/=; [done|].
  specialize (IH c ltac:(lia) (fun i b' => Hall (S i) b')).
  specialize (Hall 0%nat b eq_refl). simpl in Hall. destruct (occupied b) eqn:E.
  - rewrite occ_cons_true, lenZ_cons by done. specialize (Hall eq_refl). simplify_eq. rewrite lenZ_cons. lia.
  - rewrite occ_cons_false by done. destruct f; rewrite ?lenZ_cons; lia.
Qed.

Lemma picked_Forall (P : OramBlock -> Prop) s c :
  (forall i b, c !! i = Some b -> s !! i = Some true -> P b) -> Forall P (picked s c).
Proof.
  revert c. induction s as [|[] s IH]; intros [|b c] Hall; simpl; try constructor.
  - by apply (Hall 0%nat).
  - apply IH. intros i b'. apply (Hall (S i)).
  - apply IH. intros i b'. apply (Hall (S i)).
Qed.

Lemma elem_of_left_out b s c : b ∈ left_out s c -> exists j, c !! j = Some b /\ s !! j = Some false.
Proof.
  unfold left_out. revert c. induction s as [|f s IH]; intros [|b' c]; cbn; try by intros ?%not_elem_of_nil.
  intros Hb. assert ((f = false /\ b = b') \/ b ∈ picked (negb <$> s) c) as [[-> ->]|Hb'].
  { destruct f; cbn in Hb; [by right|]. apply elem_of_cons in Hb as [->|?]; [by left|by right]. }
  - by exists 0%nat.
  - destruct (IH c Hb') as (j & ? & ?). by exists (S j).
Qed.

Lemma occ_all l : Forall (fun b => occupied b = true) l -> occ l = l.
Proof. induction 1 as [|b l Hb _ IH]; [done|]. by rewrite occ_cons_true, IH. Qed.

End Picked.

Section Plan.
Context `{SubtleLaws} (p : OramParams) (Hp : params_ok p).
Context (C : list OramBlock) (Hfit : lenZ C <= u64_max).
Context (Hleaf : Forall (fun b => occupied b = true -> leaf_ok p (leaf b)) C).

Definition cand_of (b : OramBlock) : CircuitEvictionCandidate := meta_candidate (block_meta b).

(** Candidate [j] may be placed in the bucket [node] at [depth]. *)
Definition eligible (depth node : Z) (b : OramBlock) : Prop :=
  occupied b = true /\ node_index p depth (leaf b) = node.

Lemma node_contains_leaf_truth depth node lf :
  leaf_ok p lf -> truth (node_contains_leaf_choice p depth node lf) = (node_index p depth lf =? node).
Proof.
  intros Hlf. unfold node_contains_leaf_choice. rewrite truth_eq_usize. f_equal. f_equal.
  pose proof (leaves_pos p Hp) as Hl. pose proof (ok_leaves p Hp) as Hlv. destruct (ok_bits p Hp).
  replace (leaves p - 1) with (Z.ones (leaf_bits p)) by (rewrite Z.ones_equiv; lia).
  rewrite Z.land_ones by lia. rewrite <-Hlv. unfold leaf_ok in Hlf.
  rewrite (Z.mod_small lf) by done. apply wrap_small. lia.
Qed.

Lemma place_scan_placed depth node i cands sel placed idx :
  truth placed = true -> is_u64 idx -> 0 <= i -> i + lenZ cands <= u64_max ->
  let '(sel', placed', idx') := place_scan p depth node i cands sel placed idx in
  truth <$> sel' = truth <$> sel /\ truth placed' = true /\ idx' = idx.
Proof.
  revert i sel placed. induction cands as [|c cands IH]; intros i sel placed Hpl Hidx Hi Hfin; [done|].
  destruct sel as [|s sel]; [done|]. cbn [place_scan]. rewrite lenZ_cons in Hfin.
  pose proof (lenZ_nonneg cands).
  set (can := and _ _).
  assert (truth can = false) as Hcan.
  { unfold can. ct_simpl. rewrite Hpl. cbn [negb andb]. apply andb_false_r. }
  rewrite cmov_usize_truth by (done || words). rewrite Hcan.
  specialize (IH (i + 1) sel (or placed can)).
  destruct (place_scan p depth node (i + 1) cands sel (or placed can) idx) as [[sel' placed'] idx'].
  destruct IH as (E1 & E2 & E3); [ct_simpl; by rewrite Hpl|done|lia|lia|].
  cbn [fmap list_fmap]. ct_simpl. rewrite Hcan, orb_false_r, E1. done.
Qed.

(** One scan: it places the first eligible unselected candidate, if any. *)
Lemma place_scan_spec depth node i L sel placed idx :
  Forall (fun b => occupied b = true -> leaf_ok p (leaf b)) L ->
  truth placed = false -> is_u64 idx -> 0 <= i -> i + lenZ L <= u64_max -> length sel = length L ->
  let '(sel', placed', idx') := place_scan p depth node i (cand_of <$> L) sel placed idx in
  if truth placed' then
    exists j b, L !! j = Some b /\ eligible depth node b /\ (truth <$> sel) !! j = Some false /\
      truth <$> sel' = <[j := true]> (truth <$> sel) /\ idx' = i + Z.of_nat j
  else truth <$> sel' = truth <$> sel /\
    forall j b, L !! j = Some b -> eligible depth node b -> (truth <$> sel) !! j = Some true.
Proof.
  intros HL. revert i sel placed. induction HL as [|b L Hb _ IH]; intros i sel placed Hpl Hidx Hi Hfin Hlen.
  { destruct sel; [|done]. simpl. rewrite Hpl. split; [done|]. intros j b Hj. by rewrite lookup_nil in Hj. }
  destruct sel as [|s sel]; [done|]. cbn [fmap list_fmap place_scan]. rewrite lenZ_cons in Hfin.
  set (can := and _ _). pose proof (lenZ_nonneg L).
  assert (truth can = bool_decide (eligible depth node b) && negb (truth s)) as Hcan.
  { unfold can. ct_simpl. rewrite Hpl. unfold cand_of, meta_candidate, eligible. cbn [cand_active cand_meta ms_occupied block_meta ms_leaf].
    ct_simpl. destruct (occupied b) eqn:Eo; cbn [andb].
    - rewrite node_contains_leaf_truth by auto. cbn [negb andb]. rewrite andb_comm. f_equal.
      apply eq_bool_prop_intro. rewrite bool_decide_spec. rewrite Is_true_true, Z.eqb_eq. naive_solver.
    - rewrite bool_decide_false; [done|]. naive_solver. }
  rewrite cmov_usize_truth by (done || words).
  destruct (truth can) eqn:Ecan.
  - symmetry in Hcan. apply andb_true_iff in Hcan as [Hel Hs]. apply bool_decide_eq_true in Hel.
    apply negb_true_iff in Hs.
    pose proof (place_scan_placed depth node (i + 1) (cand_of <$> L) sel (or placed can) i) as Hpp.
    destruct (place_scan p depth node (i + 1) (cand_of <$> L) sel (or placed can) i) as [[sel' placed'] idx'].
    destruct Hpp as (E1 & E2 & E3); [ct_simpl; by rewrite Ecan, orb_true_r|words|lia|rewrite lenZ_fmap; lia|].
    rewrite E2. exists 0%nat, b. cbn [fmap list_fmap]. ct_simpl. rewrite Ecan, orb_true_r, E1, Hs.
    split_and!; [done..|lia].
  - specialize (IH (i + 1) sel (or placed can)).
    destruct (place_scan p depth node (i + 1) (cand_of <$> L) sel (or placed can) idx) as [[sel' placed'] idx'].
    cbn [fmap list_fmap]. ct_simpl. rewrite Ecan, orb_false_r.
    specialize (IH ltac:(ct_simpl; by rewrite Hpl, Ecan) Hidx ltac:(lia) ltac:(lia) ltac:(by simplify_eq/=)).
    destruct (truth placed').
    + destruct IH as (j & b' & J1 & J2 & J3 & J4 & J5). exists (S j), b'. simpl.
      split_and!; [done..|by rewrite J4|lia].
    + destruct IH as [-> IH]. split; [done|]. intros [|j] b' Hj He; simplify_eq/=; [|by apply (IH j b')].
      rewrite (bool_decide_true (eligible depth node b')) in Hcan by done.
      cbn [andb] in Hcan. by destruct (truth s).
Qed.

(** The block a placement stands for. *)
Definition slot_block (pl : CircuitEvictionPlacement) : OramBlock :=
  if truth (pl_occupied pl)
  then default (block_dummy (block_size p)) (C !! Z.to_nat (candidate_idx pl))
  else block_dummy (block_size p).

Definition placement_ok (depth node : Z) (pl : CircuitEvictionPlacement) : Prop :=
  truth (pl_occupied pl) = true ->
  exists b, indexZ C (candidate_idx pl) = Ok b /\ eligible depth node b.

Lemma occ_slot_none pl : truth (pl_occupied pl) = false -> occ [slot_block pl] = [].
Proof. intros Hf. unfold slot_block. by rewrite Hf. Qed.

Lemma place_bucket_spec depth node row sel :
  length sel = length C ->
  let '(row', sel') := place_bucket p depth node (cand_of <$> C) row sel in
  length row' = length row /\ length sel' = length C /\
  Forall (placement_ok depth node) row' /\
  picked (truth <$> sel') C ≡ₚ occ (slot_block <$> row') ++ picked (truth <$> sel) C /\
  (forall j, (truth <$> sel) !! j = Some true -> (truth <$> sel') !! j = Some true) /\
  (lenZ (occ (slot_block <$> row')) = lenZ row \/
   forall j b, C !! j = Some b -> eligible depth node b -> (truth <$> sel') !! j = Some true).
Proof.
  revert sel. induction row as [|pl row IH]; intros sel Hlen; cbn [place_bucket].
  { split_and!; [done..|by left]. }
  pose proof (place_scan_spec depth node 0 C sel (choice_from_bool false) 0 Hleaf
    ltac:(by ct_simpl) ltac:(words) ltac:(lia) ltac:(lia) Hlen) as Hscan.
  destruct (place_scan p depth node 0 (cand_of <$> C) sel (choice_from_bool false) 0)
    as [[sel1 placed] idx].
  assert (length sel1 = length C) as Hlen1.
  { rewrite <-(length_fmap truth). destruct (truth placed); [destruct Hscan as (j & b & _ & _ & _ & -> & _)|destruct Hscan as [-> _]];
      by rewrite ?length_insert, length_fmap. }
  specialize (IH sel1 Hlen1).
  destruct (place_bucket p depth node (cand_of <$> C) row sel1) as [row' sel'].
  destruct IH as (IHl & IHs & IHok & IHp & IHm & IHd). cbn [length fmap list_fmap].
  destruct (truth placed) eqn:Epl.
  - destruct Hscan as (j & b & Hj & Hel & Hsj & Hsel & ->). rewrite Z.add_0_l in *.
    assert (slot_block (mkPlacement (Z.of_nat j) placed) = b) as Hsb.
    { unfold slot_block. cbn [pl_occupied candidate_idx]. by rewrite Epl, Nat2Z.id, Hj. }
    destruct Hel as [Hob Hnb].
    split_and!; [lia|done| | | |].
    + constructor; [|done]. intros _. exists b. by split; [apply indexZ_nat|split].
    + rewrite Hsb, occ_cons_true, IHp, Hsel by done. rewrite (picked_insert _ _ _ b) by done.
      by rewrite <-Permutation_middle.
    + intros k Hk. apply IHm. rewrite Hsel. destruct (decide (j = k)) as [<-|]; [congruence|].
      by rewrite list_lookup_insert_ne.
    + rewrite Hsb, occ_cons_true, !lenZ_cons by done. destruct IHd; [left; lia|by right].
  - destruct Hscan as [Hsel Hall].
    assert (occ (slot_block (mkPlacement idx placed) :: (slot_block <$> row')) = occ (slot_block <$> row')) as Ho.
    { rewrite occ_cons_false; [done|]. unfold slot_block. cbn [pl_occupied]. by rewrite Epl. }
    split_and!; [lia|done| | | |].
    + constructor; [|done]. intros Hc. cbn [pl_occupied] in Hc. congruence.
    + by rewrite Ho, IHp, Hsel.
    + intros k Hk. apply IHm. by rewrite Hsel.
    + right. intros k b Hk Hel. apply IHm. rewrite Hsel. by eapply Hall.
Qed.

(** *** The levels of the path, from the leaf upward *)

Context (lf : Z) (Hlf : leaf_ok p lf) (stash : list OramBlock) (B : list (list OramBlock)).
Context (HC : C = stash ++ concat B) (HB : lenZ B = height p).
Context (HBsz : Forall (fun bk => lenZ bk = bucket_size p) B).
Context (Hplace : forall (e : nat) bk b, B !! e = Some bk -> b ∈ bk -> occupied b = true ->
  node_index p (Z.of_nat e) (leaf b) = node_index p (Z.of_nat e) lf).

Definition levels_inv (n : nat) (st : list (list CircuitEvictionPlacement) * list Choice) : Prop :=
  lenZ st.1 = height p /\ length st.2 = length C /\
  Forall (fun row => lenZ row = bucket_size p) st.1 /\
  (forall (d : nat) row, (n <= d)%nat -> st.1 !! d = Some row ->
     Forall (placement_ok (Z.of_nat d) (node_index p (Z.of_nat d) lf)) row) /\
  picked (truth <$> st.2) C ≡ₚ concat ((fun row => occ (slot_block <$> row)) <$> drop n st.1) /\
  lenZ (occ (concat (drop n B))) <= lenZ (picked (truth <$> st.2) C) /\
  (forall (d : nat) row, (n <= d)%nat -> st.1 !! d = Some row ->
     lenZ (occ (slot_block <$> row)) = bucket_size p \/
     forall j b, C !! j = Some b -> eligible (Z.of_nat d) (node_index p (Z.of_nat d) lf) b ->
       (truth <$> st.2) !! j = Some true).

(** Every occupied block below level [n] may go to the bucket at level [n]. *)
Lemma below_eligible (n e : nat) bk b :
  (n <= e)%nat -> B !! e = Some bk -> b ∈ bk -> occupied b = true ->
  eligible (Z.of_nat n) (node_index p (Z.of_nat n) lf) b.
Proof.
  intros Hne He Hb Ho. split; [done|].
  assert (b ∈ C) as HbC.
  { rewrite HC, elem_of_app. right. apply elem_of_concat. exists bk.
    split; [by eapply list_elem_of_lookup_2|done]. }
  rewrite Forall_forall in Hleaf. specialize (Hleaf b HbC Ho).
  pose proof (lookup_lt_Some _ _ _ He). unfold lenZ in HB.
  apply (node_index_ancestor p Hp (Z.of_nat n) (Z.of_nat e)); [done|done|lia|lia|].
  by apply (Hplace e bk).
Qed.

Lemma covered_level (n : nat) (s : list bool) :
  length s = length C ->
  (forall j b, C !! j = Some b -> eligible (Z.of_nat n) (node_index p (Z.of_nat n) lf) b -> s !! j = Some true) ->
  lenZ (occ (concat (drop n B))) <= lenZ (picked s C).
Proof.
  intros Hs Hall. set (A := stash ++ concat (take n B)).
  assert (C = A ++ concat (drop n B)) as HA.
  { unfold A. by rewrite HC, <-app_assoc, <-concat_app, take_drop. }
  pose proof Hs as Hs'. rewrite HA in Hs' |- *. rewrite <-(take_drop (length A) s).
  rewrite length_app in Hs'.
  rewrite picked_app by (rewrite length_take; lia). rewrite lenZ_app.
  pose proof (lenZ_nonneg (picked (take (length A) s) A)).
  enough (lenZ (occ (concat (drop n B))) <= lenZ (picked (drop (length A) s) (concat (drop n B)))) by lia.
  apply picked_covers; [rewrite length_drop; lia|].
  intros i b Hi Ho. rewrite lookup_drop. apply (Hall _ b); [by rewrite HA, lookup_app_r, Nat.add_comm, Nat.add_sub by lia|].
  pose proof (list_elem_of_lookup_2 _ _ _ Hi) as Hin.
  apply elem_of_concat in Hin as (bk & Hbk & Hin).
  apply list_elem_of_lookup in Hbk as [e He]. rewrite lookup_drop in He.
  apply (below_eligible n (n + e) bk); [lia|done|done|done].
Qed.

Lemma level_step (n : nat) st :
  Z.of_nat n < height p -> levels_inv (S n) st ->
  exists st', place_levels p (path_nodes p lf) (cand_of <$> C) [Z.of_nat n] st = Ok st' /\ levels_inv n st'.
Proof.
  intros Hn (Hrows & Hsel & Hsz & Hok & Hpick & Hcount & Hmax). unfold place_levels. cbn [ofold].
  assert (indexZ (path_nodes p lf) (Z.of_nat n) = Ok (node_index p (Z.of_nat n) lf)) as ->.
  { apply indexZ_nat. by apply path_nodes_lookup. }
  destruct st as [rows sel]. cbn [fst snd obind] in *.
  destruct (rows !! n) as [row|] eqn:Erow; [|apply lookup_ge_None in Erow; unfold lenZ in *; lia].
  rewrite (indexZ_nat _ _ _ Erow). cbn [obind].
  pose proof (place_bucket_spec (Z.of_nat n) (node_index p (Z.of_nat n) lf) row sel Hsel) as Hb.
  destruct (place_bucket p _ _ _ row sel) as [row' sel'].
  destruct Hb as (Hl & Hs & Hpo & Hpk & Hmono & Hfull).
  assert (n < length rows)%nat as Hlt by by eapply lookup_lt_Some.
  unfold updateZ. case_match eqn:E; [|unfold lenZ in *; lia]. cbn [obind]. clear E. rewrite Nat2Z.id.
  eexists. split; [done|].
  assert (lenZ row = bucket_size p) as Hrow by by eapply Forall_lookup_1 in Hsz.
  assert (drop n (<[n:=row']> rows) = row' :: drop (S n) rows) as Hdrop.
  { rewrite (drop_S (<[n:=row']> rows) row') by by apply list_lookup_insert_eq.
    by rewrite drop_insert_lt by lia. }
  split_and!; cbn [fst snd].
  - unfold lenZ in *. by rewrite length_insert.
  - done.
  - apply Forall_insert; [done|]. unfold lenZ in *. by rewrite Hl.
  - intros d row0 Hd. destruct (decide (n = d)) as [<-|Hne].
    + rewrite list_lookup_insert_eq by done. by intros [= <-].
    + rewrite list_lookup_insert_ne by done. apply Hok. lia.
  - by rewrite Hdrop, Hpk, Hpick.
  - clear Hmax. destruct Hfull as [Hfull|Hfull].
    + rewrite Hpk. rewrite lenZ_app, Hfull.
      destruct (B !! n) as [bk|] eqn:EB; [|apply lookup_ge_None in EB; unfold lenZ in *; lia].
      rewrite (drop_S _ _ _ EB). cbn [concat]. rewrite occ_app, lenZ_app.
      pose proof (length_occ bk). eapply Forall_lookup_1 in HBsz; [|done]. lia.
    + apply covered_level; [by rewrite length_fmap|done].
  - intros d row0 Hd. destruct (decide (n = d)) as [<-|Hne].
    + rewrite list_lookup_insert_eq by done. intros [= <-]. by rewrite <-Hrow.
    + rewrite list_lookup_insert_ne by done. intros Hr. destruct (Hmax d row0) as [?|Hall]; [lia|done|by left|].
      right. intros j b Hj He. apply Hmono. by apply (Hall j b).
Qed.

Lemma place_levels_inv (n : nat) st :
  Z.of_nat n <= height p -> levels_inv n st ->
  exists st', place_levels p (path_nodes p lf) (cand_of <$> C) (reverse (seqZ 0 (Z.of_nat n))) st = Ok st' /\
    levels_inv 0 st'.
Proof.
  revert st. induction n as [|n IH]; intros st Hn Hst; [by exists st|].
  replace (Z.of_nat (S n)) with (Z.of_nat n + 1) by lia.
  rewrite seqZ_app, reverse_app by lia. rewrite Z.add_0_l.
  change (reverse (seqZ (Z.of_nat n) 1)) with [Z.of_nat n].
  destruct (level_step n st) as (st1 & E1 & Hst1); [lia|done|].
  destruct (IH st1) as (st2 & E2 & Hst2); [lia|done|]. exists st2. split; [|done].
  unfold place_levels in *. rewrite ofold_app, E1. exact E2.
Qed.

(** *** Collecting the candidates *)

(** The candidate positions of [k] path buckets, starting at [n]. *)
Fixpoint idx_rows (n : Z) (k : nat) : list (list Z) :=
  match k with
  | O => []
  | S k => seqZ n (bucket_size p) :: idx_rows (n + bucket_size p) k
  end.

Lemma length_idx_rows n k : length (idx_rows n k) = k.
Proof. revert n. induction k; intros; simpl; auto. Qed.

Lemma grid_set_row {A} (g1 g2 : list (list A)) (r1 r2 : list A) d s x y :
  d = lenZ g1 -> s = lenZ r1 ->
  grid_set (g1 ++ (r1 ++ x :: r2) :: g2) d s y = Ok (g1 ++ (r1 ++ y :: r2) :: g2).
Proof.
  intros Hd Hs. unfold grid_set. rewrite indexZ_app by done. cbn [obind].
  rewrite updateZ_app by done. cbn [obind]. by apply updateZ_app.
Qed.

Lemma collect_row slots cands g1 g2 r1 :
  ofold (fun (st : list CircuitEvictionCandidate * list (list Z)) (sm : Z * CircuitMetaSlot) =>
           let? idxs := grid_set st.2 (lenZ g1) sm.1 (lenZ st.1) in
           Ok (st.1 ++ [meta_candidate sm.2], idxs))
    (cands, g1 ++ (r1 ++ replicate (length slots) 0) :: g2) (enumerate_from (lenZ r1) slots) =
  Ok (cands ++ (meta_candidate <$> slots), g1 ++ (r1 ++ seqZ (lenZ cands) (lenZ slots)) :: g2).
Proof.
  revert cands r1. induction slots as [|m slots IH]; intros cands r1.
  { simpl. by rewrite !app_nil_r. }
  cbn [length replicate enumerate_from ofold fst snd].
  rewrite (grid_set_row g1 g2 r1) by done. cbn [obind].
  rewrite (cons_middle _ r1), app_assoc.
  specialize (IH (cands ++ [meta_candidate m]) (r1 ++ [lenZ cands])).
  rewrite !lenZ_app in IH. change (lenZ [lenZ cands]) with 1 in IH.
  change (lenZ [meta_candidate m]) with 1 in IH. rewrite IH.
  rewrite lenZ_cons, (seqZ_cons (lenZ cands)) by (pose proof (lenZ_nonneg slots); lia).
  rewrite <-!app_assoc. cbn [app fmap list_fmap].
  by replace (Z.pred (1 + lenZ slots)) with (lenZ slots) by lia.
Qed.

Lemma collect_rows Bs cands g1 :
  Forall (fun bk => lenZ bk = bucket_size p) Bs ->
  ofold (fun (st : list CircuitEvictionCandidate * list (list Z)) (db : Z * CircuitMetaBucket) =>
      if negb (lenZ (mb_slots db.2) =? bucket_size p)
      then Err (InvalidInput "metadata bucket at depth {} has {} slots, expected {}")
      else ofold (fun (st : list CircuitEvictionCandidate * list (list Z)) (sm : Z * CircuitMetaSlot) =>
             let? idxs := grid_set st.2 db.1 sm.1 (lenZ st.1) in
             Ok (st.1 ++ [meta_candidate sm.2], idxs))
           st (enumerate (mb_slots db.2)))
    (cands, g1 ++ replicate (length Bs) (replicate (Z.to_nat (bucket_size p)) 0))
    (enumerate_from (lenZ g1) ((fun bk => mkMetaBucket (block_meta <$> bk)) <$> Bs)) =
  Ok (cands ++ (cand_of <$> concat Bs), g1 ++ idx_rows (lenZ cands) (length Bs)).
Proof.
  intros HBs. revert cands g1. induction HBs as [|bk Bs Hbk _ IH]; intros cands g1.
  { simpl. by rewrite !app_nil_r. }
  cbn [length replicate fmap list_fmap enumerate_from ofold fst snd mb_slots concat idx_rows].
  rewrite lenZ_fmap, Hbk, Z.eqb_refl. cbn [negb].
  pose proof (collect_row (block_meta <$> bk) cands g1
    (replicate (length Bs) (replicate (Z.to_nat (bucket_size p)) 0)) []) as Hrow.
  rewrite length_fmap, lenZ_fmap, Hbk in Hrow. change (lenZ []) with 0 in Hrow. cbn [app] in Hrow.
  replace (length bk) with (Z.to_nat (bucket_size p)) in Hrow by (unfold lenZ in Hbk; lia).
  unfold enumerate. rewrite Hrow. cbn [obind].
  specialize (IH (cands ++ (meta_candidate <$> (block_meta <$> bk))) (g1 ++ [seqZ (lenZ cands) (bucket_size p)])).
  rewrite !lenZ_app, !lenZ_fmap, Hbk in IH. change (lenZ [_]) with 1 in IH.
  rewrite <-!app_assoc in IH. cbn [app] in IH. unfold enumerate in IH. rewrite IH.
  by rewrite fmap_app, <-list_fmap_compose.
Qed.

Lemma plan_spec :
  lenZ stash = stash_capacity p ->
  exists plan,
    plan_eviction_placements p stash (path_nodes p lf)
      ((fun bk => mkMetaBucket (block_meta <$> bk)) <$> B) = Ok plan /\
    candidates plan = cand_of <$> C /\
    path_candidate_indices plan = idx_rows (lenZ stash) (length B) /\
    levels_inv 0 (placements plan, selected plan).
Proof.
  intros Hst. unfold plan_eviction_placements.
  rewrite (path_nodes_length p Hp), lenZ_fmap, HB, Hst, !Z.eqb_refl. cbn [negb orb].
  unfold collect_path_candidates.
  pose proof (collect_rows B (cand_of <$> stash) [] HBsz) as Hc. cbn [app] in Hc.
  change (lenZ []) with 0 in Hc. unfold enumerate, grid in *. cbv zeta.
  assert (length B = Z.to_nat (height p)) as HlB by (unfold lenZ in HB; lia).
  rewrite HlB in Hc |- *.
  change ((fun b => mkCand (block_meta b) (choice_from_bool (occupied b))) <$> stash) with (cand_of <$> stash).
  rewrite Hc. cbn [obind fst snd]. rewrite <-fmap_app, <-HC.
  assert (Hb : 0 < bucket_size p) by apply Hp.
  assert (Hh := height_pos p Hp).
  destruct (place_levels_inv (Z.to_nat (height p))
    (grid p placement_dummy, replicate (length (cand_of <$> C)) (choice_from_bool false))) as (st & Est & Hinv).
  - lia.
  - unfold levels_inv, grid. cbn [fst snd]. split_and!.
    + unfold lenZ. rewrite length_replicate. lia.
    + by rewrite length_replicate, length_fmap.
    + apply Forall_replicate. unfold lenZ. rewrite length_replicate. lia.
    + intros d row Hd Hrow. apply lookup_lt_Some in Hrow. rewrite length_replicate in Hrow.
      lia.
    + rewrite drop_ge by (rewrite length_replicate; lia).
      rewrite fmap_replicate. ct_simpl. by rewrite picked_none.
    + rewrite drop_ge by lia. apply lenZ_nonneg.
    + intros d row Hd Hrow. apply lookup_lt_Some in Hrow. rewrite length_replicate in Hrow. lia.
  - rewrite Z2Nat.id in Est by lia. unfold grid in Est. rewrite Est. cbn [obind]. eexists. split; [done|]. cbn [candidates path_candidate_indices placements selected].
    rewrite lenZ_fmap. split_and!; [done|by rewrite Hst|]. by destruct st.
Qed.

End Plan.
