(* ===== verification/EvictApply.v ===== *)
(** * Correctness of eviction application

    Applying a plan clears the placed stash slots, returns the unplaced path
    blocks to the stash (there is always room) and rewrites the path pages. *)

From S2P Require Import Prelude Ct Block Params Bucket Stash Overlay Store Evict EvictPlan.

Section Apply.
Context `{SL : SubtleLaws} (p : OramParams) (Hp : params_ok p).
Context (stash : list OramBlock) (B : list (list OramBlock)) (plan : CircuitEvictionPlan).

Local Abbreviation bs := (block_size p).
Local Abbreviation bsz := (bucket_size p).
Local Abbreviation C := (stash ++ concat B).

Context (Hst : lenZ stash = stash_capacity p) (HB : lenZ B = height p).
Context (HBok : Forall (bucket_ok bsz bs) B) (Hstok : Forall (block_ok bs) stash).
Context (Hcand : candidates plan = cand_of <$> C).
Context (Hidx : path_candidate_indices plan = idx_rows p (lenZ stash) (length B)).
Context (Hsel : length (selected plan) = length C).

Definition flags : list bool := truth <$> selected plan.
Definition stash_flags : list bool := take (length stash) flags.
Definition path_flags : list bool := drop (length stash) flags.

Lemma flags_split :
  flags = stash_flags ++ path_flags /\ length stash_flags = length stash /\
  length path_flags = length (concat B).
Proof.
  unfold stash_flags, path_flags. rewrite take_drop, length_take, length_drop.
  assert (length flags = length stash + length (concat B))%nat as ->.
  { unfold flags. by rewrite length_fmap, Hsel, length_app. }
  split; [done|]. lia.
Qed.

Lemma bs_pos : 0 < bs /\ 0 < bsz.
Proof. split; apply Hp. Qed.

Lemma B_ok : Forall (block_ok bs) (concat B).
Proof. apply Forall_concat. eapply Forall_impl; [exact HBok|]. by intros ? []. Qed.

Lemma C_ok : Forall (block_ok bs) C.
Proof. apply Forall_app. split; [done|apply B_ok]. Qed.

(** *** Loading the payloads *)

Definition store_payload (payloads : list bytes) (ix : Z * bytes) : outcome (list bytes) :=
  let? old := indexZ payloads ix.1 in
  let? new := copy_from_slice old ix.2 in
  updateZ payloads ix.1 new.

Lemma store_fill xs pre post i :
  i = lenZ pre -> Forall (fun x => lenZ x = bs) xs ->
  ofold store_payload (pre ++ replicate (length xs) (zeros bs) ++ post) (enumerate_from i xs) =
  Ok (pre ++ xs ++ post).
Proof.
  intros -> Hxs. revert pre. induction Hxs as [|x xs Hx _ IH]; intros pre; [done|].
  cbn [length replicate enumerate_from ofold app]. unfold store_payload at 1. cbn [fst snd].
  rewrite indexZ_app by done. cbn [obind]. unfold copy_from_slice.
  destruct bs_pos. rewrite lenZ_zeros, Hx, Z.eqb_refl by lia. cbn [obind].
  rewrite updateZ_app by done. cbn [obind]. rewrite cons_middle, app_assoc.
  specialize (IH (pre ++ [x])). rewrite lenZ_app in IH. change (lenZ [x]) with 1 in IH.
  rewrite IH. by rewrite <-!app_assoc.
Qed.

Lemma payloads_length l : Forall (block_ok bs) l -> Forall (fun x => lenZ x = bs) (payload <$> l).
Proof. intros Hl. apply Forall_fmap. eapply Forall_impl; [exact Hl|]. by intros ? (_ & _ & ? & _). Qed.

Lemma zip_seqZ {A} i (l : list A) : zip (seqZ i (lenZ l)) l = enumerate_from i l.
Proof.
  revert i. induction l as [|x l IH]; intros i; [done|].
  pose proof (lenZ_nonneg l). rewrite lenZ_cons, seqZ_cons by lia. cbn [zip zip_with enumerate_from].
  f_equal. replace (Z.pred (1 + lenZ l)) with (lenZ l) by lia. apply IH.
Qed.

(** The slots of one bucket are stored at consecutive positions. *)
Lemma store_bucket bk pre post :
  bucket_ok bsz bs bk ->
  ofold (fun payloads (si : Z * Z) =>
      let? pl := indexZ (payload <$> bk) si.1 in store_payload payloads (si.2, pl))
    (pre ++ replicate (length bk) (zeros bs) ++ post) (enumerate (seqZ (lenZ pre) bsz)) =
  Ok (pre ++ (payload <$> bk) ++ post).
Proof.
  intros [Hl Hok]. rewrite <-Hl.
  rewrite <-(store_fill (payload <$> bk) pre post (lenZ pre)), length_fmap by (done || by apply payloads_length).
  apply ofold_Forall2. apply Forall2_same_length_lookup. unfold enumerate.
  rewrite !length_enumerate_from, length_fmap, length_seqZ. unfold lenZ at 1. split; [lia|].
  intros k [a x] [i pl] Hk Hpl. rewrite lookup_enumerate_from in Hk. rewrite lookup_enumerate_from in Hpl.
  destruct (seqZ (lenZ pre) (lenZ bk) !! k) as [y|] eqn:Ey; [|done].
  destruct ((payload <$> bk) !! k) as [pl'|] eqn:Epl; [|done]. simplify_eq/=.
  apply lookup_seqZ in Ey as [-> _]. intros b. by rewrite Z.add_0_l, (indexZ_nat _ _ _ Epl).
Qed.

Lemma load_path_ok (m : overlay) Bs nodes done_rows pre k :
  Forall2 (fun n bk => m !! n = Some (payload_page bk) /\ bucket_ok bsz bs bk) nodes Bs ->
  path_candidate_indices plan = done_rows ++ idx_rows p (lenZ pre) (length Bs) ->
  lenZ done_rows = k ->
  ofold (fun payloads (dn : Z * Z) =>
        match m !! dn.2 with
        | None => Panic
        | Some payload_buf =>
            let? bucket := payload_bucket_decode payload_buf bsz bs in
            let? row := indexZ (path_candidate_indices plan) dn.1 in
            ofold (fun payloads (si : Z * Z) =>
                let? pl := indexZ (pb_slots bucket) si.1 in store_payload payloads (si.2, pl))
              payloads (enumerate row)
        end)
      (pre ++ replicate (length (concat Bs)) (zeros bs)) (enumerate_from k nodes) =
  Ok (pre ++ (payload <$> concat Bs)).
Proof.
  intros HF. revert done_rows pre k. induction HF as [|n bk nodes Bs [Hm Hbk] _ IH]; intros done_rows pre k Hrows Hk.
  { simpl. done. }
  cbn [enumerate_from ofold concat fst snd]. rewrite Hm. destruct bs_pos.
  rewrite payload_decode_page by done. cbn [obind pb_slots].
  cbn [length idx_rows] in Hrows. rewrite Hrows, indexZ_app, <-Hrows by done. cbn [obind].
  rewrite length_app, replicate_add.
  rewrite store_bucket by done. cbn [obind]. rewrite app_assoc.
  rewrite (IH (done_rows ++ [seqZ (lenZ pre) bsz])).
  - by rewrite fmap_app, <-app_assoc.
  - rewrite lenZ_app, lenZ_fmap, <-app_assoc. destruct Hbk as [-> _]. done.
  - rewrite lenZ_app. change (lenZ [_]) with 1. lia.
Qed.

Lemma load_payloads_ok (m : overlay) nodes metas :
  lenZ metas = lenZ nodes ->
  Forall2 (fun n bk => m !! n = Some (payload_page bk) /\ bucket_ok bsz bs bk) nodes B ->
  load_eviction_payloads_from_overlay p stash nodes metas plan m = Ok (payload <$> C).
Proof.
  intros Hmetas HF. unfold load_eviction_payloads_from_overlay.
  pose proof (Forall2_length _ _ _ HF) as Hlen.
  rewrite Hmetas, Z.eqb_refl. cbn [negb orb].
  rewrite Hidx. unfold lenZ at 1 2. rewrite length_idx_rows, Hlen, Z.eqb_refl. cbn [negb orb].
  assert (lenZ (candidates plan) = eviction_candidate_count p) as Hcc.
  { unfold eviction_candidate_count. rewrite Hcand, lenZ_fmap, lenZ_app, Hst. f_equal.
    rewrite (lenZ_concat bsz); [by rewrite HB|].
    eapply Forall_impl; [exact HBok|]. by intros ? []. }
  rewrite Hcc, Z.eqb_refl. cbn [negb].
  assert (length (candidates plan) = (length (payload <$> stash) + length (concat B))%nat) as Hcl.
  { by rewrite Hcand, !length_fmap, length_app. }
  rewrite Z.min_l.
  2: { unfold lenZ in *. rewrite length_replicate, Hcl, length_fmap. lia. }
  pose proof (store_fill (payload <$> stash) [] (replicate (length (concat B)) (zeros bs)) 0 eq_refl
    (payloads_length _ Hstok)) as Hfill. cbn [app] in Hfill. rewrite <-replicate_add, <-Hcl in Hfill.
  erewrite ofold_Forall2 with (l' := enumerate_from 0 (payload <$> stash)) (g := store_payload).
  - rewrite Hfill. cbn [obind]. rewrite fmap_app, <-Hidx.
    apply (load_path_ok m B nodes [] (payload <$> stash) 0); [done| |done].
    by rewrite Hidx, lenZ_fmap.
  - apply Forall2_same_length_lookup. rewrite length_enumerate_from, length_fmap, length_seqZ.
    split; [unfold lenZ in *; lia|]. intros k slot [i pl] Hk Hpl.
    apply lookup_seqZ in Hk as [-> _]. rewrite lookup_enumerate_from, list_lookup_fmap in Hpl.
    destruct (stash !! k) as [b|] eqn:Eb; simplify_eq/=. intros payloads.
    by rewrite Z.add_0_l, (indexZ_nat _ _ _ Eb).
Qed.

(** *** Grid positions *)

Lemma concat_idx_rows n k : concat (idx_rows p n k) = seqZ n (Z.of_nat k * bsz).
Proof.
  destruct bs_pos. revert n. induction k as [|k IH]; intros n; cbn [idx_rows concat]; [done|].
  rewrite IH. replace (Z.of_nat (S k) * bsz) with (bsz + Z.of_nat k * bsz) by lia.
  by rewrite seqZ_app by lia.
Qed.

Lemma lookup_idx_rows n k d : (d < k)%nat -> idx_rows p n k !! d = Some (seqZ (n + Z.of_nat d * bsz) bsz).
Proof.
  revert n d. induction k as [|k IH]; intros n [|d] Hd; cbn [idx_rows lookup list_lookup]; [lia..| |].
  - do 2 f_equal. lia.
  - rewrite IH by lia. do 2 f_equal. lia.
Qed.

Lemma length_path_blocks : lenZ (concat B) = Z.of_nat (length B) * bsz.
Proof.
  rewrite (lenZ_concat bsz); [done|]. eapply Forall_impl; [exact HBok|]. by intros ? [].
Qed.

Lemma grid_positions_idx :
  Forall2 (fun ds i => exists row, indexZ (path_candidate_indices plan) ds.1 = Ok row /\
                                   indexZ row ds.2 = Ok i)
    (grid_positions p) (seqZ (lenZ stash) (lenZ (concat B))).
Proof.
  rewrite length_path_blocks, <-concat_idx_rows, <-Hidx. unfold grid_positions.
  destruct bs_pos. pose proof (height_pos p Hp).
  apply Forall2_concat_rows, Forall2_same_length_lookup. rewrite Hidx, length_idx_rows, length_fmap, length_seqZ.
  split; [unfold lenZ in HB; lia|]. intros d r1 r2 Hr1 Hr2.
  rewrite list_lookup_fmap in Hr1. destruct (seqZ 0 (height p) !! d) as [z|] eqn:Ez; simplify_eq/=.
  apply lookup_seqZ in Ez as [-> Hd]. rewrite Z.add_0_l.
  pose proof (lookup_lt_Some _ _ _ Hr2) as Hlt. rewrite length_idx_rows in Hlt.
  pose proof (lookup_idx_rows (lenZ stash) (length B) d Hlt) as Hrow.
  assert (r2 = seqZ (lenZ stash + Z.of_nat d * bsz) bsz) as -> by congruence.
  apply Forall2_same_length_lookup. rewrite length_fmap, !length_seqZ. split; [done|].
  intros s ds i Hds Hi. rewrite list_lookup_fmap in Hds.
  destruct (seqZ 0 bsz !! s) as [z|] eqn:Es; simplify_eq/=. apply lookup_seqZ in Es as [-> Hs].
  rewrite Z.add_0_l. eexists. rewrite (indexZ_nat _ _ _ Hr2). split; [done|]. by apply indexZ_nat.
Qed.

(** What the loops see of the candidate at a grid position. *)
Definition path_entry (ds : Z * Z) (fb : bool * OramBlock) : Prop :=
  exists i sel, path_candidate plan ds = Ok (i, cand_of fb.2, and (cand_active (cand_of fb.2)) (not sel)) /\
    truth sel = fb.1 /\ indexZ (payload <$> C) i = Ok (payload fb.2).

Definition stash_entry (slot : Z) (fb : bool * OramBlock) : Prop :=
  exists c, stash_selected plan slot = Ok c /\ truth c = occupied fb.2 && fb.1.

Lemma truth_active b : truth (cand_active (cand_of b)) = occupied b.
Proof. unfold cand_of, meta_candidate. cbn [cand_active]. by ct_simpl. Qed.

Lemma lookup_selected k f : flags !! k = Some f -> exists sel, selected plan !! k = Some sel /\ truth sel = f.
Proof. unfold flags. rewrite list_lookup_fmap, fmap_Some. naive_solver. Qed.

Lemma path_entries : Forall2 path_entry (grid_positions p) (zip path_flags (concat B)).
Proof.
  destruct flags_split as (Hfl & Hl1 & Hl2).
  pose proof grid_positions_idx as Hg. apply Forall2_same_length_lookup in Hg as [Hgl Hg].
  rewrite length_seqZ in Hgl. pose proof (lenZ_nonneg (concat B)).
  apply Forall2_same_length_lookup. split.
  { rewrite Hgl, length_zip_with, Hl2. unfold lenZ in *. lia. }
  intros k ds [f b] Hds Hfb. rewrite lookup_zip_with in Hfb.
  destruct (path_flags !! k) as [f'|] eqn:Ef; [|done]. simpl in Hfb.
  destruct (concat B !! k) as [b'|] eqn:Eb; simplify_eq/=.
  pose proof (lookup_lt_Some _ _ _ Eb) as Hlt.
  destruct (Hg k ds (lenZ stash + Z.of_nat k)) as (row & Hr & Hi); [done|apply lookup_seqZ; unfold lenZ in *; lia|].
  destruct (lookup_selected (length stash + k) f) as (sel & Hs & Ht).
  { rewrite Hfl, lookup_app_r by lia. rewrite <-Ef. f_equal. lia. }
  assert (C !! (length stash + k)%nat = Some b) as HCk.
  { rewrite lookup_app_r by lia. rewrite <-Eb. f_equal. lia. }
  replace (lenZ stash + Z.of_nat k) with (Z.of_nat (length stash + k)) in * by (unfold lenZ; lia).
  exists (Z.of_nat (length stash + k)), sel. unfold path_candidate.
  rewrite Hr. cbn [obind]. rewrite Hi. cbn [obind]. rewrite Hcand, (indexZ_fmap cand_of _ _ b) by by apply indexZ_nat.
  cbn [obind]. rewrite (indexZ_nat _ _ _ Hs). cbn [obind]. split_and!; [done|done|].
  by apply (indexZ_fmap payload), indexZ_nat.
Qed.

Lemma stash_entries : Forall2 stash_entry (seqZ 0 (stash_capacity p)) (zip stash_flags stash).
Proof.
  destruct flags_split as (Hfl & Hl1 & Hl2).
  apply Forall2_same_length_lookup. rewrite <-Hst, length_seqZ, length_zip_with, Hl1.
  split; [unfold lenZ; lia|]. intros k slot [f b] Hslot Hfb. apply lookup_seqZ in Hslot as [-> _].
  rewrite Z.add_0_l, lookup_zip_with in *.
  destruct (stash_flags !! k) as [f'|] eqn:Ef; [|done]. simpl in Hfb.
  destruct (stash !! k) as [b'|] eqn:Eb; simplify_eq/=.
  pose proof (lookup_lt_Some _ _ _ Eb) as Hlt.
  destruct (lookup_selected k f) as (sel & Hs & Ht); [by rewrite Hfl, lookup_app_l by lia|].
  exists (and (cand_active (cand_of b)) sel). unfold stash_selected.
  rewrite Hcand, (indexZ_fmap cand_of _ _ b) by (apply indexZ_nat; by rewrite lookup_app_l by lia).
  cbn [obind]. rewrite (indexZ_nat _ _ _ Hs). split; [done|]. cbn [fst snd]. rewrite truth_and, truth_active. by subst f.
Qed.

(** *** The capacity test never fails *)

Lemma sum_path ps fs l n :
  length fs = length l -> Forall2 path_entry ps (zip fs l) ->
  ofold (fun n ds => let? c := path_candidate plan ds in Ok (n + unwrap_u8 c.2)) n ps =
  Ok (n + lenZ (occ (left_out fs l))).
Proof.
  unfold left_out. revert fs l n. induction ps as [|ds ps IH]; intros [|f fs] [|b l] n Hl HF; simplify_eq/=;
    try by inversion HF.
  { by rewrite Z.add_0_r. }
  apply Forall2_cons in HF as [(i & sel & E & Ht & _) HF]. rewrite E. cbn [obind snd].
  rewrite (IH fs l) by done. rewrite unwrap_truth, truth_and, truth_active, truth_not. simpl in Ht. rewrite Ht.
  f_equal. destruct f; cbn [negb]; [rewrite andb_false_r; cbn [fst snd]; lia|]. cbn [fst snd]. rewrite andb_true_r.
  destruct (occupied b) eqn:Eb; [rewrite occ_cons_true, lenZ_cons by done; lia|rewrite occ_cons_false by done; lia].
Qed.

Lemma sum_stash slots fs l n :
  length fs = length l -> Forall2 stash_entry slots (zip fs l) ->
  ofold (fun n slot => let? c := stash_selected plan slot in Ok (n + unwrap_u8 c)) n slots =
  Ok (n + lenZ (occ (picked fs l))).
Proof.
  revert fs l n. induction slots as [|slot slots IH]; intros [|f fs] [|b l] n Hl HF; simplify_eq/=;
    try by inversion HF.
  { by rewrite Z.add_0_r. }
  apply Forall2_cons in HF as [(c & E & Ht) HF]. rewrite E. cbn [obind].
  rewrite (IH fs l) by done. rewrite unwrap_truth, Ht. cbn [fst snd].
  f_equal. destruct f; [|rewrite andb_false_r; lia]. rewrite andb_true_r.
  destruct (occupied b) eqn:Eb; [rewrite occ_cons_true, lenZ_cons by done; lia|rewrite occ_cons_false by done; lia].
Qed.

Context (Hgreedy : lenZ (occ (concat B)) <= lenZ (picked flags C)).
Context (Hpicked : Forall (fun b => occupied b = true) (picked flags C)).
Context (Hcap : stash_capacity p <= u64_max).

(** The unplaced path blocks are no more than the placed stash blocks. *)
Lemma reinserts_le_cleared :
  lenZ (occ (left_out path_flags (concat B))) <= lenZ (occ (picked stash_flags stash)).
Proof.
  destruct flags_split as (Hfl & Hl1 & Hl2).
  rewrite <-(occ_all _ Hpicked), Hfl, picked_app, occ_app, lenZ_app in Hgreedy by done.
  rewrite (picked_split path_flags (concat B)), occ_app, lenZ_app in Hgreedy at 1 by done. lia.
Qed.

Lemma stash_occ_split :
  lenZ (occ stash) = lenZ (occ (picked stash_flags stash)) + lenZ (occ (left_out stash_flags stash)).
Proof.
  destruct flags_split as (_ & Hl1 & _). rewrite (picked_split stash_flags stash) at 1 by done.
  by rewrite occ_app, lenZ_app.
Qed.

Lemma ensure_ok : ensure_eviction_stash_capacity p stash plan = Ok tt.
Proof.
  destruct flags_split as (_ & Hl1 & Hl2). unfold ensure_eviction_stash_capacity.
  rewrite (sum_stash _ stash_flags stash) by (done || apply stash_entries). cbn [obind].
  rewrite (sum_path _ path_flags (concat B)) by (done || apply path_entries). cbn [obind].
  rewrite occupied_stash_len_occ, !Z.add_0_l.
  pose proof reinserts_le_cleared. pose proof stash_occ_split. pose proof (length_occ stash).
  pose proof (lenZ_nonneg (occ (picked stash_flags stash))).
  pose proof (lenZ_nonneg (occ (left_out stash_flags stash))).
  rewrite wrap_small by words. by rewrite (proj2 (Z.ltb_ge _ _)) by lia.
Qed.

(** *** Clearing and reinserting *)

Definition clear1 (f : bool) (b : OramBlock) : OramBlock :=
  if occupied b && f then block_dummy bs else b.
Definition cleared : list OramBlock := zip_with clear1 stash_flags stash.

Lemma clear_loop slots fs l pre :
  length fs = length l -> Forall (block_ok bs) l ->
  Forall2 stash_entry slots (zip fs l) -> slots = seqZ (lenZ pre) (lenZ l) ->
  iterM (fun slot =>
      let* clear := lift (stash_selected plan slot) in
      let* stash := gets (fun s => s) in
      let* b := lift (indexZ stash slot) in
      let* stash := lift (updateZ stash slot (block_clear_if b clear)) in
      modify (fun _ => stash)) slots (pre ++ l) = (Ok tt, pre ++ zip_with clear1 fs l).
Proof.
  intros Hlen Hok HF Hslots. revert fs pre slots Hlen HF Hslots.
  induction Hok as [|b l Hb _ IH]; intros [|f fs] pre slots Hlen HF Hslots; simplify_eq/=; [done|].
  rewrite lenZ_cons in *. rewrite seqZ_cons in HF |- * by (pose proof (lenZ_nonneg l); lia).
  apply Forall2_cons in HF as [(c & E & Ht) HF]. cbn [iterM].
  erewrite bind_eq.
  2: { rewrite bind_lift, E, bind_gets, bind_lift, indexZ_app by done.
       rewrite bind_lift, updateZ_app by done. reflexivity. }
  rewrite cons_middle, app_assoc. erewrite (block_clear_if_truth bs), Ht by done. cbn [fst snd].
  rewrite (IH fs).
  - by rewrite <-app_assoc.
  - lia.
  - exact HF.
  - rewrite lenZ_app. change (lenZ [_]) with 1.
    by replace (Z.pred (1 + lenZ l)) with (lenZ l) by lia.
Qed.

Lemma occ_cleared fs l : length fs = length l -> occ (zip_with clear1 fs l) = occ (left_out fs l).
Proof.
  unfold left_out. revert l. induction fs as [|f fs IH]; intros [|b l] Hl; simplify_eq/=; [done|].
  unfold clear1. destruct f; cbn [negb].
  - rewrite andb_true_r. destruct (occupied b) eqn:E; rewrite occ_cons_false by done; auto.
  - rewrite andb_false_r. destruct (occupied b) eqn:E.
    + rewrite !occ_cons_true by done. f_equal. auto.
    + rewrite !occ_cons_false by done. auto.
Qed.

Lemma cleared_ok : lenZ cleared = stash_capacity p /\ Forall (block_ok bs) cleared.
Proof.
  destruct flags_split as (_ & Hl1 & _). unfold cleared. split.
  - rewrite <-Hst. unfold lenZ. rewrite length_zip_with. lia.
  - destruct bs_pos as [Hbs _]. enough (forall l, Forall (block_ok bs) l ->
      forall fs, Forall (block_ok bs) (zip_with clear1 fs l)) as Hgen by by apply Hgen.
    induction 1 as [|b l Hb _ IH]; intros [|f fs]; simpl; try by constructor.
    constructor; [|by apply IH]. unfold clear1. destruct (_ && _); [apply block_dummy_ok; lia|done].
Qed.

Lemma insert_candidate_ok b (ins : Choice) st :
  block_ok bs b -> Forall (block_ok bs) st -> (truth ins = true -> occupied b = true) ->
  (truth ins = true -> lenZ (occ st) < lenZ st) ->
  exists st', insert_candidate_into_stash (stash_capacity p) bs (cand_meta (cand_of b)) (payload b) ins st =
      (Ok tt, st') /\
    occ st' ≡ₚ (if truth ins then [b] else []) ++ occ st /\ lenZ st' = lenZ st /\ Forall (block_ok bs) st'.
Proof.
  intros Hb Hst0 Ho Hroom. pose proof Hb as (_ & _ & Hlb & _).
  unfold insert_candidate_into_stash. rewrite bind_guardm, Hlb, Z.eqb_refl.
  rewrite (insert_masked_spec bs) by done. destruct (truth ins); [|by exists st].
  assert (mkBlock true (ms_logical_id (cand_meta (cand_of b))) (ms_leaf (cand_meta (cand_of b))) (payload b) = b) as ->.
  { specialize (Ho eq_refl). by destruct b as [[] ???]. }
  destruct (insert_first_free b st) as [st' E]; [auto|]. rewrite E. exists st'.
  destruct (insert_first_Some b st st') as [Hperm Hlen]; [auto|done|].
  split_and!; [done|done|unfold lenZ; lia|]. by eapply insert_first_Forall.
Qed.

Lemma reinsert_loop ps fs l st :
  length fs = length l -> Forall (block_ok bs) l -> Forall2 path_entry ps (zip fs l) ->
  Forall (block_ok bs) st -> lenZ (occ st) + lenZ (occ (left_out fs l)) <= lenZ st ->
  exists st', iterM (fun ds =>
      let* c := lift (path_candidate plan ds) in
      let* payload := lift (indexZ (payload <$> C) c.1.1) in
      insert_candidate_into_stash (stash_capacity p) bs (cand_meta c.1.2) payload c.2) ps st = (Ok tt, st') /\
    occ st' ≡ₚ occ (left_out fs l) ++ occ st /\ lenZ st' = lenZ st /\ Forall (block_ok bs) st'.
Proof.
  unfold left_out. intros Hlen Hl. revert ps fs st Hlen.
  induction Hl as [|b l Hb _ IH]; intros ps [|f fs] st Hlen HF Hst0 Hroom; simplify_eq/=.
  { inversion HF. subst. by exists st. }
  destruct ps as [|ds ps]; [by inversion HF|]. apply Forall2_cons in HF as [(i & sel & E & Ht & Hpl) HF].
  cbn [fst snd] in *. cbn [iterM].
  set (ins := and _ _) in *.
  assert (truth ins = occupied b && negb f) as Hins.
  { unfold ins. by rewrite truth_and, truth_active, truth_not, Ht. }
  assert (occ (picked (negb <$> f :: fs) (b :: l)) =
    (if truth ins then [b] else []) ++ occ (picked (negb <$> fs) l)) as Hocc.
  { rewrite Hins. cbn [fmap list_fmap picked]. destruct f; cbn [negb].
    - by rewrite andb_false_r.
    - rewrite andb_true_r. destruct (occupied b) eqn:Eb; [by rewrite occ_cons_true|by rewrite occ_cons_false]. }
  cbn [fmap list_fmap picked] in Hocc. rewrite Hocc in *. rewrite lenZ_app in Hroom.
  pose proof (lenZ_nonneg (occ (picked (negb <$> fs) l))).
  destruct (insert_candidate_ok b ins st) as (st1 & E1 & Hp1 & Hl1 & Hok1); [done|done| | |].
  { rewrite Hins. by intros [? _]%andb_true_iff. }
  { intros Hti. rewrite Hti in Hroom. change (lenZ [b]) with 1 in Hroom. lia. }
  erewrite bind_eq.
  2: { rewrite bind_lift, E. cbn [fst snd]. rewrite bind_lift, Hpl. exact E1. }
  destruct (IH ps fs st1) as (st2 & E2 & Hp2 & Hl2 & Hok2); [lia|done|done| |].
  { rewrite Hp1, lenZ_app, Hl1. lia. }
  exists st2. split_and!; [exact E2| |lia|done].
  rewrite Hp2, Hp1, !app_assoc. f_equiv. apply Permutation_app_comm.
Qed.

(** *** Rewriting the path *)

Lemma fill_loop (pl : CircuitEvictionPlacement) i L m pay payloads :
  0 <= i -> lenZ pay = bs -> Forall (block_ok bs) L ->
  (forall k b, L !! k = Some b -> indexZ payloads (i + Z.of_nat k) = Ok (payload b)) ->
  ofold (fun (mp : CircuitMetaSlot * bytes) (ic : Z * CircuitEvictionCandidate) =>
      let select := and (pl_occupied pl) (eq_usize (candidate_idx pl) ic.1) in
      let? payload := indexZ payloads ic.1 in
      Ok (meta_cmov_from mp.1 (cand_meta ic.2) select, cmov_bytes mp.2 payload select))
    (m, pay) (enumerate_from i (cand_of <$> L)) =
  Ok (if truth (pl_occupied pl) && (i <=? candidate_idx pl)
      then match L !! Z.to_nat (candidate_idx pl - i) with
           | Some b => (block_meta b, payload b)
           | None => (m, pay)
           end
      else (m, pay)).
Proof.
  intros Hi Hpay HL. revert i m pay Hi Hpay.
  induction HL as [|b L Hb _ IH]; intros i m pay Hi Hpay Hidx0.
  { cbn [fmap list_fmap enumerate_from ofold]. by case_match. }
  cbn [fmap list_fmap enumerate_from ofold fst snd].
  pose proof (Hidx0 0%nat b eq_refl) as H0. rewrite Z.add_0_r in H0. rewrite H0. cbn [obind].
  pose proof Hb as (_ & _ & Hlb & _).
  rewrite meta_cmov_from_truth, cmov_bytes_truth by (unfold lenZ in *; lia). ct_simpl.
  change (cand_meta (cand_of b)) with (block_meta b).
  rewrite IH; [|lia|by case_match|].
  2: { intros k b' Hk. rewrite <-(Hidx0 (S k) b' Hk). f_equal. lia. }
  f_equal. destruct (truth (pl_occupied pl)); cbn [andb]; [|done].
  destruct (Z.lt_trichotomy (candidate_idx pl) i) as [Hlt|[->|Hgt]].
  - rewrite !(proj2 (Z.leb_gt _ _)), (proj2 (Z.eqb_neq _ _)) by lia. done.
  - rewrite (proj2 (Z.leb_gt (i + 1) i)), (proj2 (Z.leb_le i i)), Z.eqb_refl, Z.sub_diag by lia. done.
  - rewrite !(proj2 (Z.leb_le _ _)), (proj2 (Z.eqb_neq _ _)) by lia.
    replace (Z.to_nat (candidate_idx pl - i)) with (S (Z.to_nat (candidate_idx pl - (i + 1)))) by lia. done.
Qed.

Lemma fill_slot_ok pl depth node :
  placement_ok p C depth node pl ->
  fill_slot p (cand_of <$> C) (payload <$> C) pl =
  Ok (block_meta (slot_block p C pl), payload (slot_block p C pl)).
Proof.
  intros Hpl. unfold fill_slot, enumerate. destruct bs_pos.
  rewrite fill_loop; [|lia|by rewrite lenZ_zeros by lia|apply C_ok|].
  2: { intros k b Hk. apply (indexZ_fmap payload). rewrite Z.add_0_l. by apply indexZ_nat. }
  unfold slot_block, placement_ok in *. rewrite Z.sub_0_r.
  destruct (truth (pl_occupied pl)); cbn [andb]; [|done].
  destruct Hpl as (b & [Hn ->]%indexZ_Ok & _); [done|]. by rewrite (proj2 (Z.leb_le _ _)).
Qed.

Lemma fill_bucket_loop row depth node m1 m2 p1 p2 i :
  Forall (placement_ok p C depth node) row ->
  length m2 = length row -> length p2 = length row -> i = lenZ m1 -> i = lenZ p1 ->
  ofold (fun (bb : CircuitMetaBucket * CircuitPayloadBucket) (sp : Z * CircuitEvictionPlacement) =>
      let? mp := fill_slot p (cand_of <$> C) (payload <$> C) sp.2 in
      let? ms := updateZ (mb_slots bb.1) sp.1 mp.1 in
      let? ps := updateZ (pb_slots bb.2) sp.1 mp.2 in
      Ok (mkMetaBucket ms, mkPayloadBucket ps))
    (mkMetaBucket (m1 ++ m2), mkPayloadBucket (p1 ++ p2)) (enumerate_from i row) =
  Ok (mkMetaBucket (m1 ++ (block_meta <$> (slot_block p C <$> row))),
      mkPayloadBucket (p1 ++ (payload <$> (slot_block p C <$> row)))).
Proof.
  intros Hrow. revert m1 m2 p1 p2 i. induction Hrow as [|pl row Hpl _ IH];
    intros m1 [|x m2] p1 [|y p2] i Hm Hpp -> Hi; simplify_eq/=; [done|].
  rewrite (fill_slot_ok pl depth node) by done. cbn [obind mb_slots pb_slots fst snd].
  rewrite updateZ_app by done. cbn [obind]. rewrite updateZ_app by done. cbn [obind].
  rewrite !(cons_middle _ m1), !(cons_middle _ p1), !app_assoc. apply IH; try done.
  - by rewrite lenZ_app.
  - rewrite lenZ_app. change (lenZ [_]) with 1. lia.
Qed.

Lemma fill_bucket_ok row depth node :
  Forall (placement_ok p C depth node) row -> lenZ row = bsz ->
  fill_bucket p (cand_of <$> C) (payload <$> C) row =
  Ok (mkMetaBucket (block_meta <$> (slot_block p C <$> row)), mkPayloadBucket (payload <$> (slot_block p C <$> row))).
Proof.
  intros Hrow Hl. unfold fill_bucket, meta_bucket_dummy, payload_bucket_dummy, enumerate.
  apply (fill_bucket_loop row depth node [] _ [] _ 0); try done; rewrite length_replicate; unfold lenZ in Hl; lia.
Qed.

Lemma slot_block_ok pl : block_ok bs (slot_block p C pl).
Proof.
  destruct bs_pos. unfold slot_block. destruct (truth _); [|apply block_dummy_ok; lia].
  destruct (C !! _) eqn:E; [|apply block_dummy_ok; lia]. cbn [default].
  pose proof C_ok as HC. by eapply Forall_lookup_1 in HC.
Qed.

Lemma new_bucket_ok row : lenZ row = bsz -> bucket_ok bsz bs (slot_block p C <$> row).
Proof.
  intros Hl. split; [by rewrite lenZ_fmap|]. apply Forall_fmap, Forall_true. intros. apply slot_block_ok.
Qed.

Lemma write_back_ok dom nodes rows (fm fp : Z -> bytes) mo po k prev :
  Forall (fun n => n ∈ dom) nodes ->
  Forall2 (fun n row => lenZ row = bsz /\ exists depth node, Forall (placement_ok p C depth node) row) nodes rows ->
  placements plan = prev ++ rows -> lenZ prev = k ->
  overlay_of fm dom mo -> overlay_of fp dom po ->
  exists mo' po',
    ofold (fun (ov : overlay * overlay) (dn : Z * Z) =>
      let? row := indexZ (placements plan) dn.1 in
      let? bb := fill_bucket p (candidates plan) (payload <$> C) row in
      let? mp := meta_bucket_encode bb.1 bsz in
      let? pp := payload_bucket_encode bb.2 bsz bs in
      Ok (<[dn.2 := mp]> ov.1, <[dn.2 := pp]> ov.2)) (mo, po) (enumerate_from k nodes) = Ok (mo', po') /\
    overlay_of (pages_upd nodes ((fun row => meta_page (slot_block p C <$> row)) <$> rows) fm) dom mo' /\
    overlay_of (pages_upd nodes ((fun row => payload_page (slot_block p C <$> row)) <$> rows) fp) dom po'.
Proof.
  intros Hdom HF. revert fm fp mo po k prev Hdom.
  induction HF as [|n row nodes rows [Hl (depth & node & Hrow)] _ IH];
    intros fm fp mo po k prev Hdom Hpl Hk Hm Hpo; [by exists mo, po|].
  apply Forall_cons in Hdom as [Hn Hdom]. cbn [enumerate_from ofold fst snd]. destruct bs_pos.
  rewrite Hpl, indexZ_app, <-Hpl by done. cbn [obind]. rewrite Hcand, (fill_bucket_ok row depth node) by done.
  cbn [obind fst snd]. pose proof (new_bucket_ok row Hl) as Hnb.
  rewrite (meta_encode_page bsz bs), payload_encode_page by done. cbn [obind].
  rewrite <-Hcand. apply (IH _ _ _ _ _ (prev ++ [row])); [done| | | |].
  - by rewrite <-app_assoc.
  - rewrite lenZ_app. change (lenZ [row]) with 1. lia.
  - by apply overlay_of_insert.
  - by apply overlay_of_insert.
Qed.

End Apply.
