(* ===== verification/EvictPath.v ===== *)
(** * One path eviction preserves the blocks

    The planner and the applier composed: [evict_path_in_overlays] on overlays
    that hold a tree [T] succeeds and re-distributes the blocks of the stash and
    the path, every block again on its own path. *)

From S2P Require Import Prelude Ct Block Params Bucket Stash Overlay Store Evict EvictPlan EvictApply.

(** A bucket of node [n] is well formed and its blocks lie on their paths. *)
Definition placed_ok (p : OramParams) (n : Z) (bk : list OramBlock) : Prop :=
  forall b, b ∈ bk -> occupied b = true -> leaf_ok p (leaf b) /\ n ∈ path_nodes p (leaf b).
Definition node_ok (p : OramParams) (n : Z) (bk : list OramBlock) : Prop :=
  bucket_ok (bucket_size p) (block_size p) bk /\ placed_ok p n bk.
Definition stash_ok (p : OramParams) (stash : list OramBlock) : Prop :=
  lenZ stash = stash_capacity p /\ Forall (block_ok (block_size p)) stash /\
  Forall (fun b => occupied b = true -> leaf_ok p (leaf b)) stash.
(** The candidate positions of an eviction fit a machine word. *)
Definition fits (p : OramParams) : Prop := stash_capacity p + height p * bucket_size p <= u64_max.

(** The pages of a tree of blocks. *)
Definition meta_pages (T : Z -> list OramBlock) : Z -> bytes := fun n => meta_page (T n).
Definition payload_pages (T : Z -> list OramBlock) : Z -> bytes := fun n => payload_page (T n).

Section Path.
Context `{SL : SubtleLaws} (p : OramParams) (Hp : params_ok p) (Hfits : fits p).
Context (lf : Z) (Hlf : leaf_ok p lf) (T : Z -> list OramBlock) (stash : list OramBlock).
Local Abbreviation path := (path_nodes p lf).
Local Abbreviation B := (T <$> path).
Local Abbreviation C := (stash ++ concat B).
Context (HT : forall n, n ∈ path -> node_ok p n (T n)) (Hst : stash_ok p stash).

Lemma path_buckets_ok : Forall (bucket_ok (bucket_size p) (block_size p)) B.
Proof. apply Forall_fmap, Forall_forall. intros n Hn. by apply HT. Qed.

Lemma path_size : lenZ B = height p.
Proof. rewrite lenZ_fmap. by apply path_nodes_length. Qed.

Lemma path_bucket_sizes : Forall (fun bk => lenZ bk = bucket_size p) B.
Proof. eapply Forall_impl; [apply path_buckets_ok|]. by intros ? []. Qed.

Lemma candidates_fit : lenZ C <= u64_max.
Proof.
  rewrite lenZ_app. destruct Hst as [-> _].
  rewrite (lenZ_concat (bucket_size p)) by apply path_bucket_sizes. rewrite path_size. apply Hfits.
Qed.

Lemma candidate_leaves : Forall (fun b => occupied b = true -> leaf_ok p (leaf b)) C.
Proof.
  apply Forall_app. split; [apply Hst|]. apply Forall_forall. intros b Hb Ho.
  apply elem_of_concat in Hb as (bk & Hbk & Hb). apply list_elem_of_fmap in Hbk as (n & -> & Hn).
  by destruct (HT n Hn) as [_ Hpl]; destruct (Hpl b Hb Ho).
Qed.

Lemma path_placed (e : nat) bk b :
  B !! e = Some bk -> b ∈ bk -> occupied b = true ->
  node_index p (Z.of_nat e) (leaf b) = node_index p (Z.of_nat e) lf.
Proof.
  intros He Hb Ho. rewrite list_lookup_fmap in He.
  destruct (path !! e) as [n|] eqn:En; simplify_eq/=.
  pose proof (list_elem_of_lookup_2 _ _ _ En) as Hn.
  destruct (HT n Hn) as [_ Hpl]. destruct (Hpl b Hb Ho) as [Hlb (d & Hd & Hnd)%elem_of_path_nodes].
  apply path_nodes_lookup in En as [Hlt ->].
  rewrite <-(node_index_depth p Hp (Z.of_nat e) d lf (leaf b)) in Hnd; (done || lia).
Qed.

Lemma metadata_ok dom mo :
  (forall n, n ∈ path -> n ∈ dom) -> overlay_of (meta_pages T) dom mo ->
  path_metadata_from_overlay p path mo = Ok ((fun bk => mkMetaBucket (block_meta <$> bk)) <$> B).
Proof.
  intros Hdom Hm. unfold path_metadata_from_overlay. rewrite <-list_fmap_compose.
  apply omap_m_pure. intros n Hn. rewrite (overlay_of_lookup _ _ _ _ Hm) by auto.
  apply (meta_decode_page (bucket_size p) (block_size p)). by apply HT.
Qed.

(** The tree after the eviction, from the plan's placements. *)
Definition evicted_tree (plan : CircuitEvictionPlan) : Z -> list OramBlock :=
  pages_upd path ((fun row : list CircuitEvictionPlacement => slot_block p C <$> row) <$> placements plan) T.

Lemma evicted_tree_path plan :
  lenZ (placements plan) = height p ->
  evicted_tree plan <$> path = (fun row : list CircuitEvictionPlacement => slot_block p C <$> row) <$> placements plan.
Proof.
  intros Hl. apply list_eq. intros d. rewrite !list_lookup_fmap.
  destruct (path !! d) as [n|] eqn:En; simpl.
  - destruct (placements plan !! d) as [row|] eqn:Er; simpl.
    + f_equal. apply (pages_upd_lookup _ _ _ d); [by apply path_nodes_NoDup|done|].
      by rewrite list_lookup_fmap, Er.
    + apply lookup_ge_None in Er. apply lookup_lt_Some in En.
      pose proof (path_nodes_length p Hp lf). unfold lenZ in *. lia.
  - destruct (placements plan !! d) as [row|] eqn:Er; simpl; [|done].
    apply lookup_ge_None in En. apply lookup_lt_Some in Er.
    pose proof (path_nodes_length p Hp lf). unfold lenZ in *. lia.
Qed.

Lemma evicted_tree_node plan :
  levels_inv p C lf B 0 (placements plan, selected plan) ->
  forall n, n ∈ path -> node_ok p n (evicted_tree plan n).
Proof.
  intros (Hl & Hsl & Hsz & Hok & _) n Hn. cbn [fst snd] in *.
  apply list_elem_of_lookup in Hn as [d Hd].
  destruct (placements plan !! d) as [row|] eqn:Er.
  2: { apply lookup_ge_None in Er. apply lookup_lt_Some in Hd.
       pose proof (path_nodes_length p Hp lf). unfold lenZ in *. lia. }
  assert (evicted_tree plan n = slot_block p C <$> row) as ->.
  { apply (pages_upd_lookup _ _ _ d); [by apply path_nodes_NoDup|done|]. by rewrite list_lookup_fmap, Er. }
  apply path_nodes_lookup in Hd as [Hlt ->].
  specialize (Hok d row ltac:(lia) Er). eapply Forall_lookup_1 in Hsz; [|exact Er].
  split; [apply (new_bucket_ok p Hp stash B plan); [apply path_buckets_ok|apply Hst|done|done]|].
  intros b Hb Ho. apply list_elem_of_fmap in Hb as (pl & -> & Hpl).
  rewrite Forall_forall in Hok. specialize (Hok pl Hpl). unfold placement_ok, slot_block in *.
  destruct (truth (pl_occupied pl)); [|done].
  destruct Hok as (b & [_ Hb]%indexZ_Ok & [_ Hnode]); [done|]. rewrite Hb in *. cbn [default] in *.
  pose proof candidate_leaves as Hleaf. eapply Forall_lookup_1 in Hleaf; [|exact Hb].
  split; [by apply Hleaf|]. apply elem_of_path_nodes.
  exists (Z.of_nat d). split; [lia|]. symmetry. exact Hnode.
Qed.

(** No block the plan leaves out fits in a bucket the eviction leaves a slot of. *)
Lemma evicted_tree_greedy plan n b :
  levels_inv p C lf B 0 (placements plan, selected plan) -> n ∈ path ->
  lenZ (occ (evicted_tree plan n)) < bucket_size p -> b ∈ occ (left_out (flags plan) C) -> n ∉ path_nodes p (leaf b).
Proof.
  intros (Hl & _ & _ & _ & _ & _ & Hmax) Hn Hroom [Ho Hb]%elem_of_occ Hnb. cbn [fst snd] in *.
  apply elem_of_left_out in Hb as (j & Hj & Hf). apply list_elem_of_lookup in Hn as [d Hd].
  destruct (placements plan !! d) as [row|] eqn:Er.
  2: { apply lookup_ge_None in Er. apply lookup_lt_Some in Hd.
       pose proof (path_nodes_length p Hp lf). unfold lenZ in *. lia. }
  assert (evicted_tree plan n = slot_block p C <$> row) as Hrow.
  { apply (pages_upd_lookup _ _ _ d); [by apply path_nodes_NoDup|done|]. by rewrite list_lookup_fmap, Er. }
  rewrite Hrow in Hroom. apply path_nodes_lookup in Hd as [Hlt ->].
  destruct (Hmax d row) as [?|Hall]; [lia|done|lia|].
  assert (leaf_ok p (leaf b)) as Hlb.
  { pose proof candidate_leaves as Hleaf. by eapply Forall_lookup_1 in Hleaf; [apply Hleaf|exact Hj]. }
  apply elem_of_path_nodes in Hnb as (e & He & Hne).
  assert (Z.of_nat d = e) as <- by (apply (node_index_depth p Hp _ _ lf (leaf b)); (done || lia)).
  unfold flags in Hf. rewrite (Hall j b Hj) in Hf; [done|]. by split.
Qed.

End Path.

Section EvictPath.
Context `{SL : SubtleLaws} (p : OramParams) (Hp : params_ok p) (Hfits : fits p).

Lemma evict_path_ok lf T stash dom mo po :
  leaf_ok p lf -> (forall n, n ∈ path_nodes p lf -> n ∈ dom) ->
  (forall n, n ∈ path_nodes p lf -> node_ok p n (T n)) -> stash_ok p stash ->
  overlay_of (meta_pages T) dom mo -> overlay_of (payload_pages T) dom po ->
  exists T' stash' mo' po',
    evict_path_in_overlays p (path_nodes p lf) (mo, po) stash = (Ok (mo', po'), stash') /\
    overlay_of (meta_pages T') dom mo' /\ overlay_of (payload_pages T') dom po' /\
    (forall n, n ∉ path_nodes p lf -> T' n = T n) /\
    (forall n, n ∈ path_nodes p lf -> node_ok p n (T' n)) /\ stash_ok p stash' /\
    occ stash' ++ occ (concat (T' <$> path_nodes p lf)) ≡ₚ
      occ stash ++ occ (concat (T <$> path_nodes p lf)) /\
    lenZ (occ stash') <= lenZ (occ stash) /\
    (forall n b, n ∈ path_nodes p lf -> lenZ (occ (T' n)) < bucket_size p -> b ∈ occ stash' ->
       n ∉ path_nodes p (leaf b)).
Proof.
  intros Hlf Hdom HT Hst Hmo Hpo. pose proof Hst as (Hstl & Hstok & Hstleaf).
  pose proof (path_size p Hp lf T) as HB. pose proof (path_buckets_ok p lf T HT) as HBok.
  pose proof (path_bucket_sizes p lf T HT) as HBsz.
  set (B := T <$> path_nodes p lf) in *. set (C := stash ++ concat B).
  pose proof (candidates_fit p Hp Hfits lf T stash HT Hst) as Hfit. fold B C in Hfit.
  pose proof (candidate_leaves p lf T stash HT Hst) as Hleaf. fold B C in Hleaf.
  destruct (plan_spec p Hp C Hfit Hleaf lf Hlf stash B eq_refl HB HBsz
    (path_placed p Hp lf Hlf T HT) Hstl) as (plan & Eplan & Hcand & Hidx & Hinv).
  pose proof Hinv as (Hrl & Hsl & Hrsz & Hrok & Hpick & Hcount & _). cbn [fst snd] in *.
  rewrite !drop_0 in Hpick. rewrite drop_0 in Hcount.
  assert (Forall (fun b => occupied b = true) (picked (flags plan) C)) as Hpocc.
  { unfold flags. rewrite Hpick. apply Forall_concat, Forall_fmap, Forall_true. intros row.
    apply Forall_forall. intros b Hb. by apply elem_of_occ in Hb as []. }
  assert (lenZ (occ (concat B)) <= lenZ (picked (flags plan) C)) as Hgreedy by exact Hcount.
  assert (stash_capacity p <= u64_max) as Hcap.
  { pose proof (height_pos p Hp). destruct Hp. unfold fits in Hfits. nia. }
  pose proof (load_payloads_ok p Hp stash B plan Hstl HB HBok Hstok Hcand Hidx Hsl po (path_nodes p lf)
    ((fun bk => mkMetaBucket (block_meta <$> bk)) <$> B)) as Hload.
  assert (load_eviction_payloads_from_overlay p stash (path_nodes p lf)
    ((fun bk => mkMetaBucket (block_meta <$> bk)) <$> B) plan po = Ok (payload <$> C)) as Hl.
  { apply Hload; [by rewrite lenZ_fmap, HB, path_nodes_length|].
    apply Forall2_fmap_r, Forall_Forall2_diag, Forall_forall. intros n Hn.
    split; [by apply (overlay_of_lookup _ _ _ _ Hpo); auto|by apply HT]. }
  pose proof (ensure_ok p Hp stash B plan Hstl HB HBok Hcand Hidx Hsl Hgreedy Hpocc Hcap) as Hens.
  destruct (flags_split stash B plan Hsl) as (Hfl & Hfl1 & Hfl2).
  pose proof (clear_loop p stash B plan Hsl _ _ _ [] Hfl1 Hstok
    (stash_entries p stash B plan Hstl Hcand Hsl)) as Hclear.
  rewrite Hstl in Hclear. specialize (Hclear eq_refl). cbn [app] in Hclear.
  fold (cleared p stash plan) in Hclear.
  destruct (cleared_ok p Hp stash B plan Hstl Hstok Hsl) as [Hcl Hcok].
  pose proof (occ_cleared p _ _ Hfl1) as Hocl. fold (cleared p stash plan) in Hocl.
  pose proof (reinserts_le_cleared stash B plan Hsl Hgreedy Hpocc) as Hroom.
  pose proof (stash_occ_split stash B plan Hsl) as Hsplit. pose proof (length_occ stash) as Hos.
  destruct (reinsert_loop p stash B plan Hsl _ _ _ (cleared p stash plan) Hfl2 (B_ok p B HBok)
    (path_entries p Hp stash B plan HB HBok Hcand Hidx Hsl) Hcok) as (stash' & Ere & Hpre & Hlre & Hokre).
  { rewrite Hocl, Hcl. lia. }
  destruct (write_back_ok p Hp stash B plan HBok Hstok Hcand Hsl dom (path_nodes p lf) (placements plan)
    (meta_pages T) (payload_pages T) mo po 0 []) as (mo' & po' & Ewb & Hmo' & Hpo').
  { by apply Forall_forall. }
  { apply Forall2_same_length_lookup. pose proof (path_nodes_length p Hp lf).
    split; [unfold lenZ in *; lia|]. intros d n row Hd Hrow.
    split; [by eapply Forall_lookup_1 in Hrsz|]. eexists _, _. by apply (Hrok d); [lia|]. }
  { done. } { done. } { done. } { done. }
  assert (occ stash' ++ occ (concat (evicted_tree p lf T stash plan <$> path_nodes p lf)) ≡ₚ
    occ stash ++ occ (concat B)) as Hperm.
  { rewrite (evicted_tree_path p Hp lf Hlf T stash plan Hrl), occ_concat, <-list_fmap_compose.
    etransitivity; [apply Permutation_app_head; symmetry; exact Hpick|].
    rewrite <-occ_app. fold C. fold (flags plan).
    rewrite (picked_split (flags plan) C) at 2 by (unfold flags; by rewrite length_fmap).
    rewrite occ_app, (occ_all _ Hpocc), Permutation_app_comm. f_equiv.
    rewrite Hpre, Hocl. unfold C. rewrite Hfl, left_out_app, occ_app by done. apply Permutation_app_comm. }
  exists (evicted_tree p lf T stash plan), stash', mo', po'. split_and!.
  - unfold evict_path_in_overlays. cbn [fst snd].
    rewrite bind_lift, (metadata_ok p lf T HT dom mo Hdom Hmo), bind_lift, bind_gets, bind_lift. fold B.
    rewrite Eplan. unfold apply_eviction_plan_to_overlays. cbn [fst snd]. rewrite bind_gets, bind_lift, Hl, bind_lift, Hens.
    rewrite (bind_eq _ _ _ _ _ Hclear), (bind_eq _ _ _ _ _ Ere). unfold lift, write_back, enumerate. f_equal. exact Ewb.
  - eapply overlay_of_ext; [|exact Hmo']. intros n _. unfold meta_pages, evicted_tree. rewrite (pages_upd_compose meta_page).
    by rewrite <-list_fmap_compose.
  - eapply overlay_of_ext; [|exact Hpo']. intros n _. unfold payload_pages, evicted_tree. rewrite (pages_upd_compose payload_page).
    by rewrite <-list_fmap_compose.
  - intros n Hn. by apply pages_upd_not_elem.
  - intros n Hn. by apply evicted_tree_node.
  - split_and!; [by rewrite Hlre|done|]. apply Forall_forall. intros b Hb Ho.
    rewrite Forall_forall in Hleaf. apply Hleaf; [|done].
    assert (b ∈ occ stash ++ occ (concat B)) as Hin.
    { rewrite <-Hperm. apply elem_of_app. left. by apply elem_of_occ. }
    rewrite <-occ_app in Hin. by apply elem_of_occ in Hin as [].
  - exact Hperm.
  - rewrite Hpre, lenZ_app, Hocl. lia.
  - intros n b Hn Hroom' Hb. apply (evicted_tree_greedy p Hp lf Hlf T stash HT Hst plan n b Hinv Hn Hroom').
    fold B C. unfold C. rewrite Hfl, left_out_app, occ_app, Permutation_app_comm by done.
    rewrite Hpre, Hocl in Hb. exact Hb.
Qed.

End EvictPath.

(** ** Properties *)

(** C11: evicting a path neither loses, duplicates nor changes a block: the blocks
    of the stash and the path are redistributed over them, every block of a bucket
    lies on its own path, the rest of the tree is untouched, the stash never
    grows, and the placement is greedy: no block left in the stash would fit in a
    path bucket that still has a free slot. *)
Theorem eviction_preserves_blocks `{SL : SubtleLaws} (p : OramParams) lf T stash dom mo po :
  params_ok p -> fits p -> leaf_ok p lf -> (forall n, n ∈ path_nodes p lf -> n ∈ dom) ->
  (forall n, n ∈ path_nodes p lf -> node_ok p n (T n)) -> stash_ok p stash ->
  overlay_of (meta_pages T) dom mo -> overlay_of (payload_pages T) dom po ->
  exists T' stash' mo' po',
    evict_path_in_overlays p (path_nodes p lf) (mo, po) stash = (Ok (mo', po'), stash') /\
    overlay_of (meta_pages T') dom mo' /\ overlay_of (payload_pages T') dom po' /\
    (forall n, n ∉ path_nodes p lf -> T' n = T n) /\
    (forall n, n ∈ path_nodes p lf -> node_ok p n (T' n)) /\ stash_ok p stash' /\
    occ stash' ++ occ (concat (T' <$> path_nodes p lf)) ≡ₚ
      occ stash ++ occ (concat (T <$> path_nodes p lf)) /\
    lenZ (occ stash') <= lenZ (occ stash) /\
    (forall n b, n ∈ path_nodes p lf -> lenZ (occ (T' n)) < bucket_size p -> b ∈ occ stash' ->
       n ∉ path_nodes p (leaf b)).
Proof. intros. by apply evict_path_ok. Qed.

(** A tree of height 3 with one block in the root and one in the stash. *)
Definition evict_params : OramParams := mkParams 4 2 2 4 2.
Definition evict_tree (n : Z) : list OramBlock :=
  [if n =? 0 then mkBlock true 0 1 [1; 2] else block_dummy 2; block_dummy 2].
Definition evict_stash : list OramBlock := [mkBlock true 1 0 [3; 4]; block_dummy 2].
Definition evict_overlay (f : Z -> bytes) : overlay := <[0 := f 0]> (<[1 := f 1]> (<[4 := f 4]> ∅)).

Lemma evict_overlay_ok f : overlay_of f [0; 1; 4] (evict_overlay f).
Proof.
  intros n. unfold evict_overlay. rewrite !lookup_insert, lookup_empty.
  repeat case_decide; subst; try done; set_solver.
Qed.

Lemma evict_tree_ok n : n ∈ path_nodes evict_params 1 -> node_ok evict_params n (evict_tree n).
Proof.
  intros Hn. split.
  - split; [done|]. unfold evict_tree. destruct (n =? 0); repeat constructor; vm_compute; intuition discriminate.
  - intros b Hb Ho. unfold evict_tree in Hb. destruct (n =? 0) eqn:E; zbool.
    + subst n. repeat (apply elem_of_cons in Hb as [->|Hb]); [|done|by apply elem_of_nil in Hb].
      split; [vm_compute; intuition discriminate|exact Hn].
    + by repeat (apply elem_of_cons in Hb as [->|Hb]); [..|apply elem_of_nil in Hb].
Qed.

Lemma eviction_preserves_blocks_witness :
  exists stash' mo' po',
    @evict_path_in_overlays bool_subtle evict_params [0; 1; 4]
      (evict_overlay (meta_pages evict_tree), evict_overlay (payload_pages evict_tree)) evict_stash =
      (Ok (mo', po'), stash') /\ lenZ (occ stash') <= 1.
Proof.
  destruct (eviction_preserves_blocks (SL := bool_subtle_laws) evict_params 1 evict_tree evict_stash [0; 1; 4]
    (evict_overlay (meta_pages evict_tree)) (evict_overlay (payload_pages evict_tree)))
    as (T' & stash' & mo' & po' & E & _ & _ & _ & _ & _ & _ & Hle & _).
  - split; vm_compute; intuition discriminate.
  - vm_compute. discriminate.
  - vm_compute. intuition discriminate.
  - intros n Hn. exact Hn.
  - exact evict_tree_ok.
  - split; [reflexivity|]. split; repeat constructor; vm_compute; intuition discriminate.
  - apply evict_overlay_ok.
  - apply evict_overlay_ok.
  - exists stash', mo', po'. split; [exact E|exact Hle].
Defined.
