(* ===== verification/Rng.v ===== *)
(** * The random generator as an interface

    [rand_core] and [rand_chacha] are third-party: a generator is a state with
    [next_u64], [next_u32] and [from_seed].  No property of the stream is
    assumed; the programs' correctness must not depend on it. *)

From S2P Require Import Prelude Params.

Class Rng (R : Type) : Type := {
  next_u64 : R -> Z * R;
  next_u32 : R -> Z * R;
  from_seed : bytes -> R
}.

(** [random_leaf] ([circuit.rs]): the low bits of the next word. *)
Definition random_leaf {R} `{Rng R} (p : OramParams) : M R Z := fun rng =>
  let (word, rng') := next_u64 rng in
  (Ok (wrap 32 (Z.land word (leaves p - 1))), rng').

(** A concrete generator for concrete inputs: a counter. *)
#[export] Instance counter_rng : Rng Z := {|
  next_u64 := fun s => (s, s + 3);
  next_u32 := fun s => (s, s + 3);
  from_seed := fun seed => from_le seed
|}.

Section Lemmas.
Context {R} `{Rng R} (p : OramParams) (Hp : params_ok p).

Definition next_leaf (rng : R) : Z := Z.land (next_u64 rng).1 (leaves p - 1).

Lemma random_leaf_eq rng :
  random_leaf p rng = (Ok (next_leaf rng), (next_u64 rng).2) /\ leaf_ok p (next_leaf rng).
Proof.
  unfold random_leaf, next_leaf. destruct (next_u64 rng) as [w rng']. cbn [fst snd].
  pose proof (leaves_pos p Hp) as Hl. pose proof (ok_leaves p Hp) as Hlv. destruct (ok_bits p Hp).
  assert (0 <= Z.land w (leaves p - 1) < leaves p) as Hr.
  { replace (leaves p - 1) with (Z.ones (leaf_bits p)) by (rewrite Z.ones_equiv; lia).
    rewrite Z.land_ones by lia. rewrite Hlv. apply Z.mod_pos_bound. lia. }
  split; [|exact Hr]. rewrite wrap_small by lia. done.
Qed.

End Lemmas.
