(* ===== verification/State.v ===== *)
(** * Trusted controller state ([src/src/state.rs])

    The state records of the controller and of its authenticated stores. *)

From S2P Require Import Prelude Block Params Store Schedule.

(** The ASCII bytes of [BPCIRC01], [BPCIRCS1], [BPCSTA01] and [BPCSTAS1]. *)
Definition CIRCUIT_STATE_MAGIC : bytes := [66; 80; 67; 73; 82; 67; 48; 49].
Definition CIRCUIT_SEALED_STATE_MAGIC : bytes := [66; 80; 67; 73; 82; 67; 83; 49].
Definition CIRCUIT_STORE_AUTH_MAGIC : bytes := [66; 80; 67; 83; 84; 65; 48; 49].
Definition CIRCUIT_SEALED_STORE_AUTH_MAGIC : bytes := [66; 80; 67; 83; 84; 65; 83; 49].
Definition STATE_NONCE_LEN : Z := 12.

(** Mirror of [enum CircuitStoreAuthLayout]. *)
Inductive CircuitStoreAuthLayout : Type :=
| TieredMerkle (meta payload : TieredMerkleState)
| EmbeddedTree (meta payload : EmbeddedTreeState).

(** Mirror of [struct CircuitStoreAuthState]. *)
Record CircuitStoreAuthState : Type := mkAuth {
  auth_magic : bytes;
  layout : CircuitStoreAuthLayout
}.

#[global] Instance CircuitStoreAuthLayout_eq_dec : EqDecision CircuitStoreAuthLayout.
Proof. solve_decision. Defined.
#[global] Instance CircuitStoreAuthState_eq_dec : EqDecision CircuitStoreAuthState.
Proof. solve_decision. Defined.

(** [CircuitStoreAuthState::new], [new_embedded], [tiered_merkle], [embedded_tree] *)
Definition auth_new (meta payload : TieredMerkleState) : CircuitStoreAuthState :=
  mkAuth CIRCUIT_STORE_AUTH_MAGIC (TieredMerkle meta payload).
Definition auth_new_embedded (meta payload : EmbeddedTreeState) : CircuitStoreAuthState :=
  mkAuth CIRCUIT_STORE_AUTH_MAGIC (EmbeddedTree meta payload).
Definition auth_tiered_merkle (s : CircuitStoreAuthState) : option (TieredMerkleState * TieredMerkleState) :=
  match layout s with TieredMerkle m p => Some (m, p) | EmbeddedTree _ _ => None end.
Definition auth_embedded_tree (s : CircuitStoreAuthState) : option (EmbeddedTreeState * EmbeddedTreeState) :=
  match layout s with EmbeddedTree m p => Some (m, p) | TieredMerkle _ _ => None end.

(** Mirror of [struct CircuitOramState]; [R] is the generator's state. *)
Record CircuitOramState (R : Type) : Type := mkState {
  st_magic : bytes;
  st_params : OramParams;
  st_pos_map : list Z;
  st_stash : list OramBlock;
  st_rng : R;
  st_schedule : CircuitEvictionSchedule;
  st_auth : option CircuitStoreAuthState
}.
Arguments mkState {R}.
Arguments st_magic {R}. Arguments st_params {R}. Arguments st_pos_map {R}. Arguments st_stash {R}.
Arguments st_rng {R}. Arguments st_schedule {R}. Arguments st_auth {R}.

(** [CircuitOramState::new], [with_auth] *)
Definition state_new {R} (params : OramParams) (pos_map : list Z) (stash : list OramBlock) (rng : R)
    (schedule : CircuitEvictionSchedule) : CircuitOramState R :=
  mkState CIRCUIT_STATE_MAGIC params pos_map stash rng schedule None.
Definition with_auth {R} (s : CircuitOramState R) (auth : option CircuitStoreAuthState) : CircuitOramState R :=
  mkState (st_magic s) (st_params s) (st_pos_map s) (st_stash s) (st_rng s) (st_schedule s) auth.
