(* ===== verification/Circuit.v ===== *)
(** * The Circuit ORAM controller ([src/src/circuit.rs], [struct CircuitOram])

    The controller's state and its online operations, written over any pair of
    path stores, any generator and any [subtle] implementation. *)

From S2P Require Import Prelude Ct Block Params Store Schedule Bucket PosMap Stash Overlay Rng State Evict.

(** Mirror of [struct CircuitOram]. *)
Record CircuitOram (MS PS R : Type) : Type := mkOram {
  co_params : OramParams;
  meta_store : MS;
  payload_store : PS;
  pos_map : list Z;
  stash : list OramBlock;
  rng : R;
  schedule : CircuitEvictionSchedule
}.
Arguments mkOram {MS PS R}.
Arguments co_params {MS PS R}. Arguments meta_store {MS PS R}. Arguments payload_store {MS PS R}.
Arguments pos_map {MS PS R}. Arguments stash {MS PS R}. Arguments rng {MS PS R}.
Arguments schedule {MS PS R}.

Section Slots.
Context `{Subtle}.

(** [select_and_remove_target_slots] *)
Fixpoint select_and_remove_target_slots (ms : list CircuitMetaSlot) (ps : list bytes) (logical_id : Z)
    (selected : OramBlock) (removed : Choice)
    : list CircuitMetaSlot * list bytes * OramBlock * Choice :=
  match ms, ps with
  | m :: ms, pl :: ps =>
      let matched := and (meta_logical_id_choice m logical_id) (not removed) in
      let selected := cmov_block_from_meta_payload selected m pl matched in
      let m' := meta_clear_if m matched in
      let pl' := clear_payload_if pl matched in
      let '(ms', ps', selected', removed') :=
        select_and_remove_target_slots ms ps logical_id selected (or removed matched) in
      (m' :: ms', pl' :: ps', selected', removed')
  | _, _ => (ms, ps, selected, removed)
  end.

(** One page pair of a path: decode, select and remove, encode again. *)
Definition remove_from_page (p : OramParams) (logical_id : Z) (meta_buf payload_buf : bytes)
    (selected : OramBlock) (removed : Choice) : outcome (bytes * bytes * OramBlock * Choice) :=
  let? mb := meta_bucket_decode meta_buf (bucket_size p) in
  let? pb := payload_bucket_decode payload_buf (bucket_size p) (block_size p) in
  let '(ms, ps, selected, removed) :=
    select_and_remove_target_slots (mb_slots mb) (pb_slots pb) logical_id selected removed in
  let? meta_buf := meta_bucket_encode (mkMetaBucket ms) (bucket_size p) in
  let? payload_buf := payload_bucket_encode (mkPayloadBucket ps) (bucket_size p) (block_size p) in
  Ok (meta_buf, payload_buf, selected, removed).

(** The page loop of [read_and_remove_target_path]; [zip] stops at the shorter
    list and leaves the other pages as they are. *)
Fixpoint remove_from_pages (p : OramParams) (logical_id : Z) (meta_pages payload_pages : list bytes)
    (selected : OramBlock) (removed : Choice) : outcome (list bytes * list bytes * OramBlock) :=
  match meta_pages, payload_pages with
  | m :: meta_pages, pl :: payload_pages =>
      let? r := remove_from_page p logical_id m pl selected removed in
      let '(m', pl', selected, removed) := r in
      let? rest := remove_from_pages p logical_id meta_pages payload_pages selected removed in
      Ok (m' :: rest.1.1, pl' :: rest.1.2, rest.2)
  | _, _ => Ok (meta_pages, payload_pages, selected)
  end.

(** The page loop of [remove_target_from_overlays]. *)
Fixpoint remove_from_overlays (p : OramParams) (path : list Z) (logical_id : Z)
    (overlays : overlay * overlay) (selected : OramBlock) (removed : Choice)
    : outcome (overlay * overlay * OramBlock) :=
  match path with
  | [] => Ok (overlays, selected)
  | page_idx :: path =>
      match overlays.1 !! page_idx, overlays.2 !! page_idx with
      | Some m, Some pl =>
          let? r := remove_from_page p logical_id m pl selected removed in
          let '(m', pl', selected, removed) := r in
          remove_from_overlays p path logical_id
            (<[page_idx := m']> overlays.1, <[page_idx := pl']> overlays.2) selected removed
      | _, _ => Panic
      end
  end.

End Slots.

Section Controller.
Context `{Subtle} {MS PS R U : Type} `{PathPageStore MS} `{PathPageStore PS} `{Rng R}.
Local Abbreviation Oram := (CircuitOram MS PS R).

Definition set_meta_store (s : MS) (o : Oram) : Oram :=
  mkOram (co_params o) s (payload_store o) (pos_map o) (stash o) (rng o) (schedule o).
Definition set_payload_store (s : PS) (o : Oram) : Oram :=
  mkOram (co_params o) (meta_store o) s (pos_map o) (stash o) (rng o) (schedule o).
Definition set_pos_map (pm : list Z) (o : Oram) : Oram :=
  mkOram (co_params o) (meta_store o) (payload_store o) pm (stash o) (rng o) (schedule o).
Definition set_stash (st : list OramBlock) (o : Oram) : Oram :=
  mkOram (co_params o) (meta_store o) (payload_store o) (pos_map o) st (rng o) (schedule o).
Definition set_rng (r : R) (o : Oram) : Oram :=
  mkOram (co_params o) (meta_store o) (payload_store o) (pos_map o) (stash o) r (schedule o).
Definition set_schedule (s : CircuitEvictionSchedule) (o : Oram) : Oram :=
  mkOram (co_params o) (meta_store o) (payload_store o) (pos_map o) (stash o) (rng o) s.

Definition on_meta {A} (m : M MS A) : M Oram A := zoom meta_store set_meta_store m.
Definition on_payload {A} (m : M PS A) : M Oram A := zoom payload_store set_payload_store m.
Definition on_stash {A} (m : M (list OramBlock) A) : M Oram A := zoom stash set_stash m.
Definition on_rng {A} (m : M R A) : M Oram A := zoom rng set_rng m.
Definition on_schedule {A} (m : M CircuitEvictionSchedule A) : M Oram A := zoom schedule set_schedule m.

(** [CircuitOram::check_stash] on [self] *)
Definition self_check_stash : M Oram unit := fun o =>
  (check_stash (stash_capacity (co_params o)) (stash o), o).

(** [CircuitOram::read_and_remove_target_path] *)
Definition read_and_remove_target_path (lf logical_id : Z) : M Oram unit :=
  let* p := gets co_params in
  let path := path_nodes p lf in
  let* meta_pages := on_meta (pp_read_path_pages path) in
  let* payload_pages := on_payload (pp_read_path_pages path) in
  let* r := lift (remove_from_pages p logical_id meta_pages payload_pages
                    (block_dummy (block_size p)) (choice_from_bool false)) in
  let* _ := on_stash (insert_into_stash (stash_capacity p) r.2) in
  let* _ := on_meta (pp_write_path_pages path r.1.1) in
  on_payload (pp_write_path_pages path r.1.2).

(** [CircuitOram::remove_target_from_overlays] *)
Definition remove_target_from_overlays (path : list Z) (logical_id : Z) (overlays : overlay * overlay)
    : M Oram (overlay * overlay) :=
  let* p := gets co_params in
  let* r := lift (remove_from_overlays p path logical_id overlays
                    (block_dummy (block_size p)) (choice_from_bool false)) in
  let* _ := on_stash (insert_into_stash (stash_capacity p) r.2) in
  ret r.1.

(** [CircuitOram::read_and_rewrite_path] *)
Definition read_and_rewrite_path (lf : Z) : M Oram unit :=
  let* p := gets co_params in
  let path := path_nodes p lf in
  let* meta_pages := on_meta (pp_read_path_pages path) in
  let* payload_pages := on_payload (pp_read_path_pages path) in
  let* _ := on_meta (pp_write_path_pages path meta_pages) in
  on_payload (pp_write_path_pages path payload_pages).

(** The stash part of one access: look the block up, update it, record the
    access.  [access] and [access_batch] order the steps differently. *)
Definition lookup_in_stash (logical_id : Z) : M Oram bytes :=
  let* p := gets co_params in
  let* st := gets stash in
  let (output, found) := stash_lookup (block_size p) logical_id st in
  if unwrap_u8 (not found) =? 1 then fail (BlockNotFound logical_id) else ret output.

(** [CircuitOram::access]; [update] is the caller's [FnOnce(&mut [u8])]. *)
Definition access (logical_id : Z) (update : bytes -> bytes) : M Oram bytes :=
  let* p := gets co_params in
  let* _ := guardm (negb (logical_blocks p <=? logical_id)) (InvalidInput "logical_id {logical_id} out of range") in
  let* pm := gets pos_map in
  let old_leaf := scan_pos_map_lookup pm logical_id in
  let* _ := read_and_remove_target_path old_leaf logical_id in
  let* output := lookup_in_stash logical_id in
  let* new_leaf := on_rng (random_leaf p) in
  let* _ := modify (fun o => set_pos_map (scan_pos_map_update (pos_map o) logical_id new_leaf) o) in
  let new_payload := update output in
  let* _ := modify (fun o => set_stash (stash_update logical_id new_leaf new_payload (stash o)) o) in
  let* _ := on_schedule record_access in
  let* _ := self_check_stash in
  ret output.

(** [CircuitOram::read] *)
Definition read (logical_id : Z) : M Oram bytes := access logical_id (fun b => b).

(** [CircuitOram::dummy_access] *)
Definition dummy_access : M Oram unit :=
  let* p := gets co_params in
  let* lf := on_rng (random_leaf p) in
  let* _ := read_and_rewrite_path lf in
  let* _ := on_schedule record_access in
  self_check_stash.

(** Read both stores' pages of a batch of paths into overlays. *)
Definition read_overlays (paths : list (list Z)) : M Oram (overlay * overlay) :=
  let* p := gets co_params in
  let* meta_path_pages := on_meta (pp_read_paths_pages paths) in
  let* payload_path_pages := on_payload (pp_read_paths_pages paths) in
  let* mo := lift (overlay_path_pages paths meta_path_pages (circuit_meta_page_bytes (bucket_size p))) in
  let* po := lift (overlay_path_pages paths payload_path_pages
                     (circuit_payload_page_bytes (bucket_size p) (block_size p))) in
  ret (mo, po).

(** Write the overlays back to both stores. *)
Definition write_overlays (paths : list (list Z)) (overlays : overlay * overlay) : M Oram unit :=
  let* meta_write_pages := lift (collect_overlay_paths paths overlays.1) in
  let* payload_write_pages := lift (collect_overlay_paths paths overlays.2) in
  let* _ := on_meta (pp_write_paths_pages paths meta_write_pages) in
  on_payload (pp_write_paths_pages paths payload_write_pages).

(** [n] calls of [random_leaf] on a generator. *)
Fixpoint random_leaves (p : OramParams) (n : nat) : M R (list Z) :=
  match n with
  | O => ret []
  | S n => let* lf := random_leaf p in let* lfs := random_leaves p n in ret (lf :: lfs)
  end.

(** [CircuitOram::dummy_access_batch] *)
Definition dummy_access_batch (count : Z) : M Oram unit :=
  if count =? 0 then ret tt
  else
    let* p := gets co_params in
    let* leaves := on_rng (random_leaves p (Z.to_nat count)) in
    let paths := path_nodes p <$> leaves in
    let* overlays := read_overlays paths in
    let* _ := write_overlays paths overlays in
    let* _ := on_schedule (iterM (fun _ => record_access) (replicate (Z.to_nat count) tt)) in
    self_check_stash.

(** The access loop of [access_batch]; [update] is the caller's [FnMut(u64, &mut
    [u8])] with its captured state [U]. *)
Fixpoint batch_loop (update : U -> Z -> bytes -> U * bytes) (u : U)
    (accesses : list (Z * Z * list Z)) (overlays : overlay * overlay)
    : M Oram (list bytes * U * (overlay * overlay)) :=
  match accesses with
  | [] => ret ([], u, overlays)
  | (logical_id, new_leaf, path) :: accesses =>
      let* overlays := remove_target_from_overlays path logical_id overlays in
      let* output := lookup_in_stash logical_id in
      let (u, new_payload) := update u logical_id output in
      let* _ := modify (fun o => set_stash (stash_update logical_id new_leaf new_payload (stash o)) o) in
      let* _ := on_schedule record_access in
      let* rest := batch_loop update u accesses overlays in
      ret (output :: rest.1.1, rest.1.2, rest.2)
  end.

(** [CircuitOram::access_batch] *)
Definition access_batch (logical_ids : list Z) (update : U -> Z -> bytes -> U * bytes) (u : U)
    : M Oram (list bytes * U) :=
  if lenZ logical_ids =? 0 then ret ([], u)
  else
    let* p := gets co_params in
    let* _ := guardm (forallb (fun id => negb (logical_blocks p <=? id)) logical_ids)
                (InvalidInput "logical_id {logical_id} out of range") in
    let* pm := gets pos_map in
    let old_leaves := scan_pos_map_lookup_batch pm logical_ids in
    let* r := gets rng in
    let (new_leaves_o, next_rng) := random_leaves p (length logical_ids) r in
    let* new_leaves := lift new_leaves_o in
    let access_leaves := batch_access_leaves logical_ids old_leaves new_leaves in
    let paths := path_nodes p <$> access_leaves in
    let* overlays := read_overlays paths in
    let* res := batch_loop update u (zip (zip logical_ids new_leaves) paths) overlays in
    let* _ := modify (fun o => set_pos_map (scan_pos_map_update_batch (pos_map o) logical_ids new_leaves) o) in
    let* _ := modify (set_rng next_rng) in
    let* _ := write_overlays paths res.2 in
    let* _ := self_check_stash in
    ret (res.1.1, res.1.2).

(** The eviction loop of [drain_evictions]. *)
Fixpoint evict_paths (p : OramParams) (paths : list (list Z)) (overlays : overlay * overlay)
    : M (list OramBlock) (overlay * overlay) :=
  match paths with
  | [] => ret overlays
  | path :: paths =>
      let* overlays := evict_path_in_overlays p path overlays in
      evict_paths p paths overlays
  end.

(** [CircuitOram::drain_evictions] *)
Definition drain_evictions (budget : Z) : M Oram Z :=
  let* sch := gets schedule in
  let* pending := lift (pending_evictions sch) in
  let to_drain := Z.min budget pending in
  if to_drain =? 0 then ret 0
  else
    let* p := gets co_params in
    let start := completed_evictions sch in
    let leaves := (fun offset => eviction_leaf_at p (start + offset)) <$> seqZ 0 to_drain in
    let paths := path_nodes p <$> leaves in
    let* overlays := read_overlays paths in
    let* overlays := on_stash (evict_paths p paths overlays) in
    let* _ := write_overlays paths overlays in
    let* _ := on_schedule (iterM (fun _ => let* _ := complete_one_eviction in ret tt) leaves) in
    let* _ := self_check_stash in
    ret to_drain.

(** [CircuitOram::flush] *)
Definition flush : M Oram unit :=
  let* _ := on_meta pp_flush in on_payload pp_flush.

(** ** Opening and snapshotting *)

(** [validate_circuit_stores] *)
Definition validate_circuit_stores (p : OramParams) (ms : MS) (ps : PS) : outcome unit :=
  let? _ := guardo (pp_page_count ms =? bucket_count p)
              (InvalidInput "metadata store has {} pages, expected {}") in
  let? _ := guardo (pp_page_size ms =? circuit_meta_page_bytes (bucket_size p))
              (InvalidInput "metadata page_size {} != expected {}") in
  let? _ := guardo (pp_page_count ps =? bucket_count p)
              (InvalidInput "payload store has {} pages, expected {}") in
  guardo (pp_page_size ps =? circuit_payload_page_bytes (bucket_size p) (block_size p))
    (InvalidInput "payload page_size {} != expected {}").

(** [validate_circuit_state] *)
Definition validate_circuit_state (p : OramParams) (pm : list Z) (st : list OramBlock)
    (sch : CircuitEvictionSchedule) : outcome unit :=
  let? _ := guardo (lenZ pm =? logical_blocks p) (InvalidInput "pos_map len {} != logical_blocks {}") in
  let? _ := guardo (forallb (fun lf => negb (leaves p <=? lf)) pm)
              (InvalidInput "leaf {leaf} out of range") in
  let? _ := ofold (fun _ b =>
      let? _ := guardo (lenZ (payload b) =? block_size p)
                  (InvalidInput "stash payload len {} != block_size {}") in
      guardo (negb (occupied b && (leaves p <=? leaf b))) (InvalidInput "stash leaf {} out of range"))
    tt st in
  validate_for_params sch p.

(** [store_auth_state_from_stores] *)
Definition store_auth_state_from_stores (ms : MS) (ps : PS) : option CircuitStoreAuthState :=
  match pp_tiered_merkle_state ms, pp_tiered_merkle_state ps with
  | Some m, Some pl => Some (auth_new m pl)
  | _, _ =>
      match pp_embedded_tree_state ms, pp_embedded_tree_state ps with
      | Some m, Some pl => Some (auth_new_embedded m pl)
      | _, _ => None
      end
  end.

(** [validate_bound_auth_state] *)
Definition validate_bound_auth_state (expected : option CircuitStoreAuthState) (ms : MS) (ps : PS)
    : outcome unit :=
  match expected with
  | None => Ok tt
  | Some expected =>
      let? actual := ok_or (store_auth_state_from_stores ms ps)
        (InvalidInput "Circuit ORAM state is bound to auth roots but stores expose no auth state") in
      if decide (actual = expected) then Ok tt
      else Err (InvalidInput "Circuit ORAM auth roots do not match controller state")
  end.

(** [CircuitOram::from_state] *)
Definition from_state (ms : MS) (ps : PS) (s : CircuitOramState R) : outcome Oram :=
  let p := st_params s in
  let? _ := validate_circuit_stores p ms ps in
  let? _ := validate_circuit_state p (st_pos_map s) (st_stash s) (st_schedule s) in
  let? _ := validate_bound_auth_state (st_auth s) ms ps in
  let st := pad_stash (stash_capacity p) (block_size p) (st_stash s) in
  let oram := mkOram p ms ps (st_pos_map s) st (st_rng s) (st_schedule s) in
  let? _ := check_stash (stash_capacity p) st in
  Ok oram.

(** [CircuitOram::snapshot] *)
Definition snapshot (o : Oram) : CircuitOramState R :=
  with_auth (state_new (co_params o) (pos_map o) (stash o) (rng o) (schedule o))
    (store_auth_state_from_stores (meta_store o) (payload_store o)).

End Controller.

Section ReadBatch.
Context `{Subtle} {MS PS R : Type} `{PathPageStore MS} `{PathPageStore PS} `{Rng R}.

(** [CircuitOram::read_batch] *)
Definition read_batch (logical_ids : list Z) : M (CircuitOram MS PS R) (list bytes) :=
  let* res := access_batch logical_ids (fun (u : unit) _ pl => (u, pl)) tt in ret res.1.

End ReadBatch.
