(* ===== verification/Blocks.v ===== *)
(** * The blocks of an ORAM image

    The abstraction used by the controller's proofs: a stash and a tree of
    buckets hold, in any arrangement that keeps every block on its path, exactly
    the blocks of an array indexed by logical id.  The pure operations of an
    access (remove the block from its path, put it in the stash, update it) are
    related to the scans of the code and shown to preserve the abstraction. *)

From S2P Require Import Prelude Ct Block Params Store Bucket PosMap Stash Overlay Evict EvictPath Circuit.

(** ** The array behind an image *)

Definition arr_get (A : list bytes) (id : Z) : bytes := default [] (A !! Z.to_nat id).
Definition arr_set (A : list bytes) (id : Z) (pl : bytes) : list bytes := <[Z.to_nat id := pl]> A.

(** The real blocks of the array [A] under the position map [pm]. *)
Definition real_block (ilp : Z * (Z * bytes)) : OramBlock := mkBlock true ilp.1 ilp.2.1 ilp.2.2.
Definition real_blocks (pm : list Z) (A : list bytes) : list OramBlock :=
  real_block <$> enumerate (zip pm A).

(** All the slots of a tree. *)
Definition tree_blocks (p : OramParams) (T : Z -> list OramBlock) : list OramBlock :=
  concat (T <$> seqZ 0 (bucket_count p)).

(** The stash and the tree hold the array. *)
Record blocks_inv (p : OramParams) (pm : list Z) (A : list bytes) (stash : list OramBlock)
    (T : Z -> list OramBlock) : Prop := {
  bi_tree : forall n, in_range (bucket_count p) n -> node_ok p n (T n);
  bi_stash : stash_ok p stash;
  bi_pm : lenZ pm = logical_blocks p /\ Forall (leaf_ok p) pm;
  bi_arr : lenZ A = logical_blocks p;
  bi_blocks : occ stash ++ occ (tree_blocks p T) ≡ₚ real_blocks pm A
}.

Section Array.

Lemma insert_perm {A} (l : list A) i x y : l !! i = Some x -> x :: <[i:=y]> l ≡ₚ y :: l.
Proof.
  revert i. induction l as [|z l IH]; intros [|i] Hi; simplify_eq/=; [apply Permutation_swap|].
  rewrite Permutation_swap, (IH i) by done. apply Permutation_swap.
Qed.

Lemma lookup_real_blocks pm A k :
  real_blocks pm A !! k =
    match pm !! k, A !! k with
    | Some lf, Some pl => Some (mkBlock true (Z.of_nat k) lf pl)
    | _, _ => None
    end.
Proof.
  unfold real_blocks. rewrite list_lookup_fmap, lookup_enumerate, lookup_zip_with.
  destruct (pm !! k), (A !! k); done.
Qed.

Lemma elem_of_real_blocks pm A b :
  lenZ pm = lenZ A -> b ∈ real_blocks pm A ->
  0 <= logical_id b < lenZ A /\
  b = mkBlock true (logical_id b) (pm_get pm (logical_id b)) (arr_get A (logical_id b)).
Proof.
  intros Hl [k Hk]%list_elem_of_lookup. rewrite lookup_real_blocks in Hk.
  destruct (pm !! k) eqn:E1; [|done]. destruct (A !! k) eqn:E2; [|done]. simplify_eq/=.
  apply lookup_lt_Some in E2 as Hlt. unfold pm_get, arr_get. rewrite Nat2Z.id, E1, E2. unfold lenZ. split; [lia|done].
Qed.

Lemma real_block_in pm A id :
  lenZ pm = lenZ A -> 0 <= id < lenZ A ->
  real_blocks pm A !! Z.to_nat id = Some (mkBlock true id (pm_get pm id) (arr_get A id)).
Proof.
  intros Hl Hid. rewrite lookup_real_blocks. unfold pm_get, arr_get, lenZ in *.
  destruct (lookup_lt_is_Some_2 pm (Z.to_nat id)) as [lf ->]; [lia|].
  destruct (lookup_lt_is_Some_2 A (Z.to_nat id)) as [pl ->]; [lia|]. cbn [default]. by rewrite Z2Nat.id by lia.
Qed.

Lemma real_blocks_ids pm A : lenZ pm = lenZ A -> NoDup (logical_id <$> real_blocks pm A).
Proof.
  intros Hl. apply NoDup_alt. intros i j x Hi Hj. rewrite list_lookup_fmap, lookup_real_blocks in Hi, Hj.
  destruct (pm !! i), (A !! i), (pm !! j), (A !! j); simplify_eq/=. lia.
Qed.

Lemma real_blocks_set pm A id lf pl :
  lenZ pm = lenZ A -> 0 <= id < lenZ A ->
  real_blocks (pm_set pm (id, lf)) (arr_set A id pl) =
    <[Z.to_nat id := mkBlock true id lf pl]> (real_blocks pm A).
Proof.
  intros Hl Hid. apply list_eq. intros k. rewrite lookup_real_blocks. unfold pm_set, arr_set. cbn [fst snd].
  unfold lenZ in *. destruct (decide (Z.to_nat id = k)) as [<-|Hne].
  - rewrite !list_lookup_insert_eq by lia. rewrite list_lookup_insert_eq; [by rewrite Z2Nat.id by lia|].
    eapply lookup_lt_Some. apply real_block_in; unfold lenZ; lia.
  - rewrite !list_lookup_insert_ne by done. by rewrite lookup_real_blocks.
Qed.

Lemma arr_set_length A id pl : lenZ (arr_set A id pl) = lenZ A.
Proof. unfold arr_set, lenZ. by rewrite length_insert. Qed.
Lemma pm_set_length pm u : lenZ (pm_set pm u) = lenZ pm.
Proof. unfold pm_set, lenZ. by rewrite length_insert. Qed.

End Array.

(** ** Replacing the buckets of a path *)

Section Tree.
Context (p : OramParams).

Lemma tree_split (T : Z -> list OramBlock) path :
  NoDup path -> Forall (in_range (bucket_count p)) path ->
  tree_blocks p T ≡ₚ concat (T <$> path) ++
    concat (T <$> filter (fun n => n ∉ path) (seqZ 0 (bucket_count p))).
Proof.
  intros Hnd Hr. unfold tree_blocks. rewrite <-concat_app, <-fmap_app.
  assert (seqZ 0 (bucket_count p) ≡ₚ path ++ filter (fun n => n ∉ path) (seqZ 0 (bucket_count p))) as Hs.
  { apply NoDup_Permutation; [apply NoDup_seqZ| |].
    - apply NoDup_app. split_and!; [done| |apply NoDup_filter, NoDup_seqZ].
      intros n Hn [? _]%list_elem_of_filter. done.
    - intros n. rewrite elem_of_app, list_elem_of_filter, elem_of_seqZ. rewrite Forall_forall in Hr.
      unfold in_range in Hr. destruct (decide (n ∈ path)); [|tauto].
      split; [by left|]. intros _. specialize (Hr n ltac:(done)). lia. }
  rewrite <-!flat_map_concat_map. by apply Permutation_flat_map.
Qed.

Lemma tree_replace (T T' : Z -> list OramBlock) path x y :
  NoDup path -> Forall (in_range (bucket_count p)) path ->
  (forall n, n ∉ path -> T' n = T n) ->
  x ++ occ (concat (T' <$> path)) ≡ₚ y ++ occ (concat (T <$> path)) ->
  x ++ occ (tree_blocks p T') ≡ₚ y ++ occ (tree_blocks p T).
Proof.
  intros Hnd Hr Hout Hp. rewrite (tree_split T' path), (tree_split T path) by done.
  assert (T' <$> filter (fun n => n ∉ path) (seqZ 0 (bucket_count p)) =
          T <$> filter (fun n => n ∉ path) (seqZ 0 (bucket_count p))) as ->.
  { apply list_fmap_ext. intros k n Hk. apply Hout.
    apply list_elem_of_lookup_2, list_elem_of_filter in Hk as [? _]. done. }
  rewrite !occ_app, !app_assoc. by rewrite Hp.
Qed.

End Tree.

(** ** Removing the requested block from a path *)

Section Remove.
Context (bs : Z) (id : Z).

Fixpoint remove_bucket (bk : list OramBlock) (sel : OramBlock) (removed : bool)
    : list OramBlock * OramBlock * bool :=
  match bk with
  | [] => ([], sel, removed)
  | b :: bk =>
      let m := has_id id b && negb removed in
      let '(bk', sel', removed') := remove_bucket bk (if m then b else sel) (removed || m) in
      ((if m then block_dummy bs else b) :: bk', sel', removed')
  end.

Fixpoint remove_buckets (bks : list (list OramBlock)) (sel : OramBlock) (removed : bool)
    : list (list OramBlock) * OramBlock * bool :=
  match bks with
  | [] => ([], sel, removed)
  | bk :: bks =>
      let '(bk', sel, removed) := remove_bucket bk sel removed in
      let '(bks', sel', removed') := remove_buckets bks sel removed in
      (bk' :: bks', sel', removed')
  end.

Lemma remove_bucket_done bk sel : remove_bucket bk sel true = (bk, sel, true).
Proof. induction bk as [|b bk IH]; simpl; [done|]. rewrite andb_false_r. by rewrite IH. Qed.

Lemma remove_buckets_done bks sel : remove_buckets bks sel true = (bks, sel, true).
Proof. induction bks as [|b bks IH]; simpl; [done|]. by rewrite remove_bucket_done, IH. Qed.

(** Either no block has the id and nothing changes, or one such block leaves. *)
Definition removal (l l' : list OramBlock) (sel sel' : OramBlock) (removed : bool) : Prop :=
  if removed then has_id id sel' = true /\ sel' ∈ l /\ occ l ≡ₚ sel' :: occ l'
  else l' = l /\ sel' = sel /\ forall b, b ∈ l -> has_id id b = false.

Lemma remove_bucket_spec bk sel :
  let '(bk', sel', removed) := remove_bucket bk sel false in
  length bk' = length bk /\ (forall b, b ∈ bk' -> b ∈ bk \/ b = block_dummy bs) /\
  removal bk bk' sel sel' removed.
Proof.
  revert sel. induction bk as [|b bk IH]; intros sel; cbn [remove_bucket].
  { split_and!; [done|by left|]. split_and!; try done. by intros b ?%elem_of_nil. }
  cbn [orb negb]. rewrite andb_true_r. destruct (has_id id b) eqn:Hb.
  - rewrite remove_bucket_done. split_and!; [done| |].
    + intros b'. rewrite !elem_of_cons. tauto.
    + unfold has_id in Hb. apply andb_true_iff in Hb as Hb'. destruct Hb' as [Ho _].
      split_and!; [done|left|]. rewrite occ_cons_true, (occ_cons_false (block_dummy bs)) by done. done.
  - specialize (IH sel). destruct (remove_bucket bk sel false) as [[bk' sel'] removed].
    destruct IH as (Hl & Hin & Hrem). split_and!; [simpl; lia| |].
    + intros b'. rewrite !elem_of_cons. specialize (Hin b'). tauto.
    + unfold removal in *. destruct removed.
      * destruct Hrem as (? & ? & Hp). split_and!; [done|by right|].
        destruct (occupied b) eqn:Ho; [|by rewrite !occ_cons_false].
        rewrite !(occ_cons_true b), Hp by done. apply Permutation_swap.
      * destruct Hrem as (-> & -> & Hno). split_and!; [done..|].
        intros b' [->|?]%elem_of_cons; auto.
Qed.

Lemma remove_buckets_spec bks sel :
  let '(bks', sel', removed) := remove_buckets bks sel false in
  Forall2 (fun bk bk' => length bk' = length bk /\
             forall b, b ∈ bk' -> b ∈ bk \/ b = block_dummy bs) bks bks' /\
  removal (concat bks) (concat bks') sel sel' removed.
Proof.
  revert sel. induction bks as [|bk bks IH]; intros sel; cbn [remove_buckets].
  { split; [constructor|]. split_and!; try done. by intros b ?%elem_of_nil. }
  pose proof (remove_bucket_spec bk sel) as Hb.
  destruct (remove_bucket bk sel false) as [[bk' sel1] r1]. destruct Hb as (Hl & Hin & Hrem).
  destruct r1.
  - rewrite remove_buckets_done. split.
    + constructor; [done|]. apply Forall_Forall2_diag, Forall_true. auto.
    + destruct Hrem as (? & ? & Hp). cbn [concat]. unfold removal.
      rewrite !occ_app, Hp. split_and!; [done|apply elem_of_app; by left|done].
  - destruct Hrem as (-> & -> & Hno). specialize (IH sel).
    destruct (remove_buckets bks sel false) as [[bks' sel'] removed]. destruct IH as [IHf IHr].
    split; [by constructor|]. unfold removal in *. cbn [concat]. destruct removed.
    + destruct IHr as (? & ? & Hp). rewrite !occ_app, Hp.
      split_and!; [done|apply elem_of_app; by right|]. by rewrite Permutation_middle.
    + destruct IHr as (-> & -> & Hno'). split_and!; [done..|]. intros b [?|?]%elem_of_app; auto.
Qed.

End Remove.

Section RemoveScan.
Context `{SL : SubtleLaws} (p : OramParams) (Hp : params_ok p) (id : Z).
Local Abbreviation bs := (block_size p).
Local Abbreviation bsz := (bucket_size p).

Lemma remove_bucket_ok bk sel r :
  Forall (block_ok bs) bk -> block_ok bs sel ->
  let '(bk', sel', _) := remove_bucket bs id bk sel r in
  Forall (block_ok bs) bk' /\ length bk' = length bk /\ block_ok bs sel'.
Proof.
  intros Hbk. revert sel r. induction Hbk as [|b bk Hb _ IH]; intros sel r Hsel; cbn [remove_bucket]; [done|].
  specialize (IH (if has_id id b && negb r then b else sel) (r || has_id id b && negb r)).
  destruct (remove_bucket _ _ bk _ _) as [[bk' sel'] r'].
  destruct IH as (? & ? & ?); [by case_match|]. split_and!; [|simpl; lia|done].
  constructor; [|done]. case_match; [|done]. apply block_dummy_ok. destruct Hp. lia.
Qed.

Lemma remove_buckets_ok bks sel r :
  Forall (bucket_ok bsz bs) bks -> block_ok bs sel ->
  let '(bks', sel', _) := remove_buckets bs id bks sel r in
  Forall (bucket_ok bsz bs) bks' /\ length bks' = length bks /\ block_ok bs sel'.
Proof.
  intros Hbks. revert sel r. induction Hbks as [|bk bks [Hl Hbk] _ IH]; intros sel r Hsel; cbn [remove_buckets]; [done|].
  pose proof (remove_bucket_ok bk sel r Hbk Hsel) as Hb.
  destruct (remove_bucket bs id bk sel r) as [[bk' sel1] r1]. destruct Hb as (? & ? & Hs1).
  specialize (IH sel1 r1 Hs1). destruct (remove_buckets bs id bks sel1 r1) as [[bks' sel'] r'].
  destruct IH as (? & ? & ?). split_and!; [|simpl; lia|done]. constructor; [|done]. split; [unfold lenZ in *; lia|done].
Qed.

Lemma select_slots_eq bk sel (c : Choice) :
  Forall (block_ok bs) bk -> block_ok bs sel ->
  let '(bk', sel', r') := remove_bucket bs id bk sel (truth c) in
  exists c', select_and_remove_target_slots (block_meta <$> bk) (payload <$> bk) id sel c =
    (block_meta <$> bk', payload <$> bk', sel', c') /\ truth c' = r'.
Proof.
  intros Hbk. revert sel c. induction Hbk as [|b bk Hb _ IH]; intros sel c Hsel;
    cbn [remove_bucket fmap list_fmap select_and_remove_target_slots]; [by exists c|].
  set (m := and (meta_logical_id_choice (block_meta b) id) (not c)).
  assert (truth m = has_id id b && negb (truth c)) as Hm.
  { unfold m. rewrite truth_and, truth_not, truth_meta_logical_id_choice. done. }
  pose proof Hb as (_ & _ & Hlb & Hpb). pose proof Hsel as (_ & _ & Hls & _).
  rewrite cmov_block_from_meta_payload_truth by (unfold lenZ in *; lia).
  rewrite meta_block_meta, meta_clear_if_truth, clear_payload_truth, Hm by done.
  specialize (IH (if has_id id b && negb (truth c) then b else sel) (or c m)).
  rewrite truth_or, Hm in IH.
  destruct (remove_bucket _ _ bk _ _) as [[bk' sel'] r']. destruct IH as (c' & E & Hc'); [by case_match|].
  rewrite E. exists c'. split; [|done]. cbn [fmap list_fmap].
  destruct (has_id id b && negb (truth c)); [|done]. by rewrite Hlb, block_meta_dummy.
Qed.

Lemma remove_from_page_eq bk sel (c : Choice) :
  bucket_ok bsz bs bk -> block_ok bs sel ->
  let '(bk', sel', r') := remove_bucket bs id bk sel (truth c) in
  exists c', remove_from_page p id (meta_page bk) (payload_page bk) sel c =
    Ok (meta_page bk', payload_page bk', sel', c') /\ truth c' = r'.
Proof.
  intros [Hl Hbk] Hsel. pose proof (ok_bucket_size p Hp). pose proof (ok_block_size p Hp).
  pose proof (select_slots_eq bk sel c Hbk Hsel) as Hs.
  pose proof (remove_bucket_ok bk sel (truth c) Hbk Hsel) as Hok.
  destruct (remove_bucket bs id bk sel (truth c)) as [[bk' sel'] r'].
  destruct Hs as (c' & E & Hc'). destruct Hok as (Hbk' & Hl' & _). exists c'. split; [|done].
  unfold remove_from_page.
  rewrite (meta_decode_page bsz bs), payload_decode_page by done. cbn [obind mb_slots pb_slots]. rewrite E.
  assert (bucket_ok bsz bs bk') by (split; [unfold lenZ in *; lia|done]).
  rewrite (meta_encode_page bsz bs), payload_encode_page by done. done.
Qed.

Lemma remove_from_pages_eq bks sel (c : Choice) :
  Forall (bucket_ok bsz bs) bks -> block_ok bs sel ->
  let '(bks', sel', r') := remove_buckets bs id bks sel (truth c) in
  remove_from_pages p id (meta_page <$> bks) (payload_page <$> bks) sel c =
    Ok (meta_page <$> bks', payload_page <$> bks', sel').
Proof.
  intros Hbks. revert sel c. induction Hbks as [|bk bks Hbk _ IH]; intros sel c Hsel;
    cbn [remove_buckets fmap list_fmap remove_from_pages]; [done|].
  pose proof (remove_from_page_eq bk sel c Hbk Hsel) as Hpg.
  pose proof (remove_bucket_ok bk sel (truth c) (proj2 Hbk) Hsel) as Hok.
  destruct (remove_bucket bs id bk sel (truth c)) as [[bk' sel1] r1].
  destruct Hpg as (c1 & E & Hc1). destruct Hok as (_ & _ & Hsel1). rewrite E. cbn [obind].
  specialize (IH sel1 c1 Hsel1). rewrite Hc1 in IH.
  destruct (remove_buckets bs id bks sel1 r1) as [[bks' sel'] r']. rewrite IH. done.
Qed.

Lemma remove_from_overlays_eq dom path T sel (c : Choice) mo po :
  NoDup path -> (forall n, n ∈ path -> n ∈ dom) ->
  (forall n, n ∈ path -> bucket_ok bsz bs (T n)) -> block_ok bs sel ->
  overlay_of (meta_pages T) dom mo -> overlay_of (payload_pages T) dom po ->
  let '(bks', sel', r') := remove_buckets bs id (T <$> path) sel (truth c) in
  exists mo' po', remove_from_overlays p path id (mo, po) sel c = Ok ((mo', po'), sel') /\
    overlay_of (meta_pages (pages_upd path bks' T)) dom mo' /\
    overlay_of (payload_pages (pages_upd path bks' T)) dom po'.
Proof.
  intros Hnd. revert T sel c mo po. induction Hnd as [|n path Hn Hnd IH];
    intros T sel c mo po Hdom HT Hsel Hmo Hpo;
    cbn [remove_buckets fmap list_fmap remove_from_overlays fst snd]; [by exists mo, po|].
  rewrite (overlay_of_lookup _ _ _ _ Hmo), (overlay_of_lookup _ _ _ _ Hpo) by (apply Hdom; left).
  assert (bucket_ok bsz bs (T n)) as Hbk by (apply HT; left).
  pose proof (remove_from_page_eq (T n) sel c Hbk Hsel) as Hpg.
  pose proof (remove_bucket_ok (T n) sel (truth c) (proj2 Hbk) Hsel) as Hok.
  destruct (remove_bucket bs id (T n) sel (truth c)) as [[bk' sel1] r1].
  destruct Hpg as (c1 & E & Hc1). destruct Hok as (Hbk' & Hl' & Hsel1). unfold meta_pages at 1, payload_pages at 1.
  rewrite E. cbn [obind].
  specialize (IH (page_upd n bk' T) sel1 c1 (<[n := meta_page bk']> mo) (<[n := payload_page bk']> po)).
  assert (page_upd n bk' T <$> path = T <$> path) as Hsame.
  { apply list_fmap_ext. intros k i Hi. apply page_upd_ne. intros <-. by apply list_elem_of_lookup_2 in Hi. }
  rewrite Hsame, Hc1 in IH. cbn [pages_upd].
  destruct (remove_buckets bs id (T <$> path) sel1 r1) as [[bks' sel'] r']. apply IH.
  - intros i Hi. apply Hdom. by right.
  - intros i Hi. rewrite page_upd_ne by (intros <-; done). apply HT. by right.
  - done.
  - eapply overlay_of_ext; [|apply overlay_of_insert; [exact Hmo|apply Hdom; left]].
    intros i _. unfold meta_pages, page_upd. by case_match.
  - eapply overlay_of_ext; [|apply overlay_of_insert; [exact Hpo|apply Hdom; left]].
    intros i _. unfold payload_pages, page_upd. by case_match.
Qed.

End RemoveScan.

(** ** The effect of an access on the abstraction *)

Section Access.
Context `{SL : SubtleLaws} (p : OramParams) (Hp : params_ok p).
Local Abbreviation bs := (block_size p).
Local Abbreviation bsz := (bucket_size p).

Definition the_block (pm : list Z) (A : list bytes) (id : Z) : OramBlock :=
  mkBlock true id (pm_get pm id) (arr_get A id).

Lemma has_id_true id b : has_id id b = true <-> occupied b = true /\ logical_id b = id.
Proof. unfold has_id. rewrite andb_true_iff, Z.eqb_eq. done. Qed.

Section Facts.
Context (pm : list Z) (A : list bytes) (st : list OramBlock) (T : Z -> list OramBlock).
Context (Hinv : blocks_inv p pm A st T).

Lemma same_length : lenZ pm = lenZ A.
Proof. destruct Hinv as [_ _ [-> _] -> _]. done. Qed.

Lemma occupied_is_real b :
  b ∈ st \/ b ∈ tree_blocks p T -> occupied b = true ->
  0 <= logical_id b < lenZ A /\ b = the_block pm A (logical_id b).
Proof.
  intros Hb Ho. apply elem_of_real_blocks; [apply same_length|].
  rewrite <-(bi_blocks _ _ _ _ _ Hinv), elem_of_app, !elem_of_occ. tauto.
Qed.

Lemma pm_leaf_ok id : 0 <= id < lenZ A -> leaf_ok p (pm_get pm id).
Proof.
  intros Hid. rewrite <-same_length in Hid. destruct (bi_pm _ _ _ _ _ Hinv) as [_ Hpm].
  unfold pm_get, lenZ in *. destruct (lookup_lt_is_Some_2 pm (Z.to_nat id)) as [lf E]; [lia|]. rewrite E.
  cbn [default]. by eapply Forall_lookup_1 in Hpm.
Qed.

Lemma the_block_ok id : 0 <= id < lenZ A -> block_ok bs (the_block pm A id).
Proof.
  intros Hid. assert (the_block pm A id ∈ occ st ++ occ (tree_blocks p T)) as Hin.
  { rewrite (bi_blocks _ _ _ _ _ Hinv). eapply list_elem_of_lookup_2. apply real_block_in; [apply same_length|done]. }
  apply elem_of_app in Hin as [[_ Hin]%elem_of_occ|[_ Hin]%elem_of_occ].
  - destruct (bi_stash _ _ _ _ _ Hinv) as (_ & Hok & _). rewrite Forall_forall in Hok. auto.
  - apply elem_of_concat in Hin as (bk & Hbk & Hin). apply list_elem_of_fmap in Hbk as (n & -> & Hn%elem_of_seqZ).
    destruct (bi_tree _ _ _ _ _ Hinv n) as [[_ Hok] _]; [unfold in_range; lia|].
    rewrite Forall_forall in Hok. auto.
Qed.

Lemma the_block_where id :
  0 <= id < lenZ A ->
  the_block pm A id ∈ st \/ the_block pm A id ∈ concat (T <$> path_nodes p (pm_get pm id)).
Proof.
  intros Hid. assert (the_block pm A id ∈ occ st ++ occ (tree_blocks p T)) as Hin.
  { rewrite (bi_blocks _ _ _ _ _ Hinv). eapply list_elem_of_lookup_2. apply real_block_in; [apply same_length|done]. }
  apply elem_of_app in Hin as [[_ Hin]%elem_of_occ|[_ Hin]%elem_of_occ]; [by left|right].
  apply elem_of_concat in Hin as (bk & Hbk & Hin). apply list_elem_of_fmap in Hbk as (n & -> & Hn%elem_of_seqZ).
  destruct (bi_tree _ _ _ _ _ Hinv n) as [_ Hpl]; [unfold in_range; lia|].
  destruct (Hpl _ Hin eq_refl) as [_ Hnode]. apply elem_of_concat. exists (T n).
  split; [|done]. by apply list_elem_of_fmap_2.
Qed.

(** The occupied blocks of the stash have distinct ids. *)
Lemma stash_ids : NoDup (logical_id <$> occ st).
Proof.
  pose proof (real_blocks_ids pm A same_length) as Hnd.
  rewrite <-(bi_blocks _ _ _ _ _ Hinv), fmap_app in Hnd. by apply NoDup_app in Hnd as [? _].
Qed.

Lemma stash_unique id l b r :
  st = l ++ b :: r -> has_id id b = true -> forall b', b' ∈ l ++ r -> has_id id b' = false.
Proof.
  intros Hst [Ho Hid]%has_id_true b' Hb'. destruct (has_id id b') eqn:E; [|done].
  apply has_id_true in E as [Ho' Hid']. pose proof stash_ids as Hnd.
  rewrite Hst, occ_app, occ_cons_true, fmap_app, fmap_cons in Hnd by done.
  rewrite <-Permutation_middle, <-fmap_app, <-occ_app in Hnd.
  apply NoDup_cons in Hnd as [Hnin _]. destruct Hnin. rewrite Hid, <-Hid'.
  apply list_elem_of_fmap_2. by apply elem_of_occ.
Qed.

End Facts.

(** The ids the stash holds, and the stash after the block of [id] was fetched: one
    more slot is taken unless the block was there already. *)
Definition held_ids (st : list OramBlock) : list Z := logical_id <$> occ st.
Definition fetched (id : Z) (st st1 : list OramBlock) : Prop :=
  lenZ (occ st1) = lenZ (occ st) + (if decide (id ∈ held_ids st) then 0 else 1) /\
  (forall j, j ∈ held_ids st1 <-> j = id \/ j ∈ held_ids st).

Lemma fetched_le id st st1 : fetched id st st1 -> lenZ (occ st1) <= lenZ (occ st) + 1.
Proof. intros [-> _]. destruct (decide _); lia. Qed.

Lemma fetched_ids id st st1 st2 : fetched id st st1 -> held_ids st2 = held_ids st1 -> fetched id st st2.
Proof.
  intros [Hl Hin] E. split; [|intros j; rewrite E; apply Hin]. rewrite <-Hl.
  unfold lenZ. by rewrite <-(length_fmap logical_id (occ st2)), <-(length_fmap logical_id (occ st1)); unfold held_ids in E; rewrite E.
Qed.

Lemma held_in b st : occupied b = true -> b ∈ st -> logical_id b ∈ held_ids st.
Proof. intros Ho Hb. apply list_elem_of_fmap_2. by apply elem_of_occ. Qed.

(** A block found on a path is not in the stash. *)
Lemma tree_not_held pm A st T T1 b : blocks_inv p pm A st T ->
  occ [b] ++ occ (tree_blocks p T1) ≡ₚ occ (tree_blocks p T) -> occupied b = true -> logical_id b ∉ held_ids st.
Proof.
  intros Hinv Htree Ho Hin. pose proof (real_blocks_ids pm A (same_length _ _ _ _ Hinv)) as Hnd.
  rewrite <-(bi_blocks _ _ _ _ _ Hinv), <-Htree, occ_cons_true, fmap_app in Hnd by done.
  apply NoDup_app in Hnd as (_ & Hnd & _). apply (Hnd _ Hin). by left.
Qed.

(** Moving the block from its path to the stash. *)
Lemma fetch_spec pm A st T id :
  blocks_inv p pm A st T -> 0 <= id < lenZ A ->
  let path := path_nodes p (pm_get pm id) in
  let '(bks', sel, _) := remove_buckets bs id (T <$> path) (block_dummy bs) false in
  let T1 := pages_upd path bks' T in
  T1 <$> path = bks' /\ block_ok bs sel /\
  (forall n, n ∉ path -> T1 n = T n) /\
  (forall n, in_range (bucket_count p) n -> node_ok p n (T1 n)) /\
  occ [sel] ++ occ (tree_blocks p T1) ≡ₚ occ (tree_blocks p T) /\
  (occupied sel = true -> sel = the_block pm A id) /\
  (occupied sel = false -> the_block pm A id ∈ st).
Proof.
  intros Hinv Hid path. pose proof (pm_leaf_ok _ _ _ _ Hinv id Hid) as Hlf.
  assert (forall n, n ∈ path -> in_range (bucket_count p) n) as Hr.
  { intros n Hn. by apply (path_nodes_range p Hp _ n Hlf). }
  assert (Forall (bucket_ok bsz bs) (T <$> path)) as Hbks.
  { apply Forall_fmap, Forall_forall. intros n Hn. apply (bi_tree _ _ _ _ _ Hinv). auto. }
  pose proof (dummy_ok p Hp) as Hd.
  pose proof (remove_buckets_spec bs id (T <$> path) (block_dummy bs)) as Hspec.
  pose proof (remove_buckets_ok p Hp id (T <$> path) (block_dummy bs) false Hbks Hd) as Hok.
  destruct (remove_buckets bs id (T <$> path) (block_dummy bs) false) as [[bks' sel] removed].
  destruct Hspec as [HF Hrem]. destruct Hok as (Hbks' & Hlen & Hsel).
  pose proof (path_nodes_NoDup p Hp _ Hlf) as Hnd. fold path in Hnd. rewrite length_fmap in Hlen.
  set (T1 := pages_upd path bks' T).
  assert (T1 <$> path = bks') as HT1.
  { apply list_eq. intros k. rewrite list_lookup_fmap. destruct (path !! k) as [n|] eqn:En; simpl.
    - destruct (bks' !! k) as [bk'|] eqn:Ek; [f_equal; by apply (pages_upd_lookup _ _ _ k)|].
      apply lookup_ge_None in Ek. apply lookup_lt_Some in En. lia.
    - symmetry. apply lookup_ge_None. apply lookup_ge_None in En. lia. }
  assert (forall n, n ∉ path -> T1 n = T n) as Hout by (intros; by apply pages_upd_not_elem).
  split_and!; [done|done|done| | | |].
  - intros n Hn. destruct (decide (n ∈ path)) as [Hin|]; [|rewrite Hout by done; by apply (bi_tree _ _ _ _ _ Hinv)].
    apply list_elem_of_lookup in Hin as [k Hk].
    destruct (bks' !! k) as [bk'|] eqn:Ek; [|apply lookup_ge_None in Ek; apply lookup_lt_Some in Hk; lia].
    assert (T1 n = bk') as -> by by apply (pages_upd_lookup _ _ _ k).
    split; [by eapply Forall_lookup_1 in Hbks'|]. intros b Hb Ho.
    eapply Forall2_lookup_lr in HF as [_ HF]; [|by rewrite list_lookup_fmap, Hk|exact Ek].
    destruct (HF b Hb) as [HbT| ->]; [|done]. destruct (bi_tree _ _ _ _ _ Hinv n Hn) as [_ Hpl]. by apply Hpl.
  - rewrite <-(app_nil_l (occ (tree_blocks p T))). apply (tree_replace p T T1 path); [done| |done|].
    + by apply Forall_forall.
    + rewrite HT1. unfold removal in Hrem. destruct removed.
      * destruct Hrem as ([Ho _]%has_id_true & _ & Hperm). rewrite occ_cons_true by done. by rewrite Hperm.
      * destruct Hrem as (-> & -> & _). done.
  - intros Ho. unfold removal in Hrem. destruct removed; [|by destruct Hrem as (_ & -> & _)].
    destruct Hrem as ([_ Hsid]%has_id_true & Hin & _). rewrite <-Hsid.
    eapply occupied_is_real; [exact Hinv| |done]. right.
    apply elem_of_concat in Hin as (bk & Hbk & Hin). apply list_elem_of_fmap in Hbk as (n & -> & Hn).
    apply elem_of_concat. exists (T n). split; [|done]. apply list_elem_of_fmap_2, elem_of_seqZ.
    specialize (Hr n Hn). unfold in_range in Hr. lia.
  - intros Ho. unfold removal in Hrem. destruct removed.
    { destruct Hrem as ([Ho' _]%has_id_true & _). congruence. }
    destruct Hrem as (_ & _ & Hno). destruct (the_block_where _ _ _ _ Hinv id Hid) as [?|Hin]; [done|].
    specialize (Hno _ Hin). unfold has_id, the_block in Hno. cbn [occupied logical_id] in Hno.
    by rewrite Z.eqb_refl in Hno.
Qed.

(** The stash after the insertion of the removed block. *)
Lemma fetch_insert pm A st T T1 sel id :
  blocks_inv p pm A st T -> 0 <= id < lenZ A ->
  (forall n, in_range (bucket_count p) n -> node_ok p n (T1 n)) ->
  occ [sel] ++ occ (tree_blocks p T1) ≡ₚ occ (tree_blocks p T) ->
  block_ok bs sel -> (occupied sel = true -> sel = the_block pm A id) ->
  (occupied sel = false -> the_block pm A id ∈ st) ->
  match (if occupied sel then insert_first sel st else Some st) with
  | Some st1 =>
      insert_into_stash (stash_capacity p) sel st = (Ok tt, st1) /\
      blocks_inv p pm A st1 T1 /\ the_block pm A id ∈ st1 /\ fetched id st st1
  | None =>
      insert_into_stash (stash_capacity p) sel st =
        (Err (StashOverflow (stash_capacity p + 1) (stash_capacity p)), st) /\
      lenZ (occ st) = stash_capacity p /\ id ∉ held_ids st
  end.
Proof.
  intros Hinv Hid HT1 Htree Hsel Hocc Hfree.
  pose proof (bi_stash _ _ _ _ _ Hinv) as (Hl & Hok & Hleaf).
  rewrite (insert_into_stash_spec bs) by (done || apply Hsel).
  destruct (occupied sel) eqn:Ho.
  - pose proof (tree_not_held _ _ _ _ _ sel Hinv Htree Ho) as Hnew. rewrite (Hocc eq_refl) in Hnew. cbn [logical_id the_block] in Hnew.
    destruct (insert_first sel st) as [st1|] eqn:Ei.
    2: { split; [done|]. apply insert_first_None in Ei. by rewrite Ei, Hl. }
    destruct (insert_first_Some sel st st1 Ho Ei) as [Hperm Hlen]. split_and!; [done| | |].
    + destruct Hinv as [Ht Hs Hpm HA Hbl]. split; try done.
      * split_and!; [unfold lenZ in *; lia|by eapply insert_first_Forall|].
        eapply insert_first_Forall; [|exact Hleaf|exact Ei]. intros _. rewrite (Hocc eq_refl).
        apply (pm_leaf_ok pm A st T); [by split|done].
      * rewrite Hperm, <-Hbl, <-Htree, (occ_cons_true sel) by done. cbn [app]. apply Permutation_middle.
    + rewrite <-(Hocc eq_refl). assert (sel ∈ occ st1) as Hin by (rewrite Hperm; left).
      by apply elem_of_occ in Hin as [].
    + split; [rewrite Hperm, lenZ_cons; destruct (decide _); [done|lia]|].
      intros j. unfold held_ids. rewrite Hperm, fmap_cons, elem_of_cons, (Hocc eq_refl). done.
  - pose proof (held_in (the_block pm A id) st eq_refl (Hfree eq_refl)) as Hheld. cbn [logical_id the_block] in Hheld.
    split_and!; [done| |by apply Hfree|split; [destruct (decide _); [lia|done]|intros j; naive_solver]].
    destruct Hinv as [Ht Hs Hpm HA Hbl]. split; try done.
    rewrite <-Hbl, <-Htree, occ_cons_false by done. done.
Qed.

(** Reading and updating the block in the stash. *)
Lemma lookup_the_block pm A st T id :
  blocks_inv p pm A st T -> 0 <= id < lenZ A -> the_block pm A id ∈ st ->
  (stash_lookup bs id st).1 = arr_get A id /\ truth (stash_lookup bs id st).2 = true.
Proof.
  intros Hinv Hid Hin. apply list_elem_of_split in Hin as (l & r & Hst).
  assert (has_id id (the_block pm A id) = true) as Hh by by apply has_id_true.
  pose proof (bi_stash _ _ _ _ _ Hinv) as (_ & Hok & _).
  pose proof (stash_unique _ _ _ _ Hinv id l _ r Hst Hh) as Huniq. rewrite Hst in Hok |- *.
  destruct (stash_lookup_split bs id l (the_block pm A id) r) as [E1 E2]; [destruct Hp; lia|done..|].
  by rewrite E1, E2.
Qed.

Lemma update_the_block pm A st T id nl np :
  blocks_inv p pm A st T -> 0 <= id < lenZ A -> the_block pm A id ∈ st ->
  leaf_ok p nl -> lenZ np = bs -> bytes_ok np ->
  blocks_inv p (pm_set pm (id, nl)) (arr_set A id np) (stash_update id nl np st) T /\
  held_ids (stash_update id nl np st) = held_ids st.
Proof.
  intros Hinv Hid Hin Hnl Hnp Hnpb. apply list_elem_of_split in Hin as (l & r & Hst).
  assert (has_id id (the_block pm A id) = true) as Hh by by apply has_id_true.
  pose proof (bi_stash _ _ _ _ _ Hinv) as (Hl & Hok & Hleaf).
  pose proof (stash_unique _ _ _ _ Hinv id l _ r Hst Hh) as Huniq.
  pose proof (same_length _ _ _ _ Hinv) as Hsl.
  pose proof (the_block_ok _ _ _ _ Hinv id Hid) as (Hidok & _).
  set (nb := mkBlock true id nl np).
  assert (stash_update id nl np st = l ++ nb :: r) as Hupd.
  { rewrite (stash_update_eq bs) by done. rewrite Hst, fmap_app, fmap_cons, Hh. f_equal; [|f_equal].
    - rewrite <-(list_fmap_id l) at 2. apply list_fmap_ext. intros k b Hb. rewrite Huniq; [done|].
      apply elem_of_app. left. by eapply list_elem_of_lookup_2.
    - rewrite <-(list_fmap_id r) at 2. apply list_fmap_ext. intros k b Hb. rewrite Huniq; [done|].
      apply elem_of_app. right. by eapply list_elem_of_lookup_2. }
  rewrite Hupd. rewrite Hst in Hl, Hok, Hleaf. split.
  2: { unfold held_ids. by rewrite Hst, !occ_app, !occ_cons_true, !fmap_app by done. }
  destruct Hinv as [Ht Hs [Hpml Hpm] HA Hbl]. split.
  - done.
  - split_and!.
    + rewrite <-Hl. by rewrite !lenZ_app, !lenZ_cons.
    + apply Forall_app in Hok as [Hol [Hob Hor]%Forall_cons]. apply Forall_app; split; [done|].
      apply Forall_cons; split; [|done]. split_and!; simpl; [exact Hidok|by apply (leaf_ok_u32 p Hp)|done|done].
    + apply Forall_app in Hleaf as [Hol [Hob Hor]%Forall_cons]. apply Forall_app; split; [done|].
      apply Forall_cons; split; [|done]. by intros _.
  - rewrite pm_set_length. split; [done|]. unfold pm_set. by apply Forall_insert.
  - by rewrite arr_set_length.
  - rewrite real_blocks_set by done.
    apply (Permutation_cons_inv (a := the_block pm A id)).
    etransitivity; [|symmetry; apply insert_perm, real_block_in; done].
    fold nb. rewrite <-Hbl, Hst, !occ_app, (occ_cons_true nb), (occ_cons_true (the_block pm A id)) by done.
    rewrite <-!app_assoc. cbn [app]. rewrite <-!Permutation_middle. apply Permutation_swap.
Qed.

End Access.
