(* ===== verification/CircuitInv.v ===== *)
(** * The controller's invariant and its single-path operations

    [oram_inv o A T]: the controller [o] stores the array [A] of payloads, with
    the buckets [T] encoded in its two stores.  [access] and [dummy_access] are
    proved against it, for any lawful stores. *)

From S2P Require Import Prelude Ct Block Params Store Schedule Bucket PosMap Stash Overlay Rng State Evict.
From S2P Require Import EvictPath Circuit Blocks.

(** A store of the tree's shape that holds the pages [f]. *)
Definition store_holds {S} `{LawfulPathStore S} (p : OramParams) (size : Z) (f : Z -> bytes) (s : S) : Prop :=
  pp_ok s /\ pp_page_count s = bucket_count p /\ pp_page_size s = size /\
  forall n, in_range (bucket_count p) n -> pp_content s n = f n.

Section Stores.
Context {S : Type} `{LawfulPathStore S} (p : OramParams) (Hp : params_ok p) (size : Z).

Lemma holds_next f g (s s' : S) :
  store_holds p size f s -> pp_next s g s' -> store_holds p size g s'.
Proof. intros (? & Hc & Hs & _) (? & Hs' & Hc' & Hg). unfold store_holds. split_and!; [done|congruence|congruence|]. by rewrite <-Hc. Qed.

Lemma holds_ext f g (s : S) :
  (forall n, in_range (bucket_count p) n -> f n = g n) -> store_holds p size f s -> store_holds p size g s.
Proof. intros Hfg (? & ? & ? & Hf). unfold store_holds. split_and!; try done. intros n Hn. rewrite Hf; auto. Qed.

Lemma holds_path f (s : S) lf : store_holds p size f s -> leaf_ok p lf ->
  tree_path (pp_page_count s) (path_nodes p lf) /\ (pp_content s <$> path_nodes p lf) = f <$> path_nodes p lf.
Proof.
  intros (_ & -> & _ & Hf) Hlf. split; [by apply path_nodes_tree_path|].
  apply list_fmap_ext. intros k n Hn. apply Hf. apply (path_nodes_range p Hp _ _ Hlf).
  by eapply list_elem_of_lookup_2.
Qed.

Lemma holds_paths f (s : S) lfs : store_holds p size f s -> Forall (leaf_ok p) lfs ->
  Forall (tree_path (pp_page_count s)) (path_nodes p <$> lfs) /\
  (fun path : list Z => pp_content s <$> path) <$> (path_nodes p <$> lfs) =
    (fun path : list Z => f <$> path) <$> (path_nodes p <$> lfs).
Proof.
  intros Hs Hlfs. split.
  - apply Forall_fmap. eapply Forall_impl; [exact Hlfs|]. intros lf Hlf. by eapply holds_path.
  - rewrite <-!list_fmap_compose. apply list_fmap_ext. intros k lf Hk.
    eapply Forall_lookup_1 in Hlfs; [|exact Hk]. by apply (holds_path f s lf).
Qed.

Lemma read_path_holds f (s : S) lf :
  store_holds p size f s -> leaf_ok p lf ->
  exists s', pp_read_path_pages (path_nodes p lf) s = (Ok (f <$> path_nodes p lf), s') /\ store_holds p size f s'.
Proof.
  intros Hs Hlf. destruct (holds_path f s lf Hs Hlf) as [Hpath Hf].
  destruct (pp_read_path_pages_ok s _ (proj1 Hs) Hpath) as (s' & E & Hn). exists s'. rewrite <-Hf. split; [done|].
  eapply holds_ext; [|by eapply holds_next]. intros n Hr. by apply Hs.
Qed.

Lemma write_path_holds f g (s : S) lf :
  store_holds p size f s -> leaf_ok p lf -> (forall n, n ∉ path_nodes p lf -> g n = f n) ->
  (forall n, n ∈ path_nodes p lf -> page_ok size (g n)) ->
  exists s', pp_write_path_pages (path_nodes p lf) (g <$> path_nodes p lf) s = (Ok tt, s') /\ store_holds p size g s'.
Proof.
  intros Hs Hlf Hout Hg. destruct (holds_path f s lf Hs Hlf) as [Hpath _].
  pose proof Hs as (Hok & Hc & Hsz & Hf).
  destruct (pp_write_path_pages_ok s (path_nodes p lf) (g <$> path_nodes p lf) Hok Hpath) as (s' & E & Hn).
  { rewrite Hsz. apply Forall_fmap, Forall_forall. exact Hg. }
  { by rewrite length_fmap. }
  exists s'. split; [done|]. eapply holds_ext; [|by eapply holds_next]. intros n Hr. rewrite pages_upd_fmap.
  case_decide; [done|]. by rewrite Hf, Hout.
Qed.

Lemma read_paths_holds f (s : S) lfs :
  store_holds p size f s -> Forall (leaf_ok p) lfs ->
  exists s', pp_read_paths_pages (path_nodes p <$> lfs) s =
    (Ok ((fun path : list Z => f <$> path) <$> (path_nodes p <$> lfs)), s') /\ store_holds p size f s'.
Proof.
  intros Hs Hlfs. destruct (holds_paths f s lfs Hs Hlfs) as [Hpath Hf].
  destruct (pp_read_paths_pages_ok s _ (proj1 Hs) Hpath) as (s' & E & Hn). exists s'. rewrite <-Hf. split; [done|].
  eapply holds_ext; [|by eapply holds_next]. intros n Hr. by apply Hs.
Qed.

Lemma write_paths_holds f g (s : S) lfs :
  store_holds p size f s -> Forall (leaf_ok p) lfs ->
  (forall n, n ∉ concat (path_nodes p <$> lfs) -> g n = f n) ->
  (forall n, n ∈ concat (path_nodes p <$> lfs) -> page_ok size (g n)) ->
  exists s', pp_write_paths_pages (path_nodes p <$> lfs)
      ((fun path : list Z => g <$> path) <$> (path_nodes p <$> lfs)) s = (Ok tt, s') /\ store_holds p size g s'.
Proof.
  intros Hs Hlfs Hout Hg. destruct (holds_paths f s lfs Hs Hlfs) as [Hpath _].
  pose proof Hs as (Hok & Hc & Hsz & Hf).
  destruct (pp_write_paths_pages_ok s (path_nodes p <$> lfs)
    ((fun path : list Z => g <$> path) <$> (path_nodes p <$> lfs)) Hok Hpath) as (s' & E & Hn).
  { rewrite Hsz. apply Forall_fmap, Forall_forall. intros path Hin. apply Forall_fmap, Forall_forall.
    intros n Hn. apply Hg, elem_of_concat. eauto. }
  { apply Forall2_fmap_r, Forall_Forall2_diag, Forall_true. intros path. symmetry. apply length_fmap. }
  exists s'. split; [done|]. eapply holds_ext; [|by eapply holds_next]. intros n Hr. rewrite paths_upd_fmap.
  case_decide; [done|]. by rewrite Hf, Hout.
Qed.

End Stores.

Section Inv.
Context `{SL : SubtleLaws} {MS PS R : Type}.
Context `{LM : LawfulPathStore MS} `{LP : LawfulPathStore PS} `{Rng R}.
Local Abbreviation Oram := (CircuitOram MS PS R).

(** The stores encode the tree [T]. *)
Definition stores_inv (p : OramParams) (T : Z -> list OramBlock) (ms : MS) (ps : PS) : Prop :=
  store_holds p (circuit_meta_page_bytes (bucket_size p)) (meta_pages T) ms /\
  store_holds p (circuit_payload_page_bytes (bucket_size p) (block_size p)) (payload_pages T) ps.

Record oram_inv (o : Oram) (A : list bytes) (T : Z -> list OramBlock) : Prop := {
  oi_params : params_ok (co_params o);
  oi_fits : fits (co_params o);
  oi_stores : stores_inv (co_params o) T (meta_store o) (payload_store o);
  oi_blocks : blocks_inv (co_params o) (pos_map o) A (stash o) T;
  oi_schedule : schedule_ok (schedule o);
  oi_bits : sch_leaf_bits (schedule o) = leaf_bits (co_params o)
}.

(** The update closures: slices keep their length. *)
Definition good_update (p : OramParams) (update : bytes -> bytes) : Prop :=
  forall pl, lenZ pl = block_size p -> bytes_ok pl ->
    lenZ (update pl) = block_size p /\ bytes_ok (update pl).

(** Everything of the controller but its stores. *)
Definition same_but_stores (o o' : Oram) : Prop :=
  co_params o' = co_params o /\ pos_map o' = pos_map o /\ stash o' = stash o /\
  rng o' = rng o /\ schedule o' = schedule o.

Lemma on_meta_eq {A} (m : M MS A) (o : Oram) r s' :
  m (meta_store o) = (r, s') -> on_meta m o = (r, set_meta_store s' o).
Proof. apply zoom_eq. Qed.
Lemma on_payload_eq {A} (m : M PS A) (o : Oram) r s' :
  m (payload_store o) = (r, s') -> on_payload m o = (r, set_payload_store s' o).
Proof. apply zoom_eq. Qed.
Lemma on_stash_eq {A} (m : M (list OramBlock) A) (o : Oram) r s' :
  m (stash o) = (r, s') -> on_stash m o = (r, set_stash s' o).
Proof. apply zoom_eq. Qed.
Lemma on_rng_eq {A} (m : M R A) (o : Oram) r s' :
  m (rng o) = (r, s') -> on_rng m o = (r, set_rng s' o).
Proof. apply zoom_eq. Qed.
Lemma on_schedule_eq {A} (m : M CircuitEvictionSchedule A) (o : Oram) r s' :
  m (schedule o) = (r, s') -> on_schedule m o = (r, set_schedule s' o).
Proof. apply zoom_eq. Qed.

Section Facts.
Context (p : OramParams) (Hp : params_ok p).

Lemma meta_pages_ok T n : node_ok p n (T n) -> page_ok (circuit_meta_page_bytes (bucket_size p)) (meta_pages T n).
Proof.
  intros [Hb _]. split; [by apply (meta_page_length (bucket_size p) (block_size p))|apply meta_page_ok].
Qed.
Lemma payload_pages_ok T n :
  node_ok p n (T n) -> page_ok (circuit_payload_page_bytes (bucket_size p) (block_size p)) (payload_pages T n).
Proof.
  intros [Hb _]. split; [by apply payload_page_length|by apply (payload_page_ok (bucket_size p) (block_size p))].
Qed.

End Facts.

(** [read_and_remove_target_path]: the block moves to the stash, or the stash is
    full and nothing changes. *)
Lemma read_and_remove_spec (o : Oram) A T id :
  oram_inv o A T -> 0 <= id < lenZ A ->
  let p := co_params o in
  let lf := pm_get (pos_map o) id in
  (exists o' T', read_and_remove_target_path lf id o = (Ok tt, o') /\
     oram_inv o' A T' /\ the_block (pos_map o) A id ∈ stash o' /\
     co_params o' = p /\ pos_map o' = pos_map o /\ rng o' = rng o /\ schedule o' = schedule o /\
     fetched id (stash o) (stash o')) \/
  ((lenZ (occ (stash o)) = stash_capacity p /\ id ∉ held_ids (stash o)) /\
   exists o', read_and_remove_target_path lf id o =
       (Err (StashOverflow (stash_capacity p + 1) (stash_capacity p)), o') /\
     oram_inv o' A T /\ same_but_stores o o').
Proof.
  intros [Hp Hfit [Hms Hps] Hbl Hsch Hbits] Hid p lf.
  pose proof (pm_leaf_ok p _ _ _ _ Hbl id Hid) as Hlf. fold lf in Hlf.
  unfold read_and_remove_target_path. rewrite bind_gets. fold p.
  destruct (read_path_holds p Hp _ _ _ lf Hms Hlf) as (ms1 & Em1 & Hms1).
  destruct (read_path_holds p Hp _ _ _ lf Hps Hlf) as (ps1 & Ep1 & Hps1).
  rewrite (bind_eq _ _ _ _ _ (on_meta_eq _ _ _ _ Em1)).
  erewrite (bind_eq (on_payload _)) by (apply on_payload_eq; exact Ep1).
  pose proof (dummy_ok p Hp) as Hd.
  assert (Forall (bucket_ok (bucket_size p) (block_size p)) (T <$> path_nodes p lf)) as Hbks.
  { apply Forall_fmap, Forall_forall. intros n Hn. apply (bi_tree _ _ _ _ _ Hbl).
    by apply (path_nodes_range p Hp _ _ Hlf). }
  pose proof (remove_from_pages_eq p Hp id _ _ (choice_from_bool false) Hbks Hd) as Hrem.
  rewrite truth_from_bool in Hrem.
  pose proof (fetch_spec p Hp _ _ _ _ id Hbl Hid) as Hf. cbv zeta in Hf. fold lf p in Hf.
  destruct (remove_buckets (block_size p) id (T <$> path_nodes p lf) (block_dummy (block_size p)) false)
    as [[bks' sel] removed].
  destruct Hf as (HT1 & Hsel & Hout & Htree & Hperm & Hocc & Hfree).
  set (T1 := pages_upd (path_nodes p lf) bks' T) in *.
  rewrite <-!list_fmap_compose in Hrem. rewrite bind_lift.
  change (meta_page ∘ T) with (meta_pages T) in Hrem. change (payload_page ∘ T) with (payload_pages T) in Hrem.
  rewrite Hrem. cbn [fst snd].
  pose proof (fetch_insert p _ _ _ _ _ _ id Hbl Hid Htree Hperm Hsel Hocc Hfree) as Hins. fold p in Hins.
  destruct (if occupied sel then insert_first sel (stash o) else Some (stash o)) as [st1|].
  - left. destruct Hins as (Ei & Hbl1 & Hin & Hlen).
    erewrite (bind_eq (on_stash _)) by (apply on_stash_eq; exact Ei).
    assert (forall n, n ∈ path_nodes p lf -> node_ok p n (T1 n)) as Hnodes.
    { intros n Hn. apply Htree. by apply (path_nodes_range p Hp _ _ Hlf). }
    destruct (write_path_holds p Hp _ _ (meta_pages T1) ms1 lf Hms1 Hlf) as (ms2 & Em2 & Hms2).
    { intros n Hn. unfold meta_pages. by rewrite Hout. } { intros n Hn. apply meta_pages_ok. auto. }
    destruct (write_path_holds p Hp _ _ (payload_pages T1) ps1 lf Hps1 Hlf) as (ps2 & Ep2 & Hps2).
    { intros n Hn. unfold payload_pages. by rewrite Hout. } { intros n Hn. apply payload_pages_ok. auto. }
    assert (meta_page <$> bks' = meta_pages T1 <$> path_nodes p lf) as -> by (rewrite <-HT1, <-list_fmap_compose; done).
    assert (payload_page <$> bks' = payload_pages T1 <$> path_nodes p lf) as -> by (rewrite <-HT1, <-list_fmap_compose; done).
    erewrite (bind_eq (on_meta _)) by (apply on_meta_eq; exact Em2).
    erewrite on_payload_eq by exact Ep2.
    eexists _, T1. split; [done|]. split; [split; done|]. done.
  - right. destruct Hins as [Ei Hfull]. split; [done|].
    erewrite (bind_err (on_stash _)) by (apply on_stash_eq; exact Ei).
    eexists. split; [done|]. split; [split; done|]. done.
Qed.

End Inv.
