(* ===== verification/CircuitOps.v ===== *)
(** * The operations of the controller

    Accesses, batches, dummies and drains against the array of payloads.  A successful
    access returns the payload of the requested block, updates exactly that block and
    remaps it to a fresh leaf; a batch reads all paths into overlays, works in memory
    and writes every path once, and returns what the accesses would return one after
    the other; [drain_evictions] runs the scheduled evictions on overlays and never
    fails on a valid controller.  The only failure is a full stash, which changes
    nothing. *)

From S2P Require Import Prelude Ct Block Params Store Schedule Bucket PosMap Stash Overlay Evict EvictPath Rng State.
From S2P Require Import Circuit Blocks CircuitInv.

Section Access.
Context `{SL : SubtleLaws} {MS PS R : Type}.
Context `{LM : LawfulPathStore MS} `{LP : LawfulPathStore PS} `{Rng R}.
Local Abbreviation Oram := (CircuitOram MS PS R).

Lemma lookup_in_stash_ok (o : Oram) A T id :
  oram_inv o A T -> 0 <= id < lenZ A -> the_block (pos_map o) A id ∈ stash o ->
  lookup_in_stash id o = (Ok (arr_get A id), o).
Proof.
  intros Ho Hid Hin. unfold lookup_in_stash. rewrite !bind_gets.
  destruct (lookup_the_block _ (oi_params _ _ _ Ho) _ _ _ _ id (oi_blocks _ _ _ Ho) Hid Hin) as [E1 E2].
  destruct (stash_lookup (block_size (co_params o)) id (stash o)) as [out found]. cbn [fst snd] in *.
  ct_simpl. by rewrite E2, E1.
Qed.

Lemma arr_get_ok (o : Oram) A T id :
  oram_inv o A T -> 0 <= id < lenZ A ->
  lenZ (arr_get A id) = block_size (co_params o) /\ bytes_ok (arr_get A id).
Proof.
  intros Ho Hid. by destruct (the_block_ok _ _ _ _ _ (oi_blocks _ _ _ Ho) id Hid) as (_ & _ & ? & ?).
Qed.

Lemma self_check_stash_ok (o : Oram) A T : oram_inv o A T -> self_check_stash o = (Ok tt, o).
Proof.
  intros Ho. unfold self_check_stash. rewrite check_stash_ok; [done|].
  by destruct (bi_stash _ _ _ _ _ (oi_blocks _ _ _ Ho)).
Qed.

(** Replacing the blocks, the generator or the schedule of a valid controller. *)
Lemma oram_inv_blocks (o : Oram) A T pm A' st :
  oram_inv o A T -> blocks_inv (co_params o) pm A' st T ->
  oram_inv (set_stash st (set_pos_map pm o)) A' T.
Proof. intros []. by split. Qed.
Lemma oram_inv_rng (o : Oram) A T r : oram_inv o A T -> oram_inv (set_rng r o) A T.
Proof. intros []. by split. Qed.
Lemma oram_inv_schedule (o : Oram) A T s :
  oram_inv o A T -> schedule_ok s -> sch_leaf_bits s = sch_leaf_bits (schedule o) -> oram_inv (set_schedule s o) A T.
Proof. intros [] ? Hb. split; try done. cbn [schedule set_schedule]. by rewrite Hb. Qed.

(** One access, both ways it can end. *)
Lemma access_spec (o : Oram) A T id update :
  oram_inv o A T -> 0 <= id < lenZ A -> good_update (co_params o) update ->
  can_record 1 (schedule o) ->
  (exists o' T', access id update o = (Ok (arr_get A id), o') /\
     oram_inv o' (arr_set A id (update (arr_get A id))) T' /\
     co_params o' = co_params o /\
     pos_map o' = pm_set (pos_map o) (id, next_leaf (co_params o) (rng o)) /\
     rng o' = (next_u64 (rng o)).2 /\ schedule o' = issue 1 (schedule o) /\
     lenZ (occ (stash o')) <= lenZ (occ (stash o)) + 1 /\ fetched id (stash o) (stash o')) \/
  ((lenZ (occ (stash o)) = stash_capacity (co_params o) /\ id ∉ held_ids (stash o)) /\
   exists o', access id update o =
       (Err (StashOverflow (stash_capacity (co_params o) + 1) (stash_capacity (co_params o))), o') /\
     oram_inv o' A T /\ same_but_stores o o').
Proof.
  intros Ho Hid Hupd Hrec. set (p := co_params o).
  assert (lenZ A = logical_blocks p) as HA by apply (oi_blocks _ _ _ Ho).
  unfold access. rewrite bind_gets, bind_guardm, (proj2 (Z.leb_gt _ _)) by (fold p; lia). cbn [negb].
  rewrite bind_gets, scan_pos_map_lookup_get by lia.
  destruct (read_and_remove_spec o A T id Ho Hid) as
    [(o1 & T1 & E1 & Ho1 & Hin & Hp1 & Hpm1 & Hr1 & Hs1 & Hlen)|(Hfull & o1 & E1 & Ho1 & Hsame)].
  2: { right. split; [done|]. exists o1. by rewrite (bind_err _ _ _ _ _ E1). }
  left. rewrite (bind_eq _ _ _ _ _ E1). rewrite <-Hpm1 in Hin.
  rewrite (bind_eq _ _ _ _ _ (lookup_in_stash_ok o1 A T1 id Ho1 Hid Hin)).
  destruct (random_leaf_eq (co_params o1) (oi_params _ _ _ Ho1) (rng o1)) as [Er Hnl]. rewrite Hp1 in Er, Hnl.
  erewrite (bind_eq (on_rng _)) by (apply on_rng_eq; exact Er). rewrite !bind_modify.
  cbn [pos_map stash set_rng set_pos_map]. rewrite scan_pos_map_update_set by lia.
  destruct (arr_get_ok o1 A T1 id Ho1 Hid) as [Hgl Hgb]. rewrite Hp1 in Hgl.
  destruct (Hupd _ Hgl Hgb) as [Hul Hub].
  pose proof (oi_blocks _ _ _ Ho1) as Hb1. rewrite Hp1 in Hb1.
  assert (params_ok p) as Hp by apply (oi_params _ _ _ Ho).
  destruct (update_the_block p Hp _ _ _ _ id _ (update (arr_get A id)) Hb1 Hid Hin Hnl Hul Hub) as [Hb2 Hocc].
  set (nl := next_leaf (co_params o) (rng o1)) in *.
  destruct (record_access_ok (schedule o) (oi_schedule _ _ _ Ho) Hrec) as [Erec Hsok].
  set (o2 := set_stash (stash_update id nl (update (arr_get A id)) (stash o1))
    (set_pos_map (pm_set (pos_map o1) (id, nl)) (set_rng (next_u64 (rng o1)).2 o1))).
  assert (schedule o2 = schedule o) as Hso2 by done.
  assert (oram_inv o2 (arr_set A id (update (arr_get A id))) T1) as Ho2.
  { subst o2. eapply oram_inv_blocks; [by apply oram_inv_rng|]. cbn [co_params set_rng]. by rewrite Hp1. }
  assert (oram_inv (set_schedule (issue 1 (schedule o)) o2) (arr_set A id (update (arr_get A id))) T1) as Ho3.
  { apply oram_inv_schedule; [done|done|]. by rewrite Hso2. }
  exists (set_schedule (issue 1 (schedule o)) o2), T1.
  pose proof (fetched_ids _ _ _ _ Hlen Hocc) as Hfetched.
  split_and!; [|exact Ho3|done| |cbn; by rewrite Hr1|done|by apply (fetched_le id)|exact Hfetched].
  - erewrite (bind_eq (on_schedule _)) by (apply on_schedule_eq; rewrite Hso2; exact Erec).
    by rewrite (bind_eq _ _ _ _ _ (self_check_stash_ok _ _ _ Ho3)).
  - cbn. subst nl. by rewrite Hpm1, Hr1.
Qed.

(** A dummy access reads and rewrites a random path. *)
Lemma dummy_access_spec (o : Oram) A T :
  oram_inv o A T -> can_record 1 (schedule o) ->
  exists o', dummy_access o = (Ok tt, o') /\ oram_inv o' A T /\
    co_params o' = co_params o /\ pos_map o' = pos_map o /\ stash o' = stash o /\
    rng o' = (next_u64 (rng o)).2 /\ schedule o' = issue 1 (schedule o).
Proof.
  intros Ho Hrec. unfold dummy_access. rewrite bind_gets. pose proof (oi_params _ _ _ Ho) as Hp.
  destruct (random_leaf_eq (co_params o) Hp (rng o)) as [Er Hnl].
  erewrite (bind_eq (on_rng _)) by (apply on_rng_eq; exact Er).
  set (lf := next_leaf (co_params o) (rng o)) in *.
  destruct (oi_stores _ _ _ Ho) as [Hms Hps].
  destruct (read_path_holds _ Hp _ _ _ lf Hms Hnl) as (ms1 & Em1 & Hms1).
  destruct (read_path_holds _ Hp _ _ _ lf Hps Hnl) as (ps1 & Ep1 & Hps1).
  assert (forall n, n ∈ path_nodes (co_params o) lf -> node_ok (co_params o) n (T n)) as Hn.
  { intros n Hn. apply (oi_blocks _ _ _ Ho). by apply (path_nodes_range _ Hp lf). }
  destruct (write_path_holds _ Hp _ _ (meta_pages T) ms1 lf Hms1 Hnl) as (ms2 & Em2 & Hms2);
    [done|intros; apply meta_pages_ok; auto|].
  destruct (write_path_holds _ Hp _ _ (payload_pages T) ps1 lf Hps1 Hnl) as (ps2 & Ep2 & Hps2);
    [done|intros; apply payload_pages_ok; auto|].
  destruct (record_access_ok (schedule o) (oi_schedule _ _ _ Ho) Hrec) as [Erec Hsok].
  set (o1 := set_payload_store ps2 (set_meta_store ms2 (set_rng (next_u64 (rng o)).2 o))).
  assert (oram_inv o1 A T) as Ho1 by by destruct Ho; split.
  assert (oram_inv (set_schedule (issue 1 (schedule o)) o1) A T) as Ho2 by by apply oram_inv_schedule.
  exists (set_schedule (issue 1 (schedule o)) o1). split; [|split; [exact Ho2|done]].
  assert (read_and_rewrite_path lf (set_rng (next_u64 (rng o)).2 o) = (Ok tt, o1)) as Erw.
  { unfold read_and_rewrite_path. rewrite bind_gets. cbn [co_params set_rng].
    erewrite (bind_eq (on_meta _)) by (apply on_meta_eq; exact Em1).
    erewrite (bind_eq (on_payload _)) by (apply on_payload_eq; exact Ep1).
    erewrite (bind_eq (on_meta _)) by (apply on_meta_eq; exact Em2).
    by erewrite on_payload_eq by exact Ep2. }
  rewrite (bind_eq _ _ _ _ _ Erw).
  erewrite (bind_eq (on_schedule _)) by (apply on_schedule_eq; exact Erec).
  by apply (self_check_stash_ok _ _ _ Ho2).
Qed.

End Access.

(** The sequential meaning of a batch on the array of payloads. *)
Fixpoint spec_batch {U} (update : U -> Z -> bytes -> U * bytes) (u : U) (A : list bytes) (ids : list Z)
    : list bytes * U * list bytes :=
  match ids with
  | [] => ([], u, A)
  | id :: ids =>
      let out := arr_get A id in
      let (u1, np) := update u id out in
      let '(outs, u2, A2) := spec_batch update u1 (arr_set A id np) ids in
      (out :: outs, u2, A2)
  end.

(** The stash slots the blocks of [ids] take when they are fetched one by one: one
    for each id that is neither held already nor repeated. *)
Fixpoint slots_needed (held ids : list Z) : Z :=
  match ids with
  | [] => 0
  | id :: ids => (if decide (id ∈ held) then 0 else 1) + slots_needed (id :: held) ids
  end.

Lemma slots_needed_ext ids : forall h1 h2, (forall j, j ∈ h1 <-> j ∈ h2) -> slots_needed h1 ids = slots_needed h2 ids.
Proof.
  induction ids as [|id ids IH]; intros h1 h2 Heq; cbn [slots_needed]; [done|].
  rewrite (IH (id :: h1) (id :: h2)) by (intros j; rewrite !elem_of_cons, Heq; done).
  destruct (decide (id ∈ h1)) as [H1|H1], (decide (id ∈ h2)) as [H2|H2]; rewrite Heq in H1; done.
Qed.

Lemma slots_needed_bounds ids : forall held, 0 <= slots_needed held ids <= lenZ ids.
Proof.
  induction ids as [|id ids IH]; intros held; cbn [slots_needed]; [done|]. rewrite lenZ_cons. specialize (IH (id :: held)).
  destruct (decide _); lia.
Qed.

Lemma slots_needed_fetched id ids st st1 : fetched id st st1 ->
  lenZ (occ st1) + slots_needed (held_ids st1) ids = lenZ (occ st) + slots_needed (held_ids st) (id :: ids).
Proof.
  intros [-> Hin]. cbn [slots_needed]. rewrite (slots_needed_ext ids (held_ids st1) (id :: held_ids st)); [lia|].
  intros j. by rewrite elem_of_cons.
Qed.

(** The leaves drawn for a batch. *)
Fixpoint leaf_stream {R} `{Rng R} (p : OramParams) (n : nat) (r : R) : list Z * R :=
  match n with
  | O => ([], r)
  | S n => let (lfs, r') := leaf_stream p n (next_u64 r).2 in (next_leaf p r :: lfs, r')
  end.

Section Stream.
Context {R} `{Rng R} (p : OramParams) (Hp : params_ok p).

Lemma random_leaves_eq n r :
  random_leaves p n r = (Ok (leaf_stream p n r).1, (leaf_stream p n r).2) /\
  length (leaf_stream p n r).1 = n /\ Forall (leaf_ok p) (leaf_stream p n r).1.
Proof.
  revert r. induction n as [|n IH]; intros r; cbn [random_leaves leaf_stream]; [done|].
  destruct (random_leaf_eq p Hp r) as [E Hl]. rewrite (bind_eq _ _ _ _ _ E).
  destruct (IH (next_u64 r).2) as (E2 & Hlen & Hf). rewrite (bind_eq _ _ _ _ _ E2).
  destruct (leaf_stream p n (next_u64 r).2) as [lfs r']. cbn [fst snd] in *.
  split_and!; [done|simpl; lia|by constructor].
Qed.

Lemma sequential_leaves_ok pm ids nls :
  Forall (leaf_ok p) pm -> Forall (leaf_ok p) nls -> Forall (fun id => 0 <= id < lenZ pm) ids ->
  Forall (leaf_ok p) (sequential_leaves pm ids nls).
Proof.
  intros Hpm Hnls Hids. revert pm nls Hpm Hnls Hids.
  induction ids as [|id ids IH]; intros pm [|nl nls] Hpm Hnls Hids; cbn [sequential_leaves]; try by constructor.
  apply Forall_cons in Hnls as [Hnl Hnls]. apply Forall_cons in Hids as [Hid Hids]. constructor.
  - unfold pm_get, lenZ in *. destruct (lookup_lt_is_Some_2 pm (Z.to_nat id)) as [lf E]; [lia|]. rewrite E.
    cbn [default]. by eapply Forall_lookup_1 in Hpm.
  - apply IH; [|done|by rewrite pm_set_length]. unfold pm_set. by apply Forall_insert.
Qed.

End Stream.

Section Batch.
Context `{SL : SubtleLaws} {MS PS R U : Type}.
Context `{LM : LawfulPathStore MS} `{LP : LawfulPathStore PS} `{Rng R}.
Local Abbreviation Oram := (CircuitOram MS PS R).

(** Reading a batch of paths of a good controller. *)
Lemma read_overlays_ok (o : Oram) A T lfs :
  oram_inv o A T -> Forall (leaf_ok (co_params o)) lfs ->
  let paths := path_nodes (co_params o) <$> lfs in
  exists o' mo po, read_overlays paths o = (Ok (mo, po), o') /\ oram_inv o' A T /\ same_but_stores o o' /\
    overlay_of (meta_pages T) (concat paths) mo /\ overlay_of (payload_pages T) (concat paths) po.
Proof.
  intros Ho Hlfs paths. pose proof (oi_params _ _ _ Ho) as Hp. destruct (oi_stores _ _ _ Ho) as [Hms Hps].
  unfold read_overlays. rewrite bind_gets.
  destruct (read_paths_holds _ Hp _ _ _ lfs Hms Hlfs) as (ms1 & Em1 & Hms1).
  destruct (read_paths_holds _ Hp _ _ _ lfs Hps Hlfs) as (ps1 & Ep1 & Hps1). fold paths in Em1, Ep1.
  erewrite (bind_eq (on_meta _)) by (apply on_meta_eq; exact Em1).
  erewrite (bind_eq (on_payload _)) by (apply on_payload_eq; exact Ep1).
  assert (forall lf n, lf ∈ lfs -> n ∈ path_nodes (co_params o) lf -> node_ok (co_params o) n (T n)) as Hn.
  { intros lf n Hlf Hn. apply (oi_blocks _ _ _ Ho). rewrite Forall_forall in Hlfs.
    apply (path_nodes_range _ Hp lf); auto. }
  destruct (overlay_path_pages_ok (meta_pages T) (circuit_meta_page_bytes (bucket_size (co_params o))) paths)
    as (mo & Emo & Hmo).
  { apply Forall_fmap, Forall_forall. intros lf Hlf. apply Forall_forall. intros n Hin.
    by apply (meta_pages_ok (co_params o) T n (Hn lf n Hlf Hin)). }
  destruct (overlay_path_pages_ok (payload_pages T)
    (circuit_payload_page_bytes (bucket_size (co_params o)) (block_size (co_params o))) paths) as (po & Epo & Hpo).
  { apply Forall_fmap, Forall_forall. intros lf Hlf. apply Forall_forall. intros n Hin.
    by apply (payload_pages_ok (co_params o) T n (Hn lf n Hlf Hin)). }
  rewrite bind_lift, Emo, bind_lift, Epo. eexists _, mo, po. split; [done|].
  split; [by destruct Ho; split|]. done.
Qed.

(** Writing overlays back. *)
Lemma write_overlays_ok (o : Oram) T T' lfs mo po :
  params_ok (co_params o) -> stores_inv (co_params o) T (meta_store o) (payload_store o) ->
  Forall (leaf_ok (co_params o)) lfs ->
  let paths := path_nodes (co_params o) <$> lfs in
  (forall n, n ∉ concat paths -> T' n = T n) ->
  (forall n, in_range (bucket_count (co_params o)) n -> node_ok (co_params o) n (T' n)) ->
  overlay_of (meta_pages T') (concat paths) mo -> overlay_of (payload_pages T') (concat paths) po ->
  exists o', write_overlays paths (mo, po) o = (Ok tt, o') /\ same_but_stores o o' /\
    stores_inv (co_params o) T' (meta_store o') (payload_store o').
Proof.
  intros Hp [Hms Hps] Hlfs paths Hout Hn Hmo Hpo. unfold write_overlays. cbn [fst snd].
  assert (forall n, n ∈ concat paths -> node_ok (co_params o) n (T' n)) as Hn'.
  { intros n (path & Hpath & Hin)%elem_of_concat. apply list_elem_of_fmap in Hpath as (lf & -> & Hlf).
    rewrite Forall_forall in Hlfs. apply Hn. apply (path_nodes_range _ Hp lf); auto. }
  rewrite bind_lift, (collect_overlay_paths_ok _ _ _ Hmo), bind_lift, (collect_overlay_paths_ok _ _ _ Hpo).
  destruct (write_paths_holds _ Hp _ _ (meta_pages T') (meta_store o) lfs Hms Hlfs) as (ms1 & Em1 & Hms1).
  { intros n Hnin. unfold meta_pages. by rewrite Hout. } { intros n Hin. apply meta_pages_ok. auto. }
  destruct (write_paths_holds _ Hp _ _ (payload_pages T') (payload_store o) lfs Hps Hlfs) as (ps1 & Ep1 & Hps1).
  { intros n Hnin. unfold payload_pages. by rewrite Hout. } { intros n Hin. apply payload_pages_ok. auto. }
  erewrite (bind_eq (on_meta _)) by (apply on_meta_eq; exact Em1).
  erewrite on_payload_eq by exact Ep1. eexists. split; [done|]. split; done.
Qed.

(** One step of the batch: the block moves from the overlays to the stash. *)
Lemma remove_target_spec (o : Oram) pm A T dom mo po id :
  let p := co_params o in
  params_ok p -> blocks_inv p pm A (stash o) T -> 0 <= id < lenZ A ->
  (forall n, n ∈ path_nodes p (pm_get pm id) -> n ∈ dom) ->
  overlay_of (meta_pages T) dom mo -> overlay_of (payload_pages T) dom po ->
  (exists st1 T1 mo1 po1,
     remove_target_from_overlays (path_nodes p (pm_get pm id)) id (mo, po) o = (Ok (mo1, po1), set_stash st1 o) /\
     blocks_inv p pm A st1 T1 /\ the_block pm A id ∈ st1 /\ (forall n, n ∉ dom -> T1 n = T n) /\
     overlay_of (meta_pages T1) dom mo1 /\ overlay_of (payload_pages T1) dom po1 /\
     fetched id (stash o) st1) \/
  ((lenZ (occ (stash o)) = stash_capacity p /\ id ∉ held_ids (stash o)) /\
   remove_target_from_overlays (path_nodes p (pm_get pm id)) id (mo, po) o =
     (Err (StashOverflow (stash_capacity p + 1) (stash_capacity p)), set_stash (stash o) o)).
Proof.
  intros p Hp Hbl Hid Hdom Hmo Hpo. set (path := path_nodes p (pm_get pm id)) in *.
  pose proof (pm_leaf_ok p _ _ _ _ Hbl id Hid) as Hlf. pose proof (dummy_ok p Hp) as Hd.
  assert (forall n, n ∈ path -> bucket_ok (bucket_size p) (block_size p) (T n)) as Hbk.
  { intros n Hn. apply (bi_tree _ _ _ _ _ Hbl). by apply (path_nodes_range p Hp _ _ Hlf). }
  pose proof (remove_from_overlays_eq p Hp id dom path T _ (choice_from_bool false) mo po
    (path_nodes_NoDup p Hp _ Hlf) Hdom Hbk Hd Hmo Hpo) as Hrem.
  rewrite truth_from_bool in Hrem.
  pose proof (fetch_spec p Hp _ _ _ _ id Hbl Hid) as Hf. cbv zeta in Hf. fold path in Hf.
  destruct (remove_buckets (block_size p) id (T <$> path) (block_dummy (block_size p)) false)
    as [[bks' sel] removed].
  destruct Hf as (_ & Hsel & Hout & Htree & Hperm & Hocc & Hfree).
  destruct Hrem as (mo1 & po1 & Erem & Hmo1 & Hpo1).
  unfold remove_target_from_overlays. rewrite bind_gets. fold p. rewrite bind_lift, Erem. cbn [fst snd].
  pose proof (fetch_insert p _ _ _ _ _ _ id Hbl Hid Htree Hperm Hsel Hocc Hfree) as Hins.
  destruct (if occupied sel then insert_first sel (stash o) else Some (stash o)) as [st1|].
  - left. destruct Hins as (Ei & Hbl1 & Hin & Hlen).
    erewrite (bind_eq (on_stash _)) by (apply on_stash_eq; exact Ei).
    exists st1, (pages_upd path bks' T), mo1, po1. split_and!; try done.
    intros n Hn. apply Hout. auto.
  - right. destruct Hins as [Ei Hfull]. split; [done|].
    by erewrite (bind_err (on_stash _)) by (apply on_stash_eq; exact Ei).
Qed.

(** The state of a controller inside the batch loop. *)
Definition loop_next (o o' : Oram) (n : Z) : Prop :=
  o' = set_schedule (issue n (schedule o)) (set_stash (stash o') o).

Lemma batch_loop_spec update (dom : list Z) ids nls :
  forall (o : Oram) pm A T (u : U) mo po,
  let p := co_params o in
  params_ok p -> length ids = length nls ->
  (forall u id, good_update p (fun pl => (update u id pl).2)) ->
  blocks_inv p pm A (stash o) T -> Forall (fun id => 0 <= id < lenZ A) ids -> Forall (leaf_ok p) nls ->
  Forall (fun lf => forall n, n ∈ path_nodes p lf -> n ∈ dom) (sequential_leaves pm ids nls) ->
  schedule_ok (schedule o) -> can_record (lenZ ids) (schedule o) ->
  overlay_of (meta_pages T) dom mo -> overlay_of (payload_pages T) dom po ->
  let '(outs, u', A') := spec_batch update u A ids in
  let run := batch_loop update u (zip (zip ids nls) (path_nodes p <$> sequential_leaves pm ids nls)) (mo, po) o in
  (exists o' T' mo' po', run = (Ok (outs, u', (mo', po')), o') /\
     blocks_inv p (foldl pm_set pm (zip ids nls)) A' (stash o') T' /\
     (forall n, n ∉ dom -> T' n = T n) /\
     overlay_of (meta_pages T') dom mo' /\ overlay_of (payload_pages T') dom po' /\
     loop_next o o' (lenZ ids) /\ schedule_ok (schedule o') /\
     lenZ (occ (stash o')) = lenZ (occ (stash o)) + slots_needed (held_ids (stash o)) ids) \/
  (stash_capacity p < lenZ (occ (stash o)) + slots_needed (held_ids (stash o)) ids /\
   exists o' k, run = (Err (StashOverflow (stash_capacity p + 1) (stash_capacity p)), o') /\ loop_next o o' k /\
     0 <= k < lenZ ids /\ lenZ (occ (stash o')) = stash_capacity p).
Proof.
  revert nls. induction ids as [|id ids IH]; intros [|nl nls] o pm A T u mo po p Hp Hlen Hupd Hbl Hids Hnls Hdom
    Hsok Hrec Hmo Hpo; simplify_eq/=.
  { left. exists o, T, mo, po. split_and!; try done.
    - unfold loop_next. destruct o as [????? ? []]; unfold set_schedule, set_stash, issue; simpl. by rewrite Z.add_0_r.
    - lia. }
  apply Forall_cons in Hids as [Hid Hids]. apply Forall_cons in Hnls as [Hnl Hnls].
  apply Forall_cons in Hdom as [Hd Hdom].
  rewrite (lenZ_cons id ids) in Hrec |- *. pose proof (lenZ_nonneg ids) as Hn.
  destruct (can_record_split _ _ Hn Hsok Hrec) as [Hrec1 Hrecn].
  destruct (update u id (arr_get A id)) as [u1 np] eqn:Eu.
  pose proof (remove_target_spec o pm A T dom mo po id Hp Hbl Hid Hd Hmo Hpo) as Hrt.
  cbv zeta in Hrt. fold p in Hrt. destruct Hrt as
    [(st1 & T1 & mo1 & po1 & Erem & Hbl1 & Hin & Hout & Hmo1 & Hpo1 & Hocc1)|[Hfull Erem]].
  2: { destruct (spec_batch update u1 (arr_set A id np) ids) as [[outs u'] A']. right. destruct Hfull as [Hfull Hnew].
       pose proof (slots_needed_bounds ids (id :: held_ids (stash o))) as Hsn. split; [destruct (decide _); [done|lia]|].
       exists (set_stash (stash o) o), 0. rewrite (bind_err _ _ _ _ _ Erem). split; [done|]. split; [|by split; [lia|]].
       unfold loop_next. rewrite issue_0. by destruct o. }
  destruct (the_block_ok p _ _ _ _ Hbl1 id Hid) as (_ & _ & Hgl & Hgb). cbn [payload the_block] in Hgl, Hgb.
  destruct (Hupd u id _ Hgl Hgb) as [Hul Hub]. rewrite Eu in Hul, Hub. cbn [snd] in Hul, Hub.
  destruct (update_the_block p Hp _ _ _ _ id nl np Hbl1 Hid Hin Hnl Hul Hub) as [Hbl2 Hocc2].
  destruct (record_access_ok (schedule o) Hsok Hrec1) as [Erec Hsok1].
  set (st2 := stash_update id nl np st1) in *.
  pose proof (slots_needed_fetched id ids _ _ (fetched_ids _ _ _ _ Hocc1 Hocc2)) as Hneed. cbn [slots_needed] in Hneed.
  set (o2 := set_schedule (issue 1 (schedule o)) (set_stash st2 o)).
  specialize (IH nls o2 (pm_set pm (id, nl)) (arr_set A id np) T1 u1 mo1 po1 Hp ltac:(lia) Hupd Hbl2).
  rewrite arr_set_length in IH. change (co_params o2) with p in IH.
  specialize (IH Hids Hnls Hdom Hsok1 Hrecn Hmo1 Hpo1).
  destruct (spec_batch update u1 (arr_set A id np) ids) as [[outs u'] A'].
  rewrite (bind_eq _ _ _ _ _ Erem).
  assert (lookup_in_stash id (set_stash st1 o) = (Ok (arr_get A id), set_stash st1 o)) as Elk.
  { unfold lookup_in_stash. rewrite !bind_gets. cbn [co_params stash set_stash].
    destruct (lookup_the_block p Hp _ _ _ _ id Hbl1 Hid Hin) as [E1 E2]. fold p.
    destruct (stash_lookup (block_size p) id st1) as [out found]. cbn [fst snd] in *.
    ct_simpl. by rewrite E2, E1. }
  rewrite (bind_eq _ _ _ _ _ Elk), Eu, bind_modify.
  erewrite (bind_eq (on_schedule _)) by (apply on_schedule_eq; exact Erec).
  change (set_schedule (issue 1 (schedule o)) _) with o2.
  destruct IH as [(o' & T' & mo' & po' & Erun & Hbl' & Hout' & Hmo' & Hpo' & Hnext & Hsok' & Hocc')|(Hroom & o' & k & Erun & Hnext & Hk & Hcap)].
  - left. rewrite (bind_eq _ _ _ _ _ Erun). exists o', T', mo', po'. split_and!; try done.
    + intros n Hnd. rewrite Hout', Hout; done.
    + unfold loop_next in *. rewrite Hnext. cbn. by rewrite issue_add.
    + change (stash o2) with st2 in Hocc'. lia.
  - right. change (stash o2) with st2 in Hroom. split; [lia|].
    rewrite (bind_err _ _ _ _ _ Erun). exists o', (1 + k). split; [done|]. split; [|by split; [lia|]].
    unfold loop_next in *. rewrite Hnext. cbn. by rewrite issue_add.
Qed.

Lemma loop_next_same (o o' : Oram) n :
  loop_next o o' n -> co_params o' = co_params o /\ meta_store o' = meta_store o /\
  payload_store o' = payload_store o /\ pos_map o' = pos_map o /\ rng o' = rng o /\
  schedule o' = issue n (schedule o).
Proof. unfold loop_next. by intros ->. Qed.

(** The whole batch, both ways it can end. *)
Lemma access_batch_spec (o : Oram) A T ids update (u : U) :
  oram_inv o A T -> Forall (fun id => 0 <= id < lenZ A) ids ->
  (forall u id, good_update (co_params o) (fun pl => (update u id pl).2)) ->
  can_record (lenZ ids) (schedule o) ->
  let '(outs, u', A') := spec_batch update u A ids in
  let stream := leaf_stream (co_params o) (length ids) (rng o) in
  (exists o' T', access_batch ids update u o = (Ok (outs, u'), o') /\ oram_inv o' A' T' /\
     co_params o' = co_params o /\ pos_map o' = foldl pm_set (pos_map o) (zip ids stream.1) /\
     rng o' = stream.2 /\ schedule o' = issue (lenZ ids) (schedule o) /\
     lenZ (occ (stash o')) <= lenZ (occ (stash o)) + lenZ ids /\
     lenZ (occ (stash o')) = lenZ (occ (stash o)) + slots_needed (held_ids (stash o)) ids) \/
  ((stash_capacity (co_params o) < lenZ (occ (stash o)) + lenZ ids /\
    stash_capacity (co_params o) < lenZ (occ (stash o)) + slots_needed (held_ids (stash o)) ids) /\
   exists o', access_batch ids update u o =
       (Err (StashOverflow (stash_capacity (co_params o) + 1) (stash_capacity (co_params o))), o') /\
     co_params o' = co_params o /\ pos_map o' = pos_map o /\ rng o' = rng o /\
     stores_inv (co_params o) T (meta_store o') (payload_store o') /\
     (exists k, 0 <= k < lenZ ids /\ schedule o' = issue k (schedule o)) /\ lenZ (occ (stash o')) = stash_capacity (co_params o)).
Proof.
  intros Ho Hids Hupd Hrec. pose proof (slots_needed_bounds ids (held_ids (stash o))) as Hsn. pose proof (oi_params _ _ _ Ho) as Hp. set (p := co_params o) in *.
  pose proof (oi_blocks _ _ _ Ho) as Hbl. fold p in Hbl.
  pose proof (same_length _ _ _ _ _ Hbl) as Hsl.
  assert (lenZ A = logical_blocks p) as HA by apply Hbl.
  unfold access_batch. destruct (lenZ ids =? 0) eqn:E0; zbool.
  { destruct ids; [|rewrite lenZ_cons in E0; pose proof (lenZ_nonneg ids); lia].
    left. exists o, T. split_and!; try done; [|change (lenZ []) with 0; lia|cbn; lia].
    change (lenZ []) with 0. by rewrite issue_0. }
  rewrite bind_gets, bind_guardm. fold p.
  assert (forallb (fun id => negb (logical_blocks p <=? id)) ids = true) as ->.
  { apply forallb_forall. intros id Hin%list_elem_of_In. rewrite Forall_forall in Hids. specialize (Hids id Hin). lia. }
  rewrite !bind_gets.
  destruct (random_leaves_eq p Hp (length ids) (rng o)) as (Ers & Hsl2 & Hnls).
  set (stream := leaf_stream p (length ids) (rng o)) in *. rewrite Ers, bind_lift.
  rewrite batch_access_leaves_sequential by (rewrite ?Hsl; done).
  assert (Forall (leaf_ok p) (sequential_leaves (pos_map o) ids stream.1)) as Hseq.
  { apply sequential_leaves_ok; [apply Hbl|done|by rewrite Hsl]. }
  destruct (read_overlays_ok o A T _ Ho Hseq) as (o1 & mo & po & Er & Ho1 & Hsame & Hmo & Hpo).
  fold p in Er, Hmo, Hpo. rewrite (bind_eq _ _ _ _ _ Er).
  destruct Hsame as (Hp1 & Hpm1 & Hst1 & Hrng1 & Hsch1).
  pose proof (batch_loop_spec update (concat (path_nodes p <$> sequential_leaves (pos_map o) ids stream.1))
    ids stream.1 o1 (pos_map o) A T u mo po) as Hloop.
  cbv zeta in Hloop. rewrite Hp1, Hst1, Hsch1 in Hloop. fold p in Hloop.
  specialize (Hloop Hp ltac:(lia) Hupd Hbl Hids Hnls).
  destruct (spec_batch update u A ids) as [[outs u'] A'].
  destruct Hloop as [(o2 & T' & mo' & po' & Erun & Hbl' & Hout & Hmo' & Hpo' & Hnext & Hsok & Hocc)
                    |(Hroom & o2 & k & Erun & Hnext & Hk & Hcap)].
  - apply Forall_forall. intros lf Hlf n Hn. apply elem_of_concat. exists (path_nodes p lf).
    split; [by apply list_elem_of_fmap_2|done].
  - apply Ho.
  - done.
  - done.
  - done.
  - left. rewrite (bind_eq _ _ _ _ _ Erun). rewrite !bind_modify. cbn [fst snd].
    destruct (loop_next_same _ _ _ Hnext) as (Hp2 & Hm2 & Hpl2 & Hpm2 & Hrng2 & Hsch2).
    set (o3 := set_rng stream.2 (set_pos_map (scan_pos_map_update_batch (pos_map o2) ids stream.1) o2)).
    assert (co_params o3 = p) as Hp3 by (cbn; by rewrite Hp2).
    pose proof (oi_stores _ _ _ Ho1) as Hs1. rewrite Hp1 in Hs1.
    destruct (write_overlays_ok o3 T T' (sequential_leaves (pos_map o) ids stream.1) mo' po')
      as (o4 & Ew & (Hp4 & Hpm4 & Hst4 & Hrng4 & Hsch4) & Hs4).
    + by rewrite Hp3.
    + rewrite Hp3. cbn. rewrite Hm2, Hpl2. exact Hs1.
    + by rewrite Hp3.
    + by rewrite Hp3.
    + rewrite Hp3. apply Hbl'.
    + by rewrite Hp3.
    + by rewrite Hp3.
    + rewrite Hp3 in Ew, Hs4. rewrite (bind_eq _ _ _ _ _ Ew).
      assert (pos_map o4 = foldl pm_set (pos_map o) (zip ids stream.1)) as Hpmf.
      { rewrite Hpm4. cbn. rewrite Hpm2, Hpm1. apply scan_pos_map_update_batch_set.
        eapply Forall_impl; [exact Hids|]. by intros ? []. }
      assert (oram_inv o4 A' T') as Ho4.
      { split; rewrite ?Hp4, ?Hp3, ?Hsch4; try done.
        - apply Ho.
        - rewrite Hpmf, Hst4. exact Hbl'.
        - cbn. rewrite Hsch2, Hsch1. apply Ho. }
      rewrite (bind_eq _ _ _ _ _ (self_check_stash_ok _ _ _ Ho4)). exists o4, T'.
      split_and!; [done|done|by rewrite Hp4|done|by rewrite Hrng4|rewrite Hsch4; cbn; by rewrite Hsch2, Hsch1| |].
      * rewrite Hst4. change (stash o3) with (stash o2). lia.
      * rewrite Hst4. exact Hocc.
  - right. split; [split; [lia|done]|]. rewrite (bind_err _ _ _ _ _ Erun). exists o2.
    destruct (loop_next_same _ _ _ Hnext) as (Hp2 & Hm2 & Hpl2 & Hpm2 & Hrng2 & Hsch2).
    split_and!; [done|by rewrite Hp2|by rewrite Hpm2|by rewrite Hrng2| |exists k; split; [done|by rewrite Hsch2, Hsch1]|done].
    rewrite Hm2, Hpl2. pose proof (oi_stores _ _ _ Ho1) as Hs1. by rewrite Hp1 in Hs1.
Qed.

End Batch.

Section Drain.
Context `{SL : SubtleLaws} {MS PS R : Type}.
Context `{LM : LawfulPathStore MS} `{LP : LawfulPathStore PS} `{Rng R}.
Local Abbreviation Oram := (CircuitOram MS PS R).

(** One eviction on the abstraction. *)
Lemma evict_step p pm A st T lf dom mo po :
  params_ok p -> fits p -> leaf_ok p lf -> blocks_inv p pm A st T ->
  (forall n, n ∈ path_nodes p lf -> n ∈ dom) ->
  overlay_of (meta_pages T) dom mo -> overlay_of (payload_pages T) dom po ->
  exists T' st' mo' po', evict_path_in_overlays p (path_nodes p lf) (mo, po) st = (Ok (mo', po'), st') /\
    blocks_inv p pm A st' T' /\ (forall n, n ∉ dom -> T' n = T n) /\
    overlay_of (meta_pages T') dom mo' /\ overlay_of (payload_pages T') dom po' /\
    lenZ (occ st') <= lenZ (occ st).
Proof.
  intros Hp Hfit Hlf Hbl Hdom Hmo Hpo.
  assert (forall n, n ∈ path_nodes p lf -> in_range (bucket_count p) n) as Hr.
  { intros n Hn. by apply (path_nodes_range p Hp lf). }
  destruct (evict_path_ok p Hp Hfit lf T st dom mo po Hlf Hdom) as
    (T' & st' & mo' & po' & E & Hmo' & Hpo' & Hout & Hnode & Hst' & Hperm & Hle & _); [|apply Hbl|done|done|].
  { intros n Hn. apply Hbl. auto. }
  exists T', st', mo', po'. split_and!; try done; [|intros n Hn; apply Hout; auto].
  destruct Hbl as [Ht Hs Hpm HA Hbl]. split; try done.
  - intros n Hn. destruct (decide (n ∈ path_nodes p lf)); [auto|]. rewrite Hout by done. auto.
  - rewrite <-Hbl. apply (tree_replace p T T' (path_nodes p lf)); [by apply path_nodes_NoDup| |done|done].
    by apply Forall_forall.
Qed.

Lemma evict_paths_spec p pm A lfs dom :
  params_ok p -> fits p -> Forall (leaf_ok p) lfs ->
  Forall (fun lf => forall n, n ∈ path_nodes p lf -> n ∈ dom) lfs ->
  forall st T mo po, blocks_inv p pm A st T ->
  overlay_of (meta_pages T) dom mo -> overlay_of (payload_pages T) dom po ->
  exists T' st' mo' po', evict_paths p (path_nodes p <$> lfs) (mo, po) st = (Ok (mo', po'), st') /\
    blocks_inv p pm A st' T' /\ (forall n, n ∉ dom -> T' n = T n) /\
    overlay_of (meta_pages T') dom mo' /\ overlay_of (payload_pages T') dom po' /\
    lenZ (occ st') <= lenZ (occ st).
Proof.
  intros Hp Hfit Hlfs Hdom. induction lfs as [|lf lfs IH]; intros st T mo po Hbl Hmo Hpo.
  { exists T, st, mo, po. by split_and!. }
  apply Forall_cons in Hlfs as [Hlf Hlfs]. apply Forall_cons in Hdom as [Hd Hdom].
  cbn [fmap list_fmap evict_paths].
  destruct (evict_step p pm A st T lf dom mo po) as (T1 & st1 & mo1 & po1 & E1 & Hbl1 & Hout1 & Hmo1 & Hpo1 & Hle1);
    [done..|].
  destruct (IH Hlfs Hdom st1 T1 mo1 po1) as (T2 & st2 & mo2 & po2 & E2 & Hbl2 & Hout2 & Hmo2 & Hpo2 & Hle2); [done..|].
  exists T2, st2, mo2, po2. rewrite (bind_eq _ _ _ _ _ E1). split_and!; try done; [|lia].
  intros n Hn. rewrite Hout2, Hout1; done.
Qed.

Lemma complete_loop {A} (l : list A) s :
  schedule_ok s -> lenZ l <= debt s ->
  iterM (fun _ => let* _ := complete_one_eviction in ret tt) l s = (Ok tt, advance (lenZ l) s) /\
  schedule_ok (advance (lenZ l) s).
Proof.
  revert s. induction l as [|x l IH]; intros s Hs Hd; cbn [iterM].
  { change (lenZ []) with 0. by rewrite advance_0. }
  rewrite lenZ_cons in *. pose proof (lenZ_nonneg l).
  destruct (complete_one_eviction_some s Hs) as [E Hs1]; [lia|].
  erewrite bind_eq by (erewrite bind_eq by exact E; reflexivity).
  destruct (IH (advance 1 s) Hs1) as [E2 Hs2]; [rewrite debt_advance; lia|].
  by rewrite E2, advance_add in *.
Qed.

Lemma record_loop n s :
  schedule_ok s -> can_record (Z.of_nat n) s ->
  iterM (fun _ => record_access) (replicate n tt) s = (Ok tt, issue (Z.of_nat n) s) /\
  schedule_ok (issue (Z.of_nat n) s).
Proof.
  revert s. induction n as [|n IH]; intros s Hs Hc; cbn [replicate iterM].
  { change (Z.of_nat 0) with 0. by rewrite issue_0. }
  replace (Z.of_nat (S n)) with (1 + Z.of_nat n) in * by lia.
  destruct (can_record_split (Z.of_nat n) s ltac:(lia) Hs Hc) as [Hc1 Hcn].
  destruct (record_access_ok s Hs Hc1) as [E Hs1]. rewrite (bind_eq _ _ _ _ _ E).
  destruct (IH _ Hs1 Hcn) as [E2 Hs2]. by rewrite E2, issue_add in *.
Qed.

Lemma eviction_leaves_at p s n :
  sch_leaf_bits s = leaf_bits p ->
  (fun offset => eviction_leaf_at p (completed_evictions s + offset)) <$> seqZ 0 n = eviction_leaves s n.
Proof.
  intros Hb. unfold eviction_leaves, eviction_leaf_at. rewrite Hb. apply list_eq. intros i.
  rewrite !list_lookup_fmap. destruct (decide (Z.of_nat i < n)).
  - by rewrite !(proj2 (lookup_seqZ _ _ _ _)) by (split; [reflexivity|done]).
  - rewrite !lookup_seqZ_ge by lia. done.
Qed.

Lemma drain_evictions_spec (o : Oram) A T budget :
  oram_inv o A T -> 0 <= budget ->
  let n := Z.min budget (debt (schedule o)) in
  exists o' T', drain_evictions budget o = (Ok n, o') /\ oram_inv o' A T' /\
    co_params o' = co_params o /\ pos_map o' = pos_map o /\ rng o' = rng o /\
    schedule o' = advance n (schedule o) /\ lenZ (occ (stash o')) <= lenZ (occ (stash o)).
Proof.
  intros Ho Hbud n. pose proof (oi_params _ _ _ Ho) as Hp. pose proof (oi_schedule _ _ _ Ho) as Hs.
  pose proof (debt_nonneg _ Hs) as Hd. unfold drain_evictions. rewrite bind_gets, bind_lift, pending_evictions_ok by done.
  fold n. destruct (n =? 0) eqn:En; zbool.
  { exists o, T. rewrite En, advance_0. done. }
  rewrite bind_gets, eviction_leaves_at by apply Ho. set (p := co_params o) in *.
  set (lfs := eviction_leaves (schedule o) n).
  assert (lenZ lfs = n) as Hl.
  { unfold lfs, eviction_leaves. rewrite lenZ_fmap. unfold lenZ. rewrite length_seqZ. lia. }
  assert (Forall (leaf_ok p) lfs) as Hlfs.
  { apply Forall_fmap, Forall_true. intros i. unfold leaf_ok. simpl.
    pose proof (ok_leaves p Hp) as ->. rewrite (oi_bits _ _ _ Ho). apply reverse_bits_mod_range.
    pose proof (ok_bits p Hp). fold p. lia. }
  destruct (read_overlays_ok o A T lfs Ho Hlfs) as (o1 & mo & po & Er & Ho1 & (Hp1 & Hpm1 & Hst1 & Hr1 & Hs1) & Hmo & Hpo).
  fold p in Er, Hmo, Hpo, Hp1. rewrite (bind_eq _ _ _ _ _ Er).
  destruct (evict_paths_spec p (pos_map o) A lfs (concat (path_nodes p <$> lfs)) Hp (oi_fits _ _ _ Ho) Hlfs) with
    (st := stash o) (T := T) (mo := mo) (po := po) as (T' & st' & mo' & po' & Ee & Hbl' & Hout & Hmo' & Hpo' & Hle);
    [|apply Ho|done|done|].
  { apply Forall_forall. intros lf Hlf m Hm. apply elem_of_concat. exists (path_nodes p lf).
    split; [by apply list_elem_of_fmap_2|done]. }
  erewrite (bind_eq (on_stash _)) by (apply on_stash_eq; rewrite Hst1; exact Ee).
  pose proof (oi_stores _ _ _ Ho1) as Hsto. rewrite Hp1 in Hsto.
  destruct (write_overlays_ok (set_stash st' o1) T T' lfs mo' po') as
    (o3 & Ew & (Hp3 & Hpm3 & Hst3 & Hr3 & Hs3) & Hs4); cbn [co_params set_stash]; rewrite ?Hp1; try done.
  { apply Hbl'. }
  cbn [co_params set_stash] in Ew, Hs4, Hp3. rewrite Hp1 in Ew, Hs4, Hp3. rewrite (bind_eq _ _ _ _ _ Ew).
  destruct (complete_loop lfs (schedule o) Hs) as [Ec Hs5]; [rewrite Hl; unfold n; lia|].
  erewrite (bind_eq (on_schedule _)) by (apply on_schedule_eq; rewrite Hs3; cbn; rewrite Hs1; exact Ec).
  rewrite Hl in *.
  assert (oram_inv (set_schedule (advance n (schedule o)) o3) A T') as Ho4.
  { split; cbn; rewrite ?Hp3; try done; [apply Ho| |exact (oi_bits _ _ _ Ho)].
    rewrite Hpm3, Hst3. cbn. by rewrite Hpm1. }
  rewrite (bind_eq _ _ _ _ _ (self_check_stash_ok _ _ _ Ho4)).
  exists (set_schedule (advance n (schedule o)) o3), T'.
  split_and!; [done|done|exact Hp3|cbn; rewrite Hpm3; exact Hpm1|cbn; rewrite Hr3; exact Hr1|done|].
  change (lenZ (occ (stash o3)) <= lenZ (occ (stash o))). by rewrite Hst3.
Qed.

Lemma dummy_access_batch_spec (o : Oram) A T count :
  oram_inv o A T -> 0 <= count -> can_record count (schedule o) ->
  exists o', dummy_access_batch count o = (Ok tt, o') /\ oram_inv o' A T /\
    co_params o' = co_params o /\ pos_map o' = pos_map o /\ stash o' = stash o /\
    rng o' = (leaf_stream (co_params o) (Z.to_nat count) (rng o)).2 /\ schedule o' = issue count (schedule o).
Proof.
  intros Ho Hc Hrec. pose proof (oi_params _ _ _ Ho) as Hp. pose proof (oi_schedule _ _ _ Ho) as Hs.
  unfold dummy_access_batch. destruct (count =? 0) eqn:E0; zbool.
  { exists o. subst. by rewrite issue_0. }
  rewrite bind_gets. set (p := co_params o) in *.
  destruct (random_leaves_eq p Hp (Z.to_nat count) (rng o)) as (Er & _ & Hlfs).
  erewrite (bind_eq (on_rng _)) by (apply on_rng_eq; exact Er).
  set (stream := leaf_stream p (Z.to_nat count) (rng o)) in *.
  pose proof (oram_inv_rng o A T stream.2 Ho) as Ho0.
  destruct (read_overlays_ok (set_rng stream.2 o) A T stream.1 Ho0 Hlfs) as
    (o1 & mo & po & E1 & Ho1 & (Hp1 & Hpm1 & Hst1 & Hr1 & Hs1) & Hmo & Hpo).
  cbn [co_params set_rng] in E1, Hmo, Hpo, Hp1. fold p in E1, Hmo, Hpo, Hp1. rewrite (bind_eq _ _ _ _ _ E1).
  destruct (write_overlays_ok o1 T T stream.1 mo po) as
    (o2 & Ew & (Hp2 & Hpm2 & Hst2 & Hr2 & Hs2) & Hs3); rewrite ?Hp1; try done; [| |].
  { pose proof (oi_stores _ _ _ Ho1) as Hsto. by rewrite Hp1 in Hsto. }
  { apply Ho. }
  rewrite Hp1 in Ew, Hs3. rewrite (bind_eq _ _ _ _ _ Ew).
  destruct (record_loop (Z.to_nat count) (schedule o) Hs) as [Ec Hs5]; [by rewrite Z2Nat.id|].
  rewrite Z2Nat.id in * by done.
  erewrite (bind_eq (on_schedule _)) by (apply on_schedule_eq; rewrite Hs2, Hs1; exact Ec).
  assert (oram_inv (set_schedule (issue count (schedule o)) o2) A T) as Ho4.
  { split; cbn; rewrite ?Hp2, ?Hp1; try done; [apply Ho| |apply Ho].
    rewrite Hpm2, Hst2, Hpm1, Hst1. apply Ho. }
  rewrite (self_check_stash_ok _ _ _ Ho4). eexists. split; [done|]. split; [exact Ho4|].
  split_and!; [cbn; by rewrite Hp2|cbn; by rewrite Hpm2, Hpm1|cbn; by rewrite Hst2, Hst1|cbn; by rewrite Hr2, Hr1|done].
Qed.

End Drain.
