(* ===== verification/Build.v ===== *)
(** * Trusted initial images ([src/src/circuit.rs], [build_trusted*])

    The offline builder plans the placement of all blocks on metadata buckets,
    writes both stores once and puts the remaining blocks in the stash. *)

From S2P Require Import Prelude Ct Block Params Store Schedule Bucket PosMap Stash Overlay Rng State Circuit.

(** The trait [TrustedBlockSource]. *)
Class TrustedBlockSource (S : Type) : Type := {
  src_logical_blocks : S -> Z;
  src_block_size : S -> Z;
  src_read_block : Z -> M S bytes
}.

(** Mirror of [struct VecBlockSource]. *)
Record VecBlockSource : Type := mkVecSource { vs_blocks : list bytes; vs_block_size : Z }.

(** [<VecBlockSource as TrustedBlockSource>::read_block] *)
Definition vec_read_block (id : Z) : M VecBlockSource bytes :=
  let* s := gets (fun s => s) in
  lift (match (if 0 <=? id then vs_blocks s !! Z.to_nat id else None) with
        | Some b => Ok b
        | None => Err (InvalidInput "logical block {} out of range {}")
        end).

#[export] Instance vec_block_source : TrustedBlockSource VecBlockSource := {|
  src_logical_blocks := fun s => lenZ (vs_blocks s);
  src_block_size := vs_block_size;
  src_read_block := vec_read_block
|}.

(** ** Planning the placement on metadata *)

(** The slot loop of [place_initial_meta]. *)
Fixpoint place_in_slots (slots : list CircuitMetaSlot) (idxs : list Z) (m : CircuitMetaSlot)
    : outcome (option (list CircuitMetaSlot)) :=
  match idxs with
  | [] => Ok None
  | i :: idxs =>
      let? s := indexZ slots i in
      if negb (ms_occupied s) then let? slots' := updateZ slots i m in Ok (Some slots')
      else place_in_slots slots idxs m
  end.

(** The node loop of [place_initial_meta]. *)
Fixpoint place_on_nodes (p : OramParams) (buckets : list CircuitMetaBucket) (nodes : list Z)
    (m : CircuitMetaSlot) : outcome (option (list CircuitMetaBucket)) :=
  match nodes with
  | [] => Ok None
  | n :: nodes =>
      let? b := indexZ buckets n in
      let? r := place_in_slots (mb_slots b) (seqZ 0 (bucket_size p)) m in
      match r with
      | Some slots => let? buckets' := updateZ buckets n (mkMetaBucket slots) in Ok (Some buckets')
      | None => place_on_nodes p buckets nodes m
      end
  end.

(** [place_initial_meta]: [None] when the whole path is full. *)
Definition place_initial_meta (p : OramParams) (buckets : list CircuitMetaBucket) (logical_id lf : Z)
    : outcome (option (list CircuitMetaBucket)) :=
  place_on_nodes p buckets (reverse (path_nodes p lf)) (meta_real logical_id lf).

(** The state of the placement loop. *)
Record build_state (R : Type) : Type := mkBuild {
  bd_rng : R;
  bd_pos : list Z;
  bd_buckets : list CircuitMetaBucket;
  bd_stash_ids : list (Z * Z)
}.
Arguments mkBuild {R}. Arguments bd_rng {R}. Arguments bd_pos {R}.
Arguments bd_buckets {R}. Arguments bd_stash_ids {R}.

Section Plan.
Context {R : Type} `{Rng R} (p : OramParams).

(** One turn of the placement loop of [build_trusted_from_source]. *)
Definition place_block (st : build_state R) (logical_id : Z) : outcome (build_state R) :=
  let (lf_o, rng') := random_leaf p (bd_rng st) in
  let? lf := lf_o in
  let pos := bd_pos st ++ [lf] in
  let? r := place_initial_meta p (bd_buckets st) logical_id lf in
  match r with
  | Some buckets => Ok (mkBuild rng' pos buckets (bd_stash_ids st))
  | None =>
      let ids := bd_stash_ids st ++ [(logical_id, lf)] in
      if stash_capacity p <? lenZ ids then Err (StashOverflow (lenZ ids) (stash_capacity p))
      else Ok (mkBuild rng' pos (bd_buckets st) ids)
  end.

Definition plan_blocks (r : R) : outcome (build_state R) :=
  ofold place_block
    (mkBuild r [] (replicate (Z.to_nat (bucket_count p)) (meta_bucket_dummy (bucket_size p))) [])
    (seqZ 0 (logical_blocks p)).

End Plan.

(** ** Writing the image *)

Section Write.
Context {MS PS S : Type} `{PageStore MS} `{PageStore PS} `{TrustedBlockSource S} (p : OramParams).

(** The loop of [write_initial_metadata]; the buffer is reused. *)
Fixpoint write_meta_loop (encoded : bytes) (l : list (Z * CircuitMetaBucket)) : M MS unit :=
  match l with
  | [] => ret tt
  | (node_idx, bucket) :: l =>
      let* encoded := lift (meta_bucket_encode_into bucket (bucket_size p) encoded) in
      let* _ := ps_write_page node_idx encoded in
      write_meta_loop encoded l
  end.

(** [write_initial_metadata] *)
Definition write_initial_metadata (buckets : list CircuitMetaBucket) : M MS unit :=
  let* _ := guardm (lenZ buckets =? bucket_count p) (InvalidInput "metadata bucket count {} != expected {}") in
  write_meta_loop (zeros (circuit_meta_page_bytes (bucket_size p))) (enumerate buckets).

(** [read_source_block] *)
Definition read_source_block (logical_id : Z) : M S bytes :=
  let* payload := src_read_block logical_id in
  let* _ := guardm (lenZ payload =? block_size p)
              (InvalidInput "source payload for logical block {} has {} bytes, expected {}") in
  ret payload.

(** The slots of one payload page. *)
Fixpoint fill_payload_page (encoded : bytes) (slots : list (Z * CircuitMetaSlot)) : M S bytes :=
  match slots with
  | [] => ret encoded
  | (slot_idx, meta) :: slots =>
      if ms_occupied meta then
        let* payload := read_source_block (ms_logical_id meta) in
        let* encoded := lift (splice encoded (slot_idx * block_size p) payload) in
        fill_payload_page encoded slots
      else fill_payload_page encoded slots
  end.

(** The loop of [write_initial_payloads]. *)
Fixpoint write_payload_loop (l : list (Z * CircuitMetaBucket)) : M (PS * S) unit :=
  match l with
  | [] => ret tt
  | (node_idx, bucket) :: l =>
      let* encoded := zoom snd (fun s t => (t.1, s))
        (fill_payload_page (zeros (circuit_payload_page_bytes (bucket_size p) (block_size p)))
           (enumerate (mb_slots bucket))) in
      let* _ := zoom fst (fun s t => (s, t.2)) (ps_write_page node_idx encoded) in
      write_payload_loop l
  end.

(** [write_initial_payloads] *)
Definition write_initial_payloads (buckets : list CircuitMetaBucket) : M (PS * S) unit :=
  let* _ := guardm (lenZ buckets =? bucket_count p) (InvalidInput "metadata bucket count {} != expected {}") in
  write_payload_loop (enumerate buckets).

(** The stash loop of [build_trusted_from_source]. *)
Fixpoint read_stash_blocks (ids : list (Z * Z)) : M S (list OramBlock) :=
  match ids with
  | [] => ret []
  | (logical_id, lf) :: ids =>
      let* payload := read_source_block logical_id in
      let* b := lift (block_real logical_id lf payload (block_size p)) in
      let* rest := read_stash_blocks ids in
      ret (b :: rest)
  end.

(** [validate_block_source] *)
Definition validate_block_source (s : S) : outcome unit :=
  let? _ := guardo (src_logical_blocks s =? logical_blocks p)
              (InvalidInput "block source has {} logical blocks, expected {}") in
  guardo (src_block_size s =? block_size p) (InvalidInput "block source block_size {} != expected {}").

End Write.

Section Builder.
Context `{Subtle} {MS PS R : Type} `{PageStore MS} `{PageStore PS} `{Rng R}.

(** [CircuitOram::build_trusted_from_source] *)
Definition build_trusted_from_source {S} `{TrustedBlockSource S} (p : OramParams) (ms : MS) (ps : PS)
    (source : S) (seed : bytes) : outcome (CircuitOram MS PS R) :=
  let? _ := validate_circuit_stores p ms ps in
  let? _ := validate_block_source p source in
  let? st := plan_blocks p (from_seed seed : R) in
  let (r1, ms) := write_initial_metadata p (bd_buckets st) ms in
  let? _ := r1 in
  let (r2, pss) := write_initial_payloads p (bd_buckets st) (ps, source) in
  let? _ := r2 in
  let (r3, source) := read_stash_blocks p (bd_stash_ids st) pss.2 in
  let? stash := r3 in
  let stash := pad_stash (stash_capacity p) (block_size p) stash in
  let? _ := check_stash (stash_capacity p) stash in
  Ok (mkOram p ms pss.1 (bd_pos st) stash (bd_rng st) (schedule_new p)).

(** [CircuitOram::build_trusted] *)
Definition build_trusted (p : OramParams) (ms : MS) (ps : PS) (blocks : list bytes) (seed : bytes)
    : outcome (CircuitOram MS PS R) :=
  build_trusted_from_source p ms ps (mkVecSource blocks (block_size p)) seed.

(** [CircuitOram::build_trusted_from_iter]: the iterator's items are collected,
    the first error wins. *)
Definition build_trusted_from_iter (p : OramParams) (ms : MS) (ps : PS) (items : list (outcome bytes))
    (seed : bytes) : outcome (CircuitOram MS PS R) :=
  let? blocks := omap_m (fun item => item) items in
  build_trusted p ms ps blocks seed.

End Builder.
