(* ===== verification/BuildProofs.v ===== *)
(** * Correctness of the trusted builder

    The placement plan: after [k] blocks the metadata buckets and the list of
    overflowing ids hold exactly the blocks [0 .. k - 1], each at its leaf and on its
    path.  The image that [build_trusted_from_source] writes from it satisfies the
    controller's invariant with the source's blocks as the array. *)

From S2P Require Import Prelude Ct Block Params Store Writable Schedule Bucket PosMap Stash Overlay Evict EvictPlan EvictPath.
From S2P Require Import Rng State Circuit Blocks CircuitInv Build.

(** Occupied metadata slots. *)
Definition occm (l : list CircuitMetaSlot) : list CircuitMetaSlot := filter (fun m => ms_occupied m = true) l.

Definition meta_of (il : Z * Z) : CircuitMetaSlot := meta_real il.1 il.2.

Section Slots.
Context (p : OramParams) (Hp : params_ok p).

Lemma occm_app l1 l2 : occm (l1 ++ l2) = occm l1 ++ occm l2.
Proof. apply filter_app. Qed.
Lemma occm_cons_true m l : ms_occupied m = true -> occm (m :: l) = m :: occm l.
Proof. intros. unfold occm. by rewrite filter_cons_True. Qed.
Lemma occm_cons_false m l : ms_occupied m = false -> occm (m :: l) = occm l.
Proof. intros. unfold occm. rewrite filter_cons_False; [done|]. by rewrite H. Qed.

Lemma place_in_slots_spec pre rest m :
  place_in_slots (pre ++ rest) (seqZ (lenZ pre) (lenZ rest)) m = Ok None \/
  exists a s b, pre ++ rest = a ++ s :: b /\ ms_occupied s = false /\
    place_in_slots (pre ++ rest) (seqZ (lenZ pre) (lenZ rest)) m = Ok (Some (a ++ m :: b)).
Proof.
  revert pre. induction rest as [|s rest IH]; intros pre; [by left|].
  rewrite lenZ_cons, seqZ_cons by (pose proof (lenZ_nonneg rest); lia). cbn [place_in_slots].
  rewrite indexZ_app by done. cbn [obind]. destruct (ms_occupied s) eqn:Es; cbn [negb].
  - specialize (IH (pre ++ [s])). rewrite lenZ_app in IH. change (lenZ [s]) with 1 in IH.
    rewrite <-!app_assoc in IH. cbn [app] in IH.
    replace (Z.pred (1 + lenZ rest)) with (lenZ rest) by lia. exact IH.
  - right. exists pre, s, rest. rewrite updateZ_app by done. done.
Qed.

Definition slots_sized (b : CircuitMetaBucket) : Prop := lenZ (mb_slots b) = bucket_size p.

Lemma place_on_nodes_spec buckets nodes m :
  Forall slots_sized buckets -> Forall (fun n => 0 <= n < lenZ buckets) nodes ->
  place_on_nodes p buckets nodes m = Ok None \/
  exists n a s b, n ∈ nodes /\ buckets !! Z.to_nat n = Some (mkMetaBucket (a ++ s :: b)) /\
    ms_occupied s = false /\
    place_on_nodes p buckets nodes m = Ok (Some (<[Z.to_nat n := mkMetaBucket (a ++ m :: b)]> buckets)).
Proof.
  intros Hsz. induction 1 as [|n nodes Hn _ IH]; cbn [place_on_nodes]; [by left|].
  unfold lenZ in Hn. destruct (lookup_lt_is_Some_2 buckets (Z.to_nat n)) as [b Hb]; [lia|].
  rewrite (indexZ_lookup _ _ _ Hb) by lia. cbn [obind].
  pose proof (Forall_lookup_1 _ _ _ _ Hsz Hb) as Hl. unfold slots_sized in Hl.
  destruct (place_in_slots_spec [] (mb_slots b) m) as [E|(a & s & c & Hs & Ho & E)];
    change (lenZ []) with 0 in E; cbn [app] in E; rewrite Hl in E; rewrite E; cbn [obind].
  - destruct IH as [?|(n' & a & s & c & Hn' & ?)]; [by left|right]. exists n', a, s, c. split; [by right|done].
  - right. exists n, a, s, c. unfold updateZ. case_match eqn:E2; [|unfold lenZ in *; lia]. cbn [obind].
    split_and!; [left|rewrite Hb; destruct b; simpl in *; by subst|done|done].
Qed.

End Slots.

Section Plan.
Context {R : Type} `{Rng R} (p : OramParams) (Hp : params_ok p).

(** A slot of bucket [n] in a plan whose position map is [pos]. *)
Definition slot_placed (pos : list Z) (n : nat) (m : CircuitMetaSlot) : Prop :=
  m = meta_dummy \/
  exists i lf, m = meta_real (Z.of_nat i) lf /\ pos !! i = Some lf /\ leaf_ok p lf /\ Z.of_nat n ∈ path_nodes p lf.

Record plan_inv (st : build_state R) (k : Z) : Prop := {
  pi_pos : lenZ (bd_pos st) = k;
  pi_leaves : Forall (leaf_ok p) (bd_pos st);
  pi_count : lenZ (bd_buckets st) = bucket_count p;
  pi_sized : Forall (slots_sized p) (bd_buckets st);
  pi_placed : forall n b m, bd_buckets st !! n = Some b -> m ∈ mb_slots b -> slot_placed (bd_pos st) n m;
  pi_stash : lenZ (bd_stash_ids st) <= stash_capacity p;
  pi_blocks : occm (concat (mb_slots <$> bd_buckets st)) ++ (meta_of <$> bd_stash_ids st) ≡ₚ
    meta_of <$> enumerate (bd_pos st)
}.

Lemma slot_placed_mono pos lf n m : slot_placed pos n m -> slot_placed (pos ++ [lf]) n m.
Proof.
  intros [->|(i & lf' & -> & Hi & ? & ?)]; [by left|right]. exists i, lf'.
  split_and!; [done|by apply lookup_app_l_Some|done|done].
Qed.

Lemma enumerate_snoc {A} (l : list A) x : enumerate (l ++ [x]) = enumerate l ++ [(lenZ l, x)].
Proof. unfold enumerate. by rewrite enumerate_from_app. Qed.

Lemma concat_insert buckets n a s b m :
  buckets !! n = Some (mkMetaBucket (a ++ s :: b)) -> ms_occupied s = false -> ms_occupied m = true ->
  occm (concat (mb_slots <$> <[n := mkMetaBucket (a ++ m :: b)]> buckets)) ≡ₚ
  m :: occm (concat (mb_slots <$> buckets)).
Proof.
  intros Hn Hs Hm. pose proof (lookup_lt_Some _ _ _ Hn) as Hlt.
  rewrite <-(take_drop_middle buckets n _ Hn) at 2.
  rewrite insert_take_drop by done.
  rewrite !fmap_app, !fmap_cons, !concat_app. cbn [concat mb_slots].
  rewrite !occm_app, occm_cons_true, occm_cons_false by done.
  rewrite <-!app_assoc. cbn [app]. rewrite <-!Permutation_middle. done.
Qed.

Lemma place_block_ok st k :
  plan_inv st k ->
  (exists st', place_block p st k = Ok st' /\ plan_inv st' (k + 1)) \/
  place_block p st k = Err (StashOverflow (stash_capacity p + 1) (stash_capacity p)).
Proof.
  intros [Hpos Hlv Hcnt Hsz Hpl Hst Hbl]. unfold place_block.
  destruct (random_leaf_eq p Hp (bd_rng st)) as [-> Hlf]. cbn [obind].
  set (lf := next_leaf p (bd_rng st)) in *. unfold place_initial_meta.
  assert (Forall (leaf_ok p) (bd_pos st ++ [lf])) as Hlv' by (apply Forall_app; split; [done|by apply Forall_singleton]).
  assert (lenZ (bd_pos st ++ [lf]) = k + 1) as Hpos' by (rewrite lenZ_app, Hpos; done).
  assert (meta_of <$> enumerate (bd_pos st ++ [lf]) = (meta_of <$> enumerate (bd_pos st)) ++ [meta_real k lf]) as Hen.
  { rewrite enumerate_snoc, fmap_app, Hpos. done. }
  destruct (place_on_nodes_spec p (bd_buckets st) (reverse (path_nodes p lf)) (meta_real k lf) Hsz)
    as [E|(n & a & s & b & Hn & Hb & Hs & E)].
  { apply Forall_forall. intros n Hn. rewrite elem_of_reverse in Hn. rewrite Hcnt. by apply (path_nodes_range p Hp lf). }
  - rewrite E. cbn [obind]. rewrite lenZ_app. change (lenZ [(k, lf)]) with 1.
    destruct (stash_capacity p <? lenZ (bd_stash_ids st) + 1) eqn:Ec; zbool.
    + right. do 2 f_equal. lia.
    + left. eexists. split; [done|]. split; cbn [bd_pos bd_buckets bd_stash_ids]; try done.
      * intros n b m Hn Hm. eapply slot_placed_mono, Hpl; done.
      * rewrite lenZ_app. change (lenZ [(k, lf)]) with 1. lia.
      * rewrite Hen, fmap_app, app_assoc. by rewrite Hbl.
  - left. rewrite E. cbn [obind]. eexists. split; [done|].
    rewrite elem_of_reverse in Hn. pose proof (path_nodes_range p Hp lf n Hlf Hn) as Hr.
    split; cbn [bd_pos bd_buckets bd_stash_ids]; try done.
    + unfold lenZ in *. by rewrite length_insert.
    + apply Forall_insert; [done|]. eapply Forall_lookup_1 in Hsz; [|exact Hb].
      unfold slots_sized in *. cbn [mb_slots] in *. by rewrite lenZ_app, lenZ_cons in *.
    + intros n' b' m Hn' Hm. destruct (decide (Z.to_nat n = n')) as [<-|Hne].
      * rewrite list_lookup_insert_eq in Hn' by by eapply lookup_lt_Some. simplify_eq/=.
        apply elem_of_app in Hm as [Hm|[->|Hm]%elem_of_cons].
        -- eapply slot_placed_mono, Hpl; [exact Hb|]. cbn. apply elem_of_app. by left.
        -- right. exists (length (bd_pos st)), lf. split_and!; [by f_equal| |done|by rewrite Z2Nat.id by lia].
           by rewrite lookup_app_r, Nat.sub_diag.
        -- eapply slot_placed_mono, Hpl; [exact Hb|]. cbn. apply elem_of_app. right. by right.
      * rewrite list_lookup_insert_ne in Hn' by done. eapply slot_placed_mono, Hpl; done.
    + rewrite Hen, (concat_insert _ _ a s b) by done. rewrite <-Hbl. cbn [app]. apply Permutation_cons_append.
Qed.

Lemma plan_blocks_ok r :
  (exists st, plan_blocks p r = Ok st /\ plan_inv st (logical_blocks p)) \/
  plan_blocks p r = Err (StashOverflow (stash_capacity p + 1) (stash_capacity p)).
Proof.
  unfold plan_blocks. assert (0 <= logical_blocks p) as Hn by (destruct Hp; lia).
  assert (0 < bucket_size p) as Hb by apply Hp. pose proof (leaves_pos p Hp) as Hl.
  match goal with |- context [ofold _ ?s _] => set (st0 := s) end.
  assert (plan_inv st0 0) as H0.
  { split; unfold st0; cbn [bd_pos bd_buckets bd_stash_ids]; try done.
    - unfold lenZ. rewrite length_replicate. unfold bucket_count. lia.
    - apply Forall_replicate. unfold slots_sized, lenZ, meta_bucket_dummy. cbn. rewrite length_replicate. lia.
    - intros n b m [-> _]%lookup_replicate Hm%elem_of_replicate. left. by destruct Hm.
    - apply Hp.
    - rewrite app_nil_r. assert (occm (concat (mb_slots <$> replicate (Z.to_nat (bucket_count p))
        (meta_bucket_dummy (bucket_size p)))) = []) as ->; [|done].
      rewrite fmap_replicate. induction (Z.to_nat (bucket_count p)) as [|k IH]; [done|]. cbn [replicate concat].
      rewrite occm_app, IH, app_nil_r. cbn. by induction (Z.to_nat (bucket_size p)). }
  rewrite <-(Z2Nat.id (logical_blocks p)) by done. generalize (Z.to_nat (logical_blocks p)) as k.
  assert (forall k i st, plan_inv st i ->
    (exists st', ofold (place_block p) st (seqZ i (Z.of_nat k)) = Ok st' /\ plan_inv st' (i + Z.of_nat k)) \/
    ofold (place_block p) st (seqZ i (Z.of_nat k)) = Err (StashOverflow (stash_capacity p + 1) (stash_capacity p)))
    as Hgen; [|intros k; by apply (Hgen k 0)].
  intros k. induction k as [|k IH]; intros i st Hst.
  { left. exists st. by rewrite Z.add_0_r. }
  rewrite seqZ_cons by lia. replace (Z.pred (Z.of_nat (S k))) with (Z.of_nat k) by lia. cbn [ofold].
  destruct (place_block_ok st i Hst) as [(st1 & -> & Hst1)| ->]; [|by right]. cbn [obind].
  destruct (IH (i + 1) st1 Hst1) as [(st2 & E & Hst2)|E]; [left|by right].
  exists st2. split; [exact E|]. by replace (i + Z.of_nat (S k)) with (i + 1 + Z.of_nat k) by lia.
Qed.

End Plan.

(** A source that serves one array of blocks. *)
Class LawfulSource (S : Type) `{TrustedBlockSource S} : Type := {
  src_ok : S -> Prop;
  src_content : S -> Z -> bytes;
  src_read_ok : forall s id, src_ok s -> 0 <= id < src_logical_blocks s ->
    exists s', src_read_block id s = (Ok (src_content s id), s') /\ src_ok s' /\
      src_logical_blocks s' = src_logical_blocks s /\ src_content s' = src_content s;
  src_content_ok : forall s id, src_ok s -> 0 <= id < src_logical_blocks s ->
    lenZ (src_content s id) = src_block_size s /\ bytes_ok (src_content s id)
}.

(** The vector source is lawful on blocks of the right size. *)
Definition vec_ok (s : VecBlockSource) : Prop :=
  Forall (fun b => lenZ b = vs_block_size s /\ bytes_ok b) (vs_blocks s).

Lemma vec_lookup (s : VecBlockSource) id :
  0 <= id < lenZ (vs_blocks s) -> vs_blocks s !! Z.to_nat id = Some (arr_get (vs_blocks s) id).
Proof.
  intros Hid. unfold arr_get, lenZ in *.
  by destruct (lookup_lt_is_Some_2 (vs_blocks s) (Z.to_nat id)) as [b ->]; [lia|].
Qed.

#[export] #[refine] Instance vec_lawful : LawfulSource VecBlockSource := {|
  src_ok := vec_ok;
  src_content := fun s id => arr_get (vs_blocks s) id
|}.
Proof.
  - intros s id Hok Hid. exists s. split; [|done]. change (src_read_block id s) with (vec_read_block id s). unfold vec_read_block. rewrite bind_gets.
    rewrite (proj2 (Z.leb_le 0 id)) by apply Hid. by rewrite (vec_lookup s id Hid).
  - intros s id Hok Hid. pose proof (vec_lookup s id Hid) as E. by eapply Forall_lookup_1 in Hok; [|exact E].
Defined.

Section Image.
Context (p : OramParams) (Hp : params_ok p) (f : Z -> bytes).

(** The block of a planned slot. *)
Definition to_block (m : CircuitMetaSlot) : OramBlock :=
  meta_block m (if ms_occupied m then f (ms_logical_id m) else zeros (block_size p)).

Definition planned_tree (buckets : list CircuitMetaBucket) (n : Z) : list OramBlock :=
  match buckets !! Z.to_nat n with Some b => to_block <$> mb_slots b | None => [] end.

Lemma block_meta_to_block m : block_meta (to_block m) = m.
Proof. by destruct m. Qed.

Lemma occ_to_block l : occ (to_block <$> l) = to_block <$> occm l.
Proof.
  induction l as [|m l IH]; [done|]. cbn [fmap list_fmap]. destruct (ms_occupied m) eqn:E.
  - by rewrite occ_cons_true, occm_cons_true, IH.
  - by rewrite occ_cons_false, occm_cons_false, IH.
Qed.

Lemma planned_tree_blocks buckets :
  lenZ buckets = bucket_count p -> tree_blocks p (planned_tree buckets) = to_block <$> concat (mb_slots <$> buckets).
Proof.
  intros Hl. unfold tree_blocks. rewrite <-Hl.
  assert (planned_tree buckets <$> seqZ 0 (lenZ buckets) = (fun b => to_block <$> mb_slots b) <$> buckets) as ->.
  { apply list_eq. intros i. rewrite !list_lookup_fmap. destruct (buckets !! i) as [b|] eqn:E; simpl.
    - assert (seqZ 0 (lenZ buckets) !! i = Some (Z.of_nat i)) as ->.
      { apply lookup_seqZ. apply lookup_lt_Some in E. unfold lenZ. lia. }
      simpl. unfold planned_tree. by rewrite Nat2Z.id, E.
    - rewrite lookup_seqZ_ge; [done|]. apply lookup_ge_None in E. unfold lenZ. lia. }
  clear Hl. induction buckets as [|b bks IH]; [done|]. cbn [fmap list_fmap concat]. rewrite fmap_app. f_equal. exact IH.
Qed.

Lemma planned_real_blocks pos :
  lenZ pos = logical_blocks p ->
  to_block <$> (meta_of <$> enumerate pos) = real_blocks pos (f <$> seqZ 0 (logical_blocks p)).
Proof.
  intros Hl. apply list_eq. intros i. rewrite lookup_real_blocks, !list_lookup_fmap, lookup_enumerate.
  destruct (pos !! i) as [lf|] eqn:E; [|done]. simpl.
  rewrite (proj2 (lookup_seqZ 0 _ i (Z.of_nat i))); [done|]. apply lookup_lt_Some in E. unfold lenZ in Hl. lia.
Qed.

Context (Hf : forall id, 0 <= id < logical_blocks p -> lenZ (f id) = block_size p /\ bytes_ok (f id)).
Context (Hids : logical_blocks p <= u64_max).

Lemma placed_block_ok pos n m :
  lenZ pos = logical_blocks p -> slot_placed p pos n m ->
  block_ok (block_size p) (to_block m) /\
  (ms_occupied m = true -> leaf_ok p (ms_leaf m) /\ Z.of_nat n ∈ path_nodes p (ms_leaf m)).
Proof.
  intros Hl [->|(i & lf & -> & Hi & Hlf & Hn)]; [split; [by apply dummy_ok|done]|].
  apply lookup_lt_Some in Hi. unfold lenZ in Hl. destruct (Hf (Z.of_nat i)) as [? ?]; [lia|].
  split; [|done]. split_and!; simpl; [words|by apply (leaf_ok_u32 p Hp)|done|done].
Qed.

Lemma planned_blocks_inv {R} `{Rng R} (st : build_state R) stash :
  plan_inv p st (logical_blocks p) ->
  lenZ stash = stash_capacity p -> Forall (block_ok (block_size p)) stash ->
  occ stash = to_block <$> (meta_of <$> bd_stash_ids st) ->
  blocks_inv p (bd_pos st) (f <$> seqZ 0 (logical_blocks p)) stash (planned_tree (bd_buckets st)).
Proof.
  intros [Hpos Hlv Hcnt Hsz Hpl Hst Hbl] Hsl Hsok Hocc. assert (0 < logical_blocks p) by apply Hp.
  assert (occ stash ++ occ (tree_blocks p (planned_tree (bd_buckets st))) ≡ₚ
    real_blocks (bd_pos st) (f <$> seqZ 0 (logical_blocks p))) as Hperm.
  { rewrite planned_tree_blocks, occ_to_block, Hocc by done.
    rewrite <-planned_real_blocks by done. rewrite <-fmap_app. f_equiv.
    rewrite Permutation_app_comm. exact Hbl. }
  split.
  - intros n Hn. unfold planned_tree, in_range in *.
    destruct (lookup_lt_is_Some_2 (bd_buckets st) (Z.to_nat n)) as [b Hb]; [unfold lenZ in Hcnt; lia|]. rewrite Hb.
    eapply Forall_lookup_1 in Hsz as Hbsz; [|exact Hb]. split; [split|].
    + rewrite lenZ_fmap. exact Hbsz.
    + apply Forall_fmap, Forall_forall. intros m Hm. by eapply placed_block_ok, Hpl.
    + intros b' Hb' Ho. apply list_elem_of_fmap in Hb' as (m & -> & Hm).
      destruct (placed_block_ok (bd_pos st) (Z.to_nat n) m Hpos (Hpl _ _ _ Hb Hm)) as [_ Hpp].
      rewrite Z2Nat.id in Hpp by lia. by apply Hpp.
  - split_and!; [done|done|]. apply Forall_forall. intros b Hb Ho.
    assert (b ∈ real_blocks (bd_pos st) (f <$> seqZ 0 (logical_blocks p))) as Hin.
    { rewrite <-Hperm. apply elem_of_app. left. by apply elem_of_occ. }
    apply list_elem_of_lookup in Hin as [i Hi]. rewrite lookup_real_blocks in Hi.
    destruct (bd_pos st !! i) as [lf|] eqn:E; [|done]. case_match; [|done]. simplify_eq/=.
    by eapply Forall_lookup_1 in Hlv.
  - done.
  - rewrite lenZ_fmap. unfold lenZ. rewrite length_seqZ. lia.
  - exact Hperm.
Qed.

(** The pages of a planned bucket. *)
Lemma planned_meta_page slots : meta_page (to_block <$> slots) = concat (meta_bytes <$> slots).
Proof. unfold meta_page. by rewrite list_fmap_compose, <-(list_fmap_compose to_block), (list_fmap_ext (block_meta ∘ to_block) id), list_fmap_id by (intros; apply block_meta_to_block). Qed.

End Image.

(** A store of the tree's shape on which the pages [f] have been written. *)
Definition image_holds {S} `{WritableStore S} (p : OramParams) (size : Z) (f : Z -> bytes) (s : S) : Prop :=
  ws_ok s /\ ps_page_count s = bucket_count p /\ ps_page_size s = size /\
  forall n, in_range (bucket_count p) n -> ws_holds s n (f n).

Section Write.
Context {MS : Type} `{WritableStore MS} (p : OramParams) (Hp : params_ok p).

(** A run over the whole tree. *)
Lemma ws_writes_image size f bks (pg : CircuitMetaBucket -> bytes) (s s' : MS) :
  ws_writes s 0 (pg <$> bks) s' -> ps_page_size s = size -> ps_page_count s = bucket_count p -> lenZ bks = bucket_count p ->
  (forall n b, in_range (bucket_count p) n -> bks !! Z.to_nat n = Some b -> f n = pg b) -> image_holds p size f s'.
Proof.
  intros (Hs & Hsz & Hc & _ & Hh) Hz Hn Hl Hf. split_and!; [done|congruence|congruence|]. intros n Hr.
  unfold in_range in Hr. destruct (lookup_lt_is_Some_2 bks (Z.to_nat n)) as [b Hb]; [unfold lenZ in Hl; lia|].
  rewrite (Hf n b) by done. specialize (Hh (Z.to_nat n) (pg b)). rewrite Z2Nat.id in Hh by lia. apply Hh.
  by rewrite list_lookup_fmap, Hb.
Qed.

Lemma write_meta_loop_ok bks k encoded (s : MS) :
  ws_ok s -> ps_page_size s = circuit_meta_page_bytes (bucket_size p) ->
  0 <= k -> k + lenZ bks <= ps_page_count s ->
  Forall (slots_sized p) bks -> lenZ encoded = circuit_meta_page_bytes (bucket_size p) ->
  exists s', write_meta_loop p encoded (enumerate_from k bks) s = (Ok tt, s') /\
    ws_writes s k ((fun b => concat (meta_bytes <$> mb_slots b)) <$> bks) s'.
Proof.
  intros Hs Hsize Hk Hkn Hbks. revert k encoded s Hs Hsize Hk Hkn.
  induction Hbks as [|b bks Hb _ IH]; intros k encoded s Hs Hsize Hk Hkn Henc.
  { exists s. split; [done|]. by apply ws_writes_nil. }
  rewrite lenZ_cons in *. pose proof (lenZ_nonneg bks). cbn [enumerate_from write_meta_loop].
  destruct b as [slots]. unfold slots_sized in Hb. cbn [mb_slots] in Hb.
  rewrite bind_lift, (meta_encode_slots (bucket_size p)) by done.
  assert (page_ok (ps_page_size s) (concat (meta_bytes <$> slots))) as Hpg.
  { split.
    - rewrite Hsize. rewrite (lenZ_concat META_SERIALIZED_LEN); [by rewrite lenZ_fmap, Hb|].
      apply Forall_fmap, Forall_true. intros. apply meta_bytes_length.
    - apply Forall_concat, Forall_fmap, Forall_true. intros. apply meta_bytes_ok. }
  destruct (ws_writes_cons s k (concat (meta_bytes <$> slots)) ((fun b => concat (meta_bytes <$> mb_slots b)) <$> bks) Hs Hk)
    as (s1 & E1 & Hs1 & Hz1 & Hc1 & Hw); [rewrite lenZ_cons, lenZ_fmap; lia|done|].
  rewrite (bind_eq _ _ _ _ _ E1).
  destruct (IH (k + 1) (concat (meta_bytes <$> slots)) s1) as (s2 & E2 & Hn2);
    [done|congruence|lia|lia|by rewrite <-Hsize; apply Hpg|].
  exists s2. split; [exact E2|by apply Hw].
Qed.

Lemma write_initial_metadata_ok bks (s : MS) g :
  ws_ok s -> ps_page_size s = circuit_meta_page_bytes (bucket_size p) -> ps_page_count s = bucket_count p ->
  lenZ bks = bucket_count p -> Forall (slots_sized p) bks ->
  exists s', write_initial_metadata p bks s = (Ok tt, s') /\
    image_holds p (circuit_meta_page_bytes (bucket_size p)) (meta_pages (planned_tree p g bks)) s'.
Proof.
  intros Hs Hsz Hc Hl Hbks. unfold write_initial_metadata. rewrite bind_guardm, Hl, Z.eqb_refl.
  destruct (write_meta_loop_ok bks 0 (zeros (circuit_meta_page_bytes (bucket_size p))) s) as (s' & E & Hn);
    [done|done|done|lia|done| |].
  { apply lenZ_zeros. pose proof (ok_bucket_size p Hp). unfold circuit_meta_page_bytes, META_SERIALIZED_LEN. lia. }
  exists s'. split; [exact E|]. eapply ws_writes_image; [exact Hn|done..|]. intros n b _ Hb.
  unfold meta_pages, planned_tree. rewrite Hb. apply planned_meta_page.
Qed.

End Write.

Section WritePayload.
Context {PS S : Type} `{WritableStore PS} `{LawfulSource S} (p : OramParams) (Hp : params_ok p).

(** The source still serves [f]. *)
Definition serves (f : Z -> bytes) (s : S) : Prop :=
  src_ok s /\ src_logical_blocks s = logical_blocks p /\ src_content s = f.

Context (f : Z -> bytes).
Context (Hf : forall id, 0 <= id < logical_blocks p -> lenZ (f id) = block_size p /\ bytes_ok (f id)).

Lemma read_source_block_ok s id :
  serves f s -> 0 <= id < logical_blocks p ->
  exists s', read_source_block p id s = (Ok (f id), s') /\ serves f s'.
Proof.
  intros (Hs & Hn & Hc) Hid. destruct (src_read_ok s id Hs) as (s' & E & Hs' & Hn' & Hc'); [by rewrite Hn|].
  exists s'. unfold read_source_block. rewrite (bind_eq _ _ _ _ _ E), bind_guardm, Hc.
  destruct (Hf id Hid) as [-> _]. rewrite Z.eqb_refl. split; [done|]. split_and!; congruence.
Qed.

Definition slot_in_range (m : CircuitMetaSlot) : Prop :=
  ms_occupied m = true -> 0 <= ms_logical_id m < logical_blocks p.

Lemma fill_payload_page_ok slots pre rest s :
  serves f s -> Forall slot_in_range slots -> rest = zeros (lenZ slots * block_size p) ->
  forall k, lenZ pre = k * block_size p ->
  exists s', fill_payload_page p (pre ++ rest) (enumerate_from k slots) s =
    (Ok (pre ++ concat ((fun m => payload (to_block p f m)) <$> slots)), s') /\ serves f s'.
Proof.
  intros Hs Hsl. revert pre rest s Hs. pose proof (ok_block_size p Hp) as Hbs.
  induction Hsl as [|m slots Hm _ IH]; intros pre rest s Hs Hrest k Hk; cbn [enumerate_from fill_payload_page].
  { exists s. subst. done. }
  pose proof (lenZ_nonneg slots). rewrite lenZ_cons in Hrest.
  assert (rest = zeros (block_size p) ++ zeros (lenZ slots * block_size p)) as ->.
  { subst rest. unfold zeros. rewrite <-replicate_add. f_equal. lia. }
  destruct (ms_occupied m) eqn:Em.
  - destruct (read_source_block_ok s _ Hs (Hm Em)) as (s1 & E1 & Hs1). rewrite (bind_eq _ _ _ _ _ E1), bind_lift.
    destruct (Hf _ (Hm Em)) as [Hl _].
    rewrite (splice_app pre (zeros (block_size p))) by (rewrite ?lenZ_zeros by lia; done).
    destruct (IH (pre ++ f (ms_logical_id m)) _ s1 Hs1 eq_refl (k + 1)) as (s2 & E2 & Hs2).
    { rewrite lenZ_app, Hl. lia. }
    exists s2. rewrite app_assoc, E2, <-app_assoc. split; [|done]. do 3 f_equal.
    cbn [fmap list_fmap concat]. unfold to_block, meta_block at 2. cbn [payload]. by rewrite Em.
  - destruct (IH (pre ++ zeros (block_size p)) _ s Hs eq_refl (k + 1)) as (s2 & E2 & Hs2).
    { rewrite lenZ_app, lenZ_zeros by lia. lia. }
    exists s2. rewrite app_assoc, E2, <-app_assoc. split; [|done]. do 3 f_equal.
    cbn [fmap list_fmap concat]. unfold to_block, meta_block at 2. cbn [payload]. by rewrite Em.
Qed.

Lemma write_payload_loop_ok bks k (s : PS) (src : S) :
  ws_ok s -> ps_page_size s = circuit_payload_page_bytes (bucket_size p) (block_size p) ->
  0 <= k -> k + lenZ bks <= ps_page_count s -> Forall (slots_sized p) bks ->
  Forall (fun b => Forall slot_in_range (mb_slots b)) bks -> serves f src ->
  exists s' src', write_payload_loop p (enumerate_from k bks) (s, src) = (Ok tt, (s', src')) /\ serves f src' /\
    ws_writes s k ((fun b => payload_page (to_block p f <$> mb_slots b)) <$> bks) s'.
Proof.
  intros Hs Hsize Hk Hkn Hbks Hrng. pose proof (ok_block_size p Hp) as Hbs. pose proof (ok_bucket_size p Hp) as Hbz.
  revert k s src Hs Hsize Hk Hkn Hrng.
  induction Hbks as [|b bks Hb _ IH]; intros k s src Hs Hsize Hk Hkn Hrng Hsrc.
  { exists s, src. split_and!; [done..|]. by apply ws_writes_nil. }
  apply Forall_cons in Hrng as [Hr Hrng]. rewrite lenZ_cons in *. pose proof (lenZ_nonneg bks).
  cbn [enumerate_from write_payload_loop]. unfold slots_sized in Hb.
  destruct (fill_payload_page_ok (mb_slots b) [] (zeros (circuit_payload_page_bytes (bucket_size p) (block_size p)))
    src Hsrc Hr ltac:(by rewrite Hb) 0 eq_refl) as (src1 & E1 & Hsrc1). cbn [app] in E1.
  set (pg := concat ((fun m => payload (to_block p f m)) <$> mb_slots b)) in *.
  erewrite bind_eq by (apply zoom_eq; exact E1). cbn [fst snd].
  assert (pg = payload_page (to_block p f <$> mb_slots b)) as Hpg.
  { unfold pg, payload_page. by rewrite <-list_fmap_compose. }
  assert (page_ok (ps_page_size s) pg) as Hok.
  { assert (Forall (fun x => lenZ x = block_size p /\ bytes_ok x)
      ((fun m => payload (to_block p f m)) <$> mb_slots b)) as Hall.
    { apply Forall_fmap, Forall_forall. intros m Hm. rewrite Forall_forall in Hr. specialize (Hr m Hm).
      unfold to_block, meta_block, slot_in_range in *. simpl. destruct (ms_occupied m); [auto|].
      split; [apply lenZ_zeros; lia|apply zeros_ok]. }
    split.
    - rewrite Hsize. unfold pg. rewrite (lenZ_concat (block_size p)); [by rewrite lenZ_fmap, Hb|].
      eapply Forall_impl; [exact Hall|]. by intros ? [].
    - apply Forall_concat. eapply Forall_impl; [exact Hall|]. by intros ? []. }
  destruct (ws_writes_cons s k pg ((fun b => payload_page (to_block p f <$> mb_slots b)) <$> bks) Hs Hk)
    as (s1 & E2 & Hs1 & Hz1 & Hc1 & Hw); [rewrite lenZ_cons, lenZ_fmap; lia|done|].
  erewrite bind_eq by (apply zoom_eq; exact E2). cbn [fst snd].
  destruct (IH (k + 1) s1 src1) as (s2 & src2 & E3 & Hsrc2 & Hn2); [done|congruence|lia|lia|done|done|].
  exists s2, src2. split_and!; [exact E3|done|]. cbn [fmap list_fmap]. rewrite <-Hpg. by apply Hw.
Qed.

Lemma write_initial_payloads_ok bks (s : PS) (src : S) :
  ws_ok s -> ps_page_size s = circuit_payload_page_bytes (bucket_size p) (block_size p) ->
  ps_page_count s = bucket_count p -> lenZ bks = bucket_count p -> Forall (slots_sized p) bks ->
  Forall (fun b => Forall slot_in_range (mb_slots b)) bks -> serves f src ->
  exists s' src', write_initial_payloads p bks (s, src) = (Ok tt, (s', src')) /\ serves f src' /\
    image_holds p (circuit_payload_page_bytes (bucket_size p) (block_size p)) (payload_pages (planned_tree p f bks)) s'.
Proof.
  intros Hs Hsz Hc Hl Hbks Hr Hsrc. unfold write_initial_payloads. rewrite bind_guardm, Hl, Z.eqb_refl.
  destruct (write_payload_loop_ok bks 0 s src) as (s' & src' & E & Hsrc' & Hn); [done|done|done|lia|done|done|done|].
  exists s', src'. split_and!; [exact E|done|]. eapply ws_writes_image; [exact Hn|done..|]. intros n b _ Hb.
  unfold payload_pages, planned_tree. by rewrite Hb.
Qed.

Lemma read_stash_blocks_ok ids (src : S) :
  serves f src -> Forall (fun il : Z * Z => 0 <= il.1 < logical_blocks p) ids ->
  exists src', read_stash_blocks p ids src = (Ok (to_block p f <$> (meta_of <$> ids)), src') /\ serves f src'.
Proof.
  intros Hsrc Hids. revert src Hsrc. induction Hids as [|[id lf] ids Hid _ IH]; intros src Hsrc; [by exists src|].
  cbn [read_stash_blocks]. destruct (read_source_block_ok src id Hsrc Hid) as (src1 & E1 & Hsrc1).
  rewrite (bind_eq _ _ _ _ _ E1), bind_lift. unfold block_real. destruct (Hf id Hid) as [-> _]. rewrite Z.eqb_refl.
  destruct (IH src1 Hsrc1) as (src2 & E2 & Hsrc2). rewrite (bind_eq _ _ _ _ _ E2). by exists src2.
Qed.

End WritePayload.

Section Builder.
Context `{SL : SubtleLaws} {MS PS R S : Type}.
Context `{PM : PageStore MS} `{PP : PageStore PS} `{Rng R} `{LS : LawfulSource S}.
Context (p : OramParams) (Hp : params_ok p) (Hfit : fits p) (Hids : logical_blocks p <= u64_max).

Lemma schedule_new_ok : schedule_ok (schedule_new p) /\ sch_leaf_bits (schedule_new p) = leaf_bits p.
Proof. pose proof (ok_bits p Hp). split; [|done]. split; simpl; unfold DEFAULT_EVICTIONS_PER_ACCESS, u64_max; lia. Qed.

(** The two stores have the tree's shape. *)
Definition store_shapes (ms : MS) (ps : PS) : Prop :=
  ps_page_count ms = bucket_count p /\ ps_page_size ms = circuit_meta_page_bytes (bucket_size p) /\
  ps_page_count ps = bucket_count p /\
  ps_page_size ps = circuit_payload_page_bytes (bucket_size p) (block_size p).

Lemma validate_circuit_stores_iff (ms : MS) (ps : PS) :
  validate_circuit_stores p ms ps = Ok tt <-> store_shapes ms ps.
Proof.
  unfold validate_circuit_stores, store_shapes, guardo. cbn [pp_page_count pp_page_size blanket_path_store].
  repeat (case_match; zbool; cbn [obind]); naive_solver.
Qed.

Lemma plan_ids_in_range (st : build_state R) :
  plan_inv p st (logical_blocks p) ->
  Forall (fun il : Z * Z => 0 <= il.1 < logical_blocks p /\ leaf_ok p il.2) (bd_stash_ids st) /\
  Forall (fun b => Forall (slot_in_range p) (mb_slots b)) (bd_buckets st).
Proof.
  intros [Hpos Hlv Hcnt Hsz Hpl Hst Hbl]. split.
  - apply Forall_forall. intros [id lf] Hin. cbn [fst snd].
    assert (meta_of (id, lf) ∈ meta_of <$> enumerate (bd_pos st)) as Hin'.
    { rewrite <-Hbl. apply elem_of_app. right. by apply list_elem_of_fmap_2. }
    apply list_elem_of_fmap in Hin' as ([i lf'] & Heq & [k Hk]%list_elem_of_lookup).
    rewrite lookup_enumerate in Hk. destruct (bd_pos st !! k) as [x|] eqn:E; [|done]. simplify_eq/=.
    eapply Forall_lookup_1 in Hlv; [|exact E].
    apply lookup_lt_Some in E. unfold lenZ in Hpos. split; [lia|done].
  - apply Forall_lookup. intros n b Hb. apply Forall_forall. intros m Hm Ho.
    destruct (Hpl n b m Hb Hm) as [->|(i & lf & -> & Hi & _)]; [done|]. cbn.
    apply lookup_lt_Some in Hi. unfold lenZ in Hpos. lia.
Qed.

(** What the builder leaves: a controller whose stores have been written with a tree
    that holds the source's blocks. *)
Definition built {WM : WritableStore MS} {WP : WritableStore PS} (f : Z -> bytes) (o : CircuitOram MS PS R)
    (T : Z -> list OramBlock) : Prop :=
  co_params o = p /\ schedule o = schedule_new p /\
  image_holds p (circuit_meta_page_bytes (bucket_size p)) (meta_pages T) (meta_store o) /\
  image_holds p (circuit_payload_page_bytes (bucket_size p) (block_size p)) (payload_pages T) (payload_store o) /\
  blocks_inv p (pos_map o) (f <$> seqZ 0 (logical_blocks p)) (stash o) T.

Lemma build_written {WM : WritableStore MS} {WP : WritableStore PS} (ms : MS) (ps : PS) (src : S) (seed : bytes) f :
  ws_ok ms -> ws_ok ps -> store_shapes ms ps -> serves p f src -> src_block_size src = block_size p ->
  (forall id, 0 <= id < logical_blocks p -> lenZ (f id) = block_size p /\ bytes_ok (f id)) ->
  (exists (o : CircuitOram MS PS R) T, build_trusted_from_source p ms ps src seed = Ok o /\ built f o T) \/
  build_trusted_from_source (R := R) p ms ps src seed =
    Err (StashOverflow (stash_capacity p + 1) (stash_capacity p)).
Proof.
  intros Hms Hps Hshape Hsrc Hbs Hf. unfold build_trusted_from_source.
  rewrite (proj2 (validate_circuit_stores_iff ms ps) Hshape). cbn [obind].
  pose proof Hsrc as (_ & Hsn & _). unfold validate_block_source, guardo. rewrite Hsn, Hbs, !Z.eqb_refl. cbn [obind].
  destruct (plan_blocks_ok p Hp (from_seed seed : R)) as [(st & -> & Hst)| ->]; [|by right]. cbn [obind]. left.
  destruct Hshape as (Hmc & Hmz & Hpc & Hpz). destruct (plan_ids_in_range st Hst) as [Hr1 Hr2].
  destruct (write_initial_metadata_ok p Hp (bd_buckets st) ms f) as (ms1 & -> & Hms1);
    [done|done|done|apply Hst|apply Hst|]. cbn [obind].
  destruct (write_initial_payloads_ok p Hp f Hf (bd_buckets st) ps src) as (ps1 & src1 & -> & Hsrc1 & Hps1);
    [done|done|done|apply Hst|apply Hst|done|done|]. cbn [obind fst snd].
  destruct (read_stash_blocks_ok p f Hf (bd_stash_ids st) src1 Hsrc1) as (src2 & -> & _).
  { eapply Forall_impl; [exact Hr1|]. by intros ? []. }
  cbn [obind]. set (ids := to_block p f <$> (meta_of <$> bd_stash_ids st)).
  assert (Forall (block_ok (block_size p)) ids) as Hok.
  { apply Forall_fmap, Forall_fmap. eapply Forall_impl; [exact Hr1|]. intros [i l] [Hi Hl].
    cbn [fst snd] in Hi, Hl. destruct (Hf i Hi) as [? ?].
    split_and!; simpl; [words|by apply (leaf_ok_u32 p Hp)|done|done]. }
  destruct (pad_stash_spec (block_size p) (stash_capacity p) ids) as (Hpl & Hpok & Hpo);
    [pose proof (ok_block_size p Hp); lia|unfold ids; rewrite !lenZ_fmap; apply Hst|done|].
  rewrite check_stash_ok by done. cbn [obind]. eexists _, _. split; [done|].
  split_and!; cbn [co_params meta_store payload_store pos_map stash schedule]; try done.
  apply planned_blocks_inv; try done.
  rewrite Hpo. apply occ_all. apply Forall_fmap, Forall_fmap, Forall_true. done.
Qed.

(** The controller over any stores that hold the tree the builder wrote. *)
Lemma built_inv {MS' PS'} `{LM : LawfulPathStore MS'} `{LP : LawfulPathStore PS'} {WM : WritableStore MS} {WP : WritableStore PS}
    (o : CircuitOram MS PS R) f T (ms : MS') (ps : PS') : built f o T -> stores_inv p T ms ps ->
  oram_inv (mkOram p ms ps (pos_map o) (stash o) (rng o) (schedule o)) (f <$> seqZ 0 (logical_blocks p)) T.
Proof.
  intros (_ & Hsch & _ & _ & Hb) Hst. destruct schedule_new_ok as [Hsn1 Hsn2].
  split; cbn [co_params meta_store payload_store pos_map stash schedule]; rewrite ?Hsch; done.
Qed.

End Builder.

Section Lawful.
Context `{SL : SubtleLaws} {MS PS R S : Type}.
Context `{LM : LawfulPageStore MS} `{LP : LawfulPageStore PS} `{Rng R} `{LS : LawfulSource S}.
Context (p : OramParams) (Hp : params_ok p) (Hfit : fits p) (Hids : logical_blocks p <= u64_max).

Lemma build_spec (ms : MS) (ps : PS) (src : S) (seed : bytes) f :
  ps_ok ms -> ps_ok ps -> store_shapes p ms ps -> serves p f src -> src_block_size src = block_size p ->
  (forall id, 0 <= id < logical_blocks p -> lenZ (f id) = block_size p /\ bytes_ok (f id)) ->
  (exists (o : CircuitOram MS PS R) T, build_trusted_from_source p ms ps src seed = Ok o /\
     oram_inv o (f <$> seqZ 0 (logical_blocks p)) T /\ co_params o = p /\ schedule o = schedule_new p) \/
  build_trusted_from_source (R := R) p ms ps src seed =
    Err (StashOverflow (stash_capacity p + 1) (stash_capacity p)).
Proof.
  intros Hms Hps Hshape Hsrc Hbs Hf.
  destruct (build_written (WM := lawful_writable) (WP := lawful_writable) p Hp Hids ms ps src seed f Hms Hps Hshape Hsrc Hbs Hf)
    as [(o & T & E & Hb)|E]; [left|by right].
  exists o, T. split; [exact E|]. pose proof Hb as (Hpo & Hso & Hm & Hpl & _). split; [|done].
  pose proof (built_inv p Hp Hfit o f T (meta_store o) (payload_store o) Hb (conj Hm Hpl)) as Hinv. by destruct o; subst.
Qed.

End Lawful.
