(* ===== verification/CircuitSpec.v ===== *)
(** * What the controller promises

    The properties of [CircuitOram] as a whole: it is an array of payloads
    behind a fixed access shape.  The proofs apply the lemmas of the
    [Circuit*.v] and [Build*.v] files; the concrete inputs use in-memory stores. *)

From S2P Require Import Prelude Ct Block Params Store Schedule Bucket PosMap Stash Overlay Rng State Evict.
From S2P Require Import EvictPath Circuit Blocks CircuitInv CircuitOps Build BuildProofs.

(** ** A concrete image *)

Definition demo_params : OramParams := mkParams 4 2 2 4 8.
Definition demo_blocks : list bytes := [[1; 2]; [3; 4]; [5; 6]; [7; 8]].
Definition demo_meta : MemPageStore := mkMem 26 (zeros (7 * 26)).
Definition demo_payload : MemPageStore := mkMem 4 (zeros (7 * 4)).
Definition demo_build : outcome (CircuitOram MemPageStore MemPageStore Z) :=
  @build_trusted bool_subtle MemPageStore MemPageStore Z _ _ _ demo_params demo_meta demo_payload demo_blocks [5].
Definition demo_source : VecBlockSource := mkVecSource demo_blocks 2.

Lemma demo_params_ok : params_ok demo_params /\ fits demo_params /\ logical_blocks demo_params <= u64_max.
Proof. split; [split; vm_compute; intuition discriminate|split; vm_compute; discriminate]. Qed.

Lemma demo_blocks_ok id :
  0 <= id < 4 -> lenZ (arr_get demo_blocks id) = 2 /\ bytes_ok (arr_get demo_blocks id).
Proof.
  intros Hid. assert (vec_ok demo_source) as Hok by (repeat constructor; vm_compute; intuition discriminate).
  exact (@src_content_ok _ _ vec_lawful demo_source id Hok Hid).
Qed.

Lemma demo_stores_ok : ps_ok demo_meta /\ ps_ok demo_payload /\ store_shapes demo_params demo_meta demo_payload.
Proof.
  split_and!; try (by vm_compute); cbn; unfold mem_ok; split_and!; try (by vm_compute); apply zeros_ok.
Qed.

Lemma demo_source_ok : serves demo_params (arr_get demo_blocks) demo_source.
Proof. split_and!; [repeat constructor; vm_compute; intuition discriminate|done|done]. Qed.

Lemma demo_inv :
  exists o T, demo_build = Ok o /\ oram_inv o demo_blocks T /\ co_params o = demo_params /\
    schedule o = schedule_new demo_params /\ lenZ (occ (stash o)) = 0.
Proof.
  destruct demo_params_ok as (Hp & Hf & Hn). destruct demo_stores_ok as (Hm & Hps & Hsh).
  destruct (build_spec (SL := bool_subtle_laws) (R := Z) demo_params Hp Hf Hn demo_meta demo_payload demo_source [5]
    (arr_get demo_blocks) Hm Hps Hsh demo_source_ok eq_refl demo_blocks_ok)
    as [(o & T & E & Ho & Hpo & Hs)|E]; [|vm_compute in E; discriminate].
  exists o, T. change (@build_trusted_from_source _ _ _ _ _ _ _ _ _ demo_params demo_meta demo_payload demo_source [5])
    with demo_build in E.
  split_and!; [exact E|exact Ho|exact Hpo|exact Hs|]. vm_compute in E. apply Ok_inj in E. subst o. done.
Qed.

(** Writing back what was read. *)
Lemma arr_set_get (A : list bytes) id : arr_set A id (arr_get A id) = A.
Proof.
  unfold arr_set, arr_get. destruct (A !! Z.to_nat id) as [x|] eqn:E.
  - by apply list_insert_id.
  - apply list_insert_ge. by apply lookup_ge_None.
Qed.

Lemma spec_batch_reads A ids :
  spec_batch (fun (u : unit) _ pl => (u, pl)) tt A ids = (arr_get A <$> ids, tt, A).
Proof. induction ids as [|id ids IH]; cbn [spec_batch]; [done|]. by rewrite arr_set_get, IH. Qed.

(** ** Properties *)

Section Properties.
Context `{SL : SubtleLaws} {MS PS R U S : Type}.
Context `{LM : LawfulPathStore MS} `{LP : LawfulPathStore PS} `{Rng R}.
Local Abbreviation Oram := (CircuitOram MS PS R).

(** C9: with a free stash slot, [access] returns the payload the array holds for
    the id, stores the caller's update of it and nothing else, remaps the block
    to the generator's next leaf and owes one more access's evictions. *)
Theorem access_correct (o : Oram) A T id update :
  oram_inv o A T -> 0 <= id < lenZ A -> good_update (co_params o) update ->
  can_record 1 (schedule o) -> lenZ (occ (stash o)) < stash_capacity (co_params o) ->
  exists o' T', access id update o = (Ok (arr_get A id), o') /\
    oram_inv o' (arr_set A id (update (arr_get A id))) T' /\
    pos_map o' = pm_set (pos_map o) (id, next_leaf (co_params o) (rng o)) /\
    rng o' = (next_u64 (rng o)).2 /\ schedule o' = issue 1 (schedule o) /\
    lenZ (occ (stash o')) <= lenZ (occ (stash o)) + 1.
Proof.
  intros Ho Hid Hupd Hrec Hroom.
  destruct (access_spec o A T id update Ho Hid Hupd Hrec) as
    [(o' & T' & E & Ho' & _ & Hpm & Hr & Hs & Hl & _)|[[Hfull _] _]]; [by exists o', T'|lia].
Qed.

(** C25: an access that finds the stash full either succeeds or reports
    [StashOverflow] and changes nothing: position map, stash, generator, schedule
    and the stored blocks are as before. *)
Theorem access_overflow_atomic (o : Oram) A T id update e o' :
  oram_inv o A T -> 0 <= id < lenZ A -> good_update (co_params o) update ->
  can_record 1 (schedule o) -> access id update o = (Err e, o') ->
  e = StashOverflow (stash_capacity (co_params o) + 1) (stash_capacity (co_params o)) /\
  lenZ (occ (stash o)) = stash_capacity (co_params o) /\
  oram_inv o' A T /\ same_but_stores o o'.
Proof.
  intros Ho Hid Hupd Hrec E.
  destruct (access_spec o A T id update Ho Hid Hupd Hrec) as
    [(o1 & T' & E1 & _)|([Hfull _] & o1 & E1 & Ho1 & Hsame)]; rewrite E in E1; simplify_eq; done.
Qed.

(** An id outside the array is refused before any store access. *)
Theorem access_out_of_range (o : Oram) id update :
  logical_blocks (co_params o) <= id ->
  access id update o = (Err (InvalidInput "logical_id {logical_id} out of range"), o).
Proof.
  intros Hid. unfold access. rewrite bind_gets, bind_guardm. by rewrite (proj2 (Z.leb_le _ _)).
Qed.

(** The accesses of a batch one after the other, the caller's state threaded through. *)
Fixpoint access_each (update : U -> Z -> bytes -> U * bytes) (u : U) (ids : list Z) : M Oram (list bytes * U) :=
  match ids with
  | [] => ret ([], u)
  | id :: ids =>
      let* out := access id (fun pl => (update u id pl).2) in
      let* rest := access_each update (update u id out).1 ids in
      ret (out :: rest.1, rest.2)
  end.

(** The stash never holds more blocks than it has slots. *)
Lemma oram_inv_room (o : Oram) A T : oram_inv o A T -> lenZ (occ (stash o)) <= stash_capacity (co_params o).
Proof. intros Ho. destruct (bi_stash _ _ _ _ _ (oi_blocks _ _ _ Ho)) as (<- & _). apply length_occ. Qed.

Lemma access_each_spec update ids : forall (o : Oram) A T (u : U),
  oram_inv o A T -> Forall (fun id => 0 <= id < lenZ A) ids ->
  (forall u id, good_update (co_params o) (fun pl => (update u id pl).2)) -> can_record (lenZ ids) (schedule o) ->
  let stream := leaf_stream (co_params o) (length ids) (rng o) in
  let need := slots_needed (held_ids (stash o)) ids in
  let spec := spec_batch update u A in
  (exists o' T', access_each update u ids o = (Ok (spec ids).1, o') /\ oram_inv o' (spec ids).2 T' /\
     co_params o' = co_params o /\ pos_map o' = foldl pm_set (pos_map o) (zip ids stream.1) /\ rng o' = stream.2 /\
     schedule o' = issue (lenZ ids) (schedule o) /\ lenZ (occ (stash o')) = lenZ (occ (stash o)) + need) \/
  (stash_capacity (co_params o) < lenZ (occ (stash o)) + need /\
   exists o' k T', access_each update u ids o =
       (Err (StashOverflow (stash_capacity (co_params o) + 1) (stash_capacity (co_params o))), o') /\
     (k < length ids)%nat /\ oram_inv o' (spec (take k ids)).2 T').
Proof.
  induction ids as [|id ids IH]; intros o A T u Ho Hids Hupd Hrec.
  { left. exists o, T. split_and!; try done; [by rewrite issue_0|cbn; lia]. }
  apply Forall_cons in Hids as [Hid Hids]. rewrite (lenZ_cons id ids) in Hrec |- *.
  destruct (can_record_split _ _ (lenZ_nonneg ids) (oi_schedule _ _ _ Ho) Hrec) as [Hrec1 Hrecn].
  pose proof (slots_needed_bounds ids (id :: held_ids (stash o))) as Hsn.
  cbn [length leaf_stream access_each spec_batch take]. destruct (access_spec o A T id _ Ho Hid (Hupd u id) Hrec1) as
    [(o1 & T1 & E & Ho1 & Hp & Hpm & Hr & Hs & _ & Hf)|([Hfull Hnew] & o1 & E & Ho1 & _)].
  2: { right. cbn [slots_needed]. split; [destruct (decide _); [done|lia]|]. exists o1, 0%nat, T.
       rewrite (bind_err _ _ _ _ _ E). split; [done|]. split; [simpl; lia|exact Ho1]. }
  rewrite <-(slots_needed_fetched _ ids _ _ Hf). rewrite (bind_eq _ _ _ _ _ E). destruct (update u id (arr_get A id)) as [u1 pl1] eqn:Enp. cbn [fst snd] in *.
  specialize (IH o1 (arr_set A id pl1) T1 u1 Ho1). rewrite arr_set_length, Hp, Hr, Hs, Hpm in IH.
  specialize (IH Hids Hupd Hrecn). cbv zeta in IH.
  destruct (leaf_stream (co_params o) (length ids) _) as [nls r'] eqn:El. cbn [fst snd zip zip_with foldl] in *.
  destruct IH as [(o2 & T2 & E2 & Ho2 & Hp2 & Hpm2 & Hr2 & Hs2 & Ho2c)|(Hroom & o2 & k & T2 & E2 & Hk & Ho2)].
  - left. exists o2, T2. rewrite (bind_eq _ _ _ _ _ E2). destruct (spec_batch update u1 (arr_set A id pl1) ids) as [[outs u2] A2].
    cbn [fst snd] in *. split_and!; try done. by rewrite Hs2, issue_add.
  - right. split; [done|]. exists o2, (1 + k)%nat, T2. rewrite (bind_err _ _ _ _ _ E2). split; [done|]. split; [simpl; lia|].
    change (take (1 + k) (id :: ids)) with (id :: take k ids). cbn [spec_batch]. rewrite Enp.
    destruct (spec_batch update u1 (arr_set A id pl1) (take k ids)) as [[outs u2] A2]. exact Ho2.
Qed.

(** C10: a batch, repeated ids included, is its accesses one after the other.  When
    the stash has room for the distinct blocks it does not hold yet, both return,
    id by id, the payloads of the array as the earlier updates left it, and leave the
    same array, position map, generator, schedule and number of stash blocks.  When
    it has not, both report [StashOverflow], in different states: the sequence keeps a
    valid controller with the accesses before the overflow done, while the batch
    leaves stores, position map and generator as they were, the stash full and the
    accesses of the processed ids recorded. *)
Theorem access_batch_sequential (o : Oram) A T ids update (u : U) :
  oram_inv o A T -> Forall (fun id => 0 <= id < lenZ A) ids ->
  (forall u id, good_update (co_params o) (fun pl => (update u id pl).2)) ->
  can_record (lenZ ids) (schedule o) ->
  let stream := leaf_stream (co_params o) (length ids) (rng o) in
  let need := slots_needed (held_ids (stash o)) ids in
  let spec := spec_batch update u A in
  let full := StashOverflow (stash_capacity (co_params o) + 1) (stash_capacity (co_params o)) in
  if decide (lenZ (occ (stash o)) + need <= stash_capacity (co_params o)) then
    exists o1 T1 o2 T2,
      access_batch ids update u o = (Ok (spec ids).1, o1) /\ access_each update u ids o = (Ok (spec ids).1, o2) /\
      oram_inv o1 (spec ids).2 T1 /\ oram_inv o2 (spec ids).2 T2 /\
      (pos_map o1 = foldl pm_set (pos_map o) (zip ids stream.1) /\ rng o1 = stream.2 /\ schedule o1 = issue (lenZ ids) (schedule o)) /\
      (pos_map o2 = pos_map o1 /\ rng o2 = rng o1 /\ schedule o2 = schedule o1) /\
      lenZ (occ (stash o1)) = lenZ (occ (stash o)) + need /\ lenZ (occ (stash o2)) = lenZ (occ (stash o)) + need
  else
    exists o1 o2, access_batch ids update u o = (Err full, o1) /\ access_each update u ids o = (Err full, o2) /\
      (exists k T2, (k < length ids)%nat /\ oram_inv o2 (spec (take k ids)).2 T2) /\
      stores_inv (co_params o) T (meta_store o1) (payload_store o1) /\ pos_map o1 = pos_map o /\ rng o1 = rng o /\
      lenZ (occ (stash o1)) = stash_capacity (co_params o) /\ exists k, 0 <= k < lenZ ids /\ schedule o1 = issue k (schedule o).
Proof.
  intros Ho Hids Hupd Hrec stream need spec full.
  pose proof (access_batch_spec o A T ids update u Ho Hids Hupd Hrec) as Hb. cbv zeta in Hb. fold stream in Hb.
  pose proof (access_each_spec update ids o A T u Ho Hids Hupd Hrec) as Hs. cbv zeta in Hs. fold stream spec in Hs.
  assert (forall (o' : Oram) A' T', oram_inv o' A' T' -> co_params o' = co_params o -> lenZ (occ (stash o')) <= stash_capacity (co_params o)) as Hcap.
  { intros o' A' T' Ho' <-. apply (oram_inv_room o' A' T' Ho'). }
  subst spec. cbv beta in *. destruct (spec_batch update u A ids) as [[outs u'] A']. cbn [fst snd] in *.
  destruct Hb as [(o1 & T1 & E1 & Ho1 & Hp1 & Hpm1 & Hr1 & Hs1 & _ & Hc1)|([_ Hf1] & o1 & E1 & _ & Hpm1 & Hr1 & Hst1 & Hk1 & Hc1)].
  - pose proof (Hcap _ _ _ Ho1 Hp1). destruct (decide _) as [_|?]; [|lia].
    destruct Hs as [(o2 & T2 & E2 & Ho2 & Hp2 & Hpm2 & Hr2 & Hs2 & Hc2)|[? _]]; [|lia].
    exists o1, T1, o2, T2. split_and!; (done || congruence).
  - destruct (decide _) as [?|_]; [lia|].
    destruct Hs as [(o2 & T2 & E2 & Ho2 & Hp2 & Hpm2 & Hr2 & Hs2 & Hc2)|(_ & o2 & k & T2 & E2 & Hk & Ho2)].
    + pose proof (Hcap _ _ _ Ho2 Hp2). lia.
    + exists o1, o2. split; [done|]. split; [done|]. split; [by exists k, T2|]. split_and!; done.
Qed.

(** Reads, single and batched, return the array's payloads in the caller's
    order and leave the array as it is. *)
Theorem reads_return_array (o : Oram) A T id ids :
  oram_inv o A T -> Forall (fun id => 0 <= id < lenZ A) (id :: ids) ->
  can_record (lenZ (id :: ids)) (schedule o) ->
  lenZ (occ (stash o)) + lenZ (id :: ids) <= stash_capacity (co_params o) ->
  (exists o' T', read id o = (Ok (arr_get A id), o') /\ oram_inv o' A T') /\
  (exists o' T', read_batch (id :: ids) o = (Ok (arr_get A <$> id :: ids), o') /\ oram_inv o' A T').
Proof.
  intros Ho Hids Hrec Hroom. pose proof (lenZ_nonneg ids). rewrite lenZ_cons in Hroom.
  assert (forall p, good_update p (fun pl => pl)) as Hgood by (by intros).
  split.
  - pose proof (Forall_inv Hids) as Hid. cbv beta in Hid.
    destruct (access_spec o A T id (fun pl => pl) Ho Hid (Hgood _)) as [(o' & T' & E & Ho' & _)|[Hfull _]]; [|exists o', T'|lia].
    + rewrite lenZ_cons in Hrec. apply can_record_split in Hrec as [? _]; [done|lia|apply Ho].
    + rewrite arr_set_get in Ho'. by split.
  - pose proof (access_batch_spec o A T (id :: ids) (fun (u : unit) _ pl => (u, pl)) tt Ho Hids (fun _ _ => Hgood _) Hrec) as Hb.
    rewrite spec_batch_reads in Hb.
    destruct Hb as [(o' & T' & E & Ho' & _)|[Hfull _]]; [exists o', T'|rewrite lenZ_cons in Hfull; lia].
    split; [|done]. unfold read_batch. by rewrite (bind_eq _ _ _ _ _ E).
Qed.

(** C23: on a valid controller a drain never fails and never overflows the stash,
    whatever it holds: it runs [min budget debt] evictions, keeps the array and
    never leaves more blocks in the stash than it found. *)
Theorem drain_evictions_correct (o : Oram) A T budget :
  oram_inv o A T -> 0 <= budget ->
  let n := Z.min budget (debt (schedule o)) in
  exists o' T', drain_evictions budget o = (Ok n, o') /\ oram_inv o' A T' /\
    pos_map o' = pos_map o /\ rng o' = rng o /\ schedule o' = advance n (schedule o) /\
    debt (schedule o') = debt (schedule o) - n /\
    lenZ (occ (stash o')) <= lenZ (occ (stash o)).
Proof.
  intros Ho Hb n. destruct (drain_evictions_spec o A T budget Ho Hb) as (o' & T' & E & Ho' & _ & Hpm & Hr & Hs & Hle).
  exists o', T'. split_and!; try done. rewrite Hs. apply debt_advance.
Qed.

(** Dummy accesses, single or batched, change no block and no position; they
    consume one random leaf and owe one access's evictions each. *)
Theorem dummy_access_correct (o : Oram) A T count :
  oram_inv o A T -> 1 <= count -> can_record count (schedule o) ->
  (exists o', dummy_access o = (Ok tt, o') /\ oram_inv o' A T /\ pos_map o' = pos_map o /\
     stash o' = stash o /\ rng o' = (next_u64 (rng o)).2 /\ schedule o' = issue 1 (schedule o)) /\
  (exists o', dummy_access_batch count o = (Ok tt, o') /\ oram_inv o' A T /\ pos_map o' = pos_map o /\
     stash o' = stash o /\ rng o' = (leaf_stream (co_params o) (Z.to_nat count) (rng o)).2 /\
     schedule o' = issue count (schedule o)).
Proof.
  intros Ho Hc Hrec. split.
  - destruct (dummy_access_spec o A T Ho) as (o' & E & Ho' & _ & ?); [|by exists o'].
    replace count with (1 + (count - 1)) in Hrec by lia.
    by apply can_record_split in Hrec as [? _]; [|lia|apply Ho].
  - destruct (dummy_access_batch_spec o A T count Ho) as (o' & E & Ho' & _ & ?); [lia|done|by exists o'].
Qed.

End Properties.

Section BuildProperty.
Context `{SL : SubtleLaws} {MS PS R S : Type}.
Context `{LM : LawfulPageStore MS} `{LP : LawfulPageStore PS} `{Rng R} `{LS : LawfulSource S}.

(** C24: the trusted builder on stores of the right shape and a source of the
    right size either returns a valid controller whose array is the source's
    blocks, or reports that more than [stash_capacity] blocks found their whole
    path full. *)
Theorem build_trusted_correct p (ms : MS) (ps : PS) (src : S) (seed : bytes) f :
  params_ok p -> fits p -> logical_blocks p <= u64_max ->
  ps_ok ms -> ps_ok ps -> store_shapes p ms ps -> serves p f src -> src_block_size src = block_size p ->
  (forall id, 0 <= id < logical_blocks p -> lenZ (f id) = block_size p /\ bytes_ok (f id)) ->
  (exists (o : CircuitOram MS PS R) T, build_trusted_from_source p ms ps src seed = Ok o /\
     oram_inv o (f <$> seqZ 0 (logical_blocks p)) T /\ co_params o = p /\ schedule o = schedule_new p) \/
  build_trusted_from_source (R := R) p ms ps src seed =
    Err (StashOverflow (stash_capacity p + 1) (stash_capacity p)).
Proof. intros. by apply build_spec. Qed.

End BuildProperty.

(** ** The controller refines an array, over any sequence of operations *)

Section Refinement.
Context `{SL : SubtleLaws} {MS PS R : Type}.
Context `{LM : LawfulPathStore MS} `{LP : LawfulPathStore PS} `{Rng R}.
Local Abbreviation Oram := (CircuitOram MS PS R).

(** The online operations. *)
Inductive op : Type :=
| OpAccess (id : Z) (update : bytes -> bytes)
| OpBatch (ids : list Z) (update : Z -> bytes -> bytes)
| OpDummy
| OpDummyBatch (count : Z)
| OpDrain (budget : Z).

Definition batch_update (update : Z -> bytes -> bytes) (u : unit) (id : Z) (pl : bytes) : unit * bytes :=
  (u, update id pl).

(** One operation of the controller; the result is the payloads returned. *)
Definition exec_op (a : op) : M Oram (list bytes) :=
  match a with
  | OpAccess id update => let* out := access id update in ret [out]
  | OpBatch ids update => let* r := access_batch ids (batch_update update) tt in ret r.1
  | OpDummy => let* _ := dummy_access in ret []
  | OpDummyBatch count => let* _ := dummy_access_batch count in ret []
  | OpDrain budget => let* _ := drain_evictions budget in ret []
  end.

(** The same operation on an array. *)
Definition spec_op (a : op) (A : list bytes) : list bytes * list bytes :=
  match a with
  | OpAccess id update => ([arr_get A id], arr_set A id (update (arr_get A id)))
  | OpBatch ids update => let '(outs, _, A') := spec_batch (batch_update update) tt A ids in (outs, A')
  | _ => ([], A)
  end.

Definition op_ok (p : OramParams) (a : op) : Prop :=
  match a with
  | OpAccess id update => 0 <= id < logical_blocks p /\ good_update p update
  | OpBatch ids update => Forall (fun id => 0 <= id < logical_blocks p) ids /\ forall id, good_update p (update id)
  | OpDummy => True
  | OpDummyBatch count => 0 <= count
  | OpDrain budget => 0 <= budget
  end.

(** The accesses an operation records. *)
Definition op_accesses (a : op) : Z :=
  match a with
  | OpAccess _ _ => 1
  | OpBatch ids _ => lenZ ids
  | OpDummy => 1
  | OpDummyBatch count => count
  | OpDrain _ => 0
  end.
Definition total_accesses (ops : list op) : Z := foldr (fun a n => op_accesses a + n) 0 ops.

(** The stash slots an operation may fill. *)
Definition op_stash (a : op) : Z :=
  match a with OpAccess _ _ => 1 | OpBatch ids _ => lenZ ids | _ => 0 end.
Definition total_stash (ops : list op) : Z := foldr (fun a n => op_stash a + n) 0 ops.

(** A run stops at the first error. *)
Fixpoint exec_ops (ops : list op) : M Oram (list (list bytes)) :=
  match ops with
  | [] => ret []
  | a :: ops => let* out := exec_op a in let* outs := exec_ops ops in ret (out :: outs)
  end.
Fixpoint spec_ops (ops : list op) (A : list bytes) : list (list bytes) * list bytes :=
  match ops with
  | [] => ([], A)
  | a :: ops =>
      let (out, A1) := spec_op a A in
      let (outs, A2) := spec_ops ops A1 in (out :: outs, A2)
  end.

(** [n] accesses can still be recorded whatever the evictions done. *)
Lemma can_record_mono n m s : 0 <= n <= m -> schedule_ok s -> can_record m s -> can_record n s.
Proof.
  intros Hn Hs Hc. replace m with (n + (m - n)) in Hc by lia.
  destruct Hs. unfold can_record in *. split; nia.
Qed.

Lemma total_accesses_nonneg p ops : Forall (op_ok p) ops -> 0 <= total_accesses ops.
Proof.
  induction 1 as [|a ops Ha _ IH]; cbn [total_accesses foldr]; [lia|].
  fold (total_accesses ops). pose proof (fun ids : list Z => lenZ_nonneg ids) as Hl.
  destruct a; cbn [op_ok op_accesses] in *; try lia. specialize (Hl ids). lia.
Qed.

Lemma total_accesses_app ops ops' : total_accesses (ops ++ ops') = total_accesses ops + total_accesses ops'.
Proof. induction ops as [|a ops IH]; [done|]. cbn [app total_accesses foldr] in *. unfold total_accesses in *. rewrite IH. lia. Qed.
Lemma spec_ops_app ops ops' A :
  spec_ops (ops ++ ops') A = ((spec_ops ops A).1 ++ (spec_ops ops' (spec_ops ops A).2).1, (spec_ops ops' (spec_ops ops A).2).2).
Proof.
  revert A. induction ops as [|a ops IH]; intros A; cbn [app spec_ops fst snd]; [by destruct (spec_ops ops' A)|].
  destruct (spec_op a A) as [out A1]. rewrite IH. by destruct (spec_ops ops A1).
Qed.

Lemma total_stash_nonneg ops : 0 <= total_stash ops.
Proof.
  induction ops as [|a ops IH]; cbn [total_stash foldr]; [lia|]. fold (total_stash ops).
  pose proof (fun ids : list Z => lenZ_nonneg ids) as Hl. destruct a; cbn [op_stash]; try lia. specialize (Hl ids). lia.
Qed.

Lemma spec_batch_length {U} (update : U -> Z -> bytes -> U * bytes) u A ids :
  lenZ (spec_batch update u A ids).2 = lenZ A.
Proof.
  revert u A. induction ids as [|id ids IH]; intros u A; cbn [spec_batch]; [done|].
  destruct (update u id (arr_get A id)) as [u1 np]. specialize (IH u1 (arr_set A id np)).
  destruct (spec_batch update u1 (arr_set A id np) ids) as [[outs u2] A2]. cbn [snd] in *.
  by rewrite IH, arr_set_length.
Qed.

Lemma exec_op_spec (o : Oram) A T a m :
  oram_inv o A T -> op_ok (co_params o) a -> 0 <= m -> can_record (op_accesses a + m) (schedule o) ->
  (exists o' T', exec_op a o = (Ok (spec_op a A).1, o') /\ oram_inv o' (spec_op a A).2 T' /\
     co_params o' = co_params o /\ can_record m (schedule o') /\
     lenZ (occ (stash o')) <= lenZ (occ (stash o)) + op_stash a) \/
  (stash_capacity (co_params o) < lenZ (occ (stash o)) + op_stash a /\
   exists o', exec_op a o =
     (Err (StashOverflow (stash_capacity (co_params o) + 1) (stash_capacity (co_params o))), o')).
Proof.
  intros Ho Hop Hm Hrec. pose proof (oi_schedule _ _ _ Ho) as Hs.
  assert (lenZ A = logical_blocks (co_params o)) as HA by apply (oi_blocks _ _ _ Ho).
  assert (forall k, can_record (k + m) (schedule o) -> can_record m (issue k (schedule o))) as Hissue.
  { intros k. unfold can_record, issue. cbn. by rewrite Z.add_assoc. }
  destruct a as [id update|ids update| |count|budget]; cbn [op_ok op_accesses op_stash exec_op spec_op fst snd] in *.
  - destruct Hop as [Hid Hupd]. destruct (access_spec o A T id update Ho) as
      [(o' & T' & E & Ho' & Hp & _ & _ & Hsch & Hle & _)|(Hfull & o' & E & _)]; [lia|done| | |].
    + by apply (can_record_mono 1 (1 + m)); [lia|..].
    + left. exists o', T'. rewrite (bind_eq _ _ _ _ _ E). split_and!; try done. rewrite Hsch. by apply Hissue.
    + right. split; [lia|]. exists o'. by rewrite (bind_err _ _ _ _ _ E).
  - destruct Hop as [Hids Hupd]. pose proof (lenZ_nonneg ids).
    pose proof (access_batch_spec o A T ids (batch_update update) tt Ho) as Hb. rewrite HA in Hb.
    specialize (Hb Hids ltac:(intros u id; apply Hupd) ltac:(apply (can_record_mono _ (lenZ ids + m)); [lia|done|done])).
    destruct (spec_batch (batch_update update) tt A ids) as [[outs u'] A'].
    destruct Hb as [(o' & T' & E & Ho' & Hp & _ & _ & Hsch & Hle & _)|(Hfull & o' & E & _)].
    + left. exists o', T'. rewrite (bind_eq _ _ _ _ _ E). split_and!; try done. rewrite Hsch. by apply Hissue.
    + right. split; [lia|]. exists o'. by rewrite (bind_err _ _ _ _ _ E).
  - left. destruct (dummy_access_spec o A T Ho) as (o' & E & Ho' & Hp & _ & Hst & _ & Hsch).
    { by apply (can_record_mono 1 (1 + m)); [lia|..]. }
    exists o', T. rewrite (bind_eq _ _ _ _ _ E). split_and!; try done; [rewrite Hsch; by apply Hissue|rewrite Hst; lia].
  - left. destruct (dummy_access_batch_spec o A T count Ho Hop) as (o' & E & Ho' & Hp & _ & Hst & _ & Hsch).
    { by apply (can_record_mono count (count + m)); [lia|..]. }
    exists o', T. rewrite (bind_eq _ _ _ _ _ E). split_and!; try done; [rewrite Hsch; by apply Hissue|rewrite Hst; lia].
  - left. destruct (drain_evictions_spec o A T budget Ho Hop) as (o' & T' & E & Ho' & Hp & _ & _ & Hsch & Hle).
    exists o', T'. rewrite (bind_eq _ _ _ _ _ E). split_and!; try done; [by rewrite Hsch|lia].
Qed.

(** A sequence of operations, with [n] accesses left after it. *)
Lemma exec_ops_spec (ops : list op) (o : Oram) A T n : 0 <= n ->
  oram_inv o A T -> Forall (op_ok (co_params o)) ops -> can_record (total_accesses ops + n) (schedule o) ->
  (exists o' T', exec_ops ops o = (Ok (spec_ops ops A).1, o') /\ oram_inv o' (spec_ops ops A).2 T' /\
     co_params o' = co_params o /\ can_record n (schedule o')) \/
  (stash_capacity (co_params o) < lenZ (occ (stash o)) + total_stash ops /\
   exists o', exec_ops ops o =
     (Err (StashOverflow (stash_capacity (co_params o) + 1) (stash_capacity (co_params o))), o')).
Proof.
  intros Hn. revert o A T. induction ops as [|a ops IH]; intros o A T Ho Hops Hrec; cbn [exec_ops spec_ops].
  { left. by exists o, T. }
  apply Forall_cons in Hops as [Ha Hops]. cbn [total_accesses foldr] in Hrec. fold (total_accesses ops) in Hrec.
  pose proof (total_accesses_nonneg _ _ Hops) as Hn'. rewrite <-Z.add_assoc in Hrec.
  pose proof (total_stash_nonneg ops) as Hst. cbn [total_stash foldr]. fold (total_stash ops).
  destruct (exec_op_spec o A T a (total_accesses ops + n) Ho Ha ltac:(lia) Hrec) as [(o1 & T1 & E & Ho1 & Hp1 & Hrec1 & Hle)|(Hfull & o1 & E)].
  2: { right. split; [lia|]. exists o1. by rewrite (bind_err _ _ _ _ _ E). }
  rewrite (bind_eq _ _ _ _ _ E). destruct (spec_op a A) as [out A1]. cbn [fst snd] in *.
  rewrite <-Hp1 in Hops. specialize (IH o1 A1 T1 Ho1 Hops Hrec1). rewrite <-Hp1.
  destruct (spec_ops ops A1) as [outs A2]. cbn [fst snd] in *.
  destruct IH as [(o2 & T2 & E2 & Ho2)|(Hfull & o2 & E2)].
  - left. exists o2, T2. by rewrite (bind_eq _ _ _ _ _ E2).
  - right. split; [lia|]. exists o2. by rewrite (bind_err _ _ _ _ _ E2).
Qed.

(** C1: over any sequence of accesses, batches, dummy accesses and drains that
    fits the schedule's counters, the controller returns exactly what the array
    returns and still holds the array's final contents; the only way to stop
    short is [StashOverflow] (no panic, no other error), and it needs a stash too
    small for the blocks the sequence may bring into it. *)
Theorem oram_refines_array (ops : list op) (o : Oram) A T :
  oram_inv o A T -> Forall (op_ok (co_params o)) ops -> can_record (total_accesses ops) (schedule o) ->
  (exists o' T', exec_ops ops o = (Ok (spec_ops ops A).1, o') /\ oram_inv o' (spec_ops ops A).2 T') \/
  (stash_capacity (co_params o) < lenZ (occ (stash o)) + total_stash ops /\
   exists o', exec_ops ops o =
     (Err (StashOverflow (stash_capacity (co_params o) + 1) (stash_capacity (co_params o))), o')).
Proof.
  intros Ho Hops Hrec. destruct (exec_ops_spec ops o A T 0) as [(o' & T' & E & Ho' & _)|Hfull]; [lia|done|done|by rewrite Z.add_0_r| |by right].
  left. by exists o', T'.
Qed.

(** A saved state reopens over stores that hold the controller's pages. *)
Lemma from_state_ok (o : Oram) A T auth :
  oram_inv o A T -> validate_bound_auth_state auth (meta_store o) (payload_store o) = Ok tt ->
  from_state (meta_store o) (payload_store o) (with_auth (snapshot o) auth) = Ok o.
Proof.
  intros Ho Hauth. pose proof (oi_params _ _ _ Ho) as Hp. destruct (oi_stores _ _ _ Ho) as [(_ & Hmc & Hmz & _) (_ & Hpc & Hpz & _)].
  pose proof (oi_blocks _ _ _ Ho) as [_ (Hsl & Hsok & Hsleaf) [Hpl Hpm] _ _].
  unfold from_state, snapshot, with_auth, state_new, validate_circuit_stores, validate_circuit_state, guardo.
  cbn [st_params st_pos_map st_stash st_schedule st_auth st_rng].
  rewrite Hmc, Hmz, Hpc, Hpz, Hpl, !Z.eqb_refl. cbn [obind].
  assert (forallb (fun lf => negb (leaves (co_params o) <=? lf)) (pos_map o) = true) as ->.
  { apply forallb_forall. intros lf Hin%list_elem_of_In. rewrite Forall_forall in Hpm. specialize (Hpm lf Hin).
    unfold leaf_ok in Hpm. lia. }
  cbn [obind].
  match goal with |- context [ofold ?f tt ?l] => assert (ofold f tt l = Ok tt) as -> end.
  { clear Hsl. induction (stash o) as [|b st IH]; [done|]. apply Forall_cons in Hsok as [(_ & _ & Hlb & _) Hsok].
    apply Forall_cons in Hsleaf as [Hb Hsleaf]. cbn [ofold]. rewrite Hlb, Z.eqb_refl. cbn [obind].
    destruct (occupied b) eqn:Eb; cbn [andb negb obind]; [|auto]. specialize (Hb eq_refl). unfold leaf_ok in Hb.
    rewrite (proj2 (Z.leb_gt _ _)) by lia. cbn [negb obind]. auto. }
  cbn [obind]. unfold validate_for_params.
  rewrite (oi_bits _ _ _ Ho), Z.eqb_refl. cbn [negb]. rewrite (pending_evictions_ok _ (oi_schedule _ _ _ Ho)). cbn [obind].
  rewrite Hauth.
  cbn [obind]. assert (pad_stash (stash_capacity (co_params o)) (block_size (co_params o)) (stash o) = stash o) as ->.
  { unfold pad_stash. rewrite Hsl, Z.ltb_irrefl, Z.sub_diag. cbn. apply app_nil_r. }
  rewrite check_stash_ok by done. cbn [obind]. by destruct o.
Qed.

(** C26: a snapshot reopens: with the same stores, [from_state] accepts the
    snapshot of a valid controller and restores it unchanged. *)
Theorem snapshot_reopens (o : Oram) A T :
  oram_inv o A T -> from_state (meta_store o) (payload_store o) (snapshot o) = Ok o.
Proof.
  intros Ho. apply (from_state_ok o A T (st_auth (snapshot o)) Ho). cbn.
  unfold validate_bound_auth_state. destruct (store_auth_state_from_stores _ _) as [a|] eqn:E; [|done].
  cbn [ok_or obind]. by rewrite decide_True.
Qed.

End Refinement.

(** ** Witnesses

    The demo image is built with an empty stash of eight slots; [tiny_build] is
    the same image with a single stash slot, which one access fills. *)

#[local] Existing Instance bool_subtle.
#[local] Existing Instance bool_subtle_laws.

Lemma demo_update_ok (pl : bytes) : lenZ pl = 2 -> bytes_ok pl -> good_update demo_params (fun _ => pl).
Proof. intros ????. done. Qed.

Lemma access_correct_witness :
  exists (o : CircuitOram MemPageStore MemPageStore Z) A T,
    oram_inv o A T /\
    exists o' T', access 2 (fun _ => [9; 9]) o = (Ok (arr_get A 2), o') /\
      oram_inv o' (arr_set A 2 [9; 9]) T' /\
      pos_map o' = pm_set (pos_map o) (2, next_leaf (co_params o) (rng o)) /\
      rng o' = (next_u64 (rng o)).2 /\ schedule o' = issue 1 (schedule o) /\
      lenZ (occ (stash o')) <= lenZ (occ (stash o)) + 1.
Proof.
  destruct demo_inv as (o & T & _ & Ho & Hp & Hs & Hocc). exists o, demo_blocks, T. split; [exact Ho|].
  apply (access_correct o demo_blocks T 2 (fun _ => [9; 9]) Ho); [vm_compute; intuition discriminate| | |].
  - rewrite Hp. apply demo_update_ok; [reflexivity|]. repeat constructor; vm_compute; intuition discriminate.
  - rewrite Hs. vm_compute. intuition discriminate.
  - rewrite Hp, Hocc. reflexivity.
Defined.

Lemma access_out_of_range_witness :
  exists o : CircuitOram MemPageStore MemPageStore Z, demo_build = Ok o /\
    access 4 (fun _ => [9; 9]) o = (Err (InvalidInput "logical_id {logical_id} out of range"), o).
Proof.
  destruct demo_inv as (o & T & E & _ & Hp & _). exists o. split; [exact E|].
  apply (access_out_of_range o 4 (fun _ => [9; 9])). rewrite Hp. vm_compute. discriminate.
Defined.

(** The batch rewrites one block and leaves the others alone. *)
Definition demo_batch (u : unit) (id : Z) (pl : bytes) : unit * bytes := (u, if id =? 2 then [9; 9] else pl).

Lemma demo_batch_ok u id : good_update demo_params (fun pl => (demo_batch u id pl).2).
Proof.
  intros pl Hl Hb. unfold demo_batch. cbn [snd]. destruct (id =? 2); [|done]. split; [done|].
  repeat constructor; vm_compute; intuition discriminate.
Qed.

Lemma access_batch_sequential_witness :
  exists (o : CircuitOram MemPageStore MemPageStore Z) T, demo_build = Ok o /\ oram_inv o demo_blocks T /\
    exists o1 T1 o2 T2, access_batch [2; 0; 2] demo_batch tt o = (Ok ([[5; 6]; [1; 2]; [9; 9]], tt), o1) /\
      access_each demo_batch tt [2; 0; 2] o = (Ok ([[5; 6]; [1; 2]; [9; 9]], tt), o2) /\
      oram_inv o1 [[1; 2]; [3; 4]; [9; 9]; [7; 8]] T1 /\ oram_inv o2 [[1; 2]; [3; 4]; [9; 9]; [7; 8]] T2.
Proof.
  destruct demo_inv as (o & T & Eb & Ho & Hp & Hs & Hocc). exists o, T. split; [exact Eb|]. split; [exact Ho|].
  pose proof (access_batch_sequential o demo_blocks T [2; 0; 2] demo_batch tt Ho) as Hseq. cbv zeta in Hseq.
  destruct (decide _) as [_|Hno] in Hseq.
  - destruct Hseq as (o1 & T1 & o2 & T2 & E1 & E2 & Ho1 & Ho2 & _).
    + repeat constructor; vm_compute; intuition discriminate.
    + intros u id. rewrite Hp. apply demo_batch_ok.
    + rewrite Hs. vm_compute. intuition discriminate.
    + exists o1, T1, o2, T2. split; [exact E1|]. split; [exact E2|]. split; [exact Ho1|exact Ho2].
  - destruct Hno. rewrite Hp, Hocc. pose proof (slots_needed_bounds [2; 0; 2] (held_ids (stash o))) as Hb.
    change (lenZ [2; 0; 2]) with 3 in Hb. change (stash_capacity demo_params) with 8. lia.
Defined.

Lemma reads_return_array_witness :
  exists o : CircuitOram MemPageStore MemPageStore Z, demo_build = Ok o /\
    (exists o' T', read 1 o = (Ok [3; 4], o') /\ oram_inv o' demo_blocks T') /\
    (exists o' T', read_batch [1; 3; 1] o = (Ok [[3; 4]; [7; 8]; [3; 4]], o') /\ oram_inv o' demo_blocks T').
Proof.
  destruct demo_inv as (o & T & Eb & Ho & Hp & Hs & Hocc). exists o. split; [exact Eb|].
  apply (reads_return_array o demo_blocks T 1 [3; 1] Ho).
  - repeat constructor; vm_compute; intuition discriminate.
  - rewrite Hs. vm_compute. intuition discriminate.
  - rewrite Hp, Hocc. vm_compute. discriminate.
Defined.

Lemma drain_evictions_correct_witness :
  exists o : CircuitOram MemPageStore MemPageStore Z, demo_build = Ok o /\
    exists o' T', drain_evictions 5 o = (Ok (Z.min 5 (debt (schedule o))), o') /\ oram_inv o' demo_blocks T'.
Proof.
  destruct demo_inv as (o & T & Eb & Ho & _). exists o. split; [exact Eb|].
  destruct (drain_evictions_correct o demo_blocks T 5 Ho) as (o' & T' & E & Ho' & _); [discriminate|].
  exists o', T'. split; [exact E|exact Ho'].
Defined.

Lemma dummy_access_correct_witness :
  exists (o : CircuitOram MemPageStore MemPageStore Z) T, demo_build = Ok o /\
    (exists o', dummy_access o = (Ok tt, o') /\ oram_inv o' demo_blocks T) /\
    (exists o', dummy_access_batch 3 o = (Ok tt, o') /\ oram_inv o' demo_blocks T).
Proof.
  destruct demo_inv as (o & T & Eb & Ho & _ & Hs & _). exists o, T. split; [exact Eb|].
  destruct (dummy_access_correct o demo_blocks T 3 Ho) as [(o1 & E1 & Ho1 & _) (o2 & E2 & Ho2 & _)];
    [discriminate|rewrite Hs; vm_compute; intuition discriminate|].
  split; [exists o1; split; [exact E1|exact Ho1]|exists o2; split; [exact E2|exact Ho2]].
Defined.

Lemma build_trusted_correct_witness :
  (exists (o : CircuitOram MemPageStore MemPageStore Z) T,
     build_trusted_from_source demo_params demo_meta demo_payload demo_source [5] = Ok o /\
     oram_inv o demo_blocks T /\ co_params o = demo_params /\ schedule o = schedule_new demo_params) \/
  build_trusted_from_source (R := Z) demo_params demo_meta demo_payload demo_source [5] =
    Err (StashOverflow 9 8).
Proof.
  destruct demo_params_ok as (Hp & Hf & Hn). destruct demo_stores_ok as (Hm & Hps & Hsh).
  exact (build_trusted_correct demo_params demo_meta demo_payload demo_source [5] (arr_get demo_blocks)
    Hp Hf Hn Hm Hps Hsh demo_source_ok eq_refl demo_blocks_ok).
Defined.

Definition demo_ops : list op :=
  [OpAccess 2 (fun _ => [9; 9]); OpDummy; OpDrain 3; OpBatch [2; 0] (fun _ pl => pl); OpDrain 100].

Lemma oram_refines_array_witness :
  exists o : CircuitOram MemPageStore MemPageStore Z, demo_build = Ok o /\
    exists o' T', exec_ops demo_ops o = (Ok [[[5; 6]]; []; []; [[9; 9]; [1; 2]]; []], o') /\
      oram_inv o' [[1; 2]; [3; 4]; [9; 9]; [7; 8]] T'.
Proof.
  destruct demo_inv as (o & T & Eb & Ho & Hp & Hs & Hocc). exists o. split; [exact Eb|].
  destruct (oram_refines_array demo_ops o demo_blocks T Ho) as [(o' & T' & E & Ho')|(Hfull & _)].
  - rewrite Hp. repeat constructor; cbn [op_ok]; try (by vm_compute; intuition discriminate); try done.
  - rewrite Hs. vm_compute. intuition discriminate.
  - exists o', T'. split; [exact E|exact Ho'].
  - rewrite Hp, Hocc in Hfull. discriminate Hfull.
Defined.

Lemma snapshot_reopens_witness :
  exists o : CircuitOram MemPageStore MemPageStore Z, demo_build = Ok o /\
    from_state (meta_store o) (payload_store o) (snapshot o) = Ok o.
Proof.
  destruct demo_inv as (o & T & Eb & Ho & _). exists o. split; [exact Eb|].
  exact (snapshot_reopens o demo_blocks T Ho).
Defined.

Definition tiny_params : OramParams := mkParams 4 2 2 4 1.
Definition tiny_build : outcome (CircuitOram MemPageStore MemPageStore Z) :=
  build_trusted_from_source tiny_params demo_meta demo_payload demo_source [5].

Lemma tiny_inv :
  exists o T, tiny_build = Ok o /\ oram_inv o demo_blocks T /\ co_params o = tiny_params /\
    schedule o = schedule_new tiny_params.
Proof.
  destruct demo_stores_ok as (Hm & Hps & Hsh).
  destruct (build_spec (R := Z) tiny_params ltac:(split; vm_compute; intuition discriminate)
    ltac:(vm_compute; discriminate) ltac:(vm_compute; discriminate) demo_meta demo_payload demo_source [5]
    (arr_get demo_blocks) Hm Hps Hsh demo_source_ok eq_refl demo_blocks_ok)
    as [(o & T & E & Ho & Hpo & Hs)|E]; [|vm_compute in E; discriminate].
  exists o, T. split; [exact E|]. split; [exact Ho|]. split; [exact Hpo|exact Hs].
Qed.

(** One access moves block 0 into the only stash slot. *)
Lemma tiny_full :
  exists o o1 T, tiny_build = Ok o /\ (access 0 (fun pl => pl) o).2 = o1 /\ oram_inv o1 demo_blocks T /\
    co_params o1 = tiny_params /\ can_record 1 (schedule o1).
Proof.
  destruct tiny_inv as (o & T & Eb & Ho & Hp & Hs).
  destruct (access_spec o demo_blocks T 0 (fun pl => pl) Ho)
    as [(o1 & T1 & E & Ho1 & Hp1 & _ & _ & Hs1 & _)|(_ & o1 & E & _)].
  - vm_compute. intuition discriminate.
  - intros pl Hl Hb. exact (conj Hl Hb).
  - rewrite Hs. vm_compute. intuition discriminate.
  - exists o, o1, T1. split; [exact Eb|]. rewrite E. split; [reflexivity|]. split; [exact Ho1|].
    split; [rewrite Hp1; exact Hp|].
    rewrite Hs1, Hs. vm_compute. intuition discriminate.
  - clear -Eb E. vm_compute in Eb. apply Ok_inj in Eb. subst o. vm_compute in E. discriminate.
Qed.

Lemma access_overflow_atomic_witness :
  exists (o : CircuitOram MemPageStore MemPageStore Z) T o',
    oram_inv o demo_blocks T /\ access 1 (fun pl => pl) o = (Err (StashOverflow 2 1), o') /\
    StashOverflow 2 1 = StashOverflow (stash_capacity (co_params o) + 1) (stash_capacity (co_params o)) /\
    lenZ (occ (stash o)) = stash_capacity (co_params o) /\ oram_inv o' demo_blocks T /\ same_but_stores o o'.
Proof.
  destruct tiny_full as (o0 & o & T & Eb & Eo & Ho & Hp & Hrec).
  assert ((access 1 (fun pl => pl) o).1 = Err (StashOverflow 2 1)) as E.
  { clear -Eb Eo. vm_compute in Eb. apply Ok_inj in Eb. subst o0 o. vm_compute. reflexivity. }
  destruct (access 1 (fun pl => pl) o) as [r o'] eqn:E1. cbn [fst] in E. subst r.
  exists o, T, o'. split; [exact Ho|]. split; [exact E1|].
  apply (access_overflow_atomic o demo_blocks T 1 (fun pl => pl) _ o' Ho); [|intros pl Hl Hb; exact (conj Hl Hb)|exact Hrec|exact E1].
  vm_compute. intuition discriminate.
Defined.

(** ** A batch that overflows

    The same image with two stash slots. *)
Definition small_params : OramParams := mkParams 4 2 2 4 2.
Definition small_build : outcome (CircuitOram MemPageStore MemPageStore Z) :=
  build_trusted_from_source small_params demo_meta demo_payload demo_source [5].

Lemma small_inv : exists o T, small_build = Ok o /\ oram_inv o demo_blocks T.
Proof.
  destruct demo_stores_ok as (Hm & Hps & Hsh).
  destruct (build_spec (R := Z) small_params ltac:(split; vm_compute; intuition discriminate)
    ltac:(vm_compute; discriminate) ltac:(vm_compute; discriminate) demo_meta demo_payload demo_source [5]
    (arr_get demo_blocks) Hm Hps Hsh demo_source_ok eq_refl demo_blocks_ok)
    as [(o & T & E & Ho & _)|E]; [|vm_compute in E; discriminate].
  exists o, T. split; [exact E|exact Ho].
Qed.

(** Reads, each after a drain of up to two evictions. *)
Fixpoint drained_reads {MS PS : Type} `{PathPageStore MS} `{PathPageStore PS} (ids : list Z) : M (CircuitOram MS PS Z) (list bytes) :=
  match ids with
  | [] => ret []
  | id :: ids => let* _ := drain_evictions 2 in let* out := read id in let* outs := drained_reads ids in ret (out :: outs)
  end.

(** A batch that overflows at its third id leaves a controller that no longer stores
    an array: the first two blocks are in the stash, rewritten and under leaves the
    position map does not know, and in the tree as they were.  With no write in
    between, block 1 reads as the batch wrote it and then as it was before. *)
Lemma batch_overflow_corrupts : exists o T o1, small_build = Ok o /\ oram_inv o demo_blocks T /\
  access_batch [1; 0; 2] (fun u _ _ => (u, [9; 9])) tt o = (Err (StashOverflow 3 2), o1) /\
  (drained_reads [1; 0; 1] o1).1 = Ok [[9; 9]; [1; 2]; [3; 4]].
Proof.
  destruct small_inv as (o & T & E & Ho). exists o, T. eexists. split; [exact E|]. split; [exact Ho|]. clear Ho.
  vm_compute in E. apply Ok_inj in E as <-. split; [vm_compute; reflexivity|vm_compute; reflexivity].
Qed.
