(* ===== verification/CircuitTrace.v ===== *)
(** * What the host sees of the controller

    The trace of every online operation, on stores with a log at or below them: it is
    what the stores make of the paths of the leaves the operation looks up, all reads
    before all writes, whatever the blocks hold. *)

From S2P Require Import Prelude Ct Block Params Store Trace Schedule Bucket PosMap Stash Overlay Rng State Evict.
From S2P Require Import Circuit.

Section Traces.
Context `{Subtle} {MS PS R U : Type} `{PathPageStore MS} `{PathPageStore PS} `{Rng R}.
Context (EM : StoreEvents MS) (EP : StoreEvents PS).
Local Abbreviation Oram := (CircuitOram MS PS R).

Definition meta_log (o : Oram) : list TraceEvent := se_log EM (meta_store o).
Definition payload_log (o : Oram) : list TraceEvent := se_log EP (payload_store o).
Definition meta_state (o : Oram) : Prop := se_state EM (meta_store o).
Definition payload_state (o : Oram) : Prop := se_state EP (payload_store o).
Local Abbreviation emits_meta := (emits meta_state meta_log).
Local Abbreviation emits_payload := (emits payload_state payload_log).

(** The paths read, then the same paths written. *)
Definition path_trace (paths : list (list Z)) : list TraceEvent :=
  (TraceRead <$> concat paths) ++ (TraceWrite <$> concat paths).

(** A computation that makes the accesses [evs], seen in both logs. *)
Definition logs_at {A} (m : M Oram A) (o : Oram) (evs : list TraceEvent) : Prop :=
  emits_at meta_state meta_log m o (evs ≫= se_event EM) /\ emits_at payload_state payload_log m o (evs ≫= se_event EP).
Definition logs {A} (m : M Oram A) (evs : list TraceEvent) : Prop := forall o, logs_at m o evs.
Definition quiet {A} (m : M Oram A) : Prop := emits_meta m [] /\ emits_payload m [].

Lemma logs_intro {A} (m : M Oram A) evs : emits_meta m (evs ≫= se_event EM) -> emits_payload m (evs ≫= se_event EP) -> logs m evs.
Proof. intros H1' H2' o. split; [apply H1'|apply H2']. Qed.
Lemma logs_meta {A} (m : M Oram A) evs : logs m evs -> emits_meta m (evs ≫= se_event EM).
Proof. intros Hm o. exact (proj1 (Hm o)). Qed.
Lemma logs_payload {A} (m : M Oram A) evs : logs m evs -> emits_payload m (evs ≫= se_event EP).
Proof. intros Hm o. exact (proj2 (Hm o)). Qed.

Lemma quiet_ret {A} (a : A) : quiet (ret a).
Proof. split; apply emits_ret. Qed.
Lemma quiet_lift {A} (r : outcome A) : quiet (lift r).
Proof. split; apply emits_lift. Qed.
Lemma quiet_gets {A} (f : Oram -> A) : quiet (gets f).
Proof. split; apply emits_gets. Qed.
Lemma quiet_guardm b e : quiet (guardm b e).
Proof. split; apply emits_guardm. Qed.
Lemma quiet_bind {A B} (m : M Oram A) (k : A -> M Oram B) : quiet m -> (forall a, quiet (k a)) -> quiet (bind m k).
Proof. intros [? ?] Hk. split; apply emits_skip; try done; intros a; apply Hk. Qed.
Lemma quiet_modify f : (forall o, meta_store (f o) = meta_store o /\ payload_store (f o) = payload_store o) -> quiet (modify f).
Proof.
  intros Hf. split; apply emits_modify; intros o; destruct (Hf o) as [Em Ep]; unfold meta_state, payload_state, meta_log, payload_log;
    rewrite ?Em, ?Ep; done.
Qed.
Lemma quiet_stash {A} (m : M (list OramBlock) A) : quiet (on_stash m).
Proof. split; by apply emits_zoom_other. Qed.
Lemma quiet_rng {A} (m : M R A) : quiet (on_rng m).
Proof. split; by apply emits_zoom_other. Qed.
Lemma quiet_schedule {A} (m : M CircuitEvictionSchedule A) : quiet (on_schedule m).
Proof. split; by apply emits_zoom_other. Qed.
Lemma quiet_self_check : quiet self_check_stash.
Proof. split; intros o HP a o' [= _ <-]; by rewrite app_nil_r. Qed.

Create HintDb quiet.
#[local] Hint Resolve logs_meta logs_payload : quiet.
#[local] Hint Resolve quiet_ret quiet_lift quiet_gets quiet_guardm quiet_stash quiet_rng quiet_schedule
  quiet_self_check : quiet.
#[local] Hint Extern 4 (quiet (modify _)) => (apply quiet_modify; done) : quiet.
#[local] Hint Extern 5 (quiet (bind _ _)) => (apply quiet_bind; [|intros]) : quiet.

Lemma quiet_lookup id : quiet (lookup_in_stash id).
Proof.
  unfold lookup_in_stash. apply quiet_bind; [auto with quiet|]. intros p. apply quiet_bind; [auto with quiet|]. intros st.
  destruct (stash_lookup _ _ _) as [out found]. destruct (_ =? _); [split; done|auto with quiet].
Qed.

Lemma quiet_batch_loop update (u : U) accesses overlays : quiet (batch_loop update u accesses overlays).
Proof.
  revert u overlays. induction accesses as [|[[id nl] path] accesses IH]; intros u overlays; cbn [batch_loop].
  { auto with quiet. }
  apply quiet_bind; [unfold remove_target_from_overlays; auto with quiet|]. intros ov.
  apply quiet_bind; [apply quiet_lookup|]. intros out. destruct (update u id out) as [u' np].
  auto 8 with quiet.
Qed.

Lemma logs_gets {A B} (f : Oram -> A) (k : A -> M Oram B) o evs :
  logs_at (k (f o)) o evs -> logs_at (bind (gets f) k) o evs.
Proof. done. Qed.

Lemma on_meta_emits {A} (m : M MS A) evs : emits (se_state EM) (se_log EM) m evs -> emits_meta (on_meta m) evs /\ emits_payload (on_meta m) [].
Proof. intros Hm. split; [by apply (emits_zoom _ _ _ _ (se_state EM) _ (se_log EM))|by apply emits_zoom_other]. Qed.
Lemma on_payload_emits {A} (m : M PS A) evs : emits (se_state EP) (se_log EP) m evs -> emits_payload (on_payload m) evs /\ emits_meta (on_payload m) [].
Proof. intros Hm. split; [by apply (emits_zoom _ _ _ _ (se_state EP) _ (se_log EP))|by apply emits_zoom_other]. Qed.

(** A call on each store makes the same accesses, so a pair of calls is one step. *)
Lemma logs_pair {A B C} (m1 : M MS A) (m2 : M PS B) (k : A -> B -> M Oram C) e1 e2 :
  emits (se_state EM) (se_log EM) m1 (e1 ≫= se_event EM) -> emits (se_state EP) (se_log EP) m2 (e1 ≫= se_event EP) ->
  (forall a b, logs (k a b) e2) -> logs (let* a := on_meta m1 in let* b := on_payload m2 in k a b) (e1 ++ e2).
Proof.
  intros [Hm1 Hm2]%on_meta_emits [Hp1 Hp2]%on_payload_emits Hk. apply logs_intro; rewrite bind_app.
  - apply emits_bind; [done|]. intros a. apply emits_skip; [done|]. auto with quiet.
  - apply emits_skip; [done|]. intros a. apply emits_bind; [done|]. auto with quiet.
Qed.

(** The writes at the end of an operation. *)
Lemma logs_write (m1 : M MS unit) (m2 : M PS unit) e :
  emits (se_state EM) (se_log EM) m1 (e ≫= se_event EM) -> emits (se_state EP) (se_log EP) m2 (e ≫= se_event EP) ->
  logs (let* _ := on_meta m1 in on_payload m2) e.
Proof.
  intros [Hm1 Hm2]%on_meta_emits [Hp1 Hp2]%on_payload_emits. apply logs_intro.
  - apply emits_then; [done|]. done.
  - apply emits_skip; [done|]. done.
Qed.

Lemma logs_skip {A B} (m : M Oram A) (k : A -> M Oram B) e : quiet m -> (forall a, logs (k a) e) -> logs (bind m k) e.
Proof. intros [? ?] Hk. apply logs_intro; apply emits_skip; auto with quiet. Qed.
Lemma logs_then {A B} (m : M Oram A) (k : A -> M Oram B) e : logs m e -> (forall a, quiet (k a)) -> logs (bind m k) e.
Proof. intros Hm Hk. apply logs_intro; apply emits_then; auto with quiet; intros a; apply Hk. Qed.
Lemma logs_at_then {A B} (m : M Oram A) (k : A -> M Oram B) o e : logs_at m o e -> (forall a, quiet (k a)) -> logs_at (bind m k) o e.
Proof.
  intros [? ?] Hk. split; rewrite <-(app_nil_r (e ≫= _)); apply emits_at_bind; try done; intros a; apply Hk.
Qed.
Lemma logs_quiet {A} (m : M Oram A) : quiet m -> logs m [].
Proof. intros [? ?]. by apply logs_intro. Qed.

(** ** The path operations *)

Lemma read_and_remove_logs lf id o :
  logs_at (read_and_remove_target_path lf id) o (path_trace [path_nodes (co_params o) lf]).
Proof.
  unfold read_and_remove_target_path, path_trace. cbn [concat]. rewrite app_nil_r.
  apply logs_gets, logs_pair; [apply se_read_path..|]. intros mp pp.
  apply logs_skip; [auto with quiet|]. intros r. apply logs_skip; [auto with quiet|]. intros _.
  apply logs_write; apply se_write_path.
Qed.

Lemma read_and_rewrite_logs lf o :
  logs_at (read_and_rewrite_path lf) o (path_trace [path_nodes (co_params o) lf]).
Proof.
  unfold read_and_rewrite_path, path_trace. cbn [concat]. rewrite app_nil_r.
  apply logs_gets, logs_pair; [apply se_read_path..|]. intros mp pp.
  apply logs_write; apply se_write_path.
Qed.

Lemma read_overlays_logs paths : logs (read_overlays paths) (TraceRead <$> concat paths).
Proof.
  unfold read_overlays. apply logs_skip; [auto with quiet|]. intros p.
  rewrite <-(app_nil_r (TraceRead <$> _)). apply logs_pair; [apply se_read_paths..|]. intros mp pp.
  apply logs_quiet. auto 10 with quiet.
Qed.

Lemma write_overlays_logs paths ov : logs (write_overlays paths ov) (TraceWrite <$> concat paths).
Proof.
  unfold write_overlays. apply logs_skip; [auto with quiet|]. intros mp. apply logs_skip; [auto with quiet|]. intros pp.
  apply logs_write; apply se_write_paths.
Qed.

(** A batch reads all its paths, works on the overlays, and writes all its paths. *)
Lemma batch_logs {B} paths (k : overlay * overlay -> M Oram B) :
  (forall ov, logs (k ov) (TraceWrite <$> concat paths)) -> logs (bind (read_overlays paths) k) (path_trace paths).
Proof.
  intros Hk. pose proof (read_overlays_logs paths) as Hr. unfold path_trace.
  apply logs_intro; rewrite bind_app; apply emits_bind; auto with quiet.
Qed.

Lemma logs_guardm {A} b e (k : unit -> M Oram A) o evs : logs_at (k tt) o evs -> logs_at (bind (guardm b e) k) o evs.
Proof. intros Hk. destruct b; [exact Hk|]. split; by intros HP a o'. Qed.

Lemma logs_on_rng {A B} (m : M R A) (k : A -> M Oram B) o a r evs :
  m (rng o) = (Ok a, r) -> logs_at (k a) (set_rng r o) evs -> logs_at (bind (on_rng m) k) o evs.
Proof.
  intros E [H1' H2']. assert (on_rng m o = (Ok a, set_rng r o)) as Eo by (by apply zoom_eq).
  split; intros HP b o'; rewrite (bind_eq _ _ _ _ _ Eo); intros E'; [by apply (H1' HP b)|by apply (H2' HP b)].
Qed.

Lemma logs_lift_ok {A B} (a : A) (k : A -> M Oram B) o evs : logs_at (k a) o evs -> logs_at (bind (lift (Ok a)) k) o evs.
Proof. done. Qed.

(** ** The online operations *)

Lemma access_logs id update o :
  logs_at (access id update) o (path_trace [path_nodes (co_params o) (scan_pos_map_lookup (pos_map o) id)]).
Proof.
  unfold access. apply logs_gets, logs_guardm, logs_gets, logs_at_then; [apply read_and_remove_logs|]. intros _.
  apply quiet_bind; [apply quiet_lookup|]. intros out. auto 10 with quiet.
Qed.

Lemma access_batch_logs ids update (u : U) o nls r :
  random_leaves (co_params o) (length ids) (rng o) = (Ok nls, r) ->
  logs_at (access_batch ids update u) o
    (path_trace (path_nodes (co_params o) <$> batch_access_leaves ids (scan_pos_map_lookup_batch (pos_map o) ids) nls)).
Proof.
  intros E. unfold access_batch. destruct (lenZ ids =? 0) eqn:El; zbool.
  { destruct ids; [|done]. apply (logs_quiet (ret _)), quiet_ret. }
  apply logs_gets, logs_guardm, logs_gets, logs_gets. rewrite E. cbv beta iota zeta.
  apply (batch_logs (B := list bytes * U)). intros ov.
  apply logs_skip; [apply quiet_batch_loop|]. intros res. apply logs_skip; [auto with quiet|]. intros _.
  apply logs_skip; [auto with quiet|]. intros _. apply logs_then; [apply write_overlays_logs|]. auto with quiet.
Qed.

Lemma dummy_access_logs o lf r :
  random_leaf (co_params o) (rng o) = (Ok lf, r) ->
  logs_at dummy_access o (path_trace [path_nodes (co_params o) lf]).
Proof.
  intros E. unfold dummy_access. apply logs_gets, (logs_on_rng _ _ _ _ _ _ E), logs_at_then;
    [apply (read_and_rewrite_logs lf (set_rng r o))|auto with quiet].
Qed.

Lemma dummy_access_batch_logs count o lfs r :
  random_leaves (co_params o) (Z.to_nat count) (rng o) = (Ok lfs, r) ->
  logs_at (dummy_access_batch count) o (path_trace (path_nodes (co_params o) <$> lfs)).
Proof.
  intros E. unfold dummy_access_batch. destruct (count =? 0) eqn:Ec; zbool.
  { subst count. cbn in E. injection E as <- <-. apply (logs_quiet (ret _)), quiet_ret. }
  apply logs_gets, (logs_on_rng _ _ _ _ _ _ E), batch_logs. intros ov.
  apply logs_then; [apply write_overlays_logs|]. auto with quiet.
Qed.

Lemma drain_logs budget o pending :
  pending_evictions (schedule o) = Ok pending ->
  logs_at (drain_evictions budget) o (path_trace (path_nodes (co_params o) <$>
    ((fun offset => eviction_leaf_at (co_params o) (completed_evictions (schedule o) + offset))
       <$> seqZ 0 (Z.min budget pending)))).
Proof.
  intros E. unfold drain_evictions. apply logs_gets. rewrite E. apply logs_lift_ok.
  destruct (Z.min budget pending =? 0) eqn:En; zbool; [rewrite En; apply (logs_quiet (ret _)), quiet_ret|].
  apply logs_gets, batch_logs. intros ov. apply logs_skip; [auto with quiet|]. intros ov'.
  apply logs_then; [apply write_overlays_logs|]. auto with quiet.
Qed.

End Traces.
