(* ===== verification/Oblivious.v ===== *)
(** * Obliviousness

    Over any successful sequence of online operations, the two page traces are a
    function of the shapes of the operations (how many paths, which drain budget), the
    schedule and the leaves looked up: they do not depend on the ids otherwise, nor on
    the blocks, the stash, the payloads written or the stores.  And the leaves looked
    up are distributed independently of the ids: for any two sequences of the same
    shapes, dummies included, there is a bijection between their random tapes (initial
    map and drawn leaves) under which the leaves are the same. *)

From S2P Require Import Prelude Ct Block Params Store Trace Schedule Bucket PosMap Stash Overlay Rng State Evict.
From S2P Require Import EvictPath Circuit Blocks CircuitInv CircuitOps.
From S2P Require Import Build BuildProofs CircuitSpec CircuitTrace.

(** ** The public view of a run *)

(** What the client asks for, payloads erased. *)
Inductive request : Type :=
| ReqAccess (id : Z)
| ReqBatch (ids : list Z)
| ReqDummy
| ReqDummyBatch (count : Z)
| ReqDrain (budget : Z).

Definition request_of (a : op) : request :=
  match a with
  | OpAccess id _ => ReqAccess id
  | OpBatch ids _ => ReqBatch ids
  | OpDummy => ReqDummy
  | OpDummyBatch count => ReqDummyBatch count
  | OpDrain budget => ReqDrain budget
  end.

Section View.
Context {R : Type} `{Rng R} (p : OramParams).

(** The position map, the generator and the schedule. *)
Record view : Type := mkView { v_pos : list Z; v_rng : R; v_schedule : CircuitEvictionSchedule }.

(** The leaves a request looks up, and the view after it. *)
Definition view_step (q : request) (v : view) : list Z * view :=
  let r := v_rng v in
  let s := v_schedule v in
  match q with
  | ReqAccess id =>
      ([pm_get (v_pos v) id], mkView (pm_set (v_pos v) (id, next_leaf p r)) (next_u64 r).2 (issue 1 s))
  | ReqBatch ids =>
      let (nls, r') := leaf_stream p (length ids) r in
      (sequential_leaves (v_pos v) ids nls,
       mkView (foldl pm_set (v_pos v) (zip ids nls)) r' (issue (lenZ ids) s))
  | ReqDummy => ([next_leaf p r], mkView (v_pos v) (next_u64 r).2 (issue 1 s))
  | ReqDummyBatch count =>
      let (lfs, r') := leaf_stream p (Z.to_nat count) r in (lfs, mkView (v_pos v) r' (issue count s))
  | ReqDrain budget =>
      let n := Z.min budget (debt s) in (eviction_leaves s n, mkView (v_pos v) r (advance n s))
  end.

Fixpoint view_trace (qs : list request) (v : view) : list TraceEvent :=
  match qs with
  | [] => []
  | q :: qs =>
      let (lfs, v') := view_step q v in path_trace (path_nodes p <$> lfs) ++ view_trace qs v'
  end.

End View.

Section Oblivious.
Context `{SL : SubtleLaws} {MS PS R : Type} `{LM : LawfulPathStore MS} `{LP : LawfulPathStore PS} `{Rng R}.
Context (EM : StoreEvents MS) (EP : StoreEvents PS).
Local Abbreviation Oram := (CircuitOram MS PS R).

Definition view_of (o : Oram) : view := mkView (pos_map o) (rng o) (schedule o).

Lemma access_leaves_seq (o : Oram) A T ids nls :
  oram_inv o A T -> Forall (fun id => 0 <= id < lenZ A) ids -> length ids = length nls ->
  batch_access_leaves ids (scan_pos_map_lookup_batch (pos_map o) ids) nls = sequential_leaves (pos_map o) ids nls.
Proof.
  intros Ho Hids Hl. apply batch_access_leaves_sequential; [done|].
  destruct (bi_pm _ _ _ _ _ (oi_blocks _ _ _ Ho)) as [Hpl _].
  pose proof (bi_arr _ _ _ _ _ (oi_blocks _ _ _ Ho)) as HA. by rewrite Hpl, <-HA.
Qed.

(** The logs of [o1] are those of [o] and what the stores make of [evs]. *)
Definition logged (o : Oram) (evs : list TraceEvent) (o1 : Oram) : Prop :=
  (meta_state EM o1 /\ payload_state EP o1) /\
  meta_log EM o1 = meta_log EM o ++ (evs ≫= se_event EM) /\ payload_log EP o1 = payload_log EP o ++ (evs ≫= se_event EP).

(** What one successful operation does to the view and to both logs. *)
Definition op_effect (o : Oram) (q : request) (o1 : Oram) : Prop :=
  co_params o1 = co_params o /\ view_of o1 = (view_step (co_params o) q (view_of o)).2 /\
  (meta_state EM o /\ payload_state EP o -> logged o (path_trace (path_nodes (co_params o) <$> (view_step (co_params o) q (view_of o)).1)) o1).

Lemma view_eq (o : Oram) v : pos_map o = v_pos v -> rng o = v_rng v -> schedule o = v_schedule v -> view_of o = v.
Proof. unfold view_of. destruct v. cbn. by intros -> -> ->. Qed.

Lemma logs_result {A} (m : M Oram A) o evs r o1 :
  logs_at EM EP m o evs -> m o = (Ok r, o1) -> meta_state EM o /\ payload_state EP o -> logged o evs o1.
Proof. intros [H1' H2'] E [Hm Hp]. destruct (H1' Hm r o1 E), (H2' Hp r o1 E). done. Qed.

Lemma access_effect (o : Oram) A T id update out o1 :
  oram_inv o A T -> 0 <= id < lenZ A -> good_update (co_params o) update -> can_record 1 (schedule o) ->
  access id update o = (Ok out, o1) -> op_effect o (ReqAccess id) o1.
Proof.
  intros Ho Hid Hupd Hrec E. pose proof (access_logs EM EP id update o) as L.
  rewrite scan_pos_map_lookup_get in L by lia.
  destruct (access_spec o A T id update Ho Hid Hupd Hrec) as
    [(o2 & T2 & E2 & _ & Hp & Hpm & Hr & Hs & _)|(_ & o2 & E2 & _)]; rewrite E in E2; simplify_eq.
  split; [done|]. split; [by apply view_eq|]. exact (logs_result _ _ _ _ _ L E).
Qed.

Lemma access_batch_effect {U} (o : Oram) A T ids update (u : U) res o1 :
  oram_inv o A T -> Forall (fun id => 0 <= id < lenZ A) ids ->
  (forall u id, good_update (co_params o) (fun pl => (update u id pl).2)) -> can_record (lenZ ids) (schedule o) ->
  access_batch ids update u o = (Ok res, o1) -> op_effect o (ReqBatch ids) o1.
Proof.
  intros Ho Hids Hupd Hrec E.
  destruct (random_leaves_eq (co_params o) (oi_params _ _ _ Ho) (length ids) (rng o)) as (Er & Hlen & _).
  pose proof (access_batch_logs EM EP ids update u o _ _ Er) as L.
  rewrite (access_leaves_seq o A T) in L by done.
  pose proof (access_batch_spec o A T ids update u Ho Hids Hupd Hrec) as Hspec. cbv zeta in Hspec.
  destruct (spec_batch update u A ids) as [[outs u'] A'].
  destruct Hspec as [(o2 & T2 & E2 & _ & Hp & Hpm & Hr & Hs & _)|(_ & o2 & E2 & _)]; rewrite E in E2; simplify_eq.
  unfold op_effect. cbn [view_step v_rng v_pos v_schedule view_of].
  destruct (leaf_stream _ _ _) as [nls r']. cbn [fst snd] in *.
  split; [done|]. split; [by apply view_eq|]. exact (logs_result _ _ _ _ _ L E).
Qed.

Lemma dummy_effect (o : Oram) A T o1 :
  oram_inv o A T -> can_record 1 (schedule o) -> dummy_access o = (Ok tt, o1) -> op_effect o ReqDummy o1.
Proof.
  intros Ho Hrec E. destruct (random_leaf_eq (co_params o) (oi_params _ _ _ Ho) (rng o)) as [Er _].
  pose proof (dummy_access_logs EM EP o _ _ Er) as L.
  destruct (dummy_access_spec o A T Ho Hrec) as (o2 & E2 & _ & Hp & Hpm & _ & Hr & Hs). rewrite E in E2. simplify_eq.
  split; [done|]. split; [by apply view_eq|]. exact (logs_result _ _ _ _ _ L E).
Qed.

Lemma dummy_batch_effect (o : Oram) A T count o1 :
  oram_inv o A T -> 0 <= count -> can_record count (schedule o) ->
  dummy_access_batch count o = (Ok tt, o1) -> op_effect o (ReqDummyBatch count) o1.
Proof.
  intros Ho Hc Hrec E.
  destruct (random_leaves_eq (co_params o) (oi_params _ _ _ Ho) (Z.to_nat count) (rng o)) as (Er & _ & _).
  pose proof (dummy_access_batch_logs EM EP count o _ _ Er) as L.
  destruct (dummy_access_batch_spec o A T count Ho Hc Hrec) as (o2 & E2 & _ & Hp & Hpm & _ & Hr & Hs).
  rewrite E in E2. simplify_eq. unfold op_effect. cbn [view_step v_rng v_pos v_schedule view_of].
  destruct (leaf_stream _ _ _) as [lfs r']. cbn [fst snd] in *.
  split; [done|]. split; [by apply view_eq|]. exact (logs_result _ _ _ _ _ L E).
Qed.

Lemma drain_effect (o : Oram) A T budget n o1 :
  oram_inv o A T -> 0 <= budget -> drain_evictions budget o = (Ok n, o1) -> op_effect o (ReqDrain budget) o1.
Proof.
  intros Ho Hb E. pose proof (drain_logs EM EP budget o _ (pending_evictions_ok _ (oi_schedule _ _ _ Ho))) as L.
  rewrite eviction_leaves_at in L by apply Ho.
  destruct (drain_evictions_spec o A T budget Ho Hb) as (o2 & T2 & E2 & _ & Hp & Hpm & Hr & Hs & _).
  rewrite E in E2. simplify_eq.
  split; [done|]. split; [by apply view_eq|]. exact (logs_result _ _ _ _ _ L E).
Qed.

(** One operation: the array it leaves, and its effect on view and traces. *)
Lemma exec_op_effect (o : Oram) A T a m out o1 :
  oram_inv o A T -> op_ok (co_params o) a -> 0 <= m -> can_record (op_accesses a + m) (schedule o) ->
  exec_op a o = (Ok out, o1) ->
  (exists A1 T1, oram_inv o1 A1 T1) /\ can_record m (schedule o1) /\ op_effect o (request_of a) o1.
Proof.
  intros Ho Ha Hm Hrec E.
  destruct (exec_op_spec o A T a m Ho Ha Hm Hrec) as [(o2 & T2 & E2 & Ho2 & _ & Hrec2 & _)|(_ & o2 & E2)];
    rewrite E in E2; simplify_eq.
  split; [by eexists _, _|]. split; [done|].
  assert (lenZ A = logical_blocks (co_params o)) as HA by apply (oi_blocks _ _ _ Ho).
  pose proof (oi_schedule _ _ _ Ho) as Hs.
  destruct a as [id update|ids update| |count|budget]; cbn [op_ok op_accesses exec_op request_of] in *;
    apply bind_Ok in E as (x & o3 & E & E3%(f_equal snd)); cbn in E3; subst o3; try destruct Ha as [Hids Hupd].
  - eapply access_effect; [done|by rewrite HA|done|by apply (can_record_mono 1 (1 + m)); [lia|..]|done].
  - pose proof (lenZ_nonneg ids).
    eapply (access_batch_effect o A T ids (batch_update update) tt x); [done|by rewrite HA|intros u id; apply Hupd|
      by apply (can_record_mono _ (lenZ ids + m)); [lia|..]|done].
  - destruct x. eapply dummy_effect; [done|by apply (can_record_mono 1 (1 + m)); [lia|..]|done].
  - destruct x. eapply dummy_batch_effect; [done|done|by apply (can_record_mono count (count + m)); [lia|..]|done].
  - by eapply drain_effect.
Qed.

Lemma exec_ops_trace (ops : list op) (o : Oram) A T outs o' :
  oram_inv o A T -> Forall (op_ok (co_params o)) ops -> can_record (total_accesses ops) (schedule o) ->
  meta_state EM o /\ payload_state EP o -> exec_ops ops o = (Ok outs, o') ->
  logged o (view_trace (co_params o) (request_of <$> ops) (view_of o)) o'.
Proof.
  revert o A T outs. induction ops as [|a ops IH]; intros o A T outs Ho Hops Hrec Hst E.
  { injection E as _ <-. unfold logged. cbn. by rewrite !app_nil_r. }
  apply Forall_cons in Hops as [Ha Hops]. pose proof (total_accesses_nonneg _ _ Hops) as Hn.
  cbn [exec_ops] in E. apply bind_Ok in E as (out & o1 & E1 & E2).
  apply bind_Ok in E2 as (outs' & o2 & E2 & [= _ <-]).
  destruct (exec_op_effect o A T a _ out o1 Ho Ha Hn Hrec E1) as ((A1 & T1 & Ho1) & Hrec1 & (Hp & Hv & Hl)).
  destruct (Hl Hst) as (Hst1 & Hm & Hpl).
  rewrite <-Hp in Hops. destruct (IH o1 A1 T1 outs' Ho1 Hops Hrec1 Hst1 E2) as (Hst2 & Hm2 & Hp2).
  split; [exact Hst2|]. rewrite Hm2, Hp2, Hm, Hpl, Hv, Hp. cbn [fmap list_fmap view_trace].
  destruct (view_step _ _ _) as [lfs v']. cbn [fst snd]. by rewrite !bind_app, <-!app_assoc.
Qed.

Lemma same_accesses (ops1 ops2 : list op) : request_of <$> ops1 = request_of <$> ops2 -> total_accesses ops1 = total_accesses ops2.
Proof.
  revert ops2. induction ops1 as [|a ops1 IH]; intros [|b ops2] Hq; [done|done|done|].
  apply (f_equal tail) in Hq as Ht. apply (f_equal head) in Hq. cbn in Ht, Hq.
  cbn [total_accesses foldr]. fold (total_accesses ops1) (total_accesses ops2). rewrite (IH ops2 Ht).
  by destruct a, b; simplify_eq/=.
Qed.

(** Two runs that agree on what the view holds and on the requests log the same. *)
Lemma runs_log_alike (ops1 ops2 : list op) (o1 o2 : Oram) A1 T1 A2 T2 outs1 outs2 o1' o2' :
  oram_inv o1 A1 T1 -> oram_inv o2 A2 T2 ->
  co_params o1 = co_params o2 -> view_of o1 = view_of o2 -> request_of <$> ops1 = request_of <$> ops2 ->
  Forall (op_ok (co_params o1)) ops1 -> Forall (op_ok (co_params o1)) ops2 ->
  can_record (total_accesses ops1) (schedule o1) ->
  meta_state EM o1 /\ payload_state EP o1 -> meta_state EM o2 /\ payload_state EP o2 ->
  exec_ops ops1 o1 = (Ok outs1, o1') -> exec_ops ops2 o2 = (Ok outs2, o2') ->
  let evs := view_trace (co_params o1) (request_of <$> ops1) (view_of o1) in logged o1 evs o1' /\ logged o2 evs o2'.
Proof.
  intros Ho1 Ho2 Hp Hv Hq Hops1 Hops2 Hrec Hs1 Hs2 E1 E2 evs.
  split; [exact (exec_ops_trace ops1 o1 A1 T1 outs1 o1' Ho1 Hops1 Hrec Hs1 E1)|].
  subst evs. rewrite Hp, Hv, Hq. rewrite Hp in Hops2.
  apply (exec_ops_trace ops2 o2 A2 T2 outs2 o2' Ho2 Hops2); [|done..].
  rewrite <-(same_accesses _ _ Hq). by injection Hv as _ _ <-.
Qed.

End Oblivious.

(** ** The revealed leaves do not depend on the ids *)

(** A run of lookups, of an id or of none (a dummy).  A lookup of an id shows the leaf
    of its block and gives the block the drawn leaf; a dummy shows the drawn leaf.
    From an initial map and the drawn leaves to the leaves shown and the final map. *)
Fixpoint reveal (lks : list (option Z)) (pm draws : list Z) : list Z * list Z :=
  match lks, draws with
  | Some id :: lks, lf :: draws =>
      let (shown, pm') := reveal lks (pm_set pm (id, lf)) draws in (pm_get pm id :: shown, pm')
  | None :: lks, lf :: draws => let (shown, pm') := reveal lks pm draws in (lf :: shown, pm')
  | _, _ => ([], pm)
  end.

(** The same swaps backwards. *)
Fixpoint unreveal (lks : list (option Z)) (shown pm' : list Z) : list Z * list Z :=
  match lks, shown with
  | Some id :: lks, lf :: shown =>
      let (pm1, draws) := unreveal lks shown pm' in (pm_set pm1 (id, lf), pm_get pm1 id :: draws)
  | None :: lks, lf :: shown => let (pm1, draws) := unreveal lks shown pm' in (pm1, lf :: draws)
  | _, _ => (pm', [])
  end.

(** Random tapes: an initial position map of [n] leaves and [k] drawn leaves. *)
Definition tape_ok (p : OramParams) (n : Z) (k : nat) (t : list Z * list Z) : Prop :=
  lenZ t.1 = n /\ length t.2 = k /\ Forall (leaf_ok p) t.1 /\ Forall (leaf_ok p) t.2.

(** The tape on which the lookups [b] show what the lookups [a] show on [t]. *)
Definition retape (a b : list (option Z)) (t : list Z * list Z) : list Z * list Z :=
  unreveal b (reveal a t.1 t.2).1 (reveal a t.1 t.2).2.

(** The ids looked up are those of an array of [n] blocks. *)
Definition lookups_ok (n : Z) : list (option Z) -> Prop :=
  Forall (fun lk => match lk with Some id => 0 <= id < n | None => True end).

Lemma lookups_ok_ids n ids : Forall (fun id => 0 <= id < n) ids -> lookups_ok n (Some <$> ids).
Proof. intros Hids. by apply Forall_fmap. Qed.

Section Unbiased.

Lemma pm_swap pm id lf :
  0 <= id < lenZ pm -> pm_get (pm_set pm (id, lf)) id = lf /\ pm_set (pm_set pm (id, lf)) (id, pm_get pm id) = pm.
Proof.
  intros Hid. unfold lenZ in Hid. unfold pm_get, pm_set. cbn [fst snd]. split.
  - by rewrite list_lookup_insert_eq by lia.
  - destruct (lookup_lt_is_Some_2 pm (Z.to_nat id)) as [x Hx]; [lia|]. rewrite list_insert_insert_eq.
    rewrite Hx. cbn [default]. by apply list_insert_id.
Qed.

Lemma pm_get_Forall (P : Z -> Prop) pm id : 0 <= id < lenZ pm -> Forall P pm -> P (pm_get pm id).
Proof.
  intros Hid Hpm. unfold pm_get, lenZ in *. destruct (lookup_lt_is_Some_2 pm (Z.to_nat id)) as [x Hx]; [lia|].
  rewrite Hx. exact (Forall_lookup_1 P pm (Z.to_nat id) x Hpm Hx).
Qed.

Lemma reveal_ids ids pm draws :
  reveal (Some <$> ids) pm draws = (sequential_leaves pm ids draws, foldl pm_set pm (zip ids draws)).
Proof.
  revert pm draws. induction ids as [|id ids IH]; intros pm [|lf draws]; [done..|].
  rewrite fmap_cons. cbn [reveal sequential_leaves zip zip_with foldl]. by rewrite IH.
Qed.

Lemma reveal_dummies n pm draws : length draws = n -> reveal (replicate n None) pm draws = (draws, pm).
Proof.
  revert draws. induction n as [|n IH]; intros [|lf draws] Hl; simplify_eq/=; [done|]. by rewrite IH.
Qed.

Lemma reveal_app a b pm d1 d2 : length a = length d1 ->
  reveal (a ++ b) pm (d1 ++ d2) = ((reveal a pm d1).1 ++ (reveal b (reveal a pm d1).2 d2).1, (reveal b (reveal a pm d1).2 d2).2).
Proof.
  revert pm d1. induction a as [|lk a IH]; intros pm [|lf d1] Hl; simplify_eq/=; [by destruct (reveal b pm d2)|].
  destruct lk as [id|]; rewrite IH by done; by destruct (reveal a _ _).
Qed.

Lemma unreveal_reveal n lks pm draws :
  lenZ pm = n -> lookups_ok n lks -> length lks = length draws ->
  unreveal lks (reveal lks pm draws).1 (reveal lks pm draws).2 = (pm, draws).
Proof.
  intros Hn Hids. revert pm draws Hn. induction Hids as [|lk lks Hid _ IH]; intros pm [|lf draws] Hn Hl; simplify_eq/=; [done|].
  destruct lk as [id|].
  - specialize (IH (pm_set pm (id, lf)) draws). destruct (reveal lks (pm_set pm (id, lf)) draws) as [rs pm']. cbn [fst snd] in *.
    rewrite IH; [|unfold lenZ, pm_set in *; by rewrite length_insert|done]. destruct (pm_swap pm id lf Hid) as [-> ->]. done.
  - specialize (IH pm draws). destruct (reveal lks pm draws) as [rs pm']. cbn [fst snd] in *. by rewrite IH.
Qed.

Lemma reveal_unreveal n lks shown pm' :
  lenZ pm' = n -> lookups_ok n lks -> length lks = length shown ->
  reveal lks (unreveal lks shown pm').1 (unreveal lks shown pm').2 = (shown, pm') /\
  lenZ (unreveal lks shown pm').1 = n /\ length (unreveal lks shown pm').2 = length lks.
Proof.
  intros Hn Hids. revert shown. induction Hids as [|lk lks Hid _ IH]; intros [|lf shown] Hl; simplify_eq/=; [done|].
  destruct (IH shown) as (E & Hl1 & Hl2); [done|]. destruct (unreveal lks shown pm') as [pm1 draws]. cbn [fst snd] in *.
  destruct lk as [id|]; cbn [fst snd length]; [|by rewrite E; split_and!; try done; rewrite Hl2].
  rewrite <-Hl1 in Hid. destruct (pm_swap pm1 id lf Hid) as [-> ->]. rewrite E.
  unfold lenZ, pm_set in *. rewrite length_insert. auto.
Qed.

Lemma reveal_Forall (P : Z -> Prop) n lks pm draws :
  lenZ pm = n -> lookups_ok n lks -> length lks = length draws -> Forall P pm -> Forall P draws ->
  Forall P (reveal lks pm draws).1 /\ Forall P (reveal lks pm draws).2 /\ lenZ (reveal lks pm draws).2 = n /\
  length (reveal lks pm draws).1 = length lks.
Proof.
  intros Hn Hids. revert pm draws Hn. induction Hids as [|lk lks Hid _ IH]; intros pm [|lf draws] Hn Hl Hpm Hd; simplify_eq/=; [done|].
  apply Forall_cons in Hd as [Hlf Hd]. destruct lk as [id|].
  - destruct (IH (pm_set pm (id, lf)) draws) as (H1 & H2 & H3 & H4); [unfold lenZ, pm_set in *; by rewrite length_insert|done|by apply Forall_insert|done|].
    destruct (reveal lks _ draws) as [rs pm']. cbn [fst snd length] in *. split_and!; [|done|done|lia].
    constructor; [|done]. by apply pm_get_Forall.
  - destruct (IH pm draws) as (H1 & H2 & H3 & H4); [done..|]. destruct (reveal lks pm draws) as [rs pm'].
    cbn [fst snd length] in *. split_and!; [by constructor|done|done|lia].
Qed.

Lemma unreveal_Forall (P : Z -> Prop) n lks shown pm' :
  lenZ pm' = n -> lookups_ok n lks -> length lks = length shown -> Forall P pm' -> Forall P shown ->
  Forall P (unreveal lks shown pm').1 /\ Forall P (unreveal lks shown pm').2.
Proof.
  intros Hn Hids. revert shown. induction Hids as [|lk lks Hid Hids IH]; intros [|lf shown] Hl Hpm Hr; simplify_eq/=; [done|].
  apply Forall_cons in Hr as [Hlf Hr].
  destruct (reveal_unreveal _ lks shown pm' eq_refl Hids Hl) as (_ & Hl1 & _). destruct (IH shown Hl Hpm Hr) as [H1 H2].
  destruct (unreveal lks shown pm') as [pm1 draws]. cbn [fst snd] in *. destruct lk as [id|]; [|split; [done|by constructor]].
  split; [by apply Forall_insert|]. constructor; [|done]. apply pm_get_Forall; [by rewrite Hl1|done].
Qed.

(** Retaping is invertible, keeps tapes well formed and shows the same leaves. *)
Lemma retape_ok p n a b t : length a = length b -> lookups_ok n a -> lookups_ok n b -> tape_ok p n (length a) t ->
  tape_ok p n (length a) (retape a b t) /\ retape b a (retape a b t) = t /\
  (reveal b (retape a b t).1 (retape a b t).2).1 = (reveal a t.1 t.2).1.
Proof.
  intros Hl Ha Hb. destruct t as [pm draws]. intros (Hn & Hk & Hpm & Hd). cbn [fst snd] in *.
  destruct (reveal_Forall (leaf_ok p) n a pm draws Hn Ha ltac:(lia) Hpm Hd) as (H1 & H2 & H3 & H4).
  pose proof (unreveal_reveal n a pm draws Hn Ha ltac:(lia)) as Hur.
  destruct (reveal_unreveal n b (reveal a pm draws).1 (reveal a pm draws).2 H3 Hb ltac:(lia)) as (E & Hn2 & Hk2).
  destruct (unreveal_Forall (leaf_ok p) n b (reveal a pm draws).1 (reveal a pm draws).2 H3 Hb ltac:(lia) H2 H1) as [Hf1 Hf2].
  unfold retape. cbn [fst snd]. rewrite E. cbn [fst snd]. split; [by split_and!; [done|lia|done|done]|done].
Qed.

End Unbiased.

(** The leaves the accesses to [ids] look up on a tape, as the code computes them. *)
Definition revealed `{Subtle} (ids : list Z) (t : list Z * list Z) : list Z :=
  batch_access_leaves ids (scan_pos_map_lookup_batch t.1 ids) t.2.

Lemma revealed_reveal `{SubtleLaws} p n ids t : Forall (fun id => 0 <= id < n) ids -> tape_ok p n (length ids) t ->
  revealed ids t = (reveal (Some <$> ids) t.1 t.2).1.
Proof.
  intros Hids (Hn & Hk & _). unfold revealed. rewrite reveal_ids. apply batch_access_leaves_sequential; [lia|by rewrite Hn].
Qed.

(** C12: the looked-up leaves say nothing about the ids: for any two id sequences
    of the same length, the random tapes of the one are in bijection with those
    of the other so that the revealed leaves agree.  On uniform tapes the
    revealed leaves therefore have the same distribution for all ids. *)
Theorem revealed_leaves_unbiased `{SubtleLaws} (p : OramParams) n ids1 ids2 :
  length ids1 = length ids2 -> Forall (fun id => 0 <= id < n) ids1 -> Forall (fun id => 0 <= id < n) ids2 ->
  exists f g : list Z * list Z -> list Z * list Z,
    forall t, tape_ok p n (length ids1) t ->
      (tape_ok p n (length ids1) (f t) /\ g (f t) = t /\ revealed ids2 (f t) = revealed ids1 t) /\
      (tape_ok p n (length ids1) (g t) /\ f (g t) = t).
Proof.
  intros Hl Hids1 Hids2. exists (retape (Some <$> ids1) (Some <$> ids2)), (retape (Some <$> ids2) (Some <$> ids1)).
  intros t Ht. pose proof (lookups_ok_ids _ _ Hids1) as H1. pose proof (lookups_ok_ids _ _ Hids2) as H2.
  assert (length (Some <$> ids1) = length ids1 /\ length (Some <$> ids2) = length ids1) as [El1 El2] by (by rewrite !length_fmap).
  destruct (retape_ok p n (Some <$> ids1) (Some <$> ids2) t) as (Hf & Hgf & Er); rewrite ?El1, ?El2; try done.
  destruct (retape_ok p n (Some <$> ids2) (Some <$> ids1) t) as (Hg & Hfg & _); rewrite ?El1, ?El2; try done.
  rewrite El1, ?El2 in *. split; [|by split]. split; [done|]. split; [done|].
  rewrite (revealed_reveal p n ids2), (revealed_reveal p n ids1) by (rewrite <-?Hl; done). exact Er.
Qed.

(** ** Shapes

    What the host learns of an operation before it runs: how many paths it reads, or
    the eviction budget of a drain.  An access and a dummy access have the same shape,
    and so have a batch and a dummy batch of the same length. *)
Inductive shape : Type :=
| Lookups (n : nat)
| Drain (budget : Z).

Definition shape_of (a : op) : shape :=
  match a with
  | OpAccess _ _ | OpDummy => Lookups 1
  | OpBatch ids _ => Lookups (length ids)
  | OpDummyBatch count => Lookups (Z.to_nat count)
  | OpDrain budget => Drain budget
  end.

(** The lookups of an operation. *)
Definition lookups_of (a : op) : list (option Z) :=
  match a with
  | OpAccess id _ => [Some id]
  | OpBatch ids _ => Some <$> ids
  | OpDummy => [None]
  | OpDummyBatch count => replicate (Z.to_nat count) None
  | OpDrain _ => []
  end.
Definition run_lookups (ops : list op) : list (option Z) := ops ≫= lookups_of.

Lemma run_lookups_cons a ops : run_lookups (a :: ops) = lookups_of a ++ run_lookups ops.
Proof. done. Qed.

(** The trace of operations of given shapes that look up the leaves [lfs]. *)
Fixpoint shape_trace (p : OramParams) (shs : list shape) (s : CircuitEvictionSchedule) (lfs : list Z) : list TraceEvent :=
  match shs with
  | [] => []
  | Lookups n :: shs => path_trace (path_nodes p <$> take n lfs) ++ shape_trace p shs (issue (Z.of_nat n) s) (drop n lfs)
  | Drain budget :: shs =>
      let n := Z.min budget (debt s) in
      path_trace (path_nodes p <$> eviction_leaves s n) ++ shape_trace p shs (advance n s) lfs
  end.

Section Shapes.
Context {R : Type} `{Rng R} (p : OramParams).

Lemma leaf_stream_length n (r : R) : length (leaf_stream p n r).1 = n.
Proof.
  revert r. induction n as [|n IH]; intros r; cbn [leaf_stream]; [done|]. specialize (IH (next_u64 r).2).
  destruct (leaf_stream p n _) as [lfs r']. simpl in *. by rewrite IH.
Qed.

Lemma leaf_stream_app n m (r : R) :
  leaf_stream p (n + m) r = ((leaf_stream p n r).1 ++ (leaf_stream p m (leaf_stream p n r).2).1, (leaf_stream p m (leaf_stream p n r).2).2).
Proof.
  revert r. induction n as [|n IH]; intros r; [by cbn; destruct (leaf_stream p m r)|]. cbn [Nat.add leaf_stream].
  rewrite IH. by destruct (leaf_stream p n _).
Qed.

Lemma op_lookups_length a : op_ok p a -> lenZ (lookups_of a) = op_accesses a.
Proof.
  destruct a as [|ids| |count|]; cbn; try done; intros Ha; unfold lenZ; [by rewrite length_fmap|rewrite length_replicate; lia].
Qed.

Lemma same_shapes (ops1 ops2 : list op) : shape_of <$> ops1 = shape_of <$> ops2 -> Forall (op_ok p) ops1 -> Forall (op_ok p) ops2 ->
  length (run_lookups ops1) = length (run_lookups ops2) /\ total_accesses ops1 = total_accesses ops2.
Proof.
  revert ops2. induction ops1 as [|a ops1 IH]; intros [|b ops2] Hq H1 H2; try done.
  apply (f_equal tail) in Hq as Ht. apply (f_equal head) in Hq. cbn in Ht, Hq. injection Hq as Hq.
  apply Forall_cons in H1 as [Ha H1]. apply Forall_cons in H2 as [Hb H2]. destruct (IH ops2 Ht H1 H2) as [E1 E2].
  assert (length (lookups_of a) = length (lookups_of b)) as El.
  { destruct a, b; cbn [shape_of lookups_of] in *; simplify_eq; rewrite ?length_fmap, ?length_replicate; cbn [length]; (done || lia). }
  cbn [total_accesses foldr]. fold (total_accesses ops1) (total_accesses ops2).
  rewrite !run_lookups_cons, !length_app, E1, E2, El. split; [done|]. rewrite <-(op_lookups_length a), <-(op_lookups_length b) by done. unfold lenZ. by rewrite El.
Qed.

Lemma run_lookups_ok (ops : list op) : Forall (op_ok p) ops -> lookups_ok (logical_blocks p) (run_lookups ops).
Proof.
  induction 1 as [|a ops Ha _ IH]; [constructor|]. rewrite run_lookups_cons. apply Forall_app. split; [|exact IH].
  destruct a as [id u|ids u| |count|b]; cbn [lookups_of op_ok] in *; [apply Forall_singleton, Ha|apply lookups_ok_ids, Ha| | |constructor].
  - by apply Forall_singleton.
  - by apply Forall_replicate.
Qed.

(** One operation: its leaves are those its lookups show. *)
Lemma view_step_reveal a (v : view (R := R)) : op_ok p a ->
  let draws := leaf_stream p (length (lookups_of a)) (v_rng v) in
  let shown := reveal (lookups_of a) (v_pos v) draws.1 in
  let v' := (view_step p (request_of a) v).2 in
  v_pos v' = shown.2 /\ v_rng v' = draws.2 /\
  forall shs lfs, path_trace (path_nodes p <$> (view_step p (request_of a) v).1) ++ shape_trace p shs (v_schedule v') lfs =
    shape_trace p (shape_of a :: shs) (v_schedule v) (shown.1 ++ lfs).
Proof.
  destruct a as [id u|ids u| |count|b]; cbn [op_ok lookups_of shape_of request_of view_step shape_trace]; intros Ha.
  - done.
  - rewrite length_fmap, reveal_ids. pose proof (leaf_stream_length (length ids) (v_rng v)) as Hl.
    destruct (leaf_stream p (length ids) (v_rng v)) as [nls r']. cbn [fst snd v_pos v_rng v_schedule] in *. split; [done|]. split; [done|].
    intros shs lfs. assert (length (sequential_leaves (v_pos v) ids nls) = length ids) as Es.
    { clear -Hl. revert nls Hl. generalize (v_pos v). induction ids as [|id ids IH]; intros pm [|lf nls] Hl; simplify_eq/=; [done|]. by rewrite IH. }
    by rewrite take_app_length', drop_app_length' by done.
  - done.
  - rewrite length_replicate. pose proof (leaf_stream_length (Z.to_nat count) (v_rng v)) as Hl.
    rewrite reveal_dummies by done. destruct (leaf_stream p (Z.to_nat count) (v_rng v)) as [lfs0 r']. cbn [fst snd v_pos v_rng v_schedule] in *.
    split; [done|]. split; [done|]. intros shs lfs. by rewrite Z2Nat.id, take_app_length', drop_app_length' by done.
  - done.
Qed.

(** The trace of a run is a function of the shapes, the schedule and the leaves shown. *)
Lemma view_trace_shape (ops : list op) (v : view (R := R)) : Forall (op_ok p) ops ->
  view_trace p (request_of <$> ops) v =
  shape_trace p (shape_of <$> ops) (v_schedule v)
    (reveal (run_lookups ops) (v_pos v) (leaf_stream p (length (run_lookups ops)) (v_rng v)).1).1.
Proof.
  intros Hops. revert v. induction Hops as [|a ops Ha _ IH]; intros v; [done|].
  destruct (view_step_reveal a v Ha) as (Hpm & Hr & Ht). rewrite run_lookups_cons, !fmap_cons. cbn [view_trace] in *.
  destruct (view_step p (request_of a) v) as [lfs v'] eqn:Ev. cbn [fst snd] in *. rewrite IH, Hpm, Hr, Ht.
  rewrite length_app, leaf_stream_app. cbn [fst]. by rewrite reveal_app by (by rewrite leaf_stream_length).
Qed.

End Shapes.

(** ** What a tracing store records *)

Section Traces.
Context `{SL : SubtleLaws} {M1 P1 R : Type} `{LM : LawfulPageStore M1} `{LP : LawfulPageStore P1} `{Rng R}.
Local Abbreviation Oram := (CircuitOram (TracingStore M1) (TracingStore P1) R).

Definition meta_trace {M2 P2} (o : CircuitOram (TracingStore M2) (TracingStore P2) R) : list TraceEvent := trace (meta_store o).
Definition payload_trace {M2 P2} (o : CircuitOram (TracingStore M2) (TracingStore P2) R) : list TraceEvent := trace (payload_store o).

(** The random tape of a run: its position map and the leaves it will draw. *)
Definition tape_of {M2 P2} (ops : list op) (o : CircuitOram (TracingStore M2) (TracingStore P2) R) : list Z * list Z :=
  (pos_map o, (leaf_stream (co_params o) (length (run_lookups ops)) (rng o)).1).

Lemma traced_run (ops : list op) (o : Oram) A T outs o' :
  oram_inv o A T -> Forall (op_ok (co_params o)) ops -> can_record (total_accesses ops) (schedule o) -> exec_ops ops o = (Ok outs, o') ->
  let t := tape_of ops o in
  let evs := shape_trace (co_params o) (shape_of <$> ops) (schedule o) (reveal (run_lookups ops) t.1 t.2).1 in
  meta_trace o' = meta_trace o ++ evs /\ payload_trace o' = payload_trace o ++ evs.
Proof.
  intros Ho Hops Hrec E t evs.
  destruct (exec_ops_trace (blanket_events tracing_events) (blanket_events tracing_events) ops o A T outs o' Ho Hops Hrec (conj I I) E) as (_ & Hm & Hp).
  rewrite (view_trace_shape (co_params o) ops (view_of o) Hops) in Hm, Hp. cbn [v_pos v_rng v_schedule view_of] in Hm, Hp.
  fold (tape_of ops o).1 in Hm. rewrite <-(list_bind_single evs). by split.
Qed.

Lemma tape_of_ok (ops : list op) (o : Oram) A T p :
  oram_inv o A T -> co_params o = p -> tape_ok p (logical_blocks p) (length (run_lookups ops)) (tape_of ops o).
Proof.
  intros Ho <-. destruct (bi_pm _ _ _ _ _ (oi_blocks _ _ _ Ho)) as [Hl Hpm].
  destruct (random_leaves_eq (co_params o) (oi_params _ _ _ Ho) (length (run_lookups ops)) (rng o)) as (_ & Hn & Hok). done.
Qed.

(** C7: the host learns nothing but the shapes of the operations.  Take any two
    sequences of operations of the same shapes (each reads as many paths as the other,
    for whatever ids, dummies or real, with whatever updates, and drains with the same
    budget).  Then (1) any two successful runs of them, from controllers of the same
    parameters and schedule, whatever their blocks, stashes and stores, that look up
    the same leaves show the host the same pages of both stores in the same order;
    and (2) there is a bijection between the random tapes of the two runs (position
    map and drawn leaves) under which they look up the same leaves.  On uniform tapes
    the leaves looked up, and with them the traces, are distributed alike. *)
Theorem traces_depend_on_shapes_only (p : OramParams) (ops1 ops2 : list op) :
  shape_of <$> ops1 = shape_of <$> ops2 -> Forall (op_ok p) ops1 -> Forall (op_ok p) ops2 ->
  let shown ops (t : list Z * list Z) := (reveal (run_lookups ops) t.1 t.2).1 in
  let tape := tape_ok p (logical_blocks p) (length (run_lookups ops1)) in
  (forall (o1 o2 : Oram) A1 T1 A2 T2 outs1 outs2 o1' o2',
     oram_inv o1 A1 T1 -> oram_inv o2 A2 T2 -> co_params o1 = p -> co_params o2 = p -> schedule o1 = schedule o2 ->
     can_record (total_accesses ops1) (schedule o1) ->
     exec_ops ops1 o1 = (Ok outs1, o1') -> exec_ops ops2 o2 = (Ok outs2, o2') ->
     (tape (tape_of ops1 o1) /\ tape (tape_of ops2 o2)) /\
     (shown ops1 (tape_of ops1 o1) = shown ops2 (tape_of ops2 o2) ->
      exists evs, meta_trace o1' = meta_trace o1 ++ evs /\ payload_trace o1' = payload_trace o1 ++ evs /\
        meta_trace o2' = meta_trace o2 ++ evs /\ payload_trace o2' = payload_trace o2 ++ evs)) /\
  exists f g : list Z * list Z -> list Z * list Z,
    forall t, tape t -> (tape (f t) /\ g (f t) = t /\ shown ops2 (f t) = shown ops1 t) /\ (tape (g t) /\ f (g t) = t).
Proof.
  intros Hsh Hops1 Hops2 shown tape. destruct (same_shapes p ops1 ops2 Hsh Hops1 Hops2) as [El Et]. split.
  - intros o1 o2 A1 T1 A2 T2 outs1 outs2 o1' o2' Ho1 Ho2 Hp1 Hp2 Hs Hrec E1 E2.
    split; [split; [|unfold tape; rewrite El]; by eapply tape_of_ok|]. intros Hshown.
    rewrite <-Hp1 in Hops1. rewrite <-Hp2 in Hops2.
    pose proof (traced_run ops1 o1 A1 T1 outs1 o1' Ho1 Hops1 Hrec E1) as [Hm1 Hpl1].
    rewrite Et, Hs in Hrec. pose proof (traced_run ops2 o2 A2 T2 outs2 o2' Ho2 Hops2 Hrec E2) as [Hm2 Hpl2].
    exists (shape_trace p (shape_of <$> ops1) (schedule o1) (shown ops1 (tape_of ops1 o1))).
    unfold shown, tape_of in *. cbn [fst snd] in *. rewrite Hp1, Hp2, <-?Hsh, <-?Hs, <-?Hshown in *. done.
  - pose proof (run_lookups_ok p ops1 Hops1) as Hlk1. pose proof (run_lookups_ok p ops2 Hops2) as Hlk2.
    exists (retape (run_lookups ops1) (run_lookups ops2)), (retape (run_lookups ops2) (run_lookups ops1)). intros t Ht.
    destruct (retape_ok p _ _ (run_lookups ops2) t El Hlk1 Hlk2 Ht) as (Hf & Hgf & Er). unfold tape in *. rewrite El in Ht.
    destruct (retape_ok p _ _ (run_lookups ops1) t (eq_sym El) Hlk2 Hlk1 Ht) as (Hg & Hfg & _). rewrite <-El in Hg. done.
Qed.

End Traces.

(** A successful access reads and then writes, in both stores, exactly the
    pages of the path of the block's old leaf, whatever the stores, the stash, the
    payload and the update are: the access's id reaches the host only through the
    leaf the position map holds for it. *)
Theorem access_trace_is_one_path `{Subtle} {M1 P1 R : Type} `{PageStore M1} `{PageStore P1} `{Rng R}
    (o o' : CircuitOram (TracingStore M1) (TracingStore P1) R) id update out :
  access id update o = (Ok out, o') ->
  let path := path_nodes (co_params o) (scan_pos_map_lookup (pos_map o) id) in
  meta_trace o' = meta_trace o ++ (TraceRead <$> path) ++ (TraceWrite <$> path) /\
  payload_trace o' = payload_trace o ++ (TraceRead <$> path) ++ (TraceWrite <$> path).
Proof.
  intros E path. destruct (access_logs (blanket_events tracing_events) (blanket_events tracing_events) id update o) as [L1 L2].
  destruct (L1 I _ _ E) as [_ E1], (L2 I _ _ E) as [_ E2]. unfold path_trace in E1, E2. cbn [concat] in E1, E2.
  rewrite app_nil_r in E1, E2. rewrite <-(list_bind_single ((TraceRead <$> path) ++ _)). done.
Qed.

(** ** Witnesses *)

#[local] Existing Instance bool_subtle.
#[local] Existing Instance bool_subtle_laws.

Definition with_traces {MS PS R} (o : CircuitOram MS PS R) : CircuitOram (TracingStore MS) (TracingStore PS) R :=
  mkOram (co_params o) (tracing_new (meta_store o)) (tracing_new (payload_store o))
    (pos_map o) (stash o) (rng o) (schedule o).

Lemma with_traces_inv (o : CircuitOram MemPageStore MemPageStore Z) A T : oram_inv o A T -> oram_inv (with_traces o) A T.
Proof. intros []. by split. Qed.

(** A second image: other blocks, same seed or another. *)
Definition other_blocks : list bytes := [[9; 9]; [8; 8]; [0; 1]; [6; 6]].
Definition other_build_at (seed : bytes) : outcome (CircuitOram MemPageStore MemPageStore Z) :=
  build_trusted demo_params demo_meta demo_payload other_blocks seed.
Definition other_build : outcome (CircuitOram MemPageStore MemPageStore Z) := other_build_at [5].

Lemma other_inv_at seed : (exists o, other_build_at seed = Ok o) -> exists o T, other_build_at seed = Ok o /\ oram_inv o other_blocks T.
Proof.
  intros [o0 E0]. destruct demo_params_ok as (Hp & Hf & Hn). destruct demo_stores_ok as (Hm & Hps & Hsh).
  assert (vec_ok (mkVecSource other_blocks 2)) as Hok by (repeat constructor; vm_compute; intuition discriminate).
  destruct (build_spec (R := Z) demo_params Hp Hf Hn demo_meta demo_payload (mkVecSource other_blocks 2) seed
    (arr_get other_blocks) Hm Hps Hsh) as [(o & T & E & Ho & _)|E].
  - split_and!; [exact Hok|done|done].
  - reflexivity.
  - intros id Hid. exact (@src_content_ok _ _ vec_lawful (mkVecSource other_blocks 2) id Hok Hid).
  - exists o, T. split; [exact E|exact Ho].
  - exfalso. pose proof (eq_trans (eq_sym E0) E) as Ec. discriminate Ec.
Qed.

Lemma other_inv : exists o T, other_build = Ok o /\ oram_inv o other_blocks T.
Proof. apply (other_inv_at [5]). eexists. vm_compute. reflexivity. Qed.

(** Two runs of the same requests: payloads and updates differ. *)
Definition demo_ops1 : list op := [OpAccess 2 (fun _ => [9; 9]); OpBatch [2; 0] (fun _ pl => pl); OpDummy; OpDrain 3].
Definition demo_ops2 : list op := [OpAccess 2 (fun pl => pl); OpBatch [2; 0] (fun _ _ => [7; 7]); OpDummy; OpDrain 3].

(** A run of the same shapes: other ids, and an access for the dummy.  On the image of
    seed 6 it looks up the leaves 3, 1, 1 and 2, as [demo_ops1] does on [demo_build]. *)
Definition demo_ops3 : list op := [OpAccess 3 (fun pl => pl); OpBatch [1; 1] (fun _ _ => [7; 7]); OpAccess 0 (fun pl => pl); OpDrain 3].

Lemma demo_ops_ok : Forall (op_ok demo_params) demo_ops1 /\ Forall (op_ok demo_params) demo_ops2 /\ Forall (op_ok demo_params) demo_ops3.
Proof.
  assert (forall pl, lenZ pl = 2 -> bytes_ok pl -> good_update demo_params (fun _ => pl)) as Hc
    by (intros pl Hl Hb pl0 _ _; exact (conj Hl Hb)).
  assert (good_update demo_params (fun pl => pl)) as Hi by (intros pl Hl Hb; exact (conj Hl Hb)).
  assert (bytes_ok [9; 9] /\ bytes_ok [7; 7]) as [H9 H7] by (split; repeat constructor; vm_compute; intuition discriminate).
  split; [|split]; repeat apply Forall_cons_2; try apply Forall_nil_2; cbn [op_ok]; try done.
  - split; [clear; repeat constructor; vm_compute; intuition discriminate|done].
  - split; [clear; repeat constructor; vm_compute; intuition discriminate|]. intros _. by apply (Hc [7; 7]).
  - split; [clear; repeat constructor; vm_compute; intuition discriminate|]. intros _. by apply (Hc [7; 7]).
Qed.

Lemma demo_runs (o1 o2 : CircuitOram MemPageStore MemPageStore Z) :
  demo_build = Ok o1 -> other_build_at [6] = Ok o2 ->
  (co_params (with_traces o1) = demo_params /\ co_params (with_traces o2) = demo_params) /\
  schedule (with_traces o1) = schedule (with_traces o2) /\ can_record (total_accesses demo_ops1) (schedule (with_traces o1)) /\
  (exists outs1 o1', exec_ops demo_ops1 (with_traces o1) = (Ok outs1, o1') /\ length (meta_trace o1') = 42%nat) /\
  (exists outs2 o2', exec_ops demo_ops3 (with_traces o2) = (Ok outs2, o2')) /\
  let t1 := tape_of demo_ops1 (with_traces o1) in let t2 := tape_of demo_ops3 (with_traces o2) in
  (reveal (run_lookups demo_ops1) t1.1 t1.2).1 = [3; 1; 1; 2] /\ (reveal (run_lookups demo_ops3) t2.1 t2.2).1 = [3; 1; 1; 2].
Proof.
  intros E1 E2. vm_compute in E1, E2. apply Ok_inj in E1 as <-. apply Ok_inj in E2 as <-.
  split; [split; reflexivity|]. split; [reflexivity|].
  split; [split; vm_compute; discriminate|]. split; [|split].
  - eexists _, _. split; [vm_compute; reflexivity|reflexivity].
  - eexists _, _. vm_compute. reflexivity.
  - split; vm_compute; reflexivity.
Qed.

Lemma traces_depend_on_shapes_only_witness :
  exists (o1 o2 : CircuitOram MemPageStore MemPageStore Z) outs1 outs2 o1' o2' evs,
    demo_build = Ok o1 /\ other_build_at [6] = Ok o2 /\
    exec_ops demo_ops1 (with_traces o1) = (Ok outs1, o1') /\ exec_ops demo_ops3 (with_traces o2) = (Ok outs2, o2') /\
    meta_trace o1' = evs /\ payload_trace o1' = evs /\ meta_trace o2' = evs /\ payload_trace o2' = evs.
Proof.
  destruct demo_inv as (o1 & T1 & E1 & Ho1 & _). destruct (other_inv_at [6]) as (o2 & T2 & E2 & Ho2); [eexists; vm_compute; reflexivity|].
  destruct (demo_runs o1 o2 E1 E2) as ([Hp1 Hp2] & Hs & Hrec & (outs1 & o1' & R1 & _) & (outs2 & o2' & R2) & Hl1 & Hl2).
  destruct demo_ops_ok as (Hok1 & _ & Hok3).
  destruct (traces_depend_on_shapes_only (M1 := MemPageStore) (P1 := MemPageStore) (R := Z) demo_params demo_ops1 demo_ops3 eq_refl Hok1 Hok3) as [Hrun _].
  destruct (Hrun (with_traces o1) (with_traces o2) demo_blocks T1 other_blocks T2
    outs1 outs2 o1' o2' (with_traces_inv _ _ _ Ho1) (with_traces_inv _ _ _ Ho2) Hp1 Hp2 Hs Hrec R1 R2)
    as [_ Hsame]. destruct Hsame as (evs & H1 & H2 & H3 & H4); [exact (eq_trans Hl1 (eq_sym Hl2))|].
  exists o1, o2, outs1, outs2, o1', o2', evs. split_and!; assumption.
Defined.

Lemma access_trace_is_one_path_witness :
  exists (o : CircuitOram MemPageStore MemPageStore Z) out o' path, demo_build = Ok o /\
    access 2 (fun pl => pl) (with_traces o) = (Ok out, o') /\
    meta_trace o' = (TraceRead <$> path) ++ (TraceWrite <$> path) /\
    payload_trace o' = (TraceRead <$> path) ++ (TraceWrite <$> path) /\ length path = 3%nat.
Proof.
  destruct demo_inv as (o & T & E & _).
  assert (exists out o', access 2 (fun pl => pl) (with_traces o) = (Ok out, o')) as (out & o' & Ea).
  { clear -E. vm_compute in E. apply Ok_inj in E as <-. eexists _, _. vm_compute. reflexivity. }
  exists o, out, o', (path_nodes (co_params (with_traces o)) (scan_pos_map_lookup (pos_map (with_traces o)) 2)).
  destruct (access_trace_is_one_path (with_traces o) o' 2 (fun pl => pl) out Ea) as [H1 H2].
  split; [exact E|]. split; [exact Ea|]. split; [exact H1|]. split; [exact H2|].
  clear -E. vm_compute in E. apply Ok_inj in E as <-. vm_compute. reflexivity.
Defined.

Lemma revealed_leaves_unbiased_witness :
  exists f g : list Z * list Z -> list Z * list Z,
    tape_ok demo_params 3 3 ([0; 1; 2], [3; 3; 1]) /\
    revealed [2; 2; 1] (f ([0; 1; 2], [3; 3; 1])) = revealed [0; 1; 0] ([0; 1; 2], [3; 3; 1]) /\
    g (f ([0; 1; 2], [3; 3; 1])) = ([0; 1; 2], [3; 3; 1]).
Proof.
  assert (tape_ok demo_params 3 3 ([0; 1; 2], [3; 3; 1])) as Ht.
  { split; [reflexivity|]. split; [reflexivity|]. split; repeat constructor; vm_compute; intuition discriminate. }
  destruct (revealed_leaves_unbiased demo_params 3 [0; 1; 0] [2; 2; 1] eq_refl) as (f & g & Hfg).
  - repeat constructor; vm_compute; intuition discriminate.
  - repeat constructor; vm_compute; intuition discriminate.
  - exists f, g. destruct (Hfg _ Ht) as [(_ & Hg & Hr) _]. split; [exact Ht|]. split; [exact Hr|exact Hg].
Defined.
