(* ===== verification/FrontCache.v ===== *)
(** * Front-cached page store ([src/src/store.rs], [FrontCachedPageStore])

    The first pages of a store kept in memory and written back on [flush].  The
    wrapper is again a lawful array of pages, and a flush of a cache whose clean
    pages agree with the inner store makes the two agree on every page. *)

From S2P Require Import Prelude Params Store.

(** Mirror of [struct FrontCachedPageStore]. *)
Record FrontCachedPageStore (S : Type) : Type := mkFront {
  fc_inner : S;
  fc_cached_pages : Z;
  fc_page_size : Z;
  fc_cached : bytes;
  fc_dirty : list bool
}.
Arguments mkFront {S}. Arguments fc_inner {S}. Arguments fc_cached_pages {S}. Arguments fc_page_size {S}.
Arguments fc_cached {S}. Arguments fc_dirty {S}.

Section Ops.
Context {S : Type} `{PageStore S}.
Local Abbreviation FS := (FrontCachedPageStore S).

(** The read loop of [FrontCachedPageStore::new]. *)
Fixpoint front_load (page_size : Z) (idxs : list Z) (cached : bytes) : M S bytes :=
  match idxs with
  | [] => ret cached
  | page_idx :: idxs =>
      let start := page_idx * page_size in
      let* buf := lift (slice cached start page_size) in
      let* page := ps_read_page page_idx buf in
      let* cached := lift (splice cached start page) in
      front_load page_size idxs cached
  end.

(** [FrontCachedPageStore::new] *)
Definition front_new (inner : S) (cached_pages : Z) : outcome FS :=
  if ps_page_count inner <? cached_pages then Err (InvalidInput "cached_pages {} > page_count {}")
  else
    let page_size := ps_page_size inner in
    let (cached, inner) :=
      front_load page_size (seqZ 0 cached_pages) (zeros (cached_pages * page_size)) inner in
    let? cached := cached in
    Ok (mkFront inner cached_pages page_size cached (replicate (Z.to_nat cached_pages) false)).

(** [FrontCachedPageStore::new_zeroed] *)
Definition front_new_zeroed (inner : S) (cached_pages : Z) : outcome FS :=
  if ps_page_count inner <? cached_pages then Err (InvalidInput "cached_pages {} > page_count {}")
  else
    let page_size := ps_page_size inner in
    Ok (mkFront inner cached_pages page_size (zeros (cached_pages * page_size))
          (replicate (Z.to_nat cached_pages) false)).

Definition set_fc_inner (i : S) (s : FS) : FS :=
  mkFront i (fc_cached_pages s) (fc_page_size s) (fc_cached s) (fc_dirty s).
Definition set_fc_cached (c : bytes) (s : FS) : FS :=
  mkFront (fc_inner s) (fc_cached_pages s) (fc_page_size s) c (fc_dirty s).
Definition set_fc_dirty (d : list bool) (s : FS) : FS :=
  mkFront (fc_inner s) (fc_cached_pages s) (fc_page_size s) (fc_cached s) d.
Definition on_fc_inner {A} (m : M S A) : M FS A := zoom fc_inner set_fc_inner m.

Definition front_page_count (s : FS) : Z := ps_page_count (fc_inner s).

(** [&self.cached[self.cached_range(page_idx)]] *)
Definition cached_slice (page_idx : Z) : M FS bytes := fun s =>
  (slice (fc_cached s) (page_idx * fc_page_size s) (fc_page_size s), s).

(** Write a cached page and mark it dirty. *)
Definition write_cached (page_idx : Z) (input : bytes) : M FS unit :=
  let* s := gets (fun s => s) in
  let* cached := lift (splice (fc_cached s) (page_idx * fc_page_size s) input) in
  let* _ := modify (set_fc_cached cached) in
  let* dirty := lift (updateZ (fc_dirty s) page_idx true) in
  modify (set_fc_dirty dirty).

(** [<FrontCachedPageStore as PageStore>::read_page] *)
Definition front_read_page (page_idx : Z) (out : bytes) : M FS bytes :=
  let* _ := check_page fc_page_size front_page_count page_idx (lenZ out) in
  let* cached_pages := gets fc_cached_pages in
  if page_idx <? cached_pages then
    let* src := cached_slice page_idx in lift (copy_from_slice out src)
  else on_fc_inner (ps_read_page page_idx out).

(** [<FrontCachedPageStore as PageStore>::write_page] *)
Definition front_write_page (page_idx : Z) (input : bytes) : M FS unit :=
  let* _ := check_page fc_page_size front_page_count page_idx (lenZ input) in
  let* cached_pages := gets fc_cached_pages in
  if page_idx <? cached_pages then write_cached page_idx input
  else on_fc_inner (ps_write_page page_idx input).

(** The classification loop of [read_pages]: cached pages are copied out, the
    positions and indices of the others collected. *)
Fixpoint front_read_loop (l : list (Z * Z)) (pages : list bytes) (inner_positions inner_indices : list Z)
    : M FS (list bytes * list Z * list Z) :=
  match l with
  | [] => ret (pages, inner_positions, inner_indices)
  | (pos, page_idx) :: l =>
      let* count := gets front_page_count in
      let* _ := guardm (negb (count <=? page_idx)) (InvalidInput "page_idx {} out of range {}") in
      let* cached_pages := gets fc_cached_pages in
      if page_idx <? cached_pages then
        let* src := cached_slice page_idx in
        let* old := lift (indexZ pages pos) in
        let* page := lift (copy_from_slice old src) in
        let* pages := lift (updateZ pages pos page) in
        front_read_loop l pages inner_positions inner_indices
      else front_read_loop l pages (inner_positions ++ [pos]) (inner_indices ++ [page_idx])
  end.

(** [pages[pos] = page] for every pair. *)
Definition scatter {A} (pages : list A) (l : list (Z * A)) : outcome (list A) :=
  ofold (fun pages (px : Z * A) => updateZ pages px.1 px.2) pages l.

(** [<FrontCachedPageStore as PageStore>::read_pages] *)
Definition front_read_pages (page_indices : list Z) : M FS (list bytes) :=
  let* size := gets fc_page_size in
  let* r := front_read_loop (enumerate page_indices)
              (replicate (length page_indices) (zeros size)) [] [] in
  let '(pages, inner_positions, inner_indices) := r in
  if lenZ inner_indices =? 0 then ret pages
  else
    let* inner_pages := on_fc_inner (ps_read_pages inner_indices) in
    lift (scatter pages (zip inner_positions inner_pages)).

(** The loop of [write_pages]. *)
Fixpoint front_write_loop (l : list (Z * bytes)) (inner_indices : list Z) (inner_pages : list bytes)
    : M FS (list Z * list bytes) :=
  match l with
  | [] => ret (inner_indices, inner_pages)
  | (page_idx, page) :: l =>
      let* count := gets front_page_count in
      let* _ := guardm (negb (count <=? page_idx)) (InvalidInput "page_idx {} out of range {}") in
      let* size := gets fc_page_size in
      let* _ := guardm (lenZ page =? size) (InvalidInput "page len {} != page_size {}") in
      let* cached_pages := gets fc_cached_pages in
      if page_idx <? cached_pages then
        let* _ := write_cached page_idx page in front_write_loop l inner_indices inner_pages
      else front_write_loop l (inner_indices ++ [page_idx]) (inner_pages ++ [page])
  end.

(** [<FrontCachedPageStore as PageStore>::write_pages] *)
Definition front_write_pages (page_indices : list Z) (pages : list bytes) : M FS unit :=
  let* _ := guardm (lenZ page_indices =? lenZ pages) (InvalidInput "page index count {} != page count {}") in
  let* r := front_write_loop (zip page_indices pages) [] [] in
  if lenZ r.1 =? 0 then ret tt else on_fc_inner (ps_write_pages r.1 r.2).

(** One page of [flush]. *)
Definition flush_page (page_idx : Z) : M FS unit :=
  let* dirty := gets fc_dirty in
  let* d := lift (indexZ dirty page_idx) in
  if d : bool then
    let* page := cached_slice page_idx in
    let* _ := on_fc_inner (ps_write_page page_idx page) in
    let* dirty := lift (updateZ dirty page_idx false) in
    modify (set_fc_dirty dirty)
  else ret tt.

(** [<FrontCachedPageStore as PageStore>::flush] *)
Definition front_flush : M FS unit :=
  let* cached_pages := gets fc_cached_pages in
  let* _ := iterM flush_page (seqZ 0 cached_pages) in
  on_fc_inner ps_flush.

#[export] Instance front_page_store : PageStore FS := {|
  ps_page_size := fc_page_size;
  ps_page_count := front_page_count;
  ps_read_page := front_read_page;
  ps_write_page := front_write_page;
  ps_read_pages := front_read_pages;
  ps_write_pages := front_write_pages;
  ps_flush := front_flush;
  ps_tiered_merkle_state := fun _ => None
|}.

End Ops.

(** ** Scattering values to positions *)

Section Scatter.

Lemma scatter_ok {A} (g pages : list A) l :
  length g = length pages ->
  (forall pos x, (pos, x) ∈ l -> 0 <= pos /\ g !! Z.to_nat pos = Some x) ->
  (forall n, pages !! n = g !! n \/ Z.of_nat n ∈ l.*1) ->
  scatter pages l = Ok g.
Proof.
  unfold scatter. revert pages. induction l as [|[pos x] l IH]; intros pages Hlen Hl Hcov; cbn [ofold].
  - f_equal. apply list_eq. intros n. destruct (Hcov n) as [?|[]%not_elem_of_nil]; done.
  - destruct (Hl pos x) as [Hpos Hx]; [apply list_elem_of_here|]. apply lookup_lt_Some in Hx as Hlt.
    unfold updateZ. cbn [fst snd]. rewrite (proj2 (Z.leb_le _ _)), (proj2 (Z.ltb_lt _ _)) by (unfold lenZ; lia).
    cbn [andb obind]. apply IH; [by rewrite length_insert|intros; apply Hl; by apply list_elem_of_further|].
    intros n. destruct (decide (n = Z.to_nat pos)) as [->|Hne].
    + left. rewrite list_lookup_insert_eq by lia. done.
    + rewrite list_lookup_insert_ne by done. destruct (Hcov n) as [?|[Hn|?]%elem_of_cons]; [by left| |by right].
      cbn in Hn. lia.
Qed.

(** Restricting a sequence of updates to the indices that satisfy [q]. *)
Definition keep {A} (q : Z -> bool) (l : list (Z * A)) : list (Z * A) := filter (fun ix => q ix.1 = true) l.

Lemma keep_cons {A} q (ix : Z * A) l : keep q (ix :: l) = if q ix.1 then ix :: keep q l else keep q l.
Proof. unfold keep. rewrite filter_cons. destruct (q ix.1) eqn:E; by case_decide. Qed.

Lemma pages_upd_keep {A} q (l : list (Z * A)) f j :
  q j = true -> pages_upd l.*1 l.*2 f j = pages_upd (keep q l).*1 (keep q l).*2 f j.
Proof.
  intros Hj. revert f. induction l as [|[i x] l IH]; intros f; [done|].
  rewrite keep_cons. cbn [fmap list_fmap fst snd pages_upd]. rewrite IH. destruct (q i) eqn:E; [done|].
  apply pages_upd_pointwise, page_upd_ne. congruence.
Qed.

Lemma keep_elem {A} q (l : list (Z * A)) ix : ix ∈ keep q l <-> q ix.1 = true /\ ix ∈ l.
Proof. unfold keep. by rewrite list_elem_of_filter. Qed.

End Scatter.

(** ** The cache is a lawful array of pages *)

Section Lawful.
Context {S : Type} `{LawfulPageStore S}.
Local Abbreviation FS := (FrontCachedPageStore S).

Definition front_content (s : FS) (i : Z) : bytes :=
  if i <? fc_cached_pages s then page_at (fc_page_size s) (fc_cached s) i else ps_content (fc_inner s) i.

(** Page [j] needs no write-back; clean cached pages agree with the inner store. *)
Definition clean (s : FS) (j : Z) : Prop := fc_dirty s !! Z.to_nat j = Some false.
Definition synced (s : FS) : Prop :=
  forall j, 0 <= j < fc_cached_pages s -> clean s j -> ps_content (fc_inner s) j = front_content s j.

Record front_ok (s : FS) : Prop := {
  fk_inner : ps_ok (fc_inner s);
  fk_count : 0 <= fc_cached_pages s <= ps_page_count (fc_inner s);
  fk_size : fc_page_size s = ps_page_size (fc_inner s);
  fk_len : lenZ (fc_cached s) = fc_cached_pages s * fc_page_size s;
  fk_bytes : bytes_ok (fc_cached s);
  fk_dirty : lenZ (fc_dirty s) = fc_cached_pages s;
  fk_synced : synced s
}.

Local Abbreviation next := (page_next front_ok fc_page_size front_page_count front_content).

Lemma front_size_pos s : front_ok s -> 0 < fc_page_size s.
Proof. intros []. rewrite fk_size0. by destruct (ps_dims_ok _ fk_inner0). Qed.

Lemma front_content_ok s i : front_ok s -> in_range (front_page_count s) i -> page_ok (fc_page_size s) (front_content s i).
Proof.
  intros Hs Hi. pose proof (front_size_pos s Hs). destruct Hs. unfold front_content, in_range in *.
  destruct (i <? fc_cached_pages s) eqn:E; zbool.
  - apply (region_slice (fc_cached_pages s)); (done || by split; lia).
  - rewrite fk_size0. by apply ps_content_ok.
Qed.

Lemma front_check_ok s i len :
  in_range (front_page_count s) i -> len = fc_page_size s ->
  check_page fc_page_size front_page_count i len s = (Ok tt, s).
Proof.
  intros Hi ->. unfold check_page. rewrite bind_gets, bind_guardm, bind_gets. destruct Hi.
  rewrite (proj2 (Z.leb_gt _ _)) by lia. cbn [negb]. unfold guardm. by rewrite Z.eqb_refl.
Qed.

Lemma cached_slice_ok s i : front_ok s -> 0 <= i < fc_cached_pages s -> cached_slice i s = (Ok (front_content s i), s).
Proof.
  intros Hs Hi. pose proof (front_size_pos s Hs). destruct Hs. unfold cached_slice, front_content.
  rewrite (proj2 (Z.ltb_lt _ _)) by lia.
  by destruct (region_slice (fc_cached_pages s) (fc_page_size s) ltac:(done) (fc_cached s) i) as [-> _].
Qed.

(** A cached write: only the buffer and the dirty flag change. *)
Lemma write_cached_ok s i page :
  front_ok s -> 0 <= i < fc_cached_pages s -> page_ok (fc_page_size s) page ->
  exists s', write_cached i page s = (Ok tt, s') /\ next s (page_upd i page (front_content s)) s' /\
    fc_inner s' = fc_inner s /\ fc_cached_pages s' = fc_cached_pages s /\
    fc_dirty s' = <[Z.to_nat i := true]> (fc_dirty s).
Proof.
  intros Hs Hi Hp. pose proof (front_size_pos s Hs) as Hpos. destruct Hs as [Hin Hc Hsz Hl Hb Hd Hsy].
  destruct (region_splice (fc_cached_pages s) (fc_page_size s) Hpos (fc_cached s) i page Hl Hb Hi Hp)
    as (c & E & Hlc & Hbc & Hj).
  unfold write_cached. rewrite bind_gets, E, bind_lift, bind_modify, bind_lift.
  unfold updateZ. rewrite Hd, (proj2 (Z.leb_le _ _)), (proj2 (Z.ltb_lt _ _)) by lia. cbn [andb].
  eexists. split; [reflexivity|]. split; [|done]. split.
  { split; try done; [cbn; unfold lenZ in *; by rewrite length_insert|]. intros j Hjr Hcl. unfold clean in Hcl. cbn in *.
    destruct (decide (j = i)) as [->|Hne].
    { rewrite list_lookup_insert_eq in Hcl; [done|unfold lenZ in *; lia]. }
    rewrite list_lookup_insert_ne in Hcl by lia. rewrite (Hsy j Hjr Hcl). unfold front_content. cbn.
    rewrite (proj2 (Z.ltb_lt _ _)) by lia. rewrite Hj by (unfold in_range; lia). by rewrite page_upd_ne. }
  split_and!; [done|done|]. intros j Hjr. unfold front_content, page_upd. cbn.
  destruct (j <? fc_cached_pages s) eqn:Ej; zbool.
  - rewrite Hj by (unfold in_range in *; lia). unfold page_upd. by destruct (j =? i).
  - by rewrite (proj2 (Z.eqb_neq j i)) by lia.
Qed.

(** An operation on the inner store. *)
Lemma on_inner_ok {A} (m : M S A) a s inner' f :
  front_ok s -> m (fc_inner s) = (Ok a, inner') -> ps_next (fc_inner s) f inner' ->
  (forall j, 0 <= j < fc_cached_pages s -> clean s j -> f j = ps_content (fc_inner s) j) ->
  exists s', on_fc_inner m s = (Ok a, s') /\ s' = set_fc_inner inner' s /\
    next s (fun j => if j <? fc_cached_pages s then front_content s j else f j) s'.
Proof.
  intros [] E (Hok & Hsz & Hcnt & Hf) Hcl. eexists. split; [by apply zoom_eq|]. split; [done|].
  split; [split; cbn; try done; try congruence|].
  { intros j Hj Hc. cbn in *. rewrite Hf by (unfold in_range; lia). rewrite Hcl by done. rewrite (fk_synced0 j Hj Hc).
    unfold front_content. cbn. by rewrite (proj2 (Z.ltb_lt _ _)) by lia. } split; [done|]. split; [exact Hcnt|].
  intros j Hj. unfold front_content. cbn. destruct (j <? fc_cached_pages s); [done|by apply Hf].
Qed.

Lemma front_read_page_ok s i out :
  front_ok s -> in_range (front_page_count s) i -> lenZ out = fc_page_size s ->
  exists s', front_read_page i out s = (Ok (front_content s i), s') /\ next s (front_content s) s'.
Proof.
  intros Hs Hi Ho. unfold front_read_page. rewrite (bind_eq _ _ _ _ _ (front_check_ok s i _ Hi Ho)), bind_gets.
  destruct (i <? fc_cached_pages s) eqn:E; zbool.
  - rewrite (bind_eq _ _ _ _ _ (cached_slice_ok s i Hs ltac:(unfold in_range in *; lia))).
    exists s. split; [|by apply page_next_refl]. unfold lift, copy_from_slice.
    destruct (front_content_ok s i Hs Hi) as [-> _]. by rewrite Ho, Z.eqb_refl.
  - destruct (ps_read_page_ok (fc_inner s) i out) as (inner' & E1 & Hn); [apply Hs|done|by rewrite Ho; apply Hs|].
    destruct (on_inner_ok _ _ _ _ _ Hs E1 Hn) as (s' & E2 & _ & Hn2); [done|]. exists s'. split.
    + rewrite E2. unfold front_content. by rewrite (proj2 (Z.ltb_ge _ _)) by lia.
    + eapply page_next_ext; [|exact Hn2]. intros j _. unfold front_content. by destruct (j <? fc_cached_pages s).
Qed.

Lemma front_write_page_ok s i page :
  front_ok s -> in_range (front_page_count s) i -> page_ok (fc_page_size s) page ->
  exists s', front_write_page i page s = (Ok tt, s') /\ next s (page_upd i page (front_content s)) s'.
Proof.
  intros Hs Hi Hp. unfold front_write_page.
  rewrite (bind_eq _ _ _ _ _ (front_check_ok s i _ Hi (proj1 Hp))), bind_gets.
  destruct (i <? fc_cached_pages s) eqn:E; zbool.
  - destruct (write_cached_ok s i page Hs) as (s' & E1 & Hn & _); [unfold in_range in *; lia|done|by exists s'].
  - destruct (ps_write_page_ok (fc_inner s) i page) as (inner' & E1 & Hn);
      [apply Hs|done|by rewrite <-(fk_size s Hs)|].
    destruct (on_inner_ok _ _ _ _ _ Hs E1 Hn) as (s' & E2 & _ & Hn2); [intros j Hj _; apply page_upd_ne; lia|].
    exists s'. split; [done|].
    eapply page_next_ext; [|exact Hn2]. intros j _. unfold front_content, page_upd.
    destruct (j <? fc_cached_pages s) eqn:Ej; zbool; [by rewrite (proj2 (Z.eqb_neq j i)) by lia|done].
Qed.

(** *** Batch reads *)

(** The positions and indices the cache does not hold. *)
Definition misses (s : FS) (k : Z) (idxs : list Z) : list (Z * Z) :=
  filter (fun pi => (fc_cached_pages s <=? pi.2) = true) (enumerate_from k idxs).

Lemma misses_cons s k i idxs :
  misses s k (i :: idxs) = if fc_cached_pages s <=? i then (k, i) :: misses s (k + 1) idxs else misses s (k + 1) idxs.
Proof. unfold misses. cbn [enumerate_from]. rewrite filter_cons. cbn [snd]. destruct (fc_cached_pages s <=? i) eqn:E; by case_decide. Qed.

Lemma front_read_loop_ok s idxs pre pages ps is_ :
  front_ok s -> Forall (in_range (front_page_count s)) idxs ->
  Forall (fun pg => lenZ pg = fc_page_size s) pages -> length pages = length idxs ->
  exists pages', front_read_loop (enumerate_from (lenZ pre) idxs) (pre ++ pages) ps is_ s =
    (Ok (pre ++ pages', ps ++ (misses s (lenZ pre) idxs).*1, is_ ++ (misses s (lenZ pre) idxs).*2), s) /\
    length pages' = length idxs /\
    forall k i, idxs !! k = Some i -> 0 <= i < fc_cached_pages s -> pages' !! k = Some (front_content s i).
Proof.
  intros Hs Hidxs. revert pre pages ps is_.
  induction Hidxs as [|i idxs Hi _ IH]; intros pre pages ps is_ Hpg Hl.
  { destruct pages; [|done]. exists []. cbn. rewrite !app_nil_r. by split_and!; [..|intros k i Hk; rewrite lookup_nil in Hk]. }
  destruct pages as [|old pages]; [done|]. apply Forall_cons in Hpg as [Hold Hpg]. simpl in Hl.
  cbn [enumerate_from front_read_loop]. rewrite bind_gets, bind_guardm, bind_gets.
  rewrite (proj2 (Z.leb_gt (front_page_count s) i)) by (unfold in_range in *; lia). cbn [negb].
  rewrite misses_cons. destruct (i <? fc_cached_pages s) eqn:E; zbool.
  - rewrite (bind_eq _ _ _ _ _ (cached_slice_ok s i Hs ltac:(unfold in_range in *; lia))).
    rewrite bind_lift, indexZ_app by done. rewrite bind_lift. unfold copy_from_slice.
    destruct (front_content_ok s i Hs Hi) as [Hlen _]. rewrite Hold, Hlen, Z.eqb_refl.
    rewrite bind_lift, updateZ_app by done. rewrite (proj2 (Z.leb_gt _ _)) by lia.
    destruct (IH (pre ++ [front_content s i]) pages ps is_) as (pages' & E1 & Hl' & Hk); [done|lia|].
    rewrite lenZ_app in E1. change (lenZ [front_content s i]) with 1 in E1. rewrite <-!app_assoc in E1.
    exists (front_content s i :: pages'). split; [exact E1|]. split; [simpl; lia|].
    intros [|k] j Hj Hjr; simplify_eq/=; [done|by apply Hk].
  - rewrite (proj2 (Z.leb_le _ _)) by lia.
    destruct (IH (pre ++ [old]) pages (ps ++ [lenZ pre]) (is_ ++ [i])) as (pages' & E1 & Hl' & Hk); [done|lia|].
    rewrite lenZ_app in E1. change (lenZ [old]) with 1 in E1. rewrite <-!app_assoc in E1.
    exists (old :: pages'). split; [exact E1|]. split; [simpl; lia|].
    intros [|k] j Hj Hjr; simplify_eq/=; [lia|by apply Hk].
Qed.

Lemma misses_elem s k idxs pos i :
  (pos, i) ∈ misses s k idxs <-> fc_cached_pages s <= i /\ k <= pos /\ idxs !! Z.to_nat (pos - k) = Some i.
Proof.
  unfold misses. rewrite list_elem_of_filter. cbn [snd]. rewrite Z.leb_le.
  assert ((pos, i) ∈ enumerate_from k idxs <-> k <= pos /\ idxs !! Z.to_nat (pos - k) = Some i) as ->; [|done].
  revert k. induction idxs as [|x idxs IH]; intros k; cbn [enumerate_from].
  { split; [by intros ?%not_elem_of_nil|intros [_ Hx]; by rewrite lookup_nil in Hx]. }
  rewrite elem_of_cons, IH. split.
  - intros [[= -> ->]|[Hk Hx]]; [by rewrite Z.sub_diag|].
    split; [lia|]. by replace (Z.to_nat (pos - k)) with (Datatypes.S (Z.to_nat (pos - (k + 1)))) by lia.
  - intros [Hk Hx]. destruct (decide (pos = k)) as [->|Hne]; [left|right].
    + rewrite Z.sub_diag in Hx. by simplify_eq/=.
    + split; [lia|]. by replace (Z.to_nat (pos - k)) with (Datatypes.S (Z.to_nat (pos - (k + 1)))) in Hx by lia.
Qed.

Lemma front_read_pages_ok s idxs :
  front_ok s -> Forall (in_range (front_page_count s)) idxs ->
  exists s', front_read_pages idxs s = (Ok (front_content s <$> idxs), s') /\ next s (front_content s) s'.
Proof.
  intros Hs Hidxs. unfold front_read_pages. rewrite bind_gets.
  destruct (front_read_loop_ok s idxs [] (replicate (length idxs) (zeros (fc_page_size s))) [] [] Hs Hidxs)
    as (pages & E & Hl & Hk).
  { apply Forall_replicate, lenZ_zeros. pose proof (front_size_pos s Hs). lia. }
  { apply length_replicate. }
  cbn [app] in E. change (lenZ []) with 0 in E. unfold enumerate. rewrite (bind_eq _ _ _ _ _ E).
  set (ms := misses s 0 idxs) in *.
  assert (forall n i, idxs !! n = Some i -> 0 <= i) as Hnn.
  { intros n i Hn. eapply Forall_lookup_1 in Hidxs; [|exact Hn]. apply Hidxs. }
  assert (forall inner', (forall j, in_range (front_page_count s) j -> ps_content inner' j = ps_content (fc_inner s) j) ->
    scatter pages (zip ms.*1 (ps_content inner' <$> ms.*2)) = Ok (front_content s <$> idxs)) as Hsc.
  { intros inner' Hin. apply scatter_ok.
    - by rewrite length_fmap.
    - intros pos x Hx. assert (exists i, (pos, i) ∈ ms /\ x = ps_content inner' i) as (i & Hi & ->).
      { apply list_elem_of_lookup in Hx as [m Hm]. apply lookup_zip_Some in Hm as [Hm1 Hm2].
        rewrite list_lookup_fmap in Hm1. rewrite !list_lookup_fmap in Hm2. destruct (ms !! m) as [[p0 i0]|] eqn:Em; simplify_eq/=.
        exists i0. split; [by eapply list_elem_of_lookup_2|done]. }
      apply misses_elem in Hi as (Hi & Hpos & Hn). rewrite Z.sub_0_r in Hn. split; [done|].
      rewrite list_lookup_fmap, Hn. cbn. f_equal. unfold front_content. rewrite (proj2 (Z.ltb_ge _ _)) by lia.
      symmetry. apply Hin. by eapply Forall_lookup_1 in Hidxs.
    - intros n. rewrite fst_zip by (by rewrite !length_fmap). rewrite list_lookup_fmap.
      destruct (idxs !! n) as [i|] eqn:En; cbn.
      + destruct (decide (i < fc_cached_pages s)); [left; apply Hk; [done|split; [by apply (Hnn n)|done]]|right].
        apply list_elem_of_fmap. exists (Z.of_nat n, i). split; [done|]. apply misses_elem.
        rewrite Z.sub_0_r, Nat2Z.id. split_and!; (done || lia).
      + left. apply lookup_ge_None. apply lookup_ge_None in En. lia. }
  destruct (lenZ ms.*2 =? 0) eqn:E0; zbool.
  - exists s. split; [|by apply page_next_refl]. unfold ret. do 2 f_equal.
    specialize (Hsc (fc_inner s) ltac:(done)). rewrite lenZ_fmap in E0. destruct ms; [|done]. cbn in Hsc. by apply Ok_inj in Hsc.
  - destruct (ps_read_pages_ok (fc_inner s) ms.*2) as (inner' & E1 & Hn); [apply Hs| |].
    { apply Forall_fmap, Forall_forall. intros [pos i] Hi. apply misses_elem in Hi as (_ & _ & Hi).
      by eapply Forall_lookup_1 in Hidxs. }
    destruct (on_inner_ok _ _ _ _ _ Hs E1 Hn) as (s' & E2 & _ & Hn2); [done|]. rewrite (bind_eq _ _ _ _ _ E2).
    exists s'. split; [unfold lift; f_equal; apply (Hsc (fc_inner s)); done|].
    eapply page_next_ext; [|exact Hn2]. intros j _. unfold front_content. by destruct (j <? fc_cached_pages s).
Qed.

(** *** Batch writes *)

Local Abbreviation missed s := (fun i => fc_cached_pages s <=? i).

Lemma front_write_loop_ok (l : list (Z * bytes)) s is_ pgs :
  front_ok s -> Forall (fun ip => in_range (front_page_count s) ip.1 /\ page_ok (fc_page_size s) ip.2) l ->
  exists s', front_write_loop l is_ pgs s =
      (Ok (is_ ++ (keep (missed s) l).*1, pgs ++ (keep (missed s) l).*2), s') /\
    front_ok s' /\ fc_inner s' = fc_inner s /\ fc_cached_pages s' = fc_cached_pages s /\
    fc_page_size s' = fc_page_size s /\
    forall j, 0 <= j < fc_cached_pages s -> front_content s' j = pages_upd l.*1 l.*2 (front_content s) j.
Proof.
  intros Hs Hl. revert s is_ pgs Hs Hl. induction l as [|[i page] l IH]; intros s is_ pgs Hs Hl.
  { exists s. cbn. by rewrite !app_nil_r. }
  apply Forall_cons in Hl as [[Hi Hp] Hl]. cbn [front_write_loop fst snd] in *.
  rewrite bind_gets, bind_guardm, bind_gets, bind_guardm, bind_gets.
  rewrite (proj2 (Z.leb_gt (front_page_count s) i)) by (unfold in_range in *; lia). cbn [negb].
  destruct Hp as [Hp Hpb]. rewrite Hp, Z.eqb_refl, keep_cons. cbn [fst].
  destruct (i <? fc_cached_pages s) eqn:E; zbool.
  - rewrite (proj2 (Z.leb_gt _ _)) by lia.
    destruct (write_cached_ok s i page Hs) as (s1 & E1 & (Hs1 & Hsz1 & Hc1 & Hj1) & Hin1 & Hcp1 & _);
      [unfold in_range in *; lia|done|]. rewrite (bind_eq _ _ _ _ _ E1).
    destruct (IH s1 is_ pgs Hs1) as (s2 & E2 & Hs2 & Hin2 & Hcp2 & Hsz2 & Hj2).
    { eapply Forall_impl; [exact Hl|]. intros ip [? ?]. by rewrite Hc1, Hsz1. }
    rewrite Hcp1 in E2. exists s2. split; [exact E2|]. split_and!; try done; try congruence.
    intros j Hj. rewrite Hj2 by lia. cbn [fmap list_fmap fst snd pages_upd]. apply pages_upd_pointwise, Hj1.
    pose proof (fk_count s Hs). unfold in_range, front_page_count. lia.
  - rewrite (proj2 (Z.leb_le _ _)) by lia.
    destruct (IH s (is_ ++ [i]) (pgs ++ [page]) Hs Hl) as (s2 & E2 & Hs2 & Hin2 & Hcp2 & Hsz2 & Hj2).
    rewrite <-!app_assoc in E2. exists s2. split; [exact E2|]. split_and!; try done.
    intros j Hj. rewrite Hj2 by lia. cbn [fmap list_fmap fst snd pages_upd]. apply pages_upd_pointwise.
    by rewrite page_upd_ne by lia.
Qed.

Lemma front_write_pages_ok s idxs pages :
  front_ok s -> Forall (in_range (front_page_count s)) idxs -> Forall (page_ok (fc_page_size s)) pages ->
  length idxs = length pages ->
  exists s', front_write_pages idxs pages s = (Ok tt, s') /\ next s (pages_upd idxs pages (front_content s)) s'.
Proof.
  intros Hs Hidxs Hpages Hlen. unfold front_write_pages. rewrite bind_guardm.
  rewrite (proj2 (Z.eqb_eq _ _)) by (unfold lenZ; lia).
  destruct (front_write_loop_ok (zip idxs pages) s [] [] Hs) as (s1 & E1 & Hs1 & Hin1 & Hcp1 & Hsz1 & Hj1).
  { apply Forall_forall. intros [i page] Hx. cbn [fst snd]. rewrite Forall_forall in Hidxs. rewrite Forall_forall in Hpages.
    split; [apply Hidxs; by eapply elem_of_zip_l|apply Hpages; by eapply elem_of_zip_r]. }
  rewrite (bind_eq _ _ _ _ _ E1). cbn [app fst snd]. set (kp := keep (missed s) (zip idxs pages)) in *.
  rewrite fst_zip, snd_zip in Hj1 by lia.
  assert (forall j, fc_cached_pages s <= j ->
    pages_upd idxs pages (front_content s) j = pages_upd kp.*1 kp.*2 (ps_content (fc_inner s)) j) as Hmiss.
  { intros j Hj. rewrite <-(fst_zip idxs pages) at 1 by lia. rewrite <-(snd_zip idxs pages) at 2 by lia.
    rewrite (pages_upd_keep (missed s)) by (by apply Z.leb_le). apply pages_upd_pointwise.
    unfold front_content. by rewrite (proj2 (Z.ltb_ge _ _)) by lia. }
  destruct (lenZ kp.*1 =? 0) eqn:E0; zbool.
  - exists s1. split; [done|]. split_and!; [done|done|unfold front_page_count; by rewrite Hin1|].
    intros j Hj. destruct (decide (j < fc_cached_pages s)); [apply Hj1; unfold in_range in *; lia|].
    rewrite lenZ_fmap in E0. destruct kp; [|done]. rewrite Hmiss by lia. cbn. unfold front_content.
    rewrite Hcp1, Hin1, (proj2 (Z.ltb_ge _ _)) by lia. done.
  - destruct (ps_write_pages_ok (fc_inner s1) kp.*1 kp.*2) as (inner' & E2 & Hn).
    { apply Hs1. }
    { apply Forall_fmap, Forall_forall. intros [i page] [_ Hx]%keep_elem. rewrite Hin1.
      rewrite Forall_forall in Hidxs. apply Hidxs. by eapply elem_of_zip_l. }
    { apply Forall_fmap, Forall_forall. intros [i page] [_ Hx]%keep_elem. rewrite Hin1, <-(fk_size s Hs).
      rewrite Forall_forall in Hpages. apply Hpages. by eapply elem_of_zip_r. }
    { by rewrite !length_fmap. }
    destruct (on_inner_ok _ _ _ _ _ Hs1 E2 Hn) as (s' & E3 & _ & (Hs3 & Hsz3 & Hc3 & Hj3)).
    { intros j Hj _. apply pages_upd_not_elem. intros ([i page] & -> & [Hx _]%keep_elem)%list_elem_of_fmap.
      cbn in *. apply Z.leb_le in Hx. lia. }
    exists s'. split; [exact E3|]. unfold front_page_count in *. rewrite Hin1 in *.
    split_and!; [done|congruence|done|]. intros j Hj. rewrite Hj3, Hcp1 by done.
    destruct (j <? fc_cached_pages s) eqn:Ej; zbool; [apply Hj1; unfold in_range in *; lia|by rewrite Hmiss].
Qed.

(** *** Flush *)

Definition same_cache (s s' : FS) : Prop :=
  fc_cached_pages s' = fc_cached_pages s /\ fc_page_size s' = fc_page_size s /\ fc_cached s' = fc_cached s /\
  front_page_count s' = front_page_count s /\
  forall j, fc_cached_pages s <= j -> in_range (front_page_count s) j ->
    ps_content (fc_inner s') j = ps_content (fc_inner s) j.

Lemma same_cache_content s s' j : same_cache s s' -> in_range (front_page_count s) j -> front_content s' j = front_content s j.
Proof.
  intros (Hc & Hp & Hb & _ & Hj) Hr. unfold front_content. rewrite Hc, Hp, Hb.
  destruct (j <? fc_cached_pages s) eqn:E; zbool; [done|]. by apply Hj.
Qed.

Lemma same_cache_trans s s1 s2 : same_cache s s1 -> same_cache s1 s2 -> same_cache s s2.
Proof.
  intros (Hc & Hp & Hb & Hn & Hj) (Hc2 & Hp2 & Hb2 & Hn2 & Hj2). unfold same_cache. split_and!; try congruence.
  intros j Hj' Hr. rewrite Hj2; [by apply Hj|by rewrite Hc|by rewrite Hn].
Qed.

Lemma flush_page_ok s i :
  front_ok s -> 0 <= i < fc_cached_pages s ->
  exists s', flush_page i s = (Ok tt, s') /\ front_ok s' /\ same_cache s s' /\ clean s' i /\
    (forall j, clean s j -> clean s' j).
Proof.
  intros Hs Hi. pose proof (fk_dirty s Hs) as Hd. unfold flush_page. rewrite bind_gets, bind_lift. unfold indexZ.
  rewrite (proj2 (Z.leb_le 0 i)) by lia.
  destruct (fc_dirty s !! Z.to_nat i) as [d|] eqn:Ed; [|apply lookup_ge_None in Ed; unfold lenZ in Hd; lia].
  destruct d; [|exists s; split_and!; done].
  rewrite (bind_eq _ _ _ _ _ (cached_slice_ok s i Hs Hi)).
  assert (in_range (front_page_count s) i) as Hir by (destruct (fk_count s Hs); unfold in_range, front_page_count; lia).
  pose proof (front_content_ok s i Hs Hir) as Hpg. rewrite (fk_size s Hs) in Hpg.
  destruct (ps_write_page_ok (fc_inner s) i (front_content s i) (fk_inner s Hs) Hir Hpg) as (inner' & E1 & Hn).
  destruct (on_inner_ok _ _ _ _ _ Hs E1 Hn) as (s1 & E2 & -> & (Hs1 & _)).
  { intros j Hj Hc. apply page_upd_ne. intros ->. unfold clean in Hc. congruence. }
  rewrite (bind_eq _ _ _ _ _ E2), bind_lift.
  unfold updateZ. rewrite Hd, (proj2 (Z.leb_le _ _)), (proj2 (Z.ltb_lt _ _)) by lia. cbn [andb].
  destruct Hn as (Hok' & Hsz' & Hcnt' & Hj'). eexists. split; [reflexivity|]. split_and!.
  - destruct Hs1 as [? ? ? ? ? ? Hsy1]. split; try done; [cbn; unfold lenZ in *; by rewrite length_insert|].
    intros j Hj Hc. cbn in Hj, Hc |- *. unfold clean in Hc. cbn in Hc.
    pose proof (fk_count s Hs). destruct (decide (j = i)) as [->|Hne].
    { rewrite Hj' by done. rewrite page_upd_eq. unfold front_content. cbn. by rewrite (proj2 (Z.ltb_lt _ _)) by lia. }
    rewrite list_lookup_insert_ne in Hc by lia. exact (Hsy1 j Hj Hc).
  - split_and!; try done. intros j Hj Hr. cbn. rewrite Hj' by done. by rewrite page_upd_ne by lia.
  - unfold clean. cbn. rewrite list_lookup_insert_eq; [done|unfold lenZ in *; lia].
  - intros j Hj. unfold clean. cbn. destruct (decide (Z.to_nat j = Z.to_nat i)) as [->|Hne].
    + rewrite list_lookup_insert_eq; [done|unfold lenZ in *; lia].
    + by rewrite list_lookup_insert_ne.
Qed.

Lemma flush_loop_ok idxs s :
  front_ok s -> Forall (fun i => 0 <= i < fc_cached_pages s) idxs ->
  exists s', iterM flush_page idxs s = (Ok tt, s') /\ front_ok s' /\ same_cache s s' /\
    Forall (clean s') idxs /\ (forall j, clean s j -> clean s' j).
Proof.
  intros Hs Hidxs. revert s Hs Hidxs. induction idxs as [|i idxs IH]; intros s Hs Hidxs; cbn [iterM].
  { exists s. split_and!; done. }
  apply Forall_cons in Hidxs as [Hi Hidxs].
  destruct (flush_page_ok s i Hs Hi) as (s1 & E1 & Hs1 & Hsame1 & Hcl1 & Hm1).
  rewrite (bind_eq _ _ _ _ _ E1). pose proof Hsame1 as (Hcp & _).
  destruct (IH s1 Hs1) as (s2 & E2 & Hs2 & Hsame2 & Hcl2 & Hm2); [by rewrite Hcp|].
  exists s2. split_and!; [done|done|by eapply same_cache_trans| |auto].
  apply Forall_cons. split; [by apply Hm2|done].
Qed.

Lemma front_flush_spec s :
  front_ok s ->
  exists s', front_flush s = (Ok tt, s') /\ next s (front_content s) s' /\
    exists s1, same_cache s s1 /\ ps_flush (fc_inner s1) = (Ok tt, fc_inner s') /\ ps_ok (fc_inner s1) /\
      forall j, in_range (front_page_count s) j -> ps_content (fc_inner s1) j = front_content s j /\
        ps_content (fc_inner s') j = front_content s j.
Proof.
  intros Hs. unfold front_flush. rewrite bind_gets.
  destruct (flush_loop_ok (seqZ 0 (fc_cached_pages s)) s Hs) as (s1 & E1 & Hs1 & Hsame & Hcl & _).
  { apply Forall_forall. intros i Hi. apply elem_of_seqZ in Hi. lia. }
  rewrite (bind_eq _ _ _ _ _ E1). pose proof Hsame as (Hcp & Hps & Hb & Hcnt & Hout).
  destruct (ps_flush_ok (fc_inner s1) (fk_inner s1 Hs1)) as (inner' & E2 & Hn).
  destruct (on_inner_ok _ _ _ _ _ Hs1 E2 Hn) as (s2 & E3 & -> & (Hs2 & Hsz2 & Hc2 & Hj2)); [done|].
  eexists. split; [exact E3|].
  split.
  - split; [exact Hs2|]. split; [cbn; congruence|]. split; [congruence|]. intros j Hj.
    rewrite Hj2 by (by rewrite Hcnt). rewrite <-(same_cache_content s s1 j Hsame Hj). unfold front_content.
    by destruct (j <? fc_cached_pages s1).
  - exists s1. split_and!; [done|done|apply Hs1|]. intros j Hj. destruct Hn as (_ & _ & _ & Hn). cbn [fc_inner set_fc_inner].
    rewrite Hn by (change (in_range (front_page_count s1) j); by rewrite Hcnt).
    assert (ps_content (fc_inner s1) j = front_content s j) as ->; [|done].
    destruct (decide (j < fc_cached_pages s)) as [Hlt|Hge].
    + rewrite (fk_synced s1 Hs1 j); [by apply same_cache_content|rewrite Hcp; unfold in_range in Hj; lia|].
      rewrite Forall_forall in Hcl. apply Hcl. apply elem_of_seqZ. unfold in_range in Hj. lia.
    + unfold front_content. rewrite (proj2 (Z.ltb_ge _ _)) by lia. by rewrite Hout by (done || lia).
Qed.

Lemma front_flush_ok s :
  front_ok s -> exists s', front_flush s = (Ok tt, s') /\ next s (front_content s) s'.
Proof. intros Hs. destruct (front_flush_spec s Hs) as (s' & ? & ? & _). by exists s'. Qed.

#[export] Instance front_lawful : LawfulPageStore FS := {|
  ps_ok := front_ok;
  ps_content := front_content;
  ps_content_ok := front_content_ok;
  ps_dims_ok := fun s Hs => conj (front_size_pos s Hs) (proj2 (ps_dims_ok _ (fk_inner s Hs)));
  ps_read_page_ok := front_read_page_ok;
  ps_write_page_ok := front_write_page_ok;
  ps_read_pages_ok := front_read_pages_ok;
  ps_write_pages_ok := front_write_pages_ok;
  ps_flush_ok := front_flush_ok
|}.

(** *** Construction *)

Lemma front_load_loop inner cp (n : nat) k c s :
  ps_ok inner -> cp <= ps_page_count inner -> k + Z.of_nat n = cp -> 0 <= k ->
  lenZ c = cp * ps_page_size inner -> bytes_ok c -> ps_next inner (ps_content inner) s ->
  (forall j, 0 <= j < k -> page_at (ps_page_size inner) c j = ps_content inner j) ->
  exists c' s', front_load (ps_page_size inner) (seqZ k (Z.of_nat n)) c s = (Ok c', s') /\
    ps_next inner (ps_content inner) s' /\ lenZ c' = cp * ps_page_size inner /\ bytes_ok c' /\
    forall j, 0 <= j < cp -> page_at (ps_page_size inner) c' j = ps_content inner j.
Proof.
  intros Hin Hcp. set (size := ps_page_size inner). assert (0 < size) as Hsize by apply (ps_dims_ok _ Hin).
  revert k c s. induction n as [|n IH]; intros k c s Hk Hk0 Hl Hb Hn Hj.
  { exists c, s. split_and!; try done. intros j Hjr. apply Hj. lia. }
  rewrite seqZ_cons by lia. cbn [front_load]. cbv zeta.
  destruct (region_slice cp size Hsize c k Hl Hb ltac:(split; lia)) as [Es [Hps _]]. rewrite Es, bind_lift.
  pose proof Hn as (Hs & Hsz & Hcnt & Hc). assert (in_range (ps_page_count inner) k) as Hkr by (split; lia).
  destruct (ps_read_page_ok s k (page_at size c k) Hs) as (s1 & E1 & Hn1); [by rewrite Hcnt|by rewrite Hps, Hsz|].
  rewrite (bind_eq _ _ _ _ _ E1), (Hc k Hkr).
  destruct (region_splice cp size Hsize c k (ps_content inner k) Hl Hb ltac:(split; lia)
    (ps_content_ok inner k Hin Hkr)) as (c1 & E2 & Hl1 & Hb1 & Hj1). rewrite E2, bind_lift.
  replace (Z.pred (Z.of_nat (Datatypes.S n))) with (Z.of_nat n) by lia. rewrite <-Z.add_1_r.
  apply (IH (k + 1) c1 s1); [lia|lia|done|done| |].
  - eapply page_next_trans; [exact Hn|]. eapply page_next_ext; [|exact Hn1]. intros j Hjr. apply Hc. by rewrite <-Hcnt.
  - intros j Hjr. rewrite Hj1 by (split; lia). unfold page_upd. destruct (j =? k) eqn:E; zbool; [by subst|].
    apply Hj. lia.
Qed.

Lemma front_load_ok inner cp :
  ps_ok inner -> 0 <= cp <= ps_page_count inner ->
  exists c inner', front_load (ps_page_size inner) (seqZ 0 cp) (zeros (cp * ps_page_size inner)) inner = (Ok c, inner') /\
    ps_next inner (ps_content inner) inner' /\ lenZ c = cp * ps_page_size inner /\ bytes_ok c /\
    forall j, 0 <= j < cp -> page_at (ps_page_size inner) c j = ps_content inner j.
Proof.
  intros Hin Hcp. destruct (ps_dims_ok _ Hin) as [Hsize _].
  pose proof (front_load_loop inner cp (Z.to_nat cp) 0 (zeros (cp * ps_page_size inner)) inner) as Hg.
  rewrite Z2Nat.id in Hg by lia. apply Hg; [done|lia|lia|done| |apply zeros_ok| |].
  - apply lenZ_zeros. nia.
  - by apply page_next_refl.
  - lia.
Qed.

Lemma front_new_spec inner cp :
  ps_ok inner -> 0 <= cp <= ps_page_count inner ->
  exists s, front_new inner cp = Ok s /\ front_ok s /\ fc_page_size s = ps_page_size inner /\
    front_page_count s = ps_page_count inner /\
    forall j, in_range (ps_page_count inner) j -> front_content s j = ps_content inner j.
Proof.
  intros Hin Hcp. unfold front_new. rewrite (proj2 (Z.ltb_ge _ _)) by lia.
  destruct (front_load_ok inner cp Hin Hcp) as (c & inner' & -> & (Hok & Hsz & Hcnt & Hc) & Hl & Hb & Hj). cbn [obind].
  eexists. split; [reflexivity|]. split.
  - split; cbn; try done; [by rewrite Hcnt|unfold lenZ; rewrite length_replicate; lia|]. intros j Hjr _. cbn in *. rewrite Hc by (split; lia). unfold front_content. cbn.
    rewrite (proj2 (Z.ltb_lt _ _)) by lia. symmetry. by apply Hj.
  - split_and!; [done|exact Hcnt|]. intros j Hjr. unfold front_content. cbn.
    destruct (j <? cp) eqn:E; zbool; [apply Hj; unfold in_range in *; lia|by apply Hc].
Qed.

(** ** Properties *)

(** A front cache loaded from a store shows the store's pages, serves a write
    of any page in range, cached or not, and after a flush the inner store alone
    holds exactly the pages the cache showed. *)
Theorem front_cache_writes_back inner cp i page :
  ps_ok inner -> 0 <= cp <= ps_page_count inner -> in_range (ps_page_count inner) i ->
  page_ok (ps_page_size inner) page ->
  exists s s1 s2, front_new inner cp = Ok s /\
    (forall j out, in_range (ps_page_count inner) j -> lenZ out = ps_page_size inner ->
       exists s', front_read_page j out s = (Ok (ps_content inner j), s')) /\
    front_write_page i page s = (Ok tt, s1) /\ front_flush s1 = (Ok tt, s2) /\
    forall j, in_range (ps_page_count inner) j ->
      front_content s2 j = page_upd i page (ps_content inner) j /\
      ps_content (fc_inner s2) j = page_upd i page (ps_content inner) j.
Proof.
  intros Hin Hcp Hi Hp. destruct (front_new_spec inner cp Hin Hcp) as (s & E & Hs & Hsz & Hcnt & Hj).
  rewrite <-Hsz in Hp. rewrite <-Hcnt in Hi.
  destruct (front_write_page_ok s i page Hs Hi Hp) as (s1 & E1 & (Hs1 & Hsz1 & Hc1 & Hj1)).
  destruct (front_flush_spec s1 Hs1) as (s2 & E2 & (_ & _ & _ & Hj2) & s1' & _ & _ & _ & Hf).
  exists s, s1, s2. split_and!; [done| |done|done|].
  - intros j out Hjr Hout. destruct (front_read_page_ok s j out Hs) as (s' & E' & _); [by rewrite Hcnt|by rewrite Hsz|].
    exists s'. by rewrite E', Hj.
  - intros j Hjr. rewrite <-Hcnt in Hjr. assert (in_range (front_page_count s1) j) as Hjr1 by (by rewrite Hc1).
    rewrite Hj2, (proj2 (Hf j Hjr1)) by done. rewrite Hj1 by done.
    assert (page_upd i page (front_content s) j = page_upd i page (ps_content inner) j) as ->; [|done].
    unfold page_upd. destruct (j =? i); [done|]. apply Hj. by rewrite <-Hcnt.
Qed.

End Lawful.

Lemma front_cache_writes_back_witness :
  exists s s1 s2, front_new (mkMem 2 [1; 2; 3; 4; 5; 6]) 2 = Ok s /\
    front_write_page 1 [7; 8] s = (Ok tt, s1) /\ front_flush s1 = (Ok tt, s2) /\
    forall j, in_range 3 j -> ps_content (fc_inner s2) j = page_upd 1 [7; 8] (mem_content (mkMem 2 [1; 2; 3; 4; 5; 6])) j.
Proof.
  destruct (front_cache_writes_back (mkMem 2 [1; 2; 3; 4; 5; 6]) 2 1 [7; 8]) as (s & s1 & s2 & E & _ & E1 & E2 & Hj).
  - split; [reflexivity|]. split; [reflexivity|]. split; [reflexivity|]. repeat constructor; vm_compute; intuition discriminate.
  - vm_compute. intuition discriminate.
  - vm_compute. intuition discriminate.
  - split; [reflexivity|]. repeat constructor; vm_compute; intuition discriminate.
  - exists s, s1, s2. split; [exact E|]. split; [exact E1|]. split; [exact E2|].
    intros j Hjr. exact (proj2 (Hj j Hjr)).
Defined.
