(* ===== verification/Aead.v ===== *)
(** * Encrypted page store ([src/src/aead.rs])

    [AeadPageStore] keeps [nonce || ciphertext || tag] of every page in an inner
    store, with the page index as associated data.  The cipher
    (ChaCha20-Poly1305) and the operating system's randomness are third-party
    code: the classes below state what the store relies on. *)

From S2P Require Import Prelude Params Store.

(** [chacha20poly1305]: encryption fails only on messages over its limit;
    decryption accepts exactly the encryptions under the same nonce and
    associated data. *)
Class Cipher (C : Type) : Type := {
  cipher_new : bytes -> C;
  cipher_encrypt : C -> bytes -> bytes -> bytes -> option bytes;
  cipher_decrypt : C -> bytes -> bytes -> bytes -> option bytes;
  cipher_limit : Z
}.
Class CipherLaws (C : Type) `{Cipher C} : Prop := {
  encrypt_total : forall c nonce aad msg, lenZ msg <= cipher_limit (C := C) ->
    exists ct, cipher_encrypt c nonce aad msg = Some ct;
  encrypt_length : forall c nonce aad msg ct, cipher_encrypt c nonce aad msg = Some ct -> lenZ ct = lenZ msg + 16;
  encrypt_bytes : forall c nonce aad msg ct,
    bytes_ok msg -> cipher_encrypt c nonce aad msg = Some ct -> bytes_ok ct;
  decrypt_iff : forall c nonce aad msg ct,
    cipher_decrypt c nonce aad ct = Some msg <-> cipher_encrypt c nonce aad msg = Some ct
}.

(** [OsRng::fill_bytes] *)
Class OsRandom (O : Type) : Type := {
  fill_bytes : Z -> O -> bytes * O;
  fill_bytes_ok : forall n o, 0 <= n -> lenZ (fill_bytes n o).1 = n /\ bytes_ok (fill_bytes n o).1
}.

(** [AEAD_OVERHEAD] *)
Definition AEAD_OVERHEAD : Z := 12 + 16.

(** Mirror of [struct AeadPageStore]; the source of nonces, a global of the
    program, is part of the state. *)
Record AeadPageStore (S C O : Type) : Type := mkAead {
  ap_inner : S;
  ap_cipher : C;
  ap_plaintext_page_size : Z;
  ap_os : O
}.
Arguments mkAead {S C O}. Arguments ap_inner {S C O}. Arguments ap_cipher {S C O}.
Arguments ap_plaintext_page_size {S C O}. Arguments ap_os {S C O}.

Section Ops.
Context {S C O : Type} `{PageStore S} `{Cipher C} `{OsRandom O}.
Local Abbreviation AS := (AeadPageStore S C O).

(** [AeadPageStore::new] *)
Definition aead_new (inner : S) (key : bytes) (plaintext_page_size : Z) (os : O) : outcome AS :=
  if negb (ps_page_size inner =? plaintext_page_size + AEAD_OVERHEAD)
  then Err (InvalidInput "encrypted store page size {} != plaintext {} + overhead {}")
  else Ok (mkAead inner (cipher_new key) plaintext_page_size os).

Definition set_ap_inner (i : S) (s : AS) : AS := mkAead i (ap_cipher s) (ap_plaintext_page_size s) (ap_os s).
Definition set_ap_os (o : O) (s : AS) : AS := mkAead (ap_inner s) (ap_cipher s) (ap_plaintext_page_size s) o.
Definition on_ap_inner {A} (m : M S A) : M AS A := zoom ap_inner set_ap_inner m.

(** [AeadPageStore::decrypt_page] *)
Definition decrypt_page (s : AS) (page_idx : Z) (sealed : bytes) : outcome bytes :=
  if negb (lenZ sealed =? ps_page_size (ap_inner s)) then Err (InvalidInput "sealed page len {} != inner page_size {}")
  else
    let? nonce_bytes := slice sealed 0 12 in
    let? msg := slice sealed 12 (lenZ sealed - 12) in
    let aad := to_le 8 page_idx in
    let? plaintext := ok_or (cipher_decrypt (ap_cipher s) nonce_bytes aad msg) AeadError in
    if negb (lenZ plaintext =? ap_plaintext_page_size s) then Err AeadError else Ok plaintext.

(** [AeadPageStore::encrypt_page] *)
Definition encrypt_page (page_idx : Z) (input : bytes) : M AS bytes :=
  let* s := gets (fun s => s) in
  let* _ := guardm (lenZ input =? ap_plaintext_page_size s) (InvalidInput "plaintext input len {} != page_size {}") in
  let (nonce_bytes, os) := fill_bytes 12 (ap_os s) in
  let* _ := modify (set_ap_os os) in
  let aad := to_le 8 page_idx in
  let* ciphertext := lift (ok_or (cipher_encrypt (ap_cipher s) nonce_bytes aad input) AeadError) in
  ret (nonce_bytes ++ ciphertext).

(** [<AeadPageStore as PageStore>::read_page] *)
Definition aead_read_page (page_idx : Z) (out : bytes) : M AS bytes :=
  let* s := gets (fun s => s) in
  let* _ := guardm (lenZ out =? ap_plaintext_page_size s) (InvalidInput "plaintext output len {} != page_size {}") in
  let* sealed := on_ap_inner (ps_read_page page_idx (zeros (ps_page_size (ap_inner s)))) in
  let* s := gets (fun s => s) in
  let* plaintext := lift (decrypt_page s page_idx sealed) in
  lift (copy_from_slice out plaintext).

(** [<AeadPageStore as PageStore>::write_page] *)
Definition aead_write_page (page_idx : Z) (input : bytes) : M AS unit :=
  let* sealed := encrypt_page page_idx input in
  on_ap_inner (ps_write_page page_idx sealed).

(** [<AeadPageStore as PageStore>::read_pages] *)
Definition aead_read_pages (page_indices : list Z) : M AS (list bytes) :=
  let* sealed_pages := on_ap_inner (ps_read_pages page_indices) in
  let* s := gets (fun s => s) in
  lift (omap_m (fun ip : Z * bytes => decrypt_page s ip.1 ip.2) (zip page_indices sealed_pages)).

(** [<AeadPageStore as PageStore>::write_pages] *)
Definition aead_write_pages (page_indices : list Z) (pages : list bytes) : M AS unit :=
  let* _ := guardm (lenZ page_indices =? lenZ pages) (InvalidInput "page index count {} != page count {}") in
  let* sealed_pages := mapM (fun ip : Z * bytes => encrypt_page ip.1 ip.2) (zip page_indices pages) in
  on_ap_inner (ps_write_pages page_indices sealed_pages).

#[export] Instance aead_page_store : PageStore AS := {|
  ps_page_size := ap_plaintext_page_size;
  ps_page_count := fun s => ps_page_count (ap_inner s);
  ps_read_page := aead_read_page;
  ps_write_page := aead_write_page;
  ps_read_pages := aead_read_pages;
  ps_write_pages := aead_write_pages;
  ps_flush := on_ap_inner ps_flush;
  ps_tiered_merkle_state := fun _ => None
|}.

End Ops.

(** ** The store over sealed pages *)

Section Lawful.
Context {S C O : Type} `{LawfulPageStore S} `{CipherLaws C} `{OsRandom O}.
Local Abbreviation AS := (AeadPageStore S C O).

(** [sealed] is page [m] of index [i], sealed under [c]. *)
Definition seals (c : C) (i : Z) (m sealed : bytes) : Prop :=
  exists nonce ct, sealed = nonce ++ ct /\ lenZ nonce = 12 /\ cipher_encrypt c nonce (to_le 8 i) m = Some ct.

(** A store of the right shape, whatever its pages hold. *)
Record aead_shape (s : AS) : Prop := {
  as_inner : ps_ok (ap_inner s);
  as_size : ps_page_size (ap_inner s) = ap_plaintext_page_size s + AEAD_OVERHEAD;
  as_pos : 0 < ap_plaintext_page_size s <= cipher_limit (C := C)
}.

(** Every page has been written through the wrapper. *)
Definition aead_ok (s : AS) : Prop :=
  aead_shape s /\ forall i, in_range (ps_page_count (ap_inner s)) i ->
    exists m, page_ok (ap_plaintext_page_size s) m /\ seals (ap_cipher s) i m (ps_content (ap_inner s) i).

(** What the inner page decrypts to. *)
Definition aead_content (s : AS) (i : Z) : bytes :=
  match decrypt_page s i (ps_content (ap_inner s) i) with Ok m => m | _ => [] end.
Local Abbreviation next := (page_next aead_ok ap_plaintext_page_size (fun s => ps_page_count (ap_inner s)) aead_content).

Lemma decrypt_page_iff (s : AS) i sealed m :
  0 < ap_plaintext_page_size s -> ps_page_size (ap_inner s) = ap_plaintext_page_size s + AEAD_OVERHEAD ->
  lenZ sealed = ps_page_size (ap_inner s) ->
  (decrypt_page s i sealed = Ok m <-> lenZ m = ap_plaintext_page_size s /\ seals (ap_cipher s) i m sealed) /\
  (forall e, decrypt_page s i sealed = Err e -> e = AeadError) /\
  decrypt_page s i sealed <> Panic /\ decrypt_page s i sealed <> Diverges.
Proof.
  intros Hpos Hsz Hl. unfold decrypt_page. rewrite Hl, Z.eqb_refl. cbn [negb].
  assert (12 <= lenZ sealed) as H12 by (unfold AEAD_OVERHEAD in Hsz; lia).
  destruct (slice_split sealed 0 12) as (a & nonce & ct & E & Ha & Hnonce & Es); [lia|lia|lia|].
  destruct a; [|rewrite lenZ_cons in Ha; pose proof (lenZ_nonneg a); lia]. cbn [app] in E. rewrite Es. cbn [obind].
  assert (slice sealed 12 (ps_page_size (ap_inner s) - 12) = Ok ct) as ->.
  { rewrite E. rewrite slice_suffix; [done|done|]. rewrite <-Hl, E, lenZ_app. lia. }
  cbn [obind]. destruct (cipher_decrypt (ap_cipher s) nonce (to_le 8 i) ct) as [pt|] eqn:Ed; cbn [ok_or obind].
  - destruct (lenZ pt =? ap_plaintext_page_size s) eqn:Ep; zbool; cbn [negb]; (split; [|split; [congruence|done]]).
    + split; [|intros [Hm (n & c & En & Hn & Ec)]].
      * intros [= <-]. split; [done|]. exists nonce, ct. split_and!; [done|done|by apply decrypt_iff].
      * rewrite E in En. apply app_inj_1 in En as [-> ->]; [|unfold lenZ in *; lia].
        apply decrypt_iff in Ec. congruence.
    + split; [done|]. intros [Hm (n & c & En & Hn & Ec)]. rewrite E in En.
      apply app_inj_1 in En as [-> ->]; [|unfold lenZ in *; lia]. apply decrypt_iff in Ec. congruence.
  - split; [|split; [congruence|done]]. split; [done|]. intros [Hm (n & c & En & Hn & Ec)]. rewrite E in En.
    apply app_inj_1 in En as [-> ->]; [|unfold lenZ in *; lia]. apply decrypt_iff in Ec. congruence.
Qed.

Lemma encrypt_page_ok (s : AS) i page :
  aead_shape s -> page_ok (ap_plaintext_page_size s) page ->
  exists sealed os, encrypt_page i page s = (Ok sealed, set_ap_os os s) /\
    page_ok (ps_page_size (ap_inner s)) sealed /\ seals (ap_cipher s) i page sealed.
Proof.
  intros [Hin Hsz Hpos] [Hp Hpb]. unfold encrypt_page. rewrite bind_gets, bind_guardm, Hp, Z.eqb_refl.
  destruct (fill_bytes_ok 12 (ap_os s)) as [Hn Hnb]; [lia|]. destruct (fill_bytes 12 (ap_os s)) as [nonce os].
  cbn [fst] in *. rewrite bind_modify.
  destruct (encrypt_total (ap_cipher s) nonce (to_le 8 i) page) as [ct Ec]; [lia|]. rewrite Ec. cbn [ok_or]. rewrite bind_lift.
  exists (nonce ++ ct), os. split; [done|]. pose proof (encrypt_length _ _ _ _ _ Ec) as Hl.
  split; [|by exists nonce, ct]. split.
  - rewrite lenZ_app, Hn, Hl, Hsz, Hp. unfold AEAD_OVERHEAD. lia.
  - apply Forall_app. split; [done|exact (encrypt_bytes _ _ _ _ _ Hpb Ec)].
Qed.

Lemma seals_content (s : AS) i m :
  aead_shape s -> in_range (ps_page_count (ap_inner s)) i -> page_ok (ap_plaintext_page_size s) m ->
  seals (ap_cipher s) i m (ps_content (ap_inner s) i) -> aead_content s i = m.
Proof.
  intros [Hin Hsz [Hpos _]] Hi [Hm _] Hse. unfold aead_content.
  destruct (ps_content_ok _ _ Hin Hi) as [Hl _].
  destruct (decrypt_page_iff s i (ps_content (ap_inner s) i) m Hpos Hsz Hl) as [Hiff _].
  by rewrite (proj2 Hiff (conj Hm Hse)).
Qed.

Lemma aead_decrypts (s : AS) i :
  aead_ok s -> in_range (ps_page_count (ap_inner s)) i ->
  decrypt_page s i (ps_content (ap_inner s) i) = Ok (aead_content s i) /\
  page_ok (ap_plaintext_page_size s) (aead_content s i) /\
  seals (ap_cipher s) i (aead_content s i) (ps_content (ap_inner s) i).
Proof.
  intros [[Hin Hsz [Hpos Hlim]] Hs] Hi. destruct (Hs i Hi) as (m & Hm & Hse). destruct (ps_content_ok _ _ Hin Hi) as [Hl _].
  destruct (decrypt_page_iff s i _ m Hpos Hsz Hl) as [Hiff _].
  assert (decrypt_page s i (ps_content (ap_inner s) i) = Ok m) as E by (apply Hiff; split; [apply Hm|done]).
  unfold aead_content. by rewrite E.
Qed.

(** The wrapper after an inner step: same pages read back, or the written ones. *)
Lemma aead_inner_next (s : AS) f inner' os (g : Z -> bytes) :
  aead_shape s -> ps_next (ap_inner s) f inner' ->
  (forall i, in_range (ps_page_count (ap_inner s)) i -> page_ok (ap_plaintext_page_size s) (g i) /\ seals (ap_cipher s) i (g i) (f i)) ->
  next s g (set_ap_inner inner' (set_ap_os os s)).
Proof.
  intros [Hin Hsz Hpos] (Hok & Hs & Hc & Hf) Hg. set (s' := set_ap_inner inner' (set_ap_os os s)).
  assert (aead_shape s') as Hsh by (split; cbn; try done; congruence).
  split; [split; [exact Hsh|]|split; [done|split; [exact Hc|]]].
  - intros i Hi. cbn in Hi |- *. rewrite Hc in Hi. exists (g i). rewrite Hf by done. by apply Hg.
  - intros i Hi. destruct (Hg i Hi) as [Hp Hse]. apply seals_content; [done|cbn; by rewrite Hc|done|].
    cbn. by rewrite Hf.
Qed.

Lemma aead_same_next (s : AS) inner' :
  aead_ok s -> ps_next (ap_inner s) (ps_content (ap_inner s)) inner' -> next s (aead_content s) (set_ap_inner inner' s).
Proof.
  intros Hs Hn. pose proof (aead_inner_next s _ inner' (ap_os s) (aead_content s) (proj1 Hs) Hn) as Hx.
  destruct s. apply Hx. intros i Hi. split; by apply aead_decrypts.
Qed.

Lemma aead_read_page_ok (s : AS) i out :
  aead_ok s -> in_range (ps_page_count (ap_inner s)) i -> lenZ out = ap_plaintext_page_size s ->
  exists s', aead_read_page i out s = (Ok (aead_content s i), s') /\ next s (aead_content s) s'.
Proof.
  intros Hs Hi Ho. pose proof (proj1 Hs) as [Hin Hsz Hpos]. unfold aead_read_page.
  rewrite bind_gets, bind_guardm, Ho, Z.eqb_refl.
  destruct (ps_read_page_ok (ap_inner s) i (zeros (ps_page_size (ap_inner s))) Hin Hi) as (inner' & E & Hn).
  { apply lenZ_zeros. unfold AEAD_OVERHEAD in *. lia. }
  erewrite bind_eq by (by apply zoom_eq). rewrite bind_gets, bind_lift.
  assert (decrypt_page (set_ap_inner inner' s) i (ps_content (ap_inner s) i) = Ok (aead_content s i)) as ->.
  { destruct (aead_decrypts s i Hs Hi) as [<- _]. unfold decrypt_page. cbn. destruct Hn as (_ & -> & _). done. }
  exists (set_ap_inner inner' s). split; [|by apply aead_same_next]. unfold lift, copy_from_slice.
  destruct (aead_decrypts s i Hs Hi) as (_ & [-> _] & _). by rewrite Ho, Z.eqb_refl.
Qed.

(** A write needs no readable page but the one it writes. *)
Lemma aead_write_page_shape (s : AS) i page :
  aead_shape s -> in_range (ps_page_count (ap_inner s)) i -> page_ok (ap_plaintext_page_size s) page ->
  exists sealed inner' os, aead_write_page i page s = (Ok tt, set_ap_inner inner' (set_ap_os os s)) /\
    seals (ap_cipher s) i page sealed /\ ps_next (ap_inner s) (page_upd i sealed (ps_content (ap_inner s))) inner'.
Proof.
  intros Hs Hi Hp. destruct (encrypt_page_ok s i page Hs Hp) as (sealed & os & E & Hpg & Hse).
  unfold aead_write_page. rewrite (bind_eq _ _ _ _ _ E).
  destruct (ps_write_page_ok (ap_inner s) i sealed (as_inner s Hs) Hi Hpg) as (inner' & E2 & Hn).
  exists sealed, inner', os. split_and!; [|done|done]. by apply zoom_eq.
Qed.

Lemma aead_write_page_ok (s : AS) i page :
  aead_ok s -> in_range (ps_page_count (ap_inner s)) i -> page_ok (ap_plaintext_page_size s) page ->
  exists s', aead_write_page i page s = (Ok tt, s') /\ next s (page_upd i page (aead_content s)) s'.
Proof.
  intros Hs Hi Hp. destruct (aead_write_page_shape s i page (proj1 Hs) Hi Hp) as (sealed & inner' & os & E & Hse & Hn).
  eexists. split; [exact E|]. apply (aead_inner_next s _ inner' os _ (proj1 Hs) Hn).
  intros j Hj. unfold page_upd. destruct (j =? i) eqn:Eji; zbool; [by subst|]. split; by apply aead_decrypts.
Qed.

Lemma aead_read_pages_ok (s : AS) idxs :
  aead_ok s -> Forall (in_range (ps_page_count (ap_inner s))) idxs ->
  exists s', aead_read_pages idxs s = (Ok (aead_content s <$> idxs), s') /\ next s (aead_content s) s'.
Proof.
  intros Hs Hi. pose proof (proj1 Hs) as [Hin Hsz Hpos]. unfold aead_read_pages.
  destruct (ps_read_pages_ok (ap_inner s) idxs Hin Hi) as (inner' & E & Hn).
  erewrite bind_eq by (by apply zoom_eq). rewrite bind_gets.
  exists (set_ap_inner inner' s). split; [|by apply aead_same_next]. unfold lift. f_equal.
  destruct Hn as (_ & Hs' & _). clear E. induction Hi as [|i idxs Hi _ IH]; [done|].
  cbn [fmap list_fmap zip zip_with omap_m fst snd]. destruct (aead_decrypts s i Hs Hi) as [Ed _].
  assert (decrypt_page (set_ap_inner inner' s) i (ps_content (ap_inner s) i) = Ok (aead_content s i)) as ->.
  { rewrite <-Ed. unfold decrypt_page. cbn. by rewrite Hs'. }
  cbn [obind]. cbn [fmap list_fmap] in IH. by rewrite IH.
Qed.

(** Sealing a batch of pages. *)
Lemma encrypt_pages_ok (l : list (Z * bytes)) (s : AS) :
  aead_shape s -> Forall (fun ip => page_ok (ap_plaintext_page_size s) ip.2) l ->
  exists sealed os, mapM (fun ip : Z * bytes => encrypt_page ip.1 ip.2) l s = (Ok sealed, set_ap_os os s) /\
    Forall2 (fun ip sp => page_ok (ps_page_size (ap_inner s)) sp /\ seals (ap_cipher s) ip.1 ip.2 sp) l sealed.
Proof.
  revert s. induction l as [|[i page] l IH]; intros s Hs Hl.
  { exists [], (ap_os s). by destruct s. }
  apply Forall_cons in Hl as [Hp Hl]. cbn [mapM fst snd] in *.
  destruct (encrypt_page_ok s i page Hs Hp) as (sealed & os & E & Hpg & Hse). rewrite (bind_eq _ _ _ _ _ E).
  destruct (IH (set_ap_os os s)) as (rest & os' & E2 & HF); [by destruct Hs|done|].
  rewrite (bind_eq _ _ _ _ _ E2). exists (sealed :: rest), os'. split; [done|]. by constructor.
Qed.

Lemma pages_upd_rel {A B} (P : Z -> A -> B -> Prop) (l : list (Z * A)) (bs : list B) f g j :
  Forall2 (fun ip b => P ip.1 ip.2 b) l bs -> P j (f j) (g j) -> P j (pages_upd l.*1 l.*2 f j) (pages_upd l.*1 bs g j).
Proof.
  intros HF. revert f g. induction HF as [|[i x] b l bs Hx _ IH]; intros f g Hj; [done|].
  cbn [fmap list_fmap fst snd pages_upd]. apply IH. unfold page_upd. destruct (j =? i) eqn:E; zbool; [by subst|done].
Qed.

Lemma aead_write_pages_ok (s : AS) idxs pages :
  aead_ok s -> Forall (in_range (ps_page_count (ap_inner s))) idxs ->
  Forall (page_ok (ap_plaintext_page_size s)) pages -> length idxs = length pages ->
  exists s', aead_write_pages idxs pages s = (Ok tt, s') /\ next s (pages_upd idxs pages (aead_content s)) s'.
Proof.
  intros Hs Hi Hp Hl. unfold aead_write_pages. rewrite bind_guardm, (proj2 (Z.eqb_eq _ _)) by (unfold lenZ; lia).
  destruct (encrypt_pages_ok (zip idxs pages) s (proj1 Hs)) as (sealed & os & E & HF).
  { apply Forall_forall. intros [i page] Hx. rewrite Forall_forall in Hp. apply Hp. by eapply elem_of_zip_r. }
  rewrite (bind_eq _ _ _ _ _ E).
  destruct (ps_write_pages_ok (ap_inner s) idxs sealed) as (inner' & E2 & Hn).
  { apply Hs. } { done. }
  { apply Forall_forall. intros sp Hsp. apply list_elem_of_lookup in Hsp as [k Hk].
    eapply Forall2_lookup_r in HF as (? & _ & ? & _); [|exact Hk]. done. }
  { apply Forall2_length in HF. rewrite length_zip in HF. lia. }
  eexists. split; [by apply zoom_eq|]. apply (aead_inner_next s _ inner' os _ (proj1 Hs) Hn).
  intros j Hj. rewrite <-(fst_zip idxs pages) by lia. rewrite <-(snd_zip idxs pages) at 2 4 by lia.
  apply (pages_upd_rel (fun i m sp => page_ok (ap_plaintext_page_size s) m /\ seals (ap_cipher s) i m sp)).
  - apply Forall2_same_length_lookup. split; [by eapply Forall2_length|]. intros k [i m] sp Hk Hsp.
    eapply Forall2_lookup_lr in HF as [_ Hse]; [|exact Hk|exact Hsp]. split; [|done].
    cbn. rewrite Forall_forall in Hp. apply Hp. apply list_elem_of_lookup_2 in Hk. by eapply elem_of_zip_r.
  - split; by apply aead_decrypts.
Qed.

Lemma aead_flush_ok (s : AS) :
  aead_ok s -> exists s', on_ap_inner ps_flush s = (Ok tt, s') /\ next s (aead_content s) s'.
Proof.
  intros Hs. destruct (ps_flush_ok (ap_inner s) (as_inner s (proj1 Hs))) as (inner' & E & Hn).
  exists (set_ap_inner inner' s). split; [by apply zoom_eq|by apply aead_same_next].
Qed.

Lemma aead_content_ok (s : AS) i : aead_ok s -> in_range (ps_page_count (ap_inner s)) i -> page_ok (ap_plaintext_page_size s) (aead_content s i).
Proof. intros. by apply aead_decrypts. Qed.

#[export] Instance aead_lawful : LawfulPageStore AS := {|
  ps_ok := aead_ok;
  ps_content := aead_content;
  ps_content_ok := aead_content_ok;
  ps_dims_ok := fun s Hs => conj (proj1 (as_pos s (proj1 Hs))) (proj2 (ps_dims_ok _ (as_inner s (proj1 Hs))));
  ps_read_page_ok := aead_read_page_ok;
  ps_write_page_ok := aead_write_page_ok;
  ps_read_pages_ok := aead_read_pages_ok;
  ps_write_pages_ok := aead_write_pages_ok;
  ps_flush_ok := aead_flush_ok
|}.

End Lawful.

(** ** Properties *)

Section Properties.
Context {S C O : Type} `{LawfulPageStore S} `{CipherLaws C} `{OsRandom O}.
Local Abbreviation AS := (AeadPageStore S C O).

(** C31: a read returns a page exactly when the inner page is that page sealed for
    the same index under the store's key; everything else, whatever the host put
    there, is reported as an authentication error. *)
Theorem aead_read_authentic (s : AS) i out :
  aead_shape s -> in_range (ps_page_count (ap_inner s)) i -> lenZ out = ap_plaintext_page_size s ->
  exists r s', aead_read_page i out s = (r, s') /\
    (forall m, r = Ok m <-> lenZ m = ap_plaintext_page_size s /\ seals (ap_cipher s) i m (ps_content (ap_inner s) i)) /\
    (r = Err AeadError \/ exists m, r = Ok m).
Proof.
  intros [Hin Hsz Hpos] Hi Ho. unfold aead_read_page. rewrite bind_gets, bind_guardm, Ho, Z.eqb_refl.
  destruct (ps_read_page_ok (ap_inner s) i (zeros (ps_page_size (ap_inner s))) Hin Hi) as (inner' & E & Hn).
  { apply lenZ_zeros. unfold AEAD_OVERHEAD in *. lia. }
  erewrite bind_eq by (by apply zoom_eq). rewrite bind_gets, bind_lift.
  assert (decrypt_page (set_ap_inner inner' s) i (ps_content (ap_inner s) i) =
    decrypt_page s i (ps_content (ap_inner s) i)) as ->.
  { unfold decrypt_page. cbn. destruct Hn as (_ & -> & _). done. }
  destruct (ps_content_ok _ _ Hin Hi) as [Hl _].
  pose proof (fun m => decrypt_page_iff s i _ m (proj1 Hpos) Hsz Hl) as Hiff.
  destruct (decrypt_page s i (ps_content (ap_inner s) i)) as [m|e| |].
  - destruct (Hiff m) as [[Hm _] _]. specialize (Hm eq_refl). eexists (Ok m), _. split_and!; [|apply Hiff|by right; exists m].
    unfold lift, copy_from_slice. destruct Hm as [-> _]. by rewrite Ho, Z.eqb_refl.
  - destruct (Hiff []) as (_ & He & _). rewrite (He e eq_refl) in *. eexists _, _. split_and!; [done|apply Hiff|by left].
  - by destruct (Hiff []) as (_ & _ & [] & _).
  - by destruct (Hiff []) as (_ & _ & _ & []).
Qed.

(** On a store of the right shape, whatever its other pages hold, a page that
    was written is read back. *)
Theorem aead_write_then_read (s : AS) i page out :
  aead_shape s -> in_range (ps_page_count (ap_inner s)) i -> page_ok (ap_plaintext_page_size s) page ->
  lenZ out = ap_plaintext_page_size s ->
  exists s1 s2, aead_write_page i page s = (Ok tt, s1) /\ aead_read_page i out s1 = (Ok page, s2).
Proof.
  intros Hs Hi Hp Ho. destruct (aead_write_page_shape s i page Hs Hi Hp) as (sealed & inner' & os & E & Hse & Hn).
  destruct Hn as (Hok & Hsz & Hc & Hj). set (s1 := set_ap_inner inner' (set_ap_os os s)) in *.
  assert (aead_shape s1) as Hs1 by (destruct Hs as [? Hsz0 ?]; split; cbn; try done; congruence).
  assert (ps_content inner' i = sealed) as Hci by (rewrite Hj by done; apply page_upd_eq).
  exists s1. pose proof Hs1 as [Hin1 Hsz1 Hpos1]. unfold aead_read_page. rewrite bind_gets, bind_guardm.
  change (ap_plaintext_page_size s1) with (ap_plaintext_page_size s). rewrite Ho, Z.eqb_refl.
  destruct (ps_read_page_ok inner' i (zeros (ps_page_size inner')) Hok) as (inner2 & E2 & Hn2); [by rewrite Hc| |].
  { apply lenZ_zeros. cbn in Hsz1. unfold AEAD_OVERHEAD in *. cbn in Hpos1. lia. }
  erewrite bind_eq by (apply zoom_eq; exact E2). rewrite bind_gets, bind_lift, Hci.
  assert (decrypt_page (set_ap_inner inner2 s1) i sealed = Ok page) as ->.
  { destruct Hn2 as (Hok2 & Hsz2 & Hc2 & Hj2).
    destruct (ps_content_ok inner' i Hok) as [Hl _]; [by rewrite Hc|]. rewrite Hci in Hl.
    apply decrypt_page_iff; [apply Hpos1|cbn; rewrite Hsz2; exact Hsz1|cbn; by rewrite Hsz2|]. split; [apply Hp|done]. }
  eexists. split; [exact E|]. unfold lift, copy_from_slice. by rewrite Ho, (proj1 Hp), Z.eqb_refl.
Qed.

End Properties.

(** ** A concrete cipher for concrete inputs: the message with a checksum *)

Definition toy_tag (key nonce aad msg : bytes) : bytes := to_le 16 (from_le (key ++ nonce ++ aad ++ msg)).

#[export] Instance toy_cipher : Cipher bytes := {|
  cipher_new := fun key => key;
  cipher_encrypt := fun key nonce aad msg => Some (msg ++ toy_tag key nonce aad msg);
  cipher_decrypt := fun key nonce aad ct =>
    let msg := take (length ct - 16) ct in
    if decide (ct = msg ++ toy_tag key nonce aad msg) then Some msg else None;
  cipher_limit := 2 ^ 38
|}.

#[export] Instance toy_cipher_laws : CipherLaws bytes.
Proof.
  split; cbn.
  - intros. by eexists.
  - intros c nonce aad msg ct [= <-]. rewrite lenZ_app. unfold toy_tag, lenZ at 2. by rewrite to_le_length.
  - intros c nonce aad msg ct Hm [= <-]. apply Forall_app. split; [done|apply to_le_ok].
  - intros c nonce aad msg ct. split.
    + case_decide as E; [|done]. intros [= <-]. by rewrite <-E.
    + intros [= <-]. assert (take (length (msg ++ toy_tag c nonce aad msg) - 16) (msg ++ toy_tag c nonce aad msg) = msg) as ->.
      { rewrite length_app. unfold toy_tag at 1. rewrite to_le_length. rewrite Nat.add_sub. apply take_app_length. }
      by rewrite decide_True.
Qed.

#[export] Program Instance counter_os : OsRandom Z := {| fill_bytes := fun n o => (to_le (Z.to_nat n) o, o + 1) |}.
Next Obligation. intros n o Hn. cbn. split; [unfold lenZ; rewrite to_le_length; lia|apply to_le_ok]. Qed.

(** Two sealed pages of two bytes; the host's second page is garbage. *)
Definition aead_demo : AeadPageStore MemPageStore bytes Z := mkAead (mkMem 30 (zeros 60)) [1; 2; 3] 2 7.

Lemma aead_demo_shape : aead_shape aead_demo.
Proof.
  split; [|reflexivity|vm_compute; intuition discriminate].
  split; [reflexivity|]. split; [reflexivity|]. split; [reflexivity|]. repeat constructor; vm_compute; intuition discriminate.
Qed.

Lemma aead_read_authentic_witness :
  exists s', aead_read_page 1 [0; 0] aead_demo = (Err AeadError, s').
Proof.
  destruct (aead_read_authentic aead_demo 1 [0; 0] aead_demo_shape) as (r & s' & E & _ & [->|[m ->]]).
  - vm_compute. intuition discriminate.
  - reflexivity.
  - exists s'. exact E.
  - exfalso. vm_compute in E. discriminate.
Defined.

Lemma aead_write_then_read_witness :
  exists s1 s2, aead_write_page 1 [5; 6] aead_demo = (Ok tt, s1) /\ aead_read_page 1 [0; 0] s1 = (Ok [5; 6], s2).
Proof.
  apply (aead_write_then_read aead_demo 1 [5; 6] [0; 0] aead_demo_shape).
  - vm_compute. intuition discriminate.
  - split; [reflexivity|]. repeat constructor; vm_compute; intuition discriminate.
  - reflexivity.
Defined.
