(* ===== verification/Hash.v ===== *)
(** * Page and node hashes ([src/src/merkle.rs], [src/src/embedded_tree.rs])

    SHA-256 is third-party code, a parameter with 32-byte digests.  The leaf and
    node encodings are injective, so two different inputs with one hash are a
    collision of SHA-256 itself.  [hash_tree] is the abstract Merkle tree, and
    [up_path] the recomputation of the ancestors of one leaf. *)

From S2P Require Import Prelude Store.

Class Hash : Type := sha256 : bytes -> bytes.
Class HashLaws `{Hash} : Prop := sha256_ok : forall x, lenZ (sha256 x) = 32 /\ bytes_ok (sha256 x).

(** [b"..."] *)
Definition ascii_bytes (s : string) : bytes :=
  (fun c => Z.of_N (Ascii.N_of_ascii c)) <$> String.list_ascii_of_string s.

Definition LEAF_DOMAIN : bytes := ascii_bytes "bpir-oram-page-v1".
Definition EMPTY_LEAF_DOMAIN : bytes := ascii_bytes "bpir-oram-empty-page-v1".
Definition NODE_DOMAIN : bytes := ascii_bytes "bpir-oram-node-v1".

Section Ops.
Context `{Hash}.

(** The byte strings fed to the hasher. *)
Definition leaf_input (store_id : bytes) (page_idx : Z) (page : bytes) : bytes :=
  LEAF_DOMAIN ++ store_id ++ to_le 8 page_idx ++ to_le 8 (lenZ page) ++ page.
Definition node_input (node_idx : Z) (left right : bytes) : bytes :=
  NODE_DOMAIN ++ to_le 8 node_idx ++ left ++ right.

(** [hash_leaf] *)
Definition hash_leaf (store_id : bytes) (page_idx : Z) (page : bytes) : bytes :=
  sha256 (leaf_input store_id page_idx page).

(** [hash_empty_leaf] *)
Definition hash_empty_leaf (store_id : bytes) (page_idx page_size : Z) : bytes :=
  sha256 (EMPTY_LEAF_DOMAIN ++ store_id ++ to_le 8 page_idx ++ to_le 8 page_size).

(** [hash_node] *)
Definition hash_node (node_idx : Z) (left right : bytes) : bytes := sha256 (node_input node_idx left right).

End Ops.

(** [hash_eq]: no early exit. *)
Definition hash_eq (lhs rhs : bytes) : bool :=
  foldl (fun diff (lr : Z * Z) => Z.lor diff (Z.lxor lr.1 lr.2)) 0 (zip lhs rhs) =? 0.

(** [sibling_node] and [is_left_child] *)
Definition sibling_node (node_idx : Z) : Z := Z.lxor node_idx 1.
Definition is_left_child (node_idx : Z) : bool := Z.land node_idx 1 =? 0.

(** ** Lemmas *)

Section Lemmas.

Lemma hash_eq_fold diff l : 0 <= diff -> Forall (fun lr : Z * Z => 0 <= lr.1 /\ 0 <= lr.2) l ->
  foldl (fun diff (lr : Z * Z) => Z.lor diff (Z.lxor lr.1 lr.2)) diff l = 0 <->
  diff = 0 /\ Forall (fun lr : Z * Z => lr.1 = lr.2) l.
Proof.
  intros Hd Hl. revert diff Hd. induction Hl as [|[a b] l [Ha Hb] _ IH]; intros diff Hd; cbn [foldl fst snd].
  { split; [intros ->; split; [done|constructor]|by intros []]. }
  rewrite IH, Forall_cons, Z.lor_eq_0_iff, Z.lxor_eq_0_iff by (apply Z.lor_nonneg; split; [done|by apply Z.lxor_nonneg]).
  cbn. naive_solver.
Qed.

Lemma hash_eq_iff lhs rhs : length lhs = length rhs -> bytes_ok lhs -> bytes_ok rhs ->
  hash_eq lhs rhs = true <-> lhs = rhs.
Proof.
  intros Hl Hlb Hrb. unfold hash_eq. rewrite Z.eqb_eq, hash_eq_fold; [|done|].
  - split.
    + intros [_ Hf]. revert rhs Hl Hrb Hf. induction lhs as [|a lhs IH]; intros [|b rhs] Hl Hrb Hf; simplify_eq/=; [done|].
      apply Forall_cons in Hf as [Hab Hf]. apply Forall_cons in Hlb as [_ Hlb]. apply Forall_cons in Hrb as [_ Hrb].
      cbn in Hab. f_equal; [done|by apply IH].
    + intros ->. split; [done|]. clear. induction rhs as [|b rhs IH]; constructor; done.
  - revert rhs Hl Hrb. induction lhs as [|a lhs IH]; intros [|b rhs] Hl Hrb; simplify_eq/=; constructor.
    + apply Forall_cons in Hlb as [Ha _]. apply Forall_cons in Hrb as [Hb _]. cbn. unfold is_u8 in *. lia.
    + apply Forall_cons in Hlb as [_ Hlb]. apply Forall_cons in Hrb as [_ Hrb]. by apply IH.
Qed.

Lemma leaf_input_inj id i p q : lenZ p = lenZ q -> leaf_input id i p = leaf_input id i q -> p = q.
Proof.
  intros Hl E. unfold leaf_input in E. rewrite Hl in E.
  do 4 (apply app_inv_head in E). exact E.
Qed.

Lemma node_input_inj n l r l' r' :
  length l = length l' -> node_input n l r = node_input n l' r' -> l = l' /\ r = r'.
Proof. unfold node_input. intros Hl E. do 2 apply app_inv_head in E. apply app_inj_1; [exact Hl|exact E]. Qed.

(** [node ^ 1] is the other child of the parent. *)
Lemma sibling_cases node : 0 <= node ->
  (is_left_child node = true /\ node = 2 * (node / 2) /\ sibling_node node = 2 * (node / 2) + 1) \/
  (is_left_child node = false /\ node = 2 * (node / 2) + 1 /\ sibling_node node = 2 * (node / 2)).
Proof.
  intros Hn. unfold is_left_child, sibling_node.
  pose proof (Z.div_mod node 2 ltac:(lia)) as Hdm. pose proof (Z.mod_pos_bound node 2 ltac:(lia)) as Hm.
  assert (Z.land node 1 = node mod 2) as Hla by (apply (Z.land_ones node 1); lia).
  rewrite Hla. set (q := node / 2) in *. clearbody q.
  assert (node mod 2 = 0 \/ node mod 2 = 1) as [E|E] by lia; rewrite E in *.
  - left. split; [done|]. split; [lia|]. replace node with (2 * q) by lia. destruct q as [|q|q]; [done|done|lia].
  - right. split; [done|]. split; [lia|]. replace node with (2 * q + 1) by lia.
    destruct q as [|q|q]; [done|done|lia].
Qed.

End Lemmas.

(** ** The abstract tree: node [n] has children [2n] and [2n+1], leaf [i] is node [base + i] *)

Section Tree.
Context `{HashLaws} (store_id : bytes) (size count base : Z).

Definition leaf_hash (f : Z -> bytes) (i : Z) : bytes :=
  if i <? count then hash_leaf store_id i (f i) else hash_empty_leaf store_id i size.

Definition node_hashed (h : Z -> bytes) (n : Z) : Prop := h n = hash_node n (h (2 * n)) (h (2 * n + 1)).

Definition hash_tree (f : Z -> bytes) (h : Z -> bytes) : Prop :=
  (forall i, 0 <= i < base -> h (base + i) = leaf_hash f i) /\ (forall n, 1 <= n < base -> node_hashed h n).

Definition digest_ok (b : bytes) : Prop := lenZ b = 32 /\ bytes_ok b.

Lemma digest_eq a b : digest_ok a -> digest_ok b -> hash_eq a b = bool_decide (a = b).
Proof.
  intros [Ha Hab] [Hb Hbb]. pose proof (hash_eq_iff a b ltac:(unfold lenZ in *; lia) Hab Hbb) as Heq.
  destruct (hash_eq a b); symmetry; [apply bool_decide_eq_true|apply bool_decide_eq_false]; naive_solver.
Qed.
Lemma hash_leaf_ok i p : digest_ok (hash_leaf store_id i p).
Proof. apply sha256_ok. Qed.
Lemma leaf_hash_ok f i : digest_ok (leaf_hash f i).
Proof. unfold leaf_hash. case_match; apply sha256_ok. Qed.

Lemma hash_tree_ok f h n : hash_tree f h -> 0 < base -> 1 <= n < 2 * base -> digest_ok (h n).
Proof.
  intros [Hl Hn] Hb Hr. destruct (decide (n < base)).
  - rewrite Hn by lia. apply sha256_ok.
  - replace n with (base + (n - base)) by lia. rewrite Hl by lia. apply leaf_hash_ok.
Qed.

(** Recompute the proper ancestors of [node]; [fuel] halvings reach the root. *)
Fixpoint up_path (fuel : nat) (node : Z) (h : Z -> bytes) : Z -> bytes :=
  match fuel with
  | O => h
  | S fuel =>
      if 1 <? node then
        let n := node / 2 in up_path fuel n (page_upd n (hash_node n (h (2 * n)) (h (2 * n + 1))) h)
      else h
  end.

Lemma up_path_ge fuel node h n : 0 <= node -> node <= n -> up_path fuel node h n = h n.
Proof.
  revert node h. induction fuel as [|fuel IH]; intros node h Hp Hn; cbn [up_path]; [done|].
  destruct (1 <? node) eqn:E; zbool; [|done].
  pose proof (Z.div_lt node 2 ltac:(lia) ltac:(lia)). pose proof (Z.div_pos node 2 ltac:(lia) ltac:(lia)).
  rewrite IH by lia. apply page_upd_ne. lia.
Qed.

(** Only the ancestors of [node] may fail to be hashed before; none does after. *)
Lemma up_path_hashed fuel node h :
  0 < node < 2 ^ Z.of_nat (S fuel) -> node < 2 * base ->
  (forall n, 1 <= n < base -> (forall k : nat, n <> node / 2 ^ Z.of_nat (S k)) -> node_hashed h n) ->
  forall n, 1 <= n < base -> node_hashed (up_path fuel node h) n.
Proof.
  revert node h. induction fuel as [|fuel IH]; intros node h Hnode Hb Hh n Hn; cbn [up_path].
  { change (2 ^ Z.of_nat 1) with 2 in Hnode. apply Hh; [done|]. intros k. replace node with 1 by lia.
    rewrite Z.div_small; [lia|]. rewrite Nat2Z.inj_succ, Z.pow_succ_r by lia. pose proof (Z.pow_pos_nonneg 2 (Z.of_nat k)). lia. }
  destruct (1 <? node) eqn:E; zbool.
  - set (m := node / 2). pose proof (Z.div_mod node 2 ltac:(lia)) as Hdm.
    pose proof (Z.mod_pos_bound node 2 ltac:(lia)). fold m in Hdm.
    rewrite Nat2Z.inj_succ, Z.pow_succ_r in Hnode by lia.
    apply IH; [lia|lia| |done]. intros n' Hn' Hanc. unfold node_hashed.
    destruct (decide (n' = m)) as [->|Hne]; [by rewrite page_upd_eq, !page_upd_ne by lia|].
    rewrite !page_upd_ne; [|intros Heq; apply (Hanc 0%nat); change (2 ^ Z.of_nat 1) with 2..|lia].
    + apply Hh; [done|]. intros [|k] Heq; [by change (2 ^ Z.of_nat 1) with 2 in Heq|].
      apply (Hanc k). rewrite Heq. unfold m. rewrite Z.div_div by (try apply Z.pow_nonzero; lia).
      by rewrite (Nat2Z.inj_succ (S k)), Z.pow_succ_r by lia.
    + rewrite Heq, Z.add_comm, Z.mul_comm, Z.div_add by lia. done.
    + rewrite Heq, Z.mul_comm, Z.div_mul by lia. done.
  - apply Hh; [done|]. intros k. replace node with 1 by lia. rewrite Z.div_small; [lia|].
    rewrite Nat2Z.inj_succ, Z.pow_succ_r by lia. pose proof (Z.pow_pos_nonneg 2 (Z.of_nat k)). lia.
Qed.

(** Setting one leaf and recomputing its ancestors gives the updated tree; the old
    hashes of that path do not matter. *)
Lemma up_path_tree_leaf fuel f h i page :
  (forall k, 0 <= k < base -> k <> i -> h (base + k) = leaf_hash f k) ->
  (forall n, 1 <= n < base -> (forall k : nat, n <> (base + i) / 2 ^ Z.of_nat (S k)) -> node_hashed h n) ->
  0 < base -> 0 <= i < count -> count <= base -> 2 * base <= 2 ^ Z.of_nat (S fuel) ->
  hash_tree (page_upd i page f) (up_path fuel (base + i) (page_upd (base + i) (hash_leaf store_id i page) h)).
Proof.
  intros Hl Hn Hb Hi Hc Hf. split.
  - intros j Hj. assert (up_path fuel (base + i) (page_upd (base + i) (hash_leaf store_id i page) h) (base + j) =
      page_upd (base + i) (hash_leaf store_id i page) h (base + j)) as ->.
    { destruct (decide (base + i <= base + j)); [by apply up_path_ge; lia|].
      clear Hl Hn. generalize (page_upd (base + i) (hash_leaf store_id i page) h). intros g.
      assert (base + i < 2 * base) as Hlt by lia. destruct fuel as [|fuel]; cbn [up_path]; [done|].
      destruct (1 <? base + i) eqn:E; zbool; [|done]. pose proof (Z.div_lt_upper_bound (base + i) 2 base ltac:(lia) ltac:(lia)).
      pose proof (Z.div_pos (base + i) 2 ltac:(lia) ltac:(lia)).
      rewrite up_path_ge by lia. apply page_upd_ne. lia. }
    unfold page_upd, leaf_hash. destruct (j =? i) eqn:E; zbool.
    + subst j. by rewrite Z.eqb_refl, (proj2 (Z.ltb_lt _ _)) by lia.
    + rewrite (proj2 (Z.eqb_neq _ _)) by lia. by apply Hl; [|lia].
  - apply up_path_hashed; [lia|lia|]. intros n Hn' Hanc. unfold node_hashed.
    rewrite !page_upd_ne; [by apply Hn|intros Heq; apply (Hanc 0%nat); change (2 ^ Z.of_nat 1) with 2..|lia].
    + rewrite Heq, Z.add_comm, Z.mul_comm, Z.div_add by lia. done.
    + rewrite Heq, Z.mul_comm, Z.div_mul by lia. done.
Qed.

Lemma up_path_tree fuel f h i page :
  hash_tree f h -> 0 < base -> 0 <= i < count -> count <= base -> 2 * base <= 2 ^ Z.of_nat (S fuel) ->
  hash_tree (page_upd i page f) (up_path fuel (base + i) (page_upd (base + i) (hash_leaf store_id i page) h)).
Proof. intros [Hl Hn]. apply up_path_tree_leaf; [intros; by apply Hl|intros; by apply Hn]. Qed.

End Tree.

(** ** A concrete digest for concrete inputs: a polynomial over the bytes *)

#[export] Instance toy_hash : Hash := fun x => to_le 32 (foldl (fun acc b => acc * 263 + b + 1) 0 x).
#[export] Instance toy_hash_laws : HashLaws.
Proof. intros x. split; [unfold lenZ, sha256, toy_hash; by rewrite to_le_length|apply to_le_ok]. Qed.
