(* ===== verification/Merkle.v ===== *)
(** * In-memory Merkle page store ([src/src/merkle.rs], [MerklePageStore])

    The whole hash tree is in trusted memory; the pages are in an inner store the
    host controls.  The invariant is that the hash vector is the tree of the
    authentic pages, and the theorems hold whatever the inner store serves. *)

From S2P Require Import Prelude Params Store Hash.

(** Mirror of [struct MerklePageStore]. *)
Record MerklePageStore (S : Type) : Type := mkMerkle {
  mk_inner : S;
  mk_store_id : bytes;
  mk_page_size : Z;
  mk_page_count : Z;
  mk_leaf_base : Z;
  mk_hashes : list bytes
}.
Arguments mkMerkle {S}. Arguments mk_inner {S}. Arguments mk_store_id {S}. Arguments mk_page_size {S}.
Arguments mk_page_count {S}. Arguments mk_leaf_base {S}. Arguments mk_hashes {S}.

Section Ops.
Context {S : Type} `{PageStore S} `{Hash}.
Local Abbreviation MS := (MerklePageStore S).

Definition set_mk_inner (i : S) (s : MS) : MS :=
  mkMerkle i (mk_store_id s) (mk_page_size s) (mk_page_count s) (mk_leaf_base s) (mk_hashes s).
Definition set_mk_hashes (h : list bytes) (s : MS) : MS :=
  mkMerkle (mk_inner s) (mk_store_id s) (mk_page_size s) (mk_page_count s) (mk_leaf_base s) h.
Definition on_mk_inner {A} (m : M S A) : M MS A := zoom mk_inner set_mk_inner m.

(** The two loops of [MerklePageStore::new]: the leaves, then the inner nodes. *)
Definition new_leaf_step (store_id : bytes) (page_count page_size leaf_base : Z)
    (acc : list bytes * bytes) (page_idx : Z) : M S (list bytes * bytes) :=
  let (hashes, page) := acc in
  let* hp := if page_idx <? page_count
    then let* page := ps_read_page page_idx page in ret (hash_leaf store_id page_idx page, page)
    else ret (hash_empty_leaf store_id page_idx page_size, page) in
  let* hashes := lift (updateZ hashes (leaf_base + page_idx) hp.1) in
  ret (hashes, hp.2).
Definition node_step (hashes : list bytes) (node_idx : Z) : outcome (list bytes) :=
  let? left_hash := indexZ hashes (node_idx * 2) in
  let? right_hash := indexZ hashes (node_idx * 2 + 1) in
  updateZ hashes node_idx (hash_node node_idx left_hash right_hash).

(** [MerklePageStore::new] *)
Definition merkle_new (inner : S) (store_id : bytes) : outcome MS :=
  let page_count := ps_page_count inner in
  let page_size := ps_page_size inner in
  if (page_count =? 0) || (page_size =? 0) then Err (InvalidInput "page_count and page_size must be > 0")
  else
    let? leaf_base := ok_or (checked_next_power_of_two page_count) (InvalidInput "page_count is too large") in
    let hashes := replicate (Z.to_nat (wrap 64 (leaf_base * 2))) (zeros 32) in
    let (r, inner) := foldM (new_leaf_step store_id page_count page_size leaf_base)
      (hashes, zeros page_size) (seqZ 0 leaf_base) inner in
    let? hp := r in
    let? hashes := ofold node_step hp.1 (reverse (seqZ 1 (leaf_base - 1))) in
    Ok (mkMerkle inner store_id page_size page_count leaf_base hashes).

(** [MerklePageStore::root] *)
Definition merkle_root (s : MS) : outcome bytes := indexZ (mk_hashes s) 1.

(** [MerklePageStore::trusted_hash_bytes] *)
Definition merkle_trusted_hash_bytes (s : MS) : Z := (lenZ (mk_hashes s) - 1) * 32.

Definition leaf_slot (s : MS) (page_idx : Z) : Z := mk_leaf_base s + page_idx.

(** The [while] loop of [update_leaf]; a 64-bit node reaches the root within 64
    halvings. *)
Fixpoint update_loop (fuel : nat) (node_idx : Z) (hashes : list bytes) : outcome (list bytes) :=
  match fuel with
  | O => Panic
  | Datatypes.S fuel =>
      if 1 <? node_idx then
        let node_idx := node_idx / 2 in
        let? hashes := node_step hashes node_idx in
        update_loop fuel node_idx hashes
      else Ok hashes
  end.

(** [MerklePageStore::update_leaf] *)
Definition update_leaf (page_idx : Z) (leaf_hash : bytes) : M MS unit :=
  let* s := gets (fun s => s) in
  let node_idx := leaf_slot s page_idx in
  let* hashes := lift (updateZ (mk_hashes s) node_idx leaf_hash) in
  let* hashes := lift (update_loop 65 node_idx hashes) in
  modify (set_mk_hashes hashes).

(** [<MerklePageStore as PageStore>::read_page] *)
Definition merkle_read_page (page_idx : Z) (out : bytes) : M MS bytes :=
  let* _ := check_page mk_page_size mk_page_count page_idx (lenZ out) in
  let* out := on_mk_inner (ps_read_page page_idx out) in
  let* s := gets (fun s => s) in
  let got := hash_leaf (mk_store_id s) page_idx out in
  let* expected := lift (indexZ (mk_hashes s) (leaf_slot s page_idx)) in
  let* _ := guardm (hash_eq got expected) (InvalidInput "Merkle page authentication failed for page {}") in
  ret out.

(** [<MerklePageStore as PageStore>::write_page] *)
Definition merkle_write_page (page_idx : Z) (input : bytes) : M MS unit :=
  let* _ := check_page mk_page_size mk_page_count page_idx (lenZ input) in
  let* _ := on_mk_inner (ps_write_page page_idx input) in
  let* s := gets (fun s => s) in
  update_leaf page_idx (hash_leaf (mk_store_id s) page_idx input).

#[export] Instance merkle_page_store : PageStore MS := {|
  ps_page_size := mk_page_size;
  ps_page_count := mk_page_count;
  ps_read_page := merkle_read_page;
  ps_write_page := merkle_write_page;
  ps_read_pages := default_read_pages mk_page_size merkle_read_page;
  ps_write_pages := default_write_pages mk_page_size merkle_write_page;
  ps_flush := on_mk_inner ps_flush;
  ps_tiered_merkle_state := fun _ => None
|}.

End Ops.

(** ** The hash vector as a tree *)

Section Vector.
Context `{HashLaws} (store_id : bytes) (size count base : Z).

Definition hash_at (hashes : list bytes) (n : Z) : bytes := default [] (hashes !! Z.to_nat n).
Local Abbreviation tree := (hash_tree store_id size count base).

Lemma hash_at_index hashes n : 0 <= n < lenZ hashes -> indexZ hashes n = Ok (hash_at hashes n).
Proof.
  intros Hn. unfold lenZ in Hn. destruct (lookup_lt_is_Some_2 hashes (Z.to_nat n)) as [x Hx]; [lia|].
  apply indexZ_Ok. unfold hash_at. rewrite Hx. split; [lia|done].
Qed.

Lemma hash_at_update hashes i x : 0 <= i < lenZ hashes ->
  exists hashes', updateZ hashes i x = Ok hashes' /\ lenZ hashes' = lenZ hashes /\
    forall n, 0 <= n -> hash_at hashes' n = page_upd i x (hash_at hashes) n.
Proof.
  intros Hi. eexists. unfold updateZ. rewrite (proj2 (andb_true_iff _ _)) by lia. split; [done|].
  split; [unfold lenZ; by rewrite length_insert|]. intros n Hn. unfold hash_at, page_upd, lenZ in *.
  destruct (n =? i) eqn:E; zbool.
  - subst. by rewrite list_lookup_insert_eq by lia.
  - by rewrite list_lookup_insert_ne by lia.
Qed.

Lemma node_step_ok hashes n : lenZ hashes = 2 * base -> 1 <= n < base ->
  exists hashes', node_step hashes n = Ok hashes' /\ lenZ hashes' = lenZ hashes /\
    forall m, 0 <= m -> hash_at hashes' m =
      page_upd n (hash_node n (hash_at hashes (2 * n)) (hash_at hashes (2 * n + 1))) (hash_at hashes) m.
Proof.
  intros Hl Hn. unfold node_step. rewrite !hash_at_index by lia. cbn [obind].
  rewrite (Z.mul_comm n 2). by apply hash_at_update; lia.
Qed.

Lemma up_path_ext fuel node f g : 0 < node < 2 * base -> (forall n, 1 <= n < 2 * base -> f n = g n) ->
  forall n, 1 <= n < 2 * base -> up_path fuel node f n = up_path fuel node g n.
Proof.
  revert node f g. induction fuel as [|fuel IH]; intros node f g Hnode Hfg n Hn; cbn [up_path]; [auto|].
  destruct (1 <? node) eqn:E; zbool; [|auto].
  assert (1 <= node / 2 < base) as Hd by (split; [apply Z.div_le_lower_bound|apply Z.div_lt_upper_bound]; lia).
  apply IH; [lia| |done]. intros m Hm. rewrite !(Hfg (2 * _)), !(Hfg (2 * _ + 1)) by lia.
  unfold page_upd. case_match; auto.
Qed.

Lemma update_loop_ok fuel node hashes :
  lenZ hashes = 2 * base -> 0 < node < 2 * base -> node < 2 ^ Z.of_nat (S fuel) ->
  exists hashes', update_loop (S fuel) node hashes = Ok hashes' /\ lenZ hashes' = lenZ hashes /\
    forall n, 1 <= n < 2 * base -> hash_at hashes' n = up_path fuel node (hash_at hashes) n.
Proof.
  revert node hashes. induction fuel as [|fuel IH]; intros node hashes Hl Hnode Hf.
  { change (2 ^ Z.of_nat 1) with 2 in Hf. exists hashes. cbn [update_loop up_path].
    by rewrite (proj2 (Z.ltb_ge _ _)) by lia. }
  change (update_loop (S (S fuel)) node hashes) with
    (if 1 <? node then let? hs := node_step hashes (node / 2) in update_loop (S fuel) (node / 2) hs else Ok hashes).
  cbn [up_path]. destruct (1 <? node) eqn:E; zbool; [|by exists hashes].
  rewrite Nat2Z.inj_succ, Z.pow_succ_r in Hf by lia.
  assert (1 <= node / 2 < base) as Hd by (split; [apply Z.div_le_lower_bound|apply Z.div_lt_upper_bound]; lia).
  destruct (node_step_ok hashes (node / 2) Hl Hd) as (hs & Es & Hls & Hh). rewrite Es. cbn [obind].
  destruct (IH (node / 2) hs) as (hs' & E2 & Hl2 & Hh2);
    [congruence|lia|apply Z.div_lt_upper_bound; lia|].
  exists hs'. split; [done|]. split; [congruence|]. intros n Hn. rewrite Hh2 by done.
  apply up_path_ext; [lia| |done]. intros m Hm. apply Hh. lia.
Qed.

Lemma hash_tree_ext f g h h' : (forall i, in_range count i -> f i = g i) ->
  (forall n, 1 <= n < 2 * base -> h n = h' n) -> 0 < base -> tree f h -> tree g h'.
Proof.
  intros Hfg Hh Hb [Hl Hn]. split.
  - intros i Hi. rewrite <-Hh, Hl by lia. unfold leaf_hash. case_match; zbool; [|done].
    by rewrite Hfg by (split; lia).
  - intros n Hr. unfold node_hashed. rewrite <-!Hh by lia. by apply Hn.
Qed.

(** [update_leaf] on the vector. *)
Lemma update_leaf_hashes f hashes i page :
  tree f (hash_at hashes) -> lenZ hashes = 2 * base -> 0 < base <= 2 ^ 63 -> 0 <= i < count -> count <= base ->
  exists hs1 hs2, updateZ hashes (base + i) (hash_leaf store_id i page) = Ok hs1 /\
    update_loop 65 (base + i) hs1 = Ok hs2 /\ lenZ hs2 = lenZ hashes /\ tree (page_upd i page f) (hash_at hs2).
Proof.
  intros Ht Hl Hb Hi Hc.
  destruct (hash_at_update hashes (base + i) (hash_leaf store_id i page)) as (hs1 & E1 & Hl1 & Hh1); [lia|].
  destruct (update_loop_ok 64 (base + i) hs1) as (hs2 & E2 & Hl2 & Hh2); [congruence|lia| |].
  { change (2 ^ Z.of_nat 65) with (2 * 2 * 2 ^ 63). lia. }
  exists hs1, hs2. split_and!; [done|done|congruence|].
  eapply hash_tree_ext; [done| |lia|apply (up_path_tree _ _ _ _ 64 f (hash_at hashes) i page Ht); try lia].
  intros n Hn. rewrite Hh2 by done. symmetry. apply up_path_ext; [lia| |done]. intros m Hm. apply Hh1. lia.
Qed.

End Vector.

(** ** The store over tampered pages *)

Section Lawful.
Context {S : Type} `{LawfulPageStore S} `{HashLaws}.
Local Abbreviation MS := (MerklePageStore S).

(** A store of the right shape, whatever its inner pages and its hashes hold. *)
Record merkle_shape (s : MS) : Prop := {
  ms_inner : ps_ok (mk_inner s);
  ms_size : mk_page_size s = ps_page_size (mk_inner s);
  ms_count : mk_page_count s = ps_page_count (mk_inner s);
  ms_base : mk_page_count s <= mk_leaf_base s <= 2 ^ 63;
  ms_len : lenZ (mk_hashes s) = 2 * mk_leaf_base s
}.

(** The trusted hashes are the tree of the pages [f]. *)
Definition merkle_auth (s : MS) (f : Z -> bytes) : Prop :=
  hash_tree (mk_store_id s) (mk_page_size s) (mk_page_count s) (mk_leaf_base s) f (hash_at (mk_hashes s)).

Definition merkle_content (s : MS) : Z -> bytes := ps_content (mk_inner s).
Definition merkle_ok (s : MS) : Prop := merkle_shape s /\ merkle_auth s (merkle_content s).
Local Abbreviation next := (page_next merkle_ok mk_page_size mk_page_count merkle_content).

Lemma merkle_pos s : merkle_shape s -> 0 < mk_page_size s /\ 0 < mk_page_count s /\ 0 < mk_leaf_base s.
Proof. intros [Hi Hs Hc Hb _]. destruct (ps_dims_ok _ Hi). rewrite Hs. lia. Qed.

Lemma merkle_check_ok (s : MS) i len :
  in_range (mk_page_count s) i -> len = mk_page_size s -> check_page mk_page_size mk_page_count i len s = (Ok tt, s).
Proof.
  intros Hi ->. unfold check_page. rewrite bind_gets, bind_guardm, bind_gets. destruct Hi.
  rewrite (proj2 (Z.leb_gt _ _)) by lia. cbn [negb]. unfold guardm. by rewrite Z.eqb_refl.
Qed.

(** Replacing the inner store by one of the same dimensions. *)
Lemma merkle_shape_inner (s : MS) inner' : merkle_shape s -> ps_ok inner' ->
  ps_page_size inner' = ps_page_size (mk_inner s) -> ps_page_count inner' = ps_page_count (mk_inner s) ->
  merkle_shape (set_mk_inner inner' s).
Proof. intros [Hi Hs Hc Hb Hl] ? ? ?. split; cbn; congruence || done. Qed.

(** A read compares the served page with the authentic one by hash. *)
Lemma merkle_read_exact (s : MS) f i out :
  merkle_shape s -> merkle_auth s f -> in_range (mk_page_count s) i -> lenZ out = mk_page_size s ->
  exists inner', ps_next (mk_inner s) (ps_content (mk_inner s)) inner' /\
    merkle_read_page i out s =
      (if decide (hash_leaf (mk_store_id s) i (merkle_content s i) = hash_leaf (mk_store_id s) i (f i))
       then Ok (merkle_content s i) else Err (InvalidInput "Merkle page authentication failed for page {}"),
       set_mk_inner inner' s).
Proof.
  intros Hs Ha Hi Ho. pose proof (merkle_pos s Hs) as (_ & _ & Hb). destruct Hs as [Hin Hsz Hc Hbase Hlen].
  unfold merkle_read_page. rewrite (bind_eq _ _ _ _ _ (merkle_check_ok s i _ Hi Ho)).
  destruct (ps_read_page_ok (mk_inner s) i out Hin) as (inner' & E & Hn); [by rewrite <-Hc|by rewrite <-Hsz|].
  exists inner'. split; [done|]. erewrite bind_eq by (by apply zoom_eq). rewrite bind_gets. cbn [mk_hashes set_mk_inner].
  unfold leaf_slot. cbn [mk_leaf_base set_mk_inner mk_store_id]. unfold in_range in Hi.
  rewrite hash_at_index by lia. rewrite bind_lift, bind_guardm.
  destruct Ha as [Hl _]. rewrite Hl by lia. unfold leaf_hash. rewrite (proj2 (Z.ltb_lt _ _)) by lia.
  rewrite digest_eq by apply hash_leaf_ok. unfold merkle_content.
  case_decide; [by rewrite bool_decide_eq_true_2|by rewrite bool_decide_eq_false_2].
Qed.

(** A write moves the tree to the updated pages. *)
Lemma merkle_write_exact (s : MS) f i page :
  merkle_shape s -> merkle_auth s f -> in_range (mk_page_count s) i -> page_ok (mk_page_size s) page ->
  exists inner' hashes', ps_next (mk_inner s) (page_upd i page (ps_content (mk_inner s))) inner' /\
    let s' := set_mk_hashes hashes' (set_mk_inner inner' s) in
    merkle_write_page i page s = (Ok tt, s') /\ merkle_shape s' /\ merkle_auth s' (page_upd i page f).
Proof.
  intros Hs Ha Hi Hp. pose proof (merkle_pos s Hs) as (_ & _ & Hb). pose proof Hs as [Hin Hsz Hc Hbase Hlen].
  unfold merkle_write_page. rewrite (bind_eq _ _ _ _ _ (merkle_check_ok s i _ Hi (proj1 Hp))).
  destruct (ps_write_page_ok (mk_inner s) i page Hin) as (inner' & E & Hn); [by rewrite <-Hc|by rewrite <-Hsz|].
  erewrite bind_eq by (by apply zoom_eq). rewrite bind_gets. unfold update_leaf. rewrite bind_gets.
  destruct (update_leaf_hashes (mk_store_id s) (mk_page_size s) (mk_page_count s) (mk_leaf_base s) f (mk_hashes s) i page)
    as (hs1 & hs2 & E1 & E2 & Hl2 & Ht); [done|lia|lia|done|lia|].
  unfold leaf_slot. cbn [mk_hashes mk_leaf_base mk_store_id set_mk_inner]. rewrite E1, bind_lift, E2, bind_lift.
  exists inner', hs2. split_and!; [done|done| |done].
  destruct Hn as (? & ? & ? & _). split; cbn; congruence.
Qed.

Lemma merkle_read_page_ok (s : MS) i out :
  merkle_ok s -> in_range (mk_page_count s) i -> lenZ out = mk_page_size s ->
  exists s', merkle_read_page i out s = (Ok (merkle_content s i), s') /\ next s (merkle_content s) s'.
Proof.
  intros [Hs Ha] Hi Ho. destruct (merkle_read_exact s _ i out Hs Ha Hi Ho) as (inner' & Hn & E).
  rewrite decide_True in E by done. eexists. split; [done|]. destruct Hn as (Hok & Hsz & Hc & Hj).
  split; [split; [by apply merkle_shape_inner|]|split; [done|split; [done|]]].
  - pose proof (merkle_pos s Hs) as (_ & _ & Hb).
    eapply hash_tree_ext; [|done|done|exact Ha]. intros j Hjr. symmetry. apply Hj. by rewrite <-(ms_count s Hs).
  - intros j Hjr. apply Hj. by rewrite <-(ms_count s Hs).
Qed.

Lemma merkle_write_page_ok (s : MS) i page :
  merkle_ok s -> in_range (mk_page_count s) i -> page_ok (mk_page_size s) page ->
  exists s', merkle_write_page i page s = (Ok tt, s') /\ next s (page_upd i page (merkle_content s)) s'.
Proof.
  intros [Hs Ha] Hi Hp. destruct (merkle_write_exact s _ i page Hs Ha Hi Hp) as (inner' & hs & Hn & E & Hs' & Ha').
  eexists. split; [exact E|]. destruct Hn as (Hok & Hsz & Hc & Hj). rewrite <-(ms_count s Hs) in Hj.
  pose proof (merkle_pos s Hs) as (_ & _ & Hb). split; [split; [done|]|split; [done|split; [done|exact Hj]]].
  eapply hash_tree_ext; [|done|exact Hb|exact Ha']. intros j Hjr. symmetry. by apply Hj.
Qed.

Lemma merkle_flush_ok (s : MS) :
  merkle_ok s -> exists s', on_mk_inner ps_flush s = (Ok tt, s') /\ next s (merkle_content s) s'.
Proof.
  intros [Hs Ha]. destruct (ps_flush_ok (mk_inner s) (ms_inner s Hs)) as (inner' & E & Hok & Hsz & Hc & Hj).
  rewrite <-(ms_count s Hs) in Hj. pose proof (merkle_pos s Hs) as (_ & _ & Hb).
  exists (set_mk_inner inner' s). split; [by apply zoom_eq|].
  split; [split; [by apply merkle_shape_inner|]|split; [done|split; [done|exact Hj]]].
  eapply hash_tree_ext; [|done|exact Hb|exact Ha]. intros j Hjr. symmetry. by apply Hj.
Qed.

Lemma merkle_content_ok (s : MS) i :
  merkle_ok s -> in_range (mk_page_count s) i -> page_ok (mk_page_size s) (merkle_content s i).
Proof. intros [[Hi Hs Hc _ _] _] Hr. rewrite Hs. apply ps_content_ok; [done|by rewrite <-Hc]. Qed.

Lemma merkle_dims_ok (s : MS) : merkle_ok s -> 0 < mk_page_size s /\ 0 < mk_page_count s.
Proof. intros [Hs _]. destruct (merkle_pos s Hs) as (? & ? & ?). done. Qed.

#[export] Instance merkle_lawful : LawfulPageStore MS := {|
  ps_ok := merkle_ok;
  ps_content := merkle_content;
  ps_content_ok := merkle_content_ok;
  ps_dims_ok := merkle_dims_ok;
  ps_read_page_ok := merkle_read_page_ok;
  ps_write_page_ok := merkle_write_page_ok;
  ps_read_pages_ok := default_read_pages_ok merkle_read_page (fun s Hs => proj1 (merkle_dims_ok s Hs)) merkle_read_page_ok;
  ps_write_pages_ok := default_write_pages_ok merkle_write_page merkle_write_page_ok;
  ps_flush_ok := merkle_flush_ok
|}.

End Lawful.

(** ** Building the tree *)

Section New.
Context {S : Type} `{LawfulPageStore S} `{HashLaws} (inner : S) (store_id : bytes) (base : Z).
Local Abbreviation size := (ps_page_size inner).
Local Abbreviation count := (ps_page_count inner).
Local Abbreviation leaf := (leaf_hash store_id size count (ps_content inner)).

Lemma new_leaves_ok hashes : ps_ok inner -> count <= base -> lenZ hashes = 2 * base ->
  exists hashes' page inner', foldM (new_leaf_step store_id count size base) (hashes, zeros size) (seqZ 0 base) inner =
      (Ok (hashes', page), inner') /\ ps_next inner (ps_content inner) inner' /\ lenZ hashes' = 2 * base /\
    forall i, 0 <= i < base -> hash_at hashes' (base + i) = leaf i.
Proof.
  intros Hok Hc Hl. destruct (ps_dims_ok inner Hok) as [Hsz Hcp].
  destruct (foldM_inv (fun before (acc : list bytes * bytes) inner' => ps_next inner (ps_content inner) inner' /\
    lenZ acc.2 = size /\ lenZ acc.1 = 2 * base /\ forall i, 0 <= i < lenZ before -> hash_at acc.1 (base + i) = leaf i)
    (new_leaf_step store_id count size base) (seqZ 0 base) (hashes, zeros size) inner) as ([hs page] & inner' & E & Hn & _ & Hlen & Hh).
  - intros before x after [hs page] s El (Hn & Hp & Hlen & Hh). apply seqZ_split in El as [Hx Hxr]. cbn [fst snd] in *.
    unfold new_leaf_step.
    assert (exists page' s', (if x <? count
      then let* page := ps_read_page x page in ret (hash_leaf store_id x page, page)
      else ret (hash_empty_leaf store_id x size, page)) s = (Ok (leaf x, page'), s') /\
      ps_next inner (ps_content inner) s' /\ lenZ page' = size) as (page' & s' & E & Hn' & Hp').
    { unfold leaf_hash. destruct (x <? count) eqn:Ex; zbool; [|by exists page, s].
      destruct Hn as (Hsok & Hss & Hsc & Hsf).
      destruct (ps_read_page_ok s x page Hsok) as (s' & Er & Hn'); [split; lia|congruence|].
      exists (ps_content s x), s'. rewrite (bind_eq _ _ _ _ _ Er). rewrite Hsf by (split; lia).
      split; [done|]. split.
      - apply (page_next_trans inner (ps_content inner) s); [done|]. eapply page_next_ext; [|exact Hn'].
        intros j Hj. apply Hsf. by rewrite <-Hsc.
      - rewrite <-Hsf by (split; lia). rewrite <-Hss. apply ps_content_ok; [done|split; lia]. }
    rewrite (bind_eq _ _ _ _ _ E). cbn [fst snd].
    destruct (hash_at_update hs (base + x) (leaf x)) as (hs' & Eu & Hl' & Hh'); [lia|].
    rewrite Eu, bind_lift. exists (hs', page'), s'. split; [done|]. cbn [fst snd].
    split_and!; [done|done|congruence|]. intros i. rewrite lenZ_app. change (lenZ [x]) with 1. intros Hi.
    rewrite Hh' by lia. unfold page_upd. destruct (base + i =? base + x) eqn:Ei; zbool.
    + f_equal. lia.
    + apply Hh. lia.
  - cbn [fst snd]. split_and!; [by apply page_next_refl|apply lenZ_zeros; lia|done|]. unfold lenZ. cbn [length]. lia.
  - exists hs, page, inner'. split_and!; try done. intros i Hi. apply Hh. unfold lenZ. rewrite length_seqZ. lia.
Qed.

Lemma new_nodes_ok f hashes : lenZ hashes = 2 * base -> 1 <= base ->
  (forall i, 0 <= i < base -> hash_at hashes (base + i) = leaf_hash store_id size count f i) ->
  exists hashes', ofold node_step hashes (reverse (seqZ 1 (base - 1))) = Ok hashes' /\ lenZ hashes' = 2 * base /\
    hash_tree store_id size count base f (hash_at hashes').
Proof.
  intros Hl Hb Hleaf.
  destruct (ofold_prefix_inv (fun before hs => lenZ hs = 2 * base /\
    (forall i, 0 <= i < base -> hash_at hs (base + i) = leaf_hash store_id size count f i) /\
    forall n, n ∈ before -> node_hashed (hash_at hs) n) node_step (reverse (seqZ 1 (base - 1))) hashes)
    as (hs & E & Hlen & Hlv & Hn).
  - intros before x after hs El (Hlen & Hlv & Hn). apply seqZ_reverse_split in El as (_ & Hx & Hbef).
    destruct (node_step_ok base hs x Hlen) as (hs' & E & Hl' & Hh'); [lia|]. exists hs'. split; [done|].
    split_and!; [congruence| |].
    + intros i Hi. rewrite Hh', page_upd_ne by lia. by apply Hlv.
    + intros n Hin. unfold node_hashed. apply elem_of_app in Hin as [Hin| ->%list_elem_of_singleton].
      * pose proof (proj1 (Hbef n) Hin). rewrite !Hh', !page_upd_ne by lia. by apply Hn.
      * rewrite !Hh', page_upd_eq, !page_upd_ne by lia. done.
  - split_and!; [done|done|]. intros n Hn. by apply not_elem_of_nil in Hn.
  - exists hs. split_and!; [done|done|]. split; [exact Hlv|]. intros n Hr. apply Hn. 
    apply elem_of_reverse, elem_of_seqZ. lia.
Qed.

End New.

Section NewOk.
Context {S : Type} `{LawfulPageStore S} `{HashLaws}.

Lemma merkle_new_ok (inner : S) store_id : ps_ok inner -> ps_page_count inner <= 2 ^ 62 ->
  exists s, merkle_new inner store_id = Ok s /\ merkle_ok s /\ mk_store_id s = store_id /\ mk_page_size s = ps_page_size inner /\
    mk_page_count s = ps_page_count inner /\
    forall i, in_range (ps_page_count inner) i -> merkle_content s i = ps_content inner i.
Proof.
  intros Hok Hc. destruct (ps_dims_ok inner Hok) as [Hsz Hcp]. unfold merkle_new.
  rewrite !(proj2 (Z.eqb_neq _ _)) by lia. cbn [orb].
  destruct (next_power_of_two_total _ Hc) as (k & Hk & -> & Hle). cbn [ok_or obind].
  assert (2 ^ k <= 2 ^ 62) as Hk2 by (apply Z.pow_le_mono_r; lia). set (base := 2 ^ k) in *. clearbody base.
  change (2 ^ 62) with 4611686018427387904 in *.
  rewrite wrap_small by (change (2 ^ 64) with 18446744073709551616; lia).
  set (hashes := replicate _ _).
  destruct (new_leaves_ok inner store_id base hashes Hok Hle) as (hs & page & inner' & E & Hn & Hl & Hlv).
  { unfold hashes, lenZ. rewrite length_replicate. lia. }
  rewrite E. cbn [obind fst].
  destruct (new_nodes_ok inner store_id base (ps_content inner) hs) as (hs' & -> & Hl' & Ht); [done|lia|done|].
  cbn [obind]. eexists. split; [done|]. destruct Hn as (Hok' & Hs' & Hc' & Hf).
  split_and!; [|done|done|done|intros; by apply Hf]. split.
  - split; cbn; try done. lia.
  - unfold merkle_auth. cbn. eapply hash_tree_ext; [|done|lia|exact Ht]. intros i Hi. symmetry. by apply Hf.
Qed.

End NewOk.

(** ** Properties: the owner's reads and writes, interleaved with a host that
    replaces the inner store at will *)

Inductive merkle_event (S : Type) : Type :=
| OwnerRead (page_idx : Z)
| OwnerWrite (page_idx : Z) (page : bytes)
| HostReplace (inner : S).
Arguments OwnerRead {S}. Arguments OwnerWrite {S}. Arguments HostReplace {S}.

Section Tampering.
Context {S : Type} `{LawfulPageStore S} `{HashLaws}.
Local Abbreviation MS := (MerklePageStore S).

(** The results of the reads, in order. *)
Fixpoint merkle_run (evs : list (merkle_event S)) (s : MS) : list (outcome bytes) * MS :=
  match evs with
  | [] => ([], s)
  | OwnerRead i :: evs =>
      let (r, s) := merkle_read_page i (zeros (mk_page_size s)) s in
      let (rs, s) := merkle_run evs s in (r :: rs, s)
  | OwnerWrite i page :: evs => merkle_run evs (merkle_write_page i page s).2
  | HostReplace inner :: evs => merkle_run evs (set_mk_inner inner s)
  end.

(** The pages last written, at the end. *)
Fixpoint merkle_written (evs : list (merkle_event S)) (f : Z -> bytes) : Z -> bytes :=
  match evs with
  | [] => f
  | OwnerWrite i page :: evs => merkle_written evs (page_upd i page f)
  | _ :: evs => merkle_written evs f
  end.

(** For each read: the index, the page last written there, and the page the inner
    store holds there. *)
Fixpoint merkle_reads (evs : list (merkle_event S)) (f g : Z -> bytes) : list (Z * bytes * bytes) :=
  match evs with
  | [] => []
  | OwnerRead i :: evs => (i, f i, g i) :: merkle_reads evs f g
  | OwnerWrite i page :: evs => merkle_reads evs (page_upd i page f) (page_upd i page g)
  | HostReplace inner :: evs => merkle_reads evs f (ps_content inner)
  end.

Definition event_ok (size count : Z) (ev : merkle_event S) : Prop :=
  match ev with
  | OwnerRead i => in_range count i
  | OwnerWrite i page => in_range count i /\ page_ok size page
  | HostReplace inner => ps_ok inner /\ ps_page_size inner = size /\ ps_page_count inner = count
  end.

(** What a read may return: the authentic page when it was served; a refusal when
    another was served; anything else exhibits two inputs with one hash. *)
Inductive read_verdict (store_id : bytes) : Z * bytes * bytes -> outcome bytes -> Prop :=
| verdict_authentic i page : read_verdict store_id (i, page, page) (Ok page)
| verdict_refused i page served : served <> page ->
    read_verdict store_id (i, page, served) (Err (InvalidInput "Merkle page authentication failed for page {}"))
| verdict_collision i page served : leaf_input store_id i served <> leaf_input store_id i page ->
    sha256 (leaf_input store_id i served) = sha256 (leaf_input store_id i page) ->
    read_verdict store_id (i, page, served) (Ok served).

Lemma merkle_reads_ext evs f f' g g' size count : Forall (event_ok size count) evs ->
  (forall i, in_range count i -> f i = f' i) -> (forall i, in_range count i -> g i = g' i) ->
  merkle_reads evs f g = merkle_reads evs f' g'.
Proof.
  intros He. revert f f' g g'. induction He as [|ev evs Hev _ IH]; intros f f' g g' Hf Hg; [done|].
  destruct ev as [i|i page|inner]; cbn [merkle_reads].
  - rewrite (IH f f' g g' Hf Hg). by rewrite Hf, Hg.
  - apply IH; intros j Hj; unfold page_upd; case_match; auto.
  - by apply IH.
Qed.

Lemma merkle_run_ok evs : forall (s : MS) f,
  merkle_shape s -> merkle_auth s f -> Forall (event_ok (mk_page_size s) (mk_page_count s)) evs ->
  (forall i, in_range (mk_page_count s) i -> page_ok (mk_page_size s) (f i)) ->
  Forall2 (read_verdict (mk_store_id s)) (merkle_reads evs f (merkle_content s)) (merkle_run evs s).1 /\
  merkle_auth (merkle_run evs s).2 (merkle_written evs f).
Proof.
  induction evs as [|ev evs IH]; intros s f Hs Ha He Hf; [cbn; by split; [constructor|]|].
  apply Forall_cons in He as [Hev He]. destruct ev as [i|i page|inner]; cbn [merkle_reads merkle_written merkle_run event_ok] in *.
  - destruct (merkle_read_exact s f i (zeros (mk_page_size s)) Hs Ha Hev) as (inner' & Hn & E).
    { apply lenZ_zeros. destruct (merkle_pos s Hs) as [? _]. lia. }
    rewrite E. destruct Hn as (Hok' & Hsz' & Hc' & Hj). rewrite <-(ms_count s Hs) in Hj.
    destruct (IH (set_mk_inner inner' s) f) as (Hv & Ha'); [by apply merkle_shape_inner|done|done|done|].
    rewrite (merkle_reads_ext evs f f (merkle_content s) (merkle_content (set_mk_inner inner' s)) _ _ He
      (fun _ _ => eq_refl) (fun j Hjr => eq_sym (Hj j Hjr))).
    destruct (merkle_run evs (set_mk_inner inner' s)) as [rs s']. cbn [fst snd] in *. split; [|done].
    constructor; [|done]. case_decide as Eh; [|apply verdict_refused; intros Heq; apply Eh; by rewrite Heq].
    destruct (decide (merkle_content s i = f i)) as [->|Hne]; [constructor|].
    apply verdict_collision; [|done]. intros Hin. apply Hne. apply (leaf_input_inj (mk_store_id s) i); [|done].
    destruct (Hf i Hev) as [-> _]. rewrite (ms_count s Hs) in Hev.
    destruct (ps_content_ok (mk_inner s) i (ms_inner s Hs) Hev) as [Hl _]. unfold merkle_content.
    by rewrite (ms_size s Hs).
  - destruct Hev as [Hi Hp]. destruct (merkle_write_exact s f i page Hs Ha Hi Hp) as (inner' & hs & Hn & E & Hs' & Ha').
    rewrite E. cbn [snd]. set (s' := set_mk_hashes hs (set_mk_inner inner' s)) in *.
    destruct Hn as (Hok' & Hsz' & Hc' & Hj). rewrite <-(ms_count s Hs) in Hj.
    rewrite (merkle_reads_ext evs (page_upd i page f) (page_upd i page f) (page_upd i page (merkle_content s)) (merkle_content s') _ _ He
      (fun _ _ => eq_refl) (fun j Hjr => eq_sym (Hj j Hjr))).
    apply (IH s' (page_upd i page f) Hs' Ha' He). intros j Hjr. unfold page_upd. case_match; [done|]. by apply Hf.
  - destruct Hev as (Hok' & Hsz' & Hc').
    apply (IH (set_mk_inner inner s) f); [|done|done|done].
    apply merkle_shape_inner; [done|done| |]; [by rewrite Hsz', (ms_size s Hs)|by rewrite Hc', (ms_count s Hs)].
Qed.

(** C13: over any sequence of owner reads, owner writes and replacements of the
    untrusted store by the host, a read returns the page last written when that
    page is served and refuses any other, unless the two pages are a collision of
    the leaf hash; and the trusted tree stays the tree of the pages written. *)
Theorem merkle_detects_tampering (inner : S) store_id evs :
  ps_ok inner -> ps_page_count inner <= 2 ^ 62 ->
  Forall (event_ok (ps_page_size inner) (ps_page_count inner)) evs ->
  exists s, merkle_new inner store_id = Ok s /\
    Forall2 (read_verdict store_id) (merkle_reads evs (ps_content inner) (ps_content inner)) (merkle_run evs s).1 /\
    merkle_auth (merkle_run evs s).2 (merkle_written evs (ps_content inner)).
Proof.
  intros Hok Hc He. destruct (merkle_new_ok inner store_id Hok Hc) as (s & E & [Hs Ha] & Hid & Hsz & Hcnt & Hf).
  exists s. split; [done|]. rewrite <-Hcnt in Hf. destruct (merkle_run_ok evs s (ps_content inner)) as [Hv Ha2].
  - done.
  - pose proof (merkle_pos s Hs) as (_ & _ & Hb). eapply hash_tree_ext; [exact Hf|done|exact Hb|exact Ha].
  - by rewrite Hsz, Hcnt.
  - intros i Hi. rewrite Hsz. rewrite Hcnt in Hi. by apply ps_content_ok.
  - split; [|done]. rewrite (merkle_reads_ext evs (ps_content inner) (ps_content inner) (ps_content inner) (merkle_content s) _ _ He
      (fun _ _ => eq_refl)) by (intros i Hi; symmetry; apply Hf; by rewrite Hcnt). by rewrite Hid in Hv.
Qed.

End Tampering.

(** Two pages of one byte; the host rolls page 0 back after it was overwritten. *)
Definition merkle_demo : MemPageStore := mkMem 1 [7; 8].

Lemma merkle_demo_ok : ps_ok merkle_demo.
Proof. split_and!; try done. repeat constructor; vm_compute; intuition discriminate. Qed.

Lemma merkle_detects_tampering_witness :
  exists s, merkle_new merkle_demo [1; 2] = Ok s /\
    (merkle_run [OwnerRead 1; OwnerWrite 0 [9]; OwnerRead 0; HostReplace merkle_demo; OwnerRead 0; OwnerRead 1] s).1 =
      [Ok [8]; Ok [9]; Err (InvalidInput "Merkle page authentication failed for page {}"); Ok [8]] /\
    Forall2 (read_verdict [1; 2]) [(1, [8], [8]); (0, [9], [9]); (0, [9], [7]); (1, [8], [8])]
      (merkle_run [OwnerRead 1; OwnerWrite 0 [9]; OwnerRead 0; HostReplace merkle_demo; OwnerRead 0; OwnerRead 1] s).1.
Proof.
  destruct (merkle_detects_tampering merkle_demo [1; 2]
    [OwnerRead 1; OwnerWrite 0 [9]; OwnerRead 0; HostReplace merkle_demo; OwnerRead 0; OwnerRead 1]) as (s & E & Hv & _).
  - exact merkle_demo_ok.
  - vm_compute. discriminate.
  - repeat constructor; cbn; vm_compute; intuition discriminate.
  - exists s. split; [exact E|]. split; [|exact Hv]. assert (merkle_new merkle_demo [1; 2] = Ok s) as E2 by exact E.
    vm_compute in E2. injection E2 as <-. vm_compute. reflexivity.
Defined.
