(* ===== verification/TieredMerkle.v ===== *)
(** * Tiered Merkle page store ([src/src/merkle.rs], [TieredMerklePageStore])

    The hashes of the top levels are trusted memory, those of the lower levels are
    packed into a second store the host also controls.  [stored] is the hash of a
    node wherever it is kept; reads are verified up to the trusted frontier. *)

From S2P Require Import Prelude Params Store Hash Merkle.

(** ** Layout helpers *)

(** [leaf_base_for_page_count] *)
Definition leaf_base_for_page_count (page_count : Z) : outcome Z :=
  if page_count =? 0 then Err (InvalidInput "page_count must be > 0")
  else ok_or (checked_next_power_of_two page_count) (InvalidInput "page_count is too large").

(** [trusted_node_limit]; [checked_shl] fails from 64 on. *)
Definition trusted_node_limit (leaf_base trusted_levels : Z) : outcome Z :=
  let tree_levels := trailing_zeros leaf_base + 1 in
  if (trusted_levels =? 0) || (tree_levels <? trusted_levels)
  then Err (InvalidInput "trusted_levels {} out of range 1..={}")
  else if trusted_levels <? 64 then Ok (2 ^ trusted_levels)
  else Err (InvalidInput "trusted_levels is too large").

(** [hashes_per_page] *)
Definition hashes_per_page (page_size : Z) : outcome Z :=
  if page_size <? 32 then Err (InvalidInput "hash store page_size {} must be at least 32")
  else Ok (page_size / 32).

(** [disk_hash_nodes] and [pages_for_hash_nodes] *)
Definition disk_hash_nodes (leaf_base limit : Z) : Z := wrap 64 (leaf_base * 2 - limit).
Definition pages_for_hash_nodes (hash_nodes per_page : Z) : Z := div_ceil hash_nodes per_page.

(** Mirror of [struct TieredMerklePageStore]. *)
Record TieredMerklePageStore (S H : Type) : Type := mkTiered {
  tm_inner : S;
  tm_hash_store : H;
  tm_store_id : bytes;
  tm_page_size : Z;
  tm_page_count : Z;
  tm_leaf_base : Z;
  tm_trusted_levels : Z;
  tm_trusted_node_limit : Z;
  tm_hashes_per_page : Z;
  tm_disk_hash_nodes : Z;
  tm_trusted_hashes : list bytes
}.
Arguments mkTiered {S H}. Arguments tm_inner {S H}. Arguments tm_hash_store {S H}. Arguments tm_store_id {S H}.
Arguments tm_page_size {S H}. Arguments tm_page_count {S H}. Arguments tm_leaf_base {S H}.
Arguments tm_trusted_levels {S H}. Arguments tm_trusted_node_limit {S H}. Arguments tm_hashes_per_page {S H}.
Arguments tm_disk_hash_nodes {S H}. Arguments tm_trusted_hashes {S H}.

Section Ops.
Context {S H : Type} `{PageStore S} `{PageStore H} `{Hash}.
Local Abbreviation TS := (TieredMerklePageStore S H).

Definition set_tm_inner (i : S) (s : TS) : TS :=
  mkTiered i (tm_hash_store s) (tm_store_id s) (tm_page_size s) (tm_page_count s) (tm_leaf_base s)
    (tm_trusted_levels s) (tm_trusted_node_limit s) (tm_hashes_per_page s) (tm_disk_hash_nodes s) (tm_trusted_hashes s).
Definition set_tm_hash_store (h : H) (s : TS) : TS :=
  mkTiered (tm_inner s) h (tm_store_id s) (tm_page_size s) (tm_page_count s) (tm_leaf_base s)
    (tm_trusted_levels s) (tm_trusted_node_limit s) (tm_hashes_per_page s) (tm_disk_hash_nodes s) (tm_trusted_hashes s).
Definition set_tm_trusted (l : list bytes) (s : TS) : TS :=
  mkTiered (tm_inner s) (tm_hash_store s) (tm_store_id s) (tm_page_size s) (tm_page_count s) (tm_leaf_base s)
    (tm_trusted_levels s) (tm_trusted_node_limit s) (tm_hashes_per_page s) (tm_disk_hash_nodes s) l.
Definition on_tm_inner {A} (m : M S A) : M TS A := zoom tm_inner set_tm_inner m.
Definition on_tm_hash_store {A} (m : M H A) : M TS A := zoom tm_hash_store set_tm_hash_store m.

(** [TieredMerklePageStore::check_node_idx] *)
Definition check_node_idx (node_idx : Z) : M TS unit :=
  let* s := gets (fun s => s) in
  guardm (negb ((node_idx =? 0) || (tm_leaf_base s * 2 <=? node_idx))) (InvalidInput "Merkle node {} out of range").

(** [TieredMerklePageStore::disk_hash_position] *)
Definition disk_hash_position (s : TS) (node_idx : Z) : outcome (Z * Z) :=
  if node_idx <? tm_trusted_node_limit s then Err (InvalidInput "Merkle node {} is trusted, not disk-backed")
  else
    let disk_offset := node_idx - tm_trusted_node_limit s in
    if tm_disk_hash_nodes s <=? disk_offset then Err (InvalidInput "Merkle disk offset {} out of range {}")
    else Ok (disk_offset / tm_hashes_per_page s, disk_offset mod tm_hashes_per_page s * 32).

(** [TieredMerklePageStore::read_disk_hash] *)
Definition read_disk_hash (node_idx : Z) : M TS bytes :=
  let* s := gets (fun s => s) in
  let* po := lift (disk_hash_position s node_idx) in
  let* page := on_tm_hash_store (ps_read_page po.1 (zeros (ps_page_size (tm_hash_store s)))) in
  lift (slice page po.2 32).

(** [TieredMerklePageStore::write_disk_hash] *)
Definition write_disk_hash (node_idx : Z) (hash : bytes) : M TS unit :=
  let* s := gets (fun s => s) in
  let* po := lift (disk_hash_position s node_idx) in
  let* page := on_tm_hash_store (ps_read_page po.1 (zeros (ps_page_size (tm_hash_store s)))) in
  let* page := lift (splice page po.2 hash) in
  on_tm_hash_store (ps_write_page po.1 page).

(** [TieredMerklePageStore::read_hash] *)
Definition read_hash (node_idx : Z) : M TS bytes :=
  let* _ := check_node_idx node_idx in
  let* s := gets (fun s => s) in
  if node_idx <? tm_trusted_node_limit s then lift (indexZ (tm_trusted_hashes s) node_idx)
  else read_disk_hash node_idx.

(** [TieredMerklePageStore::write_hash] *)
Definition write_hash (node_idx : Z) (hash : bytes) : M TS unit :=
  let* _ := check_node_idx node_idx in
  let* s := gets (fun s => s) in
  if node_idx <? tm_trusted_node_limit s then
    let* l := lift (updateZ (tm_trusted_hashes s) node_idx hash) in modify (set_tm_trusted l)
  else write_disk_hash node_idx hash.

(** [TieredMerklePageStore::height] *)
Definition tm_height (s : TS) : Z := trailing_zeros (tm_leaf_base s).

(** The two loops of [rebuild_hashes]. *)
Definition rebuild_leaf (page : bytes) (page_idx : Z) : M TS bytes :=
  let* s := gets (fun s => s) in
  let* hp := if page_idx <? tm_page_count s
    then let* page := on_tm_inner (ps_read_page page_idx page) in ret (hash_leaf (tm_store_id s) page_idx page, page)
    else ret (hash_empty_leaf (tm_store_id s) page_idx (tm_page_size s), page) in
  let* _ := write_hash (tm_leaf_base s + page_idx) hp.1 in
  ret hp.2.
Definition rebuild_node (_ : unit) (node_idx : Z) : M TS unit :=
  let* left_hash := read_hash (node_idx * 2) in
  let* right_hash := read_hash (node_idx * 2 + 1) in
  write_hash node_idx (hash_node node_idx left_hash right_hash).

(** [TieredMerklePageStore::rebuild_hashes] *)
Definition rebuild_hashes : M TS unit :=
  let* s := gets (fun s => s) in
  let* _ := foldM rebuild_leaf (zeros (tm_page_size s)) (seqZ 0 (tm_leaf_base s)) in
  foldM (fun _ level => foldM rebuild_node tt (seqZ (2 ^ level) (2 ^ (level + 1) - 2 ^ level)))
    tt (reverse (seqZ 0 (tm_height s))).

(** One step of the loops below: the hash of the parent of [node_idx]. *)
Definition parent_hash (node_idx : Z) (current sibling : bytes) : bytes :=
  if is_left_child node_idx then hash_node (node_idx / 2) current sibling
  else hash_node (node_idx / 2) sibling current.

(** The [while] loop of [verify_page_hash]. *)
Fixpoint verify_loop (fuel : nat) (node_idx : Z) (current : bytes) : M TS (Z * bytes) :=
  match fuel with
  | O => panic
  | Datatypes.S fuel =>
      let* s := gets (fun s => s) in
      if tm_trusted_node_limit s <=? node_idx then
        let* sibling := read_hash (sibling_node node_idx) in
        verify_loop fuel (node_idx / 2) (parent_hash node_idx current sibling)
      else ret (node_idx, current)
  end.

(** [TieredMerklePageStore::verify_page_hash] *)
Definition verify_page_hash (page_idx : Z) (leaf_hash : bytes) : M TS unit :=
  let* s := gets (fun s => s) in
  let* nc := verify_loop 65 (tm_leaf_base s + page_idx) leaf_hash in
  let* s := gets (fun s => s) in
  let* trusted := lift (indexZ (tm_trusted_hashes s) nc.1) in
  guardm (hash_eq nc.2 trusted) (InvalidInput "Merkle page authentication failed for page {}").

(** The [while] loop of [update_page_hash]. *)
Fixpoint update_hash_loop (fuel : nat) (node_idx : Z) (current : bytes) : M TS unit :=
  match fuel with
  | O => panic
  | Datatypes.S fuel =>
      if 1 <? node_idx then
        let* sibling := read_hash (sibling_node node_idx) in
        let current := parent_hash node_idx current sibling in
        let* _ := write_hash (node_idx / 2) current in
        update_hash_loop fuel (node_idx / 2) current
      else ret tt
  end.

(** [TieredMerklePageStore::update_page_hash] *)
Definition update_page_hash (page_idx : Z) (leaf_hash : bytes) : M TS unit :=
  let* s := gets (fun s => s) in
  let node_idx := tm_leaf_base s + page_idx in
  let* _ := write_hash node_idx leaf_hash in
  update_hash_loop 65 node_idx leaf_hash.

(** [<TieredMerklePageStore as PageStore>::read_page] *)
Definition tiered_read_page (page_idx : Z) (out : bytes) : M TS bytes :=
  let* _ := check_page tm_page_size tm_page_count page_idx (lenZ out) in
  let* out := on_tm_inner (ps_read_page page_idx out) in
  let* s := gets (fun s => s) in
  let* _ := verify_page_hash page_idx (hash_leaf (tm_store_id s) page_idx out) in
  ret out.

(** [<TieredMerklePageStore as PageStore>::write_page] *)
Definition tiered_write_page (page_idx : Z) (input : bytes) : M TS unit :=
  let* _ := check_page tm_page_size tm_page_count page_idx (lenZ input) in
  let* _ := on_tm_inner (ps_write_page page_idx input) in
  let* s := gets (fun s => s) in
  update_page_hash page_idx (hash_leaf (tm_store_id s) page_idx input).

(** [<TieredMerklePageStore as PageStore>::flush] *)
Definition tiered_flush : M TS unit :=
  let* _ := on_tm_inner ps_flush in on_tm_hash_store ps_flush.

(** [TieredMerklePageStore::trusted_state] *)
Definition trusted_state (s : TS) : TieredMerkleState :=
  mkTieredMerkleState (tm_store_id s) (tm_page_count s) (tm_page_size s) (tm_trusted_levels s)
    (ps_page_size (tm_hash_store s)) (tm_trusted_hashes s).

#[export] Instance tiered_page_store : PageStore TS := {|
  ps_page_size := tm_page_size;
  ps_page_count := tm_page_count;
  ps_read_page := tiered_read_page;
  ps_write_page := tiered_write_page;
  ps_read_pages := default_read_pages tm_page_size tiered_read_page;
  ps_write_pages := default_write_pages tm_page_size tiered_write_page;
  ps_flush := tiered_flush;
  ps_tiered_merkle_state := fun s => Some (trusted_state s)
|}.

(** [TieredMerklePageStore::required_hash_pages] *)
Definition required_hash_pages (page_count hash_page_size trusted_levels : Z) : outcome Z :=
  let? leaf_base := leaf_base_for_page_count page_count in
  let? limit := trusted_node_limit leaf_base trusted_levels in
  let? per_page := hashes_per_page hash_page_size in
  Ok (pages_for_hash_nodes (disk_hash_nodes leaf_base limit) per_page).

(** [TieredMerklePageStore::build] *)
Definition tiered_build (inner : S) (hash_store : H) (store_id : bytes) (trusted_levels : Z) : outcome TS :=
  let page_count := ps_page_count inner in
  let page_size := ps_page_size inner in
  if (page_count =? 0) || (page_size =? 0) then Err (InvalidInput "page_count and page_size must be > 0")
  else
    let? leaf_base := leaf_base_for_page_count page_count in
    let? limit := trusted_node_limit leaf_base trusted_levels in
    let? per_page := hashes_per_page (ps_page_size hash_store) in
    let nodes := disk_hash_nodes leaf_base limit in
    let required := pages_for_hash_nodes nodes per_page in
    if ps_page_count hash_store <? required then Err (InvalidInput "hash store has {} pages, need at least {}")
    else
      let store := mkTiered inner hash_store store_id page_size page_count leaf_base trusted_levels limit per_page nodes
        (replicate (Z.to_nat limit) (zeros 32)) in
      let (r, store) := rebuild_hashes store in
      let? _ := r in Ok store.

(** [TieredMerklePageStore::from_trusted_state] *)
Definition from_trusted_state (inner : S) (hash_store : H) (state : TieredMerkleState) : outcome TS :=
  let page_count := ps_page_count inner in
  let page_size := ps_page_size inner in
  if negb (page_count =? tms_page_count state) then Err (InvalidInput "data store page_count {} != trusted Merkle page_count {}")
  else if negb (page_size =? tms_page_size state) then Err (InvalidInput "data store page_size {} != trusted Merkle page_size {}")
  else if negb (ps_page_size hash_store =? tms_hash_page_size state)
  then Err (InvalidInput "hash store page_size {} != trusted Merkle hash_page_size {}")
  else
    let? leaf_base := leaf_base_for_page_count page_count in
    let? limit := trusted_node_limit leaf_base (tms_trusted_levels state) in
    if negb (lenZ (tms_trusted_hashes state) =? limit) then Err (InvalidInput "trusted hash count {} != expected {}")
    else
      let? per_page := hashes_per_page (ps_page_size hash_store) in
      let nodes := disk_hash_nodes leaf_base limit in
      let required := pages_for_hash_nodes nodes per_page in
      if ps_page_count hash_store <? required then Err (InvalidInput "hash store has {} pages, need at least {}")
      else Ok (mkTiered inner hash_store (tms_store_id state) page_size page_count leaf_base (tms_trusted_levels state)
        limit per_page nodes (tms_trusted_hashes state)).

End Ops.

(** ** Hashes packed into pages *)

Section Windows.

Definition window (page : bytes) (off : Z) : bytes := take 32 (drop (Z.to_nat off) page).

Lemma window_slice page off : 0 <= off -> off + 32 <= lenZ page -> slice page off 32 = Ok (window page off).
Proof.
  intros Ho Hl. destruct (slice_split page off 32) as (a & b & c & _ & _ & _ & E); [lia..|].
  rewrite E. by apply slice_Ok in E as (_ & _ & _ & ->).
Qed.

Lemma window_splice page off x : 0 <= off -> off + 32 <= lenZ page -> lenZ x = 32 -> bytes_ok page -> bytes_ok x ->
  exists page', splice page off x = Ok page' /\ lenZ page' = lenZ page /\ bytes_ok page' /\ window page' off = x /\
    forall o, 0 <= o -> o + 32 <= off \/ off + 32 <= o -> window page' o = window page o.
Proof.
  intros Ho Hl Hx Hp Hxb. destruct (slice_split page off 32) as (a & b & c & -> & Ha & Hb & _); [lia..|].
  exists (a ++ x ++ c). rewrite (splice_app a b x c) by lia. rewrite !lenZ_app in *.
  unfold bytes_ok in *. rewrite !Forall_app in *. split_and!; try naive_solver lia.
  - unfold window. rewrite <-Ha. unfold lenZ. rewrite Nat2Z.id, drop_app_length.
    rewrite take_app_le by (unfold lenZ in Hx; lia). apply take_ge. unfold lenZ in Hx. lia.
  - intros o Hoff Hd. unfold window. apply list_eq. intros k.
    destruct (decide (k < 32)%nat); [|rewrite !lookup_take_ge by lia; done].
    rewrite !lookup_take_lt, !lookup_drop by lia. unfold lenZ in *. destruct Hd as [Hd|Hd].
    + rewrite !lookup_app_l by lia. done.
    + rewrite !(lookup_app_r a) by lia. rewrite !lookup_app_r by lia. f_equal. lia.
Qed.

End Windows.

(** ** The store over tampered pages and hashes *)

Section Shape.
Context {S H : Type} `{LawfulPageStore S} `{LawfulPageStore H} `{HashLaws}.
Local Abbreviation TS := (TieredMerklePageStore S H).

(** A store of the right shape, whatever its pages and hashes hold. *)
Record tiered_shape (s : TS) : Prop := {
  ts_inner : ps_ok (tm_inner s);
  ts_hash_store : ps_ok (tm_hash_store s);
  ts_size : tm_page_size s = ps_page_size (tm_inner s);
  ts_count : tm_page_count s = ps_page_count (tm_inner s);
  ts_base : tm_page_count s <= tm_leaf_base s <= 2 ^ 62;
  ts_pow2 : exists k, 0 <= k /\ tm_leaf_base s = 2 ^ k;
  ts_levels : 0 < tm_trusted_levels s <= trailing_zeros (tm_leaf_base s) + 1;
  ts_limit : tm_trusted_node_limit s = 2 ^ tm_trusted_levels s;
  ts_per_page : tm_hashes_per_page s = ps_page_size (tm_hash_store s) / 32 /\ 32 <= ps_page_size (tm_hash_store s);
  ts_nodes : tm_disk_hash_nodes s = tm_leaf_base s * 2 - tm_trusted_node_limit s;
  ts_pages : div_ceil (tm_disk_hash_nodes s) (tm_hashes_per_page s) <= ps_page_count (tm_hash_store s);
  ts_trusted : lenZ (tm_trusted_hashes s) = tm_trusted_node_limit s;
  ts_leaf_base : leaf_base_for_page_count (tm_page_count s) = Ok (tm_leaf_base s)
}.

(** The hash kept for node [n], wherever it is. *)
Definition disk_hash (s : TS) (n : Z) : bytes :=
  let off := n - tm_trusted_node_limit s in
  window (ps_content (tm_hash_store s) (off / tm_hashes_per_page s)) (off mod tm_hashes_per_page s * 32).
Definition stored (s : TS) (n : Z) : bytes :=
  if n <? tm_trusted_node_limit s then hash_at (tm_trusted_hashes s) n else disk_hash s n.

(** [s'] keeps the pages and the dimensions of [s]; its hashes may differ. *)
Definition same_pages (s s' : TS) : Prop :=
  exists hs l, s' = set_tm_trusted l (set_tm_hash_store hs s) /\ ps_ok hs /\
    ps_page_size hs = ps_page_size (tm_hash_store s) /\ ps_page_count hs = ps_page_count (tm_hash_store s) /\
    lenZ l = lenZ (tm_trusted_hashes s).

Lemma same_pages_refl s : tiered_shape s -> same_pages s s.
Proof. intros Hs. exists (tm_hash_store s), (tm_trusted_hashes s). destruct s. split_and!; try done. apply Hs. Qed.

Lemma same_pages_trans s1 s2 s3 : same_pages s1 s2 -> same_pages s2 s3 -> same_pages s1 s3.
Proof.
  intros (hs & l & -> & ? & ? & ? & ?) (hs' & l' & -> & ? & ? & ? & ?). exists hs', l'. cbn in *.
  split_and!; try done; congruence.
Qed.

Lemma same_pages_shape s s' : tiered_shape s -> same_pages s s' -> tiered_shape s'.
Proof.
  intros [] (hs & l & -> & ? & ? & ? & ?). split; cbn in *; try done; congruence.
Qed.

Lemma tiered_pos s : tiered_shape s -> 0 < tm_page_size s /\ 0 < tm_page_count s /\ 1 <= tm_leaf_base s /\
  2 <= tm_trusted_node_limit s <= tm_leaf_base s * 2 /\ 0 < tm_hashes_per_page s.
Proof.
  intros [Hi _ Hs Hc Hb (k & Hk & Hk2) Hl Hlim [Hpp H32] _ _ _]. destruct (ps_dims_ok _ Hi). rewrite Hs.
  rewrite Hk2, (proj2 (pow2_facts k Hk)) in Hl. rewrite Hlim, Hk2.
  assert (2 ^ 1 <= 2 ^ tm_trusted_levels s) by (apply Z.pow_le_mono_r; lia).
  assert (2 ^ tm_trusted_levels s <= 2 ^ (k + 1)) by (apply Z.pow_le_mono_r; lia).
  rewrite Z.pow_add_r in * by lia. assert (1 <= ps_page_size (tm_hash_store s) / 32) by (apply Z.div_le_lower_bound; lia).
  lia.
Qed.

(** The slot of a disk-backed node. *)
Lemma disk_slot s n : tiered_shape s -> tm_trusted_node_limit s <= n < 2 * tm_leaf_base s ->
  let off := n - tm_trusted_node_limit s in
  disk_hash_position s n = Ok (off / tm_hashes_per_page s, off mod tm_hashes_per_page s * 32) /\
  in_range (ps_page_count (tm_hash_store s)) (off / tm_hashes_per_page s) /\
  0 <= off mod tm_hashes_per_page s * 32 /\
  off mod tm_hashes_per_page s * 32 + 32 <= ps_page_size (tm_hash_store s).
Proof.
  intros Hs Hn off. destruct (tiered_pos s Hs) as (_ & _ & _ & Hlim & Hpp).
  destruct Hs as [_ _ _ _ _ _ _ _ [Hper _] Hnodes Hpages _]. unfold disk_hash_position.
  rewrite (proj2 (Z.ltb_ge _ _)), (proj2 (Z.leb_gt _ _)) by lia. fold off. split; [done|].
  assert (0 <= off < tm_disk_hash_nodes s) as Hoff by lia. clearbody off.
  pose proof (Z.mod_pos_bound off (tm_hashes_per_page s) Hpp) as Hmod.
  split; [|split; [lia|]].
  - split; [apply Z.div_pos; lia|]. eapply Z.lt_le_trans; [|exact Hpages]. unfold div_ceil.
    apply Z.div_lt_upper_bound; [lia|]. 
    pose proof (Z.div_mod (tm_disk_hash_nodes s + tm_hashes_per_page s - 1) (tm_hashes_per_page s) ltac:(lia)).
    pose proof (Z.mod_pos_bound (tm_disk_hash_nodes s + tm_hashes_per_page s - 1) (tm_hashes_per_page s) Hpp). lia.
  - pose proof (Z.mul_div_le (ps_page_size (tm_hash_store s)) 32 ltac:(lia)). lia.
Qed.

Lemma check_node_ok s n {A} (k : M TS A) : tiered_shape s -> 1 <= n < 2 * tm_leaf_base s ->
  (let* _ := check_node_idx n in k) s = k s.
Proof.
  intros Hs Hn. unfold check_node_idx, bind at 1. rewrite bind_gets. unfold guardm.
  rewrite (proj2 (Z.eqb_neq _ _)), (proj2 (Z.leb_gt _ _)) by lia. done.
Qed.

Lemma read_hash_ok s n : tiered_shape s -> 1 <= n < 2 * tm_leaf_base s ->
  exists s', read_hash n s = (Ok (stored s n), s') /\ same_pages s s' /\
    tm_trusted_hashes s' = tm_trusted_hashes s /\ forall m, 1 <= m < 2 * tm_leaf_base s -> stored s' m = stored s m.
Proof.
  intros Hs Hn. unfold read_hash. rewrite check_node_ok by done. rewrite bind_gets. unfold stored at 1.
  destruct (n <? tm_trusted_node_limit s) eqn:E; zbool.
  - exists s. split_and!; [|by apply same_pages_refl|done|done]. unfold lift. rewrite hash_at_index; [done|].
    rewrite (ts_trusted s Hs). lia.
  - destruct (disk_slot s n Hs) as (Ep & Hr & Ho & Hlen); [lia|]. unfold read_disk_hash.
    rewrite bind_gets, Ep, bind_lift. cbn [fst snd].
    destruct (ps_read_page_ok (tm_hash_store s) _ (zeros (ps_page_size (tm_hash_store s))) (ts_hash_store s Hs) Hr)
      as (hs & Er & Hok & Hsz & Hc & Hj).
    { apply lenZ_zeros. destruct (ts_per_page s Hs). lia. }
    erewrite bind_eq by (by apply zoom_eq). exists (set_tm_hash_store hs s). unfold lift.
    destruct (ps_content_ok _ _ (ts_hash_store s Hs) Hr) as [Hpl _].
    rewrite window_slice by lia. split_and!; [done| |done|].
    + exists hs, (tm_trusted_hashes s). by destruct s.
    + intros m Hm. unfold stored. cbn. case_match eqn:Em; [done|]. zbool. unfold disk_hash. cbn. f_equal.
      apply Hj. apply disk_slot; [done|lia].
Qed.

Lemma write_hash_ok s n x : tiered_shape s -> 1 <= n < 2 * tm_leaf_base s -> digest_ok x ->
  exists s', write_hash n x s = (Ok tt, s') /\ same_pages s s' /\
    forall m, 1 <= m < 2 * tm_leaf_base s -> stored s' m = page_upd n x (stored s) m.
Proof.
  intros Hs Hn [Hx Hxb]. unfold write_hash. rewrite check_node_ok by done. rewrite bind_gets.
  destruct (n <? tm_trusted_node_limit s) eqn:E; zbool.
  - destruct (hash_at_update (tm_trusted_hashes s) n x) as (l & El & Hl & Hh); [rewrite (ts_trusted s Hs); lia|].
    rewrite El, bind_lift. exists (set_tm_trusted l s). split_and!; [done| |].
    + exists (tm_hash_store s), l. destruct s. split_and!; try done. apply Hs.
    + intros m Hm. unfold stored, page_upd. cbn. destruct (m <? tm_trusted_node_limit s) eqn:Em; zbool.
      * rewrite Hh by lia. unfold page_upd. by case_match.
      * by rewrite (proj2 (Z.eqb_neq _ _)) by lia.
  - destruct (disk_slot s n Hs) as (Ep & Hr & Ho & Hlen); [lia|]. unfold write_disk_hash.
    rewrite bind_gets, Ep, bind_lift. cbn [fst snd].
    destruct (ps_read_page_ok (tm_hash_store s) _ (zeros (ps_page_size (tm_hash_store s))) (ts_hash_store s Hs) Hr)
      as (hs & Er & Hok & Hsz & Hc & Hj).
    { apply lenZ_zeros. destruct (ts_per_page s Hs). lia. }
    erewrite bind_eq by (by apply zoom_eq).
    destruct (ps_content_ok _ _ (ts_hash_store s Hs) Hr) as [Hpl Hpb].
    destruct (window_splice (ps_content (tm_hash_store s) ((n - tm_trusted_node_limit s) / tm_hashes_per_page s))
      ((n - tm_trusted_node_limit s) mod tm_hashes_per_page s * 32) x) as (page & Es & Hl & Hb & Hw & Ho'); [lia|lia|done..|].
    rewrite Es, bind_lift.
    destruct (ps_write_page_ok hs ((n - tm_trusted_node_limit s) / tm_hashes_per_page s) page Hok)
      as (hs' & Ew & Hok' & Hsz' & Hc' & Hj'); [by rewrite Hc|split; [congruence|done]|].
    exists (set_tm_hash_store hs' s). split_and!.
    + unfold on_tm_hash_store. by rewrite (zoom_eq tm_hash_store set_tm_hash_store _ (set_tm_hash_store hs s) _ _ Ew).
    + exists hs', (tm_trusted_hashes s). destruct s. cbn in *. split_and!; try done; congruence.
    + intros m Hm. unfold stored, page_upd. cbn. destruct (m <? tm_trusted_node_limit s) eqn:Em; zbool.
      { by rewrite (proj2 (Z.eqb_neq _ _)) by lia. }
      destruct (disk_slot s m Hs) as (_ & Hrm & Hom & _); [lia|].
      unfold disk_hash. cbn. rewrite Hj' by (by rewrite Hc). unfold page_upd.
      destruct (m =? n) eqn:Emn; zbool; [subst m; by rewrite Z.eqb_refl|].
      destruct (_ =? _) eqn:Eq in |- *; zbool; [|by rewrite Hj].
      rewrite Ho' by (try done; pose proof (Z.div_mod (m - tm_trusted_node_limit s) (tm_hashes_per_page s));
        pose proof (Z.div_mod (n - tm_trusted_node_limit s) (tm_hashes_per_page s));
        destruct (tiered_pos s Hs) as (_ & _ & _ & _ & ?); nia). by rewrite Eq.
Qed.

End Shape.

(** ** The two loops along a path *)

Section Loops.
Context {S H : Type} `{LawfulPageStore S} `{LawfulPageStore H} `{HashLaws}.
Local Abbreviation TS := (TieredMerklePageStore S H).

Lemma parent_hash_ok node cur sib : digest_ok (parent_hash node cur sib).
Proof. unfold parent_hash. case_match; apply sha256_ok. Qed.

(** The hash of a parent from a node and its sibling. *)
Lemma parent_hash_children (h : Z -> bytes) node : 0 <= node ->
  parent_hash node (h node) (h (sibling_node node)) =
  hash_node (node / 2) (h (2 * (node / 2))) (h (2 * (node / 2) + 1)).
Proof.
  intros Hn. unfold parent_hash.
  destruct (sibling_cases node Hn) as [(-> & E1 & E2)|(-> & E1 & E2)]; rewrite E2; f_equal; by rewrite <-E1.
Qed.

Lemma sibling_range node base : 2 <= node < 2 * base -> 1 <= sibling_node node < 2 * base /\ 1 <= node / 2 < base.
Proof.
  intros Hn. assert (1 <= node / 2 < base) by (split; [apply Z.div_le_lower_bound|apply Z.div_lt_upper_bound]; lia).
  destruct (sibling_cases node ltac:(lia)) as [(_ & E1 & E2)|(_ & E1 & E2)]; lia.
Qed.

(** [update_page_hash] recomputes the ancestors from what is stored. *)
Lemma update_hash_loop_ok fuel node (s : TS) :
  tiered_shape s -> 0 < node < 2 * tm_leaf_base s -> node < 2 ^ Z.of_nat (Datatypes.S fuel) ->
  exists s', update_hash_loop (Datatypes.S fuel) node (stored s node) s = (Ok tt, s') /\ same_pages s s' /\
    forall m, 1 <= m < 2 * tm_leaf_base s -> stored s' m = up_path fuel node (stored s) m.
Proof.
  revert node s. induction fuel as [|fuel IH]; intros node s Hs Hn Hf.
  { change (2 ^ Z.of_nat 1) with 2 in Hf. exists s. cbn [update_hash_loop up_path].
    rewrite (proj2 (Z.ltb_ge _ _)) by lia. split_and!; [done|by apply same_pages_refl|done]. }
  change (update_hash_loop (Datatypes.S (Datatypes.S fuel)) node (stored s node)) with
    (if 1 <? node then
       let* sibling := read_hash (sibling_node node) in
       let* _ := write_hash (node / 2) (parent_hash node (stored s node) sibling) in
       update_hash_loop (Datatypes.S fuel) (node / 2) (parent_hash node (stored s node) sibling)
     else ret tt : M TS unit).
  cbn [up_path]. destruct (1 <? node) eqn:E; zbool.
  2: { exists s. split_and!; [done|by apply same_pages_refl|done]. }
  rewrite Nat2Z.inj_succ, Z.pow_succ_r in Hf by lia.
  destruct (sibling_range node (tm_leaf_base s)) as [Hsib Hpar]; [lia|].
  destruct (read_hash_ok s (sibling_node node) Hs Hsib) as (s1 & E1 & Hp1 & _ & Hst1). rewrite (bind_eq _ _ _ _ _ E1).
  rewrite parent_hash_children by lia. set (x := hash_node _ _ _).
  pose proof (same_pages_shape s s1 Hs Hp1) as Hs1.
  assert (tm_leaf_base s1 = tm_leaf_base s) as Hb1 by (destruct Hp1 as (? & ? & -> & _); done).
  destruct (write_hash_ok s1 (node / 2) x Hs1) as (s2 & E2 & Hp2 & Hst2); [lia|apply sha256_ok|].
  rewrite (bind_eq _ _ _ _ _ E2). pose proof (same_pages_shape s1 s2 Hs1 Hp2) as Hs2.
  assert (tm_leaf_base s2 = tm_leaf_base s) as Hb2 by (destruct Hp2 as (? & ? & -> & _); done).
  destruct (IH (node / 2) s2 Hs2) as (s3 & E3 & Hp3 & Hst3); [lia|apply Z.div_lt_upper_bound; lia|].
  rewrite Hst2, page_upd_eq in E3 by lia. exists s3. split; [exact E3|].
  split; [by eapply same_pages_trans; [|eapply same_pages_trans]|]. intros m Hm. rewrite Hst3 by lia.
  apply (up_path_ext (tm_leaf_base s)); [lia| |done]. intros n Hnr. rewrite Hst2 by lia.
  unfold page_upd. case_match; [done|]. by apply Hst1.
Qed.

(** The inputs [verify_page_hash] hashes on the way up from what is stored, the
    node where it stops and the hash it has there. *)
Fixpoint climb (fuel : nat) (limit : Z) (h : Z -> bytes) (node : Z) (cur : bytes) : list (Z * bytes * bytes) * (Z * bytes) :=
  match fuel with
  | O => ([], (node, cur))
  | Datatypes.S fuel =>
      if limit <=? node then
        let sib := h (sibling_node node) in
        let (l, r) := if is_left_child node then (cur, sib) else (sib, cur) in
        let (rest, top) := climb fuel limit h (node / 2) (hash_node (node / 2) l r) in
        ((node / 2, l, r) :: rest, top)
      else ([], (node, cur))
  end.

Lemma climb_ext fuel limit f g node cur base : 2 <= limit -> 0 < node < 2 * base ->
  (forall n, 1 <= n < 2 * base -> f n = g n) -> climb fuel limit f node cur = climb fuel limit g node cur.
Proof.
  intros Hlim Hn Hfg. revert node cur Hn. induction fuel as [|fuel IH]; intros node cur Hn; cbn [climb]; [done|].
  destruct (limit <=? node) eqn:E; zbool; [|done]. destruct (sibling_range node base) as [Hsib Hpar]; [lia|].
  rewrite Hfg by lia. case_match. by rewrite IH by lia.
Qed.

Lemma climb_top fuel limit h node cur : (limit <=? node) = true ->
  (climb (Datatypes.S fuel) limit h node cur).2 =
  (climb fuel limit h (node / 2) (parent_hash node cur (h (sibling_node node)))).2.
Proof.
  intros E. cbn [climb]. rewrite E. unfold parent_hash.
  destruct (is_left_child node); by case_match.
Qed.

Lemma verify_loop_ok fuel node cur (s : TS) :
  tiered_shape s -> 0 < node < 2 * tm_leaf_base s -> node < 2 ^ Z.of_nat (Datatypes.S fuel) ->
  exists s', verify_loop (Datatypes.S fuel) node cur s = (Ok (climb fuel (tm_trusted_node_limit s) (stored s) node cur).2, s') /\
    same_pages s s' /\ tm_trusted_hashes s' = tm_trusted_hashes s /\
    (forall m, 1 <= m < 2 * tm_leaf_base s -> stored s' m = stored s m) /\
    1 <= (climb fuel (tm_trusted_node_limit s) (stored s) node cur).2.1 < tm_trusted_node_limit s.
Proof.
  revert node cur s. induction fuel as [|fuel IH]; intros node cur s Hs Hn Hf.
  { change (2 ^ Z.of_nat 1) with 2 in Hf. exists s. cbn [verify_loop climb]. rewrite bind_gets.
    destruct (tiered_pos s Hs) as (_ & _ & _ & ? & _). rewrite (proj2 (Z.leb_gt _ _)) by lia.
    split_and!; [done|by apply same_pages_refl|done|done|cbn; lia|cbn; lia]. }
  change (verify_loop (Datatypes.S (Datatypes.S fuel)) node cur) with
    (let* s := gets (fun s => s) in
      if tm_trusted_node_limit s <=? node then
        let* sibling := read_hash (sibling_node node) in
        verify_loop (Datatypes.S fuel) (node / 2) (parent_hash node cur sibling)
      else ret (node, cur) : M TS (Z * bytes)).
  rewrite bind_gets. destruct (tm_trusted_node_limit s <=? node) eqn:E.
  2: { cbn [climb]. rewrite E. zbool. exists s. split_and!; [done|by apply same_pages_refl|done|done|cbn; lia|cbn; lia]. }
  rewrite climb_top by done. zbool.
  rewrite Nat2Z.inj_succ, Z.pow_succ_r in Hf by lia.
  destruct (tiered_pos s Hs) as (_ & _ & _ & Hlim & _).
  destruct (sibling_range node (tm_leaf_base s)) as [Hsib Hpar]; [lia|].
  destruct (read_hash_ok s (sibling_node node) Hs Hsib) as (s1 & E1 & Hp1 & Ht1 & Hst1). rewrite (bind_eq _ _ _ _ _ E1).
  pose proof (same_pages_shape s s1 Hs Hp1) as Hs1.
  assert (tm_leaf_base s1 = tm_leaf_base s /\ tm_trusted_node_limit s1 = tm_trusted_node_limit s) as [Hb1 Hl1]
    by (destruct Hp1 as (? & ? & -> & _); done).
  set (c := parent_hash node cur (stored s (sibling_node node))).
  destruct (IH (node / 2) c s1 Hs1) as (s2 & E2 & Hp2 & Ht2 & Hst2 & Htop); [lia|apply Z.div_lt_upper_bound; lia|].
  rewrite Hl1 in *. rewrite (climb_ext _ _ (stored s1) (stored s) _ _ (tm_leaf_base s)) in * by (lia || done).
  exists s2. split_and!; [done|by eapply same_pages_trans|congruence| |lia|lia].
  intros m Hm. rewrite Hst2 by lia. by apply Hst1.
Qed.

(** Two distinct inputs with one digest. *)
Definition collision (x y : bytes) : Prop := x <> y /\ sha256 x = sha256 y.

(** When the climb ends on the hash of a true tree, it started from that tree's
    hash, or one of its inputs collides with the tree's input at the same node. *)
Lemma climb_sound fuel limit h tree node cur base :
  2 <= limit -> 0 < node < 2 * base -> node < 2 ^ Z.of_nat (Datatypes.S fuel) ->
  (forall n, 1 <= n < base -> node_hashed tree n) ->
  (forall n, 1 <= n < 2 * base -> digest_ok (tree n)) -> (forall n, 1 <= n < 2 * base -> lenZ (h n) = 32) -> lenZ cur = 32 ->
  let '(inputs, (top, c)) := climb fuel limit h node cur in
  c = tree top -> cur = tree node \/
    Exists (fun '(p, l, r) => collision (node_input p l r) (node_input p (tree (2 * p)) (tree (2 * p + 1)))) inputs.
Proof.
  intros Hlim Hn Hf Ht Hd Hh. revert node cur Hn Hf. induction fuel as [|fuel IH]; intros node cur Hn Hf Hc; cbn [climb].
  { intros ->. by left. }
  destruct (limit <=? node) eqn:E; zbool; [|intros ->; by left].
  rewrite Nat2Z.inj_succ, Z.pow_succ_r in Hf by lia.
  destruct (sibling_range node base) as [Hsib Hpar]; [lia|].
  assert (forall l r, lenZ l = 32 -> lenZ r = 32 -> (l = tree (2 * (node / 2)) -> r = tree (2 * (node / 2) + 1) -> cur = tree node) ->
    let '(inputs, (top, c)) := (let (rest, top) := climb fuel limit h (node / 2) (hash_node (node / 2) l r) in
      ((node / 2, l, r) :: rest, top)) in
    c = tree top -> cur = tree node \/
    Exists (fun '(p, l, r) => collision (node_input p l r) (node_input p (tree (2 * p)) (tree (2 * p + 1)))) inputs) as Hstep.
  { intros l r Hll Hlr Hlr2. specialize (IH (node / 2) (hash_node (node / 2) l r)).
    destruct (climb _ _ _ _ _) as [rest [top c]]. intros Htop.
    destruct IH as [Hp|Hex]; [lia|apply Z.div_lt_upper_bound; lia|apply sha256_ok|done| |right; by apply Exists_cons_tl].
    rewrite Ht in Hp by lia. destruct (decide (node_input (node / 2) l r = node_input (node / 2) (tree (2 * (node / 2))) (tree (2 * (node / 2) + 1)))) as [Hi|Hi].
    - apply node_input_inj in Hi as [? ?]; [left; by apply Hlr2|].
      destruct (Hd (2 * (node / 2))) as [Hx _]; [lia|]. unfold lenZ in *. lia.
    - right. apply Exists_cons_hd. by split. }
  destruct (sibling_cases node ltac:(lia)) as [(-> & E1 & E2)|(-> & E1 & E2)]; apply Hstep; try done; try (by apply Hh).
  - intros -> _. by rewrite <-E1.
  - intros _ ->. by rewrite <-E1.
Qed.

End Loops.

(** ** Reads, writes and the contract *)

Section Lawful.
Context {S H : Type} `{LawfulPageStore S} `{LawfulPageStore H} `{HashLaws}.
Local Abbreviation TS := (TieredMerklePageStore S H).

Definition tiered_content (s : TS) : Z -> bytes := ps_content (tm_inner s).
Definition tiered_auth (s : TS) (f : Z -> bytes) : Prop :=
  hash_tree (tm_store_id s) (tm_page_size s) (tm_page_count s) (tm_leaf_base s) f (stored s).
Definition tiered_ok (s : TS) : Prop := tiered_shape s /\ tiered_auth s (tiered_content s).
Local Abbreviation next := (page_next tiered_ok tm_page_size tm_page_count tiered_content).
Local Abbreviation climb_of s i page :=
  (climb 64 (tm_trusted_node_limit s) (stored s) (tm_leaf_base s + i) (hash_leaf (tm_store_id s) i page)).

Lemma tiered_check_ok (s : TS) i len :
  in_range (tm_page_count s) i -> len = tm_page_size s -> check_page tm_page_size tm_page_count i len s = (Ok tt, s).
Proof.
  intros Hi ->. unfold check_page. rewrite bind_gets, bind_guardm, bind_gets. destruct Hi.
  rewrite (proj2 (Z.leb_gt _ _)) by lia. cbn [negb]. unfold guardm. by rewrite Z.eqb_refl.
Qed.

Lemma tiered_shape_inner (s : TS) inner' : tiered_shape s -> ps_ok inner' ->
  ps_page_size inner' = ps_page_size (tm_inner s) -> ps_page_count inner' = ps_page_count (tm_inner s) ->
  tiered_shape (set_tm_inner inner' s).
Proof. intros [] ? ? ?. split; cbn; congruence || done. Qed.

Lemma climb_digest fuel limit h node cur : digest_ok cur -> digest_ok (climb fuel limit h node cur).2.2.
Proof.
  revert node cur. induction fuel as [|fuel IH]; intros node cur Hc; [done|].
  destruct (limit <=? node) eqn:E; [|by cbn [climb]; rewrite E].
  rewrite climb_top by done. apply IH, parent_hash_ok.
Qed.

Lemma climb_complete fuel limit h node base : 2 <= limit -> 0 < node < 2 * base ->
  (forall n, 1 <= n < base -> node_hashed h n) ->
  (climb fuel limit h node (h node)).2.2 = h (climb fuel limit h node (h node)).2.1.
Proof.
  intros Hlim Hn Hh. revert node Hn. induction fuel as [|fuel IH]; intros node Hn; [done|].
  destruct (limit <=? node) eqn:E; [|by cbn [climb]; rewrite E].
  rewrite climb_top by done. zbool. destruct (sibling_range node base) as [Hsib Hpar]; [lia|].
  rewrite parent_hash_children by lia. rewrite <-(Hh (node / 2)) by lia. apply IH. lia.
Qed.

(** A read accepts the served page when its climb ends on the trusted hash. *)
Lemma tiered_read_exact (s : TS) i out :
  tiered_shape s -> in_range (tm_page_count s) i -> lenZ out = tm_page_size s ->
  (forall n, 1 <= n < tm_trusted_node_limit s -> digest_ok (stored s n)) ->
  let '(_, (top, c)) := climb_of s i (tiered_content s i) in
  exists inner' s', ps_next (tm_inner s) (tiered_content s) inner' /\ same_pages (set_tm_inner inner' s) s' /\
    (forall m, 1 <= m < 2 * tm_leaf_base s -> stored s' m = stored s m) /\
    1 <= top < tm_trusted_node_limit s /\
    tiered_read_page i out s =
      (if decide (c = stored s top) then Ok (tiered_content s i)
       else Err (InvalidInput "Merkle page authentication failed for page {}"), s').
Proof.
  intros Hs Hi Ho Hd. destruct (tiered_pos s Hs) as (_ & _ & _ & Hlim & _).
  destruct (ps_read_page_ok (tm_inner s) i out (ts_inner s Hs)) as (inner' & E & Hn);
    [by rewrite <-(ts_count s Hs)|by rewrite <-(ts_size s Hs)|].
  pose proof Hn as (Hok & Hsz & Hc & _).
  pose proof (tiered_shape_inner s inner' Hs Hok Hsz Hc) as Hs1. set (s1 := set_tm_inner inner' s) in *.
  pose proof (ts_base s Hs) as Hb. unfold in_range in Hi. 
  destruct (verify_loop_ok 64 (tm_leaf_base s + i) (hash_leaf (tm_store_id s) i (tiered_content s i)) s1 Hs1)
    as (s2 & E2 & Hp & Ht & Hst & Htop); [cbn; lia| |].
  { change (2 ^ Z.of_nat 65) with 36893488147419103232. change (2 ^ 62) with 4611686018427387904 in Hb. lia. }
  change (stored s1) with (stored s) in *. change (tm_trusted_node_limit s1) with (tm_trusted_node_limit s) in *.
  pose proof (climb_digest 64 (tm_trusted_node_limit s) (stored s) (tm_leaf_base s + i) _ (hash_leaf_ok (tm_store_id s) i (tiered_content s i))) as Hcd.
  destruct (climb_of s i (tiered_content s i)) as [inputs [top c]]. cbn [fst snd] in *.
  exists inner', s2. split_and!; [done|done|exact Hst|lia|lia|].
  unfold tiered_read_page. rewrite (bind_eq _ _ _ _ _ (tiered_check_ok s i _ Hi Ho)).
  erewrite bind_eq by (by apply zoom_eq). rewrite bind_gets. change (tm_store_id s1) with (tm_store_id s).
  fold (tiered_content s) in *. unfold verify_page_hash.
  unfold bind at 1. rewrite bind_gets. rewrite (bind_eq _ _ _ _ _ E2), bind_gets. cbn [fst snd].
  rewrite Ht. change (tm_trusted_hashes s1) with (tm_trusted_hashes s).
  rewrite hash_at_index by (rewrite (ts_trusted s Hs); lia). rewrite bind_lift.
  assert (hash_at (tm_trusted_hashes s) top = stored s top) as -> by (unfold stored; by rewrite (proj2 (Z.ltb_lt _ _)) by lia).
  rewrite digest_eq by (done || by apply Hd). unfold guardm.
  case_decide; [by rewrite bool_decide_eq_true_2|by rewrite bool_decide_eq_false_2].
Qed.

(** A write recomputes the ancestors from whatever hashes are stored. *)
Lemma tiered_write_exact (s : TS) i page :
  tiered_shape s -> in_range (tm_page_count s) i -> page_ok (tm_page_size s) page ->
  exists inner' s', ps_next (tm_inner s) (page_upd i page (tiered_content s)) inner' /\ same_pages (set_tm_inner inner' s) s' /\
    (forall m, 1 <= m < 2 * tm_leaf_base s -> stored s' m =
       up_path 64 (tm_leaf_base s + i) (page_upd (tm_leaf_base s + i) (hash_leaf (tm_store_id s) i page) (stored s)) m) /\
    tiered_write_page i page s = (Ok tt, s').
Proof.
  intros Hs Hi Hp. pose proof (ts_base s Hs) as Hb. 
  destruct (ps_write_page_ok (tm_inner s) i page (ts_inner s Hs)) as (inner' & E & Hn);
    [by rewrite <-(ts_count s Hs)|by rewrite <-(ts_size s Hs)|].
  pose proof Hn as (Hok & Hsz & Hc & _).
  pose proof (tiered_shape_inner s inner' Hs Hok Hsz Hc) as Hs1. set (s1 := set_tm_inner inner' s) in *.
  set (lh := hash_leaf (tm_store_id s) i page). pose proof Hi as Hi'. unfold in_range in Hi'.
  destruct (write_hash_ok s1 (tm_leaf_base s + i) lh Hs1) as (s2 & E2 & Hp2 & Hst2); [cbn; lia|apply hash_leaf_ok|].
  pose proof (same_pages_shape s1 s2 Hs1 Hp2) as Hs2.
  assert (tm_leaf_base s2 = tm_leaf_base s) as Hb2 by (destruct Hp2 as (? & ? & -> & _); done).
  change (tm_leaf_base s1) with (tm_leaf_base s) in *. change (stored s1) with (stored s) in *.
  destruct (update_hash_loop_ok 64 (tm_leaf_base s + i) s2 Hs2) as (s3 & E3 & Hp3 & Hst3); [lia| |].
  { change (2 ^ Z.of_nat 65) with 36893488147419103232. change (2 ^ 62) with 4611686018427387904 in Hb. lia. }
  rewrite Hst2, page_upd_eq in E3 by lia.
  exists inner', s3. split_and!; [done|by eapply same_pages_trans| |].
  - intros m Hm. rewrite Hst3 by lia. apply (up_path_ext (tm_leaf_base s)); [lia| |done]. intros n Hnr. by apply Hst2.
  - unfold tiered_write_page. rewrite (bind_eq _ _ _ _ _ (tiered_check_ok s i _ Hi (proj1 Hp))).
    erewrite bind_eq by (by apply zoom_eq). rewrite bind_gets. unfold update_page_hash. rewrite bind_gets.
    by rewrite (bind_eq _ _ _ _ _ E2).
Qed.

Lemma same_pages_fields (s s' : TS) : same_pages s s' -> tm_inner s' = tm_inner s /\ tm_page_size s' = tm_page_size s /\
  tm_page_count s' = tm_page_count s /\ tm_leaf_base s' = tm_leaf_base s /\ tm_store_id s' = tm_store_id s /\
  tm_trusted_node_limit s' = tm_trusted_node_limit s.
Proof. by intros (hs & l & -> & _). Qed.

(** After a step that leaves the tree of the new pages, the store is good. *)
Lemma tiered_next (s s' : TS) inner' f :
  tiered_shape s -> ps_next (tm_inner s) f inner' -> same_pages (set_tm_inner inner' s) s' ->
  hash_tree (tm_store_id s) (tm_page_size s) (tm_page_count s) (tm_leaf_base s) f (stored s') -> next s f s'.
Proof.
  intros Hs (Hok & Hsz & Hc & Hj) Hp Ht. destruct (same_pages_fields _ _ Hp) as (Hi & H1' & H2' & H3' & H4' & _).
  cbn in Hi, H1', H2', H3', H4'. rewrite <-(ts_count s Hs) in Hj. destruct (tiered_pos s Hs) as (_ & _ & Hb & _).
  assert (forall j, in_range (tm_page_count s) j -> tiered_content s' j = f j) as Hf.
  { intros j Hjr. unfold tiered_content. rewrite Hi. by apply Hj. }
  split; [split|split; [done|split; [done|exact Hf]]].
  - eapply same_pages_shape; [|exact Hp]. by apply tiered_shape_inner.
  - unfold tiered_auth. rewrite H1', H2', H3', H4'. eapply hash_tree_ext; [|done|lia|exact Ht].
    intros j Hjr. symmetry. by apply Hf.
Qed.

Lemma tiered_auth_digest (s : TS) f : tiered_shape s -> tiered_auth s f ->
  forall n, 1 <= n < 2 * tm_leaf_base s -> digest_ok (stored s n).
Proof. intros Hs Ha n Hn. destruct (tiered_pos s Hs) as (_ & _ & Hb & _). eapply hash_tree_ok; [exact Ha|lia|lia]. Qed.

Lemma tiered_read_page_ok (s : TS) i out :
  tiered_ok s -> in_range (tm_page_count s) i -> lenZ out = tm_page_size s ->
  exists s', tiered_read_page i out s = (Ok (tiered_content s i), s') /\ next s (tiered_content s) s'.
Proof.
  intros [Hs Ha] Hi Ho. destruct (tiered_pos s Hs) as (_ & _ & Hb & Hlim & _).
  pose proof (tiered_read_exact s i out Hs Hi Ho) as Hx.
  pose proof (ts_base s Hs) as Hb2. unfold in_range in Hi.
  assert (hash_leaf (tm_store_id s) i (tiered_content s i) = stored s (tm_leaf_base s + i)) as El.
  { destruct Ha as [Hl _]. rewrite Hl by lia. unfold leaf_hash. by rewrite (proj2 (Z.ltb_lt _ _)) by lia. }
  rewrite El in Hx. pose proof (climb_complete 64 (tm_trusted_node_limit s) (stored s) (tm_leaf_base s + i) (tm_leaf_base s)
    ltac:(lia) ltac:(lia) (proj2 Ha)) as Hc.
  destruct (climb _ _ _ _ _) as [inputs [top c]]. cbn [fst snd] in Hc. destruct Hx as (inner' & s' & Hn & Hp & Hst & Htop & E).
  { intros n Hn. eapply tiered_auth_digest; [done|exact Ha|lia]. }
  rewrite decide_True in E by done. exists s'. split; [done|]. apply (tiered_next s s' inner'); [done..|].
  eapply hash_tree_ext; [done| |lia|exact Ha]. intros n Hnr. symmetry. by apply Hst.
Qed.

Lemma tiered_write_page_ok (s : TS) i page :
  tiered_ok s -> in_range (tm_page_count s) i -> page_ok (tm_page_size s) page ->
  exists s', tiered_write_page i page s = (Ok tt, s') /\ next s (page_upd i page (tiered_content s)) s'.
Proof.
  intros [Hs Ha] Hi Hp. destruct (tiered_write_exact s i page Hs Hi Hp) as (inner' & s' & Hn & Hsp & Hst & E).
  exists s'. split; [done|]. apply (tiered_next s s' inner'); [done..|]. destruct (tiered_pos s Hs) as (_ & _ & Hb & _).
  pose proof (ts_base s Hs) as Hb2. eapply hash_tree_ext; [done| |lia|].
  - intros n Hnr. symmetry. by apply Hst.
  - apply up_path_tree; [exact Ha|lia|exact Hi|lia|].
    change (2 ^ Z.of_nat 65) with 36893488147419103232. change (2 ^ 62) with 4611686018427387904 in Hb2. lia.
Qed.

Lemma tiered_flush_ok (s : TS) :
  tiered_ok s -> exists s', tiered_flush s = (Ok tt, s') /\ next s (tiered_content s) s'.
Proof.
  intros [Hs Ha]. destruct (ps_flush_ok (tm_inner s) (ts_inner s Hs)) as (inner' & E & Hn).
  destruct (ps_flush_ok (tm_hash_store s) (ts_hash_store s Hs)) as (hs & E2 & Hok & Hsz & Hc & Hj).
  exists (set_tm_hash_store hs (set_tm_inner inner' s)). split.
  { unfold tiered_flush. erewrite bind_eq by (by apply zoom_eq). by apply zoom_eq. }
  apply (tiered_next s _ inner'); [done|done| |].
  - exists hs, (tm_trusted_hashes s). by split_and!.
  - destruct (tiered_pos s Hs) as (_ & _ & Hb & _). eapply hash_tree_ext; [done| |lia|exact Ha].
    intros n Hnr. unfold stored. cbn. case_match eqn:En; [done|]. zbool. unfold disk_hash. cbn. f_equal.
    symmetry. apply Hj. apply disk_slot; [done|lia].
Qed.

Lemma tiered_content_ok (s : TS) i :
  tiered_ok s -> in_range (tm_page_count s) i -> page_ok (tm_page_size s) (tiered_content s i).
Proof.
  intros [Hs _] Hr. rewrite (ts_size s Hs). apply ps_content_ok; [apply Hs|by rewrite <-(ts_count s Hs)].
Qed.

Lemma tiered_dims_ok (s : TS) : tiered_ok s -> 0 < tm_page_size s /\ 0 < tm_page_count s.
Proof. intros [Hs _]. destruct (tiered_pos s Hs) as (? & ? & ?). done. Qed.

#[export] Instance tiered_lawful : LawfulPageStore TS := {|
  ps_ok := tiered_ok;
  ps_content := tiered_content;
  ps_content_ok := tiered_content_ok;
  ps_dims_ok := tiered_dims_ok;
  ps_read_page_ok := tiered_read_page_ok;
  ps_write_page_ok := tiered_write_page_ok;
  ps_read_pages_ok := default_read_pages_ok tiered_read_page (fun s Hs => proj1 (tiered_dims_ok s Hs)) tiered_read_page_ok;
  ps_write_pages_ok := default_write_pages_ok tiered_write_page tiered_write_page_ok;
  ps_flush_ok := tiered_flush_ok
|}.

End Lawful.

(** ** Building and reopening *)

Section Build.
Context {S H : Type} `{LawfulPageStore S} `{LawfulPageStore H} `{HashLaws}.
Local Abbreviation TS := (TieredMerklePageStore S H).

(** [s] is [s0] after reads of its pages and writes of its hashes. *)
Definition rebuilding (s0 s : TS) : Prop :=
  same_pages (set_tm_inner (tm_inner s) s0) s /\ ps_next (tm_inner s0) (tiered_content s0) (tm_inner s).

Lemma rebuilding_shape s0 s : tiered_shape s0 -> rebuilding s0 s -> tiered_shape s.
Proof.
  intros Hs [Hp (Hok & Hsz & Hc & _)]. eapply same_pages_shape; [|exact Hp]. by apply tiered_shape_inner.
Qed.

Lemma rebuilding_refl s0 : tiered_shape s0 -> rebuilding s0 s0.
Proof.
  intros Hs. split; [|unfold tiered_content; apply page_next_refl, Hs]. destruct s0. by apply same_pages_refl.
Qed.

Lemma rebuilding_same s0 s s' : rebuilding s0 s -> same_pages s s' -> rebuilding s0 s'.
Proof.
  intros [Hp Hn] Hp'. assert (tm_inner s' = tm_inner s) as Hi by (by destruct Hp' as (? & ? & -> & _)).
  split; [rewrite Hi; by eapply same_pages_trans|by rewrite Hi].
Qed.

Lemma rebuilding_fields s0 s : rebuilding s0 s -> tm_page_size s = tm_page_size s0 /\
  tm_page_count s = tm_page_count s0 /\ tm_leaf_base s = tm_leaf_base s0 /\ tm_store_id s = tm_store_id s0.
Proof. intros [Hp _]. destruct (same_pages_fields _ _ Hp) as (_ & ? & ? & ? & ? & _). done. Qed.

Local Abbreviation leaf s0 := (leaf_hash (tm_store_id s0) (tm_page_size s0) (tm_page_count s0) (tiered_content s0)).

Lemma rebuild_leaf_ok (s0 s : TS) page i : tiered_shape s0 -> rebuilding s0 s -> lenZ page = tm_page_size s0 ->
  0 <= i < tm_leaf_base s0 ->
  exists page' s', rebuild_leaf page i s = (Ok page', s') /\ rebuilding s0 s' /\ lenZ page' = tm_page_size s0 /\
    forall m, 1 <= m < 2 * tm_leaf_base s0 -> stored s' m = page_upd (tm_leaf_base s0 + i) (leaf s0 i) (stored s) m.
Proof.
  intros Hs0 Hr Hp Hi. pose proof (rebuilding_fields s0 s Hr) as (F1 & F2 & F3 & F4).
  unfold rebuild_leaf. rewrite bind_gets, F1, F2, F3, F4.
  assert (exists page' s1, (if i <? tm_page_count s0
    then let* page := on_tm_inner (ps_read_page i page) in ret (hash_leaf (tm_store_id s0) i page, page)
    else ret (hash_empty_leaf (tm_store_id s0) i (tm_page_size s0), page)) s = (Ok (leaf s0 i, page'), s1) /\
    rebuilding s0 s1 /\ lenZ page' = tm_page_size s0 /\ stored s1 = stored s) as (page' & s1 & E & Hr1 & Hp' & Hst).
  { unfold leaf_hash. destruct (i <? tm_page_count s0) eqn:Ei; zbool; [|by exists page, s].
    pose proof Hr as [Hsp (Hok & Hsz & Hc & Hj)]. pose proof (ts_count s0 Hs0) as Hcnt. pose proof (ts_size s0 Hs0) as Hsize.
    destruct (ps_read_page_ok (tm_inner s) i page Hok) as (inner' & Er & Hn); [split; lia|congruence|].
    exists (ps_content (tm_inner s) i), (set_tm_inner inner' s).
    erewrite bind_eq by (by apply zoom_eq). rewrite Hj by (split; lia). split_and!; [done| | |done].
    - split; cbn.
      + destruct Hsp as (hs & l & Heq & Hx). exists hs, l. split; [|exact Hx]. rewrite Heq. by destruct s0.
      + apply (page_next_trans _ (tiered_content s0) (tm_inner s)); [done|]. eapply page_next_ext; [|exact Hn].
        intros j Hjr. apply Hj. by rewrite <-Hc.
    - unfold tiered_content. rewrite Hsize. apply ps_content_ok; [apply Hs0|split; lia]. }
  rewrite (bind_eq _ _ _ _ _ E). cbn [fst snd]. pose proof (rebuilding_shape s0 s1 Hs0 Hr1) as Hs1.
  pose proof (rebuilding_fields s0 s1 Hr1) as (_ & _ & G3 & _).
  destruct (write_hash_ok s1 (tm_leaf_base s0 + i) (leaf s0 i) Hs1) as (s2 & E2 & Hp2 & Hst2); [lia|apply leaf_hash_ok|].
  rewrite (bind_eq _ _ _ _ _ E2). exists page', s2. split_and!; [done|by eapply rebuilding_same|done|].
  intros m Hm. rewrite Hst2 by lia. by rewrite Hst.
Qed.

Lemma rebuild_node_ok (s0 s : TS) n : tiered_shape s0 -> rebuilding s0 s -> 1 <= n < tm_leaf_base s0 ->
  exists s', rebuild_node tt n s = (Ok tt, s') /\ rebuilding s0 s' /\
    forall m, 1 <= m < 2 * tm_leaf_base s0 ->
      stored s' m = page_upd n (hash_node n (stored s (2 * n)) (stored s (2 * n + 1))) (stored s) m.
Proof.
  intros Hs0 Hr Hn. pose proof (rebuilding_shape s0 s Hs0 Hr) as Hs.
  pose proof (rebuilding_fields s0 s Hr) as (_ & _ & F3 & _). unfold rebuild_node. rewrite (Z.mul_comm n 2).
  destruct (read_hash_ok s (2 * n) Hs) as (s1 & E1 & Hp1 & _ & Hst1); [lia|]. rewrite (bind_eq _ _ _ _ _ E1).
  pose proof (rebuilding_same s0 s s1 Hr Hp1) as Hr1. pose proof (rebuilding_shape s0 s1 Hs0 Hr1) as Hs1.
  pose proof (rebuilding_fields s0 s1 Hr1) as (_ & _ & G3 & _).
  destruct (read_hash_ok s1 (2 * n + 1) Hs1) as (s2 & E2 & Hp2 & _ & Hst2); [lia|]. rewrite (bind_eq _ _ _ _ _ E2).
  pose proof (rebuilding_same s0 s1 s2 Hr1 Hp2) as Hr2. pose proof (rebuilding_shape s0 s2 Hs0 Hr2) as Hs2.
  pose proof (rebuilding_fields s0 s2 Hr2) as (_ & _ & K3 & _).
  destruct (write_hash_ok s2 n (hash_node n (stored s (2 * n)) (stored s1 (2 * n + 1))) Hs2) as (s3 & E3 & Hp3 & Hst3);
    [lia|apply sha256_ok|].
  exists s3. split_and!; [done|by eapply rebuilding_same|]. intros m Hm. rewrite Hst3 by lia.
  rewrite (Hst1 (2 * n + 1)) by lia. unfold page_upd. case_match; [done|]. rewrite Hst2, Hst1 by lia. done.
Qed.

(** One level of the second loop; [level_done l s]: the levels from [l] on are hashed. *)
Definition leaves_set (s0 s : TS) : Prop := forall i, 0 <= i < tm_leaf_base s0 -> stored s (tm_leaf_base s0 + i) = leaf s0 i.

Lemma rebuild_level_ok (s0 s : TS) level : tiered_shape s0 -> rebuilding s0 s -> leaves_set s0 s ->
  0 <= level -> 2 ^ (level + 1) <= tm_leaf_base s0 ->
  (forall n, 2 ^ (level + 1) <= n < tm_leaf_base s0 -> node_hashed (stored s) n) ->
  exists s', foldM rebuild_node tt (seqZ (2 ^ level) (2 ^ (level + 1) - 2 ^ level)) s = (Ok tt, s') /\
    rebuilding s0 s' /\ leaves_set s0 s' /\
    forall n, 2 ^ level <= n < tm_leaf_base s0 -> node_hashed (stored s') n.
Proof.
  intros Hs0 Hr Hlv Hl Hb Hdone. pose proof (Z.pow_pos_nonneg 2 level ltac:(lia) Hl) as Hpos.
  rewrite Z.pow_add_r in * by lia. change (2 ^ 1) with 2 in *. set (w := 2 ^ level) in *. clearbody w.
  destruct (foldM_inv (fun before (_ : unit) s => rebuilding s0 s /\ leaves_set s0 s /\
    (forall n, w * 2 <= n < tm_leaf_base s0 -> node_hashed (stored s) n) /\
    forall n, w <= n < w + lenZ before -> node_hashed (stored s) n)
    rebuild_node (seqZ w (w * 2 - w)) tt s) as ([] & s' & E & Hr' & Hlv' & Hup & Hlow).
  - intros before x after [] s1 El (Hr1 & Hlv1 & Hup & Hlow). apply seqZ_split in El as [Hx Hxr].
    destruct (rebuild_node_ok s0 s1 x Hs0 Hr1) as (s2 & E & Hr2 & Hst); [lia|]. exists tt, s2. split; [done|].
    pose proof (lenZ_nonneg before). split_and!; [done| | |].
    + intros i Hi. rewrite Hst, page_upd_ne by lia. by apply Hlv1.
    + intros n Hn. unfold node_hashed. rewrite !Hst, !page_upd_ne by lia. by apply Hup.
    + intros n. rewrite lenZ_app. change (lenZ [x]) with 1. intros Hn. unfold node_hashed.
      destruct (decide (n = x)) as [->|Hne]; rewrite !Hst by lia.
      * by rewrite page_upd_eq, !page_upd_ne by lia.
      * rewrite !page_upd_ne by lia. apply Hlow. lia.
  - split_and!; [done|done|done|]. unfold lenZ. cbn [length]. lia.
  - exists s'. split_and!; [done|done|done|]. intros n Hn. destruct (decide (n < w * 2)); [|apply Hup; lia].
    apply Hlow. unfold lenZ. rewrite length_seqZ. lia.
Qed.


Lemma rebuild_hashes_ok (s0 : TS) : tiered_shape s0 ->
  exists s, rebuild_hashes s0 = (Ok tt, s) /\ rebuilding s0 s /\ tiered_ok s.
Proof.
  intros Hs0. destruct (tiered_pos s0 Hs0) as (Hsz & _ & Hb & _). destruct (ts_pow2 s0 Hs0) as (k & Hk & Hbk).
  unfold rebuild_hashes. rewrite bind_gets.
  destruct (foldM_inv (fun before page s => rebuilding s0 s /\ lenZ page = tm_page_size s0 /\
    forall i, 0 <= i < lenZ before -> stored s (tm_leaf_base s0 + i) = leaf s0 i)
    rebuild_leaf (seqZ 0 (tm_leaf_base s0)) (zeros (tm_page_size s0)) s0) as (page & s1 & E & Hr1 & _ & Hlv).
  - intros before x after page s El (Hr & Hp & Hlv). apply seqZ_split in El as [Hx Hxr].
    destruct (rebuild_leaf_ok s0 s page x Hs0 Hr Hp) as (page' & s' & E & Hr' & Hp' & Hst); [lia|].
    exists page', s'. split_and!; [done|done|done|]. intros i. rewrite lenZ_app. change (lenZ [x]) with 1. intros Hi.
    rewrite Hst by lia. unfold page_upd. destruct (_ =? _) eqn:Ei; zbool; [f_equal; lia|]. apply Hlv. lia.
  - split_and!; [by apply rebuilding_refl|apply lenZ_zeros; lia|]. unfold lenZ. cbn [length]. lia.
  - rewrite (bind_eq _ _ _ _ _ E). assert (tm_height s0 = k) as -> by (unfold tm_height; rewrite Hbk; by apply pow2_facts).
    assert (leaves_set s0 s1) as Hlv1.
    { intros i Hi. apply Hlv. unfold lenZ. rewrite length_seqZ. lia. }
    destruct (foldM_inv (fun before (_ : unit) s => rebuilding s0 s /\ leaves_set s0 s /\
      forall n, 2 ^ (k - lenZ before) <= n < tm_leaf_base s0 -> node_hashed (stored s) n)
      (fun _ level => foldM rebuild_node tt (seqZ (2 ^ level) (2 ^ (level + 1) - 2 ^ level)))
      (reverse (seqZ 0 k)) tt s1) as ([] & s2 & E2 & Hr2 & Hlv2 & Hn2).
    + intros before level after [] s El (Hr & Hl & Hn). apply seqZ_reverse_split in El as (Hx & Hxr & _).
      destruct (rebuild_level_ok s0 s level Hs0 Hr Hl) as (s' & E' & Hr' & Hl' & Hn'); [lia| | |].
      * rewrite Hbk. apply Z.pow_le_mono_r; lia.
      * intros n Hnr. apply Hn. by replace (k - lenZ before) with (level + 1) by lia.
      * exists tt, s'. split_and!; [done|done|done|]. intros n. rewrite lenZ_app. change (lenZ [level]) with 1.
        replace (k - (lenZ before + 1)) with level by lia. apply Hn'.
    + split_and!; [done|done|]. change (lenZ []) with 0. rewrite Z.sub_0_r, Hbk. lia.
    + exists s2. split; [exact E2|]. split; [done|]. pose proof (rebuilding_shape s0 s2 Hs0 Hr2) as Hs2. split; [done|].
      destruct (rebuilding_fields s0 s2 Hr2) as (F1 & F2 & F3 & F4). unfold tiered_auth. rewrite F1, F2, F3, F4.
      destruct Hr2 as [_ (_ & _ & _ & Hj)]. rewrite <-(ts_count s0 Hs0) in Hj.
      apply (hash_tree_ext _ _ _ _ (tiered_content s0) _ (stored s2)); [intros i Hi; symmetry; by apply Hj|done|lia|].
      split; [exact Hlv2|]. intros n Hn. apply Hn2. unfold lenZ. rewrite length_reverse, length_seqZ.
      replace (k - Z.of_nat (Z.to_nat k)) with 0 by lia. cbn. lia.
Qed.

(** The dimension checks shared by [required_hash_pages], [build] and
    [from_trusted_state]. *)
Lemma required_hash_pages_Ok count hsize levels n :
  required_hash_pages count hsize levels = Ok n -> 0 < count <= 2 ^ 62 -> 0 <= levels ->
  exists base limit per_page, leaf_base_for_page_count count = Ok base /\ trusted_node_limit base levels = Ok limit /\
    hashes_per_page hsize = Ok per_page /\ pages_for_hash_nodes (disk_hash_nodes base limit) per_page = n /\
    count <= base <= 2 ^ 62 /\ (exists k, 0 <= k /\ base = 2 ^ k) /\ 0 < levels <= trailing_zeros base + 1 /\
    limit = 2 ^ levels /\ per_page = hsize / 32 /\ 32 <= hsize /\ disk_hash_nodes base limit = base * 2 - limit.
Proof.
  intros E Hc Hlv. unfold required_hash_pages, leaf_base_for_page_count, trusted_node_limit, hashes_per_page in *.
  rewrite (proj2 (Z.eqb_neq count 0)) in * by lia.
  destruct (next_power_of_two_total count ltac:(lia)) as (k & Hk & Hb & Hle). rewrite Hb in *. cbn [ok_or obind] in *.
  rewrite (proj2 (pow2_facts k ltac:(lia))) in *.
  destruct (_ || _) eqn:E1; [done|]. apply orb_false_iff in E1 as [? ?].
  destruct (levels <? 64) eqn:E2; [|done]. cbn [obind] in *. destruct (hsize <? 32) eqn:E3; [done|]. cbn [obind] in *.
  zbool. injection E as E. assert (2 ^ k <= 2 ^ 62) by (apply Z.pow_le_mono_r; lia).
  assert (2 ^ levels <= 2 ^ (k + 1)) by (apply Z.pow_le_mono_r; lia).
  pose proof (Z.pow_pos_nonneg 2 levels ltac:(lia) Hlv). rewrite Z.pow_add_r in * by lia.
  exists (2 ^ k), (2 ^ levels), (hsize / 32). rewrite (proj2 (pow2_facts k ltac:(lia))).
  split_and!; try done; try lia.
  { rewrite (proj2 (Z.eqb_neq _ _)), (proj2 (Z.ltb_ge _ _)) by lia. done. }
  { exists k. lia. }
  unfold disk_hash_nodes. apply wrap_small. change (2 ^ 64) with 18446744073709551616.
  change (2 ^ 62) with 4611686018427387904 in *. lia.
Qed.

Lemma tiered_build_ok (inner : S) (hash_store : H) store_id levels n :
  ps_ok inner -> ps_ok hash_store -> ps_page_count inner <= 2 ^ 62 -> 0 <= levels ->
  required_hash_pages (ps_page_count inner) (ps_page_size hash_store) levels = Ok n ->
  n <= ps_page_count hash_store ->
  exists s, tiered_build inner hash_store store_id levels = Ok s /\ tiered_ok s /\ tm_store_id s = store_id /\
    tm_page_size s = ps_page_size inner /\ tm_page_count s = ps_page_count inner /\
    (forall i, in_range (ps_page_count inner) i -> tiered_content s i = ps_content inner i) /\
    from_trusted_state (tm_inner s) (tm_hash_store s) (trusted_state s) = Ok s.
Proof.
  intros Hi Hh Hc Hlv Hreq Hn. destruct (ps_dims_ok inner Hi) as [Hsz Hcp].
  destruct (required_hash_pages_Ok _ _ _ _ Hreq ltac:(lia) Hlv)
    as (base & limit & per_page & E1 & E2 & E3 & E4 & Hb & Hp2 & Hlev & Hlim & Hpp & H32 & Hnodes).
  unfold tiered_build. rewrite !(proj2 (Z.eqb_neq _ _)) by lia. cbn [orb]. rewrite E1. cbn [obind]. rewrite E2. cbn [obind].
  rewrite E3. cbn [obind]. rewrite E4. rewrite (proj2 (Z.ltb_ge _ _)) by lia. set (s0 := mkTiered _ _ _ _ _ _ _ _ _ _ _).
  assert (tiered_shape s0) as Hs0.
  { split; cbn; try done; [unfold pages_for_hash_nodes in E4; lia|].
    unfold lenZ. rewrite length_replicate. rewrite Hlim. apply Z2Nat.id. apply Z.pow_nonneg. lia. }
  destruct (rebuild_hashes_ok s0 Hs0) as (s & -> & Hr & Hok). cbn [obind]. exists s. split; [done|]. split; [done|].
  destruct (rebuilding_fields s0 s Hr) as (F1 & F2 & F3 & F4). pose proof Hr as [Hsp (Hok' & Hsz' & Hc' & Hj)].
  split_and!; [done|done|done|exact Hj|].
  destruct Hsp as (hs & l & Es & Hhs & Hhsz & Hhc & Hl). rewrite Es. unfold from_trusted_state, trusted_state.
  cbn in Hsz', Hc', Hhsz, Hhc, Hl. cbn [tm_inner tm_hash_store tm_page_count tm_page_size tm_store_id tm_trusted_levels
    tm_trusted_hashes set_tm_inner set_tm_hash_store set_tm_trusted s0 tms_page_count tms_page_size tms_hash_page_size
    tms_trusted_levels tms_trusted_hashes tms_store_id].
  rewrite Hc', Hsz', !Z.eqb_refl. cbn [negb]. rewrite E1. cbn [obind]. rewrite E2. cbn [obind].
  assert (lenZ l = limit) as -> by (rewrite Hl; apply (ts_trusted s0 Hs0)). rewrite Z.eqb_refl. cbn [negb]. rewrite Hhsz, E3. cbn [obind].
  rewrite Hhc, E4, (proj2 (Z.ltb_ge _ _)) by lia. done.
Qed.

End Build.

(** ** Properties *)

Section Properties.
Context {S H : Type} `{LawfulPageStore S} `{LawfulPageStore H} `{HashLaws}.
Local Abbreviation TS := (TieredMerklePageStore S H).

(** Building over any data pages succeeds when the hash store has the pages
    [required_hash_pages] asks for; the store then reads back the pages it was
    built over, a written page reads back, and the trusted state of the result
    reopens it from its two parts. *)
Theorem tiered_build_correct (inner : S) (hash_store : H) store_id levels n i page out :
  ps_ok inner -> ps_ok hash_store -> ps_page_count inner <= 2 ^ 62 -> 0 <= levels ->
  required_hash_pages (ps_page_count inner) (ps_page_size hash_store) levels = Ok n ->
  in_range (ps_page_count inner) i -> page_ok (ps_page_size inner) page -> lenZ out = ps_page_size inner ->
  if ps_page_count hash_store <? n
  then tiered_build inner hash_store store_id levels = Err (InvalidInput "hash store has {} pages, need at least {}")
  else exists s s1 s2 s3, tiered_build inner hash_store store_id levels = Ok s /\
    from_trusted_state (tm_inner s) (tm_hash_store s) (trusted_state s) = Ok s /\
    tiered_read_page i out s = (Ok (ps_content inner i), s1) /\
    tiered_write_page i page s1 = (Ok tt, s2) /\ tiered_read_page i out s2 = (Ok page, s3).
Proof.
  intros Hi Hh Hc Hlv Hreq Hir Hp Ho. destruct (_ <? n) eqn:E; zbool.
  - destruct (ps_dims_ok inner Hi) as [Hsz Hcp].
    destruct (required_hash_pages_Ok _ _ _ _ Hreq ltac:(lia) Hlv) as (base & limit & per_page & E1 & E2 & E3 & E4 & _).
    unfold tiered_build. rewrite !(proj2 (Z.eqb_neq _ _)) by lia. cbn [orb]. rewrite E1. cbn [obind].
    rewrite E2. cbn [obind]. rewrite E3. cbn [obind]. rewrite E4. by rewrite (proj2 (Z.ltb_lt _ _)) by lia.
  - destruct (tiered_build_ok inner hash_store store_id levels n) as (s & Eb & Hok & _ & Hsz & Hcnt & Hf & Hre); [done..|].
    rewrite <-Hcnt in Hir. rewrite <-Hsz in Hp, Ho.
    destruct (tiered_read_page_ok s i out Hok Hir Ho) as (s1 & E1 & Hok1 & Hs1 & Hc1 & Hf1).
    destruct (tiered_write_page_ok s1 i page Hok1) as (s2 & E2 & Hok2 & Hs2 & Hc2 & Hf2); [by rewrite Hc1|by rewrite Hs1|].
    destruct (tiered_read_page_ok s2 i out Hok2) as (s3 & E3 & _); [by rewrite Hc2, Hc1|congruence|].
    exists s, s1, s2, s3. split_and!; [done|done| |done|].
    + rewrite E1, Hf by (by rewrite <-Hcnt). done.
    + rewrite E3, Hf2 by (by rewrite Hc1). by rewrite page_upd_eq.
Qed.

(** C14: when the trusted hashes are those of the tree [h] of the authentic pages
    [f], and whatever the host serves as pages and lower hashes, a read returns the
    authentic page, or refuses, or one of the inputs it hashed on the way to the
    trusted frontier collides with the input of the authentic tree there. *)
Theorem tiered_read_authentic (s : TS) f h i out :
  tiered_shape s -> hash_tree (tm_store_id s) (tm_page_size s) (tm_page_count s) (tm_leaf_base s) f h ->
  (forall n, 1 <= n < tm_trusted_node_limit s -> stored s n = h n) ->
  in_range (tm_page_count s) i -> lenZ out = tm_page_size s -> lenZ (f i) = tm_page_size s ->
  let id := tm_store_id s in
  let served := ps_content (tm_inner s) i in
  let inputs := (climb 64 (tm_trusted_node_limit s) (stored s) (tm_leaf_base s + i) (hash_leaf id i served)).1 in
  exists r s', tiered_read_page i out s = (r, s') /\
    (r = Err (InvalidInput "Merkle page authentication failed for page {}") \/
     r = Ok (f i) /\ served = f i \/
     r = Ok served /\ collision (leaf_input id i served) (leaf_input id i (f i)) \/
     r = Ok served /\ Exists (fun '(p, l, r) => collision (node_input p l r) (node_input p (h (2 * p)) (h (2 * p + 1)))) inputs).
Proof.
  intros Hs Ht Htop Hi Ho Hf id served. destruct (tiered_pos s Hs) as (_ & _ & Hb & Hlim & _).
  pose proof (ts_base s Hs) as Hb2. pose proof Hi as Hi'. unfold in_range in Hi'.
  assert (forall n, 1 <= n < 2 * tm_leaf_base s -> digest_ok (h n)) as Hd.
  { intros n Hn. eapply hash_tree_ok; [exact Ht|lia|lia]. }
  pose proof (tiered_read_exact s i out Hs Hi Ho) as Hx.
  pose proof (climb_sound 64 (tm_trusted_node_limit s) (stored s) h (tm_leaf_base s + i) (hash_leaf id i served) (tm_leaf_base s)
    ltac:(lia) ltac:(lia)) as Hc. change (tiered_content s i) with served in Hx.
  change (hash_leaf (tm_store_id s) i served) with (hash_leaf id i served) in Hx.
  destruct (climb _ _ _ _ _) as [inputs [top c]]. cbn [fst].
  destruct Hx as (inner' & s' & _ & _ & _ & Htr & E). { intros n Hn. rewrite Htop by lia. apply Hd. lia. }
  rewrite E. eexists _, s'. split; [done|]. case_decide as Ec; [|by left]. right.
  destruct Hc as [Hcur|Hex].
  - change (2 ^ Z.of_nat 65) with 36893488147419103232. change (2 ^ 62) with 4611686018427387904 in Hb2. lia.
  - apply Ht.
  - apply Hd.
  - intros n Hn. unfold stored. case_match eqn:En; zbool.
    + assert (stored s n = h n) as Hsn by (apply Htop; lia). unfold stored in Hsn. rewrite (proj2 (Z.ltb_lt _ _)) in Hsn by lia.
      rewrite Hsn. apply Hd. lia.
    + unfold disk_hash, window. destruct (disk_slot s n Hs) as (_ & Hr & Ho1 & Ho2); [lia|].
      destruct (ps_content_ok _ _ (ts_hash_store s Hs) Hr) as [Hl _]. unfold lenZ in *. rewrite length_take, length_drop. lia.
  - apply hash_leaf_ok.
  - rewrite Ec. apply Htop. lia.
  - destruct Ht as [Hl _]. rewrite Hl in Hcur by lia. unfold leaf_hash in Hcur. rewrite (proj2 (Z.ltb_lt _ _)) in Hcur by lia.
    destruct (decide (served = f i)) as [->|Hne]; [by left|]. right; left. split; [done|]. split; [|done].
    intros Hin. apply Hne. apply (leaf_input_inj id i); [|done]. rewrite Hf. unfold served.
    rewrite (ts_size s Hs). apply ps_content_ok; [apply Hs|]. by rewrite <-(ts_count s Hs).
  - by do 2 right.
Qed.

(** C32: a write does not verify the sibling hashes it reads from the hash store.
    If the host serves pages and lower hashes that are consistent off the path of
    page [i], for instance an old version of every other page with its old hashes,
    one write of page [i] makes the trusted hashes those of the served pages, and
    every served page then reads back as authentic. *)
Theorem tiered_write_adopts_served_hashes (s : TS) i page j out :
  tiered_shape s -> in_range (tm_page_count s) i -> page_ok (tm_page_size s) page ->
  in_range (tm_page_count s) j -> lenZ out = tm_page_size s ->
  (forall k, 0 <= k < tm_leaf_base s -> k <> i -> stored s (tm_leaf_base s + k) =
     leaf_hash (tm_store_id s) (tm_page_size s) (tm_page_count s) (ps_content (tm_inner s)) k) ->
  (forall n, 1 <= n < tm_leaf_base s -> (forall k : nat, n <> (tm_leaf_base s + i) / 2 ^ Z.of_nat (Datatypes.S k)) ->
     node_hashed (stored s) n) ->
  exists s1 s2, tiered_write_page i page s = (Ok tt, s1) /\
    tiered_read_page j out s1 = (Ok (if j =? i then page else ps_content (tm_inner s) j), s2).
Proof.
  intros Hs Hi Hp Hj Ho Hl Hn. destruct (tiered_pos s Hs) as (_ & _ & Hb & Hlim & _).
  pose proof (ts_base s Hs) as Hb2. pose proof Hi as Hi'. unfold in_range in Hi'.
  destruct (tiered_write_exact s i page Hs Hi Hp) as (inner' & s1 & Hnx & Hsp & Hst & E).
  assert (page_next tiered_ok tm_page_size tm_page_count tiered_content s (page_upd i page (tiered_content s)) s1)
    as (Hok1 & Hs1 & Hc1 & Hf1).
  { apply (tiered_next s s1 inner'); [done..|].
    eapply hash_tree_ext; [done|intros n Hnr; symmetry; by apply Hst|lia|].
    apply up_path_tree_leaf; [|exact Hn|lia|exact Hi|lia|].
    - intros k Hk Hne. rewrite Hl by done. done.
    - change (2 ^ Z.of_nat 65) with 36893488147419103232. change (2 ^ 62) with 4611686018427387904 in Hb2. lia. }
  destruct (tiered_read_page_ok s1 j out Hok1) as (s2 & E2 & _); [by rewrite Hc1|congruence|].
  exists s1, s2. split; [done|]. rewrite E2, Hf1 by done. done.
Qed.

End Properties.

(** ** Two data pages of one byte, one hash per hash page, only the root trusted *)

Definition tiered_hash_demo : MemPageStore := mkMem 32 (zeros 64).
Definition tiered_demo : TieredMerklePageStore MemPageStore MemPageStore :=
  mkTiered merkle_demo (mkMem 32 (hash_leaf [1; 2] 0 [7] ++ hash_leaf [1; 2] 1 [8])) [1; 2] 1 2 2 1 2 1 2
    [zeros 32; hash_node 1 (hash_leaf [1; 2] 0 [7]) (hash_leaf [1; 2] 1 [8])].

Lemma tiered_hash_demo_ok : ps_ok tiered_hash_demo.
Proof. split_and!; try done. apply zeros_ok. Qed.

Lemma tiered_demo_ok : tiered_ok tiered_demo.
Proof.
  destruct (tiered_build_ok merkle_demo tiered_hash_demo [1; 2] 1 2 merkle_demo_ok tiered_hash_demo_ok) as (s & E & Hok & _).
  - vm_compute. discriminate.
  - lia.
  - reflexivity.
  - vm_compute. discriminate.
  - assert (tiered_build merkle_demo tiered_hash_demo [1; 2] 1 = Ok tiered_demo) as E2 by (vm_compute; reflexivity).
    rewrite E2 in E. injection E as <-. exact Hok.
Qed.

Lemma tiered_build_correct_witness :
  exists s s1 s2 s3, tiered_build merkle_demo tiered_hash_demo [1; 2] 1 = Ok s /\
    from_trusted_state (tm_inner s) (tm_hash_store s) (trusted_state s) = Ok s /\
    tiered_read_page 1 [0] s = (Ok [8], s1) /\
    tiered_write_page 1 [9] s1 = (Ok tt, s2) /\ tiered_read_page 1 [0] s2 = (Ok [9], s3).
Proof.
  refine (tiered_build_correct merkle_demo tiered_hash_demo [1; 2] 1 2 1 [9] [0] merkle_demo_ok tiered_hash_demo_ok _ _ _ _ _ _).
  - vm_compute. discriminate.
  - lia.
  - reflexivity.
  - vm_compute. intuition discriminate.
  - split; [reflexivity|]. repeat constructor; vm_compute; intuition discriminate.
  - reflexivity.
Defined.

(** The host serves another page 0 with its matching leaf hash. *)
Definition tiered_forged : TieredMerklePageStore MemPageStore MemPageStore :=
  set_tm_hash_store (mkMem 32 (hash_leaf [1; 2] 0 [9] ++ hash_leaf [1; 2] 1 [8])) (set_tm_inner (mkMem 1 [9; 8]) tiered_demo).

Lemma tiered_forged_shape : tiered_shape tiered_forged.
Proof.
  destruct (proj1 tiered_demo_ok). split; cbn; try done.
  - split_and!; try done. repeat constructor; vm_compute; intuition discriminate.
  - split_and!; try done. apply Forall_app. split; apply hash_leaf_ok.
Qed.

Lemma tiered_read_authentic_witness :
  exists s', tiered_read_page 0 [0] tiered_forged = (Err (InvalidInput "Merkle page authentication failed for page {}"), s').
Proof.
  destruct (tiered_read_authentic tiered_forged (ps_content merkle_demo) (stored tiered_demo) 0 [0] tiered_forged_shape)
    as (r & s' & E & Hr).
  - exact (proj2 tiered_demo_ok).
  - intros n Hn. assert (n = 1) as -> by (cbn in Hn; lia). reflexivity.
  - vm_compute. intuition discriminate.
  - reflexivity.
  - reflexivity.
  - exists s'. destruct Hr as [->|Hr]; [exact E|]. exfalso. clear -E Hr.
    destruct Hr as [[-> _]|[[-> _]|[-> _]]]; vm_compute in E; discriminate.
Defined.

(** The owner overwrites page 1; the host serves its old version and its old leaf
    hash: the next read refuses it, but not after a write of page 0. *)
Definition tiered_rolled_back : TieredMerklePageStore MemPageStore MemPageStore :=
  set_tm_trusted [zeros 32; hash_node 1 (hash_leaf [1; 2] 0 [7]) (hash_leaf [1; 2] 1 [9])] tiered_demo.

Lemma tiered_rolled_back_shape : tiered_shape tiered_rolled_back.
Proof.
  apply (same_pages_shape tiered_demo); [exact (proj1 tiered_demo_ok)|].
  exists (tm_hash_store tiered_demo), (tm_trusted_hashes tiered_rolled_back).
  split_and!; [reflexivity|exact (ts_hash_store _ (proj1 tiered_demo_ok))|reflexivity..].
Qed.

Lemma tiered_write_adopts_served_hashes_witness :
  set_tm_hash_store (tm_hash_store tiered_demo) (set_tm_inner merkle_demo (tiered_write_page 1 [9] tiered_demo).2) =
    tiered_rolled_back /\
  (exists s', tiered_read_page 1 [0] tiered_rolled_back =
    (Err (InvalidInput "Merkle page authentication failed for page {}"), s')) /\
  exists s1 s2, tiered_write_page 0 [5] tiered_rolled_back = (Ok tt, s1) /\ tiered_read_page 1 [0] s1 = (Ok [8], s2).
Proof.
  split; [vm_compute; reflexivity|]. split; [eexists; vm_compute; reflexivity|].
  apply (tiered_write_adopts_served_hashes tiered_rolled_back 0 [5] 1 [0] tiered_rolled_back_shape).
  - split; [discriminate|reflexivity].
  - split; [reflexivity|]. repeat constructor; vm_compute; intuition discriminate.
  - split; [discriminate|reflexivity].
  - reflexivity.
  - change (tm_leaf_base tiered_rolled_back) with 2. intros k Hk Hne. assert (k = 1) as -> by lia. vm_compute. reflexivity.
  - change (tm_leaf_base tiered_rolled_back) with 2. intros n Hn Hanc. exfalso. apply (Hanc 0%nat).
    assert (n = 1) as -> by lia. reflexivity.
Defined.
