(* ===== verification/SealedState.v ===== *)
(** * State files ([src/src/state.rs])

    Saving and loading of the controller state and of the store-authentication
    sidecar: plain and encrypted files, written to a temporary file that is then
    renamed.  bincode and the cipher are third-party code, parameters with laws;
    the file system is a map from paths to contents whose operations can fail. *)

From S2P Require Import Prelude Block Params Store Schedule State Aead.

(** [bincode::serialize] and [bincode::deserialize] of one type: decoding inverts
    encoding, which yields bytes. *)
Class Bincode (A : Type) : Type := {
  bin_serialize : A -> option bytes;
  bin_deserialize : bytes -> option A
}.
Class BincodeLaws (A : Type) `{Bincode A} : Prop := {
  bin_bytes : forall (x : A) b, bin_serialize x = Some b -> bytes_ok b;
  bin_roundtrip : forall (x : A) b, bin_serialize x = Some b -> bin_deserialize b = Some x
}.

(** ** Paths and files *)

(** A path with a file name, as [Path::extension] and [Path::with_extension] see it. *)
Record FilePath : Type := mkPath { parent : string; file_stem : string; extension : option string }.
Definition render (p : FilePath) : string :=
  (parent p +:+ file_stem p +:+ match extension p with Some e => "." +:+ e | None => "" end)%string.
Definition with_extension (p : FilePath) (e : string) : FilePath := mkPath (parent p) (file_stem p) (Some e).

(** [tmp_path] *)
Definition tmp_path (p : FilePath) : FilePath :=
  with_extension p (match extension p with Some ext => (ext +:+ ".") | None => "" end +:+ "tmp")%string.

(** Files, the faults of the coming file operations (a failing write leaves a
    prefix of that length) and the operating system's randomness. *)
Record Host (O : Type) : Type := mkHost { files : gmap string bytes; faults : list (option nat); os : O }.
Arguments mkHost {O}. Arguments files {O}. Arguments faults {O}. Arguments os {O}.

Section Files.
Context {O : Type}.

Definition set_files (f : gmap string bytes) (h : Host O) : Host O := mkHost f (faults h) (os h).
Definition next_fault : M (Host O) (option nat) := fun h => (Ok (default None (head (faults h))), mkHost (files h) (tail (faults h)) (os h)).

(** [fs::read], [File::create], [BufWriter::write_all] with [flush], [fs::rename] *)
Definition fs_read (p : FilePath) : M (Host O) bytes :=
  let* fault := next_fault in
  let* f := gets files in
  match fault, f !! render p with None, Some b => ret b | _, _ => fail IoError end.
Definition file_create (p : FilePath) : M (Host O) unit :=
  let* fault := next_fault in
  match fault with None => modify (fun h => set_files (<[render p := []]> (files h)) h) | Some _ => fail IoError end.
Definition write_and_flush (p : FilePath) (data : bytes) : M (Host O) unit :=
  let* fault := next_fault in
  match fault with
  | None => modify (fun h => set_files (<[render p := data]> (files h)) h)
  | Some k => let* _ := modify (fun h => set_files (<[render p := take k data]> (files h)) h) in fail IoError
  end.
Definition fs_rename (a b : FilePath) : M (Host O) unit :=
  let* fault := next_fault in
  let* f := gets files in
  match fault, f !! render a with
  | None, Some x => modify (fun h => set_files (<[render b := x]> (delete (render a) (files h))) h)
  | _, _ => fail IoError
  end.

(** [OsRng.fill_bytes] *)
Definition os_fill_bytes `{OsRandom O} (n : Z) : M (Host O) bytes :=
  fun h => let (b, o) := fill_bytes n (os h) in (Ok b, mkHost (files h) (faults h) o).

End Files.

(** ** The four file operations, shared by the two state types

    [impl CircuitOramState] and [impl CircuitStoreAuthState] repeat this code with
    their own magic and messages. *)

Section StateFile.
Context {A C O : Type} `{Bincode A} `{Cipher C} `{OsRandom O}.
Context (sealed_magic : bytes) (from_bytes : bytes -> outcome A) (too_short bad_magic : string).

(** [save_atomic] *)
Definition save_atomic (state : A) (path : FilePath) : M (Host O) unit :=
  let tmp := tmp_path path in
  let* _ := file_create tmp in
  let* data := lift (ok_or (bin_serialize state) BincodeError) in
  let* _ := write_and_flush tmp data in
  fs_rename tmp path.

(** [save_encrypted_atomic] *)
Definition save_encrypted_atomic (state : A) (path : FilePath) (key : bytes) : M (Host O) unit :=
  let* plaintext := lift (ok_or (bin_serialize state) BincodeError) in
  let* nonce_bytes := os_fill_bytes STATE_NONCE_LEN in
  let cipher := cipher_new (C := C) key in
  let* ciphertext := lift (ok_or (cipher_encrypt cipher nonce_bytes sealed_magic plaintext) AeadError) in
  let envelope := sealed_magic ++ nonce_bytes ++ ciphertext in
  let tmp := tmp_path path in
  let* _ := file_create tmp in
  let* _ := write_and_flush tmp envelope in
  fs_rename tmp path.

(** [load] *)
Definition load (path : FilePath) : M (Host O) A :=
  let* b := fs_read path in lift (from_bytes b).

(** [load_encrypted], after the file is read *)
Definition open_envelope (key : bytes) (envelope : bytes) : outcome A :=
  if lenZ envelope <? lenZ sealed_magic + STATE_NONCE_LEN + 16 then Err (InvalidInput too_short)
  else
    let? magic := slice envelope 0 (lenZ sealed_magic) in
    if negb (bool_decide (magic = sealed_magic)) then Err (InvalidInput bad_magic)
    else
      let nonce_start := lenZ sealed_magic in
      let ciphertext_start := nonce_start + STATE_NONCE_LEN in
      let? nonce := slice envelope nonce_start STATE_NONCE_LEN in
      let? msg := slice envelope ciphertext_start (lenZ envelope - ciphertext_start) in
      let cipher := cipher_new (C := C) key in
      let? plaintext := ok_or (cipher_decrypt cipher nonce sealed_magic msg) AeadError in
      from_bytes plaintext.
Definition load_encrypted (path : FilePath) (key : bytes) : M (Host O) A :=
  let* envelope := fs_read path in lift (open_envelope key envelope).

End StateFile.

(** ** Controller state *)

(** Mirror of [struct LegacyCircuitOramState]. *)
Record LegacyCircuitOramState (R : Type) : Type := mkLegacyState {
  lg_magic : bytes;
  lg_params : OramParams;
  lg_pos_map : list Z;
  lg_stash : list OramBlock;
  lg_rng : R;
  lg_schedule : CircuitEvictionSchedule
}.
Arguments mkLegacyState {R}. Arguments lg_magic {R}. Arguments lg_params {R}. Arguments lg_pos_map {R}.
Arguments lg_stash {R}. Arguments lg_rng {R}. Arguments lg_schedule {R}.

Section ControllerState.
Context {R : Type} `{Bincode (CircuitOramState R)} `{Bincode (LegacyCircuitOramState R)}.

(** [CircuitOramState::validate_magic] *)
Definition state_validate_magic (s : CircuitOramState R) : outcome unit :=
  guardo (bool_decide (st_magic s = CIRCUIT_STATE_MAGIC)) (InvalidInput "invalid Circuit ORAM state magic").

Definition state_of_legacy (legacy : LegacyCircuitOramState R) : CircuitOramState R :=
  mkState (lg_magic legacy) (lg_params legacy) (lg_pos_map legacy) (lg_stash legacy) (lg_rng legacy) (lg_schedule legacy) None.

(** [CircuitOramState::from_bytes] *)
Definition state_from_bytes (b : bytes) : outcome (CircuitOramState R) :=
  match bin_deserialize b with
  | Some state => let? _ := state_validate_magic state in Ok state
  | None =>
      let? legacy := ok_or (bin_deserialize b) BincodeError in
      if negb (bool_decide (lg_magic legacy = CIRCUIT_STATE_MAGIC))
      then Err (InvalidInput "invalid Circuit ORAM state magic")
      else Ok (state_of_legacy legacy)
  end.

Context {C O : Type} `{Cipher C} `{OsRandom O}.

(** [CircuitOramState::{save_atomic, save_encrypted_atomic, load, load_encrypted}] *)
Definition state_save_atomic (s : CircuitOramState R) (path : FilePath) : M (Host O) unit := save_atomic s path.
Definition state_save_encrypted_atomic (s : CircuitOramState R) (path : FilePath) (key : bytes) : M (Host O) unit :=
  save_encrypted_atomic (C := C) CIRCUIT_SEALED_STATE_MAGIC s path key.
Definition state_load (path : FilePath) : M (Host O) (CircuitOramState R) := load state_from_bytes path.
Definition state_load_encrypted (path : FilePath) (key : bytes) : M (Host O) (CircuitOramState R) :=
  load_encrypted (C := C) CIRCUIT_SEALED_STATE_MAGIC state_from_bytes
    "encrypted Circuit ORAM state file is too short" "invalid encrypted Circuit ORAM state magic" path key.

End ControllerState.

(** ** Store-authentication sidecar *)

(** Mirror of [struct LegacyCircuitStoreAuthState]. *)
Record LegacyCircuitStoreAuthState : Type := mkLegacyAuth {
  lga_magic : bytes;
  lga_meta : TieredMerkleState;
  lga_payload : TieredMerkleState
}.

Section StoreAuth.
Context `{Bincode CircuitStoreAuthState} `{Bincode LegacyCircuitStoreAuthState}.

(** [CircuitStoreAuthState::validate_magic] *)
Definition auth_validate_magic (s : CircuitStoreAuthState) : outcome unit :=
  guardo (bool_decide (auth_magic s = CIRCUIT_STORE_AUTH_MAGIC)) (InvalidInput "invalid Circuit ORAM store-auth magic").

(** [CircuitStoreAuthState::from_bytes] *)
Definition auth_from_bytes (b : bytes) : outcome CircuitStoreAuthState :=
  match bin_deserialize b with
  | Some state => let? _ := auth_validate_magic state in Ok state
  | None =>
      let? legacy := ok_or (bin_deserialize b) BincodeError in
      if negb (bool_decide (lga_magic legacy = CIRCUIT_STORE_AUTH_MAGIC))
      then Err (InvalidInput "invalid Circuit ORAM store-auth magic")
      else Ok (auth_new (lga_meta legacy) (lga_payload legacy))
  end.

Context {C O : Type} `{Cipher C} `{OsRandom O}.

(** [CircuitStoreAuthState::{save_atomic, save_encrypted_atomic, load, load_encrypted}] *)
Definition auth_save_atomic (s : CircuitStoreAuthState) (path : FilePath) : M (Host O) unit := save_atomic s path.
Definition auth_save_encrypted_atomic (s : CircuitStoreAuthState) (path : FilePath) (key : bytes) : M (Host O) unit :=
  save_encrypted_atomic (C := C) CIRCUIT_SEALED_STORE_AUTH_MAGIC s path key.
Definition auth_load (path : FilePath) : M (Host O) CircuitStoreAuthState := load auth_from_bytes path.
Definition auth_load_encrypted (path : FilePath) (key : bytes) : M (Host O) CircuitStoreAuthState :=
  load_encrypted (C := C) CIRCUIT_SEALED_STORE_AUTH_MAGIC auth_from_bytes
    "encrypted Circuit ORAM store-auth sidecar is too short" "invalid encrypted Circuit ORAM store-auth magic" path key.

End StoreAuth.

(** ** Lemmas *)

Section Lemmas.

Lemma render_tmp_ne p : render (tmp_path p) <> render p.
Proof.
  intros E. apply (f_equal String.length) in E. unfold render, tmp_path, with_extension in E. cbn [parent file_stem extension] in E.
  assert (forall a b, String.length (a +:+ b)%string = (String.length a + String.length b)%nat) as Hlen.
  { clear. intros a b. induction a as [|x a IH]; [done|]. change (String x a +:+ b)%string with (String x (a +:+ b)%string). cbn [String.length]. by rewrite IH. }
  destruct (extension p) as [e|]; rewrite !Hlen in E; cbn in E; lia.
Qed.

Context {A C O : Type} `{BincodeLaws A} `{CipherLaws C} `{OsRandom O}.

(** The last three steps of every save: the target holds its old contents or all
    of the new ones, and only the temporary file changes besides. *)
Lemma publish_atomic path data (h : Host O) r h' :
  (let* _ := file_create (tmp_path path) in
   let* _ := write_and_flush (tmp_path path) data in
   fs_rename (tmp_path path) path) h = (r, h') ->
  (r = Ok tt /\ files h' !! render path = Some data \/
   r = Err IoError /\ files h' !! render path = files h !! render path) /\
  (forall q, q <> render path -> q <> render (tmp_path path) -> files h' !! q = files h !! q) /\
  (faults h = [] -> r = Ok tt /\ faults h' = []).
Proof.
  pose proof (render_tmp_ne path) as Hne. unfold file_create, write_and_flush, fs_rename, next_fault, bind, gets, modify, fail, ret.
  destruct h as [fs fl o]. cbn [files faults os].
  destruct fl as [|[k1|] fl]; cbn [head tail default id files faults os set_files];
    [|intros [= <- <-]; cbn; split_and!; [by right|done|done]|].
  2: destruct fl as [|[k2|] fl]; cbn [head tail default id files faults os set_files].
  3: { intros [= <- <-]. cbn. split_and!; [right; split; [done|]|intros; by rewrite !lookup_insert_ne|done].
       by rewrite !lookup_insert_ne by done. }
  3: destruct fl as [|[k3|] fl]; cbn [head tail default id files faults os set_files].
  4: { intros [= <- <-]. cbn. split_and!; [right; split; [done|]|intros; by rewrite !lookup_insert_ne|done].
       by rewrite !lookup_insert_ne by done. }
  all: rewrite lookup_insert_eq; intros [= <- <-]; cbn; rewrite lookup_insert_eq; (split_and!; [by left| |done]);
    intros q Hq Hq'; by rewrite lookup_insert_ne, lookup_delete_ne, !lookup_insert_ne by done.
Qed.

(** An envelope opens to exactly what was sealed in it under that key. *)
Lemma open_envelope_iff magic (from_bytes : bytes -> outcome A) m1 m2 key envelope (x : A) :
  open_envelope (C := C) magic from_bytes m1 m2 key envelope = Ok x <->
  exists nonce ct plaintext, envelope = magic ++ nonce ++ ct /\ lenZ nonce = STATE_NONCE_LEN /\
    cipher_encrypt (cipher_new (C := C) key) nonce magic plaintext = Some ct /\ from_bytes plaintext = Ok x.
Proof.
  unfold open_envelope. split.
  - destruct (_ <? _) eqn:El; [done|]. zbool. unfold STATE_NONCE_LEN in *. pose proof (lenZ_nonneg magic) as Hm0.
    destruct (slice_split envelope (lenZ magic) 12) as (a & b & c & -> & Ha & Hb & _); [lia..|].
    rewrite (slice_prefix a) by done. cbn [obind]. case_bool_decide as Ea; [|done]. subst a. cbn [negb].
    rewrite (slice_app magic b c) by done. cbn [obind]. rewrite app_assoc.
    rewrite (slice_suffix (magic ++ b) c) by (rewrite ?lenZ_app; lia). cbn [obind].
    destruct (cipher_decrypt _ _ _ _) as [pt|] eqn:Ed; [|done]. cbn [ok_or obind]. intros Hx.
    exists b, c, pt. rewrite <-app_assoc. split_and!; [done|done|by apply decrypt_iff|done].
  - intros (nonce & ct & pt & -> & Hn & He & Hx). apply encrypt_length in He as Hl. rewrite !lenZ_app, Hn.
    pose proof (lenZ_nonneg pt). rewrite (proj2 (Z.ltb_ge _ _)) by lia. rewrite (slice_prefix magic) by done. cbn [obind].
    rewrite bool_decide_eq_true_2 by done. cbn [negb]. rewrite (slice_app magic nonce ct) by done. cbn [obind].
    rewrite app_assoc, (slice_suffix (magic ++ nonce) ct) by (rewrite ?lenZ_app; lia). cbn [obind].
    by rewrite (proj2 (decrypt_iff _ _ _ _ _) He).
Qed.

Lemma load_encrypted_eq magic (from_bytes : bytes -> outcome A) m1 m2 path key fs (o : O) :
  (load_encrypted (C := C) magic from_bytes m1 m2 path key (mkHost fs [] o)).1 =
  match fs !! render path with
  | Some envelope => open_envelope (C := C) magic from_bytes m1 m2 key envelope
  | None => Err IoError
  end.
Proof.
  unfold load_encrypted, fs_read, next_fault, bind, gets. cbn [head faults default tail files].
  by destruct (fs !! render path).
Qed.

(** A save either leaves the target as it was or stores an envelope that opens to
    the saved value; without faults, and within the cipher's limit, it succeeds. *)
Lemma save_encrypted_ok magic (from_bytes : bytes -> outcome A) m1 m2 (x : A) path key (h : Host O) r h' :
  (forall b, bin_serialize x = Some b -> from_bytes b = Ok x) ->
  save_encrypted_atomic (C := C) magic x path key h = (r, h') ->
  match r with
  | Ok _ => forall o : O, (load_encrypted (C := C) magic from_bytes m1 m2 path key (mkHost (files h') [] o)).1 = Ok x
  | Err _ => files h' !! render path = files h !! render path
  | Panic | Diverges => False
  end /\
  (forall q, q <> render path -> q <> render (tmp_path path) -> files h' !! q = files h !! q) /\
  (forall b, faults h = [] -> bin_serialize x = Some b -> lenZ b <= cipher_limit (C := C) -> r = Ok tt).
Proof.
  intros Hfb. unfold save_encrypted_atomic. rewrite bind_lift.
  destruct (bin_serialize x) as [pt|] eqn:Es; cbn [ok_or].
  2: { intros [= <- <-]. split_and!; done. }
  unfold os_fill_bytes. unfold bind at 1. pose proof (fill_bytes_ok STATE_NONCE_LEN (os h) ltac:(done)) as [Hnl _].
  destruct (fill_bytes STATE_NONCE_LEN (os h)) as [nonce o']. cbn [fst] in Hnl.
  rewrite bind_lift. destruct (cipher_encrypt _ _ _ _) as [ct|] eqn:Ee; cbn [ok_or].
  2: { intros [= <- <-]. cbn. split_and!; [done|done|]. intros b _ [= <-] Hlim.
       destruct (encrypt_total (cipher_new (C := C) key) nonce magic pt Hlim) as [ct E]. congruence. }
  intros E. apply publish_atomic in E as (Hr & Ho & Hf). cbn [files faults] in *.
  split_and!; [|exact Ho|intros b Hfl _ _; by apply Hf].
  destruct Hr as [[-> Hp]|[-> Hp]]; [|done]. intros o. rewrite load_encrypted_eq, Hp.
  apply open_envelope_iff. exists nonce, ct, pt. split_and!; [done|done|done|by apply Hfb].
Qed.

End Lemmas.

Section FromBytes.
Context {R : Type} `{BincodeLaws (CircuitOramState R)} `{BincodeLaws (LegacyCircuitOramState R)}.
Context `{BincodeLaws CircuitStoreAuthState} `{BincodeLaws LegacyCircuitStoreAuthState}.

Lemma state_from_bytes_current (s : CircuitOramState R) b :
  bin_serialize s = Some b -> st_magic s = CIRCUIT_STATE_MAGIC -> state_from_bytes b = Ok s.
Proof.
  intros E Hm. unfold state_from_bytes. rewrite (bin_roundtrip s b E).
  unfold state_validate_magic, guardo. by rewrite bool_decide_eq_true_2.
Qed.

Lemma auth_from_bytes_current (s : CircuitStoreAuthState) b :
  bin_serialize s = Some b -> auth_magic s = CIRCUIT_STORE_AUTH_MAGIC -> auth_from_bytes b = Ok s.
Proof.
  intros E Hm. unfold auth_from_bytes. rewrite (bin_roundtrip s b E).
  unfold auth_validate_magic, guardo. by rewrite bool_decide_eq_true_2.
Qed.

End FromBytes.
