(* ===== verification/Fixint.v ===== *)
(** * A concrete encoding of the state types for concrete inputs

    One implementation of [Bincode]: little-endian fixed-width integers, lists
    with their length, options with a tag, records field by field.  It shows that
    the laws the state-file theorems assume of bincode can hold, and runs their
    examples. *)

From S2P Require Import Prelude Block Params Store Schedule State Aead SealedState.

Record codec (A : Type) : Type := mkCodec {
  enc : A -> bytes;
  dec : bytes -> option (A * bytes);
  fits : A -> bool
}.
Arguments mkCodec {A}. Arguments enc {A}. Arguments dec {A}. Arguments fits {A}.

Definition codec_ok {A} (c : codec A) : Prop :=
  forall x rest, fits c x = true -> bytes_ok (enc c x) /\ dec c (enc c x ++ rest) = Some (x, rest).

Definition word_codec (n : nat) : codec Z :=
  mkCodec (to_le n) (fun b : bytes => if (length b <? n)%nat then None else Some (from_le (take n b), drop n b))
    (fun z => (0 <=? z) && (z <? 256 ^ Z.of_nat n)).
Definition bool_codec : codec bool :=
  mkCodec (fun x : bool => [if x then 1 else 0])
    (fun b => match b with x :: r => if x =? 0 then Some (false, r) else if x =? 1 then Some (true, r) else None | [] => None end) (fun _ => true).
Definition pair_codec {A B} (c : codec A) (d : codec B) : codec (A * B) :=
  mkCodec (fun xy => enc c xy.1 ++ enc d xy.2)
    (fun b => match dec c b with
              | Some (x, b) => match dec d b with Some (y, b) => Some ((x, y), b) | None => None end
              | None => None
              end)
    (fun xy => fits c xy.1 && fits d xy.2).
Fixpoint dec_many {A} (c : codec A) (n : nat) (b : bytes) : option (list A * bytes) :=
  match n with
  | O => Some ([], b)
  | S n => match dec c b with
           | Some (x, b) => match dec_many c n b with Some (xs, b) => Some (x :: xs, b) | None => None end
           | None => None
           end
  end.
Definition array_codec {A} (n : nat) (c : codec A) : codec (list A) :=
  mkCodec (fun l => concat (enc c <$> l)) (dec_many c n) (fun l => (length l =? n)%nat && forallb (fits c) l).
Definition list_codec {A} (c : codec A) : codec (list A) :=
  mkCodec (fun l => to_le 8 (lenZ l) ++ concat (enc c <$> l))
    (fun b => match dec (word_codec 8) b with Some (n, b) => dec_many c (Z.to_nat n) b | None => None end)
    (fun l => (lenZ l <? 256 ^ 8) && forallb (fits c) l).
Definition map_codec {A B} (f : A -> B) (g : B -> A) (c : codec A) : codec B :=
  mkCodec (fun y => enc c (g y)) (fun b => match dec c b with Some (x, b) => Some (f x, b) | None => None end)
    (fun y => fits c (g y)).
(** A sum with a tag of [n] bytes. *)
Definition sum_codec {A B} (n : nat) (c : codec A) (d : codec B) : codec (A + B) :=
  mkCodec (fun s : A + B => match s with inl x => to_le n 0 ++ enc c x | inr y => to_le n 1 ++ enc d y end)
    (fun b => match dec (word_codec n) b with
              | Some (0, b) => match dec c b with Some (x, b) => Some (inl x, b) | None => None end
              | Some (1, b) => match dec d b with Some (y, b) => Some (inr y, b) | None => None end
              | _ => None
              end)
    (fun s => match s with inl x => fits c x | inr y => fits d y end).
Definition unit_codec : codec unit := mkCodec (fun _ => []) (fun b => Some (tt, b)) (fun _ => true).
Definition option_codec {A} (c : codec A) : codec (option A) :=
  map_codec (fun s => match s with inl _ => None | inr x => Some x end)
    (fun o => match o with None => inl tt | Some x => inr x end) (sum_codec 1 unit_codec c).

Section Laws.

Lemma word_codec_ok n : codec_ok (word_codec n).
Proof.
  intros z rest Hf. cbn [enc dec fits word_codec] in *. zbool. split; [apply to_le_ok|].
  rewrite length_app, to_le_length, (proj2 (Nat.ltb_ge (n + length rest) n)) by lia.
  rewrite take_app_length', drop_app_length' by (symmetry; apply to_le_length). by rewrite from_to_le, Z.mod_small by lia.
Qed.

Lemma bool_codec_ok : codec_ok bool_codec.
Proof. intros [] rest _; (split; [by repeat constructor|done]). Qed.
Lemma unit_codec_ok : codec_ok unit_codec.
Proof. intros [] rest _. split; [constructor|done]. Qed.

Lemma pair_codec_ok {A B} (c : codec A) (d : codec B) : codec_ok c -> codec_ok d -> codec_ok (pair_codec c d).
Proof.
  intros Hc Hd [x y] rest Hf. cbn in *. apply andb_true_iff in Hf as [Hx Hy].
  destruct (Hc x (enc d y ++ rest) Hx) as [Hbx Ex]. destruct (Hd y rest Hy) as [Hby Ey].
  split; [by apply Forall_app|]. by rewrite <-app_assoc, Ex, Ey.
Qed.

Lemma dec_many_ok {A} (c : codec A) l rest : codec_ok c -> forallb (fits c) l = true ->
  bytes_ok (concat (enc c <$> l)) /\ dec_many c (length l) (concat (enc c <$> l) ++ rest) = Some (l, rest).
Proof.
  intros Hc. induction l as [|x l IH]; intros Hf; [split; [constructor|done]|].
  cbn [forallb] in Hf. apply andb_true_iff in Hf as [Hx Hf]. destruct (IH Hf) as [Hb E].
  cbn [fmap list_fmap concat length dec_many]. destruct (Hc x (concat (enc c <$> l) ++ rest) Hx) as [Hbx Ex].
  split; [by apply Forall_app|]. by rewrite <-app_assoc, Ex, E.
Qed.

Lemma array_codec_ok {A} n (c : codec A) : codec_ok c -> codec_ok (array_codec n c).
Proof.
  intros Hc l rest Hf. cbn in *. apply andb_true_iff in Hf as [<-%Nat.eqb_eq Hf]. by apply dec_many_ok.
Qed.

Lemma list_codec_ok {A} (c : codec A) : codec_ok c -> codec_ok (list_codec c).
Proof.
  intros Hc l rest Hf. cbn [fits enc dec list_codec] in *. apply andb_true_iff in Hf as [Hl Hf]. zbool.
  destruct (dec_many_ok c l rest Hc Hf) as [Hb E].
  destruct (word_codec_ok 8 (lenZ l) (concat (enc c <$> l) ++ rest)) as [Hw Ew].
  { cbn [fits word_codec]. pose proof (lenZ_nonneg l). change (Z.of_nat 8) with 8. apply andb_true_iff. lia. }
  split; [by apply Forall_app|]. rewrite <-app_assoc. cbn [enc word_codec] in Ew. rewrite Ew. unfold lenZ. by rewrite Nat2Z.id.
Qed.

Lemma map_codec_ok {A B} (f : A -> B) (g : B -> A) c : codec_ok c -> (forall y, f (g y) = y) -> codec_ok (map_codec f g c).
Proof. intros Hc Hfg y rest Hf. cbn in *. destruct (Hc (g y) rest Hf) as [Hb ->]. by rewrite Hfg. Qed.

Lemma sum_codec_ok {A B} n (c : codec A) (d : codec B) : (0 < n)%nat -> codec_ok c -> codec_ok d -> codec_ok (sum_codec n c d).
Proof.
  intros Hn Hc Hd s rest Hf. assert (256 ^ 1 <= 256 ^ Z.of_nat n) as Hp by (apply Z.pow_le_mono_r; lia).
  assert (forall t r, 0 <= t <= 1 -> dec (word_codec n) (to_le n t ++ r) = Some (t, r)) as Hw.
  { intros t r Ht. apply word_codec_ok. cbn. apply andb_true_iff. lia. }
  cbn [fits enc dec sum_codec] in *. destruct s as [x|y]; rewrite <-app_assoc, Hw by lia.
  - destruct (Hc x rest Hf) as [Hb ->]. split; [apply Forall_app; split; [apply to_le_ok|done]|done].
  - destruct (Hd y rest Hf) as [Hb ->]. split; [apply Forall_app; split; [apply to_le_ok|done]|done].
Qed.

Lemma option_codec_ok {A} (c : codec A) : codec_ok c -> codec_ok (option_codec c).
Proof.
  intros Hc. apply map_codec_ok; [|by intros []]. apply sum_codec_ok; [lia|apply unit_codec_ok|done].
Qed.

End Laws.

#[export] Hint Resolve word_codec_ok bool_codec_ok unit_codec_ok pair_codec_ok array_codec_ok list_codec_ok
  option_codec_ok : oram.

(** Encoding what fits, decoding the whole input up to trailing bytes. *)
Definition codec_bincode {A} (c : codec A) : Bincode A := {|
  bin_serialize := fun x => if fits c x then Some (enc c x) else None;
  bin_deserialize := fun b => fst <$> dec c b
|}.
Lemma codec_bincode_laws {A} (c : codec A) : codec_ok c -> @BincodeLaws A (codec_bincode c).
Proof.
  intros Hc. split; cbn; intros x b; destruct (fits c x) eqn:E; try done; intros [= <-].
  - by apply (Hc x []).
  - destruct (Hc x [] E) as [_ Ed]. rewrite app_nil_r in Ed. by rewrite Ed.
Qed.

(** ** The state types; the generator is a 64-bit word *)

Definition u64_codec : codec Z := word_codec 8.
Definition u32_codec : codec Z := word_codec 4.
Definition bytes_codec (n : nat) : codec bytes := array_codec n (word_codec 1).

Definition params_codec : codec OramParams :=
  map_codec (fun '(a, (b, (c, (d, e)))) => mkParams a b c d e)
    (fun p => (logical_blocks p, (block_size p, (bucket_size p, (leaves p, stash_capacity p)))))
    (pair_codec u64_codec (pair_codec u64_codec (pair_codec u64_codec (pair_codec u64_codec u64_codec)))).
Definition block_codec : codec OramBlock :=
  map_codec (fun '(a, (b, (c, d))) => mkBlock a b c d)
    (fun x => (occupied x, (logical_id x, (leaf x, payload x))))
    (pair_codec bool_codec (pair_codec u64_codec (pair_codec u32_codec (list_codec (word_codec 1))))).
Definition schedule_codec : codec CircuitEvictionSchedule :=
  map_codec (fun '(a, (b, (c, d))) => mkSchedule a b c d)
    (fun s => (sch_leaf_bits s, (evictions_per_access s, (issued_accesses s, completed_evictions s))))
    (pair_codec u64_codec (pair_codec u64_codec (pair_codec u64_codec u64_codec))).
Definition tiered_codec : codec TieredMerkleState :=
  map_codec (fun '(a, (b, (c, (d, (e, f))))) => mkTieredMerkleState a b c d e f)
    (fun s => (tms_store_id s, (tms_page_count s, (tms_page_size s, (tms_trusted_levels s, (tms_hash_page_size s, tms_trusted_hashes s))))))
    (pair_codec (bytes_codec 16) (pair_codec u64_codec (pair_codec u64_codec (pair_codec u64_codec (pair_codec u64_codec (list_codec (bytes_codec 32))))))).
Definition embedded_codec : codec EmbeddedTreeState :=
  map_codec (fun '(a, (b, (c, d))) => mkEmbeddedTreeState a b c d)
    (fun s => (ets_store_id s, (ets_page_count s, (ets_logical_page_size s, ets_root_hash s))))
    (pair_codec (bytes_codec 16) (pair_codec u64_codec (pair_codec u64_codec (bytes_codec 32)))).
Definition auth_codec : codec CircuitStoreAuthState :=
  map_codec (fun '(m, s) => mkAuth m (match s with inl (a, b) => TieredMerkle a b | inr (a, b) => EmbeddedTree a b end))
    (fun s => (auth_magic s, match layout s with TieredMerkle a b => inl (a, b) | EmbeddedTree a b => inr (a, b) end))
    (pair_codec (bytes_codec 8) (sum_codec 4 (pair_codec tiered_codec tiered_codec) (pair_codec embedded_codec embedded_codec))).
Definition state_codec : codec (CircuitOramState Z) :=
  map_codec (fun '(m, (p, (pm, (st, (r, (s, a)))))) => mkState m p pm st r s a)
    (fun s => (st_magic s, (st_params s, (st_pos_map s, (st_stash s, (st_rng s, (st_schedule s, st_auth s)))))))
    (pair_codec (bytes_codec 8) (pair_codec params_codec (pair_codec (list_codec u32_codec)
      (pair_codec (list_codec block_codec) (pair_codec u64_codec (pair_codec schedule_codec (option_codec auth_codec))))))).
Definition legacy_state_codec : codec (LegacyCircuitOramState Z) :=
  map_codec (fun '(m, (p, (pm, (st, (r, s))))) => mkLegacyState m p pm st r s)
    (fun s => (lg_magic s, (lg_params s, (lg_pos_map s, (lg_stash s, (lg_rng s, lg_schedule s))))))
    (pair_codec (bytes_codec 8) (pair_codec params_codec (pair_codec (list_codec u32_codec)
      (pair_codec (list_codec block_codec) (pair_codec u64_codec schedule_codec))))).
Definition legacy_auth_codec : codec LegacyCircuitStoreAuthState :=
  map_codec (fun '(m, (a, b)) => mkLegacyAuth m a b) (fun s => (lga_magic s, (lga_meta s, lga_payload s)))
    (pair_codec (bytes_codec 8) (pair_codec tiered_codec tiered_codec)).

Lemma params_codec_ok : codec_ok params_codec.
Proof. apply map_codec_ok; [unfold u64_codec; eauto 20 with oram|by intros []]. Qed.
Lemma block_codec_ok : codec_ok block_codec.
Proof. apply map_codec_ok; [unfold u64_codec, u32_codec; eauto 20 with oram|by intros []]. Qed.
Lemma schedule_codec_ok : codec_ok schedule_codec.
Proof. apply map_codec_ok; [unfold u64_codec; eauto 20 with oram|by intros []]. Qed.
Lemma tiered_codec_ok : codec_ok tiered_codec.
Proof. apply map_codec_ok; [unfold u64_codec, bytes_codec; eauto 20 with oram|by intros []]. Qed.
Lemma embedded_codec_ok : codec_ok embedded_codec.
Proof. apply map_codec_ok; [unfold u64_codec, bytes_codec; eauto 20 with oram|by intros []]. Qed.
#[export] Hint Resolve params_codec_ok block_codec_ok schedule_codec_ok tiered_codec_ok embedded_codec_ok : oram.
Lemma auth_codec_ok : codec_ok auth_codec.
Proof.
  apply map_codec_ok; [|by intros [? []]]. apply pair_codec_ok; [unfold bytes_codec; eauto with oram|].
  apply sum_codec_ok; [lia|eauto with oram..].
Qed.
#[export] Hint Resolve auth_codec_ok : oram.
Lemma state_codec_ok : codec_ok state_codec.
Proof. apply map_codec_ok; [unfold u64_codec, u32_codec, bytes_codec; eauto 20 with oram|by intros []]. Qed.
Lemma legacy_state_codec_ok : codec_ok legacy_state_codec.
Proof. apply map_codec_ok; [unfold u64_codec, u32_codec, bytes_codec; eauto 20 with oram|by intros []]. Qed.
Lemma legacy_auth_codec_ok : codec_ok legacy_auth_codec.
Proof. apply map_codec_ok; [unfold bytes_codec; eauto 20 with oram|by intros []]. Qed.

#[export] Instance fixint_state : Bincode (CircuitOramState Z) := codec_bincode state_codec.
#[export] Instance fixint_legacy_state : Bincode (LegacyCircuitOramState Z) := codec_bincode legacy_state_codec.
#[export] Instance fixint_auth : Bincode CircuitStoreAuthState := codec_bincode auth_codec.
#[export] Instance fixint_legacy_auth : Bincode LegacyCircuitStoreAuthState := codec_bincode legacy_auth_codec.
#[export] Instance fixint_state_laws : BincodeLaws (CircuitOramState Z) := codec_bincode_laws _ state_codec_ok.
#[export] Instance fixint_legacy_state_laws : BincodeLaws (LegacyCircuitOramState Z) := codec_bincode_laws _ legacy_state_codec_ok.
#[export] Instance fixint_auth_laws : BincodeLaws CircuitStoreAuthState := codec_bincode_laws _ auth_codec_ok.
#[export] Instance fixint_legacy_auth_laws : BincodeLaws LegacyCircuitStoreAuthState := codec_bincode_laws _ legacy_auth_codec_ok.
