(* ===== verification/SealedSpec.v ===== *)
(** * The state files are safe to write and to read ([src/src/state.rs])

    Atomicity under file-system faults, authenticity of what is loaded, and the
    older formats. *)

From S2P Require Import Prelude Block Params Store Schedule State Aead SealedState Fixint.

(** ** Properties *)

Section Properties.
Context {R : Type} `{BincodeLaws (CircuitOramState R)} `{BincodeLaws (LegacyCircuitOramState R)}.
Context `{BincodeLaws CircuitStoreAuthState} `{BincodeLaws LegacyCircuitStoreAuthState}.
Context {C O : Type} `{CipherLaws C} `{OsRandom O}.

(** C33: saving the encrypted controller state is atomic under any file-system
    faults: the target file keeps its old contents when the call fails, and loads
    back as exactly the saved state when it succeeds; no file but the target and
    its temporary sibling changes; and without faults the call succeeds. *)
Theorem state_save_encrypted_is_atomic (s : CircuitOramState R) path key (h : Host O) r h' :
  st_magic s = CIRCUIT_STATE_MAGIC ->
  state_save_encrypted_atomic (C := C) s path key h = (r, h') ->
  match r with
  | Ok _ => forall o : O, (state_load_encrypted (C := C) path key (mkHost (files h') [] o)).1 = Ok s
  | Err _ => files h' !! render path = files h !! render path
  | Panic | Diverges => False
  end /\
  (forall q, q <> render path -> q <> render (tmp_path path) -> files h' !! q = files h !! q) /\
  (forall b, faults h = [] -> bin_serialize s = Some b -> lenZ b <= cipher_limit (C := C) -> r = Ok tt).
Proof.
  intros Hm E. eapply (save_encrypted_ok (A := CircuitOramState R)); [|exact E].
  intros b Hb. by apply state_from_bytes_current.
Qed.

(** The same for the store-authentication sidecar. *)
Theorem auth_save_encrypted_is_atomic (s : CircuitStoreAuthState) path key (h : Host O) r h' :
  auth_magic s = CIRCUIT_STORE_AUTH_MAGIC ->
  auth_save_encrypted_atomic (C := C) s path key h = (r, h') ->
  match r with
  | Ok _ => forall o : O, (auth_load_encrypted (C := C) path key (mkHost (files h') [] o)).1 = Ok s
  | Err _ => files h' !! render path = files h !! render path
  | Panic | Diverges => False
  end /\
  (forall q, q <> render path -> q <> render (tmp_path path) -> files h' !! q = files h !! q) /\
  (forall b, faults h = [] -> bin_serialize s = Some b -> lenZ b <= cipher_limit (C := C) -> r = Ok tt).
Proof.
  intros Hm E. eapply (save_encrypted_ok (A := CircuitStoreAuthState)); [|exact E].
  intros b Hb. by apply auth_from_bytes_current.
Qed.

(** Loading an encrypted controller state accepts a file exactly when it is the
    sealed magic, a nonce and the encryption, under the key and bound to that
    magic, of bytes that decode to the state; any other file is an error. *)
Theorem state_load_encrypted_authentic path key (h : Host O) envelope :
  faults h = [] -> files h !! render path = Some envelope ->
  exists r h', state_load_encrypted (R := R) (C := C) path key h = (r, h') /\ returned r = true /\
    forall s, r = Ok s <->
      exists nonce ct plaintext, envelope = CIRCUIT_SEALED_STATE_MAGIC ++ nonce ++ ct /\ lenZ nonce = STATE_NONCE_LEN /\
        cipher_encrypt (cipher_new (C := C) key) nonce CIRCUIT_SEALED_STATE_MAGIC plaintext = Some ct /\
        state_from_bytes plaintext = Ok s.
Proof.
  intros Hf He. destruct h as [fs fl o]. cbn in Hf, He. subst fl.
  destruct (state_load_encrypted path key (mkHost fs [] o)) as [r h'] eqn:E. exists r, h'. split; [done|].
  apply (f_equal fst) in E. unfold state_load_encrypted in E. rewrite load_encrypted_eq, He in E. cbn [fst] in E.
  split; [|intros s; rewrite <-E; apply open_envelope_iff].
  rewrite <-E. clear E r. unfold open_envelope. destruct (_ <? _) eqn:El; [done|]. zbool. change (lenZ CIRCUIT_SEALED_STATE_MAGIC) with 8 in *.
  unfold STATE_NONCE_LEN in *.
  destruct (slice_split envelope 0 8) as (? & ? & ? & _ & _ & _ & ->); [lia..|]. cbn [obind].
  destruct (negb _); [done|]. destruct (slice_split envelope 8 12) as (? & ? & ? & _ & _ & _ & ->); [lia..|].
  cbn [obind]. destruct (slice_split envelope (8 + 12) (lenZ envelope - (8 + 12))) as (? & ? & ? & _ & _ & _ & ->); [lia..|].
  cbn [obind]. destruct (cipher_decrypt _ _ _ _) as [pt|]; [|done]. cbn [ok_or obind].
  unfold state_from_bytes, state_validate_magic, guardo.
  destruct (bin_deserialize (A := CircuitOramState R) pt); [by destruct (bool_decide _)|].
  by destruct (bin_deserialize (A := LegacyCircuitOramState R) pt); cbn; [destruct (bool_decide _)|].
Qed.

(** Files of the older formats load: a controller state without its
    authentication field comes back with none, and a sidecar of two tiered-Merkle
    states comes back in the current layout, whenever the older encoding does not
    decode as the current type. *)
Theorem legacy_files_load (l : LegacyCircuitOramState R) (la : LegacyCircuitStoreAuthState) b ba path (h : Host O) :
  bin_serialize l = Some b -> bin_deserialize (A := CircuitOramState R) b = None -> lg_magic l = CIRCUIT_STATE_MAGIC ->
  bin_serialize la = Some ba -> bin_deserialize (A := CircuitStoreAuthState) ba = None -> lga_magic la = CIRCUIT_STORE_AUTH_MAGIC ->
  faults h = [] ->
  (files h !! render path = Some b -> (state_load path h).1 = Ok (state_of_legacy l) /\ st_auth (state_of_legacy l) = None) /\
  (files h !! render path = Some ba -> (auth_load path h).1 = Ok (auth_new (lga_meta la) (lga_payload la))).
Proof.
  intros E En Em Ea Ean Eam Hf. destruct h as [fs fl o]. cbn in Hf |- *. subst fl.
  unfold state_load, auth_load, load, fs_read, next_fault, bind, gets. cbn [head faults default tail files].
  split; intros ->; cbn; unfold state_from_bytes, auth_from_bytes; rewrite ?En, ?Ean.
  - rewrite (bin_roundtrip l b E). cbn [ok_or obind]. by rewrite bool_decide_eq_true_2.
  - rewrite (bin_roundtrip la ba Ea). cbn [ok_or obind]. by rewrite bool_decide_eq_true_2.
Qed.

End Properties.

(** ** Witnesses: a small state, with and without authentication *)

Definition demo_tms : TieredMerkleState := mkTieredMerkleState (seqZ 100 16) 2 1 1 32 [replicate 32 0; replicate 32 5].
Definition demo_auth : CircuitStoreAuthState := auth_new demo_tms demo_tms.
Definition demo_state : CircuitOramState Z :=
  with_auth (state_new (mkParams 2 2 2 2 4) [0; 1] [mkBlock true 1 1 [7; 8]] 9 (mkSchedule 1 2 3 4)) (Some demo_auth).
Definition demo_legacy : LegacyCircuitOramState Z :=
  mkLegacyState CIRCUIT_STATE_MAGIC (mkParams 2 2 2 2 4) [0; 1] [mkBlock true 1 1 [7; 8]] 9 (mkSchedule 1 2 3 4).
Definition demo_legacy_auth : LegacyCircuitStoreAuthState := mkLegacyAuth CIRCUIT_STORE_AUTH_MAGIC demo_tms demo_tms.
Definition demo_path : FilePath := mkPath "dir/" "circuit" (Some "state"%string).
Definition demo_host (faults : list (option nat)) : Host Z := mkHost {["dir/circuit.state"%string := [1; 2; 3]]} faults 77.

(** The write fails after ten bytes: the old file is still there; and without
    faults the saved state loads. *)
Lemma state_save_encrypted_is_atomic_witness :
  (exists h', state_save_encrypted_atomic (C := bytes) demo_state demo_path [4; 5] (demo_host [None; Some 10%nat]) = (Err IoError, h') /\
     files h' !! render demo_path = Some [1; 2; 3]) /\
  (exists h', state_save_encrypted_atomic (C := bytes) demo_state demo_path [4; 5] (demo_host []) = (Ok tt, h') /\
     (state_load_encrypted (C := bytes) demo_path [4; 5] (mkHost (files h') [] 0)).1 = Ok demo_state).
Proof.
  split.
  - destruct (state_save_encrypted_atomic (C := bytes) demo_state demo_path [4; 5] (demo_host [None; Some 10%nat])) as [r h'] eqn:E.
    assert (r = Err IoError) as -> by (change ((r, h').1 = Err IoError); rewrite <-E; vm_compute; reflexivity).
    exists h'. split; [reflexivity|].
    destruct (state_save_encrypted_is_atomic demo_state demo_path [4; 5] _ _ _ eq_refl E) as (Hf & _).
    rewrite Hf. vm_compute. reflexivity.
  - destruct (state_save_encrypted_atomic (C := bytes) demo_state demo_path [4; 5] (demo_host [])) as [r h'] eqn:E.
    assert (r = Ok tt) as -> by (change ((r, h').1 = Ok tt); rewrite <-E; vm_compute; reflexivity).
    exists h'. split; [reflexivity|].
    destruct (state_save_encrypted_is_atomic demo_state demo_path [4; 5] _ _ _ eq_refl E) as (Hf & _). apply Hf.
Defined.

Lemma auth_save_encrypted_is_atomic_witness :
  exists h', auth_save_encrypted_atomic (C := bytes) demo_auth demo_path [4; 5] (demo_host []) = (Ok tt, h') /\
     (auth_load_encrypted (C := bytes) demo_path [4; 5] (mkHost (files h') [] 0)).1 = Ok demo_auth.
Proof.
  destruct (auth_save_encrypted_atomic (C := bytes) demo_auth demo_path [4; 5] (demo_host [])) as [r h'] eqn:E.
  assert (r = Ok tt) as -> by (change ((r, h').1 = Ok tt); rewrite <-E; vm_compute; reflexivity).
  exists h'. split; [reflexivity|].
  destruct (auth_save_encrypted_is_atomic demo_auth demo_path [4; 5] _ _ _ eq_refl E) as (Hf & _). apply Hf.
Defined.

(** A file of zeros is refused. *)
Lemma state_load_encrypted_authentic_witness :
  exists r h', state_load_encrypted (R := Z) (C := bytes) demo_path [4; 5] (mkHost {["dir/circuit.state"%string := zeros 40]} [] 0) = (r, h') /\
    returned r = true /\ forall s, r <> Ok s.
Proof.
  destruct (state_load_encrypted_authentic (R := Z) (C := bytes) demo_path [4; 5]
    (mkHost {["dir/circuit.state"%string := zeros 40]} [] 0) (zeros 40)) as (r & h' & E & Hp & Hs).
  - reflexivity.
  - vm_compute. reflexivity.
  - exists r, h'. split; [exact E|]. split; [exact Hp|]. intros s Hr. apply Hs in Hr as (nonce & ct & pt & Hz & _).
    cbv in Hz. discriminate Hz.
Defined.

Definition demo_legacy_bytes : bytes := enc legacy_state_codec demo_legacy.
Definition demo_legacy_auth_bytes : bytes := enc legacy_auth_codec demo_legacy_auth.

Lemma legacy_files_load_witness :
  bin_serialize demo_legacy = Some demo_legacy_bytes /\ bin_serialize demo_legacy_auth = Some demo_legacy_auth_bytes /\
  (state_load demo_path (mkHost {["dir/circuit.state"%string := demo_legacy_bytes]} [] 0)).1 = Ok (state_of_legacy demo_legacy) /\
  (auth_load demo_path (mkHost {["dir/circuit.state"%string := demo_legacy_auth_bytes]} [] 0)).1 = Ok (auth_new demo_tms demo_tms).
Proof.
  assert (bin_serialize demo_legacy = Some demo_legacy_bytes) as E1 by (vm_compute; reflexivity).
  assert (bin_serialize demo_legacy_auth = Some demo_legacy_auth_bytes) as E2 by (vm_compute; reflexivity).
  assert (bin_deserialize (A := CircuitOramState Z) demo_legacy_bytes = None) as E3 by (vm_compute; reflexivity).
  assert (bin_deserialize (A := CircuitStoreAuthState) demo_legacy_auth_bytes = None) as E4 by (vm_compute; reflexivity).
  pose proof (fun b => legacy_files_load demo_legacy demo_legacy_auth demo_legacy_bytes demo_legacy_auth_bytes demo_path
    (mkHost {["dir/circuit.state"%string := b]} [] 0) E1 E3 eq_refl E2 E4 eq_refl eq_refl) as Hl.
  assert (forall b : bytes, files (mkHost {["dir/circuit.state"%string := b]} [] 0) !! render demo_path = Some b) as Hf by reflexivity.
  split; [exact E1|]. split; [exact E2|]. split.
  - exact (proj1 (proj1 (Hl demo_legacy_bytes) (Hf demo_legacy_bytes))).
  - exact (proj2 (Hl demo_legacy_auth_bytes) (Hf demo_legacy_auth_bytes)).
Defined.
