(* ===== verification/FileStore.v ===== *)
(** * File-backed page store ([src/src/store.rs], [FilePageStore])

    Bulk reads and writes sort the requested pages, coalesce runs of consecutive
    pages into one buffer each and loop over short transfers.  The file is its
    contents and a script of how the coming transfers go. *)

From S2P Require Import Prelude Params Store.

(** One positional transfer: at most [max 1 n] bytes, or an error. *)
Inductive transfer : Type := Upto (n : Z) | TransferError.

(** [std::fs::File]; past the script transfers are complete. *)
Record File : Type := mkFile { f_bytes : bytes; f_script : list transfer }.

Definition next_transfer (len : Z) : M File Z := fun f =>
  match f_script f with
  | [] => (Ok len, f)
  | Upto n :: s => (Ok (Z.min len (Z.max 1 n)), mkFile (f_bytes f) s)
  | TransferError :: s => (Err IoError, mkFile (f_bytes f) s)
  end.

(** [FileExt::read_at]: the bytes read, none at the end of the file. *)
Definition read_at (len offset : Z) : M File bytes :=
  let* f := gets f_bytes in
  let* n := next_transfer len in
  ret (take (Z.to_nat n) (drop (Z.to_nat offset) f)).

(** [FileExt::write_at]: the number of bytes written; the file grows as needed. *)
Definition write_at (input : bytes) (offset : Z) : M File Z :=
  let* n := next_transfer (lenZ input) in
  let* _ := modify (fun f =>
    let b := f_bytes f ++ zeros (offset - lenZ (f_bytes f)) in
    mkFile (take (Z.to_nat offset) b ++ take (Z.to_nat n) input ++ drop (Z.to_nat (offset + n)) b) (f_script f)) in
  ret n.

(** [read_exact_at]: fills a buffer of [len] bytes; every round transfers a byte at
    least, so [len] rounds and the final test are enough. *)
Fixpoint read_exact_loop (fuel : nat) (len offset : Z) : M File bytes :=
  match fuel with
  | O => panic
  | S fuel =>
      if len =? 0 then ret []
      else
        let* chunk := read_at len offset in
        if lenZ chunk =? 0 then fail IoError
        else
          let* rest := read_exact_loop fuel (len - lenZ chunk) (offset + lenZ chunk) in
          ret (chunk ++ rest)
  end.
Definition read_exact_at (len offset : Z) : M File bytes := read_exact_loop (S (Z.to_nat len)) len offset.

(** [write_all_at] *)
Fixpoint write_all_loop (fuel : nat) (input : bytes) (offset : Z) : M File unit :=
  match fuel with
  | O => panic
  | S fuel =>
      if lenZ input =? 0 then ret tt
      else
        let* written := write_at input offset in
        if written =? 0 then fail IoError
        else write_all_loop fuel (drop (Z.to_nat written) input) (offset + written)
  end.
Definition write_all_at (input : bytes) (offset : Z) : M File unit := write_all_loop (S (length input)) input offset.

(** [slice::sort_by_key], a stable sort. *)
Fixpoint insert_by_key {A} (key : A -> Z) (x : A) (l : list A) : list A :=
  match l with
  | [] => [x]
  | y :: l' => if key x <=? key y then x :: l else y :: insert_by_key key x l'
  end.
Definition sort_by_key {A} (key : A -> Z) (l : list A) : list A := foldr (insert_by_key key) [] l.

(** Mirror of [struct FilePageStore]. *)
Record FilePageStore : Type := mkFileStore { fp_page_size : Z; fp_page_count : Z; fp_file : File }.

Definition set_fp_file (f : File) (s : FilePageStore) : FilePageStore := mkFileStore (fp_page_size s) (fp_page_count s) f.
Definition on_file {A} (m : M File A) : M FilePageStore A := zoom fp_file set_fp_file m.

(** [FilePageStore::open] on a file that has the given contents; [set_len] cuts or
    extends it with zeros. *)
Definition file_open (contents : bytes) (script : list transfer) (page_count page_size : Z) : outcome FilePageStore :=
  if (page_count =? 0) || (page_size =? 0) then Err (InvalidInput "page_count and page_size must be > 0")
  else
    let len := wrap 64 (page_count * page_size) in
    Ok (mkFileStore page_size page_count
      (mkFile (take (Z.to_nat len) contents ++ zeros (len - lenZ contents)) script)).

(** [FilePageStore::offset] *)
Definition fp_offset (s : FilePageStore) (page_idx : Z) : outcome Z :=
  if fp_page_count s <=? page_idx then Err (InvalidInput "page_idx {} out of range {}")
  else Ok (page_idx * fp_page_size s).

(** [<FilePageStore as PageStore>::read_page] and [write_page] *)
Definition file_read_page (page_idx : Z) (out : bytes) : M FilePageStore bytes :=
  let* _ := check_page fp_page_size fp_page_count page_idx (lenZ out) in
  let* s := gets (fun s => s) in
  let* offset := lift (fp_offset s page_idx) in
  on_file (read_exact_at (lenZ out) offset).
Definition file_write_page (page_idx : Z) (input : bytes) : M FilePageStore unit :=
  let* _ := check_page fp_page_size fp_page_count page_idx (lenZ input) in
  let* s := gets (fun s => s) in
  let* offset := lift (fp_offset s page_idx) in
  on_file (write_all_at input offset).

(** [page_order] and [has_duplicate_pages] *)
Definition page_order (page_indices : list Z) : list Z := seqZ 0 (lenZ page_indices).
Fixpoint has_duplicate_pages (page_indices : list Z) (sorted_order : list Z) : outcome bool :=
  match sorted_order with
  | a :: (b :: _) as rest =>
      let? x := indexZ page_indices a in
      let? y := indexZ page_indices b in
      if x =? y then Ok true else has_duplicate_pages page_indices rest
  | _ => Ok false
  end.

(** The inner loop that extends a run: the positions of the consecutive pages after
    [prev_page], and the rest. *)
Fixpoint extend_run (s : FilePageStore) (page_indices : list Z) (prev_page : Z) (order : list Z) : outcome (list Z * list Z) :=
  match order with
  | [] => Ok ([], [])
  | pos :: rest =>
      let? next_page := indexZ page_indices pos in
      if negb (next_page =? prev_page + 1) then Ok ([], order)
      else
        let? _ := fp_offset s next_page in
        let? rr := extend_run s page_indices next_page rest in
        Ok (pos :: rr.1, rr.2)
  end.

(** One round of the outer loops: the first page of the next run, the run and the
    rest of the order. *)
Definition next_run (s : FilePageStore) (page_indices : list Z) (pos : Z) (order : list Z) : outcome (Z * list Z * list Z) :=
  let? first_page := indexZ page_indices pos in
  let? _ := fp_offset s first_page in
  let? rr := extend_run s page_indices first_page order in
  let? offset := fp_offset s first_page in
  Ok (offset, pos :: rr.1, rr.2).

(** Hand the pages of a run out to the positions that asked for them. *)
Definition scatter_run (page_size : Z) (run_buf : bytes) (pages : list bytes) (run : list Z) : outcome (list bytes) :=
  ofold (fun pages (rp : Z * Z) =>
    let? page := indexZ pages rp.2 in
    let? src := slice run_buf (rp.1 * page_size) page_size in
    let? page := copy_from_slice page src in
    updateZ pages rp.2 page) pages (enumerate run).

(** The outer loop of [read_pages]; every round consumes a position. *)
Fixpoint read_runs (fuel : nat) (page_indices order : list Z) (pages : list bytes) : M FilePageStore (list bytes) :=
  match order with
  | [] => ret pages
  | pos :: order =>
      match fuel with
      | O => panic
      | S fuel =>
          let* s := gets (fun s => s) in
          let* r := lift (next_run s page_indices pos order) in
          let '(offset, run, rest) := r in
          let* run_buf := on_file (read_exact_at (lenZ run * fp_page_size s) offset) in
          let* pages := lift (scatter_run (fp_page_size s) run_buf pages run) in
          read_runs fuel page_indices rest pages
      end
  end.

(** [<FilePageStore as PageStore>::read_pages] *)
Definition file_read_pages (page_indices : list Z) : M FilePageStore (list bytes) :=
  let* page_size := gets fp_page_size in
  let pages := replicate (length page_indices) (zeros page_size) in
  let order := sort_by_key (fun pos => default 0 (page_indices !! Z.to_nat pos)) (page_order page_indices) in
  read_runs (length order) page_indices order pages.

(** The outer loop of [write_pages]. *)
Fixpoint write_runs (fuel : nat) (page_indices order : list Z) (pages : list bytes) : M FilePageStore unit :=
  match order with
  | [] => ret tt
  | pos :: order =>
      match fuel with
      | O => panic
      | S fuel =>
          let* s := gets (fun s => s) in
          let* r := lift (next_run s page_indices pos order) in
          let '(offset, run, rest) := r in
          let* bufs := lift (omap_m (indexZ pages) run) in
          let* _ := on_file (write_all_at (concat bufs) offset) in
          write_runs fuel page_indices rest pages
      end
  end.

(** [<FilePageStore as PageStore>::write_pages] *)
Definition file_write_pages (page_indices : list Z) (pages : list bytes) : M FilePageStore unit :=
  let* _ := guardm (lenZ page_indices =? lenZ pages) (InvalidInput "page index count {} != page count {}") in
  let* size := gets fp_page_size in
  let* _ := guardm (forallb (fun page => lenZ page =? size) pages) (InvalidInput "page len {} != page_size {}") in
  let order := sort_by_key (fun pos => default 0 (page_indices !! Z.to_nat pos)) (page_order page_indices) in
  let* dup := lift (has_duplicate_pages page_indices order) in
  if dup : bool then iterM (fun ip : Z * bytes => file_write_page ip.1 ip.2) (zip page_indices pages)
  else write_runs (length order) page_indices order pages.

(** [<FilePageStore as PageStore>::flush]: [sync_all], which can fail. *)
Definition file_flush : M FilePageStore unit := on_file (let* _ := next_transfer 0 in ret tt).

#[export] Instance file_page_store : PageStore FilePageStore := {|
  ps_page_size := fp_page_size;
  ps_page_count := fp_page_count;
  ps_read_page := file_read_page;
  ps_write_page := file_write_page;
  ps_read_pages := file_read_pages;
  ps_write_pages := file_write_pages;
  ps_flush := file_flush;
  ps_tiered_merkle_state := fun _ => None
|}.

(** ** Transfers *)

Section Transfers.

Definition no_errors (f : File) : Prop := Forall (fun t => t <> TransferError) (f_script f).

Lemma next_transfer_ok len f : 0 < len -> no_errors f ->
  exists n f', next_transfer len f = (Ok n, f') /\ 0 < n <= len /\ f_bytes f' = f_bytes f /\ no_errors f'.
Proof.
  intros Hl Hf. unfold next_transfer, no_errors in *. destruct (f_script f) as [|[n|] sc] eqn:E.
  - exists len, f. rewrite E. split_and!; [done|lia|lia|done|constructor].
  - apply Forall_cons in Hf as [_ Hf]. eexists _, _. split_and!; [done|lia|lia|done|done].
  - by apply Forall_cons in Hf as [[] _].
Qed.

Lemma read_exact_ok len off f : no_errors f -> 0 <= off -> 0 <= len -> off + len <= lenZ (f_bytes f) ->
  exists f', read_exact_at len off f = (Ok (take (Z.to_nat len) (drop (Z.to_nat off) (f_bytes f))), f') /\
    f_bytes f' = f_bytes f /\ no_errors f'.
Proof.
  intros Hf Ho Hl Hle. unfold read_exact_at.
  assert (Z.to_nat len < S (Z.to_nat len))%nat as Hfuel by lia. revert Hfuel.
  generalize (S (Z.to_nat len)) as fuel. intros fuel. revert len off f Hf Ho Hl Hle.
  induction fuel as [|fuel IH]; intros len off f Hf Ho Hl Hle Hfuel; [lia|]. cbn [read_exact_loop].
  destruct (len =? 0) eqn:E; zbool; [subst; by exists f|].
  destruct (next_transfer_ok len f) as (n & f1 & E1 & Hn & Hb1 & Hf1); [lia|done|].
  unfold read_at. unfold bind at 1. rewrite bind_gets, (bind_eq _ _ _ _ _ E1). cbn [ret].
  set (chunk := take (Z.to_nat n) (drop (Z.to_nat off) (f_bytes f))).
  assert (lenZ chunk = n) as Hc. { unfold chunk, lenZ in *. rewrite length_take, length_drop. lia. }
  unfold ret at 1. rewrite Hc, (proj2 (Z.eqb_neq _ _)) by lia.
  destruct (IH (len - n) (off + n) f1) as (f2 & E2 & Hb2 & Hf2); [done|lia|lia|rewrite Hb1; lia|lia|].
  rewrite (bind_eq _ _ _ _ _ E2). exists f2. split_and!; [|congruence|done]. unfold ret. do 2 f_equal.
  rewrite Hb1. unfold chunk. replace (Z.to_nat len) with (Z.to_nat n + Z.to_nat (len - n))%nat by lia.
  rewrite <-take_take_drop, drop_drop. do 3 f_equal. lia.
Qed.

(** Overwriting a window in two pieces. *)
Lemma splice_pieces (l a b : bytes) off : 0 <= off -> off + lenZ a + lenZ b <= lenZ l ->
  splice l off (a ++ b) = let? l' := splice l off a in splice l' (off + lenZ a) b.
Proof.
  intros Ho Hl. pose proof (lenZ_nonneg a). pose proof (lenZ_nonneg b).
  destruct (slice_split l off (lenZ a)) as (x & y & z & -> & Hx & Hy & _); [lia..|].
  destruct (slice_split z 0 (lenZ b)) as (e & y2 & w & -> & He & Hy2 & _); [lia|lia|rewrite !lenZ_app in Hl; lia|].
  destruct e; [|rewrite lenZ_cons in He; pose proof (lenZ_nonneg e); lia]. cbn [app].
  rewrite (splice_app x y a) by done. cbn [obind].
  replace (x ++ y ++ y2 ++ w) with (x ++ (y ++ y2) ++ w) by (by rewrite <-app_assoc).
  rewrite (splice_app x (y ++ y2) (a ++ b)) by (rewrite ?lenZ_app; lia).
  replace (x ++ a ++ y2 ++ w) with ((x ++ a) ++ y2 ++ w) by (by rewrite <-app_assoc).
  rewrite (splice_app (x ++ a) y2 b) by (rewrite ?lenZ_app; lia). by rewrite <-!app_assoc.
Qed.

Lemma write_all_ok input off f : no_errors f -> 0 <= off -> off + lenZ input <= lenZ (f_bytes f) ->
  exists f', write_all_at input off f = (Ok tt, f') /\ splice (f_bytes f) off input = Ok (f_bytes f') /\ no_errors f'.
Proof.
  intros Hf Ho Hle. unfold write_all_at.
  assert (length input < S (length input))%nat as Hfuel by lia. revert Hfuel.
  generalize (S (length input)) as fuel. intros fuel. revert input off f Hf Ho Hle.
  induction fuel as [|fuel IH]; intros input off f Hf Ho Hle Hfuel; [lia|]. cbn [write_all_loop].
  destruct (lenZ input =? 0) eqn:E; zbool.
  { destruct input; [|rewrite lenZ_cons in E; pose proof (lenZ_nonneg input); lia]. exists f. split_and!; [done| |done].
    unfold splice. change (lenZ []) with 0 in *. rewrite (proj2 (andb_true_iff _ _)) by lia.
    rewrite Z.add_0_r. cbn [app]. by rewrite take_drop. }
  destruct (next_transfer_ok (lenZ input) f) as (n & f1 & E1 & Hn & Hb1 & Hf1); [pose proof (lenZ_nonneg input); lia|done|].
  unfold write_at. unfold bind at 1. rewrite (bind_eq _ _ _ _ _ E1), bind_modify. cbn [ret].
  rewrite (proj2 (Z.eqb_neq _ _)) by lia. rewrite Hb1.
  replace (zeros (off - lenZ (f_bytes f))) with (@nil Z) by (unfold zeros; by replace (Z.to_nat (off - lenZ (f_bytes f))) with 0%nat by lia).
  rewrite app_nil_r. set (f2 := mkFile _ _).
  assert (splice (f_bytes f) off (take (Z.to_nat n) input) = Ok (f_bytes f2)) as Hs.
  { unfold splice. assert (lenZ (take (Z.to_nat n) input) = n) as -> by (unfold lenZ in *; rewrite length_take; lia).
    by rewrite (proj2 (andb_true_iff _ _)) by lia. }
  destruct (IH (drop (Z.to_nat n) input) (off + n) f2) as (f3 & E3 & Hs3 & Hf3).
  - exact Hf1.
  - lia.
  - rewrite (splice_length _ _ _ _ Hs). unfold lenZ in *. rewrite length_drop. lia.
  - unfold lenZ in *. rewrite length_drop. lia.
  - exists f3. split_and!; [exact E3| |done]. rewrite <-(take_drop (Z.to_nat n) input) at 1.
    rewrite splice_pieces, Hs; [cbn [obind]|lia|unfold lenZ in *; rewrite length_take, length_drop; lia].
    rewrite <-Hs3. f_equal. unfold lenZ in *. rewrite length_take. lia.
Qed.

End Transfers.

(** ** Orders and runs *)

Section Orders.
Context {A : Type} (key : A -> Z).

Lemma insert_by_key_perm x l : insert_by_key key x l ≡ₚ x :: l.
Proof. induction l as [|y l IH]; simpl; [done|]. case_match; [done|]. rewrite IH. apply Permutation_swap. Qed.
Lemma sort_by_key_perm l : sort_by_key key l ≡ₚ l.
Proof. induction l as [|x l IH]; simpl; [done|]. by rewrite insert_by_key_perm, IH. Qed.

Lemma insert_by_key_sorted x l : Sorted (fun a b => key a <= key b) l -> Sorted (fun a b => key a <= key b) (insert_by_key key x l).
Proof.
  induction l as [|y l IH]; intros Hl; simpl; [by repeat constructor|].
  apply Sorted_inv in Hl as [Hl Hy]. destruct (key x <=? key y) eqn:E; zbool.
  - by repeat constructor.
  - constructor; [by apply IH|]. destruct l as [|z l]; simpl; [constructor; lia|].
    apply HdRel_inv in Hy. case_match; constructor; lia.
Qed.
Lemma sort_by_key_sorted l : Sorted (fun a b => key a <= key b) (sort_by_key key l).
Proof. induction l as [|x l IH]; simpl; [constructor|]. by apply insert_by_key_sorted. Qed.

End Orders.

Section Runs.
Context (s : FilePageStore) (idxs : list Z).
Context (Hidx : Forall (in_range (fp_page_count s)) idxs).

Definition idx_at (idxs : list Z) (pos : Z) : Z := default 0 (idxs !! Z.to_nat pos).
Definition valid_pos (pos : Z) : Prop := 0 <= pos < lenZ idxs.

Lemma idx_at_index pos : valid_pos pos -> indexZ idxs pos = Ok (idx_at idxs pos) /\ in_range (fp_page_count s) (idx_at idxs pos).
Proof.
  intros [H0 H1]. unfold lenZ in H1. destruct (lookup_lt_is_Some_2 idxs (Z.to_nat pos)) as [x Hx]; [lia|].
  unfold idx_at. rewrite Hx. cbn. split; [by apply indexZ_Ok|]. by eapply Forall_lookup_1.
Qed.

Lemma fp_offset_ok i : in_range (fp_page_count s) i -> fp_offset s i = Ok (i * fp_page_size s).
Proof. intros [? ?]. unfold fp_offset. by rewrite (proj2 (Z.leb_gt _ _)) by lia. Qed.

Lemma extend_run_ok prev order : Forall valid_pos order ->
  exists run rest, extend_run s idxs prev order = Ok (run, rest) /\ order = run ++ rest /\
    idx_at idxs <$> run = seqZ (prev + 1) (lenZ run).
Proof.
  intros Ho. revert prev. induction Ho as [|pos order Hp _ IH]; intros prev; cbn [extend_run]; [by exists [], []|].
  destruct (idx_at_index pos Hp) as [-> Hr]. cbn [obind].
  destruct (idx_at idxs pos =? prev + 1) eqn:E; cbn [negb]; zbool; [|by exists [], (pos :: order)].
  rewrite fp_offset_ok by done. cbn [obind]. destruct (IH (idx_at idxs pos)) as (run & rest & -> & -> & Hrun).
  cbn [obind fst snd]. exists (pos :: run), rest. split_and!; [done|done|]. rewrite fmap_cons, Hrun, E, lenZ_cons.
  pose proof (lenZ_nonneg run). rewrite (seqZ_cons (prev + 1)) by lia. do 2 f_equal; lia.
Qed.

Lemma next_run_ok pos order : Forall valid_pos (pos :: order) ->
  exists run rest, next_run s idxs pos order = Ok (idx_at idxs pos * fp_page_size s, pos :: run, rest) /\
    order = run ++ rest /\ idx_at idxs <$> pos :: run = seqZ (idx_at idxs pos) (lenZ (pos :: run)).
Proof.
  intros [Hp Ho]%Forall_cons. unfold next_run. destruct (idx_at_index pos Hp) as [-> Hr]. cbn [obind].
  rewrite fp_offset_ok by done. cbn [obind]. destruct (extend_run_ok (idx_at idxs pos) order Ho) as (run & rest & -> & -> & Hrun).
  cbn [obind fst snd]. exists run, rest. split_and!; [done|done|].
  rewrite lenZ_cons. pose proof (lenZ_nonneg run). rewrite seqZ_cons by lia. rewrite fmap_cons, Hrun. do 2 f_equal; lia.
Qed.

End Runs.

(** ** Runs of pages in the file *)

Section Regions.
Context (n size : Z) (Hsize : 0 < size).

Lemma region_run buf first (k : nat) : lenZ buf = n * size -> bytes_ok buf -> 0 <= first -> first + Z.of_nat k <= n ->
  take (Z.to_nat (Z.of_nat k * size)) (drop (Z.to_nat (first * size)) buf) = concat (page_at size buf <$> seqZ first (Z.of_nat k)).
Proof.
  intros Hl Hb. revert first. induction k as [|k IH]; intros first Hf Hk; [done|].
  rewrite seqZ_cons by lia. cbn [fmap list_fmap concat]. unfold page_at at 1.
  replace (Z.succ first) with (first + 1) by lia. replace (Z.pred (Z.of_nat (S k))) with (Z.of_nat k) by lia.
  rewrite <-IH by lia. replace (Z.to_nat (Z.of_nat (S k) * size)) with (Z.to_nat size + Z.to_nat (Z.of_nat k * size))%nat by nia.
  rewrite <-take_take_drop, drop_drop. do 3 f_equal. nia.
Qed.

Lemma region_splice_run ps buf first : lenZ buf = n * size -> bytes_ok buf -> 0 <= first -> first + lenZ ps <= n ->
  Forall (page_ok size) ps ->
  exists buf', splice buf (first * size) (concat ps) = Ok buf' /\ lenZ buf' = n * size /\ bytes_ok buf' /\
    forall j, in_range n j -> page_at size buf' j = pages_upd (seqZ first (lenZ ps)) ps (page_at size buf) j.
Proof.
  intros Hl Hb Hf Hk Hps. revert buf first Hl Hb Hf Hk. induction Hps as [|p ps Hp Hps IH]; intros buf first Hl Hb Hf Hk.
  { exists buf. change (lenZ []) with 0 in *. cbn [concat]. split_and!; [|done|done|done].
    unfold splice. change (lenZ []) with 0. assert (first * size <= n * size) by (apply Z.mul_le_mono_nonneg_r; lia).
    rewrite (proj2 (andb_true_iff _ _)) by nia. rewrite Z.add_0_r. cbn [app]. by rewrite take_drop. }
  rewrite lenZ_cons in Hk. pose proof (lenZ_nonneg ps). cbn [concat].
  assert (lenZ (concat ps) = lenZ ps * size) as Hc.
  { apply lenZ_concat. eapply Forall_impl; [exact Hps|]. by intros ? []. }
  rewrite splice_pieces; [|nia|rewrite Hc, (proj1 Hp), Hl; assert ((first + (1 + lenZ ps)) * size <= n * size) by (apply Z.mul_le_mono_nonneg_r; lia); lia].
  destruct (region_splice n size Hsize buf first p Hl Hb) as (b1 & -> & Hl1 & Hb1 & Hj1); [split; lia|done|]. cbn [obind].
  destruct Hp as [Hp _]. rewrite Hp. replace (first * size + size) with ((first + 1) * size) by lia.
  destruct (IH b1 (first + 1)) as (b2 & E2 & Hl2 & Hb2 & Hj2); [done|done|lia|lia|].
  exists b2. split_and!; [done|done|done|]. intros j Hj. rewrite Hj2 by done. rewrite lenZ_cons, (seqZ_cons first) by lia.
  cbn [pages_upd]. replace (Z.pred (1 + lenZ ps)) with (lenZ ps) by lia. replace (Z.succ first) with (first + 1) by lia.
  apply pages_upd_pointwise. by apply Hj1.
Qed.

End Regions.

(** Handing out a run: the positions of the run get their pages. *)
Lemma scatter_run_ok size (f : Z -> bytes) run : 0 < size -> forall i pre pages,
  lenZ pre = i * size -> 0 <= i ->
  Forall (fun pos => 0 <= pos < lenZ pages /\ lenZ (f pos) = size) run -> Forall (fun page => lenZ page = size) pages ->
  exists pages', ofold (fun pages (rp : Z * Z) =>
      let? page := indexZ pages rp.2 in
      let? src := slice (pre ++ concat (f <$> run)) (rp.1 * size) size in
      let? page := copy_from_slice page src in
      updateZ pages rp.2 page) pages (enumerate_from i run) = Ok pages' /\
    lenZ pages' = lenZ pages /\ Forall (fun page => lenZ page = size) pages' /\
    (forall pos, pos ∈ run -> pages' !! Z.to_nat pos = Some (f pos)) /\
    forall pos, 0 <= pos -> pos ∉ run -> pages' !! Z.to_nat pos = pages !! Z.to_nat pos.
Proof.
  intros Hs. induction run as [|pos run IH]; intros i pre pages Hpre Hi Hrun Hpg.
  { exists pages. split_and!; try done. intros pos Hpos. by apply not_elem_of_nil in Hpos. }
  apply Forall_cons in Hrun as [[Hpos Hfl] Hrun]. cbn [enumerate_from ofold fst snd fmap list_fmap concat].
  destruct (lookup_lt_is_Some_2 pages (Z.to_nat pos)) as [page Hpage]; [unfold lenZ in Hpos; lia|].
  rewrite (proj2 (indexZ_Ok pages pos page)) by (split; [lia|done]). cbn [obind].
  rewrite (slice_app pre (f pos)) by lia. cbn [obind]. unfold copy_from_slice at 1.
  assert (lenZ page = size) as Hpl by (eapply Forall_lookup_1 in Hpg; done). rewrite Hpl, Hfl, Z.eqb_refl. cbn [obind].
  unfold updateZ at 1. rewrite (proj2 (andb_true_iff _ _)) by lia. cbn [obind].
  destruct (IH (i + 1) (pre ++ f pos) (<[Z.to_nat pos := f pos]> pages)) as (pages' & E & Hl & Hpg' & Hin & Hout).
  - rewrite lenZ_app. lia.
  - lia.
  - eapply Forall_impl; [exact Hrun|]. intros q [? ?]. unfold lenZ in *. by rewrite length_insert.
  - by apply Forall_insert.
  - rewrite <-app_assoc in E. exists pages'. split_and!; [exact E| |done| |].
    + rewrite Hl. unfold lenZ. by rewrite length_insert.
    + intros q [->|Hq]%elem_of_cons; [|by apply Hin]. destruct (decide (pos ∈ run)); [by apply Hin|].
      rewrite Hout by (lia || done). apply list_lookup_insert_eq. by apply lookup_lt_Some in Hpage.
    + intros q Hq [Hne Hq']%not_elem_of_cons. rewrite Hout by done. apply list_lookup_insert_ne. lia.
Qed.

(** ** The store is an array of pages *)

Record file_ok (s : FilePageStore) : Prop := {
  fo_size : 0 < fp_page_size s;
  fo_count : 0 < fp_page_count s;
  fo_len : lenZ (f_bytes (fp_file s)) = fp_page_count s * fp_page_size s;
  fo_bytes : bytes_ok (f_bytes (fp_file s));
  fo_script : no_errors (fp_file s)
}.
Definition file_content (s : FilePageStore) (i : Z) : bytes := page_at (fp_page_size s) (f_bytes (fp_file s)) i.
Local Abbreviation next := (page_next file_ok fp_page_size fp_page_count file_content).

Section Lawful.

Lemma file_content_ok s i : file_ok s -> in_range (fp_page_count s) i -> page_ok (fp_page_size s) (file_content s i).
Proof. intros [] Hi. by apply (region_slice (fp_page_count s)). Qed.

Lemma file_check_ok s i len :
  in_range (fp_page_count s) i -> len = fp_page_size s -> check_page fp_page_size fp_page_count i len s = (Ok tt, s).
Proof.
  intros Hi ->. unfold check_page. rewrite bind_gets, bind_guardm, bind_gets. destruct Hi.
  rewrite (proj2 (Z.leb_gt _ _)) by lia. cbn [negb]. unfold guardm. by rewrite Z.eqb_refl.
Qed.

(** Reading and writing [k] consecutive pages. *)
Lemma file_read_run s first (k : nat) : file_ok s -> 0 <= first -> first + Z.of_nat k <= fp_page_count s ->
  exists s', on_file (read_exact_at (Z.of_nat k * fp_page_size s) (first * fp_page_size s)) s =
      (Ok (concat (file_content s <$> seqZ first (Z.of_nat k))), s') /\ next s (file_content s) s'.
Proof.
  intros Hs Hf Hk. destruct Hs as [Hs1 Hs2 Hs3 Hs4 Hs5].
  assert ((first + Z.of_nat k) * fp_page_size s <= fp_page_count s * fp_page_size s) by (apply Z.mul_le_mono_nonneg_r; lia).
  destruct (read_exact_ok (Z.of_nat k * fp_page_size s) (first * fp_page_size s) (fp_file s) Hs5) as (f' & E & Hb & Hf'); [nia|nia|lia|].
  exists (set_fp_file f' s). unfold file_content. rewrite <-(region_run (fp_page_count s)) by done.
  split; [by apply zoom_eq|]. split; [split; cbn; rewrite ?Hb; done|]. split_and!; [done|done|]. intros j Hj. cbn. by rewrite Hb.
Qed.

Lemma file_write_run s first ps : file_ok s -> 0 <= first -> first + lenZ ps <= fp_page_count s ->
  Forall (page_ok (fp_page_size s)) ps ->
  exists s', on_file (write_all_at (concat ps) (first * fp_page_size s)) s = (Ok tt, s') /\
    next s (pages_upd (seqZ first (lenZ ps)) ps (file_content s)) s'.
Proof.
  intros [Hs1 Hs2 Hs3 Hs4 Hs5] Hf Hk Hp.
  destruct (region_splice_run (fp_page_count s) (fp_page_size s) Hs1 ps (f_bytes (fp_file s)) first Hs3 Hs4 Hf Hk Hp)
    as (b' & Es & Hl & Hb & Hj).
  assert (lenZ (concat ps) = lenZ ps * fp_page_size s) as Hc.
  { apply lenZ_concat. eapply Forall_impl; [exact Hp|]. by intros ? []. }
  assert ((first + lenZ ps) * fp_page_size s <= fp_page_count s * fp_page_size s) by (apply Z.mul_le_mono_nonneg_r; lia).
  destruct (write_all_ok (concat ps) (first * fp_page_size s) (fp_file s) Hs5) as (f' & E & Es' & Hf'); [nia|lia|].
  rewrite Es in Es'. injection Es' as Es'. exists (set_fp_file f' s). split; [by apply zoom_eq|].
  split; [split; cbn; rewrite <-?Es'; done|]. split_and!; [done|done|]. intros j Hjr. unfold file_content at 1. cbn. rewrite <-Es'.
  by apply Hj.
Qed.

Lemma file_read_page_ok s i out : file_ok s -> in_range (fp_page_count s) i -> lenZ out = fp_page_size s ->
  exists s', file_read_page i out s = (Ok (file_content s i), s') /\ next s (file_content s) s'.
Proof.
  intros Hs Hi Ho. unfold file_read_page. rewrite (bind_eq _ _ _ _ _ (file_check_ok s i _ Hi Ho)), bind_gets, fp_offset_ok, bind_lift by done.
  destruct (file_read_run s i 1 Hs) as (s' & E & Hn); [destruct Hi; lia..|]. rewrite Z.mul_1_l in E. rewrite Ho, E.
  exists s'. split; [|done]. rewrite (seqZ_cons i (Z.of_nat 1)) by lia. cbn. by rewrite app_nil_r.
Qed.

Lemma file_write_page_ok s i page : file_ok s -> in_range (fp_page_count s) i -> page_ok (fp_page_size s) page ->
  exists s', file_write_page i page s = (Ok tt, s') /\ next s (page_upd i page (file_content s)) s'.
Proof.
  intros Hs Hi Hp. unfold file_write_page.
  rewrite (bind_eq _ _ _ _ _ (file_check_ok s i _ Hi (proj1 Hp))), bind_gets, fp_offset_ok, bind_lift by done.
  destruct (file_write_run s i [page] Hs) as (s' & E & Hn); [destruct Hi; unfold lenZ; cbn; lia..|by apply Forall_singleton|].
  cbn [concat] in E. rewrite app_nil_r in E. rewrite E. exists s'. split; [done|].
  rewrite (seqZ_cons i (lenZ [page])) in Hn by (unfold lenZ; cbn; lia). exact Hn.
Qed.

Lemma read_runs_ok idxs (f : Z -> bytes) fuel : forall order s pages,
  file_ok s -> Forall (in_range (fp_page_count s)) idxs -> (forall j, in_range (fp_page_count s) j -> file_content s j = f j) ->
  Forall (valid_pos idxs) order -> (length order <= fuel)%nat ->
  lenZ pages = lenZ idxs -> Forall (fun page => lenZ page = fp_page_size s) pages ->
  exists pages' s', read_runs fuel idxs order pages s = (Ok pages', s') /\ next s (file_content s) s' /\
    lenZ pages' = lenZ idxs /\
    (forall pos, pos ∈ order -> pages' !! Z.to_nat pos = Some (f (idx_at idxs pos))) /\
    forall pos, 0 <= pos -> pos ∉ order -> pages' !! Z.to_nat pos = pages !! Z.to_nat pos.
Proof.
  induction fuel as [|fuel IH]; intros [|pos order] s pages Hs Hi Hf Ho Hfuel Hl Hp; cbn [read_runs length] in *;
    try (exists pages, s; split_and!; [done|by apply page_next_refl|done|intros q Hq; by apply not_elem_of_nil in Hq|done]); [lia|].
  destruct (next_run_ok s idxs Hi pos order Ho) as (run & rest & En & -> & Hrun).
  rewrite bind_gets, En, bind_lift. set (r := pos :: run) in *.
  assert (Forall (valid_pos idxs) r /\ Forall (valid_pos idxs) rest) as [Hr Hrest].
  { rewrite app_comm_cons in Ho. by apply Forall_app in Ho. }
  assert (Forall (in_range (fp_page_count s)) (idx_at idxs <$> r)) as Hrr.
  { apply Forall_fmap. eapply Forall_impl; [exact Hr|]. intros q Hq. by apply (idx_at_index s idxs Hi). }
  pose proof (Forall_inv Hr) as Hpos. destruct (idx_at_index s idxs Hi pos Hpos) as [_ Hfirst].
  assert (idx_at idxs pos + lenZ r <= fp_page_count s) as Hend.
  { rewrite Hrun in Hrr. rewrite Forall_forall in Hrr. 
    destruct (Hrr (idx_at idxs pos + lenZ r - 1)) as [_ Hx]; [|lia]. apply elem_of_seqZ. unfold r. rewrite lenZ_cons. pose proof (lenZ_nonneg run). lia. }
  destruct (file_read_run s (idx_at idxs pos) (length r) Hs) as (s1 & E1 & Hn1); [apply Hfirst|exact Hend|].
  rewrite (bind_eq _ _ _ _ _ E1). pose proof Hn1 as (Hs1 & Hsz1 & Hc1 & Hf1).
  change (Z.of_nat (length r)) with (lenZ r). rewrite <-Hrun, <-list_fmap_compose.
  destruct (scatter_run_ok (fp_page_size s) (file_content s ∘ idx_at idxs) r (fo_size s Hs) 0 [] pages) as (p1 & Ep & Hl1 & Hp1 & Hin & Hout).
  { done. } { done. }
  { eapply Forall_impl; [exact Hr|]. intros q Hq. split; [by rewrite Hl|]. apply file_content_ok; [done|]. by apply (idx_at_index s idxs Hi). }
  { done. }
  cbn [app] in Ep. unfold scatter_run, enumerate. rewrite Ep, bind_lift.
  destruct (IH rest s1 p1 Hs1) as (p2 & s2 & E2 & Hn2 & Hl2 & Hin2 & Hout2).
  { by rewrite Hc1. } { intros j Hj. rewrite Hc1 in Hj. rewrite Hf1 by done. by apply Hf. } { done. }
  { rewrite length_app in Hfuel. lia. } { by rewrite Hl1. } { by rewrite Hsz1. }
  exists p2, s2. split_and!; [exact E2| |done| |].
  - eapply page_next_trans; [exact Hn1|]. eapply page_next_ext; [|exact Hn2]. intros j Hj. apply Hf1. by rewrite <-Hc1.
  - intros q Hq. destruct (decide (q ∈ rest)); [by apply Hin2|].
    rewrite app_comm_cons in Hq. apply elem_of_app in Hq as [Hq|Hq]; [|done].
    rewrite Forall_forall in Hr. rewrite Hout2 by (apply Hr in Hq; destruct Hq; lia || done). rewrite Hin by done. cbn.
    rewrite Hf; [done|]. by apply (idx_at_index s idxs Hi), Hr.
  - intros q Hq Hn. rewrite app_comm_cons in Hn. apply not_elem_of_app in Hn as [? ?]. rewrite Hout2 by done. by apply Hout.
Qed.

Lemma page_order_sorted idxs key : sort_by_key key (page_order idxs) ≡ₚ seqZ 0 (lenZ idxs).
Proof. apply sort_by_key_perm. Qed.

Lemma page_order_valid idxs key : Forall (valid_pos idxs) (sort_by_key key (page_order idxs)).
Proof. rewrite page_order_sorted. apply Forall_forall. intros x Hx%elem_of_seqZ. unfold valid_pos. lia. Qed.

Lemma file_read_pages_ok s idxs : file_ok s -> Forall (in_range (fp_page_count s)) idxs ->
  exists s', file_read_pages idxs s = (Ok (file_content s <$> idxs), s') /\ next s (file_content s) s'.
Proof.
  intros Hs Hi. unfold file_read_pages. rewrite bind_gets.
  set (order := sort_by_key _ _). pose proof (page_order_valid idxs (fun pos => default 0 (idxs !! Z.to_nat pos))) as Hv.
  pose proof (page_order_sorted idxs (fun pos => default 0 (idxs !! Z.to_nat pos))) as Hperm. fold order in Hv, Hperm.
  destruct (read_runs_ok idxs (file_content s) (length order) order s (replicate (length idxs) (zeros (fp_page_size s))))
    as (pages & s' & E & Hn & Hl & Hin & _); try done.
  - unfold lenZ. by rewrite length_replicate.
  - apply Forall_replicate. apply lenZ_zeros. destruct Hs. lia.
  - exists s'. split; [|done]. rewrite E. do 2 f_equal. apply list_eq. intros k. rewrite list_lookup_fmap.
    destruct (decide (k < length idxs)%nat) as [Hk|Hk].
    + specialize (Hin (Z.of_nat k)). rewrite Nat2Z.id in Hin. rewrite Hin.
      * unfold idx_at. rewrite Nat2Z.id. destruct (lookup_lt_is_Some_2 idxs k Hk) as [x ->]. done.
      * rewrite Hperm. apply elem_of_seqZ. unfold lenZ. lia.
    + unfold lenZ in Hl. rewrite (lookup_ge_None_2 pages), (lookup_ge_None_2 idxs) by lia. done.
Qed.

(** The pages of a permutation of distinct indices can be written in any order. *)
Lemma pages_upd_perm {A} idxs (pages : list A) (order : list Z) f j :
  length idxs = length pages -> NoDup idxs -> order ≡ₚ seqZ 0 (lenZ idxs) ->
  forall ps, Forall2 (fun pos p => pages !! Z.to_nat pos = Some p) order ps ->
  pages_upd (idx_at idxs <$> order) ps f j = pages_upd idxs pages f j.
Proof.
  intros Hl Hnd Hperm ps Hps.
  assert (forall pos, pos ∈ order -> 0 <= pos < lenZ idxs) as Hin by (intros pos Hp; rewrite Hperm in Hp; apply elem_of_seqZ in Hp; lia).
  assert (NoDup order) as Hndo by (rewrite Hperm; apply NoDup_seqZ).
  assert (forall pos, 0 <= pos < lenZ idxs -> idxs !! Z.to_nat pos = Some (idx_at idxs pos)) as Hat.
  { intros pos Hp. unfold idx_at, lenZ in *. destruct (lookup_lt_is_Some_2 idxs (Z.to_nat pos)) as [x ->]; [lia|done]. }
  destruct (decide (j ∈ idxs)) as [Hj|Hj].
  - apply list_elem_of_lookup in Hj as [d Hd]. pose proof (lookup_lt_Some _ _ _ Hd) as Hlt.
    destruct (lookup_lt_is_Some_2 pages d) as [p Hp]; [lia|]. rewrite (pages_upd_lookup idxs pages f d j p) by done.
    assert (Z.of_nat d ∈ order) as Ho by (rewrite Hperm; apply elem_of_seqZ; unfold lenZ; lia).
    apply list_elem_of_lookup in Ho as [k Hk]. apply (Forall2_lookup_l _ _ _ _ _ Hps) in Hk as Hk2.
    destruct Hk2 as (p' & Hp' & Hpp). rewrite Nat2Z.id in Hpp. replace p' with p in Hp' by congruence.
    apply (pages_upd_lookup _ _ _ k); [| |done].
    + clear Hps Hperm Hk. induction Hndo as [|x l Hx Hndl IH]; [constructor|]. rewrite fmap_cons. constructor.
      * intros (y & Hy & Hyl)%list_elem_of_fmap. pose proof (Hin x ltac:(set_solver)) as Hx1.
        pose proof (Hin y ltac:(set_solver)) as Hy1. pose proof (Hat x Hx1) as A1. pose proof (Hat y Hy1) as A2. rewrite <-Hy in A2.
        pose proof (NoDup_lookup _ _ _ _ Hnd A1 A2). assert (x = y) by lia. by subst.
      * apply IH. set_solver.
    + rewrite list_lookup_fmap, Hk. cbn. unfold idx_at. by rewrite Nat2Z.id, Hd.
  - rewrite !pages_upd_not_elem; [done|done|]. intros (y & -> & Hyl)%list_elem_of_fmap. apply Hj.
    apply Hin, Hat in Hyl. by eapply list_elem_of_lookup_2.
Qed.

Lemma write_runs_ok idxs pages fuel : forall order s ps,
  file_ok s -> Forall (in_range (fp_page_count s)) idxs -> Forall (valid_pos idxs) order -> (length order <= fuel)%nat ->
  Forall (page_ok (fp_page_size s)) pages -> Forall2 (fun pos p => pages !! Z.to_nat pos = Some p) order ps ->
  exists s', write_runs fuel idxs order pages s = (Ok tt, s') /\
    next s (pages_upd (idx_at idxs <$> order) ps (file_content s)) s'.
Proof.
  induction fuel as [|fuel IH]; intros [|pos order] s ps Hs Hi Ho Hfuel Hp Hps; cbn [write_runs length] in *;
    try (exists s; split; [done|exact (page_next_refl s Hs)]); [lia|].
  destruct (next_run_ok s idxs Hi pos order Ho) as (run & rest & En & -> & Hrun).
  rewrite bind_gets, En, bind_lift. set (r := pos :: run) in *. rewrite app_comm_cons in Hps, Ho |- *.
  fold r in Hps, Ho |- *. apply Forall_app in Ho as [Hr Hrest]. apply Forall2_app_inv_l in Hps as (ps1 & ps2 & Hps1 & Hps2 & ->).
  assert (Forall (in_range (fp_page_count s)) (idx_at idxs <$> r)) as Hrr.
  { apply Forall_fmap. eapply Forall_impl; [exact Hr|]. intros q Hq. by apply (idx_at_index s idxs Hi). }
  pose proof (Forall_inv Hr) as Hpos. destruct (idx_at_index s idxs Hi pos Hpos) as [_ Hfirst].
  assert (lenZ ps1 = lenZ r) as Hl1 by (unfold lenZ; by rewrite <-(Forall2_length _ _ _ Hps1)).
  assert (idx_at idxs pos + lenZ ps1 <= fp_page_count s) as Hend.
  { rewrite Hrun in Hrr. rewrite Forall_forall in Hrr. rewrite Hl1.
    destruct (Hrr (idx_at idxs pos + lenZ r - 1)) as [_ Hx]; [|lia]. apply elem_of_seqZ. unfold r. rewrite lenZ_cons. pose proof (lenZ_nonneg run). lia. }
  assert (omap_m (indexZ pages) r = Ok ps1) as ->.
  { apply omap_m_Ok. apply Forall2_same_length_lookup. split; [by eapply Forall2_length|]. intros k q p Hq Hpq.
    apply indexZ_Ok. pose proof (Forall_lookup_1 _ _ _ _ Hr Hq) as [? _]. split; [done|]. by eapply (Forall2_lookup_lr _ _ _ _ _ _ Hps1). }
  rewrite bind_lift. destruct (file_write_run s (idx_at idxs pos) ps1 Hs) as (s1 & E1 & Hn1); [apply Hfirst|done| |].
  { apply Forall_lookup. intros k p Hk. apply (Forall2_lookup_r _ _ _ _ _ Hps1) in Hk as (q & _ & Hq). by eapply Forall_lookup_1 in Hp. }
  rewrite (bind_eq _ _ _ _ _ E1). pose proof Hn1 as (Hs1 & Hsz1 & Hc1 & Hf1).
  destruct (IH rest s1 ps2 Hs1) as (s2 & E2 & Hn2); [by rewrite Hc1|done|rewrite length_app in Hfuel; lia|by rewrite Hsz1|done|].
  exists s2. split; [exact E2|]. eapply page_next_trans; [exact Hn1|]. eapply page_next_ext; [|exact Hn2].
  intros j Hj. rewrite fmap_app, pages_upd_app by (rewrite length_fmap; by eapply Forall2_length).
  apply pages_upd_pointwise. rewrite Hrun, <-Hl1. apply Hf1. by rewrite <-Hc1.
Qed.

(** On a sorted order the neighbour test finds every duplicate. *)
Lemma has_duplicates_sorted idxs (order : list Z) : Forall (valid_pos idxs) order ->
  Sorted (fun a b => idx_at idxs a <= idx_at idxs b) order ->
  exists d, has_duplicate_pages idxs order = Ok d /\ (d = false -> NoDup (idx_at idxs <$> order)).
Proof.
  intros Hv Hso. apply Sorted_StronglySorted in Hso; [|intros a b c; lia].
  induction Hso as [|a order Hso IH Ha]; [exists false; split; [done|constructor]|].
  apply Forall_cons in Hv as [Hva Hv]. destruct (IH Hv) as (d & E & Hd).
  destruct order as [|b order]; [exists false; split; [done|intros _; cbn; repeat constructor; apply not_elem_of_nil]|].
  assert (forall q, valid_pos idxs q -> indexZ idxs q = Ok (idx_at idxs q)) as Hix.
  { intros q [? ?]. unfold lenZ in *. destruct (lookup_lt_is_Some_2 idxs (Z.to_nat q)) as [x Hx]; [lia|].
    unfold idx_at. rewrite Hx. by apply indexZ_Ok. }
  change (has_duplicate_pages idxs (a :: b :: order)) with
    (let? x := indexZ idxs a in let? y := indexZ idxs b in if x =? y then Ok true else has_duplicate_pages idxs (b :: order)).
  rewrite (Hix a Hva), (Hix b (Forall_inv Hv)). cbn [obind].
  destruct (idx_at idxs a =? idx_at idxs b) eqn:Eab; zbool; [by exists true|]. exists d. split; [done|].
  intros Hdf. rewrite fmap_cons. constructor; [|by apply Hd].
  intros (c & Hc & Hcl)%list_elem_of_fmap. pose proof (Forall_inv Ha) as Hab. apply Eab.
  apply elem_of_cons in Hcl as [->|Hcl]; [done|]. apply StronglySorted_inv in Hso as [_ Hb]. rewrite Forall_forall in Hb.
  specialize (Hb c Hcl). cbn in *. lia.
Qed.

Lemma idx_at_order idxs : idx_at idxs <$> seqZ 0 (lenZ idxs) = idxs.
Proof.
  apply list_eq. intros k. rewrite list_lookup_fmap. destruct (decide (k < length idxs)%nat) as [Hk|Hk].
  - rewrite (proj2 (lookup_seqZ 0 (lenZ idxs) k (Z.of_nat k))) by (unfold lenZ; lia). cbn. unfold idx_at. rewrite Nat2Z.id.
    by destruct (lookup_lt_is_Some_2 idxs k Hk) as [x ->].
  - rewrite (lookup_ge_None_2 idxs) by lia. rewrite lookup_ge_None_2; [done|]. rewrite length_seqZ. unfold lenZ. lia.
Qed.

Lemma positions_total {A} (pages : list A) (order : list Z) : (forall q, q ∈ order -> 0 <= q < lenZ pages) ->
  exists ps, Forall2 (fun pos p => pages !! Z.to_nat pos = Some p) order ps.
Proof.
  induction order as [|q order IH]; intros Hq; [by exists []|]. destruct IH as [ps Hps]; [set_solver|].
  specialize (Hq q ltac:(set_solver)). unfold lenZ in Hq. destruct (lookup_lt_is_Some_2 pages (Z.to_nat q)) as [p Hp]; [lia|].
  exists (p :: ps). by constructor.
Qed.

Lemma file_write_pages_ok s idxs pages : file_ok s -> Forall (in_range (fp_page_count s)) idxs ->
  Forall (page_ok (fp_page_size s)) pages -> length idxs = length pages ->
  exists s', file_write_pages idxs pages s = (Ok tt, s') /\ next s (pages_upd idxs pages (file_content s)) s'.
Proof.
  intros Hs Hi Hp Hl. unfold file_write_pages. rewrite bind_guardm, (proj2 (Z.eqb_eq _ _)) by (unfold lenZ; lia).
  rewrite bind_gets, bind_guardm.
  assert (forallb (fun page => lenZ page =? fp_page_size s) pages = true) as ->.
  { apply forallb_forall. intros x Hx. apply Z.eqb_eq. rewrite Forall_forall in Hp. apply Hp. by apply list_elem_of_In. }
  set (order := sort_by_key _ _). pose proof (page_order_valid idxs (idx_at idxs)) as Hv.
  pose proof (page_order_sorted idxs (idx_at idxs)) as Hperm. pose proof (sort_by_key_sorted (idx_at idxs) (page_order idxs)) as Hso.
  change (sort_by_key (idx_at idxs) (page_order idxs)) with order in *.
  destruct (has_duplicates_sorted idxs order Hv Hso) as (d & -> & Hd). rewrite bind_lift. destruct d.
  - destruct (default_write_pages_ok file_write_page file_write_page_ok s idxs pages Hs Hi Hp Hl) as (s' & E & Hn).
    exists s'. split; [|done]. unfold default_write_pages in E.
    rewrite bind_guardm, (proj2 (Z.eqb_eq _ _)), bind_gets in E by (unfold lenZ; lia). rewrite <-E. clear E Hn Hso Hperm Hv Hd order.
    assert (Forall (fun ip : Z * bytes => lenZ ip.2 = fp_page_size s) (zip idxs pages)) as Hz.
    { apply Forall_forall. intros [i p] Hx. rewrite Forall_forall in Hp. apply elem_of_zip_r in Hx. by apply Hp in Hx as []. }
    generalize s at 1 3. induction Hz as [|[i p] l Hlen _ IH]; intros s0; [done|]. cbn [iterM fst snd] in *.
    unfold bind at 1 2. rewrite bind_guardm, Hlen, Z.eqb_refl. destruct (file_write_page i p s0) as [[] s1]; [apply IH|done..].
  - specialize (Hd eq_refl). assert (NoDup idxs) as Hnd by (rewrite <-(idx_at_order idxs), <-Hperm; done).
    destruct (positions_total pages order) as (ps & Hps). { intros q Hq. rewrite Forall_forall in Hv. destruct (Hv q Hq). unfold lenZ in *. lia. }
    destruct (write_runs_ok idxs pages (length order) order s ps Hs Hi Hv) as (s' & E & Hn); [done|done|done|].
    exists s'. split; [exact E|]. eapply page_next_ext; [|exact Hn]. intros j _. by apply pages_upd_perm.
Qed.

End Lawful.

Lemma file_flush_ok s : file_ok s -> exists s', file_flush s = (Ok tt, s') /\ next s (file_content s) s'.
Proof.
  intros Hs. destruct Hs as [H1 H2 H3 H4 H5].
  assert (exists f', next_transfer 0 (fp_file s) = (Ok 0, f') /\ f_bytes f' = f_bytes (fp_file s) /\ no_errors f') as (f' & E & Hb & Hf).
  { unfold next_transfer, no_errors in *. destruct (f_script (fp_file s)) as [|[n|] sc] eqn:Es.
    - exists (fp_file s). by rewrite Es.
    - apply Forall_cons in H5 as [_ H5]. rewrite Z.min_l by lia. by eexists.
    - by apply Forall_cons in H5 as [[] _]. }
  exists (set_fp_file f' s). split.
  - unfold file_flush. apply (zoom_eq fp_file set_fp_file). by rewrite (bind_eq _ _ _ _ _ E).
  - split; [split; cbn; rewrite ?Hb; done|]. split_and!; [done|done|]. intros j _. unfold file_content. cbn. by rewrite Hb.
Qed.

#[export] Instance file_lawful : LawfulPageStore FilePageStore := {|
  ps_ok := file_ok;
  ps_content := file_content;
  ps_content_ok := file_content_ok;
  ps_dims_ok := fun s Hs => conj (fo_size s Hs) (fo_count s Hs);
  ps_read_page_ok := file_read_page_ok;
  ps_write_page_ok := file_write_page_ok;
  ps_read_pages_ok := file_read_pages_ok;
  ps_write_pages_ok := file_write_pages_ok;
  ps_flush_ok := file_flush_ok
|}.

(** ** Properties *)

Section Properties.

(** A file opened with representable dimensions; contents of the right length are kept. *)
Lemma file_open_ok contents script count size : 0 < count -> 0 < size -> count * size <= u64_max ->
  bytes_ok contents -> Forall (fun t => t <> TransferError) script ->
  exists s, file_open contents script count size = Ok s /\ file_ok s /\ fp_page_size s = size /\ fp_page_count s = count /\
    (lenZ contents = count * size -> f_bytes (fp_file s) = contents).
Proof.
  intros Hc Hs Hlim Hb Hsc. unfold file_open. rewrite !(proj2 (Z.eqb_neq _ _)) by lia. cbn [orb].
  rewrite wrap_small by (change (2 ^ 64) with 18446744073709551616; unfold u64_max in Hlim; nia).
  eexists. split; [done|]. split; [split; cbn; try done|].
  - unfold lenZ, zeros. rewrite length_app, length_take, length_replicate. nia.
  - apply Forall_app. split; [by apply Forall_take|apply zeros_ok].
  - split_and!; [done|done|]. intros Hl. cbn. unfold lenZ in Hl. rewrite take_ge by lia. unfold lenZ. rewrite Hl, Z.sub_diag. apply app_nil_r.
Qed.

(** C34: whatever the file holds and however its transfers are cut short, a bulk
    write of any list of pages, repeated ones included, followed by a bulk read in
    any order, returns what writing the pages one after the other would leave: the
    sorting and coalescing of runs is not observable. *)
Theorem file_bulk_io_is_pagewise contents script count size idxs pages idxs' :
  0 < count -> 0 < size -> count * size <= u64_max -> bytes_ok contents ->
  Forall (fun t => t <> TransferError) script ->
  Forall (in_range count) idxs -> Forall (in_range count) idxs' -> Forall (page_ok size) pages -> length idxs = length pages ->
  exists s s1 s2, file_open contents script count size = Ok s /\
    (lenZ contents = count * size -> f_bytes (fp_file s) = contents) /\
    file_write_pages idxs pages s = (Ok tt, s1) /\
    file_read_pages idxs' s1 = (Ok (pages_upd idxs pages (file_content s) <$> idxs'), s2).
Proof.
  intros Hc Hs Hlim Hb Hsc Hi Hi' Hp Hl.
  destruct (file_open_ok contents script count size Hc Hs Hlim Hb Hsc) as (s & Eo & Hok & <- & <- & Hk).
  destruct (file_write_pages_ok s idxs pages Hok Hi Hp Hl) as (s1 & E1 & Hok1 & Hsz1 & Hc1 & Hf1).
  destruct (file_read_pages_ok s1 idxs' Hok1) as (s2 & E2 & _); [by rewrite Hc1|].
  exists s, s1, s2. split_and!; [done|done|done|]. rewrite E2. do 2 f_equal.
  apply list_fmap_ext. intros k j Hj. apply Hf1. by eapply Forall_lookup_1 in Hi'.
Qed.

(** The transfer loops stop on every file, offset and script, errors included:
    a read fills its buffer or fails, a write completes or fails. *)
Theorem file_transfers_terminate (f : File) len offset input : 0 <= len -> 0 <= offset ->
  (exists r f', read_exact_at len offset f = (r, f') /\ (r = Err IoError \/ exists b, r = Ok b /\ lenZ b = len)) /\
  (exists r f', write_all_at input offset f = (r, f') /\ (r = Err IoError \/ r = Ok tt)).
Proof.
  intros Hl Ho.
  assert (forall (f : File) n, 0 < n -> (exists m f1, next_transfer n f = (Ok m, f1) /\ 0 < m <= n) \/
    exists f1, next_transfer n f = (Err IoError, f1)) as Hnt.
  { clear. intros f n Hn. unfold next_transfer. destruct (f_script f) as [|[m|] sc]; [left|left|right]; repeat eexists; lia. }
  split.
  - unfold read_exact_at. assert (Z.to_nat len < S (Z.to_nat len))%nat as Hf by lia. revert Hf.
    generalize (S (Z.to_nat len)) as fuel. intros fuel. revert len offset f Hl Ho.
    induction fuel as [|fuel IH]; intros len offset f Hl Ho Hf; [lia|]. cbn [read_exact_loop].
    destruct (len =? 0) eqn:E; zbool; [subst; exists (Ok []), f; split; [done|right; by exists []]|].
    unfold read_at. unfold bind at 1. rewrite bind_gets.
    destruct (Hnt f len ltac:(lia)) as [(m & f1 & E1 & Hm)|(f1 & E1)].
    2: { rewrite (bind_err _ _ _ _ _ E1). by exists (Err IoError), f1; split; [|left]. }
    rewrite (bind_eq _ _ _ _ _ E1). cbn [ret]. set (chunk := take _ _).
    assert (lenZ chunk <= m) as Hcm by (unfold chunk, lenZ; rewrite length_take; lia).
    unfold ret at 1. pose proof (lenZ_nonneg chunk).
    destruct (lenZ chunk =? 0) eqn:Ec; zbool; [by exists (Err IoError), f1; split; [|left]|].
    destruct (IH (len - lenZ chunk) (offset + lenZ chunk) f1) as (r & f2 & E2 & Hr); [lia|lia|lia|].
    destruct Hr as [->|(b & -> & Hb)].
    + rewrite (bind_err _ _ _ _ _ E2). by exists (Err IoError), f2; split; [|left].
    + rewrite (bind_eq _ _ _ _ _ E2). exists (Ok (chunk ++ b)), f2. split; [done|]. right. eexists. split; [done|]. rewrite lenZ_app. lia.
  - unfold write_all_at. assert (length input < S (length input))%nat as Hf by lia. revert Hf.
    generalize (S (length input)) as fuel. intros fuel. revert input offset f Ho.
    induction fuel as [|fuel IH]; intros input offset f Ho Hf; [lia|]. cbn [write_all_loop]. pose proof (lenZ_nonneg input).
    destruct (lenZ input =? 0) eqn:E; zbool; [by exists (Ok tt), f; split; [|right]|].
    unfold write_at. unfold bind at 1.
    destruct (Hnt f (lenZ input) ltac:(lia)) as [(m & f1 & E1 & Hm)|(f1 & E1)].
    2: { rewrite (bind_err _ _ _ _ _ E1). by exists (Err IoError), f1; split; [|left]. }
    rewrite (bind_eq _ _ _ _ _ E1), bind_modify. cbn [ret]. rewrite (proj2 (Z.eqb_neq _ _)) by lia.
    apply IH; [lia|]. unfold lenZ in *. rewrite length_drop. lia.
Qed.

End Properties.

(** A file of three two-byte pages whose transfers come one byte at a time. *)
Lemma file_bulk_io_is_pagewise_witness :
  exists s s1 s2, file_open [1; 2; 3; 4; 5; 6] [Upto 1; Upto 1; Upto 1; Upto 0] 3 2 = Ok s /\
    file_write_pages [2; 0; 1] [[9; 9]; [7; 7]; [8; 8]] s = (Ok tt, s1) /\
    file_read_pages [1; 2; 1] s1 = (Ok [[8; 8]; [9; 9]; [8; 8]], s2).
Proof.
  destruct (file_bulk_io_is_pagewise [1; 2; 3; 4; 5; 6] [Upto 1; Upto 1; Upto 1; Upto 0] 3 2 [2; 0; 1] [[9; 9]; [7; 7]; [8; 8]] [1; 2; 1])
    as (s & s1 & s2 & E & _ & E1 & E2); try reflexivity.
  - unfold u64_max. lia.
  - repeat constructor; vm_compute; intuition discriminate.
  - repeat constructor; discriminate.
  - repeat constructor; vm_compute; intuition discriminate.
  - repeat constructor; vm_compute; intuition discriminate.
  - repeat constructor; vm_compute; intuition discriminate.
  - exists s, s1, s2. split; [exact E|]. split; [exact E1|]. exact E2.
Defined.

Lemma file_transfers_terminate_witness :
  exists r f', read_exact_at 4 2 (mkFile [1; 2; 3; 4; 5] [Upto 1]) = (r, f') /\ r = Err IoError.
Proof.
  destruct (file_transfers_terminate (mkFile [1; 2; 3; 4; 5] [Upto 1]) 4 2 [1]) as [(r & f' & E & Hr) _]; [lia|lia|].
  exists r, f'. split; [exact E|]. destruct Hr as [Hr|(b & -> & Hb)]; [exact Hr|]. exfalso. vm_compute in E. discriminate E.
Defined.
