(* ===== verification/Embedded.v ===== *)
(** * Embedded authenticated tree ([src/src/embedded_tree.rs])

    A path store whose pages carry the hashes of their two children; only the root
    hash is trusted.  Paths are verified from the root down and rehashed from the
    leaf up; the pages verified by a read are cached for the next write. *)

From S2P Require Import Prelude Params Store Hash.

Definition PAGE_DOMAIN : bytes := ascii_bytes "bpir-oram-embedded-page-v1".
Definition CHILD_HASH_BYTES : Z := 32.
Definition EMBEDDED_TREE_AUTH_BYTES_PER_PAGE : Z := CHILD_HASH_BYTES * 2.

(** Mirror of [struct EmbeddedPage]. *)
Record EmbeddedPage : Type := mkEmbedded { ep_logical : bytes; left_hash : bytes; right_hash : bytes }.

(** Mirror of [struct VerifiedBatchCache]. *)
Record VerifiedBatchCache : Type := mkBatchCache { vb_root_hash : bytes; vb_pages : gmap Z EmbeddedPage }.

(** Mirror of [struct EmbeddedTreePageStore]. *)
Record EmbeddedTreePageStore (S : Type) : Type := mkEmbeddedStore {
  et_inner : S;
  et_store_id : bytes;
  et_page_count : Z;
  et_logical_page_size : Z;
  et_physical_page_size : Z;
  et_root_hash : bytes;
  verified_batch_cache : option VerifiedBatchCache
}.
Arguments mkEmbeddedStore {S}. Arguments et_inner {S}. Arguments et_store_id {S}. Arguments et_page_count {S}.
Arguments et_logical_page_size {S}. Arguments et_physical_page_size {S}. Arguments et_root_hash {S}.
Arguments verified_batch_cache {S}.

(** [BTreeSet::insert] on the ascending list of the elements. *)
Fixpoint btree_insert (x : Z) (l : list Z) : list Z :=
  match l with
  | [] => [x]
  | y :: l' => if x <? y then x :: l else if x =? y then l else y :: btree_insert x l'
  end.
Definition btree_extend (l xs : list Z) : list Z := foldl (fun l x => btree_insert x l) l xs.

(** ** Pages *)

Section Pages.
Context `{Hash}.

(** [hash_embedded_page] and the bytes it hashes *)
Definition page_input (store_id : bytes) (page_idx : Z) (page : EmbeddedPage) : bytes :=
  PAGE_DOMAIN ++ store_id ++ to_le 8 page_idx ++ to_le 8 (lenZ (ep_logical page)) ++ ep_logical page ++
  left_hash page ++ right_hash page.

(** [EmbeddedPage::hash] *)
Definition page_hash (store_id : bytes) (page_idx : Z) (page : EmbeddedPage) : bytes :=
  sha256 (page_input store_id page_idx page).

(** [EmbeddedPage::decode] *)
Definition embedded_decode (input : bytes) (logical_page_size : Z) : outcome EmbeddedPage :=
  if negb (lenZ input =? logical_page_size + EMBEDDED_TREE_AUTH_BYTES_PER_PAGE)
  then Err (InvalidInput "embedded page len {} != expected {}")
  else
    let left_start := logical_page_size in
    let right_start := left_start + CHILD_HASH_BYTES in
    let? l := slice input left_start CHILD_HASH_BYTES in
    let? r := slice input right_start CHILD_HASH_BYTES in
    let? logical := slice input 0 logical_page_size in
    Ok (mkEmbedded logical l r).

(** [EmbeddedPage::encode] *)
Definition embedded_encode (page : EmbeddedPage) (out : bytes) (logical_page_size : Z) : outcome bytes :=
  if negb (lenZ out =? logical_page_size + EMBEDDED_TREE_AUTH_BYTES_PER_PAGE)
  then Err (InvalidInput "embedded output len {} != expected {}")
  else if negb (lenZ (ep_logical page) =? logical_page_size) then Err (InvalidInput "logical page len {} != expected {}")
  else
    let left_start := logical_page_size in
    let right_start := left_start + CHILD_HASH_BYTES in
    let? out := splice out 0 (ep_logical page) in
    let? out := splice out left_start (left_hash page) in
    splice out right_start (right_hash page).

(** [EmbeddedPage::child_hash] and [set_child_hash] *)
Definition page_child_hash (page : EmbeddedPage) (page_idx child_idx : Z) : outcome bytes :=
  if child_idx =? left_child page_idx then Ok (left_hash page)
  else if child_idx =? right_child page_idx then Ok (right_hash page)
  else Err (InvalidInput "page {} is not a child of page {}").
Definition set_child_hash (page : EmbeddedPage) (page_idx child_idx : Z) (hash : bytes) : outcome EmbeddedPage :=
  if child_idx =? left_child page_idx then Ok (mkEmbedded (ep_logical page) hash (right_hash page))
  else if child_idx =? right_child page_idx then Ok (mkEmbedded (ep_logical page) (left_hash page) hash)
  else Err (InvalidInput "page {} is not a child of page {}").

(** [child_hash] *)
Definition child_hash (hashes : list bytes) (child_idx : Z) : bytes := default (zeros 32) (hashes !! Z.to_nat child_idx).

(** [validate_path] *)
Fixpoint validate_path_loop (prev : option Z) (path : list Z) (page_count : Z) : outcome unit :=
  match path with
  | [] => Ok tt
  | page_idx :: rest =>
      if page_count <=? page_idx then Err (InvalidInput "path page {} out of range {}")
      else if match prev with
              | Some parent => negb (page_idx =? left_child parent) && negb (page_idx =? right_child parent)
              | None => false
              end
      then Err (InvalidInput "path page {} is not a child of previous page {}")
      else validate_path_loop (Some page_idx) rest page_count
  end.
Definition validate_path (path : list Z) (page_count : Z) : outcome unit :=
  match path with
  | [] => Err (InvalidInput "embedded tree path is empty")
  | first :: _ =>
      if negb (first =? 0) then Err (InvalidInput "embedded tree path must start at root")
      else validate_path_loop None path page_count
  end.

(** [pages.get(idx).expect(..)] *)
Definition get_page (pages : gmap Z EmbeddedPage) (idx : Z) : outcome EmbeddedPage :=
  match pages !! idx with Some page => Ok page | None => Panic end.

(** [verify_path_from_pages] *)
Fixpoint verify_path_from_pages (path : list Z) (pages : gmap Z EmbeddedPage) (store_id expected_hash : bytes) : outcome unit :=
  match path with
  | [] => Ok tt
  | page_idx :: rest =>
      let? page := get_page pages page_idx in
      let got := page_hash store_id page_idx page in
      if negb (hash_eq got expected_hash) then Err (InvalidInput "embedded tree authentication failed for page {}")
      else match rest with
           | next_idx :: _ =>
               let? expected_hash := page_child_hash page page_idx next_idx in
               verify_path_from_pages rest pages store_id expected_hash
           | [] => Ok tt
           end
  end.

(** [cache_covers_paths] *)
Definition cache_covers_paths (pages : gmap Z EmbeddedPage) (paths : list (list Z)) : bool :=
  forallb (fun idx => bool_decide (is_Some (pages !! idx))) (concat paths).

(** The first inner loop of [write_paths]: replace the logical bytes of one path. *)
Definition replace_logical (logical_page_size : Z) (acc : gmap Z EmbeddedPage * list Z) (il : Z * bytes)
    : outcome (gmap Z EmbeddedPage * list Z) :=
  let (pages, dirty) := acc in
  if negb (lenZ il.2 =? logical_page_size) then Err (InvalidInput "logical page len {} != expected {}")
  else
    let? page := get_page pages il.1 in
    let? logical := copy_from_slice (ep_logical page) il.2 in
    Ok (<[il.1 := mkEmbedded logical (left_hash page) (right_hash page)]> pages, btree_insert il.1 dirty).

(** The second: rehash the path from its last page up. *)
Fixpoint rehash_path (store_id : bytes) (path : list Z) (pages : gmap Z EmbeddedPage) (dirty : list Z)
    : outcome (gmap Z EmbeddedPage * list Z * option (Z * bytes)) :=
  match path with
  | [] => Ok (pages, dirty, None)
  | page_idx :: rest =>
      let? below := rehash_path store_id rest pages dirty in
      let '(pages, dirty, current_child) := below in
      let? page := get_page pages page_idx in
      let? page := match current_child with
                   | Some (child_idx, hash) => set_child_hash page page_idx child_idx hash
                   | None => Ok page
                   end in
      Ok (<[page_idx := page]> pages, btree_insert page_idx dirty, Some (page_idx, page_hash store_id page_idx page))
  end.

End Pages.

(** [validate_dimensions] *)
Definition validate_dimensions {S} `{PageStore S} (store : S) (page_count logical_page_size physical_page_size : Z) : outcome unit :=
  if (page_count =? 0) || (logical_page_size =? 0) then Err (InvalidInput "page_count and logical_page_size must be > 0")
  else if negb (ps_page_count store =? page_count) then Err (InvalidInput "store page_count {} != expected {}")
  else if negb (ps_page_size store =? physical_page_size)
  then Err (InvalidInput "store page_size {} != embedded physical page_size {}")
  else Ok tt.

(** ** The store *)

Section Ops.
Context {S : Type} `{PageStore S} `{Hash}.
Local Abbreviation ES := (EmbeddedTreePageStore S).

Definition set_et_inner (i : S) (s : ES) : ES :=
  mkEmbeddedStore i (et_store_id s) (et_page_count s) (et_logical_page_size s) (et_physical_page_size s) (et_root_hash s) (verified_batch_cache s).
Definition set_et_root (h : bytes) (s : ES) : ES :=
  mkEmbeddedStore (et_inner s) (et_store_id s) (et_page_count s) (et_logical_page_size s) (et_physical_page_size s) h (verified_batch_cache s).
Definition set_et_cache (c : option VerifiedBatchCache) (s : ES) : ES :=
  mkEmbeddedStore (et_inner s) (et_store_id s) (et_page_count s) (et_logical_page_size s) (et_physical_page_size s) (et_root_hash s) c.
Definition on_et_inner {A} (m : M S A) : M ES A := zoom et_inner set_et_inner m.

(** [physical_page_size_for] *)
Definition physical_page_size_for (logical_page_size : Z) : Z := logical_page_size + EMBEDDED_TREE_AUTH_BYTES_PER_PAGE.

(** The three loops of [build]. *)
Definition build_read (logical_page_size : Z) (acc : list EmbeddedPage * bytes) (page_idx : Z) : M S (list EmbeddedPage * bytes) :=
  let (pages, physical) := acc in
  let* physical := ps_read_page page_idx physical in
  let* page := lift (embedded_decode physical logical_page_size) in
  ret (pages ++ [page], physical).
Definition build_hash (store_id : bytes) (acc : list EmbeddedPage * list bytes) (page_idx : Z)
    : outcome (list EmbeddedPage * list bytes) :=
  let (pages, hashes) := acc in
  let? page := indexZ pages page_idx in
  let page := mkEmbedded (ep_logical page) (child_hash hashes (left_child page_idx)) (child_hash hashes (right_child page_idx)) in
  let? pages := updateZ pages page_idx page in
  let? hashes := updateZ hashes page_idx (page_hash store_id page_idx page) in
  Ok (pages, hashes).
Definition build_write (logical_page_size : Z) (physical : bytes) (ip : Z * EmbeddedPage) : M S bytes :=
  let* physical := lift (embedded_encode ip.2 physical logical_page_size) in
  let* _ := ps_write_page ip.1 physical in
  ret physical.

(** [EmbeddedTreePageStore::build] *)
Definition embedded_build (inner : S) (store_id : bytes) (logical_page_size : Z) : outcome ES :=
  let page_count := ps_page_count inner in
  let physical_page_size := physical_page_size_for logical_page_size in
  let? _ := validate_dimensions inner page_count logical_page_size physical_page_size in
  let m :=
    let* pb := foldM (build_read logical_page_size) ([], zeros physical_page_size) (seqZ 0 page_count) in
    let* ph := lift (ofold (build_hash store_id) (pb.1, replicate (Z.to_nat page_count) (zeros 32)) (reverse (seqZ 0 page_count))) in
    let* _ := foldM (build_write logical_page_size) pb.2 (enumerate ph.1) in
    lift (indexZ ph.2 0) in
  let (r, inner) := m inner in
  let? root_hash := r in
  Ok (mkEmbeddedStore inner store_id page_count logical_page_size physical_page_size root_hash None).

(** [from_state] and [state] *)
Definition embedded_from_state (inner : S) (state : EmbeddedTreeState) : outcome ES :=
  let physical_page_size := physical_page_size_for (ets_logical_page_size state) in
  let? _ := validate_dimensions inner (ets_page_count state) (ets_logical_page_size state) physical_page_size in
  Ok (mkEmbeddedStore inner (ets_store_id state) (ets_page_count state) (ets_logical_page_size state)
    physical_page_size (ets_root_hash state) None).
Definition embedded_state (s : ES) : EmbeddedTreeState :=
  mkEmbeddedTreeState (et_store_id s) (et_page_count s) (et_logical_page_size s) (et_root_hash s).

(** [read_verified_paths] *)
Definition read_verified_paths (paths : list (list Z)) : M ES (gmap Z EmbeddedPage) :=
  match paths with
  | [] => ret ∅
  | _ =>
      let* s := gets (fun s => s) in
      let* page_indices := lift (ofold (fun set path =>
        let? _ := validate_path path (et_page_count s) in Ok (btree_extend set path)) [] paths) in
      let* physical_pages := on_et_inner (ps_read_pages page_indices) in
      let* pages := lift (ofold (fun pages (ip : Z * bytes) =>
        let? page := embedded_decode ip.2 (et_logical_page_size s) in Ok (<[ip.1 := page]> pages))
        (∅ : gmap Z EmbeddedPage) (zip page_indices physical_pages)) in
      let* _ := lift (ofold (fun (_ : unit) path => verify_path_from_pages path pages (et_store_id s) (et_root_hash s)) tt paths) in
      ret pages
  end.

(** [read_paths] and [read_path] *)
Definition read_paths (paths : list (list Z)) : M ES (list (list bytes)) :=
  let* pages := read_verified_paths paths in
  let* logical_paths := lift (omap_m (omap_m (fun idx => let? page := get_page pages idx in Ok (ep_logical page))) paths) in
  let* _ := modify (fun s => set_et_cache (Some (mkBatchCache (et_root_hash s) pages)) s) in
  ret logical_paths.
Definition read_path (path : list Z) : M ES (list bytes) :=
  let* logical_paths := read_paths [path] in
  match last logical_paths with Some l => ret l | None => panic end.

(** The loop of [write_paths] over the paths. *)
Definition write_one_path (acc : gmap Z EmbeddedPage * list Z) (pl : list Z * list bytes) : M ES (gmap Z EmbeddedPage * list Z) :=
  let* s := gets (fun s => s) in
  let* _ := guardm (lenZ pl.1 =? lenZ pl.2) (InvalidInput "path length {} != logical page count {}") in
  let* _ := lift (validate_path pl.1 (et_page_count s)) in
  let* acc := lift (ofold (replace_logical (et_logical_page_size s)) acc (zip pl.1 pl.2)) in
  let* r := lift (rehash_path (et_store_id s) pl.1 acc.1 acc.2) in
  let '(pages, dirty, current_child) := r in
  match current_child with
  | Some (_, hash) => let* _ := modify (set_et_root hash) in ret (pages, dirty)
  | None => panic
  end.

(** [write_paths]: the verified pages to start from (the cache is consumed), *)
Definition verified_overlay (paths : list (list Z)) : M ES (gmap Z EmbeddedPage) :=
  let* s := gets (fun s => s) in
  let* _ := modify (set_et_cache None) in
  match verified_batch_cache s with
  | Some cache =>
      if bool_decide (vb_root_hash cache = et_root_hash s) && cache_covers_paths (vb_pages cache) paths
      then ret (vb_pages cache) else read_verified_paths paths
  | None => read_verified_paths paths
  end.

(** the loop over the paths and the write of the dirty pages, *)
Definition apply_writes (pages : gmap Z EmbeddedPage) (paths : list (list Z)) (logical_paths : list (list bytes)) : M ES unit :=
  let* pd := foldM write_one_path (pages, []) (zip paths logical_paths) in
  let* s := gets (fun s => s) in
  let page_indices := pd.2 in
  let* physical_pages := lift (omap_m (fun idx =>
    let? page := get_page pd.1 idx in
    embedded_encode page (zeros (et_physical_page_size s)) (et_logical_page_size s)) page_indices) in
  on_et_inner (ps_write_pages page_indices physical_pages).

(** the whole function, and [write_path]. *)
Definition write_paths (paths : list (list Z)) (logical_paths : list (list bytes)) : M ES unit :=
  let* _ := guardm (lenZ paths =? lenZ logical_paths) (InvalidInput "path count {} != logical path count {}") in
  match paths with
  | [] => ret tt
  | _ => let* pages := verified_overlay paths in apply_writes pages paths logical_paths
  end.
Definition write_path (path : list Z) (logical_pages : list bytes) : M ES unit := write_paths [path] [logical_pages].

#[export] Instance embedded_path_store : PathPageStore ES := {|
  pp_page_size := et_logical_page_size;
  pp_page_count := et_page_count;
  pp_read_path_pages := read_path;
  pp_write_path_pages := write_path;
  pp_read_paths_pages := read_paths;
  pp_write_paths_pages := write_paths;
  pp_flush := on_et_inner ps_flush;
  pp_tiered_merkle_state := fun _ => None;
  pp_embedded_tree_state := fun s => Some (embedded_state s)
|}.

End Ops.

(** ** Paths and sets *)

Section Paths.

Lemma descends_gt count n path j : 0 <= n -> descends count n path -> j ∈ path -> n < j < count.
Proof.
  revert n. induction path as [|m path IH]; intros n Hn Hd Hj; [by apply not_elem_of_nil in Hj|].
  destruct Hd as (Hm & Hc & Hd). unfold left_child, right_child in Hc.
  apply elem_of_cons in Hj as [->|Hj]; [lia|]. specialize (IH m ltac:(lia) Hd Hj). lia.
Qed.

Lemma descends_NoDup count n path : 0 <= n -> descends count n path -> NoDup (n :: path).
Proof.
  revert n. induction path as [|m path IH]; intros n Hn Hd; constructor.
  - apply not_elem_of_nil.
  - apply NoDup_nil_2.
  - intros Hin. pose proof (descends_gt count n (m :: path) n Hn Hd Hin). lia.
  - destruct Hd as (Hm & Hc & Hd). unfold left_child, right_child in Hc. apply IH; [lia|done].
Qed.

Lemma tree_path_NoDup count path : tree_path count path -> NoDup path.
Proof. intros (rest & -> & Hc & Hd). by eapply descends_NoDup. Qed.

Lemma validate_path_ok count path : tree_path count path -> validate_path path count = Ok tt.
Proof.
  intros (rest & -> & Hc & Hd). unfold validate_path. cbn [Z.eqb negb validate_path_loop]. rewrite (proj2 (Z.leb_gt _ _)) by lia.
  cut (forall n, 0 <= n -> descends count n rest -> validate_path_loop (Some n) rest count = Ok tt); [intros Hv; by apply Hv|].
  clear Hd. induction rest as [|m rest IH]; intros n Hn Hd; [done|]. destruct Hd as (Hm & Hch & Hd). cbn [validate_path_loop].
  rewrite (proj2 (Z.leb_gt _ _)) by lia.
  assert (negb (m =? left_child n) && negb (m =? right_child n) = false) as ->.
  { destruct Hch as [->| ->]; rewrite Z.eqb_refl; [done|apply andb_false_r]. }
  unfold left_child, right_child in Hch. apply IH; [lia|done].
Qed.

Lemma btree_insert_elem x l j : j ∈ btree_insert x l <-> j = x \/ j ∈ l.
Proof.
  induction l as [|y l IH]; cbn [btree_insert]; [set_solver|].
  destruct (x <? y); [set_solver|]. destruct (x =? y) eqn:E; zbool; [subst; set_solver|].
  rewrite !elem_of_cons, IH. naive_solver.
Qed.

Lemma btree_extend_elem l xs j : j ∈ btree_extend l xs <-> j ∈ l \/ j ∈ xs.
Proof.
  unfold btree_extend. revert l. induction xs as [|x xs IH]; intros l; cbn [foldl]; [set_solver|].
  rewrite IH, btree_insert_elem. set_solver.
Qed.

Lemma btree_insert_sorted x l : StronglySorted Z.lt l -> StronglySorted Z.lt (btree_insert x l).
Proof.
  induction 1 as [|y l Hl IH Hy]; cbn [btree_insert]; [repeat constructor|].
  destruct (x <? y) eqn:E; zbool.
  - constructor; [by constructor|]. constructor; [done|]. eapply Forall_impl; [exact Hy|]. cbn. lia.
  - destruct (x =? y) eqn:E2; zbool; [by constructor|]. constructor; [done|].
    apply Forall_forall. intros z [->|Hz]%btree_insert_elem; [lia|]. rewrite Forall_forall in Hy. by apply Hy.
Qed.

Lemma btree_extend_sorted l xs : StronglySorted Z.lt l -> StronglySorted Z.lt (btree_extend l xs).
Proof.
  unfold btree_extend. revert l. induction xs as [|x xs IH]; intros l Hl; cbn [foldl]; [done|].
  apply IH. by apply btree_insert_sorted.
Qed.

Lemma sorted_lt_NoDup l : StronglySorted Z.lt l -> NoDup l.
Proof.
  induction 1 as [|y l Hl IH Hy]; constructor; [|done]. intros Hin. rewrite Forall_forall in Hy. specialize (Hy y Hin). lia.
Qed.

End Paths.

(** ** Pages and their encoding *)

Section Codec.
Context `{HashLaws} (store_id : bytes) (size : Z) (Hsize : 0 < size).

#[global] Instance EmbeddedPage_eq_dec : EqDecision EmbeddedPage.
Proof. solve_decision. Defined.

Record embedded_ok (p : EmbeddedPage) : Prop := {
  eo_logical : page_ok size (ep_logical p);
  eo_left : digest_ok (left_hash p);
  eo_right : digest_ok (right_hash p)
}.
Definition page_bytes (p : EmbeddedPage) : bytes := ep_logical p ++ left_hash p ++ right_hash p.

Lemma page_bytes_ok p : embedded_ok p -> page_ok (size + 64) (page_bytes p).
Proof.
  intros [[Hl Hlb] [Ha Hab] [Hb Hbb]]. unfold page_bytes. split.
  - rewrite !lenZ_app. lia.
  - unfold bytes_ok in *. by rewrite !Forall_app.
Qed.

Lemma embedded_encode_ok p out : embedded_ok p -> lenZ out = size + 64 -> embedded_encode p out size = Ok (page_bytes p).
Proof.
  intros [[Hl Hlb] [Ha Hab] [Hb Hbb]] Ho. unfold embedded_encode, EMBEDDED_TREE_AUTH_BYTES_PER_PAGE, CHILD_HASH_BYTES.
  rewrite Ho, Hl, !Z.eqb_refl. cbn [negb].
  destruct (slice_split out 0 size) as (a & b & c & -> & Ha0 & Hb0 & _); [lia..|].
  destruct a; [|rewrite lenZ_cons in Ha0; pose proof (lenZ_nonneg a); lia]. cbn [app] in *.
  rewrite lenZ_app in Ho. rewrite (splice_app [] b (ep_logical p) c) by (done || lia). cbn [obind app].
  destruct (slice_split c 0 32) as (a & d & e & -> & Ha1 & Hd & _); [lia..|].
  destruct a; [|rewrite lenZ_cons in Ha1; pose proof (lenZ_nonneg a); lia]. cbn [app] in *. rewrite lenZ_app in Ho.
  rewrite (splice_app (ep_logical p) d (left_hash p) e) by lia. cbn [obind].
  assert (lenZ e = 32) as He by lia.
  pose proof (splice_app (ep_logical p ++ left_hash p) e (right_hash p) [] (size + 32)) as Hs.
  rewrite !app_nil_r, <-!app_assoc in Hs. apply Hs; rewrite ?lenZ_app; lia.
Qed.

Lemma embedded_decode_page b : page_ok (size + 64) b ->
  exists p, embedded_decode b size = Ok p /\ embedded_ok p /\ page_bytes p = b.
Proof.
  intros [Hl Hb]. destruct (slice_split b 0 size) as (a & x & c & -> & Ha & Hx & _); [lia..|].
  destruct a; [|rewrite lenZ_cons in Ha; pose proof (lenZ_nonneg a); lia]. cbn [app] in *. rewrite lenZ_app in Hl.
  destruct (slice_split c 0 32) as (a & y & z & -> & Ha1 & Hy & _); [lia..|].
  destruct a; [|rewrite lenZ_cons in Ha1; pose proof (lenZ_nonneg a); lia]. cbn [app] in *. rewrite lenZ_app in Hl.
  unfold bytes_ok in Hb. rewrite !Forall_app in Hb. destruct Hb as (Hxb & Hyb & Hzb).
  exists (mkEmbedded x y z). unfold embedded_decode, EMBEDDED_TREE_AUTH_BYTES_PER_PAGE, CHILD_HASH_BYTES.
  rewrite !lenZ_app, (proj2 (Z.eqb_eq _ _)) by lia. cbn [negb].
  rewrite (slice_app x y z) by lia. cbn [obind]. rewrite app_assoc, (slice_suffix (x ++ y) z) by (rewrite ?lenZ_app; lia). cbn [obind].
  rewrite <-app_assoc, (slice_prefix x) by lia. cbn [obind]. split; [done|]. split; [|done].
  split; cbn; split; (done || lia).
Qed.

Lemma page_input_inj i p q : embedded_ok p -> embedded_ok q -> page_input store_id i p = page_input store_id i q -> p = q.
Proof.
  intros [[Hl _] [Ha _] [Hb _]] [[Hl' _] [Ha' _] [Hb' _]] E. unfold page_input in E. rewrite Hl, Hl' in E.
  do 4 (apply app_inv_head in E). apply app_inj_1 in E as [E1 E]; [|unfold lenZ in *; lia].
  apply app_inj_1 in E as [E2 E3]; [|unfold lenZ in *; lia]. destruct p, q. cbn in *. congruence.
Qed.

End Codec.

(** ** The abstract tree of pages *)

Section Tree.
Context `{HashLaws} (store_id : bytes) (size count : Z).
Local Abbreviation hash_of := (page_hash store_id).

(** Every page's child hash is the hash of that child, except into [ex]. *)
Definition edges_but (ex : list Z) (T : Z -> EmbeddedPage) : Prop :=
  forall i c, in_range count i -> c < count -> c = left_child i \/ c = right_child i -> c ∉ ex ->
    page_child_hash (T i) i c = Ok (hash_of c (T c)).
Definition tree_auth (T : Z -> EmbeddedPage) (root : bytes) : Prop := edges_but [] T /\ root = hash_of 0 (T 0).

Lemma page_hash_ok i p : digest_ok (hash_of i p).
Proof. apply sha256_ok. Qed.

Lemma child_cases i c : c = left_child i \/ c = right_child i -> (c =? left_child i) = true \/
  (c =? left_child i) = false /\ (c =? right_child i) = true.
Proof. unfold left_child, right_child. lia. Qed.

Lemma set_child_hash_ok p i c h : c = left_child i \/ c = right_child i ->
  exists p', set_child_hash p i c h = Ok p' /\ ep_logical p' = ep_logical p /\ page_child_hash p' i c = Ok h /\
    (forall c', c' = left_child i \/ c' = right_child i -> c' <> c -> page_child_hash p' i c' = page_child_hash p i c') /\
    (embedded_ok size p -> digest_ok h -> embedded_ok size p').
Proof.
  intros Hc. unfold set_child_hash, page_child_hash, left_child, right_child in *. destruct Hc as [-> | ->].
  - rewrite Z.eqb_refl. eexists. split_and!; [done|done|done| |intros [] ?; by split].
    intros c' [->| ->] Hne; [done|]. by rewrite (proj2 (Z.eqb_neq _ _)), Z.eqb_refl by lia.
  - rewrite (proj2 (Z.eqb_neq _ _)), Z.eqb_refl by lia. eexists. split_and!; [done|done|done| |intros [] ?; by split].
    intros c' [->| ->] Hne; [by rewrite Z.eqb_refl|done].
Qed.

(** Overlay of prefetched pages. *)
Definition over (pages : gmap Z EmbeddedPage) (T : Z -> EmbeddedPage) (i : Z) : EmbeddedPage := default (T i) (pages !! i).

Lemma over_insert pages T i p j : over (<[i := p]> pages) T j = if j =? i then p else over pages T j.
Proof. unfold over. destruct (j =? i) eqn:E; zbool; [subst; by rewrite lookup_insert_eq|by rewrite lookup_insert_ne]. Qed.

Lemma over_serves pages T i : (forall i p, pages !! i = Some p -> p = T i) -> over pages T i = T i.
Proof. intros Hp. unfold over. destruct (pages !! i) eqn:E; [by apply Hp|done]. Qed.

(** Verification from a trusted hash: authentic pages pass; pages that pass are
    authentic or exhibit a collision; nothing else happens. *)
Lemma verify_complete T pages i rest : edges_but [] T -> in_range count i -> descends count i rest ->
  (forall j, j ∈ i :: rest -> pages !! j = Some (T j)) ->
  verify_path_from_pages (i :: rest) pages store_id (hash_of i (T i)) = Ok tt.
Proof.
  intros He. revert i. induction rest as [|n rest IH]; intros i Hi Hd Hp;
    cbn [verify_path_from_pages]; unfold get_page; rewrite (Hp i) by set_solver; cbn [obind];
    rewrite digest_eq, bool_decide_eq_true_2 by (apply page_hash_ok || done); cbn [negb]; [done|].
  destruct Hd as (Hn & Hc & Hd). rewrite (He i n) by (done || apply not_elem_of_nil). cbn [obind].
  unfold left_child, right_child, in_range in *. apply IH; [lia|done|]. intros j Hj. apply Hp. set_solver.
Qed.

Lemma verify_total pages i rest h : in_range count i -> descends count i rest -> digest_ok h ->
  (forall j, j ∈ i :: rest -> exists p, pages !! j = Some p /\ embedded_ok size p) ->
  verify_path_from_pages (i :: rest) pages store_id h = Ok tt \/
  verify_path_from_pages (i :: rest) pages store_id h = Err (InvalidInput "embedded tree authentication failed for page {}").
Proof.
  revert i h. induction rest as [|n rest IH]; intros i h Hi Hd Hh Hp; destruct (Hp i ltac:(set_solver)) as (p & Ep & Hpo);
    cbn [verify_path_from_pages]; unfold get_page; rewrite Ep; cbn [obind];
    (destruct (negb _); [by right|]); [by left|].
  destruct Hd as (Hn & Hc & Hd). assert (exists h', page_child_hash p i n = Ok h' /\ digest_ok h') as (h' & -> & Hh').
  { unfold page_child_hash. destruct Hpo. destruct (child_cases i n Hc) as [-> | [-> ->]]; eauto. }
  cbn [obind]. unfold left_child, right_child, in_range in *. apply IH; [lia|done|done|]. intros j Hj. apply Hp. set_solver.
Qed.

Definition page_collision (i : Z) (p q : EmbeddedPage) : Prop :=
  page_input store_id i p <> page_input store_id i q /\ sha256 (page_input store_id i p) = sha256 (page_input store_id i q).

Lemma verify_sound T pages i rest : edges_but [] T -> in_range count i -> descends count i rest ->
  (forall j, j ∈ i :: rest -> exists p, pages !! j = Some p /\ embedded_ok size p /\ embedded_ok size (T j)) ->
  verify_path_from_pages (i :: rest) pages store_id (hash_of i (T i)) = Ok tt ->
  (forall j, j ∈ i :: rest -> pages !! j = Some (T j)) \/
  exists j p, j ∈ i :: rest /\ pages !! j = Some p /\ page_collision j p (T j).
Proof.
  intros He. revert i. induction rest as [|n rest IH]; intros i Hi Hd Hp; destruct (Hp i ltac:(set_solver)) as (p & Ep & Hpo & HTo);
    cbn [verify_path_from_pages]; unfold get_page; rewrite Ep; cbn [obind];
    rewrite digest_eq by apply page_hash_ok; case_bool_decide as Eh; cbn [negb]; try done; intros Hv;
    (destruct (decide (p = T i)) as [->|Hne];
      [|right; exists i, p; split_and!; [set_solver|done|split; [intros Ei; apply Hne; by eapply page_input_inj|exact Eh]]]).
  - left. intros j Hj. by apply list_elem_of_singleton in Hj as ->.
  - destruct Hd as (Hn & Hc & Hd). rewrite (He i n) in Hv by (done || apply not_elem_of_nil). cbn [obind] in Hv.
    destruct (IH n) as [Hall|(j & q & Hj & Hq & Hcol)]; [unfold left_child, right_child, in_range in *; lia|done| |done| |].
    + intros j Hj. apply Hp. set_solver.
    + left. intros j [->|Hj]%elem_of_cons; [done|by apply Hall].
    + right. exists j, q. split_and!; [set_solver|done|done].
Qed.

End Tree.

(** ** Rewriting one path *)

Section Rewrite.
Context `{HashLaws} (store_id : bytes) (size count : Z) (Hsize : 0 < size) (T0 : Z -> EmbeddedPage).
Local Abbreviation hash_of := (page_hash store_id).
Local Abbreviation view pages := (over pages T0).
Local Abbreviation edges := (edges_but store_id count).

Definition pages_ok (pages : gmap Z EmbeddedPage) : Prop := forall j p, pages !! j = Some p -> embedded_ok size p.
Definition same_dom (a b : gmap Z EmbeddedPage) : Prop := forall j, is_Some (a !! j) <-> is_Some (b !! j).

Lemma replace_logical_ok path : forall lps pages dirty,
  (forall j, j ∈ path -> is_Some (pages !! j)) -> pages_ok pages -> Forall (page_ok size) lps -> length path = length lps ->
  exists pages', ofold (replace_logical size) (pages, dirty) (zip path lps) = Ok (pages', btree_extend dirty path) /\
    pages_ok pages' /\ same_dom pages' pages /\
    forall j, view pages' j = mkEmbedded (pages_upd path lps (ep_logical ∘ view pages) j) (left_hash (view pages j)) (right_hash (view pages j)).
Proof.
  induction path as [|i path IH]; intros [|x lps] pages dirty Hin Hok Hl Hlen; try done; cbn [zip zip_with ofold].
  { exists pages. split_and!; [done|done|done|]. intros j. cbn. by destruct (view pages j). }
  apply Forall_cons in Hl as [[Hx Hxb] Hl]. destruct (Hin i ltac:(set_solver)) as [p Hp].
  unfold replace_logical at 1. cbn [fst snd]. rewrite Hx, Z.eqb_refl. cbn [negb]. unfold get_page. rewrite Hp. cbn [obind].
  pose proof (Hok i p Hp) as [[Hpl Hpb] Hpl1 Hpr]. unfold copy_from_slice. rewrite Hpl, Hx, Z.eqb_refl. cbn [obind].
  set (p1 := mkEmbedded x (left_hash p) (right_hash p)).
  assert (forall j, is_Some (<[i := p1]> pages !! j) <-> is_Some (pages !! j)) as Hdom.
  { intros j. destruct (decide (j = i)) as [->|]; [|by rewrite lookup_insert_ne]. rewrite lookup_insert_eq, Hp. split; eauto. }
  destruct (IH lps (<[i := p1]> pages) (btree_insert i dirty)) as (pages' & E & Hok' & Hd & Hv).
  - intros j Hj. apply Hdom, Hin. set_solver.
  - intros j q. destruct (decide (j = i)) as [->|]; [rewrite lookup_insert_eq; intros [= <-]; by split|].
    rewrite lookup_insert_ne by done. apply Hok.
  - done.
  - by simplify_eq/=.
  - exists pages'. split_and!; [exact E|done|intros j; by rewrite (Hd j), Hdom|]. intros j. rewrite Hv. rewrite !over_insert.
    assert (view pages i = p) as Hvi by (unfold over; by rewrite Hp).
    cbn [pages_upd]. f_equal; [|by destruct (j =? i) eqn:E1; zbool; [subst j; by rewrite Hvi|]..].
    apply pages_upd_pointwise. cbn [compose]. rewrite over_insert. unfold page_upd. by destruct (j =? i).
Qed.

Lemma rehash_path_ok rest : forall i ex pages dirty,
  in_range count i -> descends count i rest -> (forall j, j ∈ i :: rest -> is_Some (pages !! j)) -> pages_ok pages ->
  edges (ex ++ i :: rest) (view pages) ->
  exists pages' dirty', rehash_path store_id (i :: rest) pages dirty = Ok (pages', dirty', Some (i, hash_of i (view pages' i))) /\
    edges (ex ++ [i]) (view pages') /\ pages_ok pages' /\ same_dom pages' pages /\
    (forall j, ep_logical (view pages' j) = ep_logical (view pages j)) /\
    (forall j, j ∉ i :: rest -> view pages' j = view pages j) /\
    (forall j, j ∈ dirty' <-> j ∈ i :: rest \/ j ∈ dirty) /\ (StronglySorted Z.lt dirty -> StronglySorted Z.lt dirty').
Proof.
  induction rest as [|n rest IH]; intros i ex pages dirty Hi Hd Hin Hok He.
  - destruct (Hin i ltac:(set_solver)) as [p Hp]. cbn [rehash_path obind]. unfold get_page. rewrite Hp. cbn [obind].
    assert (forall j, view (<[i := p]> pages) j = view pages j) as Hv.
    { intros j. rewrite insert_id by done. done. }
    exists (<[i := p]> pages), (btree_insert i dirty). split_and!.
    + rewrite Hv. unfold over. by rewrite Hp.
    + by rewrite insert_id.
    + by rewrite insert_id.
    + by rewrite insert_id.
    + intros j. by rewrite Hv.
    + intros j _. by rewrite Hv.
    + intros j. rewrite btree_insert_elem. set_solver.
    + apply btree_insert_sorted.
  - destruct Hd as (Hn & Hc & Hd). assert (in_range count n) as Hnr by (unfold left_child, right_child, in_range in *; lia).
    destruct (IH n (ex ++ [i]) pages dirty Hnr Hd) as (p1 & d1 & E & He1 & Hok1 & Hdom1 & Hl1 & Ho1 & Hd1 & Hs1).
    { intros j Hj. apply Hin. set_solver. } { done. } { by rewrite <-app_assoc. }
    change (rehash_path store_id (i :: n :: rest) pages dirty) with
      (let? below := rehash_path store_id (n :: rest) pages dirty in
       let '(pages, dirty, current_child) := below in
       let? page := get_page pages i in
       let? page := match current_child with Some (c, h) => set_child_hash page i c h | None => Ok page end in
       Ok (<[i := page]> pages, btree_insert i dirty, Some (i, hash_of i page))).
    rewrite E. cbn [obind]. destruct (proj2 (Hdom1 i) (Hin i ltac:(set_solver))) as [p Hp].
    unfold get_page. rewrite Hp. cbn [obind].
    destruct (set_child_hash_ok size p i n (hash_of n (view p1 n)) Hc) as (p' & -> & Hpl & Hpn & Hpo & Hpok). cbn [obind].
    assert (view p1 i = p) as Hvi by (unfold over; by rewrite Hp).
    assert (n <> i) as Hni by (unfold left_child, right_child, in_range in *; lia).
    exists (<[i := p']> p1), (btree_insert i d1). split_and!.
    + by rewrite over_insert, Z.eqb_refl.
    + intros a c Ha Hcc Hch Hex. rewrite !over_insert. rewrite (proj2 (Z.eqb_neq c i)) by set_solver.
      destruct (a =? i) eqn:Ea; zbool.
      * subst a. destruct (decide (c = n)) as [->|Hcn]; [exact Hpn|]. rewrite Hpo by done. rewrite <-Hvi. apply He1; try done. set_solver.
      * destruct (decide (c = n)) as [->|Hcn]; [exfalso; unfold left_child, right_child in *; lia|]. apply He1; try done. set_solver.
    + intros j q. destruct (decide (j = i)) as [->|]; [rewrite lookup_insert_eq; intros [= <-]|rewrite lookup_insert_ne by done; apply Hok1].
      apply Hpok; [by eapply Hok1|apply sha256_ok].
    + intros j. rewrite <-(Hdom1 j). destruct (decide (j = i)) as [->|]; [|by rewrite lookup_insert_ne].
      rewrite lookup_insert_eq, Hp. split; eauto.
    + intros j. rewrite over_insert. destruct (j =? i) eqn:Ej; zbool; [subst j; rewrite Hpl, <-Hvi|]; apply Hl1.
    + intros j Hj. rewrite over_insert, (proj2 (Z.eqb_neq _ _)) by set_solver. apply Ho1. set_solver.
    + intros j. rewrite btree_insert_elem, Hd1. set_solver.
    + intros Hs. by apply btree_insert_sorted, Hs1.
Qed.

(** One path of [write_paths] on the overlay. *)
Lemma rewrite_path_ok path lps pages dirty : 0 < count ->
  tree_path count path -> (forall j, j ∈ path -> is_Some (pages !! j)) -> pages_ok pages ->
  Forall (page_ok size) lps -> length path = length lps -> edges [] (view pages) -> StronglySorted Z.lt dirty ->
  exists pages1 pages' dirty', ofold (replace_logical size) (pages, dirty) (zip path lps) = Ok (pages1, btree_extend dirty path) /\
    rehash_path store_id path pages1 (btree_extend dirty path) = Ok (pages', dirty', Some (0, hash_of 0 (view pages' 0))) /\
    edges [] (view pages') /\ pages_ok pages' /\ same_dom pages' pages /\
    (forall j, ep_logical (view pages' j) = pages_upd path lps (ep_logical ∘ view pages) j) /\
    (forall j, j ∉ path -> view pages' j = view pages j) /\
    (forall j, j ∈ dirty' <-> j ∈ path \/ j ∈ dirty) /\ StronglySorted Z.lt dirty'.
Proof.
  intros Hc0 Hp Hin Hok Hl Hlen He Hs.
  destruct (replace_logical_ok path lps pages dirty Hin Hok Hl Hlen) as (p1 & E1 & Hok1 & Hd1 & Hv1).
  destruct Hp as (rest & -> & _ & Hd).
  assert (forall j, j ∉ 0 :: rest -> view p1 j = view pages j) as Hout.
  { intros j Hj. rewrite Hv1, pages_upd_not_elem by done. cbn. by destruct (view pages j). }
  destruct (rehash_path_ok rest 0 [] p1 (btree_extend dirty (0 :: rest))) as (p2 & d2 & E2 & He2 & Hok2 & Hd2 & Hl2 & Ho2 & Hdi2 & Hs2).
  - split; lia.
  - done.
  - intros j Hj. by apply Hd1, Hin.
  - done.
  - intros a c Ha Hcc Hch Hex. rewrite (Hout c) by done. rewrite Hv1. unfold page_child_hash. cbn [left_hash right_hash].
    apply (He a c Ha Hcc Hch). apply not_elem_of_nil.
  - exists p1, p2, d2. split_and!; [done|done| |done|intros j; by rewrite (Hd2 j)| | | |].
    + intros a c Ha Hcc Hch _. apply He2; try done. cbn [app]. unfold left_child, right_child, in_range in *. 
      intros Hx%list_elem_of_singleton. lia.
    + intros j. by rewrite Hl2, Hv1.
    + intros j Hj. by rewrite Ho2, Hout.
    + intros j. rewrite Hdi2, btree_extend_elem. set_solver.
    + by apply Hs2, btree_extend_sorted.
Qed.

End Rewrite.
