(* ===== verification/EmbeddedSpec.v ===== *)
(** * The embedded tree is an array of authentic pages ([src/src/embedded_tree.rs])

    Over a lawful page store, the tree of [Embedded] meets the path-store contract;
    over arbitrary pages it returns authentic bytes, refuses, or exhibits two page
    inputs with one SHA-256 digest. *)

From S2P Require Import Prelude Params Store Hash Embedded.

(** ** The store over arbitrary pages *)

Section Shape.
Context {S : Type} `{LawfulPageStore S} `{HashLaws}.
Local Abbreviation ES := (EmbeddedTreePageStore S).

Record embedded_shape (s : ES) : Prop := {
  es_inner : ps_ok (et_inner s);
  es_count : et_page_count s = ps_page_count (et_inner s);
  es_logical : 0 < et_logical_page_size s;
  es_physical : et_physical_page_size s = et_logical_page_size s + 64;
  es_size : ps_page_size (et_inner s) = et_physical_page_size s
}.

(** The page the inner store holds at an index. *)
Definition disk_page (size : Z) (inner : S) (i : Z) : EmbeddedPage :=
  match embedded_decode (ps_content inner i) size with Ok p => p | _ => mkEmbedded [] [] [] end.
Local Abbreviation served s := (disk_page (et_logical_page_size s) (et_inner s)).

Lemma embedded_count_pos s : embedded_shape s -> 0 < et_page_count s.
Proof. intros [Hi Hc _ _ _]. destruct (ps_dims_ok _ Hi). lia. Qed.

Lemma disk_page_ok s i : embedded_shape s -> in_range (et_page_count s) i ->
  embedded_decode (ps_content (et_inner s) i) (et_logical_page_size s) = Ok (served s i) /\
  embedded_ok (et_logical_page_size s) (served s i) /\ page_bytes (served s i) = ps_content (et_inner s) i.
Proof.
  intros [Hi Hc Hl Hp Hs] Hr. rewrite Hc in Hr. pose proof (ps_content_ok _ _ Hi Hr) as Hpg. rewrite Hs, Hp in Hpg.
  destruct (embedded_decode_page (et_logical_page_size s) Hl _ Hpg) as (p & E & Hok & Hb).
  unfold disk_page. by rewrite E.
Qed.

Lemma embedded_shape_inner s inner' : embedded_shape s -> ps_ok inner' -> ps_page_size inner' = ps_page_size (et_inner s) ->
  ps_page_count inner' = ps_page_count (et_inner s) -> embedded_shape (set_et_inner inner' s).
Proof. intros [] ? ? ?. split; cbn; congruence. Qed.

Lemma decode_all_ok (s : ES) idxs : embedded_shape s -> Forall (in_range (et_page_count s)) idxs -> forall pages,
  exists pages', ofold (fun pages (ip : Z * bytes) =>
      let? page := embedded_decode ip.2 (et_logical_page_size s) in Ok (<[ip.1 := page]> pages))
      (pages : gmap Z EmbeddedPage) (zip idxs (ps_content (et_inner s) <$> idxs)) = Ok pages' /\
    forall i, pages' !! i = if decide (i ∈ idxs) then Some (served s i) else pages !! i.
Proof.
  intros Hs Hi. induction Hi as [|i idxs Hi _ IH]; intros pages; cbn [fmap list_fmap zip zip_with ofold fst snd].
  { exists pages. split; [done|]. intros i. by rewrite decide_False by apply not_elem_of_nil. }
  destruct (disk_page_ok s i Hs Hi) as (-> & _). cbn [obind]. destruct (IH (<[i := served s i]> pages)) as (pages' & E & Hp).
  exists pages'. split; [exact E|]. intros j. rewrite Hp. destruct (decide (j = i)) as [->|Hne].
  - rewrite lookup_insert_eq. rewrite (decide_True (P := i ∈ i :: idxs)) by set_solver. by case_decide.
  - rewrite lookup_insert_ne by done. by rewrite (decide_ext (j ∈ i :: idxs) (j ∈ idxs)) by set_solver.
Qed.

Lemma collect_indices (s : ES) paths set : Forall (tree_path (et_page_count s)) paths ->
  exists l, ofold (fun set path => let? _ := validate_path path (et_page_count s) in Ok (btree_extend set path)) set paths = Ok l /\
    forall i, i ∈ l <-> i ∈ set \/ i ∈ concat paths.
Proof.
  intros Hp. revert set. induction Hp as [|path paths Hp _ IH]; intros set; cbn [ofold concat].
  { exists set. split; [done|]. intros i. set_solver. }
  rewrite validate_path_ok by done. cbn [obind]. destruct (IH (btree_extend set path)) as (l & E & Hl).
  exists l. split; [done|]. intros i. rewrite Hl, btree_extend_elem. set_solver.
Qed.

Local Abbreviation verify_all s pages :=
  (ofold (fun (_ : unit) path => verify_path_from_pages path pages (et_store_id s) (et_root_hash s)) tt).

Lemma read_verified_exact (s : ES) paths : embedded_shape s -> Forall (tree_path (et_page_count s)) paths ->
  exists inner' pages, ps_next (et_inner s) (ps_content (et_inner s)) inner' /\
    (forall i, pages !! i = if decide (i ∈ concat paths) then Some (served s i) else None) /\
    read_verified_paths paths s = (let? _ := verify_all s pages paths in Ok pages, set_et_inner inner' s).
Proof.
  intros Hs Hp. destruct paths as [|path paths].
  { exists (et_inner s), ∅. split_and!; [apply page_next_refl, Hs| |by destruct s].
    intros i. by rewrite decide_False by apply not_elem_of_nil. }
  unfold read_verified_paths. set (ps := path :: paths) in *. rewrite bind_gets.
  destruct (collect_indices s ps [] Hp) as (l & -> & Hl). rewrite bind_lift.
  assert (Forall (in_range (et_page_count s)) l) as Hr.
  { apply Forall_forall. intros i [Hx|Hx]%Hl; [by apply not_elem_of_nil in Hx|].
    pose proof (tree_paths_range _ _ Hp) as Ht. rewrite Forall_forall in Ht. by apply Ht. }
  destruct (ps_read_pages_ok (et_inner s) l (es_inner s Hs)) as (inner' & E & Hn); [by rewrite <-(es_count s Hs)|].
  erewrite bind_eq by (by apply zoom_eq). destruct (decode_all_ok s l Hs Hr ∅) as (pages & -> & Hpg). rewrite bind_lift.
  exists inner', pages. split_and!; [done| |].
  - intros i. rewrite Hpg. rewrite (decide_ext (i ∈ l) (i ∈ concat ps)); [by case_decide|]. rewrite Hl. set_solver.
  - rewrite bind_lift. by destruct (verify_all s pages ps).
Qed.

(** Verification of all paths against the trusted root of a tree [T]. *)
Lemma verify_all_total (s : ES) pages paths : digest_ok (et_root_hash s) -> Forall (tree_path (et_page_count s)) paths ->
  (forall i, i ∈ concat paths -> exists p, pages !! i = Some p /\ embedded_ok (et_logical_page_size s) p) ->
  verify_all s pages paths = Ok tt \/
  verify_all s pages paths = Err (InvalidInput "embedded tree authentication failed for page {}").
Proof.
  intros Hd Hp. induction Hp as [|path paths Hpath Hp IH]; intros Hin; [by left|]. cbn [ofold concat] in *.
  destruct Hpath as (rest & -> & Hc & Hdes).
  destruct (verify_total (et_store_id s) (et_logical_page_size s) (et_page_count s) pages 0 rest (et_root_hash s)) as [-> | ->];
    [split; lia|done|done|intros j Hj; apply Hin; set_solver| |by right].
  cbn [obind]. apply IH. intros i Hi. apply Hin. set_solver.
Qed.

Lemma verify_all_complete (s : ES) T pages paths : tree_auth (et_store_id s) (et_page_count s) T (et_root_hash s) ->
  Forall (tree_path (et_page_count s)) paths -> (forall i, i ∈ concat paths -> pages !! i = Some (T i)) ->
  verify_all s pages paths = Ok tt.
Proof.
  intros [He Hroot] Hp. induction Hp as [|path paths Hpath Hp IH]; intros Hin; [done|]. cbn [ofold concat] in *.
  destruct Hpath as (rest & -> & Hc & Hdes). rewrite Hroot.
  rewrite (verify_complete _ (et_page_count s)) by (try done; try (split; lia); intros j Hj; apply Hin; set_solver).
  cbn [obind]. rewrite <-Hroot. apply IH. intros i Hi. apply Hin. set_solver.
Qed.

Lemma verify_all_sound (s : ES) T pages paths : tree_auth (et_store_id s) (et_page_count s) T (et_root_hash s) ->
  Forall (tree_path (et_page_count s)) paths ->
  (forall i, i ∈ concat paths -> exists p, pages !! i = Some p /\ embedded_ok (et_logical_page_size s) p /\
     embedded_ok (et_logical_page_size s) (T i)) ->
  verify_all s pages paths = Ok tt ->
  (forall i, i ∈ concat paths -> pages !! i = Some (T i)) \/
  exists i p, i ∈ concat paths /\ pages !! i = Some p /\ page_collision (et_store_id s) i p (T i).
Proof.
  intros Ha Hp. induction Hp as [|path paths Hpath Hp IH]; intros Hin Hv; [left; intros i Hi; by apply not_elem_of_nil in Hi|].
  cbn [ofold concat] in *. apply obind_Ok in Hv as ([] & Hv1 & Hv2). destruct Ha as [He Hroot].
  destruct Hpath as (rest & -> & Hc & Hdes). rewrite Hroot in Hv1.
  destruct (verify_sound (et_store_id s) (et_logical_page_size s) (et_page_count s) T pages 0 rest He) as [Hall|(j & p & Hj & Hq)];
    [split; lia|done|intros j Hj; apply Hin; set_solver|done| |right; exists j, p; set_solver].
  destruct IH as [Hall2|(j & p & Hj & Hq)]; [intros i Hi; apply Hin; set_solver|done| |right; exists j, p; set_solver].
  left. intros i [Hi|Hi]%elem_of_app; auto.
Qed.

End Shape.

(** ** Trust and its preservation *)

Section Trust.
Context {S : Type} `{LawfulPageStore S} `{HashLaws}.
Local Abbreviation ES := (EmbeddedTreePageStore S).
Local Abbreviation served s := (disk_page (et_logical_page_size s) (et_inner s)).
Local Abbreviation refusal := (InvalidInput "embedded tree authentication failed for page {}").

(** The tree [T] the store trusts: the root hash commits to it and the cached pages
    are its pages; the inner store may hold anything. *)
Definition cache_ok (s : ES) (T : Z -> EmbeddedPage) : Prop :=
  forall cache i p, verified_batch_cache s = Some cache -> vb_root_hash cache = et_root_hash s ->
    vb_pages cache !! i = Some p -> p = T i /\ in_range (et_page_count s) i.
Record trusts (s : ES) (T : Z -> EmbeddedPage) : Prop := {
  tr_shape : embedded_shape s;
  tr_auth : tree_auth (et_store_id s) (et_page_count s) T (et_root_hash s);
  tr_pages : forall i, in_range (et_page_count s) i -> embedded_ok (et_logical_page_size s) (T i);
  tr_cache : cache_ok s T
}.

(** Another page than the trusted one is served on the paths; and it has its hash. *)
Definition tampered (s : ES) (T : Z -> EmbeddedPage) (paths : list (list Z)) : Prop :=
  exists i, i ∈ concat paths /\ served s i <> T i.
Definition served_collision (s : ES) (T : Z -> EmbeddedPage) (paths : list (list Z)) : Prop :=
  exists i, i ∈ concat paths /\ page_collision (et_store_id s) i (served s i) (T i).

Lemma collision_tampered s T paths : served_collision s T paths -> tampered s T paths.
Proof. intros (i & Hi & Hne & _). exists i. split; [done|]. intros E. apply Hne. by rewrite E. Qed.

Lemma tree_auth_ext id count T T' root : 0 < count -> (forall i, in_range count i -> T i = T' i) ->
  tree_auth id count T root -> tree_auth id count T' root.
Proof.
  intros Hc Hext [He ->]. split; [|rewrite Hext; [done|split; lia]].
  intros i c Hi Hcc Hch Hex. rewrite <-(Hext i) by done. rewrite (He i c) by done.
  rewrite Hext; [done|]. unfold in_range, left_child, right_child in *. lia.
Qed.

Lemma trusts_ext (s : ES) T T' : (forall i, in_range (et_page_count s) i -> T i = T' i) -> trusts s T -> trusts s T'.
Proof.
  intros Hext [Hs Ha Hp Hc]. split; [done| | |].
  - eapply tree_auth_ext; [by apply embedded_count_pos|exact Hext|exact Ha].
  - intros i Hi. rewrite <-Hext by done. by apply Hp.
  - intros cache i p Ec Er Ep. destruct (Hc cache i p Ec Er Ep) as [-> Hi]. split; [by apply Hext|done].
Qed.

Lemma trusts_inner (s : ES) T inner' : trusts s T -> ps_ok inner' -> ps_page_size inner' = ps_page_size (et_inner s) ->
  ps_page_count inner' = ps_page_count (et_inner s) -> trusts (set_et_inner inner' s) T.
Proof. intros [Hs Ha Hp Hc] Hok Hsz Hct. split; [by apply embedded_shape_inner|done..]. Qed.

Lemma trusts_next (s : ES) T f inner' : trusts s T -> ps_next (et_inner s) f inner' -> trusts (set_et_inner inner' s) T.
Proof. intros Ht (Hok & Hsz & Hct & _). by apply trusts_inner. Qed.

Lemma trusts_no_cache (s : ES) T : trusts s T -> trusts (set_et_cache None s) T.
Proof. intros [[] Ha Hp _]. split; [by split|done|done|by intros ? ? ? [=]]. Qed.

Lemma decode_page_bytes size p : 0 < size -> embedded_ok size p -> embedded_decode (page_bytes p) size = Ok p.
Proof.
  intros Hs Hp. destruct (embedded_decode_page size Hs (page_bytes p) (page_bytes_ok size p Hp)) as (q & -> & Hq & E).
  destruct Hp as [[Hl _] [Ha _] [Hb _]], Hq as [[Hl' _] [Ha' _] [Hb' _]]. unfold page_bytes, lenZ in *.
  apply app_inj_1 in E as [E1 E]; [|lia]. apply app_inj_1 in E as [E2 E3]; [|lia]. destruct p, q. cbn in *. congruence.
Qed.

Lemma served_next (s : ES) inner' i : ps_next (et_inner s) (ps_content (et_inner s)) inner' -> embedded_shape s ->
  in_range (et_page_count s) i -> disk_page (et_logical_page_size s) inner' i = served s i.
Proof. intros (_ & _ & _ & Hf) Hs Hi. unfold disk_page. rewrite Hf; [done|]. by rewrite <-(es_count s Hs). Qed.

Lemma paths_elem_range (s : ES) paths i : Forall (tree_path (et_page_count s)) paths -> i ∈ concat paths -> in_range (et_page_count s) i.
Proof. intros Hp Hi. pose proof (tree_paths_range _ _ Hp) as Ht. rewrite Forall_forall in Ht. by apply Ht. Qed.

(** A verified read: trusted pages, a refusal, or a collision. *)
Lemma read_verified_cases (s : ES) T paths : trusts s T -> Forall (tree_path (et_page_count s)) paths ->
  exists inner', ps_next (et_inner s) (ps_content (et_inner s)) inner' /\
    ((exists pages, read_verified_paths paths s = (Ok pages, set_et_inner inner' s) /\
        forall i, pages !! i = if decide (i ∈ concat paths) then Some (T i) else None) \/
     tampered s T paths /\ read_verified_paths paths s = (Err refusal, set_et_inner inner' s) \/
     served_collision s T paths).
Proof.
  intros Ht Hp. pose proof (tr_shape s T Ht) as Hs. destruct (read_verified_exact s paths Hs Hp) as (inner' & pages & Hn & Hpg & E).
  exists inner'. split; [done|]. rewrite E. destruct (decide (Forall (fun i => served s i = T i) (concat paths))) as [Hall|Hnot].
  - rewrite Forall_forall in Hall. left. exists pages.
    assert (forall i, pages !! i = if decide (i ∈ concat paths) then Some (T i) else None) as Hpt.
    { intros i. rewrite Hpg. case_decide; [|done]. by rewrite Hall. }
    rewrite (verify_all_complete s T); [done|apply Ht|done|]. intros i Hi. by rewrite Hpt, decide_True.
  - right. assert (forall i, i ∈ concat paths -> in_range (et_page_count s) i) as Hr by (intros; by eapply paths_elem_range).
    destruct (verify_all_total s pages paths) as [V|V]; [rewrite (proj2 (tr_auth s T Ht)); apply page_hash_ok|done| | |].
    + intros i Hi. exists (served s i). rewrite Hpg, decide_True by done. split; [done|]. by apply (disk_page_ok s i Hs), Hr.
    + right. destruct (verify_all_sound s T pages paths) as [Hall|(i & p & Hi & Ep & Hcol)]; [apply Ht|done| |done| |].
      * intros i Hi. exists (served s i). rewrite Hpg, decide_True by done.
        split_and!; [done|by apply (disk_page_ok s i Hs), Hr|by apply Ht, Hr].
      * exfalso. apply Hnot, Forall_forall. intros i Hi. specialize (Hall i Hi). rewrite Hpg, decide_True in Hall by done. congruence.
      * exists i. split; [done|]. rewrite Hpg, decide_True in Ep by done. by injection Ep as ->.
    + left. rewrite V. split; [|done]. apply not_Forall_Exists, Exists_exists in Hnot as (i & Hi & Hne); [|apply _]. by exists i.
Qed.

Definition logical_paths_of (T : Z -> EmbeddedPage) (paths : list (list Z)) : list (list bytes) :=
  (fun path : list Z => (fun i => ep_logical (T i)) <$> path) <$> paths.

Lemma read_paths_cases (s : ES) T paths : trusts s T -> Forall (tree_path (et_page_count s)) paths ->
  exists inner', ps_next (et_inner s) (ps_content (et_inner s)) inner' /\
    ((exists cache, let s' := set_et_cache cache (set_et_inner inner' s) in
        read_paths paths s = (Ok (logical_paths_of T paths), s') /\ trusts s' T) \/
     tampered s T paths /\ read_paths paths s = (Err refusal, set_et_inner inner' s) \/
     served_collision s T paths).
Proof.
  intros Ht Hp. destruct (read_verified_cases s T paths Ht Hp) as (inner' & Hn & [(pages & E & Hpg)|[(Htp & E)|Hc]]);
    exists inner'; (split; [exact Hn|]); [left|right; left|by right; right].
  - unfold read_paths. rewrite (bind_eq _ _ _ _ _ E). rewrite (omap_m_pure _ (fun path : list Z => (fun i => ep_logical (T i)) <$> path)).
    + rewrite bind_lift, bind_modify. eexists. split; [reflexivity|].
      destruct (trusts_next s T _ inner' Ht Hn) as [[] Ha Hok _]. split; [by split|done|done|]. intros cache i p [= <-] _. cbn.
      rewrite Hpg. case_decide as Hi; [|done]. intros [= <-]. split; [done|by eapply paths_elem_range].
    + intros path Hin. apply omap_m_pure. intros i Hi. unfold get_page. rewrite Hpg, decide_True; [done|].
      apply elem_of_concat. eauto.
  - split; [done|]. unfold read_paths. by rewrite (bind_err _ _ _ _ _ E).
Qed.

(** The overlay that [write_paths] starts from. *)
Lemma overlay_cases (s : ES) T paths : trusts s T -> Forall (tree_path (et_page_count s)) paths ->
  exists inner', let s' := set_et_inner inner' (set_et_cache None s) in ps_next (et_inner s) (ps_content (et_inner s)) inner' /\
    ((exists pages, verified_overlay paths s = (Ok pages, s') /\ (forall j, j ∈ concat paths -> is_Some (pages !! j)) /\
        forall j p, pages !! j = Some p -> p = T j /\ in_range (et_page_count s) j) \/
     tampered s T paths /\ verified_overlay paths s = (Err refusal, s') \/
     served_collision s T paths).
Proof.
  intros Ht Hp. set (s0 := set_et_cache None s). pose proof (trusts_no_cache s T Ht : trusts s0 T) as Ht0.
  unfold verified_overlay. rewrite bind_gets, bind_modify. fold s0.
  destruct (read_verified_cases s0 T paths Ht0 Hp) as (inner' & Hn & Hcases).
  assert (forall o : gmap Z EmbeddedPage, (forall i, o !! i = if decide (i ∈ concat paths) then Some (T i) else None) ->
    (forall j, j ∈ concat paths -> is_Some (o !! j)) /\ forall j p, o !! j = Some p -> p = T j /\ in_range (et_page_count s) j) as Hfresh.
  { intros o Ho. split; [intros j Hj; rewrite Ho, decide_True by done; eauto|]. intros j p. rewrite Ho.
    case_decide as Hj; [|done]. intros [= <-]. split; [done|by eapply paths_elem_range]. }
  destruct (match verified_batch_cache s with Some cache => bool_decide (vb_root_hash cache = et_root_hash s) &&
              cache_covers_paths (vb_pages cache) paths | None => false end) eqn:Eb.
  - destruct (verified_batch_cache s) as [cache|] eqn:Ec; [|done]. rewrite Eb. apply andb_true_iff in Eb as [Er Ecov].
    apply bool_decide_eq_true in Er. exists (et_inner s). split; [apply page_next_refl, Ht|]. left. exists (vb_pages cache).
    split_and!; [done| |intros j p Hj; by apply (tr_cache s T Ht cache)].
    intros j Hj. unfold cache_covers_paths in Ecov. rewrite forallb_forall in Ecov.
    specialize (Ecov j (proj1 (list_elem_of_In _ _) Hj)). by apply bool_decide_eq_true in Ecov.
  - exists inner'. split; [exact Hn|].
    assert (match verified_batch_cache s with
      | Some cache => if bool_decide (vb_root_hash cache = et_root_hash s) && cache_covers_paths (vb_pages cache) paths
                      then ret (vb_pages cache) else read_verified_paths paths
      | None => read_verified_paths paths end = read_verified_paths paths) as ->.
    { destruct (verified_batch_cache s); [|done]. by rewrite Eb. }
    destruct Hcases as [(pages & E & Hpg)|[(Htp & E)|Hc]]; [left; exists pages; split; [exact E|by apply Hfresh]|by right; left|by right; right].
Qed.

End Trust.

(** ** Writing *)

Section Writing.
Context {S : Type} `{LawfulPageStore S} `{HashLaws}.
Local Abbreviation ES := (EmbeddedTreePageStore S).
Local Abbreviation served s := (disk_page (et_logical_page_size s) (et_inner s)).
Local Abbreviation refusal := (InvalidInput "embedded tree authentication failed for page {}").

(** The loop of [write_paths] on an overlay of the trusted tree. *)
Lemma write_rounds T paths : forall lpss (s : ES) pages dirty,
  let id := et_store_id s in let size := et_logical_page_size s in let count := et_page_count s in
  0 < size -> 0 < count -> Forall (tree_path count) paths -> Forall (Forall (page_ok size)) lpss ->
  Forall2 (fun path ps => length path = length ps) paths lpss ->
  (forall j, j ∈ concat paths -> is_Some (pages !! j)) -> pages_ok size pages ->
  tree_auth id count (over pages T) (et_root_hash s) -> StronglySorted Z.lt dirty ->
  exists pages' dirty' root', foldM write_one_path (pages, dirty) (zip paths lpss) s = (Ok (pages', dirty'), set_et_root root' s) /\
    tree_auth id count (over pages' T) root' /\ pages_ok size pages' /\ same_dom pages' pages /\
    (forall j, ep_logical (over pages' T j) = paths_upd paths lpss (ep_logical ∘ over pages T) j) /\
    (forall j, j ∉ concat paths -> over pages' T j = over pages T j) /\
    (forall j, j ∈ dirty' <-> j ∈ concat paths \/ j ∈ dirty) /\ StronglySorted Z.lt dirty'.
Proof.
  induction paths as [|path paths IH]; intros lpss s pages dirty id size count Hsz Hct Hp Hl Hlen Hin Hok [He Hr] Hsd;
    inversion Hlen as [|x lps y lpss' Hxy Hlen']; subst; cbn [zip zip_with foldM concat] in *.
  { exists pages, dirty, (et_root_hash s). split_and!; try done; [by destruct s|]. set_solver. }
  apply Forall_cons in Hp as [Hpath Hp]. apply Forall_cons in Hl as [Hl Hls].
  destruct (rewrite_path_ok id size count Hsz T path lps pages dirty) as (p1 & p2 & d2 & E1 & E2 & He2 & Hok2 & Hdom2 & Hlog2 & Hout2 & Hd2 & Hs2);
    try done. { intros j Hj. apply Hin. set_solver. }
  destruct (IH lpss' (set_et_root (page_hash id 0 (over p2 T 0)) s) p2 d2) as (p3 & d3 & root3 & E3 & Ha3 & Hok3 & Hdom3 & Hlog3 & Hout3 & Hd3 & Hs3);
    try done. { intros j Hj. apply Hdom2, Hin. set_solver. }
  exists p3, d3, root3. split.
  { erewrite bind_eq; [exact E3|]. unfold write_one_path. rewrite bind_gets, bind_guardm. cbn [fst snd].
    unfold lenZ. rewrite Hxy, Z.eqb_refl. rewrite validate_path_ok by done. rewrite bind_lift. fold size. rewrite E1, bind_lift.
    fold id. cbn [fst snd]. rewrite E2, bind_lift. reflexivity. }
  split_and!; [done|done|intros j; by rewrite (Hdom3 j)| | | |done].
  - intros j. rewrite Hlog3. cbn [paths_upd]. apply paths_upd_pointwise. cbn [compose]. by rewrite Hlog2.
  - intros j Hj. rewrite Hout3, Hout2 by set_solver. done.
  - intros j. rewrite Hd3, Hd2, elem_of_app. naive_solver.
Qed.

(** From verified pages, the writes are applied and the new tree is trusted; off the
    paths the disk is left as it was. *)
Lemma apply_writes_ok (s : ES) T pages paths lpss : trusts s T -> verified_batch_cache s = None ->
  Forall (tree_path (et_page_count s)) paths -> Forall (Forall (page_ok (et_logical_page_size s))) lpss ->
  Forall2 (fun path ps => length path = length ps) paths lpss ->
  (forall j, j ∈ concat paths -> is_Some (pages !! j)) ->
  (forall j p, pages !! j = Some p -> p = T j /\ in_range (et_page_count s) j) ->
  exists T' inner' root', let s' := set_et_inner inner' (set_et_root root' s) in
    apply_writes pages paths lpss s = (Ok tt, s') /\ trusts s' T' /\
    (forall j, ep_logical (T' j) = paths_upd paths lpss (ep_logical ∘ T) j) /\
    (forall j, j ∉ concat paths -> T' j = T j) /\
    forall j, in_range (et_page_count s) j -> served s' j = if decide (j ∈ concat paths) then T' j else served s j.
Proof.
  intros Ht Hnc Hp Hl Hlen Hdom Hpg. pose proof (tr_shape s T Ht) as Hsh. pose proof (embedded_count_pos s Hsh) as Hct.
  assert (forall j, over pages T j = T j) as Hview by (intros j; apply over_serves; intros i p Hi; by apply (Hpg i)).
  destruct (write_rounds T paths lpss s pages []) as (p2 & d2 & root2 & E2 & Ha2 & Hok2 & Hdom2 & Hlog2 & Hout2 & Hd2 & Hs2);
    [apply Hsh|done|done|done|done|done| | |constructor|].
  { intros j p Hj. destruct (Hpg j p Hj) as [-> Hr]. exact (tr_pages s T Ht j Hr). }
  { eapply (tree_auth_ext _ _ T); [done| |apply Ht]. intros i _. by rewrite Hview. }
  set (T' := over p2 T) in *. unfold apply_writes. rewrite (bind_eq _ _ _ _ _ E2), bind_gets. cbn [fst snd].
  assert (forall i, i ∈ d2 <-> i ∈ concat paths) as Hd by (intros i; rewrite Hd2; set_solver).
  assert (forall i, i ∈ concat paths -> in_range (et_page_count s) i /\ p2 !! i = Some (T' i) /\
    embedded_ok (et_logical_page_size s) (T' i)) as Hdirty.
  { intros i Hi. destruct (proj2 (Hdom2 i) (Hdom i Hi)) as [p Ep]. unfold T', over. rewrite Ep.
    split_and!; [by eapply paths_elem_range|done|by eapply Hok2]. }
  rewrite (omap_m_pure _ (fun i => page_bytes (T' i))).
  2:{ intros i Hi%Hd. destruct (Hdirty i Hi) as (_ & Ep & Hok). unfold get_page. rewrite Ep. cbn [obind].
      apply embedded_encode_ok; [apply Hsh|done|]. cbn. rewrite (es_physical s Hsh). apply lenZ_zeros. pose proof (es_logical s Hsh). lia. }
  rewrite bind_lift.
  destruct (ps_write_pages_ok (et_inner s) d2 ((fun i => page_bytes (T' i)) <$> d2) (es_inner s Hsh)) as (inner2 & E3 & Hn3).
  { rewrite <-(es_count s Hsh). apply Forall_forall. intros i Hi%Hd. by apply Hdirty. }
  { rewrite (es_size s Hsh), (es_physical s Hsh). apply Forall_fmap, Forall_forall. intros i Hi%Hd. apply page_bytes_ok. by apply Hdirty. }
  { by rewrite length_fmap. }
  exists T', inner2, root2. split; [by apply zoom_eq|]. pose proof Hn3 as (Hok3 & Hsz3 & Hct3 & Hco3). split_and!.
  - apply (trusts_inner (set_et_root root2 s)); [|done..]. split; [by destruct Hsh; split|exact Ha2| |].
    + intros i Hi. unfold T', over. destruct (p2 !! i) eqn:Ei; [by apply (Hok2 i)|exact (tr_pages s T Ht i Hi)].
    + intros cache i p Ec. cbn in Ec. by rewrite Hnc in Ec.
  - intros j. rewrite Hlog2. apply paths_upd_pointwise. cbn [compose]. by rewrite Hview.
  - intros j Hj. by rewrite Hout2, Hview.
  - intros j Hj. cbn. unfold disk_page. rewrite (es_count s Hsh) in Hj. rewrite Hco3 by done. rewrite pages_upd_fmap.
    rewrite (decide_ext (j ∈ d2) (j ∈ concat paths)) by apply Hd. case_decide as Hjp; [|done].
    rewrite decode_page_bytes; [done|apply Hsh|by apply Hdirty].
Qed.

Lemma write_paths_cases (s : ES) T paths lpss : trusts s T -> Forall (tree_path (et_page_count s)) paths ->
  Forall (Forall (page_ok (et_logical_page_size s))) lpss -> Forall2 (fun path ps => length path = length ps) paths lpss ->
  (exists T' s', write_paths paths lpss s = (Ok tt, s') /\ trusts s' T' /\
      et_store_id s' = et_store_id s /\ et_page_count s' = et_page_count s /\ et_logical_page_size s' = et_logical_page_size s /\
      (forall j, ep_logical (T' j) = paths_upd paths lpss (ep_logical ∘ T) j) /\
      (forall j, j ∉ concat paths -> T' j = T j) /\
      forall j, in_range (et_page_count s) j -> served s' j = if decide (j ∈ concat paths) then T' j else served s j) \/
  tampered s T paths /\ (exists s', write_paths paths lpss s = (Err refusal, s') /\ trusts s' T /\
      et_store_id s' = et_store_id s /\ et_page_count s' = et_page_count s /\ et_logical_page_size s' = et_logical_page_size s) \/
  served_collision s T paths.
Proof.
  intros Ht Hp Hl Hlen. unfold write_paths. rewrite bind_guardm. unfold lenZ. rewrite (Forall2_length _ _ _ Hlen), Z.eqb_refl.
  destruct paths as [|path paths'].
  { left. exists T, s. by split_and!. }
  set (paths := path :: paths') in *. destruct (overlay_cases s T paths Ht Hp) as (inner' & Hn & [(pages & E & Hdom & Hpg)|[(Htp & E)|Hc]]).
  - left. rewrite (bind_eq _ _ _ _ _ E). set (s1 := set_et_inner inner' (set_et_cache None s)) in *.
    destruct (apply_writes_ok s1 T pages paths lpss) as (T' & inner2 & root2 & E2 & Ht2 & Hlog & Hout & Hsrv); try done.
    { eapply trusts_next; [by apply trusts_no_cache|exact Hn]. }
    eexists T', _. split; [exact E2|]. split_and!; try done. intros j Hj. rewrite Hsrv by done. case_decide; [done|].
    apply (served_next s inner' j Hn (tr_shape s T Ht) Hj).
  - right; left. split; [done|]. rewrite (bind_err _ _ _ _ _ E). eexists. split; [reflexivity|]. split; [|done].
    eapply trusts_next; [by apply trusts_no_cache|exact Hn].
  - by right; right.
Qed.

(** ** The array of logical pages, over an honest disk *)

Definition embedded_inv (s : ES) : Prop := trusts s (served s).
Definition embedded_content (s : ES) (i : Z) : bytes := ep_logical (served s i).
Local Abbreviation em_next := (page_next embedded_inv et_logical_page_size et_page_count embedded_content).

Lemma not_tampered (s : ES) paths : ~ tampered s (served s) paths.
Proof. by intros (i & _ & ?). Qed.

(** Replacing the inner store by one with the same pages. *)
Lemma embedded_reread (s : ES) inner' cache : ps_next (et_inner s) (ps_content (et_inner s)) inner' -> embedded_shape s ->
  let s' := set_et_cache cache (set_et_inner inner' s) in trusts s' (served s) -> em_next s (embedded_content s) s'.
Proof.
  intros Hn Hs s' Ht. split; [|split; [done|split; [done|]]].
  - eapply trusts_ext; [|exact Ht]. intros i Hi. symmetry. by apply (served_next s).
  - intros j Hj. unfold embedded_content. f_equal. by apply (served_next s).
Qed.

Lemma read_paths_ok (s : ES) paths : embedded_inv s -> Forall (tree_path (et_page_count s)) paths ->
  exists s', read_paths paths s = (Ok ((fun path : list Z => embedded_content s <$> path) <$> paths), s') /\
    em_next s (embedded_content s) s'.
Proof.
  intros Hs Hp. destruct (read_paths_cases s (served s) paths Hs Hp) as (inner' & Hn & [(cache & E & Ht)|[(Htp & _)|Hc]]).
  - eexists. split; [exact E|]. apply embedded_reread; [done|apply (tr_shape s _ Hs)|done].
  - by apply not_tampered in Htp.
  - by apply collision_tampered, not_tampered in Hc.
Qed.

Lemma write_paths_ok (s : ES) paths lpss : embedded_inv s -> Forall (tree_path (et_page_count s)) paths ->
  Forall (Forall (page_ok (et_logical_page_size s))) lpss -> Forall2 (fun path ps => length path = length ps) paths lpss ->
  exists s', write_paths paths lpss s = (Ok tt, s') /\ em_next s (paths_upd paths lpss (embedded_content s)) s'.
Proof.
  intros Hs Hp Hl Hlen.
  destruct (write_paths_cases s (served s) paths lpss Hs Hp Hl Hlen) as [(T' & s' & E & Ht & _ & Hct & Hsz & Hlog & Hout & Hsrv)|[(Htp & _)|Hc]].
  - exists s'. split; [exact E|]. assert (forall j, in_range (et_page_count s) j -> T' j = served s' j) as Hnew.
    { intros j Hj. rewrite Hsrv by done. case_decide; [done|]. by apply Hout. }
    split_and!; [|done|done|].
    + eapply trusts_ext; [|exact Ht]. intros i. rewrite Hct. apply Hnew.
    + intros j Hj. unfold embedded_content at 1. rewrite <-Hnew by done. apply Hlog.
  - by apply not_tampered in Htp.
  - by apply collision_tampered, not_tampered in Hc.
Qed.

Lemma embedded_flush_ok (s : ES) : embedded_inv s -> exists s', on_et_inner ps_flush s = (Ok tt, s') /\ em_next s (embedded_content s) s'.
Proof.
  intros Hs. pose proof (tr_shape s _ Hs) as Hsh. destruct (ps_flush_ok (et_inner s) (es_inner s Hsh)) as (inner' & E & Hn).
  exists (set_et_inner inner' s). split; [by apply zoom_eq|].
  apply (embedded_reread s inner' (verified_batch_cache s) Hn Hsh). exact (trusts_next s _ _ inner' Hs Hn).
Qed.

Lemma read_path_ok (s : ES) path : embedded_inv s -> tree_path (et_page_count s) path ->
  exists s', read_path path s = (Ok (embedded_content s <$> path), s') /\ em_next s (embedded_content s) s'.
Proof.
  intros Hs Hp. destruct (read_paths_ok s [path] Hs) as (s' & E & Hn); [by repeat constructor|].
  exists s'. split; [|done]. unfold read_path. by rewrite (bind_eq _ _ _ _ _ E).
Qed.

Lemma write_path_ok (s : ES) path lps : embedded_inv s -> tree_path (et_page_count s) path ->
  Forall (page_ok (et_logical_page_size s)) lps -> length path = length lps ->
  exists s', write_path path lps s = (Ok tt, s') /\ em_next s (pages_upd path lps (embedded_content s)) s'.
Proof. intros Hs Hp Hl Hlen. apply (write_paths_ok s [path] [lps] Hs); by repeat constructor. Qed.

Lemma embedded_content_ok (s : ES) i : embedded_inv s -> in_range (et_page_count s) i -> page_ok (et_logical_page_size s) (embedded_content s i).
Proof. intros Hs Hi. apply (tr_pages s _ Hs i Hi). Qed.

#[export] Instance embedded_lawful : LawfulPathStore ES := {|
  pp_ok := embedded_inv;
  pp_content := embedded_content;
  pp_content_ok := embedded_content_ok;
  pp_read_path_pages_ok := read_path_ok;
  pp_write_path_pages_ok := write_path_ok;
  pp_read_paths_pages_ok := read_paths_ok;
  pp_write_paths_pages_ok := write_paths_ok;
  pp_flush_ok := embedded_flush_ok
|}.

End Writing.

(** ** Building the tree *)

Section BuildOk.
Context {S : Type} `{LawfulPageStore S} `{HashLaws} (store_id : bytes) (size n : Z).
Local Abbreviation hash_of := (page_hash store_id).
Local Abbreviation tabulate f := (f <$> seqZ 0 n).

Lemma tabulate_lookup {A} (f : Z -> A) (i : nat) : Z.of_nat i < n -> tabulate f !! i = Some (f (Z.of_nat i)).
Proof. intros Hi. apply list_lookup_fmap_Some. exists (Z.of_nat i). split; [done|]. apply lookup_seqZ. lia. Qed.

Lemma tabulate_index {A} (f : Z -> A) i : in_range n i -> indexZ (tabulate f) i = Ok (f i).
Proof.
  intros [Hi Hn]. unfold indexZ. rewrite (proj2 (Z.leb_le _ _)), tabulate_lookup by lia. by rewrite Z2Nat.id.
Qed.

Lemma tabulate_update {A} (f : Z -> A) i x : in_range n i -> updateZ (tabulate f) i x = Ok (tabulate (page_upd i x f)).
Proof.
  intros [Hi Hn]. unfold updateZ, lenZ. rewrite length_fmap, length_seqZ.
  rewrite (proj2 (Z.leb_le _ _)), (proj2 (Z.ltb_lt _ _)) by lia. cbn [andb]. f_equal. apply list_eq. intros k.
  destruct (decide (Z.of_nat k < n)).
  - rewrite tabulate_lookup by done. unfold page_upd. destruct (Z.of_nat k =? i) eqn:E; zbool.
    + subst i. rewrite Nat2Z.id, list_lookup_insert_eq; [done|]. rewrite length_fmap, length_seqZ. lia.
    + rewrite list_lookup_insert_ne by lia. by apply tabulate_lookup.
  - rewrite !lookup_ge_None_2; [done|rewrite length_fmap, length_seqZ; lia|].
    rewrite length_insert, length_fmap, length_seqZ. lia.
Qed.

Lemma child_hash_tabulate f c : 0 <= c -> child_hash (tabulate f) c = if c <? n then f c else zeros 32.
Proof.
  intros Hc. unfold child_hash. destruct (c <? n) eqn:E; zbool.
  - rewrite tabulate_lookup by lia. by rewrite Z2Nat.id.
  - by rewrite lookup_ge_None_2 by (rewrite length_fmap, length_seqZ; lia).
Qed.

Lemma enumerate_tabulate {A} (f : Z -> A) : enumerate (tabulate f) = (fun i => (i, f i)) <$> seqZ 0 n.
Proof.
  apply list_eq. intros k. rewrite lookup_enumerate, !list_lookup_fmap.
  destruct (seqZ 0 n !! k) as [i|] eqn:E; [|done]. apply lookup_seqZ in E as [-> _]. done.
Qed.

Lemma tag_fst {A} (f : Z -> A) (l : list Z) : fst <$> ((fun i => (i, f i)) <$> l) = l.
Proof. induction l as [|i l IH]; cbn; by f_equal. Qed.
Lemma tag_snd {A B} (f : Z -> A) (g : A -> B) (l : list Z) : (fun ip : Z * A => g ip.2) <$> ((fun i => (i, f i)) <$> l) = (fun i => g (f i)) <$> l.
Proof. induction l as [|i l IH]; cbn; by f_equal. Qed.

(** The pages from index [k] on carry the hashes of their children. *)
Definition hashed_from (k : Z) (T : Z -> EmbeddedPage) : Prop :=
  forall i c, k <= i -> in_range n i -> c < n -> c = left_child i \/ c = right_child i ->
    page_child_hash (T i) i c = Ok (hash_of c (T c)).

Lemma build_hash_ok P : (forall i, in_range n i -> embedded_ok size (P i)) -> 0 <= n ->
  exists T, ofold (build_hash store_id) (tabulate P, replicate (Z.to_nat n) (zeros 32)) (reverse (seqZ 0 n)) =
      Ok (tabulate T, tabulate (fun i => hash_of i (T i))) /\
    hashed_from 0 T /\ (forall i, ep_logical (T i) = ep_logical (P i)) /\ (forall i, in_range n i -> embedded_ok size (T i)).
Proof.
  intros HP Hn.
  destruct (ofold_prefix_inv (fun before (ph : list EmbeddedPage * list bytes) => exists T,
      ph = (tabulate T, tabulate (fun i => if i <? n - lenZ before then zeros 32 else hash_of i (T i))) /\
      hashed_from (n - lenZ before) T /\ (forall i, ep_logical (T i) = ep_logical (P i)) /\
      (forall i, in_range n i -> embedded_ok size (T i)))
    (build_hash store_id) (reverse (seqZ 0 n)) (tabulate P, replicate (Z.to_nat n) (zeros 32))) as (r & E & T & -> & Hh & Hl & Hok).
  - intros before i after ph El (T & -> & Hh & Hl & Hok). apply seqZ_reverse_split in El as (Hi & Hir & _).
    set (hs := fun j => if j <? n - lenZ before then zeros 32 else hash_of j (T j)) in *.
    assert (in_range n i) as Hri by (split; lia).
    unfold build_hash at 1. rewrite tabulate_index by done. cbn [obind]. unfold left_child, right_child in *.
    rewrite !child_hash_tabulate by lia.
    set (child c := if c <? n then hs c else zeros 32).
    set (p := mkEmbedded (ep_logical (T i)) (child (i * 2 + 1)) (child (i * 2 + 2))).
    rewrite !tabulate_update by done. cbn [obind]. eexists. split; [reflexivity|].
    assert (forall c, i < c -> c < n -> child c = hash_of c (T c)) as Hchild.
    { intros c Hic Hcn. unfold child, hs. rewrite (proj2 (Z.ltb_lt _ _)) by lia. by rewrite (proj2 (Z.ltb_ge _ _)) by lia. }
    assert (forall c, digest_ok (child c)) as Hdig.
    { intros c. unfold child, hs. repeat case_match; try apply page_hash_ok; split; try apply zeros_ok; by apply lenZ_zeros. }
    exists (page_upd i p T). split_and!.
    + f_equal. apply list_fmap_ext. intros k j Hj. apply lookup_seqZ in Hj as [-> Hk]. rewrite lenZ_app, lenZ_cons. change (lenZ []) with 0.
      unfold page_upd, hs. destruct (0 + Z.of_nat k =? i) eqn:Ek; zbool.
      * rewrite Ek, (proj2 (Z.ltb_ge i (n - (lenZ before + (1 + 0))))) by lia. done.
      * replace (0 + Z.of_nat k <? n - (lenZ before + (1 + 0))) with (0 + Z.of_nat k <? n - lenZ before) by lia. done.
    + intros a c Ha Har Hcn Hc. rewrite lenZ_app, lenZ_cons in Ha. change (lenZ []) with 0 in Ha.
      assert (a < c) as Hac by (unfold left_child, right_child, in_range in *; lia).
      rewrite (page_upd_ne i c) by lia. destruct (decide (a = i)) as [->|Hne].
      * rewrite page_upd_eq, <-Hchild by lia. unfold page_child_hash, left_child, right_child in *. cbn [left_hash right_hash].
        destruct Hc as [-> | ->]; [by rewrite Z.eqb_refl|]. by rewrite (proj2 (Z.eqb_neq _ _)), Z.eqb_refl by lia.
      * rewrite page_upd_ne by done. apply Hh; (done || lia).
    + intros j. unfold page_upd. destruct (j =? i) eqn:Ej; zbool; [subst j|]; apply Hl.
    + intros j Hj. unfold page_upd. destruct (j =? i) eqn:Ej; zbool; [subst j|by apply Hok].
      split; [apply (Hok i Hri)|apply Hdig..].
  - exists P. split_and!; [|intros i c Hi Hr; change (lenZ []) with 0 in Hi; unfold in_range in Hr; lia|done|done].
    f_equal. apply list_eq. intros k. change (lenZ []) with 0. destruct (decide (Z.of_nat k < n)).
    + rewrite tabulate_lookup, (proj2 (Z.ltb_lt _ _)) by lia. apply lookup_replicate. split; [done|lia].
    + rewrite !lookup_ge_None_2; [done|rewrite length_fmap, length_seqZ; lia|rewrite length_replicate; lia].
  - assert (n - lenZ (reverse (seqZ 0 n)) = 0) as Hz by (unfold lenZ; rewrite length_reverse, length_seqZ; lia).
    rewrite Hz in *. exists T. split_and!; [|done..]. rewrite E. do 2 f_equal. apply list_fmap_ext. intros k j Hj.
    apply lookup_seqZ in Hj as [-> _]. by rewrite (proj2 (Z.ltb_ge _ _)) by lia.
Qed.

Context (inner : S) (Hok : ps_ok inner) (Hs : 0 < size) (Hsz : ps_page_size inner = size + 64) (Hn : n = ps_page_count inner).

Lemma decode_disk i : in_range n i -> embedded_decode (ps_content inner i) size = Ok (disk_page size inner i) /\
  embedded_ok size (disk_page size inner i).
Proof.
  intros Hi. rewrite Hn in Hi. pose proof (ps_content_ok inner i Hok Hi) as Hp. rewrite Hsz in Hp.
  destruct (embedded_decode_page size Hs _ Hp) as (p & E & Hpo & _). unfold disk_page. by rewrite E.
Qed.

Lemma disk_page_logical i : in_range n i -> ep_logical (disk_page size inner i) = take (Z.to_nat size) (ps_content inner i).
Proof.
  intros Hi. rewrite Hn in Hi. pose proof (ps_content_ok inner i Hok Hi) as Hp. rewrite Hsz in Hp.
  destruct (embedded_decode_page size Hs _ Hp) as (p & E & [[Hl _] _ _] & Hb). unfold disk_page. rewrite E, <-Hb.
  unfold page_bytes, lenZ in *. by rewrite take_app_length' by lia.
Qed.

Lemma build_read_ok : exists out inner', foldM (build_read size) ([], zeros (size + 64)) (seqZ 0 n) inner =
    (Ok (tabulate (disk_page size inner), out), inner') /\ lenZ out = size + 64 /\ ps_next inner (ps_content inner) inner'.
Proof.
  destruct (foldM_inv (fun before (b : list EmbeddedPage * bytes) s => b.1 = disk_page size inner <$> before /\
      lenZ b.2 = size + 64 /\ ps_next inner (ps_content inner) s) (build_read size) (seqZ 0 n) ([], zeros (size + 64)) inner)
    as ([pages out] & inner' & E & Hp & Hl & Hnx).
  - intros before i after [pages out] s El (Hp & Hl & Hnx). cbn [fst snd] in *. subst pages.
    apply seqZ_split in El as [_ Hi]. assert (in_range n i) as Hr by (split; lia).
    pose proof Hnx as (Hsok & Hssz & Hsct & Hsco). pose proof Hr as Hri. rewrite Hn in Hri.
    destruct (ps_read_page_ok s i out Hsok) as (s' & E & Hn'); [by rewrite Hsct|by rewrite Hl, Hssz|].
    cbn [build_read]. rewrite (bind_eq _ _ _ _ _ E), Hsco by done. destruct (decode_disk i Hr) as [-> _]. rewrite bind_lift.
    eexists _, s'. split; [reflexivity|]. cbn [fst snd]. split_and!.
    + by rewrite fmap_app.
    + destruct (ps_content_ok inner i Hok Hri). lia.
    + eapply page_next_trans; [exact Hnx|]. eapply page_next_ext; [|exact Hn']. intros j Hj. apply Hsco. by rewrite <-Hsct.
  - split_and!; [done|apply lenZ_zeros; lia|by apply page_next_refl].
  - cbn [fst snd] in *. subst pages. eauto.
Qed.

Lemma build_write_ok inner1 T out : ps_next inner (ps_content inner) inner1 -> lenZ out = size + 64 ->
  (forall i, in_range n i -> embedded_ok size (T i)) ->
  exists out' inner', foldM (build_write size) out (enumerate (tabulate T)) inner1 = (Ok out', inner') /\
    ps_next inner (fun i => page_bytes (T i)) inner'.
Proof.
  intros Hn1 Hout HT. rewrite enumerate_tabulate.
  destruct (foldM_inv (fun before (b : bytes) s => lenZ b = size + 64 /\
      ps_next inner (pages_upd (fst <$> before) ((fun ip : Z * EmbeddedPage => page_bytes ip.2) <$> before) (ps_content inner)) s)
    (build_write size) ((fun i => (i, T i)) <$> seqZ 0 n) out inner1) as (out' & inner' & E & _ & Hnx).
  - intros before [i p] after b s El [Hb Hnx]. pose proof El as Ei. apply (f_equal (fmap fst)) in Ei.
    rewrite tag_fst, fmap_app in Ei. cbn [fmap list_fmap] in Ei.
    apply seqZ_split in Ei as [_ Hi]. cbn [fst] in Hi.
    assert (p = T i) as ->.
    { assert ((i, p) ∈ (fun i => (i, T i)) <$> seqZ 0 n) as Hin by (rewrite El; set_solver).
      apply list_elem_of_fmap in Hin as (j & [= -> ->] & _). done. }
    assert (in_range n i) as Hr by (split; lia). pose proof Hnx as (Hsok & Hssz & Hsct & _).
    unfold build_write at 1. cbn [fst snd]. rewrite embedded_encode_ok, bind_lift by auto.
    pose proof (page_bytes_ok size (T i) (HT i Hr)) as Hpb.
    destruct (ps_write_page_ok s i (page_bytes (T i)) Hsok) as (s' & E & Hn'); [by rewrite Hsct, <-Hn|by rewrite Hssz, Hsz|].
    rewrite (bind_eq _ _ _ _ _ E). eexists _, s'. split; [reflexivity|]. split; [apply Hpb|].
    eapply page_next_trans; [exact Hnx|]. eapply page_next_ext; [|exact Hn']. intros j Hj.
    rewrite !fmap_app, pages_upd_app by by rewrite !length_fmap. cbn [fmap list_fmap pages_upd fst snd].
    unfold page_upd. destruct (j =? i); [done|]. apply Hnx. by rewrite <-Hsct.
  - split; [done|exact Hn1].
  - exists out', inner'. split; [exact E|]. eapply page_next_ext; [|exact Hnx]. intros j Hj.
    rewrite tag_fst, tag_snd. rewrite (pages_upd_fmap (seqZ 0 n) (fun i => page_bytes (T i))). rewrite decide_True; [done|].
    apply elem_of_seqZ. rewrite Hn. unfold in_range in Hj. lia.
Qed.

Lemma embedded_build_ok : exists s, embedded_build inner store_id size = Ok s /\ embedded_inv s /\
  et_store_id s = store_id /\ et_page_count s = n /\ et_logical_page_size s = size /\
  forall i, in_range n i -> embedded_content s i = ep_logical (disk_page size inner i).
Proof.
  destruct (ps_dims_ok inner Hok) as [_ Hpc]. destruct build_read_ok as (out & inner1 & E1 & Hout & Hn1).
  destruct (build_hash_ok (disk_page size inner)) as (T & E2 & Hh & Hl & HT); [intros; by apply decode_disk|lia|].
  destruct (build_write_ok inner1 T out Hn1 Hout HT) as (out' & inner2 & E3 & Hn2).
  unfold embedded_build. rewrite <-Hn. unfold physical_page_size_for, validate_dimensions, EMBEDDED_TREE_AUTH_BYTES_PER_PAGE, CHILD_HASH_BYTES.
  rewrite (proj2 (Z.eqb_neq n 0)), (proj2 (Z.eqb_neq size 0)) by lia. cbn [orb]. rewrite <-Hn, Z.eqb_refl, Hsz, Z.eqb_refl. cbn [negb obind].
  rewrite (bind_eq _ _ _ _ _ E1). cbn [fst snd]. rewrite E2, bind_lift. cbn [fst snd]. rewrite (bind_eq _ _ _ _ _ E3).
  rewrite tabulate_index by (split; lia). cbn [lift obind]. eexists. split; [reflexivity|].
  pose proof Hn2 as (Hok2 & Hsz2 & Hct2 & Hco2).
  assert (forall i, in_range n i -> T i = disk_page size inner2 i) as Hdisk.
  { intros i Hi. unfold disk_page. rewrite Hco2 by by rewrite <-Hn. by rewrite decode_page_bytes by auto. }
  split_and!; [split|done|done|done|].
  - split; cbn; (done || lia).
  - eapply tree_auth_ext; cbn; [lia|exact Hdisk|]. split; [|done]. intros i c Hi Hc Hch _. apply Hh; try done. apply Hi.
  - cbn. intros i Hi. rewrite <-Hdisk by done. by apply HT.
  - intros cache i p [=].
  - intros i Hi. unfold embedded_content. cbn. by rewrite <-Hdisk, Hl.
Qed.

End BuildOk.

(** Reopening from the saved state keeps the trusted tree. *)
Lemma embedded_reopen {S} `{LawfulPageStore S} `{HashLaws} (s : EmbeddedTreePageStore S) T : trusts s T ->
  exists s', embedded_from_state (et_inner s) (embedded_state s) = Ok s' /\ trusts s' T /\ et_store_id s' = et_store_id s /\
    et_page_count s' = et_page_count s /\ et_logical_page_size s' = et_logical_page_size s /\ et_inner s' = et_inner s.
Proof.
  intros [Hsh Ha Hpok _]. pose proof (embedded_count_pos s Hsh) as Hp. pose proof Hsh as [Hi Hct Hl Hph Hsz].
  unfold embedded_from_state, embedded_state, validate_dimensions, physical_page_size_for, EMBEDDED_TREE_AUTH_BYTES_PER_PAGE, CHILD_HASH_BYTES.
  cbn [ets_page_count ets_logical_page_size ets_store_id ets_root_hash].
  rewrite (proj2 (Z.eqb_neq (et_page_count s) 0)), (proj2 (Z.eqb_neq (et_logical_page_size s) 0)) by lia. cbn [orb].
  rewrite <-Hct, Z.eqb_refl, Hsz, Hph, Z.eqb_refl. cbn [negb obind]. eexists. split; [reflexivity|].
  split_and!; [|done..]. split; [split; cbn; (done || lia)|done|done|intros ? ? ? [=]].
Qed.

(** ** Properties: reads, writes and reopenings by the owner, interleaved with a host
    that replaces the inner store at will *)

Inductive tree_event (S : Type) : Type :=
| TreeRead (paths : list (list Z))
| TreeWrite (paths : list (list Z)) (pages : list (list bytes))
| TreeReopen
| HostServes (inner : S).
Arguments TreeRead {S}. Arguments TreeWrite {S}. Arguments TreeReopen {S}. Arguments HostServes {S}.

Section Events.
Context {S : Type} `{LawfulPageStore S} `{HashLaws}.
Local Abbreviation ES := (EmbeddedTreePageStore S).
Local Abbreviation refusal := (InvalidInput "embedded tree authentication failed for page {}").

Definition tree_event_ok (size count : Z) (ev : tree_event S) : Prop :=
  match ev with
  | TreeRead paths => Forall (tree_path count) paths
  | TreeWrite paths pages => Forall (tree_path count) paths /\ Forall (Forall (page_ok size)) pages /\
      Forall2 (fun path ps => length path = length ps) paths pages
  | TreeReopen => True
  | HostServes inner => ps_ok inner /\ ps_page_size inner = size + 64 /\ ps_page_count inner = count
  end.
Definition honest (ev : tree_event S) : bool := match ev with HostServes _ => false | _ => true end.

(** The results of the reads. *)
Fixpoint tree_run (evs : list (tree_event S)) (s : ES) : outcome (list (list (list bytes))) :=
  match evs with
  | [] => Ok []
  | TreeRead paths :: evs =>
      let (r, s) := read_paths paths s in let? x := r in let? xs := tree_run evs s in Ok (x :: xs)
  | TreeWrite paths pages :: evs => let (r, s) := write_paths paths pages s in let? _ := r in tree_run evs s
  | TreeReopen :: evs => let? s := embedded_from_state (et_inner s) (embedded_state s) in tree_run evs s
  | HostServes inner :: evs => tree_run evs (set_et_inner inner s)
  end.

(** The same on an array of logical pages. *)
Fixpoint tree_spec (evs : list (tree_event S)) (f : Z -> bytes) : list (list (list bytes)) :=
  match evs with
  | [] => []
  | TreeRead paths :: evs => ((fun path : list Z => f <$> path) <$> paths) :: tree_spec evs f
  | TreeWrite paths pages :: evs => tree_spec evs (paths_upd paths pages f)
  | _ :: evs => tree_spec evs f
  end.

Lemma tree_spec_ext evs f g size count : Forall (tree_event_ok size count) evs ->
  (forall i, in_range count i -> f i = g i) -> tree_spec evs f = tree_spec evs g.
Proof.
  intros He. revert f g. induction He as [|ev evs Hev _ IH]; intros f g Hfg; [done|].
  destruct ev as [paths|paths pages| |inner]; cbn [tree_spec tree_event_ok] in *; [f_equal; [|by apply IH]|apply IH|by apply IH|by apply IH].
  - apply list_fmap_ext. intros k path Hk. apply list_fmap_ext. intros k2 i Hi. apply Hfg.
    apply (Forall_lookup_1 _ _ _ _ Hev) in Hk. apply tree_path_range in Hk. by apply (Forall_lookup_1 _ _ _ _ Hk) in Hi.
  - intros i Hi. apply paths_upd_pointwise. by apply Hfg.
Qed.

Lemma tree_run_ok evs : forall s : ES, embedded_inv s -> Forall (tree_event_ok (et_logical_page_size s) (et_page_count s)) evs ->
  forallb honest evs = true -> tree_run evs s = Ok (tree_spec evs (embedded_content s)).
Proof.
  induction evs as [|ev evs IH]; intros s Hs He Hh; [done|]. apply Forall_cons in He as [Hev He].
  cbn [forallb] in Hh. apply andb_true_iff in Hh as [Hh1 Hh]. destruct ev as [paths|paths pages| |inner]; cbn [tree_run tree_spec tree_event_ok] in *.
  - destruct (read_paths_ok s paths Hs Hev) as (s' & -> & Hs' & Hsz & Hct & Hco). cbn [obind].
    rewrite IH by (try done; by rewrite Hsz, Hct). cbn [obind]. do 2 f_equal. by eapply tree_spec_ext.
  - destruct Hev as (Hp & Hl & Hlen). destruct (write_paths_ok s paths pages Hs Hp Hl Hlen) as (s' & -> & Hs' & Hsz & Hct & Hco). cbn [obind].
    rewrite IH by (try done; by rewrite Hsz, Hct). f_equal. by eapply tree_spec_ext.
  - destruct (embedded_reopen s _ Hs) as (s' & -> & Hs' & Hid & Hct & Hsz & Hin). cbn [obind].
    rewrite IH; [|unfold embedded_inv; by rewrite Hsz, Hin|by rewrite Hsz, Hct|done]. unfold embedded_content. by rewrite Hsz, Hin.
  - done.
Qed.

(** What a run against any host amounts to, given the tree trusted so far: each read
    returns that tree's pages, each write replaces them; an event may instead be
    refused, when other pages were served on its paths, and the tree stays; or a
    served page and the trusted one are two inputs with one hash. *)
Inductive guarded : list (tree_event S) -> ES -> (Z -> EmbeddedPage) -> Prop :=
| guarded_done s T : guarded [] s T
| guarded_read evs paths s T s' : read_paths paths s = (Ok (logical_paths_of T paths), s') -> guarded evs s' T ->
    guarded (TreeRead paths :: evs) s T
| guarded_read_refused evs paths s T s' : tampered s T paths -> read_paths paths s = (Err refusal, s') -> guarded evs s' T ->
    guarded (TreeRead paths :: evs) s T
| guarded_write evs paths pages s T s' T' : write_paths paths pages s = (Ok tt, s') ->
    (forall j, ep_logical (T' j) = paths_upd paths pages (ep_logical ∘ T) j) -> guarded evs s' T' ->
    guarded (TreeWrite paths pages :: evs) s T
| guarded_write_refused evs paths pages s T s' : tampered s T paths -> write_paths paths pages s = (Err refusal, s') ->
    guarded evs s' T -> guarded (TreeWrite paths pages :: evs) s T
| guarded_reopen evs s T s' : embedded_from_state (et_inner s) (embedded_state s) = Ok s' -> guarded evs s' T ->
    guarded (TreeReopen :: evs) s T
| guarded_host evs s T inner : guarded evs (set_et_inner inner s) T -> guarded (HostServes inner :: evs) s T
| guarded_collision evs paths pages ev s T : ev = TreeRead paths \/ ev = TreeWrite paths pages ->
    served_collision s T paths -> guarded (ev :: evs) s T.

Lemma trusts_guarded evs : forall (s : ES) T, trusts s T -> Forall (tree_event_ok (et_logical_page_size s) (et_page_count s)) evs ->
  guarded evs s T.
Proof.
  induction evs as [|ev evs IH]; intros s T Ht He; [constructor|]. apply Forall_cons in He as [Hev He].
  destruct ev as [paths|paths pages| |inner]; cbn [tree_event_ok] in *.
  - destruct (read_paths_cases s T paths Ht Hev) as (inner' & Hn & [(cache & E & Ht')|[(Htp & E)|Hc]]).
    + eapply guarded_read; [exact E|]. by apply IH.
    + eapply guarded_read_refused; [done|exact E|]. apply IH; [by eapply trusts_next|done].
    + apply (guarded_collision _ paths []); [by left|done].
  - destruct Hev as (Hp & Hl & Hlen).
    destruct (write_paths_cases s T paths pages Ht Hp Hl Hlen) as [(T' & s' & E & Ht' & _ & Hct & Hsz & Hlog & _)|[(Htp & s' & E & Ht' & _ & Hct & Hsz)|Hc]].
    + eapply guarded_write; [exact E|exact Hlog|]. apply IH; [done|by rewrite Hct, Hsz].
    + eapply guarded_write_refused; [done|exact E|]. apply IH; [done|by rewrite Hct, Hsz].
    + apply (guarded_collision _ paths pages); [by right|done].
  - destruct (embedded_reopen s T Ht) as (s' & E & Ht' & _ & Hct & Hsz & _). eapply guarded_reopen; [exact E|].
    apply IH; [done|by rewrite Hct, Hsz].
  - destruct Hev as (Hok & Hsz & Hct). apply guarded_host, IH; [|done].
    pose proof (tr_shape s T Ht) as Hs. apply trusts_inner; [done|done| |].
    + by rewrite Hsz, (es_size s Hs), (es_physical s Hs).
    + by rewrite Hct, (es_count s Hs).
Qed.

(** C16: built over any good page store, the embedded tree is an array of the logical
    parts of its pages: over every sequence of batched path reads, batched path
    writes and reopenings from the saved root, each read returns what the array
    holds, and nothing fails. *)
Theorem embedded_tree_is_array (inner : S) store_id size evs :
  ps_ok inner -> 0 < size -> ps_page_size inner = size + 64 ->
  Forall (tree_event_ok size (ps_page_count inner)) evs -> forallb honest evs = true ->
  exists s, embedded_build inner store_id size = Ok s /\
    tree_run evs s = Ok (tree_spec evs (fun i => take (Z.to_nat size) (ps_content inner i))).
Proof.
  intros Hok Hs Hsz He Hh. destruct (embedded_build_ok store_id size _ inner Hok Hs Hsz eq_refl) as (s & E & Hinv & _ & Hct & Hls & Hco).
  exists s. split; [done|]. rewrite tree_run_ok by (rewrite ?Hct, ?Hls; done). f_equal. eapply tree_spec_ext; [exact He|].
  intros i Hi. rewrite Hco by done. by apply (disk_page_logical size (ps_page_count inner)).
Qed.

(** C15: against a host that replaces the stored pages between any two operations,
    every read and every write of the tree is authentic or refused: reads return
    the pages last written, writes extend them, a refusal leaves the trusted tree
    as it was and happens only when other pages were served; else two different
    page inputs with one SHA-256 digest were served and trusted. *)
Theorem embedded_tree_detects_tampering (inner : S) store_id size evs :
  ps_ok inner -> 0 < size -> ps_page_size inner = size + 64 ->
  Forall (tree_event_ok size (ps_page_count inner)) evs ->
  exists s T, embedded_build inner store_id size = Ok s /\
    (forall i, in_range (ps_page_count inner) i -> ep_logical (T i) = take (Z.to_nat size) (ps_content inner i)) /\
    guarded evs s T.
Proof.
  intros Hok Hs Hsz He. destruct (embedded_build_ok store_id size _ inner Hok Hs Hsz eq_refl) as (s & E & Hinv & _ & Hct & Hls & Hco).
  exists s, (disk_page (et_logical_page_size s) (et_inner s)). split_and!; [done| |].
  - intros i Hi. etransitivity; [exact (Hco i Hi)|]. by apply (disk_page_logical size (ps_page_count inner)).
  - apply trusts_guarded; [exact Hinv|by rewrite Hct, Hls].
Qed.

End Events.

(** Three pages of one logical byte: the root and its two children; the host rolls
    page 1 back after it was overwritten. *)
Definition tree_demo : MemPageStore := mkMem 65 (10 :: zeros 64 ++ 11 :: zeros 64 ++ 12 :: zeros 64).

Lemma tree_demo_ok : ps_ok tree_demo.
Proof. split_and!; try done. unfold bytes_ok, is_u8. eapply bool_decide_unpack. vm_compute. exact I. Qed.

Definition tree_demo_events : list (tree_event MemPageStore) :=
  [TreeRead [[0; 1]; [0; 2]]; TreeWrite [[0; 1]] [[[20]; [21]]]; TreeReopen; TreeRead [[0; 2]; [0; 1]]].

Lemma tree_demo_events_ok : Forall (tree_event_ok 1 3) tree_demo_events.
Proof.
  assert (tree_path 3 [0; 1] /\ tree_path 3 [0; 2]) as [H1 H2].
  { split; [exists [1]|exists [2]]; (split; [done|split; [lia|]]); cbn; unfold left_child, right_child; lia. }
  assert (forall b, is_u8 b -> page_ok 1 [b]) as Hb by (intros b Hb; split; [done|by apply Forall_singleton]).
  unfold tree_demo_events, tree_event_ok. repeat (constructor; try done); apply Hb; words.
Qed.

Lemma embedded_tree_is_array_witness :
  tree_spec tree_demo_events (fun i => take 1 (ps_content tree_demo i)) = [[[[10]; [11]]; [[10]; [12]]]; [[[20]; [12]]; [[20]; [21]]]] /\
  exists s, embedded_build tree_demo (zeros 16) 1 = Ok s /\
    tree_run tree_demo_events s = Ok (tree_spec tree_demo_events (fun i => take 1 (ps_content tree_demo i))).
Proof.
  split; [vm_compute; reflexivity|].
  apply (embedded_tree_is_array tree_demo (zeros 16) 1 tree_demo_events tree_demo_ok ltac:(lia) eq_refl tree_demo_events_ok eq_refl).
Defined.

Lemma embedded_tree_detects_tampering_witness :
  exists s T, embedded_build tree_demo (zeros 16) 1 = Ok s /\
    (forall i, in_range 3 i -> ep_logical (T i) = take 1 (ps_content tree_demo i)) /\
    guarded [TreeWrite [[0; 1]] [[[20]; [21]]]; HostServes tree_demo; TreeRead [[0; 1]]] s T.
Proof.
  apply (embedded_tree_detects_tampering tree_demo (zeros 16) 1 [TreeWrite [[0; 1]] [[[20]; [21]]]; HostServes tree_demo; TreeRead [[0; 1]]]
    tree_demo_ok ltac:(lia) eq_refl).
  pose proof tree_demo_events_ok as Hok. unfold tree_demo_events in Hok. apply Forall_cons in Hok as [_ Hok]. apply Forall_cons in Hok as [Hw _].
  destruct Hw as (Hp & Hpg & Hl). constructor; [by split_and!|]. constructor; [split; [exact tree_demo_ok|done]|]. constructor; [done|constructor].
Defined.

(** A batch whose second entry is malformed is rejected after the first has moved the
    root hash and before any page is written: the next read is refused. *)
Example write_paths_rejected_moves_root :
  match embedded_build tree_demo (zeros 16) 1 with
  | Ok s =>
      let (r, s') := write_paths [[0; 1]; [0; 2]] [[[20]; [21]]; [[22]]] s in
      r = Err (InvalidInput "path length {} != logical page count {}") /\
      (read_paths [[0; 1]] s').1 = Err (InvalidInput "embedded tree authentication failed for page {}")
  | _ => False
  end.
Proof. vm_compute. split; reflexivity. Qed.
