(* ===== verification/CandidateBins.v ===== *)
(** * Candidate bins of a script hash ([src/src/direct.rs], hashing helpers)

    The bins a script hash may live in are drawn from a stream of keyed hashes until
    enough distinct ones are found.  Every step of the hash is a bijection of the
    64-bit words, so the stream reaches every bin: the loop ends exactly when the
    table has at least as many bins as candidates are asked for. *)

From S2P Require Import Prelude Ct.

Definition DIRECT_SCRIPT_HASH_SIZE : Z := 20.
Definition CUCKOO_KEY_MIX : Z := 0x517cc1b727220a95.

(** [splitmix64] *)
Definition splitmix64 (x : Z) : Z :=
  let x := Z.lxor x (Z.shiftr x 30) in
  let x := wrap 64 (x * 0xbf58476d1ce4e5b9) in
  let x := Z.lxor x (Z.shiftr x 27) in
  let x := wrap 64 (x * 0x94d049bb133111eb) in
  Z.lxor x (Z.shiftr x 31).

(** [sh_a], [sh_b], [sh_c] *)
Definition sh_a (script_hash : bytes) : outcome Z := let? b := slice script_hash 0 8 in Ok (from_le b).
Definition sh_b (script_hash : bytes) : outcome Z := let? b := slice script_hash 8 8 in Ok (from_le b).
Definition sh_c (script_hash : bytes) : outcome Z := let? b := slice script_hash 16 4 in Ok (from_le b).

(** [derive_direct_cuckoo_key] *)
Definition derive_direct_cuckoo_key (seed hash_fn : Z) : Z :=
  splitmix64 (wrap 64 (seed + wrap 64 (hash_fn * CUCKOO_KEY_MIX))).

(** [direct_cuckoo_hash]; the remainder by 0 panics. *)
Definition direct_cuckoo_hash (script_hash : bytes) (key bins : Z) : outcome Z :=
  let? a := sh_a script_hash in
  let h := Z.lxor a key in
  let? b := sh_b script_hash in
  let h := Z.lxor h b in
  let? c := sh_c script_hash in
  let h := splitmix64 (Z.lxor h c) in
  if bins =? 0 then Panic else Ok (h mod bins).

(** [p] turns of a loop, stopped by the first turn that leaves it. *)
Fixpoint loop_pos {A B} (p : positive) (turn : A -> A + B) (a : A) : A + B :=
  match p with
  | xH => turn a
  | xO p => match loop_pos p turn a with inl a => loop_pos p turn a | inr b => inr b end
  | xI p =>
      match turn a with
      | inl a => match loop_pos p turn a with inl a => loop_pos p turn a | inr b => inr b end
      | inr b => inr b
      end
  end.

(** One turn of the [while] loop of [direct_index_candidate_bins] on [(out, nonce)]. *)
Definition candidate_turn (script_hash : bytes) (seed hash_fns bins : Z) (st : list Z * Z)
    : (list Z * Z) + outcome (list Z) :=
  let (out, nonce) := st in
  if lenZ out <? hash_fns then
    let key := derive_direct_cuckoo_key seed nonce in
    match direct_cuckoo_hash script_hash key bins with
    | Ok bin =>
        let out := if bool_decide (bin ∈ out) then out else out ++ [bin] in
        inl (out, wrap 64 (nonce + 1))
    | Err e => inr (Err e)
    | Panic => inr Panic
    | Diverges => inr Diverges
    end
  else inr (Ok out).

(** The turns after which the nonce has taken every value and the set of bins can
    grow no more. *)
Definition CANDIDATE_TURNS : positive := 0x10000000000000001.

(** [direct_index_candidate_bins] *)
Definition direct_index_candidate_bins (script_hash : bytes) (seed hash_fns bins : Z) : outcome (list Z) :=
  if negb (lenZ script_hash =? DIRECT_SCRIPT_HASH_SIZE) then Err (InvalidInput "script_hash len {} != {}")
  else if hash_fns =? 0 then Err (InvalidInput "hash_fns must be > 0")
  else if bins =? 0 then Err (InvalidInput "bins must be > 0")
  else match loop_pos CANDIDATE_TURNS (candidate_turn script_hash seed hash_fns bins) ([], 0) with
       | inr r => r
       | inl _ => Diverges
       end.

(** ** Loops *)

Section Loops.
Context {A B : Type} (turn : A -> A + B).

Fixpoint turns (n : nat) (a : A) : A + B :=
  match n with
  | O => inl a
  | S n => match turns n a with inl a => turn a | inr b => inr b end
  end.

Lemma turns_add n m a : turns (n + m) a = match turns m a with inl a => turns n a | inr b => inr b end.
Proof. induction n as [|n IH]; cbn; [by destruct (turns m a)|]. rewrite IH. by destruct (turns m a). Qed.

Lemma loop_pos_turns p a : loop_pos p turn a = turns (Pos.to_nat p) a.
Proof.
  revert a. induction p as [p IH|p IH|]; intros a; cbn [loop_pos].
  - rewrite Pos2Nat.inj_xI. replace (S (2 * Pos.to_nat p)) with ((Pos.to_nat p + Pos.to_nat p) + 1)%nat by lia.
    rewrite turns_add. cbn [turns]. destruct (turn a); [|done]. by rewrite turns_add, <-IH; destruct (loop_pos p turn _).
  - rewrite Pos2Nat.inj_xO. replace (2 * Pos.to_nat p)%nat with (Pos.to_nat p + Pos.to_nat p)%nat by lia.
    rewrite turns_add, <-IH. by destruct (loop_pos p turn a).
  - done.
Qed.

End Loops.

(** ** Bijections of the 64-bit words *)

Section Words64.

Definition word (x : Z) : Prop := 0 <= x < 2 ^ 64.
Definition onto (f : Z -> Z) : Prop := forall y, word y -> exists x, word x /\ f x = y.

Lemma lxor_word a b : word a -> word b -> word (Z.lxor a b).
Proof. exact (is_u64_lxor a b). Qed.

Lemma shiftr_word a k : 0 <= k -> word a -> word (Z.shiftr a k).
Proof.
  intros Hk [Ha Ha']. split; [by apply Z.shiftr_nonneg|]. rewrite Z.shiftr_div_pow2 by done.
  apply Z.div_lt_upper_bound; [by apply Z.pow_pos_nonneg|]. pose proof (Z.pow_pos_nonneg 2 k). nia.
Qed.

Lemma wrap_word x : word (wrap 64 x).
Proof. apply Z.mod_pos_bound. lia. Qed.

Lemma xorshift_onto k : 22 <= k -> onto (fun x => Z.lxor x (Z.shiftr x k)).
Proof.
  intros Hk y Hy. exists (Z.lxor (Z.lxor y (Z.shiftr y k)) (Z.shiftr y (k + k))). split.
  - apply lxor_word; [apply lxor_word; [done|]|]; apply shiftr_word; (lia || done).
  - rewrite !Z.shiftr_lxor, !Z.shiftr_shiftr by lia.
    assert (Z.shiftr y (k + k + k) = 0) as Hz.
    { destruct Hy as [Hy Hy']. rewrite Z.shiftr_div_pow2 by lia. apply Z.div_small. split; [done|].
      eapply Z.lt_le_trans; [exact Hy'|]. apply Z.pow_le_mono_r; lia. }
    apply Z.bits_inj'. intros n Hn. rewrite !Z.lxor_spec, Hz, Z.bits_0.
    by destruct (Z.testbit y n), (Z.testbit (Z.shiftr y k) n), (Z.testbit (Z.shiftr y (k + k)) n).
Qed.

Lemma mul_onto c d : (d * c) mod 2 ^ 64 = 1 -> onto (fun x => wrap 64 (x * c)).
Proof.
  intros Hc y Hy. exists (wrap 64 (y * d)). split; [apply wrap_word|]. unfold wrap.
  rewrite Z.mul_mod_idemp_l by done. rewrite <-Z.mul_assoc, <-Z.mul_mod_idemp_r, Hc, Z.mul_1_r by done. by apply Z.mod_small.
Qed.

Lemma add_onto c : onto (fun x => wrap 64 (c + x)).
Proof.
  intros y Hy. exists (wrap 64 (y - c)). split; [apply wrap_word|]. unfold wrap. rewrite Z.add_mod_idemp_r by done.
  rewrite (Z.mod_small (c + (y - c))); [lia|]. unfold word in Hy. lia.
Qed.

Lemma lxor_onto c : word c -> onto (fun x => Z.lxor x c).
Proof.
  intros Hc y Hy. exists (Z.lxor y c). split; [by apply lxor_word|]. by rewrite Z.lxor_assoc, Z.lxor_nilpotent, Z.lxor_0_r.
Qed.

Lemma onto_compose f g : onto f -> onto g -> onto (fun x => g (f x)).
Proof. intros Hf Hg z Hz. destruct (Hg z Hz) as (y & Hy & <-). destruct (Hf y Hy) as (x & Hx & <-). eauto. Qed.

Lemma splitmix64_onto : onto splitmix64.
Proof.
  unfold splitmix64. apply (onto_compose (fun x => Z.lxor x (Z.shiftr x 30)) (fun x =>
    let x := wrap 64 (x * 0xbf58476d1ce4e5b9) in let x := Z.lxor x (Z.shiftr x 27) in
    let x := wrap 64 (x * 0x94d049bb133111eb) in Z.lxor x (Z.shiftr x 31))); [by apply xorshift_onto|].
  apply (onto_compose (fun x => wrap 64 (x * 0xbf58476d1ce4e5b9)) (fun x => let x := Z.lxor x (Z.shiftr x 27) in
    let x := wrap 64 (x * 0x94d049bb133111eb) in Z.lxor x (Z.shiftr x 31))).
  { apply (mul_onto _ 10871156337175269513). vm_compute. reflexivity. }
  apply (onto_compose (fun x => Z.lxor x (Z.shiftr x 27)) (fun x =>
    let x := wrap 64 (x * 0x94d049bb133111eb) in Z.lxor x (Z.shiftr x 31))); [by apply xorshift_onto|].
  apply (onto_compose (fun x => wrap 64 (x * 0x94d049bb133111eb)) (fun x => Z.lxor x (Z.shiftr x 31))); [|by apply xorshift_onto].
  apply (mul_onto _ 3573116690164977347). vm_compute. reflexivity.
Qed.

Lemma splitmix64_word x : word (splitmix64 x).
Proof. unfold splitmix64. apply lxor_word; [|apply shiftr_word; [done|]]; apply wrap_word. Qed.

Lemma key_onto seed : onto (derive_direct_cuckoo_key seed).
Proof.
  unfold derive_direct_cuckoo_key. apply (onto_compose (fun x => wrap 64 (x * CUCKOO_KEY_MIX)) (fun x => splitmix64 (wrap 64 (seed + x)))).
  { apply (mul_onto _ 2323857671730065597). vm_compute. reflexivity. }
  apply (onto_compose (fun x => wrap 64 (seed + x)) splitmix64); [apply add_onto|apply splitmix64_onto].
Qed.

End Words64.

(** ** The loop *)

Definition bins_ok (hash_fns bins : Z) (out : list Z) : Prop :=
  NoDup out /\ Forall (fun b => 0 <= b < bins) out /\ lenZ out = hash_fns.

Lemma distinct_le bins out : 0 <= bins -> NoDup out -> Forall (fun b => 0 <= b < bins) out -> lenZ out <= bins.
Proof.
  intros Hb Hnd Hr. assert (length out <= length (seqZ 0 bins))%nat as Hle.
  { apply submseteq_length, NoDup_submseteq; [done|]. intros b Hin. rewrite Forall_forall in Hr. apply elem_of_seqZ. specialize (Hr b Hin). lia. }
  rewrite length_seqZ in Hle. unfold lenZ. lia.
Qed.

Section Loop.
Context (sh : bytes) (seed hash_fns bins : Z).
Context (Hlen : lenZ sh = DIRECT_SCRIPT_HASH_SIZE) (Hbytes : bytes_ok sh) (Hbins : 0 < bins <= 2 ^ 64) (Hfns : 0 < hash_fns).
Local Abbreviation turn := (candidate_turn sh seed hash_fns bins).
Local Abbreviation in_bins out := (Forall (fun b => 0 <= b < bins) out).

Lemma from_le_word b : bytes_ok b -> lenZ b <= 8 -> word (from_le b).
Proof.
  intros Hb Hl. unfold word. pose proof (from_le_bound b Hb) as [Hlo Hhi]. split; [done|]. eapply Z.lt_le_trans; [exact Hhi|].
  change 256 with (2 ^ 8). rewrite <-Z.pow_mul_r by (try apply lenZ_nonneg; lia). apply Z.pow_le_mono_r; lia.
Qed.

(** The bin of each nonce. *)
Lemma hash_stream : exists g : Z -> Z,
  (forall n, direct_cuckoo_hash sh (derive_direct_cuckoo_key seed n) bins = Ok (g n)) /\
  (forall n, 0 <= g n < bins) /\ (forall b, 0 <= b < bins -> exists n, word n /\ g n = b).
Proof.
  unfold DIRECT_SCRIPT_HASH_SIZE in Hlen.
  destruct (slice_split sh 0 8) as (x & a & r & E & Hx & Ha & Ea); [lia..|].
  destruct (slice_split sh 8 8) as (x1 & b & r1 & E1 & _ & Hb & Eb); [lia..|].
  destruct (slice_split sh 16 4) as (x2 & c & r2 & E2 & _ & Hc & Ec); [lia..|].
  assert (word (from_le a) /\ word (from_le b) /\ word (from_le c)) as (Wa & Wb & Wc).
  { split_and!; apply from_le_word; try lia; [rewrite E in Hbytes|rewrite E1 in Hbytes|rewrite E2 in Hbytes];
      unfold bytes_ok in Hbytes; rewrite !Forall_app in Hbytes; apply Hbytes. }
  exists (fun n => splitmix64 (Z.lxor (Z.lxor (Z.lxor (derive_direct_cuckoo_key seed n) (from_le a)) (from_le b)) (from_le c)) mod bins).
  split_and!.
  - intros n. unfold direct_cuckoo_hash, sh_a, sh_b, sh_c. rewrite Ea, Eb, Ec. cbn [obind].
    rewrite (proj2 (Z.eqb_neq bins 0)) by lia. by rewrite (Z.lxor_comm (from_le a)).
  - intros n. apply Z.mod_pos_bound. lia.
  - assert (onto (fun n => splitmix64 (Z.lxor (Z.lxor (Z.lxor (derive_direct_cuckoo_key seed n) (from_le a)) (from_le b)) (from_le c)))) as Honto.
    { apply (onto_compose (derive_direct_cuckoo_key seed) (fun k => splitmix64 (Z.lxor (Z.lxor (Z.lxor k (from_le a)) (from_le b)) (from_le c))));
        [apply key_onto|].
      apply (onto_compose (fun k => Z.lxor k (from_le a)) (fun k => splitmix64 (Z.lxor (Z.lxor k (from_le b)) (from_le c)))); [by apply lxor_onto|].
      apply (onto_compose (fun k => Z.lxor k (from_le b)) (fun k => splitmix64 (Z.lxor k (from_le c)))); [by apply lxor_onto|].
      apply (onto_compose (fun k => Z.lxor k (from_le c)) splitmix64); [by apply lxor_onto|apply splitmix64_onto]. }
    intros v Hv. destruct (Honto v) as (n & Hn & E'); [unfold word; lia|]. exists n. split; [done|]. rewrite E'. by apply Z.mod_small.
Qed.

(** After [n] turns the list holds every bin of the first [n] nonces, or the loop has
    ended with as many distinct bins as asked. *)
Lemma turns_cases g (n : nat) :
  (forall n, direct_cuckoo_hash sh (derive_direct_cuckoo_key seed n) bins = Ok (g n)) -> (forall n, 0 <= g n < bins) ->
  Z.of_nat n <= 2 ^ 64 ->
  match turns turn n ([], 0) with
  | inl (out, nonce) => nonce = wrap 64 (Z.of_nat n) /\ NoDup out /\ in_bins out /\ lenZ out <= hash_fns /\
      forall k, 0 <= k < Z.of_nat n -> g k ∈ out
  | inr r => exists out, r = Ok out /\ bins_ok hash_fns bins out
  end.
Proof.
  intros Hg Hr. induction n as [|n IH]; intros Hn; cbn [turns].
  { split_and!; [done|constructor|constructor|change (lenZ []) with 0; lia|lia]. }
  specialize (IH ltac:(lia)). destruct (turns turn n ([], 0)) as [[out nonce]|r]; [|done].
  destruct IH as (-> & Hnd & Hin & Hle & Hall). unfold candidate_turn. destruct (lenZ out <? hash_fns) eqn:Elt; zbool.
  - rewrite wrap_small by lia. rewrite Hg. split_and!.
    + f_equal. lia.
    + case_bool_decide as Hm; [done|]. apply NoDup_app. split_and!; [done|set_solver|apply NoDup_singleton].
    + case_bool_decide; [done|]. apply Forall_app. split; [done|]. by apply Forall_singleton.
    + case_bool_decide; [lia|]. rewrite lenZ_app, lenZ_cons. change (lenZ []) with 0. lia.
    + intros k Hk. destruct (decide (k = Z.of_nat n)) as [->|].
      * case_bool_decide; set_solver.
      * specialize (Hall k ltac:(lia)). case_bool_decide; set_solver.
  - exists out. split; [done|]. split_and!; [done|done|lia].
Qed.

Lemma candidate_loop_ends p : hash_fns <= bins -> Z.pos p = 2 ^ 64 ->
  exists out, loop_pos (Pos.succ p) turn ([], 0) = inr (Ok out) /\ bins_ok hash_fns bins out.
Proof.
  intros Hle Hp. destruct hash_stream as (g & Hg & Hr & Hon). rewrite loop_pos_turns, Pos2Nat.inj_succ. cbn [turns].
  pose proof (turns_cases g (Pos.to_nat p) Hg Hr) as Hc. rewrite positive_nat_Z, Hp in Hc. specialize (Hc ltac:(done)).
  destruct (turns turn _ ([], 0)) as [[out nonce]|r].
  - destruct Hc as (-> & Hnd & Hin & Hlo & Hall). assert (bins <= lenZ out) as Hge.
    { assert (length (seqZ 0 bins) <= length out)%nat as Hl.
      { apply submseteq_length, NoDup_submseteq; [apply NoDup_seqZ|]. intros b Hb%elem_of_seqZ.
        destruct (Hon b) as (k & Hk & <-); [lia|]. by apply Hall. }
      rewrite length_seqZ in Hl. unfold lenZ. lia. }
    unfold candidate_turn. rewrite (proj2 (Z.ltb_ge _ _)) by lia. exists out. split; [done|]. split_and!; [done|done|lia].
  - destruct Hc as (out & -> & Ho). by exists out.
Qed.

(** With fewer bins than candidates no number of turns ends the loop. *)
Lemma candidate_loop_never_ends : bins < hash_fns -> forall n, exists st, turns turn n ([], 0) = inl st.
Proof.
  intros Hlt. destruct hash_stream as (g & Hg & Hr & _).
  cut (forall n, exists out nonce, turns turn n ([], 0) = inl (out, nonce) /\ NoDup out /\ in_bins out).
  { intros Hc n. destruct (Hc n) as (out & nonce & E & _). eauto. }
  induction n as [|n (out & nonce & E & Hnd & Hin)]; cbn [turns]; [eexists _, _; split_and!; [done|constructor|constructor]|].
  rewrite E. unfold candidate_turn. pose proof (distinct_le bins out ltac:(lia) Hnd Hin) as Hle.
  rewrite (proj2 (Z.ltb_lt _ _)) by lia. rewrite Hg. eexists _, _. split; [reflexivity|].
  case_bool_decide as Hm; [done|]. split; [|apply Forall_app; split; [done|by apply Forall_singleton]].
  apply NoDup_app. split_and!; [done|set_solver|apply NoDup_singleton].
Qed.

End Loop.

Lemma candidate_bins_total sh seed hash_fns bins :
  lenZ sh = DIRECT_SCRIPT_HASH_SIZE -> bytes_ok sh -> 0 < hash_fns <= bins -> bins <= 2 ^ 64 ->
  exists out, direct_index_candidate_bins sh seed hash_fns bins = Ok out /\ bins_ok hash_fns bins out.
Proof.
  intros Hl Hb Hf Hbins. destruct (candidate_loop_ends sh seed hash_fns bins Hl Hb ltac:(lia) ltac:(lia) 0x10000000000000000 ltac:(lia) eq_refl) as (out & E & Hok).
  exists out. split; [|done]. unfold direct_index_candidate_bins.
  rewrite Hl, Z.eqb_refl, (proj2 (Z.eqb_neq hash_fns 0)), (proj2 (Z.eqb_neq bins 0)) by lia. cbn [negb].
  assert (CANDIDATE_TURNS = Pos.succ 0x10000000000000000) as -> by reflexivity. by rewrite E.
Qed.

(** ** Properties *)

(** C35: for every 20-byte script hash, seed, number of hash functions and 64-bit
    number of bins, the search for candidate bins ends exactly when there are enough
    bins; it then returns as many distinct bins as asked, all inside the table, and
    otherwise runs forever. *)
Theorem candidate_bins_terminate sh seed hash_fns bins :
  lenZ sh = DIRECT_SCRIPT_HASH_SIZE -> bytes_ok sh -> 0 < hash_fns -> 0 < bins <= 2 ^ 64 ->
  (hash_fns <= bins -> exists out, direct_index_candidate_bins sh seed hash_fns bins = Ok out /\ bins_ok hash_fns bins out) /\
  (bins < hash_fns -> direct_index_candidate_bins sh seed hash_fns bins = Diverges /\
     forall n, exists st, turns (candidate_turn sh seed hash_fns bins) n ([], 0) = inl st).
Proof.
  intros Hl Hb Hf Hbins. split; [intros Hle; by apply candidate_bins_total; [| |lia|lia]|]. intros Hlt.
  pose proof (candidate_loop_never_ends sh seed hash_fns bins Hl Hb Hbins Hf Hlt) as Hnever. split; [|done].
  unfold direct_index_candidate_bins. rewrite Hl, Z.eqb_refl, (proj2 (Z.eqb_neq hash_fns 0)), (proj2 (Z.eqb_neq bins 0)) by lia.
  cbn [negb]. rewrite loop_pos_turns. generalize (Pos.to_nat CANDIDATE_TURNS). intros n. by destruct (Hnever n) as (st & ->).
Qed.

(** Two candidates in a table of five bins; and in a table of one. *)
Lemma candidate_bins_terminate_witness :
  direct_index_candidate_bins (zeros 20) 7 2 5 = Ok [1; 0] /\ direct_index_candidate_bins (zeros 20) 7 2 1 = Diverges.
Proof.
  assert (bytes_ok (zeros 20)) as Hz by apply zeros_ok. split; [vm_compute; reflexivity|].
  apply (candidate_bins_terminate (zeros 20) 7 2 1 eq_refl Hz ltac:(lia) ltac:(lia)). lia.
Defined.
