(* ===== verification/Float64.v ===== *)
(** * IEEE-754 doubles

    The direct-table layout computes one table dimension with [f64] arithmetic.  The
    Standard Library's [SpecFloat] is the format; rounding to the nearest even value
    is its [binary_round]. *)

From S2P Require Import Prelude.
From Stdlib Require Export SpecFloat.

Abbreviation f64 := spec_float.

(** [n as f64], [a * b], [a / b], [a + b], [a < b] *)
Definition f64_of_Z (n : Z) : f64 := binary_normalize 53 1024 n 0 false.
Definition f64_mul : f64 -> f64 -> f64 := SFmul 53 1024.
Definition f64_div : f64 -> f64 -> f64 := SFdiv 53 1024.
Definition f64_add : f64 -> f64 -> f64 := SFadd 53 1024.
Definition f64_lt : f64 -> f64 -> bool := SFltb.

(** The integers [num / 2 ^ den] is compared with. *)
Definition signed (s : bool) (m : positive) : Z := if s then Z.neg m else Z.pos m.
Definition ceil_div (num den : Z) : Z := - ((- num) / den).
Definition round_div (num den : Z) : Z := Z.sgn num * ((2 * Z.abs num + den) / (2 * den)).

(** A float-to-integer cast saturates, and sends NaN to 0. *)
Definition saturate (hi z : Z) : Z := Z.max 0 (Z.min hi z).
Definition f64_cast (to_int : Z -> Z -> Z) (hi : Z) (x : f64) : Z :=
  match x with
  | S754_finite s m e =>
      saturate hi (if 0 <=? e then signed s m * 2 ^ e else to_int (signed s m) (2 ^ (- e)))
  | S754_infinity false => hi
  | _ => 0
  end.

(** [x.ceil() as usize] and [x.round() as u32] *)
Definition f64_ceil_usize (x : f64) : Z := f64_cast ceil_div u64_max x.
Definition f64_round_u32 (x : f64) : Z := f64_cast round_div u32_max x.

(** 0.0, 1.0, 100.0, 1e9 *)
Definition f64_0 : f64 := S754_zero false.
Definition f64_1 : f64 := f64_of_Z 1.

Lemma f64_ceil_usize_range x : 0 <= f64_ceil_usize x <= u64_max.
Proof. unfold f64_ceil_usize, f64_cast, saturate, u64_max. destruct x as [|[]| |]; lia. Qed.
Lemma f64_round_u32_range x : 0 <= f64_round_u32 x <= u32_max.
Proof. unfold f64_round_u32, f64_cast, saturate, u32_max. destruct x as [|[]| |]; lia. Qed.
