(* ===== verification/Direct.v ===== *)
(** * Direct tables ([src/src/direct.rs])

    The layout of the direct INDEX dictionary and CHUNK array: table information
    read from the source files, the metadata kept beside an image, the place of an
    item in a packed block, and the chunk source.  [memmap2] is third-party: mapping
    a file yields its bytes. *)

From S2P Require Import Prelude Float64 Params Store Circuit Build Aead SealedState CandidateBins.

Definition DIRECT_INDEX_INPUT_RECORD_SIZE : Z := DIRECT_SCRIPT_HASH_SIZE + 4 + 1.
Definition DIRECT_INDEX_SLOT_SIZE : Z := 1 + DIRECT_INDEX_INPUT_RECORD_SIZE.
Definition DIRECT_CHUNK_RECORD_SIZE : Z := 40.
Definition DIRECT_INDEX_DEFAULT_SLOTS_PER_BIN : Z := 4.
Definition DIRECT_INDEX_DEFAULT_HASH_FNS : Z := 2.
Definition DIRECT_INDEX_DEFAULT_LOAD_FACTOR : f64 := S754_finite false 8556839292003942 (-53).
Definition DIRECT_INDEX_DEFAULT_SEED : Z := 0x6f72616d64697231.
Definition DIRECT_METADATA_VERSION : Z := 1.
Definition EMPTY_SLOT : Z := u32_max.
Definition GOLDEN_RATIO : Z := 0x9e3779b97f4a7c15.
Definition DIRECT_CUCKOO_MAX_KICKS : Z := 10000.

Inductive DirectLevel : Type := DirectIndex | DirectChunk.
#[global] Instance DirectLevel_eq_dec : EqDecision DirectLevel.
Proof. solve_decision. Defined.

(** Mirror of [struct DirectTableInfo]. *)
Record DirectTableInfo : Type := mkDirectInfo {
  dti_level : DirectLevel;
  dti_path : FilePath;
  dti_file_bytes : Z;
  dti_records : Z;
  dti_slots_per_bin : Z;
  dti_hash_fns : Z;
  dti_load_factor : f64;
  dti_seed : Z;
  dti_total_items : Z;
  dti_item_size : Z
}.

(** Mirror of [struct DirectTableMetadata]. *)
Record DirectTableMetadata : Type := mkDirectMeta {
  dm_version : Z;
  dm_level : DirectLevel;
  dm_source_path : FilePath;
  dm_source_file_bytes : Z;
  dm_source_records : Z;
  dm_total_items : Z;
  dm_item_size : Z;
  dm_items_per_block : Z;
  dm_slots_per_bin : Z;
  dm_hash_fns : Z;
  dm_load_factor_ppb : Z;
  dm_seed : Z;
  dm_logical_blocks : Z;
  dm_block_payload_bytes : Z
}.

(** [compute_direct_index_bins] *)
Definition compute_direct_index_bins (records slots_per_bin : Z) (load_factor : f64) : outcome Z :=
  if records =? 0 then Ok 0
  else
    let bins := f64_ceil_usize (f64_div (f64_of_Z records) (f64_mul (f64_of_Z slots_per_bin) load_factor)) in
    Ok (Z.max bins 1).

Section Files.
Context {O : Type}.

(** [fs::metadata(path)?.len()] *)
Definition fs_len (path : FilePath) : M (Host O) Z :=
  let* fault := next_fault in
  let* f := gets files in
  match fault, f !! render path with None, Some b => ret (lenZ b) | _, _ => fail IoError end.

(** [DirectTableInfo::from_index_file] *)
Definition from_index_file (path : FilePath) (slots_per_bin hash_fns : Z) (load_factor : f64) (seed : Z) : M (Host O) DirectTableInfo :=
  let* _ := guardm (negb (slots_per_bin =? 0)) (InvalidInput "slots_per_bin must be > 0") in
  let* _ := guardm (negb (hash_fns =? 0)) (InvalidInput "hash_fns must be > 0") in
  let* _ := guardm (f64_lt f64_0 load_factor && f64_lt load_factor f64_1)
              (InvalidInput "load_factor must be greater than 0 and less than 1") in
  let* file_bytes := fs_len path in
  let* _ := guardm (file_bytes mod DIRECT_INDEX_INPUT_RECORD_SIZE =? 0)
              (InvalidInput "direct index file {} has {} bytes, not a multiple of {}") in
  let records := file_bytes / DIRECT_INDEX_INPUT_RECORD_SIZE in
  let* total_items := lift (compute_direct_index_bins records slots_per_bin load_factor) in
  ret (mkDirectInfo DirectIndex path file_bytes records slots_per_bin hash_fns load_factor seed total_items
         (mul64 slots_per_bin DIRECT_INDEX_SLOT_SIZE)).

(** [DirectTableInfo::from_chunks_file] *)
Definition from_chunks_file (path : FilePath) : M (Host O) DirectTableInfo :=
  let* file_bytes := fs_len path in
  let* _ := guardm (file_bytes mod DIRECT_CHUNK_RECORD_SIZE =? 0)
              (InvalidInput "direct chunks file {} has {} bytes, not a multiple of {}") in
  let records := file_bytes / DIRECT_CHUNK_RECORD_SIZE in
  ret (mkDirectInfo DirectChunk path file_bytes records 1 0 f64_1 0 records DIRECT_CHUNK_RECORD_SIZE).

End Files.

(** ** Metadata *)

(** [DirectTableMetadata::from_info] *)
Definition from_info (info : DirectTableInfo) (items_per_block : Z) : outcome DirectTableMetadata :=
  if items_per_block =? 0 then Err (InvalidInput "items_per_block must be > 0")
  else
    let logical_blocks := div_ceil (dti_total_items info) items_per_block in
    let block_payload_bytes := mul64 (dti_item_size info) items_per_block in
    Ok (mkDirectMeta DIRECT_METADATA_VERSION (dti_level info) (dti_path info) (dti_file_bytes info) (dti_records info)
          (dti_total_items info) (dti_item_size info) items_per_block (dti_slots_per_bin info) (dti_hash_fns info)
          (f64_round_u32 (f64_mul (dti_load_factor info) (f64_of_Z 1000000000))) (dti_seed info)
          logical_blocks block_payload_bytes).

(** [DirectTableMetadata::validate] *)
Definition direct_validate (m : DirectTableMetadata) : outcome unit :=
  let? _ := guardo (dm_version m =? DIRECT_METADATA_VERSION) (InvalidInput "unsupported direct metadata version {}") in
  let? _ := guardo (negb (dm_items_per_block m =? 0)) (InvalidInput "direct metadata has items_per_block=0") in
  let? _ := guardo (negb (dm_item_size m =? 0)) (InvalidInput "direct metadata has item_size=0") in
  let? _ := guardo (dm_logical_blocks m =? div_ceil (dm_total_items m) (dm_items_per_block m))
              (InvalidInput "direct metadata logical_blocks does not match total_items/items_per_block") in
  let? _ := guardo (dm_block_payload_bytes m =? mul64 (dm_item_size m) (dm_items_per_block m))
              (InvalidInput "direct metadata block_payload_bytes does not match item_size/items_per_block") in
  match dm_level m with
  | DirectIndex =>
      let? _ := guardo (dm_item_size m =? mul64 (dm_slots_per_bin m) DIRECT_INDEX_SLOT_SIZE)
                  (InvalidInput "direct index metadata item_size does not match slots_per_bin") in
      guardo (negb ((dm_slots_per_bin m =? 0) || (dm_hash_fns m =? 0)))
        (InvalidInput "direct index metadata requires slots_per_bin and hash_fns")
  | DirectChunk =>
      guardo (dm_item_size m =? DIRECT_CHUNK_RECORD_SIZE)
        (InvalidInput "direct chunk metadata item_size does not match chunk size")
  end.

Section MetadataFiles.
Context {O : Type} `{Bincode DirectTableMetadata}.

(** [DirectTableMetadata::save]; [fs::write] creates the file, then writes it. *)
Definition direct_save (m : DirectTableMetadata) (path : FilePath) : M (Host O) unit :=
  let* data := lift (ok_or (bin_serialize m) BincodeError) in
  let* _ := file_create path in
  write_and_flush path data.

(** [DirectTableMetadata::load] *)
Definition direct_load (path : FilePath) : M (Host O) DirectTableMetadata :=
  let* b := fs_read path in
  let* metadata := lift (ok_or (bin_deserialize b) BincodeError) in
  let* _ := lift (direct_validate metadata) in
  ret metadata.

End MetadataFiles.

(** ** Packed items *)

(** Mirror of [struct PackedDirectItemLocation]. *)
Record PackedDirectItemLocation : Type := mkItemLocation {
  il_logical_block : Z;
  il_byte_offset : Z;
  il_byte_len : Z
}.

(** [locate_packed_direct_item] *)
Definition locate_packed_direct_item (total_items items_per_block item_size item_id : Z) : outcome PackedDirectItemLocation :=
  if items_per_block =? 0 then Err (InvalidInput "items_per_block must be > 0")
  else if item_size =? 0 then Err (InvalidInput "item_size must be > 0")
  else if total_items <=? item_id then Err (InvalidInput "direct item_id {} out of range {}")
  else
    let slot_in_block := item_id mod items_per_block in
    Ok (mkItemLocation (item_id / items_per_block) (mul64 slot_in_block item_size) item_size).

(** [&block[location.byte_range()]] *)
Definition item_range (block : bytes) (location : PackedDirectItemLocation) : outcome bytes :=
  let end_ := add64 (il_byte_offset location) (il_byte_len location) in
  slice block (il_byte_offset location) (end_ - il_byte_offset location).

(** [MmapOptions::map] of the contents of a file *)
Class Mmap : Type := mmap : bytes -> option bytes.
Class MmapLaws `{Mmap} : Prop := mmap_ok : forall b, 0 < lenZ b -> mmap b = Some b.

Section Sources.
Context {O : Type} `{Mmap}.

(** [File::open] and [MmapOptions::map] *)
Definition open_mmap (path : FilePath) : M (Host O) bytes :=
  let* b := fs_read path in
  let* fault := next_fault in
  match fault, mmap b with None, Some m => ret m | _, _ => fail IoError end.

(** Mirror of [struct DirectChunkPackedBlockReader]. *)
Record DirectChunkPackedBlockReader : Type := mkChunkSource {
  cs_metadata : DirectTableMetadata;
  cs_next_block : Z;
  cs_mmap : bytes
}.

(** [DirectChunkPackedBlockReader::open] *)
Definition chunk_open (info : DirectTableInfo) (items_per_block : Z) : M (Host O) DirectChunkPackedBlockReader :=
  let* _ := guardm (bool_decide (dti_level info = DirectChunk))
              (InvalidInput "DirectChunkPackedBlockReader requires chunk table info") in
  let* m := open_mmap (dti_path info) in
  let* metadata := lift (from_info info items_per_block) in
  ret (mkChunkSource metadata 0 m).

(** [DirectChunkPackedBlockReader::read_block] *)
Definition chunk_read_block (s : DirectChunkPackedBlockReader) (logical_block : Z) : outcome bytes :=
  let md := cs_metadata s in
  if dm_logical_blocks md <=? logical_block then Err (InvalidInput "logical block {} out of range {}")
  else
    let start_item := mul64 logical_block (dm_items_per_block md) in
    let remaining := sub64 (dm_total_items md) start_item in
    let items_to_read := Z.min remaining (dm_items_per_block md) in
    let bytes_to_read := mul64 items_to_read (dm_item_size md) in
    let offset := mul64 start_item (dm_item_size md) in
    let end_ := add64 offset bytes_to_read in
    if lenZ (cs_mmap s) <? end_
    then Err (InvalidInput "direct chunk logical block {} reaches byte {} past mapped file length {}")
    else
      let payload := zeros (dm_block_payload_bytes md) in
      let? head := slice payload 0 bytes_to_read in
      let? src := slice (cs_mmap s) offset (end_ - offset) in
      let? head := copy_from_slice head src in
      splice payload 0 head.

(** [DirectChunkPackedBlockReader::read_chunk] *)
Definition chunk_read_chunk (s : DirectChunkPackedBlockReader) (chunk_id : Z) : outcome bytes :=
  let md := cs_metadata s in
  let? location := locate_packed_direct_item (dm_total_items md) (dm_items_per_block md) (dm_item_size md) chunk_id in
  let? block := chunk_read_block s (il_logical_block location) in
  item_range block location.

(** [Iterator::next] *)
Definition chunk_next (s : DirectChunkPackedBlockReader) : option (outcome bytes) * DirectChunkPackedBlockReader :=
  if dm_logical_blocks (cs_metadata s) <=? cs_next_block s then (None, s)
  else
    let block_idx := cs_next_block s in
    let s := mkChunkSource (cs_metadata s) (block_idx + 1) (cs_mmap s) in
    (Some (chunk_read_block s block_idx), s).

#[export] Instance chunk_block_source : TrustedBlockSource DirectChunkPackedBlockReader := {|
  src_logical_blocks := fun s => dm_logical_blocks (cs_metadata s);
  src_block_size := fun s => dm_block_payload_bytes (cs_metadata s);
  src_read_block := fun id s => (chunk_read_block s id, s)
|}.

End Sources.

(** [validate_oram_dimensions] *)
Definition validate_oram_dimensions {MS PS R} (metadata : DirectTableMetadata) (oram : CircuitOram MS PS R) : outcome unit :=
  let? _ := guardo (logical_blocks (co_params oram) =? dm_logical_blocks metadata)
              (InvalidInput "direct {} ORAM logical_blocks {} != metadata logical_blocks {}") in
  guardo (block_size (co_params oram) =? dm_block_payload_bytes metadata)
    (InvalidInput "direct {} ORAM block_size {} != metadata block_payload_bytes {}").
