(* ===== verification/Packed.v ===== *)
(** * Packing fixed-size items into blocks

    Consecutive items of one size are packed into equal blocks, the last padded with
    zeros.  The table sources of [cuckoo.rs] and [direct.rs] write such blocks and
    their readers cut the items out again. *)

From S2P Require Import Prelude.

Section Packed.
Context (item : Z -> bytes) (total per size : Z).
Context (Hper : 0 < per) (Hsize : 0 < size) (Hitem : forall i, 0 <= i < total -> lenZ (item i) = size).

Definition items_of (start n : Z) : bytes := concat ((fun j => item (start + j)) <$> seqZ 0 n).

Lemma items_of_snoc start n : 0 <= n -> items_of start (n + 1) = items_of start n ++ item (start + n).
Proof.
  intros Hn. unfold items_of. rewrite seqZ_app by lia. rewrite fmap_app, concat_app. f_equal.
  rewrite (seqZ_cons (0 + n)) by lia. rewrite seqZ_nil by lia. cbn. by rewrite app_nil_r.
Qed.

Lemma items_of_length start n : 0 <= n -> 0 <= start -> start + n <= total -> lenZ (items_of start n) = n * size.
Proof.
  intros Hn Hs Ht. revert Ht. pattern n. apply natlike_ind; [done| |done]. intros k Hk IH Ht.
  unfold Z.succ. rewrite items_of_snoc, lenZ_app, IH, Hitem by lia. lia.
Qed.

Lemma items_of_slice start n j rest : 0 <= j < n -> 0 <= start -> start + n <= total ->
  slice (items_of start n ++ rest) (j * size) size = Ok (item (start + j)).
Proof.
  intros Hj Hs Ht. assert (exists z, items_of start n = items_of start j ++ item (start + j) ++ z) as [z ->].
  { unfold items_of. replace n with (j + 1 + (n - j - 1)) by lia. rewrite seqZ_app by lia. rewrite fmap_app, concat_app.
    exists (concat ((fun j => item (start + j)) <$> seqZ (0 + (j + 1)) (n - j - 1))). rewrite app_assoc. f_equal.
    apply (items_of_snoc start j). lia. }
  rewrite <-!app_assoc. apply slice_app; [rewrite items_of_length by lia; done|]. by rewrite Hitem by lia.
Qed.

(** The blocks. *)
Definition block_items (lb : Z) : Z := Z.min (total - lb * per) per.
Definition packed (lb : Z) : bytes := items_of (lb * per) (block_items lb) ++ zeros ((per - block_items lb) * size).

Lemma block_bounds lb : 0 <= total -> 0 <= lb < div_ceil total per -> 0 <= lb * per < total /\ 1 <= block_items lb <= per /\ lb * per + block_items lb <= total.
Proof.
  intros Ht [Hlb Hc]. unfold div_ceil, block_items in *. pose proof (Z.mul_div_le (total + per - 1) per Hper). nia.
Qed.

Lemma packed_length lb : 0 <= total -> 0 <= lb < div_ceil total per -> lenZ (packed lb) = size * per.
Proof.
  intros Ht Hlb. destruct (block_bounds lb Ht Hlb) as (? & ? & ?). unfold packed. rewrite lenZ_app, items_of_length, lenZ_zeros by nia. nia.
Qed.

Lemma packed_bytes lb : (forall i, 0 <= i < total -> bytes_ok (item i)) -> 0 <= total -> 0 <= lb < div_ceil total per -> bytes_ok (packed lb).
Proof.
  intros Hi Ht Hlb. destruct (block_bounds lb Ht Hlb) as (? & ? & ?). apply Forall_app. split; [|apply zeros_ok].
  unfold items_of. apply Forall_concat, Forall_fmap, Forall_forall. intros j Hj%elem_of_seqZ. cbn. apply Hi. lia.
Qed.

Lemma item_block i : 0 <= i < total -> 0 <= i / per < div_ceil total per.
Proof.
  intros Hi. unfold div_ceil. split; [apply Z.div_pos; lia|]. apply Z.div_lt_upper_bound; [lia|].
  pose proof (Z.mod_pos_bound (total + per - 1) per Hper). pose proof (Z.div_mod (total + per - 1) per ltac:(lia)). lia.
Qed.

(** Item [i] is cut out of block [i / per] at [(i mod per) * size]. *)
Lemma packed_item i : 0 <= i < total -> slice (packed (i / per)) ((i mod per) * size) size = Ok (item i).
Proof.
  intros Hi. destruct (block_bounds (i / per) ltac:(lia) (item_block i Hi)) as (? & ? & ?). unfold packed.
  pose proof (Z.div_mod i per ltac:(lia)). pose proof (Z.mod_pos_bound i per Hper).
  rewrite items_of_slice; [do 2 f_equal; lia| |lia|lia]. unfold block_items in *. lia.
Qed.

(** A loop that writes the items one after the other into a buffer. *)
Lemma ofold_items (f : bytes -> Z -> outcome bytes) start n buf :
  (forall j pre old rest, 0 <= j < n -> lenZ pre = j * size -> lenZ old = size ->
     lenZ (pre ++ old ++ rest) = lenZ buf -> f (pre ++ old ++ rest) j = Ok (pre ++ item (start + j) ++ rest)) ->
  0 <= start -> start + n <= total -> n * size <= lenZ buf ->
  ofold f buf (seqZ 0 n) = Ok (items_of start n ++ drop (Z.to_nat (n * size)) buf).
Proof.
  intros Hf Hs Ht Hb. destruct (decide (n < 0)) as [|Hn].
  { unfold items_of. rewrite seqZ_nil by lia. replace (Z.to_nat (n * size)) with 0%nat by nia. by rewrite drop_0. }
  destruct (ofold_prefix_inv (fun before b => b = items_of start (lenZ before) ++ drop (Z.to_nat (lenZ before * size)) buf) f (seqZ 0 n) buf)
    as (b & E & ->).
  - intros before j after b El ->. apply seqZ_split in El as [Hj Hjr]. rewrite Z.add_0_l in Hj. rewrite <-Hj.
    set (rest := drop (Z.to_nat (j * size)) buf).
    assert (lenZ rest = lenZ buf - j * size) as Hr by (unfold rest, lenZ in *; rewrite length_drop; nia).
    destruct (slice_split rest 0 size) as (x & old & r & E & Hx & Hold & _); [lia|lia|nia|].
    destruct x; [|rewrite lenZ_cons in Hx; pose proof (lenZ_nonneg x); lia]. cbn [app] in E. rewrite E.
    pose proof (items_of_length start j ltac:(lia) Hs ltac:(lia)) as Hil.
    rewrite Hf; [|lia|done|done|]; [|rewrite <-E, lenZ_app; lia]. eexists. split; [reflexivity|].
    rewrite lenZ_app, <-Hj, lenZ_cons. change (lenZ []) with 0. rewrite Z.add_0_r, items_of_snoc, <-app_assoc by lia. do 2 f_equal.
    replace (Z.to_nat ((j + 1) * size)) with (Z.to_nat size + Z.to_nat (j * size))%nat by nia.
    rewrite Nat.add_comm, <-drop_drop. fold rest. rewrite E. by rewrite drop_app_length' by (unfold lenZ in *; lia).
  - change (lenZ []) with 0. by rewrite Z.mul_0_l, drop_0.
  - rewrite E. assert (lenZ (seqZ 0 n) = n) as -> by (unfold lenZ; rewrite length_seqZ; lia). done.
Qed.

End Packed.

(** Items that lie one after the other in a byte string. *)
Definition item_in (data : bytes) (base size i : Z) : bytes := take (Z.to_nat size) (drop (Z.to_nat (base + i * size)) data).

Lemma item_in_length data base size total i : 0 <= base -> 0 < size -> base + total * size <= lenZ data -> 0 <= i < total ->
  lenZ (item_in data base size i) = size.
Proof. intros Hb Hs Hd Hi. unfold item_in, lenZ in *. rewrite length_take, length_drop. nia. Qed.

Lemma item_in_bytes data base size i : bytes_ok data -> bytes_ok (item_in data base size i).
Proof. intros Hd. unfold item_in. by apply Forall_take, Forall_drop. Qed.

Lemma items_in data base size start n total : 0 <= base -> 0 < size -> 0 <= start -> 0 <= n -> start + n <= total ->
  base + total * size <= lenZ data ->
  slice data (base + start * size) (n * size) = Ok (items_of (item_in data base size) start n).
Proof.
  intros Hb Hs Hst Hn Ht Hd. assert (items_of (item_in data base size) start n = take (Z.to_nat (n * size)) (drop (Z.to_nat (base + start * size)) data)) as ->.
  { revert Ht. pattern n. apply natlike_ind; [done| |done]. intros k Hk IH Ht. unfold Z.succ.
    rewrite items_of_snoc, IH by lia. unfold item_in.
    replace (Z.to_nat ((k + 1) * size)) with (Z.to_nat (k * size) + Z.to_nat size)%nat by nia. rewrite <-take_take_drop, drop_drop.
    do 3 f_equal. nia. }
  unfold slice. rewrite (proj2 (andb_true_iff _ _)); [done|]. split; [|nia]. apply andb_true_iff. nia.
Qed.
