(* ===== verification/IndexTable.v ===== *)
(** * The direct INDEX dictionary ([src/src/direct.rs])

    Records of the source file are placed in bins by cuckoo insertion: a record goes
    to a free slot of one of its candidate bins, or evicts a record that is then
    placed again.  The placement is encoded bin by bin into logical blocks; a lookup
    scans every slot of every candidate bin with masked selections. *)

From S2P Require Import Prelude Ct Params Store Circuit Build SealedState Float64 CandidateBins Direct.

(** ** Records *)

(** [index_record] *)
Definition index_record (mm : bytes) (record_idx : Z) : outcome bytes :=
  let? start := ok_or (checked_mul64 record_idx DIRECT_INDEX_INPUT_RECORD_SIZE) (InvalidInput "direct index record offset overflow") in
  let end_ := add64 start DIRECT_INDEX_INPUT_RECORD_SIZE in
  if lenZ mm <? end_ then Err (InvalidInput "direct index record {} reaches byte {} past mapped file length {}")
  else slice mm start (end_ - start).

(** [script_hash_from_record] *)
Definition script_hash_from_record (record : bytes) : outcome bytes := slice record 0 DIRECT_SCRIPT_HASH_SIZE.

Section Placement.
Context (info : DirectTableInfo) (mm : bytes).

(** The candidate bins of a record, as each of the functions below computes them. *)
Definition record_bins (record_idx : Z) : outcome (list Z) :=
  let? record := index_record mm record_idx in
  let? script_hash := script_hash_from_record record in
  direct_index_candidate_bins script_hash (dti_seed info) (dti_hash_fns info) (dti_total_items info).

(** The slot loop of [place_in_empty_slot] *)
Fixpoint fill_empty (slots : list Z) (record_idx : Z) : option (list Z) :=
  match slots with
  | [] => None
  | slot :: slots =>
      if slot =? EMPTY_SLOT then Some (record_idx :: slots)
      else match fill_empty slots record_idx with Some slots => Some (slot :: slots) | None => None end
  end.

(** [place_in_empty_slot], with the placement it leaves *)
Definition place_in_empty_slot (placement : list Z) (bin slots_per_bin record_idx : Z) : outcome (bool * list Z) :=
  let base := mul64 bin slots_per_bin in
  let? slots := slice placement base (add64 base slots_per_bin - base) in
  match fill_empty slots record_idx with
  | Some slots => let? placement := splice placement base slots in Ok (true, placement)
  | None => Ok (false, placement)
  end.

(** The bin loop of [try_place_in_any_candidate] and of its [_except] variant *)
Fixpoint try_place (skip : Z -> bool) (bins : list Z) (placement : list Z) (record_idx : Z) : outcome (bool * list Z) :=
  match bins with
  | [] => Ok (false, placement)
  | bin :: bins =>
      if skip bin then try_place skip bins placement record_idx
      else
        let? r := place_in_empty_slot placement bin (dti_slots_per_bin info) record_idx in
        if r.1 then Ok r else try_place skip bins r.2 record_idx
  end.

(** [try_place_in_any_candidate] and [try_place_in_any_candidate_except] *)
Definition try_place_in_any_candidate (placement : list Z) (record_idx : Z) : outcome (bool * list Z) :=
  let? bins := record_bins record_idx in try_place (fun _ => false) bins placement record_idx.
Definition try_place_in_any_candidate_except (placement : list Z) (record_idx except_bin : Z) : outcome (bool * list Z) :=
  let? bins := record_bins record_idx in try_place (fun bin => bin =? except_bin) bins placement record_idx.

(** [first_candidate_bin] *)
Definition first_candidate_bin (record_idx : Z) : outcome Z := let? bins := record_bins record_idx in indexZ bins 0.

(** [alternate_candidate_bin]; [iter().position(..)] is the first index *)
Definition alternate_candidate_bin (record_idx current_bin kick : Z) : outcome Z :=
  let? bins := record_bins record_idx in
  match list_find (fun bin => bin = current_bin) bins with
  | Some (pos, _) => indexZ bins ((Z.of_nat pos + 1) mod lenZ bins)
  | None => if lenZ bins =? 0 then Panic else indexZ bins (kick mod lenZ bins)
  end.

(** [eviction_slot] *)
Definition eviction_slot (seed record_idx kick slots_per_bin : Z) : outcome Z :=
  let h := splitmix64 (Z.lxor seed (add64 record_idx (mul64 kick GOLDEN_RATIO))) in
  if slots_per_bin =? 0 then Panic else Ok (h mod slots_per_bin).

(** The kick loop of [insert_index_record] *)
Fixpoint kick_loop (kicks : list Z) (placement : list Z) (current current_bin : Z) : outcome (list Z) :=
  match kicks with
  | [] => Err (InvalidInput "direct index cuckoo insertion failed after {} kicks; records={} bins={} slots_per_bin={} hash_fns={} load_factor={:.4}")
  | kick :: kicks =>
      let? slot := eviction_slot (dti_seed info) current kick (dti_slots_per_bin info) in
      let offset := add64 (mul64 current_bin (dti_slots_per_bin info)) slot in
      let? evicted := indexZ placement offset in
      let? placement := updateZ placement offset current in
      if evicted =? EMPTY_SLOT then Ok placement
      else
        let current := evicted in
        let? r := try_place_in_any_candidate_except placement current current_bin in
        if r.1 then Ok r.2
        else
          let? current_bin := alternate_candidate_bin current current_bin (kick + 1) in
          kick_loop kicks r.2 current current_bin
  end.

(** [insert_index_record] *)
Definition insert_index_record (placement : list Z) (record_idx : Z) : outcome (list Z) :=
  let current := record_idx in
  let? current_bin := first_candidate_bin current in
  let? r := try_place_in_any_candidate placement current in
  if r.1 then Ok r.2 else kick_loop (seqZ 0 DIRECT_CUCKOO_MAX_KICKS) r.2 current current_bin.

(** [build_direct_index_placement] *)
Definition build_direct_index_placement : outcome (list Z) :=
  if u32_max <? dti_records info then Err (InvalidInput "direct index records {} exceed u32 placement id range")
  else
    let? slot_count := ok_or (checked_mul64 (dti_total_items info) (dti_slots_per_bin info))
                         (InvalidInput "direct index slot count overflow") in
    ofold insert_index_record (replicate (Z.to_nat slot_count) EMPTY_SLOT) (seqZ 0 (dti_records info)).

End Placement.

(** ** The packed source *)

(** Mirror of [struct DirectIndexPackedBlockReader]. *)
Record DirectIndexPackedBlockReader : Type := mkIndexSource {
  is_info : DirectTableInfo;
  is_metadata : DirectTableMetadata;
  is_next_block : Z;
  is_mmap : bytes;
  is_placement : list Z
}.

Section Source.
Context {O : Type} `{Mmap}.

(** [DirectIndexPackedBlockReader::build] *)
Definition index_build (info : DirectTableInfo) (items_per_block : Z) : M (Host O) DirectIndexPackedBlockReader :=
  let* _ := guardm (bool_decide (dti_level info = DirectIndex))
              (InvalidInput "DirectIndexPackedBlockReader requires index table info") in
  let* mm := open_mmap (dti_path info) in
  let* placement := lift (build_direct_index_placement info mm) in
  let* metadata := lift (from_info info items_per_block) in
  ret (mkIndexSource info metadata 0 mm placement).

End Source.

(** One turn of the slot loop of [encode_bin] *)
Definition encode_slot (s : DirectIndexPackedBlockReader) (base : Z) (out : bytes) (slot_idx : Z) : outcome bytes :=
  let? entry_idx := indexZ (is_placement s) (add64 base slot_idx) in
  let slot_start := mul64 slot_idx DIRECT_INDEX_SLOT_SIZE in
  let? slot := slice out slot_start (add64 slot_start DIRECT_INDEX_SLOT_SIZE - slot_start) in
  if entry_idx =? EMPTY_SLOT then splice out slot_start (zeros (lenZ slot))
  else
    let? record := index_record (is_mmap s) entry_idx in
    let? slot := updateZ slot 0 1 in
    let? tail := slice slot 1 (lenZ slot - 1) in
    let? tail := copy_from_slice tail record in
    let? slot := splice slot 1 tail in
    splice out slot_start slot.

(** [encode_bin] *)
Definition encode_bin (s : DirectIndexPackedBlockReader) (bin_id : Z) (out : bytes) : outcome bytes :=
  if negb (lenZ out =? dm_item_size (is_metadata s)) then Err (InvalidInput "direct index bin output len {} != expected {}")
  else
    let? base := ok_or (checked_mul64 bin_id (dti_slots_per_bin (is_info s))) (InvalidInput "direct index bin offset overflow") in
    ofold (encode_slot s base) out (seqZ 0 (dti_slots_per_bin (is_info s))).

(** [DirectIndexPackedBlockReader::read_block] *)
Definition index_read_block (s : DirectIndexPackedBlockReader) (logical_block : Z) : outcome bytes :=
  let md := is_metadata s in
  if dm_logical_blocks md <=? logical_block then Err (InvalidInput "logical block {} out of range {}")
  else
    let start_item := mul64 logical_block (dm_items_per_block md) in
    let remaining := sub64 (dm_total_items md) start_item in
    let items_to_encode := Z.min remaining (dm_items_per_block md) in
    let payload := zeros (dm_block_payload_bytes md) in
    ofold (fun payload item_offset =>
        let bin_id := add64 start_item item_offset in
        let byte_start := mul64 item_offset (dm_item_size md) in
        let byte_end := add64 byte_start (dm_item_size md) in
        let? out := slice payload byte_start (byte_end - byte_start) in
        let? out := encode_bin s bin_id out in
        splice payload byte_start out)
      payload (seqZ 0 items_to_encode).

(** [DirectIndexPackedBlockReader::read_bin] *)
Definition index_read_bin (s : DirectIndexPackedBlockReader) (bin_id : Z) : outcome bytes :=
  let md := is_metadata s in
  let? location := locate_packed_direct_item (dm_total_items md) (dm_items_per_block md) (dm_item_size md) bin_id in
  let? block := index_read_block s (il_logical_block location) in
  item_range block location.

(** [Iterator::next] *)
Definition index_next (s : DirectIndexPackedBlockReader) : option (outcome bytes) * DirectIndexPackedBlockReader :=
  if dm_logical_blocks (is_metadata s) <=? is_next_block s then (None, s)
  else
    let block_idx := is_next_block s in
    let s := mkIndexSource (is_info s) (is_metadata s) (block_idx + 1) (is_mmap s) (is_placement s) in
    (Some (index_read_block s block_idx), s).

#[export] Instance index_block_source : TrustedBlockSource DirectIndexPackedBlockReader := {|
  src_logical_blocks := fun s => dm_logical_blocks (is_metadata s);
  src_block_size := fun s => dm_block_payload_bytes (is_metadata s);
  src_read_block := fun id s => (index_read_block s id, s)
|}.

(** ** Masked selection *)

Section Select.
Context `{Subtle}.

(** [found], [start_chunk_id], [num_chunks] *)
Record selection : Type := mkSelection { sel_found : Choice; sel_start : Z; sel_num : Z }.

(** One slot of [select_index_record_from_bin] *)
Definition select_slot (bin script_hash : bytes) (sel : selection) (slot_idx : Z) : outcome selection :=
  let slot_start := mul64 slot_idx DIRECT_INDEX_SLOT_SIZE in
  let? slot := slice bin slot_start (add64 slot_start DIRECT_INDEX_SLOT_SIZE - slot_start) in
  let? first := indexZ slot 0 in
  let occupied := choice_from_bool (first =? 1) in
  let? diff := ofold (fun diff i =>
      let? a := indexZ slot (1 + i) in let? b := indexZ script_hash i in Ok (Z.lor diff (Z.lxor a b)))
    0 (seqZ 0 DIRECT_SCRIPT_HASH_SIZE) in
  let is_match := and occupied (is_zero_u64 diff) in
  let select := and is_match (not (sel_found sel)) in
  let? start_bytes := slice slot 21 4 in
  let candidate_start := from_le start_bytes in
  let? candidate_chunks := indexZ slot 25 in
  let found := or (sel_found sel) select in
  Ok (mkSelection found (cmov_u32 (sel_start sel) candidate_start select) (cmov_u8 (sel_num sel) candidate_chunks select)).

(** [select_index_record_from_bin] *)
Definition select_index_record_from_bin (bin : bytes) (slots_per_bin : Z) (script_hash : bytes) (sel : selection)
    : outcome selection :=
  if negb (lenZ bin =? mul64 slots_per_bin DIRECT_INDEX_SLOT_SIZE) then Err (InvalidInput "direct index bin len {} != expected {}")
  else ofold (select_slot bin script_hash) sel (seqZ 0 slots_per_bin).

End Select.
