(* ===== verification/Slots.v ===== *)
(** * Slots that hold an id or are empty

    The trees of the table builder and of the simulators are flat lists of slots; an
    operation replaces one slot, or the first slot of a slice with a given value. *)

From S2P Require Import Prelude.

(** The ids in the slots. *)
Definition occupied (empty : Z) (slots : list Z) : list Z := filter (fun e => e <> empty) slots.

Section Occupied.
Context (empty : Z).

Lemma occupied_insert l o e x : l !! o = Some e ->
  exists a b, occupied empty l = a ++ occupied empty [e] ++ b /\ occupied empty (<[o := x]> l) = a ++ occupied empty [x] ++ b.
Proof.
  intros Ho. apply list_elem_of_split_length in Ho as (a & b & -> & ->). exists (occupied empty a), (occupied empty b). unfold occupied.
  rewrite insert_app_r_alt, Nat.sub_diag by lia. cbn [list_insert insert]. by rewrite <-!filter_app.
Qed.

Lemma occupied_single e : occupied empty [e] = if decide (e = empty) then [] else [e].
Proof. unfold occupied. rewrite filter_cons. destruct (decide (e = empty)); [by rewrite decide_False by naive_solver|by rewrite decide_True]. Qed.

Lemma occupied_update l o e x : l !! o = Some e -> x <> empty ->
  (e = empty -> occupied empty (<[o := x]> l) ≡ₚ x :: occupied empty l) /\
  (e <> empty -> e :: occupied empty (<[o := x]> l) ≡ₚ x :: occupied empty l).
Proof.
  intros Ho Hx. destruct (occupied_insert l o e x Ho) as (a & b & -> & ->). rewrite !occupied_single, (decide_False (P := x = empty)) by done.
  split; intros He; [rewrite decide_True by done|rewrite decide_False by done]; cbn [app].
  - symmetry. apply Permutation_middle.
  - rewrite <-(Permutation_middle _ _ x), <-(Permutation_middle _ _ e). apply Permutation_swap.
Qed.

Lemma occupied_clear l o e : l !! o = Some e -> e <> empty -> e :: occupied empty (<[o := empty]> l) ≡ₚ occupied empty l.
Proof.
  intros Ho He. destruct (occupied_insert l o e empty Ho) as (a & b & -> & ->). rewrite !occupied_single, (decide_False (P := e = empty)), (decide_True (P := empty = empty)) by done.
  cbn [app]. apply Permutation_middle.
Qed.

Lemma occupied_empty n : occupied empty (replicate n empty) = [].
Proof. induction n as [|n IH]; [done|]. cbn [replicate]. unfold occupied in *. rewrite filter_cons, decide_False; [done|]. intros Hn. by apply Hn. Qed.

Lemma elem_of_occupied l e : e ∈ occupied empty l <-> e <> empty /\ e ∈ l.
Proof. apply (list_elem_of_filter (fun e => e <> empty)). Qed.

End Occupied.

(** Replace the first slot that holds [old]. *)
Fixpoint replace_first (old new : Z) (slots : list Z) : option (list Z) :=
  match slots with
  | [] => None
  | slot :: slots =>
      if slot =? old then Some (new :: slots)
      else match replace_first old new slots with Some slots => Some (slot :: slots) | None => None end
  end.

Lemma replace_first_spec old new slots : match replace_first old new slots with
  | Some slots' => exists j, slots !! j = Some old /\ slots' = <[j := new]> slots
  | None => old ∉ slots
  end.
Proof.
  induction slots as [|s slots IH]; cbn [replace_first]; [apply not_elem_of_nil|]. destruct (s =? old) eqn:E; zbool.
  - subst s. by exists 0%nat.
  - destruct (replace_first old new slots) as [slots'|]; [|set_solver]. destruct IH as (j & Hj & ->). by exists (S j).
Qed.

(** Writing a slot inside a slice is writing it in the list. *)
Lemma slice_update {A} (l sl : list A) base j x e : 0 <= base -> slice l base (lenZ sl) = Ok sl -> sl !! j = Some e ->
  splice l base (<[j := x]> sl) = Ok (<[(Z.to_nat base + j)%nat := x]> l) /\ l !! (Z.to_nat base + j)%nat = Some e.
Proof.
  intros Hb Hsl Hj. unfold slice in Hsl. destruct (_ && _) eqn:Ec; [|done]. zbool. apply Ok_inj in Hsl.
  set (n := Z.to_nat base) in *. assert (length sl = Z.to_nat (lenZ sl)) as Hn by (unfold lenZ; lia).
  assert (l = take n l ++ sl ++ drop (n + length sl) l) as El.
  { rewrite <-(take_drop n l) at 1. f_equal. rewrite <-(take_drop (length sl) (drop n l)) at 1. rewrite drop_drop. f_equal.
    by rewrite Hn. }
  assert (length (take n l) = n) as Ht by (rewrite length_take; unfold lenZ in *; lia).
  pose proof (lookup_lt_Some _ _ _ Hj) as Hlt. split.
  - unfold splice. rewrite (proj2 (andb_true_iff _ _)) by (unfold lenZ in *; rewrite length_insert; lia).
    f_equal. unfold lenZ at 1. rewrite length_insert. replace (Z.to_nat (base + Z.of_nat (length sl))) with (n + length sl)%nat by lia.
    fold n. rewrite El at 3. rewrite insert_app_r_alt by lia. rewrite Ht. replace (n + j - n)%nat with j by lia.
    by rewrite insert_app_l.
  - rewrite El, lookup_app_r by lia. rewrite Ht. replace (n + j - n)%nat with j by lia. by rewrite lookup_app_l.
Qed.
