(* ===== verification/IndexProofs.v ===== *)
(** * The INDEX table: placement, packing, selection

    After the insertions every record occupies exactly one slot, in one of the record's
    candidate bins.  Both sources of [direct.rs] yield, block by block, the items of
    their table packed and padded.  [select_index_record_from_bin] folds over every slot
    of a bin with choices and conditional moves; over the candidate bins of a hash it
    finds an entry exactly when the file has a record with that hash. *)

From S2P Require Import Prelude Ct Params Store Circuit Build BuildProofs SealedState CandidateBins Float64 Direct Packed IndexTable Slots.

Definition occupied_slots : list Z -> list Z := occupied EMPTY_SLOT.

Lemma fill_empty_spec slots x : match fill_empty slots x with
  | Some slots' => exists j, slots !! j = Some EMPTY_SLOT /\ slots' = <[j := x]> slots
  | None => True
  end.
Proof.
  induction slots as [|s slots IH]; cbn [fill_empty]; [done|]. destruct (s =? EMPTY_SLOT) eqn:E; zbool.
  - subst s. by exists 0%nat.
  - destruct (fill_empty slots x) as [slots'|]; [|done]. destruct IH as (j & Hj & ->). by exists (Datatypes.S j).
Qed.

Section Placed.
Context (info : DirectTableInfo) (mm : bytes).
Local Abbreviation slots := (dti_slots_per_bin info).
Local Abbreviation bins := (dti_total_items info).
Local Abbreviation records := (dti_records info).
Context (Hmm : lenZ mm = records * DIRECT_INDEX_INPUT_RECORD_SIZE) (Hbytes : bytes_ok mm).
Context (Hslots : 0 < slots) (Hfns : 0 < dti_hash_fns info <= bins) (Hfit : bins * slots <= u64_max) (Hrec : records <= u32_max).

Definition record_at (r : Z) : bytes := take 25 (drop (Z.to_nat (25 * r)) mm).
Definition candidates (r : Z) : list Z := match record_bins info mm r with Ok bins => bins | _ => [] end.

Lemma index_record_ok r : 0 <= r < records -> index_record mm r = Ok (record_at r) /\ lenZ (record_at r) = 25 /\ bytes_ok (record_at r).
Proof.
  intros Hr. unfold index_record, DIRECT_INDEX_INPUT_RECORD_SIZE, DIRECT_SCRIPT_HASH_SIZE in *. change (20 + 4 + 1) with 25 in *.
  unfold u32_max in Hrec. rewrite (proj2 (checked_mul64_Some r 25 (r * 25))) by (unfold u64_max; lia). cbn [ok_or obind].
  rewrite add64_small by (unfold u64_max; lia). rewrite (proj2 (Z.ltb_ge _ _)) by lia. replace (r * 25 + 25 - r * 25) with 25 by lia.
  destruct (slice_split mm (r * 25) 25) as (a & b & c & E & Ha & Hb & Es); [lia..|].
  assert (record_at r = b) as ->; [|split_and!; [done|done|]].
  - unfold record_at. rewrite E, Z.mul_comm. rewrite drop_app_length' by (unfold lenZ in *; lia).
    by rewrite take_app_length' by (unfold lenZ in *; lia).
  - unfold bytes_ok in *. rewrite E, !Forall_app in Hbytes. apply Hbytes.
Qed.

Lemma record_bins_ok r : 0 <= r < records -> record_bins info mm r = Ok (candidates r) /\ bins_ok (dti_hash_fns info) bins (candidates r).
Proof.
  intros Hr. destruct (index_record_ok r Hr) as (E & Hl & Hb). unfold candidates, record_bins. rewrite E. cbn [obind].
  unfold script_hash_from_record, DIRECT_SCRIPT_HASH_SIZE.
  destruct (slice_split (record_at r) 0 20) as (a & h & c & Ea & Ha & Hh & Es); [lia..|]. rewrite Es. cbn [obind].
  destruct (candidate_bins_total h (dti_seed info) (dti_hash_fns info) bins) as (out & -> & Hout); [done| |lia| |done].
  - unfold bytes_ok in *. rewrite Ea, !Forall_app in Hb. apply Hb.
  - unfold u64_max in Hfit. nia.
Qed.

Lemma candidate_range r b : 0 <= r < records -> b ∈ candidates r -> 0 <= b < bins.
Proof. intros Hr Hb. destruct (record_bins_ok r Hr) as (_ & _ & Hin & _). rewrite Forall_forall in Hin. by apply Hin. Qed.

(** The placed records are [rs], each once and in a candidate bin. *)
Record placed (pl : list Z) (rs : list Z) : Prop := {
  pl_length : lenZ pl = bins * slots;
  pl_home : forall o e, pl !! o = Some e -> e <> EMPTY_SLOT -> 0 <= e < records /\ Z.of_nat o / slots ∈ candidates e;
  pl_records : occupied_slots pl ≡ₚ rs
}.

Lemma record_not_empty r : 0 <= r < records -> r <> EMPTY_SLOT.
Proof. unfold EMPTY_SLOT, u32_max in *. lia. Qed.

(** Putting a record in a slot of a candidate bin. *)
Lemma put_record pl rs b j e x : placed pl rs -> 0 <= x < records -> b ∈ candidates x -> 0 <= j < slots ->
  pl !! Z.to_nat (b * slots + j) = Some e ->
  let pl' := <[Z.to_nat (b * slots + j) := x]> pl in
  (e = EMPTY_SLOT -> placed pl' (x :: rs)) /\ (e <> EMPTY_SLOT -> exists rs', placed pl' rs' /\ e :: rs' ≡ₚ x :: rs).
Proof.
  intros [Hl Hh Hr] Hx Hb Hj He pl'. pose proof (candidate_range x b Hx Hb) as Hbr.
  destruct (occupied_update EMPTY_SLOT pl _ e x He (record_not_empty x Hx)) as [Hemp Hful].
  assert (forall o e', pl' !! o = Some e' -> e' <> EMPTY_SLOT -> 0 <= e' < records /\ Z.of_nat o / slots ∈ candidates e') as Hhome.
  { intros o e' Ho Hne. unfold pl' in Ho. apply list_lookup_insert_Some in Ho as [(<- & <- & _)|[_ Ho]]; [|by apply Hh].
    split; [done|]. rewrite Z2Nat.id by nia. rewrite Z.add_comm, Z.div_add, Z.div_small by lia. done. }
  split; intros Hee.
  - split; [unfold pl', lenZ in *; by rewrite length_insert|exact Hhome|]. etransitivity; [exact (Hemp Hee)|by rewrite Hr].
  - exists (occupied_slots pl'). split; [|etransitivity; [exact (Hful Hee)|by rewrite Hr]].
    split; [unfold pl', lenZ in *; by rewrite length_insert|exact Hhome|done].
Qed.

Lemma place_in_bin pl rs b x : placed pl rs -> 0 <= x < records -> b ∈ candidates x ->
  place_in_empty_slot pl b slots x = Ok (false, pl) \/
  exists pl', place_in_empty_slot pl b slots x = Ok (true, pl') /\ placed pl' (x :: rs).
Proof.
  intros Hp Hx Hb. pose proof (candidate_range x b Hx Hb) as Hbr. pose proof (pl_length _ _ Hp) as Hl.
  unfold place_in_empty_slot. rewrite mul64_small by nia. rewrite add64_small by nia. replace (b * slots + slots - b * slots) with slots by lia.
  destruct (slice_split pl (b * slots) slots) as (a & sl & c & E & Ha & Hsl & Es); [nia..|]. rewrite Es. cbn [obind].
  pose proof (fill_empty_spec sl x) as Hf. destruct (fill_empty sl x) as [sl'|]; [|by left]. destruct Hf as (j & Hj & ->). right.
  assert (slice pl (b * slots) (lenZ sl) = Ok sl) as Es' by (by rewrite Hsl). destruct (slice_update pl sl (b * slots) j x EMPTY_SLOT) as [-> Ho]; [nia|done|done|]. cbn [obind].
  eexists. split; [reflexivity|]. pose proof (lookup_lt_Some _ _ _ Hj) as Hlt.
  assert (Z.to_nat (b * slots) + j = Z.to_nat (b * slots + Z.of_nat j))%nat as Ej by nia. rewrite Ej in *.
  apply (put_record pl rs b (Z.of_nat j) EMPTY_SLOT x); (done || unfold lenZ in Hsl; lia).
Qed.

Lemma try_place_ok skip bs pl rs x : placed pl rs -> 0 <= x < records -> (forall b, b ∈ bs -> b ∈ candidates x) ->
  try_place info skip bs pl x = Ok (false, pl) \/ exists pl', try_place info skip bs pl x = Ok (true, pl') /\ placed pl' (x :: rs).
Proof.
  intros Hp Hx. induction bs as [|b bs IH]; intros Hbs; cbn [try_place]; [by left|].
  destruct (skip b); [apply IH; set_solver|].
  destruct (place_in_bin pl rs b x Hp Hx) as [-> | (pl' & -> & Hp')]; [set_solver| |]; cbn [obind fst snd]; [apply IH; set_solver|eauto].
Qed.

Lemma alternate_ok r cb kick : 0 <= r < records -> 0 <= kick -> exists b, alternate_candidate_bin info mm r cb kick = Ok b /\ b ∈ candidates r.
Proof.
  intros Hr Hk. destruct (record_bins_ok r Hr) as (E & _ & _ & Hl). unfold alternate_candidate_bin. rewrite E. cbn [obind].
  assert (forall i, exists b, indexZ (candidates r) (i mod lenZ (candidates r)) = Ok b /\ b ∈ candidates r) as Hidx.
  { intros i. pose proof (Z.mod_pos_bound i (lenZ (candidates r)) ltac:(lia)). unfold indexZ. rewrite (proj2 (Z.leb_le _ _)) by lia.
    destruct (candidates r !! Z.to_nat (i mod lenZ (candidates r))) as [b|] eqn:Eb; [exists b; split; [done|]; by eapply list_elem_of_lookup_2|].
    apply lookup_ge_None in Eb. unfold lenZ in *. lia. }
  destruct (list_find _ _) as [[pos ?]|]; [apply Hidx|]. rewrite (proj2 (Z.eqb_neq _ _)) by lia. apply Hidx.
Qed.

Local Abbreviation failed := (Err (InvalidInput
  "direct index cuckoo insertion failed after {} kicks; records={} bins={} slots_per_bin={} hash_fns={} load_factor={:.4}")).

(** Each kick keeps "the placed records and the one in hand" the same. *)
Lemma kick_loop_ok kicks : forall pl rs x cb, Forall (fun k => 0 <= k) kicks ->
  placed pl rs -> 0 <= x < records -> cb ∈ candidates x ->
  kick_loop info mm kicks pl x cb = failed \/ exists pl', kick_loop info mm kicks pl x cb = Ok pl' /\ placed pl' (x :: rs).
Proof.
  induction kicks as [|k kicks IH]; intros pl rs x cb Hk Hp Hx Hcb; cbn [kick_loop]; [by left|].
  apply Forall_cons in Hk as [Hk Hks]. pose proof (candidate_range x cb Hx Hcb) as Hbr. pose proof (pl_length _ _ Hp) as Hl.
  unfold eviction_slot. rewrite (proj2 (Z.eqb_neq _ _)) by lia. cbn [obind].
  set (j := splitmix64 _ mod slots). assert (0 <= j < slots) as Hj by (apply Z.mod_pos_bound; lia). clearbody j.
  rewrite mul64_small by nia. rewrite add64_small by nia. unfold indexZ. rewrite (proj2 (Z.leb_le _ _)) by nia.
  destruct (pl !! Z.to_nat (cb * slots + j)) as [e|] eqn:Ee; [|apply lookup_ge_None in Ee; unfold lenZ in *; nia]. cbn [obind].
  unfold updateZ. rewrite (proj2 (andb_true_iff _ _)) by (apply lookup_lt_Some in Ee; unfold lenZ in *; nia). cbn [obind].
  destruct (put_record pl rs cb j e x Hp Hx Hcb Hj Ee) as [Hemp Hful]. destruct (e =? EMPTY_SLOT) eqn:E0; zbool; [right; eauto|].
  destruct (Hful E0) as (rs' & Hp' & Hperm). destruct (pl_home _ _ Hp _ _ Ee E0) as [Her Hec].
  rewrite Z2Nat.id in Hec by nia. rewrite Z.add_comm, Z.div_add, Z.div_small in Hec by lia. cbn [Z.add] in Hec.
  assert (forall pl', placed pl' (e :: rs') -> placed pl' (x :: rs)) as Hconv.
  { intros pl' [? ? Hr]. split; [done|done|]. by rewrite Hr. }
  unfold try_place_in_any_candidate_except. destruct (record_bins_ok e Her) as (E & _). rewrite E. cbn [obind].
  destruct (try_place_ok (fun b => b =? cb) (candidates e) _ rs' e Hp' Her (fun _ H => H)) as [-> | (pl' & -> & Hpl)]; cbn [obind fst snd].
  - destruct (alternate_ok e cb (k + 1) Her ltac:(lia)) as (b & -> & Hb). cbn [obind].
    destruct (IH _ rs' e b Hks Hp' Her Hb) as [|(pl' & E' & Hpl)]; [by left|]. right. exists pl'. split; [done|by apply Hconv].
  - right. exists pl'. split; [done|by apply Hconv].
Qed.

Lemma insert_ok pl rs x : placed pl rs -> 0 <= x < records ->
  insert_index_record info mm pl x = failed \/ exists pl', insert_index_record info mm pl x = Ok pl' /\ placed pl' (x :: rs).
Proof.
  intros Hp Hx. destruct (record_bins_ok x Hx) as (E & Hbs). unfold insert_index_record, first_candidate_bin, try_place_in_any_candidate.
  rewrite E. cbn [obind]. destruct Hbs as (_ & _ & Hl). destruct (candidates x) as [|b0 bs] eqn:Ec; [change (lenZ []) with 0 in Hl; lia|].
  change (indexZ (b0 :: bs) 0) with (Ok b0). cbn [obind].
  destruct (try_place_ok (fun _ => false) (b0 :: bs) pl rs x Hp Hx) as [-> | (pl' & -> & Hpl)]; [by rewrite Ec| |]; cbn [obind fst snd]; [|eauto].
  apply kick_loop_ok; [|done|done|rewrite Ec; set_solver].
  apply Forall_forall. intros k Hk%elem_of_seqZ. lia.
Qed.

Lemma build_placement_ok : 0 <= records ->
  build_direct_index_placement info mm = failed \/
  exists pl, build_direct_index_placement info mm = Ok pl /\ placed pl (seqZ 0 records).
Proof.
  intros Hr0. unfold build_direct_index_placement. rewrite (proj2 (Z.ltb_ge _ _)) by lia.
  rewrite (proj2 (checked_mul64_Some _ _ _)) by (split; [done|lia]). cbn [ok_or obind].
  assert (placed (replicate (Z.to_nat (bins * slots)) EMPTY_SLOT) []) as H0.
  { split.
    - unfold lenZ. rewrite length_replicate. nia.
    - intros o e Ho%lookup_replicate. destruct Ho as [-> _]. done.
    - unfold occupied_slots, occupied. induction (Z.to_nat (bins * slots)) as [|k IH]; [done|]. cbn [replicate]. by rewrite filter_cons, decide_False by (intros Hn; by apply Hn). }
  cut (forall l pl rs, Forall (fun r => 0 <= r < records) l -> placed pl rs ->
    ofold (insert_index_record info mm) pl l = failed \/ exists pl', ofold (insert_index_record info mm) pl l = Ok pl' /\ placed pl' (l ++ rs)).
  { intros Hc. destruct (Hc (seqZ 0 records) _ [] ltac:(apply Forall_forall; intros r Hr%elem_of_seqZ; lia) H0) as [|(pl' & E & Hp)]; [by left|].
    right. rewrite app_nil_r in Hp. eauto. }
  intros l. induction l as [|r l IH]; intros pl rs Hl Hp; cbn [ofold]; [right; eauto|]. apply Forall_cons in Hl as [Hr Hl].
  destruct (insert_ok pl rs r Hp Hr) as [-> | (pl1 & -> & Hp1)]; cbn [obind]; [by left|].
  destruct (IH pl1 (r :: rs) Hl Hp1) as [|(pl' & E & [? ? Hrec'])]; [by left|]. right. exists pl'. split; [done|].
  split; [done|done|]. by rewrite Hrec', <-Permutation_middle.
Qed.

End Placed.

Lemma drop_zeros k n : 0 <= k <= n -> drop (Z.to_nat k) (zeros n) = zeros (n - k).
Proof. intros Hk. unfold zeros. rewrite drop_replicate. f_equal. lia. Qed.

(** ** Chunks *)

Section Chunks.
Context (s : DirectChunkPackedBlockReader).
Local Abbreviation md := (cs_metadata s).
Local Abbreviation per := (dm_items_per_block md).
Local Abbreviation total := (dm_total_items md).

Record chunk_source_ok : Prop := {
  ck_per : 0 < per;
  ck_size : dm_item_size md = DIRECT_CHUNK_RECORD_SIZE;
  ck_total : 0 <= total;
  ck_file : lenZ (cs_mmap s) = total * DIRECT_CHUNK_RECORD_SIZE;
  ck_bytes : bytes_ok (cs_mmap s);
  ck_blocks : dm_logical_blocks md = div_ceil total per;
  ck_payload : dm_block_payload_bytes md = DIRECT_CHUNK_RECORD_SIZE * per;
  ck_fit : DIRECT_CHUNK_RECORD_SIZE * per <= u64_max;
  ck_len : lenZ (cs_mmap s) <= u64_max
}.

(** Chunk [i] of the file. *)
Definition chunk_item (i : Z) : bytes := item_in (cs_mmap s) 0 DIRECT_CHUNK_RECORD_SIZE i.

Lemma chunk_item_length i : chunk_source_ok -> 0 <= i < total -> lenZ (chunk_item i) = DIRECT_CHUNK_RECORD_SIZE.
Proof. intros Hs Hi. eapply item_in_length; [done|done| |exact Hi]. destruct Hs. lia. Qed.

Lemma chunk_read_block_ok lb : chunk_source_ok -> 0 <= lb < dm_logical_blocks md ->
  chunk_read_block s lb = Ok (packed chunk_item total per DIRECT_CHUNK_RECORD_SIZE lb).
Proof.
  intros Hs Hlb. pose proof Hs as [Hper Hsz Ht Hf _ Hb Hp Hfit Hlen]. unfold DIRECT_CHUNK_RECORD_SIZE in *.
  unfold chunk_read_block. rewrite (proj2 (Z.leb_gt _ _)) by lia. rewrite Hb in Hlb.
  destruct (block_bounds total per Hper lb Ht Hlb) as (H1 & H2 & H3). unfold u64_max in *. unfold block_items in H2, H3.
  rewrite (mul64_small lb) by (unfold u64_max; nia). rewrite sub64_small by (unfold u64_max; nia).
  change (Z.min (total - lb * per) per) with (block_items total per lb) in *. rewrite Hsz.
  rewrite !mul64_small by (unfold u64_max; nia). rewrite add64_small by (unfold u64_max; nia).
  rewrite (proj2 (Z.ltb_ge _ _)) by nia. rewrite Hp.
  assert (zeros (40 * per) = zeros (block_items total per lb * 40) ++ zeros ((per - block_items total per lb) * 40)) as ->.
  { unfold zeros. rewrite <-replicate_add. f_equal. nia. }
  rewrite slice_prefix by (rewrite lenZ_zeros; lia). cbn [obind].
  replace (lb * per * 40 + block_items total per lb * 40 - lb * per * 40) with (block_items total per lb * 40) by lia.
  pose proof (items_in (cs_mmap s) 0 40 (lb * per) (block_items total per lb) total) as Hin. rewrite !Z.add_0_l in Hin.
  rewrite Hin by lia. cbn [obind]. change (item_in (cs_mmap s) 0 40) with chunk_item.
  pose proof (items_of_length chunk_item total 40 (fun i => chunk_item_length i Hs) (lb * per) (block_items total per lb)) as Hil.
  unfold copy_from_slice. rewrite lenZ_zeros, Hil, Z.eqb_refl by lia. cbn [obind].
  apply (splice_app [] (zeros (block_items total per lb * 40))); [done|]. by rewrite lenZ_zeros, Hil by lia.
Qed.

End Chunks.

Definition chunk_content (s : DirectChunkPackedBlockReader) : Z -> bytes :=
  packed (chunk_item s) (dm_total_items (cs_metadata s)) (dm_items_per_block (cs_metadata s)) DIRECT_CHUNK_RECORD_SIZE.

Lemma chunk_content_ok s lb : chunk_source_ok s -> 0 <= lb < dm_logical_blocks (cs_metadata s) ->
  lenZ (chunk_content s lb) = dm_block_payload_bytes (cs_metadata s) /\ bytes_ok (chunk_content s lb).
Proof.
  intros Hs Hlb. pose proof (fun i => chunk_item_length s i Hs) as Hil. destruct Hs as [Hper Hsz Ht Hf Hb Hbl Hp Hfit Hlen].
  rewrite Hbl in Hlb. split; [rewrite Hp; by apply packed_length|apply packed_bytes; try done].
  intros i _. by apply item_in_bytes.
Qed.

#[export] Instance chunk_lawful : LawfulSource DirectChunkPackedBlockReader := {|
  src_ok := chunk_source_ok;
  src_content := chunk_content;
  src_read_ok := fun s id Hs Hid => ex_intro _ s
    (conj (f_equal (fun o => (o, s)) (chunk_read_block_ok s id Hs Hid)) (conj Hs (conj eq_refl eq_refl)));
  src_content_ok := chunk_content_ok
|}.

(** ** Bins *)

Section Bins.
Context (s : DirectIndexPackedBlockReader).
Local Abbreviation md := (is_metadata s).
Local Abbreviation per := (dm_items_per_block md).
Local Abbreviation total := (dm_total_items md).
Local Abbreviation slots := (dti_slots_per_bin (is_info s)).
Local Abbreviation pl := (is_placement s).

Record index_source_ok : Prop := {
  ix_per : 0 < per;
  ix_slots : 0 < slots;
  ix_fns : 0 < dti_hash_fns (is_info s) <= dti_total_items (is_info s);
  ix_size : dm_item_size md = slots * DIRECT_INDEX_SLOT_SIZE;
  ix_total : total = dti_total_items (is_info s);
  ix_records : 0 <= dti_records (is_info s) <= u32_max;
  ix_file : lenZ (is_mmap s) = dti_records (is_info s) * DIRECT_INDEX_INPUT_RECORD_SIZE;
  ix_bytes : bytes_ok (is_mmap s);
  ix_blocks : dm_logical_blocks md = div_ceil total per;
  ix_payload : dm_block_payload_bytes md = dm_item_size md * per;
  ix_fit : dm_item_size md * per <= u64_max;
  ix_slots_fit : total * slots <= u64_max;
  ix_placed : placed (is_info s) (is_mmap s) pl (seqZ 0 (dti_records (is_info s)))
}.

(** The encoding of a slot and of a bin. *)
Definition slot_bytes (e : Z) : bytes := if e =? EMPTY_SLOT then zeros 26 else 1 :: record_at (is_mmap s) e.
Definition entry (b j : Z) : Z := default EMPTY_SLOT (pl !! Z.to_nat (b * slots + j)).
Definition bin_bytes (b : Z) : bytes := items_of (fun j => slot_bytes (entry b j)) 0 slots.

Context (Hs : index_source_ok).

Lemma is_record e : 0 <= e < dti_records (is_info s) ->
  index_record (is_mmap s) e = Ok (record_at (is_mmap s) e) /\ lenZ (record_at (is_mmap s) e) = 25 /\ bytes_ok (record_at (is_mmap s) e).
Proof. destruct Hs. apply index_record_ok; (done || lia). Qed.

Lemma entry_lookup b j : 0 <= b < total -> 0 <= j < slots -> indexZ pl (b * slots + j) = Ok (entry b j) /\
  (entry b j <> EMPTY_SLOT -> 0 <= entry b j < dti_records (is_info s) /\ b ∈ candidates (is_info s) (is_mmap s) (entry b j)).
Proof.
  intros Hb Hj. destruct Hs as [_ Hsl _ _ Htot _ _ _ _ _ _ _ [Hl Hh _]]. unfold entry, indexZ.
  rewrite (proj2 (Z.leb_le _ _)) by nia. destruct (pl !! Z.to_nat (b * slots + j)) as [e|] eqn:E; [|apply lookup_ge_None in E; unfold lenZ in *; nia].
  split; [done|]. cbn. intros He. destruct (Hh _ _ E He) as [Hr Hc]. split; [done|].
  rewrite Z2Nat.id, Z.add_comm, Z.div_add, Z.div_small in Hc by nia. done.
Qed.

Lemma slot_bytes_ok b j : 0 <= b < total -> 0 <= j < slots -> page_ok 26 (slot_bytes (entry b j)).
Proof.
  intros Hb Hj. destruct (entry_lookup b j Hb Hj) as [_ He]. unfold slot_bytes. destruct (_ =? _) eqn:E; zbool.
  - split; [done|apply zeros_ok].
  - destruct (is_record (entry b j)) as (_ & Hl & Hbo); [by apply He|]. split; [by rewrite lenZ_cons, Hl|]. by constructor; [words|].
Qed.

Lemma bin_bytes_length b : 0 <= b < total -> lenZ (bin_bytes b) = slots * 26.
Proof.
  intros Hb. destruct Hs. unfold bin_bytes. apply (items_of_length _ slots); [|lia..]. intros j Hj. by apply slot_bytes_ok.
Qed.

Lemma bin_bytes_bytes b : 0 <= b < total -> bytes_ok (bin_bytes b).
Proof.
  intros Hb. unfold bin_bytes, items_of. apply Forall_concat, Forall_fmap, Forall_forall. intros j Hj%elem_of_seqZ. cbn.
  apply slot_bytes_ok; [done|lia].
Qed.

Lemma encode_slot_ok b j pre old rest : 0 <= b < total -> 0 <= j < slots -> lenZ pre = j * 26 -> lenZ old = 26 ->
  encode_slot s (b * slots) (pre ++ old ++ rest) j = Ok (pre ++ slot_bytes (entry b j) ++ rest).
Proof.
  intros Hb Hj Hpre Hold. destruct Hs as [Hper Hsl _ Hsz _ _ _ _ _ _ Hfit Htf _]. unfold encode_slot.
  assert (slots * 26 <= u64_max) as Hsf by (unfold DIRECT_INDEX_SLOT_SIZE, DIRECT_INDEX_INPUT_RECORD_SIZE, DIRECT_SCRIPT_HASH_SIZE in Hsz; nia).
  rewrite add64_small by nia. destruct (entry_lookup b j Hb Hj) as [-> He]. cbn [obind].
  change DIRECT_INDEX_SLOT_SIZE with 26. rewrite mul64_small by lia. rewrite add64_small by lia.
  replace (j * 26 + 26 - j * 26) with 26 by lia. rewrite slice_app by lia. cbn [obind]. unfold slot_bytes.
  destruct (entry b j =? EMPTY_SLOT) eqn:E; zbool.
  - rewrite Hold. apply splice_app; [done|]. by rewrite lenZ_zeros.
  - destruct (is_record (entry b j)) as (-> & Hl & _); [by apply He|]. cbn [obind].
    destruct old as [|x old]; [done|]. rewrite lenZ_cons in Hold. unfold updateZ. rewrite lenZ_cons.
    rewrite (proj2 (andb_true_iff _ _)) by (split; lia). cbn [obind].
    change (<[Z.to_nat 0:=1]> (x :: old)) with (1 :: old). rewrite lenZ_cons. replace (1 + lenZ old - 1) with (lenZ old) by lia.
    rewrite (slice_suffix [1] old) by done. cbn [obind]. unfold copy_from_slice. rewrite Hl, (proj2 (Z.eqb_eq _ _)) by lia. cbn [obind].
    pose proof (splice_app [1] old (record_at (is_mmap s) (entry b j)) [] 1) as Hsp. rewrite !app_nil_r in Hsp. cbn [app] in Hsp.
    rewrite Hsp by (done || lia). cbn [obind]. apply splice_app; [done|]. rewrite !lenZ_cons, Hl. lia.
Qed.

Lemma encode_bin_ok b out : 0 <= b < total -> lenZ out = dm_item_size md -> encode_bin s b out = Ok (bin_bytes b).
Proof.
  intros Hb Ho. pose proof Hs as [Hper Hsl _ Hsz Htot _ _ _ _ _ Hfit Htf _]. unfold encode_bin. rewrite Ho, Z.eqb_refl. cbn [negb].
  rewrite (proj2 (checked_mul64_Some _ _ (b * slots))) by (split; [done|nia]). cbn [ok_or obind]. rewrite Hsz in Ho.
  change DIRECT_INDEX_SLOT_SIZE with 26 in Ho.
  rewrite (ofold_items (fun j => slot_bytes (entry b j)) slots 26 ltac:(lia)) with (start := 0); [|..|lia|lia|lia].
  - rewrite <-Ho. unfold lenZ. by rewrite Nat2Z.id, drop_all, app_nil_r.
  - intros j Hj. by apply slot_bytes_ok.
  - intros j pre old rest Hj Hpre Hold _. by apply encode_slot_ok.
Qed.

Lemma index_read_block_ok lb : 0 <= lb < dm_logical_blocks md ->
  index_read_block s lb = Ok (packed bin_bytes total per (dm_item_size md) lb).
Proof.
  intros Hlb. pose proof Hs as [Hper Hsl Hfn Hsz Htot _ _ _ Hbl Hpay Hfit Htf _]. unfold index_read_block.
  rewrite (proj2 (Z.leb_gt _ _)) by lia. rewrite Hbl in Hlb. assert (0 <= total) as Ht by lia.
  destruct (block_bounds total per Hper lb Ht Hlb) as (H1 & H2 & H3). unfold block_items in H2, H3.
  assert (total <= u64_max) as Htu by nia. assert (dm_item_size md = slots * 26) as Hsz' by exact Hsz.
  rewrite (mul64_small lb) by nia. rewrite sub64_small by nia. change (Z.min (total - lb * per) per) with (block_items total per lb) in *.
  rewrite (ofold_items bin_bytes total (dm_item_size md) ltac:(lia)) with (start := lb * per); [|..|lia|lia|].
  - unfold packed. do 2 f_equal. rewrite drop_zeros by nia. f_equal. rewrite Hpay. nia.
  - intros i Hi. rewrite Hsz'. by apply bin_bytes_length.
  - intros j pre old rest Hj Hpre Hold _. rewrite (add64_small (lb * per)) by nia. rewrite mul64_small by nia. rewrite add64_small by nia.
    replace (j * dm_item_size md + dm_item_size md - j * dm_item_size md) with (dm_item_size md) by lia.
    rewrite slice_app by lia. cbn [obind]. rewrite encode_bin_ok by lia. cbn [obind]. apply splice_app; [done|].
    rewrite bin_bytes_length by lia. lia.
  - rewrite Hpay. rewrite lenZ_zeros by nia. nia.
Qed.

End Bins.

Definition index_content (s : DirectIndexPackedBlockReader) : Z -> bytes :=
  packed (bin_bytes s) (dm_total_items (is_metadata s)) (dm_items_per_block (is_metadata s)) (dm_item_size (is_metadata s)).

Lemma index_content_ok s lb : index_source_ok s -> 0 <= lb < dm_logical_blocks (is_metadata s) ->
  lenZ (index_content s lb) = dm_block_payload_bytes (is_metadata s) /\ bytes_ok (index_content s lb).
Proof.
  intros Hs Hlb. pose proof (bin_bytes_length s Hs) as Hl. pose proof (bin_bytes_bytes s Hs) as Hb.
  pose proof Hs as [Hper Hsl Hfn Hsz Htot _ _ _ Hbl Hpay Hfit Htf _].
  change DIRECT_INDEX_SLOT_SIZE with 26 in Hsz. rewrite Hbl in Hlb. assert (forall i, 0 <= i < dm_total_items (is_metadata s) -> lenZ (bin_bytes s i) = dm_item_size (is_metadata s)) as Hl'.
  { intros i Hi. rewrite Hsz. by apply Hl. }
  split; [rewrite Hpay; apply packed_length|apply packed_bytes]; first [exact Hper|exact Hl'|exact Hb|exact Hlb|lia].
Qed.

#[export] Instance index_lawful : LawfulSource DirectIndexPackedBlockReader := {|
  src_ok := index_source_ok;
  src_content := index_content;
  src_read_ok := fun s id Hs Hid => ex_intro _ s
    (conj (f_equal (fun o => (o, s)) (index_read_block_ok s Hs id Hid)) (conj Hs (conj eq_refl eq_refl)));
  src_content_ok := index_content_ok
|}.

(** ** Reading the first of a list *)

Section First.
Context {A : Type} (P : A -> Prop) `{forall x, Decision (P x)}.

Definition first (l : list A) : option A := head (filter P l).

Lemma first_app l1 l2 : first (l1 ++ l2) = match first l1 with Some x => Some x | None => first l2 end.
Proof. unfold first. rewrite filter_app. by destruct (filter P l1). Qed.
Lemma first_singleton x : first [x] = if decide (P x) then Some x else None.
Proof. unfold first. rewrite filter_cons. by destruct (decide (P x)). Qed.
Lemma first_Some l x : first l = Some x -> P x /\ x ∈ l.
Proof. unfold first. intros Hx%head_Some_elem_of. by apply list_elem_of_filter in Hx. Qed.
Lemma first_None l : first l = None -> forall x, x ∈ l -> ~ P x.
Proof.
  unfold first. intros Hn x Hx Hp. assert (x ∈ filter P l) as Hf by (by apply list_elem_of_filter).
  destruct (filter P l); [by apply not_elem_of_nil in Hf|done].
Qed.

End First.

(** ** Records *)

(** The fields of an index record: 20 bytes of script hash, the first chunk id and
    the number of chunks. *)
Definition record_hash (r : bytes) : bytes := take 20 r.
Definition record_start (r : bytes) : Z := from_le (take 4 (drop 20 r)).
Definition record_chunks (r : bytes) : Z := default 0 (r !! 24%nat).

(** The loop over the bytes of the two hashes. *)
Lemma hash_diff x r sh : lenZ r = 25 -> lenZ sh = 20 -> bytes_ok r -> bytes_ok sh ->
  exists d, ofold (fun diff i => let? a := indexZ (x :: r) (1 + i) in let? b := indexZ sh i in Ok (Z.lor diff (Z.lxor a b)))
      0 (seqZ 0 DIRECT_SCRIPT_HASH_SIZE) = Ok d /\ (d = 0 <-> record_hash r = sh).
Proof.
  intros Hr Hsh Hrb Hshb. destruct (ofold_prefix_inv
    (fun before d => 0 <= d /\ (d = 0 <-> take (length before) r = take (length before) sh))
    (fun diff i => let? a := indexZ (x :: r) (1 + i) in let? b := indexZ sh i in Ok (Z.lor diff (Z.lxor a b)))
    (seqZ 0 DIRECT_SCRIPT_HASH_SIZE) 0) as (d & E & _ & Hd).
  - intros before i after d El [Hd0 Hd]. apply seqZ_split in El as [Hi Hir]. unfold DIRECT_SCRIPT_HASH_SIZE in Hir.
    rewrite Z.add_0_l in Hi. unfold lenZ in *. assert (length before = Z.to_nat i) as Hb by lia.
    destruct (lookup_lt_is_Some_2 r (Z.to_nat i) ltac:(lia)) as [a Ha]. destruct (lookup_lt_is_Some_2 sh (Z.to_nat i) ltac:(lia)) as [b Hbb].
    rewrite (indexZ_lookup (x :: r) (1 + i) a) by (lia || (replace (Z.to_nat (1 + i)) with (Datatypes.S (Z.to_nat i)) by lia; done)).
    rewrite (indexZ_lookup sh i b) by (lia || done). cbn [obind]. eexists. split; [reflexivity|].
    pose proof (Forall_lookup_1 _ _ _ _ Hrb Ha) as Ha8. pose proof (Forall_lookup_1 _ _ _ _ Hshb Hbb) as Hb8.
    assert (0 <= Z.lxor a b) as Hx by (apply Z.lxor_nonneg; words). split; [by apply Z.lor_nonneg|].
    rewrite Z.lor_eq_0_iff, Hd, Z.lxor_eq_0_iff, length_app, Hb. cbn [length]. rewrite Nat.add_1_r.
    rewrite (take_S_r r _ a), (take_S_r sh _ b) by done. split.
    + by intros [-> ->].
    + intros Hap%app_inj_2; [|done]. destruct Hap as [? [= ?]]. by split.
  - split; [done|]. cbn. by rewrite !take_0.
  - exists d. split; [exact E|]. rewrite length_seqZ in Hd. change (Z.to_nat DIRECT_SCRIPT_HASH_SIZE) with 20%nat in Hd.
    unfold record_hash. rewrite (take_ge sh) in Hd by (unfold lenZ in *; lia). exact Hd.
Qed.

(** ** Scanning slots *)

Section Scan.
Context `{SubtleLaws} (s : DirectIndexPackedBlockReader) (Hs : index_source_ok s) (sh : bytes).
Context (Hsh : lenZ sh = DIRECT_SCRIPT_HASH_SIZE) (Hshb : bytes_ok sh).
Local Abbreviation slots := (dti_slots_per_bin (is_info s)).
Local Abbreviation total := (dm_total_items (is_metadata s)).
Local Abbreviation rec e := (record_at (is_mmap s) e).

(** An entry holds a record of the script hash. *)
Definition entry_matches (e : Z) : Prop := e <> EMPTY_SLOT /\ record_hash (rec e) = sh.
#[global] Instance entry_matches_dec e : Decision (entry_matches e).
Proof. unfold entry_matches. apply _. Defined.

Definition bin_entries (b : Z) : list Z := (fun j => entry s b j) <$> seqZ 0 slots.
Definition scan (es : list Z) : option Z := first entry_matches es.

(** What the three moved values hold when the scan has found [o]. *)
Definition sel_is (sel : selection) (o : option Z) : Prop :=
  truth (sel_found sel) = bool_decide (is_Some o) /\
  sel_start sel = match o with Some e => record_start (rec e) | None => 0 end /\
  sel_num sel = match o with Some e => record_chunks (rec e) | None => 0 end.

(** The parts of an occupied slot. *)
Lemma slot_fields x r : lenZ r = 25 ->
  indexZ (x :: r) 0 = Ok x /\ slice (x :: r) 21 4 = Ok (take 4 (drop 20 r)) /\ indexZ (x :: r) 25 = Ok (record_chunks r).
Proof.
  intros Hr. split; [done|]. unfold slice, indexZ, lenZ in *. cbn [length]. rewrite (proj2 (andb_true_iff _ _)) by lia.
  split; [done|]. unfold record_chunks. change (Z.to_nat 25) with 25%nat. change ((x :: r) !! 25%nat) with (r !! 24%nat).
  destruct (lookup_lt_is_Some_2 r 24%nat ltac:(lia)) as [c ->]. done.
Qed.

Lemma select_slot_ok b j sel es : 0 <= b < total -> 0 <= j < slots -> sel_is sel (scan es) ->
  exists sel', select_slot (bin_bytes s b) sh sel j = Ok sel' /\ sel_is sel' (scan (es ++ [entry s b j])).
Proof.
  intros Hb Hj (Hf & Hst & Hn). pose proof (slot_bytes_ok s Hs b j Hb Hj) as Hslot.
  destruct Hs as [Hper Hsl _ Hsz _ _ _ _ _ _ Hfit _ _]. unfold select_slot. change DIRECT_INDEX_SLOT_SIZE with 26 in *.
  rewrite mul64_small by nia. rewrite add64_small by nia. replace (j * 26 + 26 - j * 26) with 26 by lia.
  pose proof (items_of_slice (fun j => slot_bytes s (entry s b j)) slots 26) as Hsli.
  specialize (Hsli (fun i Hi => proj1 (slot_bytes_ok s Hs b i Hb Hi)) 0 slots j []).
  rewrite app_nil_r, !Z.add_0_l in Hsli. unfold bin_bytes. rewrite Hsli by lia. cbn [obind]. clear Hsli.
  unfold scan. rewrite first_app, first_singleton. fold (scan es).
  assert (exists x r, slot_bytes s (entry s b j) = x :: r /\ lenZ r = 25 /\ bytes_ok r /\
    (x =? 1) = bool_decide (entry s b j <> EMPTY_SLOT) /\ (entry s b j <> EMPTY_SLOT -> r = rec (entry s b j))) as (x & r & Esl & Hr & Hrb & Hx & Hre).
  { unfold slot_bytes in *. destruct (entry s b j =? EMPTY_SLOT) eqn:E; zbool.
    - exists 0, (zeros 25). split_and!; [done|done|apply zeros_ok|by rewrite bool_decide_eq_false_2 by (intros Hne; by apply Hne)|done].
    - destruct Hslot as [Hl Hbo]. rewrite lenZ_cons in Hl. apply Forall_cons in Hbo as [_ Hbo].
      eexists _, _. split_and!; [done|lia|done|by rewrite bool_decide_eq_true_2|done]. }
  rewrite Esl. destruct (slot_fields x r Hr) as (-> & Hstart & Hchunks). cbn [obind].
  destruct (hash_diff x r sh Hr Hsh Hrb Hshb) as (d & -> & Hd). cbn [obind]. rewrite Hstart. cbn [obind]. rewrite Hchunks. cbn [obind].
  eexists. split; [reflexivity|]. split_and!; cbn [sel_found sel_start sel_num]; ct_simpl; rewrite Hf, ?Hst, ?Hn.
  all: destruct (scan es) as [e|] eqn:Ee;
    [rewrite (bool_decide_eq_true_2 (is_Some (Some e))) by done; cbn [negb]; rewrite ?andb_false_r; done|].
  all: rewrite (bool_decide_eq_false_2 (is_Some None)) by (by intros []); cbn [negb orb]; rewrite andb_true_r, Hx.
  all: destruct (decide (entry_matches (entry s b j))) as [[Hne Hm]|Hno].
  all: try (rewrite (bool_decide_eq_true_2 (entry s b j <> EMPTY_SLOT)) by done;
    rewrite (proj2 (Z.eqb_eq d 0)) by (apply Hd; by rewrite Hre); cbn [andb]; rewrite ?Hre by done; done).
  all: case_bool_decide as Hne; cbn [andb]; [|done].
  all: rewrite (proj2 (Z.eqb_neq d 0)); [done|]; intros Hd0%Hd; apply Hno; split; [done|by rewrite <-Hre].
Qed.

(** A whole bin. *)
Lemma select_bin_ok b sel es : 0 <= b < total -> sel_is sel (scan es) ->
  exists sel', select_index_record_from_bin (bin_bytes s b) slots sh sel = Ok sel' /\ sel_is sel' (scan (es ++ bin_entries b)).
Proof.
  intros Hb Hsel. unfold select_index_record_from_bin. rewrite bin_bytes_length by done. change DIRECT_INDEX_SLOT_SIZE with 26.
  pose proof Hs as [Hper Hsl _ Hsz _ _ _ _ _ _ Hfit _ _]. change DIRECT_INDEX_SLOT_SIZE with 26 in *.
  rewrite mul64_small, Z.eqb_refl by nia. cbn [negb].
  apply (ofold_prefix_inv (fun before sel => sel_is sel (scan (es ++ ((fun j => entry s b j) <$> before))))).
  - intros before j after sel1 El Hsel1. apply seqZ_split in El as [_ Hj].
    destruct (select_slot_ok b j sel1 _ Hb Hj Hsel1) as (sel' & E & Hsel'). exists sel'. split; [done|].
    by rewrite fmap_app, app_assoc.
  - by rewrite app_nil_r.
Qed.

(** The entry of the script hash, looked for in the bins as the scan does. *)
Definition index_answer (bins : list Z) : option Z := scan (bins ≫= bin_entries).

Lemma entries_in_bin b e : 0 <= b < total -> e ∈ bin_entries b -> e <> EMPTY_SLOT -> 0 <= e < dti_records (is_info s).
Proof. intros Hb (j & -> & Hj%elem_of_seqZ)%list_elem_of_fmap He. apply (entry_lookup s Hs b j); [done|lia|done]. Qed.

Lemma record_hash_slice r : lenZ r = 25 -> script_hash_from_record r = Ok (record_hash r).
Proof. intros Hr. unfold script_hash_from_record, slice. by rewrite (proj2 (andb_true_iff _ _)) by (rewrite Hr; done). Qed.

(** Over the candidate bins of the hash the scan finds a record of it, when there is one. *)
Lemma index_answer_spec bins :
  direct_index_candidate_bins sh (dti_seed (is_info s)) (dti_hash_fns (is_info s)) (dti_total_items (is_info s)) = Ok bins ->
  Forall (fun b => 0 <= b < total) bins ->
  match index_answer bins with
  | Some r => 0 <= r < dti_records (is_info s) /\ record_hash (rec r) = sh
  | None => forall r, 0 <= r < dti_records (is_info s) -> record_hash (rec r) <> sh
  end.
Proof.
  intros Hbins Hin. rewrite Forall_forall in Hin. unfold index_answer, scan. destruct (first _ _) as [r|] eqn:E.
  - apply first_Some in E as [[Hne Hm] (b & Hr & Hb)%list_elem_of_bind]. split; [|done]. eapply entries_in_bin; [by apply Hin|done|done].
  - intros r Hr Hm. pose proof Hs as [_ Hsl Hfn _ Htot Hrec Hfile Hmb _ _ _ Hsf [Hpl Hh Hperm]].
    assert (r ∈ occupied_slots (is_placement s)) as Hocc by (rewrite Hperm; apply elem_of_seqZ; lia).
    apply elem_of_occupied in Hocc as [Hne Hocc]. apply list_elem_of_lookup in Hocc as [o Ho].
    destruct (Hh _ _ Ho Hne) as [_ Hc].
    assert (candidates (is_info s) (is_mmap s) r = bins) as Ec.
    { unfold candidates, record_bins. destruct (is_record s Hs r Hr) as (-> & Hl & _). cbn [obind]. rewrite record_hash_slice by done.
      cbn [obind]. by rewrite Hm, Hbins. }
    rewrite Ec in Hc. pose proof (Hin _ Hc) as Hb. apply (first_None entry_matches _ E r); [|by split].
    apply list_elem_of_bind. exists (Z.of_nat o / slots). split; [|done]. apply list_elem_of_fmap.
    exists (Z.of_nat o mod slots). pose proof (Z.mod_pos_bound (Z.of_nat o) slots Hsl) as Hmod. split; [|apply elem_of_seqZ; lia].
    unfold entry. replace (Z.to_nat (Z.of_nat o / slots * slots + Z.of_nat o mod slots)) with o; [by rewrite Ho|].
    pose proof (Z.div_mod (Z.of_nat o) slots ltac:(lia)). nia.
Qed.

End Scan.
