(* ===== verification/OramReads.v ===== *)
(** * Reading a table through the controller

    The steps every table reader is made of: an access or a batch of reads on a
    controller that stores an array, then a drain. *)

From S2P Require Import Prelude Ct Params Store Schedule Stash Rng State Circuit Blocks CircuitInv CircuitOps.
From S2P Require Import CircuitSpec.

Lemma arr_get_map (f : Z -> bytes) n i : 0 <= i < n -> arr_get (f <$> seqZ 0 n) i = f i.
Proof.
  intros Hi. unfold arr_get. rewrite list_lookup_fmap, (proj2 (lookup_seqZ 0 n (Z.to_nat i) i)) by lia. done.
Qed.

Section Reads.
Context `{SL : SubtleLaws} {MS PS R : Type}.
Context `{LM : LawfulPathStore MS} `{LP : LawfulPathStore PS} `{Rng R}.
Local Abbreviation Oram := (CircuitOram MS PS R).

(** The controller stores [A] and [k] more accesses fit its counters; with [ready] they
    also fit its stash, whatever stays in it. *)
Definition stores (k : Z) (o : Oram) (A : list bytes) : Prop := (exists T, oram_inv o A T) /\ can_record k (schedule o).
Definition ready (k : Z) (o : Oram) (A : list bytes) : Prop :=
  (exists T, oram_inv o A T) /\ can_record k (schedule o) /\ lenZ (occ (stash o)) + k <= stash_capacity (co_params o).

Lemma can_record_spent k m n s : 0 <= k -> schedule_ok s -> can_record (k + m) s -> can_record m (advance n (issue k s)).
Proof. intros Hk [] [Hc Hi]. unfold can_record, advance, issue. cbn. rewrite <-!Z.add_assoc. done. Qed.

(** The error of a full stash. *)
Definition stash_full (p : OramParams) : Error := StashOverflow (stash_capacity p + 1) (stash_capacity p).

Lemma read_cases k (o : Oram) A id budget :
  stores (1 + k) o A -> 0 <= k -> 0 <= id < lenZ A -> 0 <= budget ->
  (exists o1 o2 n, read id o = (Ok (arr_get A id), o1) /\ drain_evictions budget o1 = (Ok n, o2) /\ stores k o2 A /\
     co_params o2 = co_params o /\ lenZ (occ (stash o2)) <= lenZ (occ (stash o)) + 1) \/
  (stash_capacity (co_params o) <= lenZ (occ (stash o)) /\ exists o1, read id o = (Err (stash_full (co_params o)), o1)).
Proof.
  intros ([T Ho] & Hrec) Hk Hid Hb. pose proof (oi_schedule _ _ _ Ho) as Hs.
  destruct (access_spec o A T id (fun b => b) Ho Hid) as [(o1 & T1 & E1 & Ho1 & Hp1 & _ & _ & Hs1 & Hl1)|(Hfull & o1 & E1 & _)];
    [by intros|by apply can_record_split in Hrec as [? _]| |right; split; [lia|by exists o1]].
  rewrite arr_set_get in Ho1. destruct (drain_evictions_spec o1 A T1 budget Ho1 Hb) as (o2 & T2 & E2 & Ho2 & Hp2 & _ & _ & Hs2 & Hl2).
  left. exists o1, o2, (Z.min budget (debt (schedule o1))). split; [exact E1|]. split; [exact E2|]. split; [split; [by exists T2|]|].
  - rewrite Hs2, Hs1. by apply can_record_spent.
  - split; [congruence|lia].
Qed.

Lemma read_then_drain k (o : Oram) A id budget :
  ready (1 + k) o A -> 0 <= k -> 0 <= id < lenZ A -> 0 <= budget ->
  exists o1 o2 n, read id o = (Ok (arr_get A id), o1) /\ drain_evictions budget o1 = (Ok n, o2) /\ ready k o2 A.
Proof.
  intros (Ho & Hrec & Hroom) Hk Hid Hb.
  destruct (read_cases k o A id budget) as [(o1 & o2 & n & E1 & E2 & [Ho2 Hrec2] & Hp & Hl)|[Hfull _]]; try done; [|lia].
  exists o1, o2, n. split; [done|]. split; [done|]. split; [done|]. split; [done|]. rewrite Hp. lia.
Qed.

Lemma batch_cases k (o : Oram) A ids budget :
  stores (lenZ ids + k) o A -> 0 <= k -> Forall (fun id => 0 <= id < lenZ A) ids -> 0 <= budget ->
  (exists o1 o2 n, read_batch ids o = (Ok (arr_get A <$> ids), o1) /\ drain_evictions budget o1 = (Ok n, o2) /\ stores k o2 A /\
     co_params o2 = co_params o /\ lenZ (occ (stash o2)) <= lenZ (occ (stash o)) + lenZ ids /\
     n = Z.min budget (debt (issue (lenZ ids) (schedule o))) /\ schedule o2 = advance n (issue (lenZ ids) (schedule o)) /\
     rng o2 = (leaf_stream (co_params o) (length ids) (rng o)).2) \/
  (stash_capacity (co_params o) < lenZ (occ (stash o)) + lenZ ids /\
   exists o1, read_batch ids o = (Err (stash_full (co_params o)), o1)).
Proof.
  intros ([T Ho] & Hrec) Hk Hids Hb. pose proof (oi_schedule _ _ _ Ho) as Hs. pose proof (lenZ_nonneg ids) as Hl0.
  pose proof (access_batch_spec o A T ids (fun (u : unit) _ pl => (u, pl)) tt Ho Hids ltac:(by intros)
    ltac:(eapply can_record_mono; [|done|exact Hrec]; lia)) as Hspec.
  rewrite spec_batch_reads in Hspec. destruct Hspec as [(o1 & T1 & E1 & Ho1 & Hp1 & _ & Hr1 & Hs1 & Hl1 & _)|([Hfull _] & o1 & E1 & _)].
  - destruct (drain_evictions_spec o1 A T1 budget Ho1 Hb) as (o2 & T2 & E2 & Ho2 & Hp2 & _ & Hr2 & Hs2 & Hl2). rewrite Hs1 in *.
    left. eexists o1, o2, _. split; [unfold read_batch; by rewrite (bind_eq _ _ _ _ _ E1)|]. split; [exact E2|].
    split; [|split_and!; [congruence|lia|done|done|by rewrite Hr2]]. split; [by exists T2|]. rewrite Hs2. by apply can_record_spent.
  - right. split; [done|]. exists o1. unfold read_batch. by rewrite (bind_err _ _ _ _ _ E1).
Qed.

Lemma batch_then_drain k (o : Oram) A ids budget :
  ready (lenZ ids + k) o A -> 0 <= k -> Forall (fun id => 0 <= id < lenZ A) ids -> 0 <= budget ->
  exists o1 o2 n, read_batch ids o = (Ok (arr_get A <$> ids), o1) /\ drain_evictions budget o1 = (Ok n, o2) /\ ready k o2 A /\
    n = Z.min budget (debt (issue (lenZ ids) (schedule o))) /\ schedule o2 = advance n (issue (lenZ ids) (schedule o)) /\
    rng o2 = (leaf_stream (co_params o) (length ids) (rng o)).2.
Proof.
  intros (Ho & Hrec & Hroom) Hk Hids Hb.
  destruct (batch_cases k o A ids budget) as [(o1 & o2 & n & E1 & E2 & [Ho2 Hrec2] & Hp & Hl & Hn & Hs & Hg)|[Hfull _]]; try done; [|lia].
  exists o1, o2, n. split; [done|]. split; [done|]. split; [|done]. split; [done|]. split; [done|]. rewrite Hp. lia.
Qed.

(** Dummy accesses spend what a batch of as many reads spends. *)
Lemma dummies_then_drain k (o : Oram) A count budget :
  ready (count + k) o A -> 0 <= k -> 0 <= count -> 0 <= budget ->
  exists o1 o2 n, dummy_access_batch count o = (Ok tt, o1) /\ drain_evictions budget o1 = (Ok n, o2) /\ ready k o2 A /\
    n = Z.min budget (debt (issue count (schedule o))) /\ schedule o2 = advance n (issue count (schedule o)) /\
    rng o2 = (leaf_stream (co_params o) (Z.to_nat count) (rng o)).2.
Proof.
  intros ([T Ho] & Hrec & Hroom) Hk Hc Hb. pose proof (oi_schedule _ _ _ Ho) as Hs.
  destruct (dummy_access_batch_spec o A T count Ho Hc) as (o1 & E1 & Ho1 & Hp1 & _ & Hst1 & Hr1 & Hs1).
  { eapply can_record_mono; [|done|exact Hrec]. lia. }
  destruct (drain_evictions_spec o1 A T budget Ho1 Hb) as (o2 & T2 & E2 & Ho2 & Hp2 & _ & Hr2 & Hs2 & Hl2). rewrite Hs1 in *.
  eexists o1, o2, _. split; [exact E1|]. split; [exact E2|].
  split; [|split_and!; [done|done|by rewrite Hr2]]. split; [by exists T2|]. rewrite Hs2, Hp2, Hp1. split; [by apply can_record_spent|].
  rewrite Hst1 in Hl2. lia.
Qed.

Lemma ready_mono k k' (o : Oram) A : 0 <= k' <= k -> ready k o A -> ready k' o A.
Proof.
  intros Hk ([T Ho] & Hrec & Hroom). split; [by exists T|]. split; [|lia]. eapply can_record_mono; [exact Hk|apply Ho|done].
Qed.

End Reads.
