(* ===== verification/DirectReader.v ===== *)
(** * Reading direct tables through the controller ([src/src/direct.rs])

    The readers wrap a [CircuitOram] that holds the packed blocks of a table: INDEX
    lookups read every candidate bin of a script hash, one access after the other or
    as one batch, CHUNK reads fetch chunks by id, and dummy reads spend the same
    accesses on random paths. *)

From S2P Require Import Prelude Ct Params Store Rng Circuit CandidateBins Direct IndexTable.

(** Mirror of [struct DirectIndexLookup] and [struct DirectIndexBatchLookup]. *)
Record DirectIndexLookup : Type := mkLookup {
  lk_script_hash : bytes;
  lk_found : bool;
  lk_start_chunk_id : Z;
  lk_num_chunks : Z;
  lk_candidate_bins : list Z;
  lk_logical_blocks : list Z;
  lk_drained_evictions : Z
}.
Record DirectIndexBatchLookup : Type := mkBatchLookup { bl_lookups : list DirectIndexLookup; bl_drained_evictions : Z }.

(** Mirror of [struct DirectChunkRead] and [struct DirectChunkBatchRead]. *)
Record DirectChunkRead : Type := mkChunkRead {
  cr_chunk_id : Z;
  cr_logical_block : Z;
  cr_byte_offset : Z;
  cr_payload : bytes;
  cr_drained_evictions : Z
}.
Record DirectChunkBatchRead : Type := mkChunkBatch { cb_reads : list DirectChunkRead; cb_drained_evictions : Z }.

(** Mirror of [struct CircuitDirectIndexReader] and [struct CircuitDirectChunkReader]. *)
Record CircuitDirectIndexReader (MS PS R : Type) : Type := mkIndexReader {
  ir_metadata : DirectTableMetadata;
  ir_oram : CircuitOram MS PS R
}.
Arguments mkIndexReader {MS PS R}. Arguments ir_metadata {MS PS R}. Arguments ir_oram {MS PS R}.
Record CircuitDirectChunkReader (MS PS R : Type) : Type := mkChunkReader {
  ch_metadata : DirectTableMetadata;
  ch_oram : CircuitOram MS PS R
}.
Arguments mkChunkReader {MS PS R}. Arguments ch_metadata {MS PS R}. Arguments ch_oram {MS PS R}.

Section Readers.
Context `{Subtle} {MS PS R : Type} `{PathPageStore MS} `{PathPageStore PS} `{Rng R}.
Local Abbreviation IR := (CircuitDirectIndexReader MS PS R).
Local Abbreviation CR := (CircuitDirectChunkReader MS PS R).

Definition set_ir_oram (o : CircuitOram MS PS R) (s : IR) : IR := mkIndexReader (ir_metadata s) o.
Definition on_ir_oram {A} (m : M (CircuitOram MS PS R) A) : M IR A := zoom ir_oram set_ir_oram m.
Definition set_ch_oram (o : CircuitOram MS PS R) (s : CR) : CR := mkChunkReader (ch_metadata s) o.
Definition on_ch_oram {A} (m : M (CircuitOram MS PS R) A) : M CR A := zoom ch_oram set_ch_oram m.

(** ** INDEX *)

(** [CircuitDirectIndexReader::new] *)
Definition index_reader_new (metadata : DirectTableMetadata) (oram : CircuitOram MS PS R) : outcome IR :=
  let? _ := direct_validate metadata in
  let? _ := guardo (bool_decide (dm_level metadata = DirectIndex)) (InvalidInput "CircuitDirectIndexReader requires index metadata") in
  let? _ := validate_oram_dimensions metadata oram in
  Ok (mkIndexReader metadata oram).

Definition locate_in (md : DirectTableMetadata) (item_id : Z) : outcome PackedDirectItemLocation :=
  locate_packed_direct_item (dm_total_items md) (dm_items_per_block md) (dm_item_size md) item_id.
Definition bins_in (md : DirectTableMetadata) (script_hash : bytes) : outcome (list Z) :=
  direct_index_candidate_bins script_hash (dm_seed md) (dm_hash_fns md) (dm_total_items md).
Definition empty_selection : selection := mkSelection (choice_from_bool false) 0 0.

(** The body of the loop of [lookup] *)
Definition lookup_bin (script_hash : bytes) (drain_per_read : Z) (acc : selection * list Z * Z) (bin_id : Z)
    : M IR (selection * list Z * Z) :=
  let '(sel, logical_blocks, drained_evictions) := acc in
  let* md := gets ir_metadata in
  let* location := lift (locate_in md bin_id) in
  let* block := on_ir_oram (read (il_logical_block location)) in
  let logical_blocks := logical_blocks ++ [il_logical_block location] in
  let* bin := lift (item_range block location) in
  let* sel := lift (select_index_record_from_bin bin (dm_slots_per_bin md) script_hash sel) in
  let* n := on_ir_oram (drain_evictions drain_per_read) in
  ret (sel, logical_blocks, add64 drained_evictions n).

(** [CircuitDirectIndexReader::lookup] *)
Definition lookup (script_hash : bytes) (drain_per_read : Z) : M IR DirectIndexLookup :=
  let* md := gets ir_metadata in
  let* candidate_bins := lift (bins_in md script_hash) in
  let* acc := foldM (lookup_bin script_hash drain_per_read) (empty_selection, [], 0) candidate_bins in
  let '(sel, logical_blocks, drained_evictions) := acc in
  ret (mkLookup script_hash (bool_from (sel_found sel)) (sel_start sel) (sel_num sel) candidate_bins logical_blocks drained_evictions).

(** The first loop of [lookup_many_batched]: candidates and locations of each hash *)
Definition plan_lookup (md : DirectTableMetadata) (script_hash : bytes) : outcome (list Z * list PackedDirectItemLocation) :=
  let? candidate_bins := bins_in md script_hash in
  let? locations := omap_m (locate_in md) candidate_bins in
  Ok (candidate_bins, locations).

(** The inner loop over the locations of one lookup; the blocks come from an iterator *)
Definition scan_location (md : DirectTableMetadata) (script_hash : bytes) (acc : selection * list Z * list bytes)
    (location : PackedDirectItemLocation) : outcome (selection * list Z * list bytes) :=
  let '(sel, logical_blocks, blocks) := acc in
  match blocks with
  | [] => Panic
  | block :: blocks =>
      let? bin := item_range block location in
      let? sel := select_index_record_from_bin bin (dm_slots_per_bin md) script_hash sel in
      Ok (sel, logical_blocks ++ [il_logical_block location], blocks)
  end.

(** The second loop *)
Definition scan_lookup (md : DirectTableMetadata) (acc : list DirectIndexLookup * list bytes)
    (request : bytes * (list Z * list PackedDirectItemLocation)) : outcome (list DirectIndexLookup * list bytes) :=
  let '(lookups, blocks) := acc in
  let '(script_hash, (candidate_bins, locations)) := request in
  let? r := ofold (scan_location md script_hash) (empty_selection, [], blocks) locations in
  let '(sel, logical_blocks, blocks) := r in
  Ok (lookups ++ [mkLookup script_hash (bool_from (sel_found sel)) (sel_start sel) (sel_num sel) candidate_bins logical_blocks 0], blocks).

(** [CircuitDirectIndexReader::lookup_many_batched] *)
Definition lookup_many_batched (script_hashes : list bytes) (drain_per_read : Z) : M IR DirectIndexBatchLookup :=
  let* md := gets ir_metadata in
  let* plans := lift (omap_m (plan_lookup md) script_hashes) in
  let flat_logical_ids := il_logical_block <$> concat (snd <$> plans) in
  let* blocks := on_ir_oram (read_batch flat_logical_ids) in
  let* r := lift (ofold (scan_lookup md) ([], blocks) (zip script_hashes plans)) in
  let* drained_evictions := on_ir_oram (drain_evictions (mul64 drain_per_read (lenZ flat_logical_ids))) in
  ret (mkBatchLookup r.1 drained_evictions).

(** [CircuitDirectIndexReader::lookup_batched] *)
Definition lookup_batched (script_hash : bytes) (drain_per_read : Z) : M IR DirectIndexLookup :=
  let* batch := lookup_many_batched [script_hash] drain_per_read in
  match last (bl_lookups batch) with
  | Some l => ret (mkLookup (lk_script_hash l) (lk_found l) (lk_start_chunk_id l) (lk_num_chunks l) (lk_candidate_bins l)
                     (lk_logical_blocks l) (bl_drained_evictions batch))
  | None => panic
  end.

(** [read_dummy_candidate], [read_dummy_candidates], [lookup_dummy], [lookup_dummy_many] *)
Definition read_dummy_candidate (drain_per_read : Z) : M IR Z :=
  let* _ := on_ir_oram dummy_access in on_ir_oram (drain_evictions drain_per_read).
Definition read_dummy_candidates (count drain_per_read : Z) : M IR Z :=
  let* _ := on_ir_oram (dummy_access_batch count) in on_ir_oram (drain_evictions (mul64 drain_per_read count)).
Definition lookup_dummy (drain_per_read : Z) : M IR Z :=
  let* md := gets ir_metadata in read_dummy_candidates (dm_hash_fns md) drain_per_read.
Definition lookup_dummy_many (lookups drain_per_read : Z) : M IR Z :=
  let* md := gets ir_metadata in read_dummy_candidates (mul64 (dm_hash_fns md) lookups) drain_per_read.

(** ** CHUNK *)

(** [CircuitDirectChunkReader::new] *)
Definition chunk_reader_new (metadata : DirectTableMetadata) (oram : CircuitOram MS PS R) : outcome CR :=
  let? _ := direct_validate metadata in
  let? _ := guardo (bool_decide (dm_level metadata = DirectChunk)) (InvalidInput "CircuitDirectChunkReader requires chunk metadata") in
  let? _ := validate_oram_dimensions metadata oram in
  Ok (mkChunkReader metadata oram).

(** [CircuitDirectChunkReader::read_chunk] *)
Definition read_chunk (chunk_id drain_per_access : Z) : M CR DirectChunkRead :=
  let* md := gets ch_metadata in
  let* location := lift (locate_in md chunk_id) in
  let* block := on_ch_oram (read (il_logical_block location)) in
  let* payload := lift (item_range block location) in
  let* drained_evictions := on_ch_oram (drain_evictions drain_per_access) in
  ret (mkChunkRead chunk_id (il_logical_block location) (il_byte_offset location) payload drained_evictions).

(** [CircuitDirectChunkReader::read_chunks] *)
Definition read_chunks (chunk_ids : list Z) (drain_per_access : Z) : M CR DirectChunkBatchRead :=
  let* md := gets ch_metadata in
  let* locations := lift (omap_m (locate_in md) chunk_ids) in
  let* blocks := on_ch_oram (read_batch (il_logical_block <$> locations)) in
  let* drained := on_ch_oram (drain_evictions (mul64 drain_per_access (lenZ chunk_ids))) in
  let* reads := lift (omap_m (fun clb : Z * PackedDirectItemLocation * bytes =>
      let '(chunk_id, location, block) := clb in
      let? payload := item_range block location in
      Ok (mkChunkRead chunk_id (il_logical_block location) (il_byte_offset location) payload 0))
    (zip (zip chunk_ids locations) blocks)) in
  ret (mkChunkBatch reads drained).

(** [read_dummy] and [read_dummy_many] *)
Definition read_dummy (drain_per_access : Z) : M CR Z :=
  let* _ := on_ch_oram dummy_access in on_ch_oram (drain_evictions drain_per_access).
Definition read_dummy_many (count drain_per_access : Z) : M CR Z :=
  let* _ := on_ch_oram (dummy_access_batch count) in on_ch_oram (drain_evictions (mul64 drain_per_access count)).

End Readers.
