(* ===== verification/DirectLookup.v ===== *)
(** * Lookups through the controller return the table

    A reader whose controller stores the packed blocks of a table reads items of the
    table: every step is an access of the array the controller is (the controller's
    specification) followed by cutting an item out of a block. *)

From S2P Require Import Prelude Ct Params Store Schedule Stash Rng State Circuit Blocks CircuitInv CircuitOps.
From S2P Require Import Build BuildProofs CircuitSpec OramReads SealedState Float64 CandidateBins Direct Packed.
From S2P Require Import IndexTable IndexProofs DirectReader.

(** ** Items of a table *)

Lemma locate_in_ok md i : 0 < dm_items_per_block md -> 0 < dm_item_size md -> dm_item_size md * dm_items_per_block md <= u64_max ->
  0 <= i < dm_total_items md ->
  locate_in md i = Ok (mkItemLocation (i / dm_items_per_block md) (i mod dm_items_per_block md * dm_item_size md) (dm_item_size md)).
Proof.
  intros Hp Hs Hf Hi. unfold locate_in, locate_packed_direct_item. pose proof (Z.mod_pos_bound i _ Hp).
  rewrite (proj2 (Z.eqb_neq _ _)), (proj2 (Z.eqb_neq (dm_item_size md) 0)), (proj2 (Z.leb_gt _ _)) by lia.
  by rewrite mul64_small by nia.
Qed.

Lemma item_range_packed item total per size i :
  0 < per -> 0 < size -> size * per <= u64_max -> (forall i, 0 <= i < total -> lenZ (item i) = size) -> 0 <= i < total ->
  item_range (packed item total per size (i / per)) (mkItemLocation (i / per) (i mod per * size) size) = Ok (item i).
Proof.
  intros Hp Hs Hf Hit Hi. unfold item_range. cbn [il_byte_offset il_byte_len]. pose proof (Z.mod_pos_bound i _ Hp).
  rewrite add64_small by nia. replace (i mod per * size + size - i mod per * size) with size by lia. by apply packed_item.
Qed.

(** ** INDEX lookups *)

Definition index_array (s : DirectIndexPackedBlockReader) : list bytes := index_content s <$> seqZ 0 (dm_logical_blocks (is_metadata s)).

(** The candidate bins of a hash and the outcome of its lookup. *)
Definition hash_bins (s : DirectIndexPackedBlockReader) (sh : bytes) : list Z :=
  match bins_in (is_metadata s) sh with Ok bins => bins | _ => [] end.
Definition lookup_of (s : DirectIndexPackedBlockReader) (sh : bytes) (drained : Z) : DirectIndexLookup :=
  let ans := index_answer s sh (hash_bins s sh) in
  mkLookup sh (bool_decide (is_Some ans))
    (match ans with Some r => record_start (record_at (is_mmap s) r) | None => 0 end)
    (match ans with Some r => record_chunks (record_at (is_mmap s) r) | None => 0 end)
    (hash_bins s sh) ((fun b => b / dm_items_per_block (is_metadata s)) <$> hash_bins s sh) drained.

Section Index.
Context `{SL : SubtleLaws} {MS PS R : Type}.
Context `{LM : LawfulPathStore MS} `{LP : LawfulPathStore PS} `{Rng R}.
Local Abbreviation IR := (CircuitDirectIndexReader MS PS R).

Lemma on_ir_oram_eq {A} (m : M (CircuitOram MS PS R) A) (rd : IR) r o : m (ir_oram rd) = (r, o) -> on_ir_oram m rd = (r, set_ir_oram o rd).
Proof. apply zoom_eq. Qed.

(** The reader is that of the source's table. *)
Record index_reader_ok (s : DirectIndexPackedBlockReader) (rd : IR) : Prop := {
  ro_source : index_source_ok s;
  ro_meta : ir_metadata rd = is_metadata s;
  ro_info : from_info (is_info s) (dm_items_per_block (is_metadata s)) = Ok (is_metadata s)
}.

Context (s : DirectIndexPackedBlockReader) (Hsrc : index_source_ok s).
Context (Hinfo : from_info (is_info s) (dm_items_per_block (is_metadata s)) = Ok (is_metadata s)).
Local Abbreviation md := (is_metadata s).
Local Abbreviation total := (dm_total_items md).
Local Abbreviation per := (dm_items_per_block md).
Local Abbreviation fns := (dti_hash_fns (is_info s)).

Lemma meta_fields : dm_slots_per_bin md = dti_slots_per_bin (is_info s) /\ dm_hash_fns md = fns /\ dm_seed md = dti_seed (is_info s).
Proof.
  unfold from_info in Hinfo. destruct (per =? 0); [done|]. apply Ok_inj in Hinfo.
  split_and!; [set (f := dm_slots_per_bin)|set (f := dm_hash_fns)|set (f := dm_seed)]; by rewrite <-Hinfo.
Qed.

Lemma hash_bins_ok sh : lenZ sh = DIRECT_SCRIPT_HASH_SIZE -> bytes_ok sh ->
  bins_in md sh = Ok (hash_bins s sh) /\ bins_ok fns total (hash_bins s sh).
Proof.
  intros Hl Hb. destruct meta_fields as (_ & Hf & Hsd). pose proof Hsrc as [_ Hsl Hfn _ Htot _ _ _ _ _ _ Hsf _]. unfold hash_bins, bins_in.
  rewrite Hf, Hsd. destruct (candidate_bins_total sh (dti_seed (is_info s)) fns total Hl Hb) as (out & -> & Hout).
  - by rewrite Htot.
  - unfold u64_max in Hsf. nia.
  - by split.
Qed.

Lemma bin_location b : 0 <= b < total ->
  locate_in md b = Ok (mkItemLocation (b / per) (b mod per * dm_item_size md) (dm_item_size md)) /\
  0 <= b / per < lenZ (index_array s) /\
  item_range (arr_get (index_array s) (b / per)) (mkItemLocation (b / per) (b mod per * dm_item_size md) (dm_item_size md)) = Ok (bin_bytes s b).
Proof.
  intros Hb. pose proof Hsrc as [Hper Hsl _ Hsz _ _ _ _ Hbl _ Hfit _ _]. assert (0 < dm_item_size md) as Hsz0 by (rewrite Hsz; change DIRECT_INDEX_SLOT_SIZE with 26; lia).
  pose proof (item_block total per Hper b Hb) as Hblk. rewrite <-Hbl in Hblk. split; [by apply locate_in_ok|].
  split; [unfold index_array; rewrite lenZ_fmap; unfold lenZ; rewrite length_seqZ; lia|]. unfold index_array.
  rewrite arr_get_map by done. apply item_range_packed; try done. intros i Hi. rewrite Hsz. by apply bin_bytes_length.
Qed.

(** The selection the scans start from. *)
Lemma empty_sel_is sh : sel_is s empty_selection (scan s sh []).
Proof. unfold sel_is, empty_selection. cbn [sel_found sel_start sel_num]. by rewrite truth_from_bool. Qed.

Lemma sel_lookup sh sel drained lbs : sel_is s sel (scan s sh (hash_bins s sh ≫= bin_entries s)) ->
  lbs = (fun b => b / per) <$> hash_bins s sh ->
  mkLookup sh (bool_from (sel_found sel)) (sel_start sel) (sel_num sel) (hash_bins s sh) lbs drained = lookup_of s sh drained.
Proof. intros (Hf & Hst & Hn) ->. unfold lookup_of, index_answer. by rewrite truth_bool_from, Hf, Hst, Hn. Qed.

Lemma lookup_ok (rd : IR) sh drain k : ir_metadata rd = md -> lenZ sh = DIRECT_SCRIPT_HASH_SIZE -> bytes_ok sh -> 0 <= drain -> 0 <= k ->
  ready (fns + k) (ir_oram rd) (index_array s) ->
  exists d rd', lookup sh drain rd = (Ok (lookup_of s sh d), rd') /\ ir_metadata rd' = md /\ ready k (ir_oram rd') (index_array s).
Proof.
  intros Hmd Hl Hb Hdr Hk Hrdy. destruct (hash_bins_ok sh Hl Hb) as (Hbins & _ & Hin & Hlen). rewrite Forall_forall in Hin.
  destruct meta_fields as (Hslots & _ & _). unfold lookup. rewrite bind_gets, Hmd, bind_lift, Hbins.
  destruct (foldM_inv (fun before (acc : selection * list Z * Z) (rd : IR) =>
      ir_metadata rd = md /\ sel_is s acc.1.1 (scan s sh (before ≫= bin_entries s)) /\ acc.1.2 = ((fun b => b / per) <$> before) /\
      ready (fns - lenZ before + k) (ir_oram rd) (index_array s))
    (lookup_bin sh drain) (hash_bins s sh) (empty_selection, [], 0) rd) as ([[sel lbs] d] & rd' & E & Hm & Hsel & Hlbs & Hr).
  - intros before b after [[sel lbs] d] r El (Hm & Hsel & Hlbs & Hr). cbn [fst snd] in *.
    assert (0 <= b < total) as Hbr by (apply Hin; rewrite El; set_solver). destruct (bin_location b Hbr) as (Hloc & Hblk & Hitem).
    assert (lenZ before + 1 <= fns) as Hlt by (rewrite <-Hlen, El, lenZ_app, lenZ_cons; pose proof (lenZ_nonneg after); lia).
    unfold lookup_bin. rewrite bind_gets, Hm, bind_lift, Hloc. cbn [il_logical_block].
    destruct (read_then_drain (fns - lenZ before - 1 + k) (ir_oram r) (index_array s) (b / per) drain) as (o1 & o2 & n & E1 & E2 & Hr2); [|lia|done|done|].
    { replace (1 + (fns - lenZ before - 1 + k)) with (fns - lenZ before + k) by lia. done. }
    rewrite (bind_eq _ _ _ _ _ (on_ir_oram_eq _ r _ _ E1)). rewrite bind_lift, Hitem, bind_lift, Hslots.
    destruct (select_bin_ok s Hsrc sh Hl Hb b sel _ Hbr Hsel) as (sel' & -> & Hsel').
    rewrite (bind_eq _ _ _ _ _ (on_ir_oram_eq _ (set_ir_oram o1 r) _ _ E2)). eexists _, _. split; [reflexivity|]. cbn [fst snd].
    split; [exact Hm|]. split; [by rewrite bind_app; cbn; rewrite app_nil_r|]. split; [by rewrite Hlbs, fmap_app|].
    rewrite lenZ_app, lenZ_cons. change (lenZ []) with 0. replace (fns - (lenZ before + (1 + 0)) + k) with (fns - lenZ before - 1 + k) by lia. exact Hr2.
  - cbn [fst snd]. split; [done|]. split; [apply empty_sel_is|]. split; [done|]. change (lenZ []) with 0. by rewrite Z.sub_0_r.
  - rewrite (bind_eq _ _ _ _ _ E). cbn [fst snd] in *. exists d, rd'. unfold ret. rewrite (sel_lookup sh sel d lbs Hsel Hlbs).
    split; [done|]. split; [done|]. by rewrite Hlen, Z.sub_diag in Hr.
Qed.

(** ** Batches *)

Definition bin_place (b : Z) : PackedDirectItemLocation := mkItemLocation (b / per) (b mod per * dm_item_size md) (dm_item_size md).
Definition hash_ids (sh : bytes) : list Z := (fun b => b / per) <$> hash_bins s sh.
Definition hash_ok (sh : bytes) : Prop := lenZ sh = DIRECT_SCRIPT_HASH_SIZE /\ bytes_ok sh.

Lemma plan_lookup_ok sh : hash_ok sh -> plan_lookup md sh = Ok (hash_bins s sh, bin_place <$> hash_bins s sh).
Proof.
  intros [Hl Hb]. destruct (hash_bins_ok sh Hl Hb) as (Hbins & _ & Hin & _). rewrite Forall_forall in Hin.
  unfold plan_lookup. rewrite Hbins. cbn [obind].
  by rewrite (omap_m_pure _ bin_place) by (intros b Hbb; apply bin_location, Hin, Hbb).
Qed.

(** The scan of one lookup takes its blocks off the list. *)
Lemma scan_locations_ok sh rest : hash_ok sh ->
  exists sel, ofold (scan_location md sh) (empty_selection, [], (arr_get (index_array s) <$> hash_ids sh) ++ rest) (bin_place <$> hash_bins s sh) =
      Ok (sel, hash_ids sh, rest) /\ sel_is s sel (scan s sh (hash_bins s sh ≫= bin_entries s)).
Proof.
  intros [Hl Hb]. destruct (hash_bins_ok sh Hl Hb) as (_ & _ & Hin & _). destruct meta_fields as (Hslots & _ & _). unfold hash_ids.
  cut (forall bins done sel lbs, Forall (fun b => 0 <= b < total) bins -> sel_is s sel (scan s sh (done ≫= bin_entries s)) ->
    exists sel', ofold (scan_location md sh) (sel, lbs, (arr_get (index_array s) <$> ((fun b => b / per) <$> bins)) ++ rest) (bin_place <$> bins) =
      Ok (sel', lbs ++ ((fun b => b / per) <$> bins), rest) /\ sel_is s sel' (scan s sh ((done ++ bins) ≫= bin_entries s))).
  { intros Hc. destruct (Hc (hash_bins s sh) [] empty_selection [] Hin (empty_sel_is sh)) as (sel & E & Hsel). by exists sel. }
  intros bins. induction bins as [|b bins IH]; intros bs sel lbs Hbs Hsel; cbn [ofold fmap list_fmap app].
  { exists sel. by rewrite !app_nil_r. }
  apply Forall_cons in Hbs as [Hbr Hbs]. destruct (bin_location b Hbr) as (_ & _ & Hitem). unfold scan_location at 1. fold (bin_place b) in Hitem.
  rewrite Hitem. cbn [obind]. rewrite Hslots. destruct (select_bin_ok s Hsrc sh Hl Hb b sel _ Hbr Hsel) as (sel1 & -> & Hsel1). cbn [obind].
  destruct (IH (bs ++ [b]) sel1 (lbs ++ [b / per]) Hbs) as (sel' & E & Hsel').
  { rewrite bind_app. cbn. by rewrite app_nil_r. }
  exists sel'. rewrite <-!app_assoc in *. by split.
Qed.

Lemma scan_lookups_ok shs rest lks : Forall hash_ok shs ->
  ofold (scan_lookup md) (lks, (arr_get (index_array s) <$> (shs ≫= hash_ids)) ++ rest)
    ((fun sh => (sh, (hash_bins s sh, bin_place <$> hash_bins s sh))) <$> shs) =
  Ok (lks ++ ((fun sh => lookup_of s sh 0) <$> shs), rest).
Proof.
  intros Hok. revert lks. induction Hok as [|sh shs Hsh _ IH]; intros lks; cbn [ofold fmap list_fmap mbind list_bind app]; [by rewrite app_nil_r|].
  rewrite fmap_app, <-app_assoc. unfold scan_lookup at 1. destruct (scan_locations_ok sh ((arr_get (index_array s) <$> (shs ≫= hash_ids)) ++ rest) Hsh) as (sel & -> & Hsel).
  cbn [obind]. rewrite (sel_lookup sh sel 0 (hash_ids sh) Hsel eq_refl), IH, <-app_assoc. done.
Qed.

Lemma hash_ids_length sh : hash_ok sh -> lenZ (hash_ids sh) = fns.
Proof. intros [Hl Hb]. destruct (hash_bins_ok sh Hl Hb) as (_ & _ & _ & Hlen). unfold hash_ids. by rewrite lenZ_fmap. Qed.

Lemma flat_length shs : Forall hash_ok shs -> lenZ (shs ≫= hash_ids) = fns * lenZ shs.
Proof.
  induction 1 as [|sh shs Hsh _ IH]; [by rewrite Z.mul_0_r|]. cbn [mbind list_bind]. rewrite lenZ_app, lenZ_cons, hash_ids_length by done.
  change (list_bind _ _ hash_ids shs) with (shs ≫= hash_ids). rewrite IH. lia.
Qed.

Lemma flat_range shs : Forall hash_ok shs -> Forall (fun id => 0 <= id < lenZ (index_array s)) (shs ≫= hash_ids).
Proof.
  intros Hok. apply Forall_forall. intros id (sh & (b & -> & Hb)%list_elem_of_fmap & Hsh)%list_elem_of_bind.
  rewrite Forall_forall in Hok. destruct (Hok sh Hsh) as [Hl Hbo]. destruct (hash_bins_ok sh Hl Hbo) as (_ & _ & Hin & _).
  rewrite Forall_forall in Hin. apply bin_location, Hin, Hb.
Qed.

Lemma flat_plan_ids shs : il_logical_block <$> concat (snd <$> ((fun sh => (hash_bins s sh, bin_place <$> hash_bins s sh)) <$> shs)) = shs ≫= hash_ids.
Proof.
  induction shs as [|sh shs IH]; [done|]. cbn [fmap list_fmap concat snd]. rewrite fmap_app. cbn [mbind list_bind]. f_equal; [|exact IH].
  unfold hash_ids. rewrite <-list_fmap_compose. done.
Qed.

Lemma zip_map {A B} (f : A -> B) l : zip l (f <$> l) = (fun x => (x, f x)) <$> l.
Proof. induction l as [|x l IH]; [done|]. cbn. by f_equal. Qed.

(** A batch of lookups is a batch of reads, the scans, and a drain. *)
Lemma lookup_many_run (rd : IR) shs drain o1 o2 n : ir_metadata rd = md -> Forall hash_ok shs ->
  read_batch (shs ≫= hash_ids) (ir_oram rd) = (Ok (arr_get (index_array s) <$> (shs ≫= hash_ids)), o1) ->
  drain_evictions (mul64 drain (fns * lenZ shs)) o1 = (Ok n, o2) ->
  lookup_many_batched shs drain rd = (Ok (mkBatchLookup ((fun sh => lookup_of s sh 0) <$> shs) n), set_ir_oram o2 rd).
Proof.
  intros Hmd Hok E1 E2. unfold lookup_many_batched. rewrite bind_gets, Hmd, bind_lift.
  rewrite (omap_m_pure (plan_lookup md) (fun sh => (hash_bins s sh, bin_place <$> hash_bins s sh)))
    by (intros sh Hsh; rewrite Forall_forall in Hok; by apply plan_lookup_ok, Hok).
  rewrite flat_plan_ids, (flat_length shs Hok). rewrite (bind_eq _ _ _ _ _ (on_ir_oram_eq _ rd _ _ E1)). rewrite bind_lift, zip_map.
  pose proof (scan_lookups_ok shs [] [] Hok) as Hsc. rewrite app_nil_r in Hsc. rewrite Hsc.
  by rewrite (bind_eq _ _ _ _ _ (on_ir_oram_eq _ (set_ir_oram o1 rd) _ _ E2)).
Qed.
Lemma lookup_many_fails (rd : IR) shs drain o1 e : ir_metadata rd = md -> Forall hash_ok shs ->
  read_batch (shs ≫= hash_ids) (ir_oram rd) = (Err e, o1) -> lookup_many_batched shs drain rd = (Err e, set_ir_oram o1 rd).
Proof.
  intros Hmd Hok E1. unfold lookup_many_batched. rewrite bind_gets, Hmd, bind_lift.
  rewrite (omap_m_pure (plan_lookup md) (fun sh => (hash_bins s sh, bin_place <$> hash_bins s sh)))
    by (intros sh Hsh; rewrite Forall_forall in Hok; by apply plan_lookup_ok, Hok).
  rewrite flat_plan_ids. by rewrite (bind_err _ _ _ _ _ (on_ir_oram_eq _ rd _ _ E1)).
Qed.

Lemma lookup_many_ok (rd : IR) shs drain k : ir_metadata rd = md -> Forall hash_ok shs -> 0 <= drain -> 0 <= k ->
  ready (fns * lenZ shs + k) (ir_oram rd) (index_array s) ->
  let budget := mul64 drain (fns * lenZ shs) in
  exists n o', lookup_many_batched shs drain rd = (Ok (mkBatchLookup ((fun sh => lookup_of s sh 0) <$> shs) n), set_ir_oram o' rd) /\
    ready k o' (index_array s) /\
    n = Z.min budget (debt (issue (fns * lenZ shs) (schedule (ir_oram rd)))) /\
    schedule o' = advance n (issue (fns * lenZ shs) (schedule (ir_oram rd))) /\
    rng o' = (leaf_stream (co_params (ir_oram rd)) (Z.to_nat (fns * lenZ shs)) (rng (ir_oram rd))).2.
Proof.
  intros Hmd Hok Hdr Hk Hrdy budget. pose proof (flat_length shs Hok) as Hfl. assert (0 <= budget) as Hbud by (apply Z.mod_pos_bound; done).
  destruct (batch_then_drain k (ir_oram rd) (index_array s) (shs ≫= hash_ids) budget) as (o1 & o2 & n & E1 & E2 & Hr & Hn & Hs & Hg);
    [by rewrite Hfl|done|by apply flat_range|done|].
  exists n, o2. split; [by eapply lookup_many_run|]. rewrite Hfl in *. split; [done|]. split; [done|]. split; [done|].
  rewrite Hg. do 2 f_equal. rewrite <-Hfl. unfold lenZ. lia.
Qed.

End Index.
