(* ===== verification/DirectSpec.v ===== *)
(** * What the direct tables promise

    The properties of [direct.rs] as a whole: a built INDEX source holds every record
    of its file in a candidate bin, a lookup through the controller answers as a
    dictionary of the file, batched lookups answer as single ones, dummy lookups
    spend what real ones spend, and chunk reads return the file's chunks. *)

From S2P Require Import Prelude Slots Ct Params Store Schedule Stash Rng State Circuit Blocks CircuitInv CircuitOps.
From S2P Require Import Build BuildProofs CircuitSpec OramReads SealedState Float64 CandidateBins Direct Packed.
From S2P Require Import IndexTable IndexProofs DirectReader DirectLookup.

(** ** The dictionary of a file *)

(** The record of [sh] in the table of [s], as start chunk and number of chunks. *)
Definition file_records (s : DirectIndexPackedBlockReader) : list bytes :=
  record_at (is_mmap s) <$> seqZ 0 (dti_records (is_info s)).
Definition file_dictionary (s : DirectIndexPackedBlockReader) : gmap bytes (Z * Z) :=
  list_to_map ((fun r => (record_hash r, (record_start r, record_chunks r))) <$> file_records s).
Definition set_drained (n : Z) (lk : DirectIndexLookup) : DirectIndexLookup :=
  mkLookup (lk_script_hash lk) (lk_found lk) (lk_start_chunk_id lk) (lk_num_chunks lk) (lk_candidate_bins lk) (lk_logical_blocks lk) n.
(** The answer of a lookup. *)
Definition answer (lk : DirectIndexLookup) : option (Z * Z) :=
  if lk_found lk then Some (lk_start_chunk_id lk, lk_num_chunks lk) else None.
Definition distinct_hashes (s : DirectIndexPackedBlockReader) : Prop := NoDup (record_hash <$> file_records s).

(** ** Opening a table *)

Section Open.
Context {O : Type} `{MmapLaws}.

Lemma no_fault (h : Host O) : faults h = [] -> next_fault h = (Ok None, h).
Proof. intros Hf. unfold next_fault. destruct h. cbn in *. by rewrite Hf. Qed.

Lemma fs_read_ok (path : FilePath) (h : Host O) b :
  faults h = [] -> files h !! render path = Some b -> fs_read path h = (Ok b, mkHost (files h) [] (os h)).
Proof. intros Hf Hb. unfold fs_read, next_fault, bind, gets. rewrite Hf. cbn [head tail default files]. by rewrite Hb. Qed.

Lemma open_mmap_ok (path : FilePath) (h : Host O) b :
  faults h = [] -> files h !! render path = Some b -> 0 < lenZ b -> exists h', open_mmap path h = (Ok b, h').
Proof.
  intros Hf Hb Hl. unfold open_mmap. rewrite (bind_eq _ _ _ _ _ (fs_read_ok path h b Hf Hb)).
  unfold next_fault, bind. cbn [head tail default faults files os]. rewrite mmap_ok by done. by eexists.
Qed.

Lemma from_index_file_ok path slots fns load seed (h : Host O) info h1 b :
  faults h = [] -> files h !! render path = Some b ->
  from_index_file path slots fns load seed h = (Ok info, h1) ->
  dti_level info = DirectIndex /\ dti_path info = path /\ lenZ b = dti_records info * DIRECT_INDEX_INPUT_RECORD_SIZE /\
  dti_slots_per_bin info = slots /\ dti_hash_fns info = fns /\ slots <> 0 /\ fns <> 0 /\
  dti_item_size info = mul64 slots DIRECT_INDEX_SLOT_SIZE /\ files h1 = files h /\ faults h1 = [].
Proof.
  intros Hf Hb. unfold from_index_file. rewrite bind_guardm. destruct (slots =? 0) eqn:E1; [done|]. cbn [negb].
  rewrite bind_guardm. destruct (fns =? 0) eqn:E2; [done|]. cbn [negb]. rewrite bind_guardm. destruct (f64_lt _ _ && _); [|done].
  unfold fs_len, next_fault, bind at 1 2 3, gets. rewrite Hf. cbn [head tail default files]. rewrite Hb. unfold ret at 1.
  rewrite bind_guardm. destruct (lenZ b mod _ =? 0) eqn:E3; [|done]. rewrite bind_lift.
  destruct (compute_direct_index_bins _ _ _); [|done..]. intros [= <- <-]. cbn. zbool.
  split_and!; try done. apply Z.div_exact in E3; [lia|done].
Qed.

End Open.

(** An element that satisfies a filter without repetitions has one index. *)
Lemma filter_NoDup_index {A} (P : A -> Prop) `{forall x, Decision (P x)} l o o' x :
  NoDup (filter P l) -> P x -> l !! o = Some x -> l !! o' = Some x -> o = o'.
Proof.
  intros Hnd Hx. revert o o'. induction l as [|y l IH]; intros o o'; [done|]. rewrite filter_cons in Hnd.
  assert (NoDup (filter P l)) as Hnd' by (destruct (decide (P y)); [by apply NoDup_cons in Hnd as []|done]).
  assert (forall i, y = x -> l !! i = Some x -> False) as Hy.
  { intros i -> Hi. rewrite decide_True in Hnd by done. apply NoDup_cons in Hnd as [Hn _]. apply Hn, list_elem_of_filter.
    split; [done|]. by eapply list_elem_of_lookup_2. }
  destruct o, o'; cbn; intros Ho Ho'; simplify_eq; [done|by destruct (Hy _ eq_refl Ho')|by destruct (Hy _ eq_refl Ho)|].
  f_equal. by apply IH.
Qed.

Lemma candidates_hash_bins s r : index_source_ok s ->
  from_info (is_info s) (dm_items_per_block (is_metadata s)) = Ok (is_metadata s) -> 0 <= r < dti_records (is_info s) ->
  candidates (is_info s) (is_mmap s) r = hash_bins s (record_hash (record_at (is_mmap s) r)).
Proof.
  intros Hs Hi Hr. destruct (meta_fields s Hi) as (_ & Hf & Hsd). unfold candidates, record_bins, hash_bins, bins_in.
  destruct (is_record s Hs r Hr) as (-> & Hl & _). cbn [obind]. rewrite record_hash_slice by done. cbn [obind]. rewrite Hf, Hsd.
  by rewrite (ix_total _ Hs).
Qed.

(** Every record sits in one slot. *)
Lemma record_slot s r : index_source_ok s ->
  from_info (is_info s) (dm_items_per_block (is_metadata s)) = Ok (is_metadata s) -> 0 <= r < dti_records (is_info s) ->
  exists! o, is_placement s !! o = Some r /\
    Z.of_nat o / dti_slots_per_bin (is_info s) ∈ hash_bins s (record_hash (record_at (is_mmap s) r)).
Proof.
  intros Hs Hi Hr. rewrite <-candidates_hash_bins by done. destruct (ix_placed _ Hs) as [_ Hh Hperm].
  assert (r ∈ occupied_slots (is_placement s)) as Hocc by (rewrite Hperm; apply elem_of_seqZ; lia).
  unfold occupied_slots, occupied in *. apply list_elem_of_filter in Hocc as [Hne Hin]. apply list_elem_of_lookup in Hin as [o Ho].
  exists o. split; [split; [done|by apply (Hh o)]|]. intros o' [Ho' _]. eapply (filter_NoDup_index (fun e => e <> EMPTY_SLOT)); [|exact Hne|exact Ho|exact Ho'].
  rewrite Hperm. apply NoDup_seqZ.
Qed.

Lemma index_build_ok {O} `{MmapLaws} info b per (h : Host O) :
  faults h = [] -> files h !! render (dti_path info) = Some b -> 0 < lenZ b -> bytes_ok b ->
  dti_level info = DirectIndex -> lenZ b = dti_records info * DIRECT_INDEX_INPUT_RECORD_SIZE ->
  dti_item_size info = mul64 (dti_slots_per_bin info) DIRECT_INDEX_SLOT_SIZE ->
  0 < dti_slots_per_bin info -> 0 < dti_hash_fns info <= dti_total_items info -> 0 < per -> dti_records info <= u32_max ->
  dti_total_items info * dti_slots_per_bin info <= u64_max -> dti_slots_per_bin info * DIRECT_INDEX_SLOT_SIZE * per <= u64_max ->
  (exists h', index_build info per h = (Err (InvalidInput
     "direct index cuckoo insertion failed after {} kicks; records={} bins={} slots_per_bin={} hash_fns={} load_factor={:.4}"), h')) \/
  (exists s h', index_build info per h = (Ok s, h') /\ index_source_ok s /\ is_mmap s = b /\ is_info s = info /\
     from_info info per = Ok (is_metadata s) /\ dm_items_per_block (is_metadata s) = per).
Proof.
  intros Hf Hb Hl Hbytes Hlev Hrec Hsz Hsl Hfn Hper Hr32 Hts Hfit.
  assert (0 <= dti_records info) as Hr0 by (change DIRECT_INDEX_INPUT_RECORD_SIZE with 25 in *; lia).
  change DIRECT_INDEX_SLOT_SIZE with 26 in *. rewrite mul64_small in Hsz by nia.
  unfold index_build. rewrite bind_guardm, bool_decide_eq_true_2 by done. destruct (open_mmap_ok _ h b Hf Hb Hl) as (h' & E).
  rewrite (bind_eq _ _ _ _ _ E), bind_lift.
  destruct (build_placement_ok info b Hrec Hbytes Hsl Hfn Hts Hr32 Hr0) as [-> | (pl & -> & Hp)]; [left; by exists h'|right].
  rewrite bind_lift. unfold from_info. rewrite (proj2 (Z.eqb_neq per 0)) by lia. eexists _, h'. split; [reflexivity|].
  split; [|done]. split; cbn; try done; try lia.
  by rewrite Hsz, mul64_small by nia.
Qed.

(** What a lookup answers. *)
Lemma elem_of_file_records s r : r ∈ file_records s <-> exists i, 0 <= i < dti_records (is_info s) /\ r = record_at (is_mmap s) i.
Proof.
  unfold file_records. rewrite list_elem_of_fmap. setoid_rewrite elem_of_seqZ. split; intros (i & H1 & H2); exists i; split; (done || lia).
Qed.

Lemma lookup_of_spec s sh d : index_source_ok s ->
  from_info (is_info s) (dm_items_per_block (is_metadata s)) = Ok (is_metadata s) -> lenZ sh = DIRECT_SCRIPT_HASH_SIZE -> bytes_ok sh ->
  let lk := lookup_of s sh d in
  if lk_found lk then exists r, r ∈ file_records s /\ record_hash r = sh /\ lk_start_chunk_id lk = record_start r /\ lk_num_chunks lk = record_chunks r
  else lk_start_chunk_id lk = 0 /\ lk_num_chunks lk = 0 /\ forall r, r ∈ file_records s -> record_hash r <> sh.
Proof.
  intros Hs Hi Hl Hb lk. destruct (hash_bins_ok s Hs Hi sh Hl Hb) as (E & _ & Hin & _). destruct (meta_fields s Hi) as (_ & Hf & Hsd).
  unfold bins_in in E. rewrite Hf, Hsd, (ix_total _ Hs) in E. pose proof (index_answer_spec s Hs sh (hash_bins s sh) E Hin) as Hans.
  unfold lk, lookup_of. cbn [lk_found lk_start_chunk_id lk_num_chunks]. destruct (index_answer s sh (hash_bins s sh)) as [e|]; cbn.
  - exists (record_at (is_mmap s) e). destruct Hans as [He Hh]. split_and!; try done. apply elem_of_file_records. eauto.
  - split_and!; try done. intros r (i & Hir & ->)%elem_of_file_records. by apply Hans.
Qed.

(** With distinct script hashes the answer is the dictionary's. *)
Lemma answer_dictionary s sh d : index_source_ok s -> distinct_hashes s ->
  from_info (is_info s) (dm_items_per_block (is_metadata s)) = Ok (is_metadata s) -> hash_ok sh ->
  answer (lookup_of s sh d) = file_dictionary s !! sh.
Proof.
  intros Hs Hnd Hi [Hl Hb]. pose proof (lookup_of_spec s sh d Hs Hi Hl Hb) as Hspec. cbv zeta in Hspec. unfold answer.
  assert (fst <$> ((fun r => (record_hash r, (record_start r, record_chunks r))) <$> file_records s) = record_hash <$> file_records s) as Efst
    by (by rewrite <-list_fmap_compose).
  destruct (lk_found _); symmetry; unfold file_dictionary.
  - destruct Hspec as (r & Hr & <- & -> & ->). apply elem_of_list_to_map_1; [by rewrite Efst|]. apply list_elem_of_fmap. by exists r.
  - apply not_elem_of_list_to_map_1. rewrite Efst. intros (r & -> & Hr)%list_elem_of_fmap. by eapply Hspec.
Qed.

(** ** CHUNK reads *)

Definition chunk_array (s : DirectChunkPackedBlockReader) : list bytes := chunk_content s <$> seqZ 0 (dm_logical_blocks (cs_metadata s)).
Definition chunk_read_of (s : DirectChunkPackedBlockReader) (id drained : Z) : DirectChunkRead :=
  let per := dm_items_per_block (cs_metadata s) in
  mkChunkRead id (id / per) (id mod per * DIRECT_CHUNK_RECORD_SIZE) (chunk_item s id) drained.

Section Chunk.
Context `{SL : SubtleLaws} {MS PS R : Type}.
Context `{LM : LawfulPathStore MS} `{LP : LawfulPathStore PS} `{Rng R}.
Local Abbreviation CR := (CircuitDirectChunkReader MS PS R).
Context (s : DirectChunkPackedBlockReader) (Hs : chunk_source_ok s).
Local Abbreviation md := (cs_metadata s).
Local Abbreviation per := (dm_items_per_block md).

Lemma on_ch_oram_eq {A} (m : M (CircuitOram MS PS R) A) (rd : CR) r o : m (ch_oram rd) = (r, o) -> on_ch_oram m rd = (r, set_ch_oram o rd).
Proof. apply zoom_eq. Qed.

Definition chunk_place (i : Z) : PackedDirectItemLocation :=
  mkItemLocation (i / per) (i mod per * DIRECT_CHUNK_RECORD_SIZE) DIRECT_CHUNK_RECORD_SIZE.

Lemma chunk_location i : 0 <= i < dm_total_items md ->
  locate_in md i = Ok (chunk_place i) /\ 0 <= i / per < lenZ (chunk_array s) /\
  item_range (arr_get (chunk_array s) (i / per)) (chunk_place i) = Ok (chunk_item s i).
Proof.
  intros Hi. pose proof Hs as [Hper Hsz Ht Hf _ Hbl Hp Hfit Hlen]. unfold chunk_place, chunk_array. pose proof (item_block _ per Hper i Hi) as Hblk.
  rewrite <-Hbl in Hblk. split; [rewrite <-Hsz; apply locate_in_ok; rewrite ?Hsz; done|].
  split; [rewrite lenZ_fmap; unfold lenZ; rewrite length_seqZ; lia|]. rewrite arr_get_map by done.
  apply item_range_packed; try done. intros j Hj. by apply chunk_item_length.
Qed.

Lemma read_chunk_ok (rd : CR) id drain k : ch_metadata rd = md -> 0 <= id < dm_total_items md -> 0 <= drain -> 0 <= k ->
  ready (1 + k) (ch_oram rd) (chunk_array s) ->
  exists n o', read_chunk id drain rd = (Ok (chunk_read_of s id n), set_ch_oram o' rd) /\ ready k o' (chunk_array s).
Proof.
  intros Hm Hid Hd Hk Hr. destruct (chunk_location id Hid) as (Hloc & Hb & Hitem). unfold read_chunk. rewrite bind_gets, Hm, bind_lift, Hloc.
  destruct (read_then_drain k _ _ (id / per) drain Hr Hk Hb Hd) as (o1 & o2 & n & E1 & E2 & Hr2).
  rewrite (bind_eq _ _ _ _ _ (on_ch_oram_eq _ rd _ _ E1)), bind_lift, Hitem.
  rewrite (bind_eq _ _ _ _ _ (on_ch_oram_eq _ (set_ch_oram o1 rd) _ _ E2)). by exists n, o2.
Qed.

(** A batch of chunk reads is a batch of block reads, a drain, and the cuts. *)
Definition chunk_blocks (ids : list Z) : list Z := (fun i => i / per) <$> ids.
Lemma chunk_blocks_range ids : Forall (fun id => 0 <= id < dm_total_items md) ids ->
  Forall (fun id => 0 <= id < lenZ (chunk_array s)) (chunk_blocks ids).
Proof. intros Hids. apply Forall_fmap. eapply Forall_impl; [exact Hids|]. intros i Hi. by apply chunk_location. Qed.

Lemma chunk_locations ids : Forall (fun id => 0 <= id < dm_total_items md) ids ->
  omap_m (locate_in md) ids = Ok (chunk_place <$> ids) /\ il_logical_block <$> (chunk_place <$> ids) = chunk_blocks ids.
Proof.
  intros Hids. rewrite Forall_forall in Hids. split; [apply omap_m_pure; intros i Hi; by apply chunk_location, Hids|].
  by rewrite <-list_fmap_compose.
Qed.

Lemma read_chunks_run (rd : CR) ids drain o1 o2 n : ch_metadata rd = md -> Forall (fun id => 0 <= id < dm_total_items md) ids ->
  read_batch (chunk_blocks ids) (ch_oram rd) = (Ok (arr_get (chunk_array s) <$> chunk_blocks ids), o1) ->
  drain_evictions (mul64 drain (lenZ ids)) o1 = (Ok n, o2) ->
  read_chunks ids drain rd = (Ok (mkChunkBatch ((fun id => chunk_read_of s id 0) <$> ids) n), set_ch_oram o2 rd).
Proof.
  intros Hm Hids E1 E2. destruct (chunk_locations ids Hids) as [El Eb]. rewrite Forall_forall in Hids.
  unfold read_chunks. rewrite bind_gets, Hm, bind_lift, El, Eb.
  rewrite (bind_eq _ _ _ _ _ (on_ch_oram_eq _ rd _ _ E1)), (bind_eq _ _ _ _ _ (on_ch_oram_eq _ (set_ch_oram o1 rd) _ _ E2)), bind_lift.
  assert (zip (zip ids (chunk_place <$> ids)) (arr_get (chunk_array s) <$> chunk_blocks ids) =
    (fun i => (i, chunk_place i, arr_get (chunk_array s) (i / per))) <$> ids) as ->
    by (unfold chunk_blocks; clear; induction ids as [|i ids IH]; cbn; by f_equal).
  assert (omap_m (fun clb : Z * PackedDirectItemLocation * bytes => let '(chunk_id, location, block) := clb in
      let? payload := item_range block location in
      Ok (mkChunkRead chunk_id (il_logical_block location) (il_byte_offset location) payload 0))
    ((fun i => (i, chunk_place i, arr_get (chunk_array s) (i / per))) <$> ids) = Ok ((fun id => chunk_read_of s id 0) <$> ids)) as ->; [|done].
  apply omap_m_Ok, Forall2_fmap, Forall_Forall2_diag, Forall_forall. intros i Hi.
  by destruct (chunk_location i (Hids i Hi)) as (_ & _ & ->).
Qed.
Lemma read_chunks_fails (rd : CR) ids drain o1 e : ch_metadata rd = md -> Forall (fun id => 0 <= id < dm_total_items md) ids ->
  read_batch (chunk_blocks ids) (ch_oram rd) = (Err e, o1) -> read_chunks ids drain rd = (Err e, set_ch_oram o1 rd).
Proof.
  intros Hm Hids E1. destruct (chunk_locations ids Hids) as [El Eb]. unfold read_chunks. rewrite bind_gets, Hm, bind_lift, El, Eb.
  by rewrite (bind_err _ _ _ _ _ (on_ch_oram_eq _ rd _ _ E1)).
Qed.

Lemma read_chunks_ok (rd : CR) ids drain k : ch_metadata rd = md -> Forall (fun id => 0 <= id < dm_total_items md) ids -> 0 <= drain -> 0 <= k ->
  ready (lenZ ids + k) (ch_oram rd) (chunk_array s) ->
  exists n o', read_chunks ids drain rd = (Ok (mkChunkBatch ((fun id => chunk_read_of s id 0) <$> ids) n), set_ch_oram o' rd) /\
    ready k o' (chunk_array s).
Proof.
  intros Hm Hids Hd Hk Hr.
  destruct (batch_then_drain k (ch_oram rd) (chunk_array s) (chunk_blocks ids) (mul64 drain (lenZ ids))) as (o1 & o2 & n & E1 & E2 & Hr2 & _).
  - unfold chunk_blocks. by rewrite lenZ_fmap.
  - done.
  - by apply chunk_blocks_range.
  - by apply Z.mod_pos_bound.
  - exists n, o2. split; [by eapply read_chunks_run|done].
Qed.

End Chunk.

(** ** Properties *)

Section Properties.
Context `{SL : SubtleLaws} {MS PS R O : Type}.
Context `{LM : LawfulPathStore MS} `{LP : LawfulPathStore PS} `{Rng R} `{MmapLaws}.
Local Abbreviation IR := (CircuitDirectIndexReader MS PS R).
Local Abbreviation CR := (CircuitDirectChunkReader MS PS R).

(** C18: opening an INDEX file and building its table gives, unless the insertions
    run out of kicks, a source in which every record of the file sits in exactly one
    slot, in one of the candidate bins of its script hash, and whose blocks are well
    formed. *)
Theorem index_table_places_records path slots fns load seed per (h h1 : Host O) info b :
  faults h = [] -> files h !! render path = Some b -> 0 < lenZ b -> bytes_ok b ->
  from_index_file path slots fns load seed h = (Ok info, h1) ->
  0 < slots -> 0 < fns <= dti_total_items info -> 0 < per -> dti_records info <= u32_max ->
  dti_total_items info * slots <= u64_max -> slots * DIRECT_INDEX_SLOT_SIZE * per <= u64_max ->
  (exists h2, index_build info per h1 = (Err (InvalidInput
     "direct index cuckoo insertion failed after {} kicks; records={} bins={} slots_per_bin={} hash_fns={} load_factor={:.4}"), h2)) \/
  (exists s h2, index_build info per h1 = (Ok s, h2) /\ index_source_ok s /\ is_mmap s = b /\ is_info s = info /\
     from_info info per = Ok (is_metadata s) /\ dm_items_per_block (is_metadata s) = per /\
     (forall r, 0 <= r < dti_records info ->
        exists! o, is_placement s !! o = Some r /\ Z.of_nat o / slots ∈ hash_bins s (record_hash (record_at b r)))).
Proof.
  intros Hf Hb Hl Hbytes E Hsl Hfn Hper Hr32 Hts Hfit.
  destruct (from_index_file_ok path slots fns load seed h info h1 b Hf Hb E) as (Hlev & Hpath & Hrec & <- & <- & _ & _ & Hsz & Hfiles & Hf1).
  destruct (index_build_ok info b per h1) as [[h2 E2]|(s & h2 & E2 & Hs & <- & <- & Hi & <-)]; try done; [by rewrite Hfiles, Hpath|left; eauto|].
  right. exists s, h2. split_and!; try done. intros r Hr. by apply record_slot.
Qed.

(** An INDEX lookup through a controller that stores the table reports a script
    hash as found exactly when the file has a record of it, with that record's first
    chunk and number of chunks and zeros otherwise; the candidate bins are distinct
    bins of the table and the reader is left ready for the rest of its accesses. *)
Theorem direct_index_lookup_correct (s : DirectIndexPackedBlockReader) (rd : IR) sh drain k :
  index_reader_ok s rd -> lenZ sh = DIRECT_SCRIPT_HASH_SIZE -> bytes_ok sh -> 0 <= drain -> 0 <= k ->
  ready (dti_hash_fns (is_info s) + k) (ir_oram rd) (index_array s) ->
  exists lk rd', lookup sh drain rd = (Ok lk, rd') /\ index_reader_ok s rd' /\ ready k (ir_oram rd') (index_array s) /\
    lk_script_hash lk = sh /\ bins_ok (dti_hash_fns (is_info s)) (dm_total_items (is_metadata s)) (lk_candidate_bins lk) /\
    lk_logical_blocks lk = (fun b => b / dm_items_per_block (is_metadata s)) <$> lk_candidate_bins lk /\
    (lk_found lk = true -> exists r, r ∈ file_records s /\ record_hash r = sh /\
       lk_start_chunk_id lk = record_start r /\ lk_num_chunks lk = record_chunks r) /\
    (lk_found lk = false -> lk_start_chunk_id lk = 0 /\ lk_num_chunks lk = 0 /\
       forall r, r ∈ file_records s -> record_hash r <> sh).
Proof.
  intros [Hs Hm Hi] Hl Hb Hd Hk Hr. destruct (lookup_ok s Hs Hi rd sh drain k Hm Hl Hb Hd Hk Hr) as (d & rd' & E & Hm' & Hr').
  exists (lookup_of s sh d), rd'. destruct (hash_bins_ok s Hs Hi sh Hl Hb) as [_ Hbins].
  split; [done|]. split; [by split|]. split; [done|]. split; [done|]. split; [done|]. split; [done|].
  pose proof (lookup_of_spec s sh d Hs Hi Hl Hb) as Hspec. cbv zeta in Hspec. split; intros Hfound; by rewrite Hfound in Hspec.
Qed.

(** Looked up in one batch, script hashes get what each would get from a lookup
    of its own, on any reader of the same table: same answer, same bins, same blocks. *)
Theorem direct_index_batch_equivalent (s : DirectIndexPackedBlockReader) (rd : IR) shs drain k :
  index_reader_ok s rd -> Forall hash_ok shs -> 0 <= drain -> 0 <= k ->
  ready (dti_hash_fns (is_info s) * lenZ shs + k) (ir_oram rd) (index_array s) ->
  exists batch rd', lookup_many_batched shs drain rd = (Ok batch, rd') /\ index_reader_ok s rd' /\ ready k (ir_oram rd') (index_array s) /\
    Forall2 (fun sh lk => forall (rd1 : IR) drain1, index_reader_ok s rd1 -> 0 <= drain1 ->
        ready (dti_hash_fns (is_info s)) (ir_oram rd1) (index_array s) ->
        exists d1 d2, (lookup sh drain1 rd1).1 = Ok (set_drained d1 lk) /\ (lookup_batched sh drain1 rd1).1 = Ok (set_drained d2 lk))
      shs (bl_lookups batch).
Proof.
  intros [Hs Hm Hi] Hok Hd Hk Hr. destruct (lookup_many_ok s Hs Hi rd shs drain k Hm Hok Hd Hk Hr) as (n & o' & E & Hr' & _).
  eexists _, _. split; [exact E|]. split; [by split|]. split; [exact Hr'|]. cbn [bl_lookups]. apply Forall2_fmap_r, Forall_Forall2_diag.
  eapply Forall_impl; [exact Hok|]. intros sh Hsh rd1 drain1 [_ Hm1 _] Hd1 Hr1.
  rewrite <-(Z.add_0_r (dti_hash_fns _)) in Hr1. destruct Hsh as [Hl Hb].
  destruct (lookup_ok s Hs Hi rd1 sh drain1 0 Hm1 Hl Hb Hd1 ltac:(done) Hr1) as (d1 & rd1' & E1 & _).
  destruct (lookup_many_ok s Hs Hi rd1 [sh] drain1 0 Hm1 ltac:(by repeat constructor) Hd1 ltac:(done)) as (n2 & o2 & E2 & _).
  { change (lenZ [sh]) with 1. by rewrite Z.mul_1_r. }
  exists d1, n2. rewrite E1. split; [done|]. unfold lookup_batched. by rewrite (bind_eq _ _ _ _ _ E2).
Qed.

(** C17: over a file whose script hashes are distinct, and with room in the stash for
    the batch, the reader is a dictionary: a batch of lookups answers, hash by hash, as
    the finite map from the file's script hashes to their chunk ranges. *)
Theorem direct_index_is_dictionary (s : DirectIndexPackedBlockReader) (rd : IR) shs drain k :
  index_reader_ok s rd -> distinct_hashes s -> Forall hash_ok shs -> 0 <= drain -> 0 <= k ->
  ready (dti_hash_fns (is_info s) * lenZ shs + k) (ir_oram rd) (index_array s) ->
  exists batch rd', lookup_many_batched shs drain rd = (Ok batch, rd') /\ index_reader_ok s rd' /\ ready k (ir_oram rd') (index_array s) /\
    answer <$> bl_lookups batch = (fun sh => file_dictionary s !! sh) <$> shs.
Proof.
  intros [Hs Hm Hi] Hnd Hok Hd Hk Hr. destruct (lookup_many_ok s Hs Hi rd shs drain k Hm Hok Hd Hk Hr) as (n & o' & E & Hr' & _).
  eexists _, _. split; [exact E|]. split; [by split|]. split; [exact Hr'|]. cbn [bl_lookups]. rewrite <-list_fmap_compose.
  apply list_fmap_ext. intros i sh Hsh%list_elem_of_lookup_2. rewrite Forall_forall in Hok. by apply answer_dictionary, Hok.
Qed.

(** C36: with room in the stash for it, a dummy batch for as many lookups leaves the
    controller's schedule and generator as the real batch does and drains as many
    evictions: the accesses a lookup spends do not depend on whether it is real. *)
Theorem dummy_lookups_spend_alike (s : DirectIndexPackedBlockReader) (rd : IR) shs drain k :
  index_reader_ok s rd -> Forall hash_ok shs -> 0 <= drain -> 0 <= k ->
  ready (dti_hash_fns (is_info s) * lenZ shs + k) (ir_oram rd) (index_array s) ->
  exists batch rd1 rd2, lookup_many_batched shs drain rd = (Ok batch, rd1) /\
    lookup_dummy_many (lenZ shs) drain rd = (Ok (bl_drained_evictions batch), rd2) /\
    index_reader_ok s rd2 /\ ready k (ir_oram rd2) (index_array s) /\
    schedule (ir_oram rd1) = schedule (ir_oram rd2) /\ rng (ir_oram rd1) = rng (ir_oram rd2).
Proof.
  intros [Hs Hm Hi] Hok Hd Hk Hr. destruct (lookup_many_ok s Hs Hi rd shs drain k Hm Hok Hd Hk Hr) as (n & o1 & E & Hr1 & Hn & Hs1 & Hg1).
  destruct (meta_fields s Hi) as (_ & Hf & _). pose proof (lenZ_nonneg shs) as Hl0. pose proof (ix_fns _ Hs) as Hfn.
  assert (dti_hash_fns (is_info s) * lenZ shs <= u64_max) as Hu.
  { destruct Hr as ([T Ho] & [_ Hc] & _). destruct (oi_schedule _ _ _ Ho). lia. }
  destruct (dummies_then_drain k (ir_oram rd) (index_array s) _ (mul64 drain (dti_hash_fns (is_info s) * lenZ shs)) Hr Hk) as
    (o2 & o3 & n' & E2 & E3 & Hr3 & Hn' & Hs3 & Hg3); [nia|by apply Z.mod_pos_bound|]. rewrite <-Hn in Hn'. subst n'.
  eexists _, _, (set_ir_oram o3 rd). split; [exact E|]. split.
  - unfold lookup_dummy_many. rewrite bind_gets, Hm, Hf, mul64_small by nia. unfold read_dummy_candidates.
    rewrite (bind_eq _ _ _ _ _ (on_ir_oram_eq _ rd _ _ E2)). exact (on_ir_oram_eq _ (set_ir_oram o2 rd) _ _ E3).
  - split; [by split|]. split; [exact Hr3|]. cbn [set_ir_oram ir_oram]. split; [by rewrite Hs1, Hs3|by rewrite Hg1, Hg3].
Qed.

(** Chunk reads through a controller that stores the CHUNK table return the
    file's 40-byte chunks, one at a time and in batches, in the order asked. *)
Theorem direct_chunks_correct (s : DirectChunkPackedBlockReader) (rd : CR) id ids drain k :
  chunk_source_ok s -> ch_metadata rd = cs_metadata s ->
  Forall (fun id => 0 <= id < dm_total_items (cs_metadata s)) (id :: ids) -> 0 <= drain -> 0 <= k ->
  ready (lenZ (id :: ids) + k) (ch_oram rd) (chunk_array s) ->
  (exists r rd', read_chunk id drain rd = (Ok r, rd') /\ ch_metadata rd' = cs_metadata s /\ ready k (ch_oram rd') (chunk_array s) /\
     cr_chunk_id r = id /\ cr_payload r = take 40 (drop (Z.to_nat (40 * id)) (cs_mmap s))) /\
  (exists b rd', read_chunks (id :: ids) drain rd = (Ok b, rd') /\ ch_metadata rd' = cs_metadata s /\ ready k (ch_oram rd') (chunk_array s) /\
     cr_chunk_id <$> cb_reads b = id :: ids /\
     cr_payload <$> cb_reads b = (fun i => take 40 (drop (Z.to_nat (40 * i)) (cs_mmap s))) <$> id :: ids).
Proof.
  intros Hs Hm Hids Hd Hk Hr. pose proof (lenZ_nonneg ids) as Hl. rewrite lenZ_cons in Hr.
  assert (forall i, chunk_item s i = take 40 (drop (Z.to_nat (40 * i)) (cs_mmap s))) as Hitem.
  { intros i. unfold chunk_item, item_in, DIRECT_CHUNK_RECORD_SIZE. by rewrite Z.add_0_l, Z.mul_comm. }
  split.
  - pose proof (Forall_inv Hids) as Hid. cbv beta in Hid.
    destruct (read_chunk_ok s Hs rd id drain k Hm Hid Hd Hk) as (n & o' & E & Hr'); [eapply ready_mono; [|exact Hr]; lia|].
    eexists _, _. split; [exact E|]. split; [done|]. split; [exact Hr'|]. split; [done|]. cbn. apply Hitem.
  - destruct (read_chunks_ok s Hs rd (id :: ids) drain k Hm Hids Hd Hk) as (n & o' & E & Hr'); [by rewrite lenZ_cons|].
    eexists _, _. split; [exact E|]. split; [done|]. split; [exact Hr'|]. cbn [cb_reads]. rewrite <-!list_fmap_compose. split.
    + by rewrite list_fmap_id.
    + apply list_fmap_ext. intros i x _. apply Hitem.
Qed.

End Properties.

(** ** A concrete table *)

Definition demo_path : FilePath := mkPath "" "index" (Some "bin"%string).
Definition demo_record (x start n : Z) : bytes := replicate 20 x ++ to_le 4 start ++ [n].
Definition demo_file : bytes := demo_record 7 3 1 ++ demo_record 9 5 2.
Definition demo_table_host : Host Z := mkHost {[ render demo_path := demo_file ]} [] 0.
Definition plain_mmap : Mmap := Some.
Lemma plain_mmap_laws : @MmapLaws plain_mmap.
Proof. by intros b _. Qed.

Definition demo_info : DirectTableInfo :=
  mkDirectInfo DirectIndex demo_path 50 2 1 2 DIRECT_INDEX_DEFAULT_LOAD_FACTOR 5 3 26.
Definition demo_table_params : OramParams := mkParams 2 52 2 2 8.
Definition demo_table_oram (src : DirectIndexPackedBlockReader) : outcome (CircuitOram MemPageStore MemPageStore Z) :=
  build_trusted_from_source (H := bool_subtle) demo_table_params (mkMem 26 (zeros (3 * 26))) (mkMem 104 (zeros (3 * 104))) src [5].
Definition demo_metadata : DirectTableMetadata :=
  mkDirectMeta 1 DirectIndex demo_path 50 2 3 26 2 1 2 950000000 5 2 52.
Definition demo_source : DirectIndexPackedBlockReader := mkIndexSource demo_info demo_metadata 0 demo_file [4294967295; 1; 0].

Lemma demo_file_ok : bytes_ok demo_file.
Proof. repeat constructor; vm_compute; intuition discriminate. Qed.

(** Evaluate the premises of a lemma at a concrete input. *)
Ltac discharge H := repeat (specialize (H ltac:(first [by vm_compute|split; by vm_compute]))).

Lemma demo_opens : exists h1 h2,
  from_index_file demo_path 1 2 DIRECT_INDEX_DEFAULT_LOAD_FACTOR 5 demo_table_host = (Ok demo_info, h1) /\
  index_build (H := plain_mmap) demo_info 2 h1 = (Ok demo_source, h2).
Proof. exists demo_table_host, demo_table_host. split; vm_compute; reflexivity. Qed.

Lemma demo_source_is_ok : index_source_ok demo_source /\ from_info (is_info demo_source) 2 = Ok (is_metadata demo_source).
Proof.
  destruct demo_opens as (h1 & h2 & E1 & E2).
  destruct (from_index_file_ok demo_path 1 2 _ 5 demo_table_host _ h1 demo_file eq_refl eq_refl E1) as (_ & _ & _ & _ & _ & _ & _ & _ & Hf & Hf1).
  assert (files h1 !! render (dti_path demo_info) = Some demo_file) as Hfile by (rewrite Hf; vm_compute; reflexivity).
  pose proof (@index_build_ok Z plain_mmap plain_mmap_laws demo_info demo_file 2 h1 Hf1 Hfile eq_refl demo_file_ok) as Hbuild.
  discharge Hbuild. destruct Hbuild as [(h' & E)|(s & h' & E & Hs & _ & _ & Hi & _)].
  - rewrite E2 in E. discriminate E.
  - rewrite E2 in E. injection E as <- <-. split; [exact Hs|exact Hi].
Qed.

Lemma zero_store_ok size n : 0 < size -> 0 < n -> ps_ok (mkMem size (zeros (n * size))).
Proof.
  intros Hs Hn. cbn. unfold mem_ok, mem_page_count. cbn [mem_page_size mem_pages]. rewrite lenZ_zeros, Z.div_mul by nia.
  split_and!; [done|done|done|apply zeros_ok].
Qed.

(** A controller holding the table, with an empty stash. *)
Lemma demo_reader : exists rd : CircuitDirectIndexReader MemPageStore MemPageStore Z,
  demo_table_oram demo_source = Ok (ir_oram rd) /\ ir_metadata rd = demo_metadata /\
  index_reader_ok demo_source rd /\ ready 4 (ir_oram rd) (index_array demo_source).
Proof.
  destruct demo_source_is_ok as [Hs Hi].
  destruct (build_spec (SL := bool_subtle_laws) (R := Z) demo_table_params ltac:(split; vm_compute; intuition discriminate)
    ltac:(vm_compute; discriminate) ltac:(vm_compute; discriminate) (mkMem 26 (zeros (3 * 26))) (mkMem 104 (zeros (3 * 104))) demo_source [5]
    (index_content demo_source)) as [(o & T & E & Ho & Hp & Hsch)|E].
  - by apply zero_store_ok.
  - by apply zero_store_ok.
  - split_and!; by vm_compute.
  - split_and!; [exact Hs|done|done].
  - done.
  - intros id Hid. exact (index_content_ok demo_source id Hs Hid).
  - exists (mkIndexReader demo_metadata o). split; [exact E|]. split; [done|]. split; [by split|].
    split; [exists T; exact Ho|]. cbn [ir_oram]. rewrite Hsch, Hp. split; [vm_compute; intuition discriminate|].
    change (build_trusted_from_source _ _ _ _ _) with (demo_table_oram demo_source) in E.
    vm_compute in E. apply Ok_inj in E. subst o. vm_compute. discriminate.
  - exfalso. vm_compute in E. discriminate E.
Qed.

Lemma index_table_places_records_witness : exists h1 h2 : Host Z,
  index_build (H := plain_mmap) demo_info 2 h1 = (Ok demo_source, h2) /\ index_source_ok demo_source /\
  forall r, 0 <= r < 2 -> exists! o, is_placement demo_source !! o = Some r /\
    Z.of_nat o / 1 ∈ hash_bins demo_source (record_hash (record_at demo_file r)).
Proof.
  destruct demo_opens as (h1 & h2 & E1 & E2). exists h1, h2. split; [exact E2|].
  pose proof (@index_table_places_records Z plain_mmap plain_mmap_laws demo_path 1 2 DIRECT_INDEX_DEFAULT_LOAD_FACTOR 5 2
    demo_table_host h1 demo_info demo_file eq_refl eq_refl eq_refl demo_file_ok E1) as Hbuild.
  discharge Hbuild. destruct Hbuild as [(h' & E)|(s & h' & E & Hs & _ & _ & _ & _ & Hr)].
  - rewrite E2 in E. discriminate E.
  - rewrite E2 in E. injection E as <- <-. split; [exact Hs|exact Hr].
Defined.

Lemma direct_index_lookup_correct_witness : exists (rd : CircuitDirectIndexReader MemPageStore MemPageStore Z) lk rd',
  lookup (H := bool_subtle) (replicate 20 9) 4 rd = (Ok lk, rd') /\ index_reader_ok demo_source rd' /\ lk_script_hash lk = replicate 20 9.
Proof.
  destruct demo_reader as (rd & Eb & Hm & Hok & Hr). exists rd.
  destruct (direct_index_lookup_correct (SL := bool_subtle_laws) demo_source rd (replicate 20 9) 4 2 Hok eq_refl) as (lk & rd' & E & Hok' & _ & Hsh & _).
  - repeat constructor; vm_compute; intuition discriminate.
  - discriminate.
  - discriminate.
  - exact Hr.
  - exists lk, rd'. split; [exact E|]. split; [exact Hok'|exact Hsh].
Defined.

Lemma direct_index_batch_equivalent_witness : exists (rd : CircuitDirectIndexReader MemPageStore MemPageStore Z) batch rd',
  lookup_many_batched (H := bool_subtle) [replicate 20 9; zeros 20] 4 rd = (Ok batch, rd') /\ index_reader_ok demo_source rd'.
Proof.
  destruct demo_reader as (rd & Eb & Hm & Hok & Hr). exists rd.
  destruct (direct_index_batch_equivalent (SL := bool_subtle_laws) demo_source rd [replicate 20 9; zeros 20] 4 0 Hok) as (batch & rd' & E & Hok' & _).
  - repeat constructor; vm_compute; intuition discriminate.
  - discriminate.
  - discriminate.
  - exact Hr.
  - exists batch, rd'. split; [exact E|exact Hok'].
Defined.

Lemma direct_index_is_dictionary_witness : exists (rd : CircuitDirectIndexReader MemPageStore MemPageStore Z) batch rd',
  lookup_many_batched (H := bool_subtle) [replicate 20 9; zeros 20] 4 rd = (Ok batch, rd') /\
  answer <$> bl_lookups batch = [Some (5, 2); None].
Proof.
  destruct demo_reader as (rd & Eb & Hm & Hok & Hr). exists rd.
  destruct (direct_index_is_dictionary (SL := bool_subtle_laws) demo_source rd [replicate 20 9; zeros 20] 4 0 Hok) as (batch & rd' & E & _ & _ & Ha).
  - apply NoDup_cons. split; [|apply NoDup_singleton]. intros Hin%list_elem_of_singleton. vm_compute in Hin. discriminate Hin.
  - repeat constructor; vm_compute; intuition discriminate.
  - discriminate.
  - discriminate.
  - exact Hr.
  - exists batch, rd'. split; [exact E|]. rewrite Ha. vm_compute. reflexivity.
Defined.

Lemma dummy_lookups_spend_alike_witness : exists (rd : CircuitDirectIndexReader MemPageStore MemPageStore Z) batch rd1 rd2,
  lookup_many_batched (H := bool_subtle) [replicate 20 9] 4 rd = (Ok batch, rd1) /\
  lookup_dummy_many (H := bool_subtle) 1 4 rd = (Ok (bl_drained_evictions batch), rd2) /\ schedule (ir_oram rd1) = schedule (ir_oram rd2).
Proof.
  destruct demo_reader as (rd & Eb & Hm & Hok & Hr). exists rd.
  destruct (dummy_lookups_spend_alike (SL := bool_subtle_laws) demo_source rd [replicate 20 9] 4 2 Hok) as (batch & rd1 & rd2 & E1 & E2 & _ & _ & Hs & _).
  - repeat constructor; vm_compute; intuition discriminate.
  - discriminate.
  - discriminate.
  - exact Hr.
  - exists batch, rd1, rd2. split; [exact E1|]. split; [exact E2|exact Hs].
Defined.

(** Five chunks, two to a block. *)
Definition demo_chunk_file : bytes := concat ((fun i => replicate 40 i) <$> seqZ 1 5).
Definition demo_chunk_metadata : DirectTableMetadata := mkDirectMeta 1 DirectChunk demo_path 200 5 5 40 2 1 0 1000000000 0 3 80.
Definition demo_chunks : DirectChunkPackedBlockReader := mkChunkSource demo_chunk_metadata 0 demo_chunk_file.

Lemma demo_chunks_ok : chunk_source_ok demo_chunks.
Proof. split; try (by vm_compute). apply Forall_forall. intros x Hx. vm_compute in Hx. revert x Hx. apply Forall_forall. repeat constructor; vm_compute; intuition discriminate. Qed.

Lemma demo_chunk_reader : exists rd : CircuitDirectChunkReader MemPageStore MemPageStore Z,
  ch_metadata rd = demo_chunk_metadata /\ ready 4 (ch_oram rd) (chunk_array demo_chunks).
Proof.
  pose proof demo_chunks_ok as Hs.
  destruct (build_spec (SL := bool_subtle_laws) (R := Z) (LS := chunk_lawful) (mkParams 3 80 2 4 8) ltac:(split; vm_compute; intuition discriminate)
    ltac:(vm_compute; discriminate) ltac:(vm_compute; discriminate) (mkMem 26 (zeros (7 * 26))) (mkMem 160 (zeros (7 * 160))) demo_chunks [5]
    (chunk_content demo_chunks)) as [(o & T & E & Ho & Hp & Hsch)|E].
  - by apply zero_store_ok.
  - by apply zero_store_ok.
  - split_and!; by vm_compute.
  - split_and!; [exact Hs|done|done].
  - done.
  - intros id Hid. exact (chunk_content_ok demo_chunks id Hs Hid).
  - exists (mkChunkReader demo_chunk_metadata o). split; [done|]. split; [exists T; exact Ho|]. cbn [ch_oram]. rewrite Hsch, Hp.
    split; [vm_compute; intuition discriminate|]. vm_compute in E. apply Ok_inj in E. subst o. vm_compute. discriminate.
  - exfalso. vm_compute in E. discriminate E.
Qed.

Lemma direct_chunks_correct_witness : exists (rd : CircuitDirectChunkReader MemPageStore MemPageStore Z) b rd',
  read_chunks (H := bool_subtle) [4; 0; 4] 1 rd = (Ok b, rd') /\
  cr_payload <$> cb_reads b = [replicate 40 5; replicate 40 1; replicate 40 5].
Proof.
  destruct demo_chunk_reader as (rd & Hm & Hr). exists rd.
  destruct (direct_chunks_correct (SL := bool_subtle_laws) demo_chunks rd 4 [0; 4] 1 1 demo_chunks_ok Hm) as [_ (b & rd' & E & _ & _ & _ & Hp)].
  - repeat constructor; vm_compute; intuition discriminate.
  - discriminate.
  - discriminate.
  - exact Hr.
  - exists b, rd'. split; [exact E|]. rewrite Hp. vm_compute. reflexivity.
Defined.
