(* ===== verification/Cuckoo.v ===== *)
(** * Cuckoo tables ([src/src/cuckoo.rs])

    The on-disk cuckoo tables of the database: the header and what it says of the
    file, the source that packs consecutive bins into logical blocks, and the reader
    that serves bins through a [CircuitOram].  Products of header fields wrap as a
    release build computes them. *)

From S2P Require Import Prelude Params Store Rng Circuit Build SealedState Ct Float64 CandidateBins Direct.

Definition INDEX_MAGIC : Z := 0xBA7CC000C0000004.
Definition CHUNK_MAGIC : Z := 0xBA7CC000C0000002.
Definition ANCHOR_MAGIC_SNAPSHOT_XOR : Z := 0x0000000100000000.
Definition ANCHOR_MAGIC_DELTA_XOR : Z := 0x0000000200000000.
Definition CHAIN_ANCHOR_BYTES : Z := 36.
Definition DELTA_ANCHOR_BYTES : Z := 72.

Inductive CuckooLevel : Type := Index | Chunk.
#[global] Instance CuckooLevel_eq_dec : EqDecision CuckooLevel.
Proof. solve_decision. Defined.

(** [CuckooLevel::filename], split as [Path] splits it *)
Definition filename (dir : string) (l : CuckooLevel) : FilePath :=
  mkPath (dir +:+ "/")%string (match l with Index => "batch_pir_cuckoo" | Chunk => "chunk_pir_cuckoo" end)%string (Some "bin"%string).
Definition base_magic (l : CuckooLevel) : Z := match l with Index => INDEX_MAGIC | Chunk => CHUNK_MAGIC end.
Definition base_header_size (l : CuckooLevel) : Z := match l with Index => 40 | Chunk => 32 end.
Definition slot_size (l : CuckooLevel) : Z := match l with Index => 13 | Chunk => 44 end.

Inductive CuckooAnchorKind : Type := Legacy | Snapshot | Delta.
#[global] Instance CuckooAnchorKind_eq_dec : EqDecision CuckooAnchorKind.
Proof. solve_decision. Defined.

(** [CuckooAnchorKind::extra_header_bytes] *)
Definition extra_header_bytes (k : CuckooAnchorKind) : Z :=
  match k with Legacy => 0 | Snapshot => CHAIN_ANCHOR_BYTES | Delta => DELTA_ANCHOR_BYTES end.

(** [parse_anchor_kind] *)
Definition parse_anchor_kind (level : CuckooLevel) (magic : Z) : outcome CuckooAnchorKind :=
  let base := base_magic level in
  if magic =? base then Ok Legacy
  else if magic =? Z.lxor base ANCHOR_MAGIC_SNAPSHOT_XOR then Ok Snapshot
  else if magic =? Z.lxor base ANCHOR_MAGIC_DELTA_XOR then Ok Delta
  else Err (InvalidInput "{} cuckoo table has unknown magic 0x{magic:016x}").

(** Mirror of [struct CuckooTableInfo]. *)
Record CuckooTableInfo : Type := mkCuckooInfo {
  ct_level : CuckooLevel;
  ct_path : FilePath;
  ct_file_bytes : Z;
  ct_magic : Z;
  ct_anchor_kind : CuckooAnchorKind;
  ct_data_offset : Z;
  ct_k : Z;
  ct_slots_per_bin : Z;
  ct_bins_per_table : Z;
  ct_num_hashes : Z;
  ct_master_seed : Z;
  ct_tag_seed : option Z;
  ct_slot_size : Z
}.

(** [bin_size], [total_bins], [table_byte_size], [expected_file_bytes] *)
Definition bin_size (t : CuckooTableInfo) : Z := mul64 (ct_slots_per_bin t) (ct_slot_size t).
Definition total_bins (t : CuckooTableInfo) : Z := mul64 (ct_k t) (ct_bins_per_table t).
Definition table_byte_size (t : CuckooTableInfo) : Z := mul64 (ct_bins_per_table t) (bin_size t).
Definition expected_file_bytes (t : CuckooTableInfo) : Z := add64 (ct_data_offset t) (mul64 (ct_k t) (table_byte_size t)).

(** [CuckooTableInfo::validate] *)
Definition cuckoo_validate (t : CuckooTableInfo) : outcome unit :=
  let? _ := guardo (negb (ct_k t =? 0)) (InvalidInput "{} cuckoo table has k=0") in
  let? _ := guardo (negb (ct_slots_per_bin t =? 0)) (InvalidInput "{} cuckoo table has slots_per_bin=0") in
  let? _ := guardo (negb (ct_bins_per_table t =? 0)) (InvalidInput "{} cuckoo table has bins_per_table=0") in
  let? _ := guardo (negb (ct_num_hashes t =? 0)) (InvalidInput "{} cuckoo table has num_hashes=0") in
  let expected := expected_file_bytes t in
  guardo (ct_file_bytes t =? expected) (InvalidInput "{} cuckoo file {} has {} bytes, expected {} from header").

(** The parse of a header of [base_header_size] bytes *)
Definition header_word (header : bytes) (off len : Z) : outcome Z := let? b := slice header off len in Ok (from_le b).

Definition parse_header (level : CuckooLevel) (path : FilePath) (file_bytes : Z) (header : bytes) : outcome CuckooTableInfo :=
  let? magic := header_word header 0 8 in
  let? anchor_kind := parse_anchor_kind level magic in
  let data_offset := base_header_size level + extra_header_bytes anchor_kind in
  let? k := header_word header 8 4 in
  let? slots_per_bin := header_word header 12 4 in
  let? bins_per_table := header_word header 16 4 in
  let? num_hashes := header_word header 20 4 in
  let? master_seed := header_word header 24 8 in
  let? tag_seed := match level with
                   | Index => let? w := header_word header 32 8 in Ok (Some w)
                   | Chunk => Ok None
                   end in
  let info := mkCuckooInfo level path file_bytes magic anchor_kind data_offset k slots_per_bin bins_per_table num_hashes
                master_seed tag_seed (slot_size level) in
  let? _ := cuckoo_validate info in
  Ok info.

Section Files.
Context {O : Type} `{Mmap}.

(** [File::open] and [read_exact] of the first [n] bytes *)
Definition cuckoo_file_open (path : FilePath) : M (Host O) bytes := fs_read path.
Definition cuckoo_read_exact (contents : bytes) (n : Z) : M (Host O) bytes :=
  let* fault := next_fault in
  match fault with
  | None => if lenZ contents <? n then fail IoError else lift (slice contents 0 n)
  | Some _ => fail IoError
  end.

(** [CuckooTableInfo::from_file] *)
Definition from_file (level : CuckooLevel) (path : FilePath) : M (Host O) CuckooTableInfo :=
  let* contents := cuckoo_file_open path in
  let* file_bytes := fs_len path in
  let* header := cuckoo_read_exact contents (base_header_size level) in
  lift (parse_header level path file_bytes (header ++ zeros (40 - base_header_size level))).

(** [CuckooTableInfo::load_pair] *)
Definition load_pair (dir : string) : M (Host O) (CuckooTableInfo * CuckooTableInfo) :=
  let* index := from_file Index (filename dir Index) in
  let* chunk := from_file Chunk (filename dir Chunk) in
  ret (index, chunk).

(** ** The packed source *)

(** Mirror of [struct CuckooPackedBlockReader]. *)
Record CuckooPackedBlockReader : Type := mkCuckooSource {
  cu_table : CuckooTableInfo;
  cu_bins_per_block : Z;
  cu_logical_blocks : Z;
  cu_block_payload_bytes : Z;
  cu_next_block : Z;
  cu_mmap : bytes
}.

(** [CuckooPackedBlockReader::open] *)
Definition cuckoo_open (table : CuckooTableInfo) (bins_per_block : Z) : M (Host O) CuckooPackedBlockReader :=
  let* _ := guardm (negb (bins_per_block =? 0)) (InvalidInput "bins_per_block must be > 0") in
  let* mm := open_mmap (ct_path table) in
  let logical_blocks := div_ceil (total_bins table) bins_per_block in
  let block_payload_bytes := mul64 (bin_size table) bins_per_block in
  ret (mkCuckooSource table bins_per_block logical_blocks block_payload_bytes 0 mm).

(** Mirror of [struct PackedCuckooBinLocation]. *)
Record PackedCuckooBinLocation : Type := mkBinLocation { bl_logical_block : Z; bl_byte_offset : Z; bl_byte_len : Z }.

(** [locate_packed_cuckoo_bin] *)
Definition locate_packed_cuckoo_bin (total bins_per_block size bin_id : Z) : outcome PackedCuckooBinLocation :=
  if bins_per_block =? 0 then Err (InvalidInput "bins_per_block must be > 0")
  else if size =? 0 then Err (InvalidInput "bin_size must be > 0")
  else if total <=? bin_id then Err (InvalidInput "bin_id {} out of range {}")
  else
    let slot_in_block := bin_id mod bins_per_block in
    Ok (mkBinLocation (bin_id / bins_per_block) (mul64 slot_in_block size) size).

(** [&block[location.byte_range()]] *)
Definition bin_range (block : bytes) (location : PackedCuckooBinLocation) : outcome bytes :=
  let end_ := add64 (bl_byte_offset location) (bl_byte_len location) in
  slice block (bl_byte_offset location) (end_ - bl_byte_offset location).

(** [CuckooPackedBlockReader::read_block] *)
Definition cuckoo_read_block (s : CuckooPackedBlockReader) (logical_block : Z) : outcome bytes :=
  let t := cu_table s in
  if cu_logical_blocks s <=? logical_block then Err (InvalidInput "logical block {} out of range {}")
  else
    let start_bin := mul64 logical_block (cu_bins_per_block s) in
    let remaining_bins := sub64 (total_bins t) start_bin in
    let bins_to_read := Z.min remaining_bins (cu_bins_per_block s) in
    let bytes_to_read := mul64 bins_to_read (bin_size t) in
    let offset := add64 (ct_data_offset t) (mul64 start_bin (bin_size t)) in
    let end_ := add64 offset bytes_to_read in
    if lenZ (cu_mmap s) <? end_ then Err (InvalidInput "logical block {} reaches byte {} past mapped file length {}")
    else
      let payload := zeros (cu_block_payload_bytes s) in
      let? head := slice payload 0 bytes_to_read in
      let? src := slice (cu_mmap s) offset (end_ - offset) in
      let? head := copy_from_slice head src in
      splice payload 0 head.

(** [CuckooPackedBlockReader::read_bin] *)
Definition cuckoo_read_bin (s : CuckooPackedBlockReader) (bin_id : Z) : outcome bytes :=
  let? location := locate_packed_cuckoo_bin (total_bins (cu_table s)) (cu_bins_per_block s) (bin_size (cu_table s)) bin_id in
  let? block := cuckoo_read_block s (bl_logical_block location) in
  bin_range block location.

(** [Iterator::next] *)
Definition cuckoo_next (s : CuckooPackedBlockReader) : option (outcome bytes) * CuckooPackedBlockReader :=
  if cu_logical_blocks s <=? cu_next_block s then (None, s)
  else
    let block_idx := cu_next_block s in
    let s := mkCuckooSource (cu_table s) (cu_bins_per_block s) (cu_logical_blocks s) (cu_block_payload_bytes s)
               (block_idx + 1) (cu_mmap s) in
    (Some (cuckoo_read_block s block_idx), s).

End Files.

#[export] Instance cuckoo_block_source : TrustedBlockSource CuckooPackedBlockReader := {|
  src_logical_blocks := cu_logical_blocks;
  src_block_size := cu_block_payload_bytes;
  src_read_block := fun id s => (cuckoo_read_block s id, s)
|}.

(** ** Reading bins through the controller *)

(** Mirror of [struct CircuitCuckooBinRead] and [struct CircuitCuckooBinReader]. *)
Record CircuitCuckooBinRead : Type := mkBinRead {
  br_bin_id : Z;
  br_logical_block : Z;
  br_byte_offset : Z;
  br_payload : bytes;
  br_drained_evictions : Z
}.
Record CircuitCuckooBinReader (MS PS R : Type) : Type := mkBinReader {
  cb_level : CuckooLevel;
  cb_total_bins : Z;
  cb_bins_per_block : Z;
  cb_bin_size : Z;
  cb_oram : CircuitOram MS PS R
}.
Arguments mkBinReader {MS PS R}. Arguments cb_level {MS PS R}. Arguments cb_total_bins {MS PS R}.
Arguments cb_bins_per_block {MS PS R}. Arguments cb_bin_size {MS PS R}. Arguments cb_oram {MS PS R}.

Section Reader.
Context `{Subtle} {MS PS R : Type} `{PathPageStore MS} `{PathPageStore PS} `{Rng R}.
Local Abbreviation BR := (CircuitCuckooBinReader MS PS R).

Definition set_cb_oram (o : CircuitOram MS PS R) (s : BR) : BR :=
  mkBinReader (cb_level s) (cb_total_bins s) (cb_bins_per_block s) (cb_bin_size s) o.
Definition on_cb_oram {A} (m : M (CircuitOram MS PS R) A) : M BR A := zoom cb_oram set_cb_oram m.

(** [CircuitCuckooBinReader::new] *)
Definition bin_reader_new (table : CuckooTableInfo) (bins_per_block : Z) (oram : CircuitOram MS PS R) : outcome BR :=
  if bins_per_block =? 0 then Err (InvalidInput "bins_per_block must be > 0")
  else
    let expected_logical_blocks := div_ceil (total_bins table) bins_per_block in
    let expected_block_size := mul64 (bin_size table) bins_per_block in
    let? _ := guardo (logical_blocks (co_params oram) =? expected_logical_blocks)
                (InvalidInput "{} ORAM logical_blocks {} != packed cuckoo logical_blocks {}") in
    let? _ := guardo (block_size (co_params oram) =? expected_block_size)
                (InvalidInput "{} ORAM block_size {} != packed cuckoo block_size {}") in
    Ok (mkBinReader (ct_level table) (total_bins table) bins_per_block (bin_size table) oram).

(** [CircuitCuckooBinReader::read_bin] *)
Definition read_bin (bin_id drain_per_access : Z) : M BR CircuitCuckooBinRead :=
  let* s := gets (fun s => s) in
  let* location := lift (locate_packed_cuckoo_bin (cb_total_bins s) (cb_bins_per_block s) (cb_bin_size s) bin_id) in
  let* block := on_cb_oram (read (bl_logical_block location)) in
  let* payload := lift (bin_range block location) in
  let* drained_evictions := on_cb_oram (drain_evictions drain_per_access) in
  ret (mkBinRead bin_id (bl_logical_block location) (bl_byte_offset location) payload drained_evictions).

End Reader.
