(* ===== verification/CuckooSpec.v ===== *)
(** * What the cuckoo tables promise

    The packed source yields the bins of the file, the reader serves them through a
    controller, and a header that passes validation describes the file, up to the
    width of the products it is checked with. *)

From S2P Require Import Prelude Ct Params Store Schedule Stash Rng State Circuit Blocks CircuitInv Build BuildProofs CircuitSpec OramReads.
From S2P Require Import SealedState Float64 CandidateBins Direct Packed IndexProofs DirectSpec Cuckoo.

(** ** The source *)

(** The bytes the header describes. *)
Definition described_bytes (t : CuckooTableInfo) : Z :=
  ct_data_offset t + ct_k t * ct_bins_per_table t * (ct_slots_per_bin t * ct_slot_size t).

Record table_ok (t : CuckooTableInfo) : Prop := {
  tb_k : 0 < ct_k t;
  tb_slots : 0 < ct_slots_per_bin t;
  tb_bins : 0 < ct_bins_per_table t;
  tb_slot : 0 < ct_slot_size t;
  tb_offset : 0 <= ct_data_offset t;
  tb_file : ct_file_bytes t = described_bytes t;
  tb_fit : ct_file_bytes t <= u64_max
}.

Lemma table_sizes t : table_ok t -> bin_size t = ct_slots_per_bin t * ct_slot_size t /\ 0 < bin_size t /\
  total_bins t = ct_k t * ct_bins_per_table t /\ 0 < total_bins t /\ ct_data_offset t + total_bins t * bin_size t = ct_file_bytes t.
Proof.
  intros [Hk Hs Hb Hsl Ho Hf Hfit]. unfold bin_size, total_bins, described_bytes in *.
  assert (1 <= ct_slots_per_bin t * ct_slot_size t) by nia. assert (1 <= ct_k t * ct_bins_per_table t) by nia.
  rewrite !mul64_small by nia. split_and!; lia.
Qed.

Section Source.
Context (s : CuckooPackedBlockReader).
Local Abbreviation t := (cu_table s).
Local Abbreviation per := (cu_bins_per_block s).

Record cuckoo_source_ok : Prop := {
  cu_ok : table_ok t;
  cu_per : 0 < per;
  cu_blocks : cu_logical_blocks s = div_ceil (total_bins t) per;
  cu_payload : cu_block_payload_bytes s = bin_size t * per;
  cu_fit : bin_size t * per <= u64_max;
  cu_file : lenZ (cu_mmap s) = ct_file_bytes t;
  cu_bytes : bytes_ok (cu_mmap s)
}.

(** Bin [i] of the file. *)
Definition file_bin (i : Z) : bytes := item_in (cu_mmap s) (ct_data_offset t) (bin_size t) i.

Lemma file_bin_length i : cuckoo_source_ok -> 0 <= i < total_bins t -> lenZ (file_bin i) = bin_size t.
Proof.
  intros [Ht _ _ _ _ Hf _] Hi. destruct (table_sizes t Ht) as (_ & Hsz & _ & _ & E). eapply item_in_length; [apply Ht|done| |exact Hi]. lia.
Qed.

Lemma cuckoo_read_block_ok lb : cuckoo_source_ok -> 0 <= lb < cu_logical_blocks s ->
  cuckoo_read_block s lb = Ok (packed file_bin (total_bins t) per (bin_size t) lb).
Proof.
  intros Hs Hlb. pose proof Hs as [Ht Hper Hb Hp Hfit Hf _]. destruct (table_sizes t Ht) as (_ & Hsz & _ & Htb & E).
  pose proof (tb_offset _ Ht) as Ho. pose proof (tb_fit _ Ht) as Hff. pose proof (file_bin_length) as Hfl.
  unfold cuckoo_read_block. rewrite (proj2 (Z.leb_gt _ _)) by lia. rewrite Hb in Hlb.
  set (size := bin_size t) in *. set (total := total_bins t) in *. set (off := ct_data_offset t) in *.
  destruct (block_bounds total per Hper lb ltac:(lia) Hlb) as (H1 & H2 & H3). unfold block_items in H2, H3.
  rewrite (mul64_small lb) by nia. rewrite sub64_small by nia. change (Z.min (total - lb * per) per) with (block_items total per lb) in *.
  assert (0 <= lb * per * size) as Ha by nia. assert (0 <= block_items total per lb * size) as Hn by nia.
  assert (lb * per * size + block_items total per lb * size <= total * size) as Hle by nia.
  assert (lb * per <= total) as Hlt by lia. rewrite (mul64_small (block_items total per lb)), (mul64_small (lb * per)) by lia.
  rewrite (add64_small off) by lia. rewrite add64_small by lia. rewrite (proj2 (Z.ltb_ge _ _)) by lia. rewrite Hp.
  assert (zeros (size * per) = zeros (block_items total per lb * size) ++ zeros ((per - block_items total per lb) * size)) as ->.
  { unfold zeros. rewrite <-replicate_add. f_equal. nia. }
  rewrite slice_prefix by (rewrite lenZ_zeros; nia). cbn [obind].
  replace (off + lb * per * size + block_items total per lb * size - (off + lb * per * size)) with (block_items total per lb * size) by lia.
  rewrite (items_in (cu_mmap s) off size (lb * per) (block_items total per lb) total) by lia. cbn [obind].
  change (item_in (cu_mmap s) off size) with file_bin.
  pose proof (items_of_length file_bin total size (fun i => Hfl i Hs) (lb * per) (block_items total per lb)) as Hil.
  unfold copy_from_slice. rewrite lenZ_zeros, Hil, Z.eqb_refl by nia. cbn [obind].
  apply (splice_app [] (zeros (block_items total per lb * size))); [done|]. by rewrite lenZ_zeros, Hil by nia.
Qed.

End Source.

Definition cuckoo_content (s : CuckooPackedBlockReader) : Z -> bytes :=
  packed (file_bin s) (total_bins (cu_table s)) (cu_bins_per_block s) (bin_size (cu_table s)).

Lemma cuckoo_content_ok s lb : cuckoo_source_ok s -> 0 <= lb < cu_logical_blocks s ->
  lenZ (cuckoo_content s lb) = cu_block_payload_bytes s /\ bytes_ok (cuckoo_content s lb).
Proof.
  intros Hs Hlb. pose proof (fun i => file_bin_length s i Hs) as Hil. destruct Hs as [Ht Hper Hb Hp Hfit Hf Hby].
  destruct (table_sizes _ Ht) as (_ & Hsz & _ & Htb & _). rewrite Hb in Hlb.
  split; [rewrite Hp; apply packed_length; (done || lia)|apply packed_bytes; try (done || lia)]. intros i _. by apply item_in_bytes.
Qed.

#[export] Instance cuckoo_lawful : LawfulSource CuckooPackedBlockReader := {|
  src_ok := cuckoo_source_ok;
  src_content := cuckoo_content;
  src_read_ok := fun s id Hs Hid => ex_intro _ s
    (conj (f_equal (fun o => (o, s)) (cuckoo_read_block_ok s id Hs Hid)) (conj Hs (conj eq_refl eq_refl)));
  src_content_ok := cuckoo_content_ok
|}.

Definition cuckoo_array (s : CuckooPackedBlockReader) : list bytes := cuckoo_content s <$> seqZ 0 (cu_logical_blocks s).

(** ** Headers *)

Lemma header_word_range header off len w : header_word header off len = Ok w -> bytes_ok header -> 0 <= len -> 0 <= w < 256 ^ len.
Proof.
  unfold header_word, slice. destruct (_ && _) eqn:E; [|done]. cbn [obind]. intros <-%Ok_inj Hb Hl. zbool.
  assert (bytes_ok (take (Z.to_nat len) (drop (Z.to_nat off) header))) as Ht by (by apply Forall_take, Forall_drop).
  pose proof (from_le_bound _ Ht) as Hr. assert (lenZ (take (Z.to_nat len) (drop (Z.to_nat off) header)) = len) as El
    by (unfold lenZ in *; rewrite length_take, length_drop; lia). by rewrite El in Hr.
Qed.

(** What a parsed header says. *)
Record header_ok (level : CuckooLevel) (file_bytes : Z) (t : CuckooTableInfo) : Prop := {
  hd_level : ct_level t = level;
  hd_file : ct_file_bytes t = file_bytes;
  hd_k : 0 < ct_k t < 2 ^ 32;
  hd_slots : 0 < ct_slots_per_bin t < 2 ^ 32;
  hd_bins : 0 < ct_bins_per_table t < 2 ^ 32;
  hd_slot : ct_slot_size t = slot_size level;
  hd_offset : exists kind, parse_anchor_kind level (ct_magic t) = Ok kind /\ ct_data_offset t = base_header_size level + extra_header_bytes kind;
  hd_bytes : file_bytes = wrap 64 (described_bytes t)
}.

Lemma expected_wraps t : expected_file_bytes t = wrap 64 (described_bytes t).
Proof.
  unfold expected_file_bytes, table_byte_size, bin_size, add64, mul64, wrap, described_bytes.
  rewrite (Z.mul_mod_idemp_r (ct_bins_per_table t)), Z.mul_mod_idemp_r, Z.add_mod_idemp_r by done. f_equal. lia.
Qed.

Lemma parse_header_ok level path n header t : bytes_ok header -> parse_header level path n header = Ok t -> header_ok level n t /\ ct_path t = path.
Proof.
  intros Hb. unfold parse_header. intros H. apply obind_Ok in H as (magic & _ & H). apply obind_Ok in H as (kind & Hkind & H).
  apply obind_Ok in H as (k & Hk & H). apply obind_Ok in H as (sl & Hsl & H). apply obind_Ok in H as (bins & Hbins & H).
  apply obind_Ok in H as (nh & _ & H). apply obind_Ok in H as (ms & _ & H). apply obind_Ok in H as (tag & _ & H).
  apply obind_Ok in H as ([] & Hv & <-%Ok_inj).
  apply header_word_range in Hk, Hsl, Hbins; try done. change (256 ^ 4) with (2 ^ 32) in *.
  unfold cuckoo_validate, guardo in Hv. cbn [ct_k ct_slots_per_bin ct_bins_per_table ct_num_hashes ct_file_bytes] in Hv.
  destruct (k =? 0) eqn:E1, (sl =? 0) eqn:E2, (bins =? 0) eqn:E3, (nh =? 0) eqn:E4; cbn [negb obind] in Hv; try done.
  destruct (n =? _) eqn:E5; [|done]. zbool. split; [|done]. split; cbn; try done; try lia; [by exists kind|]. by rewrite <-expected_wraps.
Qed.

Lemma header_table_ok level n t : header_ok level n t -> described_bytes t <= u64_max -> table_ok t.
Proof.
  intros [Hl Hf Hk Hs Hb Hsl (kind & _ & Ho) Hn] Hd. assert (0 < ct_slot_size t) as H0 by (rewrite Hsl; by destruct level).
  assert (0 <= ct_data_offset t) as H1 by (rewrite Ho; by destruct level, kind).
  assert (0 <= described_bytes t) as H2 by (unfold described_bytes; nia). rewrite wrap_small in Hn by (unfold u64_max in *; lia).
  split; (lia || done).
Qed.

Section Open.
Context {O : Type} `{MmapLaws}.

Lemma from_file_inv level path (h h1 : Host O) t b : files h !! render path = Some b -> bytes_ok b ->
  from_file level path h = (Ok t, h1) -> header_ok level (lenZ b) t /\ ct_path t = path /\ files h1 = files h /\ (faults h = [] -> faults h1 = []).
Proof.
  intros Hb Hby. unfold from_file, cuckoo_file_open, fs_read, fs_len, cuckoo_read_exact, next_fault, bind, gets, lift, ret, fail. cbn.
  rewrite Hb. destruct (default None (head (faults h))); [done|]. cbn. rewrite Hb.
  destruct (default None (head (tail (faults h)))); [done|]. cbn.
  destruct (default None (head (tail (tail (faults h))))); [done|]. destruct (lenZ b <? _); [done|].
  destruct (slice b 0 _) as [header| | |] eqn:E; try done. intros [= E1 <-]. cbn. apply parse_header_ok in E1 as [Hh Hp].
  - split_and!; try done. by intros ->.
  - apply Forall_app. split; [|apply zeros_ok]. unfold slice in E. destruct (_ && _); [|done]. apply Ok_inj in E as <-.
    by apply Forall_take, Forall_drop.
Qed.

(** The header is read from the file alone. *)
Lemma from_file_elsewhere level path (h h' : Host O) t h1 : faults h = [] -> faults h' = [] -> files h' !! render path = files h !! render path ->
  from_file level path h = (Ok t, h1) -> from_file level path h' = (Ok t, h').
Proof.
  intros Hf Hf' E. destruct h as [fs fl r], h' as [fs' fl' r']. cbn in Hf, Hf', E. subst fl fl'.
  unfold from_file, cuckoo_file_open, fs_read, fs_len, cuckoo_read_exact, next_fault, bind, gets, lift, ret, fail. cbn. rewrite E.
  destruct (fs !! render path) as [b|] eqn:Eb; [|done]. cbn. rewrite E, Eb. destruct (lenZ b <? _); [done|]. destruct (slice b 0 _); [|done..].
  by intros [= <- _].
Qed.

Lemma cuckoo_open_ok level t b per (h : Host O) : faults h = [] -> files h !! render (ct_path t) = Some b -> bytes_ok b ->
  header_ok level (lenZ b) t -> described_bytes t <= u64_max -> 0 < per -> bin_size t * per <= u64_max ->
  exists s h', cuckoo_open t per h = (Ok s, h') /\ cuckoo_source_ok s /\ cu_table s = t /\ cu_bins_per_block s = per /\ cu_mmap s = b.
Proof.
  intros Hf Hb Hby Hh Hd Hper Hfit. pose proof (header_table_ok _ _ _ Hh Hd) as Ht. destruct (table_sizes t Ht) as (_ & Hsz & _ & Htb & E).
  assert (0 < lenZ b) as Hl by (rewrite <-(hd_file _ _ _ Hh), <-E; pose proof (tb_offset _ Ht); nia).
  unfold cuckoo_open. rewrite bind_guardm, (proj2 (Z.eqb_neq per 0)) by lia. cbn [negb]. destruct (open_mmap_ok _ h b Hf Hb Hl) as (h' & Eo).
  rewrite (bind_eq _ _ _ _ _ Eo). eexists _, h'. split; [reflexivity|]. split; [|done]. split; cbn; try done.
  - by rewrite mul64_small by nia.
  - by rewrite (hd_file _ _ _ Hh).
Qed.

End Open.

(** ** Reading *)

Section Reading.
Context `{SL : SubtleLaws} {MS PS R : Type}.
Context `{LM : LawfulPathStore MS} `{LP : LawfulPathStore PS} `{Rng R}.
Local Abbreviation BR := (CircuitCuckooBinReader MS PS R).

Lemma on_cb_oram_eq {A} (m : M (CircuitOram MS PS R) A) (rd : BR) r o : m (cb_oram rd) = (r, o) -> on_cb_oram m rd = (r, set_cb_oram o rd).
Proof. apply zoom_eq. Qed.

(** The reader is that of the source's table. *)
Definition bin_reader_ok (s : CuckooPackedBlockReader) (rd : BR) : Prop :=
  cb_total_bins rd = total_bins (cu_table s) /\ cb_bins_per_block rd = cu_bins_per_block s /\ cb_bin_size rd = bin_size (cu_table s).

Lemma bin_reader_new_ok s o (rd : BR) : bin_reader_new (cu_table s) (cu_bins_per_block s) o = Ok rd -> bin_reader_ok s rd /\ cb_oram rd = o.
Proof.
  unfold bin_reader_new, guardo. destruct (_ =? 0); [done|]. destruct (logical_blocks _ =? _); [|done]. cbn [obind].
  destruct (block_size _ =? _); [|done]. by intros <-%Ok_inj.
Qed.

(** Reading a bin is reading its block, a drain, and the cut. *)
Definition bin_place (s : CuckooPackedBlockReader) (b : Z) : PackedCuckooBinLocation :=
  mkBinLocation (b / cu_bins_per_block s) (mul64 (b mod cu_bins_per_block s) (bin_size (cu_table s))) (bin_size (cu_table s)).

Lemma bin_block s b : cuckoo_source_ok s -> 0 <= b < total_bins (cu_table s) ->
  0 <= b / cu_bins_per_block s < cu_logical_blocks s /\ lenZ (cuckoo_array s) = cu_logical_blocks s.
Proof.
  intros [_ Hper Hbl _ _ _ _] Hb. pose proof (item_block (total_bins (cu_table s)) _ Hper b Hb) as Hblk. rewrite <-Hbl in Hblk.
  split; [done|]. unfold cuckoo_array. rewrite lenZ_fmap. unfold lenZ. rewrite length_seqZ. lia.
Qed.

Lemma bin_cut s b : cuckoo_source_ok s -> 0 <= b < total_bins (cu_table s) ->
  locate_packed_cuckoo_bin (total_bins (cu_table s)) (cu_bins_per_block s) (bin_size (cu_table s)) b = Ok (bin_place s b) /\
  bin_range (cuckoo_content s (b / cu_bins_per_block s)) (bin_place s b) = Ok (file_bin s b).
Proof.
  intros Hs Hb. pose proof Hs as [Ht Hper Hbl Hp Hfit Hf Hby]. destruct (table_sizes _ Ht) as (_ & Hsz & _ & Htb & _).
  pose proof (Z.mod_pos_bound b _ Hper) as Hmod. split.
  - unfold locate_packed_cuckoo_bin. by rewrite (proj2 (Z.eqb_neq _ _)), (proj2 (Z.eqb_neq (bin_size _) 0)), (proj2 (Z.leb_gt _ _)) by lia.
  - unfold cuckoo_content, bin_range, bin_place. cbn [bl_byte_offset bl_byte_len]. rewrite mul64_small by nia. rewrite add64_small by nia.
    replace (b mod cu_bins_per_block s * bin_size (cu_table s) + bin_size (cu_table s) - b mod cu_bins_per_block s * bin_size (cu_table s))
      with (bin_size (cu_table s)) by lia.
    by rewrite (packed_item (file_bin s) (total_bins (cu_table s)) (cu_bins_per_block s) (bin_size (cu_table s)) Hper (fun i => file_bin_length s i Hs) b Hb).
Qed.

Lemma cuckoo_read_bin_ok s b : cuckoo_source_ok s -> 0 <= b < total_bins (cu_table s) -> cuckoo_read_bin s b = Ok (file_bin s b).
Proof.
  intros Hs Hb. destruct (bin_cut s b Hs Hb) as [El Er]. unfold cuckoo_read_bin. rewrite El. cbn [obind bin_place bl_logical_block].
  rewrite cuckoo_read_block_ok by (done || by apply bin_block). exact Er.
Qed.

Lemma read_bin_run s (rd : BR) b drain o1 o2 n : cuckoo_source_ok s -> bin_reader_ok s rd -> 0 <= b < total_bins (cu_table s) ->
  read (b / cu_bins_per_block s) (cb_oram rd) = (Ok (arr_get (cuckoo_array s) (b / cu_bins_per_block s)), o1) ->
  drain_evictions drain o1 = (Ok n, o2) ->
  exists r, read_bin b drain rd = (Ok r, set_cb_oram o2 rd) /\ br_bin_id r = b /\ br_payload r = file_bin s b.
Proof.
  intros Hs (Hrt & Hrp & Hrs) Hb E1 E2. destruct (bin_cut s b Hs Hb) as [El Er]. destruct (bin_block s b Hs Hb) as [Hblk _].
  unfold read_bin. rewrite bind_gets, Hrt, Hrp, Hrs, bind_lift, El. cbn [bin_place bl_logical_block].
  rewrite (bind_eq _ _ _ _ _ (on_cb_oram_eq _ rd _ _ E1)), bind_lift. unfold cuckoo_array at 1. rewrite arr_get_map by done. fold (bin_place s b).
  rewrite Er. rewrite (bind_eq _ _ _ _ _ (on_cb_oram_eq _ (set_cb_oram o1 rd) _ _ E2)). by eexists.
Qed.
Lemma read_bin_fails s (rd : BR) b drain o1 e : cuckoo_source_ok s -> bin_reader_ok s rd -> 0 <= b < total_bins (cu_table s) ->
  read (b / cu_bins_per_block s) (cb_oram rd) = (Err e, o1) -> read_bin b drain rd = (Err e, set_cb_oram o1 rd).
Proof.
  intros Hs (Hrt & Hrp & Hrs) Hb E1. destruct (bin_cut s b Hs Hb) as [El _]. unfold read_bin. rewrite bind_gets, Hrt, Hrp, Hrs, bind_lift, El.
  cbn [bin_place bl_logical_block]. by rewrite (bind_err _ _ _ _ _ (on_cb_oram_eq _ rd _ _ E1)).
Qed.

Lemma read_bin_ok s (rd : BR) b drain k : cuckoo_source_ok s -> bin_reader_ok s rd -> 0 <= b < total_bins (cu_table s) -> 0 <= drain -> 0 <= k ->
  ready (1 + k) (cb_oram rd) (cuckoo_array s) ->
  exists r rd', read_bin b drain rd = (Ok r, rd') /\ bin_reader_ok s rd' /\ ready k (cb_oram rd') (cuckoo_array s) /\
    br_bin_id r = b /\ br_payload r = file_bin s b.
Proof.
  intros Hs Hrd Hb Hd Hk Hr. destruct (bin_block s b Hs Hb) as [Hblk Hl].
  destruct (read_then_drain k _ _ (b / cu_bins_per_block s) drain Hr Hk ltac:(by rewrite Hl) Hd) as (o1 & o2 & n & E1 & E2 & Hr2).
  destruct (read_bin_run s rd b drain o1 o2 n Hs Hrd Hb E1 E2) as (r & E & Hid & Hpl). exists r, (set_cb_oram o2 rd). by split_and!.
Qed.

Lemma read_bins_ok s drain bins : cuckoo_source_ok s -> 0 <= drain -> Forall (fun b => 0 <= b < total_bins (cu_table s)) bins ->
  forall (rd : BR) k, bin_reader_ok s rd -> 0 <= k -> ready (lenZ bins + k) (cb_oram rd) (cuckoo_array s) ->
  exists rs rd', mapM (fun b => read_bin b drain) bins rd = (Ok rs, rd') /\ bin_reader_ok s rd' /\ ready k (cb_oram rd') (cuckoo_array s) /\
    br_bin_id <$> rs = bins /\ br_payload <$> rs = file_bin s <$> bins.
Proof.
  intros Hs Hd. induction 1 as [|b bins Hb _ IH]; intros rd k Hrd Hk Hr; cbn [mapM].
  { exists [], rd. change (lenZ []) with 0 in Hr. rewrite Z.add_0_l in Hr. done. }
  pose proof (lenZ_nonneg bins) as Hl. rewrite lenZ_cons, <-Z.add_assoc in Hr.
  destruct (read_bin_ok s rd b drain (lenZ bins + k) Hs Hrd Hb Hd ltac:(lia) Hr) as (r & rd1 & E1 & Hrd1 & Hr1 & Hid & Hpl).
  destruct (IH rd1 k Hrd1 Hk Hr1) as (rs & rd2 & E2 & Hrd2 & Hr2 & Hids & Hpls).
  rewrite (bind_eq _ _ _ _ _ E1), (bind_eq _ _ _ _ _ E2). exists (r :: rs), rd2. split; [done|]. split; [done|]. split; [done|].
  cbn [fmap list_fmap]. split; f_equal; done.
Qed.

End Reading.

(** ** Properties *)

Section Properties.
Context `{SL : SubtleLaws} {MS PS R O : Type}.
Context `{LM : LawfulPathStore MS} `{LP : LawfulPathStore PS} `{Rng R} `{MmapLaws}.

(** C37: a header that [from_file] accepts has non-zero 32-bit dimensions and the file
    has the length it describes modulo [2 ^ 64]; when the described length is a word
    the table opens, and every block of the packed source is well formed. *)
Theorem cuckoo_table_opens level path per (h h1 : Host O) t b :
  faults h = [] -> files h !! render path = Some b -> bytes_ok b -> lenZ b <= u64_max ->
  from_file level path h = (Ok t, h1) ->
  header_ok level (lenZ b) t /\ (lenZ b = described_bytes t <-> described_bytes t <= u64_max) /\
  (described_bytes t <= u64_max -> 0 < per -> bin_size t * per <= u64_max ->
     exists s h2, cuckoo_open t per h1 = (Ok s, h2) /\ cuckoo_source_ok s /\ cu_table s = t /\ cu_bins_per_block s = per /\ cu_mmap s = b).
Proof.
  intros Hf Hb Hby Hl E. destruct (from_file_inv level path h h1 t b Hb Hby E) as (Hh & Hp & Hfiles & Hf1).
  split; [exact Hh|]. split.
  - split; [by intros <-|]. intros Hd. pose proof (header_table_ok _ _ _ Hh Hd) as Ht. rewrite <-(tb_file _ Ht). symmetry. apply (hd_file _ _ _ Hh).
  - intros Hd Hper Hfit. apply (cuckoo_open_ok level); try done; [by apply Hf1|by rewrite Hfiles, Hp].
Qed.

(** Bins read through a controller that stores the packed table are the bins of
    the file: any sequence of reads returns, bin by bin, the bytes at the bin's place
    in the file and leaves the reader ready for the rest of its accesses. *)
Theorem cuckoo_bins_correct (s : CuckooPackedBlockReader) (o : CircuitOram MS PS R) rd bins drain k :
  cuckoo_source_ok s -> bin_reader_new (cu_table s) (cu_bins_per_block s) o = Ok rd ->
  Forall (fun b => 0 <= b < total_bins (cu_table s)) bins -> 0 <= drain -> 0 <= k ->
  ready (lenZ bins + k) o (cuckoo_array s) ->
  exists rs rd', mapM (fun b => read_bin b drain) bins rd = (Ok rs, rd') /\ ready k (cb_oram rd') (cuckoo_array s) /\
    br_bin_id <$> rs = bins /\
    br_payload <$> rs = (fun b => take (Z.to_nat (bin_size (cu_table s)))
        (drop (Z.to_nat (ct_data_offset (cu_table s) + b * bin_size (cu_table s))) (cu_mmap s))) <$> bins.
Proof.
  intros Hs Hn Hb Hd Hk Hr. destruct (bin_reader_new_ok s o rd Hn) as [Hrd <-].
  destruct (read_bins_ok s drain bins Hs Hd Hb rd k Hrd Hk Hr) as (rs & rd' & E & _ & Hr' & Hids & Hpl). by exists rs, rd'.
Qed.

End Properties.

(** The length check of a header is made modulo [2 ^ 64]: a file of 32 bytes is
    accepted as a CHUNK table of [2 ^ 62] bins of 44 bytes. *)
Theorem cuckoo_header_wraps : exists (h h1 : Host unit) t,
  from_file Chunk (filename "db" Chunk) h = (Ok t, h1) /\ ct_file_bytes t = 32 /\
  ct_k t * ct_bins_per_table t = 2 ^ 62 /\ total_bins t = 2 ^ 62 /\ bin_size t = 44 /\ described_bytes t = 32 + 44 * 2 ^ 62.
Proof.
  set (header := to_le 8 CHUNK_MAGIC ++ to_le 4 (2 ^ 31) ++ to_le 4 1 ++ to_le 4 (2 ^ 31) ++ to_le 4 1 ++ to_le 8 0).
  set (h := mkHost {[ render (filename "db" Chunk) := header ]} [] tt : Host unit).
  exists h, h. eexists. split; [unfold h; vm_compute; reflexivity|]. by split_and!.
Qed.

(** ** A concrete table: two groups of two bins of one slot *)

Definition demo_table_path : FilePath := filename "db" Index.
Definition demo_table_file : bytes :=
  to_le 8 INDEX_MAGIC ++ to_le 4 2 ++ to_le 4 1 ++ to_le 4 2 ++ to_le 4 3 ++ to_le 8 7 ++ to_le 8 9 ++
  concat ((fun i => replicate 13 i) <$> seqZ 1 4).
Definition demo_cuckoo_host : Host Z := mkHost {[ render demo_table_path := demo_table_file ]} [] 0.
Definition demo_table : CuckooTableInfo := mkCuckooInfo Index demo_table_path 92 INDEX_MAGIC Legacy 40 2 1 2 3 7 (Some 9) 13.
Definition demo_cuckoo : CuckooPackedBlockReader := mkCuckooSource demo_table 2 2 26 0 demo_table_file.

Lemma demo_table_bytes : bytes_ok demo_table_file.
Proof.
  apply Forall_forall. intros x Hx. vm_compute in Hx. revert x Hx. apply Forall_forall. repeat constructor; vm_compute; intuition discriminate.
Qed.

Lemma demo_table_parses : from_file Index demo_table_path demo_cuckoo_host = (Ok demo_table, demo_cuckoo_host) /\
  cuckoo_open (H := plain_mmap) demo_table 2 demo_cuckoo_host = (Ok demo_cuckoo, demo_cuckoo_host).
Proof. split; vm_compute; reflexivity. Qed.

Lemma cuckoo_table_opens_witness :
  from_file Index demo_table_path demo_cuckoo_host = (Ok demo_table, demo_cuckoo_host) /\ lenZ demo_table_file = described_bytes demo_table /\
  exists s h2, cuckoo_open (H := plain_mmap) demo_table 2 demo_cuckoo_host = (Ok s, h2) /\ cuckoo_source_ok s /\ cu_table s = demo_table.
Proof.
  destruct demo_table_parses as [E _]. split; [exact E|].
  destruct (@cuckoo_table_opens Z plain_mmap plain_mmap_laws Index demo_table_path 2 demo_cuckoo_host demo_cuckoo_host demo_table demo_table_file
    eq_refl eq_refl demo_table_bytes) as (_ & Hl & Hopen); [vm_compute; discriminate|exact E|].
  assert (described_bytes demo_table <= u64_max) as Hd by (vm_compute; discriminate). split; [by apply Hl|].
  destruct (Hopen Hd) as (s & h2 & Eo & Hs & Ht & _); [done|vm_compute; discriminate|]. exists s, h2. split; [exact Eo|]. split; [exact Hs|exact Ht].
Defined.

Lemma demo_cuckoo_ok : cuckoo_source_ok demo_cuckoo.
Proof. split; try (by vm_compute); try apply demo_table_bytes; split; by vm_compute. Qed.

Lemma demo_bin_reader : exists (o : CircuitOram MemPageStore MemPageStore Z) rd,
  bin_reader_new demo_table 2 o = Ok rd /\ ready 4 o (cuckoo_array demo_cuckoo).
Proof.
  pose proof demo_cuckoo_ok as Hs.
  destruct (build_spec (SL := bool_subtle_laws) (R := Z) (LS := cuckoo_lawful) (mkParams 2 26 2 2 8) ltac:(split; vm_compute; intuition discriminate)
    ltac:(vm_compute; discriminate) ltac:(vm_compute; discriminate) (mkMem 26 (zeros (3 * 26))) (mkMem 52 (zeros (3 * 52))) demo_cuckoo [5]
    (cuckoo_content demo_cuckoo)) as [(o & T & E & Ho & Hp & Hsch)|E].
  - by apply zero_store_ok.
  - by apply zero_store_ok.
  - split_and!; by vm_compute.
  - split_and!; [exact Hs|done|done].
  - done.
  - intros id Hid. exact (cuckoo_content_ok demo_cuckoo id Hs Hid).
  - exists o. eexists. split; [unfold bin_reader_new; rewrite Hp; vm_compute; reflexivity|]. split; [exists T; exact Ho|]. rewrite Hsch, Hp.
    split; [vm_compute; intuition discriminate|]. vm_compute in E. apply Ok_inj in E. subst o. vm_compute. discriminate.
  - exfalso. vm_compute in E. discriminate E.
Qed.

Lemma cuckoo_bins_correct_witness : exists (rd : CircuitCuckooBinReader MemPageStore MemPageStore Z) rs rd',
  mapM (fun b => read_bin (H := bool_subtle) b 2) [3; 0; 3] rd = (Ok rs, rd') /\
  br_payload <$> rs = [replicate 13 4; replicate 13 1; replicate 13 4].
Proof.
  destruct demo_bin_reader as (o & rd & En & Hr). exists rd.
  destruct (cuckoo_bins_correct (SL := bool_subtle_laws) demo_cuckoo o rd [3; 0; 3] 2 1 demo_cuckoo_ok En) as (rs & rd' & E & _ & _ & Hp).
  - repeat constructor; vm_compute; intuition discriminate.
  - discriminate.
  - discriminate.
  - exact Hr.
  - exists rs, rd'. split; [exact E|]. rewrite Hp. vm_compute. reflexivity.
Defined.
