(* ===== verification/Extract.v ===== *)
(** * Direct chunks from a cuckoo table ([src/src/bin/oramctl.rs], [extract_direct_chunks])

    A chunk cuckoo table stores every chunk in several slots.  The extraction collects
    them by chunk id into the flat file the direct CHUNK array is built from, and
    refuses tables whose copies differ or whose ids have gaps.  An extraction succeeds
    exactly when every chunk id up to the largest occurs and all its copies agree; the
    file then holds each chunk at its id. *)


From S2P Require Import Prelude Params Store SealedState Direct DirectSpec Cuckoo CuckooSpec.

Definition CHUNK_ID_BYTES : Z := 4.
Definition CHUNK_DATA_BYTES : Z := 40.
Definition CHUNK_SLOT_BYTES : Z := CHUNK_ID_BYTES + CHUNK_DATA_BYTES.

(** [is_zero_slot] *)
Definition is_zero_slot (slot : bytes) : bool := forallb (fun b => b =? 0) slot.

(** [bit_is_set] and [set_bit] *)
Definition bit_is_set (bits : bytes) (idx : Z) : outcome bool :=
  let? b := indexZ bits (idx / 8) in Ok (negb (Z.land b (Z.shiftl 1 (idx mod 8)) =? 0)).
Definition set_bit (bits : bytes) (idx : Z) : outcome bytes :=
  let? b := indexZ bits (idx / 8) in updateZ bits (idx / 8) (Z.lor b (Z.shiftl 1 (idx mod 8))).

(** [u32::from_le_bytes(slot[..CHUNK_ID_BYTES])] *)
Definition slot_chunk_id (slot : bytes) : outcome Z := let? b := slice slot 0 CHUNK_ID_BYTES in Ok (from_le b).

(** One slot of the first pass *)
Definition scan_slot (st : Z * option Z) (slot : bytes) : outcome (Z * option Z) :=
  if is_zero_slot slot then Ok st
  else
    let? chunk_id := slot_chunk_id slot in
    Ok (st.1 + 1, Some (match st.2 with None => chunk_id | Some m => Z.max m chunk_id end)).

(** The local variables of the second pass *)
Record ExtractState : Type := mkExtract {
  ex_out_map : bytes;
  ex_seen : bytes;
  ex_unique_chunks : Z;
  ex_duplicate_slots : Z;
  ex_conflicting_duplicates : Z
}.

(** One slot of the second pass *)
Definition copy_slot (st : ExtractState) (slot : bytes) : outcome ExtractState :=
  if is_zero_slot slot then Ok st
  else
    let? chunk_id := slot_chunk_id slot in
    let? chunk := slice slot CHUNK_ID_BYTES (CHUNK_SLOT_BYTES - CHUNK_ID_BYTES) in
    let? out_start := ok_or (checked_mul64 chunk_id CHUNK_DATA_BYTES) (InvalidInput "direct chunk offset overflow") in
    let out_end := add64 out_start CHUNK_DATA_BYTES in
    let? set := bit_is_set (ex_seen st) chunk_id in
    if set then
      let? old := slice (ex_out_map st) out_start (out_end - out_start) in
      let conflict := negb (bool_decide (old = chunk)) in
      Ok (mkExtract (ex_out_map st) (ex_seen st) (ex_unique_chunks st) (ex_duplicate_slots st + 1)
            (if conflict then ex_conflicting_duplicates st + 1 else ex_conflicting_duplicates st))
    else
      let? seen := set_bit (ex_seen st) chunk_id in
      let? dst := slice (ex_out_map st) out_start (out_end - out_start) in
      let? src := copy_from_slice dst chunk in
      let? out_map := splice (ex_out_map st) out_start src in
      Ok (mkExtract out_map seen (ex_unique_chunks st + 1) (ex_duplicate_slots st) (ex_conflicting_duplicates st)).

(** What the tool prints of a finished extraction *)
Record ExtractReport : Type := mkExtractReport {
  xr_non_empty_slots : Z;
  xr_duplicate_slots : Z;
  xr_unique_chunks : Z;
  xr_output_bytes : Z
}.

Section Files.
Context {O : Type} `{Mmap}.

(** [OpenOptions::open] with [truncate], [File::set_len] and [map_mut]: a file of
    zeros.  The mapping shares its memory with the file, so the file is what the loop
    leaves in the mapping; [flush] and [sync_all] can fail. *)
Definition create_zeroed (path : FilePath) (len : Z) : M (Host O) bytes :=
  let* _ := file_create path in
  let* _ := write_and_flush path (zeros len) in
  let* fault := next_fault in
  match fault, mmap (zeros len) with None, Some m => ret m | _, _ => fail IoError end.
Definition file_sync : M (Host O) unit :=
  let* fault := next_fault in match fault with None => ret tt | Some _ => fail IoError end.

(** [extract_direct_chunks] *)
Definition extract_direct_chunks (chunk_cuckoo_file out_file : FilePath) : M (Host O) ExtractReport :=
  let* info := from_file Chunk chunk_cuckoo_file in
  let* _ := guardm (ct_slot_size info =? CHUNK_SLOT_BYTES) (InvalidInput "chunk cuckoo slot size {} != expected {}") in
  let* mm := open_mmap chunk_cuckoo_file in
  let* table := lift (slice mm (ct_data_offset info) (lenZ mm - ct_data_offset info)) in
  let* _ := guardm (lenZ table mod CHUNK_SLOT_BYTES =? 0) (InvalidInput "chunk cuckoo payload size {} is not a multiple of {}") in
  let* slots := lift (chunks_exact CHUNK_SLOT_BYTES table) in
  let* scan := lift (ofold scan_slot (0, None) slots) in
  let* max_chunk_id := lift (ok_or scan.2 (InvalidInput "no non-empty CHUNK slots found in {}")) in
  let chunk_count := max_chunk_id + 1 in
  let* out_bytes := lift (ok_or (checked_mul64 chunk_count CHUNK_DATA_BYTES) (InvalidInput "direct chunk output size overflow")) in
  let* out_map := create_zeroed out_file out_bytes in
  let* st := lift (ofold copy_slot (mkExtract out_map (zeros (div_ceil chunk_count 8)) 0 0 0) slots) in
  let* _ := modify (fun h => set_files (<[render out_file := ex_out_map st]> (files h)) h) in
  let* _ := guardm (ex_conflicting_duplicates st =? 0) (InvalidInput "found {} conflicting duplicate chunk slots in {}") in
  let* _ := guardm (ex_unique_chunks st =? chunk_count)
              (InvalidInput "chunk ids are not contiguous: recovered {} unique chunks but max_chunk_id={} implies {}; first missing ids={:?}") in
  let* _ := file_sync in
  let* _ := file_sync in
  ret (mkExtractReport scan.1 (ex_duplicate_slots st) (ex_unique_chunks st) out_bytes).

End Files.

(** ** Bit sets *)

Definition seen_bit (bits : bytes) (i : Z) : bool :=
  match bits !! Z.to_nat (i / 8) with Some b => Z.testbit b (i mod 8) | None => false end.

Lemma land_bit b k : 0 <= k -> negb (Z.land b (Z.shiftl 1 k) =? 0) = Z.testbit b k.
Proof.
  intros Hk. rewrite Z.shiftl_1_l. destruct (Z.testbit b k) eqn:E.
  - apply negb_true_iff, Z.eqb_neq. intros Hz. apply (f_equal (fun z => Z.testbit z k)) in Hz.
    by rewrite Z.land_spec, E, Z.pow2_bits_true, Z.bits_0 in Hz.
  - apply negb_false_iff, Z.eqb_eq. apply Z.bits_inj'. intros n Hn. rewrite Z.land_spec, Z.bits_0, Z.pow2_bits_eqb by done.
    destruct (k =? n) eqn:En; zbool; [subst; by rewrite E|by rewrite andb_false_r].
Qed.

Lemma bit_is_set_ok bits i : 0 <= i -> i / 8 < lenZ bits -> bit_is_set bits i = Ok (seen_bit bits i).
Proof.
  intros Hi Hl. unfold bit_is_set, seen_bit. pose proof (Z.div_pos i 8 Hi eq_refl).
  destruct (lookup_lt_is_Some_2 bits (Z.to_nat (i / 8))) as [b Hb]; [unfold lenZ in Hl; lia|].
  rewrite (indexZ_lookup _ _ b), Hb by done. cbn [obind]. rewrite land_bit; [done|]. by apply Z.mod_pos_bound.
Qed.

Lemma set_bit_ok bits i : 0 <= i -> i / 8 < lenZ bits ->
  exists bits', set_bit bits i = Ok bits' /\ lenZ bits' = lenZ bits /\ forall j, 0 <= j -> seen_bit bits' j = (j =? i) || seen_bit bits j.
Proof.
  intros Hi Hl. unfold set_bit. pose proof (Z.div_pos i 8 Hi eq_refl) as Hd. pose proof (Z.mod_pos_bound i 8 eq_refl) as Hm.
  destruct (lookup_lt_is_Some_2 bits (Z.to_nat (i / 8))) as [b Hb]; [unfold lenZ in Hl; lia|].
  rewrite (indexZ_lookup _ _ b) by done. cbn [obind]. unfold updateZ. rewrite (proj2 (andb_true_iff _ _)) by lia.
  eexists. split; [reflexivity|]. split; [unfold lenZ; by rewrite length_insert|]. intros j Hj. unfold seen_bit.
  pose proof (Z.div_mod i 8 ltac:(lia)). pose proof (Z.div_mod j 8 ltac:(lia)). pose proof (Z.mod_pos_bound j 8 eq_refl). pose proof (Z.div_pos j 8 Hj eq_refl).
  destruct (decide (j / 8 = i / 8)) as [E|E].
  - rewrite E, list_lookup_insert_eq, Hb by (unfold lenZ in Hl; lia). rewrite Z.shiftl_1_l, Z.lor_spec, Z.pow2_bits_eqb by lia.
    rewrite orb_comm. f_equal. destruct (i mod 8 =? j mod 8) eqn:E1, (j =? i) eqn:E2; zbool; (done || lia).
  - rewrite list_lookup_insert_ne by lia. by rewrite (proj2 (Z.eqb_neq j i)) by congruence.
Qed.

Lemma seen_bit_zeros n i : seen_bit (zeros n) i = false.
Proof. unfold seen_bit, zeros. destruct (replicate _ _ !! _) as [b|] eqn:E; [|done]. apply lookup_replicate in E as [-> _]. apply Z.bits_0. Qed.

(** ** Slots as entries *)

(** The chunk a slot holds; all-zero slots are empty. *)
Definition slot_entry (slot : bytes) : option (Z * bytes) := if is_zero_slot slot then None else Some (from_le (take 4 slot), drop 4 slot).
Definition entries (slots : list bytes) : list (Z * bytes) := omap slot_entry slots.

Definition scan_entry (st : Z * option Z) (e : Z * bytes) : Z * option Z :=
  (st.1 + 1, Some (match st.2 with None => e.1 | Some m => Z.max m e.1 end)).

Definition slot_ok (slot : bytes) : Prop := lenZ slot = 44 /\ bytes_ok slot.

Lemma slot_parts slot : slot_ok slot -> slot_chunk_id slot = Ok (from_le (take 4 slot)) /\ slice slot 4 40 = Ok (drop 4 slot) /\
  0 <= from_le (take 4 slot) < 2 ^ 32 /\ page_ok 40 (drop 4 slot).
Proof.
  intros [Hl Hb]. unfold slot_chunk_id, CHUNK_ID_BYTES, slice. rewrite Hl. cbn. unfold lenZ in Hl. rewrite drop_0. split; [done|].
  split; [by rewrite take_ge by (rewrite length_drop; lia)|]. destruct (bytes_ok_take_drop slot 4 Hb) as [Ht Hd]. split.
  - pose proof (from_le_bound _ Ht) as Hr. replace (lenZ (take 4 slot)) with 4 in Hr by (unfold lenZ; rewrite length_take; lia). exact Hr.
  - split; [unfold lenZ; rewrite length_drop; lia|done].
Qed.

Lemma entries_range slots e : Forall slot_ok slots -> e ∈ entries slots -> 0 <= e.1 < 2 ^ 32.
Proof.
  intros Hs (slot & Hslot & He)%list_elem_of_omap. rewrite Forall_forall in Hs.
  destruct (slot_parts slot (Hs _ Hslot)) as (_ & _ & Hid & _). unfold slot_entry in He. destruct (is_zero_slot slot); [done|]. by injection He as <-.
Qed.

Lemma scan_slots_ok slots st : Forall slot_ok slots -> ofold scan_slot st slots = Ok (foldl scan_entry st (entries slots)).
Proof.
  intros Hs. revert st. induction Hs as [|slot slots Hslot _ IH]; intros st; [done|]. unfold entries. cbn [ofold omap list_omap].
  unfold scan_slot, slot_entry. destruct (is_zero_slot slot); cbn [obind]; [apply IH|].
  destruct (slot_parts slot Hslot) as (-> & _). cbn [obind foldl]. apply IH.
Qed.

Lemma scan_entries_ok es st : foldl scan_entry st es = (st.1 + lenZ es, match es with [] => st.2 | _ => (foldl scan_entry st es).2 end).
Proof.
  revert st. induction es as [|e es IH]; intros st; cbn [foldl]; [destruct st; cbn; f_equal; change (lenZ []) with 0; lia|].
  rewrite IH. cbn [fst scan_entry]. rewrite lenZ_cons. f_equal. lia.
Qed.

(** The largest id. *)
Lemma scan_max es n m : match (foldl scan_entry (n, m) es).2 with
  | Some mx => (forall e, e ∈ es -> e.1 <= mx) /\ (mx ∈ es.*1 \/ m = Some mx) /\ (forall m0, m = Some m0 -> m0 <= mx)
  | None => es = [] /\ m = None
  end.
Proof.
  revert n m. induction es as [|e es IH]; intros n m; cbn [foldl].
  { cbn. destruct m as [m|]; [|done]. split; [intros e He; by apply not_elem_of_nil in He|]. split; [by right|intros ? [= <-]; done]. }
  unfold scan_entry at 2. cbn [fst snd]. specialize (IH (n + 1) (Some (match m with None => e.1 | Some m0 => Z.max m0 e.1 end))).
  destruct (foldl _ _ es).2 as [mx|]; [|by destruct IH]. destruct IH as (H1 & H2 & H3). specialize (H3 _ eq_refl). split; [|split].
  - intros e' [->|He']%elem_of_cons; [destruct m; lia|by apply H1].
  - destruct H2 as [H2|[= H2]]; [left; set_solver|]. destruct m as [m0|]; [|left; set_solver].
    destruct (Z.max_spec m0 e.1) as [[_ E]|[_ E]]; rewrite E in H2; subst; [left; set_solver|by right].
  - intros m0 ->. lia.
Qed.

(** ** The second pass *)

(** The first copy of a chunk. *)
Fixpoint first_data (id : Z) (es : list (Z * bytes)) : option bytes :=
  match es with [] => None | e :: es => if e.1 =? id then Some e.2 else first_data id es end.

Lemma first_data_app id es es' : first_data id (es ++ es') = match first_data id es with Some d => Some d | None => first_data id es' end.
Proof. induction es as [|e es IH]; [done|]. cbn. by destruct (_ =? _). Qed.

Lemma first_data_None id es : first_data id es = None <-> id ∉ es.*1.
Proof.
  induction es as [|e es IH]; cbn [first_data fmap list_fmap]; [split; [intros _; apply not_elem_of_nil|done]|].
  rewrite not_elem_of_cons, <-IH. destruct (e.1 =? id) eqn:E; zbool; naive_solver.
Qed.

Lemma first_data_elem id es d : first_data id es = Some d -> (id, d) ∈ es.
Proof.
  induction es as [|[i x] es IH]; cbn [first_data fst snd]; [done|]. destruct (i =? id) eqn:E; zbool; [intros [= <-]; subst; apply list_elem_of_here|].
  intros H. by apply list_elem_of_further, IH.
Qed.

(** The ids that were met. *)
Definition met (count : Z) (es : list (Z * bytes)) : list Z := filter (fun i => first_data i es <> None) (seqZ 0 count).

Lemma met_nil count : met count [] = [].
Proof. unfold met. induction (seqZ 0 count) as [|i l IH]; [done|]. by rewrite filter_cons_False by (intros Hx; by apply Hx). Qed.

Lemma met_same count es e d : first_data e.1 es = Some d -> met count (es ++ [e]) = met count es.
Proof.
  intros Hd. unfold met. apply list_filter_iff. intros i. rewrite first_data_app. cbn.
  destruct (first_data i es) eqn:E; [done|]. destruct (e.1 =? i) eqn:Ei; zbool; [subst i; congruence|done].
Qed.

Lemma met_new count es e : first_data e.1 es = None -> 0 <= e.1 < count -> lenZ (met count (es ++ [e])) = lenZ (met count es) + 1.
Proof.
  intros Hd He. assert (met count (es ++ [e]) ≡ₚ e.1 :: met count es) as ->; [|rewrite lenZ_cons; lia].
  apply NoDup_Permutation.
  - apply NoDup_filter, NoDup_seqZ.
  - apply NoDup_cons. split; [|apply NoDup_filter, NoDup_seqZ]. unfold met. rewrite list_elem_of_filter. by intros [[] _].
  - intros i. unfold met. rewrite elem_of_cons, !list_elem_of_filter, first_data_app, elem_of_seqZ. cbn.
    destruct (first_data i es) eqn:E; destruct (e.1 =? i) eqn:Ei; zbool; subst; naive_solver lia.
Qed.

Definition agree (es : list (Z * bytes)) : Prop := forall e, e ∈ es -> first_data e.1 es = Some e.2.

Record copy_inv (count : Z) (es : list (Z * bytes)) (st : ExtractState) : Prop := {
  ci_out : lenZ (ex_out_map st) = count * 40 /\ bytes_ok (ex_out_map st);
  ci_seen : lenZ (ex_seen st) = div_ceil count 8 /\ forall i, 0 <= i < count -> seen_bit (ex_seen st) i = true <-> first_data i es <> None;
  ci_data : forall i d, 0 <= i < count -> first_data i es = Some d -> page_at 40 (ex_out_map st) i = d;
  ci_unique : ex_unique_chunks st = lenZ (met count es);
  ci_duplicates : ex_duplicate_slots st = lenZ es - lenZ (met count es);
  ci_conflicts : 0 <= ex_conflicting_duplicates st /\ (ex_conflicting_duplicates st = 0 <-> agree es)
}.

Lemma agree_app es e : agree (es ++ [e]) <-> agree es /\ (first_data e.1 es = None \/ first_data e.1 es = Some e.2).
Proof.
  unfold agree. split.
  - intros Ha. split.
    + intros e' He'. specialize (Ha e' ltac:(set_solver)). rewrite first_data_app in Ha. destruct (first_data e'.1 es) eqn:E; [done|].
      apply first_data_None in E. destruct E. by apply list_elem_of_fmap_2.
    + specialize (Ha e ltac:(set_solver)). rewrite first_data_app in Ha. destruct (first_data e.1 es); auto.
  - intros [Ha Hd] e' [He'|He'%list_elem_of_singleton]%elem_of_app; rewrite first_data_app.
    + by rewrite (Ha e' He').
    + subst e'. cbn. rewrite Z.eqb_refl. by destruct Hd as [-> | ->].
Qed.

Lemma copy_slot_ok count es slot st : slot_ok slot -> copy_inv count es st -> 0 < count <= 2 ^ 32 ->
  match slot_entry slot with
  | None => copy_slot st slot = Ok st
  | Some e => e.1 < count -> exists st', copy_slot st slot = Ok st' /\ copy_inv count (es ++ [e]) st'
  end.
Proof.
  intros Hslot [[Ho Hob] [Hs Hseen] Hd Hu Hdup [Hc0 Hc]] Hcount. destruct (slot_parts slot Hslot) as (Eid & Ech & Hid & Hpg).
  unfold copy_slot, slot_entry. destruct (is_zero_slot slot); [done|]. rewrite Eid. cbn [obind fst]. intros Hlt.
  set (id := from_le (take 4 slot)) in *. set (data := drop 4 slot) in *. set (e := (id, data)).
  change (CHUNK_SLOT_BYTES - CHUNK_ID_BYTES) with 40. change CHUNK_ID_BYTES with 4. change CHUNK_DATA_BYTES with 40. rewrite Ech. cbn [obind].
  change (2 ^ 32) with 4294967296 in *. rewrite (proj2 (checked_mul64_Some id 40 _)) by (split; [done|words]). cbn [ok_or obind].
  rewrite add64_small by words. replace (id * 40 + 40 - id * 40) with 40 by lia.
  assert (id / 8 < lenZ (ex_seen st)) as Hin by (rewrite Hs; unfold div_ceil; apply Z.div_lt_upper_bound; [lia|]; pose proof (Z.div_mod (count + 8 - 1) 8); pose proof (Z.mod_pos_bound (count + 8 - 1) 8); lia).
  rewrite bit_is_set_ok by lia. cbn [obind]. assert (in_range count id) as Hir by (unfold in_range; lia).
  destruct (region_slice count 40 eq_refl (ex_out_map st) id Ho Hob Hir) as [-> _]. cbn [obind].
  pose proof (Hseen id ltac:(lia)) as Hsid. destruct (seen_bit (ex_seen st) id) eqn:Eb.
  - destruct (first_data id es) as [d|] eqn:Ed; [|by destruct (proj1 Hsid eq_refl)]. rewrite (Hd id d ltac:(lia) Ed). eexists. split; [reflexivity|].
    assert (forall i, first_data i (es ++ [e]) = first_data i es) as Hfd.
    { intros i. rewrite first_data_app. cbn. destruct (first_data i es) eqn:Ei; [done|]. destruct (id =? i) eqn:Eq; zbool; [congruence|done]. }
    split; cbn [ex_out_map ex_seen ex_unique_chunks ex_duplicate_slots ex_conflicting_duplicates]; try done.
    + split; [done|]. intros i Hi. rewrite Hfd. by apply Hseen.
    + intros i d' Hi. rewrite Hfd. by apply Hd.
    + by rewrite (met_same count es e d Ed).
    + rewrite (met_same count es e d Ed), lenZ_app, lenZ_cons. change (lenZ []) with 0. lia.
    + rewrite agree_app. cbn [e fst snd]. rewrite Ed. destruct (decide (d = data)) as [->|Hne].
      * rewrite bool_decide_eq_true_2 by done. cbn [negb]. split; [done|]. rewrite Hc. naive_solver.
      * rewrite (bool_decide_eq_false_2 _ Hne). cbn [negb]. split; [lia|]. split; [lia|]. intros [_ [?|?]]; congruence.
  - destruct (first_data id es) as [d|] eqn:Ed; [by discriminate (proj2 Hsid ltac:(done))|].
    destruct (set_bit_ok (ex_seen st) id ltac:(lia) Hin) as (seen' & -> & Hsl & Hsj). cbn [obind].
    unfold copy_from_slice. rewrite (proj1 Hpg), (proj1 (proj2 (region_slice count 40 eq_refl (ex_out_map st) id Ho Hob Hir))), Z.eqb_refl. cbn [obind].
    destruct (region_splice count 40 eq_refl (ex_out_map st) id data Ho Hob Hir Hpg) as (out' & -> & Ho' & Hob' & Hj'). cbn [obind].
    eexists. split; [reflexivity|].
    split; cbn [ex_out_map ex_seen ex_unique_chunks ex_duplicate_slots ex_conflicting_duplicates]; try done.
    + split; [by rewrite Hsl|]. intros i Hi. rewrite Hsj, first_data_app, orb_true_iff, Hseen, Z.eqb_eq by lia. cbn.
      destruct (first_data i es) eqn:Ei; [split; [done|by right]|]. destruct (id =? i) eqn:Eq; zbool; [split; [done|by left]|].
      split; [|done]. intros [?|[]]; [congruence|done].
    + intros i d'. rewrite first_data_app. intros Hi. rewrite Hj' by (unfold in_range; lia). unfold page_upd. cbn.
      destruct (i =? id) eqn:Eq; zbool; [subst i; rewrite Ed, Z.eqb_refl; naive_solver|].
      destruct (first_data i es) eqn:Ei; [intros [= <-]; by apply Hd|]. rewrite (proj2 (Z.eqb_neq id i)) by lia. done.
    + rewrite (met_new count es e Ed) by (cbn; lia). lia.
    + rewrite (met_new count es e Ed), lenZ_app, lenZ_cons by (cbn; lia). change (lenZ []) with 0. lia.
    + rewrite agree_app. cbn [e fst snd]. rewrite Ed. split; [done|]. rewrite Hc. naive_solver.
Qed.

Lemma copy_slots_ok count slots es st : Forall slot_ok slots -> copy_inv count es st -> 0 < count <= 2 ^ 32 ->
  (forall e, e ∈ entries slots -> e.1 < count) ->
  exists st', ofold copy_slot st slots = Ok st' /\ copy_inv count (es ++ entries slots) st'.
Proof.
  intros Hs. revert es st. induction Hs as [|slot slots Hslot _ IH]; intros es st Hst Hcount Hlt.
  { exists st. unfold entries. cbn. by rewrite app_nil_r. }
  pose proof (copy_slot_ok count es slot st Hslot Hst Hcount) as H1. cbn [ofold]. unfold entries in *. cbn [omap list_omap] in *.
  destruct (slot_entry slot) as [e|].
  - destruct H1 as (st1 & -> & Hst1); [apply Hlt, list_elem_of_here|]. cbn [obind].
    destruct (IH (es ++ [e]) st1 Hst1 Hcount) as (st2 & E & Hst2); [intros e' He'; by apply Hlt, list_elem_of_further|].
    exists st2. split; [done|]. by rewrite <-app_assoc in Hst2.
  - rewrite H1. cbn [obind]. by apply IH.
Qed.

(** All ids below [count] occur. *)
Definition dense (count : Z) (es : list (Z * bytes)) : Prop := forall i, 0 <= i < count -> i ∈ es.*1.

Lemma met_all count es : 0 <= count -> lenZ (met count es) = count <-> dense count es.
Proof.
  intros Hc. assert (lenZ (seqZ 0 count) = count) as Hl by (unfold lenZ; rewrite length_seqZ; lia). split.
  - intros Hm i Hi. destruct (decide (i ∈ es.*1)) as [|Hn]; [done|]. exfalso. apply first_data_None in Hn.
    pose proof (length_filter_lt (fun i => first_data i es <> None) (seqZ 0 count) i) as Hlt.
    unfold met, lenZ in *. enough (length (filter (fun i => first_data i es <> None) (seqZ 0 count)) < length (seqZ 0 count))%nat by lia.
    apply Hlt; [apply elem_of_seqZ; lia|]. intros Hx. by apply Hx.
  - intros Hd. transitivity (lenZ (seqZ 0 count)); [|done]. f_equal. unfold met. clear Hl. assert (Forall (fun i => first_data i es <> None) (seqZ 0 count)) as Hall.
    { apply Forall_forall. intros i Hi%elem_of_seqZ. rewrite first_data_None. intros Hn. apply Hn, Hd. lia. }
    induction Hall as [|i l Hi _ IH]; [done|]. by rewrite filter_cons_True, IH.
Qed.

Lemma dense_max mx es : (forall e, e ∈ es -> e.1 <= mx) -> mx ∈ es.*1 -> (forall e, e ∈ es -> dense e.1 es) <-> dense (mx + 1) es.
Proof.
  intros Hle Hin. split.
  - intros Hd i Hi. destruct (decide (i = mx)) as [->|]; [done|]. apply list_elem_of_fmap in Hin as (e & -> & He). apply (Hd e He). lia.
  - intros Hd e He i Hi. specialize (Hle e He). apply Hd. lia.
Qed.

(** ** The tool *)

(** The slots of a table file and the chunks they hold. *)
Definition table_slots (t : CuckooTableInfo) (b : bytes) : list bytes :=
  let data := drop (Z.to_nat (ct_data_offset t)) b in chunks_fuel (length data) 44 data.
Definition table_chunks (t : CuckooTableInfo) (b : bytes) : list (Z * bytes) := entries (table_slots t b).

Section Tool.
Context {O : Type} `{MmapLaws}.

Lemma create_zeroed_ok path len (h : Host O) : faults h = [] -> 0 < len ->
  exists h', create_zeroed path len h = (Ok (zeros len), h') /\ faults h' = [] /\ files h' = <[render path := zeros len]> (files h).
Proof.
  intros Hf Hl. unfold create_zeroed, file_create, write_and_flush.
  erewrite bind_eq by (unfold bind; rewrite (no_fault h Hf); reflexivity). cbn beta.
  erewrite bind_eq by (unfold bind; rewrite no_fault by done; reflexivity). cbn beta.
  rewrite (bind_eq _ _ _ _ _ (no_fault _ (Hf : faults (set_files _ (set_files _ h)) = []))). rewrite mmap_ok by (rewrite lenZ_zeros; lia).
  eexists. split; [reflexivity|]. split; [done|]. cbn. by rewrite insert_insert_eq.
Qed.

Lemma open_mmap_quiet (path : FilePath) (h : Host O) b :
  faults h = [] -> files h !! render path = Some b -> 0 < lenZ b -> open_mmap path h = (Ok b, h).
Proof.
  intros Hf Hb Hl. unfold open_mmap, fs_read. erewrite bind_eq; [|unfold bind, gets; rewrite (no_fault h Hf); cbn; by rewrite Hb].
  rewrite (bind_eq _ _ _ _ _ (no_fault h Hf)). by rewrite mmap_ok.
Qed.

Lemma table_slots_ok t b : bytes_ok b -> Forall slot_ok (table_slots t b).
Proof.
  intros Hb. unfold table_slots. pose proof (proj2 (bytes_ok_take_drop b (Z.to_nat (ct_data_offset t)) Hb)) as Hd. revert Hd.
  generalize (drop (Z.to_nat (ct_data_offset t)) b). intros d. generalize (length d). intros n. revert d. clear. induction n as [|n IH]; intros l Hl; cbn [chunks_fuel]; [constructor|].
  case_decide as Hle; [|constructor]. destruct (bytes_ok_take_drop l 44 Hl) as [Ht Hd]. constructor; [|by apply IH]. split; [|done]. unfold lenZ. rewrite length_take. lia.
Qed.

(** The two passes over the slots of a chunk table. *)
Definition extract_passes (slots : list bytes) (out : FilePath) : M (Host O) ExtractReport :=
  let scan := foldl scan_entry (0, None) (entries slots) in
  let* max_chunk_id := lift (ok_or scan.2 (InvalidInput "no non-empty CHUNK slots found in {}")) in
  let chunk_count := max_chunk_id + 1 in
  let* out_bytes := lift (ok_or (checked_mul64 chunk_count CHUNK_DATA_BYTES) (InvalidInput "direct chunk output size overflow")) in
  let* out_map := create_zeroed out out_bytes in
  let* st := lift (ofold copy_slot (mkExtract out_map (zeros (div_ceil chunk_count 8)) 0 0 0) slots) in
  let* _ := modify (fun h => set_files (<[render out := ex_out_map st]> (files h)) h) in
  let* _ := guardm (ex_conflicting_duplicates st =? 0) (InvalidInput "found {} conflicting duplicate chunk slots in {}") in
  let* _ := guardm (ex_unique_chunks st =? chunk_count)
              (InvalidInput "chunk ids are not contiguous: recovered {} unique chunks but max_chunk_id={} implies {}; first missing ids={:?}") in
  let* _ := file_sync in
  let* _ := file_sync in
  ret (mkExtractReport scan.1 (ex_duplicate_slots st) (ex_unique_chunks st) out_bytes).

Lemma extract_unfold path out (h h1 : Host O) t b : faults h = [] -> files h !! render path = Some b -> bytes_ok b ->
  from_file Chunk path h = (Ok t, h1) -> described_bytes t <= u64_max ->
  faults h1 = [] /\ files h1 = files h /\ extract_direct_chunks path out h = extract_passes (table_slots t b) out h1.
Proof.
  intros Hf Hb Hby E Hd. destruct (from_file_inv _ _ _ _ _ _ Hb Hby E) as (Hh & Hp & Hfiles & Hf1). specialize (Hf1 Hf).
  split; [done|]. split; [done|]. unfold extract_direct_chunks. rewrite (bind_eq _ _ _ _ _ E), bind_guardm.
  pose proof (header_table_ok _ _ _ Hh Hd) as Ht. destruct (table_sizes t Ht) as (Ebin & Hsz & Etot & Htb & Efile).
  pose proof (tb_offset _ Ht) as Ho. rewrite (hd_file _ _ _ Hh) in Efile. pose proof (hd_slot _ _ _ Hh) as Hsl. cbn in Hsl.
  rewrite (proj2 (Z.eqb_eq (ct_slot_size t) CHUNK_SLOT_BYTES) Hsl).
  assert (files h1 !! render path = Some b) as Hb1 by (by rewrite Hfiles).
  assert (0 < lenZ b) as Hl by nia. rewrite (bind_eq _ _ _ _ _ (open_mmap_quiet path h1 b Hf1 Hb1 Hl)), bind_lift.
  unfold slice. rewrite (proj2 (andb_true_iff _ _)) by (rewrite andb_true_iff; lia). assert (ct_data_offset t <= lenZ b) as Hle by nia.
  rewrite take_ge by (rewrite length_drop; unfold lenZ in *; lia). rewrite bind_guardm.
  assert (lenZ (drop (Z.to_nat (ct_data_offset t)) b) = total_bins t * bin_size t) as El by (unfold lenZ in *; rewrite length_drop; lia).
  rewrite El, Ebin, Hsl, Z.mul_assoc. change 44 with CHUNK_SLOT_BYTES at 1. rewrite Z.mod_mul, Z.eqb_refl, bind_lift by done.
  change (chunks_exact CHUNK_SLOT_BYTES (drop (Z.to_nat (ct_data_offset t)) b)) with (Ok (table_slots t b)).
  cbn iota beta. by rewrite (scan_slots_ok _ _ (table_slots_ok t b Hby)), bind_lift.
Qed.

(** What the passes leave: the error, or the file and the report. *)
Lemma extract_passes_ok slots out (h : Host O) : faults h = [] -> Forall slot_ok slots ->
  let es := entries slots in
  match (foldl scan_entry (0, None) es).2 with
  | None => exists e, extract_passes slots out h = (Err e, h)
  | Some mx => exists st h', copy_inv (mx + 1) es st /\ files h' = <[render out := ex_out_map st]> (files h) /\
      if (ex_conflicting_duplicates st =? 0) && (ex_unique_chunks st =? mx + 1)
      then extract_passes slots out h = (Ok (mkExtractReport (lenZ es) (ex_duplicate_slots st) (mx + 1) ((mx + 1) * 40)), h')
      else exists e, extract_passes slots out h = (Err e, h')
  end.
Proof.
  intros Hf Hs es. pose proof (scan_max es 0 None) as Hmax. unfold extract_passes. change (entries slots) with es.
  cbv zeta. rewrite bind_lift. destruct (foldl scan_entry (0, None) es).2 as [mx|] eqn:E; [|by eexists].
  destruct Hmax as (Hle & [Hin|?] & _); [|done]. cbn [ok_or].
  assert (forall e, e ∈ es -> 0 <= e.1 < 2 ^ 32) as Hids by (intros e; by apply entries_range).
  apply list_elem_of_fmap in Hin as (emx & -> & Hin). pose proof (Hids _ Hin) as Hr. change (2 ^ 32) with 4294967296 in Hr.
  rewrite bind_lift, (proj2 (checked_mul64_Some _ CHUNK_DATA_BYTES ((emx.1 + 1) * 40))) by (split; [done|unfold CHUNK_DATA_BYTES; words]). cbn [ok_or].
  destruct (create_zeroed_ok out ((emx.1 + 1) * 40) h Hf ltac:(lia)) as (h1 & E1 & Hf1 & Hfiles1). rewrite (bind_eq _ _ _ _ _ E1), bind_lift.
  destruct (copy_slots_ok (emx.1 + 1) slots [] (mkExtract (zeros ((emx.1 + 1) * 40)) (zeros (div_ceil (emx.1 + 1) 8)) 0 0 0) Hs) as (st & E2 & Hst).
  - split; cbn [ex_out_map ex_seen ex_unique_chunks ex_duplicate_slots ex_conflicting_duplicates]; try done.
    + split; [by rewrite lenZ_zeros by lia|apply zeros_ok].
    + split; [apply lenZ_zeros; unfold div_ceil; apply Z.div_pos; lia|]. intros i _. by rewrite seen_bit_zeros.
    + by rewrite met_nil.
    + by rewrite met_nil.
    + split; [done|]. split; [intros _ e He; by apply not_elem_of_nil in He|done].
  - change (2 ^ 32) with 4294967296. lia.
  - intros e He. specialize (Hle e He). lia.
  - rewrite E2, bind_modify, !bind_guardm. set (h2 := set_files (<[render out:=ex_out_map st]> (files h1)) h1).
    exists st, h2. split; [exact Hst|]. split; [cbn; by rewrite Hfiles1, insert_insert_eq|].
    destruct (_ =? 0); [|by eexists]. cbn [andb]. destruct (_ =? emx.1 + 1) eqn:Eu; [|by eexists]. zbool.
    rewrite !(bind_eq _ _ _ tt h2) by (unfold file_sync; by rewrite (bind_eq _ _ _ _ _ (no_fault h2 Hf1))). rewrite Eu.
    unfold ret. do 4 f_equal. rewrite scan_entries_ok. cbn. lia.
Qed.

(** C22: the extraction of a chunk table returns success exactly when the table has a
    chunk, every chunk id up to the largest occurs and all copies of a chunk agree;
    the output file then holds chunk [i] at its [i]th place, and the report counts
    slots, chunks and duplicates.  In every case it returns, and touches no file but
    the output. *)
Theorem extract_direct_chunks_correct path out (h h1 : Host O) t b :
  faults h = [] -> files h !! render path = Some b -> bytes_ok b -> render out <> render path ->
  from_file Chunk path h = (Ok t, h1) -> described_bytes t <= u64_max ->
  let es := table_chunks t b in
  exists r h', extract_direct_chunks path out h = (r, h') /\ returned r = true /\
    (forall q, q <> render out -> files h' !! q = files h !! q) /\
    ((exists rep, r = Ok rep) <-> es <> [] /\ agree es /\ forall e, e ∈ es -> dense e.1 es) /\
    (forall rep, r = Ok rep -> exists data, files h' !! render out = Some data /\ lenZ data = xr_output_bytes rep /\
       xr_output_bytes rep = 40 * xr_unique_chunks rep /\ xr_non_empty_slots rep = lenZ es /\
       xr_duplicate_slots rep = lenZ es - xr_unique_chunks rep /\
       (forall e, e ∈ es -> 0 <= e.1 < xr_unique_chunks rep /\ page_at 40 data e.1 = e.2)).
Proof.
  intros Hf Hb Hby Hne E Hd es. destruct (extract_unfold path out h h1 t b Hf Hb Hby E Hd) as (Hf1 & Hfiles & ->).
  pose proof (extract_passes_ok (table_slots t b) out h1 Hf1 (table_slots_ok t b Hby)) as Hx. cbv zeta in Hx. change (entries (table_slots t b)) with es in Hx.
  pose proof (scan_max es 0 None) as Hmax. destruct (foldl scan_entry (0, None) es).2 as [mx|].
  - destruct Hmax as (Hle & [Hin|?] & _); [|done]. destruct Hx as (st & h' & [Ho Hsn Hda Hu Hdp [_ Hc]] & Hfh & Hx). rewrite Hfiles in Hfh.
    assert (forall q, q <> render out -> files h' !! q = files h !! q) as Hq by (intros q Hq; by rewrite Hfh, lookup_insert_ne).
    assert (es <> []) as Hnil by (intros Hnil; rewrite Hnil in Hin; by apply not_elem_of_nil in Hin).
    pose proof (fun e => entries_range (table_slots t b) e (table_slots_ok t b Hby)) as Hids. change (entries (table_slots t b)) with es in Hids.
    assert (0 <= mx) as Hmx0 by (apply list_elem_of_fmap in Hin as (e & -> & He); apply (Hids e He)).
    assert ((forall e, e ∈ es -> dense e.1 es) <-> ex_unique_chunks st = mx + 1) as Hdense.
    { rewrite Hu, met_all by lia. apply dense_max; [done|]. exact Hin. }
    destruct (_ =? 0) eqn:E1; cbn [andb] in Hx; zbool; [destruct (_ =? mx + 1) eqn:E2; zbool|].
    + rewrite Hx. eexists _, h'. split; [reflexivity|]. split; [done|]. split; [exact Hq|]. split; [split; [intros _|by eexists]; naive_solver|].
      intros rep [= <-]. exists (ex_out_map st). cbn. split; [by rewrite Hfh, lookup_insert_eq|]. split; [apply Ho|]. split; [lia|]. split; [done|].
      split; [lia|]. intros e He. pose proof (Hids e He). specialize (Hle e He). split; [lia|]. apply Hda; [lia|]. by apply Hc.
    + destruct Hx as (err & ->). eexists _, h'. split; [reflexivity|]. split; [done|]. split; [exact Hq|]. split; [|by intros ? [=]].
      split; [by intros [? ?]|]. intros (_ & _ & Hx). by apply Hdense in Hx.
    + destruct Hx as (err & ->). eexists _, h'. split; [reflexivity|]. split; [done|]. split; [exact Hq|]. split; [|by intros ? [=]].
      split; [by intros [? ?]|]. intros (_ & Hx & _). by apply Hc in Hx.
  - destruct Hmax as [Hnil _]. destruct Hx as (err & ->). eexists _, h1. split; [reflexivity|]. split; [done|]. split; [intros; by rewrite Hfiles|].
    split; [|by intros ? [=]]. split; [by intros [? ?]|]. by intros [? _].
Qed.

End Tool.

(** ** A concrete table: chunk 1 twice, chunk 0 once, one empty slot *)

Definition demo_chunk_path : FilePath := filename "db" Chunk.
Definition demo_chunk_out : FilePath := mkPath "db/" "chunks" (Some "bin"%string).
Definition demo_chunk_slot (id x : Z) : bytes := to_le 4 id ++ replicate 40 x.
Definition demo_chunk_file : bytes :=
  to_le 8 CHUNK_MAGIC ++ to_le 4 2 ++ to_le 4 1 ++ to_le 4 2 ++ to_le 4 3 ++ to_le 8 7 ++
  demo_chunk_slot 1 6 ++ demo_chunk_slot 0 5 ++ zeros 44 ++ demo_chunk_slot 1 6.
Definition demo_chunk_host : Host unit := mkHost {[ render demo_chunk_path := demo_chunk_file ]} [] tt.
Definition demo_chunk_table : CuckooTableInfo := mkCuckooInfo Chunk demo_chunk_path 208 CHUNK_MAGIC Legacy 32 2 1 2 3 7 None 44.

Lemma demo_chunk_entries : table_chunks demo_chunk_table demo_chunk_file = [(1, replicate 40 6); (0, replicate 40 5); (1, replicate 40 6)].
Proof. vm_compute. reflexivity. Qed.

Lemma extract_direct_chunks_correct_witness : exists r h',
  extract_direct_chunks (H := plain_mmap) demo_chunk_path demo_chunk_out demo_chunk_host = (r, h') /\ (exists rep, r = Ok rep) /\
  forall rep, r = Ok rep -> exists data, files h' !! render demo_chunk_out = Some data /\ page_at 40 data 0 = replicate 40 5 /\ xr_non_empty_slots rep = 3.
Proof.
  destruct (@extract_direct_chunks_correct unit plain_mmap plain_mmap_laws demo_chunk_path demo_chunk_out demo_chunk_host demo_chunk_host demo_chunk_table demo_chunk_file)
    as (r & h' & E & _ & _ & Hiff & Hok).
  - reflexivity.
  - reflexivity.
  - apply Forall_forall. intros x Hx. vm_compute in Hx. revert x Hx. apply Forall_forall. repeat constructor; vm_compute; intuition discriminate.
  - by vm_compute.
  - vm_compute. reflexivity.
  - vm_compute. discriminate.
  - rewrite demo_chunk_entries in Hiff, Hok. exists r, h'. split; [exact E|]. split.
    + apply Hiff. split; [done|]. split.
      * intros e. rewrite !elem_of_cons. intros [->|[->|[->|?%not_elem_of_nil]]]; reflexivity || contradiction.
      * intros e. rewrite !elem_of_cons. intros [->|[->|[->|?%not_elem_of_nil]]]; [| | |contradiction]; intros i Hi; cbn [fst] in Hi; try lia;
          (assert (i = 0) as -> by lia; apply list_elem_of_further, list_elem_of_here).
    + intros rep Hr. destruct (Hok rep Hr) as (data & Hd & _ & _ & Hn & _ & Hall). exists data. split; [exact Hd|]. split; [|exact Hn].
      apply (Hall (0, replicate 40 5)), list_elem_of_further, list_elem_of_here.
Defined.
