(* ===== verification/Sizing.v ===== *)
(** * Sizing estimates ([src/src/cuckoo.rs], [src/src/direct.rs])

    The estimates an operator reads before building an image: the tree that holds a
    packed table and the bytes it takes on disk and in trusted memory.  The two
    [estimate] methods are the same computation over a number of items and an item
    size; products wrap as a release build computes them. *)

From S2P Require Import Prelude Block Params SealedState Ct Float64 Store Aead Direct Cuckoo.

Definition f64_100 : f64 := f64_of_Z 100.

(** Mirror of [struct CuckooOramSizing] and [struct DirectOramSizing]; the first
    field is the bins, or items, of a block. *)
Record OramSizing : Type := mkSizing {
  sz_per_block : Z;
  sz_leaf_divisor : Z;
  sz_bucket_size : Z;
  sz_stash_capacity : Z;
  sz_cache_levels : Z
}.

(** The fields [struct CuckooOramEstimate] and [struct DirectOramEstimate] share. *)
Record OramSizes : Type := mkSizes {
  es_logical_blocks : Z;
  es_block_payload_bytes : Z;
  es_bucket_size : Z;
  es_leaves : Z;
  es_height : Z;
  es_bucket_pages : Z;
  es_page_plaintext_bytes : Z;
  es_page_aead_bytes : Z;
  es_image_plaintext_bytes : Z;
  es_image_aead_bytes : Z;
  es_pos_map_bytes : Z;
  es_trusted_stash_bytes : Z;
  es_trusted_state_floor_bytes : Z;
  es_cached_pages : Z;
  es_front_cache_plaintext_bytes : Z;
  es_front_cache_aead_bytes : Z;
  es_disk_pages_per_access_no_flush : Z;
  es_disk_aead_bytes_per_access_no_flush : Z;
  es_tree_slot_load_percent : f64
}.
Record CuckooOramEstimate : Type := mkCuckooEstimate {
  ce_level : CuckooLevel;
  ce_bins_per_block : Z;
  ce_leaf_divisor : Z;
  ce_total_bins : Z;
  ce_sizes : OramSizes
}.
Record DirectOramEstimate : Type := mkDirectEstimate {
  de_level : DirectLevel;
  de_items_per_block : Z;
  de_leaf_divisor : Z;
  de_source_records : Z;
  de_total_items : Z;
  de_item_size : Z;
  de_sizes : OramSizes
}.

(** [checked_next_power_of_two], with its error *)
Definition checked_leaves (value : Z) : outcome Z :=
  ok_or (checked_next_power_of_two value) (InvalidParams "value {value} exceeds usize next_power_of_two").

(** The body of [estimate] between its guards and its result *)
Definition oram_sizes (sz : OramSizing) (items item_size : Z) : outcome OramSizes :=
  let logical_blocks := div_ceil items (sz_per_block sz) in
  let target_leaves := Z.max (div_ceil logical_blocks (sz_leaf_divisor sz)) 2 in
  let? leaves := checked_leaves target_leaves in
  let block_payload_bytes := mul64 item_size (sz_per_block sz) in
  let? params := with_leaves logical_blocks block_payload_bytes leaves in
  let? params := with_bucket_size params (sz_bucket_size sz) in
  let? params := with_stash_capacity params (sz_stash_capacity sz) in
  let page_plaintext_bytes := wrap 64 (bucket_bytes params) in
  let page_aead_bytes := add64 page_plaintext_bytes AEAD_OVERHEAD in
  let bucket_pages := bucket_count params in
  let image_plaintext_bytes := mul64 bucket_pages page_plaintext_bytes in
  let image_aead_bytes := mul64 bucket_pages page_aead_bytes in
  let pos_map_bytes := mul64 logical_blocks 4 in
  let stash_slot_bytes := wrap 64 (serialized_len block_payload_bytes) in
  let trusted_stash_bytes := mul64 (sz_stash_capacity sz) stash_slot_bytes in
  let trusted_state_floor_bytes := add64 pos_map_bytes trusted_stash_bytes in
  let effective_cache_levels := Z.min (sz_cache_levels sz) (height params) in
  let cached_pages := if effective_cache_levels =? 0 then 0 else Z.shiftl 1 effective_cache_levels - 1 in
  let front_cache_plaintext_bytes := mul64 cached_pages page_plaintext_bytes in
  let front_cache_aead_bytes := mul64 cached_pages page_aead_bytes in
  let uncached_levels := height params - effective_cache_levels in
  let disk_pages_per_access_no_flush := uncached_levels * 2 in
  let disk_aead_bytes_per_access_no_flush := mul64 disk_pages_per_access_no_flush page_aead_bytes in
  Ok (mkSizes logical_blocks block_payload_bytes (sz_bucket_size sz) leaves (height params) bucket_pages
        page_plaintext_bytes page_aead_bytes image_plaintext_bytes image_aead_bytes pos_map_bytes trusted_stash_bytes
        trusted_state_floor_bytes cached_pages front_cache_plaintext_bytes front_cache_aead_bytes
        disk_pages_per_access_no_flush disk_aead_bytes_per_access_no_flush
        (f64_div (f64_mul (f64_of_Z logical_blocks) f64_100)
           (f64_mul (f64_of_Z bucket_pages) (f64_of_Z (sz_bucket_size sz))))).

(** [CuckooOramSizing::estimate] *)
Definition cuckoo_estimate (sz : OramSizing) (table : CuckooTableInfo) : outcome CuckooOramEstimate :=
  if sz_per_block sz =? 0 then Err (InvalidParams "bins_per_block must be > 0")
  else if sz_leaf_divisor sz =? 0 then Err (InvalidParams "leaf_divisor must be > 0")
  else
    let? sizes := oram_sizes sz (total_bins table) (bin_size table) in
    Ok (mkCuckooEstimate (ct_level table) (sz_per_block sz) (sz_leaf_divisor sz) (total_bins table) sizes).

(** [DirectOramSizing::estimate] *)
Definition direct_estimate (sz : OramSizing) (table : DirectTableInfo) : outcome DirectOramEstimate :=
  if sz_per_block sz =? 0 then Err (InvalidParams "items_per_block must be > 0")
  else if sz_leaf_divisor sz =? 0 then Err (InvalidParams "leaf_divisor must be > 0")
  else
    let? sizes := oram_sizes sz (dti_total_items table) (dti_item_size table) in
    Ok (mkDirectEstimate (dti_level table) (sz_per_block sz) (sz_leaf_divisor sz) (dti_records table)
          (dti_total_items table) (dti_item_size table) sizes).

(** ** What an estimate says *)

(** The parameters of the estimated image. *)
Definition estimated_params (sz : OramSizing) (e : OramSizes) : OramParams :=
  mkParams (es_logical_blocks e) (es_block_payload_bytes e) (es_bucket_size e) (es_leaves e) (sz_stash_capacity sz).

(** The estimate describes an image: its parameters are those of a valid tree with a
    leaf for every [leaf_divisor] blocks and less than twice as many as that needs,
    the cached levels and the levels read from disk make up a path, and every byte
    count is the product or sum it stands for when that is a word: the plain and the
    sealed page, image and front cache, the position map of four bytes a block, the
    stash, and what one access reads and writes on disk. *)
Record estimate_describes (sz : OramSizing) (items item_size : Z) (e : OramSizes)
    (p := estimated_params sz e) (page := bucket_bytes p) (slot := serialized_len (es_block_payload_bytes e))
    (cached := Z.min (sz_cache_levels sz) (es_height e)) : Prop := {
  ed_params : params_ok p;
  ed_blocks : es_logical_blocks e = div_ceil items (sz_per_block sz);
  ed_payload : item_size * sz_per_block sz <= u64_max -> es_block_payload_bytes e = item_size * sz_per_block sz;
  ed_bucket : es_bucket_size e = sz_bucket_size sz;
  ed_leaves : es_logical_blocks e <= es_leaves e * sz_leaf_divisor sz;
  ed_tight : es_leaves e < 2 * Z.max (div_ceil (es_logical_blocks e) (sz_leaf_divisor sz)) 2;
  ed_pages : es_bucket_pages e = bucket_count p;
  ed_page_plain : page <= u64_max -> es_page_plaintext_bytes e = page;
  ed_page_aead : page + AEAD_OVERHEAD <= u64_max -> es_page_aead_bytes e = page + AEAD_OVERHEAD;
  ed_image_plain : bucket_count p * page <= u64_max -> es_image_plaintext_bytes e = bucket_count p * page;
  ed_image_aead : bucket_count p * (page + AEAD_OVERHEAD) <= u64_max -> es_image_aead_bytes e = bucket_count p * (page + AEAD_OVERHEAD);
  ed_pos_map : 4 * es_logical_blocks e <= u64_max -> es_pos_map_bytes e = 4 * es_logical_blocks e;
  ed_stash : sz_stash_capacity sz * slot <= u64_max -> es_trusted_stash_bytes e = sz_stash_capacity sz * slot;
  ed_floor : 4 * es_logical_blocks e + sz_stash_capacity sz * slot <= u64_max ->
    es_trusted_state_floor_bytes e = 4 * es_logical_blocks e + sz_stash_capacity sz * slot;
  ed_levels : es_height e = height p /\ es_cached_pages e = 2 ^ cached - 1 /\ es_cached_pages e <= es_bucket_pages e /\
    es_disk_pages_per_access_no_flush e = 2 * (es_height e - cached);
  ed_cache_plain : es_cached_pages e * page <= u64_max -> es_front_cache_plaintext_bytes e = es_cached_pages e * page;
  ed_cache_aead : es_cached_pages e * (page + AEAD_OVERHEAD) <= u64_max ->
    es_front_cache_aead_bytes e = es_cached_pages e * (page + AEAD_OVERHEAD);
  ed_disk : es_disk_pages_per_access_no_flush e * (page + AEAD_OVERHEAD) <= u64_max ->
    es_disk_aead_bytes_per_access_no_flush e = es_disk_pages_per_access_no_flush e * (page + AEAD_OVERHEAD)
}.

(** A product of a wrapped and an unwrapped word is exact when it is a word: the
    factor is a word, or the other one is zero. *)
Lemma mul64_wrapped a b : 0 <= a -> 0 <= b -> a * b <= u64_max -> mul64 a (wrap 64 b) = a * b.
Proof.
  intros Ha Hb Hab. destruct (decide (a = 0)) as [->|Hne]; [done|]. rewrite (wrap_small 64 b) by (unfold u64_max in *; nia).
  apply mul64_small; nia.
Qed.

Lemma oram_sizes_describe sz items item_size e :
  0 < sz_per_block sz -> 0 < sz_leaf_divisor sz -> 0 <= sz_bucket_size sz -> 0 <= sz_stash_capacity sz -> 0 <= sz_cache_levels sz ->
  0 <= items -> 0 <= item_size -> oram_sizes sz items item_size = Ok e -> estimate_describes sz items item_size e.
Proof.
  intros Hper Hdiv Hbk Hst Hca Hi Hsz. unfold oram_sizes, checked_leaves. set (lb := div_ceil items _).
  set (target := Z.max _ 2). destruct (checked_next_power_of_two target) as [lv|] eqn:Elv; [|done]. cbn [ok_or obind].
  apply checked_next_power_of_two_spec in Elv as (_ & Hle & _ & Htight & _). set (payload := mul64 _ _).
  assert (0 <= lb) as Hlb by (apply Z.div_pos; lia). assert (0 <= payload) as Hpl by (by apply Z.mod_pos_bound).
  destruct (with_leaves lb payload lv) as [p1| | |] eqn:E1; try done. cbn [obind]. apply with_leaves_ok in E1 as (Hp1 & Hl1 & Hb1 & Hv1); [|done..].
  destruct (with_bucket_size p1 _) as [p2| | |] eqn:E2; try done. cbn [obind]. pose proof (with_bucket_size_ok _ _ _ Hp1 Hbk E2) as Hp2.
  destruct (with_stash_capacity p2 _) as [p3| | |] eqn:E3; try done. cbn [obind]. pose proof (with_stash_capacity_ok _ _ _ Hp2 Hst E3) as Hp3.
  assert (p3 = mkParams lb payload (sz_bucket_size sz) lv (sz_stash_capacity sz)) as Ep.
  { unfold with_stash_capacity in E3. destruct (_ <? _); [done|]. apply Ok_inj in E3 as <-. unfold with_bucket_size in E2.
    destruct (_ =? 0); [done|]. apply Ok_inj in E2 as <-. cbn. by rewrite Hl1, Hb1, Hv1. }
  clear E2 E3 Hp1 Hp2. intros <-%Ok_inj. pose proof (height_pos p3 Hp3) as Hh. pose proof (bucket_count_eq p3 Hp3) as Hbc.
  assert (0 <= bucket_bytes p3) as Hpage by (unfold bucket_bytes, serialized_len; destruct Hp3; nia).
  assert (0 <= bucket_count p3) as Hcount by (rewrite Hbc; pose proof (Z.pow_le_mono_r 2 1 (height p3)); lia).
  assert (0 <= serialized_len payload) as Hslot by (unfold serialized_len; lia).
  assert (add64 (wrap 64 (bucket_bytes p3)) AEAD_OVERHEAD = wrap 64 (bucket_bytes p3 + AEAD_OVERHEAD)) as Haead by apply Zplus_mod_idemp_l.
  set (c := Z.min (sz_cache_levels sz) (height p3)). assert (0 <= 2 ^ c - 1) as Hcached.
  { pose proof (Z.pow_pos_nonneg 2 c ltac:(lia) ltac:(lia)). lia. }
  assert ((if c =? 0 then 0 else Z.shiftl 1 c - 1) = 2 ^ c - 1) as Hc.
  { destruct (c =? 0) eqn:E; zbool; [by rewrite E|]. by rewrite Z.shiftl_1_l. }
  split; unfold estimated_params; cbn [es_logical_blocks es_block_payload_bytes es_bucket_size es_leaves es_bucket_pages es_image_aead_bytes
    es_height es_cached_pages es_disk_pages_per_access_no_flush es_page_plaintext_bytes es_page_aead_bytes es_image_plaintext_bytes
    es_pos_map_bytes es_trusted_stash_bytes es_trusted_state_floor_bytes es_front_cache_plaintext_bytes es_front_cache_aead_bytes
    es_disk_aead_bytes_per_access_no_flush]; rewrite <-?Ep, ?Haead, ?Hc; fold c; try done.
  - intros Hfit. apply mul64_small; nia.
  - assert (div_ceil lb (sz_leaf_divisor sz) <= lv) as Hd by lia. unfold div_ceil in Hd.
    pose proof (Z.div_mod (lb + sz_leaf_divisor sz - 1) (sz_leaf_divisor sz) ltac:(lia)).
    pose proof (Z.mod_pos_bound (lb + sz_leaf_divisor sz - 1) (sz_leaf_divisor sz) Hdiv). nia.
  - fold target. lia.
  - intros Hfit. apply wrap_small; unfold u64_max in *; lia.
  - intros Hfit. apply wrap_small; unfold AEAD_OVERHEAD, u64_max in *; lia.
  - by apply mul64_wrapped.
  - apply mul64_wrapped; unfold AEAD_OVERHEAD; lia.
  - intros Hfit. rewrite mul64_small; lia.
  - by apply mul64_wrapped.
  - intros Hfit. rewrite mul64_wrapped, (mul64_small lb 4), add64_small by nia. lia.
  - split; [done|]. split; [done|]. rewrite Hbc. split; [|lia]. assert (2 ^ c <= 2 ^ height p3) by (apply Z.pow_le_mono_r; lia). lia.
  - by apply mul64_wrapped.
  - apply mul64_wrapped; unfold AEAD_OVERHEAD; lia.
  - apply mul64_wrapped; unfold AEAD_OVERHEAD; lia.
Qed.

(** ** Properties *)

(** C38: an estimate, of a cuckoo or of a direct table, describes the image that
    stores it: parameters of a valid tree whose leaves suffice for the packed blocks
    and are at most twice too many, a split of each path into cached and disk pages,
    and byte counts (page, image, position map, stash, state floor, front cache and
    disk traffic of an access) that are exact whenever they fit in a word. *)
Theorem estimates_describe_images sz :
  0 <= sz_per_block sz -> 0 <= sz_leaf_divisor sz -> 0 <= sz_bucket_size sz -> 0 <= sz_stash_capacity sz -> 0 <= sz_cache_levels sz ->
  (forall t e, cuckoo_estimate sz t = Ok e -> estimate_describes sz (total_bins t) (bin_size t) (ce_sizes e)) /\
  (forall t e, 0 <= dti_total_items t -> 0 <= dti_item_size t -> direct_estimate sz t = Ok e ->
     estimate_describes sz (dti_total_items t) (dti_item_size t) (de_sizes e)).
Proof.
  intros Hper Hdiv Hbk Hst Hca. split.
  - intros t e. unfold cuckoo_estimate. destruct (_ =? 0) eqn:E1; [done|]. destruct (sz_leaf_divisor sz =? 0) eqn:E2; [done|]. zbool.
    intros (sizes & E & <-%Ok_inj)%obind_Ok. apply oram_sizes_describe; try done; (lia || by apply Z.mod_pos_bound).
  - intros t e Ht Hi. unfold direct_estimate. destruct (_ =? 0) eqn:E1; [done|]. destruct (sz_leaf_divisor sz =? 0) eqn:E2; [done|]. zbool.
    intros (sizes & E & <-%Ok_inj)%obind_Ok. apply oram_sizes_describe; (done || lia).
Qed.

(** A table of 100 items of 26 bytes, four to a block and two blocks to a leaf. *)
Lemma estimates_describe_images_witness :
  let sz := mkSizing 4 2 4 64 2 in
  let t := mkDirectInfo DirectIndex (mkPath "" "index" None) 2500 100 1 2 f64_1 0 100 26 in
  exists e, direct_estimate sz t = Ok e /\ es_leaves (de_sizes e) = 16 /\ es_disk_pages_per_access_no_flush (de_sizes e) = 6 /\
    estimate_describes sz 100 26 (de_sizes e).
Proof.
  eexists. split; [vm_compute; reflexivity|]. split; [reflexivity|]. split; [reflexivity|].
  destruct (estimates_describe_images (mkSizing 4 2 4 64 2)) as [_ Hd]; try (vm_compute; discriminate).
  apply (Hd (mkDirectInfo DirectIndex (mkPath "" "index" None) 2500 100 1 2 f64_1 0 100 26)); [vm_compute; discriminate|vm_compute; discriminate|].
  vm_compute. reflexivity.
Defined.
