(* ===== verification/Stress.v ===== *)
(** * The Circuit ORAM stress simulator ([src/src/stress.rs])

    Both stress simulators keep block ids in a flat list of slots, a position map and a
    stash; their shared operations come first.  A run of the Circuit ORAM simulator is
    over block ids and leaves only: accesses, the public eviction schedule with its
    drains, bursts and debt cap, and the statistics reported of the stash. *)

From S2P Require Import Prelude Params Schedule Rng Float64 Slots.

Definition EMPTY_BLOCK : Z := u32_max.

(** Mirror of [struct SimBlock]. *)
Record SimBlock : Type := mkSimBlock { sb_id : Z; sb_leaf : Z }.

(** [bucket_base] *)
Definition bucket_base (p : OramParams) (node_idx : Z) : Z := mul64 node_idx (bucket_size p).

(** [random_leaf] *)
Definition sim_random_leaf {R} `{Rng R} (p : OramParams) (rng : R) : Z * R :=
  let mask := wrap 32 (wrap 32 (leaves p) - 1) in
  let (word, rng) := next_u32 rng in (Z.land word mask, rng).

(** The loops of [place_deepest] and [remove_from_path]: along the depths, the first
    slot that holds [old] gets [new]. *)
Fixpoint replace_on_path (p : OramParams) (old new lf : Z) (depths : list Z) (slots : list Z) : outcome (bool * list Z) :=
  match depths with
  | [] => Ok (false, slots)
  | depth :: depths =>
      let node_idx := node_index p depth lf in
      let base := bucket_base p node_idx in
      let? bucket := slice slots base (add64 base (bucket_size p) - base) in
      match replace_first old new bucket with
      | Some bucket => let? slots := splice slots base bucket in Ok (true, slots)
      | None => replace_on_path p old new lf depths slots
      end
  end.

(** [place_deepest] *)
Definition place_deepest (p : OramParams) (block : SimBlock) (slots : list Z) : outcome (bool * list Z) :=
  replace_on_path p EMPTY_BLOCK (sb_id block) (sb_leaf block) (reverse (seqZ 0 (height p))) slots.

(** [place_or_stash] *)
Definition place_or_stash (p : OramParams) (block : SimBlock) (slots : list Z) (stash : list SimBlock) : outcome (list Z * list SimBlock) :=
  let? r := place_deepest p block slots in
  Ok (r.2, if r.1 then stash else stash ++ [block]).

(** [remove_from_path] *)
Definition remove_from_path (p : OramParams) (logical_id lf : Z) (slots : list Z) : outcome (option SimBlock * list Z) :=
  let? r := replace_on_path p logical_id EMPTY_BLOCK lf (seqZ 0 (height p)) slots in
  Ok (if r.1 then Some (mkSimBlock logical_id lf) else None, r.2).

(** [Vec::swap_remove]: the last element takes the place of the removed one. *)
Definition swap_remove {A} (l : list A) (i : nat) : option (A * list A) :=
  match l !! i, last l with
  | Some x, Some y => Some (x, take (length l - 1) (<[i := y]> l))
  | _, _ => None
  end.

(** [iter().position(..).map(|idx| swap_remove(idx))] *)
Definition remove_matching {A} (P : A -> bool) (l : list A) : option (A * list A) :=
  match list_find P l with Some (i, _) => swap_remove l i | None => None end.

(** [remove_from_stash] *)
Definition remove_from_stash (logical_id : Z) (stash : list SimBlock) : option (SimBlock * list SimBlock) :=
  remove_matching (fun block => sb_id block =? logical_id) stash.

(** One slot of [read_bucket_into_stash] *)
Definition read_slot (position_map : list Z) (st : list Z * list SimBlock) (slot_idx : Z) : outcome (list Z * list SimBlock) :=
  let (slots, stash) := st in
  let? id := indexZ slots slot_idx in
  if id =? EMPTY_BLOCK then Ok (slots, stash)
  else
    let? slots := updateZ slots slot_idx EMPTY_BLOCK in
    let? lf := indexZ position_map id in
    Ok (slots, stash ++ [mkSimBlock id lf]).

(** [read_bucket_into_stash] *)
Definition read_bucket_into_stash (p : OramParams) (position_map : list Z) (st : list Z * list SimBlock) (node_idx : Z)
    : outcome (list Z * list SimBlock) :=
  let base := bucket_base p node_idx in
  let? _ := slice st.1 base (add64 base (bucket_size p) - base) in
  ofold (read_slot position_map) st (seqZ base (bucket_size p)).

(** One slot of [write_bucket_from_stash] *)
Definition write_slot (p : OramParams) (depth node_idx : Z) (st : list Z * list SimBlock) (slot_idx : Z) : outcome (list Z * list SimBlock) :=
  let (slots, stash) := st in
  let? id := indexZ slots slot_idx in
  if negb (id =? EMPTY_BLOCK) then Ok (slots, stash)
  else
    match remove_matching (fun block => node_contains_leaf p depth node_idx (sb_leaf block)) stash with
    | Some (block, stash) => let? slots := updateZ slots slot_idx (sb_id block) in Ok (slots, stash)
    | None => Ok (slots, stash)
    end.

(** [write_bucket_from_stash] *)
Definition write_bucket_from_stash (p : OramParams) (st : list Z * list SimBlock) (dn : Z * Z) : outcome (list Z * list SimBlock) :=
  let (depth, node_idx) := dn in
  ofold (write_slot p depth node_idx) st (seqZ (bucket_base p node_idx) (bucket_size p)).

(** ** Lemmas *)

Lemma swap_remove_perm {A} (l : list A) i x l' : swap_remove l i = Some (x, l') -> l !! i = Some x /\ x :: l' ≡ₚ l.
Proof.
  unfold swap_remove. destruct (l !! i) as [y|] eqn:Ey; [|done]. destruct (last l) as [z|] eqn:Ez; [|done]. intros [= <- <-]. split; [done|].
  apply last_Some in Ez as [a ->]. rewrite length_app. cbn [length]. replace (length a + 1 - 1)%nat with (length a) by lia.
  destruct (decide (i < length a)%nat) as [Hi|Hi].
  - rewrite insert_app_l, take_app_length' by (rewrite ?length_insert; lia). rewrite lookup_app_l in Ey by done.
    rewrite insert_take_drop by done. pose proof (take_drop_middle a i y Ey) as Ea. set (u := take i a) in *. set (v := drop (S i) a) in *.
    rewrite <-Ea, <-Permutation_cons_append, <-(Permutation_middle u v z), <-(Permutation_middle u v y). apply Permutation_swap.
  - apply lookup_lt_Some in Ey as Hlt. rewrite length_app in Hlt. cbn in Hlt. assert (i = length a) as -> by lia.
    rewrite lookup_app_r, Nat.sub_diag in Ey by lia. injection Ey as <-. rewrite insert_app_r_alt, take_app_length by lia.
    by rewrite Permutation_cons_append.
Qed.

Lemma remove_matching_spec {A} (P : A -> bool) l : match remove_matching P l with
  | Some (x, l') => P x = true /\ x :: l' ≡ₚ l
  | None => forall x, x ∈ l -> P x = false
  end.
Proof.
  unfold remove_matching. destruct (list_find P l) as [[i y]|] eqn:E.
  - apply list_find_Some in E as (Hy & HP & _). destruct (swap_remove l i) as [[x l']|] eqn:Es.
    + destruct (swap_remove_perm _ _ _ _ Es) as [Hx Hp]. rewrite Hy in Hx. simplify_eq. split; [by apply Is_true_true|done].
    + unfold swap_remove in Es. rewrite Hy in Es. destruct (last l) eqn:El; [done|]. apply last_None in El. by subst l.
  - apply list_find_None in E. rewrite Forall_forall in E. intros x Hx. specialize (E x Hx). by destruct (P x).
Qed.

Section Tree.
Context (p : OramParams) (Hp : params_ok p) (Hfit : bucket_count p * bucket_size p <= u64_max).
Local Abbreviation bs := (bucket_size p).

(** The blocks [ids] are in the slots and the stash, each once; blocks in slots are on
    the paths of their leaves. *)
Record holds (pm slots : list Z) (stash : list SimBlock) (ids : list Z) : Prop := {
  ho_len : lenZ slots = bucket_count p * bs;
  ho_leaves : Forall (leaf_ok p) pm;
  ho_words : lenZ pm <= u32_max;
  ho_home : forall o e, slots !! o = Some e -> e <> EMPTY_BLOCK ->
    0 <= e /\ exists lf, pm !! Z.to_nat e = Some lf /\ Z.of_nat o / bs ∈ path_nodes p lf;
  ho_stash : forall b, b ∈ stash -> 0 <= sb_id b /\ pm !! Z.to_nat (sb_id b) = Some (sb_leaf b);
  ho_ids : occupied EMPTY_BLOCK slots ++ (sb_id <$> stash) ≡ₚ ids
}.

Lemma holds_perm pm slots stash ids ids' : ids ≡ₚ ids' -> holds pm slots stash ids -> holds pm slots stash ids'.
Proof. intros Hids []. split; try done. by rewrite <-Hids. Qed.

Lemma id_not_empty (pm : list Z) id lf : lenZ pm <= u32_max -> 0 <= id -> pm !! Z.to_nat id = Some lf -> id <> EMPTY_BLOCK.
Proof. intros Hl Hid Hlf%lookup_lt_Some. unfold EMPTY_BLOCK, lenZ in *. lia. Qed.

Lemma bucket_room node : 0 <= node < bucket_count p -> 0 <= node * bs /\ node * bs + bs <= bucket_count p * bs.
Proof. intros Hn. pose proof (ok_bucket_size p Hp). nia. Qed.

Lemma bucket_base_eq node : 0 <= node < bucket_count p ->
  bucket_base p node = node * bs /\ add64 (node * bs) bs - node * bs = bs.
Proof.
  intros Hn. pose proof (bucket_room node Hn). pose proof (ok_bucket_size p Hp). unfold bucket_base.
  rewrite mul64_small by nia. split; [done|]. rewrite add64_small by lia. lia.
Qed.

Lemma slot_node node j : 0 <= j < bs -> (node * bs + j) / bs = node.
Proof. intros Hj. rewrite Z.add_comm, Z.div_add, Z.div_small by lia. lia. Qed.

(** Walking a path. *)
Lemma replace_on_path_spec old new lf depths slots : leaf_ok p lf -> lenZ slots = bucket_count p * bs ->
  Forall (fun d => 0 <= d < height p) depths ->
  match replace_on_path p old new lf depths slots with
  | Ok (true, slots') => exists d o, d ∈ depths /\ Z.of_nat o / bs = node_index p d lf /\ slots !! o = Some old /\ slots' = <[o := new]> slots
  | Ok (false, slots') => slots' = slots /\ forall d o, d ∈ depths -> Z.of_nat o / bs = node_index p d lf -> slots !! o <> Some old
  | _ => False
  end.
Proof.
  intros Hlf Hlen. induction 1 as [|d depths Hd _ IH]; cbn [replace_on_path]; [split; [done|set_solver]|].
  pose proof (node_index_range p Hp d lf Hlf Hd) as Hn. destruct (bucket_base_eq _ Hn) as [-> ->].
  set (node := node_index p d lf) in *. pose proof (bucket_room node Hn) as Hroom. pose proof (ok_bucket_size p Hp) as Hbs.
  destruct (slice_split slots (node * bs) bs) as (a & bucket & c & E & Ha & Hb & Es); [lia..|]. rewrite Es. cbn [obind].
  pose proof (replace_first_spec old new bucket) as Hr. destruct (replace_first old new bucket) as [bucket'|].
  - destruct Hr as (j & Hj & ->). assert (slice slots (node * bs) (lenZ bucket) = Ok bucket) as Es' by (by rewrite Hb).
    destruct (slice_update slots bucket (node * bs) j new old) as [-> Ho]; [lia|done|done|]. cbn [obind].
    exists d, (Z.to_nat (node * bs) + j)%nat. split; [set_solver|]. split; [|done]. apply lookup_lt_Some in Hj.
    rewrite Nat2Z.inj_add, Z2Nat.id by lia. apply slot_node. unfold lenZ in Hb. lia.
  - assert (forall o, Z.of_nat o / bs = node -> slots !! o <> Some old) as Hno.
    { intros o Ho Hso. apply Hr. pose proof (Z.div_mod (Z.of_nat o) bs ltac:(lia)) as Hdm. pose proof (Z.mod_pos_bound (Z.of_nat o) bs Hbs) as Hm.
      rewrite Ho in Hdm. apply list_elem_of_lookup. exists (Z.to_nat (Z.of_nat o mod bs)).
      rewrite E in Hso. rewrite lookup_app_r, lookup_app_l in Hso by (unfold lenZ in *; lia).
      rewrite <-Hso. f_equal. unfold lenZ in *. lia. }
    destruct (replace_on_path p old new lf depths slots) as [[[] slots']| | |]; try done.
    + destruct IH as (d' & o & Hd' & ?). exists d', o. split; [set_solver|done].
    + destruct IH as [-> Hrest]. split; [done|]. intros d' o [->|Hd']%elem_of_cons Ho; [by apply Hno|by apply (Hrest d')].
Qed.

Lemma depths_ok l : l ≡ₚ seqZ 0 (height p) -> Forall (fun d => 0 <= d < height p) l.
Proof. intros Hl. apply Forall_forall. intros d Hd. rewrite Hl in Hd. apply elem_of_seqZ in Hd. lia. Qed.

(** Writing a block into an empty slot of its path. *)
Lemma holds_put pm slots stash ids o id lf : holds pm slots stash ids -> 0 <= id -> pm !! Z.to_nat id = Some lf ->
  slots !! o = Some EMPTY_BLOCK -> Z.of_nat o / bs ∈ path_nodes p lf -> holds pm (<[o := id]> slots) stash (id :: ids).
Proof.
  intros [Hlen Hl Hw Hh Hs Hi] Hid Hlf Ho Hn. pose proof (id_not_empty pm id lf Hw Hid Hlf) as Hne. split; try done.
  - by rewrite <-Hlen; unfold lenZ; rewrite length_insert.
  - intros o' e He Hee. apply list_lookup_insert_Some in He as [(<- & <- & _)|[_ He]]; [|by apply Hh]. split; [done|]. by exists lf.
  - destruct (occupied_update EMPTY_BLOCK slots o EMPTY_BLOCK id Ho Hne) as [-> _]; [|done]. by rewrite <-Hi.
Qed.

(** Emptying a slot. *)
Lemma holds_take pm slots stash ids o id : holds pm slots stash ids -> slots !! o = Some id -> id <> EMPTY_BLOCK ->
  exists ids', holds pm (<[o := EMPTY_BLOCK]> slots) stash ids' /\ id :: ids' ≡ₚ ids.
Proof.
  intros [Hlen Hl Hw Hh Hs Hi] Ho Hne. exists (occupied EMPTY_BLOCK (<[o := EMPTY_BLOCK]> slots) ++ (sb_id <$> stash)). split.
  - split; try done.
    + by rewrite <-Hlen; unfold lenZ; rewrite length_insert.
    + intros o' e He Hee. apply list_lookup_insert_Some in He as [(_ & <- & _)|[_ He]]; [done|by apply Hh].
  - rewrite <-Hi, app_comm_cons. f_equiv. by apply occupied_clear.
Qed.

Lemma holds_push pm slots stash ids b : holds pm slots stash ids -> 0 <= sb_id b -> pm !! Z.to_nat (sb_id b) = Some (sb_leaf b) ->
  holds pm slots (stash ++ [b]) (sb_id b :: ids).
Proof.
  intros [Hlen Hl Hw Hh Hs Hi] Hid Hlf. split; try done.
  - intros b' [Hb|Hb%list_elem_of_singleton]%elem_of_app; [by apply Hs|by subst].
  - rewrite fmap_app, app_assoc. cbn. by rewrite <-Permutation_cons_append, Hi.
Qed.

Lemma holds_pop pm slots stash ids b stash' : holds pm slots stash ids -> b :: stash' ≡ₚ stash ->
  exists ids', holds pm slots stash' ids' /\ sb_id b :: ids' ≡ₚ ids.
Proof.
  intros [Hlen Hl Hw Hh Hs Hi] Hb. exists (occupied EMPTY_BLOCK slots ++ (sb_id <$> stash')). split.
  - split; try done. intros b' Hb'. apply Hs. rewrite <-Hb. set_solver.
  - rewrite <-Hi, Permutation_middle. f_equiv. rewrite <-Hb. done.
Qed.

Lemma place_or_stash_ok pm slots stash ids b : holds pm slots stash ids -> 0 <= sb_id b -> pm !! Z.to_nat (sb_id b) = Some (sb_leaf b) ->
  exists slots' stash', place_or_stash p b slots stash = Ok (slots', stash') /\ holds pm slots' stash' (sb_id b :: ids).
Proof.
  intros Hh Hid Hlf. pose proof Hh as [Hlen Hl Hw _ _ _]. unfold place_or_stash, place_deepest.
  pose proof (Forall_lookup_1 _ _ _ _ Hl Hlf) as Hleaf. pose proof (replace_on_path_spec EMPTY_BLOCK (sb_id b) (sb_leaf b) (reverse (seqZ 0 (height p))) slots Hleaf Hlen
    (depths_ok _ (reverse_Permutation _))) as Hs.
  destruct (replace_on_path _ _ _ _ _ _) as [[[] slots']| | |]; try done; cbn [obind fst snd].
  - destruct Hs as (d & o & Hd & Ho & Hso & ->). eexists _, _. split; [reflexivity|]. eapply holds_put; try done.
    rewrite Ho. apply elem_of_path_nodes. exists d. rewrite elem_of_reverse in Hd. apply elem_of_seqZ in Hd. split; [lia|done].
  - destruct Hs as [-> _]. eexists _, _. split; [reflexivity|]. by apply holds_push.
Qed.

(** The block is on its path or in the stash. *)
Lemma take_block pm slots stash ids id lf : holds pm slots stash ids -> id ∈ ids -> 0 <= id -> pm !! Z.to_nat id = Some lf -> NoDup ids ->
  exists ids', id :: ids' ≡ₚ ids /\
    ((exists slots', remove_from_path p id lf slots = Ok (Some (mkSimBlock id lf), slots') /\ holds pm slots' stash ids') \/
     (exists b stash', remove_from_path p id lf slots = Ok (None, slots) /\ remove_from_stash id stash = Some (b, stash') /\
        sb_id b = id /\ holds pm slots stash' ids')).
Proof.
  intros Hh Hid Hid0 Hlf Hnd. pose proof Hh as [Hlen Hl Hw Hhome Hst Hi]. pose proof (id_not_empty pm id lf Hw Hid0 Hlf) as Hne. unfold remove_from_path.
  pose proof (Forall_lookup_1 _ _ _ _ Hl Hlf) as Hleaf.
  pose proof (replace_on_path_spec id EMPTY_BLOCK lf (seqZ 0 (height p)) slots Hleaf Hlen (depths_ok _ (reflexivity _))) as Hs.
  destruct (replace_on_path _ _ _ _ _ _) as [[[] slots']| | |]; try done; cbn [obind fst snd].
  - destruct Hs as (d & o & Hd & Ho & Hso & ->). destruct (holds_take pm slots stash ids o id Hh Hso Hne) as (ids' & Hh' & Hp'). exists ids'. eauto.
  - destruct Hs as [-> Hno]. pose proof (remove_matching_spec (fun block => sb_id block =? id) stash) as Hr.
    assert (id ∈ sb_id <$> stash) as Hin.
    { rewrite <-Hi in Hid. apply elem_of_app in Hid as [Hocc|]; [|done]. exfalso. apply elem_of_occupied in Hocc as [_ Hocc].
      apply list_elem_of_lookup in Hocc as [o Ho]. destruct (Hhome o id Ho Hne) as (_ & lf' & Hlf' & (d & Hd & En)%elem_of_path_nodes).
      rewrite Hlf in Hlf'. injection Hlf' as <-. apply (Hno d o); [apply elem_of_seqZ; lia|done|done]. }
    apply list_elem_of_fmap in Hin as (b0 & Eb0 & Hb0). unfold remove_from_stash.
    destruct (remove_matching _ stash) as [[b stash']|]; [|specialize (Hr b0 Hb0); zbool; congruence].
    destruct Hr as [Hb Hperm]. zbool. destruct (holds_pop pm slots stash ids b stash' Hh Hperm) as (ids' & Hh' & Hp'). exists ids'. split; [by rewrite <-Hb|].
    right. by exists b, stash'.
Qed.

(** ** Buckets *)

Lemma read_slot_ok pm slots stash ids o : holds pm slots stash ids -> 0 <= o < bucket_count p * bs ->
  exists slots' stash', read_slot pm (slots, stash) o = Ok (slots', stash') /\ holds pm slots' stash' ids.
Proof.
  intros Hh Ho. pose proof Hh as [Hlen _ _ Hhome _ _]. unfold read_slot. destruct (lookup_lt_is_Some_2 slots (Z.to_nat o)) as [e He]; [unfold lenZ in Hlen; lia|].
  rewrite (indexZ_lookup slots o e) by (done || lia). cbn [obind]. destruct (e =? EMPTY_BLOCK) eqn:E; zbool; [by eexists _, _|].
  destruct (Hhome _ _ He E) as (He0 & lf & Hlf & _). unfold updateZ. rewrite (proj2 (andb_true_iff _ _)) by lia. cbn [obind].
  rewrite (indexZ_lookup pm e lf) by done. cbn [obind]. eexists _, _. split; [reflexivity|].
  destruct (holds_take pm slots stash ids _ e Hh He E) as (ids' & Hh' & Hp'). eapply holds_perm; [exact Hp'|].
  by apply (holds_push _ _ _ _ (mkSimBlock e lf)).
Qed.

Lemma read_bucket_ok pm slots stash ids node : holds pm slots stash ids -> 0 <= node < bucket_count p ->
  exists slots' stash', read_bucket_into_stash p pm (slots, stash) node = Ok (slots', stash') /\ holds pm slots' stash' ids.
Proof.
  intros Hh Hn. unfold read_bucket_into_stash. destruct (bucket_base_eq node Hn) as [-> ->]. pose proof (bucket_room node Hn) as Hr.
  pose proof (ok_bucket_size p Hp). pose proof (ho_len _ _ _ _ Hh) as Hlen.
  destruct (slice_split slots (node * bs) bs) as (a & b & c & _ & _ & _ & Es); [lia..|]. cbn [fst]. rewrite Es. cbn [obind].
  destruct (ofold_inv (fun st => holds pm st.1 st.2 ids) (read_slot pm) (seqZ (node * bs) bs)) with (b := (slots, stash)) as ([slots' stash'] & E & Hh'); [|done|eauto].
  intros [sl st] o Ho Hh1. apply elem_of_seqZ in Ho. destruct (read_slot_ok pm sl st ids o Hh1) as (sl' & st' & E & Hh2); [lia|]. by exists (sl', st').
Qed.

Lemma write_slot_ok pm slots stash ids depth node o : holds pm slots stash ids -> 0 <= depth < height p -> 0 <= o < bucket_count p * bs -> o / bs = node ->
  exists slots' stash', write_slot p depth node (slots, stash) o = Ok (slots', stash') /\ holds pm slots' stash' ids.
Proof.
  intros Hh Hd Ho Hn. pose proof Hh as [Hlen _ _ _ Hst _]. unfold write_slot. destruct (lookup_lt_is_Some_2 slots (Z.to_nat o)) as [e He]; [unfold lenZ in Hlen; lia|].
  rewrite (indexZ_lookup slots o e) by (done || lia). cbn [obind]. destruct (e =? EMPTY_BLOCK) eqn:E; zbool; cbn [negb]; [|by eexists _, _].
  pose proof (remove_matching_spec (fun block => node_contains_leaf p depth node (sb_leaf block)) stash) as Hr.
  destruct (remove_matching _ stash) as [[b stash']|]; [|by eexists _, _]. destruct Hr as [Hb Hperm]. unfold updateZ.
  rewrite (proj2 (andb_true_iff _ _)) by lia. cbn [obind]. eexists _, _. split; [reflexivity|].
  destruct (holds_pop pm slots stash ids b stash' Hh Hperm) as (ids' & Hh' & Hp'). eapply holds_perm; [exact Hp'|].
  destruct (Hst b) as [Hid Hlf]; [rewrite <-Hperm; set_solver|]. eapply holds_put; try done; [by rewrite He, E|].
  rewrite Z2Nat.id, Hn by lia. unfold node_contains_leaf in Hb. zbool. apply elem_of_path_nodes. by exists depth.
Qed.

Lemma write_bucket_ok pm slots stash ids depth node : holds pm slots stash ids -> 0 <= depth < height p -> 0 <= node < bucket_count p ->
  exists slots' stash', write_bucket_from_stash p (slots, stash) (depth, node) = Ok (slots', stash') /\ holds pm slots' stash' ids.
Proof.
  intros Hh Hd Hn. unfold write_bucket_from_stash. destruct (bucket_base_eq node Hn) as [-> _]. pose proof (bucket_room node Hn) as Hr.
  destruct (ofold_inv (fun st => holds pm st.1 st.2 ids) (write_slot p depth node) (seqZ (node * bs) bs)) with (b := (slots, stash)) as ([slots' stash'] & E & Hh'); [|done|eauto].
  intros [sl st] o Ho Hh1. apply elem_of_seqZ in Ho. destruct (write_slot_ok pm sl st ids depth node o Hh1 Hd) as (sl' & st' & E & Hh2); [lia| |by exists (sl', st')].
  replace o with (node * bs + (o - node * bs)) by lia. apply slot_node. lia.
Qed.

(** The position map gets a new leaf for a block that is in no slot. *)
Lemma holds_remap pm slots stash ids id lf : holds pm slots stash ids -> id ∉ ids -> 0 <= id < lenZ pm -> leaf_ok p lf ->
  holds (<[Z.to_nat id := lf]> pm) slots stash ids.
Proof.
  intros [Hlen Hl Hw Hh Hs Hi] Hid Hr Hlf. assert (forall e, 0 <= e -> e ∈ ids -> <[Z.to_nat id := lf]> pm !! Z.to_nat e = pm !! Z.to_nat e) as Hother.
  { intros e He Hin. apply list_lookup_insert_ne. intros Eq. apply Hid. by replace id with e by lia. }
  split; try done.
  - by apply Forall_insert.
  - unfold lenZ. by rewrite length_insert.
  - intros o e Ho He. destruct (Hh o e Ho He) as (He0 & lf' & Hlf' & Hn). split; [done|]. exists lf'. split; [|done]. rewrite Hother; [done|done|].
    rewrite <-Hi. apply elem_of_app. left. apply elem_of_occupied. split; [done|by eapply list_elem_of_lookup_2].
  - intros b Hb. destruct (Hs b Hb) as [Hb0 Hbl]. split; [done|]. rewrite Hother; [done|done|]. rewrite <-Hi. apply elem_of_app. right. by apply list_elem_of_fmap_2.
Qed.

End Tree.

Inductive CircuitStressPattern : Type := Random | RoundRobin.

(** Mirror of [struct CircuitStressConfig]. *)
Record CircuitStressConfig : Type := mkStressConfig {
  sc_params : OramParams;
  sc_ops : Z;
  sc_warmup_ops : Z;
  sc_pattern : CircuitStressPattern;
  sc_seed : bytes;
  sc_drain_per_access : Z;
  sc_burst_interval : Z;
  sc_burst_budget : Z;
  sc_max_debt : option Z
}.

(** Mirror of [struct CircuitStressReport]. *)
Record CircuitStressReport : Type := mkStressReport {
  rp_logical_blocks : Z;
  rp_leaves : Z;
  rp_height : Z;
  rp_bucket_size : Z;
  rp_stash_capacity : Z;
  rp_tree_slots : Z;
  rp_tree_slot_load_percent : f64;
  rp_init_stash : Z;
  rp_final_stash : Z;
  rp_max_stash : Z;
  rp_avg_stash : f64;
  rp_p50_stash : Z;
  rp_p99_stash : Z;
  rp_p999_stash : Z;
  rp_overflow_samples : Z;
  rp_warmup_ops : Z;
  rp_ops : Z;
  rp_pattern : CircuitStressPattern;
  rp_evictions_per_access : Z;
  rp_drain_per_access : Z;
  rp_burst_interval : Z;
  rp_burst_budget : Z;
  rp_max_debt_cap : option Z;
  rp_max_eviction_debt : Z;
  rp_final_eviction_debt : Z;
  rp_completed_evictions : Z;
  rp_scheduled_evictions : Z;
  rp_metadata_path_scans_per_access : f64;
  rp_payload_path_scans_per_access : f64
}.

(** [validate_config] *)
Definition stress_validate_config (c : CircuitStressConfig) : outcome unit :=
  let p := sc_params c in
  let? _ := guardo (logical_blocks p <=? u32_max) (InvalidParams "stress simulator supports at most u32::MAX logical blocks") in
  let? tree_slots := ok_or (checked_mul64 (bucket_count p) (bucket_size p)) (InvalidParams "tree slot count overflow") in
  let? _ := guardo (logical_blocks p <=? tree_slots) (InvalidParams "logical blocks {} exceed physical tree slots {}") in
  guardo (negb ((sc_burst_interval c =? 0) && negb (sc_burst_budget c =? 0))) (InvalidParams "burst_budget requires burst_interval > 0").

(** [StashStats], [percentile] and [StashStats::from_samples]; the two simulators have
    the same copies. *)
Record StashStats : Type := mkStats { st_max : Z; st_avg : f64; st_p50 : Z; st_p99 : Z; st_p999 : Z }.
Definition percentile (sorted_samples : list Z) (numerator denominator : Z) : outcome Z :=
  let len := lenZ sorted_samples in
  let rank := Z.max (div_ceil (mul64 len numerator) denominator) 1 in
  indexZ sorted_samples (rank - 1).
Definition from_samples (samples : list Z) : outcome StashStats :=
  if lenZ samples =? 0 then Ok (mkStats 0 f64_0 0 0 0)
  else
    let sum := wrap 64 (foldr Z.add 0 samples) in
    let sorted := merge_sort Z.le samples in
    let? max := match last sorted with Some m => Ok m | None => Panic end in
    let? p50 := percentile sorted 500 1000 in
    let? p99 := percentile sorted 990 1000 in
    let? p999 := percentile sorted 999 1000 in
    Ok (mkStats max (f64_div (f64_of_Z sum) (f64_of_Z (lenZ samples))) p50 p99 p999).

(** Mirror of [struct CircuitStressSim]. *)
Record CircuitStressSim : Type := mkStressSim {
  ss_params : OramParams;
  ss_slots : list Z;
  ss_position_map : list Z;
  ss_stash : list SimBlock;
  ss_init_stash : Z
}.

Section Sim.
Context {R : Type} `{Rng R}.

(** [next_logical_id] *)
Definition next_logical_id (pattern : CircuitStressPattern) (step n : Z) (rng : R) : outcome (Z * R) :=
  match pattern with
  | Random => let (word, rng) := next_u64 rng in if n =? 0 then Panic else Ok (wrap 32 (word mod n), rng)
  | RoundRobin => if n =? 0 then Panic else Ok (wrap 32 (step mod n), rng)
  end.

(** One turn of the loop of [new] *)
Definition sim_init_block (p : OramParams) (st : R * list Z * (list Z * list SimBlock)) (logical_id : Z)
    : outcome (R * list Z * (list Z * list SimBlock)) :=
  let '(rng, position_map, (slots, stash)) := st in
  let (lf, rng) := sim_random_leaf p rng in
  let position_map := position_map ++ [lf] in
  let? r := place_or_stash p (mkSimBlock (wrap 32 logical_id) lf) slots stash in
  Ok (rng, position_map, r).

(** [CircuitStressSim::new] *)
Definition stress_sim_new (p : OramParams) (seed : bytes) : outcome CircuitStressSim :=
  let? tree_slots := ok_or (checked_mul64 (bucket_count p) (bucket_size p)) (InvalidParams "tree slot count overflow") in
  let rng := from_seed (R := R) seed in
  let? st := ofold (sim_init_block p) (rng, [], (replicate (Z.to_nat tree_slots) EMPTY_BLOCK, [])) (seqZ 0 (logical_blocks p)) in
  let '(_, position_map, (slots, stash)) := st in
  Ok (mkStressSim p slots position_map stash (lenZ stash)).

(** [remove_from_path] or else [remove_from_stash] *)
Definition remove_block (p : OramParams) (logical_id old_leaf : Z) (slots : list Z) (stash : list SimBlock)
    : outcome (SimBlock * (list Z * list SimBlock)) :=
  let? r := remove_from_path p logical_id old_leaf slots in
  match r.1 with
  | Some block => Ok (block, (r.2, stash))
  | None =>
      match remove_from_stash logical_id stash with
      | Some (block, stash) => Ok (block, (r.2, stash))
      | None => Err (BlockNotFound logical_id)
      end
  end.

(** [CircuitStressSim::access] *)
Definition stress_access (s : CircuitStressSim) (logical_id : Z) (rng : R) : outcome (CircuitStressSim * R) :=
  let p := ss_params s in
  let? old_leaf := indexZ (ss_position_map s) logical_id in
  let? r := remove_block p logical_id old_leaf (ss_slots s) (ss_stash s) in
  let '(block, (slots, stash)) := r in
  let (lf, rng) := sim_random_leaf p rng in
  let block := mkSimBlock (sb_id block) lf in
  let? position_map := updateZ (ss_position_map s) logical_id (sb_leaf block) in
  Ok (mkStressSim p slots position_map (stash ++ [block]) (ss_init_stash s), rng).

(** [read_path_into_stash] and [write_path_from_stash] *)
Definition read_path_into_stash (p : OramParams) (position_map : list Z) (lf : Z) (st : list Z * list SimBlock) : outcome (list Z * list SimBlock) :=
  ofold (fun st depth => read_bucket_into_stash p position_map st (node_index p depth lf)) st (seqZ 0 (height p)).
Definition write_path_from_stash (p : OramParams) (lf : Z) (st : list Z * list SimBlock) : outcome (list Z * list SimBlock) :=
  ofold (fun st depth => write_bucket_from_stash p st (depth, node_index p depth lf)) st (reverse (seqZ 0 (height p))).

(** [CircuitStressSim::evict_path] *)
Definition stress_evict_path (s : CircuitStressSim) (lf : Z) : outcome CircuitStressSim :=
  let? st := read_path_into_stash (ss_params s) (ss_position_map s) lf (ss_slots s, ss_stash s) in
  let? st := write_path_from_stash (ss_params s) lf st in
  Ok (mkStressSim (ss_params s) st.1 (ss_position_map s) st.2 (ss_init_stash s)).

(** [drain_public_evictions], whose loop is left at the first [None] *)
Fixpoint drain_public_loop (budget : nat) (s : CircuitStressSim) (schedule : CircuitEvictionSchedule) (drained : Z)
    : outcome (Z * CircuitStressSim * CircuitEvictionSchedule) :=
  match budget with
  | O => Ok (drained, s, schedule)
  | S budget =>
      let (next, schedule) := complete_one_eviction schedule in
      let? next := next in
      match next with
      | Some lf => let? s := stress_evict_path s lf in drain_public_loop budget s schedule (drained + 1)
      | None => Ok (drained, s, schedule)
      end
  end.
Definition drain_public_evictions (s : CircuitStressSim) (schedule : CircuitEvictionSchedule) (budget : Z) :=
  drain_public_loop (Z.to_nat budget) s schedule 0.

(** The local variables of [stress_circuit] *)
Record StressRun : Type := mkRun {
  sr_sim : CircuitStressSim;
  sr_schedule : CircuitEvictionSchedule;
  sr_rng : R;
  sr_samples : list Z;
  sr_overflow : Z;
  sr_max_debt : Z;
  sr_metadata_scans : Z;
  sr_payload_scans : Z
}.

(** A drain and the counting of its scans *)
Definition run_drain (budget : Z) (measured : bool) (r : StressRun) : outcome StressRun :=
  let? d := drain_public_evictions (sr_sim r) (sr_schedule r) budget in
  let '(drained, s, schedule) := d in
  Ok (mkRun s schedule (sr_rng r) (sr_samples r) (sr_overflow r) (sr_max_debt r)
        (if measured then add64 (sr_metadata_scans r) (mul64 drained 2) else sr_metadata_scans r)
        (if measured then add64 (sr_payload_scans r) drained else sr_payload_scans r)).

(** The [while] loop that waits for the debt cap *)
Fixpoint debt_cap_loop (fuel : nat) (cap : Z) (measured : bool) (r : StressRun) : outcome StressRun :=
  match fuel with
  | O => Diverges
  | S fuel =>
      let? pending := pending_evictions (sr_schedule r) in
      if cap <? pending then let? r := run_drain 1 measured r in debt_cap_loop fuel cap measured r else Ok r
  end.

(** One step of [stress_circuit] *)
Definition stress_step (c : CircuitStressConfig) (r : StressRun) (step : Z) : outcome StressRun :=
  let measured := sc_warmup_ops c <=? step in
  let? q := next_logical_id (sc_pattern c) step (logical_blocks (sc_params c)) (sr_rng r) in
  let? a := stress_access (sr_sim r) q.1 q.2 in
  let (recorded, schedule) := record_access (sr_schedule r) in
  let? _ := recorded in
  let r := mkRun a.1 schedule a.2 (sr_samples r) (sr_overflow r) (sr_max_debt r)
             (if measured then add64 (sr_metadata_scans r) 1 else sr_metadata_scans r)
             (if measured then add64 (sr_payload_scans r) 1 else sr_payload_scans r) in
  let? r := run_drain (sc_drain_per_access c) measured r in
  let? r := if negb (sc_burst_interval c =? 0) && ((step + 1) mod sc_burst_interval c =? 0)
            then run_drain (sc_burst_budget c) measured r else Ok r in
  let? r := match sc_max_debt c with
            | Some cap => let? pending := pending_evictions (sr_schedule r) in debt_cap_loop (S (Z.to_nat pending)) cap measured r
            | None => Ok r
            end in
  let? pending := pending_evictions (sr_schedule r) in
  let stash_len := lenZ (ss_stash (sr_sim r)) in
  Ok (mkRun (sr_sim r) (sr_schedule r) (sr_rng r)
        (if measured then sr_samples r ++ [stash_len] else sr_samples r)
        (if measured && (stash_capacity (sc_params c) <? stash_len) then sr_overflow r + 1 else sr_overflow r)
        (Z.max (sr_max_debt r) pending) (sr_metadata_scans r) (sr_payload_scans r)).

(** [stress_circuit] up to the end of its loop *)
Definition stress_steps (c : CircuitStressConfig) : outcome StressRun :=
  let? s := stress_sim_new (sc_params c) (sc_seed c) in
  let schedule := schedule_new (sc_params c) in
  let rng := from_seed (R := R) (sc_seed c) in
  let? max_debt := pending_evictions schedule in
  let total_ops := add64 (sc_warmup_ops c) (sc_ops c) in
  ofold (stress_step c) (mkRun s schedule rng [] 0 max_debt 0 0) (seqZ 0 total_ops).

(** The report made of a finished run *)
Definition stress_report (c : CircuitStressConfig) (r : StressRun) : outcome CircuitStressReport :=
  let p := sc_params c in
  let? stats := from_samples (sr_samples r) in
  let? final_debt := pending_evictions (sr_schedule r) in
  let? scheduled := ok_or (checked_mul64 (issued_accesses (sr_schedule r)) (evictions_per_access (sr_schedule r)))
                      (InvalidInput "eviction counter overflow") in
  let measured_ops := f64_of_Z (Z.max (sc_ops c) 1) in
  let tree_slots := lenZ (ss_slots (sr_sim r)) in
  Ok (mkStressReport (logical_blocks p) (leaves p) (height p) (bucket_size p) (stash_capacity p) tree_slots
        (f64_div (f64_mul (f64_of_Z (logical_blocks p)) (f64_of_Z 100)) (f64_of_Z tree_slots))
        (ss_init_stash (sr_sim r)) (lenZ (ss_stash (sr_sim r))) (st_max stats) (st_avg stats) (st_p50 stats) (st_p99 stats) (st_p999 stats)
        (sr_overflow r) (sc_warmup_ops c) (sc_ops c) (sc_pattern c) (evictions_per_access (sr_schedule r)) (sc_drain_per_access c)
        (sc_burst_interval c) (sc_burst_budget c) (sc_max_debt c) (sr_max_debt r) final_debt (completed_evictions (sr_schedule r)) scheduled
        (f64_div (f64_of_Z (sr_metadata_scans r)) measured_ops) (f64_div (f64_of_Z (sr_payload_scans r)) measured_ops)).

(** [stress_circuit] *)
Definition stress_circuit (c : CircuitStressConfig) : outcome CircuitStressReport :=
  let? _ := stress_validate_config c in
  let? r := stress_steps c in
  stress_report c r.

End Sim.
Arguments StressRun : clear implicits.
