(* ===== verification/StressSpec.v ===== *)
(** * What the stress simulator promises

    A run of a valid configuration loses no block, reports statistics of a stash that
    never exceeds the number of blocks, and keeps the public eviction debt under the
    configured cap. *)

From S2P Require Import Prelude Slots Params Rng Schedule Float64 Stress.

Section Sim.
Context {R : Type} `{Rng R} (p : OramParams) (Hp : params_ok p) (Hfit : bucket_count p * bucket_size p <= u64_max).
Context (HN : logical_blocks p <= u32_max).

Lemma sim_random_leaf_ok (rng : R) : exists lf rng', sim_random_leaf p rng = (lf, rng') /\ leaf_ok p lf.
Proof.
  unfold sim_random_leaf. destruct (next_u32 rng) as [w rng']. eexists _, rng'. split; [reflexivity|].
  pose proof (leaves_pos p Hp) as Hl. pose proof (ok_leaves p Hp) as Hlv. destruct (ok_bits p Hp) as [Hb1 Hb2].
  rewrite (wrap_small 32 (leaves p)), wrap_small by lia. unfold leaf_ok.
  replace (leaves p - 1) with (Z.ones (leaf_bits p)) by (rewrite Z.ones_equiv; lia).
  rewrite Z.land_ones by lia. rewrite Hlv. apply Z.mod_pos_bound. lia.
Qed.

(** Every block is somewhere. *)
Record sim_ok (s : CircuitStressSim) : Prop := {
  si_params : ss_params s = p;
  si_pm : lenZ (ss_position_map s) = logical_blocks p;
  si_holds : holds p (ss_position_map s) (ss_slots s) (ss_stash s) (seqZ 0 (logical_blocks p));
  si_init : 0 <= ss_init_stash s <= logical_blocks p
}.

Lemma stash_bound pm slots stash n : 0 <= n -> holds p pm slots stash (seqZ 0 n) -> lenZ stash <= n.
Proof.
  intros Hn [_ _ _ _ _ Hi]. apply Permutation_length in Hi. rewrite length_app, length_fmap, length_seqZ in Hi. unfold lenZ. lia.
Qed.

Lemma holds_grow pm slots stash ids lf : holds p pm slots stash ids -> leaf_ok p lf -> lenZ pm + 1 <= u32_max ->
  holds p (pm ++ [lf]) slots stash ids.
Proof.
  intros [Hlen Hl Hw Hh Hs Hi] Hlf Hb. split; try done.
  - apply Forall_app. split; [done|by apply Forall_singleton].
  - rewrite lenZ_app, lenZ_cons. change (lenZ []) with 0. lia.
  - intros o e Ho He. destruct (Hh o e Ho He) as (He0 & lf' & Hlf' & Hn). split; [done|]. exists lf'. split; [|done]. by apply lookup_app_l_Some.
  - intros b Hb'. destruct (Hs b Hb') as [? ?]. split; [done|]. by apply lookup_app_l_Some.
Qed.

Lemma sim_init_ok (rng : R) : exists rng' pm slots stash,
  ofold (sim_init_block p) (rng, [], (replicate (Z.to_nat (bucket_count p * bucket_size p)) EMPTY_BLOCK, [])) (seqZ 0 (logical_blocks p)) =
    Ok (rng', pm, (slots, stash)) /\ lenZ pm = logical_blocks p /\ holds p pm slots stash (seqZ 0 (logical_blocks p)).
Proof.
  pose proof (ok_blocks p Hp) as HN0. pose proof (ok_bucket_size p Hp) as Hbs. pose proof (leaves_pos p Hp) as Hlv.
  destruct (ofold_prefix_inv (fun before (st : R * list Z * (list Z * list SimBlock)) =>
      lenZ st.1.2 = lenZ before /\ holds p st.1.2 st.2.1 st.2.2 (seqZ 0 (lenZ before)))
    (sim_init_block p) (seqZ 0 (logical_blocks p)) (rng, [], (replicate (Z.to_nat (bucket_count p * bucket_size p)) EMPTY_BLOCK, [])))
    as ([[rng' pm] [slots stash]] & E & Hpm & Hh).
  - intros before k after [[g pm] [slots stash]] El [Hpm Hh]. cbn [fst snd] in *. apply seqZ_split in El as [Hk Hkr]. rewrite Z.add_0_l in Hk, Hkr.
    unfold sim_init_block. destruct (sim_random_leaf_ok g) as (lf & g' & -> & Hlf). rewrite <-Hk in *. rewrite wrap_small by (unfold u32_max in *; lia).
    pose proof (holds_grow _ _ _ _ lf Hh Hlf ltac:(lia)) as Hg.
    destruct (place_or_stash_ok p Hp Hfit (pm ++ [lf]) slots stash (seqZ 0 k) (mkSimBlock k lf) Hg) as (slots' & stash' & -> & Hh');
      [cbn; lia|cbn; apply list_lookup_middle; unfold lenZ in Hpm; lia|]. cbn [obind]. eexists. split; [reflexivity|]. cbn [fst snd].
    rewrite !lenZ_app, !lenZ_cons, <-Hk, Hpm. change (lenZ []) with 0. split; [lia|]. rewrite Z.add_0_r. eapply holds_perm; [|exact Hh'].
    rewrite seqZ_app by lia. change (seqZ (0 + k) 1) with [0 + (0 + k)]. rewrite !Z.add_0_l. apply Permutation_cons_append.
  - split; [done|]. change (lenZ []) with 0. rewrite seqZ_nil by lia. split; cbn [fst snd]; try done.
    + unfold lenZ. rewrite length_replicate, Z2Nat.id; [done|]. unfold bucket_count. nia.
    + intros o e [-> _]%lookup_replicate. done.
    + intros b Hb. by apply not_elem_of_nil in Hb.
    + by rewrite occupied_empty.
  - cbn [fst snd] in *. assert (lenZ (seqZ 0 (logical_blocks p)) = logical_blocks p) as El by (unfold lenZ; rewrite length_seqZ; lia).
    rewrite El in *. by exists rng', pm, slots, stash.
Qed.

Lemma stress_sim_new_ok seed : exists s, stress_sim_new (R := R) p seed = Ok s /\ sim_ok s.
Proof.
  unfold stress_sim_new. rewrite (proj2 (checked_mul64_Some _ _ _)) by done. cbn [ok_or obind].
  destruct (sim_init_ok (from_seed seed)) as (rng' & pm & slots & stash & -> & Hpm & Hh). cbn [obind]. eexists. split; [reflexivity|].
  pose proof (ok_blocks p Hp). split; cbn; try done. pose proof (stash_bound pm slots stash (logical_blocks p) ltac:(lia) Hh). pose proof (lenZ_nonneg stash). lia.
Qed.

(** An access finds its block and gives it a fresh leaf. *)
Lemma remove_block_ok pm slots stash n id lf : holds p pm slots stash (seqZ 0 n) -> 0 <= id < n -> pm !! Z.to_nat id = Some lf ->
  exists b slots' stash' ids, remove_block p id lf slots stash = Ok (b, (slots', stash')) /\ sb_id b = id /\
    holds p pm slots' stash' ids /\ id :: ids ≡ₚ seqZ 0 n.
Proof.
  intros Hh Hid Hlf. destruct (take_block p Hp Hfit pm slots stash (seqZ 0 n) id lf Hh) as (ids & Hperm & Hcase);
    [apply elem_of_seqZ; lia|lia|done|apply NoDup_seqZ|]. unfold remove_block.
  destruct Hcase as [(slots' & -> & Hh')|(b & stash' & -> & Hr & Hb & Hh')]; cbn [obind fst snd].
  - eexists _, _, _, ids. split; [reflexivity|]. done.
  - rewrite Hr. eexists _, _, _, ids. split; [reflexivity|]. done.
Qed.

(** The block comes back to the stash with a new leaf. *)
Lemma holds_repush pm slots stash n id ids lf : holds p pm slots stash ids -> id :: ids ≡ₚ seqZ 0 n -> 0 <= id < lenZ pm -> leaf_ok p lf ->
  holds p (<[Z.to_nat id := lf]> pm) slots (stash ++ [mkSimBlock id lf]) (seqZ 0 n).
Proof.
  intros Hh Hperm Hid Hlf. assert (id ∉ ids) as Hnid.
  { pose proof (NoDup_seqZ 0 n) as Hnd. rewrite <-Hperm in Hnd. by apply NoDup_cons in Hnd as []. }
  eapply holds_perm; [exact Hperm|]. apply (holds_push p _ _ _ _ (mkSimBlock id lf)); [by apply holds_remap|cbn; lia|].
  cbn. apply list_lookup_insert_eq. unfold lenZ in Hid. lia.
Qed.

Lemma stress_access_ok s id (rng : R) : sim_ok s -> 0 <= id < logical_blocks p ->
  exists s' rng', stress_access s id rng = Ok (s', rng') /\ sim_ok s' /\ ss_init_stash s' = ss_init_stash s.
Proof.
  intros [Hps Hpm Hh Hin] Hid. unfold stress_access. rewrite Hps.
  destruct (lookup_lt_is_Some_2 (ss_position_map s) (Z.to_nat id)) as [lf Hlf]; [unfold lenZ in Hpm; lia|].
  rewrite (indexZ_lookup _ id lf) by (done || lia). cbn [obind].
  destruct (remove_block_ok _ _ _ _ id lf Hh Hid Hlf) as (b & slots' & stash' & ids & -> & Hb & Hh' & Hperm). cbn [obind].
  destruct (sim_random_leaf_ok rng) as (lf' & rng' & -> & Hlf'). cbn [sb_leaf sb_id]. unfold updateZ.
  rewrite (proj2 (andb_true_iff _ _)) by lia. cbn [obind]. eexists _, rng'. split; [reflexivity|]. split; [|done]. rewrite Hb.
  split; cbn; try done; [unfold lenZ in *; by rewrite length_insert|]. apply (holds_repush _ _ _ _ id ids); (done || lia).
Qed.

(** A path is read into the stash and written back. *)
Lemma path_ofold_ok (f : list Z * list SimBlock -> Z -> outcome (list Z * list SimBlock)) pm ids depths slots stash :
  (forall slots stash d, holds p pm slots stash ids -> 0 <= d < height p ->
     exists slots' stash', f (slots, stash) d = Ok (slots', stash') /\ holds p pm slots' stash' ids) ->
  Forall (fun d => 0 <= d < height p) depths -> holds p pm slots stash ids ->
  exists slots' stash', ofold f (slots, stash) depths = Ok (slots', stash') /\ holds p pm slots' stash' ids.
Proof.
  intros Hf Hd Hh. rewrite Forall_forall in Hd.
  destruct (ofold_inv (fun st => holds p pm st.1 st.2 ids) f depths) with (b := (slots, stash)) as ([slots' stash'] & E & Hh'); [|done|eauto].
  intros [sl st] d Hin Hh1. destruct (Hf sl st d Hh1 (Hd d Hin)) as (sl' & st' & E & Hh2). by exists (sl', st').
Qed.

Lemma stress_evict_ok s lf : sim_ok s -> leaf_ok p lf -> exists s', stress_evict_path s lf = Ok s' /\ sim_ok s' /\ ss_init_stash s' = ss_init_stash s.
Proof.
  intros [Hps Hpm Hh Hin] Hlf. unfold stress_evict_path, read_path_into_stash, write_path_from_stash. rewrite Hps.
  destruct (path_ofold_ok (fun st depth => read_bucket_into_stash p (ss_position_map s) st (node_index p depth lf))
    (ss_position_map s) (seqZ 0 (logical_blocks p)) (seqZ 0 (height p)) (ss_slots s) (ss_stash s)) as (slots1 & stash1 & -> & Hh1); [|by apply depths_ok|done|].
  { intros slots stash d Hd Hdr. apply read_bucket_ok; [done|done|done|by apply node_index_range]. }
  cbn [obind].
  destruct (path_ofold_ok (fun st depth => write_bucket_from_stash p st (depth, node_index p depth lf))
    (ss_position_map s) (seqZ 0 (logical_blocks p)) (reverse (seqZ 0 (height p))) slots1 stash1) as (slots2 & stash2 & -> & Hh2); [|apply depths_ok, reverse_Permutation|done|].
  { intros slots stash d Hd Hdr. apply write_bucket_ok; [done|done|done|done|by apply node_index_range]. }
  cbn [obind]. eexists. split; [reflexivity|]. split; [|done]. by split.
Qed.

Lemma next_id_ok pattern step (rng : R) : 0 <= step -> exists id rng', next_logical_id pattern step (logical_blocks p) rng = Ok (id, rng') /\ 0 <= id < logical_blocks p.
Proof.
  intros Hs. pose proof (ok_blocks p Hp) as H0. unfold next_logical_id. assert (forall x, 0 <= wrap 32 (x mod logical_blocks p) < logical_blocks p) as Hw.
  { intros x. pose proof (Z.mod_pos_bound x (logical_blocks p) H0). rewrite wrap_small by (unfold u32_max in *; lia). lia. }
  destruct pattern.
  - destruct (next_u64 rng) as [w rng']. rewrite (proj2 (Z.eqb_neq _ _)) by lia. eexists _, _. split; [reflexivity|]. apply Hw.
  - rewrite (proj2 (Z.eqb_neq _ _)) by lia. eexists _, _. split; [reflexivity|]. apply Hw.
Qed.

(** Drains keep the schedule's counters. *)
Lemma drain_public_ok (n : nat) : forall s sch d, sim_ok s -> schedule_ok sch -> sch_leaf_bits sch = leaf_bits p ->
  let k := Z.min (Z.of_nat n) (debt sch) in
  exists s', drain_public_loop n s sch d = Ok (d + k, s', advance k sch) /\ sim_ok s' /\ schedule_ok (advance k sch) /\ ss_init_stash s' = ss_init_stash s.
Proof.
  induction n as [|n IH]; intros s sch d Hs Hsch Hbits k; pose proof (debt_nonneg sch Hsch) as Hd; cbn [drain_public_loop].
  { exists s. assert (k = 0) as -> by (unfold k; lia). rewrite advance_0, Z.add_0_r. done. }
  destruct (decide (debt sch = 0)) as [Hz|Hz].
  - rewrite complete_one_eviction_none by done. cbn [obind]. exists s. assert (k = 0) as -> by (unfold k; lia). rewrite advance_0, Z.add_0_r. done.
  - destruct (complete_one_eviction_some sch Hsch ltac:(lia)) as [-> Hsch1]. cbn [obind].
    destruct (stress_evict_ok s (next_eviction_leaf sch) Hs) as (s1 & -> & Hs1 & Hi1).
    { unfold leaf_ok, next_eviction_leaf. rewrite (ok_leaves p Hp), Hbits. apply reverse_bits_mod_range. pose proof (ok_bits p Hp). lia. }
    cbn [obind]. destruct (IH s1 (advance 1 sch) (d + 1) Hs1 Hsch1 Hbits) as (s' & E & Hs' & Hsch' & Hi'). rewrite debt_advance, advance_add in *.
    assert (1 + Z.min (Z.of_nat n) (debt sch - 1) = k) as Ek by (unfold k; lia). rewrite Ek in *. exists s'. rewrite E.
    split; [do 3 f_equal; lia|]. split; [done|]. split; [done|congruence].
Qed.

End Sim.

(** ** Statistics *)

Lemma sorted_lookup l i j x y : StronglySorted Z.le l -> (i <= j)%nat -> l !! i = Some x -> l !! j = Some y -> x <= y.
Proof.
  intros Hs. revert i j. induction Hs as [|z l Hs IH Hz]; intros i j Hij Hi Hj; [done|]. destruct i as [|i], j as [|j]; cbn in *; simplify_eq; [done| |lia|].
  - rewrite Forall_forall in Hz. apply Hz. by eapply list_elem_of_lookup_2.
  - eapply (IH i j); [lia|done|done].
Qed.

Lemma filter_all (P : Z -> Prop) `{forall x : Z, Decision (P x)} (l : list Z) : (forall x, x ∈ l -> P x) -> filter P l = l.
Proof. induction l as [|x l IH]; intros Hl; [done|]. rewrite filter_cons_True by (apply Hl; set_solver). f_equal. apply IH. set_solver. Qed.
Lemma filter_none (P : Z -> Prop) `{forall x : Z, Decision (P x)} (l : list Z) : (forall x, x ∈ l -> ~ P x) -> filter P l = [].
Proof. induction l as [|x l IH]; intros Hl; [done|]. rewrite filter_cons_False by (apply Hl; set_solver). apply IH. set_solver. Qed.

(** The nearest-rank percentile: [n] thousandths of the samples are at most [x], and
    fewer are below it. *)
Definition is_percentile (l : list Z) (n x : Z) : Prop :=
  x ∈ l /\ lenZ l * n <= 1000 * lenZ (filter (fun y => y <= x) l) /\ 1000 * lenZ (filter (fun y => y < x) l) < lenZ l * n.

Lemma is_percentile_perm l l' n x : l ≡ₚ l' -> is_percentile l n x -> is_percentile l' n x.
Proof. intros Hl. unfold is_percentile, lenZ. by rewrite Hl. Qed.

Lemma is_percentile_le l n m x y : is_percentile l n x -> is_percentile l m y -> n <= m -> x <= y.
Proof.
  intros (_ & _ & Hx) (_ & Hy & _) Hnm. apply Z.nlt_ge. intros Hlt.
  assert (lenZ (filter (fun z => z <= y) l) <= lenZ (filter (fun z => z < x) l)) as Hle.
  { unfold lenZ. apply Nat2Z.inj_le. apply submseteq_length. clear -Hlt. induction l as [|z l IH]; [done|].
    rewrite !filter_cons. destruct (decide (z <= y)), (decide (z < x)); try lia; [by apply submseteq_skip|by apply submseteq_cons|done]. }
  pose proof (lenZ_nonneg l). nia.
Qed.

Lemma sorted_counts l (i : nat) x : StronglySorted Z.le l -> l !! i = Some x ->
  Z.of_nat i + 1 <= lenZ (filter (fun y => y <= x) l) /\ lenZ (filter (fun y => y < x) l) <= Z.of_nat i.
Proof.
  intros Hs Hx. rewrite <-(take_drop_middle l i x Hx), !filter_app. unfold lenZ. rewrite !length_app. apply lookup_lt_Some in Hx as Hi.
  assert (filter (fun y => y <= x) (take i l) = take i l) as ->.
  { apply filter_all. intros y (j & Hj)%list_elem_of_lookup. apply lookup_take_Some in Hj as [Hj Hji]. by apply (sorted_lookup l j i y x Hs); [lia|..]. }
  assert (filter (fun y => y < x) (x :: drop (S i) l) = []) as ->.
  { apply filter_none. intros y [->|(j & Hj)%list_elem_of_lookup]%elem_of_cons; [lia|]. rewrite lookup_drop in Hj.
    pose proof (sorted_lookup l i (Datatypes.S i + j) x y Hs ltac:(lia) Hx Hj). lia. }
  rewrite filter_cons_True by lia. cbn [length]. pose proof (length_filter (fun y => y < x) (take i l)). rewrite length_take in *. lia.
Qed.

Lemma percentile_ok l n : StronglySorted Z.le l -> 0 < lenZ l -> lenZ l * 1000 <= u64_max -> 0 < n <= 1000 ->
  exists x, percentile l n 1000 = Ok x /\ is_percentile l n x.
Proof.
  intros Hs Hl Hw Hn. unfold percentile. rewrite mul64_small by nia. unfold div_ceil. set (ceil := (lenZ l * n + 1000 - 1) / 1000).
  pose proof (Z.div_mod (lenZ l * n + 1000 - 1) 1000 ltac:(lia)) as Hdm. pose proof (Z.mod_pos_bound (lenZ l * n + 1000 - 1) 1000 ltac:(lia)) as Hm. fold ceil in Hdm.
  assert (1 <= ceil <= lenZ l) as Hc by nia. rewrite Z.max_l by lia.
  destruct (lookup_lt_is_Some_2 l (Z.to_nat (ceil - 1))) as [x Hx]; [unfold lenZ in Hc; lia|].
  exists x. rewrite (indexZ_lookup l (ceil - 1) x) by (done || lia). split; [done|]. destruct (sorted_counts l _ x Hs Hx).
  split; [by eapply list_elem_of_lookup_2|]. lia.
Qed.

(** What the statistics of a list of samples are. *)
Record stats_of (l : list Z) (st : StashStats) : Prop := {
  so_max : st_max st ∈ l /\ Forall (fun x => x <= st_max st) l;
  so_p50 : is_percentile l 500 (st_p50 st);
  so_p99 : is_percentile l 990 (st_p99 st);
  so_p999 : is_percentile l 999 (st_p999 st);
  so_avg : st_avg st = f64_div (f64_of_Z (wrap 64 (foldr Z.add 0 l))) (f64_of_Z (lenZ l))
}.

Lemma from_samples_ok l : lenZ l * 1000 <= u64_max -> exists st, from_samples l = Ok st /\ (0 < lenZ l -> stats_of l st).
Proof.
  intros Hw. unfold from_samples. destruct (lenZ l =? 0) eqn:E0; zbool; [eexists; split; [reflexivity|lia]|].
  pose proof (lenZ_nonneg l) as Hl0. pose proof (merge_sort_Permutation Z.le l) as Hperm. set (sorted := merge_sort Z.le l) in *.
  assert (StronglySorted Z.le sorted) as Hs by (apply StronglySorted_merge_sort; apply _).
  assert (lenZ sorted = lenZ l) as Hsl by (unfold lenZ; by rewrite Hperm).
  destruct (last sorted) as [m|] eqn:Em; [|apply last_None in Em; rewrite Em in Hsl; change (lenZ (@nil Z)) with 0 in Hsl; lia]. cbn [obind].
  rewrite last_lookup in Em.
  destruct (percentile_ok sorted 500 Hs ltac:(lia) ltac:(lia) ltac:(lia)) as (x1 & -> & H1). cbn [obind].
  destruct (percentile_ok sorted 990 Hs ltac:(lia) ltac:(lia) ltac:(lia)) as (x2 & -> & H2). cbn [obind].
  destruct (percentile_ok sorted 999 Hs ltac:(lia) ltac:(lia) ltac:(lia)) as (x3 & -> & H3). cbn [obind].
  eexists. split; [reflexivity|]. intros _. split; cbn [st_max st_p50 st_p99 st_p999 st_avg]; try done;
    [|by apply (is_percentile_perm _ _ _ _ Hperm)..].
  rewrite <-Hperm. split; [by eapply list_elem_of_lookup_2|]. apply Forall_forall. intros x (i & Hx)%list_elem_of_lookup.
  apply (sorted_lookup sorted i (pred (length sorted)) x m Hs); [|done|done]. apply lookup_lt_Some in Hx. lia.
Qed.

(** ** Runs *)

Section Run.
Context {R : Type} `{Rng R} (c : CircuitStressConfig).
Local Abbreviation p := (sc_params c).
Local Abbreviation N := (logical_blocks (sc_params c)).
Context (Hp : params_ok p) (Hfit : bucket_count p * bucket_size p <= u64_max) (HN : N <= u32_max).
Context (Hwarm : 0 <= sc_warmup_ops c) (Hops : 0 <= sc_ops c) (Hcount : (sc_warmup_ops c + sc_ops c) * 2 <= u64_max).
Context (Hcap : match sc_max_debt c with Some cap => 0 <= cap | None => True end).

(** The simulated tree and the public counters after [n] accesses. *)
Record core_ok (n : Z) (r : StressRun R) : Prop := {
  co_sim : sim_ok p (sr_sim r);
  co_schedule : schedule_ok (sr_schedule r);
  co_bits : sch_leaf_bits (sr_schedule r) = leaf_bits p;
  co_rate : evictions_per_access (sr_schedule r) = 2;
  co_issued : issued_accesses (sr_schedule r) = n
}.

(** The statistics do not change. *)
Definition same_stats (r r' : StressRun R) : Prop :=
  sr_samples r' = sr_samples r /\ sr_overflow r' = sr_overflow r /\ sr_max_debt r' = sr_max_debt r.

Lemma run_drain_ok n budget measured r : core_ok n r ->
  exists r', run_drain budget measured r = Ok r' /\ core_ok n r' /\ same_stats r r' /\
    debt (sr_schedule r') = debt (sr_schedule r) - Z.min (Z.max 0 budget) (debt (sr_schedule r)).
Proof.
  intros [Hs Hsch Hb Hr Hi]. unfold run_drain, drain_public_evictions.
  destruct (drain_public_ok p Hp Hfit (Z.to_nat budget) (sr_sim r) (sr_schedule r) 0 Hs Hsch Hb) as (s' & -> & Hs' & Hsch' & _). cbn [obind].
  eexists. split; [reflexivity|]. split; [by split|]. split; [done|]. cbn [sr_schedule]. rewrite debt_advance. lia.
Qed.

Lemma debt_cap_loop_ok n cap measured : 0 <= cap -> forall (fuel : nat) r, core_ok n r -> debt (sr_schedule r) < Z.of_nat fuel ->
  exists r', debt_cap_loop fuel cap measured r = Ok r' /\ core_ok n r' /\ same_stats r r' /\ debt (sr_schedule r') <= cap.
Proof.
  intros Hc. induction fuel as [|fuel IH]; intros r Hr Hd; pose proof (debt_nonneg _ (co_schedule _ _ Hr)) as Hd0; [lia|]. cbn [debt_cap_loop].
  rewrite pending_evictions_ok by apply Hr. cbn [obind]. destruct (cap <? _) eqn:E; zbool; [|by exists r].
  destruct (run_drain_ok n 1 measured r Hr) as (r1 & -> & Hr1 & (Ha & Hb & Hc1) & Hd1). cbn [obind].
  destruct (IH r1 Hr1) as (r2 & -> & Hr2 & (Ha2 & Hb2 & Hc2) & Hd2); [lia|]. exists r2. split; [done|]. split; [done|]. split; [|done].
  unfold same_stats. by rewrite Ha2, Hb2, Hc2.
Qed.

(** What holds after [n] steps. *)
Record run_ok (n : Z) (r : StressRun R) : Prop := {
  ru_core : core_ok n r;
  ru_samples : Forall (fun x => 0 <= x <= N) (sr_samples r);
  ru_length : lenZ (sr_samples r) = Z.max 0 (n - sc_warmup_ops c);
  ru_overflow : sr_overflow r = lenZ (filter (fun x => stash_capacity p < x) (sr_samples r));
  ru_debt : 0 <= debt (sr_schedule r) <= sr_max_debt r;
  ru_cap : match sc_max_debt c with Some cap => sr_max_debt r <= cap | None => True end
}.

Lemma stress_step_ok n r : run_ok n r -> 0 <= n < sc_warmup_ops c + sc_ops c -> exists r', stress_step c r n = Ok r' /\ run_ok (n + 1) r'.
Proof.
  intros [[Hs Hsch Hb Hrate Hi] Hsam Hlen Hov Hdebt Hmax] Hn. unfold stress_step.
  destruct (next_id_ok p Hp HN (sc_pattern c) n (sr_rng r)) as (id & rng1 & -> & Hid); [lia|]. cbn [obind fst snd].
  destruct (stress_access_ok p Hp Hfit (sr_sim r) id rng1 Hs Hid) as (s1 & rng2 & -> & Hs1 & _). cbn [obind fst snd].
  destruct (record_access_ok (sr_schedule r) Hsch) as [-> Hsch1]; [unfold can_record; rewrite Hi, Hrate; unfold u64_max in *; lia|]. cbn [obind].
  set (measured := sc_warmup_ops c <=? n). set (r1 := mkRun s1 _ _ _ _ _ _ _).
  assert (core_ok (n + 1) r1) as Hr1 by (split; cbn; try done; lia).
  destruct (run_drain_ok (n + 1) (sc_drain_per_access c) measured r1 Hr1) as (r2 & -> & Hr2 & (A2 & B2 & C2) & _). cbn [obind].
  assert (exists r3, (if negb (sc_burst_interval c =? 0) && ((n + 1) mod sc_burst_interval c =? 0) then run_drain (sc_burst_budget c) measured r2 else Ok r2) = Ok r3 /\
    core_ok (n + 1) r3 /\ same_stats r2 r3) as (r3 & -> & Hr3 & (A3 & B3 & C3)).
  { destruct (_ && _); [|by exists r2]. destruct (run_drain_ok (n + 1) (sc_burst_budget c) measured r2 Hr2) as (r3 & -> & ? & ? & _). by exists r3. }
  cbn [obind].
  assert (exists r4, (match sc_max_debt c with Some cap => let? pending := pending_evictions (sr_schedule r3) in debt_cap_loop (S (Z.to_nat pending)) cap measured r3 | None => Ok r3 end) = Ok r4 /\
    core_ok (n + 1) r4 /\ same_stats r3 r4 /\ match sc_max_debt c with Some cap => debt (sr_schedule r4) <= cap | None => True end) as (r4 & -> & Hr4 & (A4 & B4 & C4) & Hd4).
  { destruct (sc_max_debt c) as [cap|]; [|by exists r3]. rewrite pending_evictions_ok by apply Hr3. cbn [obind]. pose proof (debt_nonneg _ (co_schedule _ _ Hr3)).
    apply (debt_cap_loop_ok (n + 1)); [done|done|lia]. }
  cbn [obind]. rewrite pending_evictions_ok by apply Hr4. cbn [obind]. eexists. split; [reflexivity|].
  pose proof (debt_nonneg _ (co_schedule _ _ Hr4)) as Hd0. pose proof (ok_blocks p Hp) as HN0.
  pose proof (co_sim _ _ Hr4) as Hs4. pose proof (stash_bound p _ _ _ N ltac:(lia) (si_holds _ _ Hs4)) as Hst.
  pose proof (lenZ_nonneg (ss_stash (sr_sim r4))) as Hst0. rewrite A4, A3, A2, B4, B3, B2, C4, C3, C2. cbn [sr_samples sr_overflow sr_max_debt r1].
  split; cbn [sr_sim sr_schedule sr_samples sr_overflow sr_max_debt].
  - destruct Hr4. by split.
  - destruct measured; [|done]. apply Forall_app. split; [done|]. apply Forall_singleton. lia.
  - unfold measured. destruct (_ <=? n) eqn:E; zbool; rewrite ?lenZ_app, ?lenZ_cons; change (lenZ (@nil Z)) with 0; lia.
  - destruct measured; cbn [andb]; [|done]. rewrite filter_app, lenZ_app, filter_cons, filter_nil, Hov.
    destruct (_ <? _) eqn:E, (decide (_ < _)); zbool; rewrite ?lenZ_cons; change (lenZ (@nil Z)) with 0; lia.
  - lia.
  - destruct (sc_max_debt c); [lia|done].
Qed.

Lemma stress_steps_ok : exists r : StressRun R, stress_steps c = Ok r /\ run_ok (sc_warmup_ops c + sc_ops c) r.
Proof.
  unfold stress_steps. destruct (stress_sim_new_ok p Hp Hfit HN (R := R) (sc_seed c)) as (s & -> & Hs). cbn [obind].
  assert (schedule_ok (schedule_new p)) as Hsch
    by (pose proof (ok_bits p Hp); split; cbn [schedule_new with_rate sch_leaf_bits evictions_per_access issued_accesses completed_evictions]; unfold u64_max, DEFAULT_EVICTIONS_PER_ACCESS; lia).
  rewrite pending_evictions_ok by done. cbn [obind]. rewrite add64_small by (unfold u64_max in *; lia).
  destruct (ofold_prefix_inv (fun before r => run_ok (lenZ before) r) (stress_step c) (seqZ 0 (sc_warmup_ops c + sc_ops c))
    (mkRun s (schedule_new p) (from_seed (sc_seed c)) [] 0 (debt (schedule_new p)) 0 0)) as (r & E & Hr).
  - intros before n after r El Hr. apply seqZ_split in El as [En Hn]. rewrite Z.add_0_l in En, Hn. rewrite <-En in Hr.
    destruct (stress_step_ok n r Hr Hn) as (r' & E & Hr'). exists r'. split; [done|]. rewrite lenZ_app, lenZ_cons, <-En. exact Hr'.
  - change (debt (schedule_new p)) with 0. pose proof (lenZ_nonneg (@nil Z)). split; cbn [sr_sim sr_schedule sr_samples sr_overflow sr_max_debt].
    + by split.
    + constructor.
    + change (lenZ (@nil Z)) with 0. lia.
    + done.
    + by change (debt (schedule_new p)) with 0.
    + by destruct (sc_max_debt c).
  - exists r. split; [done|]. assert (lenZ (seqZ 0 (sc_warmup_ops c + sc_ops c)) = sc_warmup_ops c + sc_ops c) as El by (unfold lenZ; rewrite length_seqZ; lia).
    by rewrite El in Hr.
Qed.

End Run.

(** The checks of [stress_circuit], as facts. *)
Lemma stress_validate_ok c : stress_validate_config c = Ok tt -> let p := sc_params c in
  logical_blocks p <= u32_max /\ bucket_count p * bucket_size p <= u64_max /\ logical_blocks p <= bucket_count p * bucket_size p.
Proof.
  unfold stress_validate_config. destruct (logical_blocks (sc_params c) <=? u32_max) eqn:E1; [|done]. cbn [guardo obind].
  destruct (checked_mul64 _ _) as [n|] eqn:E2; [|done]. apply checked_mul64_Some in E2 as [-> Hn]. cbn [ok_or obind].
  destruct (_ <=? bucket_count _ * _) eqn:E3; [|done]. zbool. lia.
Qed.

(** What the report says of the run. *)
Record reports (c : CircuitStressConfig) {R} (r : StressRun R) (rep : CircuitStressReport) : Prop := {
  re_final_stash : rp_final_stash rep = lenZ (ss_stash (sr_sim r));
  re_stats : 0 < sc_ops c -> stats_of (sr_samples r)
    (mkStats (rp_max_stash rep) (rp_avg_stash rep) (rp_p50_stash rep) (rp_p99_stash rep) (rp_p999_stash rep));
  re_overflow : rp_overflow_samples rep = lenZ (filter (fun x => stash_capacity (sc_params c) < x) (sr_samples r));
  re_scheduled : rp_scheduled_evictions rep = 2 * (sc_warmup_ops c + sc_ops c);
  re_debt : rp_final_eviction_debt rep = rp_scheduled_evictions rep - rp_completed_evictions rep;
  re_max_debt : 0 <= rp_final_eviction_debt rep <= rp_max_eviction_debt rep;
  re_cap : match sc_max_debt c with Some cap => rp_max_eviction_debt rep <= cap | None => True end
}.

(** C39: A stress run of a valid configuration returns a report.  At its end every
    logical block is in exactly one place, a tree block on the path of its leaf; one
    stash size was sampled for every measured access, none above the number of blocks;
    the reported maximum, average and percentiles are those of the samples, the
    overflow count the number of samples above the stash capacity; the eviction debt
    is what is scheduled and not completed, and it never exceeded the configured cap. *)
Theorem stress_run_loses_no_block {R : Type} `{Rng R} (c : CircuitStressConfig) (p := sc_params c) :
  params_ok p -> stress_validate_config c = Ok tt ->
  0 <= sc_warmup_ops c -> 0 <= sc_ops c -> (sc_warmup_ops c + sc_ops c) * 2 <= u64_max -> sc_ops c * 1000 <= u64_max ->
  match sc_max_debt c with Some cap => 0 <= cap | None => True end ->
  exists (r : StressRun R) rep, stress_steps c = Ok r /\ stress_circuit (R := R) c = Ok rep /\
    holds p (ss_position_map (sr_sim r)) (ss_slots (sr_sim r)) (ss_stash (sr_sim r)) (seqZ 0 (logical_blocks p)) /\
    lenZ (sr_samples r) = sc_ops c /\ Forall (fun x => 0 <= x <= logical_blocks p) (sr_samples r) /\ reports c r rep.
Proof.
  intros Hp Hv Hw Ho Hcount Hsamples Hcap. destruct (stress_validate_ok c Hv) as (HN & Hfit & _).
  destruct (stress_steps_ok (R := R) c Hp Hfit HN Hw Ho Hcount Hcap) as (r & E & [[Hs Hsch Hb Hr Hi] Hsam Hlen Hov Hd Hm]).
  exists r. unfold stress_circuit. rewrite Hv, E. cbn [obind]. unfold stress_report.
  destruct (from_samples_ok (sr_samples r)) as (st & -> & Hst); [lia|]. cbn [obind]. rewrite pending_evictions_ok by done. cbn [obind].
  rewrite Hi, Hr, (proj2 (checked_mul64_Some _ _ _)) by done. cbn [ok_or obind]. eexists. split; [done|]. split; [reflexivity|].
  split; [apply (si_holds _ _ Hs)|]. split; [lia|]. split; [done|].
  split; cbn [rp_final_stash rp_max_stash rp_avg_stash rp_p50_stash rp_p99_stash rp_p999_stash rp_overflow_samples rp_scheduled_evictions rp_final_eviction_debt rp_completed_evictions rp_max_eviction_debt]; try done.
  - intros Hpos. destruct st. apply Hst. lia.
  - lia.
  - unfold debt. rewrite Hi, Hr. lia.
Qed.

(** Seven blocks in a tree of seven buckets, bursts and a debt cap. *)
Definition demo_stress : CircuitStressConfig := mkStressConfig (mkParams 7 8 1 4 2) 20 5 Random (replicate 32 7) 1 4 2 (Some 3).

Lemma stress_run_loses_no_block_witness : exists (r : StressRun Z) rep, stress_steps demo_stress = Ok r /\ stress_circuit (R := Z) demo_stress = Ok rep /\
    holds (sc_params demo_stress) (ss_position_map (sr_sim r)) (ss_slots (sr_sim r)) (ss_stash (sr_sim r)) (seqZ 0 7) /\
    lenZ (sr_samples r) = 20 /\ Forall (fun x => 0 <= x <= 7) (sr_samples r) /\ reports demo_stress r rep.
Proof.
  apply (stress_run_loses_no_block (R := Z) demo_stress); [split; (reflexivity || (vm_compute; done))|reflexivity|vm_compute; done..].
Defined.

(** The run, evaluated: seven blocks in seven slots keep a stash. *)
Example demo_stress_run : match stress_circuit (R := Z) demo_stress with
  | Ok rep => (rp_max_eviction_debt rep, rp_final_eviction_debt rep, rp_scheduled_evictions rep, rp_max_stash rep, rp_overflow_samples rep, rp_p50_stash rep) = (3, 3, 50, 3, 1, 2)
  | _ => False
  end.
Proof. vm_compute. reflexivity. Qed.
