(* ===== verification/RingStress.v ===== *)
(** * The Ring ORAM stress simulator ([src/src/ring_stress.rs])

    The same tree of block ids, with a read counter for every bucket: an access reads a
    path, every [eviction_period] accesses a path is evicted, and a bucket whose reads
    used up its dummy slots is reshuffled early.  The report adds estimates of the
    traffic (in doubles) and of the state a controller has to persist. *)

From S2P Require Import Prelude Slots Params Block Bucket Rng Schedule Float64 Aead Stress.

Declare Scope f64_scope.
Delimit Scope f64_scope with f64.
Infix "+" := f64_add : f64_scope.
Infix "*" := f64_mul : f64_scope.
Infix "/" := f64_div : f64_scope.

Definition READ_COUNTER_BYTES : Z := 4.
Definition PERMUTATION_INDEX_BYTES : Z := 2.

(** Mirror of [struct RingStressConfig]. *)
Record RingStressConfig : Type := mkRingConfig {
  rc_params : OramParams;
  rc_dummy_slots : Z;
  rc_ops : Z;
  rc_warmup_ops : Z;
  rc_pattern : CircuitStressPattern;
  rc_seed : bytes;
  rc_eviction_period : Z;
  rc_cache_levels : Z;
  rc_auth_store : bool;
  rc_auth_trusted_levels : Z;
  rc_auth_hash_page_size : Z
}.

(** Mirror of [struct RingIoEstimate]. *)
Record RingIoEstimate : Type := mkRingIo {
  io_meta_page_plaintext_bytes : Z;
  io_current_payload_page_plaintext_bytes : Z;
  io_slot_payload_plaintext_bytes : Z;
  io_current_primary_page_reads_per_access : f64;
  io_current_primary_page_writes_per_access : f64;
  io_current_primary_page_touches_per_access : f64;
  io_current_primary_plaintext_bytes_per_access : f64;
  io_current_primary_aead_bytes_per_access : f64;
  io_current_auth_hash_page_touches_per_access : f64;
  io_current_auth_hash_bytes_per_access : f64;
  io_current_total_backing_bytes_per_access : f64;
  io_slot_metadata_page_touches_per_access : f64;
  io_slot_payload_reads_per_access : f64;
  io_slot_payload_writes_per_access : f64;
  io_slot_payload_plaintext_bytes_per_access : f64;
  io_slot_payload_aead_bytes_per_access : f64;
  io_slot_auth_hash_page_touches_per_access : f64;
  io_slot_auth_hash_bytes_per_access : f64;
  io_slot_total_backing_bytes_per_access : f64
}.

(** Mirror of [struct RingCrashStateEstimate]. *)
Record RingCrashStateEstimate : Type := mkRingCrash {
  cs_position_map_bytes : Z;
  cs_stash_bytes : Z;
  cs_read_counter_bytes : Z;
  cs_permutation_bytes : Z;
  cs_current_auth_trusted_hash_bytes : Z;
  cs_slot_auth_trusted_hash_bytes : Z;
  cs_current_total_state_floor_bytes : Z;
  cs_slot_total_state_floor_bytes : Z
}.

(** Mirror of [struct RingStressReport]. *)
Record RingStressReport : Type := mkRingReport {
  rr_logical_blocks : Z;
  rr_leaves : Z;
  rr_height : Z;
  rr_bucket_size : Z;
  rr_dummy_slots : Z;
  rr_total_slots_per_bucket : Z;
  rr_stash_capacity : Z;
  rr_tree_buckets : Z;
  rr_real_tree_slots : Z;
  rr_total_tree_slots : Z;
  rr_real_tree_slot_load_percent : f64;
  rr_total_tree_slot_load_percent : f64;
  rr_init_stash : Z;
  rr_final_stash : Z;
  rr_max_stash : Z;
  rr_avg_stash : f64;
  rr_p50_stash : Z;
  rr_p99_stash : Z;
  rr_p999_stash : Z;
  rr_overflow_samples : Z;
  rr_warmup_ops : Z;
  rr_ops : Z;
  rr_pattern : CircuitStressPattern;
  rr_eviction_period : Z;
  rr_completed_evictions : Z;
  rr_measured_evictions : Z;
  rr_early_reshuffle_buckets : Z;
  rr_measured_early_reshuffle_buckets : Z;
  rr_measured_uncached_early_reshuffle_buckets : Z;
  rr_max_read_counter : Z;
  rr_cache_levels : Z;
  rr_uncached_levels : Z;
  rr_auth_store : bool;
  rr_auth_trusted_levels : Z;
  rr_auth_hash_page_size : Z;
  rr_io : RingIoEstimate;
  rr_crash_state : RingCrashStateEstimate
}.

(** ** Sizes *)

(** [checked_u64_mul] *)
Definition checked_u64_mul (lhs rhs : Z) : outcome Z :=
  ok_or (checked_mul64 lhs rhs) (InvalidParams "{label} byte count overflow").

(** [ring_meta_page_bytes] *)
Definition ring_meta_page_bytes (real_slots dummy_slots : Z) : outcome Z :=
  let? total_slots := ok_or (checked_add64 real_slots dummy_slots) (InvalidParams "Ring metadata slot count overflow") in
  let real_meta := wrap 64 (circuit_meta_page_bytes real_slots) in
  let? permutation := ok_or (checked_mul64 total_slots PERMUTATION_INDEX_BYTES) (InvalidParams "Ring permutation metadata overflow") in
  ok_or (value ← checked_add64 real_meta permutation; checked_add64 value READ_COUNTER_BYTES) (InvalidParams "Ring metadata page size overflow").

(** The levels of the tree over [page_count] pages, as [merkle_hash_touch_cost] and
    [trusted_merkle_hashes] both compute and check them *)
Definition ring_merkle_levels (page_count trusted_levels : Z) : outcome Z :=
  let? leaf_base := ok_or (checked_next_power_of_two page_count) (InvalidParams "auth page_count is too large") in
  let merkle_levels := trailing_zeros leaf_base + 1 in
  if (trusted_levels =? 0) || (merkle_levels <? trusted_levels)
  then Err (InvalidParams "auth_trusted_levels {} out of range 1..={}")
  else Ok merkle_levels.

(** [merkle_hash_touch_cost]: touches of a read, of a write *)
Record MerkleHashTouchCost : Type := mkTouchCost { read_hash_page_touches : Z; write_hash_page_touches : Z }.
Definition merkle_hash_touch_cost (page_count trusted_levels : Z) : outcome MerkleHashTouchCost :=
  let? merkle_levels := ring_merkle_levels page_count trusted_levels in
  let disk_levels_touched := merkle_levels - trusted_levels in
  Ok (mkTouchCost disk_levels_touched (disk_levels_touched * 3)).

(** [trusted_merkle_hashes] *)
Definition trusted_merkle_hashes (page_count trusted_levels : Z) : outcome Z :=
  let? _ := ring_merkle_levels page_count trusted_levels in
  let? trusted_node_limit := if wrap 32 trusted_levels <? 64 then Ok (2 ^ wrap 32 trusted_levels)
                             else Err (InvalidParams "auth trusted level is too large") in
  Ok (trusted_node_limit - 1).

(** [validate_config] *)
Definition ring_validate_config (c : RingStressConfig) : outcome unit :=
  let p := rc_params c in
  let? _ := guardo (logical_blocks p <=? u32_max) (InvalidParams "Ring stress simulator supports at most u32::MAX logical blocks") in
  let? _ := guardo (negb (rc_dummy_slots c =? 0)) (InvalidParams "dummy_slots must be > 0") in
  let? _ := guardo (rc_dummy_slots c <=? u32_max) (InvalidParams "dummy_slots must fit in u32 read counters") in
  let? _ := guardo (negb (rc_eviction_period c =? 0)) (InvalidParams "eviction_period must be > 0") in
  let? _ := guardo (32 <=? rc_auth_hash_page_size c) (InvalidParams "auth_hash_page_size must be at least 32") in
  let? tree_slots := ok_or (checked_mul64 (bucket_count p) (bucket_size p)) (InvalidParams "tree slot count overflow") in
  let? _ := guardo (logical_blocks p <=? tree_slots) (InvalidParams "logical blocks {} exceed Ring real tree slots {}") in
  if rc_auth_store c then let? _ := merkle_hash_touch_cost (bucket_count p) (rc_auth_trusted_levels c) in Ok tt else Ok tt.

(** [estimate_ring_io] *)
Definition estimate_ring_io (c : RingStressConfig)
    (total_slots_per_bucket measured_evictions measured_uncached_early_reshuffle_buckets uncached_levels : Z) : outcome RingIoEstimate :=
  let p := rc_params c in
  let ops := f64_of_Z (Z.max (rc_ops c) 1) in
  let read_paths := f64_of_Z (rc_ops c) in
  let evict_paths := f64_of_Z measured_evictions in
  let early_buckets := f64_of_Z measured_uncached_early_reshuffle_buckets in
  let uncached := f64_of_Z uncached_levels in
  let slots := f64_of_Z total_slots_per_bucket in
  let? meta_page := ring_meta_page_bytes (bucket_size p) (rc_dummy_slots c) in
  let? payload_page := ok_or (checked_mul64 total_slots_per_bucket (block_size p)) (InvalidParams "Ring payload page size overflow") in
  let slot_payload := block_size p in
  let meta_reads := (read_paths * uncached + evict_paths * uncached + early_buckets)%f64 in
  let meta_writes := (read_paths * uncached + evict_paths * uncached + early_buckets)%f64 in
  let current_payload_reads := (read_paths * uncached + evict_paths * uncached + early_buckets)%f64 in
  let current_payload_writes := (evict_paths * uncached + early_buckets)%f64 in
  let current_primary_reads := (meta_reads + current_payload_reads)%f64 in
  let current_primary_writes := (meta_writes + current_payload_writes)%f64 in
  let current_primary_plaintext_bytes := ((meta_reads + meta_writes) * f64_of_Z meta_page
    + (current_payload_reads + current_payload_writes) * f64_of_Z payload_page)%f64 in
  let current_primary_aead_bytes := ((meta_reads + meta_writes) * f64_of_Z (add64 meta_page AEAD_OVERHEAD)
    + (current_payload_reads + current_payload_writes) * f64_of_Z (add64 payload_page AEAD_OVERHEAD))%f64 in
  let slot_payload_reads := (read_paths * uncached + evict_paths * uncached * slots + early_buckets * slots)%f64 in
  let slot_payload_writes := (evict_paths * uncached * slots + early_buckets * slots)%f64 in
  let slot_payload_plaintext_bytes_total := ((slot_payload_reads + slot_payload_writes) * f64_of_Z slot_payload)%f64 in
  let slot_payload_aead_bytes_total := ((slot_payload_reads + slot_payload_writes) * f64_of_Z (add64 slot_payload AEAD_OVERHEAD))%f64 in
  let slot_metadata_aead_bytes := ((meta_reads + meta_writes) * f64_of_Z (add64 meta_page AEAD_OVERHEAD))%f64 in
  let? current_auth :=
    if rc_auth_store c then
      let? hash_cost := merkle_hash_touch_cost (bucket_count p) (rc_auth_trusted_levels c) in
      let touches := (current_primary_reads * f64_of_Z (read_hash_page_touches hash_cost)
        + current_primary_writes * f64_of_Z (write_hash_page_touches hash_cost))%f64 in
      Ok (touches, (touches * f64_of_Z (rc_auth_hash_page_size c))%f64)
    else Ok (f64_0, f64_0) in
  let? slot_auth :=
    if rc_auth_store c then
      let? meta_hash_cost := merkle_hash_touch_cost (bucket_count p) (rc_auth_trusted_levels c) in
      let? slot_page_count := ok_or (checked_mul64 (bucket_count p) total_slots_per_bucket) (InvalidParams "slot auth page count overflow") in
      let? slot_hash_cost := merkle_hash_touch_cost slot_page_count (rc_auth_trusted_levels c) in
      let touches := (meta_reads * f64_of_Z (read_hash_page_touches meta_hash_cost)
        + meta_writes * f64_of_Z (write_hash_page_touches meta_hash_cost)
        + slot_payload_reads * f64_of_Z (read_hash_page_touches slot_hash_cost)
        + slot_payload_writes * f64_of_Z (write_hash_page_touches slot_hash_cost))%f64 in
      Ok (touches, (touches * f64_of_Z (rc_auth_hash_page_size c))%f64)
    else Ok (f64_0, f64_0) in
  let (current_auth_hash_touches, current_auth_hash_bytes) := current_auth in
  let (slot_auth_hash_touches, slot_auth_hash_bytes) := slot_auth in
  Ok (mkRingIo meta_page payload_page slot_payload
    (current_primary_reads / ops)%f64
    (current_primary_writes / ops)%f64
    ((current_primary_reads + current_primary_writes) / ops)%f64
    (current_primary_plaintext_bytes / ops)%f64
    (current_primary_aead_bytes / ops)%f64
    (current_auth_hash_touches / ops)%f64
    (current_auth_hash_bytes / ops)%f64
    ((current_primary_aead_bytes + current_auth_hash_bytes) / ops)%f64
    ((meta_reads + meta_writes) / ops)%f64
    (slot_payload_reads / ops)%f64
    (slot_payload_writes / ops)%f64
    (slot_payload_plaintext_bytes_total / ops)%f64
    (slot_payload_aead_bytes_total / ops)%f64
    (slot_auth_hash_touches / ops)%f64
    (slot_auth_hash_bytes / ops)%f64
    ((slot_metadata_aead_bytes + slot_payload_aead_bytes_total + slot_auth_hash_bytes) / ops)%f64).

(** [estimate_crash_state] *)
Definition estimate_crash_state (c : RingStressConfig) (tree_buckets total_slots_per_bucket : Z) : outcome RingCrashStateEstimate :=
  let p := rc_params c in
  let? position_map_bytes := checked_u64_mul (logical_blocks p) 4 in
  let stash_slot_bytes := wrap 64 (serialized_len (block_size p)) in
  let? stash_bytes := checked_u64_mul (stash_capacity p) stash_slot_bytes in
  let? read_counter_bytes := checked_u64_mul tree_buckets READ_COUNTER_BYTES in
  let? permutation_slots := ok_or (checked_mul64 tree_buckets total_slots_per_bucket) (InvalidParams "permutation slot count overflow") in
  let? permutation_bytes := checked_u64_mul permutation_slots PERMUTATION_INDEX_BYTES in
  let? current_auth :=
    if rc_auth_store c then
      let? hashes := trusted_merkle_hashes (bucket_count p) (rc_auth_trusted_levels c) in
      checked_u64_mul hashes (32 * 2)
    else Ok 0 in
  let? slot_auth :=
    if rc_auth_store c then
      let? slot_page_count := ok_or (checked_mul64 (bucket_count p) total_slots_per_bucket) (InvalidParams "slot auth page count overflow") in
      let? meta_hashes := trusted_merkle_hashes (bucket_count p) (rc_auth_trusted_levels c) in
      let? slot_hashes := trusted_merkle_hashes slot_page_count (rc_auth_trusted_levels c) in
      Ok (mul64 (add64 meta_hashes slot_hashes) 32)
    else Ok 0 in
  let? controller_state := ok_or
    (value ← checked_add64 position_map_bytes stash_bytes;
     value ← checked_add64 value read_counter_bytes;
     checked_add64 value permutation_bytes) (InvalidParams "Ring crash state size overflow") in
  let? current_total := ok_or (checked_add64 controller_state current_auth) (InvalidParams "current crash state size overflow") in
  let? slot_total := ok_or (checked_add64 controller_state slot_auth) (InvalidParams "slot crash state size overflow") in
  Ok (mkRingCrash position_map_bytes stash_bytes read_counter_bytes permutation_bytes current_auth slot_auth current_total slot_total).

(** ** The simulator *)

(** [eviction_leaf_at] *)
Definition ring_eviction_leaf_at (p : OramParams) (eviction_index : Z) : Z :=
  let leaf_bits := wrap 32 (leaf_bits p) in
  let mask := if leaf_bits =? 32 then u32_max else Z.shiftl 1 leaf_bits - 1 in
  Z.shiftr (reverse_bits 32 (Z.land (wrap 32 eviction_index) mask)) (32 - leaf_bits).

(** Mirror of [struct RingStressSim]. *)
Record RingStressSim : Type := mkRingSim {
  rs_params : OramParams;
  rs_slots : list Z;
  rs_read_counters : list Z;
  rs_position_map : list Z;
  rs_stash : list SimBlock;
  rs_init_stash : Z;
  rs_max_read_counter : Z
}.

(** [RingStressSim::path] *)
Definition ring_path (p : OramParams) (lf : Z) : list (Z * Z) :=
  (fun depth => (depth, node_index p depth lf)) <$> seqZ 0 (height p).

(** Counting the read of one bucket *)
Definition count_read (st : list Z * Z) (dn : Z * Z) : outcome (list Z * Z) :=
  let (counters, max_read) := st in
  let? n := indexZ counters dn.2 in
  let n := Z.min u32_max (n + 1) in
  let? counters := updateZ counters dn.2 n in
  Ok (counters, Z.max max_read n).

(** The first loop of [evict_path]: a bucket goes to the stash, its counter to 0. *)
Definition take_bucket (p : OramParams) (position_map : list Z) (st : (list Z * list SimBlock) * list Z) (dn : Z * Z)
    : outcome ((list Z * list SimBlock) * list Z) :=
  let? tree := read_bucket_into_stash p position_map st.1 dn.2 in
  let? counters := updateZ st.2 dn.2 0 in
  Ok (tree, counters).

(** [RingStressSim::evict_path] *)
Definition ring_evict_path (s : RingStressSim) (lf : Z) : outcome RingStressSim :=
  let p := rs_params s in
  let path := ring_path p lf in
  let? st := ofold (take_bucket p (rs_position_map s)) ((rs_slots s, rs_stash s), rs_read_counters s) path in
  let? tree := ofold (write_bucket_from_stash p) st.1 (reverse path) in
  Ok (mkRingSim p tree.1 st.2 (rs_position_map s) tree.2 (rs_init_stash s) (rs_max_read_counter s)).

(** [RingStressSim::reshuffle_bucket] *)
Definition reshuffle_bucket (s : RingStressSim) (dn : Z * Z) : outcome RingStressSim :=
  let p := rs_params s in
  let? st := take_bucket p (rs_position_map s) ((rs_slots s, rs_stash s), rs_read_counters s) dn in
  let? tree := write_bucket_from_stash p st.1 dn in
  Ok (mkRingSim p tree.1 st.2 (rs_position_map s) tree.2 (rs_init_stash s) (rs_max_read_counter s)).

Section Sim.
Context {R : Type} `{Rng R}.

(** [RingStressSim::new] *)
Definition ring_sim_new (p : OramParams) (seed : bytes) : outcome RingStressSim :=
  let? tree_slots := ok_or (checked_mul64 (bucket_count p) (bucket_size p)) (InvalidParams "tree slot count overflow") in
  let rng := from_seed (R := R) seed in
  let? st := ofold (sim_init_block p) (rng, [], (replicate (Z.to_nat tree_slots) EMPTY_BLOCK, [])) (seqZ 0 (logical_blocks p)) in
  let '(_, position_map, (slots, stash)) := st in
  Ok (mkRingSim p slots (replicate (Z.to_nat (bucket_count p)) 0) position_map stash (lenZ stash) 0).

(** [RingStressSim::access] *)
Definition ring_access (s : RingStressSim) (logical_id : Z) (rng : R) : outcome (list (Z * Z) * RingStressSim * R) :=
  let p := rs_params s in
  let? old_leaf := indexZ (rs_position_map s) logical_id in
  let? r := remove_block p logical_id old_leaf (rs_slots s) (rs_stash s) in
  let '(block, (slots, stash)) := r in
  let (lf, rng) := sim_random_leaf p rng in
  let block := mkSimBlock (sb_id block) lf in
  let? position_map := updateZ (rs_position_map s) logical_id (sb_leaf block) in
  let path := ring_path p old_leaf in
  let? st := ofold count_read (rs_read_counters s, rs_max_read_counter s) path in
  Ok (path, mkRingSim p slots st.1 position_map (stash ++ [block]) (rs_init_stash s) st.2, rng).

(** The local variables of [stress_ring] *)
Record RingRun : Type := mkRingRun {
  rn_sim : RingStressSim;
  rn_rng : R;
  rn_samples : list Z;
  rn_overflow_samples : Z;
  rn_completed_evictions : Z;
  rn_measured_evictions : Z;
  rn_early : Z;
  rn_measured_early : Z;
  rn_measured_uncached_early : Z
}.

(** One bucket of the early-reshuffle loop *)
Definition early_reshuffle (c : RingStressConfig) (measured : bool) (r : RingRun) (dn : Z * Z) : outcome RingRun :=
  let? n := indexZ (rs_read_counters (rn_sim r)) dn.2 in
  if n <? wrap 32 (rc_dummy_slots c) then Ok r
  else
    let? s := reshuffle_bucket (rn_sim r) dn in
    let effective_cache_levels := Z.min (rc_cache_levels c) (height (rc_params c)) in
    let uncached := effective_cache_levels <=? dn.1 in
    Ok (mkRingRun s (rn_rng r) (rn_samples r) (rn_overflow_samples r) (rn_completed_evictions r) (rn_measured_evictions r)
          (add64 (rn_early r) 1)
          (if measured then add64 (rn_measured_early r) 1 else rn_measured_early r)
          (if measured && uncached then add64 (rn_measured_uncached_early r) 1 else rn_measured_uncached_early r)).

(** The periodic eviction *)
Definition ring_evict_step (c : RingStressConfig) (measured : bool) (r : RingRun) : outcome RingRun :=
  let lf := ring_eviction_leaf_at (rc_params c) (rn_completed_evictions r) in
  let? s := ring_evict_path (rn_sim r) lf in
  Ok (mkRingRun s (rn_rng r) (rn_samples r) (rn_overflow_samples r) (add64 (rn_completed_evictions r) 1)
        (if measured then add64 (rn_measured_evictions r) 1 else rn_measured_evictions r)
        (rn_early r) (rn_measured_early r) (rn_measured_uncached_early r)).

(** One step of [stress_ring] *)
Definition ring_step (c : RingStressConfig) (r : RingRun) (step : Z) : outcome RingRun :=
  let measured := rc_warmup_ops c <=? step in
  let? q := next_logical_id (rc_pattern c) step (logical_blocks (rc_params c)) (rn_rng r) in
  let? a := ring_access (rn_sim r) q.1 q.2 in
  let '(read_path, s, rng) := a in
  let r := mkRingRun s rng (rn_samples r) (rn_overflow_samples r) (rn_completed_evictions r) (rn_measured_evictions r)
             (rn_early r) (rn_measured_early r) (rn_measured_uncached_early r) in
  let? r := if (step + 1) mod rc_eviction_period c =? 0 then ring_evict_step c measured r else Ok r in
  let? r := ofold (early_reshuffle c measured) r (reverse read_path) in
  let stash_len := lenZ (rs_stash (rn_sim r)) in
  Ok (if measured
      then mkRingRun (rn_sim r) (rn_rng r) (rn_samples r ++ [stash_len])
             (if stash_capacity (rc_params c) <? stash_len then rn_overflow_samples r + 1 else rn_overflow_samples r)
             (rn_completed_evictions r) (rn_measured_evictions r) (rn_early r) (rn_measured_early r) (rn_measured_uncached_early r)
      else r).

(** [stress_ring] up to the end of its loop *)
Definition ring_steps (c : RingStressConfig) : outcome RingRun :=
  let? s := ring_sim_new (rc_params c) (rc_seed c) in
  let rng := from_seed (R := R) (rc_seed c) in
  let total_ops := add64 (rc_warmup_ops c) (rc_ops c) in
  ofold (ring_step c) (mkRingRun s rng [] 0 0 0 0 0 0) (seqZ 0 total_ops).

(** The report made of a finished run *)
Definition ring_report (c : RingStressConfig) (r : RingRun) : outcome RingStressReport :=
  let p := rc_params c in
  let effective_cache_levels := Z.min (rc_cache_levels c) (height p) in
  let? stats := from_samples (rn_samples r) in
  let tree_buckets := bucket_count p in
  let? real_tree_slots := ok_or (checked_mul64 tree_buckets (bucket_size p)) (InvalidParams "real tree slot count overflow") in
  let? total_slots_per_bucket := ok_or (checked_add64 (bucket_size p) (rc_dummy_slots c)) (InvalidParams "Ring slot count overflow") in
  let? total_tree_slots := ok_or (checked_mul64 tree_buckets total_slots_per_bucket) (InvalidParams "total tree slot count overflow") in
  let uncached_levels := height p - effective_cache_levels in
  let? io := estimate_ring_io c total_slots_per_bucket (rn_measured_evictions r) (rn_measured_uncached_early r) uncached_levels in
  let? crash_state := estimate_crash_state c tree_buckets total_slots_per_bucket in
  Ok (mkRingReport (logical_blocks p) (leaves p) (height p) (bucket_size p) (rc_dummy_slots c) total_slots_per_bucket (stash_capacity p)
        tree_buckets real_tree_slots total_tree_slots
        (f64_of_Z (logical_blocks p) * f64_of_Z 100 / f64_of_Z real_tree_slots)%f64
        (f64_of_Z (logical_blocks p) * f64_of_Z 100 / f64_of_Z total_tree_slots)%f64
        (rs_init_stash (rn_sim r)) (lenZ (rs_stash (rn_sim r))) (st_max stats) (st_avg stats) (st_p50 stats) (st_p99 stats) (st_p999 stats)
        (rn_overflow_samples r) (rc_warmup_ops c) (rc_ops c) (rc_pattern c) (rc_eviction_period c)
        (rn_completed_evictions r) (rn_measured_evictions r) (rn_early r) (rn_measured_early r) (rn_measured_uncached_early r)
        (rs_max_read_counter (rn_sim r)) effective_cache_levels uncached_levels
        (rc_auth_store c) (rc_auth_trusted_levels c) (rc_auth_hash_page_size c) io crash_state).

(** [stress_ring] *)
Definition stress_ring (c : RingStressConfig) : outcome RingStressReport :=
  let? _ := ring_validate_config c in
  let? r := ring_steps c in
  ring_report c r.

End Sim.
Arguments RingRun : clear implicits.
