(* ===== verification/RingStressSpec.v ===== *)
(** * What the Ring ORAM simulator promises

    No bucket is read more often than it has dummy slots before it is written again
    (a statement about the history of reads and rewrites of a run, which the counters
    keep track of), no block is lost, and the report adds up the traffic and the
    persistent state. *)

From S2P Require Import Prelude Slots Params Block Bucket Rng Schedule Float64 Aead Stress StressSpec RingStress.

Lemma div_succ n k : 0 <= n -> 0 < k -> (n + 1) / k = n / k + (if (n + 1) mod k =? 0 then 1 else 0).
Proof.
  intros Hn Hk. pose proof (Z.div_mod n k ltac:(lia)). pose proof (Z.mod_pos_bound n k Hk).
  pose proof (Z.div_mod (n + 1) k ltac:(lia)). pose proof (Z.mod_pos_bound (n + 1) k Hk). destruct (_ =? 0) eqn:E; zbool; nia.
Qed.

Lemma updateZ_in {A} (l : list A) i x : 0 <= i < lenZ l -> updateZ l i x = Ok (<[Z.to_nat i := x]> l).
Proof. intros Hi. unfold updateZ. by rewrite (proj2 (andb_true_iff _ _)) by lia. Qed.

(** ** Read counters *)

(** Every counter is at most [D], and below it at the nodes of [Q]. *)
Definition budget (D : Z) (Q : Z -> Prop) (counters : list Z) : Prop :=
  forall i n, counters !! i = Some n -> 0 <= n <= D /\ (Q (Z.of_nat i) -> n < D).

Lemma budget_weaken D (Q Q' : Z -> Prop) counters : budget D Q counters -> (forall i, Q' i -> Q i) -> budget D Q' counters.
Proof. intros Hb HQ i n Hi. destruct (Hb i n Hi). auto. Qed.

Lemma budget_reset D Q Q' counters node : 0 < D -> 0 <= node -> budget D Q counters -> (forall i, Q' i -> i = node \/ Q i) ->
  budget D Q' (<[Z.to_nat node := 0]> counters).
Proof.
  intros HD Hnode Hb HQ i n [(<- & <- & _)|[Hne Hi]]%list_lookup_insert_Some; [lia|]. destruct (Hb i n Hi) as [H1 H2]. split; [done|].
  intros Hq. destruct (HQ _ Hq); [lia|auto].
Qed.

Lemma budget_below D Q counters node n : 0 <= node -> counters !! Z.to_nat node = Some n -> budget D Q counters -> n < D ->
  budget D (fun i => i = node \/ Q i) counters.
Proof. intros Hnode Hn Hb Hlt i m Hi. destruct (Hb i m Hi) as [H1 H2]. split; [done|]. intros [Hq|?]; [|auto]. rewrite <-Hq, Nat2Z.id in Hn. by simplify_eq. Qed.

(** ** The history of a run

    What happens to the buckets, in order: the reads of the accesses, and the rewrites
    of the evictions and of the early reshuffles, which put fresh dummies in. *)
Inductive bucket_event : Type := BucketRead (node : Z) | BucketRewrite (node : Z).

Definition is_read (e : bucket_event) : bool := match e with BucketRead _ => true | BucketRewrite _ => false end.

(** The reads of a bucket since it was last rewritten. *)
Definition count_event (node n : Z) (e : bucket_event) : Z :=
  match e with
  | BucketRead m => if m =? node then n + 1 else n
  | BucketRewrite m => if m =? node then 0 else n
  end.
Definition reads_since (node : Z) (h : list bucket_event) : Z := foldl (count_event node) 0 h.

(** The counters are the reads of the history, and the largest counter is the largest
    number of reads any bucket has seen at any time. *)
Record tracked (h : list bucket_event) (counters : list Z) (mx : Z) : Prop := {
  tr_counter : forall i n, counters !! i = Some n -> n = reads_since (Z.of_nat i) h;
  tr_above : forall before node, before `prefix_of` h -> reads_since node before <= mx;
  tr_reached : exists before node, before `prefix_of` h /\ reads_since node before = mx
}.

Lemma reads_since_snoc node h e : reads_since node (h ++ [e]) = count_event node (reads_since node h) e.
Proof. apply foldl_snoc. Qed.

Lemma prefix_snoc {A} (l h : list A) x : l `prefix_of` h ++ [x] -> l `prefix_of` h \/ l = h ++ [x].
Proof.
  intros [k Hk]. destruct k as [|y k _] using rev_ind; [right; by rewrite app_nil_r in Hk|left].
  rewrite app_assoc in Hk. apply app_inj_tail in Hk as [-> _]. by exists k.
Qed.

Lemma tracked_new n : tracked [] (replicate n 0) 0.
Proof.
  split; [by intros i k [-> _]%lookup_replicate|intros before node ->%prefix_nil_inv; done|].
  exists [], 0. by split.
Qed.

Lemma tracked_read h counters mx node n : 0 <= node -> counters !! Z.to_nat node = Some n -> tracked h counters mx ->
  tracked (h ++ [BucketRead node]) (<[Z.to_nat node := n + 1]> counters) (Z.max mx (n + 1)).
Proof.
  intros Hnode Hn [Hc Ha (before & m & Hb & Hm)]. pose proof (Hc _ _ Hn) as En. rewrite Z2Nat.id in En by done. split.
  - intros i k [(<- & <- & _)|[Hne Hi]]%list_lookup_insert_Some; rewrite reads_since_snoc; cbn.
    + rewrite Z2Nat.id, Z.eqb_refl by done. lia.
    + destruct (node =? Z.of_nat i) eqn:E; zbool; [lia|by apply Hc].
  - intros l j [Hl| ->]%prefix_snoc; [specialize (Ha l j Hl); lia|]. rewrite reads_since_snoc. cbn.
    destruct (node =? j) eqn:E; zbool; [subst j; lia|]. specialize (Ha h j ltac:(done)). lia.
  - destruct (decide (n + 1 <= mx)).
    + exists before, m. split; [by apply prefix_app_r|lia].
    + exists (h ++ [BucketRead node]), node. split; [done|]. rewrite reads_since_snoc. cbn. rewrite Z.eqb_refl. lia.
Qed.

Lemma tracked_rewrite h counters mx node : 0 <= node -> tracked h counters mx ->
  tracked (h ++ [BucketRewrite node]) (<[Z.to_nat node := 0]> counters) mx.
Proof.
  intros Hnode [Hc Ha (before & m & Hb & Hm)]. split.
  - intros i k [(<- & <- & _)|[Hne Hi]]%list_lookup_insert_Some; rewrite reads_since_snoc; cbn.
    + by rewrite Z2Nat.id, Z.eqb_refl by done.
    + destruct (node =? Z.of_nat i) eqn:E; zbool; [lia|by apply Hc].
  - intros l j [Hl| ->]%prefix_snoc; [by apply Ha|]. rewrite reads_since_snoc. cbn.
    destruct (node =? j); [|by apply Ha]. apply (Ha [] j), prefix_nil.
  - exists before, m. split; [by apply prefix_app_r|done].
Qed.

Section Logged.
Context {R : Type} `{Rng R} (c : RingStressConfig).

(** The early reshuffles, noting the buckets the run counts as reshuffled. *)
Definition early_reshuffle_log (measured : bool) (st : RingRun R * list bucket_event) (dn : Z * Z)
    : outcome (RingRun R * list bucket_event) :=
  let? r := early_reshuffle c measured st.1 dn in
  Ok (r, if rn_early r =? rn_early st.1 then st.2 else st.2 ++ [BucketRewrite dn.2]).

(** What a step does: it reads the path of the block's leaf, rewrites the path of the
    eviction when one is due, and reshuffles buckets of the path it read. *)
Definition step_events (r : RingRun R) (step : Z) : outcome (list bucket_event) :=
  let p := rc_params c in
  let measured := rc_warmup_ops c <=? step in
  let due := (step + 1) mod rc_eviction_period c =? 0 in
  let? q := next_logical_id (rc_pattern c) step (logical_blocks p) (rn_rng r) in
  let? lf := indexZ (rs_position_map (rn_sim r)) q.1 in
  let? a := ring_access (rn_sim r) q.1 q.2 in
  let '(read_path, s, rng) := a in
  let r := mkRingRun s rng (rn_samples r) (rn_overflow_samples r) (rn_completed_evictions r) (rn_measured_evictions r)
             (rn_early r) (rn_measured_early r) (rn_measured_uncached_early r) in
  let evicted := if due then ring_path p (ring_eviction_leaf_at p (rn_completed_evictions r)) else [] in
  let? r := if due then ring_evict_step c measured r else Ok r in
  let? st := ofold (early_reshuffle_log measured) (r, []) (reverse read_path) in
  Ok ((BucketRead <$> (ring_path p lf).*2) ++ (BucketRewrite <$> evicted.*2) ++ st.2).

(** The run with its history. *)
Definition ring_step_log (st : RingRun R * list bucket_event) (step : Z) : outcome (RingRun R * list bucket_event) :=
  let? r := ring_step c st.1 step in
  let? evs := step_events st.1 step in
  Ok (r, st.2 ++ evs).
Definition ring_history : outcome (RingRun R * list bucket_event) :=
  let? s := ring_sim_new (R := R) (rc_params c) (rc_seed c) in
  ofold ring_step_log (mkRingRun s (from_seed (rc_seed c)) [] 0 0 0 0 0 0, []) (seqZ 0 (add64 (rc_warmup_ops c) (rc_ops c))).

End Logged.

(** The reads and the rewrites of a history. *)
Definition num_reads (h : list bucket_event) : Z := lenZ (filter (fun e => is_read e = true) h).
Definition num_rewrites (h : list bucket_event) : Z := lenZ (filter (fun e => is_read e = false) h).

Lemma num_app h1 h2 : num_reads (h1 ++ h2) = num_reads h1 + num_reads h2 /\ num_rewrites (h1 ++ h2) = num_rewrites h1 + num_rewrites h2.
Proof. unfold num_reads, num_rewrites. by rewrite !filter_app, !lenZ_app. Qed.

Lemma num_all b h : Forall (fun e => is_read e = b) h -> num_reads h = (if b then lenZ h else 0) /\ num_rewrites h = (if b then 0 else lenZ h).
Proof.
  intros Hb. unfold num_reads, num_rewrites. induction Hb as [|e h He _ [IH1 IH2]]; [by destruct b|].
  rewrite !filter_cons, !lenZ_cons, He. destruct b; cbn [decide]; repeat case_decide; try done; rewrite ?lenZ_cons; lia.
Qed.

Lemma all_reads l : Forall (fun e => is_read e = true) (BucketRead <$> l).
Proof. apply Forall_fmap, Forall_true. done. Qed.
Lemma all_rewrites l : Forall (fun e => is_read e = false) (BucketRewrite <$> l).
Proof. apply Forall_fmap, Forall_true. done. Qed.

Lemma step_counts h reads rewrites evs : Forall (fun e => is_read e = false) evs ->
  let h' := ((h ++ (BucketRead <$> reads)) ++ (BucketRewrite <$> rewrites)) ++ evs in
  num_reads h' = num_reads h + lenZ reads /\ num_rewrites h' = num_rewrites h + lenZ rewrites + lenZ evs.
Proof.
  intros Hevs h'. subst h'. rewrite !(proj1 (num_app _ _)), !(proj2 (num_app _ _)).
  destruct (num_all _ _ (all_reads reads)) as [-> ->], (num_all _ _ (all_rewrites rewrites)) as [-> ->], (num_all _ _ Hevs) as [-> ->].
  unfold lenZ. rewrite !length_fmap. lia.
Qed.

(** Forgetting a log. *)
Lemma ofold_erase {A B C} (f : A -> B -> outcome A) (g : A * C -> B -> outcome (A * C)) l :
  (forall st b st', g st b = Ok st' -> f st.1 b = Ok st'.1) -> forall st st', ofold g st l = Ok st' -> ofold f st.1 l = Ok st'.1.
Proof.
  intros Hfg. induction l as [|b l IH]; intros st st'; cbn [ofold]; [by intros [= ->]|].
  intros (st1 & E1 & E2)%obind_Ok. rewrite (Hfg _ _ _ E1). cbn [obind]. by apply IH.
Qed.

Section Ring.
Context {R : Type} `{Rng R} (p : OramParams) (Hp : params_ok p) (Hfit : bucket_count p * bucket_size p <= u64_max).
Context (HN : logical_blocks p <= u32_max) (D : Z) (HD : 0 < D <= u32_max).
Local Abbreviation ids := (seqZ 0 (logical_blocks p)).

(** Blocks and counters of a state after a history; [Q] holds of the nodes with reads
    to spare. *)
Record ring_ok (Q : Z -> Prop) (h : list bucket_event) (s : RingStressSim) : Prop := {
  ri_params : rs_params s = p;
  ri_pm : lenZ (rs_position_map s) = logical_blocks p;
  ri_holds : holds p (rs_position_map s) (rs_slots s) (rs_stash s) ids;
  ri_init : 0 <= rs_init_stash s <= logical_blocks p;
  ri_counters : lenZ (rs_read_counters s) = bucket_count p;
  ri_budget : budget D Q (rs_read_counters s);
  ri_max : 0 <= rs_max_read_counter s <= D;
  ri_tracked : tracked h (rs_read_counters s) (rs_max_read_counter s)
}.

Lemma ring_ok_budget (Q Q' : Z -> Prop) h s : ring_ok Q h s -> budget D Q' (rs_read_counters s) -> ring_ok Q' h s.
Proof. intros [] Hb. by split. Qed.

Lemma ring_ok_weaken (Q Q' : Z -> Prop) h s : ring_ok Q h s -> (forall i, Q' i -> Q i) -> ring_ok Q' h s.
Proof. intros Hs HQ. apply (ring_ok_budget _ _ _ _ Hs). by apply (budget_weaken _ Q); [apply Hs|]. Qed.

Lemma ring_sim_new_ok seed : exists s, ring_sim_new (R := R) p seed = Ok s /\ ring_ok (fun _ => True) [] s.
Proof.
  unfold ring_sim_new. rewrite (proj2 (checked_mul64_Some _ _ _)) by done. cbn [ok_or obind].
  destruct (sim_init_ok p Hp Hfit HN (from_seed seed)) as (rng' & pm & slots & stash & -> & Hpm & Hh). cbn [obind]. eexists. split; [reflexivity|].
  pose proof (ok_blocks p Hp). pose proof (leaves_pos p Hp). pose proof (lenZ_nonneg stash). split; cbn; try done.
  - pose proof (stash_bound p pm slots stash (logical_blocks p) ltac:(lia) Hh). lia.
  - unfold lenZ. rewrite length_replicate. unfold bucket_count. lia.
  - intros i n [-> _]%lookup_replicate. lia.
  - lia.
  - apply tracked_new.
Qed.

Lemma ring_path_node lf dn : dn ∈ ring_path p lf -> 0 <= dn.1 < height p /\ dn.2 = node_index p dn.1 lf.
Proof. intros (d & -> & Hd%elem_of_seqZ)%list_elem_of_fmap. cbn. lia. Qed.

Lemma ring_path_range lf dn : leaf_ok p lf -> dn ∈ ring_path p lf -> 0 <= dn.1 < height p /\ 0 <= dn.2 < bucket_count p.
Proof. intros Hlf Hdn. apply ring_path_node in Hdn as [Hd ->]. split; [done|by apply node_index_range]. Qed.

Lemma ring_path_nodes lf : (ring_path p lf).*2 = path_nodes p lf.
Proof. unfold ring_path, path_nodes. rewrite <-list_fmap_compose. done. Qed.

(** Reading a path counts each of its buckets once. *)
Lemma count_reads_ok lf h counters mx : leaf_ok p lf -> tracked h counters mx -> lenZ counters = bucket_count p -> budget D (fun _ => True) counters -> 0 <= mx <= D ->
  exists counters' mx', ofold count_read (counters, mx) (ring_path p lf) = Ok (counters', mx') /\ lenZ counters' = bucket_count p /\
    budget D (fun i => i ∉ (ring_path p lf).*2) counters' /\ 0 <= mx' <= D /\ tracked (h ++ (BucketRead <$> (ring_path p lf).*2)) counters' mx'.
Proof.
  intros Hlf Htr Hlen Hb Hm. pose proof (path_nodes_NoDup p Hp lf Hlf) as Hnd. rewrite <-ring_path_nodes in Hnd.
  destruct (ofold_prefix_inv (fun before (st : list Z * Z) => lenZ st.1 = bucket_count p /\ budget D (fun i => i ∉ before.*2) st.1 /\ 0 <= st.2 <= D /\
      tracked (h ++ (BucketRead <$> before.*2)) st.1 st.2)
    count_read (ring_path p lf) (counters, mx)) as ([counters' mx'] & E & ? & ? & ? & ?);
    [|split; [done|split; [by eapply budget_weaken|split; [done|by rewrite app_nil_r]]]|by eauto 10].
  intros before dn after [cs m] El (Hl & Hbd & Hmx & Ht). cbn [fst snd] in *. rewrite El, fmap_app, fmap_cons in Hnd.
  assert (dn ∈ ring_path p lf) as Hdn by (rewrite El; set_solver). destruct (ring_path_range lf dn Hlf Hdn) as [_ Hn].
  apply NoDup_app in Hnd as (_ & Hnd & _). assert (dn.2 ∉ before.*2) as Hnb by (intros Hin; apply (Hnd _ Hin); set_solver).
  destruct (lookup_lt_is_Some_2 cs (Z.to_nat dn.2)) as [n Hcn]; [unfold lenZ in Hl; lia|]. unfold count_read.
  rewrite (indexZ_lookup cs dn.2 n) by (done || lia). cbn [obind]. rewrite updateZ_in by lia. cbn [obind].
  destruct (Hbd _ _ Hcn) as [Hn0 Hnd']. rewrite Z2Nat.id in Hnd' by lia. specialize (Hnd' Hnb).
  rewrite Z.min_r by lia. eexists. split; [reflexivity|]. cbn [fst snd]. split; [unfold lenZ in *; by rewrite length_insert|]. split; [|split; [lia|]].
  2: { rewrite fmap_app, fmap_app, app_assoc. apply tracked_read; (done || lia). }
  intros i k [(<- & <- & _)|[Hne Hi]]%list_lookup_insert_Some.
  - split; [lia|]. rewrite Z2Nat.id by lia. intros Hin. destruct Hin. rewrite fmap_app. set_solver.
  - destruct (Hbd i k Hi) as [Hk Hlt]. split; [done|]. intros Hin. apply Hlt. rewrite fmap_app in Hin. set_solver.
Qed.

Lemma ring_access_ok h s id (rng : R) : ring_ok (fun _ => True) h s -> 0 <= id < logical_blocks p ->
  exists lf s' rng', indexZ (rs_position_map s) id = Ok lf /\ ring_access s id rng = Ok (ring_path p lf, s', rng') /\ leaf_ok p lf /\
    ring_ok (fun i => i ∉ (ring_path p lf).*2) (h ++ (BucketRead <$> (ring_path p lf).*2)) s'.
Proof.
  intros [Hps Hpm Hh Hin Hc Hb Hm Ht] Hid. unfold ring_access. rewrite Hps.
  destruct (lookup_lt_is_Some_2 (rs_position_map s) (Z.to_nat id)) as [lf Hlf]; [unfold lenZ in Hpm; lia|].
  rewrite (indexZ_lookup _ id lf) by (done || lia). cbn [obind].
  destruct (remove_block_ok p Hp Hfit _ _ _ _ id lf Hh Hid Hlf) as (b & slots' & stash' & ids' & -> & Hbid & Hh' & Hperm). cbn [obind].
  destruct (sim_random_leaf_ok p Hp rng) as (lf' & rng' & -> & Hlf'). cbn [sb_leaf sb_id]. rewrite updateZ_in by lia. cbn [obind].
  pose proof (Forall_lookup_1 _ _ _ _ (ho_leaves _ _ _ _ _ Hh) Hlf) as Hleaf.
  destruct (count_reads_ok lf h _ _ Hleaf Ht Hc Hb Hm) as (cs & mx & -> & Hcs & Hbs & Hmx & Hts). cbn [obind fst snd].
  exists lf. eexists _, rng'. split; [done|]. split; [reflexivity|]. split; [done|]. rewrite Hbid. split; cbn; try done.
  - unfold lenZ in *. by rewrite length_insert.
  - apply (holds_repush p _ _ _ _ _ ids'); (done || lia).
Qed.

(** A bucket goes to the stash and its counter to 0. *)
Lemma take_bucket_ok pm slots stash counters dn Q : holds p pm slots stash ids -> lenZ counters = bucket_count p -> budget D Q counters ->
  0 <= dn.2 < bucket_count p ->
  exists slots' stash' counters', take_bucket p pm ((slots, stash), counters) dn = Ok ((slots', stash'), counters') /\
    holds p pm slots' stash' ids /\ lenZ counters' = bucket_count p /\ budget D (fun i => i = dn.2 \/ Q i) counters' /\
    (forall h mx, tracked h counters mx -> tracked (h ++ [BucketRewrite dn.2]) counters' mx).
Proof.
  intros Hh Hc Hb Hdn. unfold take_bucket. cbn [fst snd].
  destruct (read_bucket_ok p Hp Hfit pm slots stash ids dn.2 Hh Hdn) as (slots' & stash' & -> & Hh'). cbn [obind].
  rewrite updateZ_in by lia. cbn [obind]. eexists _, _, _. split; [reflexivity|]. split; [done|].
  split; [unfold lenZ in *; by rewrite length_insert|].
  split; [apply (budget_reset D Q); [lia|lia|done|auto]|]. intros h mx Ht. apply tracked_rewrite; (done || lia).
Qed.

Lemma ring_evict_ok h s lf Q : ring_ok Q h s -> leaf_ok p lf ->
  exists s', ring_evict_path s lf = Ok s' /\ ring_ok Q (h ++ (BucketRewrite <$> (ring_path p lf).*2)) s'.
Proof.
  intros [Hps Hpm Hh Hin Hc Hb Hm Ht] Hlf. unfold ring_evict_path. rewrite Hps.
  destruct (ofold_prefix_inv (fun before (st : (list Z * list SimBlock) * list Z) => holds p (rs_position_map s) st.1.1 st.1.2 ids /\
      lenZ st.2 = bucket_count p /\ budget D Q st.2 /\ tracked (h ++ (BucketRewrite <$> before.*2)) st.2 (rs_max_read_counter s))
    (take_bucket p (rs_position_map s)) (ring_path p lf) ((rs_slots s, rs_stash s), rs_read_counters s)) as ([[slots1 stash1] cs] & -> & Hh1 & Hcs & Hbs & Hts);
    [|by split_and!; try done; rewrite app_nil_r|].
  { intros before dn after [[sl st] cs] El (Hh1 & Hc1 & Hb1 & Ht1). assert (dn ∈ ring_path p lf) as Hdn by (rewrite El; set_solver). destruct (ring_path_range lf dn Hlf Hdn) as [_ Hn].
    destruct (take_bucket_ok _ _ _ _ dn Q Hh1 Hc1 Hb1 Hn) as (sl' & st' & cs' & E & ? & ? & ? & Hre). eexists. split; [exact E|]. cbn [fst snd]. split; [done|]. split; [done|].
    split; [eapply budget_weaken; [done|]; cbn; auto|]. rewrite fmap_app, fmap_app, app_assoc. by apply Hre. }
  cbn [obind fst snd] in *.
  destruct (ofold_inv (fun st => holds p (rs_position_map s) st.1 st.2 ids) (write_bucket_from_stash p) (reverse (ring_path p lf)))
    with (b := (slots1, stash1)) as ([slots2 stash2] & -> & Hh2); [|done|].
  { intros [sl st] [d n] Hdn Hh3. rewrite elem_of_reverse in Hdn. destruct (ring_path_range lf _ Hlf Hdn) as [Hd Hn].
    destruct (write_bucket_ok p Hp Hfit _ sl st ids d n Hh3 Hd Hn) as (sl' & st' & E & ?). by exists (sl', st'). }
  cbn [obind]. eexists. split; [reflexivity|]. by split.
Qed.

Lemma reshuffle_ok h s dn Q : ring_ok Q h s -> 0 <= dn.1 < height p -> 0 <= dn.2 < bucket_count p ->
  exists s', reshuffle_bucket s dn = Ok s' /\ ring_ok (fun i => i = dn.2 \/ Q i) (h ++ [BucketRewrite dn.2]) s'.
Proof.
  intros [Hps Hpm Hh Hin Hc Hb Hm Ht] Hd Hn. unfold reshuffle_bucket. rewrite Hps.
  destruct (take_bucket_ok _ _ _ _ dn Q Hh Hc Hb Hn) as (slots' & stash' & cs' & -> & Hh1 & Hcs & Hbs & Hre). specialize (Hre _ _ Ht). cbn [obind fst snd].
  destruct dn as [d n]. destruct (write_bucket_ok p Hp Hfit _ slots' stash' ids d n Hh1 Hd Hn) as (sl' & st' & -> & Hh2). cbn [obind].
  eexists. split; [reflexivity|]. by split.
Qed.

Lemma ring_eviction_leaf_ok i : leaf_ok p (ring_eviction_leaf_at p i).
Proof.
  pose proof (ok_bits p Hp) as Hb. unfold leaf_ok, ring_eviction_leaf_at. rewrite (ok_leaves p Hp), (wrap_small 32 (leaf_bits p)) by lia.
  apply (reverse_bits_mod_range i (leaf_bits p)). lia.
Qed.

End Ring.

(** ** Runs *)

Section Run.
Context {R : Type} `{Rng R} (c : RingStressConfig).
Local Abbreviation p := (rc_params c).
Local Abbreviation N := (logical_blocks (rc_params c)).
Local Abbreviation D := (rc_dummy_slots c).
Local Abbreviation total := (rc_warmup_ops c + rc_ops c).
Context (Hp : params_ok p) (Hfit : bucket_count p * bucket_size p <= u64_max) (HN : N <= u32_max) (HD : 0 < D <= u32_max).
Context (Hwarm : 0 <= rc_warmup_ops c) (Hops : 0 <= rc_ops c) (Hcount : total * height p <= u64_max) (Hperiod : 0 < rc_eviction_period c).

(** The counters after [n] accesses; an access causes at most one reshuffle per level. *)
Record ring_counts (r : RingRun R) (n : Z) : Prop := {
  nc_completed : rn_completed_evictions r = n / rc_eviction_period c;
  nc_measured : rn_measured_evictions r = n / rc_eviction_period c - Z.min n (rc_warmup_ops c) / rc_eviction_period c;
  nc_early : 0 <= rn_measured_uncached_early r <= rn_measured_early r /\ rn_measured_early r <= rn_early r <= n * height p
}.

Record ring_run_ok (n : Z) (h : list bucket_event) (r : RingRun R) : Prop := {
  nr_sim : ring_ok p D (fun _ => True) h (rn_sim r);
  nr_counts : ring_counts r n;
  nr_samples : Forall (fun x => 0 <= x <= N) (rn_samples r);
  nr_length : lenZ (rn_samples r) = Z.max 0 (n - rc_warmup_ops c);
  nr_overflow : rn_overflow_samples r = lenZ (filter (fun x => stash_capacity p < x) (rn_samples r));
  nr_reads : num_reads h = n * height p;
  nr_rewrites : num_rewrites h = rn_completed_evictions r * height p + rn_early r
}.

(** The statistics of two runs are the same. *)
Definition same_samples (r r' : RingRun R) : Prop := rn_samples r' = rn_samples r /\ rn_overflow_samples r' = rn_overflow_samples r.

Lemma reads_left (P : list Z) (before : list (Z * Z)) dn i : i ∉ P \/ i ∈ (before ++ [dn]).*2 -> i = dn.2 \/ (i ∉ P \/ i ∈ before.*2).
Proof. rewrite fmap_app, elem_of_app. cbn [fmap list_fmap]. rewrite list_elem_of_singleton. tauto. Qed.

Lemma ring_path_length lf : lenZ (ring_path p lf) = height p.
Proof. pose proof (path_nodes_length p Hp lf) as Hpl. rewrite <-ring_path_nodes in Hpl. unfold lenZ in *. by rewrite <-Hpl, length_fmap. Qed.

Lemma early_reshuffles_ok measured lf n h r : leaf_ok p lf -> 0 <= n < total -> ring_ok p D (fun i => i ∉ (ring_path p lf).*2) h (rn_sim r) ->
  0 <= rn_measured_uncached_early r <= rn_measured_early r -> rn_measured_early r <= rn_early r <= n * height p ->
  exists r' evs, ofold (early_reshuffle_log c measured) (r, []) (reverse (ring_path p lf)) = Ok (r', evs) /\
    ring_ok p D (fun _ => True) (h ++ evs) (rn_sim r') /\ (Forall (fun e => is_read e = false) evs /\ lenZ evs = rn_early r' - rn_early r) /\
    rn_completed_evictions r' = rn_completed_evictions r /\ rn_measured_evictions r' = rn_measured_evictions r /\ same_samples r r' /\
    0 <= rn_measured_uncached_early r' <= rn_measured_early r' /\ rn_measured_early r' <= rn_early r' <= (n + 1) * height p.
Proof.
  intros Hlf Hn Hs Hu He. set (path := ring_path p lf) in *.
  assert (lenZ (reverse path) = height p) as Hlen by (unfold lenZ; rewrite length_reverse; apply ring_path_length).
  destruct (ofold_prefix_inv (fun before '(r', evs) => ring_ok p D (fun i => i ∉ path.*2 \/ i ∈ before.*2) (h ++ evs) (rn_sim r') /\
      (Forall (fun e => is_read e = false) evs /\ lenZ evs = rn_early r' - rn_early r) /\
      rn_completed_evictions r' = rn_completed_evictions r /\ rn_measured_evictions r' = rn_measured_evictions r /\ same_samples r r' /\
      0 <= rn_measured_uncached_early r' <= rn_measured_early r' /\ rn_measured_early r' <= rn_early r' <= rn_early r + lenZ before)
    (early_reshuffle_log c measured) (reverse path) (r, [])) as ([r' evs] & E & Hs' & Hev & Hc & Hm & Hsame & Hu' & He').
  - intros before dn after [r1 evs] El (Hs1 & [Hev1 Hlev1] & Hc1 & Hm1 & Hsame1 & Hu1 & He1).
    assert (dn ∈ path) as Hdn by (apply elem_of_reverse; rewrite El; set_solver).
    destruct (ring_path_range p Hp lf dn Hlf Hdn) as [Hd Hnode]. rewrite El, lenZ_app, lenZ_cons in Hlen. pose proof (lenZ_nonneg before). pose proof (lenZ_nonneg after).
    destruct (lookup_lt_is_Some_2 (rs_read_counters (rn_sim r1)) (Z.to_nat dn.2)) as [k Hk]; [pose proof (ri_counters _ _ _ _ _ Hs1); unfold lenZ in *; lia|].
    unfold early_reshuffle_log, early_reshuffle. cbn [fst snd]. rewrite (indexZ_lookup _ dn.2 k), (wrap_small 32 D) by (done || lia || words). cbn [obind]. destruct (k <? D) eqn:Ek; zbool.
    + eexists. cbn [obind]. rewrite Z.eqb_refl. split; [reflexivity|]. split_and!; try (done || lia); [|rewrite lenZ_app; change (lenZ [dn]) with 1; lia].
      apply (ring_ok_weaken p D (fun i => i = dn.2 \/ (i ∉ path.*2 \/ i ∈ before.*2))); [|apply reads_left].
      apply (ring_ok_budget p D _ _ _ _ Hs1), (budget_below _ _ _ dn.2 k); [lia|done|apply Hs1|done].
    + destruct (reshuffle_ok p Hp Hfit D HD _ (rn_sim r1) dn _ Hs1 Hd Hnode) as (s' & -> & Hs2). cbn [obind]. eexists. split; [reflexivity|].
      cbn [rn_sim rn_completed_evictions rn_measured_evictions rn_early rn_measured_early rn_measured_uncached_early].
      rewrite lenZ_app. change (lenZ [dn]) with 1. assert (rn_early r1 + 1 <= u64_max) by nia.
      rewrite !add64_small by lia. rewrite (proj2 (Z.eqb_neq (rn_early r1 + 1) (rn_early r1))) by lia. split_and!; try done.
      * rewrite app_assoc. apply (ring_ok_weaken p D _ _ _ _ Hs2). apply reads_left.
      * by apply Forall_app, conj; [|apply Forall_singleton].
      * rewrite lenZ_app. change (lenZ [BucketRewrite dn.2]) with 1. lia.
      * destruct measured, (_ <=? dn.1); cbn [andb]; lia.
      * destruct measured, (_ <=? dn.1); cbn [andb]; lia.
      * destruct measured; lia.
      * lia.
  - change (lenZ (@nil (Z * Z))) with 0. rewrite app_nil_r. change (lenZ (@nil bucket_event)) with 0. split_and!; try (done || lia).
    apply (ring_ok_weaken p D _ _ _ _ Hs). intros i [?|Hi]; [done|]. by apply not_elem_of_nil in Hi.
  - exists r', evs. split; [done|]. rewrite Hlen in He'. split_and!; try (done || lia); [|apply Hev..]. apply (ring_ok_weaken p D _ _ _ _ Hs').
    intros i _. rewrite fmap_reverse, elem_of_reverse. destruct (decide (i ∈ path.*2)); auto.
Qed.

Lemma ring_evict_step_ok measured n h r Q : ring_ok p D Q h (rn_sim r) -> 0 <= n < total -> measured = (rc_warmup_ops c <=? n) -> ring_counts r n ->
  let evicted := if (n + 1) mod rc_eviction_period c =? 0 then ring_path p (ring_eviction_leaf_at p (rn_completed_evictions r)) else [] in
  exists r', (if (n + 1) mod rc_eviction_period c =? 0 then ring_evict_step c measured r else Ok r) = Ok r' /\
    ring_ok p D Q (h ++ (BucketRewrite <$> evicted.*2)) (rn_sim r') /\
    lenZ evicted = (rn_completed_evictions r' - rn_completed_evictions r) * height p /\
    rn_completed_evictions r' = (n + 1) / rc_eviction_period c /\
    rn_measured_evictions r' = (n + 1) / rc_eviction_period c - Z.min (n + 1) (rc_warmup_ops c) / rc_eviction_period c /\
    same_samples r r' /\ rn_early r' = rn_early r /\ rn_measured_early r' = rn_measured_early r /\ rn_measured_uncached_early r' = rn_measured_uncached_early r.
Proof.
  intros Hs Hn Hmeas [Hc Hm _] evicted. pose proof (div_succ n (rc_eviction_period c) ltac:(lia) Hperiod) as Hdiv. pose proof (ok_bits p Hp).
  assert (n + 1 <= u64_max) as Hn1 by (unfold height in Hcount; nia).
  pose proof (Z.div_le_upper_bound (n + 1) (rc_eviction_period c) (n + 1) Hperiod ltac:(nia)).
  pose proof (Z.div_pos n (rc_eviction_period c) ltac:(lia) Hperiod). pose proof (Z.div_pos (Z.min n (rc_warmup_ops c)) (rc_eviction_period c) ltac:(lia) Hperiod).
  pose proof (Z.div_le_mono (Z.min n (rc_warmup_ops c)) n (rc_eviction_period c) Hperiod ltac:(lia)).
  assert (Z.min (n + 1) (rc_warmup_ops c) / rc_eviction_period c = if rc_warmup_ops c <=? n then Z.min n (rc_warmup_ops c) / rc_eviction_period c else (n + 1) / rc_eviction_period c) as ->.
  { destruct (_ <=? n) eqn:E; zbool; [by rewrite !Z.min_r by lia|by rewrite Z.min_l by lia]. }
  assert (rc_warmup_ops c <=? n = false -> Z.min n (rc_warmup_ops c) = n) as Hmin by (intros E; zbool; lia).
  subst evicted. destruct (_ mod _ =? 0) eqn:E.
  - unfold ring_evict_step. destruct (ring_evict_ok p Hp Hfit HN D HD h (rn_sim r) _ Q Hs (ring_eviction_leaf_ok p Hp (rn_completed_evictions r))) as (s' & -> & Hs').
    cbn [obind]. eexists. split; [reflexivity|]. cbn [rn_sim rn_completed_evictions rn_measured_evictions rn_early rn_measured_early rn_measured_uncached_early].
    rewrite Hc in Hs'. rewrite Hmeas, Hc, Hm, !add64_small by lia. split_and!; try (done || lia); [rewrite ring_path_length; lia|]. destruct (_ <=? n) eqn:E2; [lia|]. rewrite Hmin by done. lia.
  - exists r. split_and!; try (done || lia); [by rewrite app_nil_r|change (lenZ (@nil (Z * Z))) with 0; lia|]. rewrite Hm. destruct (_ <=? n) eqn:E2; [lia|]. rewrite Hmin by done. lia.
Qed.

Lemma early_log_erase measured st dn st' : early_reshuffle_log (R := R) c measured st dn = Ok st' -> early_reshuffle c measured st.1 dn = Ok st'.1.
Proof. unfold early_reshuffle_log. by intros (r & -> & [= <-])%obind_Ok. Qed.

Lemma ring_step_ok n h r : ring_run_ok n h r -> 0 <= n < total ->
  exists r' evs, ring_step c r n = Ok r' /\ step_events c r n = Ok evs /\ ring_run_ok (n + 1) (h ++ evs) r'.
Proof.
  intros [Hs Hcounts Hsam Hlen Hov Hnr Hnw] Hn. unfold ring_step, step_events. pose proof (ok_blocks p Hp) as HN0.
  destruct (next_id_ok p Hp HN (rc_pattern c) n (rn_rng r)) as (id & rng1 & -> & Hid); [lia|]. cbn [obind fst snd].
  destruct (ring_access_ok p Hp Hfit HN D HD h (rn_sim r) id rng1 Hs Hid) as (lf & s1 & rng2 & -> & -> & Hlf & Hs1). cbn [obind].
  set (r1 := mkRingRun s1 _ _ _ _ _ _ _ _). set (measured := rc_warmup_ops c <=? n).
  assert (ring_counts r1 n) as Hc1 by (destruct Hcounts; by split).
  destruct (ring_evict_step_ok measured n _ r1 _ Hs1 Hn eq_refl Hc1) as (r2 & -> & Hs2 & Hev2 & Hc2 & Hm2 & [A2 B2] & He2 & Hme2 & Hu2).
  change (rn_completed_evictions r1) with (rn_completed_evictions r) in *. set (evicted := if (n + 1) mod rc_eviction_period c =? 0 then ring_path p (ring_eviction_leaf_at p (rn_completed_evictions r)) else []) in *. cbn [obind].
  destruct (early_reshuffles_ok measured lf n _ r2 Hlf Hn Hs2) as (r3 & evs & E3 & Hs3 & [Hrw Hlev] & Hc3 & Hm3 & [A3 B3] & Hu3 & He3);
    [rewrite ?He2, ?Hme2, ?Hu2; apply Hc1..|].
  pose proof (ofold_erase _ _ _ (early_log_erase measured) _ _ E3) as E3'. cbn [fst] in E3'. rewrite E3, E3'. cbn [obind snd].
  eexists _, _. split; [reflexivity|]. split; [reflexivity|]. pose proof (lenZ_nonneg (rs_stash (rn_sim r3))) as Hst0.
  pose proof (stash_bound p _ _ _ N ltac:(lia) (ri_holds _ _ _ _ _ Hs3)) as Hst.
  assert (rn_samples r3 = rn_samples r) as Ea by (by rewrite A3, A2). assert (rn_overflow_samples r3 = rn_overflow_samples r) as Eb by (by rewrite B3, B2).
  rewrite !app_assoc.
  destruct (step_counts h (ring_path p lf).*2 evicted.*2 evs Hrw) as [Er Ew].
  unfold lenZ in Er, Ew. rewrite !length_fmap in Er, Ew. fold (lenZ (ring_path p lf)) (lenZ evicted) (lenZ evs) in Er, Ew.
  rewrite ring_path_length, Hnr in Er. rewrite Hnw, Hev2, Hlev, He2 in Ew. change (rn_early r1) with (rn_early r) in Ew.
  unfold measured. destruct (rc_warmup_ops c <=? n) eqn:E; zbool; split; cbn [rn_sim rn_samples rn_overflow_samples rn_completed_evictions rn_early];
    rewrite ?Ea, ?Eb; try done; try lia.
  - split; cbn; [lia..|]; by split.
  - apply Forall_app. split; [done|]. apply Forall_singleton. lia.
  - rewrite lenZ_app, lenZ_cons. change (lenZ (@nil Z)) with 0. lia.
  - rewrite filter_app, lenZ_app, filter_cons, filter_nil, Hov.
    destruct (_ <? _) eqn:E2, (decide (_ < _)); zbool; rewrite ?lenZ_cons; change (lenZ (@nil Z)) with 0; lia.
  - split; [lia..|]; by split.
Qed.

Lemma ring_history_ok : exists (r : RingRun R) h, ring_steps c = Ok r /\ ring_history c = Ok (r, h) /\ ring_run_ok total h r.
Proof.
  unfold ring_steps, ring_history. destruct (ring_sim_new_ok p Hp Hfit HN D HD (R := R) (rc_seed c)) as (s & -> & Hs). cbn [obind].
  pose proof (ok_bits p Hp). rewrite add64_small by (unfold height in Hcount; nia).
  destruct (ofold_prefix_inv (fun before '(r, h) => ring_run_ok (lenZ before) h r) (ring_step_log c) (seqZ 0 total)
    (mkRingRun s (from_seed (rc_seed c)) [] 0 0 0 0 0 0, [])) as ([r h] & E & Hr).
  - intros before n after [r h] El Hr. apply seqZ_split in El as [En Hn]. rewrite Z.add_0_l in En, Hn. rewrite <-En in Hr.
    destruct (ring_step_ok n h r Hr Hn) as (r' & evs & E1 & E2 & Hr'). exists (r', h ++ evs). unfold ring_step_log. cbn [fst snd].
    rewrite E1. cbn [obind]. rewrite E2. split; [done|]. rewrite lenZ_app, lenZ_cons, <-En. exact Hr'.
  - change (lenZ (@nil Z)) with 0. split; cbn [rn_sim rn_samples rn_overflow_samples rn_completed_evictions rn_early]; try done.
    + split; cbn [rn_completed_evictions rn_measured_evictions rn_early rn_measured_early rn_measured_uncached_early]; rewrite ?Z.min_l, ?Z.div_0_l by lia; lia.
    + change (lenZ (@nil Z)) with 0. lia.
  - exists r, h. pose proof (ofold_erase (ring_step c) (ring_step_log c) (seqZ 0 total)) as Her.
    assert (forall st n st', ring_step_log c st n = Ok st' -> ring_step c st.1 n = Ok st'.1) as Hlog.
    { unfold ring_step_log. by intros st n st' (r' & -> & (evs & _ & [= <-])%obind_Ok)%obind_Ok. }
    split; [exact (Her Hlog _ _ E)|]. split; [done|].
    assert (lenZ (seqZ 0 total) = total) as El by (unfold lenZ; rewrite length_seqZ; lia). by rewrite El in Hr.
Qed.

End Run.

(** ** Estimates *)

Lemma checked_mul64_le a b : a * b <= u64_max -> checked_mul64 a b = Some (a * b).
Proof. intros. by apply checked_mul64_Some. Qed.

(** A tree over more pages has room for as many trusted levels. *)
Lemma ring_levels_mono n n' t lv : 1 < n <= n' -> n' <= 2 ^ 62 -> 0 <= t -> ring_merkle_levels n t = Ok lv ->
  exists lv', ring_merkle_levels n' t = Ok lv' /\ lv <= lv' /\ 1 <= t <= lv /\ lv' < 64.
Proof.
  intros Hn Hn' Ht. unfold ring_merkle_levels. destruct (next_power_of_two_total n ltac:(lia)) as (k & Hk & E & Hnk).
  destruct (next_power_of_two_total n' Hn') as (k' & Hk' & E' & Hnk'). apply checked_next_power_of_two_spec in E as Hs.
  destruct Hs as (_ & _ & _ & Htight & _). rewrite E, E'. cbn [ok_or obind]. rewrite (proj2 (pow2_facts k ltac:(lia))), (proj2 (pow2_facts k' ltac:(lia))).
  assert (k <= k') as Hkk.
  { apply Z.lt_succ_r, (Z.pow_lt_mono_r_iff 2); [lia..|]. rewrite Z.pow_succ_r by lia. specialize (Htight ltac:(lia)). lia. }
  destruct (_ || _) eqn:Et; [done|]. apply orb_false_iff in Et as [Et0 Et1]. zbool. intros [= <-].
  rewrite (proj2 (orb_false_iff _ _)) by (split; [by apply Z.eqb_neq|apply Z.ltb_ge; lia]). exists (k' + 1). split; [done|]. lia.
Qed.

Lemma trusted_hashes_ok n t lv : ring_merkle_levels n t = Ok lv -> 1 <= t < 64 -> trusted_merkle_hashes n t = Ok (2 ^ t - 1).
Proof. intros E Ht. unfold trusted_merkle_hashes. rewrite E, (wrap_small 32 t), (proj2 (Z.ltb_lt _ _)) by lia. done. Qed.

(** The trusted hashes of the two Merkle trees, in bytes *)
Definition trusted_bytes (c : RingStressConfig) : Z := if rc_auth_store c then 64 * (2 ^ rc_auth_trusted_levels c - 1) else 0.

(** What a controller persists: position map, stash, read counters, permutations. *)
Definition state_bytes (c : RingStressConfig) : Z :=
  let p := rc_params c in
  4 * logical_blocks p + stash_capacity p * serialized_len (block_size p) + 4 * bucket_count p + 2 * (bucket_count p * (bucket_size p + rc_dummy_slots c)).

(** The sizes of a configuration are machine words. *)
Record ring_fits (c : RingStressConfig) (p := rc_params c) : Prop := {
  rf_slots : bucket_count p * (bucket_size p + rc_dummy_slots c) * 2 <= 2 ^ 62;
  rf_meta : circuit_meta_page_bytes (bucket_size p) + 2 * (bucket_size p + rc_dummy_slots c) + 4 <= u64_max;
  rf_payload : (bucket_size p + rc_dummy_slots c) * block_size p <= u64_max;
  rf_block : serialized_len (block_size p) <= u64_max;
  rf_state : state_bytes c + trusted_bytes c <= u64_max;
  rf_levels : 0 <= rc_auth_trusted_levels c
}.

Section Estimates.
Context (c : RingStressConfig).
Local Abbreviation p := (rc_params c).
Local Abbreviation slots := (bucket_size (rc_params c) + rc_dummy_slots c).
Local Abbreviation t := (rc_auth_trusted_levels c).
Context (Hp : params_ok p) (HD : 0 < rc_dummy_slots c <= u32_max) (Hsz : ring_fits c).
Context (Hauth : rc_auth_store c = true -> exists cost, merkle_hash_touch_cost (bucket_count p) (rc_auth_trusted_levels c) = Ok cost).

Lemma ring_buckets : 1 < bucket_count p /\ bucket_count p <= bucket_count p * slots /\ bucket_count p * slots <= 2 ^ 61.
Proof.
  pose proof (rf_slots _ Hsz) as Hs. pose proof (ok_bucket_size p Hp). pose proof (ok_bits p Hp) as Hb. pose proof (ok_leaves p Hp) as Hl.
  assert (2 ^ 1 <= leaves p) by (rewrite Hl; apply Z.pow_le_mono_r; lia). change (2 ^ 62) with (2 ^ 61 * 2) in Hs.
  assert (1 < bucket_count p) by (unfold bucket_count; lia). nia.
Qed.

(** With authentication, both trees have the trusted levels. *)
Lemma auth_levels : rc_auth_store c = true ->
  exists lv lv', ring_merkle_levels (bucket_count p) t = Ok lv /\ ring_merkle_levels (bucket_count p * slots) t = Ok lv' /\ 1 <= t < 64.
Proof.
  intros Ha. destruct (Hauth Ha) as [cost E]. unfold merkle_hash_touch_cost in E.
  destruct (ring_merkle_levels (bucket_count p) t) as [lv| | |] eqn:El; try done.
  pose proof ring_buckets as (H1 & H2 & H3). change (2 ^ 61) with 2305843009213693952 in H3.
  destruct (ring_levels_mono (bucket_count p) (bucket_count p * slots) t lv) as (lv' & El' & ? & ? & ?); [lia|change (2 ^ 62) with 4611686018427387904; lia|apply Hsz|done|].
  exists lv, lv'. split; [done|]. split; [done|]. lia.
Qed.

Lemma ring_meta_ok : ring_meta_page_bytes (bucket_size p) (rc_dummy_slots c) = Ok (circuit_meta_page_bytes (bucket_size p) + 2 * slots + 4).
Proof.
  pose proof (rf_meta _ Hsz) as Hm. pose proof (ok_bucket_size p Hp) as Hb. unfold ring_meta_page_bytes, circuit_meta_page_bytes, PERMUTATION_INDEX_BYTES, READ_COUNTER_BYTES in *.
  assert (0 <= bucket_size p * META_SERIALIZED_LEN) by (unfold META_SERIALIZED_LEN; lia).
  unfold checked_add64, checked_mul64. rewrite wrap_small by words. repeat (rewrite (proj2 (Z.leb_le _ _)) by lia; cbn [ok_or obind mbind option_bind]). f_equal. lia.
Qed.

Lemma estimate_io_ok e u lvls : exists io, estimate_ring_io c slots e u lvls = Ok io /\
  io_meta_page_plaintext_bytes io = circuit_meta_page_bytes (bucket_size p) + 2 * slots + 4 /\
  io_current_payload_page_plaintext_bytes io = slots * block_size p /\ io_slot_payload_plaintext_bytes io = block_size p.
Proof.
  pose proof auth_levels as Hlv. pose proof ring_buckets as (_ & _ & Hb). change (2 ^ 61) with 2305843009213693952 in Hb. unfold estimate_ring_io. rewrite ring_meta_ok. cbn [obind]. rewrite (proj2 (checked_mul64_Some _ _ _)) by (split; [done|apply Hsz]). cbn [ok_or obind].
  destruct (rc_auth_store c) eqn:Ea; [|eexists; split; [reflexivity|done]].
  destruct (Hlv eq_refl) as (lv & lv' & El & El' & _).
  rewrite (proj2 (checked_mul64_Some (bucket_count p) slots _)) by (split; [done|words]). cbn [ok_or obind].
  unfold merkle_hash_touch_cost. rewrite El, El'. cbn [obind]. eexists. split; [reflexivity|done].
Qed.

Lemma estimate_crash_ok : estimate_crash_state c (bucket_count p) slots =
  Ok (mkRingCrash (4 * logical_blocks p) (stash_capacity p * serialized_len (block_size p)) (4 * bucket_count p) (2 * (bucket_count p * slots))
        (trusted_bytes c) (trusted_bytes c) (state_bytes c + trusted_bytes c) (state_bytes c + trusted_bytes c)).
Proof.
  pose proof ring_buckets as (Hb1 & Hb2 & Hb3). pose proof (ok_blocks p Hp) as H0. pose proof (ok_capacity p Hp) as Hcap. pose proof (ok_block_size p Hp) as Hbl.
  pose proof (rf_state _ Hsz) as Hst. pose proof (rf_block _ Hsz) as Hsl. pose proof auth_levels as Hlv.
  assert (0 <= stash_capacity p * serialized_len (block_size p)) as Hsb by (unfold serialized_len; nia).
  assert (0 <= trusted_bytes c /\ (rc_auth_store c = true -> trusted_bytes c = 64 * (2 ^ rc_auth_trusted_levels c - 1) /\ 0 <= 2 ^ rc_auth_trusted_levels c - 1)) as [Htb Hta].
  { pose proof (Z.pow_pos_nonneg 2 (rc_auth_trusted_levels c) ltac:(lia) (rf_levels _ Hsz)). unfold trusted_bytes. destruct (rc_auth_store c); split; lia. }
  unfold state_bytes in Hst |- *. unfold estimate_crash_state, checked_u64_mul, READ_COUNTER_BYTES, PERMUTATION_INDEX_BYTES.
  rewrite (wrap_small 64 (serialized_len _)) by (unfold serialized_len in *; words).
  rewrite !checked_mul64_le by lia. cbn [ok_or obind]. rewrite !checked_mul64_le by lia. cbn [ok_or obind].
  assert ((if rc_auth_store c then let? hashes := trusted_merkle_hashes (bucket_count p) t in ok_or (checked_mul64 hashes (32 * 2)) (InvalidParams "{label} byte count overflow") else Ok 0) = Ok (trusted_bytes c)) as ->.
  { destruct (rc_auth_store c) eqn:Ea; [|unfold trusted_bytes; by rewrite Ea]. destruct (Hlv eq_refl) as (lv & lv' & El & El' & Ht). destruct (Hta eq_refl) as [Hte Hpos].
    rewrite (trusted_hashes_ok _ _ lv) by done. cbn [obind]. rewrite checked_mul64_le by lia. cbn [ok_or]. f_equal. lia. }
  cbn [obind].
  assert ((if rc_auth_store c then let? mh := trusted_merkle_hashes (bucket_count p) t in
      let? sh := trusted_merkle_hashes (bucket_count p * slots) t in Ok (mul64 (add64 mh sh) 32) else Ok 0) = Ok (trusted_bytes c)) as ->.
  { destruct (rc_auth_store c) eqn:Ea; [|unfold trusted_bytes; by rewrite Ea]. destruct (Hlv eq_refl) as (lv & lv' & El & El' & Ht). destruct (Hta eq_refl) as [Hte Hpos].
    rewrite (trusted_hashes_ok _ _ lv) by done. cbn [obind]. rewrite (trusted_hashes_ok _ _ lv') by done. cbn [obind].
    rewrite add64_small, mul64_small by lia. f_equal. lia. }
  cbn [obind]. unfold checked_add64. repeat (rewrite (proj2 (Z.leb_le _ _)) by lia; cbn [ok_or obind mbind option_bind]). do 2 f_equal; lia.
Qed.

End Estimates.

(** ** The simulation *)

(** The checks of [stress_ring], as facts. *)
Lemma ring_validate_ok c : ring_validate_config c = Ok tt -> let p := rc_params c in
  logical_blocks p <= u32_max /\ bucket_count p * bucket_size p <= u64_max /\ rc_dummy_slots c <> 0 /\ rc_dummy_slots c <= u32_max /\ rc_eviction_period c <> 0 /\
  (rc_auth_store c = true -> exists cost, merkle_hash_touch_cost (bucket_count p) (rc_auth_trusted_levels c) = Ok cost).
Proof.
  unfold ring_validate_config. destruct (logical_blocks (rc_params c) <=? u32_max) eqn:E1; [|done]. cbn [guardo obind].
  destruct (rc_dummy_slots c =? 0) eqn:E2; [done|]. cbn [negb guardo obind]. destruct (rc_dummy_slots c <=? u32_max) eqn:E3; [|done]. cbn [guardo obind].
  destruct (rc_eviction_period c =? 0) eqn:E4; [done|]. cbn [negb guardo obind]. destruct (32 <=? _); [|done]. cbn [guardo obind].
  destruct (checked_mul64 _ _) as [n|] eqn:E5; [|done]. apply checked_mul64_Some in E5 as [-> Hn]. cbn [ok_or obind].
  destruct (_ <=? bucket_count _ * _) eqn:E6; [|done]. cbn [guardo obind]. intros Ha. zbool. split_and!; try lia.
  intros Hs. rewrite Hs in Ha. destruct (merkle_hash_touch_cost _ _) as [cost| | |]; try done. by exists cost.
Qed.

(** A run within the machine's counters. *)
Record ring_run_config (c : RingStressConfig) : Prop := {
  rg_params : params_ok (rc_params c);
  rg_valid : ring_validate_config c = Ok tt;
  rg_words : 0 <= rc_dummy_slots c /\ 0 <= rc_eviction_period c /\ 0 <= rc_warmup_ops c /\ 0 <= rc_ops c;
  rg_counts : (rc_warmup_ops c + rc_ops c) * height (rc_params c) <= u64_max
}.

(** C40: A Ring ORAM run of a valid configuration finishes, and between two rewrites
    no bucket is read more often than it has dummy slots: this holds of the history of
    the run, in which every access reads the buckets of the path of its block's leaf,
    and every eviction and early reshuffle rewrites buckets, at every moment and for
    every bucket.  The read counters are the reads since the last rewrite, all left
    below [dummy_slots] after the last access, and the reported largest counter is the
    largest number of reads any bucket has seen between rewrites.  There was one
    eviction per [eviction_period] accesses, and every rewrite belongs to an eviction
    or is counted as an early reshuffle, at most one per access and level.  Every
    logical block is in exactly one place, a tree block on the path of its leaf, and
    every stash above the capacity was counted. *)
Theorem ring_read_budget_kept {R : Type} `{Rng R} (c : RingStressConfig) (p := rc_params c) : ring_run_config c ->
  exists (r : RingRun R) h, ring_steps c = Ok r /\ ring_history c = Ok (r, h) /\
    (forall before node, before `prefix_of` h -> reads_since node before <= rc_dummy_slots c) /\
    (forall node, 0 <= node < bucket_count p ->
       rs_read_counters (rn_sim r) !! Z.to_nat node = Some (reads_since node h) /\ 0 <= reads_since node h < rc_dummy_slots c) /\
    ((forall before node, before `prefix_of` h -> reads_since node before <= rs_max_read_counter (rn_sim r)) /\
     exists before node, before `prefix_of` h /\ reads_since node before = rs_max_read_counter (rn_sim r)) /\
    (num_reads h = (rc_warmup_ops c + rc_ops c) * height p /\
     num_rewrites h = rn_completed_evictions r * height p + rn_early r /\
     rn_completed_evictions r = (rc_warmup_ops c + rc_ops c) / rc_eviction_period c) /\
    rn_measured_evictions r = rn_completed_evictions r - rc_warmup_ops c / rc_eviction_period c /\
    (0 <= rn_measured_uncached_early r <= rn_measured_early r /\ rn_measured_early r <= rn_early r <= (rc_warmup_ops c + rc_ops c) * height p) /\
    holds p (rs_position_map (rn_sim r)) (rs_slots (rn_sim r)) (rs_stash (rn_sim r)) (seqZ 0 (logical_blocks p)) /\
    lenZ (rn_samples r) = rc_ops c /\
    rn_overflow_samples r = lenZ (filter (fun x => stash_capacity p < x) (rn_samples r)).
Proof.
  intros [Hp Hv (HD0 & HP0 & Hw & Ho) Hcount]. destruct (ring_validate_ok c Hv) as (HN & Hfit & HD & HD2 & HP & _).
  destruct (ring_history_ok (R := R) c Hp Hfit HN ltac:(lia) Hw Ho Hcount ltac:(lia)) as (r & h & E & Eh & [Hs [Hc Hm He] Hsam Hlen Hov Hnr Hnw]).
  destruct Hs as [_ _ Hh _ Hcs Hb Hmx [Htc Hta Htr]]. exists r, h. split; [done|]. split; [done|].
  split; [intros before node Hpre; specialize (Hta before node Hpre); lia|]. split.
  { intros node Hnode. destruct (lookup_lt_is_Some_2 (rs_read_counters (rn_sim r)) (Z.to_nat node)) as [n Hn]; [unfold lenZ in Hcs; unfold p in Hnode; lia|].
    pose proof (Htc _ _ Hn) as En. rewrite Z2Nat.id in En by lia. destruct (Hb _ _ Hn) as [Hn0 Hlt]. specialize (Hlt I).
    rewrite <-En. split; [exact Hn|lia]. }
  split; [by split|]. split; [done|]. split; [rewrite Hm, Hc; f_equal; f_equal; lia|]. split; [done|]. split; [done|]. split; [lia|done].
Qed.

(** A tree of seven buckets with one real and two dummy slots each, evicting every three accesses. *)
Definition demo_ring : RingStressConfig := mkRingConfig (mkParams 6 8 1 4 2) 2 20 5 Random (replicate 32 7) 3 1 true 1 4096.

Lemma demo_ring_config : ring_run_config demo_ring.
Proof. split; [split; (reflexivity || (vm_compute; done))|reflexivity|vm_compute; intuition discriminate|vm_compute; discriminate]. Qed.

Lemma ring_read_budget_kept_witness : exists (r : RingRun Z) h, ring_steps demo_ring = Ok r /\ ring_history demo_ring = Ok (r, h) /\
    (forall before node, before `prefix_of` h -> reads_since node before <= 2) /\
    num_reads h = 75 /\ num_rewrites h = 8 * 3 + rn_early r /\ rn_completed_evictions r = 8.
Proof.
  destruct (ring_read_budget_kept (R := Z) demo_ring demo_ring_config) as (r & h & E & Eh & Hb & _ & _ & (Hnr & Hnw & Hc) & _).
  exists r, h. split; [exact E|]. split; [exact Eh|]. split; [exact Hb|]. split; [exact Hnr|]. rewrite Hc in Hnw |- *. split; [exact Hnw|reflexivity].
Defined.

(** The run, evaluated: reads reach the dummy slots and buckets are reshuffled early. *)
Example demo_ring_run : match ring_steps (R := Z) demo_ring with
  | Ok r => (rs_max_read_counter (rn_sim r), rn_early r, rn_measured_early r, rn_measured_uncached_early r, rs_read_counters (rn_sim r)) =
            (2, 24, 20, 14, [1; 0; 0; 1; 0; 1; 0])
  | _ => False
  end.
Proof. vm_compute. reflexivity. Qed.

Example demo_ring_history : match ring_history (R := Z) demo_ring with
  | Ok (_, h) => (take 6 h, reads_since 0 (take 4 h), num_rewrites h) =
      ([BucketRead 0; BucketRead 2; BucketRead 5; BucketRead 0; BucketRead 2; BucketRead 5], 2, 48)
  | _ => False
  end.
Proof. vm_compute. reflexivity. Qed.

(** The report of a Ring ORAM run whose sizes are machine words is returned (the
    estimates fail on no such configuration), and it accounts for the state a
    controller has to persist: position map, stash, read counters and permutations,
    and, with authentication, the trusted levels of the two Merkle trees, the same in
    the paged and in the slot-addressable layout.  The page sizes hold the metadata and
    the real and dummy slots, and the statistics are those of the run's samples. *)
Theorem ring_report_accounts {R : Type} `{Rng R} (c : RingStressConfig) (p := rc_params c) (slots := bucket_size p + rc_dummy_slots c) :
  ring_run_config c -> ring_fits c -> rc_ops c * 1000 <= u64_max ->
  exists (r : RingRun R) rep, ring_steps c = Ok r /\ stress_ring (R := R) c = Ok rep /\
    rr_crash_state rep = mkRingCrash (4 * logical_blocks p) (stash_capacity p * serialized_len (block_size p)) (4 * bucket_count p) (2 * (bucket_count p * slots))
        (trusted_bytes c) (trusted_bytes c) (state_bytes c + trusted_bytes c) (state_bytes c + trusted_bytes c) /\
    io_meta_page_plaintext_bytes (rr_io rep) = circuit_meta_page_bytes (bucket_size p) + 2 * slots + 4 /\
    io_current_payload_page_plaintext_bytes (rr_io rep) = slots * block_size p /\
    rr_total_tree_slots rep = bucket_count p * slots /\ rr_cache_levels rep + rr_uncached_levels rep = height p /\
    (0 < rc_ops c -> stats_of (rn_samples r) (mkStats (rr_max_stash rep) (rr_avg_stash rep) (rr_p50_stash rep) (rr_p99_stash rep) (rr_p999_stash rep))).
Proof.
  intros [Hp Hv (HD0 & HP0 & Hw & Ho) Hcount] Hsz Hsamples. destruct (ring_validate_ok c Hv) as (HN & Hfit & HD & HD2 & HP & Hauth).
  assert (0 < rc_dummy_slots c <= u32_max) as HDr by lia.
  destruct (ring_history_ok (R := R) c Hp Hfit HN HDr Hw Ho Hcount ltac:(lia)) as (r & h & E & _ & [_ _ _ Hlen _ _ _]).
  exists r. unfold stress_ring. rewrite Hv, E. cbn [obind]. unfold ring_report.
  destruct (from_samples_ok (rn_samples r)) as (st & -> & Hst); [lia|]. cbn [obind]. rewrite checked_mul64_le by done. cbn [ok_or obind].
  pose proof (ring_buckets c Hp HDr Hsz Hauth) as (Hb1 & Hb2 & Hb3). change (2 ^ 61) with 2305843009213693952 in Hb3. pose proof (ok_bucket_size p Hp) as Hbs.
  assert (slots <= u64_max) as Hslots by (unfold slots, p, u64_max in *; nia).
  unfold checked_add64. rewrite (proj2 (Z.leb_le _ _)) by exact Hslots. cbn [ok_or obind]. rewrite checked_mul64_le by (unfold slots, p, u64_max in *; lia). cbn [ok_or obind].
  destruct (estimate_io_ok c Hp HDr Hsz Hauth (rn_measured_evictions r) (rn_measured_uncached_early r) (height (rc_params c) - Z.min (rc_cache_levels c) (height (rc_params c)))) as (io & Eio & Hm & Hpl & _).
  rewrite Eio. cbn [obind]. rewrite (estimate_crash_ok c Hp HDr Hsz Hauth). cbn [obind].
  eexists. split; [done|]. split; [reflexivity|]. split; [reflexivity|]. split; [exact Hm|]. split; [exact Hpl|]. split; [reflexivity|].
  split; [cbn [rr_cache_levels rr_uncached_levels]; unfold p; lia|]. intros Hpos. destruct st. apply Hst. lia.
Qed.

Lemma ring_report_accounts_witness : exists (r : RingRun Z) rep, ring_steps demo_ring = Ok r /\ stress_ring (R := Z) demo_ring = Ok rep /\
    rr_crash_state rep = mkRingCrash 24 42 28 42 64 64 200 200 /\
    io_meta_page_plaintext_bytes (rr_io rep) = 23 /\ io_current_payload_page_plaintext_bytes (rr_io rep) = 24 /\
    rr_total_tree_slots rep = 21 /\ rr_cache_levels rep + rr_uncached_levels rep = 3 /\
    (0 < rc_ops demo_ring -> stats_of (rn_samples r) (mkStats (rr_max_stash rep) (rr_avg_stash rep) (rr_p50_stash rep) (rr_p99_stash rep) (rr_p999_stash rep))).
Proof. apply (ring_report_accounts (R := Z) demo_ring); [exact demo_ring_config|split; vm_compute; discriminate|vm_compute; discriminate]. Defined.
