(* ===== verification/Evidence.v ===== *)
(** * Binding an image build to certified sources ([src/src/bin/oramctl.rs])

    A direct build can be bound to the evidence of the database builder: the evidence
    formats are parsed, compared with one another and with the expectations given on
    the command line, and recorded with the hashes of the sources.  [hex] is
    third-party code, a parameter.

    The formats are parsed through a cursor that each read advances.  [Wire] states what
    a reader and an encoding promise each other: the reader accepts exactly the
    encodings of its values, consumes exactly them, and always returns. *)

From S2P Require Import Prelude Store State Hash SealedState Float64 Direct.

(** ** Readers: the state is the [&mut &[u8]] cursor *)

(** [take] *)
Definition cur_take (n : Z) (what : string) : M bytes bytes := fun cur =>
  if lenZ cur <? n then (Err (InvalidInput ("truncated " +:+ what)), cur)
  else (Ok (take (Z.to_nat n) cur), drop (Z.to_nat n) cur).

(** [take_arr]: the length of the slice is that of the array. *)
Definition take_arr (n : Z) (what : string) : M bytes bytes := cur_take n what.

(** [take_u8], [take_u16], [take_u32], [take_u64], [take_i64] *)
Definition take_u8 (what : string) : M bytes Z := let* b := take_arr 1 what in lift (indexZ b 0).
Definition take_u16 (what : string) : M bytes Z := let* b := take_arr 2 what in ret (from_le b).
Definition take_u32 (what : string) : M bytes Z := let* b := take_arr 4 what in ret (from_le b).
Definition take_u64 (what : string) : M bytes Z := let* b := take_arr 8 what in ret (from_le b).
Definition i64_of (z : Z) : Z := if z <? 2 ^ 63 then z else z - 2 ^ 64.
Definition take_i64 (what : string) : M bytes Z := let* b := take_arr 8 what in ret (i64_of (from_le b)).

(** [String::from_utf8]: well-formed UTF-8, without surrogates and overlong forms. *)
Definition cont (b : Z) : bool := (0x80 <=? b) && (b <=? 0xBF).
Fixpoint utf8_valid (b : bytes) : bool :=
  match b with
  | [] => true
  | b0 :: r0 =>
    if b0 <=? 0x7F then utf8_valid r0 else
    match r0 with
    | [] => false
    | b1 :: r1 =>
      if (0xC2 <=? b0) && (b0 <=? 0xDF) then cont b1 && utf8_valid r1 else
      match r1 with
      | [] => false
      | b2 :: r2 =>
        if b0 =? 0xE0 then (0xA0 <=? b1) && (b1 <=? 0xBF) && cont b2 && utf8_valid r2
        else if b0 =? 0xED then (0x80 <=? b1) && (b1 <=? 0x9F) && cont b2 && utf8_valid r2
        else if (0xE1 <=? b0) && (b0 <=? 0xEF) then cont b1 && cont b2 && utf8_valid r2 else
        match r2 with
        | [] => false
        | b3 :: r3 =>
          if b0 =? 0xF0 then (0x90 <=? b1) && (b1 <=? 0xBF) && cont b2 && cont b3 && utf8_valid r3
          else if (0xF1 <=? b0) && (b0 <=? 0xF3) then cont b1 && cont b2 && cont b3 && utf8_valid r3
          else if b0 =? 0xF4 then (0x80 <=? b1) && (b1 <=? 0x8F) && cont b2 && cont b3 && utf8_valid r3
          else false
        end
      end
    end
  end.

(** [take_len_bytes] and [take_string] *)
Definition take_len_bytes (what : string) : M bytes bytes := let* len := take_u16 what in cur_take len what.
Definition take_string (what : string) : M bytes bytes :=
  let* b := take_len_bytes what in
  let* _ := guardm (utf8_valid b) (InvalidInput (what +:+ " is not UTF-8")) in
  ret b.

(** [cur.is_empty()] *)
Definition cur_is_empty (e : Error) : M bytes unit := fun cur => match cur with [] => (Ok tt, cur) | _ => (Err e, cur) end.

(** ** What readers promise *)

Class Wire {A} (p : M bytes A) (enc : A -> bytes) (ok : A -> Prop) : Prop := {
  wire_read : forall a rest, ok a -> p (enc a ++ rest) = (Ok a, rest);
  wire_only : forall cur a rest, bytes_ok cur -> p cur = (Ok a, rest) -> cur = enc a ++ rest /\ ok a /\ bytes_ok rest;
  wire_returns : forall cur, returned (p cur).1 = true
}.

Section Sequencing.
Context {A B : Type}.

Lemma bind_Ok_inv (p : M bytes A) (k : A -> M bytes B) cur b rest :
  bind p k cur = (Ok b, rest) -> exists a cur', p cur = (Ok a, cur') /\ k a cur' = (Ok b, rest).
Proof. unfold bind. destruct (p cur) as [[a| | |] cur']; try done. eauto. Qed.

Lemma bind_returns (p : M bytes A) (k : A -> M bytes B) cur :
  returned (p cur).1 = true -> (forall a cur', returned (k a cur').1 = true) -> returned (bind p k cur).1 = true.
Proof. unfold bind. destruct (p cur) as [[a| | |] cur']; cbn; auto. Qed.

Lemma guardm_Ok_inv (c : bool) (e : Error) (k : unit -> M bytes B) cur b rest :
  bind (guardm c e) k cur = (Ok b, rest) -> c = true /\ k tt cur = (Ok b, rest).
Proof. rewrite bind_guardm. by destruct c. Qed.

Lemma guardm_returns (c : bool) (e : Error) (k : unit -> M bytes B) cur :
  (forall cur', returned (k tt cur').1 = true) -> returned (bind (guardm c e) k cur).1 = true.
Proof. rewrite bind_guardm. destruct c; auto. Qed.

(** A reader before the rest of a parse, in both directions. *)
Lemma wire_bind_inv (p : M bytes A) {enc ok} `{!Wire p enc ok} (k : A -> M bytes B) cur b rest : bytes_ok cur ->
  bind p k cur = (Ok b, rest) -> exists a cur', cur = enc a ++ cur' /\ ok a /\ bytes_ok cur' /\ k a cur' = (Ok b, rest).
Proof.
  intros Hb H. apply bind_Ok_inv in H as (a & cur' & E & H). destruct (wire_only _ _ _ Hb E) as (-> & Ha & Hc). by exists a, cur'.
Qed.

Lemma wire_bind (p : M bytes A) {enc ok} `{!Wire p enc ok} (k : A -> M bytes B) a cur : ok a -> bind p k (enc a ++ cur) = k a cur.
Proof. intros Ha. apply bind_eq. by apply wire_read. Qed.

Lemma wire_bind_returns (p : M bytes A) {enc ok} `{!Wire p enc ok} (k : A -> M bytes B) cur :
  (forall a cur', returned (k a cur').1 = true) -> returned (bind p k cur).1 = true.
Proof. apply bind_returns, wire_returns. Qed.

(** Values mapped to another type. *)
Lemma wire_map (p : M bytes A) {enc ok} `{!Wire p enc ok} (f : A -> B) (g : B -> A) (okB : B -> Prop) :
  (forall b, okB b -> ok (g b) /\ f (g b) = b) -> (forall a, ok a -> okB (f a) /\ g (f a) = a) ->
  Wire (let* a := p in ret (f a)) (fun b => enc (g b)) okB.
Proof.
  intros Hg Hf. split.
  - intros b rest Hb. destruct (Hg b Hb) as [Ha E]. rewrite (wire_bind p) by done. unfold ret. by rewrite E.
  - intros cur b rest Hc H. apply (wire_bind_inv p) in H as (a & cur' & -> & Ha & Hc' & [= <- <-]); [|done].
    destruct (Hf a Ha) as [Hb E]. rewrite E. done.
  - intros cur. by apply (wire_bind_returns p).
Qed.

End Sequencing.

Lemma end_Ok_inv {B} (e : Error) (k : unit -> M bytes B) cur b rest : bind (cur_is_empty e) k cur = (Ok b, rest) -> cur = [] /\ k tt cur = (Ok b, rest).
Proof. unfold bind, cur_is_empty. by destruct cur. Qed.
Lemma end_returns {B} (e : Error) (k : unit -> M bytes B) cur : (forall cur', returned (k tt cur').1 = true) -> returned (bind (cur_is_empty e) k cur).1 = true.
Proof. intros Hk. unfold bind, cur_is_empty. destruct cur; [apply Hk|done]. Qed.

(** [parse_step]: invert one read of a successful parse. *)
Ltac parse_step H := match type of H with
  | bind (guardm _ _) _ _ = _ => apply guardm_Ok_inv in H as [? H]
  | bind (cur_is_empty _) _ _ = _ => apply end_Ok_inv in H as [-> H]
  | bind ?p _ _ = _ => eapply (wire_bind_inv p) in H as (? & ? & -> & ? & ? & H); [|assumption]
  end.
(** [returns_step]: one read returns. *)
Ltac returns_step := match goal with
  | |- returned (bind (guardm _ _) _ _).1 = true => apply guardm_returns; intros ?
  | |- returned (bind (cur_is_empty _) _ _).1 = true => apply end_returns; intros ?
  | |- returned (bind ?p _ _).1 = true => eapply (wire_bind_returns p); intros ? ?
  end.

Section Readers.

#[export] Instance take_arr_wire n what : 0 <= n -> Wire (take_arr n what) id (page_ok n).
Proof.
  intros Hn. unfold take_arr, cur_take. split.
  - intros a rest [Ha _]. cbn [id]. rewrite lenZ_app, (proj2 (Z.ltb_ge _ _)) by (pose proof (lenZ_nonneg rest); lia).
    by rewrite take_app_length', drop_app_length' by (unfold lenZ in Ha; lia).
  - intros cur a rest Hc. destruct (lenZ cur <? n) eqn:E; [done|]. zbool. intros [= <- <-]. cbn [id]. rewrite take_drop.
    destruct (bytes_ok_take_drop cur (Z.to_nat n) Hc) as [Ht Hd]. split; [done|]. split; [|done]. split; [|done].
    unfold lenZ in *. rewrite length_take. lia.
  - intros cur. by destruct (_ <? _).
Qed.

Lemma take_word_wire n what : Wire (let* b := take_arr (Z.of_nat n) what in ret (from_le b)) (to_le n) (fun z => 0 <= z < 256 ^ Z.of_nat n).
Proof.
  pose proof (take_arr_wire (Z.of_nat n) what ltac:(lia)). apply (wire_map (take_arr _ _) (enc := id) (ok := page_ok (Z.of_nat n)) from_le (to_le n)).
  - intros z Hz. rewrite from_to_le, Z.mod_small by done. split; [|done]. split; [unfold lenZ; by rewrite to_le_length|apply to_le_ok].
  - intros b [Hl Hb]. split; [pose proof (from_le_bound b Hb) as Hr; by rewrite Hl in Hr|]. apply to_from_le_len; [done|]. unfold lenZ in Hl. lia.
Qed.
#[export] Instance take_u16_wire what : Wire (take_u16 what) (to_le 2) (fun z => 0 <= z < 256 ^ 2).
Proof. apply (take_word_wire 2). Qed.
#[export] Instance take_u32_wire what : Wire (take_u32 what) (to_le 4) (fun z => 0 <= z < 256 ^ 4).
Proof. apply (take_word_wire 4). Qed.
#[export] Instance take_u64_wire what : Wire (take_u64 what) (to_le 8) (fun z => 0 <= z < 256 ^ 8).
Proof. apply (take_word_wire 8). Qed.

(** Two's complement. *)
Definition i64_encode (z : Z) : bytes := to_le 8 (z mod 2 ^ 64).
#[export] Instance take_i64_wire what : Wire (take_i64 what) i64_encode (fun z => - 2 ^ 63 <= z < 2 ^ 63).
Proof.
  pose proof (take_arr_wire 8 what ltac:(lia)).
  apply (wire_map (take_arr 8 what) (enc := id) (ok := page_ok 8) (fun b => i64_of (from_le b)) (fun z => to_le 8 (z mod 2 ^ 64))); unfold i64_of.
  - intros z Hz. rewrite from_to_le. change (256 ^ Z.of_nat 8) with (2 ^ 64). rewrite Z.mod_mod by done. split; [split; [unfold lenZ; by rewrite to_le_length|apply to_le_ok]|].
    destruct (decide (0 <= z)).
    + rewrite Z.mod_small by lia. by rewrite (proj2 (Z.ltb_lt _ _)) by lia.
    + assert (z mod 2 ^ 64 = z + 2 ^ 64) as -> by (symmetry; apply (Z.mod_unique_pos z (2 ^ 64) (-1)); lia). rewrite (proj2 (Z.ltb_ge _ _)) by lia. lia.
  - intros b [Hl Hb]. pose proof (from_le_bound b Hb) as Hr. rewrite Hl in Hr. change (256 ^ 8) with (2 ^ 64) in Hr.
    assert ((if from_le b <? 2 ^ 63 then from_le b else from_le b - 2 ^ 64) mod 2 ^ 64 = from_le b) as ->.
    { destruct (_ <? _); [by apply Z.mod_small|]. replace (from_le b - 2 ^ 64) with (from_le b + (-1) * 2 ^ 64) by lia. by rewrite Z.mod_add, Z.mod_small. }
    split; [destruct (_ <? _) eqn:E; zbool; lia|]. apply to_from_le_len; [done|]. unfold lenZ in Hl. lia.
Qed.

#[export] Instance take_u8_wire what : Wire (take_u8 what) (fun z => [z]) is_u8.
Proof.
  pose proof (take_arr_wire 1 what ltac:(lia)) as Hw. unfold take_u8. split.
  - intros z rest Hz. rewrite (wire_bind (take_arr 1 what) (enc := id) _ [z]); [done|]. split; [done|by constructor].
  - intros cur z rest Hc H. apply (wire_bind_inv (take_arr 1 what) (enc := id)) in H as (b & cur' & -> & [Hl Hb] & Hc' & H); [|done].
    destruct b as [|x [|? l]]; [done| |rewrite !lenZ_cons in Hl; pose proof (lenZ_nonneg l); lia]. injection H as <- <-. split; [done|]. by inversion Hb.
  - intros cur. unfold bind. destruct (take_arr 1 what cur) as [[b| | |] cur'] eqn:E; try done.
    + unfold take_arr, cur_take in E. destruct (lenZ cur <? 1) eqn:El; [done|]. injection E as <- <-. zbool. by destruct cur.
    + pose proof (wire_returns (Wire := Hw) cur) as Hr. by rewrite E in Hr.
    + pose proof (wire_returns (Wire := Hw) cur) as Hr. by rewrite E in Hr.
Qed.

Lemma take_u8_bind {B} what (k : Z -> M bytes B) z cur : is_u8 z -> bind (take_u8 what) k (z :: cur) = k z cur.
Proof. intros Hz. apply bind_eq, (wire_read (Wire := take_u8_wire what) z cur Hz). Qed.
Lemma take_arr_bind {B} n what (k : bytes -> M bytes B) a cur : page_ok n a -> bind (take_arr n what) k (a ++ cur) = k a cur.
Proof.
  intros Ha. assert (0 <= n) as Hn by (destruct Ha as [<- _]; apply lenZ_nonneg).
  apply bind_eq, (wire_read (Wire := take_arr_wire n what Hn) a cur Ha).
Qed.

Definition len_encode (b : bytes) : bytes := to_le 2 (lenZ b) ++ b.
#[export] Instance take_len_bytes_wire what : Wire (take_len_bytes what) len_encode (fun b => lenZ b < 2 ^ 16 /\ bytes_ok b).
Proof.
  unfold take_len_bytes, len_encode. split.
  - intros b rest [Hl Hb]. pose proof (lenZ_nonneg b). rewrite <-app_assoc. rewrite (wire_bind (take_u16 what)) by (change (256 ^ 2) with (2 ^ 16); lia).
    pose proof (take_arr_wire (lenZ b) what ltac:(lia)). apply (wire_read (p := take_arr (lenZ b) what) (enc := id)). done.
  - intros cur b rest Hc H. parse_step H. rename x into n. pose proof (take_arr_wire n what ltac:(lia)) as Hw.
    destruct (wire_only (Wire := Hw) _ _ _ ltac:(eassumption) H) as (-> & [Hl Hb] & Hr). cbn [id]. rewrite Hl, app_assoc.
    split; [done|]. split; [|done]. split; [|done]. change (256 ^ 2) with (2 ^ 16) in *. lia.
  - intros cur. returns_step. unfold cur_take. by destruct (_ <? _).
Qed.

#[export] Instance take_string_wire what : Wire (take_string what) len_encode (fun b => (lenZ b < 2 ^ 16 /\ bytes_ok b) /\ utf8_valid b = true).
Proof.
  unfold take_string. split.
  - intros b rest [Hb Hu]. rewrite (wire_bind (take_len_bytes what)) by done. by rewrite bind_guardm, Hu.
  - intros cur b rest Hc H. parse_step H. parse_step H. injection H as <- <-. done.
  - intros cur. returns_step. by returns_step.
Qed.

End Readers.

(** [read_step]: one read of an encoding. *)
Ltac read_step := match goal with
  | |- bind (guardm _ _) _ _ = _ => rewrite bind_guardm
  | |- bind (take_arr ?n ?w) _ _ = _ => rewrite take_arr_bind by assumption
  | |- bind ?p _ _ = _ => rewrite (wire_bind p) by (assumption || done)
  end.

#[export] Hint Extern 1 (0 <= _) => lia : typeclass_instances.

(** [hex::encode] and [hex::decode] *)
Class Hex : Type := { hex_encode : bytes -> string; hex_decode : string -> option bytes }.
Class HexLaws `{Hex} : Prop := {
  hex_roundtrip : forall b, bytes_ok b -> hex_decode (hex_encode b) = Some b;
  hex_bytes : forall s b, hex_decode s = Some b -> bytes_ok b
}.

(** ** Hashes and their display forms *)

Section Display.
Context `{Hex}.

(** [parse_32_hex] *)
Definition parse_32_hex (input : string) : outcome bytes :=
  let? b := ok_or (hex_decode input) HexError in
  let? _ := guardo (lenZ b =? 32) (InvalidInput "expected 32-byte hex string, got {} bytes") in
  Ok b.

(** [parse_muhash_display_hex], [muhash_display_hex], [display_block_hash_hex] *)
Definition parse_muhash_display_hex (input : string) : outcome bytes := let? h := parse_32_hex input in Ok (reverse h).
Definition muhash_display_hex (hash : bytes) : string := hex_encode (reverse hash).
Definition display_block_hash_hex (hash : bytes) : string := hex_encode (reverse hash).

End Display.

(** ** Certified bindings *)

Definition DB_BUILD_EVIDENCE_VERSION : Z := 1.
Definition ROOT_BUNDLE_PAYLOAD_VERSION : Z := 1.
Definition ORAM_BUILD_EVIDENCE_VERSION : Z := 1.

Inductive CertifiedBuildKind : Type := KindSnapshot | KindDelta.
#[export] Instance CertifiedBuildKind_eq_dec : EqDecision CertifiedBuildKind.
Proof. solve_decision. Defined.

(** [CertifiedBuildKind::label] *)
Definition kind_label (k : CertifiedBuildKind) : string := match k with KindSnapshot => "snapshot" | KindDelta => "delta" end.

(** Mirror of [struct CertifiedAnchor]. *)
Record CertifiedAnchor : Type := mkAnchor { block_hash : bytes; height : Z }.
#[export] Instance CertifiedAnchor_eq_dec : EqDecision CertifiedAnchor.
Proof. solve_decision. Defined.

(** Mirror of [struct CertifiedDbBinding]. *)
Record CertifiedDbBinding : Type := mkBinding {
  build_kind : CertifiedBuildKind;
  network_magic : bytes;
  from_anchor : CertifiedAnchor;
  anchor : CertifiedAnchor;
  to_muhash : bytes;
  root_bundle_payload_sha256 : option bytes
}.

(** [certified_build_kind_from_byte] *)
Definition certified_build_kind_from_byte (byte : Z) : outcome CertifiedBuildKind :=
  if byte =? 0 then Ok KindSnapshot else if byte =? 1 then Ok KindDelta else Err (InvalidInput "unknown build kind {byte}").

(** [take_certified_anchor] *)
Definition take_certified_anchor (what : string) : M bytes CertifiedAnchor :=
  let* block_hash := take_arr 32 what in
  let* height := take_u32 what in
  ret (mkAnchor block_hash height).

(** [certified_build_kind_from_byte(take_u8(cur, ..)?)?] *)
Definition take_build_kind (what : string) : M bytes CertifiedBuildKind :=
  let* byte := take_u8 what in lift (certified_build_kind_from_byte byte).

(** The optional hash of the signed root bundle *)
Definition take_signed_root_bundle : M bytes (option bytes) :=
  let* tag := take_u8 "has_signed_root_bundle" in
  if tag =? 0 then ret None
  else if tag =? 1 then let* h := take_arr 32 "signed_root_bundle_sha256" in ret (Some h)
  else fail (InvalidInput "bad signed root bundle option tag").

(** [decode_db_build_evidence_binding] *)
Definition read_db_build_evidence : M bytes CertifiedDbBinding :=
  let* version := take_u16 "db evidence version" in
  let* _ := guardm (version =? DB_BUILD_EVIDENCE_VERSION) (InvalidInput "unsupported DB build evidence version {version}") in
  let* _ := take_string "builder_git_commit" in
  let* _ := take_arr 32 "builder_binary_sha256" in
  let* _ := take_string "tee_platform" in
  let* _ := take_len_bytes "tee_image_measurement" in
  let* _ := take_string "core_version" in
  let* _ := take_arr 32 "snapshot_sha256" in
  let* _ := take_u64 "snapshot_bytes" in
  let* network_magic := take_arr 4 "network_magic" in
  let* build_kind := take_build_kind "build_kind" in
  let* from_anchor := take_certified_anchor "from_anchor" in
  let* anchor := take_certified_anchor "anchor" in
  let* to_muhash := take_arr 32 "utxo_muhash" in
  let* _ := take_u64 "dust_threshold_sats" in
  let* _ := take_u32 "max_utxos_per_spk" in
  let* _ := take_arr 32 "params_hash" in
  let* _ := take_u32 "index_bins_per_table" in
  let* _ := take_u32 "chunk_bins_per_table" in
  let* _ := take_u32 "onion_entry_size" in
  let* _ := take_arr 32 "bucket_super_root" in
  let* _ := take_arr 32 "onion_super_root" in
  let* root_bundle_payload_sha256 := take_arr 32 "root_bundle_payload_sha256" in
  let* _ := take_signed_root_bundle in
  let* _ := take_arr 32 "database_manifest_sha256" in
  let* _ := take_arr 32 "all_artifacts_manifest_sha256" in
  let* _ := take_arr 32 "server_db_manifest_sha256" in
  let* _ := cur_is_empty (InvalidInput "DB build evidence has trailing bytes") in
  ret (mkBinding build_kind network_magic from_anchor anchor to_muhash (Some root_bundle_payload_sha256)).
Definition decode_db_build_evidence_binding (b : bytes) : outcome CertifiedDbBinding := (read_db_build_evidence b).1.

(** [previous >= &label] of [String]s: byte by byte. *)
Fixpoint bytes_lt (a b : bytes) : bool :=
  match a, b with
  | [], [] => false
  | [], _ :: _ => true
  | _ :: _, [] => false
  | x :: a, y :: b => (x <? y) || ((x =? y) && bytes_lt a b)
  end.
Definition label_follows (previous : option bytes) (label : bytes) : bool :=
  match previous with Some p => bytes_lt p label | None => true end.

(** The canonical labels: 1 to 64 printable characters, no space. *)
Definition canonical_label (label : bytes) : bool :=
  negb (lenZ label =? 0) && (lenZ label <=? 64) && forallb (fun b => (0x21 <=? b) && (b <=? 0x7E)) label.

(** One root: its label and hash; the new [previous_label] is returned. *)
Definition take_root (previous_label : option bytes) : M bytes (option bytes) :=
  let* label_len := take_u8 "root label len" in
  let* label := cur_take label_len "root label" in
  let* _ := guardm (utf8_valid label) (InvalidInput "root label is not UTF-8") in
  let* _ := guardm (canonical_label label) (InvalidInput "root label is not canonical") in
  let* _ := guardm (label_follows previous_label label) (InvalidInput "root labels are not strictly sorted") in
  let* _ := take_arr 32 "root" in
  ret (Some label).

(** [decode_root_bundle_payload_binding] *)
Definition read_root_bundle_payload : M bytes CertifiedDbBinding :=
  let* version := take_u16 "root payload version" in
  let* _ := guardm (version =? ROOT_BUNDLE_PAYLOAD_VERSION) (InvalidInput "unsupported root bundle payload version {version}") in
  let* network_magic := take_arr 4 "network_magic" in
  let* build_kind := take_build_kind "build_kind" in
  let* from_anchor := take_certified_anchor "from_anchor" in
  let* anchor := take_certified_anchor "anchor" in
  let* to_muhash := take_arr 32 "utxo_muhash" in
  let* _ := take_u64 "dust_threshold_sats" in
  let* _ := take_u32 "max_utxos_per_spk" in
  let* _ := take_arr 32 "params_hash" in
  let* _ := take_i64 "issued_at" in
  let* n_roots := take_u16 "root_count" in
  let* _ := guardm (negb ((n_roots =? 0) || (1024 <? n_roots))) (InvalidInput "root count is outside canonical bounds") in
  let* _ := foldM (fun previous_label _ => take_root previous_label) None (seqZ 0 n_roots) in
  let* _ := cur_is_empty (InvalidInput "root bundle payload has trailing bytes") in
  ret (mkBinding build_kind network_magic from_anchor anchor to_muhash None).
Definition decode_root_bundle_payload_binding (b : bytes) : outcome CertifiedDbBinding := (read_root_bundle_payload b).1.

(** ** Comparisons *)

(** [expect_raw_hash] and [expect_muhash] *)
Definition expect_raw_hash (field : string) (expected actual : bytes) : outcome unit :=
  guardo (bool_decide (expected = actual)) (InvalidInput (field +:+ " mismatch: expected {}, got {}")).
Definition expect_muhash (field : string) (expected actual : bytes) : outcome unit :=
  guardo (bool_decide (expected = actual)) (InvalidInput (field +:+ " mismatch: expected {}, got {}")).

(** [compare_certified_binding] *)
Definition compare_certified_binding (label : string) (expected actual : CertifiedDbBinding) : outcome unit :=
  let? _ := guardo (bool_decide (build_kind expected = build_kind actual)) (InvalidInput (label +:+ " build kind mismatch: expected {}, got {}")) in
  let? _ := guardo (bool_decide (network_magic expected = network_magic actual)) (InvalidInput (label +:+ " network magic mismatch: expected {}, got {}")) in
  let? _ := guardo (bool_decide (from_anchor expected = from_anchor actual)) (InvalidInput (label +:+ " from-anchor mismatch: expected {}:{}, got {}:{}")) in
  let? _ := guardo (bool_decide (anchor expected = anchor actual)) (InvalidInput (label +:+ " anchor mismatch: expected {}:{}, got {}:{}")) in
  expect_muhash label (to_muhash expected) (to_muhash actual).

(** ** Inputs and sources *)

(** Mirror of [struct DirectBuildEvidenceInputs]. *)
Record DirectBuildEvidenceInputs : Type := mkInputs {
  in_db_build_evidence : option FilePath;
  in_root_bundle_payload : option FilePath;
  expected_muhash : option bytes;
  expected_from_muhash : option bytes;
  expected_index_sha256 : option bytes;
  expected_chunks_sha256 : option bytes;
  strict_source_binding : bool
}.

(** [option.map(f).transpose()?] *)
Definition transpose_map {A B} (f : A -> outcome B) (o : option A) : outcome (option B) :=
  match o with Some a => let? b := f a in Ok (Some b) | None => Ok None end.

(** [DirectBuildEvidenceInputs::parse] *)
Definition inputs_parse `{Hex} (db_build_evidence root_bundle_payload : option FilePath)
    (muhash from_muhash index_sha256 chunks_sha256 : option string) (strict : bool) : outcome DirectBuildEvidenceInputs :=
  let? m := transpose_map parse_muhash_display_hex muhash in
  let? f := transpose_map parse_muhash_display_hex from_muhash in
  let? i := transpose_map parse_32_hex index_sha256 in
  let? c := transpose_map parse_32_hex chunks_sha256 in
  Ok (mkInputs db_build_evidence root_bundle_payload m f i c strict).

(** Mirror of [struct DirectSourceFileEvidence]. *)
Record DirectSourceFileEvidence : Type := mkSourceEvidence {
  sf_level : string;
  sf_path : string;
  sf_sha256 : string;
  sf_bytes : Z;
  sf_records : Z;
  sf_record_size : Z;
  sf_sha256_bytes : bytes
}.

(** Mirror of [struct DirectSourceFilesEvidence]. *)
Record DirectSourceFilesEvidence : Type := mkSourcesEvidence { sfs_index : DirectSourceFileEvidence; sfs_chunks : DirectSourceFileEvidence }.

(** [DirectLevel::label] *)
Definition direct_label (l : DirectLevel) : string := match l with DirectIndex => "index" | DirectChunk => "chunk" end.

(** [validate_direct_build_binding] *)
Definition validate_direct_build_binding (inputs : DirectBuildEvidenceInputs) (sources : DirectSourceFilesEvidence)
    (certified : option CertifiedDbBinding) : outcome unit :=
  let? _ := match expected_index_sha256 inputs with
            | Some expected => expect_raw_hash "direct index source sha256" expected (sf_sha256_bytes (sfs_index sources))
            | None => Ok tt
            end in
  let? _ := match expected_chunks_sha256 inputs with
            | Some expected => expect_raw_hash "direct chunks source sha256" expected (sf_sha256_bytes (sfs_chunks sources))
            | None => Ok tt
            end in
  let? _ := match expected_muhash inputs, certified with
            | Some expected, Some certified => expect_muhash "certified MuHash" expected (to_muhash certified)
            | _, _ => Ok tt
            end in
  let? _ := guardo (negb (bool_decide (is_Some (expected_from_muhash inputs)) &&
                          match certified with Some c => negb (bool_decide (build_kind c = KindDelta)) | None => false end))
              (InvalidInput "--expected-from-muhash was provided but certified build kind is snapshot") in
  if strict_source_binding inputs then
    let? _ := guardo (bool_decide (is_Some certified)) (InvalidInput "--strict-source-binding requires --db-build-evidence or --root-bundle-payload") in
    guardo (bool_decide (is_Some (expected_index_sha256 inputs)) && bool_decide (is_Some (expected_chunks_sha256 inputs)))
      (InvalidInput "--strict-source-binding requires --expected-index-sha256 and --expected-chunks-sha256 because DB evidence v1 does not carry direct source hashes")
  else Ok tt.

(** ** Files *)

Definition READ_BUFFER : Z := 1024 * 1024.

Section Files.
Context {OS : Type} `{Hash} `{Hex}.

(** [sha256_bytes] *)
Definition sha256_bytes (b : bytes) : bytes := sha256 b.

(** The [read] loop of [sha256_file]: [hashed] is what the hasher was fed. *)
Fixpoint sha256_reads (fuel : nat) (rest hashed : bytes) (bytes : Z) : M (Host OS) (list Z * Z) :=
  match fuel with
  | O => fun h => (Diverges, h)
  | S fuel =>
    let* fault := next_fault in
    match fault with
    | Some _ => fail IoError
    | None =>
      let buf := take (Z.to_nat READ_BUFFER) rest in
      if lenZ buf =? 0 then ret (sha256 hashed, bytes)
      else sha256_reads fuel (drop (Z.to_nat READ_BUFFER) rest) (hashed ++ buf) (bytes + lenZ buf)
    end
  end.

(** [sha256_file] *)
Definition sha256_file (path : FilePath) : M (Host OS) (bytes * Z) :=
  let* contents := fs_read path in
  sha256_reads (S (length contents)) contents [] 0.

(** [direct_source_file_evidence] *)
Definition direct_source_file_evidence (info : DirectTableInfo) (record_size : Z) : M (Host OS) DirectSourceFileEvidence :=
  let* hashed := sha256_file (dti_path info) in
  let* _ := guardm (hashed.2 =? dti_file_bytes info)
              (InvalidInput "direct {} source {} changed while hashing: metadata saw {} bytes, hash saw {}") in
  ret (mkSourceEvidence (direct_label (dti_level info)) (render (dti_path info)) (hex_encode hashed.1) hashed.2 (dti_records info)
         record_size hashed.1).

(** [infos.iter().find(|info| info.level == level).expect(..)] *)
Definition find_level (level : DirectLevel) (infos : list DirectTableInfo) : outcome DirectTableInfo :=
  match find (fun info => bool_decide (dti_level info = level)) infos with Some info => Ok info | None => Panic end.

(** [direct_source_files_evidence] *)
Definition direct_source_files_evidence (infos : list DirectTableInfo) : M (Host OS) DirectSourceFilesEvidence :=
  let* index := lift (find_level DirectIndex infos) in
  let* chunks := lift (find_level DirectChunk infos) in
  let* index := direct_source_file_evidence index DIRECT_INDEX_INPUT_RECORD_SIZE in
  let* chunks := direct_source_file_evidence chunks DIRECT_CHUNK_RECORD_SIZE in
  ret (mkSourcesEvidence index chunks).

(** [load_certified_db_binding] *)
Definition load_certified_db_binding (inputs : DirectBuildEvidenceInputs) : M (Host OS) (option CertifiedDbBinding) :=
  let* binding := match in_db_build_evidence inputs with
                  | Some path => let* b := fs_read path in
                                 let* binding := lift (decode_db_build_evidence_binding b) in ret (Some binding)
                  | None => ret None
                  end in
  match in_root_bundle_payload inputs with
  | None => ret binding
  | Some path =>
    let* b := fs_read path in
    let payload_sha256 := sha256_bytes b in
    let* payload_binding := lift (decode_root_bundle_payload_binding b) in
    match binding with
    | Some existing =>
      let* _ := guardm (bool_decide (root_bundle_payload_sha256 existing = Some payload_sha256))
                  (InvalidInput "root bundle payload hash mismatch: db evidence expects {}, got {}") in
      let* _ := lift (compare_certified_binding "root-bundle-payload" existing payload_binding) in
      ret (Some existing)
    | None => ret (Some payload_binding)
    end
  end.

(** [direct_infos] *)
Definition direct_infos (index_file chunks_file : FilePath) (slots_per_bin hash_fns : Z) (load_factor : f64) (seed : Z) :
    M (Host OS) (list DirectTableInfo) :=
  let* index := from_index_file index_file slots_per_bin hash_fns load_factor seed in
  let* chunks := from_chunks_file chunks_file in
  ret [index; chunks].

(** [build_direct_images], before anything is built: the sources, the certified
    binding and the validation of both. *)
Definition bind_sources (infos : list DirectTableInfo) (inputs : DirectBuildEvidenceInputs) :
    M (Host OS) (DirectSourceFilesEvidence * option CertifiedDbBinding) :=
  let* source_files := direct_source_files_evidence infos in
  let* certified_db := load_certified_db_binding inputs in
  let* _ := lift (validate_direct_build_binding inputs source_files certified_db) in
  ret (source_files, certified_db).

End Files.

(** ** What the evidence records *)

(** Mirror of [struct ChainAnchorEvidence]. *)
Record ChainAnchorEvidence : Type := mkAnchorEvidence { ae_height : Z; ae_block_hash_hex : string }.

(** Mirror of [struct DbCertificationEvidence]. *)
Record DbCertificationEvidence : Type := mkCertEvidence {
  ce_build_kind : option string;
  ce_network_magic_hex : option string;
  ce_from_anchor : option ChainAnchorEvidence;
  ce_anchor : option ChainAnchorEvidence;
  ce_from_muhash_hex : option string;
  ce_to_muhash_hex : option string
}.

(** Mirror of [struct TieredMerkleRootEvidence] and [struct EmbeddedTreeRootEvidence]. *)
Record TieredMerkleRootEvidence : Type := mkTieredEvidence {
  te_store_id_hex : string;
  te_page_count : Z;
  te_page_size : Z;
  te_trusted_levels : Z;
  te_hash_page_size : Z;
  te_root_hash_hex : string;
  te_trusted_hashes_sha256 : string;
  te_trusted_hashes : Z
}.
Record EmbeddedTreeRootEvidence : Type := mkEmbeddedEvidence {
  ee_store_id_hex : string;
  ee_page_count : Z;
  ee_logical_page_size : Z;
  ee_root_hash_hex : string
}.

(** Mirror of [enum AuthRootsEvidence]. *)
Inductive AuthRootsEvidence : Type :=
| TieredMerkleRoots (meta payload : TieredMerkleRootEvidence)
| EmbeddedTreeRoots (meta payload : EmbeddedTreeRootEvidence).

(** Mirror of [struct DirectControllerStateEvidence]. *)
Record DirectControllerStateEvidence : Type := mkStateEvidence {
  se_level : DirectLevel;
  se_state_path : string;
  se_sha256 : string;
  se_bytes : Z;
  se_auth_roots : option AuthRootsEvidence
}.

(** Mirror of [struct ArtifactEvidence]. *)
Record ArtifactEvidence : Type := mkArtifact { ar_path : string; ar_file_name : string; ar_sha256 : string; ar_bytes : Z }.

Section Records.
Context `{Hash} `{Hex}.

(** [chain_anchor_evidence] *)
Definition chain_anchor_evidence (a : CertifiedAnchor) : ChainAnchorEvidence :=
  mkAnchorEvidence (height a) (display_block_hash_hex (block_hash a)).

(** [build_db_certification_evidence] *)
Definition build_db_certification_evidence (inputs : DirectBuildEvidenceInputs) (certified : option CertifiedDbBinding) : DbCertificationEvidence :=
  let to := match to_muhash <$> certified with Some h => Some h | None => expected_muhash inputs end in
  mkCertEvidence ((fun c => kind_label (build_kind c)) <$> certified) ((fun c => hex_encode (network_magic c)) <$> certified)
    ((fun c => chain_anchor_evidence (from_anchor c)) <$> certified) ((fun c => chain_anchor_evidence (anchor c)) <$> certified)
    (muhash_display_hex <$> expected_from_muhash inputs) (muhash_display_hex <$> to).

(** [sha256_hashes] *)
Definition sha256_hashes (hashes : list bytes) : bytes := sha256 (concat hashes).

(** [tiered_merkle_root_evidence] and [embedded_tree_root_evidence] *)
Definition tiered_merkle_root_evidence (s : TieredMerkleState) : TieredMerkleRootEvidence :=
  let root := default (zeros 32) (tms_trusted_hashes s !! 1%nat) in
  mkTieredEvidence (hex_encode (tms_store_id s)) (tms_page_count s) (tms_page_size s) (tms_trusted_levels s) (tms_hash_page_size s)
    (hex_encode root) (hex_encode (sha256_hashes (tms_trusted_hashes s))) (lenZ (tms_trusted_hashes s)).
Definition embedded_tree_root_evidence (s : EmbeddedTreeState) : EmbeddedTreeRootEvidence :=
  mkEmbeddedEvidence (hex_encode (ets_store_id s)) (ets_page_count s) (ets_logical_page_size s) (hex_encode (ets_root_hash s)).

(** [auth_roots_evidence] *)
Definition auth_roots_evidence (auth : CircuitStoreAuthState) : AuthRootsEvidence :=
  match layout auth with
  | TieredMerkle meta payload => TieredMerkleRoots (tiered_merkle_root_evidence meta) (tiered_merkle_root_evidence payload)
  | EmbeddedTree meta payload => EmbeddedTreeRoots (embedded_tree_root_evidence meta) (embedded_tree_root_evidence payload)
  end.

(** [direct_controller_state_evidence] *)
Definition direct_controller_state_evidence {R} `{Bincode (CircuitOramState R)} (level : DirectLevel) (state_path : FilePath)
    (state : CircuitOramState R) : outcome DirectControllerStateEvidence :=
  let? encoded := ok_or (bin_serialize state) BincodeError in
  Ok (mkStateEvidence level (render state_path) (hex_encode (sha256_bytes encoded)) (lenZ encoded) (auth_roots_evidence <$> st_auth state)).

(** [artifact_evidence] *)
Definition artifact_evidence {OS} (path : FilePath) : M (Host OS) ArtifactEvidence :=
  let* hashed := sha256_file path in
  let file_name := (file_stem path +:+ match extension path with Some e => "." +:+ e | None => "" end)%string in
  ret (mkArtifact (render path) file_name (hex_encode hashed.1) hashed.2).

End Records.
