(* ===== verification/EvidenceSpec.v ===== *)
(** * What the evidence decoders accept and the bindings promise

    Each decoder accepts exactly the encodings of well-formed documents and always
    returns; a build that passes the checks is bound to the sources and to one
    certified database. *)

From S2P Require Import Prelude Store State SealedState Float64 Hash Direct DirectSpec Evidence.

(** ** Readers of the parts *)

Definition encode_anchor (a : CertifiedAnchor) : bytes := block_hash a ++ to_le 4 (height a).
Definition anchor_ok (a : CertifiedAnchor) : Prop := page_ok 32 (block_hash a) /\ 0 <= height a < 256 ^ 4.
Definition encode_kind (k : CertifiedBuildKind) : bytes := match k with KindSnapshot => [0] | KindDelta => [1] end.
Definition encode_signed (s : option bytes) : bytes := match s with None => [0] | Some h => 1 :: h end.
Definition signed_ok (s : option bytes) : Prop := match s with None => True | Some h => page_ok 32 h end.

#[export] Instance anchor_wire what : Wire (take_certified_anchor what) encode_anchor anchor_ok.
Proof.
  unfold take_certified_anchor, encode_anchor, anchor_ok. split.
  - intros [b z] rest [Hb Hz]. cbn [block_hash height] in *. rewrite <-app_assoc.
    rewrite take_arr_bind by done. by rewrite (wire_bind (take_u32 what)).
  - intros cur a rest Hc H. parse_step H. parse_step H. injection H as <- <-. cbn. by rewrite <-app_assoc.
  - intros cur. returns_step. by returns_step.
Qed.

#[export] Instance kind_wire what : Wire (take_build_kind what) encode_kind (fun _ => True).
Proof.
  unfold take_build_kind, certified_build_kind_from_byte. split.
  - intros [] rest _; cbn [encode_kind app]; (rewrite take_u8_bind by done; done).
  - intros cur k rest Hc H. parse_step H. rename x into z. destruct (z =? 0) eqn:E0; [|destruct (z =? 1) eqn:E1; [|done]]; injection H as <- <-; zbool; by subst z.
  - intros cur. returns_step. destruct (_ =? 0); [done|]. by destruct (_ =? 1).
Qed.

#[export] Instance signed_wire : Wire take_signed_root_bundle encode_signed signed_ok.
Proof.
  unfold take_signed_root_bundle. split.
  - intros [h|] rest Hs; cbn [encode_signed signed_ok] in *.
    + cbn [app]. rewrite take_u8_bind by done. cbn. by rewrite take_arr_bind.
    + cbn [app]. by rewrite take_u8_bind by done.
  - intros cur s rest Hc H. parse_step H. rename x into z. destruct (z =? 0) eqn:E0; [|destruct (z =? 1) eqn:E1; [|done]]; zbool; subst z.
    + by injection H as <- <-.
    + parse_step H. by injection H as <- <-.
  - intros cur. returns_step. destruct (_ =? 0); [done|]. destruct (_ =? 1); [|done]. by returns_step.
Qed.

(** ** The evidence of the database builder *)

(** The content of a [build-evidence.bin]. *)
Record BuildEvidence : Type := mkBuildEvidence {
  be_builder_git_commit : bytes;
  be_builder_binary_sha256 : bytes;
  be_tee_platform : bytes;
  be_tee_image_measurement : bytes;
  be_core_version : bytes;
  be_snapshot_sha256 : bytes;
  be_snapshot_bytes : Z;
  be_network_magic : bytes;
  be_build_kind : CertifiedBuildKind;
  be_from_anchor : CertifiedAnchor;
  be_anchor : CertifiedAnchor;
  be_utxo_muhash : bytes;
  be_dust_threshold_sats : Z;
  be_max_utxos_per_spk : Z;
  be_params_hash : bytes;
  be_index_bins_per_table : Z;
  be_chunk_bins_per_table : Z;
  be_onion_entry_size : Z;
  be_bucket_super_root : bytes;
  be_onion_super_root : bytes;
  be_root_bundle_payload_sha256 : bytes;
  be_signed_root_bundle : option bytes;
  be_database_manifest : bytes;
  be_all_artifacts_manifest : bytes;
  be_server_db_manifest : bytes
}.

Definition text_ok (b : bytes) : Prop := (lenZ b < 2 ^ 16 /\ bytes_ok b) /\ utf8_valid b = true.
Definition word_ok (n : Z) (z : Z) : Prop := 0 <= z < 256 ^ n.

Record evidence_ok (e : BuildEvidence) : Prop := {
  eo_texts : text_ok (be_builder_git_commit e) /\ text_ok (be_tee_platform e) /\ text_ok (be_core_version e);
  eo_measurement : lenZ (be_tee_image_measurement e) < 2 ^ 16 /\ bytes_ok (be_tee_image_measurement e);
  eo_hashes : Forall (page_ok 32) [be_builder_binary_sha256 e; be_snapshot_sha256 e; be_utxo_muhash e; be_params_hash e; be_bucket_super_root e;
    be_onion_super_root e; be_root_bundle_payload_sha256 e; be_database_manifest e; be_all_artifacts_manifest e; be_server_db_manifest e];
  eo_magic : page_ok 4 (be_network_magic e);
  eo_anchors : anchor_ok (be_from_anchor e) /\ anchor_ok (be_anchor e);
  eo_words : word_ok 8 (be_snapshot_bytes e) /\ word_ok 8 (be_dust_threshold_sats e) /\ word_ok 4 (be_max_utxos_per_spk e) /\
    word_ok 4 (be_index_bins_per_table e) /\ word_ok 4 (be_chunk_bins_per_table e) /\ word_ok 4 (be_onion_entry_size e);
  eo_signed : signed_ok (be_signed_root_bundle e)
}.

Definition encode_evidence (e : BuildEvidence) : bytes :=
  to_le 2 DB_BUILD_EVIDENCE_VERSION ++ len_encode (be_builder_git_commit e) ++ be_builder_binary_sha256 e ++ len_encode (be_tee_platform e) ++
  len_encode (be_tee_image_measurement e) ++ len_encode (be_core_version e) ++ be_snapshot_sha256 e ++ to_le 8 (be_snapshot_bytes e) ++
  be_network_magic e ++ encode_kind (be_build_kind e) ++ encode_anchor (be_from_anchor e) ++ encode_anchor (be_anchor e) ++ be_utxo_muhash e ++
  to_le 8 (be_dust_threshold_sats e) ++ to_le 4 (be_max_utxos_per_spk e) ++ be_params_hash e ++ to_le 4 (be_index_bins_per_table e) ++
  to_le 4 (be_chunk_bins_per_table e) ++ to_le 4 (be_onion_entry_size e) ++ be_bucket_super_root e ++ be_onion_super_root e ++
  be_root_bundle_payload_sha256 e ++ encode_signed (be_signed_root_bundle e) ++ be_database_manifest e ++ be_all_artifacts_manifest e ++
  be_server_db_manifest e.

Definition evidence_binding (e : BuildEvidence) : CertifiedDbBinding :=
  mkBinding (be_build_kind e) (be_network_magic e) (be_from_anchor e) (be_anchor e) (be_utxo_muhash e) (Some (be_root_bundle_payload_sha256 e)).

(** A successful parse of evidence, and the parse of encoded evidence. *)
Lemma evidence_parsed b bd rest : bytes_ok b -> read_db_build_evidence b = (Ok bd, rest) ->
  exists e, evidence_ok e /\ b = encode_evidence e /\ bd = evidence_binding e.
Proof.
  intros Hb H. unfold read_db_build_evidence in H. repeat parse_step H. injection H as <- <-. rewrite app_nil_r. zbool. subst.
  exists (mkBuildEvidence x1 x0 x2 x3 x4 x5 x6 x7 x8 x9 x10 x11 x12 x13 x14 x15 x16 x17 x18 x19 x20 x21 x22 x23 x24). split; [|done].
  destruct_and?. split; cbn; unfold text_ok, word_ok; rewrite ?Forall_cons; repeat match goal with |- _ /\ _ => split end; (assumption || constructor).
Qed.

Lemma evidence_read e : evidence_ok e -> read_db_build_evidence (encode_evidence e) = (Ok (evidence_binding e), []).
Proof.
  intros [(H1 & H2 & H3) H4 H5 H6 [H7 H8] (H9 & H10 & H11 & H12 & H13 & H14) H15]. rewrite !Forall_cons in H5. destruct H5 as (? & ? & ? & ? & ? & ? & ? & ? & ? & ? & _).
  unfold read_db_build_evidence, encode_evidence. rewrite <-(app_nil_r (be_server_db_manifest e)). read_step. read_step. rewrite Z.eqb_refl. repeat read_step. done.
Qed.

Lemma evidence_returns b : returned (read_db_build_evidence b).1 = true.
Proof. unfold read_db_build_evidence. by repeat returns_step. Qed.

(** ** The root-bundle payload *)

(** The content of a root-bundle payload. *)
Record RootBundle : Type := mkRootBundle {
  rb_network_magic : bytes;
  rb_build_kind : CertifiedBuildKind;
  rb_from_anchor : CertifiedAnchor;
  rb_anchor : CertifiedAnchor;
  rb_utxo_muhash : bytes;
  rb_dust_threshold_sats : Z;
  rb_max_utxos_per_spk : Z;
  rb_params_hash : bytes;
  rb_issued_at : Z;
  rb_roots : list (bytes * bytes)
}.

Definition encode_root (r : bytes * bytes) : bytes := [lenZ r.1] ++ r.1 ++ r.2.
Definition root_ok (r : bytes * bytes) : Prop := canonical_label r.1 = true /\ page_ok 32 r.2.
Definition label_lt (a b : bytes) : Prop := bytes_lt a b = true.

Record bundle_ok (r : RootBundle) : Prop := {
  ro_magic : page_ok 4 (rb_network_magic r);
  ro_anchors : anchor_ok (rb_from_anchor r) /\ anchor_ok (rb_anchor r);
  ro_hashes : page_ok 32 (rb_utxo_muhash r) /\ page_ok 32 (rb_params_hash r);
  ro_words : word_ok 8 (rb_dust_threshold_sats r) /\ word_ok 4 (rb_max_utxos_per_spk r) /\ - 2 ^ 63 <= rb_issued_at r < 2 ^ 63;
  ro_count : 1 <= lenZ (rb_roots r) <= 1024;
  ro_roots : Forall root_ok (rb_roots r);
  ro_sorted : Sorted label_lt (rb_roots r).*1
}.

Definition encode_bundle (r : RootBundle) : bytes :=
  to_le 2 ROOT_BUNDLE_PAYLOAD_VERSION ++ rb_network_magic r ++ encode_kind (rb_build_kind r) ++ encode_anchor (rb_from_anchor r) ++
  encode_anchor (rb_anchor r) ++ rb_utxo_muhash r ++ to_le 8 (rb_dust_threshold_sats r) ++ to_le 4 (rb_max_utxos_per_spk r) ++
  rb_params_hash r ++ i64_encode (rb_issued_at r) ++ to_le 2 (lenZ (rb_roots r)) ++ concat (encode_root <$> rb_roots r).

Definition bundle_binding (r : RootBundle) : CertifiedDbBinding :=
  mkBinding (rb_build_kind r) (rb_network_magic r) (rb_from_anchor r) (rb_anchor r) (rb_utxo_muhash r) None.

Lemma canonical_utf8 label : forallb (fun b => (0x21 <=? b) && (b <=? 0x7E)) label = true -> utf8_valid label = true /\ bytes_ok label.
Proof.
  induction label as [|b label IH]; cbn [forallb utf8_valid]; [by split; [|constructor]|].
  rewrite andb_true_iff. intros [Hb [Hu Hl]%IH]. zbool. rewrite (proj2 (Z.leb_le b 0x7F)) by lia. split; [done|]. constructor; [|done]. unfold is_u8. lia.
Qed.

Lemma canonical_parts label : canonical_label label = true -> 1 <= lenZ label <= 64 /\ utf8_valid label = true /\ bytes_ok label.
Proof.
  unfold canonical_label. rewrite !andb_true_iff. intros [[Hz Hl] Hf]. apply canonical_utf8 in Hf as [Hu Hb]. pose proof (lenZ_nonneg label). zbool.
  split; [|done]. destruct (lenZ label =? 0) eqn:E; [done|]. zbool. lia.
Qed.

Lemma root_read previous r cur : root_ok r -> label_follows previous r.1 = true -> take_root previous (encode_root r ++ cur) = (Ok (Some r.1), cur).
Proof.
  intros [Hc Hh] Hf. destruct (canonical_parts _ Hc) as (Hl & Hu & Hb). unfold take_root, encode_root. rewrite <-!app_assoc. cbn [app].
  rewrite take_u8_bind by (unfold is_u8; lia). fold (take_arr (lenZ r.1) "root label"). rewrite take_arr_bind by done.
  rewrite bind_guardm, Hu, bind_guardm, Hc, bind_guardm, Hf. by rewrite take_arr_bind.
Qed.

Lemma root_only previous cur p rest : bytes_ok cur -> take_root previous cur = (Ok p, rest) ->
  exists r, cur = encode_root r ++ rest /\ root_ok r /\ label_follows previous r.1 = true /\ p = Some r.1 /\ bytes_ok rest.
Proof.
  intros Hc H. unfold take_root in H. parse_step H. rename x into n.
  match goal with Hn : is_u8 n |- _ => assert (0 <= n) as Hn0 by apply Hn end. fold (take_arr n "root label") in H.
  parse_step H. rename x into label. parse_step H. parse_step H. parse_step H. parse_step H. rename x into h. injection H as <- <-.
  exists (label, h). unfold encode_root, root_ok. cbn [fst snd id]. rewrite <-!app_assoc. split_and!; try done.
  match goal with Hl : page_ok n label |- _ => by rewrite (proj1 Hl) end.
Qed.

Lemma root_returns previous cur : returned (take_root previous cur).1 = true.
Proof.
  unfold take_root. apply (bind_returns (take_u8 _)); [apply wire_returns|]. intros n cur'. apply bind_returns; [unfold cur_take; by destruct (_ <? _)|].
  intros label cur''. repeat returns_step. done.
Qed.

(** The labels after [previous]. *)
Definition sorted_after (previous : option bytes) (roots : list (bytes * bytes)) : Prop :=
  Sorted label_lt roots.*1 /\ match previous with Some p => HdRel label_lt p roots.*1 | None => True end.

Lemma sorted_after_cons previous r roots : sorted_after previous (r :: roots) <-> label_follows previous r.1 = true /\ sorted_after (Some r.1) roots.
Proof.
  unfold sorted_after. cbn [fmap list_fmap]. destruct previous as [p|]; cbn [label_follows]; split.
  - intros [Hs Hh]. inversion Hs; subst. inversion Hh; subst. done.
  - intros (Hf & Hs & Hh). split; by constructor.
  - intros [Hs _]. by inversion Hs; subst.
  - intros (_ & Hs & Hh). split; [by constructor|done].
Qed.

Local Abbreviation roots_loop := (fun previous ks => foldM (fun previous_label (_ : Z) => take_root previous_label) previous ks).

Lemma roots_read roots : forall previous (ks : list Z) rest, length ks = length roots -> Forall root_ok roots -> sorted_after previous roots ->
  exists p, roots_loop previous ks (concat (encode_root <$> roots) ++ rest) = (Ok p, rest).
Proof.
  induction roots as [|r roots IH]; intros previous [|i ks] rest Hl Hr Hs; try done.
  { by exists previous. }
  apply Forall_cons in Hr as [Hr Hrs]. apply sorted_after_cons in Hs as [Hf Hs]. cbn [fmap list_fmap concat]. rewrite <-app_assoc.
  cbn [foldM]. rewrite (bind_eq _ _ _ _ _ (root_read _ _ _ Hr Hf)). apply IH; [|done|done]. by injection Hl.
Qed.

Lemma roots_only (ks : list Z) : forall previous cur p rest, bytes_ok cur -> roots_loop previous ks cur = (Ok p, rest) ->
  exists roots, length roots = length ks /\ cur = concat (encode_root <$> roots) ++ rest /\ Forall root_ok roots /\ sorted_after previous roots /\ bytes_ok rest.
Proof.
  induction ks as [|i ks IH]; intros previous cur p rest Hc H.
  { injection H as <- <-. exists []. split_and!; try done. split; [constructor|]. by destruct previous. }
  cbn [foldM] in H. apply bind_Ok_inv in H as (p1 & cur1 & E & H). apply root_only in E as (r & -> & Hr & Hf & -> & Hc1); [|done].
  destruct (IH _ _ _ _ Hc1 H) as (roots & Hl & -> & Hrs & Hs & Hb). exists (r :: roots). cbn [fmap list_fmap concat length]. rewrite <-app_assoc, Hl.
  split_and!; try done; [by constructor|]. by apply sorted_after_cons.
Qed.

Lemma roots_returns (ks : list Z) : forall previous cur, returned (roots_loop previous ks cur).1 = true.
Proof.
  induction ks as [|i ks IH]; intros previous cur; [done|]. cbn [foldM]. apply bind_returns; [apply root_returns|]. intros p cur'. apply IH.
Qed.

Lemma bundle_parsed b bd rest : bytes_ok b -> read_root_bundle_payload b = (Ok bd, rest) ->
  exists r, bundle_ok r /\ b = encode_bundle r /\ bd = bundle_binding r.
Proof.
  intros Hb H. unfold read_root_bundle_payload in H. do 13 parse_step H.
  apply bind_Ok_inv in H as (p & cur' & E & H). apply roots_only in E as (roots & Hl & -> & Hr & [Hs _] & _); [|done]. parse_step H. injection H as <- <-.
  rewrite app_nil_r. zbool. subst x. assert (lenZ roots = x9 /\ 1 <= x9 <= 1024) as [En Hn].
  { rewrite length_seqZ in Hl. unfold lenZ. destruct (x9 =? 0) eqn:E0, (1024 <? x9) eqn:E1; try done. zbool. lia. }
  exists (mkRootBundle x1 x0 x2 x3 x4 x5 x6 x7 x8 roots). split; [|split; [unfold encode_bundle; cbn; by rewrite En|done]].
  split; cbn; unfold word_ok; split_and?; (done || lia).
Qed.

Lemma bundle_read r : bundle_ok r -> read_root_bundle_payload (encode_bundle r) = (Ok (bundle_binding r), []).
Proof.
  intros [H1 [H2 H3] [H4 H5] (H6 & H7 & H8) H9 H10 H11]. unfold read_root_bundle_payload, encode_bundle. rewrite <-(app_nil_r (concat _)).
  assert (0 <= lenZ (rb_roots r) < 256 ^ 2) as Hn by (change (256 ^ 2) with 65536; lia).
  read_step. read_step. rewrite Z.eqb_refl. do 10 read_step. rewrite bind_guardm, (proj2 (Z.eqb_neq _ 0)), (proj2 (Z.ltb_ge _ _)) by lia. cbn [negb orb].
  destruct (roots_read (rb_roots r) None (seqZ 0 (lenZ (rb_roots r))) []) as (p & E); [by rewrite length_seqZ; unfold lenZ; rewrite Nat2Z.id|done|by split|].
  by rewrite (bind_eq _ _ _ _ _ E).
Qed.

Lemma bundle_returns b : returned (read_root_bundle_payload b).1 = true.
Proof. unfold read_root_bundle_payload. do 13 returns_step. apply bind_returns; [apply roots_returns|]. intros. by returns_step. Qed.

(** ** Reading files that do not change *)

Section Reading.
Context {OS : Type} `{Hash} `{Hex}.

(** The outcome of a read, from the files alone. *)
Definition contents (fs : gmap string bytes) (p : FilePath) : outcome bytes := ok_or (fs !! render p) IoError.

(** A computation that only reads: its outcome is [o] and the host is unchanged. *)
Definition reads {A} (m : M (Host OS) A) (h : Host OS) (o : outcome A) : Prop := m h = (o, h).

Lemma reads_bind {A B} (m : M (Host OS) A) (k : A -> M (Host OS) B) h o (k' : A -> outcome B) :
  reads m h o -> (forall a, reads (k a) h (k' a)) -> reads (bind m k) h (obind o k').
Proof. unfold reads, bind. intros -> Hk. by destruct o. Qed.
Lemma reads_lift {A} (o : outcome A) h : reads (lift o) h o. Proof. done. Qed.
Lemma reads_ret {A} (a : A) h : reads (ret a) h (Ok a). Proof. done. Qed.
Lemma reads_guardm b e h : reads (guardm b e) h (guardo b e). Proof. by destruct b. Qed.

Lemma reads_fs_read p (h : Host OS) : faults h = [] -> reads (fs_read p) h (contents (files h) p).
Proof.
  intros Hf. unfold reads, fs_read, next_fault, bind, gets, contents. destruct h as [fs l o]. cbn in *. subst l. cbn. by destruct (fs !! render p).
Qed.

Lemma reads_sha256_reads fuel rest hashed n (h : Host OS) : faults h = [] -> (length rest < fuel)%nat ->
  reads (sha256_reads fuel rest hashed n) h (Ok (sha256 (hashed ++ rest), n + lenZ rest)).
Proof.
  intros Hf. unfold reads. revert rest hashed n. induction fuel as [|fuel IH]; intros rest hashed n Hl; [lia|]. cbn [sha256_reads].
  rewrite (bind_eq _ _ _ _ _ (no_fault h Hf)). destruct rest as [|x rest].
  { rewrite take_nil, app_nil_r. unfold ret. do 3 f_equal. change (lenZ (@nil Z)) with 0. lia. }
  rewrite (proj2 (Z.eqb_neq _ _)) by (change READ_BUFFER with 1048576; unfold lenZ; rewrite length_take; cbn [length]; lia).
  rewrite IH.
  - rewrite <-app_assoc, take_drop. do 3 f_equal. rewrite <-(take_drop (Z.to_nat READ_BUFFER) (x :: rest)) at 3. rewrite lenZ_app. lia.
  - rewrite length_drop. change READ_BUFFER with 1048576. cbn [length] in *. lia.
Qed.

Lemma reads_sha256_file p (h : Host OS) : faults h = [] -> reads (sha256_file p) h (let? b := contents (files h) p in Ok (sha256 b, lenZ b)).
Proof.
  intros Hf. apply reads_bind; [by apply reads_fs_read|]. intros b. apply (reads_sha256_reads (S (length b)) b [] 0 h Hf). lia.
Qed.

Lemma returned_obind {A B} (o : outcome A) (k : A -> outcome B) : returned o = true -> (forall a, returned (k a) = true) -> returned (obind o k) = true.
Proof. destruct o; cbn; auto. Qed.
Lemma returned_guardo b e : returned (guardo b e) = true. Proof. by destruct b. Qed.
Lemma returned_contents fs p : returned (contents fs p) = true. Proof. unfold contents. by destruct (fs !! _). Qed.

Lemma guardo_Ok_iff b e u : guardo b e = Ok u <-> b = true.
Proof. destruct u, b; cbn; naive_solver. Qed.
Lemma contents_Ok_iff fs p b : contents fs p = Ok b <-> fs !! render p = Some b.
Proof. unfold contents. destruct (fs !! _); cbn; naive_solver. Qed.

End Reading.

(** ** Bound builds *)

Section Binding.
Context {OS : Type} `{Hash} `{Hex}.

Definition same_database (a b : CertifiedDbBinding) : Prop :=
  build_kind a = build_kind b /\ network_magic a = network_magic b /\ from_anchor a = from_anchor b /\ anchor a = anchor b /\ to_muhash a = to_muhash b.

(** The certified database of the evidence files that are given: when both are, the
    evidence names the hash of the payload and the two agree. *)
Definition certified_by (fs : gmap string bytes) (inputs : DirectBuildEvidenceInputs) (c : option CertifiedDbBinding) : Prop :=
  match in_db_build_evidence inputs, in_root_bundle_payload inputs with
  | None, None => c = None
  | Some p, None => exists b bd, fs !! render p = Some b /\ decode_db_build_evidence_binding b = Ok bd /\ c = Some bd
  | None, Some q => exists b bd, fs !! render q = Some b /\ decode_root_bundle_payload_binding b = Ok bd /\ c = Some bd
  | Some p, Some q => exists b bd b' bd', fs !! render p = Some b /\ decode_db_build_evidence_binding b = Ok bd /\
      fs !! render q = Some b' /\ decode_root_bundle_payload_binding b' = Ok bd' /\
      root_bundle_payload_sha256 bd = Some (sha256 b') /\ same_database bd bd' /\ c = Some bd
  end.

Definition source_evidence (info : DirectTableInfo) (record_size : Z) (b : bytes) : DirectSourceFileEvidence :=
  mkSourceEvidence (direct_label (dti_level info)) (render (dti_path info)) (hex_encode (sha256 b)) (lenZ b) (dti_records info) record_size (sha256 b).

(** The sources are the files, of the length the table information saw. *)
Definition sources_of (fs : gmap string bytes) (index chunks : DirectTableInfo) (s : DirectSourceFilesEvidence) : Prop :=
  exists bi bc, fs !! render (dti_path index) = Some bi /\ lenZ bi = dti_file_bytes index /\
    fs !! render (dti_path chunks) = Some bc /\ lenZ bc = dti_file_bytes chunks /\
    s = mkSourcesEvidence (source_evidence index 25 bi) (source_evidence chunks 40 bc).

(** What is checked of the command line: the expected source hashes are those of the
    sources; an expected MuHash is that of the certified evidence, when evidence is
    given; a starting MuHash comes with a delta build, when evidence is given (its value
    is compared with nothing); a strict build has evidence and both source hashes. *)
Record binding_holds (inputs : DirectBuildEvidenceInputs) (s : DirectSourceFilesEvidence) (c : option CertifiedDbBinding) : Prop := {
  bh_index : forall x, expected_index_sha256 inputs = Some x -> sf_sha256_bytes (sfs_index s) = x;
  bh_chunks : forall x, expected_chunks_sha256 inputs = Some x -> sf_sha256_bytes (sfs_chunks s) = x;
  bh_muhash : forall m bd, expected_muhash inputs = Some m -> c = Some bd -> to_muhash bd = m;
  bh_from : forall m bd, expected_from_muhash inputs = Some m -> c = Some bd -> build_kind bd = KindDelta;
  bh_strict : strict_source_binding inputs = true -> is_Some c /\ is_Some (expected_index_sha256 inputs) /\ is_Some (expected_chunks_sha256 inputs)
}.

Lemma compare_Ok_iff label a b u : compare_certified_binding label a b = Ok u <-> same_database a b.
Proof.
  unfold compare_certified_binding, expect_muhash, same_database.
  rewrite obind_Ok; setoid_rewrite obind_Ok; setoid_rewrite obind_Ok; setoid_rewrite obind_Ok.
  repeat setoid_rewrite guardo_Ok_iff. repeat setoid_rewrite bool_decide_eq_true. naive_solver.
Qed.
Lemma returned_compare label a b : returned (compare_certified_binding label a b) = true.
Proof. repeat (apply returned_obind; [apply returned_guardo|intros ?]). apply returned_guardo. Qed.

Lemma validate_Ok_iff inputs s c u : validate_direct_build_binding inputs s c = Ok u <-> binding_holds inputs s c.
Proof.
  unfold validate_direct_build_binding, expect_raw_hash, expect_muhash. destruct u. split.
  - intros H1. apply obind_Ok in H1 as ([] & Hi & H1). apply obind_Ok in H1 as ([] & Hc & H1). apply obind_Ok in H1 as ([] & Hm & H1).
    apply obind_Ok in H1 as ([] & Hf & H1). split.
    + intros x E. rewrite E in Hi. apply guardo_Ok_iff, bool_decide_eq_true in Hi. done.
    + intros x E. rewrite E in Hc. apply guardo_Ok_iff, bool_decide_eq_true in Hc. done.
    + intros m bd Em Ec. rewrite Em, Ec in Hm. apply guardo_Ok_iff, bool_decide_eq_true in Hm. done.
    + intros m bd Em Ec. rewrite Em, Ec in Hf. apply guardo_Ok_iff in Hf. rewrite bool_decide_eq_true_2, andb_true_l, negb_involutive in Hf by done. by apply bool_decide_eq_true in Hf.
    + intros Es. rewrite Es in H1. apply obind_Ok in H1 as ([] & Hs%guardo_Ok_iff & H1%guardo_Ok_iff). apply andb_true_iff in H1 as [H1 H2].
      apply bool_decide_eq_true in Hs, H1, H2. done.
  - intros [Hi Hc Hm Hf Hs].
    assert (forall A (o : option A) (f : A -> outcome unit), (forall x, o = Some x -> f x = Ok tt) -> match o with Some x => f x | None => Ok tt end = Ok tt) as Ho
      by (intros A [x|] f Hx; auto).
    rewrite !Ho by (intros x Ex; apply guardo_Ok_iff, bool_decide_eq_true; symmetry; auto). cbn [obind].
    rewrite Ho by (intros m Em; destruct c as [bd|]; [apply guardo_Ok_iff, bool_decide_eq_true; symmetry; eauto|done]). cbn [obind].
    rewrite (proj2 (guardo_Ok_iff _ _ tt)); cbn [obind].
    + destruct (strict_source_binding inputs); [|done]. destruct (Hs eq_refl) as (Hs1 & Hs2 & Hs3). by rewrite !bool_decide_eq_true_2.
    + destruct (expected_from_muhash inputs) as [m|] eqn:Em, c as [bd|]; try done. by rewrite (bool_decide_eq_true_2 (build_kind bd = _)) by eauto.
Qed.

Lemma returned_validate inputs s c : returned (validate_direct_build_binding inputs s c) = true.
Proof.
  unfold validate_direct_build_binding. repeat (apply returned_obind; [repeat case_match; done || apply returned_guardo|intros ?]).
  destruct (strict_source_binding inputs); [|done]. apply returned_obind; [apply returned_guardo|intros ?]. apply returned_guardo.
Qed.

Lemma reads_source_evidence info size (h : Host OS) : faults h = [] -> reads (direct_source_file_evidence info size) h
  (let? b := contents (files h) (dti_path info) in let? _ := guardo (lenZ b =? dti_file_bytes info)
     (InvalidInput "direct {} source {} changed while hashing: metadata saw {} bytes, hash saw {}") in Ok (source_evidence info size b)).
Proof.
  intros Hf. unfold reads, direct_source_file_evidence. eapply eq_trans.
  - apply (reads_bind _ _ h _ (fun hashed => let? _ := guardo (hashed.2 =? dti_file_bytes info)
      (InvalidInput "direct {} source {} changed while hashing: metadata saw {} bytes, hash saw {}") in
      Ok (mkSourceEvidence (direct_label (dti_level info)) (render (dti_path info)) (hex_encode hashed.1) hashed.2 (dti_records info) size hashed.1))
      (reads_sha256_file (dti_path info) h Hf)).
    intros a. apply reads_bind; [apply reads_guardm|]. intros _. apply reads_ret.
  - by destruct (contents _ _).
Qed.

Lemma load_certified_reads inputs (h : Host OS) : faults h = [] ->
  exists o, reads (load_certified_db_binding inputs) h o /\ returned o = true /\ forall c, o = Ok c <-> certified_by (files h) inputs c.
Proof.
  intros Hf. set (root := fun (binding : option CertifiedDbBinding) => match in_root_bundle_payload inputs with
    | None => Ok binding
    | Some q => let? b := contents (files h) q in let? bd' := decode_root_bundle_payload_binding b in
        match binding with
        | Some bd => let? _ := guardo (bool_decide (root_bundle_payload_sha256 bd = Some (sha256 b)))
                         (InvalidInput "root bundle payload hash mismatch: db evidence expects {}, got {}") in
                     let? _ := compare_certified_binding "root-bundle-payload" bd bd' in Ok (Some bd)
        | None => Ok (Some bd')
        end
    end).
  exists (let? binding := match in_db_build_evidence inputs with
      | Some p => let? b := contents (files h) p in let? bd := decode_db_build_evidence_binding b in Ok (Some bd)
      | None => Ok None
      end in root binding).
  split; [|split].
  - apply reads_bind.
    + destruct (in_db_build_evidence inputs); [|apply reads_ret]. apply reads_bind; [by apply reads_fs_read|]. intros b. apply reads_bind; [apply reads_lift|]. intros bd. apply reads_ret.
    + intros binding. unfold root. destruct (in_root_bundle_payload inputs); [|apply reads_ret]. apply reads_bind; [by apply reads_fs_read|]. intros b.
      apply reads_bind; [apply reads_lift|]. intros bd'. destruct binding; [|apply reads_ret]. apply reads_bind; [apply reads_guardm|]. intros _.
      apply reads_bind; [apply reads_lift|]. intros _. apply reads_ret.
  - apply returned_obind.
    + destruct (in_db_build_evidence inputs); [|done]. apply returned_obind; [apply returned_contents|]. intros b. apply returned_obind; [apply evidence_returns|done].
    + intros binding. unfold root. destruct (in_root_bundle_payload inputs); [|done]. apply returned_obind; [apply returned_contents|]. intros b.
      apply returned_obind; [apply bundle_returns|]. intros bd'. destruct binding; [|done]. apply returned_obind; [apply returned_guardo|]. intros _.
      apply returned_obind; [apply returned_compare|done].
  - intros c. unfold root, certified_by. destruct (in_db_build_evidence inputs) as [p|], (in_root_bundle_payload inputs) as [q|]; cbn [obind];
      repeat setoid_rewrite obind_Ok; repeat setoid_rewrite contents_Ok_iff.
    + split.
      * intros (bnd & (b & Hb & bd & Hbd & [= <-]) & b' & Hb' & bd' & Hbd' & Hr). apply obind_Ok in Hr as ([] & Hg%guardo_Ok_iff%bool_decide_eq_true & Hr).
        apply obind_Ok in Hr as ([] & Hsame%compare_Ok_iff & [= <-]). exists b, bd, b', bd'. done.
      * intros (b & bd & b' & bd' & Hb & Hbd & Hb' & Hbd' & Hg & Hsame & ->). exists (Some bd). split; [by eauto|]. exists b'. split; [done|]. exists bd'. split; [done|].
        rewrite Hg, bool_decide_eq_true_2 by done. cbn [guardo obind]. by rewrite (proj2 (compare_Ok_iff _ _ _ tt) Hsame).
    + naive_solver.
    + naive_solver.
    + naive_solver.
Qed.

(** The outcome of the checks, from the files alone *)
Lemma bind_sources_spec (h : Host OS) index chunks inputs :
  faults h = [] -> dti_level index = DirectIndex -> dti_level chunks = DirectChunk ->
  exists r, bind_sources [index; chunks] inputs h = (r, h) /\ returned r = true /\
    forall s c, r = Ok (s, c) <-> sources_of (files h) index chunks s /\ certified_by (files h) inputs c /\ binding_holds inputs s c.
Proof.
  intros Hf Hi Hc. destruct (load_certified_reads inputs h Hf) as (o & Ho & Hor & Hoc).
  set (src := fun info size => let? b := contents (files h) (dti_path info) in let? _ := guardo (lenZ b =? dti_file_bytes info)
     (InvalidInput "direct {} source {} changed while hashing: metadata saw {} bytes, hash saw {}") in Ok (source_evidence info size b)).
  assert (forall info size, returned (src info size) = true) as Hsr.
  { intros info size. apply returned_obind; [apply returned_contents|]. intros b. apply returned_obind; [apply returned_guardo|done]. }
  assert (forall info size x, src info size = Ok x <-> exists b, files h !! render (dti_path info) = Some b /\ lenZ b = dti_file_bytes info /\ x = source_evidence info size b) as Hs.
  { intros info size x. unfold src. rewrite obind_Ok. setoid_rewrite obind_Ok. setoid_rewrite guardo_Ok_iff. setoid_rewrite contents_Ok_iff. setoid_rewrite Z.eqb_eq. naive_solver. }
  exists (let? s := (let? i := src index 25 in let? c := src chunks 40 in Ok (mkSourcesEvidence i c)) in
    let? c := o in let? _ := validate_direct_build_binding inputs s c in Ok (s, c)). split; [|split].
  - apply reads_bind.
    + unfold direct_source_files_evidence, find_level. cbn [find]. rewrite Hi, bool_decide_eq_true_2 by done.
      rewrite (bool_decide_eq_false_2 (DirectIndex = DirectChunk)), Hc, (bool_decide_eq_true_2 (DirectChunk = DirectChunk)) by done.
      change 25 with DIRECT_INDEX_INPUT_RECORD_SIZE. change 40 with DIRECT_CHUNK_RECORD_SIZE.
      unfold reads. rewrite !bind_lift. apply reads_bind; [by apply reads_source_evidence|]. intros i.
      apply reads_bind; [by apply reads_source_evidence|]. intros c. apply reads_ret.
    + intros s. apply reads_bind; [done|]. intros c. apply reads_bind; [apply reads_lift|]. intros _. apply reads_ret.
  - apply returned_obind; [apply returned_obind; [done|]; intros i; by apply returned_obind|]. intros s. apply returned_obind; [done|]. intros c.
    apply returned_obind; [apply returned_validate|done].
  - intros s c. unfold sources_of. split.
    + intros E. apply obind_Ok in E as (s' & E1 & E). apply obind_Ok in E1 as (i & (bi & Hbi & Hli & ->)%Hs & E1).
      apply obind_Ok in E1 as (c' & (bc & Hbc & Hlc & ->)%Hs & [= <-]). apply obind_Ok in E as (c'' & Hcc%Hoc & E).
      apply obind_Ok in E as ([] & Hv%validate_Ok_iff & [= <- <-]). split; [|done]. by exists bi, bc.
    + intros ((bi & bc & Hbi & Hli & Hbc & Hlc & ->) & Hcc & Hv). rewrite (proj2 (Hs index 25 _) (ex_intro _ bi (conj Hbi (conj Hli eq_refl)))).
      cbn [obind]. rewrite (proj2 (Hs chunks 40 _) (ex_intro _ bc (conj Hbc (conj Hlc eq_refl)))). cbn [obind].
      rewrite (proj2 (Hoc c) Hcc). cbn [obind]. by rewrite (proj2 (validate_Ok_iff _ _ _ tt) Hv).
Qed.

(** The same command line with another starting MuHash. *)
Definition with_from_muhash (m : bytes) (inputs : DirectBuildEvidenceInputs) : DirectBuildEvidenceInputs :=
  mkInputs (in_db_build_evidence inputs) (in_root_bundle_payload inputs) (expected_muhash inputs) (Some m)
    (expected_index_sha256 inputs) (expected_chunks_sha256 inputs) (strict_source_binding inputs).

(** C21: the checks made before a direct build, when no read fails, always return,
    change no file and succeed exactly when the source files have the length the table
    information saw, the evidence files that are given parse and agree, the expected
    hash of each source is its hash, the expected MuHash is the certified one (if
    evidence is given), a starting MuHash is given to no snapshot build (if evidence is
    given) and, for a strict build, there are evidence and the expected hashes of both
    sources.  The value of the starting MuHash makes no difference to any of this. *)
Theorem source_binding_exact (h : Host OS) index chunks inputs :
  faults h = [] -> dti_level index = DirectIndex -> dti_level chunks = DirectChunk ->
  (exists r, bind_sources [index; chunks] inputs h = (r, h) /\ returned r = true /\
    forall s c, r = Ok (s, c) <-> sources_of (files h) index chunks s /\ certified_by (files h) inputs c /\ binding_holds inputs s c) /\
  (forall m m', expected_from_muhash inputs = Some m ->
    bind_sources [index; chunks] (with_from_muhash m' inputs) h = bind_sources [index; chunks] inputs h).
Proof.
  intros Hf Hi Hc. split; [by apply bind_sources_spec|]. intros m m' Hm. destruct inputs as [p q mu from i k strict]. simpl in Hm. subst from. done.
Qed.

(** The starting MuHash of a delta build: the value is recorded, and no check reads it. *)
Lemma from_muhash_unchecked p q mu i k strict m m' s c :
  validate_direct_build_binding (mkInputs p q mu (Some m) i k strict) s c = validate_direct_build_binding (mkInputs p q mu (Some m') i k strict) s c /\
  ce_from_muhash_hex (build_db_certification_evidence (mkInputs p q mu (Some m) i k strict) c) = Some (muhash_display_hex m).
Proof. done. Qed.

(** A displayed MuHash parses to itself. *)
Lemma muhash_display_roundtrip `{!HexLaws} h : page_ok 32 h -> parse_muhash_display_hex (muhash_display_hex h) = Ok h.
Proof.
  intros [Hl Hb]. unfold parse_muhash_display_hex, muhash_display_hex, parse_32_hex. rewrite hex_roundtrip by (by apply Forall_reverse). cbn [ok_or obind].
  unfold lenZ in *. rewrite length_reverse, Hl. cbn. by rewrite reverse_involutive.
Qed.

End Binding.

(** ** Properties *)

(** C27: the decoder of the database builder's evidence returns on every input and
    accepts exactly the encodings of well-formed evidence: texts are UTF-8 and at most
    65535 bytes, the build kind is 0 or 1, the option tag is 0 or 1, nothing follows;
    it yields the certified fields of that evidence. *)
Theorem db_build_evidence_decodes (b : bytes) : bytes_ok b ->
  returned (decode_db_build_evidence_binding b) = true /\
  forall bd, decode_db_build_evidence_binding b = Ok bd <-> exists e, evidence_ok e /\ b = encode_evidence e /\ bd = evidence_binding e.
Proof.
  intros Hb. split; [apply evidence_returns|]. unfold decode_db_build_evidence_binding. intros bd. split.
  - intros H. apply (evidence_parsed b bd (read_db_build_evidence b).2 Hb). destruct (read_db_build_evidence b). cbn in *. by subst.
  - intros (e & He & -> & ->). by rewrite evidence_read.
Qed.

(** The decoder of a root-bundle payload returns on every input and accepts exactly
    the encodings of payloads with 1 to 1024 roots whose labels are canonical and
    strictly increasing. *)
Theorem root_bundle_payload_decodes (b : bytes) : bytes_ok b ->
  returned (decode_root_bundle_payload_binding b) = true /\
  forall bd, decode_root_bundle_payload_binding b = Ok bd <-> exists r, bundle_ok r /\ b = encode_bundle r /\ bd = bundle_binding r.
Proof.
  intros Hb. split; [apply bundle_returns|]. unfold decode_root_bundle_payload_binding. intros bd. split.
  - intros H. apply (bundle_parsed b bd (read_root_bundle_payload b).2 Hb). destruct (read_root_bundle_payload b). cbn in *. by subst.
  - intros (r & Hr & -> & ->). by rewrite bundle_read.
Qed.

(** ** Concrete documents *)

Definition hex_digit (n : Z) : Ascii.ascii := Ascii.ascii_of_N (Z.to_N (if n <? 10 then 48 + n else 87 + n)).
Definition hex_value (c : Ascii.ascii) : option Z :=
  let n := Z.of_N (Ascii.N_of_ascii c) in
  if (48 <=? n) && (n <=? 57) then Some (n - 48) else if (97 <=? n) && (n <=? 102) then Some (n - 87) else None.
Fixpoint hex_read (s : string) : option bytes :=
  match s with
  | EmptyString => Some []
  | String a (String b s) => match hex_value a, hex_value b, hex_read s with Some x, Some y, Some r => Some (16 * x + y :: r) | _, _, _ => None end
  | _ => None
  end.
#[export] Instance plain_hex : Hex := {|
  hex_encode := fun b => foldr (fun x s => String (hex_digit (x / 16)) (String (hex_digit (x mod 16)) s)) EmptyString b;
  hex_decode := hex_read
|}.

Definition demo_anchor (x : Z) : CertifiedAnchor := mkAnchor (replicate 32 x) 840000.
Definition demo_bundle : RootBundle :=
  mkRootBundle [249; 190; 180; 217] KindDelta (demo_anchor 1) (demo_anchor 2) (replicate 32 3) 546 100 (replicate 32 4) (-5)
    [(ascii_bytes "chunk/0", replicate 32 5); (ascii_bytes "index/0", replicate 32 6)].
Definition demo_evidence : BuildEvidence :=
  mkBuildEvidence (ascii_bytes "deadbeef") (replicate 32 7) (ascii_bytes "sev-snp") [1; 2; 3] [0xE2; 0x82; 0xAC] (replicate 32 8) 1000
    [249; 190; 180; 217] KindDelta (demo_anchor 1) (demo_anchor 2) (replicate 32 3) 546 100 (replicate 32 4) 2 2 3840 (replicate 32 9) (replicate 32 10)
    (sha256 (encode_bundle demo_bundle)) (Some (replicate 32 11)) (replicate 32 12) (replicate 32 13) (replicate 32 14).

Lemma all_bytes (l : bytes) : forallb (fun b => (0 <=? b) && (b <? 256)) l = true -> bytes_ok l.
Proof. intros Hl. apply Forall_forall. intros x Hx. rewrite forallb_forall in Hl. specialize (Hl x (proj1 (list_elem_of_In _ _) Hx)). unfold is_u8. lia. Qed.
Lemma replicate_page n x : 0 <= x < 256 -> 0 <= n -> page_ok n (replicate (Z.to_nat n) x).
Proof. intros Hx Hn. split; [unfold lenZ; rewrite length_replicate; lia|]. by apply Forall_replicate. Qed.

Ltac demo_fields := match goal with
  | |- _ /\ _ => split; demo_fields
  | |- Forall _ [] => constructor
  | |- Forall _ _ => constructor; demo_fields
  | |- page_ok _ _ => split; [by vm_compute|apply all_bytes; by vm_compute]
  | |- anchor_ok _ => split; demo_fields
  | |- text_ok _ => split; demo_fields
  | |- root_ok _ => split; demo_fields
  | |- signed_ok _ => hnf; demo_fields
  | |- Sorted _ _ => repeat constructor
  | |- bytes_ok _ => apply all_bytes; by vm_compute
  | |- _ => by vm_compute
  end.

Lemma demo_evidence_ok : evidence_ok demo_evidence.
Proof. split; demo_fields. Qed.
Lemma demo_bundle_ok : bundle_ok demo_bundle.
Proof. split; demo_fields. Qed.

Lemma db_build_evidence_decodes_witness : bytes_ok (encode_evidence demo_evidence) /\
  decode_db_build_evidence_binding (encode_evidence demo_evidence) = Ok (evidence_binding demo_evidence).
Proof.
  assert (bytes_ok (encode_evidence demo_evidence)) as Hb by (apply all_bytes; by vm_compute). split; [exact Hb|].
  apply (db_build_evidence_decodes (encode_evidence demo_evidence) Hb). exists demo_evidence. split; [exact demo_evidence_ok|done].
Defined.

Lemma root_bundle_payload_decodes_witness : bytes_ok (encode_bundle demo_bundle) /\
  decode_root_bundle_payload_binding (encode_bundle demo_bundle) = Ok (bundle_binding demo_bundle).
Proof.
  assert (bytes_ok (encode_bundle demo_bundle)) as Hb by (apply all_bytes; by vm_compute). split; [exact Hb|].
  apply (root_bundle_payload_decodes (encode_bundle demo_bundle) Hb). exists demo_bundle. split; [exact demo_bundle_ok|done].
Defined.

(** A strict build of two small sources against both documents. *)
Definition demo_index_path : FilePath := mkPath "src/" "utxo_chunks_index_nodust" (Some "bin"%string).
Definition demo_chunks_path : FilePath := mkPath "src/" "utxo_chunks_nodust" (Some "bin"%string).
Definition demo_evidence_path : FilePath := mkPath "db/" "build-evidence" (Some "bin"%string).
Definition demo_payload_path : FilePath := mkPath "db/" "payload" None.
Definition demo_index_file : bytes := replicate 25 1.
Definition demo_chunks_file : bytes := replicate 40 2.
Definition demo_bind_host : Host unit :=
  mkHost (<[render demo_index_path := demo_index_file]> (<[render demo_chunks_path := demo_chunks_file]>
    (<[render demo_evidence_path := encode_evidence demo_evidence]> {[ render demo_payload_path := encode_bundle demo_bundle ]}))) [] tt.
Definition demo_index_info : DirectTableInfo := mkDirectInfo DirectIndex demo_index_path 25 1 4 2 f64_1 0 1 104.
Definition demo_chunks_info : DirectTableInfo := mkDirectInfo DirectChunk demo_chunks_path 40 1 1 0 f64_1 0 1 40.
Definition demo_inputs : DirectBuildEvidenceInputs :=
  mkInputs (Some demo_evidence_path) (Some demo_payload_path) (Some (replicate 32 3)) None (Some (sha256 demo_index_file)) (Some (sha256 demo_chunks_file)) true.

Lemma source_binding_exact_witness :
  exists s, bind_sources [demo_index_info; demo_chunks_info] demo_inputs demo_bind_host = (Ok (s, Some (evidence_binding demo_evidence)), demo_bind_host).
Proof.
  destruct (source_binding_exact demo_bind_host demo_index_info demo_chunks_info demo_inputs) as [(r & E & _ & Hr) _]; [reflexivity..|].
  exists (mkSourcesEvidence (source_evidence demo_index_info 25 demo_index_file) (source_evidence demo_chunks_info 40 demo_chunks_file)).
  rewrite E. f_equal. apply Hr. split; [|split].
  - exists demo_index_file, demo_chunks_file. split_and!; vm_compute; reflexivity.
  - exists (encode_evidence demo_evidence), (evidence_binding demo_evidence), (encode_bundle demo_bundle), (bundle_binding demo_bundle).
    split_and!; (vm_compute; reflexivity) || idtac. split_and!; reflexivity.
  - split.
    + intros x [= <-]. reflexivity.
    + intros x [= <-]. reflexivity.
    + intros m bd [= <-] [= <-]. reflexivity.
    + intros m bd Hm. discriminate Hm.
    + intros _. split_and!; eexists; reflexivity.
Defined.
