(* ===== verification/Disk.v ===== *)
(** * What a store leaves on disk

    The command-line tool drops its stores and opens the image files again.
    [DiskStore] states what this rests on: after [flush] the file under the store
    holds every page, as the layers of the store encode it.  [Keyed] says that no
    operation changes the key of a store.  Both are shown for every layer:
    [FilePageStore], [AeadPageStore], [FrontCachedPageStore] and the sum of two
    stores, which models [Box<dyn PageStore>]. *)

From S2P Require Import Prelude Params Store Writable FileStore Aead FrontCache.

(** ** Boxed stores: [impl PageStore for Box<T>] ([src/src/store.rs]) *)

Section Sum.
Context {A B : Type} `{PageStore A} `{PageStore B}.

Definition on_sum {X} (ma : M A X) (mb : M B X) : M (A + B) X := fun s =>
  match s with
  | inl a => let (r, a') := ma a in (r, inl a')
  | inr b => let (r, b') := mb b in (r, inr b')
  end.

#[export] Instance sum_page_store : PageStore (A + B) := {|
  ps_page_size := fun s => match s with inl a => ps_page_size a | inr b => ps_page_size b end;
  ps_page_count := fun s => match s with inl a => ps_page_count a | inr b => ps_page_count b end;
  ps_read_page := fun i out => on_sum (ps_read_page i out) (ps_read_page i out);
  ps_write_page := fun i page => on_sum (ps_write_page i page) (ps_write_page i page);
  ps_read_pages := fun idxs => on_sum (ps_read_pages idxs) (ps_read_pages idxs);
  ps_write_pages := fun idxs pages => on_sum (ps_write_pages idxs pages) (ps_write_pages idxs pages);
  ps_flush := on_sum ps_flush ps_flush;
  ps_tiered_merkle_state := fun s => match s with inl a => ps_tiered_merkle_state a | inr b => ps_tiered_merkle_state b end
|}.

End Sum.

Section SumLawful.
Context {A B : Type} `{LawfulPageStore A} `{LawfulPageStore B}.

#[export] Instance sum_lawful : LawfulPageStore (A + B).
Proof.
  refine {| ps_ok := fun s => match s with inl a => ps_ok a | inr b => ps_ok b end;
            ps_content := fun s => match s with inl a => ps_content a | inr b => ps_content b end |}.
  all: try (intros [a|b]; cbn; intros; first [by apply ps_content_ok | by apply ps_dims_ok]).
  - intros [s|s] i out Hs Hi Ho; destruct (ps_read_page_ok s i out Hs Hi Ho) as (s' & E & Hn);
      [exists (inl s')|exists (inr s')]; (split; [cbn; by rewrite E|exact Hn]).
  - intros [s|s] i page Hs Hi Ho; destruct (ps_write_page_ok s i page Hs Hi Ho) as (s' & E & Hn);
      [exists (inl s')|exists (inr s')]; (split; [cbn; by rewrite E|exact Hn]).
  - intros [s|s] idxs Hs Hi; destruct (ps_read_pages_ok s idxs Hs Hi) as (s' & E & Hn);
      [exists (inl s')|exists (inr s')]; (split; [cbn; by rewrite E|exact Hn]).
  - intros [s|s] idxs pages Hs Hi Hp Hl; destruct (ps_write_pages_ok s idxs pages Hs Hi Hp Hl) as (s' & E & Hn);
      [exists (inl s')|exists (inr s')]; (split; [cbn; by rewrite E|exact Hn]).
  - intros [s|s] Hs; destruct (ps_flush_ok s Hs) as (s' & E & Hn);
      [exists (inl s')|exists (inr s')]; (split; [cbn; by rewrite E|exact Hn]).
Defined.

End SumLawful.

#[export] Instance sum_writable {A B} `{WritableStore A} `{WritableStore B} : WritableStore (A + B).
Proof.
  refine {| ws_ok := fun s => match s with inl a => ws_ok a | inr b => ws_ok b end;
            ws_holds := fun s => match s with inl a => ws_holds a | inr b => ws_holds b end |}.
  intros [s|s] i page Hs Hi Ho; destruct (ws_write_page_ok s i page Hs Hi Ho) as (s' & E & Hn);
      [exists (inl s')|exists (inr s')]; (split; [cbn; by rewrite E|exact Hn]).
Defined.

(** ** Operations that keep a component of the state *)

Definition keeps {S K A} (k : S -> K) (m : M S A) : Prop := forall s, k (m s).2 = k s.

Section Keeps.
Context {S K : Type} (k : S -> K).

Lemma keeps_pure {A} (m : M S A) : (forall s, (m s).2 = s) -> keeps k m.
Proof. intros Hm s. by rewrite Hm. Qed.
Lemma keeps_bind {A B} (m : M S A) (f : A -> M S B) : keeps k m -> (forall a, keeps k (f a)) -> keeps k (bind m f).
Proof.
  intros Hm Hf s. unfold bind. specialize (Hm s). destruct (m s) as [[a| | |] s1]; cbn in *; [|done..]. by rewrite Hf.
Qed.
Lemma keeps_guardm b e : keeps k (guardm b e).
Proof. apply keeps_pure. by destruct b. Qed.
Lemma keeps_modify f : (forall s, k (f s) = k s) -> keeps k (modify f).
Proof. intros Hf s. apply Hf. Qed.
Lemma keeps_zoom {T A} (get : S -> T) put (m : M T A) : (forall s t, t = (m (get s)).2 -> k (put t s) = k s) -> keeps k (zoom get put m).
Proof. intros Hp s. unfold zoom. specialize (Hp s). destruct (m (get s)). by apply Hp. Qed.
Lemma keeps_mapM {A B} (f : A -> M S B) l : (forall a, keeps k (f a)) -> keeps k (mapM f l).
Proof.
  intros Hf. induction l; cbn [mapM]; [by apply keeps_pure|].
  apply keeps_bind; [done|intros]. apply keeps_bind; [done|intros]. by apply keeps_pure.
Qed.
Lemma keeps_iterM {A} (f : A -> M S unit) l : (forall a, keeps k (f a)) -> keeps k (iterM f l).
Proof. intros Hf. induction l; cbn [iterM]; [by apply keeps_pure|]. by apply keeps_bind. Qed.

Lemma keeps_foldM {A B} (f : B -> A -> M S B) b l : (forall b a, keeps k (f b a)) -> keeps k (foldM f b l).
Proof. intros Hf. revert b. induction l; intros b; cbn [foldM]; [by apply keeps_pure|]. by apply keeps_bind. Qed.

End Keeps.

(** Walk through a method body. *)
Ltac keeps_step :=
  match goal with
  | |- forall _, _ => intros ?
  | |- keeps _ (bind _ _) => apply keeps_bind
  | |- keeps _ (guardm _ _) => apply keeps_guardm
  | |- keeps _ (mapM _ _) => apply keeps_mapM
  | |- keeps _ (iterM _ _) => apply keeps_iterM
  | |- keeps _ (foldM _ _ _) => apply keeps_foldM
  | |- keeps _ (if ?b then _ else _) => destruct b
  | |- keeps _ (let '(_, _) := ?x in _) => destruct x
  | |- keeps _ (gets _) => by apply keeps_pure
  | |- keeps _ (ret _) => by apply keeps_pure
  | |- keeps _ panic => by apply keeps_pure
  | |- keeps _ (fail _) => by apply keeps_pure
  | |- keeps _ (lift _) => by apply keeps_pure
  | |- keeps _ (modify _) => by apply keeps_modify
  end.
Ltac keeps_tac := repeat keeps_step; try done.

(** No operation of the store changes its key. *)
Class Keyed (K S : Type) `{PageStore S} : Type := {
  key_of : S -> K;
  keyed_read_page : forall i out, keeps key_of (ps_read_page i out);
  keyed_write_page : forall i page, keeps key_of (ps_write_page i page);
  keyed_read_pages : forall idxs, keeps key_of (ps_read_pages idxs);
  keyed_write_pages : forall idxs pages, keeps key_of (ps_write_pages idxs pages);
  keyed_flush : keeps key_of ps_flush
}.
#[global] Hint Mode Keyed - ! - : typeclass_instances.

(** What the operations of a store leave alone: its cipher, if it encrypts, the size of
    the pages it seals or stores, their number, and the size of the view of them. *)
Record StoreKey (C : Type) : Type := mkStoreKey {
  k_cipher : option C;
  k_page : Z;
  k_count : Z;
  k_view : option Z
}.
Arguments mkStoreKey {C}. Arguments k_cipher {C}. Arguments k_page {C}. Arguments k_count {C}. Arguments k_view {C}.

Section KeyedFile.
Context {C : Type}.

Definition file_key (s : FilePageStore) : StoreKey C := mkStoreKey None (fp_page_size s) (fp_page_count s) None.

Lemma keeps_on_file {A} (m : M File A) : keeps file_key (on_file m).
Proof. by apply keeps_zoom. Qed.
Lemma keeps_file_write_page i page : keeps file_key (file_write_page i page).
Proof. unfold file_write_page, check_page. keeps_tac. apply keeps_on_file. Qed.
Lemma keeps_read_runs fuel idxs order pages : keeps file_key (read_runs fuel idxs order pages).
Proof.
  revert order pages. induction fuel as [|fuel IH]; intros [|pos order] pages; cbn [read_runs]; keeps_tac; first [apply keeps_on_file|apply IH].
Qed.
Lemma keeps_write_runs fuel idxs order pages : keeps file_key (write_runs fuel idxs order pages).
Proof.
  revert order. induction fuel as [|fuel IH]; intros [|pos order]; cbn [write_runs]; keeps_tac; first [apply keeps_on_file|apply IH].
Qed.

#[export] Instance file_keyed : Keyed (StoreKey C) FilePageStore.
Proof.
  refine {| key_of := file_key; keyed_write_page := keeps_file_write_page; keyed_flush := keeps_on_file _ |}.
  - intros. cbn. unfold file_read_page, check_page. keeps_tac. apply keeps_on_file.
  - intros. cbn. unfold file_read_pages. keeps_tac. apply keeps_read_runs.
  - intros. cbn. unfold file_write_pages. keeps_tac; first [apply keeps_file_write_page|apply keeps_write_runs].
Defined.

End KeyedFile.

Section KeyedAead.
Context {S C OS : Type} `{Cipher C} `{OsRandom OS} `{Keyed (StoreKey C) S}.

Definition aead_key (s : AeadPageStore S C OS) : StoreKey C :=
  mkStoreKey (Some (ap_cipher s)) (ap_plaintext_page_size s) (k_count (key_of (ap_inner s))) None.

Lemma keeps_encrypt_page i page : keeps aead_key (encrypt_page i page).
Proof. unfold encrypt_page. keeps_tac. Qed.

Lemma keeps_ap_inner {A} (m : M S A) : keeps key_of m -> keeps aead_key (on_ap_inner m).
Proof. intros Hm. apply keeps_zoom. intros s t ->. unfold aead_key. cbn. by rewrite Hm. Qed.

#[export] Instance aead_keyed : Keyed (StoreKey C) (AeadPageStore S C OS).
Proof.
  refine {| key_of := aead_key |}.
  all: intros; cbn [ps_read_page ps_write_page ps_read_pages ps_write_pages ps_flush aead_page_store].
  all: unfold aead_read_page, aead_write_page, aead_read_pages, aead_write_pages; keeps_tac.
  all: first [apply keeps_encrypt_page|apply keeps_ap_inner].
  all: first [apply keyed_read_page|apply keyed_write_page|apply keyed_read_pages|apply keyed_write_pages|apply keyed_flush].
Defined.

End KeyedAead.

Section KeyedLayers.
Context {K A B : Type} `{Keyed K A} `{Keyed K B}.

Lemma keeps_on_sum {X} (ma : M A X) (mb : M B X) : keeps key_of ma -> keeps key_of mb ->
  keeps (fun s : A + B => match s with inl a => key_of a | inr b => key_of b end) (on_sum ma mb).
Proof.
  intros Ha Hb [s|s]; cbn; [specialize (Ha s); by destruct (ma s)|specialize (Hb s); by destruct (mb s)].
Qed.

#[export] Instance sum_keyed : Keyed K (A + B).
Proof.
  refine {| key_of := fun s => match s with inl a => key_of a | inr b => key_of b end |}.
  all: intros; apply keeps_on_sum.
  all: first [apply keyed_read_page | apply keyed_write_page | apply keyed_read_pages | apply keyed_write_pages | apply keyed_flush].
Defined.

Lemma keeps_fc_inner {X} (m : M A X) : keeps key_of m -> keeps (fun s : FrontCachedPageStore A => key_of (fc_inner s)) (on_fc_inner m).
Proof. intros Hm. apply keeps_zoom. intros s t ->. apply Hm. Qed.

Local Abbreviation fc_key := (fun s : FrontCachedPageStore A => key_of (fc_inner s)).

Lemma keeps_front_read_loop l pages ps is_ : keeps fc_key (front_read_loop l pages ps is_).
Proof.
  revert pages ps is_. induction l as [|[pos i] l IH]; intros pages ps is_; cbn [front_read_loop]; [by apply keeps_pure|].
  unfold cached_slice. keeps_tac; first [by apply keeps_pure|apply IH].
Qed.
Lemma keeps_write_cached i page : keeps fc_key (write_cached i page).
Proof. unfold write_cached. keeps_tac. Qed.
Lemma keeps_front_write_loop l is_ pgs : keeps fc_key (front_write_loop l is_ pgs).
Proof.
  revert is_ pgs. induction l as [|[pos i] l IH]; intros is_ pgs; cbn [front_write_loop]; [by apply keeps_pure|].
  keeps_tac; first [apply keeps_write_cached|apply IH].
Qed.

Lemma keeps_front_load page_size idxs cached : keeps key_of (front_load (S := A) page_size idxs cached).
Proof.
  revert cached. induction idxs as [|i idxs IH]; intros cached; cbn [front_load]; keeps_tac. apply keyed_read_page.
Qed.

#[export] Instance front_keyed : Keyed K (FrontCachedPageStore A).
Proof.
  refine {| key_of := fun s => key_of (fc_inner s) |}.
  all: intros; cbn [ps_read_page ps_write_page ps_read_pages ps_write_pages ps_flush front_page_store].
  - unfold front_read_page, check_page. keeps_tac; first [by apply keeps_pure|apply keeps_fc_inner, keyed_read_page].
  - unfold front_write_page, check_page. keeps_tac; [apply keeps_write_cached|apply keeps_fc_inner, keyed_write_page].
  - unfold front_read_pages. keeps_tac; [apply keeps_front_read_loop|apply keeps_fc_inner, keyed_read_pages].
  - unfold front_write_pages. keeps_tac; [apply keeps_front_write_loop|apply keeps_fc_inner, keyed_write_pages].
  - unfold front_flush. keeps_tac; [|apply keeps_fc_inner, keyed_flush].
    unfold flush_page. keeps_tac; first [by apply keeps_pure|apply keeps_fc_inner, keyed_write_page].
Defined.

End KeyedLayers.

(** ** The contracts with the key fixed *)

Section FixedKey.
Context {K S : Type} `{PageStore S} `{!LawfulPageStore S} `{!WritableStore S} `{!Keyed K S} (key : K).

Definition keyed_ok (s : S) : Prop := ps_ok s /\ key_of s = key.

Lemma keyed_next (s s' : S) f : key_of s = key -> key_of s' = key_of s -> ps_next s f s' ->
  page_next keyed_ok ps_page_size ps_page_count ps_content s f s'.
Proof. intros Hk Hk' (Hok & Hn). split; [split; [done|congruence]|done]. Qed.

Definition keyed_lawful : LawfulPageStore S.
Proof.
  refine {| ps_ok := keyed_ok; ps_content := ps_content |}.
  - intros s i [Hs _]. by apply ps_content_ok.
  - intros s [Hs _]. by apply ps_dims_ok.
  - intros s i out [Hs Hk] Hi Ho. destruct (ps_read_page_ok s i out Hs Hi Ho) as (s' & E & Hn).
    exists s'. split; [done|]. apply keyed_next; [done| |done]. by rewrite <-(keyed_read_page i out s), E.
  - intros s i page [Hs Hk] Hi Hp. destruct (ps_write_page_ok s i page Hs Hi Hp) as (s' & E & Hn).
    exists s'. split; [done|]. apply keyed_next; [done| |done]. by rewrite <-(keyed_write_page i page s), E.
  - intros s idxs [Hs Hk] Hi. destruct (ps_read_pages_ok s idxs Hs Hi) as (s' & E & Hn).
    exists s'. split; [done|]. apply keyed_next; [done| |done]. by rewrite <-(keyed_read_pages idxs s), E.
  - intros s idxs pages [Hs Hk] Hi Hp Hl. destruct (ps_write_pages_ok s idxs pages Hs Hi Hp Hl) as (s' & E & Hn).
    exists s'. split; [done|]. apply keyed_next; [done| |done]. by rewrite <-(keyed_write_pages idxs pages s), E.
  - intros s [Hs Hk]. destruct (ps_flush_ok s Hs) as (s' & E & Hn).
    exists s'. split; [done|]. apply keyed_next; [done| |done]. by rewrite <-(keyed_flush s), E.
Defined.

Definition keyed_writable : WritableStore S.
Proof.
  refine {| ws_ok := fun s => ws_ok s /\ key_of s = key; ws_holds := ws_holds |}.
  intros s i page [Hs Hk] Hi Hp. destruct (ws_write_page_ok s i page Hs Hi Hp) as (s' & E & Hs' & Hn).
  exists s'. split; [done|]. split; [|done]. split; [done|]. rewrite <-Hk, <-(keyed_write_page i page s). by rewrite E.
Defined.

End FixedKey.

(** ** The medium *)

(** The file under a store, and what it holds once the store is flushed. *)
Class Medium (S : Type) : Type := {
  backing : S -> bytes;
  on_disk : S -> Z -> bytes -> Prop
}.

Class DiskStore (S : Type) `{PageStore S} `{!LawfulPageStore S} `{!WritableStore S} `{!Medium S} : Prop := {
  (** a flush stores the pages *)
  ds_flush_ok : forall s, ps_ok s -> exists s', ps_flush s = (Ok tt, s') /\ ps_next s (ps_content s) s' /\
    forall i, in_range (ps_page_count s) i -> on_disk s' i (ps_content s i);
  (** a flush of a store whose pages have all been written makes it readable *)
  ds_written_flush_ok : forall s f, ws_ok s -> (forall i, in_range (ps_page_count s) i -> ws_holds s i (f i)) ->
    exists s', ps_flush s = (Ok tt, s') /\ ps_ok s' /\
      ps_page_size s' = ps_page_size s /\ ps_page_count s' = ps_page_count s /\
      forall i, in_range (ps_page_count s) i -> ps_content s' i = f i /\ on_disk s' i (f i)
}.
#[global] Hint Mode DiskStore ! - - - - : typeclass_instances.
#[global] Hint Mode Medium ! : typeclass_instances.

#[export] Instance file_medium : Medium FilePageStore :=
  {| backing := fun s => f_bytes (fp_file s); on_disk := fun s i page => file_ok s /\ file_content s i = page |}.
#[export] Instance aead_medium {S C OS} `{Medium S} `{Cipher C} : Medium (AeadPageStore S C OS) :=
  {| backing := fun s => backing (ap_inner s);
     on_disk := fun s i page => page_ok (ap_plaintext_page_size s) page /\
       exists sealed, on_disk (ap_inner s) i sealed /\ seals (ap_cipher s) i page sealed |}.
#[export] Instance front_medium {S} `{Medium S} : Medium (FrontCachedPageStore S) :=
  {| backing := fun s => backing (fc_inner s); on_disk := fun s => on_disk (fc_inner s) |}.
#[export] Instance sum_medium {A B} `{Medium A} `{Medium B} : Medium (A + B) :=
  {| backing := fun s => match s with inl a => backing a | inr b => backing b end;
     on_disk := fun s => match s with inl a => on_disk a | inr b => on_disk b end |}.

(** *** Files *)

#[export] Instance file_writable : WritableStore FilePageStore := lawful_writable.

#[export] Instance file_disk : DiskStore FilePageStore.
Proof.
  assert (forall s : FilePageStore, ps_ok s -> exists s', ps_flush s = (Ok tt, s') /\ ps_next s (ps_content s) s' /\
    forall i, in_range (ps_page_count s) i -> on_disk s' i (ps_content s i)) as Hf.
  { intros s Hs. destruct (file_flush_ok s Hs) as (s' & E & Hn). exists s'. split_and!; [done|done|].
    intros i Hi. destruct Hn as (Hok & _ & _ & Hj). split; [done|by apply Hj]. }
  split; [exact Hf|]. intros s f Hs Hh. destruct (Hf s Hs) as (s' & E & (Hok & Hsz & Hc & Hj) & Hd).
  exists s'. split_and!; try done. intros i Hi. rewrite <-(Hh i Hi). split; [by apply Hj|by apply Hd].
Qed.

(** *** Encrypted stores *)

Section AeadDisk.
Context {S C OS : Type} `{PageStore S} `{!LawfulPageStore S} `{!WritableStore S} `{!Medium S} `{!DiskStore S}.
Context `{CipherLaws C} `{OsRandom OS}.
Local Abbreviation AS := (AeadPageStore S C OS).

#[export] Instance aead_writable : WritableStore AS.
Proof.
  refine {| ws_ok := aead_shape;
    ws_holds := fun s i page => page_ok (ap_plaintext_page_size s) page /\ seals (ap_cipher s) i page (ps_content (ap_inner s) i) |}.
  intros s i page Hs Hi Hp. destruct (aead_write_page_shape s i page Hs Hi Hp) as (sealed & inner' & os & E & Hse & Hok & Hz & Hc & Hj).
  eexists. split; [exact E|]. pose proof Hs as [Hin Hsz Hpos].
  split; [split; cbn; (done || congruence)|]. split; [done|]. split; [exact Hc|]. cbn. split; [split; [done|by rewrite Hj, page_upd_eq]|].
  intros j p Hne Hr [Hpp Hh]. split; [done|]. by rewrite Hj, page_upd_ne.
Defined.

(** The inner flush carries the sealed pages over. *)
Lemma aead_flush_disk (s : AS) f : aead_shape s ->
  (forall i, in_range (ps_page_count (ap_inner s)) i -> page_ok (ap_plaintext_page_size s) (f i) /\
     seals (ap_cipher s) i (f i) (ps_content (ap_inner s) i)) ->
  exists inner', ps_flush s = (Ok tt, set_ap_inner inner' s) /\ ps_next (ap_inner s) (ps_content (ap_inner s)) inner' /\
    forall i, in_range (ps_page_count (ap_inner s)) i -> on_disk (set_ap_inner inner' s) i (f i).
Proof.
  intros Hs Hf. destruct (ds_flush_ok (ap_inner s) (as_inner s Hs)) as (inner' & E & Hn & Hd).
  exists inner'. split; [by apply zoom_eq|]. split; [done|]. intros i Hi. destruct (Hf i Hi) as [Hp Hse].
  split; [done|]. eexists. split; [by apply Hd|done].
Qed.

#[export] Instance aead_disk : DiskStore AS.
Proof.
  split.
  - intros s Hs. destruct (aead_flush_disk s (aead_content s) (proj1 Hs)) as (inner' & E & Hn & Hd).
    { intros i Hi. split; by apply aead_decrypts. }
    eexists. split; [exact E|]. split; [by apply aead_same_next|exact Hd].
  - intros s f Hs Hh. destruct (aead_flush_disk s f Hs Hh) as (inner' & E & Hn & Hd).
    eexists. split; [exact E|].
    pose proof (aead_inner_next s _ inner' (ap_os s) f Hs Hn Hh) as (Hok & Hsz & Hc & Hj). destruct s. cbn in *.
    split_and!; try done. intros i Hi. split; [by apply Hj|by apply Hd].
Qed.

End AeadDisk.

(** *** Front caches *)

Section FrontDisk.
Context {S : Type} `{PageStore S} `{!LawfulPageStore S} `{!WritableStore S} `{!Medium S} `{!DiskStore S}.
Local Abbreviation FS := (FrontCachedPageStore S).

(** A cache of the right shape over a store whose pages may not be readable. *)
Record front_shape (s : FS) : Prop := {
  fs_inner : ws_ok (fc_inner s);
  fs_count : 0 <= fc_cached_pages s <= ps_page_count (fc_inner s);
  fs_size : fc_page_size s = ps_page_size (fc_inner s);
  fs_pos : 0 < fc_page_size s;
  fs_len : lenZ (fc_cached s) = fc_cached_pages s * fc_page_size s;
  fs_bytes : bytes_ok (fc_cached s);
  fs_dirty : lenZ (fc_dirty s) = fc_cached_pages s
}.

(** A cached page was written to the buffer, and to the inner store if it is clean. *)
Definition front_holds (s : FS) (i : Z) (page : bytes) : Prop :=
  if i <? fc_cached_pages s
  then page_at (fc_page_size s) (fc_cached s) i = page /\ page_ok (fc_page_size s) page /\
       (clean s i -> ws_holds (fc_inner s) i page)
  else ws_holds (fc_inner s) i page.

Lemma dirty_insert (d : list bool) i j b : 0 <= i < lenZ d -> 0 <= j ->
  <[Z.to_nat i := b]> d !! Z.to_nat j = if j =? i then Some b else d !! Z.to_nat j.
Proof.
  intros Hi Hj. unfold lenZ in Hi. destruct (j =? i) eqn:E; zbool; [subst; apply list_lookup_insert_eq; lia|].
  apply list_lookup_insert_ne. lia.
Qed.

Lemma dirty_update (d : list bool) i b : 0 <= i < lenZ d -> updateZ d i b = Ok (<[Z.to_nat i := b]> d).
Proof. intros Hi. unfold updateZ. by rewrite (proj2 (Z.leb_le _ _)), (proj2 (Z.ltb_lt _ _)) by lia. Qed.

Lemma write_cached_shape (s : FS) i page : front_shape s -> 0 <= i < fc_cached_pages s -> page_ok (fc_page_size s) page ->
  exists c, write_cached i page s = (Ok tt, set_fc_dirty (<[Z.to_nat i := true]> (fc_dirty s)) (set_fc_cached c s)) /\
    lenZ c = fc_cached_pages s * fc_page_size s /\ bytes_ok c /\
    forall j, in_range (fc_cached_pages s) j -> page_at (fc_page_size s) c j = page_upd i page (page_at (fc_page_size s) (fc_cached s)) j.
Proof.
  intros [Hin Hc Hsz Hpos Hl Hb Hd] Hi Hp.
  destruct (region_splice (fc_cached_pages s) (fc_page_size s) Hpos (fc_cached s) i page Hl Hb Hi Hp) as (c & E & Hx).
  exists c. split; [|done]. unfold write_cached. rewrite bind_gets, E, bind_lift, bind_modify, bind_lift.
  by rewrite dirty_update by lia.
Qed.

Lemma front_write_written (s : FS) i page : front_shape s -> in_range (front_page_count s) i -> page_ok (fc_page_size s) page ->
  exists s', front_write_page i page s = (Ok tt, s') /\ front_shape s' /\ fc_page_size s' = fc_page_size s /\
    front_page_count s' = front_page_count s /\ front_holds s' i page /\
    forall j p, j <> i -> in_range (front_page_count s) j -> front_holds s j p -> front_holds s' j p.
Proof.
  intros Hs Hi Hp. pose proof Hs as [Hin Hc Hsz Hpos Hl Hb Hd]. unfold front_write_page.
  rewrite (bind_eq _ _ _ _ _ (front_check_ok s i _ Hi (proj1 Hp))), bind_gets. unfold in_range, front_page_count in *.
  destruct (i <? fc_cached_pages s) eqn:E; zbool.
  - destruct (write_cached_shape s i page Hs) as (c & Ec & Hlc & Hbc & Hj); [lia|done|].
    eexists. split; [exact Ec|]. split; [split; cbn; try done; unfold lenZ in *; by rewrite length_insert|].
    split_and!; [done|done| |].
    + unfold front_holds. cbn. rewrite (proj2 (Z.ltb_lt _ _)) by lia. rewrite Hj, page_upd_eq by (split; lia). split_and!; [done|done|].
      unfold clean. cbn. rewrite dirty_insert, Z.eqb_refl by lia. done.
    + intros j p Hne Hjr. unfold front_holds. cbn. destruct (j <? fc_cached_pages s) eqn:Ej; [|done]. zbool.
      rewrite Hj, page_upd_ne by (done || split; lia). unfold clean. cbn.
      by rewrite dirty_insert, (proj2 (Z.eqb_neq j i)) by lia.
  - destruct (ws_write_page_ok (fc_inner s) i page Hin Hi) as (inner' & E1 & Hin' & Hz' & Hc' & Hh & Ho); [by rewrite <-Hsz|].
    eexists. split; [by apply zoom_eq|]. split; [split; cbn; try done; congruence|]. split_and!; [done|done| |].
    + unfold front_holds. cbn. by rewrite (proj2 (Z.ltb_ge _ _)) by lia.
    + intros j p Hne Hjr. unfold front_holds, clean. cbn. destruct (j <? fc_cached_pages s); [|by auto].
      intros (? & ? & Hcl). split_and!; auto.
Qed.

#[export] Instance front_writable : WritableStore FS :=
  {| ws_ok := front_shape; ws_holds := front_holds; ws_write_page_ok := front_write_written |}.

(** One page of the flush. *)
Lemma flush_page_written (s : FS) i f : front_shape s -> 0 <= i < fc_cached_pages s ->
  (forall j, in_range (front_page_count s) j -> front_holds s j (f j)) ->
  exists s', flush_page i s = (Ok tt, s') /\ front_shape s' /\ fc_cached_pages s' = fc_cached_pages s /\
    fc_page_size s' = fc_page_size s /\ front_page_count s' = front_page_count s /\
    (forall j, in_range (front_page_count s) j -> front_holds s' j (f j)) /\
    clean s' i /\ forall j, 0 <= j -> clean s j -> clean s' j.
Proof.
  intros Hs Hi Hf. pose proof Hs as [Hin Hc Hsz Hpos Hl Hb Hd]. unfold flush_page. rewrite bind_gets, bind_lift.
  assert (exists d, indexZ (fc_dirty s) i = Ok d /\ fc_dirty s !! Z.to_nat i = Some d) as (d & -> & Ed).
  { unfold lenZ in Hd. destruct (lookup_lt_is_Some_2 (fc_dirty s) (Z.to_nat i)) as [d Hx]; [lia|].
    exists d. split; [apply indexZ_Ok; split; [lia|done]|done]. }
  destruct d; [|exists s; split_and!; done].
  assert (in_range (front_page_count s) i) as Hir by (unfold in_range, front_page_count; lia).
  pose proof (Hf i Hir) as Hfi. unfold front_holds in Hfi. rewrite (proj2 (Z.ltb_lt _ _)) in Hfi by lia. destruct Hfi as (Hpi & Hpg & _).
  unfold cached_slice at 1. destruct (region_slice (fc_cached_pages s) (fc_page_size s) Hpos (fc_cached s) i Hl Hb) as [Es _]; [split; lia|].
  erewrite bind_eq by (by rewrite Es). rewrite Hpi.
  destruct (ws_write_page_ok (fc_inner s) i (f i) Hin Hir) as (inner' & E1 & Hin' & Hz' & Hc' & Hh & Ho); [by rewrite <-Hsz|].
  erewrite bind_eq by (by apply zoom_eq). rewrite bind_lift. rewrite dirty_update by lia.
  eexists. split; [reflexivity|]. split; [split; cbn; try done; try congruence; unfold lenZ in *; by rewrite length_insert|].
  unfold front_page_count in *. split_and!; [done|done|exact Hc'| | |].
  - intros j Hj. specialize (Hf j Hj). unfold front_holds, clean in *. cbn.
    destruct (j <? fc_cached_pages s) eqn:Ej; zbool.
    + destruct Hf as (? & ? & Hcl). split_and!; [done|done|]. rewrite dirty_insert by (unfold in_range in *; lia).
      destruct (j =? i) eqn:Eji; zbool; [by subst|]. intros. apply Ho; auto.
    + apply Ho; [lia|done|done].
  - unfold clean. cbn. rewrite dirty_insert by lia. by rewrite Z.eqb_refl.
  - intros j Hj. unfold clean. cbn. rewrite dirty_insert by lia. by destruct (j =? i).
Qed.

Lemma flush_loop_written idxs (s : FS) f : front_shape s -> Forall (fun i => 0 <= i < fc_cached_pages s) idxs ->
  (forall j, in_range (front_page_count s) j -> front_holds s j (f j)) ->
  exists s', iterM flush_page idxs s = (Ok tt, s') /\ front_shape s' /\ fc_cached_pages s' = fc_cached_pages s /\
    fc_page_size s' = fc_page_size s /\ front_page_count s' = front_page_count s /\
    (forall j, in_range (front_page_count s) j -> front_holds s' j (f j)) /\
    Forall (clean s') idxs /\ forall j, 0 <= j -> clean s j -> clean s' j.
Proof.
  intros Hs Hidxs. revert s Hs Hidxs. induction idxs as [|i idxs IH]; intros s Hs Hidxs Hf; cbn [iterM].
  { exists s. split_and!; try done. }
  apply Forall_cons in Hidxs as [Hi Hidxs].
  destruct (flush_page_written s i f Hs Hi Hf) as (s1 & E1 & Hs1 & Hc1 & Hz1 & Hn1 & Hf1 & Hcl1 & Hm1).
  rewrite (bind_eq _ _ _ _ _ E1).
  destruct (IH s1 Hs1) as (s2 & E2 & Hs2 & Hc2 & Hz2 & Hn2 & Hf2 & Hcl2 & Hm2); [by rewrite Hc1|by rewrite Hn1|].
  exists s2. split_and!; [done|done|congruence|congruence|congruence|by rewrite <-Hn1| |auto].
  apply Forall_cons. split; [apply Hm2; [lia|done]|done].
Qed.

#[export] Instance front_disk : DiskStore FS.
Proof.
  split.
  - intros s Hs. destruct (front_flush_spec s Hs) as (s' & E & Hn & s1 & Hsame & Ei & Hok1 & Hj).
    exists s'. split_and!; [done|done|]. intros i Hi.
    destruct (ds_flush_ok (fc_inner s1) Hok1) as (inner' & Ei' & _ & Hd).
    rewrite Ei in Ei'. injection Ei' as <-. destruct Hsame as (_ & _ & _ & Hcnt & _). change (on_disk (fc_inner s') i (front_content s i)).
    rewrite <-(proj1 (Hj i Hi)). apply Hd. unfold front_page_count in Hcnt. rewrite Hcnt. exact Hi.
  - intros s f Hs Hf. cbn [ps_flush ps_page_count ps_page_size front_page_store]. unfold front_flush. rewrite bind_gets.
    destruct (flush_loop_written (seqZ 0 (fc_cached_pages s)) s f Hs) as (s1 & E1 & Hs1 & Hc1 & Hz1 & Hn1 & Hf1 & Hcl & _); [|done|].
    { apply Forall_forall. intros i Hi. apply elem_of_seqZ in Hi. lia. }
    rewrite (bind_eq _ _ _ _ _ E1). rewrite <-Hn1 in Hf1. pose proof Hs1 as [Hin Hc Hsz Hpos Hl Hb Hd].
    destruct (ds_written_flush_ok (fc_inner s1) f Hin) as (inner' & E2 & Hok & Hz2 & Hc2 & Hj).
    { intros j Hj. specialize (Hf1 j Hj). unfold front_holds in Hf1. destruct (j <? fc_cached_pages s1) eqn:Ej; [|done]. zbool.
      apply Hf1. rewrite Forall_forall in Hcl. apply Hcl. apply elem_of_seqZ. unfold in_range in Hj. lia. }
    assert (forall j, in_range (front_page_count s1) j -> front_content (set_fc_inner inner' s1) j = f j) as Hcont.
    { intros j Hjr. specialize (Hf1 j Hjr). unfold front_holds in Hf1. unfold front_content. cbn.
      destruct (j <? fc_cached_pages s1); [apply Hf1|by apply Hj]. }
    exists (set_fc_inner inner' s1). split; [by apply zoom_eq|]. split_and!; [|exact Hz1| |].
    + split; cbn; try done; try congruence. intros j Hjr _. cbn in *.
      assert (in_range (front_page_count s1) j) as Hjr' by (unfold in_range, front_page_count; lia).
      rewrite Hcont by done. by apply Hj.
    + unfold front_page_count in *. cbn. congruence.
    + intros i Hi. rewrite <-Hn1 in Hi. split; [by apply Hcont|]. by apply Hj.
Qed.

End FrontDisk.

#[export] Instance sum_disk {A B} `{DiskStore A} `{DiskStore B} : DiskStore (A + B).
Proof.
  split.
  - intros [s|s] Hs; destruct (ds_flush_ok s Hs) as (s' & E & Hn); [exists (inl s')|exists (inr s')];
      (split; [cbn; by rewrite E|exact Hn]).
  - intros [s|s] f Hs Hf; destruct (ds_written_flush_ok s f Hs Hf) as (s' & E & Hn); [exists (inl s')|exists (inr s')];
      (split; [cbn; by rewrite E|exact Hn]).
Qed.

(** ** Image files

    The file under a store holds the pages the store serves, each in a page of the
    size the key tells and sealed with the cipher of the key.  A view may show only
    the first bytes of a page. *)

Section Image.
Context {C OS : Type} `{CipherLaws C} `{OsRandom OS}.

Definition k_sealed (k : StoreKey C) : Z := k_page k + match k_cipher k with Some _ => AEAD_OVERHEAD | None => 0 end.

Definition image_page (k : StoreKey C) (b : bytes) (i : Z) (page : bytes) : Prop :=
  page_ok (k_page k) page /\
  (let stored := page_at (k_sealed k) b i in
   match k_cipher k with None => stored = page | Some c => seals c i page stored end).

Record image_file (k : StoreKey C) (f : Z -> bytes) (b : bytes) : Prop := {
  im_len : lenZ b = k_count k * k_sealed k;
  im_bytes : bytes_ok b;
  im_pages : forall i, in_range (k_count k) i -> exists page, f i `prefix_of` page /\ image_page k b i page
}.

(** The key tells the shape of a store; settled, its file is an image of its pages. *)
Class Imaged (S : Type) `{PageStore S, !LawfulPageStore S, !Medium S, !Keyed (StoreKey C) S} : Prop := {
  img_shape : forall s, ps_ok s -> 0 < k_page (key_of s) /\ ps_page_count s = k_count (key_of s) /\
    ps_page_size s = default (k_page (key_of s)) (k_view (key_of s));
  img_file : forall s f, ps_ok s ->
    (forall i, in_range (ps_page_count s) i -> exists page, f i `prefix_of` page /\ on_disk s i page) ->
    image_file (key_of s) f (backing s)
}.

#[export] Instance file_imaged : Imaged FilePageStore.
Proof.
  split.
  - intros s []. split_and!; [done|done|done].
  - intros s f Hs Hd. pose proof Hs as [Hsz Hct Hl Hb _].
    assert (k_sealed (key_of s) = fp_page_size s) as Hk by (unfold k_sealed; cbn; lia).
    split; [by rewrite Hk|done|]. intros i Hi. destruct (Hd i Hi) as (page & Hpre & _ & Hc). exists page. split; [done|].
    unfold image_page. rewrite Hk. split; [|exact Hc]. rewrite <-Hc. by apply file_content_ok.
Qed.

#[export] Instance aead_imaged : Imaged (AeadPageStore FilePageStore C OS).
Proof.
  split.
  - intros s [[Hin Hsz Hpos] _]. split_and!; [apply Hpos|done|done].
  - intros s f Hs Hd. pose proof Hs as [[Hin Hsz Hpos] _]. pose proof Hin as [Hsz0 Hct Hl Hb _].
    assert (k_sealed (key_of s) = fp_page_size (ap_inner s)) as Hk by (symmetry; exact Hsz).
    split; [rewrite Hk; exact Hl|exact Hb|]. intros i Hi. destruct (Hd i Hi) as (page & Hpre & Hp & sealed & [_ Hc] & Hse).
    exists page. split; [done|]. unfold image_page. rewrite Hk. split; [done|]. cbn. rewrite <-Hc in Hse. exact Hse.
Qed.

End Image.

Section ImageLayers.
Context {C : Type} `{CipherLaws C}.

#[export] Instance sum_imaged {A B} `{PageStore A, !LawfulPageStore A, !Medium A, !Keyed (StoreKey C) A, !Imaged A}
    `{PageStore B, !LawfulPageStore B, !Medium B, !Keyed (StoreKey C) B, !Imaged B} : Imaged (A + B).
Proof.
  split; [by intros [s|s] Hs; apply (img_shape s Hs)|by intros [s|s] f Hs Hd; apply (img_file s f Hs Hd)].
Qed.

#[export] Instance front_imaged {A} `{PageStore A, !LawfulPageStore A, !Medium A, !Keyed (StoreKey C) A, !Imaged A} :
    Imaged (FrontCachedPageStore A).
Proof.
  split.
  - intros s Hs. destruct (img_shape (fc_inner s) (fk_inner s Hs)) as (? & ? & ?). split_and!; [done|done|].
    cbn. by rewrite (fk_size s Hs).
  - intros s f Hs Hd. by apply (img_file (fc_inner s) f (fk_inner s Hs)).
Qed.

End ImageLayers.
