(* ===== verification/StoreTraces.v ===== *)
(** * What the wrappers access below them

    [FrontCachedPageStore] passes on the accesses to the pages it does not cache;
    [TieredMerklePageStore] passes on every access to its data, and reads and writes the
    pages of its hash store along the path of the page: [touched] says which.  So the
    controller over an authenticated, cached store is as oblivious as over a plain one:
    the host sees the same data pages and the same pages of hashes whatever is stored. *)

From S2P Require Import Prelude Ct Block Params Store Trace Schedule Bucket Stash Rng State Evict Circuit Blocks CircuitInv CircuitSpec CircuitTrace.
From S2P Require Import Oblivious FrontCache Hash Merkle TieredMerkle Disk.

Lemma snd_enumerate {A} (l : list A) : (enumerate l).*2 = l.
Proof. unfold enumerate. generalize 0. induction l as [|x l IH]; intros i; cbn [enumerate_from fmap list_fmap snd]; [done|]. by rewrite IH. Qed.

Definition page_of (e : TraceEvent) : Z := match e with TraceRead i => i | TraceWrite i => i end.

Section Guards.
Context {T E : Type} (P : T -> Prop) (tr : T -> list E).

Lemma emits_check_page size count i len : emits P tr (check_page size count i len) [].
Proof.
  apply emits_skip; [apply emits_gets|]. intros n. apply emits_skip; [apply emits_guardm|]. intros _.
  apply emits_skip; [apply emits_gets|]. intros z. apply emits_guardm.
Qed.
(** A computation that leaves the log and the state alone *)
Lemma emits_silent {A} (m : M T A) : (forall s a s', P s -> m s = (Ok a, s') -> P s' /\ tr s' = tr s) -> emits P tr m [].
Proof. intros Hm s HP a s' E1. rewrite app_nil_r. exact (Hm s a s' HP E1). Qed.
(** A result that says something, then what follows from it *)
Lemma emits_bind_post {A B} (m : M T A) (k : A -> M T B) (Q : A -> Prop) evs :
  (forall s a s', P s -> m s = (Ok a, s') -> Q a /\ P s' /\ tr s' = tr s) -> (forall a, Q a -> emits P tr (k a) evs) -> emits P tr (bind m k) evs.
Proof.
  intros Hm Hk s HP b s' (a & s1 & E1 & E2)%bind_Ok. destruct (Hm s a s1 HP E1) as (HQ & HP1 & <-). exact (Hk a HQ s1 HP1 b s' E2).
Qed.
End Guards.

(** ** The cache *)

Section Front.
Context {S : Type} `{PageStore S} (E : PageEvents S) (cached : Z).
Local Abbreviation FS := (FrontCachedPageStore S).

Definition front_state (s : FS) : Prop := fc_cached_pages s = cached /\ pe_state E (fc_inner s).
Definition front_log (s : FS) : list TraceEvent := pe_log E (fc_inner s).
Definition front_event (e : TraceEvent) : list TraceEvent := if page_of e <? cached then [] else pe_event E e.
Local Abbreviation emits_front := (emits front_state front_log).

Lemma front_inner_emits {A} (m : M S A) evs : emits (pe_state E) (pe_log E) m evs -> emits_front (on_fc_inner m) evs.
Proof. apply emits_zoom; [by intros s []|by intros i s []|done|done]. Qed.
Lemma emits_cached {A} (k : Z -> M FS A) evs : emits_front (k cached) evs -> emits_front (bind (gets fc_cached_pages) k) evs.
Proof. intros Hk. apply emits_gets_bind. intros s [-> _]. apply Hk. Qed.

Lemma cached_slice_emits i : emits_front (cached_slice i) [].
Proof. intros s HP a s' E'. unfold cached_slice in E'. injection E' as _ <-. by rewrite app_nil_r. Qed.
Lemma write_cached_emits i page : emits_front (write_cached i page) [].
Proof.
  unfold write_cached. apply emits_skip; [apply emits_gets|]. intros s. apply emits_skip; [apply emits_lift|]. intros c.
  apply emits_skip; [by apply emits_modify|]. intros _. apply emits_skip; [apply emits_lift|]. intros d. by apply emits_modify.
Qed.

Lemma front_read_emits i out : emits_front (front_read_page i out) (front_event (TraceRead i)).
Proof.
  apply emits_skip; [apply emits_check_page|]. intros _. apply emits_cached. unfold front_event. cbn [page_of].
  destruct (i <? cached).
  - apply emits_skip; [apply cached_slice_emits|]. intros src. apply emits_lift.
  - apply front_inner_emits, pe_read_page.
Qed.
Lemma front_write_emits i page : emits_front (front_write_page i page) (front_event (TraceWrite i)).
Proof.
  apply emits_skip; [apply emits_check_page|]. intros _. apply emits_cached. unfold front_event. cbn [page_of].
  destruct (i <? cached); [apply write_cached_emits|]. apply front_inner_emits, pe_write_page.
Qed.

(** The indices the loops of the batch methods pass on *)
Definition passed (idxs : list Z) : list Z := filter (fun i => (i <? cached) = false) idxs.
Lemma passed_cons i idxs : passed (i :: idxs) = if i <? cached then passed idxs else i :: passed idxs.
Proof. unfold passed. rewrite filter_cons. destruct (i <? cached); by case_decide. Qed.
Lemma passed_events (f : Z -> TraceEvent) idxs : (forall i, page_of (f i) = i) ->
  (f <$> passed idxs) ≫= pe_event E = (f <$> idxs) ≫= front_event.
Proof.
  intros Hf. induction idxs as [|i idxs IH]; [done|]. rewrite passed_cons. cbn [fmap list_fmap]. rewrite bind_cons, <-IH.
  unfold front_event. rewrite Hf. destruct (i <? cached); [done|]. cbn [fmap list_fmap]. by rewrite bind_cons.
Qed.

Lemma front_read_loop_emits l : forall pages ps ix s r s', front_state s -> front_read_loop l pages ps ix s = (Ok r, s') ->
  r.2 = ix ++ passed l.*2 /\ front_state s' /\ front_log s' = front_log s.
Proof.
  induction l as [|[pos i] l IH]; intros pages ps ix s r s' HP E'; cbn [front_read_loop fmap list_fmap snd] in *.
  { injection E' as <- <-. by rewrite app_nil_r. }
  rewrite bind_gets, bind_guardm in E'. destruct (negb _); [|done]. rewrite bind_gets in E'. destruct (HP) as [Hc _]. rewrite Hc in E'.
  rewrite passed_cons. destruct (i <? cached).
  - apply bind_Ok in E' as (src & s1 & E1 & E'). unfold cached_slice in E1. injection E1 as _ <-.
    rewrite bind_lift in E'. destruct (indexZ _ _); [|done..]. rewrite bind_lift in E'. destruct (copy_from_slice _ _); [|done..].
    rewrite bind_lift in E'. destruct (updateZ _ _ _); [|done..]. by eapply IH.
  - destruct (IH _ _ _ s r s' HP E') as [-> ?]. by rewrite <-app_assoc.
Qed.
Lemma front_write_loop_emits l : forall ix px s r s', front_state s -> front_write_loop l ix px s = (Ok r, s') ->
  r.1 = ix ++ passed l.*1 /\ front_state s' /\ front_log s' = front_log s.
Proof.
  induction l as [|[i page] l IH]; intros ix px s r s' HP E'; cbn [front_write_loop fmap list_fmap fst] in *.
  { injection E' as <- <-. by rewrite app_nil_r. }
  rewrite bind_gets, bind_guardm in E'. destruct (negb _); [|done]. rewrite bind_gets, bind_guardm in E'. destruct (_ =? _); [|done].
  rewrite bind_gets in E'. destruct (HP) as [Hc _]. rewrite Hc in E'. rewrite passed_cons. destruct (i <? cached).
  - apply bind_Ok in E' as ([] & s1 & E1 & E'). destruct (write_cached_emits i page s HP _ _ E1) as [HP1 Hl1]. rewrite app_nil_r in Hl1.
    rewrite <-Hl1. by eapply IH.
  - destruct (IH _ _ s r s' HP E') as [-> ?]. by rewrite <-app_assoc.
Qed.

Lemma front_reads_emits idxs : emits_front (front_read_pages idxs) ((TraceRead <$> idxs) ≫= front_event).
Proof.
  rewrite <-passed_events by done. apply emits_skip; [apply emits_gets|]. intros size.
  eapply (emits_bind_post _ _ _ _ (fun r : list bytes * list Z * list Z => r.2 = passed idxs)).
  { intros s r s' HP E1. destruct (front_read_loop_emits _ _ _ _ _ _ _ HP E1) as [-> ?]. by rewrite snd_enumerate. }
  intros [[pages ps] ix]. cbn. intros ->. destruct (lenZ _ =? 0) eqn:E0.
  - zbool. destruct (passed idxs) as [|]; [apply emits_ret|done].
  - apply emits_then; [apply front_inner_emits, pe_read_pages|]. intros inner. apply emits_lift.
Qed.
Lemma front_writes_emits idxs pages : emits_front (front_write_pages idxs pages) ((TraceWrite <$> idxs) ≫= front_event).
Proof.
  rewrite <-passed_events by done. intros s HP a s'. unfold front_write_pages. rewrite bind_guardm. destruct (lenZ idxs =? lenZ pages) eqn:El; [|done].
  revert s HP a s'. change (emits_front (let* r := front_write_loop (zip idxs pages) [] [] in
    if lenZ r.1 =? 0 then ret tt else on_fc_inner (ps_write_pages r.1 r.2)) ((TraceWrite <$> passed idxs) ≫= pe_event E)).
  eapply (emits_bind_post _ _ _ _ (fun r : list Z * list bytes => r.1 = passed idxs)).
  { intros s r s' HP E1. destruct (front_write_loop_emits _ _ _ _ _ _ HP E1) as [-> ?]. unfold lenZ in El. zbool. by rewrite fst_zip by lia. }
  intros [ix px]. cbn [fst snd]. intros ->. destruct (lenZ _ =? 0) eqn:E0.
  - zbool. destruct (passed idxs) as [|]; [apply emits_ret|done].
  - apply front_inner_emits, pe_write_pages.
Qed.

Definition front_events : PageEvents FS :=
  mkPageEvents front_state front_log front_event front_read_emits front_write_emits front_reads_emits front_writes_emits.

End Front.

(** ** The hash tree *)

(** Where the hash of a node is kept *)
Record HashLayout : Type := mkHashLayout { hl_leaf_base : Z; hl_limit : Z; hl_per_page : Z }.
(** The page of the hash store that holds the hash of a node, if it is not trusted *)
Definition touched (L : HashLayout) (n : Z) : list Z := if n <? hl_limit L then [] else [(n - hl_limit L) / hl_per_page L].
(** The nodes from [n] upwards that are at least [bound] *)
Fixpoint upwards (fuel : nat) (bound n : Z) : list Z :=
  match fuel with
  | O => []
  | S fuel => if bound <=? n then n :: upwards fuel bound (n / 2) else []
  end.
(** A read verifies the siblings up to the trusted nodes. *)
Definition verify_touches (L : HashLayout) (i : Z) : list TraceEvent :=
  upwards 65 (hl_limit L) (hl_leaf_base L + i) ≫= fun n => TraceRead <$> touched L (sibling_node n).
(** A hash is written by rewriting its page. *)
Definition rewrite_touches (L : HashLayout) (n : Z) : list TraceEvent := touched L n ≫= fun p => [TraceRead p; TraceWrite p].
(** A write updates every node up to the root. *)
Definition update_touches (L : HashLayout) (i : Z) : list TraceEvent :=
  rewrite_touches L (hl_leaf_base L + i) ++
  (upwards 65 2 (hl_leaf_base L + i) ≫= fun n => (TraceRead <$> touched L (sibling_node n)) ++ rewrite_touches L (n / 2)).
Definition hash_touches (L : HashLayout) (e : TraceEvent) : list TraceEvent :=
  match e with TraceRead i => verify_touches L i | TraceWrite i => update_touches L i end.

Section Tiered.
Context {S T : Type} `{PageStore S} `{PageStore T} `{Hash} (EI : PageEvents S) (EH : PageEvents T) (L : HashLayout).
Local Abbreviation TS := (TieredMerklePageStore S T).

Definition layout_of (s : TS) : HashLayout := mkHashLayout (tm_leaf_base s) (tm_trusted_node_limit s) (tm_hashes_per_page s).
Definition tiered_state (s : TS) : Prop := layout_of s = L /\ pe_state EI (tm_inner s) /\ pe_state EH (tm_hash_store s).
Definition data_log (s : TS) : list TraceEvent := pe_log EI (tm_inner s).
Definition hash_log (s : TS) : list TraceEvent := pe_log EH (tm_hash_store s).

(** What a computation adds to the two logs *)
Definition logs2 {A} (m : M TS A) (d h : list TraceEvent) : Prop :=
  emits tiered_state data_log m (d ≫= pe_event EI) /\ emits tiered_state hash_log m (h ≫= pe_event EH).

Lemma logs2_bind {A B} (m : M TS A) (k : A -> M TS B) d1 h1 d2 h2 :
  logs2 m d1 h1 -> (forall a, logs2 (k a) d2 h2) -> logs2 (bind m k) (d1 ++ d2) (h1 ++ h2).
Proof. intros [? ?] Hk. split; rewrite bind_app; apply emits_bind; try done; intros a; apply (Hk a). Qed.
Lemma logs2_skip {A B} (m : M TS A) (k : A -> M TS B) d h : logs2 m [] [] -> (forall a, logs2 (k a) d h) -> logs2 (bind m k) d h.
Proof. apply (logs2_bind m k [] []). Qed.
Lemma logs2_then {A B} (m : M TS A) (k : A -> M TS B) d h : logs2 m d h -> (forall a, logs2 (k a) [] []) -> logs2 (bind m k) d h.
Proof. intros Hm Hk. rewrite <-(app_nil_r d), <-(app_nil_r h). by apply logs2_bind. Qed.
Lemma logs2_state {A} (k : TS -> M TS A) d h :
  (forall s, layout_of s = L -> logs2 (k s) d h) -> logs2 (bind (gets (fun s => s)) k) d h.
Proof. intros Hk. split; apply emits_gets_bind; intros s HP; apply (Hk s (proj1 HP)). Qed.
Lemma logs2_lift {A} (r : outcome A) : logs2 (lift r) [] [].
Proof. split; apply emits_lift. Qed.
Lemma logs2_ret {A} (a : A) : logs2 (ret a) [] [].
Proof. split; apply emits_ret. Qed.
Lemma logs2_guard b e : logs2 (guardm b e) [] [].
Proof. split; apply emits_guardm. Qed.
Lemma logs2_check size count i len : logs2 (check_page size count i len) [] [].
Proof. split; apply emits_check_page. Qed.
Lemma logs2_fail {A} (m : M TS A) d h : (forall s a s', m s <> (Ok a, s')) -> logs2 m d h.
Proof. intros Hm. split; intros s _ a s' E'; by apply Hm in E'. Qed.

Lemma logs2_data {A} (m : M S A) d : emits (pe_state EI) (pe_log EI) m (d ≫= pe_event EI) -> logs2 (on_tm_inner m) d [].
Proof.
  intros Hm. split.
  - revert Hm. apply emits_zoom; [by intros s (_ & ? & _)|by intros i s (? & _ & ?) ?|done|done].
  - intros s (HL & HI & HH) a s'. unfold on_tm_inner, zoom. destruct (m (tm_inner s)) as [r i] eqn:Em. intros [= -> <-].
    destruct (Hm _ HI _ _ Em) as [HI' _]. split; [by split_and!|by rewrite app_nil_r].
Qed.
Lemma logs2_hash {A} (m : M T A) h : emits (pe_state EH) (pe_log EH) m (h ≫= pe_event EH) -> logs2 (on_tm_hash_store m) [] h.
Proof.
  intros Hm. split.
  - intros s (HL & HI & HH) a s'. unfold on_tm_hash_store, zoom. destruct (m (tm_hash_store s)) as [r i] eqn:Em. intros [= -> <-].
    destruct (Hm _ HH _ _ Em) as [HH' _]. split; [by split_and!|by rewrite app_nil_r].
  - revert Hm. apply emits_zoom; [by intros s (_ & _ & ?)|by intros i s (? & ? & _) ?|done|done].
Qed.
Lemma logs2_trusted l : logs2 (modify (set_tm_trusted l)) [] [].
Proof. split; by apply emits_modify. Qed.
Create HintDb logs2.
#[local] Hint Resolve logs2_lift logs2_ret logs2_guard logs2_check logs2_trusted : logs2.
#[local] Hint Extern 5 (logs2 (bind _ _) [] []) => (apply logs2_skip; [|intros]) : logs2.

Lemma check_node_idx_logs n : logs2 (check_node_idx n) [] [].
Proof. apply logs2_state. auto with logs2. Qed.

(** Past the guard the node is on disk, on the page [touched] names. *)
Lemma position_logs {A} (k : Z * Z -> M TS A) s n d h : layout_of s = L ->
  (forall o, touched L n = [(n - hl_limit L) / hl_per_page L] -> logs2 (k ((n - hl_limit L) / hl_per_page L, o)) d h) ->
  logs2 (bind (lift (disk_hash_position s n)) k) d h.
Proof.
  intros HL Hk. assert (tm_trusted_node_limit s = hl_limit L /\ tm_hashes_per_page s = hl_per_page L) as [E1 E2] by by rewrite <-HL.
  unfold disk_hash_position. rewrite E1, E2. destruct (n <? hl_limit L) eqn:El; [by apply logs2_fail|].
  destruct (_ <=? _); [by apply logs2_fail|]. apply (Hk _). unfold touched. by rewrite El.
Qed.

Lemma single_event (e : TraceEvent) : [e] ≫= pe_event EH = pe_event EH e.
Proof. by rewrite bind_cons, app_nil_r. Qed.

Lemma read_hash_logs n : logs2 (read_hash n) [] (TraceRead <$> touched L n).
Proof.
  apply logs2_skip; [apply check_node_idx_logs|]. intros _. apply logs2_state. intros s HL.
  destruct (n <? tm_trusted_node_limit s) eqn:El.
  { unfold touched. rewrite <-HL. cbn [layout_of hl_limit]. rewrite El. apply logs2_lift. }
  apply logs2_state. intros s1 HL1. apply position_logs; [done|]. intros o ->. cbn [fst snd fmap list_fmap].
  apply logs2_then; [|auto with logs2]. apply logs2_hash. rewrite single_event. apply pe_read_page.
Qed.

Lemma write_hash_logs n hash : logs2 (write_hash n hash) [] (rewrite_touches L n).
Proof.
  apply logs2_skip; [apply check_node_idx_logs|]. intros _. apply logs2_state. intros s HL. unfold rewrite_touches.
  destruct (n <? tm_trusted_node_limit s) eqn:El.
  { unfold touched. rewrite <-HL. cbn [layout_of hl_limit]. rewrite El. apply logs2_skip; [apply logs2_lift|]. intros l. apply logs2_trusted. }
  apply logs2_state. intros s1 HL1. apply position_logs; [done|]. intros o ->. rewrite bind_cons, app_nil_r. cbn [fst snd].
  change [TraceRead ?p; TraceWrite ?p] with ([TraceRead p] ++ [TraceWrite p]). apply (logs2_bind _ _ [] _ []).
  - apply logs2_hash. rewrite single_event. apply pe_read_page.
  - intros page. apply logs2_skip; [apply logs2_lift|]. intros page'. apply logs2_hash. rewrite single_event. apply pe_write_page.
Qed.

Lemma verify_loop_logs fuel : forall n current,
  logs2 (verify_loop fuel n current) [] (upwards fuel (hl_limit L) n ≫= fun n => TraceRead <$> touched L (sibling_node n)).
Proof.
  induction fuel as [|fuel IH]; intros n current; cbn [verify_loop upwards]; [by apply logs2_fail|].
  apply logs2_state. intros s HL. replace (hl_limit L) with (tm_trusted_node_limit s) by by rewrite <-HL.
  destruct (_ <=? n); [|apply logs2_ret]. rewrite bind_cons. apply (logs2_bind _ _ [] _ []); [apply read_hash_logs|].
  intros sib. replace (tm_trusted_node_limit s) with (hl_limit L) by by rewrite <-HL. apply IH.
Qed.

Lemma update_loop_logs fuel : forall n current,
  logs2 (update_hash_loop fuel n current) []
    (upwards fuel 2 n ≫= fun n => (TraceRead <$> touched L (sibling_node n)) ++ rewrite_touches L (n / 2)).
Proof.
  induction fuel as [|fuel IH]; intros n current; cbn [update_hash_loop upwards]; [by apply logs2_fail|].
  replace (2 <=? n) with (1 <? n) by lia. destruct (1 <? n); [|apply logs2_ret]. rewrite bind_cons, <-app_assoc.
  apply (logs2_bind _ _ [] _ []); [apply read_hash_logs|]. intros sib. apply (logs2_bind _ _ [] _ []); [apply write_hash_logs|]. intros _. apply IH.
Qed.

Lemma tiered_read_logs i out : logs2 (tiered_read_page i out) [TraceRead i] (verify_touches L i).
Proof.
  apply logs2_skip; [apply logs2_check|]. intros _. apply (logs2_bind _ _ [TraceRead i] [] [] _).
  { apply logs2_data. rewrite bind_cons, app_nil_r. apply pe_read_page. }
  intros page. apply logs2_state. intros s HL. apply logs2_then; [|auto with logs2]. apply logs2_state. intros s1 HL1.
  apply logs2_then; [|auto 8 with logs2].
  - unfold verify_touches. replace (hl_leaf_base L) with (tm_leaf_base s1) by by rewrite <-HL1. apply verify_loop_logs.
  - intros nc. apply logs2_state. intros s2 _. auto with logs2.
Qed.
Lemma tiered_write_logs i page : logs2 (tiered_write_page i page) [TraceWrite i] (update_touches L i).
Proof.
  apply logs2_skip; [apply logs2_check|]. intros _. apply (logs2_bind _ _ [TraceWrite i] [] [] _).
  { apply logs2_data. rewrite bind_cons, app_nil_r. apply pe_write_page. }
  intros _. apply logs2_state. intros s HL. apply logs2_state. intros s1 HL1. unfold update_touches.
  replace (hl_leaf_base L) with (tm_leaf_base s1) by by rewrite <-HL1.
  apply (logs2_bind _ _ [] _ []); [apply write_hash_logs|]. intros _. apply update_loop_logs.
Qed.

Definition data_event (e : TraceEvent) : list TraceEvent := pe_event EI e.
Definition hash_event (e : TraceEvent) : list TraceEvent := hash_touches L e ≫= pe_event EH.

Lemma data_read i out : emits tiered_state data_log (tiered_read_page i out) (data_event (TraceRead i)).
Proof. pose proof (proj1 (tiered_read_logs i out)) as Hr. by rewrite bind_cons, app_nil_r in Hr. Qed.
Lemma data_write i page : emits tiered_state data_log (tiered_write_page i page) (data_event (TraceWrite i)).
Proof. pose proof (proj1 (tiered_write_logs i page)) as Hr. by rewrite bind_cons, app_nil_r in Hr. Qed.
Lemma hash_read i out : emits tiered_state hash_log (tiered_read_page i out) (hash_event (TraceRead i)).
Proof. exact (proj2 (tiered_read_logs i out)). Qed.
Lemma hash_write i page : emits tiered_state hash_log (tiered_write_page i page) (hash_event (TraceWrite i)).
Proof. exact (proj2 (tiered_write_logs i page)). Qed.

(** The data pages and the hash pages an authenticated store accesses *)
Definition tiered_data_events : PageEvents TS :=
  mkPageEvents tiered_state data_log data_event data_read data_write
    (default_read_emits _ _ _ _ _ data_read) (default_write_emits _ _ _ _ _ data_write).
Definition tiered_hash_events : PageEvents TS :=
  mkPageEvents tiered_state hash_log hash_event hash_read hash_write
    (default_read_emits _ _ _ _ _ hash_read) (default_write_emits _ _ _ _ _ hash_write).

End Tiered.

(** ** A sidecar over a cached store

    Both page stores of an image as [open_file_stores_for_reopen] builds them with a
    sidecar, with the accesses of the files below recorded. *)

Section Stack.
Context `{SL : SubtleLaws} `{HashLaws} {M1 M2 P1 P2 R : Type} `{Rng R}.
Context `{LawfulPageStore M1} `{LawfulPageStore M2} `{LawfulPageStore P1} `{LawfulPageStore P2}.

Definition Sidecar (S T : Type) : Type := TieredMerklePageStore (FrontCachedPageStore (TracingStore S)) (TracingStore T).
Definition data_trace {S T} (s : Sidecar S T) : list TraceEvent := trace (fc_inner (tm_inner s)).
Definition hash_trace {S T} (s : Sidecar S T) : list TraceEvent := trace (tm_hash_store s).
Definition cached_of {S T} (s : Sidecar S T) : Z := fc_cached_pages (tm_inner s).

Definition sidecar_data {S T} `{PageStore S} `{PageStore T} (cached : Z) (L : HashLayout) : StoreEvents (Sidecar S T) :=
  blanket_events (tiered_data_events (front_events tracing_events cached) tracing_events L).
Definition sidecar_hash {S T} `{PageStore S} `{PageStore T} (cached : Z) (L : HashLayout) : StoreEvents (Sidecar S T) :=
  blanket_events (tiered_hash_events (front_events tracing_events cached) tracing_events L).

(** The data pages and the hash pages that [evs] comes down to *)
Definition cache_event (cached : Z) (e : TraceEvent) : list TraceEvent := if page_of e <? cached then [] else [e].
Lemma sidecar_data_events {S T} `{PageStore S} `{PageStore T} cached L evs :
  evs ≫= se_event (sidecar_data (S := S) (T := T) cached L) = evs ≫= cache_event cached.
Proof. done. Qed.
Lemma sidecar_hash_events {S T} `{PageStore S} `{PageStore T} cached L evs :
  evs ≫= se_event (sidecar_hash (S := S) (T := T) cached L) = evs ≫= hash_touches L.
Proof.
  induction evs as [|e evs IH]; [done|]. rewrite !bind_cons, IH. f_equal.
  change (hash_touches L e ≫= (fun x => [x]) = hash_touches L e). apply list_bind_single.
Qed.

Local Abbreviation Oram := (CircuitOram (Sidecar M1 M2) (Sidecar P1 P2) R).

(** What a run of operations adds to the four traces *)
Lemma sidecar_traces (ops : list op) (o o' : Oram) A T outs :
  oram_inv o A T -> Forall (op_ok (co_params o)) ops -> can_record (total_accesses ops) (schedule o) -> exec_ops ops o = (Ok outs, o') ->
  let evs := view_trace (co_params o) (request_of <$> ops) (view_of o) in
  data_trace (meta_store o') = data_trace (meta_store o) ++ (evs ≫= cache_event (cached_of (meta_store o))) /\
  hash_trace (meta_store o') = hash_trace (meta_store o) ++ (evs ≫= hash_touches (layout_of (meta_store o))) /\
  data_trace (payload_store o') = data_trace (payload_store o) ++ (evs ≫= cache_event (cached_of (payload_store o))) /\
  hash_trace (payload_store o') = hash_trace (payload_store o) ++ (evs ≫= hash_touches (layout_of (payload_store o))).
Proof.
  intros Ho Hops Hrec E evs.
  destruct (exec_ops_trace (sidecar_data (cached_of (meta_store o)) (layout_of (meta_store o)))
    (sidecar_data (cached_of (payload_store o)) (layout_of (payload_store o))) ops o A T outs o' Ho Hops Hrec) as (_ & Hm & Hp); [done|done|].
  destruct (exec_ops_trace (sidecar_hash (cached_of (meta_store o)) (layout_of (meta_store o)))
    (sidecar_hash (cached_of (payload_store o)) (layout_of (payload_store o))) ops o A T outs o' Ho Hops Hrec) as (_ & Hm' & Hp'); [done|done|].
  rewrite sidecar_data_events in Hm. rewrite sidecar_data_events in Hp. rewrite sidecar_hash_events in Hm'. rewrite sidecar_hash_events in Hp'.
  split; [exact Hm|]. split; [exact Hm'|]. split; [exact Hp|exact Hp'].
Qed.

(** C8: the same on authenticated, cached stores: two runs that agree on parameters,
    position map, generator, schedule and requests, over stores with the same number of
    cached pages and hash trees laid out alike, show the host the same accesses to the
    data pages and to the pages of hashes of both stores. *)
Theorem authenticated_traces_independent_of_data (ops1 ops2 : list op) (o1 o2 : Oram) A1 T1 A2 T2 outs1 outs2 o1' o2' :
  oram_inv o1 A1 T1 -> oram_inv o2 A2 T2 ->
  co_params o1 = co_params o2 -> view_of o1 = view_of o2 -> request_of <$> ops1 = request_of <$> ops2 ->
  cached_of (meta_store o1) = cached_of (meta_store o2) -> layout_of (meta_store o1) = layout_of (meta_store o2) ->
  cached_of (payload_store o1) = cached_of (payload_store o2) -> layout_of (payload_store o1) = layout_of (payload_store o2) ->
  Forall (op_ok (co_params o1)) ops1 -> Forall (op_ok (co_params o1)) ops2 ->
  can_record (total_accesses ops1) (schedule o1) ->
  exec_ops ops1 o1 = (Ok outs1, o1') -> exec_ops ops2 o2 = (Ok outs2, o2') ->
  exists dm hm dp hp,
    (data_trace (meta_store o1') = data_trace (meta_store o1) ++ dm /\ hash_trace (meta_store o1') = hash_trace (meta_store o1) ++ hm /\
     data_trace (payload_store o1') = data_trace (payload_store o1) ++ dp /\ hash_trace (payload_store o1') = hash_trace (payload_store o1) ++ hp) /\
    (data_trace (meta_store o2') = data_trace (meta_store o2) ++ dm /\ hash_trace (meta_store o2') = hash_trace (meta_store o2) ++ hm /\
     data_trace (payload_store o2') = data_trace (payload_store o2) ++ dp /\ hash_trace (payload_store o2') = hash_trace (payload_store o2) ++ hp).
Proof.
  intros Ho1 Ho2 Hp Hv Hq Hc1 Hl1 Hc2 Hl2 Hops1 Hops2 Hrec E1 E2.
  pose proof (sidecar_traces ops1 o1 o1' A1 T1 outs1 Ho1 Hops1 Hrec E1) as Ht1. cbv zeta in Ht1.
  assert (can_record (total_accesses ops2) (schedule o2)) as Hrec2 by (rewrite <-(same_accesses _ _ Hq); by injection Hv as _ _ <-).
  pose proof (sidecar_traces ops2 o2 o2' A2 T2 outs2 Ho2 ltac:(by rewrite <-Hp) Hrec2 E2) as Ht2. cbv zeta in Ht2.
  rewrite <-Hp, <-Hv, <-Hq, <-Hc1, <-Hl1, <-Hc2, <-Hl2 in Ht2. by do 4 eexists.
Qed.

End Stack.

(** ** The controllers of [Oblivious] over sidecars *)

#[local] Existing Instance bool_subtle.
#[local] Existing Instance bool_subtle_laws.

(** Three pages cached, the hashes of two levels trusted, the others two to a page. *)
Definition demo_sidecar (m : MemPageStore) : outcome (Sidecar MemPageStore MemPageStore) :=
  let? front := front_new (tracing_new m) 3 in
  tiered_build front (tracing_new (mkMem 64 (zeros (7 * 64)))) [1; 2] 2.
Definition demo_layout : HashLayout := mkHashLayout 8 4 2.

(** Building the hashes reads and writes, and keeps the configuration. *)
Definition configuration {S T} (s : Sidecar S T) : HashLayout * Z * Z := (layout_of s, tm_trusted_levels s, cached_of s).
Lemma rebuild_keeps {S T} `{PageStore S} `{PageStore T} `{Hash} : keeps (configuration (S := S) (T := T)) rebuild_hashes.
Proof.
  assert (forall X (m : M (TracingStore T) X), keeps (configuration (S := S) (T := T)) (on_tm_hash_store m)) as Hh by (intros; by apply keeps_zoom).
  assert (forall i out, keeps (configuration (S := S) (T := T)) (on_tm_inner (ps_read_page i out))) as Hi.
  { intros i out. apply keeps_zoom. intros s t ->. unfold configuration, cached_of, layout_of. cbn [tm_inner set_tm_inner tm_leaf_base tm_trusted_node_limit tm_hashes_per_page tm_trusted_levels].
    f_equal. revert s. cut (keeps (fc_cached_pages (S := TracingStore S)) (ps_read_page i out)); [intros Hk s; apply Hk|].
    cbn [ps_read_page front_page_store]. unfold front_read_page, check_page. keeps_tac. unfold on_fc_inner. by apply keeps_zoom. }
  assert (forall n, keeps (configuration (S := S) (T := T)) (check_node_idx n)) as Hn by (intros; unfold check_node_idx; keeps_tac).
  unfold rebuild_hashes, rebuild_leaf, rebuild_node, read_hash, write_hash, read_disk_hash, write_disk_hash. keeps_tac; auto.
Qed.

Lemma tiered_build_keeps {S T} `{PageStore S} `{PageStore T} `{Hash} (inner : FrontCachedPageStore (TracingStore S)) (hs : TracingStore T) id levels t :
  tiered_build inner hs id levels = Ok t -> tm_trusted_levels t = levels /\ cached_of t = fc_cached_pages inner /\
  leaf_base_for_page_count (ps_page_count inner) = Ok (hl_leaf_base (layout_of t)) /\
  trusted_node_limit (hl_leaf_base (layout_of t)) levels = Ok (hl_limit (layout_of t)) /\
  hashes_per_page (ps_page_size hs) = Ok (hl_per_page (layout_of t)).
Proof.
  unfold tiered_build. case_match; [done|]. intros (base & Eb & Eq)%obind_Ok. apply obind_Ok in Eq as (limit & El & Eq).
  apply obind_Ok in Eq as (per_page & Ep & Eq). case_match; [done|].
  match type of Eq with (let (_, _) := rebuild_hashes ?s0 in _) = _ => pose proof (rebuild_keeps s0) as Hk; destruct (rebuild_hashes s0) as [r s1] end.
  apply obind_Ok in Eq as ([] & _ & Eq). injection Eq as <-. cbn [snd] in Hk. unfold configuration, layout_of in Hk. injection Hk as E1 E2 E3 E4 E5.
  unfold layout_of. cbn [hl_leaf_base hl_limit hl_per_page]. by rewrite E1, E2, E3, E4, E5.
Qed.

Lemma demo_sidecar_ok m : ps_ok m -> ps_page_count m = 7 ->
  exists s, demo_sidecar m = Ok s /\ ps_ok s /\ ps_page_count s = 7 /\ ps_page_size s = ps_page_size m /\
    (forall i, in_range 7 i -> ps_content s i = ps_content m i) /\ configuration s = (demo_layout, 2, 3).
Proof.
  intros Hm Hc. destruct (front_new_spec (tracing_new m) 3) as (f & Ef & Hf & Hfz & Hfc & Hfj); [exact Hm|change (0 <= 3 <= ps_page_count m); lia|].
  change (ps_page_count (tracing_new m)) with (ps_page_count m) in *. rewrite Hc in *.
  assert (ps_ok (tracing_new (mkMem 64 (zeros (7 * 64))))) as Hh.
  { change (ps_ok (mkMem 64 (zeros (7 * 64)))). split; [done|]. split; [done|]. split; [done|]. apply zeros_ok. }
  destruct (tiered_build_ok f (tracing_new (mkMem 64 (zeros (7 * 64)))) [1; 2] 2 6) as (s & Es & Hs & _ & Hz & Hcnt & Hj & _);
    [exact Hf|exact Hh|change (front_page_count f <= 2 ^ 62); by rewrite Hfc|done|change (ps_page_count f) with (front_page_count f); by rewrite Hfc|done|].
  exists s. unfold demo_sidecar. rewrite Ef. cbn [obind].
  change (ps_page_count f) with (front_page_count f) in *. change (ps_page_size f) with (fc_page_size f) in *. rewrite Hfc in *.
  split; [exact Es|]. split; [exact Hs|]. split; [exact Hcnt|]. split; [exact (eq_trans Hz Hfz)|].
  split; [intros i Hi; exact (eq_trans (Hj i Hi) (Hfj i Hi))|].
  destruct (tiered_build_keeps _ _ _ _ _ Es) as (El & Ec & Eb & Elim & Ep). unfold configuration. rewrite El, Ec.
  change (ps_page_count f) with (front_page_count f) in *. rewrite Hfc in Eb. destruct (layout_of s) as [base limit per]. cbn [hl_leaf_base hl_limit hl_per_page] in *.
  change (leaf_base_for_page_count 7) with (Ok 8) in Eb. injection Eb as <-. change (trusted_node_limit 8 2) with (Ok 4) in Elim. injection Elim as <-.
  change (hashes_per_page _) with (Ok 2) in Ep. injection Ep as <-.
  unfold front_new in Ef. case_match; [done|]. destruct (front_load _ _ _ _) as [r i]. apply obind_Ok in Ef as (cached & _ & Ef). injection Ef as <-. done.
Qed.

(** The same controller over other stores *)
Definition demo_stack (o : CircuitOram MemPageStore MemPageStore Z) : outcome (CircuitOram (Sidecar MemPageStore MemPageStore) (Sidecar MemPageStore MemPageStore) Z) :=
  let? m := demo_sidecar (meta_store o) in
  let? p := demo_sidecar (payload_store o) in
  Ok (mkOram (co_params o) m p (pos_map o) (stash o) (rng o) (schedule o)).
Lemma demo_stack_ok (o : CircuitOram MemPageStore MemPageStore Z) A T : oram_inv o A T -> co_params o = demo_params ->
  exists o1, demo_stack o = Ok o1 /\ oram_inv o1 A T /\ co_params o1 = demo_params /\ stash o1 = stash o /\ view_of o1 = view_of o /\
    configuration (meta_store o1) = (demo_layout, 2, 3) /\ configuration (payload_store o1) = (demo_layout, 2, 3).
Proof.
  intros [Hp Hf [(Hm & Hmc & Hmz & Hmj) (Hq & Hqc & Hqz & Hqj)] Hb Hs Hbits] Ep. rewrite Ep in *.
  destruct (demo_sidecar_ok (meta_store o) Hm Hmc) as (m & Em & Hm' & Hmc' & Hmz' & Hmj' & Hcm).
  destruct (demo_sidecar_ok (payload_store o) Hq Hqc) as (q & Eq & Hq' & Hqc' & Hqz' & Hqj' & Hcq).
  unfold demo_stack. rewrite Em. cbn [obind]. rewrite Eq. cbn [obind]. eexists. split; [reflexivity|]. rewrite Ep.
  split; [|done]. split; try done. split.
  - split; [exact Hm'|]. split; [exact Hmc'|]. split; [exact (eq_trans Hmz' Hmz)|]. intros i Hi. exact (eq_trans (Hmj' i Hi) (Hmj i Hi)).
  - split; [exact Hq'|]. split; [exact Hqc'|]. split; [exact (eq_trans Hqz' Hqz)|]. intros i Hi. exact (eq_trans (Hqj' i Hi) (Hqj i Hi)).
Qed.
Lemma demo_stack_runs (o : CircuitOram (Sidecar MemPageStore MemPageStore) (Sidecar MemPageStore MemPageStore) Z) A T ops :
  oram_inv o A T -> co_params o = demo_params -> lenZ (occ (stash o)) = 0 -> schedule o = schedule_new demo_params ->
  Forall (op_ok demo_params) ops -> total_stash ops <= 8 -> can_record (total_accesses ops) (schedule_new demo_params) ->
  exists outs o', exec_ops ops o = (Ok outs, o').
Proof.
  intros Ho Hp Hst Hs Hops Hts Hrec. destruct (exec_ops_spec ops o A T 0) as [(o' & T' & E & _)|[Hfull _]]; [lia|done|by rewrite Hp|by rewrite Hs, Z.add_0_r| |].
  - by eexists _, o'.
  - rewrite Hp, Hst in Hfull. cbn [stash_capacity demo_params] in Hfull. lia.
Qed.
Lemma other_stash : forall o, other_build = Ok o -> lenZ (occ (stash o)) = 0 /\ co_params o = demo_params /\ schedule o = schedule_new demo_params.
Proof. intros o E. vm_compute in E. apply Ok_inj in E as <-. done. Qed.

Lemma demo_views i1 i2 : demo_build = Ok i1 -> other_build = Ok i2 -> view_of i1 = view_of i2.
Proof. intros E1 E2. vm_compute in E1, E2. apply Ok_inj in E1 as <-. by apply Ok_inj in E2 as <-. Qed.

Lemma authenticated_traces_independent_of_data_witness :
  exists (o1 o2 o1' o2' : CircuitOram (Sidecar MemPageStore MemPageStore) (Sidecar MemPageStore MemPageStore) Z) outs1 outs2 dm hm dp hp,
    obind demo_build demo_stack = Ok o1 /\ obind other_build demo_stack = Ok o2 /\
    exec_ops demo_ops1 o1 = (Ok outs1, o1') /\ exec_ops demo_ops2 o2 = (Ok outs2, o2') /\
    (data_trace (meta_store o1') = data_trace (meta_store o1) ++ dm /\ hash_trace (meta_store o1') = hash_trace (meta_store o1) ++ hm /\
     data_trace (payload_store o1') = data_trace (payload_store o1) ++ dp /\ hash_trace (payload_store o1') = hash_trace (payload_store o1) ++ hp) /\
    (data_trace (meta_store o2') = data_trace (meta_store o2) ++ dm /\ hash_trace (meta_store o2') = hash_trace (meta_store o2) ++ hm /\
     data_trace (payload_store o2') = data_trace (payload_store o2) ++ dp /\ hash_trace (payload_store o2') = hash_trace (payload_store o2) ++ hp).
Proof.
  destruct demo_inv as (i1 & T1 & E1 & Hi1 & Hp1 & Hs1 & Hst1). destruct other_inv as (i2 & T2 & E2 & Hi2).
  pose proof (demo_views i1 i2 E1 E2) as Hv. destruct (other_stash i2 E2) as (Hst2 & Hp2 & Hs2).
  destruct demo_ops_ok as (Hok1 & Hok2 & _).
  destruct (demo_stack_ok i1 _ _ Hi1 Hp1) as (o1 & Eo1 & Ho1 & Hpo1 & Hso1 & Hvo1 & Hcm1 & Hcp1).
  destruct (demo_stack_ok i2 _ _ Hi2 Hp2) as (o2 & Eo2 & Ho2 & Hpo2 & Hso2 & Hvo2 & Hcm2 & Hcp2).
  assert (schedule o1 = schedule_new demo_params /\ schedule o2 = schedule_new demo_params) as [Hsc1 Hsc2].
  { unfold view_of in Hvo1, Hvo2. injection Hvo1 as _ _ ->. injection Hvo2 as _ _ ->. split; [exact Hs1|exact Hs2]. }
  assert (can_record (total_accesses demo_ops1) (schedule_new demo_params)) as Hr1 by (split; vm_compute; discriminate).
  destruct (demo_stack_runs o1 _ _ demo_ops1 Ho1 Hpo1) as (outs1 & o1' & R1); [by rewrite Hso1|exact Hsc1|exact Hok1|vm_compute; discriminate|exact Hr1|].
  destruct (demo_stack_runs o2 _ _ demo_ops2 Ho2 Hpo2) as (outs2 & o2' & R2); [by rewrite Hso2|exact Hsc2|exact Hok2|vm_compute; discriminate|exact Hr1|].
  destruct (authenticated_traces_independent_of_data demo_ops1 demo_ops2 o1 o2 demo_blocks T1 other_blocks T2 outs1 outs2 o1' o2' Ho1 Ho2)
    as (dm & hm & dp & hp & H1 & H2); [| | | | | | | | | |exact R1|exact R2|].
  - by rewrite Hpo1, Hpo2.
  - rewrite Hvo1, Hvo2. exact Hv.
  - reflexivity.
  - exact (eq_trans (f_equal snd Hcm1) (eq_sym (f_equal snd Hcm2))).
  - exact (eq_trans (f_equal (fun c => c.1.1) Hcm1) (eq_sym (f_equal (fun c => c.1.1) Hcm2))).
  - exact (eq_trans (f_equal snd Hcp1) (eq_sym (f_equal snd Hcp2))).
  - exact (eq_trans (f_equal (fun c => c.1.1) Hcp1) (eq_sym (f_equal (fun c => c.1.1) Hcp2))).
  - by rewrite Hpo1.
  - by rewrite Hpo1.
  - by rewrite Hsc1.
  - exists o1, o2, o1', o2', outs1, outs2, dm, hm, dp, hp. 
    split; [rewrite E1; exact Eo1|]. split; [rewrite E2; exact Eo2|]. split; [exact R1|]. split; [exact R2|]. split; [exact H1|exact H2].
Defined.
