(* ===== verification/ReopenStore.v ===== *)
(** * The stores of the command-line tool ([src/src/bin/oramctl.rs])

    [LogicalPrefixPageStore] shows the first bytes of larger pages; the builder writes
    through it the images whose pages also carry child hashes.
    [CircuitReopenPageStore] is the store an image is reopened with: plain, with a
    sidecar of hashes, or with the hashes embedded.  Both are arrays of pages. *)

From S2P Require Import Prelude Params Store Writable Hash Merkle TieredMerkle Embedded EmbeddedSpec FileStore Aead FrontCache Disk.

(** ** [LogicalPrefixPageStore] *)

Record LogicalPrefixPageStore (S : Type) : Type := mkPrefix {
  lp_inner : S;
  lp_logical_page_size : Z;
  lp_physical_page_size : Z
}.
Arguments mkPrefix {S}. Arguments lp_inner {S}. Arguments lp_logical_page_size {S}. Arguments lp_physical_page_size {S}.

Section PrefixOps.
Context {S : Type} `{PageStore S}.
Local Abbreviation LS := (LogicalPrefixPageStore S).

(** [LogicalPrefixPageStore::new] *)
Definition prefix_new (inner : S) (logical_page_size : Z) : outcome LS :=
  let physical_page_size := ps_page_size inner in
  if (logical_page_size =? 0) || (physical_page_size <? logical_page_size)
  then Err (InvalidInput "logical page size {} is not in 1..={}")
  else Ok (mkPrefix inner logical_page_size physical_page_size).

Definition set_lp_inner (i : S) (s : LS) : LS := mkPrefix i (lp_logical_page_size s) (lp_physical_page_size s).
Definition on_lp_inner {A} (m : M S A) : M LS A := zoom lp_inner set_lp_inner m.

(** [<LogicalPrefixPageStore as PageStore>::{read_page, write_page}] *)
Definition prefix_read_page (page_idx : Z) (out : bytes) : M LS bytes :=
  let* s := gets (fun s => s) in
  let* _ := guardm (lenZ out =? lp_logical_page_size s) (InvalidInput "logical prefix read len {} != page_size {}") in
  let* physical := on_lp_inner (ps_read_page page_idx (zeros (lp_physical_page_size s))) in
  let* src := lift (slice physical 0 (lp_logical_page_size s)) in
  lift (copy_from_slice out src).
Definition prefix_write_page (page_idx : Z) (input : bytes) : M LS unit :=
  let* s := gets (fun s => s) in
  let* _ := guardm (lenZ input =? lp_logical_page_size s) (InvalidInput "logical prefix write len {} != page_size {}") in
  let* physical := lift (splice (zeros (lp_physical_page_size s)) 0 input) in
  on_lp_inner (ps_write_page page_idx physical).

#[export] Instance prefix_page_store : PageStore LS := {|
  ps_page_size := lp_logical_page_size;
  ps_page_count := fun s => ps_page_count (lp_inner s);
  ps_read_page := prefix_read_page;
  ps_write_page := prefix_write_page;
  ps_read_pages := default_read_pages lp_logical_page_size prefix_read_page;
  ps_write_pages := default_write_pages lp_logical_page_size prefix_write_page;
  ps_flush := on_lp_inner ps_flush;
  ps_tiered_merkle_state := fun _ => None
|}.

End PrefixOps.

Section PrefixKeyed.
Context {C S : Type} `{Keyed (StoreKey C) S}.

Definition prefix_key (s : LogicalPrefixPageStore S) : StoreKey C :=
  let k := key_of (lp_inner s) in mkStoreKey (k_cipher k) (k_page k) (k_count k) (Some (lp_logical_page_size s)).

Lemma keeps_lp_inner {A} (m : M S A) : keeps key_of m -> keeps prefix_key (on_lp_inner m).
Proof. intros Hm. apply keeps_zoom. intros s t ->. unfold prefix_key. cbn. by rewrite Hm. Qed.
Lemma keeps_prefix_read i out : keeps prefix_key (prefix_read_page i out).
Proof. unfold prefix_read_page. keeps_tac. apply keeps_lp_inner, keyed_read_page. Qed.
Lemma keeps_prefix_write i page : keeps prefix_key (prefix_write_page i page).
Proof. unfold prefix_write_page. keeps_tac. apply keeps_lp_inner, keyed_write_page. Qed.

#[export] Instance prefix_keyed : Keyed (StoreKey C) (LogicalPrefixPageStore S).
Proof.
  refine {| key_of := prefix_key; keyed_read_page := keeps_prefix_read; keyed_write_page := keeps_prefix_write;
            keyed_flush := keeps_lp_inner _ keyed_flush |};
    intros; cbn; unfold default_read_pages, default_write_pages; keeps_tac; first [apply keeps_prefix_read|apply keeps_prefix_write].
Defined.

End PrefixKeyed.

Section PrefixLawful.
Context {S : Type} `{PageStore S} `{!LawfulPageStore S}.
Local Abbreviation LS := (LogicalPrefixPageStore S).

Record prefix_ok (s : LS) : Prop := {
  lk_inner : ps_ok (lp_inner s);
  lk_physical : lp_physical_page_size s = ps_page_size (lp_inner s);
  lk_logical : 0 < lp_logical_page_size s <= ps_page_size (lp_inner s)
}.
Definition prefix_content (s : LS) (i : Z) : bytes := take (Z.to_nat (lp_logical_page_size s)) (ps_content (lp_inner s) i).
Local Abbreviation next := (page_next prefix_ok lp_logical_page_size (fun s => ps_page_count (lp_inner s)) prefix_content).

Lemma prefix_content_ok (s : LS) i : prefix_ok s -> in_range (ps_page_count (lp_inner s)) i ->
  page_ok (lp_logical_page_size s) (prefix_content s i).
Proof.
  intros [Hin Hph Hl] Hi. destruct (ps_content_ok _ i Hin Hi) as [Hlen Hb]. split; [|by apply Forall_take].
  unfold prefix_content, lenZ in *. rewrite length_take. lia.
Qed.

Lemma prefix_next (s : LS) inner' f g : prefix_ok s -> ps_next (lp_inner s) f inner' ->
  (forall i, in_range (ps_page_count (lp_inner s)) i -> take (Z.to_nat (lp_logical_page_size s)) (f i) = g i) ->
  next s g (set_lp_inner inner' s).
Proof.
  intros [Hin Hph Hl] (Hok & Hsz & Hc & Hf) Hg. split; [split; cbn; (done || congruence)|]. split_and!; [done|done|].
  intros j Hj. unfold prefix_content. cbn. by rewrite Hf, Hg.
Qed.

Lemma prefix_read_page_ok (s : LS) i out : prefix_ok s -> in_range (ps_page_count (lp_inner s)) i ->
  lenZ out = lp_logical_page_size s ->
  exists s', prefix_read_page i out s = (Ok (prefix_content s i), s') /\ next s (prefix_content s) s'.
Proof.
  intros Hs Hi Ho. pose proof Hs as [Hin Hph Hl]. unfold prefix_read_page. rewrite bind_gets, bind_guardm, Ho, Z.eqb_refl.
  destruct (ps_read_page_ok (lp_inner s) i (zeros (lp_physical_page_size s)) Hin Hi) as (inner' & E & Hn).
  { rewrite lenZ_zeros; lia. }
  erewrite bind_eq by (by apply zoom_eq). rewrite bind_lift. pose proof (ps_content_ok _ i Hin Hi) as [Hlen _].
  unfold slice. rewrite (proj2 (andb_true_iff _ _)) by lia. change (Z.to_nat 0) with 0%nat. rewrite drop_0.
  fold (prefix_content s i).
  exists (set_lp_inner inner' s). split; [|by eapply prefix_next].
  unfold lift, copy_from_slice. destruct (prefix_content_ok s i Hs Hi) as [-> _]. by rewrite Ho, Z.eqb_refl.
Qed.

Lemma pad_page (s : LS) page : 0 < lp_logical_page_size s <= lp_physical_page_size s -> page_ok (lp_logical_page_size s) page ->
  splice (zeros (lp_physical_page_size s)) 0 page = Ok (page ++ zeros (lp_physical_page_size s - lp_logical_page_size s)) /\
  page_ok (lp_physical_page_size s) (page ++ zeros (lp_physical_page_size s - lp_logical_page_size s)).
Proof.
  intros Hl [Hp Hb]. split; [|split].
  - assert (zeros (lp_physical_page_size s) = [] ++ zeros (lp_logical_page_size s) ++ zeros (lp_physical_page_size s - lp_logical_page_size s)) as ->.
    { cbn [app]. unfold zeros. rewrite <-replicate_add. f_equal. lia. }
    by rewrite (splice_app []) by (rewrite ?lenZ_zeros by lia; done).
  - rewrite lenZ_app, lenZ_zeros; lia.
  - apply Forall_app. split; [done|apply zeros_ok].
Qed.

Lemma prefix_write_page_ok (s : LS) i page : prefix_ok s -> in_range (ps_page_count (lp_inner s)) i ->
  page_ok (lp_logical_page_size s) page ->
  exists s', prefix_write_page i page s = (Ok tt, s') /\ next s (page_upd i page (prefix_content s)) s'.
Proof.
  intros Hs Hi Hp. pose proof Hs as [Hin Hph Hl]. unfold prefix_write_page. rewrite bind_gets, bind_guardm, (proj1 Hp), Z.eqb_refl.
  destruct (pad_page s page) as [-> Hpad]; [lia|done|]. rewrite bind_lift. rewrite Hph in Hpad at 1.
  destruct (ps_write_page_ok (lp_inner s) i _ Hin Hi Hpad) as (inner' & E & Hn).
  exists (set_lp_inner inner' s). split; [by apply zoom_eq|]. eapply prefix_next; [done|exact Hn|].
  intros j _. unfold page_upd. destruct (j =? i); [|done]. apply take_app_length'. destruct Hp as [Hlen _]. unfold lenZ in *. lia.
Qed.

Lemma prefix_dims_ok (s : LS) : prefix_ok s -> 0 < lp_logical_page_size s /\ 0 < ps_page_count (lp_inner s).
Proof. intros [Hin Hph Hl]. split; [lia|apply (ps_dims_ok _ Hin)]. Qed.

#[export] Instance prefix_lawful : LawfulPageStore LS := {|
  ps_ok := prefix_ok;
  ps_content := prefix_content;
  ps_content_ok := prefix_content_ok;
  ps_dims_ok := prefix_dims_ok;
  ps_read_page_ok := prefix_read_page_ok;
  ps_write_page_ok := prefix_write_page_ok;
  ps_read_pages_ok := default_read_pages_ok prefix_read_page (fun s Hs => proj1 (prefix_dims_ok s Hs)) prefix_read_page_ok;
  ps_write_pages_ok := default_write_pages_ok prefix_write_page prefix_write_page_ok;
  ps_flush_ok := fun s Hs =>
    let '(ex_intro _ inner' (conj E Hn)) := ps_flush_ok (lp_inner s) (lk_inner s Hs) in
    ex_intro _ (set_lp_inner inner' s) (conj (zoom_eq lp_inner set_lp_inner ps_flush s _ _ E)
      (prefix_next s inner' _ _ Hs Hn (fun _ _ => eq_refl)))
|}.

End PrefixLawful.

(** What is written through the prefix view is stored with a tail of zeros. *)

Section PrefixDisk.
Context {S : Type} `{PageStore S} `{!LawfulPageStore S} `{!WritableStore S} `{!Medium S} `{!DiskStore S}.
Local Abbreviation LS := (LogicalPrefixPageStore S).

Definition padded (s : LS) (page : bytes) : bytes := page ++ zeros (lp_physical_page_size s - lp_logical_page_size s).

#[export] Instance prefix_writable : WritableStore LS.
Proof.
  refine {| ws_ok := fun s => ws_ok (lp_inner s) /\ lp_physical_page_size s = ps_page_size (lp_inner s) /\
                       0 < lp_logical_page_size s <= lp_physical_page_size s;
            ws_holds := fun s i page => lenZ page = lp_logical_page_size s /\ ws_holds (lp_inner s) i (padded s page) |}.
  intros s i page (Hin & Hph & Hl) Hi Hp. cbn in Hi, Hp. destruct (pad_page s page Hl Hp) as [Es Hpad]. rewrite Hph in Hpad at 1.
  destruct (ws_write_page_ok (lp_inner s) i _ Hin Hi Hpad) as (inner' & E & Hin' & Hz & Hc & Hh & Ho).
  exists (set_lp_inner inner' s). split.
  { change (prefix_write_page i page s = (Ok tt, set_lp_inner inner' s)). unfold prefix_write_page. rewrite bind_gets, bind_guardm, (proj1 Hp), Z.eqb_refl, Es, bind_lift. by apply zoom_eq. }
  cbn. destruct Hl as [Hl0 Hl1]. split_and!; try (done || congruence || apply (proj1 Hp)). intros j p Hne Hr [? ?]. split; [done|]. by apply Ho.
Defined.

#[export] Instance prefix_medium : Medium LS :=
  {| backing := fun s => backing (lp_inner s);
     on_disk := fun s i page => lenZ page = lp_logical_page_size s /\ exists tail, on_disk (lp_inner s) i (page ++ tail) |}.

#[export] Instance prefix_disk : DiskStore LS.
Proof.
  split.
  - intros s Hs. destruct (ds_flush_ok (lp_inner s) (lk_inner s Hs)) as (inner' & E & Hn & Hd).
    exists (set_lp_inner inner' s). split; [by apply zoom_eq|]. split; [by eapply prefix_next|]. intros i Hi. split.
    + apply (prefix_content_ok s i Hs Hi).
    + exists (drop (Z.to_nat (lp_logical_page_size s)) (ps_content (lp_inner s) i)). cbn. unfold prefix_content. rewrite take_drop. by apply Hd.
  - intros s f (Hin & Hph & Hl) Hf.
    destruct (ds_written_flush_ok (lp_inner s) (fun i => padded s (f i)) Hin) as (inner' & E & Hok & Hz & Hc & Hj); [intros i Hi; by apply Hf|].
    exists (set_lp_inner inner' s). split; [by apply zoom_eq|]. split_and!; [split; cbn; (done || congruence || (rewrite Hz; lia))|done|exact Hc|].
    intros i Hi. destruct (Hf i Hi) as [Hlen _], (Hj i Hi) as [Hci Hdi]. cbn. split.
    + unfold prefix_content. cbn. rewrite Hci. unfold padded. apply take_app_length'. unfold lenZ in Hlen. lia.
    + split; [done|]. eexists. exact Hdi.
Qed.

End PrefixDisk.

#[export] Instance prefix_imaged {C S} `{CipherLaws C} `{PageStore S, !LawfulPageStore S, !Medium S, !Keyed (StoreKey C) S, !Imaged S} :
  Imaged (LogicalPrefixPageStore S).
Proof.
  split.
  - intros s [Hin Hph Hl]. destruct (img_shape (lp_inner s) Hin) as (? & ? & ?). split_and!; done.
  - intros s f Hs Hd. pose proof Hs as [Hin Hph Hl].
    destruct (img_file (lp_inner s) f Hin) as [Hl1 Hl2 Hl3]; [|by split].
    intros i Hi. destruct (Hd i Hi) as (page & Hpre & _ & tail & Ht). exists (page ++ tail). split; [|done].
    etrans; [exact Hpre|by exists tail].
Qed.

(** ** [CircuitReopenPageStore] *)

(** [B] is the boxed store. *)
Inductive CircuitReopenPageStore (B : Type) : Type :=
| Plain (store : B)
| Sidecar (store : TieredMerklePageStore B B)
| Embedded (store : EmbeddedTreePageStore B).
Arguments Plain {B}. Arguments Sidecar {B}. Arguments Embedded {B}.

Section ReopenOps.
Context {B : Type} `{PageStore B} `{Hash}.
Local Abbreviation RS := (CircuitReopenPageStore B).

(** [read_plain_path_pages], [write_plain_path_pages] *)
Definition read_plain_path_pages (path : list Z) : M B (list bytes) :=
  let* page_size := gets ps_page_size in
  mapM (fun page_idx => ps_read_page page_idx (zeros page_size)) path.
Definition write_plain_path_pages (path : list Z) (pages : list bytes) : M B unit :=
  let* _ := guardm (lenZ path =? lenZ pages) (InvalidInput "path length {} != page count {}") in
  let* page_size := gets ps_page_size in
  iterM (fun ip : Z * bytes =>
           let* _ := guardm (lenZ ip.2 =? page_size) (InvalidInput "path page len {} != page_size {}") in
           ps_write_page ip.1 ip.2)
        (zip path pages).

(** [read_plain_paths_pages], [write_plain_paths_pages] *)
Definition read_plain_paths_pages (paths : list (list Z)) : M B (list (list bytes)) :=
  let* flat_pages := ps_read_pages (concat paths) in
  lift (regroup paths flat_pages).
Definition write_plain_paths_pages (paths : list (list Z)) (pages : list (list bytes)) : M B unit :=
  let* _ := guardm (lenZ paths =? lenZ pages) (InvalidInput "path count {} != page-path count {}") in
  let* _ := guardm (forallb (fun pp : list Z * list bytes => lenZ pp.1 =? lenZ pp.2) (zip paths pages))
              (InvalidInput "path length {} != page count {}") in
  ps_write_pages (concat paths) (concat pages).

(** A method by cases on the store. *)
Definition on_store {A} (plain : M B A) (sidecar : M (TieredMerklePageStore B B) A)
    (embedded : M (EmbeddedTreePageStore B) A) : M RS A := fun s =>
  match s with
  | Plain b => let (r, b') := plain b in (r, Plain b')
  | Sidecar t => let (r, t') := sidecar t in (r, Sidecar t')
  | Embedded e => let (r, e') := embedded e in (r, Embedded e')
  end.

#[export] Instance reopen_path_store : PathPageStore RS := {|
  pp_page_size := fun s => match s with
    Plain b => ps_page_size b | Sidecar t => ps_page_size t | Embedded e => pp_page_size e end;
  pp_page_count := fun s => match s with
    Plain b => ps_page_count b | Sidecar t => ps_page_count t | Embedded e => pp_page_count e end;
  pp_read_path_pages := fun path =>
    on_store (read_plain_path_pages path) (pp_read_path_pages path) (pp_read_path_pages path);
  pp_write_path_pages := fun path pages =>
    on_store (write_plain_path_pages path pages) (pp_write_path_pages path pages) (pp_write_path_pages path pages);
  pp_read_paths_pages := fun paths =>
    on_store (read_plain_paths_pages paths) (pp_read_paths_pages paths) (pp_read_paths_pages paths);
  pp_write_paths_pages := fun paths pages =>
    on_store (write_plain_paths_pages paths pages) (pp_write_paths_pages paths pages) (pp_write_paths_pages paths pages);
  pp_flush := on_store ps_flush ps_flush pp_flush;
  pp_tiered_merkle_state := fun s => match s with
    Plain b => ps_tiered_merkle_state b | Sidecar t => Some (trusted_state t) | Embedded _ => None end;
  pp_embedded_tree_state := fun s => match s with
    Embedded e => Some (embedded_state e) | Plain _ | Sidecar _ => None end
|}.

End ReopenOps.

(** *** The reopened store is an array of pages *)

Section ReopenLawful.
Context {B : Type} `{PageStore B} `{!LawfulPageStore B} `{HashLaws}.
Local Abbreviation RS := (CircuitReopenPageStore B).

Definition reopen_ok (s : RS) : Prop :=
  match s with Plain b => ps_ok b | Sidecar t => pp_ok t | Embedded e => pp_ok e end.
Definition reopen_content (s : RS) : Z -> bytes :=
  match s with Plain b => ps_content b | Sidecar t => pp_content t | Embedded e => pp_content e end.

Lemma iterM_ext {S A} (f g : A -> M S unit) l (s : S) :
  (forall x, x ∈ l -> forall s, f x s = g x s) -> iterM f l s = iterM g l s.
Proof.
  revert s. induction l as [|x l IH]; intros s Hfg; [done|]. cbn [iterM]. unfold bind. rewrite Hfg by set_solver.
  destruct (g x s) as [[]]; [|done..]. apply IH. set_solver.
Qed.

Lemma write_plain_path_ok (s : B) path pages : ps_ok s -> Forall (in_range (ps_page_count s)) path ->
  Forall (page_ok (ps_page_size s)) pages -> length path = length pages ->
  exists s', write_plain_path_pages path pages s = (Ok tt, s') /\ ps_next s (pages_upd path pages (ps_content s)) s'.
Proof.
  intros Hs Hi Hp Hl. destruct (default_write_pages_ok ps_write_page ps_write_page_ok s path pages Hs Hi Hp Hl) as (s' & E & Hn).
  exists s'. split; [|done]. revert E. unfold write_plain_path_pages, default_write_pages.
  rewrite !bind_guardm, (proj2 (Z.eqb_eq _ _)), !bind_gets by (unfold lenZ; lia). intros <-. clear Hn.
  apply iterM_ext. intros [i p] Hx%elem_of_zip_r s0. rewrite Forall_forall in Hp. apply Hp in Hx as [Hx _].
  cbn [fst snd]. by rewrite !bind_guardm, Hx, Z.eqb_refl.
Qed.

#[export] Instance reopen_lawful : LawfulPathStore RS.
Proof.
  refine {| pp_ok := reopen_ok; pp_content := reopen_content |}.
  - intros [b|t|e] i Hs Hi; [by apply ps_content_ok|exact (pp_content_ok t i Hs Hi)|exact (pp_content_ok e i Hs Hi)].
  - intros [s|s|s] path Hs Hp.
    + destruct (default_read_pages_ok ps_read_page (fun s Hs => proj1 (ps_dims_ok s Hs)) ps_read_page_ok s path Hs
        (tree_path_range _ _ Hp)) as (s' & E & Hn). exists (Plain s'). split; [|exact Hn].
      change (read_plain_path_pages path s = (Ok (ps_content s <$> path), s')) in E.
      unfold pp_read_path_pages, reopen_path_store, on_store. by rewrite E.
    + destruct (pp_read_path_pages_ok s path Hs Hp) as (s' & E & Hn). exists (Sidecar s'). split; [|exact Hn].
      unfold pp_read_path_pages at 1, reopen_path_store, on_store. by rewrite E.
    + destruct (pp_read_path_pages_ok s path Hs Hp) as (s' & E & Hn). exists (Embedded s'). split; [|exact Hn].
      unfold pp_read_path_pages at 1, reopen_path_store, on_store. by rewrite E.
  - intros [s|s|s] path pages Hs Hp Hpg Hl.
    + destruct (write_plain_path_ok s path pages Hs (tree_path_range _ _ Hp) Hpg Hl) as (s' & E & Hn).
      exists (Plain s'). split; [|exact Hn]. unfold pp_write_path_pages, reopen_path_store, on_store. by rewrite E.
    + destruct (pp_write_path_pages_ok s path pages Hs Hp Hpg Hl) as (s' & E & Hn). exists (Sidecar s'). split; [|exact Hn].
      unfold pp_write_path_pages at 1, reopen_path_store, on_store. by rewrite E.
    + destruct (pp_write_path_pages_ok s path pages Hs Hp Hpg Hl) as (s' & E & Hn). exists (Embedded s'). split; [|exact Hn].
      unfold pp_write_path_pages at 1, reopen_path_store, on_store. by rewrite E.
  - intros [s|s|s] paths Hs Hp.
    + destruct (flat_read_ok s paths Hs Hp) as (s' & E & Hn). exists (Plain s'). split; [|exact Hn].
      change (flat_read_paths_pages paths s) with (read_plain_paths_pages paths s) in E.
      unfold pp_read_paths_pages, reopen_path_store, on_store. by rewrite E.
    + destruct (pp_read_paths_pages_ok s paths Hs Hp) as (s' & E & Hn). exists (Sidecar s'). split; [|exact Hn].
      unfold pp_read_paths_pages at 1, reopen_path_store, on_store. by rewrite E.
    + destruct (pp_read_paths_pages_ok s paths Hs Hp) as (s' & E & Hn). exists (Embedded s'). split; [|exact Hn].
      unfold pp_read_paths_pages at 1, reopen_path_store, on_store. by rewrite E.
  - intros [s|s|s] paths pages Hs Hp Hpg Hl.
    + destruct (flat_write_ok s paths pages Hs Hp Hpg Hl) as (s' & E & Hn). exists (Plain s'). split; [|exact Hn].
      change (flat_write_paths_pages paths pages s) with (write_plain_paths_pages paths pages s) in E.
      unfold pp_write_paths_pages, reopen_path_store, on_store. by rewrite E.
    + destruct (pp_write_paths_pages_ok s paths pages Hs Hp Hpg Hl) as (s' & E & Hn). exists (Sidecar s'). split; [|exact Hn].
      unfold pp_write_paths_pages at 1, reopen_path_store, on_store. by rewrite E.
    + destruct (pp_write_paths_pages_ok s paths pages Hs Hp Hpg Hl) as (s' & E & Hn). exists (Embedded s'). split; [|exact Hn].
      unfold pp_write_paths_pages at 1, reopen_path_store, on_store. by rewrite E.
  - intros [s|s|s] Hs.
    + destruct (ps_flush_ok s Hs) as (s' & E & Hn). exists (Plain s'). split; [|exact Hn].
      unfold pp_flush, reopen_path_store, on_store. by rewrite E.
    + destruct (pp_flush_ok s Hs) as (s' & E & Hn). exists (Sidecar s'). split; [|exact Hn].
      unfold pp_flush at 1, reopen_path_store, on_store. change (ps_flush s) with (pp_flush s). by rewrite E.
    + destruct (pp_flush_ok s Hs) as (s' & E & Hn). exists (Embedded s'). split; [|exact Hn].
      unfold pp_flush at 1, reopen_path_store, on_store. by rewrite E.
Defined.

End ReopenLawful.

(** *** Flushing and reopening *)

Section Settled.
Context {B : Type} `{PageStore B} `{!LawfulPageStore B} `{!WritableStore B} `{!Medium B} `{!DiskStore B} `{HashLaws}.
Local Abbreviation RS := (CircuitReopenPageStore B).
Local Abbreviation TS := (TieredMerklePageStore B B).
Local Abbreviation ES := (EmbeddedTreePageStore B).

(** The file of a boxed store holds its pages. *)
Definition box_settled (b : B) : Prop := forall i, in_range (ps_page_count b) i -> on_disk b i (ps_content b i).

Definition settled (s : RS) : Prop :=
  match s with
  | Plain b => box_settled b
  | Sidecar t => box_settled (tm_inner t) /\ box_settled (tm_hash_store t)
  | Embedded e => box_settled (et_inner e)
  end.

Lemma box_flush (b : B) : ps_ok b -> exists b', ps_flush b = (Ok tt, b') /\ ps_next b (ps_content b) b' /\ box_settled b'.
Proof.
  intros Hb. destruct (ds_flush_ok b Hb) as (b' & E & Hn & Hd). exists b'. split_and!; [done|done|].
  destruct Hn as (_ & _ & Hc & Hj). intros i Hi. rewrite Hc in Hi. rewrite Hj by done. by apply Hd.
Qed.

Lemma sidecar_flush (t : TS) : tiered_ok t ->
  exists t', tiered_flush t = (Ok tt, t') /\ pp_next t (pp_content t) t' /\ settled (Sidecar t').
Proof.
  intros Ht. destruct (tiered_flush_ok t Ht) as (t' & E & Hn). exists t'. split_and!; [done|exact Hn|]. cbn [settled].
  destruct (box_flush (tm_inner t)) as (i' & E1 & _ & Hi); [apply (ts_inner t (proj1 Ht))|].
  destruct (box_flush (tm_hash_store t)) as (h' & E2 & _ & Hh); [apply (ts_hash_store t (proj1 Ht))|].
  unfold tiered_flush in E. erewrite bind_eq in E by (by apply zoom_eq). unfold on_tm_hash_store in E.
  erewrite zoom_eq in E by exact E2. by injection E as <-.
Qed.

Lemma embedded_flush (e : ES) : embedded_inv e ->
  exists e', pp_flush e = (Ok tt, e') /\ pp_next e (pp_content e) e' /\ settled (Embedded e').
Proof.
  intros He. destruct (embedded_flush_ok e He) as (e' & E & Hn). exists e'. split_and!; [done|exact Hn|].
  destruct (box_flush (et_inner e)) as (i' & E1 & _ & Hi); [apply (es_inner e (tr_shape e _ He))|].
  unfold on_et_inner in E. erewrite zoom_eq in E by exact E1. by injection E as <-.
Qed.

Lemma reopen_flush (s : RS) : pp_ok s ->
  exists s', pp_flush s = (Ok tt, s') /\ pp_next s (pp_content s) s' /\ settled s'.
Proof.
  destruct s as [b|t|e]; intros Hs.
  - destruct (box_flush b Hs) as (b' & E & Hn & Hd). exists (Plain b'). split_and!; [|exact Hn|exact Hd].
    unfold pp_flush, reopen_path_store, on_store. by rewrite E.
  - destruct (sidecar_flush t Hs) as (t' & E & Hn & Hd). exists (Sidecar t'). split_and!; [|exact Hn|exact Hd].
    unfold pp_flush, reopen_path_store, on_store. change (ps_flush t) with (tiered_flush t). by rewrite E.
  - destruct (embedded_flush e Hs) as (e' & E & Hn & Hd). exists (Embedded e'). split_and!; [|exact Hn|exact Hd].
    unfold pp_flush at 1, reopen_path_store, on_store. by rewrite E.
Qed.

(** The trusted state opens stores that hold the same pages. *)
Lemma sidecar_reopens (t : TS) (inner hs : B) : tiered_ok t ->
  ps_next (tm_inner t) (ps_content (tm_inner t)) inner -> ps_next (tm_hash_store t) (ps_content (tm_hash_store t)) hs ->
  exists t', from_trusted_state inner hs (trusted_state t) = Ok t' /\ pp_next t (pp_content t) t' /\
    trusted_state t' = trusted_state t /\ tm_inner t' = inner /\ tm_hash_store t' = hs.
Proof.
  intros Ht Hi Hh. pose proof Ht as [Hs Ha]. pose proof Hs as [_ _ Hsz Hc Hb _ Hlev Hlim Hpp Hnodes Hpages Htr Hlb].
  pose proof Hi as (Hi1 & Hi2 & Hi3 & Hi4). pose proof Hh as (Hh1 & Hh2 & Hh3 & Hh4).
  set (t' := set_tm_hash_store hs (set_tm_inner inner t)). exists t'.
  assert (same_pages (set_tm_inner inner t) t') as Hsp by (exists hs, (tm_trusted_hashes t); by split_and!).
  split_and!; [| |unfold t', trusted_state; cbn; by rewrite Hh2|done|done].
  - assert (trailing_zeros (tm_leaf_base t) < 63) as Htz.
    { destruct (ts_pow2 t Hs) as (k & Hk & E). rewrite E in Hb |- *. rewrite (proj2 (pow2_facts k Hk)).
      destruct (decide (k <= 62)); [lia|]. assert (2 ^ 63 <= 2 ^ k) by (apply Z.pow_le_mono_r; lia).
      change (2 ^ 63) with 9223372036854775808 in *. change (2 ^ 62) with 4611686018427387904 in *. lia. }
    unfold from_trusted_state, trusted_state. cbn [tms_page_count tms_page_size tms_hash_page_size tms_trusted_levels tms_trusted_hashes tms_store_id].
    rewrite Hi3, Hi2, Hh2, <-Hc, <-Hsz, !Z.eqb_refl. cbn [negb]. rewrite Hlb. cbn [obind]. unfold trusted_node_limit.
    rewrite (proj2 (Z.eqb_neq _ _)), (proj2 (Z.ltb_ge _ _)), (proj2 (Z.ltb_lt _ _)) by lia. cbn [orb obind].
    rewrite Htr, <-Hlim, Z.eqb_refl. cbn [negb]. unfold hashes_per_page. rewrite (proj2 (Z.ltb_ge _ _)) by lia. cbn [obind].
    assert (disk_hash_nodes (tm_leaf_base t) (tm_trusted_node_limit t) = tm_disk_hash_nodes t) as ->.
    { rewrite Hnodes. apply wrap_small. change (2 ^ 62) with 4611686018427387904 in *.
      destruct (tiered_pos t Hs) as (_ & _ & Hb1 & Hl1 & _).
      change (2 ^ 64) with 18446744073709551616. split; [|lia]. rewrite Hlim.
      destruct (ts_pow2 t Hs) as (k & Hk & E). rewrite E, (proj2 (pow2_facts k Hk)) in Hlev. rewrite E.
      replace (2 ^ k * 2) with (2 ^ (k + 1)) by (rewrite Z.pow_add_r; lia).
      pose proof (Z.pow_le_mono_r 2 (tm_trusted_levels t) (k + 1)). lia. }
    rewrite <-(proj1 Hpp), Hh3. unfold pages_for_hash_nodes. rewrite (proj2 (Z.ltb_ge _ _)) by lia.
    unfold t'. destruct t. cbn in *. by subst.
  - apply (tiered_next t t' inner); [done|exact Hi|done|].
    destruct (tiered_pos t Hs) as (_ & _ & Hb1 & _). eapply hash_tree_ext; [done| |lia|exact Ha].
    intros n Hn. unfold stored. cbn. case_match eqn:En; [done|]. zbool. unfold disk_hash. cbn. f_equal.
    symmetry. apply Hh4. apply disk_slot; [done|lia].
Qed.

Lemma embedded_reopens (e : ES) (inner : B) : embedded_inv e -> ps_next (et_inner e) (ps_content (et_inner e)) inner ->
  exists e', embedded_from_state inner (embedded_state e) = Ok e' /\ pp_next e (pp_content e) e' /\
    embedded_state e' = embedded_state e /\ et_inner e' = inner.
Proof.
  intros He Hn. pose proof (tr_shape e _ He) as Hsh. pose proof (trusts_next e _ _ inner He Hn) as Ht.
  destruct (embedded_reopen (set_et_inner inner e) _ Ht) as (e' & E & Ht' & Hid & Hc & Hl & Hin).
  exists e'. split; [exact E|]. cbn in Hid, Hc, Hl, Hin.
  assert (et_root_hash e' = et_root_hash e) as Hr.
  { unfold embedded_from_state in E. cbn in E. apply obind_Ok in E as ([] & _ & E). by injection E as <-. }
  split_and!; [|unfold embedded_state; congruence|done].
  assert (forall i, in_range (et_page_count e) i -> disk_page (et_logical_page_size e') (et_inner e') i = disk_page (et_logical_page_size e) (et_inner e) i) as Hd.
  { intros i Hi. rewrite Hl, Hin. by apply (served_next e). }
  split; [|split; [done|split; [done|]]].
  - eapply trusts_ext; [|exact Ht']. intros i Hi. rewrite Hc in Hi. symmetry. by apply Hd.
  - intros j Hj. change (ep_logical (disk_page (et_logical_page_size e') (et_inner e') j) = ep_logical (disk_page (et_logical_page_size e) (et_inner e) j)).
    by rewrite Hd.
Qed.

End Settled.
