(* ===== verification/ReopenKeys.v ===== *)
(** * What an image is reopened with

    No operation of a reopened store changes how it is authenticated, its store id or
    the keys of the stores under it.  [reopen_keyed_lawful] is the path-store contract
    with these fixed, so that a controller over it can be saved and opened again. *)

From S2P Require Import Prelude Params Store Writable Hash Merkle TieredMerkle Embedded EmbeddedSpec FileStore Aead FrontCache Disk ReopenStore.

(** ** Keys *)

Inductive ReopenKey (C : Type) : Type :=
| PlainKey (k : StoreKey C)
| SidecarKey (store_id : bytes) (trusted_levels : Z) (k hash : StoreKey C)
| EmbeddedKey (store_id : bytes) (k : StoreKey C).
Arguments PlainKey {C}. Arguments SidecarKey {C}. Arguments EmbeddedKey {C}.

Section Keys.
Context {C B : Type} `{Keyed (StoreKey C) B} `{Hash}.
Local Abbreviation RS := (CircuitReopenPageStore B).
Local Abbreviation TS := (TieredMerklePageStore B B).
Local Abbreviation ES := (EmbeddedTreePageStore B).

Definition tiered_key (t : TS) : ReopenKey C :=
  SidecarKey (tm_store_id t) (tm_trusted_levels t) (key_of (tm_inner t)) (key_of (tm_hash_store t)).
Definition embedded_key (e : ES) : ReopenKey C := EmbeddedKey (et_store_id e) (key_of (et_inner e)).
Definition reopen_key (s : RS) : ReopenKey C :=
  match s with Plain b => PlainKey (key_of b) | Sidecar t => tiered_key t | Embedded e => embedded_key e end.

(** *** Sidecars *)

Lemma keeps_tm_inner {A} (m : M B A) : keeps key_of m -> keeps tiered_key (on_tm_inner m).
Proof. intros Hm. apply keeps_zoom. intros s t ->. unfold tiered_key. cbn. by rewrite Hm. Qed.
Lemma keeps_tm_hash_store {A} (m : M B A) : keeps key_of m -> keeps tiered_key (on_tm_hash_store m).
Proof. intros Hm. apply keeps_zoom. intros s t ->. unfold tiered_key. cbn. by rewrite Hm. Qed.

Lemma keeps_read_hash n : keeps tiered_key (read_hash n).
Proof. unfold read_hash, check_node_idx, read_disk_hash. keeps_tac. apply keeps_tm_hash_store, keyed_read_page. Qed.
Lemma keeps_write_hash n h : keeps tiered_key (write_hash n h).
Proof.
  unfold write_hash, check_node_idx, write_disk_hash. keeps_tac; apply keeps_tm_hash_store; [apply keyed_read_page|apply keyed_write_page].
Qed.
Lemma keeps_verify_loop fuel n c : keeps tiered_key (verify_loop fuel n c).
Proof.
  revert n c. induction fuel as [|fuel IH]; intros n c; cbn [verify_loop]; keeps_tac. apply keeps_read_hash.
Qed.
Lemma keeps_update_loop fuel n c : keeps tiered_key (update_hash_loop fuel n c).
Proof.
  revert n c. induction fuel as [|fuel IH]; intros n c; cbn [update_hash_loop]; keeps_tac;
    [apply keeps_read_hash|apply keeps_write_hash].
Qed.
Lemma keeps_tiered_read i out : keeps tiered_key (tiered_read_page i out).
Proof.
  unfold tiered_read_page, check_page, verify_page_hash. keeps_tac; [apply keeps_tm_inner, keyed_read_page|apply keeps_verify_loop].
Qed.
Lemma keeps_tiered_write i page : keeps tiered_key (tiered_write_page i page).
Proof.
  unfold tiered_write_page, check_page, update_page_hash.
  keeps_tac; [apply keeps_tm_inner, keyed_write_page|apply keeps_write_hash|apply keeps_update_loop].
Qed.
Lemma keeps_tiered_flush : keeps tiered_key tiered_flush.
Proof. apply keeps_bind; intros; [apply keeps_tm_inner|apply keeps_tm_hash_store]; apply keyed_flush. Qed.
Lemma keeps_tiered_reads l : keeps tiered_key (default_read_pages tm_page_size tiered_read_page l).
Proof. unfold default_read_pages. keeps_tac. apply keeps_tiered_read. Qed.
Lemma keeps_tiered_writes l pages : keeps tiered_key (default_write_pages tm_page_size tiered_write_page l pages).
Proof. unfold default_write_pages. keeps_tac. apply keeps_tiered_write. Qed.

Lemma keeps_rebuild_hashes : keeps tiered_key rebuild_hashes.
Proof.
  unfold rebuild_hashes, rebuild_leaf, rebuild_node. keeps_tac; first [apply keeps_tm_inner, keyed_read_page|apply keeps_write_hash|apply keeps_read_hash].
Qed.
Lemma tiered_build_key (inner hs : B) id levels t : tiered_build inner hs id levels = Ok t ->
  tiered_key t = SidecarKey id levels (key_of inner) (key_of hs).
Proof.
  unfold tiered_build. case_match; [done|]. intros (base & _ & Eq)%obind_Ok. apply obind_Ok in Eq as (limit & _ & Eq).
  apply obind_Ok in Eq as (per_page & _ & Eq). case_match; [done|].
  match type of Eq with (let (_, _) := rebuild_hashes ?s0 in _) = _ => pose proof (keeps_rebuild_hashes s0) as Hk; destruct (rebuild_hashes s0) as [r s1] end.
  apply obind_Ok in Eq as ([] & _ & Eq). injection Eq as <-. exact Hk.
Qed.

(** *** Embedded trees *)

Lemma keeps_et_inner {A} (m : M B A) : keeps key_of m -> keeps embedded_key (on_et_inner m).
Proof. intros Hm. apply keeps_zoom. intros s t ->. unfold embedded_key. cbn. by rewrite Hm. Qed.
Lemma keeps_read_verified paths : keeps embedded_key (read_verified_paths paths).
Proof. unfold read_verified_paths. destruct paths; keeps_tac. apply keeps_et_inner, keyed_read_pages. Qed.
Lemma keeps_read_paths paths : keeps embedded_key (read_paths paths).
Proof. unfold read_paths. keeps_tac. apply keeps_read_verified. Qed.
Lemma keeps_write_one acc pl : keeps embedded_key (write_one_path acc pl).
Proof.
  unfold write_one_path. keeps_tac. destruct o as [[]|]; keeps_tac.
Qed.
Lemma keeps_overlay paths : keeps embedded_key (verified_overlay paths).
Proof.
  unfold verified_overlay. apply keeps_bind; [by apply keeps_pure|]. intros s. apply keeps_bind; [by apply keeps_modify|]. intros _.
  destruct (verified_batch_cache s); [case_match; [by apply keeps_pure|]|]; apply keeps_read_verified.
Qed.
Lemma keeps_apply_writes pages paths logical : keeps embedded_key (apply_writes pages paths logical).
Proof. unfold apply_writes. keeps_tac; [apply keeps_write_one|apply keeps_et_inner, keyed_write_pages]. Qed.
Lemma keeps_write_paths paths pages : keeps embedded_key (write_paths paths pages).
Proof.
  unfold write_paths. apply keeps_bind; [apply keeps_guardm|]. intros _. destruct paths; [by apply keeps_pure|].
  apply keeps_bind; [apply keeps_overlay|intros; apply keeps_apply_writes].
Qed.
Lemma keeps_read_path path : keeps embedded_key (read_path path).
Proof. unfold read_path. keeps_tac; [apply keeps_read_paths|]. by destruct (last _); keeps_tac. Qed.

Lemma embedded_build_key (inner : B) id size e : embedded_build inner id size = Ok e -> embedded_key e = EmbeddedKey id (key_of inner).
Proof.
  unfold embedded_build. intros ([] & _ & Eq)%obind_Ok.
  match type of Eq with (let (_, _) := ?m inner in _) = _ => assert (keeps key_of m) as Hk; [|specialize (Hk inner); destruct (m inner) as [r inner']] end.
  { unfold build_read, build_write. keeps_tac; first [apply keyed_read_page|apply keyed_write_page]. }
  apply obind_Ok in Eq as (root & _ & Eq). injection Eq as <-. unfold embedded_key. cbn in *. by rewrite Hk.
Qed.

(** *** Any reopened store *)

Lemma keeps_on_store {A} (mb : M B A) (mt : M TS A) (me : M ES A) :
  keeps key_of mb -> keeps tiered_key mt -> keeps embedded_key me -> keeps reopen_key (on_store mb mt me).
Proof.
  intros Hb Ht He [b|t|e]; unfold on_store.
  - specialize (Hb b). destruct (mb b). cbn in *. by rewrite Hb.
  - specialize (Ht t). destruct (mt t). exact Ht.
  - specialize (He e). destruct (me e). exact He.
Qed.

Lemma keeps_reopen_read_path path : keeps reopen_key (pp_read_path_pages (S := RS) path).
Proof.
  apply keeps_on_store; [|apply keeps_tiered_reads|apply keeps_read_path].
  unfold read_plain_path_pages. keeps_tac. apply keyed_read_page.
Qed.
Lemma keeps_reopen_write_path path pages : keeps reopen_key (pp_write_path_pages (S := RS) path pages).
Proof.
  apply keeps_on_store; [|apply keeps_tiered_writes|apply keeps_write_paths].
  unfold write_plain_path_pages. keeps_tac. apply keyed_write_page.
Qed.
Lemma keeps_reopen_read_paths paths : keeps reopen_key (pp_read_paths_pages (S := RS) paths).
Proof.
  apply keeps_on_store; [| |apply keeps_read_paths].
  - unfold read_plain_paths_pages. keeps_tac. apply keyed_read_pages.
  - cbn. unfold flat_read_paths_pages. keeps_tac. apply keeps_tiered_reads.
Qed.
Lemma keeps_reopen_write_paths paths pages : keeps reopen_key (pp_write_paths_pages (S := RS) paths pages).
Proof.
  apply keeps_on_store; [| |apply keeps_write_paths].
  - unfold write_plain_paths_pages. keeps_tac. apply keyed_write_pages.
  - cbn. unfold flat_write_paths_pages. keeps_tac. apply keeps_tiered_writes.
Qed.
Lemma keeps_reopen_flush : keeps reopen_key (pp_flush (S := RS)).
Proof. apply keeps_on_store; [apply keyed_flush|apply keeps_tiered_flush|apply keeps_et_inner, keyed_flush]. Qed.

End Keys.

(** ** The contract with the key fixed *)

Section KeyedReopen.
Context {C B : Type} `{PageStore B, !LawfulPageStore B, !Keyed (StoreKey C) B} `{HashLaws} (key : ReopenKey C).
Local Abbreviation RS := (CircuitReopenPageStore B).

Definition reopen_keyed_ok (s : RS) : Prop := pp_ok s /\ reopen_key s = key.

Lemma reopen_keyed_next (s s' : RS) f : reopen_key s = key -> reopen_key s' = reopen_key s -> pp_next s f s' ->
  page_next reopen_keyed_ok pp_page_size pp_page_count pp_content s f s'.
Proof. intros Hk Hk' (Hok & Hn). split; [split; [done|congruence]|done]. Qed.

Definition reopen_keyed_lawful : LawfulPathStore RS.
Proof.
  refine {| pp_ok := reopen_keyed_ok; pp_content := pp_content |}.
  - intros s i [Hs _]. by apply pp_content_ok.
  - intros s path [Hs Hk] Hp. destruct (pp_read_path_pages_ok s path Hs Hp) as (s' & E & Hn).
    exists s'. split; [done|]. apply reopen_keyed_next; [done| |done]. by rewrite <-(keeps_reopen_read_path path s), E.
  - intros s path pages [Hs Hk] Hp Hpg Hl. destruct (pp_write_path_pages_ok s path pages Hs Hp Hpg Hl) as (s' & E & Hn).
    exists s'. split; [done|]. apply reopen_keyed_next; [done| |done]. by rewrite <-(keeps_reopen_write_path path pages s), E.
  - intros s paths [Hs Hk] Hp. destruct (pp_read_paths_pages_ok s paths Hs Hp) as (s' & E & Hn).
    exists s'. split; [done|]. apply reopen_keyed_next; [done| |done]. by rewrite <-(keeps_reopen_read_paths paths s), E.
  - intros s paths pages [Hs Hk] Hp Hpg Hl. destruct (pp_write_paths_pages_ok s paths pages Hs Hp Hpg Hl) as (s' & E & Hn).
    exists s'. split; [done|]. apply reopen_keyed_next; [done| |done]. by rewrite <-(keeps_reopen_write_paths paths pages s), E.
  - intros s [Hs Hk]. destruct (pp_flush_ok s Hs) as (s' & E & Hn).
    exists s'. split; [done|]. apply reopen_keyed_next; [done| |done]. by rewrite <-(keeps_reopen_flush s), E.
Defined.

End KeyedReopen.
