(* ===== verification/ImageFiles.v ===== *)
(** * Image files ([src/src/bin/oramctl.rs])

    How the command-line tool opens the files of an image as stores, authenticates
    them and reopens them, and the files it keeps them in.  A store that is opened
    reads the contents of its file and, when the tool drops it, puts them back
    ([put_back]); how each transfer of a file goes and which share of the system's
    randomness a store draws its nonces from are parameters. *)

From S2P Require Import Prelude Params Store Schedule Bucket State Aead FrontCache Hash TieredMerkle SealedState FileStore Embedded Evidence.
From S2P Require Import Direct Cuckoo Disk ReopenStore.

(** The transfers of a file, and a share of the system's randomness. *)
Class HostIo (OS : Type) : Type := { io_script : string -> list transfer; io_fork : OS -> OS * OS }.

(** ** Paths and seeds *)

(** Mirror of [struct CircuitOutputPaths]. *)
Record CircuitOutputPaths : Type := mkPaths {
  meta_image : FilePath;
  payload_image : FilePath;
  meta_hash_image : FilePath;
  payload_hash_image : FilePath;
  state_path : FilePath;
  auth_state_path : FilePath;
  metadata_path : FilePath
}.

(** [out_dir.join(name)], the name given as its stem and extension *)
Definition join (dir stem ext : string) : FilePath := mkPath (dir +:+ "/")%string stem (Some ext).

Definition output_paths (dir label : string) : CircuitOutputPaths :=
  mkPaths (join dir (label +:+ ".meta") "oram") (join dir (label +:+ ".payload") "oram")
    (join dir (label +:+ ".meta.hash") "oram") (join dir (label +:+ ".payload.hash") "oram")
    (join dir label "state") (join dir (label +:+ ".auth") "state") (join dir label "metadata").

(** [CuckooLevel::label] *)
Definition cuckoo_label (l : CuckooLevel) : string := match l with Index => "index" | Chunk => "chunk" end.
(** [circuit_output_paths], [direct_output_paths] *)
Definition circuit_output_paths (out_dir : string) (level : CuckooLevel) : CircuitOutputPaths :=
  output_paths out_dir (cuckoo_label level).
Definition direct_output_paths (out_dir : string) (level : DirectLevel) : CircuitOutputPaths :=
  output_paths out_dir ("direct-" +:+ direct_label level).

(** [derive_level_seed], [derive_direct_level_seed] *)
Definition derive_level_seed (seed : bytes) (level : CuckooLevel) : bytes :=
  alter (fun b => Z.lxor b (match level with Index => 0x11 | Chunk => 0x22 end)) 31%nat seed.
Definition derive_direct_level_seed (seed : bytes) (level : DirectLevel) : bytes :=
  alter (fun b => Z.lxor b (match level with DirectIndex => 0x33 | DirectChunk => 0x44 end)) 31%nat seed.

(** ** Authentication layouts *)

Inductive AuthLayoutArg : Type := LayoutSidecar | LayoutEmbeddedTree.

(** [AuthLayoutArg::label] *)
Definition layout_label (l : AuthLayoutArg) : string :=
  match l with LayoutSidecar => "sidecar" | LayoutEmbeddedTree => "embedded_tree" end.

(** [active_auth_layout], [auth_plaintext_page_bytes] *)
Definition active_auth_layout (auth_store : bool) (auth_layout : AuthLayoutArg) : AuthLayoutArg :=
  if auth_store then auth_layout else LayoutSidecar.
Definition auth_plaintext_page_bytes (logical_page_bytes : Z) (auth_layout : AuthLayoutArg) : Z :=
  match auth_layout with
  | LayoutSidecar => logical_page_bytes
  | LayoutEmbeddedTree => add64 logical_page_bytes EMBEDDED_TREE_AUTH_BYTES_PER_PAGE
  end.

(** [enum CircuitAuthStoreKind], [circuit_auth_store_id], [direct_auth_store_id] *)
Inductive CircuitAuthStoreKind : Type := KindMeta | KindPayload.
Definition circuit_auth_store_id (level : CuckooLevel) (kind : CircuitAuthStoreKind) : bytes :=
  ascii_bytes match level, kind with
  | Index, KindMeta => "bpir-idx-meta-v1"
  | Index, KindPayload => "bpir-idx-data-v1"
  | Chunk, KindMeta => "bpir-chk-meta-v1"
  | Chunk, KindPayload => "bpir-chk-data-v1"
  end.
Definition direct_auth_store_id (level : DirectLevel) (kind : CircuitAuthStoreKind) : bytes :=
  ascii_bytes match level, kind with
  | DirectIndex, KindMeta => "bpir-diridx-meta"
  | DirectIndex, KindPayload => "bpir-diridx-data"
  | DirectChunk, KindMeta => "bpir-dirchk-meta"
  | DirectChunk, KindPayload => "bpir-dirchk-data"
  end.

(** [tiered_hash_pages] *)
Definition tiered_hash_pages (data_pages hash_page_size trusted_levels : Z) : outcome Z :=
  required_hash_pages data_pages hash_page_size trusted_levels.

(** [backing_page_bytes], [cached_pages_for_levels] *)
Definition backing_page_bytes (plaintext_page_size : Z) (encrypted : bool) : Z :=
  add64 plaintext_page_size (if encrypted then AEAD_OVERHEAD else 0).
Definition cached_pages_for_levels (p : OramParams) (cache_levels : Z) : outcome Z :=
  if cache_levels =? 0 then Ok 0
  else if Params.height p <? cache_levels then Err (InvalidInput "cache-levels {} > tree height {}")
  else Ok (Z.shiftl 1 cache_levels - 1).

(** ** Boxed stores *)

(** The stores [open_sized_file_store] and [open_circuit_file_stores] box. *)
Section Boxes.
Context (C OS : Type).
Definition BaseStore : Type := (FilePageStore + AeadPageStore FilePageStore C OS)%type.
Definition SizedStore : Type := (BaseStore + FrontCachedPageStore BaseStore)%type.
Definition BoxStore : Type := (SizedStore + LogicalPrefixPageStore SizedStore)%type.
End Boxes.

#[export] Instance base_page_store {C OS} `{Cipher C} `{OsRandom OS} : PageStore (BaseStore C OS) := sum_page_store.
#[export] Instance sized_page_store {C OS} `{Cipher C} `{OsRandom OS} : PageStore (SizedStore C OS) := sum_page_store.
#[export] Instance box_page_store {C OS} `{Cipher C} `{OsRandom OS} : PageStore (BoxStore C OS) := sum_page_store.
#[export] Instance base_medium {C OS} `{Cipher C} : Medium (BaseStore C OS) := sum_medium.
#[export] Instance sized_medium {C OS} `{Cipher C} : Medium (SizedStore C OS) := sum_medium.
#[export] Instance box_medium {C OS} `{Cipher C} : Medium (BoxStore C OS) := sum_medium.
#[global] Typeclasses Opaque BaseStore SizedStore BoxStore.

(** [zero_page_store] *)
Definition zero_page_store {S} `{PageStore S} : M S unit :=
  let* size := gets ps_page_size in
  let zero := zeros size in
  let* count := gets ps_page_count in
  let* _ := iterM (fun page_idx => ps_write_page page_idx zero) (seqZ 0 count) in
  ps_flush.

Section Hex.
Context `{Hex}.

(** [parse_seed], [parse_required_key] *)
Definition parse_seed (seed_hex : option string) (default_byte : Z) : outcome bytes :=
  match seed_hex with Some seed_hex => parse_32_hex seed_hex | None => Ok (replicate 32 default_byte) end.
Definition parse_required_key (key_hex : option string) : outcome bytes :=
  let? key_hex := ok_or key_hex (InvalidInput "--key-hex is required with --encrypted") in
  parse_32_hex key_hex.

End Hex.

Section Open.
Context {C OS : Type} `{Cipher C} `{OsRandom OS} `{HostIo OS} `{Hex}.
Local Abbreviation HM := (M (Host OS)).

(** [FilePageStore::open]: the file is created if it is missing, and resized. *)
Definition open_file_store (image : FilePath) (page_count page_size : Z) : HM FilePageStore :=
  let* _ := guardm (negb ((page_count =? 0) || (page_size =? 0))) (InvalidInput "page_count and page_size must be > 0") in
  let* fault := next_fault in
  let* _ := guardm (bool_decide (fault = None)) IoError in
  let* contents := gets (fun h => default [] (files h !! render image)) in
  let* _ := modify (fun h => set_files (<[render image := contents]> (files h)) h) in
  let* fault := next_fault in
  let* _ := guardm (bool_decide (fault = None)) IoError in
  let* s := lift (file_open contents (io_script (render image)) page_count page_size) in
  let* _ := modify (fun h => set_files (<[render image := backing s]> (files h)) h) in
  ret s.

(** The store is dropped: its file is what the store left. *)
Definition put_back {S} `{Medium S} (image : FilePath) (s : S) : HM unit :=
  modify (fun h => set_files (<[render image := backing s]> (files h)) h).

(** A store's own share of the randomness *)
Definition fork_os : HM OS := fun h => let (a, b) := io_fork (os h) in (Ok a, mkHost (files h) (faults h) b).

(** [open_sized_file_store] *)
Definition open_base_store (image : FilePath) (page_count plaintext_page_size : Z) (encrypted : bool)
    (key_hex : option string) : HM (BaseStore C OS) :=
  if encrypted then
    let* key := lift (parse_required_key key_hex) in
    let* file := open_file_store image page_count (backing_page_bytes plaintext_page_size true) in
    let* os := fork_os in
    let* s := lift (aead_new file key plaintext_page_size os) in
    ret (inr s)
  else
    let* file := open_file_store image page_count plaintext_page_size in
    ret (inl file).
Definition open_sized_store (image : FilePath) (page_count plaintext_page_size : Z) (encrypted : bool)
    (key_hex : option string) (cached_pages : Z) (load_cached_pages : bool) : HM (SizedStore C OS) :=
  let* store := open_base_store image page_count plaintext_page_size encrypted key_hex in
  if cached_pages =? 0 then ret (inl store)
  else if load_cached_pages then let* s := lift (front_new store cached_pages) in ret (inr s)
  else let* s := lift (front_new_zeroed store cached_pages) in ret (inr s).
Definition open_sized_file_store (image : FilePath) (page_count plaintext_page_size : Z) (encrypted : bool)
    (key_hex : option string) (cached_pages : Z) (load_cached_pages : bool) : HM (BoxStore C OS) :=
  let* s := open_sized_store image page_count plaintext_page_size encrypted key_hex cached_pages load_cached_pages in
  ret (inl s).

(** [open_circuit_file_stores]: the view of the logical pages is put over the sized
    stores before they are boxed. *)
Definition open_circuit_file_stores (meta_image payload_image : FilePath) (p : OramParams) (encrypted : bool)
    (key_hex : option string) (cached_pages : Z) (load_cached_pages : bool) (auth_layout : AuthLayoutArg) :
    HM (BoxStore C OS * BoxStore C OS) :=
  let meta_logical_page_bytes := circuit_meta_page_bytes (bucket_size p) in
  let payload_logical_page_bytes := circuit_payload_page_bytes (bucket_size p) (block_size p) in
  let meta_physical_page_bytes := auth_plaintext_page_bytes meta_logical_page_bytes auth_layout in
  let payload_physical_page_bytes := auth_plaintext_page_bytes payload_logical_page_bytes auth_layout in
  let* meta_store := open_sized_store meta_image (bucket_count p) meta_physical_page_bytes encrypted key_hex
                       cached_pages load_cached_pages in
  let* payload_store := open_sized_store payload_image (bucket_count p) payload_physical_page_bytes encrypted key_hex
                          cached_pages load_cached_pages in
  match auth_layout with
  | LayoutSidecar => ret (inl meta_store, inl payload_store)
  | LayoutEmbeddedTree =>
      let* meta := lift (prefix_new meta_store meta_logical_page_bytes) in
      let* payload := lift (prefix_new payload_store payload_logical_page_bytes) in
      ret (inr meta, inr payload)
  end.

(** [open_circuit_physical_file_stores] *)
Definition open_circuit_physical_file_stores (meta_image payload_image : FilePath) (p : OramParams) (encrypted : bool)
    (key_hex : option string) (cached_pages : Z) (load_cached_pages : bool) (auth_layout : AuthLayoutArg) :
    HM (BoxStore C OS * BoxStore C OS) :=
  let meta_page_bytes := auth_plaintext_page_bytes (circuit_meta_page_bytes (bucket_size p)) auth_layout in
  let payload_page_bytes := auth_plaintext_page_bytes (circuit_payload_page_bytes (bucket_size p) (block_size p)) auth_layout in
  let* meta_store := open_sized_file_store meta_image (bucket_count p) meta_page_bytes encrypted key_hex
                       cached_pages load_cached_pages in
  let* payload_store := open_sized_file_store payload_image (bucket_count p) payload_page_bytes encrypted key_hex
                          cached_pages load_cached_pages in
  ret (meta_store, payload_store).

(** [open_hash_store_for_auth] *)
Definition open_hash_store_for_auth (image : FilePath) (auth : TieredMerkleState) (encrypted : bool) (key_hex : option string) :
    HM (BoxStore C OS) :=
  let* hash_pages := lift (tiered_hash_pages (tms_page_count auth) (tms_hash_page_size auth) (tms_trusted_levels auth)) in
  open_sized_file_store image hash_pages (tms_hash_page_size auth) encrypted key_hex 0 false.

End Open.

(** A method on a store the caller owns *)
Definition run_on {H S A} (m : M S A) (s : S) : M H (A * S) := lift (let (r, s) := m s in let? a := r in Ok (a, s)).
