(* ===== verification/ImageOps.v ===== *)
(** * Building and reopening images ([src/src/bin/oramctl.rs])

    [build-circuit] and [build-direct] write the initial image of a table, flush it,
    authenticate its stores and save the controller's state; the other commands load
    the state and open the stores again.  The arguments that the functions of the
    source pass on one by one are the record [ImageOptions]. *)

From S2P Require Import Prelude Ct Params Store Schedule Bucket Rng State Circuit Build Aead Hash TieredMerkle SealedState Embedded Evidence.
From S2P Require Import Float64 Direct IndexTable DirectReader Cuckoo Sizing Disk ReopenStore ImageFiles.

(** The options of the commands *)
Record ImageOptions : Type := mkOptions {
  opt_pack : Z;
  opt_leaf_divisor : Z;
  opt_bucket_size : Z;
  opt_stash_capacity : Z;
  opt_encrypted : bool;
  opt_key_hex : option string;
  opt_state_key_hex : option string;
  opt_cache_levels : Z;
  opt_auth_store : bool;
  opt_auth_layout : AuthLayoutArg;
  opt_auth_trusted_levels : Z;
  opt_auth_hash_page_size : Z
}.

Section Ops.
Context {C OS R : Type} `{Cipher C} `{OsRandom OS} `{HostIo OS} `{Hex} `{Hash} `{Subtle} `{Rng R}.
Context `{Bincode (CircuitOramState R)} `{Bincode (LegacyCircuitOramState R)}.
Context `{Bincode CircuitStoreAuthState} `{Bincode LegacyCircuitStoreAuthState} `{Bincode DirectTableMetadata}.
Local Abbreviation HM := (M (Host OS)).
Local Abbreviation Box := (BoxStore C OS).
Local Abbreviation RS := (CircuitReopenPageStore Box).

(** ** State files: [load_circuit_state], [load_circuit_store_auth], [save_circuit_state],
    [save_circuit_store_auth] *)

Definition load_circuit_state (path : FilePath) (state_key_hex : option string) : HM (CircuitOramState R) :=
  match state_key_hex with
  | Some key_hex => let* key := lift (parse_32_hex key_hex) in state_load_encrypted (C := C) path key
  | None => state_load path
  end.
Definition load_circuit_store_auth (path : FilePath) (state_key_hex : option string) : HM CircuitStoreAuthState :=
  match state_key_hex with
  | Some key_hex => let* key := lift (parse_32_hex key_hex) in auth_load_encrypted (C := C) path key
  | None => auth_load path
  end.
Definition save_circuit_state (state : CircuitOramState R) (path : FilePath) (state_key_hex : option string) : HM unit :=
  match state_key_hex with
  | Some key_hex => let* key := lift (parse_32_hex key_hex) in state_save_encrypted_atomic (C := C) state path key
  | None => state_save_atomic state path
  end.
Definition save_circuit_store_auth (state : CircuitStoreAuthState) (path : FilePath) (state_key_hex : option string) : HM unit :=
  match state_key_hex with
  | Some key_hex => let* key := lift (parse_32_hex key_hex) in auth_save_encrypted_atomic (C := C) state path key
  | None => auth_save_atomic state path
  end.

(** ** Authenticating a flushed image *)

(** The body that [build_circuit_sidecar_store_auth] and
    [build_direct_sidecar_store_auth] share. *)
Definition build_sidecar_store_auth (meta_id payload_id : bytes) (paths : CircuitOutputPaths) (p : OramParams)
    (encrypted : bool) (key_hex : option string) (cached_pages trusted_levels hash_page_size : Z) : HM CircuitStoreAuthState :=
  let* stores := open_circuit_file_stores (C := C) (meta_image paths) (payload_image paths) p encrypted key_hex cached_pages true LayoutSidecar in
  let* meta_hash_pages := lift (tiered_hash_pages (bucket_count p) hash_page_size trusted_levels) in
  let* payload_hash_pages := lift (tiered_hash_pages (bucket_count p) hash_page_size trusted_levels) in
  let* meta_hash_store := open_sized_file_store (C := C) (meta_hash_image paths) meta_hash_pages hash_page_size encrypted key_hex 0 false in
  let* payload_hash_store := open_sized_file_store (C := C) (payload_hash_image paths) payload_hash_pages hash_page_size encrypted key_hex 0 false in
  let* zeroed := run_on zero_page_store meta_hash_store in
  let meta_hash_store := zeroed.2 in
  let* zeroed := run_on zero_page_store payload_hash_store in
  let payload_hash_store := zeroed.2 in
  let* meta := lift (tiered_build stores.1 meta_hash_store meta_id trusted_levels) in
  let* payload := lift (tiered_build stores.2 payload_hash_store payload_id trusted_levels) in
  let* flushed := run_on ps_flush meta in
  let meta := flushed.2 in
  let* flushed := run_on ps_flush payload in
  let payload := flushed.2 in
  let* _ := put_back (meta_image paths) (tm_inner meta) in
  let* _ := put_back (meta_hash_image paths) (tm_hash_store meta) in
  let* _ := put_back (payload_image paths) (tm_inner payload) in
  let* _ := put_back (payload_hash_image paths) (tm_hash_store payload) in
  ret (auth_new (trusted_state meta) (trusted_state payload)).

(** [build_circuit_sidecar_store_auth], [build_direct_sidecar_store_auth] *)
Definition build_circuit_sidecar_store_auth (paths : CircuitOutputPaths) (level : CuckooLevel) :=
  build_sidecar_store_auth (circuit_auth_store_id level KindMeta) (circuit_auth_store_id level KindPayload) paths.
Definition build_direct_sidecar_store_auth (paths : CircuitOutputPaths) (level : DirectLevel) :=
  build_sidecar_store_auth (direct_auth_store_id level KindMeta) (direct_auth_store_id level KindPayload) paths.

(** [build_circuit_embedded_store_auth] *)
Definition build_circuit_embedded_store_auth (paths : CircuitOutputPaths) (meta_store_id payload_store_id : bytes) (p : OramParams)
    (encrypted : bool) (key_hex : option string) (cached_pages : Z) : HM CircuitStoreAuthState :=
  let* stores := open_circuit_physical_file_stores (C := C) (meta_image paths) (payload_image paths) p encrypted key_hex cached_pages true
                   LayoutEmbeddedTree in
  let meta_logical_page_bytes := circuit_meta_page_bytes (bucket_size p) in
  let payload_logical_page_bytes := circuit_payload_page_bytes (bucket_size p) (block_size p) in
  let* meta := lift (embedded_build stores.1 meta_store_id meta_logical_page_bytes) in
  let* payload := lift (embedded_build stores.2 payload_store_id payload_logical_page_bytes) in
  let* flushed := run_on pp_flush meta in
  let meta := flushed.2 in
  let* flushed := run_on pp_flush payload in
  let payload := flushed.2 in
  let* _ := put_back (meta_image paths) (et_inner meta) in
  let* _ := put_back (payload_image paths) (et_inner payload) in
  ret (auth_new_embedded (embedded_state meta) (embedded_state payload)).

(** [build_circuit_store_auth], [build_direct_store_auth] *)
Definition build_circuit_store_auth (paths : CircuitOutputPaths) (level : CuckooLevel) (p : OramParams) (encrypted : bool)
    (key_hex : option string) (cached_pages : Z) (auth_layout : AuthLayoutArg) (trusted_levels hash_page_size : Z) : HM CircuitStoreAuthState :=
  match auth_layout with
  | LayoutSidecar => build_circuit_sidecar_store_auth paths level p encrypted key_hex cached_pages trusted_levels hash_page_size
  | LayoutEmbeddedTree =>
      build_circuit_embedded_store_auth paths (circuit_auth_store_id level KindMeta) (circuit_auth_store_id level KindPayload)
        p encrypted key_hex cached_pages
  end.
Definition build_direct_store_auth (paths : CircuitOutputPaths) (level : DirectLevel) (p : OramParams) (encrypted : bool)
    (key_hex : option string) (cached_pages : Z) (auth_layout : AuthLayoutArg) (trusted_levels hash_page_size : Z) : HM CircuitStoreAuthState :=
  match auth_layout with
  | LayoutSidecar => build_direct_sidecar_store_auth paths level p encrypted key_hex cached_pages trusted_levels hash_page_size
  | LayoutEmbeddedTree =>
      build_circuit_embedded_store_auth paths (direct_auth_store_id level KindMeta) (direct_auth_store_id level KindPayload)
        p encrypted key_hex cached_pages
  end.

(** ** Reopening *)

(** The body that [open_circuit_file_stores_for_reopen] and
    [open_direct_file_stores_for_reopen] share; they differ in the store ids and the
    messages. *)
Definition open_file_stores_for_reopen (meta_id payload_id : bytes) (sidecar_msg embedded_msg : string) (paths : CircuitOutputPaths)
    (p : OramParams) (encrypted : bool) (key_hex : option string) (cached_pages : Z) (auth_store : bool)
    (bound_auth : option CircuitStoreAuthState) (state_key_hex : option string) : HM (RS * RS) :=
  if negb auth_store then
    let* stores := open_circuit_file_stores (C := C) (meta_image paths) (payload_image paths) p encrypted key_hex cached_pages true LayoutSidecar in
    ret (Plain stores.1, Plain stores.2)
  else
    let* auth := match bound_auth with
                 | Some auth => ret auth
                 | None => load_circuit_store_auth (auth_state_path paths) state_key_hex
                 end in
    match layout auth with
    | TieredMerkle meta payload =>
        let* stores := open_circuit_file_stores (C := C) (meta_image paths) (payload_image paths) p encrypted key_hex cached_pages true LayoutSidecar in
        let* meta_hash_store := open_hash_store_for_auth (C := C) (meta_hash_image paths) meta encrypted key_hex in
        let* payload_hash_store := open_hash_store_for_auth (C := C) (payload_hash_image paths) payload encrypted key_hex in
        let* meta := lift (from_trusted_state stores.1 meta_hash_store meta) in
        let* payload := lift (from_trusted_state stores.2 payload_hash_store payload) in
        let* _ := guardm (bool_decide (tm_store_id meta = meta_id) && bool_decide (tm_store_id payload = payload_id)) (InvalidInput sidecar_msg) in
        ret (Sidecar meta, Sidecar payload)
    | EmbeddedTree meta payload =>
        let* stores := open_circuit_physical_file_stores (C := C) (meta_image paths) (payload_image paths) p encrypted key_hex cached_pages true
                         LayoutEmbeddedTree in
        let* _ := guardm (bool_decide (ets_store_id meta = meta_id) && bool_decide (ets_store_id payload = payload_id)) (InvalidInput embedded_msg) in
        let* meta := lift (embedded_from_state stores.1 meta) in
        let* payload := lift (embedded_from_state stores.2 payload) in
        ret (Embedded meta, Embedded payload)
    end.

(** [open_circuit_file_stores_for_reopen], [open_direct_file_stores_for_reopen] *)
Definition open_circuit_file_stores_for_reopen (paths : CircuitOutputPaths) (level : CuckooLevel) :=
  open_file_stores_for_reopen (circuit_auth_store_id level KindMeta) (circuit_auth_store_id level KindPayload)
    "{} auth sidecar store_id does not match expected level/store domains"
    "{} embedded auth store_id does not match expected level/store domains" paths.
Definition open_direct_file_stores_for_reopen (paths : CircuitOutputPaths) (level : DirectLevel) :=
  open_file_stores_for_reopen (direct_auth_store_id level KindMeta) (direct_auth_store_id level KindPayload)
    "{} direct auth sidecar store_id does not match expected level/store domains"
    "{} direct embedded auth store_id does not match expected level/store domains" paths.

(** The opening steps of [bench_circuit_table] and [bench_direct_table]: the saved
    controller over its reopened stores *)
Definition open_image (reopen : OramParams -> Z -> option CircuitStoreAuthState -> HM (RS * RS)) (paths : CircuitOutputPaths)
    (state_key_hex : option string) (cache_levels : Z) : HM (CircuitOram RS RS R) :=
  let* loaded := load_circuit_state (state_path paths) state_key_hex in
  let bound_auth := st_auth loaded in
  let p := st_params loaded in
  let* cached_pages := lift (cached_pages_for_levels p cache_levels) in
  let* stores := reopen p cached_pages bound_auth in
  lift (from_state stores.1 stores.2 loaded).
Definition open_circuit_image (oram_dir : string) (level : CuckooLevel) (o : ImageOptions) : HM (CircuitOram RS RS R) :=
  let paths := circuit_output_paths oram_dir level in
  open_image (fun p cached_pages bound_auth =>
      open_circuit_file_stores_for_reopen paths level p (opt_encrypted o) (opt_key_hex o) cached_pages (opt_auth_store o) bound_auth
        (opt_state_key_hex o)) paths (opt_state_key_hex o) (opt_cache_levels o).
Definition open_direct_image (oram_dir : string) (level : DirectLevel) (o : ImageOptions) : HM (CircuitOram RS RS R) :=
  let paths := direct_output_paths oram_dir level in
  open_image (fun p cached_pages bound_auth =>
      open_direct_file_stores_for_reopen paths level p (opt_encrypted o) (opt_key_hex o) cached_pages (opt_auth_store o) bound_auth
        (opt_state_key_hex o)) paths (opt_state_key_hex o) (opt_cache_levels o).

(** The stores are dropped *)
Definition put_back_reopened (image hash_image : FilePath) (s : RS) : HM unit :=
  match s with
  | Plain b => put_back image b
  | Sidecar t => let* _ := put_back image (tm_inner t) in put_back hash_image (tm_hash_store t)
  | Embedded e => put_back image (et_inner e)
  end.

(** [CircuitOram::store_auth_state] is [store_auth_state_from_stores].

    [finish_direct_bench_table], and the end of [bench_circuit_table]: flush, and save
    unless told not to. *)
Definition finish_bench_table (paths : CircuitOutputPaths) (auth_store : bool) (state_key_hex : option string) (no_save : bool)
    (oram : CircuitOram RS RS R) : HM unit :=
  let* flushed := run_on flush oram in
  let oram := flushed.2 in
  let* _ := put_back_reopened (meta_image paths) (meta_hash_image paths) (meta_store oram) in
  let* _ := put_back_reopened (payload_image paths) (payload_hash_image paths) (payload_store oram) in
  let* _ := if negb no_save then
      let* _ := save_circuit_state (snapshot oram) (state_path paths) state_key_hex in
      if auth_store then
        let* auth_state := lift (ok_or (store_auth_state_from_stores (meta_store oram) (payload_store oram))
                                   (InvalidInput "authenticated stores did not expose auth state")) in
        save_circuit_store_auth auth_state (auth_state_path paths) state_key_hex
      else ret tt
    else ret tt in
  let* _ := lift (pending_evictions (schedule oram)) in
  ret tt.

(** ** Building *)

(** The steps [build_direct_table_from_source] and [build_circuit_table] share: build
    from opened stores, flush, authenticate and save.  [after_flush] is the saving of
    the metadata. *)
Definition build_and_save {S} `{TrustedBlockSource S} (o : ImageOptions) (paths : CircuitOutputPaths) (p : OramParams)
    (stores : Box * Box) (source : S) (seed : bytes) (after_flush : HM unit) (build_auth : HM CircuitStoreAuthState) :
    HM (CircuitOramState R) :=
  let* oram := lift (build_trusted_from_source p stores.1 stores.2 source seed) in
  let* flushed := run_on flush oram in
  let oram : CircuitOram Box Box R := flushed.2 in
  let* _ := put_back (meta_image paths) (meta_store oram) in
  let* _ := put_back (payload_image paths) (payload_store oram) in
  let* _ := after_flush in
  let controller_state := snapshot oram in
  let* controller_state :=
    if opt_auth_store o then
      let* auth_state := build_auth in
      let* _ := save_circuit_store_auth auth_state (auth_state_path paths) (opt_state_key_hex o) in
      ret (with_auth controller_state (Some auth_state))
    else ret controller_state in
  let* _ := save_circuit_state controller_state (state_path paths) (opt_state_key_hex o) in
  let* _ := lift (pending_evictions (schedule oram)) in
  ret controller_state.

(** [OramParams::with_leaves(..)?.with_bucket_size(..)?.with_stash_capacity(..)?] *)
Definition image_params (o : ImageOptions) (e : OramSizes) : outcome OramParams :=
  let? p := with_leaves (es_logical_blocks e) (es_block_payload_bytes e) (es_leaves e) in
  let? p := with_bucket_size p (opt_bucket_size o) in
  with_stash_capacity p (opt_stash_capacity o).
Definition image_sizing (o : ImageOptions) : OramSizing :=
  mkSizing (opt_pack o) (opt_leaf_divisor o) (opt_bucket_size o) (opt_stash_capacity o) (opt_cache_levels o).

(** [build_direct_table_from_source] *)
Definition build_direct_table_from_source {S} `{TrustedBlockSource S} (o : ImageOptions) (paths : CircuitOutputPaths)
    (info : DirectTableInfo) (p : OramParams) (source : S) (metadata : DirectTableMetadata) (seed : bytes) : HM DirectControllerStateEvidence :=
  let* _ := guardm ((src_logical_blocks source =? logical_blocks p) && (src_block_size source =? block_size p))
              (InvalidInput "direct source dimensions do not match ORAM params") in
  let* cached_pages := lift (cached_pages_for_levels p (opt_cache_levels o)) in
  let* stores := open_circuit_file_stores (C := C) (meta_image paths) (payload_image paths) p (opt_encrypted o) (opt_key_hex o) cached_pages
                   false (active_auth_layout (opt_auth_store o) (opt_auth_layout o)) in
  let* controller_state := build_and_save o paths p stores source seed (direct_save metadata (metadata_path paths))
    (build_direct_store_auth paths (dti_level info) p (opt_encrypted o) (opt_key_hex o) cached_pages (opt_auth_layout o)
       (opt_auth_trusted_levels o) (opt_auth_hash_page_size o)) in
  lift (direct_controller_state_evidence (dti_level info) (state_path paths) controller_state).

(** [build_direct_table] *)
Definition build_direct_table `{Mmap} (out_dir : string) (info : DirectTableInfo) (o : ImageOptions) (seed : bytes) :
    HM DirectControllerStateEvidence :=
  let* estimate := lift (direct_estimate (image_sizing o) info) in
  let* p := lift (image_params o (de_sizes estimate)) in
  let paths := direct_output_paths out_dir (dti_level info) in
  match dti_level info with
  | DirectIndex =>
      let* source := index_build info (opt_pack o) in
      build_direct_table_from_source o paths info p source (is_metadata source) seed
  | DirectChunk =>
      let* source := chunk_open info (opt_pack o) in
      build_direct_table_from_source o paths info p source (cs_metadata source) seed
  end.

(** [build_circuit_table] *)
Definition build_circuit_table `{Mmap} (out_dir : string) (table : CuckooTableInfo) (o : ImageOptions) (seed : bytes) : HM unit :=
  let* estimate := lift (cuckoo_estimate (image_sizing o) table) in
  let* p := lift (image_params o (ce_sizes estimate)) in
  let* cached_pages := lift (cached_pages_for_levels p (opt_cache_levels o)) in
  let paths := circuit_output_paths out_dir (ct_level table) in
  let* stores := open_circuit_file_stores (C := C) (meta_image paths) (payload_image paths) p (opt_encrypted o) (opt_key_hex o) cached_pages
                   false (active_auth_layout (opt_auth_store o) (opt_auth_layout o)) in
  let* reader := cuckoo_open table (opt_pack o) in
  let* _ := guardm ((cu_logical_blocks reader =? logical_blocks p) && (cu_block_payload_bytes reader =? block_size p))
              (InvalidInput "packed cuckoo reader dimensions do not match ORAM params") in
  let* _ := build_and_save o paths p stores reader seed (ret tt)
    (build_circuit_store_auth paths (ct_level table) p (opt_encrypted o) (opt_key_hex o) cached_pages (opt_auth_layout o)
       (opt_auth_trusted_levels o) (opt_auth_hash_page_size o)) in
  ret tt.

End Ops.
