(* ===== verification/ImageOpen.v ===== *)
(** * Opening the files of an image

    On a host whose operations do not fail, a store opened on an image file serves
    the pages of the image; opened for building, it can be written. *)

From S2P Require Import Prelude Params Store Writable Schedule Bucket State Aead FrontCache Hash Merkle TieredMerkle SealedState FileStore Embedded EmbeddedSpec Evidence.
From S2P Require Import Direct Cuckoo Disk ReopenStore ReopenKeys ImageFiles.

(** ** Computations that return, or stop with an expected error *)

Definition yields {S A} (E : Error -> Prop) (m : M S A) (s : S) (Q : A -> S -> Prop) : Prop :=
  match m s with (Ok a, s') => Q a s' | (Err e, _) => E e | _ => False end.

Section Yields.
Context {S : Type} (E : Error -> Prop).

Lemma yields_bind {A B} (m : M S A) (f : A -> M S B) s Q :
  yields E m s (fun a s' => yields E (f a) s' Q) -> yields E (bind m f) s Q.
Proof. unfold yields, bind. by destruct (m s) as [[a|e| |] s']. Qed.
Lemma yields_mono {A} (m : M S A) s (Q Q' : A -> S -> Prop) :
  yields E m s Q -> (forall a s', Q a s' -> Q' a s') -> yields E m s Q'.
Proof. unfold yields. destruct (m s) as [[a|e| |] s']; auto. Qed.
Lemma yields_step {A B} (m : M S A) (f : A -> M S B) s Q Q' :
  yields E m s Q -> (forall a s', Q a s' -> yields E (f a) s' Q') -> yields E (bind m f) s Q'.
Proof. intros Hm Hf. apply yields_bind. by eapply yields_mono. Qed.
Lemma yields_ret {A} (a : A) s (Q : A -> S -> Prop) : Q a s -> yields E (ret a) s Q.
Proof. done. Qed.
Lemma yields_lift {A} (o : outcome A) a s (Q : A -> S -> Prop) : o = Ok a -> Q a s -> yields E (lift o) s Q.
Proof. intros -> ?. done. Qed.
Lemma yields_eq {A} (m : M S A) s a s' (Q : A -> S -> Prop) : m s = (Ok a, s') -> Q a s' -> yields E m s Q.
Proof. unfold yields. by intros ->. Qed.
Lemma yields_Ok {A} (m : M S A) s a s' (Q : A -> S -> Prop) : yields E m s Q -> m s = (Ok a, s') -> Q a s'.
Proof. unfold yields. intros Hy Em. by rewrite Em in Hy. Qed.
Lemma yields_run_on {T A} (m : M T A) (t : T) a t' s (Q : A * T -> S -> Prop) :
  m t = (Ok a, t') -> Q (a, t') s -> yields E (run_on m t) s Q.
Proof. intros Em HQ. unfold run_on. rewrite Em. by eapply yields_lift. Qed.

End Yields.

(** ** Boxed stores *)

Section Boxes.
Context {C OS : Type} `{CipherLaws C} `{OsRandom OS}.

#[export] Instance base_lawful : LawfulPageStore (BaseStore C OS) := sum_lawful.
#[export] Instance base_writable : WritableStore (BaseStore C OS) := sum_writable.
#[export] Instance base_keyed : Keyed (StoreKey C) (BaseStore C OS) := sum_keyed.
#[export] Instance base_disk : DiskStore (BaseStore C OS) := sum_disk.
#[export] Instance base_imaged : Imaged (BaseStore C OS) := sum_imaged.
#[export] Instance sized_lawful : LawfulPageStore (SizedStore C OS) := sum_lawful.
#[export] Instance sized_writable : WritableStore (SizedStore C OS) := sum_writable.
#[export] Instance sized_keyed : Keyed (StoreKey C) (SizedStore C OS) := sum_keyed.
#[export] Instance sized_disk : DiskStore (SizedStore C OS) := sum_disk.
#[export] Instance sized_imaged : Imaged (SizedStore C OS) := sum_imaged.
#[export] Instance box_lawful : LawfulPageStore (BoxStore C OS) := sum_lawful.
#[export] Instance box_writable : WritableStore (BoxStore C OS) := sum_writable.
#[export] Instance box_keyed : Keyed (StoreKey C) (BoxStore C OS) := sum_keyed.
#[export] Instance box_disk : DiskStore (BoxStore C OS) := sum_disk.
#[export] Instance box_imaged : Imaged (BoxStore C OS) := sum_imaged.

End Boxes.

(** ** Hosts whose operations do not fail *)

Definition clear {OS} (h : Host OS) : Prop := faults h = [] /\ map_Forall (fun _ b => bytes_ok b) (files h).

(** Only the named files differ. *)
Definition touches {OS} (ks : list string) (h h' : Host OS) : Prop :=
  clear h' /\ forall q, q ∉ ks -> files h' !! q = files h !! q.

Section Touches.
Context {OS : Type}.

Lemma touches_refl ks (h : Host OS) : clear h -> touches ks h h.
Proof. done. Qed.
Lemma touches_trans ks (h1 h2 h3 : Host OS) : touches ks h1 h2 -> touches ks h2 h3 -> touches ks h1 h3.
Proof. intros [_ Ht1] [Hc Ht2]. split; [done|]. intros q Hq. by rewrite Ht2, Ht1. Qed.
Lemma touches_same ks (h h' : Host OS) : clear h' -> files h' = files h -> touches ks h h'.
Proof. intros Hc Hf. split; [done|]. intros q _. by rewrite Hf. Qed.
Lemma touches_weaken ks ks' (h h' : Host OS) : ks ⊆ ks' -> touches ks h h' -> touches ks' h h'.
Proof. intros Hk [Hc Ht]. split; [done|]. intros q Hq. apply Ht. set_solver. Qed.
Lemma touches_clear ks (h h' : Host OS) : touches ks h h' -> clear h'.
Proof. by intros []. Qed.
Lemma touches_lookup ks (h h' : Host OS) q : touches ks h h' -> q ∉ ks -> files h' !! q = files h !! q.
Proof. intros [_ Ht]. apply Ht. Qed.

End Touches.

(** Every file the tool writes for the image, the temporary ones included *)
Definition path_names (ps : CircuitOutputPaths) : list string :=
  render <$> [meta_image ps; payload_image ps; meta_hash_image ps; payload_hash_image ps; state_path ps; tmp_path (state_path ps);
              auth_state_path ps; tmp_path (auth_state_path ps); metadata_path ps; tmp_path (metadata_path ps)].

(** The files a session writes *)
Definition session_names (ps : CircuitOutputPaths) : list string :=
  render <$> [meta_image ps; payload_image ps; meta_hash_image ps; payload_hash_image ps; state_path ps; tmp_path (state_path ps);
              auth_state_path ps; tmp_path (auth_state_path ps)].

(** The images among them *)
Definition image_names (ps : CircuitOutputPaths) : list string :=
  render <$> [meta_image ps; payload_image ps; meta_hash_image ps; payload_hash_image ps].

(** The names are told apart once; [names_ne] and [names_sub] use the facts. *)
Ltac names_apart H :=
  unfold path_names in H; cbn [fmap list_fmap] in H;
  repeat match type of H with NoDup (_ :: _) => let Hx := fresh "Hn" in apply NoDup_cons in H as [Hx H] end; clear H;
  repeat match goal with
  | Hx : _ ∉ _ :: _ |- _ => let Hy := fresh "Hn" in apply not_elem_of_cons in Hx as [Hy Hx]
  | Hx : _ ∉ [] |- _ => clear Hx
  end.
Ltac names_ne :=
  repeat (apply not_elem_of_cons; split; [first [assumption | apply not_eq_sym; assumption]|]);
  first [apply not_elem_of_nil | assumption | apply not_eq_sym; assumption].
Ltac names_sub :=
  let x := fresh "x" in let Hx := fresh "Hx" in intros x; unfold path_names, session_names, image_names; cbn [fmap list_fmap app]; intros Hx;
  repeat (apply elem_of_cons in Hx as [->|Hx]; [repeat first [apply list_elem_of_here | apply list_elem_of_further]|]);
  try (by apply not_elem_of_nil in Hx).

(** The first bytes of the pages of a store *)
Definition serves_image {S} `{LawfulPageStore S} (f : Z -> bytes) (s : S) : Prop :=
  forall i, in_range (ps_page_count s) i -> f i `prefix_of` ps_content s i.

Section Open.
Context {C OS : Type} `{CipherLaws C} `{OsRandom OS} `{HostIo OS} `{Hex}.
Context (Hio : forall path, Forall (fun t => t <> TransferError) (io_script (OS := OS) path)).
Context (E : Error -> Prop).
Local Abbreviation HS := (Host OS).

(** The cipher the options ask for *)
Definition cipher_for (encrypted : bool) (key_hex : option string) : outcome (option C) :=
  if encrypted then let? key := parse_required_key key_hex in Ok (Some (cipher_new key)) else Ok None.

(** The key of a store whose file can be addressed and whose pages can be sealed *)
Record key_fits (k : StoreKey C) : Prop := {
  kf_page : 0 < k_page k;
  kf_count : 0 < k_count k;
  kf_len : k_count k * k_sealed k <= u64_max;
  kf_view : k_view k = None;
  kf_limit : k_cipher k = None \/ k_page k <= cipher_limit (C := C)
}.

Lemma open_file_yields image count size (h : HS) : 0 < count -> 0 < size -> count * size <= u64_max -> clear h ->
  yields E (open_file_store image count size) h (fun s h' =>
    file_ok s /\ fp_page_size s = size /\ fp_page_count s = count /\ touches [render image] h h' /\
    forall b, files h !! render image = Some b -> lenZ b = count * size -> f_bytes (fp_file s) = b /\ files h' = files h).
Proof.
  intros Hc Hs Hlim [Hf Hb]. destruct h as [fs fl o]. cbn in Hf, Hb. subst fl. unfold open_file_store.
  rewrite !(proj2 (Z.eqb_neq _ _)) by lia. cbn [orb negb].
  set (contents := default [] (fs !! render image)).
  assert (bytes_ok contents) as Hcb.
  { unfold contents. destruct (fs !! render image) as [b|] eqn:Eb; [exact (Hb _ _ Eb)|constructor]. }
  destruct (file_open_ok contents (io_script (OS := OS) (render image)) count size Hc Hs Hlim Hcb (Hio _)) as (s & Es & Hok & Hsz & Hct & Hk).
  unfold yields, bind, next_fault, guardm, gets, modify, lift, ret. cbn [head tail default id files faults os set_files].
  repeat (rewrite bool_decide_eq_true_2 by done; cbn [head tail default id files faults os set_files]). fold contents.
  rewrite Es. cbn [files faults os set_files]. rewrite insert_insert_eq. split_and!; [done|done|done| |].
  - split; [split; [done|]|].
    + apply map_Forall_insert_2; [apply Hok|done].
    + intros q Hq. cbn. rewrite lookup_insert_ne; [done|]. set_solver.
  - intros b Eb Hlb. cbn in Eb. assert (contents = b) as Ec by (unfold contents; by rewrite Eb). rewrite Ec in Hk. specialize (Hk Hlb).
    split; [exact Hk|]. change (backing s) with (f_bytes (fp_file s)). rewrite Hk. by apply insert_id.
Qed.

(** *** Files, sealed or not *)

Lemma k_sealed_bounds (k : StoreKey C) : key_fits k -> 0 < k_sealed k <= u64_max /\
  k_sealed k = backing_page_bytes (k_page k) (bool_decide (is_Some (k_cipher k))).
Proof.
  intros [Hp Hc Hl _ _]. unfold k_sealed, backing_page_bytes, AEAD_OVERHEAD, add64, u64_max in *.
  assert (k_page k + match k_cipher k with Some _ => 12 + 16 | None => 0 end <= 18446744073709551615) by (destruct (k_cipher k); nia).
  destruct (k_cipher k) as [c|]; cbn; rewrite wrap_small; (try split); (try lia); change (2 ^ 64) with 18446744073709551616; lia.
Qed.

Lemma cipher_for_encrypted encrypted key_hex c : cipher_for encrypted key_hex = Ok c ->
  encrypted = bool_decide (is_Some c) /\ forall k, c = Some k -> exists key, parse_required_key key_hex = Ok key /\ k = cipher_new key.
Proof.
  unfold cipher_for. destruct encrypted; [|by intros [= <-]].
  destruct (parse_required_key key_hex) as [key| | |]; [|done..]. intros [= <-]. split; [done|]. intros k [= <-]. by exists key.
Qed.

(** A store opened for writing *)
Definition opened {S} `{WritableStore S} `{!Keyed (StoreKey C) S} (k : StoreKey C) (s : S) : Prop :=
  ws_ok s /\ key_of s = k /\ ps_page_size s = default (k_page k) (k_view k) /\ ps_page_count s = k_count k.

(** A store opened on an image *)
Definition loaded {S} `{LawfulPageStore S} `{!Keyed (StoreKey C) S} (k : StoreKey C) (f : Z -> bytes) (s : S) : Prop :=
  ps_ok s /\ key_of s = k /\ ps_page_size s = default (k_page k) (k_view k) /\ ps_page_count s = k_count k /\ serves_image f s.

Lemma fork_yields (h : HS) ks h0 (Q : OS -> HS -> Prop) : touches ks h0 h ->
  (forall o h', touches ks h0 h' -> files h' = files h -> Q o h') -> yields E fork_os h Q.
Proof.
  intros [[Hf Hb] Ht] HQ. unfold yields, fork_os. destruct (io_fork (os h)) as [o1 o2]. by apply HQ.
Qed.

Lemma open_base_yields image k encrypted key_hex (h : HS) : cipher_for encrypted key_hex = Ok (k_cipher k) -> key_fits k -> clear h ->
  yields E (open_base_store image (k_count k) (k_page k) encrypted key_hex) h (fun (s : BaseStore C OS) h' =>
    touches [render image] h h' /\ opened k s /\
    forall b f, files h !! render image = Some b -> image_file k f b -> files h' = files h /\ loaded k f s).
Proof.
  intros Hk Hfit Hh. destruct (cipher_for_encrypted _ _ _ Hk) as [He Hc]. clear Hk. destruct (k_sealed_bounds k Hfit) as [[Hse _] Hs].
  rewrite <-He in Hs. pose proof Hfit as [Hp Hct Hl Hv Hlim]. unfold open_base_store. destruct k as [c pg ct v]. cbn in Hv. subst v. cbn [k_page k_count k_cipher k_view]. destruct c as [c|]; cbn in He; subst encrypted.
  - destruct (Hc c eq_refl) as (key & Ekey & ->). cbn in Hs, Hct, Hl, Hp, Hlim. destruct Hlim as [?|Hlim]; [done|].
    apply yields_bind. eapply yields_lift; [exact Ekey|]. rewrite <-Hs.
    eapply yields_step; [by apply open_file_yields|]. cbn. intros file h1 (Hfo & Hfz & Hfc & Ht & Hb). apply yields_bind.
    eapply fork_yields; [exact Ht|]. intros o h2 Ht2 Hf2. apply yields_bind.
    assert (fp_page_size file = pg + AEAD_OVERHEAD) as Hz by (rewrite Hfz; done).
    eapply yields_lift; [unfold aead_new; cbn [ps_page_size file_page_store]; by rewrite Hz, Z.eqb_refl|]. apply (yields_ret E).
    set (s := mkAead file (cipher_new key) pg o).
    assert (aead_shape s) as Hsh by (split; [exact Hfo|exact Hz|split; [exact Hp|exact Hlim]]).
    assert (key_of (inr s : BaseStore C OS) = mkStoreKey (Some (cipher_new key)) pg ct None) as Hkey.
    { change (mkStoreKey (Some (cipher_new (C := C) key)) pg (fp_page_count file) None = mkStoreKey (Some (cipher_new key)) pg ct None). by rewrite Hfc. }
    split_and!; [done| |].
    + by split_and!.
    + intros b f Eb [Hib Hibb Him]. destruct (Hb b Eb Hib) as [Hbb Hff]. split; [congruence|].
      assert (forall i, in_range ct i -> exists page, f i `prefix_of` page /\ page_ok pg page /\ seals (cipher_new key) i page (ps_content file i)) as Hpages.
      { intros i Hi. destruct (Him i Hi) as (page & Hpre & Hpg & Hseal). exists page. split_and!; [done|done|].
        cbn in Hseal. unfold ps_content. cbn. unfold file_content. rewrite Hfz, Hbb. exact Hseal. }
      assert (aead_ok s) as Hok.
      { split; [exact Hsh|]. intros i Hi. cbn in Hi. rewrite Hfc in Hi. destruct (Hpages i Hi) as (page & _ & Hpg & Hseal). by exists page. }
      split_and!; [exact Hok|exact Hkey|done|exact Hfc|].
      intros i Hi. cbn in Hi. rewrite Hfc in Hi. destruct (Hpages i Hi) as (page & Hpre & Hpg & Hseal).
      change (f i `prefix_of` aead_content s i). rewrite (seals_content s i page); [done|exact Hsh|cbn; by rewrite Hfc|done|exact Hseal].
  - cbn in Hs, Hct, Hl, Hp. assert (k_sealed (mkStoreKey (C := C) None pg ct None) = pg) as Hpg by (unfold k_sealed; cbn; lia).
    rewrite Hpg in *. eapply yields_step; [by apply open_file_yields|]. cbn. intros file h1 (Hfo & Hfz & Hfc & Ht & Hb). apply (yields_ret E).
    assert (key_of (inl file : BaseStore C OS) = mkStoreKey None pg ct None) as Hkey.
    { change (mkStoreKey (C := C) None (fp_page_size file) (fp_page_count file) None = mkStoreKey None pg ct None). by rewrite Hfz, Hfc. }
    split_and!; [done|by split_and!|].
    intros b f Eb [Hib Hibb Him]. rewrite Hpg in *. destruct (Hb b Eb Hib) as [Hbb Hff]. split; [done|]. split_and!; [done|done|done|done|].
    intros i Hi. cbn in Hi. rewrite Hfc in Hi. destruct (Him i Hi) as (page & Hpre & _ & Hat).
    change (f i `prefix_of` file_content file i). unfold file_content. rewrite Hfz, Hbb, <-Hpg. cbn in Hat. by rewrite Hat.
Qed.

(** *** Front caches *)

Lemma front_zeroed_opened k (s : BaseStore C OS) cached : opened k s -> k_view k = None -> 0 < k_page k -> 0 <= cached <= k_count k ->
  exists fs, front_new_zeroed s cached = Ok fs /\ opened k fs.
Proof.
  intros (Hs & Hk & Hz & Hc) Hv Hp Hcp. rewrite Hv in Hz. cbn [default] in Hz. unfold front_new_zeroed. rewrite Hc, (proj2 (Z.ltb_ge _ _)) by lia.
  eexists. split; [reflexivity|]. unfold opened. rewrite Hv. split_and!; [|exact Hk|exact Hz|exact Hc].
  split; cbn [fc_inner fc_cached_pages fc_page_size fc_cached fc_dirty]; rewrite ?Hz, ?Hc; try done; try lia.
  - rewrite lenZ_zeros; nia.
  - apply zeros_ok.
  - unfold lenZ. rewrite length_replicate. lia.
Qed.

Lemma front_new_loaded k f (s : BaseStore C OS) cached : loaded k f s -> 0 <= cached <= k_count k ->
  exists fs, front_new s cached = Ok fs /\ loaded k f fs.
Proof.
  intros (Hs & Hk & Hz & Hc & Hf) Hcp. destruct (front_new_spec s cached Hs) as (fs & Ef & Hfs & Hfz & Hfc & Hj); [by rewrite Hc|].
  exists fs. split; [done|]. split_and!; [exact Hfs| |etrans; [exact Hfz|exact Hz]|etrans; [exact Hfc|exact Hc]|].
  - rewrite <-Hk. unfold front_new in Ef. destruct (_ <? _); [done|].
    pose proof (keeps_front_load (ps_page_size s) (seqZ 0 cached) (zeros (cached * ps_page_size s)) s) as Hkl.
    destruct (front_load _ _ _ s) as [[c|e| |] inner']; [|done..]. by injection Ef as <-.
  - intros i Hi. change (in_range (front_page_count fs) i) in Hi. rewrite Hfc in Hi.
    change (f i `prefix_of` front_content fs i). rewrite Hj by done. by apply Hf.
Qed.

Lemma open_sized_fresh image k encrypted key_hex cached (h : HS) :
  cipher_for encrypted key_hex = Ok (k_cipher k) -> key_fits k -> clear h -> 0 <= cached <= k_count k ->
  yields E (open_sized_store image (k_count k) (k_page k) encrypted key_hex cached false) h (fun (s : SizedStore C OS) h' =>
    touches [render image] h h' /\ opened k s).
Proof.
  intros Hk Hfit Hh Hcp. unfold open_sized_store. eapply yields_step; [by apply open_base_yields|]. cbn. intros s h1 (Ht & Hop & _).
  destruct (cached =? 0); [by apply (yields_ret E)|].
  destruct (front_zeroed_opened k s cached Hop) as (fs & Ef & Hfs); [apply Hfit|apply Hfit|done|].
  apply yields_bind. eapply yields_lift; [exact Ef|]. by apply (yields_ret E).
Qed.

Lemma open_sized_loaded image k encrypted key_hex cached load (h : HS) b f :
  cipher_for encrypted key_hex = Ok (k_cipher k) -> key_fits k -> clear h -> 0 <= cached <= k_count k -> load = true \/ cached = 0 ->
  files h !! render image = Some b -> image_file k f b ->
  yields E (open_sized_store image (k_count k) (k_page k) encrypted key_hex cached load) h (fun (s : SizedStore C OS) h' =>
    clear h' /\ files h' = files h /\ loaded k f s).
Proof.
  intros Hk Hfit Hh Hcp Hl Hb Him. unfold open_sized_store. eapply yields_step; [by apply open_base_yields|]. cbn.
  intros s h1 ([Hh1 _] & _ & Hld). destruct (Hld b f Hb Him) as [Hfs Hs].
  destruct (cached =? 0) eqn:Ec; zbool; [by apply (yields_ret E)|]. destruct Hl as [->|]; [|lia].
  destruct (front_new_loaded k f s cached Hs Hcp) as (fs & Ef & Hfst).
  apply yields_bind. eapply yields_lift; [exact Ef|]. by apply (yields_ret E).
Qed.

Lemma open_box_loaded image k encrypted key_hex cached load (h : HS) b f :
  cipher_for encrypted key_hex = Ok (k_cipher k) -> key_fits k -> clear h -> 0 <= cached <= k_count k -> load = true \/ cached = 0 ->
  files h !! render image = Some b -> image_file k f b ->
  yields E (open_sized_file_store image (k_count k) (k_page k) encrypted key_hex cached load) h (fun (s : BoxStore C OS) h' =>
    clear h' /\ files h' = files h /\ loaded k f s).
Proof.
  intros. unfold open_sized_file_store. eapply yields_step; [by eapply open_sized_loaded|]. intros s h1 Hs. by apply (yields_ret E).
Qed.

End Open.

(** ** The tool's own names are apart. *)

Lemma string_app_assoc (a b c : string) : ((a +:+ b) +:+ c = a +:+ (b +:+ c))%string.
Proof. induction a as [|x a IH]; [done|]. change (String x ((a +:+ b) +:+ c) = String x (a +:+ (b +:+ c)))%string. by rewrite IH. Qed.

Lemma output_paths_apart dir label : NoDup (path_names (output_paths dir label)).
Proof.
  assert (path_names (output_paths dir label) = String.append ((dir +:+ "/") +:+ label) <$>
    [".meta.oram"; ".payload.oram"; ".meta.hash.oram"; ".payload.hash.oram"; ".state"; ".state.tmp"; ".auth.state"; ".auth.state.tmp"; ".metadata"; ".metadata.tmp"])%string as ->.
  { unfold path_names, output_paths, tmp_path, with_extension, render, join. cbn [fmap list_fmap meta_image payload_image meta_hash_image payload_hash_image state_path
      auth_state_path metadata_path extension parent file_stem]. by rewrite !string_app_assoc. }
  apply NoDup_fmap_2; [apply _|]. by apply (bool_decide_unpack _).
Qed.
