(* ===== verification/ImageRest.v ===== *)
(** * Stores at rest and the state file

    A flushed store whose files have been put back can be opened again: the store
    that [open_file_stores_for_reopen] returns holds the same pages under the same
    trusted state.  The controller's state is saved and read back, and [open_image]
    makes of it the saved controller over reopened stores. *)

From S2P Require Import Prelude Ct Block Params Store Writable Schedule Bucket Evict EvictPath Rng State Circuit CircuitInv.
From S2P Require Import CircuitSpec FrontCache Aead Hash Merkle TieredMerkle SealedState FileStore Embedded EmbeddedSpec Direct Cuckoo Evidence Disk.
From S2P Require Import ReopenStore ReopenKeys ImageFiles ImageOps ImageOpen.

Section Rest.
Context {C OS : Type} `{CipherLaws C} `{OsRandom OS} `{HostIo OS} `{Hex} `{HashLaws}.
Context (Hio : forall path, Forall (fun t => t <> TransferError) (io_script (OS := OS) path)).
Context (E : Error -> Prop).
Local Abbreviation HS := (Host OS).
Local Abbreviation Box := (BoxStore C OS).
Local Abbreviation RS := (CircuitReopenPageStore Box).

(** ** One file *)

Record box_at_rest (k : StoreKey C) (b : Box) (image : FilePath) (h : HS) : Prop := {
  br_ok : ps_ok b;
  br_key : key_of b = k;
  br_settled : box_settled b;
  br_file : files h !! render image = Some (backing b)
}.

Lemma rest_image k b image h : box_at_rest k b image h -> image_file k (ps_content b) (backing b).
Proof.
  intros [Hb <- Hd _]. apply img_file; [done|]. intros i Hi. exists (ps_content b i). split; [done|by apply Hd].
Qed.

Lemma loaded_next k b image h (s : Box) : box_at_rest k b image h -> k_view k = None -> loaded k (ps_content b) s ->
  ps_next b (ps_content b) s.
Proof.
  intros [Hb Hk _ _] Hv (Hs & _ & Hz & Hc & Hf). destruct (img_shape b Hb) as (_ & Hbc & Hbz). rewrite Hk, Hv in *. cbn [default] in *.
  split_and!; [done|congruence|congruence|]. intros i Hi. rewrite Hbc, <-Hc in Hi. specialize (Hf i Hi).
  destruct Hf as [tail Et]. destruct (ps_content_ok s i Hs Hi) as [Hl1 _].
  destruct (ps_content_ok b i Hb) as [Hl2 _]; [congruence|]. rewrite Et, lenZ_app in Hl1.
  destruct tail; [by rewrite Et, app_nil_r|]. rewrite lenZ_cons in Hl1. pose proof (lenZ_nonneg tail). lia.
Qed.

Lemma reopen_box k b image encrypted key_hex cached load (h : HS) : box_at_rest k b image h ->
  cipher_for encrypted key_hex = Ok (k_cipher k) -> key_fits k -> clear h -> 0 <= cached <= k_count k -> load = true \/ cached = 0 ->
  yields E (open_sized_file_store image (k_count k) (k_page k) encrypted key_hex cached load) h (fun (s : Box) h' =>
    clear h' /\ files h' = files h /\ key_of s = k /\ ps_next b (ps_content b) s).
Proof.
  intros Hr Hk Hfit Hh Hcp Hl. eapply yields_mono; [eapply open_box_loaded; try done; [apply Hr|by eapply rest_image]|].
  intros s h' (Hc & Hf & Hld). split_and!; [done|done|apply Hld|]. eapply loaded_next; [exact Hr|apply Hfit|done].
Qed.

(** ** The two stores of an image *)

Lemma rest_files k b image (h h' : HS) : files h' = files h -> box_at_rest k b image h -> box_at_rest k b image h'.
Proof. intros Hf [Hb Hk Hd Hi]. split; [done..|by rewrite Hf]. Qed.

Definition logical_sizes (p : OramParams) : Z * Z :=
  (circuit_meta_page_bytes (bucket_size p), circuit_payload_page_bytes (bucket_size p) (block_size p)).

(** The key of a store of [p]'s tree with pages of the given size *)
Definition tree_key (p : OramParams) (c : option C) (size : Z) (k : StoreKey C) : Prop :=
  k_cipher k = c /\ key_fits k /\ k_count k = bucket_count p /\ k_page k = size.

Lemma reopen_plain p km kp bm bp paths encrypted key_hex cached c (h : HS) :
  box_at_rest km bm (meta_image paths) h -> box_at_rest kp bp (payload_image paths) h ->
  tree_key p c (circuit_meta_page_bytes (bucket_size p)) km ->
  tree_key p c (circuit_payload_page_bytes (bucket_size p) (block_size p)) kp ->
  cipher_for encrypted key_hex = Ok c -> clear h -> 0 <= cached <= bucket_count p ->
  yields E (open_circuit_file_stores (C := C) (meta_image paths) (payload_image paths) p encrypted key_hex cached true LayoutSidecar) h
    (fun (ss : Box * Box) h' => clear h' /\ files h' = files h /\ key_of ss.1 = km /\ ps_next bm (ps_content bm) ss.1 /\
       key_of ss.2 = kp /\ ps_next bp (ps_content bp) ss.2).
Proof.
  intros Hm Hp (Hmc & Hmf & Hmn & Hmp) (Hpc & Hpf & Hpn & Hpp) Hc Hh Hcp. unfold open_circuit_file_stores, auth_plaintext_page_bytes. cbn zeta.
  rewrite <-Hmn, <-Hmp. eapply yields_step.
  { eapply (open_sized_loaded Hio); try done; [by rewrite Hmc|by rewrite Hmn|by left|apply Hm|by eapply rest_image]. }
  intros m h1 (Hc1 & Hf1 & Hl1). cbn beta. rewrite Hmn, <-Hpn, <-Hpp. eapply yields_step.
  { eapply (open_sized_loaded Hio); try done; [by rewrite Hpc|by rewrite Hpn|by left|rewrite Hf1; apply Hp|by eapply rest_image]. }
  intros pl h2 (Hc2 & Hf2 & Hl2). cbn beta. apply (yields_ret E). split_and!; [done|congruence|apply Hl1| |apply Hl2|].
  - eapply loaded_next; [exact Hm|apply Hmf|exact Hl1].
  - eapply loaded_next; [exact Hp|apply Hpf|exact Hl2].
Qed.

Lemma reopen_physical p km kp bm bp paths encrypted key_hex cached c (h : HS) :
  box_at_rest km bm (meta_image paths) h -> box_at_rest kp bp (payload_image paths) h ->
  tree_key p c (auth_plaintext_page_bytes (circuit_meta_page_bytes (bucket_size p)) LayoutEmbeddedTree) km ->
  tree_key p c (auth_plaintext_page_bytes (circuit_payload_page_bytes (bucket_size p) (block_size p)) LayoutEmbeddedTree) kp ->
  cipher_for encrypted key_hex = Ok c -> clear h -> 0 <= cached <= bucket_count p ->
  yields E (open_circuit_physical_file_stores (C := C) (meta_image paths) (payload_image paths) p encrypted key_hex cached true LayoutEmbeddedTree) h
    (fun (ss : Box * Box) h' => clear h' /\ files h' = files h /\ key_of ss.1 = km /\ ps_next bm (ps_content bm) ss.1 /\
       key_of ss.2 = kp /\ ps_next bp (ps_content bp) ss.2).
Proof.
  intros Hm Hp (Hmc & Hmf & Hmn & Hmp) (Hpc & Hpf & Hpn & Hpp) Hc Hh Hcp. unfold open_circuit_physical_file_stores.
  rewrite <-Hmn, <-Hmp. eapply yields_step; [eapply reopen_box; try done; [by rewrite Hmc|by rewrite Hmn|by left]|].
  intros m h1 (Hc1 & Hf1 & Hk1 & Hn1). cbn beta. rewrite Hmn, <-Hpn, <-Hpp.
  eapply yields_step; [eapply reopen_box; try done; [eapply rest_files; [exact Hf1|done]|by rewrite Hpc|by rewrite Hpn|by left]|].
  intros pl h2 (Hc2 & Hf2 & Hk2 & Hn2). cbn beta. apply (yields_ret E). split_and!; [done|congruence|done..].
Qed.

(** ** Reopened stores *)

(** The files that hold a store *)
Definition put_files (image hash_image : FilePath) (s : RS) (h : HS) : Prop :=
  match s with
  | Plain b => files h !! render image = Some (backing b)
  | Sidecar t => files h !! render image = Some (backing (tm_inner t)) /\ files h !! render hash_image = Some (backing (tm_hash_store t))
  | Embedded e => files h !! render image = Some (backing (et_inner e))
  end.

Definition at_rest (key : ReopenKey C) (s : RS) (image hash_image : FilePath) (h : HS) : Prop :=
  reopen_keyed_ok key s /\ settled s /\ put_files image hash_image s h.

(** The keys of a store of [p]'s tree with logical pages of the given size *)
Definition reopen_key_for (p : OramParams) (c : option C) (size : Z) (key : ReopenKey C) : Prop :=
  match key with
  | PlainKey k => tree_key p c size k
  | SidecarKey _ levels k kh =>
      tree_key p c size k /\ k_cipher kh = c /\ key_fits kh /\ required_hash_pages (bucket_count p) (k_page kh) levels = Ok (k_count kh)
  | EmbeddedKey _ k => tree_key p c (auth_plaintext_page_bytes size LayoutEmbeddedTree) k
  end.

(** Two keys of one image *)
Definition keys_match (meta_id payload_id : bytes) (auth_store : bool) (km kp : ReopenKey C) : Prop :=
  match km, kp with
  | PlainKey _, PlainKey _ => auth_store = false
  | SidecarKey i _ _ _, SidecarKey j _ _ _ | EmbeddedKey i _, EmbeddedKey j _ => auth_store = true /\ i = meta_id /\ j = payload_id
  | _, _ => False
  end.

Lemma rest_inner key (t : TieredMerklePageStore Box Box) image hash_image h : at_rest key (Sidecar t) image hash_image h ->
  box_at_rest (key_of (tm_inner t)) (tm_inner t) image h /\ box_at_rest (key_of (tm_hash_store t)) (tm_hash_store t) hash_image h.
Proof. intros ([[Hs _] _] & [Hd1 Hd2] & Hf1 & Hf2). split; split; try done; apply Hs. Qed.

Lemma rest_embedded key (e : EmbeddedTreePageStore Box) image hash_image h : at_rest key (Embedded e) image hash_image h ->
  box_at_rest (key_of (et_inner e)) (et_inner e) image h.
Proof. intros ([Hs _] & Hd & Hf). split; try done. apply (tr_shape _ _ Hs). Qed.

Lemma rest_plain key (b : Box) image hash_image h : at_rest key (Plain b) image hash_image h -> box_at_rest (key_of b) b image h.
Proof. by intros ([Hs _] & Hd & Hf). Qed.

(** The hash store of a sidecar *)
Lemma reopen_hashes p c size key (t : TieredMerklePageStore Box Box) image hash_image encrypted key_hex (h : HS) :
  at_rest key (Sidecar t) image hash_image h -> reopen_key_for p c size key -> cipher_for encrypted key_hex = Ok c -> clear h ->
  yields E (open_hash_store_for_auth (C := C) hash_image (trusted_state t) encrypted key_hex) h (fun (s : Box) h' =>
    clear h' /\ files h' = files h /\ key_of s = key_of (tm_hash_store t) /\ ps_next (tm_hash_store t) (ps_content (tm_hash_store t)) s).
Proof.
  intros Hr Hk Hc Hh. pose proof (proj2 (rest_inner _ _ _ _ _ Hr)) as Hrh. pose proof Hr as ([[Hs _] Hkey] & _). rewrite <-Hkey in Hk.
  destruct Hk as ((_ & Hkf & Hkn & _) & Hkc & Hhf & Hreq). pose proof Hs as [Hin Hhs Hsz Hct _ _ _ _ _ _ _ _ _].
  destruct (img_shape _ Hhs) as (_ & _ & Hhz). rewrite (kf_view _ Hhf) in Hhz. cbn [default] in Hhz.
  destruct (img_shape _ Hin) as (_ & Hic & _). unfold open_hash_store_for_auth. apply yields_bind.
  eapply yields_lift; [unfold tiered_hash_pages, trusted_state; cbn [tms_page_count tms_hash_page_size tms_trusted_levels]; rewrite Hct, Hic, Hkn, Hhz; exact Hreq|].
  unfold trusted_state. cbn [tms_hash_page_size]. rewrite Hhz.
  eapply reopen_box; try done; [by rewrite Hkc|pose proof (kf_count _ Hhf); lia|by right].
Qed.

Lemma guard_yields {S} (b : bool) e (s : S) (Q : unit -> S -> Prop) : b = true -> Q tt s -> yields E (guardm b e) s Q.
Proof. by intros ->. Qed.

Lemma plain_auth (bm bp : Box) : store_auth_state_from_stores (Plain bm) (Plain bp) = None.
Proof. by destruct bm as [[[]|]|], bp as [[[]|]|]. Qed.

(** What opening the stores at rest returns *)
Definition reopens (km kp : ReopenKey C) (sm sp : RS) (h : HS) (ss : RS * RS) (h' : HS) : Prop :=
  clear h' /\ files h' = files h /\ reopen_key ss.1 = km /\ pp_next sm (pp_content sm) ss.1 /\
  reopen_key ss.2 = kp /\ pp_next sp (pp_content sp) ss.2 /\
  store_auth_state_from_stores ss.1 ss.2 = store_auth_state_from_stores sm sp.

Lemma reopen_rests meta_id payload_id msg1 msg2 p km kp sm sp paths encrypted key_hex cached auth_store state_key_hex c (h : HS)
    `{Bincode CircuitStoreAuthState} `{Bincode LegacyCircuitStoreAuthState} :
  at_rest km sm (meta_image paths) (meta_hash_image paths) h -> at_rest kp sp (payload_image paths) (payload_hash_image paths) h ->
  reopen_key_for p c (circuit_meta_page_bytes (bucket_size p)) km ->
  reopen_key_for p c (circuit_payload_page_bytes (bucket_size p) (block_size p)) kp -> keys_match meta_id payload_id auth_store km kp ->
  cipher_for encrypted key_hex = Ok c -> clear h -> 0 <= cached <= bucket_count p ->
  yields E (open_file_stores_for_reopen (C := C) meta_id payload_id msg1 msg2 paths p encrypted key_hex cached auth_store
              (store_auth_state_from_stores sm sp) state_key_hex) h (reopens km kp sm sp h).
Proof.
  intros Hm Hp Hkm Hkp Hkk Hc Hh Hcp. pose proof Hm as [[Hmo <-] _]. pose proof Hp as [[Hpo <-] _].
  destruct sm as [bm|tm|em], sp as [bp|tp|ep]; cbn [reopen_key keys_match tiered_key embedded_key] in Hkk; try done; unfold open_file_stores_for_reopen.
  - subst auth_store. cbn [negb]. pose proof (rest_plain _ _ _ _ _ Hm) as Hmi. pose proof (rest_plain _ _ _ _ _ Hp) as Hpi.
    eapply yields_step; [exact (reopen_plain p _ _ bm bp paths _ _ _ c h Hmi Hpi Hkm Hkp Hc Hh Hcp)|].
    intros ss h1 (Hc1 & Hf1 & Hk1 & Hn1 & Hk2 & Hn2). apply (yields_ret E). split_and!; [done|done|exact (f_equal PlainKey Hk1)|done|exact (f_equal PlainKey Hk2)|done|].
    cbn [fst snd]. by rewrite !plain_auth.
  - destruct Hkk as (-> & Him & Hip). cbn [negb]. apply yields_bind.
    cbn [store_auth_state_from_stores pp_tiered_merkle_state reopen_path_store]. apply (yields_ret E). cbn [layout auth_new].
    destruct (rest_inner _ _ _ _ _ Hm) as [Hmi Hmh], (rest_inner _ _ _ _ _ Hp) as [Hpi Hph]. pose proof Hkm as [Hkm1 _]. pose proof Hkp as [Hkp1 _].
    eapply yields_step; [exact (reopen_plain p _ _ _ _ paths _ _ _ c h Hmi Hpi Hkm1 Hkp1 Hc Hh Hcp)|]. intros ss h1 (Hc1 & Hf1 & Hk1 & Hn1 & Hk2 & Hn2). cbn beta.
    assert (forall key s image hash h', files h' = files h -> at_rest key s image hash h -> at_rest key s image hash h') as Hat.
    { intros key s image hash h' Hf (? & ? & Hpf). split; [done|]. split; [done|]. unfold put_files in *. by rewrite Hf. }
    eapply yields_step; [exact (reopen_hashes p c _ _ tm _ _ encrypted key_hex h1 (Hat _ _ _ _ h1 Hf1 Hm) Hkm Hc Hc1)|]. intros hm h2 (Hc2 & Hf2 & Hkh & Hnh). cbn beta.
    eapply yields_step;
      [exact (reopen_hashes p c _ _ tp _ _ encrypted key_hex h2 (Hat _ _ _ _ h2 (eq_trans Hf2 Hf1) Hp) Hkp Hc Hc2)|].
    intros hp h3 (Hc3 & Hf3 & Hkh' & Hnh'). cbn beta.
    destruct (sidecar_reopens tm ss.1 hm Hmo Hn1 Hnh) as (tm' & Etm & Hntm & Hstm & Him' & Hhm').
    destruct (sidecar_reopens tp ss.2 hp Hpo Hn2 Hnh') as (tp' & Etp & Hntp & Hstp & Hip' & Hhp').
    apply yields_bind. eapply yields_lift; [exact Etm|]. apply yields_bind. eapply yields_lift; [exact Etp|].
    apply yields_bind.
    assert (tm_store_id tm' = tm_store_id tm /\ tm_trusted_levels tm' = tm_trusted_levels tm) as [Hid1 Hlv1] by (unfold trusted_state in Hstm; injection Hstm; done).
    assert (tm_store_id tp' = tm_store_id tp /\ tm_trusted_levels tp' = tm_trusted_levels tp) as [Hid2 Hlv2] by (unfold trusted_state in Hstp; injection Hstp; done).
    apply guard_yields; [by rewrite Hid1, Hid2, Him, Hip, !bool_decide_eq_true_2|]. apply (yields_ret E).
    split_and!; [done|congruence| |exact Hntm| |exact Hntp|].
    + cbn [fst reopen_key]. unfold tiered_key. congruence.
    + cbn [snd reopen_key]. unfold tiered_key. congruence.
    + cbn [fst snd store_auth_state_from_stores pp_tiered_merkle_state reopen_path_store]. by rewrite Hstm, Hstp.
  - destruct Hkk as (-> & Him & Hip). cbn [negb]. apply yields_bind.
    cbn [store_auth_state_from_stores pp_tiered_merkle_state pp_embedded_tree_state reopen_path_store]. apply (yields_ret E). cbn [layout auth_new_embedded].
    pose proof (rest_embedded _ _ _ _ _ Hm) as Hmi. pose proof (rest_embedded _ _ _ _ _ Hp) as Hpi.
    eapply yields_step; [exact (reopen_physical p _ _ _ _ paths _ _ _ c h Hmi Hpi Hkm Hkp Hc Hh Hcp)|]. intros ss h1 (Hc1 & Hf1 & Hk1 & Hn1 & Hk2 & Hn2). cbn beta. apply yields_bind.
    apply guard_yields; [unfold embedded_state; cbn [ets_store_id]; by rewrite Him, Hip, !bool_decide_eq_true_2|].
    destruct (embedded_reopens em ss.1 Hmo Hn1) as (em' & Eem & Hnem & Hsem & Him').
    destruct (embedded_reopens ep ss.2 Hpo Hn2) as (ep' & Eep & Hnep & Hsep & Hip').
    apply yields_bind. eapply yields_lift; [exact Eem|]. apply yields_bind. eapply yields_lift; [exact Eep|]. apply (yields_ret E).
    assert (et_store_id em' = et_store_id em) as Hid1 by (unfold embedded_state in Hsem; injection Hsem; done).
    assert (et_store_id ep' = et_store_id ep) as Hid2 by (unfold embedded_state in Hsep; injection Hsep; done).
    split_and!; [done|congruence| |exact Hnem| |exact Hnep|].
    + cbn [fst reopen_key]. unfold embedded_key. congruence.
    + cbn [snd reopen_key]. unfold embedded_key. congruence.
    + cbn [fst snd store_auth_state_from_stores pp_tiered_merkle_state pp_embedded_tree_state reopen_path_store]. by rewrite Hsem, Hsep.
Qed.

End Rest.

(** ** Saving and loading *)

Section StateFile.
Context {A C OS : Type} `{BincodeLaws A} `{CipherLaws C} `{OsRandom OS} `{Hex}.
Context (E : Error -> Prop) (HE1 : E BincodeError) (HE2 : E AeadError).
Context (magic : bytes) (Hmagic : bytes_ok magic) (from_bytes : bytes -> outcome A) (m1 m2 : string).
Local Abbreviation HS := (Host OS).

(** The bytes of a state file, plain or sealed under the state key *)
Definition decodes (state_key_hex : option string) (b : bytes) (x : A) : Prop :=
  match state_key_hex with
  | Some key_hex => exists key, parse_32_hex key_hex = Ok key /\ open_envelope (C := C) magic from_bytes m1 m2 key b = Ok x
  | None => from_bytes b = Ok x
  end.

Definition state_key_ok (state_key_hex : option string) : Prop :=
  match state_key_hex with Some key_hex => exists key, parse_32_hex key_hex = Ok key | None => True end.

(** A file is written, then renamed. *)
Lemma publish_yields path data (h : HS) : clear h -> bytes_ok data ->
  yields E (let* _ := file_create (tmp_path path) in
            let* _ := write_and_flush (tmp_path path) data in
            fs_rename (tmp_path path) path) h (fun _ h' =>
    touches [render path; render (tmp_path path)] h h' /\ files h' !! render path = Some data).
Proof.
  intros [Hf Hb] Hd. destruct h as [fs fl o]. cbn in Hf, Hb. subst fl.
  unfold yields, file_create, write_and_flush, fs_rename, next_fault, bind, gets, modify. cbn [head tail default id files faults os set_files].
  rewrite lookup_insert_eq. cbn [head tail default id files faults os set_files].
  split; [|apply lookup_insert_eq]. split; [split; [done|]|].
  - apply map_Forall_insert_2; [done|]. apply map_Forall_delete. apply map_Forall_insert_2; [done|]. by apply map_Forall_insert_2; [constructor|].
  - intros q Hq. cbn. rewrite lookup_insert_ne, lookup_delete_ne, !lookup_insert_ne; [done|set_solver..].
Qed.

Lemma save_yields (x : A) path state_key_hex (h : HS) :
  (forall b, bin_serialize x = Some b -> from_bytes b = Ok x) -> state_key_ok state_key_hex -> clear h ->
  yields E match state_key_hex with
           | Some key_hex => let* key := lift (parse_32_hex key_hex) in save_encrypted_atomic (C := C) magic x path key
           | None => save_atomic x path
           end h (fun _ h' => touches [render path; render (tmp_path path)] h h' /\
    exists b, files h' !! render path = Some b /\ decodes state_key_hex b x).
Proof.
  intros Hx Hk Hh. destruct state_key_hex as [key_hex|].
  - destruct Hk as [key Ek]. apply yields_bind. eapply yields_lift; [exact Ek|].
    unfold save_encrypted_atomic. apply yields_bind.
    destruct (bin_serialize x) as [pt|] eqn:Es; [|exact HE1]. eapply yields_lift; [done|]. apply yields_bind.
    unfold os_fill_bytes. pose proof (fill_bytes_ok STATE_NONCE_LEN (os h) ltac:(done)) as [Hnl Hnb].
    unfold yields at 1. destruct (fill_bytes STATE_NONCE_LEN (os h)) as [nonce o']. cbn [fst] in Hnl, Hnb. apply yields_bind.
    destruct (cipher_encrypt _ _ _ _) as [ct|] eqn:Ee; [|exact HE2]. eapply yields_lift; [done|].
    eapply yields_mono; [apply publish_yields; [done|]|].
    { apply Forall_app. split; [done|]. apply Forall_app. split; [done|]. eapply encrypt_bytes; [|exact Ee]. by eapply bin_bytes. }
    cbn beta. intros _ h' [Ht Hf]. split; [exact Ht|]. eexists. split; [exact Hf|]. exists key. split; [done|].
    apply open_envelope_iff. exists nonce, ct, pt. split_and!; [done|done|done|by apply Hx].
  - unfold save_atomic. cbn zeta. destruct (bin_serialize x) as [pt|] eqn:Es.
    + eapply yields_mono; [exact (publish_yields path pt h Hh (bin_bytes x pt Es))|]. cbn beta.
      intros _ h' [Ht Hf]. split; [exact Ht|]. exists pt. split; [exact Hf|by apply Hx].
    + destruct h as [fs fl o], Hh as [Hfl _]. cbn in Hfl. subst fl. exact HE1.
Qed.

Lemma load_yields (x : A) b path state_key_hex (h : HS) : decodes state_key_hex b x -> clear h -> files h !! render path = Some b ->
  yields E match state_key_hex with
           | Some key_hex => let* key := lift (parse_32_hex key_hex) in load_encrypted (C := C) magic from_bytes m1 m2 path key
           | None => load from_bytes path
           end h (fun y h' => y = x /\ clear h' /\ files h' = files h).
Proof.
  intros Hd [Hf Hb] Eb. destruct h as [fs fl o]. cbn in Hf, Hb, Eb. subst fl. destruct state_key_hex as [key_hex|].
  - destruct Hd as (key & Ek & Eo). apply yields_bind. eapply yields_lift; [exact Ek|].
    unfold yields, load_encrypted, fs_read, next_fault, bind, gets, lift. cbn [head faults default id tail files]. rewrite Eb.
    unfold ret. rewrite Eo. done.
  - unfold yields, load, fs_read, next_fault, bind, gets, lift. cbn [head faults default id tail files]. rewrite Eb.
    unfold ret. cbn in Hd. rewrite Hd. done.
Qed.

End StateFile.

(** ** Putting files back *)

Section PutBack.
Context {C OS : Type} `{CipherLaws C} `{OsRandom OS} `{HostIo OS} `{Hex} `{HashLaws}.
Context (E : Error -> Prop).
Local Abbreviation HS := (Host OS).
Local Abbreviation Box := (BoxStore C OS).
Local Abbreviation RS := (CircuitReopenPageStore Box).

Lemma put_back_yields (b : Box) image (h : HS) : ps_ok b -> box_settled b -> clear h ->
  yields E (put_back image b) h (fun _ h' => touches [render image] h h' /\ files h' !! render image = Some (backing b)).
Proof.
  intros Hb Hd [Hf Hh]. destruct (img_file b (ps_content b) Hb) as [_ Hbb _].
  { intros i Hi. exists (ps_content b i). split; [done|by apply Hd]. }
  unfold yields, put_back, modify. cbn. split; [|apply lookup_insert_eq]. split; [split; [done|by apply map_Forall_insert_2]|].
  intros q Hq. cbn. rewrite lookup_insert_ne; [done|set_solver].
Qed.

Lemma put_back_reopened_yields (s : RS) image hash_image (h : HS) : pp_ok s -> settled s -> clear h -> render image <> render hash_image ->
  yields E (put_back_reopened image hash_image s) h (fun _ h' =>
    touches [render image; render hash_image] h h' /\ put_files image hash_image s h').
Proof.
  intros Hs Hd Hh Hne. destruct s as [b|t|e]; cbn [put_back_reopened put_files].
  - eapply yields_mono; [by apply put_back_yields|]. cbn beta. intros _ h' [Ht Hf]. split; [eapply touches_weaken; [|exact Ht]; set_solver|done].
  - destruct Hd as [Hd1 Hd2]. destruct Hs as [[Hs1 Hs2 _ _ _ _ _ _ _ _ _ _ _] _].
    eapply yields_step; [by apply put_back_yields|]. cbn beta. intros _ h1 [Ht1 Hf1].
    eapply yields_mono; [apply put_back_yields; [done|done|apply Ht1]|]. cbn beta. intros _ h2 [Ht2 Hf2]. split; [|split; [|done]].
    + eapply touches_trans; (eapply touches_weaken; [|eassumption]); set_solver.
    + rewrite (touches_lookup _ _ _ _ Ht2); [done|set_solver].
  - eapply yields_mono; [apply put_back_yields; [apply (tr_shape _ _ Hs)|done|done]|]. cbn beta.
    intros _ h' [Ht Hf]. split; [eapply touches_weaken; [|exact Ht]; set_solver|done].
Qed.

Lemma put_files_frame ks (s : RS) image hash_image (h h' : HS) : touches ks h h' -> render image ∉ ks -> render hash_image ∉ ks ->
  put_files image hash_image s h -> put_files image hash_image s h'.
Proof. intros Ht Hi Hh. unfold put_files. by rewrite !(touches_lookup _ _ _ _ Ht) by done. Qed.

Lemma at_rest_frame ks key (s : RS) image hash_image (h h' : HS) : touches ks h h' -> render image ∉ ks -> render hash_image ∉ ks ->
  at_rest key s image hash_image h -> at_rest key s image hash_image h'.
Proof. intros Ht Hi Hh (? & ? & ?). split; [done|]. split; [done|]. by eapply put_files_frame. Qed.

End PutBack.
