(* ===== verification/ImageSession.v ===== *)
(** * Sessions on an image

    The command-line tool opens an image, performs accesses, flushes and saves.  An
    image that has been closed like this opens again as the same array of blocks. *)

From S2P Require Import Prelude Ct Block Params Store Writable Schedule Bucket Rng State Evict EvictPath Circuit Blocks CircuitInv CircuitSpec Aead FrontCache Hash Merkle TieredMerkle.
From S2P Require Import SealedState FileStore Embedded EmbeddedSpec Evidence Direct Cuckoo Disk ReopenStore ReopenKeys ImageFiles ImageOps ImageOpen ImageRest.

Section Session.
Context {C OS R : Type} `{CipherLaws C} `{OsRandom OS} `{HostIo OS} `{Hex} `{HashLaws} `{SubtleLaws} `{Rng R}.
Context `{BincodeLaws (CircuitOramState R)} `{BincodeLaws (LegacyCircuitOramState R)}.
Context `{BincodeLaws CircuitStoreAuthState} `{BincodeLaws LegacyCircuitStoreAuthState}.
Local Abbreviation HS := (Host OS).
Local Abbreviation Box := (BoxStore C OS).
Local Abbreviation RS := (CircuitReopenPageStore Box).
Local Abbreviation Oram := (CircuitOram RS RS R).

(** ** One image *)

(** Its store ids, paths and options, and the shape of its tree *)
Record ImageSpec : Type := mkImage {
  i_meta_id : bytes;
  i_payload_id : bytes;
  i_sidecar_msg : string;
  i_embedded_msg : string;
  i_paths : CircuitOutputPaths;
  i_options : ImageOptions;
  i_params : OramParams
}.

Context (im : ImageSpec) (c : option C).
Local Abbreviation o := (i_options im).
Local Abbreviation p := (i_params im).
Local Abbreviation paths := (i_paths im).

Definition hash_pages : Z :=
  match tiered_hash_pages (bucket_count p) (opt_auth_hash_page_size o) (opt_auth_trusted_levels o) with Ok n => n | _ => 0 end.

(** The key of one of its stores *)
Definition image_key (id : bytes) (size : Z) : ReopenKey C :=
  if opt_auth_store o then
    match opt_auth_layout o with
    | LayoutSidecar =>
        SidecarKey id (opt_auth_trusted_levels o) (mkStoreKey c size (bucket_count p) None)
          (mkStoreKey c (opt_auth_hash_page_size o) hash_pages None)
    | LayoutEmbeddedTree => EmbeddedKey id (mkStoreKey c (auth_plaintext_page_bytes size LayoutEmbeddedTree) (bucket_count p) None)
    end
  else PlainKey (mkStoreKey c size (bucket_count p) None).
Definition meta_size : Z := circuit_meta_page_bytes (bucket_size p).
Definition payload_size : Z := circuit_payload_page_bytes (bucket_size p) (block_size p).
Definition meta_key : ReopenKey C := image_key (i_meta_id im) meta_size.
Definition payload_key : ReopenKey C := image_key (i_payload_id im) payload_size.

(** The options are usable: the keys parse, the cached levels exist, and the files can
    be addressed. *)
Record image_fits : Prop := {
  if_cipher : cipher_for (opt_encrypted o) (opt_key_hex o) = Ok c;
  if_state_key : state_key_ok (opt_state_key_hex o);
  if_cache : 0 <= opt_cache_levels o <= Params.height p;
  if_meta : reopen_key_for p c meta_size meta_key;
  if_payload : reopen_key_for p c payload_size payload_key
}.

(** The controller over the reopened stores *)
Definition reopen_image : M HS Oram :=
  open_image (fun p cached_pages bound_auth =>
      open_file_stores_for_reopen (i_meta_id im) (i_payload_id im) (i_sidecar_msg im) (i_embedded_msg im) paths p
        (opt_encrypted o) (opt_key_hex o) cached_pages (opt_auth_store o) bound_auth (opt_state_key_hex o))
    paths (opt_state_key_hex o) (opt_cache_levels o).

(** A controller for the image that holds the blocks [A], with [n] accesses left *)
Local Abbreviation image_inv := (oram_inv (LM := reopen_keyed_lawful meta_key) (LP := reopen_keyed_lawful payload_key)).
Definition holds (n : Z) (oram : Oram) (A : list bytes) : Prop :=
  (exists T, image_inv oram A T) /\ co_params oram = p /\ can_record n (schedule oram).

(** The image opens, on any host with these files, as a controller that holds [A]. *)
Definition image_serves (open : M HS Oram) (n : Z) (h : HS) (A : list bytes) : Prop :=
  clear h /\ forall h1, files h1 = files h -> faults h1 = [] ->
    exists oram h2, open h1 = (Ok oram, h2) /\ files h2 = files h /\ faults h2 = [] /\ holds n oram A.

(** A closed image: the files hold the stores and the saved state of a controller. *)
Definition closed (n : Z) (h : HS) (A : list bytes) : Prop :=
  exists oram b, clear h /\ holds n oram A /\
    at_rest meta_key (meta_store oram) (meta_image paths) (meta_hash_image paths) h /\
    at_rest payload_key (payload_store oram) (payload_image paths) (payload_hash_image paths) h /\
    files h !! render (state_path paths) = Some b /\
    decodes (C := C) CIRCUIT_SEALED_STATE_MAGIC state_from_bytes
      "encrypted Circuit ORAM state file is too short" "invalid encrypted Circuit ORAM state magic" (opt_state_key_hex o) b (snapshot oram).

(** The state file holds a state. *)
Definition state_saved (st : CircuitOramState R) (h : HS) : Prop :=
  exists b, files h !! render (state_path paths) = Some b /\
    decodes (C := C) CIRCUIT_SEALED_STATE_MAGIC state_from_bytes
      "encrypted Circuit ORAM state file is too short" "invalid encrypted Circuit ORAM state magic" (opt_state_key_hex o) b st.

(** Other files do not matter to either. *)
Ltac name_in := unfold path_names; cbn [fmap list_fmap app]; repeat first [apply list_elem_of_here | apply list_elem_of_further].
Lemma closed_frame ks n (h h' : HS) A : touches ks h h' -> (forall q, q ∈ path_names paths -> q ∉ ks) -> closed n h A -> closed n h' A.
Proof.
  intros Ht Hks (oram & b & Hh & Ho & Hm & Hp & Hb & Hd). exists oram, b. split; [by eapply touches_clear|]. split; [done|].
  split; [eapply at_rest_frame; [exact Ht|..|exact Hm]; apply Hks; name_in|].
  split; [eapply at_rest_frame; [exact Ht|..|exact Hp]; apply Hks; name_in|].
  split; [|done]. rewrite (touches_lookup _ _ _ _ Ht); [done|]. apply Hks. name_in.
Qed.
Lemma state_saved_frame ks st (h h' : HS) : touches ks h h' -> (forall q, q ∈ path_names paths -> q ∉ ks) -> state_saved st h -> state_saved st h'.
Proof. intros Ht Hks (b & Hb & Hd). exists b. split; [|done]. rewrite (touches_lookup _ _ _ _ Ht); [done|]. apply Hks. name_in. Qed.

Context (Hio : forall path, Forall (fun t => t <> TransferError) (io_script (OS := OS) path)).
Context (Hfits : image_fits) (Hnames : NoDup (path_names paths)).

Lemma load_state_yields (E : Error -> Prop) b st (h : HS) :
  decodes (C := C) CIRCUIT_SEALED_STATE_MAGIC state_from_bytes
    "encrypted Circuit ORAM state file is too short" "invalid encrypted Circuit ORAM state magic" (opt_state_key_hex o) b st ->
  clear h -> files h !! render (state_path paths) = Some b ->
  yields E (load_circuit_state (C := C) (R := R) (state_path paths) (opt_state_key_hex o)) h (fun st' h' => st' = st /\ clear h' /\ files h' = files h).
Proof. intros Hd Hh Hb. exact (load_yields E _ _ _ _ st b _ _ h Hd Hh Hb). Qed.

Lemma cached_pages_ok : params_ok p -> exists cached, cached_pages_for_levels p (opt_cache_levels o) = Ok cached /\ 0 <= cached <= bucket_count p.
Proof.
  intros Hp. pose proof (if_cache Hfits) as Hc. unfold cached_pages_for_levels.
  pose proof (height_pos p Hp). destruct (opt_cache_levels o =? 0) eqn:E; zbool.
  - exists 0. split; [done|]. rewrite (bucket_count_eq p Hp). assert (0 < 2 ^ Params.height p) by (apply Z.pow_pos_nonneg; lia). lia.
  - rewrite (proj2 (Z.ltb_ge _ _)) by lia. eexists. split; [done|]. rewrite Z.shiftl_1_l, (bucket_count_eq p Hp).
    assert (2 ^ opt_cache_levels o <= 2 ^ Params.height p) by (apply Z.pow_le_mono_r; lia).
    assert (0 < 2 ^ opt_cache_levels o) by (apply Z.pow_pos_nonneg; lia). lia.
Qed.

Lemma keys_image_match : keys_match (i_meta_id im) (i_payload_id im) (opt_auth_store o) meta_key payload_key.
Proof. unfold meta_key, payload_key, image_key. destruct (opt_auth_store o); [|done]. by destruct (opt_auth_layout o). Qed.

(** Stores that hold the same pages carry the same tree. *)
Lemma image_inv_next (oram : Oram) A T (ms ps : RS) : image_inv oram A T ->
  reopen_key ms = meta_key -> pp_next (meta_store oram) (pp_content (meta_store oram)) ms ->
  reopen_key ps = payload_key -> pp_next (payload_store oram) (pp_content (payload_store oram)) ps ->
  image_inv (set_payload_store ps (set_meta_store ms oram)) A T.
Proof.
  intros [Hp Hf [(Hm1 & Hm2 & Hm3 & Hm4) (Hp1 & Hp2 & Hp3 & Hp4)] Hb Hs Hbits] Hkm (Hm & Hmz & Hmc & Hmf) Hkp (Hpo & Hpz & Hpc & Hpf).
  split; cbn [co_params meta_store payload_store pos_map stash schedule set_payload_store set_meta_store]; try done.
  split; (split; [split; done|]); (split; [congruence|]); (split; [congruence|]); intros n Hn.
  - etrans; [apply Hmf; by rewrite Hm2|by apply Hm4].
  - etrans; [apply Hpf; by rewrite Hp2|by apply Hp4].
Qed.

Lemma closed_serves n h A : closed n h A -> image_serves reopen_image n h A.
Proof.
  intros (oram & b & Hh & ((T & Hinv) & Hpar & Hrec) & Hm & Hp & Hb & Hd). split; [done|]. intros h1 Hf1 Hfl1.
  pose proof (oi_params _ _ _ Hinv) as Hpok. rewrite Hpar in Hpok. destruct (cached_pages_ok Hpok) as (cached & Ec & Hcp).
  assert (yields (fun _ => False) reopen_image h1 (fun oram' h2 => clear h2 /\ files h2 = files h /\ holds n oram' A)) as Hy.
  { assert (clear h1) as Hh1 by (split; [done|rewrite Hf1; apply Hh]).
    unfold reopen_image, open_image. eapply yields_step; [apply (load_state_yields _ b (snapshot oram)); [done|done|by rewrite Hf1]|].
    cbn beta. intros st h2 (-> & Hh2 & Hf2). cbn zeta. apply yields_bind. change (st_params (snapshot oram)) with (co_params oram).
    change (st_auth (snapshot oram)) with (store_auth_state_from_stores (meta_store oram) (payload_store oram)). rewrite Hpar.
    eapply yields_lift; [exact Ec|]. eapply yields_step.
    { apply (reopen_rests Hio _ _ _ _ _ p meta_key payload_key (meta_store oram) (payload_store oram) paths _ _ _ _ _ c);
        [| |apply Hfits|apply Hfits|apply keys_image_match|apply Hfits|done|done].
      - destruct Hm as (? & ? & Hpf). split; [done|]. split; [done|]. unfold put_files in *. by rewrite Hf2, Hf1.
      - destruct Hp as (? & ? & Hpf). split; [done|]. split; [done|]. unfold put_files in *. by rewrite Hf2, Hf1. }
    intros ss h3 (Hh3 & Hf3 & Hk1 & Hn1 & Hk2 & Hn2 & Hauth). cbn beta.
    pose proof (image_inv_next oram A T ss.1 ss.2 Hinv Hk1 Hn1 Hk2 Hn2) as Hinv'.
    eapply yields_lift; [|split; [exact Hh3|split; [congruence|split; [by exists T|done]]]].
    change (from_state (meta_store (set_payload_store ss.2 (set_meta_store ss.1 oram))) (payload_store (set_payload_store ss.2 (set_meta_store ss.1 oram)))
      (with_auth (snapshot (set_payload_store ss.2 (set_meta_store ss.1 oram))) (store_auth_state_from_stores (meta_store oram) (payload_store oram))) =
      Ok (set_payload_store ss.2 (set_meta_store ss.1 oram))).
    eapply (from_state_ok (LM := reopen_keyed_lawful meta_key) (LP := reopen_keyed_lawful payload_key)); [exact Hinv'|].
    unfold validate_bound_auth_state. rewrite <-Hauth.
    change (meta_store (set_payload_store ss.2 (set_meta_store ss.1 oram))) with ss.1. change (payload_store (set_payload_store ss.2 (set_meta_store ss.1 oram))) with ss.2.
    destruct (store_auth_state_from_stores ss.1 ss.2); [|done]. cbn [ok_or obind]. by rewrite decide_True. }
  unfold yields in Hy. destruct (reopen_image h1) as [[oram'|?| |] h2]; [|done..]. exists oram', h2. destruct Hy as ([? ?] & ? & ?). split_and!; done.
Qed.

(** ** Closing an image *)

Definition save_error (e : Error) : Prop := e = BincodeError \/ e = AeadError.

(** Whether the two stores of the image expose an authentication state *)
Lemma auth_exposed (ms ps : RS) : reopen_key ms = meta_key -> reopen_key ps = payload_key ->
  is_Some (store_auth_state_from_stores ms ps) <-> opt_auth_store o = true.
Proof.
  unfold meta_key, payload_key, image_key. destruct (opt_auth_store o), ms, ps; cbn [reopen_key tiered_key embedded_key]; try done;
    [destruct (opt_auth_layout o); try done; intros _ _; (split; [done|]); intros _; by eexists..|].
  intros _ _. rewrite plain_auth. split; [by intros []|done].
Qed.

Lemma exposed_magic (ms ps : RS) a : store_auth_state_from_stores ms ps = Some a -> auth_magic a = CIRCUIT_STORE_AUTH_MAGIC.
Proof. unfold store_auth_state_from_stores. by repeat case_match; intros; simplify_eq. Qed.

Lemma sealed_magic_bytes : bytes_ok CIRCUIT_SEALED_STATE_MAGIC /\ bytes_ok CIRCUIT_SEALED_STORE_AUTH_MAGIC.
Proof. split; repeat constructor; lia. Qed.

Lemma save_state_yields (E : Error -> Prop) st path (h : HS) : (forall e, save_error e -> E e) -> st_magic st = CIRCUIT_STATE_MAGIC -> clear h ->
  yields E (save_circuit_state (C := C) (R := R) st path (opt_state_key_hex o)) h (fun _ h' =>
    touches [render path; render (tmp_path path)] h h' /\ exists b, files h' !! render path = Some b /\
    decodes (C := C) CIRCUIT_SEALED_STATE_MAGIC state_from_bytes
      "encrypted Circuit ORAM state file is too short" "invalid encrypted Circuit ORAM state magic" (opt_state_key_hex o) b st).
Proof.
  intros HE Hm Hh. apply (save_yields E); [apply HE; by left|apply HE; by right| | |apply Hfits|done].
  - apply sealed_magic_bytes.
  - intros b Hb. by apply state_from_bytes_current.
Qed.

Lemma save_auth_yields (E : Error -> Prop) st path (h : HS) : (forall e, save_error e -> E e) -> auth_magic st = CIRCUIT_STORE_AUTH_MAGIC -> clear h ->
  yields E (save_circuit_store_auth (C := C) st path (opt_state_key_hex o)) h (fun _ h' =>
    touches [render path; render (tmp_path path)] h h').
Proof.
  intros HE Hm Hh.
  pose proof (save_yields E (HE _ (or_introl eq_refl)) (HE _ (or_intror eq_refl)) CIRCUIT_SEALED_STORE_AUTH_MAGIC (proj2 sealed_magic_bytes)
    auth_from_bytes "too short" "bad magic" st path (opt_state_key_hex o) h (fun b Hb => auth_from_bytes_current st b Hb Hm) (if_state_key Hfits) Hh) as Hy.
  eapply yields_mono; [exact Hy|]. by intros ? ? [? _].
Qed.

Lemma finish_closes (E : Error -> Prop) n (oram : Oram) A (h : HS) : (forall e, save_error e -> E e) -> holds n oram A -> clear h ->
  yields E (finish_bench_table (C := C) paths (opt_auth_store o) (opt_state_key_hex o) false oram) h (fun _ h' =>
    touches (session_names paths) h h' /\ closed n h' A).
Proof.
  intros HE ((T & Hinv) & Hpar & Hrec) Hh. pose proof Hinv as [_ _ [([Hm1 Hm1k] & _) ([Hp1 Hp1k] & _)] _ _ _].
  destruct (reopen_flush _ Hm1) as (ms & Ems & Hnm & Hdm), (reopen_flush _ Hp1) as (ps & Eps & Hnp & Hdp).
  assert (reopen_key ms = meta_key) as Hkm by (rewrite <-Hm1k, <-(keeps_reopen_flush (meta_store oram)); by rewrite Ems).
  assert (reopen_key ps = payload_key) as Hkp by (rewrite <-Hp1k, <-(keeps_reopen_flush (payload_store oram)); by rewrite Eps).
  pose proof (image_inv_next oram A T ms ps Hinv Hkm Hnm Hkp Hnp) as Hinv'. set (oram' := set_payload_store ps (set_meta_store ms oram)) in *.
  unfold finish_bench_table. apply yields_bind. eapply yields_run_on.
  { unfold flush. erewrite bind_eq by (by apply zoom_eq). by apply zoom_eq. }
  cbn [snd]. fold oram'. pose proof Hnames as Hnd. names_apart Hnd.
  change (meta_store oram') with ms. change (payload_store oram') with ps.
  eapply yields_step; [apply put_back_reopened_yields; [apply Hnm|done|done|names_ne]|]. intros _ h1 [Ht1 Hf1]. cbn beta.
  eapply yields_step; [apply put_back_reopened_yields; [apply Hnp|done|by eapply touches_clear|names_ne]|]. intros _ h2 [Ht2 Hf2]. cbn beta.
  cbn [negb]. apply yields_bind. eapply yields_step; [apply save_state_yields; [done|done|by eapply touches_clear]|]. intros _ h3 (Ht3 & b & Hb & Hdec). cbn beta.
  assert (yields E (if opt_auth_store o then
      let* auth_state := lift (ok_or (store_auth_state_from_stores ms ps) (InvalidInput "authenticated stores did not expose auth state")) in
      save_circuit_store_auth (C := C) auth_state (auth_state_path paths) (opt_state_key_hex o)
    else ret tt) h3 (fun _ h4 => touches [render (auth_state_path paths); render (tmp_path (auth_state_path paths))] h3 h4)) as Hauth.
  { destruct (opt_auth_store o) eqn:Ea; [|by apply (yields_ret E); eapply touches_refl, touches_clear].
    apply (auth_exposed ms ps Hkm Hkp) in Ea as [a Ea]. apply yields_bind. eapply yields_lift; [by rewrite Ea|].
    apply save_auth_yields; [done| |by eapply touches_clear]. by eapply exposed_magic. }
  eapply yields_mono; [exact Hauth|]. cbn beta. intros _ h4 Ht4. apply yields_bind.
  eapply yields_lift; [apply pending_evictions_ok, (oi_schedule _ _ _ Hinv')|]. apply (yields_ret E). split.
  - eapply touches_trans; [eapply touches_weaken; [|exact Ht1]; names_sub|].
    eapply touches_trans; [eapply touches_weaken; [|exact Ht2]; names_sub|].
    eapply touches_trans; [eapply touches_weaken; [|exact Ht3]; names_sub|]. eapply touches_weaken; [|exact Ht4]; names_sub.
  - exists oram', b. split; [by eapply touches_clear|]. split; [by split; [exists T|]|].
    assert (touches [render (state_path paths); render (tmp_path (state_path paths)); render (auth_state_path paths);
      render (tmp_path (auth_state_path paths))] h2 h4) as Ht34.
    { eapply touches_trans; [eapply touches_weaken; [|exact Ht3]|eapply touches_weaken; [|exact Ht4]]; names_sub. }
    split_and!.
    + eapply at_rest_frame; [exact Ht34|names_ne..|]. eapply at_rest_frame; [exact Ht2|names_ne..|].
      split; [by split; [apply Hnm|]|done].
    + eapply at_rest_frame; [exact Ht34|names_ne..|]. split; [by split; [apply Hnp|]|done].
    + rewrite (touches_lookup _ _ _ _ Ht4); [done|names_ne].
    + done.
Qed.

(** ** A session: open, run, close *)

Definition session (open : M HS Oram) (close : Oram -> M HS unit) (ops : list op) : M HS (list (list bytes)) :=
  let* oram := open in
  let* res := run_on (exec_ops ops) oram in
  let* _ := close res.2 in
  ret res.1.

Definition session_error (e : Error) : Prop := e = StashOverflow (stash_capacity p + 1) (stash_capacity p) \/ save_error e.

Lemma session_ok ops n (h : HS) A : 0 <= n -> image_serves reopen_image (total_accesses ops + n) h A -> Forall (op_ok p) ops ->
  yields session_error (session reopen_image (finish_bench_table (C := C) paths (opt_auth_store o) (opt_state_key_hex o) false) ops) h
    (fun outs h' => outs = (spec_ops ops A).1 /\ touches (session_names paths) h h' /\ image_serves reopen_image n h' (spec_ops ops A).2).
Proof.
  intros Hn [Hh Hopen] Hops. unfold session. destruct (Hopen h eq_refl (proj1 Hh)) as (oram & h2 & Eo & Hf2 & Hfl2 & (T & Hinv) & Hpar & Hrec).
  apply yields_bind. eapply yields_eq; [exact Eo|].
  assert (clear h2) as Hh2 by (split; [done|rewrite Hf2; apply Hh]).
  apply yields_bind.
  destruct (exec_ops_spec (LM := reopen_keyed_lawful meta_key) (LP := reopen_keyed_lawful payload_key) ops oram A T n Hn Hinv)
    as [(oram' & T' & Ee & Hinv' & Hpar' & Hrec')|(_ & oram' & Ee)]; [by rewrite Hpar|done| |].
  2: { unfold yields, run_on, lift. rewrite Ee, Hpar. by left. }
  eapply yields_run_on; [exact Ee|]. cbn [fst snd].
  eapply yields_step; [apply (finish_closes session_error n); [by right|split; [by exists T'|split; [by rewrite Hpar'|exact Hrec']]|done]|].
  cbn beta. intros _ h3 [Ht Hc]. apply (yields_ret session_error). split; [done|]. split.
  - eapply touches_trans; [|exact Ht]. by apply touches_same.
  - by apply closed_serves.
Qed.

(** Sessions one after another: the boundaries between them do not show. *)
Fixpoint sessions (open : M HS Oram) (close : Oram -> M HS unit) (opss : list (list op)) : M HS (list (list (list bytes))) :=
  match opss with
  | [] => ret []
  | ops :: opss =>
      let* outs := session open close ops in
      let* rest := sessions open close opss in
      ret (outs :: rest)
  end.

Lemma sessions_ok opss n (h : HS) A : 0 <= n -> image_serves reopen_image (total_accesses (concat opss) + n) h A -> Forall (op_ok p) (concat opss) ->
  yields session_error (sessions reopen_image (finish_bench_table (C := C) paths (opt_auth_store o) (opt_state_key_hex o) false) opss) h
    (fun outss h' => concat outss = (spec_ops (concat opss) A).1 /\ image_serves reopen_image n h' (spec_ops (concat opss) A).2).
Proof.
  intros Hn. revert h A. induction opss as [|ops opss IH]; intros h A Hs Hops; cbn [sessions concat] in *; [by apply (yields_ret session_error)|].
  apply Forall_app in Hops as [Hops Hrest]. rewrite total_accesses_app, <-Z.add_assoc in Hs. pose proof (total_accesses_nonneg _ _ Hrest) as Hr.
  eapply yields_step; [apply (session_ok ops (total_accesses (concat opss) + n)); [lia|exact Hs|exact Hops]|]. cbn beta. intros outs h1 (-> & _ & Hs1).
  eapply yields_step; [apply (IH h1 _ Hs1 Hrest)|]. cbn beta. intros outss h2 [Ho Hs2]. apply (yields_ret session_error).
  rewrite spec_ops_app. cbn [fst snd concat]. by rewrite Ho.
Qed.

End Session.
