(* ===== verification/ImageBuild.v ===== *)
(** * Building an image

    The build commands write the initial tree to stores that have never been written,
    flush them, build the hashes over what the files then hold, and save the
    controller: the image is closed and holds the blocks of the source. *)

From S2P Require Import Prelude Ct Block Params Store Writable Schedule Bucket Rng State Evict EvictPath Circuit Blocks CircuitInv Build BuildProofs CircuitSpec.
From S2P Require Import Aead FrontCache Hash Merkle TieredMerkle SealedState FileStore Embedded EmbeddedSpec Evidence Direct Cuckoo Disk ReopenStore ReopenKeys.
From S2P Require Import ImageFiles ImageOps ImageOpen ImageRest ImageSession.

Section BuildFiles.
Context {C OS : Type} `{CipherLaws C} `{OsRandom OS} `{HostIo OS} `{Hex} `{HashLaws}.
Context (Hio : forall path, Forall (fun t => t <> TransferError) (io_script (OS := OS) path)).
Context (E : Error -> Prop).
Local Abbreviation HS := (Host OS).
Local Abbreviation Box := (BoxStore C OS).
Local Abbreviation RS := (CircuitReopenPageStore Box).

(** ** Files opened for writing *)

(** The view of the logical pages *)
Definition build_view (layout : AuthLayoutArg) (size : Z) : option Z :=
  match layout with LayoutSidecar => None | LayoutEmbeddedTree => Some size end.
Definition build_key (c : option C) (layout : AuthLayoutArg) (count size : Z) : StoreKey C :=
  mkStoreKey c (auth_plaintext_page_bytes size layout) count (build_view layout size).
Definition whole_key (c : option C) (layout : AuthLayoutArg) (count size : Z) : StoreKey C :=
  mkStoreKey c (auth_plaintext_page_bytes size layout) count None.

Lemma prefix_opened c count size (s : SizedStore C OS) : opened (whole_key c LayoutEmbeddedTree count size) s ->
  0 < size -> size + 64 <= u64_max ->
  exists l, prefix_new s size = Ok l /\ opened (build_key c LayoutEmbeddedTree count size) l.
Proof.
  intros (Hs & Hk & Hz & Hc) Hp Hlim. cbn [default whole_key k_page k_view k_count auth_plaintext_page_bytes] in *.
  assert (add64 size EMBEDDED_TREE_AUTH_BYTES_PER_PAGE = size + 64) as Ha.
  { unfold add64, EMBEDDED_TREE_AUTH_BYTES_PER_PAGE, CHILD_HASH_BYTES, u64_max in *. rewrite wrap_small; [lia|].
    change (2 ^ 64) with 18446744073709551616. lia. }
  unfold prefix_new. rewrite Hz, Ha, (proj2 (Z.eqb_neq size 0)), (proj2 (Z.ltb_ge _ _)) by lia. cbn [orb].
  eexists. split; [reflexivity|]. split; [|split; [|split]].
  - split; [exact Hs|]. cbn [lp_inner lp_physical_page_size lp_logical_page_size]. split; [congruence|lia].
  - change (prefix_key (mkPrefix s size (size + 64)) = build_key c LayoutEmbeddedTree count size). unfold prefix_key. cbn [lp_inner lp_logical_page_size].
    by rewrite Hk.
  - done.
  - exact Hc.
Qed.

Lemma build_open_yields layout p c meta_image payload_image encrypted key_hex cached (h : HS) :
  let ms := circuit_meta_page_bytes (bucket_size p) in
  let ps := circuit_payload_page_bytes (bucket_size p) (block_size p) in
  cipher_for encrypted key_hex = Ok c -> key_fits (whole_key c layout (bucket_count p) ms) -> key_fits (whole_key c layout (bucket_count p) ps) ->
  0 < ms -> ms + 64 <= u64_max -> 0 < ps -> ps + 64 <= u64_max -> clear h -> 0 <= cached <= bucket_count p ->
  yields E (open_circuit_file_stores (C := C) meta_image payload_image p encrypted key_hex cached false layout) h
    (fun (ss : Box * Box) h' => touches [render meta_image; render payload_image] h h' /\
       opened (build_key c layout (bucket_count p) ms) ss.1 /\ opened (build_key c layout (bucket_count p) ps) ss.2).
Proof.
  intros ms ps Hc Hkm Hkp Hm1 Hm2 Hp1 Hp2 Hh Hcp. unfold open_circuit_file_stores. fold ms ps. cbn zeta.
  eapply yields_step; [exact (open_sized_fresh Hio E meta_image (whole_key c layout (bucket_count p) ms) encrypted key_hex cached h Hc Hkm Hh Hcp)|]. intros m h1 [Ht1 Ho1]. cbn beta.
  eapply yields_step; [exact (open_sized_fresh Hio E payload_image (whole_key c layout (bucket_count p) ps) encrypted key_hex cached h1 Hc Hkp (touches_clear _ _ _ Ht1) Hcp)|].
  intros pl h2 [Ht2 Ho2]. cbn beta.
  assert (touches [render meta_image; render payload_image] h h2) as Ht.
  { eapply touches_trans; [eapply touches_weaken; [|exact Ht1]|eapply touches_weaken; [|exact Ht2]]; set_solver. }
  destruct layout.
  - by apply (yields_ret E).
  - destruct (prefix_opened c _ ms m Ho1 Hm1 Hm2) as (lm & El & Hlm), (prefix_opened c _ ps pl Ho2 Hp1 Hp2) as (lp & Elp & Hlp).
    apply yields_bind. eapply yields_lift; [exact El|]. apply yields_bind. eapply yields_lift; [exact Elp|]. by apply (yields_ret E).
Qed.

(** A store whose pages have all been written, flushed and put back *)
Lemma written_flush k f (b : Box) : ws_ok b -> key_of b = k -> (forall i, in_range (ps_page_count b) i -> ws_holds b i (f i)) ->
  exists b', ps_flush b = (Ok tt, b') /\ ps_ok b' /\ key_of b' = k /\ box_settled b' /\ ps_page_size b' = ps_page_size b /\
    ps_page_count b' = ps_page_count b /\ forall i, in_range (ps_page_count b) i -> ps_content b' i = f i.
Proof.
  intros Hb Hk Hf. destruct (ds_written_flush_ok b f Hb Hf) as (b' & Eb & Hok & Hz & Hc & Hj). exists b'. split_and!; try done.
  - rewrite <-Hk, <-(keyed_flush b). by rewrite Eb.
  - intros i Hi. rewrite Hc in Hi. destruct (Hj i Hi) as [-> Hd]. exact Hd.
  - intros i Hi. by apply Hj.
Qed.

(** ** The hash store of a sidecar *)

Lemma zero_page_store_ok k (b : Box) : opened k b -> k_view k = None -> 0 < k_page k -> 0 < k_count k ->
  exists b', zero_page_store b = (Ok tt, b') /\ ps_ok b' /\ key_of b' = k /\ ps_page_size b' = k_page k /\ ps_page_count b' = k_count k.
Proof.
  intros (Hb & Hk & Hz & Hc) Hv Hp Hct. rewrite Hv in Hz. cbn [default] in Hz.
  unfold zero_page_store. rewrite !bind_gets, Hz.
  destruct (write_const_ok (zeros (k_page k)) (Z.to_nat (k_count k)) 0 b Hb) as (b1 & E1 & Hb1 & Hz1 & Hc1 & _ & Hw);
    [lia|lia|rewrite Hz; split; [by rewrite lenZ_zeros by lia|apply zeros_ok]|].
  rewrite Z2Nat.id in E1 by lia. rewrite Hc.
  pose proof (keeps_iterM key_of (fun page_idx => ps_write_page page_idx (zeros (k_page k))) (seqZ 0 (k_count k))
    (fun i => keyed_write_page i (zeros (k_page k))) b) as Hk1. rewrite E1, Hk in Hk1. cbn [snd] in Hk1.
  rewrite (bind_eq _ _ _ _ _ E1).
  destruct (written_flush k (fun _ => zeros (k_page k)) b1 Hb1 Hk1) as (b2 & E2 & Hok & Hk2 & _ & Hz2 & Hc2 & _).
  { intros i Hi. rewrite Hc1, Hc in Hi. specialize (Hw (Z.to_nat i) (zeros (k_page k))). unfold in_range in Hi. rewrite Z2Nat.id in Hw by lia.
    apply Hw. apply lookup_replicate. split; [done|lia]. }
  exists b2. split_and!; [exact E2|done|done|congruence|congruence].
Qed.

(** A store at rest that serves the pages [f], whose logical size is [size] *)
Definition rest_serves (key : ReopenKey C) (count size : Z) (f : Z -> bytes) (s : RS) (image hash_image : FilePath) (h : HS) : Prop :=
  at_rest key s image hash_image h /\ pp_page_count s = count /\ pp_page_size s = size /\
  forall i, in_range count i -> pp_content s i = f i.

(** One tree of hashes, built and flushed *)
Lemma sidecar_built (inner hs : Box) k kh f id levels :
  ps_ok inner -> key_of inner = k -> ps_page_count inner = k_count k -> (forall i, in_range (k_count k) i -> ps_content inner i = f i) ->
  ps_ok hs -> key_of hs = kh -> ps_page_size hs = k_page kh -> ps_page_count hs = k_count kh ->
  k_count k <= 2 ^ 62 -> 0 <= levels -> required_hash_pages (k_count k) (k_page kh) levels = Ok (k_count kh) ->
  exists t t', tiered_build inner hs id levels = Ok t /\ ps_flush t = (Ok tt, t') /\
    reopen_keyed_ok (SidecarKey id levels k kh) (Sidecar t') /\ settled (Sidecar t') /\
    tm_page_count t' = k_count k /\ tm_page_size t' = ps_page_size inner /\ forall i, in_range (k_count k) i -> pp_content t' i = f i.
Proof.
  intros Hi Hk Hc Hf Hh Hkh Hhz Hhc Hlim Hlv Hreq.
  destruct (tiered_build_ok inner hs id levels (k_count kh) Hi Hh) as (t & Et & Ht & _ & Htz & Htc & Htf & _);
    [by rewrite Hc|done|by rewrite Hc, Hhz|by rewrite Hhc|].
  destruct (sidecar_flush t Ht) as (t' & Ef & (Hok & Hz & Hct & Hj) & Hd). exists t, t'.
  split; [exact Et|]. split; [exact Ef|]. split; [split; [exact Hok|]|].
  { cbn [reopen_key]. rewrite <-Hk, <-Hkh, <-(tiered_build_key inner hs id levels t Et), <-(keeps_tiered_flush t). by rewrite Ef. }
  split; [exact Hd|]. split; [etrans; [exact Hct|by rewrite <-Hc]|]. split; [etrans; [exact Hz|done]|].
  intros i Hir. rewrite Hj by (cbn; by rewrite Htc, Hc). rewrite <-Hf by done. apply Htf. by rewrite Hc.
Qed.

Lemma open_hashes_fresh image kh c encrypted key_hex (h : HS) : k_cipher kh = c -> key_fits kh -> cipher_for encrypted key_hex = Ok c -> clear h ->
  yields E (open_sized_file_store (C := C) image (k_count kh) (k_page kh) encrypted key_hex 0 false) h (fun (s : Box) h' =>
    touches [render image] h h' /\ opened kh s).
Proof.
  intros <- Hk Hc Hh. unfold open_sized_file_store.
  eapply yields_step; [exact (open_sized_fresh Hio E image kh encrypted key_hex 0 h Hc Hk Hh (conj (Z.le_refl 0) (Z.lt_le_incl _ _ (kf_count _ Hk))))|].
  intros s h' Hs. apply (yields_ret E). exact Hs.
Qed.

Lemma run_on_yields {S A} (m : M S A) s a s' (h : HS) (Q : A * S -> HS -> Prop) : m s = (Ok a, s') -> Q (a, s') h -> yields E (run_on m s) h Q.
Proof. apply yields_run_on. Qed.

Lemma build_sidecar_yields meta_id payload_id paths p c encrypted key_hex cached levels hash_page_size n km kp bm bp fm fp (h : HS) :
  NoDup (path_names paths) ->
  box_at_rest km bm (meta_image paths) h -> box_at_rest kp bp (payload_image paths) h ->
  tree_key p c (circuit_meta_page_bytes (bucket_size p)) km ->
  tree_key p c (circuit_payload_page_bytes (bucket_size p) (block_size p)) kp ->
  (forall i, in_range (bucket_count p) i -> ps_content bm i = fm i) -> (forall i, in_range (bucket_count p) i -> ps_content bp i = fp i) ->
  let kh := mkStoreKey c hash_page_size n None in
  key_fits kh -> required_hash_pages (bucket_count p) hash_page_size levels = Ok n -> 0 <= levels -> bucket_count p <= 2 ^ 62 ->
  cipher_for encrypted key_hex = Ok c -> clear h -> 0 <= cached <= bucket_count p ->
  yields E (build_sidecar_store_auth (C := C) meta_id payload_id paths p encrypted key_hex cached levels hash_page_size) h (fun a h' =>
    exists tm tp, a = auth_new (trusted_state tm) (trusted_state tp) /\ touches (image_names paths) h h' /\
      rest_serves (SidecarKey meta_id levels km kh) (bucket_count p) (circuit_meta_page_bytes (bucket_size p)) fm (Sidecar tm)
        (meta_image paths) (meta_hash_image paths) h' /\
      rest_serves (SidecarKey payload_id levels kp kh) (bucket_count p) (circuit_payload_page_bytes (bucket_size p) (block_size p)) fp (Sidecar tp)
        (payload_image paths) (payload_hash_image paths) h').
Proof.
  intros Hnd Hm Hp Hkm Hkp Hfm Hfp kh Hkh Hreq Hlv Hlim Hc Hh Hcp. names_apart Hnd. unfold build_sidecar_store_auth.
  eapply yields_step; [exact (reopen_plain Hio E p km kp bm bp paths _ _ _ c h Hm Hp Hkm Hkp Hc Hh Hcp)|].
  intros ss h1 (Hc1 & Hf1 & Hk1 & Hn1 & Hk2 & Hn2). cbn beta. unfold tiered_hash_pages. rewrite Hreq.
  apply yields_bind. apply (yields_ret E). apply yields_bind. apply (yields_ret E).
  eapply yields_step; [exact (open_hashes_fresh _ kh c _ _ h1 eq_refl Hkh Hc Hc1)|]. intros hm h2 [Ht2 Hhm]. cbn beta.
  eapply yields_step; [exact (open_hashes_fresh _ kh c _ _ h2 eq_refl Hkh Hc (touches_clear _ _ _ Ht2))|]. intros hp h3 [Ht3 Hhp]. cbn beta.
  destruct (zero_page_store_ok kh hm Hhm eq_refl) as (hm' & Ehm & Hm1 & Hm2 & Hm3 & Hm4); [apply Hkh|apply Hkh|].
  destruct (zero_page_store_ok kh hp Hhp eq_refl) as (hp' & Ehp & Hp1 & Hp2 & Hp3 & Hp4); [apply Hkh|apply Hkh|].
  apply yields_bind. eapply yields_run_on; [exact Ehm|]. apply yields_bind. eapply yields_run_on; [exact Ehp|]. cbn [snd].
  destruct Hkm as (_ & Hkmf & Hkmn & Hkmp), Hkp as (_ & Hkpf & Hkpn & Hkpp).
  pose proof Hn1 as (Hi1 & Hi1z & Hi1c & Hi1f). pose proof Hn2 as (Hi2 & Hi2z & Hi2c & Hi2f).
  destruct (img_shape bm (br_ok _ _ _ _ Hm)) as (_ & Hbmc & Hbmz), (img_shape bp (br_ok _ _ _ _ Hp)) as (_ & Hbpc & Hbpz).
  rewrite (br_key _ _ _ _ Hm), (kf_view _ Hkmf) in *. rewrite (br_key _ _ _ _ Hp), (kf_view _ Hkpf) in *. cbn [default] in *.
  assert (forall i, in_range (k_count km) i -> ps_content ss.1 i = fm i) as Hcm.
  { intros i Hi. rewrite Hi1f by by rewrite Hbmc. apply Hfm. by rewrite <-Hkmn. }
  assert (forall i, in_range (k_count kp) i -> ps_content ss.2 i = fp i) as Hcpp.
  { intros i Hi. rewrite Hi2f by by rewrite Hbpc. apply Hfp. by rewrite <-Hkpn. }
  destruct (sidecar_built ss.1 hm' km kh fm meta_id levels) as (tm & tm' & Etm & Efm & [Htm Htmk] & Htmd & Htmc & Htmz & Htmf);
    [done|done|congruence|done|done|done|done|done|lia|done|by rewrite Hkmn|].
  destruct (sidecar_built ss.2 hp' kp kh fp payload_id levels) as (tp & tp' & Etp & Efp & [Htp Htpk] & Htpd & Htpc & Htpz & Htpf);
    [done|done|congruence|done|done|done|done|done|lia|done|by rewrite Hkpn|].
  apply yields_bind. eapply yields_lift; [exact Etm|]. apply yields_bind. eapply yields_lift; [exact Etp|].
  apply yields_bind. eapply yields_run_on; [exact Efm|]. apply yields_bind. eapply yields_run_on; [exact Efp|]. cbn [snd].
  destruct Htmd as [Hdm1 Hdm2], Htpd as [Hdp1 Hdp2]. pose proof Htm as [[Hom1 Hom2 _ _ _ _ _ _ _ _ _ _ _] _]. pose proof Htp as [[Hop1 Hop2 _ _ _ _ _ _ _ _ _ _ _] _].
  eapply yields_step; [apply put_back_yields; [done|done|by eapply touches_clear]|]. intros _ h4 [Ht4 Hf4]. cbn beta.
  eapply yields_step; [apply put_back_yields; [done|done|by eapply touches_clear]|]. intros _ h5 [Ht5 Hf5]. cbn beta.
  eapply yields_step; [apply put_back_yields; [done|done|by eapply touches_clear]|]. intros _ h6 [Ht6 Hf6]. cbn beta.
  eapply yields_step; [apply put_back_yields; [done|done|by eapply touches_clear]|]. intros _ h7 [Ht7 Hf7]. cbn beta.
  apply (yields_ret E). exists tm', tp'. split; [done|]. split; [|split].
  - eapply touches_trans; [by apply (touches_same _ h h1)|].
    eapply touches_trans; [eapply touches_weaken; [|exact Ht2]; names_sub|]. eapply touches_trans; [eapply touches_weaken; [|exact Ht3]; names_sub|].
    eapply touches_trans; [eapply touches_weaken; [|exact Ht4]; names_sub|]. eapply touches_trans; [eapply touches_weaken; [|exact Ht5]; names_sub|].
    eapply touches_trans; [eapply touches_weaken; [|exact Ht6]; names_sub|]. eapply touches_weaken; [|exact Ht7]; names_sub.
  - split; [|split; [by rewrite <-Hkmn|split; [cbn; congruence|by rewrite <-Hkmn]]].
    split; [done|]. split; [done|]. split.
    + rewrite (touches_lookup _ _ _ _ Ht7), (touches_lookup _ _ _ _ Ht6), (touches_lookup _ _ _ _ Ht5) by names_ne. done.
    + rewrite (touches_lookup _ _ _ _ Ht7), (touches_lookup _ _ _ _ Ht6) by names_ne. done.
  - split; [|split; [by rewrite <-Hkpn|split; [cbn; congruence|by rewrite <-Hkpn]]].
    split; [done|]. split; [done|]. split; [|done]. rewrite (touches_lookup _ _ _ _ Ht7) by names_ne. done.
Qed.

(** *** Embedded trees *)

Lemma image_file_view (k k' : StoreKey C) f b : k_cipher k' = k_cipher k -> k_page k' = k_page k -> k_count k' = k_count k ->
  image_file k f b -> image_file k' f b.
Proof.
  destruct k as [c pg ct v], k' as [c' pg' ct' v']. cbn. intros -> -> -> [Hl Hb Hp]. by split.
Qed.

Lemma embedded_page_bytes size : 0 < size -> size + 64 <= u64_max -> auth_plaintext_page_bytes size LayoutEmbeddedTree = size + 64.
Proof.
  intros Hs Hl. unfold auth_plaintext_page_bytes, add64, EMBEDDED_TREE_AUTH_BYTES_PER_PAGE, CHILD_HASH_BYTES, u64_max in *.
  rewrite wrap_small; [lia|]. change (2 ^ 64) with 18446744073709551616. lia.
Qed.

Lemma embedded_built (inner : Box) k f id size : loaded k f inner -> k_view k = None -> 0 < size -> k_page k = size + 64 ->
  (forall i, in_range (k_count k) i -> lenZ (f i) = size) ->
  exists e e', embedded_build inner id size = Ok e /\ pp_flush e = (Ok tt, e') /\
    reopen_keyed_ok (EmbeddedKey id k) (Embedded e') /\ settled (Embedded e') /\
    et_page_count e' = k_count k /\ et_logical_page_size e' = size /\ forall i, in_range (k_count k) i -> pp_content e' i = f i.
Proof.
  intros (Hi & Hk & Hz & Hc & Hf) Hv Hs Hpg Hl. rewrite Hv in Hz. cbn [default] in Hz. rewrite Hpg in Hz.
  destruct (embedded_build_ok id size (k_count k) inner Hi Hs Hz (eq_sym Hc)) as (e & Ee & He & _ & Hec & Hez & Hef).
  destruct (embedded_flush e He) as (e' & Ef & (Hok & Hz' & Hc' & Hj) & Hd). exists e, e'.
  split; [exact Ee|]. split; [exact Ef|]. split; [split; [exact Hok|]|].
  { cbn [reopen_key]. rewrite <-Hk, <-(embedded_build_key inner id size e Ee), <-(keeps_et_inner ps_flush keyed_flush e).
    change (on_et_inner ps_flush e) with (pp_flush e). by rewrite Ef. }
  split; [exact Hd|]. split; [etrans; [exact Hc'|done]|]. split; [etrans; [exact Hz'|done]|].
  intros i Hir. rewrite Hj by (cbn; by rewrite Hec). change (embedded_content e i = f i). rewrite Hef by done.
  rewrite (disk_page_logical size (k_count k) inner Hi Hs Hz (eq_sym Hc)) by done.
  destruct (Hf i) as [tail Et]; [by rewrite Hc|]. rewrite Et. apply take_app_length'. specialize (Hl i Hir). unfold lenZ in Hl. lia.
Qed.

(** A store built through the view of its logical pages, opened whole *)
Lemma open_whole k k' b image encrypted key_hex cached (h : HS) : box_at_rest k b image h ->
  k_cipher k' = k_cipher k -> k_page k' = k_page k -> k_count k' = k_count k ->
  cipher_for encrypted key_hex = Ok (k_cipher k') -> key_fits k' -> clear h -> 0 <= cached <= k_count k' ->
  yields E (open_sized_file_store image (k_count k') (k_page k') encrypted key_hex cached true) h (fun (s : Box) h' =>
    clear h' /\ files h' = files h /\ loaded k' (ps_content b) s).
Proof.
  intros Hr Ekc Ekp Ekn Hc Hk Hh Hcp.
  eapply (open_box_loaded Hio); try done; [by left|apply Hr|]. eapply image_file_view; [exact Ekc|exact Ekp|exact Ekn|by eapply rest_image].
Qed.

Lemma loaded_ext k f g (s : Box) : (forall i, in_range (k_count k) i -> f i = g i) -> loaded k f s -> loaded k g s.
Proof.
  intros Hfg (Hs & Hk & Hz & Hc & Hf). split_and!; try done. intros i Hi. rewrite <-Hfg by by rewrite <-Hc. by apply Hf.
Qed.

Lemma build_embedded_yields meta_id payload_id paths p c encrypted key_hex cached bm bp fm fp (h : HS) :
  let ms := circuit_meta_page_bytes (bucket_size p) in
  let ps := circuit_payload_page_bytes (bucket_size p) (block_size p) in
  let km := build_key c LayoutEmbeddedTree (bucket_count p) ms in
  let kp := build_key c LayoutEmbeddedTree (bucket_count p) ps in
  let km' := whole_key c LayoutEmbeddedTree (bucket_count p) ms in
  let kp' := whole_key c LayoutEmbeddedTree (bucket_count p) ps in
  NoDup (path_names paths) ->
  box_at_rest km bm (meta_image paths) h -> box_at_rest kp bp (payload_image paths) h -> key_fits km' -> key_fits kp' ->
  0 < ms -> ms + 64 <= u64_max -> 0 < ps -> ps + 64 <= u64_max ->
  (forall i, in_range (bucket_count p) i -> ps_content bm i = fm i) -> (forall i, in_range (bucket_count p) i -> ps_content bp i = fp i) ->
  cipher_for encrypted key_hex = Ok c -> clear h -> 0 <= cached <= bucket_count p ->
  yields E (build_circuit_embedded_store_auth (C := C) paths meta_id payload_id p encrypted key_hex cached) h (fun a h' =>
    exists em ep, a = auth_new_embedded (embedded_state em) (embedded_state ep) /\ touches (image_names paths) h h' /\
      rest_serves (EmbeddedKey meta_id km') (bucket_count p) ms fm (Embedded em) (meta_image paths) (meta_hash_image paths) h' /\
      rest_serves (EmbeddedKey payload_id kp') (bucket_count p) ps fp (Embedded ep) (payload_image paths) (payload_hash_image paths) h').
Proof.
  intros ms ps km kp km' kp' Hnd Hm Hp Hkm Hkp Hm1 Hm2 Hp1 Hp2 Hfm Hfp Hc Hh Hcp. names_apart Hnd.
  unfold build_circuit_embedded_store_auth. apply yields_bind. unfold open_circuit_physical_file_stores. fold ms ps. cbn zeta.
  eapply yields_step; [exact (open_whole km km' bm _ _ _ cached h Hm eq_refl eq_refl eq_refl Hc Hkm Hh Hcp)|].
  intros sm h1 (Hc1 & Hf1 & Hl1). cbn beta. pose proof (rest_files _ _ _ _ _ Hf1 Hp) as Hp'.
  eapply yields_step; [exact (open_whole kp kp' bp _ _ _ cached h1 Hp' eq_refl eq_refl eq_refl Hc Hkp Hc1 Hcp)|].
  intros sp h2 (Hc2 & Hf2 & Hl2). cbn beta. apply (yields_ret E). cbn [fst snd].
  destruct (img_shape bm (br_ok _ _ _ _ Hm)) as (_ & Hbmc & Hbmz), (img_shape bp (br_ok _ _ _ _ Hp)) as (_ & Hbpc & Hbpz).
  rewrite (br_key _ _ _ _ Hm) in *. rewrite (br_key _ _ _ _ Hp) in *. cbn [default km kp build_key k_view build_view k_count k_page] in Hbmc, Hbmz, Hbpc, Hbpz.
  destruct (embedded_built sm km' fm meta_id ms) as (em & em' & Eem & Efm & [Hem Hemk] & Hemd & Hemc & Hemz & Hemf);
    [by eapply loaded_ext|done|done|by apply embedded_page_bytes| |].
  { intros i Hi. rewrite <-Hfm by done. destruct (ps_content_ok bm i (br_ok _ _ _ _ Hm)) as [-> _]; [by rewrite Hbmc|done]. }
  destruct (embedded_built sp kp' fp payload_id ps) as (ep & ep' & Eep & Efp & [Hep Hepk] & Hepd & Hepc & Hepz & Hepf);
    [by eapply loaded_ext|done|done|by apply embedded_page_bytes| |].
  { intros i Hi. rewrite <-Hfp by done. destruct (ps_content_ok bp i (br_ok _ _ _ _ Hp)) as [-> _]; [by rewrite Hbpc|done]. }
  apply yields_bind. eapply yields_lift; [exact Eem|]. apply yields_bind. eapply yields_lift; [exact Eep|].
  apply yields_bind. eapply yields_run_on; [exact Efm|]. apply yields_bind. eapply yields_run_on; [exact Efp|]. cbn [snd].
  eapply yields_step; [apply put_back_yields; [apply (tr_shape _ _ Hem)|done|done]|]. intros _ h3 [Ht3 Hf3]. cbn beta.
  eapply yields_step; [apply put_back_yields; [apply (tr_shape _ _ Hep)|done|by eapply touches_clear]|]. intros _ h4 [Ht4 Hf4]. cbn beta.
  apply (yields_ret E). exists em', ep'. split; [done|]. split; [|split].
  - eapply touches_trans; [apply (touches_same _ h h2); [done|congruence]|].
    eapply touches_trans; [eapply touches_weaken; [|exact Ht3]; names_sub|]. eapply touches_weaken; [|exact Ht4]; names_sub.
  - split; [|split; [exact Hemc|split; [exact Hemz|exact Hemf]]].
    split; [done|]. split; [done|]. cbn [put_files]. rewrite (touches_lookup _ _ _ _ Ht4) by names_ne. done.
  - split; [|split; [exact Hepc|split; [exact Hepz|exact Hepf]]]. split; [done|]. split; [done|]. exact Hf4.
Qed.

End BuildFiles.

Section BuildImage.
Context {C OS R S : Type} `{CipherLaws C} `{OsRandom OS} `{HostIo OS} `{Hex} `{HashLaws} `{SL : SubtleLaws} `{Rng R}.
Context `{BincodeLaws (CircuitOramState R)} `{BincodeLaws (LegacyCircuitOramState R)}.
Context `{BincodeLaws CircuitStoreAuthState} `{BincodeLaws LegacyCircuitStoreAuthState} `{LS : LawfulSource S}.
Context (Hio : forall path, Forall (fun t => t <> TransferError) (io_script (OS := OS) path)).
Context (im : ImageSpec) (c : option C) (Hfits : image_fits im c).
Local Abbreviation HS := (Host OS).
Local Abbreviation Box := (BoxStore C OS).
Local Abbreviation RS := (CircuitReopenPageStore Box).
Local Abbreviation o := (i_options im).
Local Abbreviation p := (i_params im).
Local Abbreviation paths := (i_paths im).

(** The layout the tree is built with *)
Definition build_layout : AuthLayoutArg := active_auth_layout (opt_auth_store o) (opt_auth_layout o).
Local Abbreviation meta_build_key := (build_key c build_layout (bucket_count p) (meta_size im)).
Local Abbreviation payload_build_key := (build_key c build_layout (bucket_count p) (payload_size im)).

(** The tree fits the machine. *)
Record build_fits : Prop := {
  bf_params : params_ok p;
  bf_fits : fits p;
  bf_ids : logical_blocks p <= u64_max;
  bf_meta : meta_size im + 64 <= u64_max;
  bf_payload : payload_size im + 64 <= u64_max;
  bf_levels : 0 <= opt_auth_trusted_levels o
}.
Context (Hbuild : build_fits) (Hnames : NoDup (path_names paths)).

Lemma size_pos : 0 < meta_size im /\ 0 < payload_size im.
Proof.
  destruct (bf_params Hbuild). unfold meta_size, payload_size, circuit_meta_page_bytes, circuit_payload_page_bytes, META_SERIALIZED_LEN. nia.
Qed.

Lemma whole_fits : key_fits (whole_key c build_layout (bucket_count p) (meta_size im)) /\
  key_fits (whole_key c build_layout (bucket_count p) (payload_size im)).
Proof.
  pose proof (if_meta im c Hfits) as Hm. pose proof (if_payload im c Hfits) as Hp. unfold meta_key, payload_key, image_key, build_layout, active_auth_layout, whole_key in *.
  destruct (opt_auth_store o); [destruct (opt_auth_layout o)|]; cbn [reopen_key_for] in *; unfold tree_key in *; naive_solver.
Qed.

(** The authentication state of the two stores, as the build commands make it *)
Definition build_store_auth (cached : Z) : M HS CircuitStoreAuthState :=
  match opt_auth_layout o with
  | LayoutSidecar =>
      build_sidecar_store_auth (C := C) (i_meta_id im) (i_payload_id im) paths p (opt_encrypted o) (opt_key_hex o) cached
        (opt_auth_trusted_levels o) (opt_auth_hash_page_size o)
  | LayoutEmbeddedTree =>
      build_circuit_embedded_store_auth (C := C) paths (i_meta_id im) (i_payload_id im) p (opt_encrypted o) (opt_key_hex o) cached
  end.

Lemma bucket_count_small : bucket_count p <= 2 ^ 62.
Proof.
  rewrite (bucket_count_eq p (bf_params Hbuild)). pose proof (height_pos p (bf_params Hbuild)).
  assert (2 ^ Params.height p <= 2 ^ 62) by (apply Z.pow_le_mono_r; lia). lia.
Qed.

(** Authenticated, the files rest as the stores the image is reopened with. *)
Lemma build_auth_yields (E : Error -> Prop) cached bm bp fm fp (h : HS) : opt_auth_store o = true ->
  box_at_rest meta_build_key bm (meta_image paths) h -> box_at_rest payload_build_key bp (payload_image paths) h ->
  (forall i, in_range (bucket_count p) i -> ps_content bm i = fm i) -> (forall i, in_range (bucket_count p) i -> ps_content bp i = fp i) ->
  clear h -> 0 <= cached <= bucket_count p ->
  yields E (build_store_auth cached) h (fun a h' => exists sm sp : RS, store_auth_state_from_stores sm sp = Some a /\
    touches (image_names paths) h h' /\
    rest_serves (meta_key im c) (bucket_count p) (meta_size im) fm sm (meta_image paths) (meta_hash_image paths) h' /\
    rest_serves (payload_key im c) (bucket_count p) (payload_size im) fp sp (payload_image paths) (payload_hash_image paths) h').
Proof.
  intros Ha Hm Hp Hfm Hfp Hh Hcp. pose proof (if_meta im c Hfits) as Hkm. pose proof (if_payload im c Hfits) as Hkp.
  unfold meta_key, payload_key, image_key, build_store_auth, build_layout, active_auth_layout in *. rewrite Ha in *.
  pose proof size_pos as [Hms Hps]. pose proof whole_fits as [Hwm Hwp]. unfold build_layout, active_auth_layout in *. rewrite Ha in *.
  destruct (opt_auth_layout o) eqn:El; cbn [reopen_key_for] in Hkm, Hkp.
  - destruct Hkm as (Hkm & _ & Hkh & Hreq), Hkp as (Hkp & _ & _ & _).
    eapply yields_mono; [apply (build_sidecar_yields Hio E _ _ paths p c _ _ cached _ _ (hash_pages im) (mkStoreKey c (meta_size im) (bucket_count p) None)
      (mkStoreKey c (payload_size im) (bucket_count p) None) bm bp fm fp h); try done;
      [apply Hbuild|apply bucket_count_small|apply Hfits]|].
    cbn beta. intros a h' (tm & tp & -> & Ht & Hrm & Hrp). exists (Sidecar tm), (Sidecar tp). by split_and!.
  - eapply yields_mono; [apply (build_embedded_yields Hio E _ _ paths p c _ _ cached bm bp fm fp h); try done;
      [apply Hbuild|apply Hbuild|apply Hfits]|].
    cbn beta. intros a h' (tm & tp & -> & Ht & Hrm & Hrp). exists (Embedded tm), (Embedded tp). by split_and!.
Qed.

Lemma build_key_plain id size : opt_auth_store o = false -> image_key im c id size = PlainKey (build_key c build_layout (bucket_count p) size).
Proof. unfold image_key, build_layout, active_auth_layout, build_key. by intros ->. Qed.

(** A controller over stores that serve the tree the builder wrote *)
Lemma built_holds n (oram : CircuitOram Box Box R) {WM WP : WritableStore Box} f T (sm sp : RS) h :
  built p f oram T -> can_record n (schedule_new p) ->
  rest_serves (meta_key im c) (bucket_count p) (meta_size im) (meta_pages T) sm (meta_image paths) (meta_hash_image paths) h ->
  rest_serves (payload_key im c) (bucket_count p) (payload_size im) (payload_pages T) sp (payload_image paths) (payload_hash_image paths) h ->
  holds im c n (mkOram p sm sp (pos_map oram) (stash oram) (rng oram) (schedule oram)) (f <$> seqZ 0 (logical_blocks p)).
Proof.
  intros Hb Hn ((Hm1 & _) & Hm2 & Hm3 & Hm4) ((Hp1 & _) & Hp2 & Hp3 & Hp4). split; [|split; [done|]].
  - exists T. eapply (built_inv p (bf_params Hbuild) (bf_fits Hbuild) (LM := reopen_keyed_lawful (meta_key im c)) (LP := reopen_keyed_lawful (payload_key im c)));
      [exact Hb|].
    split; by split_and!.
  - destruct Hb as (_ & -> & _). exact Hn.
Qed.

(** The errors a build can stop with *)
Definition build_error (e : Error) : Prop := e = StashOverflow (stash_capacity p + 1) (stash_capacity p) \/ save_error e.

Lemma box_auth (bm bp : Box) : store_auth_state_from_stores bm bp = None.
Proof. by destruct bm as [[[]|]|], bp as [[[]|]|]. Qed.

(** The stores of the built image come to rest as the ones it is reopened with. *)
Definition authenticate (oram : CircuitOram Box Box R) (cached : Z) : M HS (CircuitOramState R) :=
  if opt_auth_store o then
    let* auth_state := build_store_auth cached in
    let* _ := save_circuit_store_auth (C := C) auth_state (auth_state_path paths) (opt_state_key_hex o) in
    ret (with_auth (snapshot oram) (Some auth_state))
  else ret (snapshot oram).

Lemma authenticate_yields (oram : CircuitOram Box Box R) cached fm fp (h : HS) : co_params oram = p ->
  box_at_rest meta_build_key (meta_store oram) (meta_image paths) h -> box_at_rest payload_build_key (payload_store oram) (payload_image paths) h ->
  (forall i, in_range (bucket_count p) i -> ps_content (meta_store oram) i = fm i) ->
  (forall i, in_range (bucket_count p) i -> ps_content (payload_store oram) i = fp i) ->
  ps_page_size (meta_store oram) = meta_size im -> ps_page_size (payload_store oram) = payload_size im ->
  clear h -> 0 <= cached <= bucket_count p ->
  yields build_error (authenticate oram cached) h (fun st h' => exists sm sp : RS,
    st = snapshot (mkOram p sm sp (pos_map oram) (stash oram) (rng oram) (schedule oram)) /\
    touches (image_names paths ++ [render (auth_state_path paths); render (tmp_path (auth_state_path paths))]) h h' /\
    rest_serves (meta_key im c) (bucket_count p) (meta_size im) fm sm (meta_image paths) (meta_hash_image paths) h' /\
    rest_serves (payload_key im c) (bucket_count p) (payload_size im) fp sp (payload_image paths) (payload_hash_image paths) h').
Proof.
  intros Hpar Hm Hp Hfm Hfp Hmz Hpz Hh Hcp. pose proof Hnames as Hnd. names_apart Hnd.
  unfold authenticate. destruct (opt_auth_store o) eqn:Ea.
  - eapply yields_step; [exact (build_auth_yields build_error cached _ _ fm fp h Ea Hm Hp Hfm Hfp Hh Hcp)|]. cbn beta. intros a h1 (sm & sp & Es & Ht1 & Hrm & Hrp).
    eapply yields_step; [apply (save_auth_yields im c Hfits); [by right| |by eapply touches_clear]|].
    { by eapply exposed_magic. }
    cbn beta. intros _ h2 Ht2. apply (yields_ret build_error). exists sm, sp. split; [|split; [|split]].
    + unfold snapshot. cbn. rewrite Es, Hpar. done.
    + eapply touches_trans; [eapply touches_weaken; [|exact Ht1]; intros x Hx; apply elem_of_app; by left|].
      eapply touches_weaken; [|exact Ht2]. intros x Hx. apply elem_of_app. by right.
    + destruct Hrm as (Hr & ?). split; [|done]. by eapply at_rest_frame; [exact Ht2|names_ne..|].
    + destruct Hrp as (Hr & ?). split; [|done]. by eapply at_rest_frame; [exact Ht2|names_ne..|].
  - apply (yields_ret build_error). exists (Plain (meta_store oram)), (Plain (payload_store oram)).
    split; [|split; [done|split]].
    + unfold snapshot. cbn [co_params pos_map stash rng schedule meta_store payload_store]. by rewrite plain_auth, box_auth, Hpar.
    + destruct Hm as [Hb Hk Hd Hf]. destruct (img_shape _ Hb) as (_ & Hc & _). rewrite Hk in Hc. unfold meta_key. rewrite build_key_plain by done.
      split; [|split; [exact Hc|split; [exact Hmz|exact Hfm]]]. split; [split; [done|exact (f_equal PlainKey Hk)]|]. by split.
    + destruct Hp as [Hb Hk Hd Hf]. destruct (img_shape _ Hb) as (_ & Hc & _). rewrite Hk in Hc. unfold payload_key. rewrite build_key_plain by done.
      split; [|split; [exact Hc|split; [exact Hpz|exact Hfp]]]. split; [split; [done|exact (f_equal PlainKey Hk)]|]. by split.
Qed.

Lemma build_closes n cached (ss : Box * Box) (src : S) (seed : bytes) after_flush f (saved : HS -> Prop) (h : HS) :
  opened meta_build_key ss.1 -> opened payload_build_key ss.2 -> serves p f src -> src_block_size src = block_size p ->
  (forall id, 0 <= id < logical_blocks p -> lenZ (f id) = block_size p /\ bytes_ok (f id)) ->
  (forall h, clear h -> yields build_error after_flush h (fun _ h' =>
     touches [render (metadata_path paths); render (tmp_path (metadata_path paths))] h h' /\ saved h')) ->
  can_record n (schedule_new p) -> clear h -> 0 <= cached <= bucket_count p ->
  yields build_error (build_and_save (C := C) (R := R) o paths p ss src seed after_flush (build_store_auth cached)) h (fun st h' =>
    touches (path_names paths) h h' /\ closed im c n h' (f <$> seqZ 0 (logical_blocks p)) /\ state_saved im st h' /\
    exists h1, saved h1 /\ touches (session_names paths) h1 h').
Proof.
  intros (Hsm & Hkm & Hzm & Hcm) (Hsp & Hkp & Hzp & Hcp) Hsrc Hbs Hf Haf Hn Hh Hcached.
  pose proof size_pos as [Hms Hps].
  assert (ps_page_size ss.1 = meta_size im) as Hzm'.
  { rewrite Hzm. unfold build_key, build_view. by destruct build_layout. }
  assert (ps_page_size ss.2 = payload_size im) as Hzp'.
  { rewrite Hzp. unfold build_key, build_view. by destruct build_layout. }
  unfold build_and_save. apply yields_bind.
  destruct (build_written p (bf_params Hbuild) (bf_ids Hbuild) (WM := keyed_writable meta_build_key) (WP := keyed_writable payload_build_key) (R := R)
    ss.1 ss.2 src seed f (conj Hsm Hkm) (conj Hsp Hkp)) as [(oram & T & Eb & Hb)|Eb]; [by split_and!|done|done|done| |rewrite Eb; by left].
  eapply yields_lift; [exact Eb|].
  pose proof Hb as (Hbp & Hbsch & ((Hwm & Hwmk) & Hwmc & Hwmz & Hwmh) & ((Hwp & Hwpk) & Hwpc & Hwpz & Hwph) & Hbi).
  destruct (written_flush meta_build_key (meta_pages T) (meta_store oram) Hwm Hwmk) as (bm & Ebm & Hbm & Hbmk & Hbmd & Hbmz & Hbmc & Hbmf); [by rewrite Hwmc|].
  destruct (written_flush payload_build_key (payload_pages T) (payload_store oram) Hwp Hwpk) as (bp & Ebp & Hbp' & Hbpk & Hbpd & Hbpz & Hbpc & Hbpf); [by rewrite Hwpc|].
  rewrite Hwmc in *. rewrite Hwpc in *. apply yields_bind. eapply yields_run_on.
  { unfold flush. erewrite bind_eq by (apply zoom_eq; exact Ebm). apply zoom_eq. exact Ebp. }
  cbn [snd]. set (oram2 := set_payload_store bp (set_meta_store bm oram)). change (meta_store oram2) with bm. change (payload_store oram2) with bp.
  pose proof Hnames as Hnd. names_apart Hnd.
  eapply yields_step; [apply put_back_yields; [done|done|done]|]. intros _ h1 [Ht1 Hf1]. cbn beta.
  eapply yields_step; [apply put_back_yields; [done|done|by eapply touches_clear]|]. intros _ h2 [Ht2 Hf2]. cbn beta.
  eapply yields_step; [apply Haf; by eapply touches_clear|]. intros ? h3 [Ht3 Hsaved]. cbn beta zeta in Ht3 |- *.
  assert (box_at_rest meta_build_key bm (meta_image paths) h3) as Hrm.
  { split; [done..|]. rewrite (touches_lookup _ _ _ _ Ht3), (touches_lookup _ _ _ _ Ht2) by names_ne. exact Hf1. }
  assert (box_at_rest payload_build_key bp (payload_image paths) h3) as Hrp.
  { split; [done..|]. rewrite (touches_lookup _ _ _ _ Ht3) by names_ne. exact Hf2. }
  eapply yields_step; [apply (authenticate_yields oram2 cached (meta_pages T) (payload_pages T) h3); try done;
    [etrans; [exact Hbmz|exact Hwmz]|etrans; [exact Hbpz|exact Hwpz]|by eapply touches_clear]|].
  cbn beta. intros st h4 (sm & sp & -> & Ht4 & Hrsm & Hrsp).
  set (oram3 := mkOram p sm sp (pos_map oram2) (stash oram2) (rng oram2) (schedule oram2)) in *.
  eapply yields_step; [apply (save_state_yields im c Hfits); [by right|done|by eapply touches_clear]|]. cbn beta. intros _ h5 (Ht5 & b & Hfb & Hdec).
  apply yields_bind. eapply yields_lift.
  { apply pending_evictions_ok. change (schedule oram2) with (schedule oram). rewrite Hbsch. apply (schedule_new_ok p (bf_params Hbuild)). }
  apply (yields_ret build_error).
  assert (touches (session_names paths) h3 h5) as Ht35.
  { eapply touches_trans; [eapply touches_weaken; [|exact Ht4]|eapply touches_weaken; [|exact Ht5]]; names_sub. }
  split; [|split; [|split; [by exists b|by exists h3]]].
  - eapply touches_trans; [eapply touches_weaken; [|exact Ht1]; names_sub|].
    eapply touches_trans; [eapply touches_weaken; [|exact Ht2]; names_sub|].
    eapply touches_trans; [eapply touches_weaken; [|exact Ht3]; names_sub|]. eapply touches_weaken; [|exact Ht35]; names_sub.
  - exists oram3, b. split; [by eapply touches_clear|]. split; [by eapply (built_holds n oram)|].
    split; [by eapply at_rest_frame; [exact Ht5|names_ne..|apply Hrsm]|]. split; [by eapply at_rest_frame; [exact Ht5|names_ne..|apply Hrsp]|]. by split.
Qed.

End BuildImage.
