(* ===== verification/ImageSpec.v ===== *)
(** * An image is the array it was built from

    [build-direct] followed by any number of sessions - open, access, flush, save - on
    the files it left: with plain or sealed files, with or without a cache, with the
    hashes in a sidecar, in the pages, or absent.

    The concrete images come first: a host whose transfers are whole, an encoding of the
    tables' metadata, a direct table with sealed files, a cache and hashes in a sidecar,
    and a packed cuckoo table with hashes in its pages. *)

From S2P Require Import Prelude Ct Block Params Store Writable Schedule Bucket Evict EvictPath Rng State Circuit Blocks.
From S2P Require Import CircuitInv Build BuildProofs CircuitSpec FrontCache Aead Hash Merkle TieredMerkle SealedState Fixint FileStore Embedded EmbeddedSpec.
From S2P Require Import Float64 Direct Packed DirectSpec Cuckoo CuckooSpec Sizing Evidence EvidenceSpec Disk ReopenStore ReopenKeys ImageFiles ImageOps.
From S2P Require Import ImageOpen ImageRest ImageSession ImageBuild.

#[local] Existing Instance bool_subtle.
#[local] Existing Instance plain_mmap.

(** Every transfer moves all it can; a store draws from numbers of its own. *)
#[export] Instance whole_io : HostIo Z := { io_script := fun _ => []; io_fork := fun n => (1000 * n, n + 1) }.
Lemma whole_io_ok (path : string) : Forall (fun t => t <> TransferError) (io_script (OS := Z) path).
Proof. constructor. Qed.

(** ** The metadata of a direct table *)

Definition string_codec : codec string :=
  map_codec (fun b => String.string_of_list_ascii ((fun z => Ascii.ascii_of_N (Z.to_N z)) <$> b)) ascii_bytes (list_codec (word_codec 1)).
Lemma string_codec_ok : codec_ok string_codec.
Proof.
  apply map_codec_ok; [eauto with oram|]. intros s. unfold ascii_bytes. rewrite <-list_fmap_compose.
  rewrite <-(String.string_of_list_ascii_of_string s) at 2. f_equal. rewrite <-(list_fmap_id (String.list_ascii_of_string s)) at 2.
  apply list_fmap_ext. intros _ a _. cbn. by rewrite N2Z.id, Ascii.ascii_N_embedding.
Qed.
Definition path_codec : codec FilePath :=
  map_codec (fun '(a, (b, e)) => mkPath a b e) (fun p => (parent p, (file_stem p, extension p)))
    (pair_codec string_codec (pair_codec string_codec (option_codec string_codec))).
Definition level_codec : codec DirectLevel :=
  map_codec (fun b : bool => if b then DirectChunk else DirectIndex) (fun l => match l with DirectIndex => false | DirectChunk => true end) bool_codec.
Definition metadata_codec : codec DirectTableMetadata :=
  map_codec (fun '(v, (l, (path, (a, (b, (c, (d, (e, (f, (g, (h, (i, (j, k))))))))))))) => mkDirectMeta v l path a b c d e f g h i j k)
    (fun m => (dm_version m, (dm_level m, (dm_source_path m, (dm_source_file_bytes m, (dm_source_records m, (dm_total_items m, (dm_item_size m,
      (dm_items_per_block m, (dm_slots_per_bin m, (dm_hash_fns m, (dm_load_factor_ppb m, (dm_seed m, (dm_logical_blocks m, dm_block_payload_bytes m))))))))))))))
    (pair_codec u32_codec (pair_codec level_codec (pair_codec path_codec (pair_codec u64_codec (pair_codec u64_codec (pair_codec u64_codec
      (pair_codec u64_codec (pair_codec u64_codec (pair_codec u64_codec (pair_codec u64_codec (pair_codec u64_codec (pair_codec u64_codec
      (pair_codec u64_codec u64_codec))))))))))))).
Lemma path_codec_ok : codec_ok path_codec.
Proof. pose proof string_codec_ok. apply map_codec_ok; [eauto with oram|by intros []]. Qed.
Lemma level_codec_ok : codec_ok level_codec.
Proof. apply map_codec_ok; [eauto with oram|by intros []]. Qed.
Lemma metadata_codec_ok : codec_ok metadata_codec.
Proof. pose proof path_codec_ok. pose proof level_codec_ok. unfold metadata_codec, u64_codec, u32_codec. apply map_codec_ok; [eauto 30 with oram|by intros []]. Qed.
#[export] Instance fixint_metadata : Bincode DirectTableMetadata := codec_bincode metadata_codec.
#[export] Instance fixint_metadata_laws : BincodeLaws DirectTableMetadata := codec_bincode_laws _ metadata_codec_ok.

(** ** A direct image *)

Definition demo_key_hex : string := hex_encode (replicate 32 7).
Definition sealed_options : ImageOptions :=
  mkOptions 1 1 2 8 true (Some demo_key_hex) (Some demo_key_hex) 1 true LayoutSidecar 1 64.
Definition empty_host : Host Z := mkHost ∅ [] 1.
Definition demo_sessions : list (list op) := [demo_ops; [OpAccess 2 (fun pl => pl)]].
Definition run_demo_direct : M (Host Z) (list (list (list bytes))) :=
  let* _ := build_direct_table_from_source (C := bytes) (R := Z) sealed_options (direct_output_paths "out" DirectIndex) demo_info demo_params
    CircuitSpec.demo_source demo_metadata [5] in
  sessions (open_direct_image (C := bytes) "out" DirectIndex sealed_options)
    (finish_bench_table (C := bytes) (direct_output_paths "out" DirectIndex) true (Some demo_key_hex) false) demo_sessions.

(** ** A packed cuckoo image *)

Definition embedded_options : ImageOptions := mkOptions 2 1 2 8 false None None 0 true LayoutEmbeddedTree 0 0.
Definition demo_cuckoo_params : OramParams := mkParams 2 26 2 2 8.
Definition demo_cuckoo_sessions : list (list op) := [[OpAccess 1 (fun _ => replicate 26 1)]; []; [OpDrain 9]].
Definition run_demo_cuckoo : M (Host Z) (list (list (list bytes))) :=
  let* _ := build_circuit_table (C := bytes) (R := Z) "out" demo_table embedded_options [5] in
  sessions (open_circuit_image (C := bytes) "out" Index embedded_options)
    (finish_bench_table (C := bytes) (circuit_output_paths "out" Index) true None false) demo_cuckoo_sessions.

Lemma demo_estimates : exists est, cuckoo_estimate (image_sizing embedded_options) demo_table = Ok est /\
  image_params embedded_options (ce_sizes est) = Ok demo_cuckoo_params.
Proof.
  assert (match cuckoo_estimate (image_sizing embedded_options) demo_table with Ok e => image_params embedded_options (ce_sizes e) | _ => Panic end =
    Ok demo_cuckoo_params) as He by (vm_compute; reflexivity).
  destruct (cuckoo_estimate _ _) as [est| | |]; [by exists est|discriminate He..].
Qed.

Section Properties.
Context {C OS R S : Type} `{CipherLaws C} `{OsRandom OS} `{HostIo OS} `{Hex} `{HashLaws} `{SL : SubtleLaws} `{Rng R}.
Context `{BincodeLaws (CircuitOramState R)} `{BincodeLaws (LegacyCircuitOramState R)}.
Context `{BincodeLaws CircuitStoreAuthState} `{BincodeLaws LegacyCircuitStoreAuthState} `{BincodeLaws DirectTableMetadata} `{LS : LawfulSource S}.
Context (Hio : forall path, Forall (fun t => t <> TransferError) (io_script (OS := OS) path)).
Local Abbreviation HS := (Host OS).

(** The images of the two commands *)
Definition direct_image (dir : string) (level : DirectLevel) (o : ImageOptions) (p : OramParams) : ImageSpec :=
  mkImage (direct_auth_store_id level KindMeta) (direct_auth_store_id level KindPayload)
    "{} direct auth sidecar store_id does not match expected level/store domains"
    "{} direct embedded auth store_id does not match expected level/store domains" (direct_output_paths dir level) o p.
Definition circuit_image (dir : string) (level : CuckooLevel) (o : ImageOptions) (p : OramParams) : ImageSpec :=
  mkImage (circuit_auth_store_id level KindMeta) (circuit_auth_store_id level KindPayload)
    "{} auth sidecar store_id does not match expected level/store domains"
    "{} embedded auth store_id does not match expected level/store domains" (circuit_output_paths dir level) o p.

Lemma direct_auth_eq dir level o p cached :
  build_direct_store_auth (C := C) (OS := OS) (direct_output_paths dir level) level p (opt_encrypted o) (opt_key_hex o) cached (opt_auth_layout o)
    (opt_auth_trusted_levels o) (opt_auth_hash_page_size o) = build_store_auth (direct_image dir level o p) cached.
Proof.
  unfold build_direct_store_auth, build_store_auth. cbn [direct_image i_options i_paths i_params i_meta_id i_payload_id].
  destruct (opt_auth_layout o); reflexivity.
Qed.

(** The metadata of a direct table, as its file holds it *)
Definition metadata_saved (ps : CircuitOutputPaths) (m : DirectTableMetadata) (h : HS) : Prop :=
  exists b, files h !! render (metadata_path ps) = Some b /\ bin_deserialize b = Some m.

Lemma direct_save_yields (E : Error -> Prop) m ps (h : HS) : E BincodeError -> clear h ->
  yields E (direct_save m (metadata_path ps)) h (fun _ h' =>
    touches [render (metadata_path ps); render (tmp_path (metadata_path ps))] h h' /\ metadata_saved ps m h').
Proof.
  intros HE [Hf Hb]. destruct h as [fs fl o]. cbn in Hf, Hb. subst fl. unfold direct_save. apply yields_bind.
  destruct (bin_serialize m) as [data|] eqn:Es; [|exact HE]. eapply yields_lift; [done|].
  unfold yields, file_create, write_and_flush, next_fault, bind, modify. cbn [head tail default id files faults os set_files].
  split; [split; [split; [done|]|]|].
  - apply map_Forall_insert_2; [by eapply bin_bytes|]. by apply map_Forall_insert_2; [constructor|].
  - intros q Hq. cbn. rewrite !lookup_insert_ne; [done|set_solver..].
  - exists data. cbn. rewrite lookup_insert_eq. split; [done|]. by apply bin_roundtrip.
Qed.

(** The built image is closed: it opens, with the same options, as a controller that
    satisfies its invariant and holds the blocks of the source.  The metadata is in its
    file, and the evidence returned is of the state in the state file. *)
Lemma direct_built dir (o : ImageOptions) (info : DirectTableInfo) p c (source : S) metadata seed f n (h : HS) :
  let im := direct_image dir (dti_level info) o p in
  image_fits im c -> build_fits im -> serves p f source -> src_block_size source = block_size p ->
  (forall id, 0 <= id < logical_blocks p -> lenZ (f id) = block_size p /\ bytes_ok (f id)) ->
  can_record n (schedule_new p) -> clear h ->
  yields (build_error im)
    (build_direct_table_from_source (C := C) (R := R) o (direct_output_paths dir (dti_level info)) info p source metadata seed) h
    (fun ev h' => closed im c n h' (f <$> seqZ 0 (logical_blocks p)) /\ touches (path_names (i_paths im)) h h' /\
       metadata_saved (i_paths im) metadata h' /\
       exists st, state_saved im st h' /\ direct_controller_state_evidence (dti_level info) (state_path (i_paths im)) st = Ok ev).
Proof.
  intros im Hfits Hbuild Hsrc Hbs Hf Hn Hh. unfold build_direct_table_from_source. apply yields_bind.
  apply guard_yields; [destruct Hsrc as (_ & -> & _); by rewrite Hbs, !Z.eqb_refl|].
  destruct (cached_pages_ok im c Hfits (bf_params im Hbuild)) as (cached & Ec & Hcp). apply yields_bind. eapply yields_lift; [exact Ec|].
  pose proof (whole_fits im c Hfits) as [Hwm Hwp]. pose proof (size_pos im Hbuild) as [Hms Hps].
  eapply yields_step.
  { apply (build_open_yields Hio (build_error im) (build_layout im) p c); [apply Hfits|done|done|done|apply Hbuild|done|apply Hbuild|done|done]. }
  cbn beta. intros ss h1 (Ht1 & Ho1 & Ho2).
  pose proof (output_paths_apart dir ("direct-" +:+ direct_label (dti_level info))) as Hnames.
  assert (forall h : HS, clear h -> yields (build_error im) (direct_save metadata (metadata_path (i_paths im))) h (fun (_ : unit) (h' : HS) =>
    touches [render (metadata_path (i_paths im)); render (tmp_path (metadata_path (i_paths im)))] h h' /\
    metadata_saved (i_paths im) metadata h')) as Hsave.
  { intros h2 Hh2. apply direct_save_yields; [by right; left|done]. }
  rewrite (direct_auth_eq dir (dti_level info) o p cached). fold im.
  eapply yields_step.
  { exact (build_closes Hio im c Hfits Hbuild Hnames n cached ss source seed _ f (metadata_saved (i_paths im) metadata) h1 Ho1 Ho2 Hsrc Hbs Hf Hsave Hn
      (touches_clear _ _ _ Ht1) Hcp). }
  cbn beta. intros st h2 (Ht2 & Hc2 & Hst & h3 & (b & Hb & Hdb) & Ht3).
  destruct (direct_controller_state_evidence (dti_level info) (state_path (i_paths im)) st) as [ev|e| |] eqn:Eev;
    unfold direct_controller_state_evidence in Eev; destruct (bin_serialize st) as [enc|] eqn:Es; try done;
    [|unfold direct_controller_state_evidence; change (state_path (direct_output_paths _ _)) with (state_path (i_paths im)); rewrite Es; by right; left].
  eapply yields_lift; [unfold direct_controller_state_evidence; change (state_path (direct_output_paths _ _)) with (state_path (i_paths im)); rewrite Es; exact Eev|].
  split; [exact Hc2|]. split; [eapply touches_trans; [|exact Ht2]; eapply touches_weaken; [|exact Ht1]; names_sub|].
  split; [|exists st; split; [done|unfold direct_controller_state_evidence; by rewrite Es]].
  exists b. split; [|done]. pose proof Hnames as Hnd. names_apart Hnd. rewrite (touches_lookup _ _ _ _ Ht3); [exact Hb|].
  unfold session_names. cbn [fmap list_fmap]. names_ne.
Qed.

(** The image of a cuckoo table *)

Lemma circuit_auth_eq dir level o p cached :
  build_circuit_store_auth (C := C) (OS := OS) (circuit_output_paths dir level) level p (opt_encrypted o) (opt_key_hex o) cached (opt_auth_layout o)
    (opt_auth_trusted_levels o) (opt_auth_hash_page_size o) = build_store_auth (circuit_image dir level o p) cached.
Proof.
  unfold build_circuit_store_auth, build_store_auth. cbn [circuit_image i_options i_paths i_params i_meta_id i_payload_id].
  destruct (opt_auth_layout o); reflexivity.
Qed.

(** The sizes of the image are those of the packed source. *)
Lemma sizes_params (o : ImageOptions) items size sizes p :
  oram_sizes (image_sizing o) items size = Ok sizes -> image_params o sizes = Ok p ->
  logical_blocks p = div_ceil items (opt_pack o) /\ block_size p = mul64 size (opt_pack o).
Proof.
  intros Es Hp. unfold oram_sizes in Es. cbn [sz_per_block image_sizing] in Es.
  apply obind_Ok in Es as (lv & _ & Es). apply obind_Ok in Es as (p1 & _ & Es). apply obind_Ok in Es as (p2 & _ & Es).
  apply obind_Ok in Es as (p3 & _ & <-%Ok_inj). unfold image_params in Hp.
  apply obind_Ok in Hp as (q1 & E1 & Hp). apply obind_Ok in Hp as (q2 & E2 & E3). cbn [es_logical_blocks es_block_payload_bytes es_leaves] in E1.
  unfold with_leaves in E1. repeat (destruct (_ : bool); [done|]). apply Ok_inj in E1 as <-.
  unfold with_bucket_size in E2. destruct (_ =? 0); [done|]. apply Ok_inj in E2 as <-.
  unfold with_stash_capacity in E3. destruct (_ <? _); [done|]. by apply Ok_inj in E3 as <-.
Qed.
Lemma image_params_sizes (o : ImageOptions) (table : CuckooTableInfo) est p :
  cuckoo_estimate (image_sizing o) table = Ok est -> image_params o (ce_sizes est) = Ok p ->
  logical_blocks p = div_ceil (total_bins table) (opt_pack o) /\ block_size p = mul64 (bin_size table) (opt_pack o).
Proof.
  intros He Hp. unfold cuckoo_estimate in He. destruct (_ =? 0); [done|]. destruct (_ =? 0); [done|].
  apply obind_Ok in He as (sizes & Es & <-%Ok_inj). by eapply sizes_params.
Qed.
Lemma direct_params_sizes (o : ImageOptions) (info : DirectTableInfo) est p :
  direct_estimate (image_sizing o) info = Ok est -> image_params o (de_sizes est) = Ok p ->
  logical_blocks p = div_ceil (dti_total_items info) (opt_pack o) /\ block_size p = mul64 (dti_item_size info) (opt_pack o).
Proof.
  intros He Hp. unfold direct_estimate in He. destruct (_ =? 0); [done|]. destruct (_ =? 0); [done|].
  apply obind_Ok in He as (sizes & Es & <-%Ok_inj). by eapply sizes_params.
Qed.

(** Opening a table reads its file. *)
Lemma cuckoo_open_files `{Mmap} table per (h h' : HS) s : cuckoo_open table per h = (Ok s, h') -> faults h = [] -> files h' = files h /\ faults h' = [].
Proof.
  destruct h as [fs fl o]. cbn. intros Eo ->. unfold cuckoo_open, open_mmap, fs_read, next_fault, guardm, gets, bind, lift in Eo.
  destruct (negb _); [|done]. cbn in Eo. destruct (fs !! _); [|done]. cbn in Eo. destruct (mmap _); [|done]. cbn in Eo. by injection Eo as _ <-.
Qed.

(** The same for a table file whose header was accepted: the blocks are its bins. *)
Lemma circuit_built `{MmapLaws} dir (table : CuckooTableInfo) (o : ImageOptions) est p c seed b n (h : HS) :
  let im := circuit_image dir (ct_level table) o p in
  cuckoo_estimate (image_sizing o) table = Ok est -> image_params o (ce_sizes est) = Ok p -> image_fits im c -> build_fits im ->
  header_ok (ct_level table) (lenZ b) table -> described_bytes table <= u64_max -> 0 < opt_pack o -> bin_size table * opt_pack o <= u64_max ->
  files h !! render (ct_path table) = Some b -> render (ct_path table) ∉ path_names (i_paths im) ->
  can_record n (schedule_new p) -> clear h ->
  yields (build_error im) (build_circuit_table (C := C) (R := R) dir table o seed) h (fun _ h' =>
    closed im c n h'
      (packed (item_in b (ct_data_offset table) (bin_size table)) (total_bins table) (opt_pack o) (bin_size table) <$> seqZ 0 (logical_blocks p)) /\
    touches (path_names (i_paths im)) h h').
Proof.
  intros im Hest Hpar Hfits Hbuild Hhd Hdesc Hpack Hbin Hfile Hapart Hn Hh.
  destruct (image_params_sizes o table est p Hest Hpar) as [Hlb Hbsz].
  unfold build_circuit_table. rewrite Hest. apply yields_bind. apply (yields_ret (build_error im)).
  rewrite Hpar. apply yields_bind. apply (yields_ret (build_error im)).
  destruct (cached_pages_ok im c Hfits (bf_params im Hbuild)) as (cached & Ec & Hcp). apply yields_bind. eapply yields_lift; [exact Ec|].
  pose proof (whole_fits im c Hfits) as [Hwm Hwp]. pose proof (size_pos im Hbuild) as [Hms Hps].
  eapply yields_step.
  { apply (build_open_yields Hio (build_error im) (build_layout im) p c); [apply Hfits|done|done|done|apply Hbuild|done|apply Hbuild|done|done]. }
  cbn beta. intros ss h1 (Ht1 & Ho1 & Ho2).
  pose proof (output_paths_apart dir (cuckoo_label (ct_level table))) as Hnames.
  assert (files h1 !! render (ct_path table) = Some b) as Hfile1.
  { rewrite (touches_lookup _ _ _ _ Ht1); [done|]. intros Hx. apply Hapart. revert Hx. generalize (render (ct_path table)). change ([render (meta_image (i_paths im)); render (payload_image (i_paths im))] ⊆ path_names (i_paths im)). names_sub. }
  destruct (cuckoo_open_ok (ct_level table) table b (opt_pack o) h1 (proj1 (touches_clear _ _ _ Ht1)) Hfile1) as (s & h2 & Es & Hs & Hst & Hsp & Hsb);
    [exact (proj2 (touches_clear _ _ _ Ht1) _ _ Hfile1)|done..|].
  destruct (cuckoo_open_files _ _ _ _ _ Es (proj1 (touches_clear _ _ _ Ht1))) as [Hf2 Hfl2].
  apply yields_bind. eapply yields_eq; [exact Es|]. cbn beta.
  assert (cu_logical_blocks s = logical_blocks p) as Hsl by (rewrite (cu_blocks s Hs), Hst, Hsp; by rewrite Hlb).
  assert (cu_block_payload_bytes s = block_size p) as Hsz.
  { pose proof (proj1 (proj2 (table_sizes _ (cu_ok s Hs)))) as Hb0. rewrite (cu_payload s Hs), Hbsz. rewrite Hst, Hsp in *. rewrite mul64_small; nia. }
  apply yields_bind. apply guard_yields; [by rewrite Hsl, Hsz, !Z.eqb_refl|].
  rewrite (circuit_auth_eq dir (ct_level table) o p cached). fold im.
  assert (forall id, 0 <= id < logical_blocks p -> lenZ (cuckoo_content s id) = block_size p /\ bytes_ok (cuckoo_content s id)) as Hcont.
  { intros id Hid. rewrite <-Hsz. apply cuckoo_content_ok; [done|by rewrite Hsl]. }
  assert (forall h : HS, clear h -> yields (build_error im) (ret tt) h (fun (_ : unit) (h' : HS) =>
    touches [render (metadata_path (i_paths im)); render (tmp_path (metadata_path (i_paths im)))] h h' /\ True)) as Hsave by done.
  assert (clear h2) as Hh2 by (split; [done|rewrite Hf2; apply (touches_clear _ _ _ Ht1)]).
  eapply yields_step.
  { exact (build_closes Hio im c Hfits Hbuild Hnames n cached ss s seed _ (cuckoo_content s) (fun _ => True) h2 Ho1 Ho2 (conj Hs (conj Hsl eq_refl)) Hsz Hcont Hsave Hn Hh2 Hcp). }
  cbn beta. intros st h3 (Ht3 & Hc3 & _). apply (yields_ret (build_error im)).
  assert (cuckoo_content s = packed (item_in b (ct_data_offset table) (bin_size table)) (total_bins table) (opt_pack o) (bin_size table)) as <-.
  { unfold cuckoo_content, file_bin. by rewrite Hst, Hsp, Hsb. }
  split; [exact Hc3|]. eapply touches_trans; [eapply touches_weaken; [|exact Ht1]; names_sub|].
  eapply touches_trans; [|exact Ht3]. by apply touches_same.
Qed.

(** ** The properties *)

Local Abbreviation finish o paths := (finish_bench_table (C := C) (OS := OS) (R := R) paths (opt_auth_store o) (opt_state_key_hex o) false).

(** C2: [build_direct_table_from_source], on a host whose file operations succeed, and
    then any number of sessions on the files it left - [open_direct_image], accesses,
    batches, dummies and drains, flush and save - answer exactly what one array of the
    source's blocks answers to all the operations in a row, and leave an image that
    opens again as that array; or they stop because the stash is full or because the
    state cannot be serialized or sealed.  This holds for plain and sealed files, with
    or without a cache, and with the hashes in a sidecar, in the pages or absent. *)
Theorem direct_image_lifetime dir (o : ImageOptions) (info : DirectTableInfo) p c (source : S) metadata seed f opss n (h : HS) :
  let im := direct_image dir (dti_level info) o p in
  let A := f <$> seqZ 0 (logical_blocks p) in
  image_fits im c -> build_fits im -> serves p f source -> src_block_size source = block_size p ->
  (forall id, 0 <= id < logical_blocks p -> lenZ (f id) = block_size p /\ bytes_ok (f id)) ->
  0 <= n -> can_record (total_accesses (concat opss) + n) (schedule_new p) -> Forall (op_ok p) (concat opss) -> clear h ->
  yields (build_error im)
    (let* _ := build_direct_table_from_source (C := C) (R := R) o (direct_output_paths dir (dti_level info)) info p source metadata seed in
     sessions (open_direct_image dir (dti_level info) o) (finish o (direct_output_paths dir (dti_level info))) opss) h
    (fun outss h' => concat outss = (spec_ops (concat opss) A).1 /\
       image_serves im c (open_direct_image dir (dti_level info) o) n h' (spec_ops (concat opss) A).2).
Proof.
  intros im A Hfits Hbuild Hsrc Hbs Hf Hn Hrec Hops Hh.
  eapply yields_step; [exact (direct_built dir o info p c source metadata seed f _ h Hfits Hbuild Hsrc Hbs Hf Hrec Hh)|]. cbn beta. intros _ h1 [Hs%(closed_serves _ _ Hio Hfits) _].
  exact (sessions_ok im c Hio Hfits (output_paths_apart dir ("direct-" +:+ direct_label (dti_level info))) opss n h1 A Hn Hs Hops).
Qed.

(** C3: the same for a table file that [from_file] accepts, [build_circuit_table] on
    what it returned, and sessions opened with [open_circuit_image]: the array is that
    of the bins of the file, packed into blocks with the padding the reader adds. *)
Theorem circuit_image_lifetime `{MmapLaws} dir level path (table : CuckooTableInfo) (o : ImageOptions) est p c seed b opss n (h0 h : HS) :
  let im := circuit_image dir level o p in
  let A := packed (item_in b (ct_data_offset table) (bin_size table)) (total_bins table) (opt_pack o) (bin_size table) <$> seqZ 0 (logical_blocks p) in
  clear h0 -> files h0 !! render path = Some b -> from_file level path h0 = (Ok table, h) -> render path ∉ path_names (i_paths im) ->
  described_bytes table <= u64_max -> 0 < opt_pack o -> bin_size table * opt_pack o <= u64_max ->
  cuckoo_estimate (image_sizing o) table = Ok est -> image_params o (ce_sizes est) = Ok p -> image_fits im c -> build_fits im ->
  0 <= n -> can_record (total_accesses (concat opss) + n) (schedule_new p) -> Forall (op_ok p) (concat opss) ->
  yields (build_error im)
    (let* _ := build_circuit_table (C := C) (R := R) dir table o seed in
     sessions (open_circuit_image dir level o) (finish o (circuit_output_paths dir level)) opss) h
    (fun outss h' => concat outss = (spec_ops (concat opss) A).1 /\
       image_serves im c (open_circuit_image dir level o) n h' (spec_ops (concat opss) A).2).
Proof.
  intros im A [Hf0 Hb0] Hfile Hfrom Hapart Hdesc Hpack Hbin Hest Hpar Hfits Hbuild Hn Hrec Hops.
  destruct (from_file_inv level path h0 h table b Hfile (Hb0 _ _ Hfile) Hfrom) as (Hhd & <- & Hf1 & Hfl1).
  pose proof (hd_level _ _ _ Hhd) as El. subst level.
  assert (clear h) as Hh by (split; [by apply Hfl1|by rewrite Hf1]).
  eapply yields_step.
  { refine (circuit_built dir table o est p c seed b _ h Hest Hpar Hfits Hbuild Hhd Hdesc Hpack Hbin _ Hapart Hrec Hh). by rewrite Hf1. }
  cbn beta. intros _ h1 [Hs%(closed_serves _ _ Hio Hfits) _].
  exact (sessions_ok im c Hio Hfits (output_paths_apart dir (cuckoo_label (ct_level table))) opss n h1 A Hn Hs Hops).
Qed.

End Properties.

(** ** Concrete images *)

#[local] Existing Instance bool_subtle.
#[local] Existing Instance bool_subtle_laws.
#[local] Existing Instance plain_mmap.
#[local] Existing Instance plain_mmap_laws.

Definition demo_direct_image : ImageSpec := direct_image "out" DirectIndex sealed_options demo_params.
Definition demo_cuckoo_image : ImageSpec := circuit_image "out" Index embedded_options demo_cuckoo_params.

Ltac image_fits_tac := split; [by vm_compute|(exact I || (eexists; vm_compute; reflexivity))|by vm_compute|..]; repeat split; (by vm_compute) || (by right; vm_compute) || (by left).
Lemma demo_direct_fits : image_fits demo_direct_image (Some (replicate 32 7)) /\ build_fits demo_direct_image.
Proof. split; [image_fits_tac|]. split; [apply demo_params_ok..|by vm_compute|by vm_compute|by vm_compute]. Qed.
Lemma demo_cuckoo_fits : image_fits demo_cuckoo_image None /\ build_fits demo_cuckoo_image.
Proof. split; [image_fits_tac|]. split; (by vm_compute) || (repeat split; by vm_compute). Qed.
Lemma empty_clear : clear empty_host.
Proof. split; [done|apply map_Forall_empty]. Qed.
Lemma demo_cuckoo_clear : clear demo_cuckoo_host.
Proof. split; [done|]. apply map_Forall_singleton, demo_table_bytes. Qed.

Lemma direct_image_lifetime_witness :
  yields (build_error demo_direct_image) run_demo_direct empty_host (fun outss h =>
    concat outss = [[[5; 6]]; []; []; [[9; 9]; [1; 2]]; []; [[9; 9]]] /\
    image_serves demo_direct_image (Some (replicate 32 7)) (open_direct_image (C := bytes) (R := Z) "out" DirectIndex sealed_options) 90 h
      [[1; 2]; [3; 4]; [9; 9]; [7; 8]]).
Proof.
  refine (direct_image_lifetime (C := bytes) (OS := Z) (R := Z) whole_io_ok "out" sealed_options demo_info demo_params (Some (replicate 32 7))
    CircuitSpec.demo_source demo_metadata [5] (arr_get demo_blocks) demo_sessions 90 empty_host (proj1 demo_direct_fits) (proj2 demo_direct_fits)
    demo_source_ok eq_refl demo_blocks_ok _ _ _ empty_clear).
  - discriminate.
  - split; vm_compute; discriminate.
  - repeat constructor; cbn [op_ok]; try (by vm_compute; intuition discriminate); try done.
Defined.

Lemma circuit_image_lifetime_witness :
  yields (build_error demo_cuckoo_image) run_demo_cuckoo demo_cuckoo_host (fun outss h =>
    concat outss = [[replicate 13 3 ++ replicate 13 4]; []] /\
    image_serves demo_cuckoo_image None (open_circuit_image (C := bytes) (R := Z) "out" Index embedded_options) 90 h
      [replicate 13 1 ++ replicate 13 2; replicate 26 1]).
Proof.
  destruct demo_estimates as (est & Ee & Ep).
  refine (circuit_image_lifetime (C := bytes) (OS := Z) (R := Z) whole_io_ok "out" Index demo_table_path demo_table embedded_options est
    demo_cuckoo_params None [5] demo_table_file demo_cuckoo_sessions 90 demo_cuckoo_host demo_cuckoo_host demo_cuckoo_clear eq_refl
    (proj1 demo_table_parses) _ _ _ _ Ee Ep (proj1 demo_cuckoo_fits) (proj2 demo_cuckoo_fits) _ _ _).
  - apply (bool_decide_eq_false_1 _). vm_compute. reflexivity.
  - vm_compute; discriminate.
  - reflexivity.
  - vm_compute; discriminate.
  - discriminate.
  - split; vm_compute; discriminate.
  - repeat constructor; cbn [op_ok]; try (by vm_compute; intuition discriminate); try done.
Defined.
