(* ===== verification/Bench.v ===== *)
(** * Commands that read an image ([src/src/bin/oramctl.rs])

    [bench-circuit], [verify-circuit-bins] and [bench-direct]: open an image, read blocks,
    bins, records or chunks drawn at random, compare them with the table's file, drain,
    flush and save.  A command returns the numbers it prints. *)

From S2P Require Import Prelude Ct Params Store Schedule Rng State Circuit Aead Hash SealedState FileStore Evidence.
From S2P Require Import CandidateBins Direct IndexTable DirectReader Cuckoo Disk ReopenStore ImageFiles ImageOps.

(** ** What a run reports *)

Record BenchReport : Type := mkReport { rp_verified : Z; rp_drained : Z; rp_checksum : Z }.

(** [u64::rotate_left] *)
Definition rotate_left64 (x k : Z) : Z := Z.lor (wrap 64 (Z.shiftl x k)) (Z.shiftr x (64 - k)).
(** [payload.chunks(8)]: the last chunk may be shorter *)
Fixpoint chunks8 (fuel : nat) (payload : bytes) : list bytes :=
  match fuel, payload with
  | S fuel, _ :: _ => take 8 payload :: chunks8 fuel (drop 8 payload)
  | _, _ => []
  end.
(** [checksum_payload] *)
Definition checksum_payload (checksum : Z) (payload : bytes) : Z :=
  foldl (fun checksum chunk => Z.lxor (rotate_left64 checksum 5) (from_le (chunk ++ zeros (8 - lenZ chunk)))) checksum
    (chunks8 (length payload) payload).

(** ** Levels *)

Inductive LevelArg : Type := LevelAll | LevelIndex | LevelChunk.
(** [LevelArg::levels] *)
Definition level_levels (l : LevelArg) : list CuckooLevel :=
  match l with LevelAll => [Index; Chunk] | LevelIndex => [Index] | LevelChunk => [Chunk] end.
Inductive DirectLevelArg : Type := DirectLevelAll | DirectLevelIndex | DirectLevelChunk.
(** [DirectLevelArg::levels] *)
Definition direct_level_levels (l : DirectLevelArg) : list DirectLevel :=
  match l with DirectLevelAll => [DirectIndex; DirectChunk] | DirectLevelIndex => [DirectIndex] | DirectLevelChunk => [DirectChunk] end.

Section Bench.
Context {C OS R : Type} `{Cipher C} `{OsRandom OS} `{HostIo OS} `{Hex} `{Hash} `{Subtle} `{Rng R}.
Context `{Bincode (CircuitOramState R)} `{Bincode (LegacyCircuitOramState R)}.
Context `{Bincode CircuitStoreAuthState} `{Bincode LegacyCircuitStoreAuthState} `{Bincode DirectTableMetadata} `{Mmap}.
Local Abbreviation HM := (M (Host OS)).
Local Abbreviation RS := (CircuitReopenPageStore (BoxStore C OS)).
Local Abbreviation Oram := (CircuitOram RS RS R).

(** [query_rng.next_u64() % modulus] *)
Definition draw (modulus : Z) : M R Z := fun rng =>
  let (word, rng) := next_u64 rng in (if modulus =? 0 then Panic else Ok (word mod modulus), rng).
Definition draws (modulus count : Z) : M R (list Z) := mapM (fun _ => draw modulus) (seqZ 0 count).

(** [while completed_ops < ops] with batches of at most [batch_size]; the fuel is the
    number of operations *)
Fixpoint batches {A} (fuel : nat) (step : Z -> A -> HM A) (ops batch_size completed_ops : Z) (acc : A) : HM A :=
  if completed_ops <? ops then
    match fuel with
    | O => lift Diverges
    | S fuel =>
        let current_batch := Z.min batch_size (ops - completed_ops) in
        let* acc := step current_batch acc in
        batches fuel step ops batch_size (completed_ops + current_batch) acc
    end
  else ret acc.
Definition run_batches {A} (step : Z -> A -> HM A) (ops batch_size : Z) (acc : A) : HM A :=
  batches (Z.to_nat ops) step ops batch_size 0 acc.

(** ** [bench-circuit] *)

(** The body of the loop over the payloads of a batch *)
Definition check_block (verifier : option CuckooPackedBlockReader) (acc : Z * Z) (got : Z * bytes) : outcome (Z * Z) :=
  let '(checksum, verified) := acc in
  let '(logical_id, payload) := got in
  let checksum := checksum_payload checksum payload in
  match verifier with
  | Some verifier =>
      let? expected := cuckoo_read_block verifier logical_id in
      let? _ := guardo (bool_decide (payload = expected)) (InvalidInput "{} logical block {} did not match original cuckoo payload") in
      Ok (checksum, add64 verified 1)
  | None => Ok (checksum, verified)
  end.

(** The body of the loop over batches *)
Definition bench_circuit_batch (verifier : option CuckooPackedBlockReader) (drain_per_access batch_len : Z) (acc : Oram * R * BenchReport) :
    HM (Oram * R * BenchReport) :=
  let '(oram, query_rng, report) := acc in
  let* drawn := run_on (draws (logical_blocks (co_params oram)) batch_len) query_rng in
  let '(logical_ids, query_rng) := drawn in
  let* got := run_on (read_batch logical_ids) oram in
  let '(payloads, oram) := got in
  let* sums := lift (ofold (check_block verifier) (rp_checksum report, rp_verified report) (zip logical_ids payloads)) in
  let* got := run_on (drain_evictions (mul64 drain_per_access batch_len)) oram in
  let '(n, oram) := got in
  ret (oram, query_rng, mkReport sums.2 (add64 (rp_drained report) n) sums.1).

(** The verifier, when a table is given *)
Definition open_verifier (table : option CuckooTableInfo) (pack : Z) (p : OramParams) : HM (option CuckooPackedBlockReader) :=
  match table with
  | Some table =>
      let* reader := cuckoo_open table pack in
      let* _ := guardm ((cu_logical_blocks reader =? logical_blocks p) && (cu_block_payload_bytes reader =? block_size p))
                  (InvalidInput "{} verifier dimensions do not match Circuit ORAM state") in
      ret (Some reader)
  | None => ret None
  end.

(** [bench_circuit_table] *)
Definition bench_circuit_table (oram_dir : string) (level : CuckooLevel) (table : option CuckooTableInfo) (o : ImageOptions)
    (ops batch_size drain_per_access : Z) (query_seed : bytes) (no_save : bool) : HM BenchReport :=
  let paths := circuit_output_paths oram_dir level in
  let* oram := open_circuit_image oram_dir level o in
  let* verifier := open_verifier table (opt_pack o) (co_params oram) in
  let query_rng := from_seed query_seed in
  let* _ := lift (pending_evictions (schedule oram)) in
  let* acc := run_batches (bench_circuit_batch verifier drain_per_access) ops batch_size (oram, query_rng, mkReport 0 0 0) in
  let '(oram, _, report) := acc in
  let* _ := finish_bench_table paths (opt_auth_store o) (opt_state_key_hex o) no_save oram in
  ret report.

(** ** [verify-circuit-bins] *)

Definition verify_bin (table : CuckooTableInfo) (source_reader : CuckooPackedBlockReader) (drain_per_access : Z)
    (acc : CircuitCuckooBinReader RS RS R * R * BenchReport) (_ : Z) : HM (CircuitCuckooBinReader RS RS R * R * BenchReport) :=
  let '(oram_reader, query_rng, report) := acc in
  let* drawn := run_on (draw (total_bins table)) query_rng in
  let '(bin_id, query_rng) := drawn in
  let* got := run_on (read_bin bin_id drain_per_access) oram_reader in
  let '(got, oram_reader) := got in
  let* expected := lift (cuckoo_read_bin source_reader bin_id) in
  let* _ := guardm (bool_decide (br_payload got = expected)) (InvalidInput "{} bin {} did not match original cuckoo payload") in
  ret (oram_reader, query_rng, mkReport (add64 (rp_verified report) 1) (add64 (rp_drained report) (br_drained_evictions got))
                                 (checksum_payload (rp_checksum report) (br_payload got))).

(** [verify_circuit_bin_table] *)
Definition verify_circuit_bin_table (oram_dir : string) (table : CuckooTableInfo) (o : ImageOptions) (bins drain_per_access : Z)
    (query_seed : bytes) (no_save : bool) : HM BenchReport :=
  let paths := circuit_output_paths oram_dir (ct_level table) in
  let* oram := open_circuit_image oram_dir (ct_level table) o in
  let* oram_reader := lift (bin_reader_new table (opt_pack o) oram) in
  let* source_reader := cuckoo_open table (opt_pack o) in
  let query_rng := from_seed query_seed in
  let* _ := lift (pending_evictions (schedule (cb_oram oram_reader))) in
  let* acc := foldM (verify_bin table source_reader drain_per_access) (oram_reader, query_rng, mkReport 0 0 0) (seqZ 0 bins) in
  let '(oram_reader, _, report) := acc in
  let* _ := finish_bench_table paths (opt_auth_store o) (opt_state_key_hex o) no_save (cb_oram oram_reader) in
  ret report.

(** ** [bench-direct] *)

(** [validate_direct_source_for_metadata] *)
Definition validate_direct_source_for_metadata (source_file : FilePath) (metadata : DirectTableMetadata) : HM unit :=
  let* file_bytes := Direct.fs_len source_file in
  guardm (file_bytes =? dm_source_file_bytes metadata) (InvalidInput "direct source {} has {} bytes, expected {}").

(** [file.seek(SeekFrom::Start(offset))?] and [file.read_exact(&mut record)?] *)
Definition file_read_at (contents : bytes) (offset len : Z) : HM bytes :=
  let* fault := next_fault in
  let* _ := guardm (bool_decide (fault = None)) IoError in
  let* fault := next_fault in
  match fault with
  | None => if lenZ contents <? offset + len then fail IoError else lift (slice contents offset len)
  | Some _ => fail IoError
  end.
(** [read_direct_index_record], [read_direct_chunk_record] *)
Definition read_direct_index_record (contents : bytes) (record_idx : Z) : HM bytes :=
  file_read_at contents (mul64 record_idx DIRECT_INDEX_INPUT_RECORD_SIZE) DIRECT_INDEX_INPUT_RECORD_SIZE.
Definition read_direct_chunk_record (contents : bytes) (chunk_id : Z) : HM bytes :=
  file_read_at contents (mul64 chunk_id DIRECT_CHUNK_RECORD_SIZE) DIRECT_CHUNK_RECORD_SIZE.

(** [read_random_direct_index_hashes] *)
Definition read_random_direct_index_hashes (contents : bytes) (records count : Z) (rng : R) : HM (list bytes * R) :=
  let* _ := guardm (negb (records =? 0)) (InvalidInput "direct index source has no records") in
  foldM (fun (acc : list bytes * R) (_ : Z) =>
    let '(hashes, rng) := acc in
    let* drawn := run_on (draw records) rng in
    let* record := read_direct_index_record contents drawn.1 in
    let* script_hash := lift (slice record 0 DIRECT_SCRIPT_HASH_SIZE) in
    ret (hashes ++ [script_hash], drawn.2)) ([], rng) (seqZ 0 count).

(** The loops over the answers of a batch *)
Definition sum_lookup (checksum : Z) (lookup : DirectIndexLookup) : outcome Z :=
  let? _ := guardo (lk_found lookup) (InvalidInput "direct index batch lookup missed source script hash") in
  let checksum := checksum_payload checksum (lk_script_hash lookup) in
  let checksum := checksum_payload checksum (to_le 4 (lk_start_chunk_id lookup)) in
  Ok (checksum_payload checksum [lk_num_chunks lookup]).
Definition sum_chunk (contents : bytes) (checksum : Z) (read : DirectChunkRead) : HM Z :=
  let* expected := read_direct_chunk_record contents (cr_chunk_id read) in
  let* _ := guardm (bool_decide (cr_payload read = expected)) (InvalidInput "direct chunk {} did not match source") in
  ret (checksum_payload checksum (cr_payload read)).

(** The bodies of the loops over batches *)
Definition bench_index_batch (contents : bytes) (drain_per_access current_batch : Z)
    (acc : CircuitDirectIndexReader RS RS R * R * BenchReport) : HM (CircuitDirectIndexReader RS RS R * R * BenchReport) :=
  let '(reader, query_rng, report) := acc in
  let* drawn := read_random_direct_index_hashes contents (dm_source_records (ir_metadata reader)) current_batch query_rng in
  let '(script_hashes, query_rng) := drawn in
  let* got := run_on (lookup_many_batched script_hashes drain_per_access) reader in
  let '(got, reader) := got in
  let* checksum := lift (ofold sum_lookup (rp_checksum report) (bl_lookups got)) in
  ret (reader, query_rng, mkReport (add64 (rp_verified report) (lenZ (bl_lookups got))) (add64 (rp_drained report) (bl_drained_evictions got)) checksum).
Definition bench_chunk_batch (contents : bytes) (drain_per_access current_batch : Z)
    (acc : CircuitDirectChunkReader RS RS R * R * BenchReport) : HM (CircuitDirectChunkReader RS RS R * R * BenchReport) :=
  let '(reader, query_rng, report) := acc in
  let* drawn := run_on (draws (dm_total_items (ch_metadata reader)) current_batch) query_rng in
  let '(chunk_ids, query_rng) := drawn in
  let* got := run_on (read_chunks chunk_ids drain_per_access) reader in
  let '(got, reader) := got in
  let* checksum := foldM (sum_chunk contents) (rp_checksum report) (cb_reads got) in
  ret (reader, query_rng, mkReport (add64 (rp_verified report) (lenZ (cb_reads got))) (add64 (rp_drained report) (cb_drained_evictions got)) checksum).

(** [bench_direct_table] *)
Definition bench_direct_table (oram_dir : string) (level : DirectLevel) (source_file : FilePath) (o : ImageOptions)
    (ops batch_size drain_per_access : Z) (query_seed : bytes) (no_save : bool) : HM BenchReport :=
  let paths := direct_output_paths oram_dir level in
  let* metadata := direct_load (metadata_path paths) in
  let* _ := guardm (bool_decide (dm_level metadata = level)) (InvalidInput "direct metadata level {} != requested {}") in
  let* _ := validate_direct_source_for_metadata source_file metadata in
  let* oram := open_direct_image oram_dir level o in
  let* source := fs_read source_file in
  let query_rng := from_seed query_seed in
  let* _ := lift (pending_evictions (schedule oram)) in
  match level with
  | DirectIndex =>
      let* reader := lift (index_reader_new metadata oram) in
      let* acc := run_batches (bench_index_batch source drain_per_access) ops batch_size (reader, query_rng, mkReport 0 0 0) in
      let '(reader, _, report) := acc in
      let* _ := finish_bench_table paths (opt_auth_store o) (opt_state_key_hex o) no_save (ir_oram reader) in
      ret report
  | DirectChunk =>
      let* reader := lift (chunk_reader_new metadata oram) in
      let* acc := run_batches (bench_chunk_batch source drain_per_access) ops batch_size (reader, query_rng, mkReport 0 0 0) in
      let '(reader, _, report) := acc in
      let* _ := finish_bench_table paths (opt_auth_store o) (opt_state_key_hex o) no_save (ch_oram reader) in
      ret report
  end.

(** ** The commands, level by level *)

(** A file operation that changes nothing here: [fs::create_dir_all], opening a directory,
    reading an entry and its type *)
Definition fs_visit : HM unit := let* fault := next_fault in guardm (bool_decide (fault = None)) IoError.

(** The checks the commands start with *)
Definition check_options (encrypted : bool) (key_hex : option string) : HM unit :=
  if encrypted then let* _ := lift (parse_required_key key_hex) in ret tt else ret tt.
(** [tables.iter().find(|table| table.level == level)] *)
Definition find_table (level : CuckooLevel) (tables : CuckooTableInfo * CuckooTableInfo) : outcome CuckooTableInfo :=
  match List.find (fun t => bool_decide (ct_level t = level)) [tables.1; tables.2] with Some t => Ok t | None => Panic end.

(** [bench_circuit_images] *)
Definition bench_circuit_images (oram_dir : string) (db_dir : option string) (level : LevelArg) (o : ImageOptions)
    (ops batch_size drain_per_access : Z) (query_seed : bytes) (no_save : bool) : HM (list BenchReport) :=
  let* _ := guardm (negb (opt_pack o =? 0)) (InvalidInput "--pack must be > 0") in
  let* _ := guardm (negb (batch_size =? 0)) (InvalidInput "--batch-size must be > 0") in
  let* _ := check_options (opt_encrypted o) (opt_key_hex o) in
  let* tables := match db_dir with
                 | Some db_dir => let* tables := load_pair db_dir in ret (Some tables)
                 | None => ret None
                 end in
  mapM (fun selected_level =>
    let table := tables ≫= fun tables => List.find (fun t => bool_decide (ct_level t = selected_level)) [tables.1; tables.2] in
    bench_circuit_table oram_dir selected_level table o ops batch_size drain_per_access (derive_level_seed query_seed selected_level) no_save)
    (level_levels level).

(** [verify_circuit_bins] *)
Definition verify_circuit_bins (oram_dir db_dir : string) (level : LevelArg) (o : ImageOptions) (bins drain_per_access : Z)
    (query_seed : bytes) (no_save : bool) : HM (list BenchReport) :=
  let* _ := guardm (negb (opt_pack o =? 0)) (InvalidInput "--pack must be > 0") in
  let* _ := check_options (opt_encrypted o) (opt_key_hex o) in
  let* tables := load_pair db_dir in
  mapM (fun selected_level =>
    let* table := lift (find_table selected_level tables) in
    verify_circuit_bin_table oram_dir table o bins drain_per_access (derive_level_seed query_seed selected_level) no_save)
    (level_levels level).

(** [bench_direct_images] *)
Definition bench_direct_images (oram_dir : string) (index_file chunks_file : FilePath) (level : DirectLevelArg) (o : ImageOptions)
    (ops batch_size drain_per_access : Z) (query_seed : bytes) (no_save : bool) : HM (list BenchReport) :=
  let* _ := guardm (negb (batch_size =? 0)) (InvalidInput "--batch-size must be > 0") in
  let* _ := check_options (opt_encrypted o) (opt_key_hex o) in
  mapM (fun selected_level =>
    let source := match selected_level with DirectIndex => index_file | DirectChunk => chunks_file end in
    bench_direct_table oram_dir selected_level source o ops batch_size drain_per_access (derive_direct_level_seed query_seed selected_level) no_save)
    (direct_level_levels level).

(** [build_circuit_images] *)
Definition build_circuit_images (db_dir out_dir : string) (level : LevelArg) (o : ImageOptions) (seed : bytes) : HM unit :=
  let* _ := guardm (negb (opt_pack o =? 0)) (InvalidInput "--pack must be > 0") in
  let* _ := guardm (negb (opt_leaf_divisor o =? 0)) (InvalidInput "--leaf-divisor must be > 0") in
  let* _ := check_options (opt_encrypted o) (opt_key_hex o) in
  let* _ := fs_visit in
  let* tables := load_pair db_dir in
  iterM (fun selected_level =>
    let* table := lift (find_table selected_level tables) in
    build_circuit_table (C := C) (R := R) out_dir table o (derive_level_seed seed (ct_level table))) (level_levels level).

End Bench.
