(* ===== verification/BenchSpec.v ===== *)
(** * The commands confirm what was built

    On an image that holds the table of a file, [verify-circuit-bins], [bench-circuit] and
    [bench-direct] find every bin, block, record and chunk they draw equal to the file's,
    and leave an image that holds the table still. *)

From S2P Require Import Prelude Ct Block Params Store Schedule Stash Rng State Circuit Blocks CircuitInv CircuitSpec OramReads Aead Hash SealedState FileStore Evidence.
From S2P Require Import CandidateBins Direct Packed IndexTable IndexProofs DirectReader DirectLookup DirectSpec Cuckoo CuckooSpec.
From S2P Require Import Fixint SealedSpec EvidenceSpec Build BuildProofs Float64 Sizing Disk ReopenStore ReopenKeys ImageFiles ImageOps ImageOpen ImageRest ImageSession ImageBuild ImageSpec Bench.

(** ** Loops *)

Section Loops.
Context {H : Type} (E : Error -> Prop).

(** A loop rule: each step takes the invariant over one more iteration. *)
Lemma foldM_yields {A} (step : A -> Z -> M H A) (Inv : Z -> A -> H -> Prop) n a (h : H) :
  (forall i a h, 0 <= i < n -> Inv i a h -> yields E (step a i) h (Inv (i + 1))) ->
  0 <= n -> Inv 0 a h -> yields E (foldM step a (seqZ 0 n)) h (Inv n).
Proof.
  intros Hstep Hn. cut (forall k i a h, i + Z.of_nat k = n -> 0 <= i -> Inv i a h -> yields E (foldM step a (seqZ i (Z.of_nat k))) h (Inv n)).
  { intros Hc Ha. rewrite <-(Z2Nat.id n) at 1 by lia. apply Hc; [lia|lia|done]. }
  induction k as [|k IH]; intros i b g Hk Hi Hb.
  - apply yields_ret. by replace n with i by lia.
  - rewrite seqZ_cons by lia. cbn [foldM]. eapply yields_step; [apply Hstep; [lia|exact Hb]|]. intros b' g' Hb'.
    replace (Z.pred (Z.of_nat (S k))) with (Z.of_nat k) by lia. apply IH; [lia|lia|done].
Qed.

End Loops.

Section BatchLoop.
Context {OS : Type} (E : Error -> Prop).

Lemma batches_yields {A} (step : Z -> A -> M (Host OS) A) (Inv : Z -> A -> Host OS -> Prop) ops batch_size a h :
  (forall done len a h, 0 <= done -> 0 < len -> done + len <= ops -> Inv done a h -> yields E (step len a) h (Inv (done + len))) ->
  0 <= ops -> 0 < batch_size -> Inv 0 a h -> yields E (run_batches step ops batch_size a) h (Inv ops).
Proof.
  intros Hstep Hops Hb. unfold run_batches.
  cut (forall fuel completed a h, 0 <= completed <= ops -> ops - completed <= Z.of_nat fuel -> Inv completed a h ->
    yields E (batches fuel step ops batch_size completed a) h (Inv ops)).
  { intros Hc Ha. apply Hc; [lia|lia|done]. }
  induction fuel as [|fuel IH]; intros completed b g Hc Hfuel Hi; cbn [batches].
  - rewrite (proj2 (Z.ltb_ge _ _)) by lia. apply yields_ret. by replace ops with completed by lia.
  - destruct (completed <? ops) eqn:Eo; zbool; [|apply yields_ret; by replace ops with completed by lia].
    eapply yields_step; [apply Hstep; [| | |exact Hi]; lia|]. cbn beta. intros b' g' Hb'. apply IH; [lia|lia|done].
Qed.

End BatchLoop.

(** ** One step on an open image *)

Section Confirm.
Context {C OS R : Type} `{CipherLaws C} `{OsRandom OS} `{HostIo OS} `{Hex} `{HashLaws} `{SL : SubtleLaws} `{Rng R}.
Context `{BincodeLaws (CircuitOramState R)} `{BincodeLaws (LegacyCircuitOramState R)}.
Context `{BincodeLaws CircuitStoreAuthState} `{BincodeLaws LegacyCircuitStoreAuthState} `{BincodeLaws DirectTableMetadata} `{MmapLaws}.
Context (Hio : forall path, Forall (fun t => t <> TransferError) (io_script (OS := OS) path)).
Local Abbreviation HS := (Host OS).
Local Abbreviation RS := (CircuitReopenPageStore (BoxStore C OS)).
Local Abbreviation Oram := (CircuitOram RS RS R).

Context (im : ImageSpec) (c : option C) (Hfits : image_fits im c).
Local Abbreviation o := (i_options im).
Local Abbreviation p := (i_params im).
Local Abbreviation paths := (i_paths im).
Local Abbreviation err := (session_error im).
Local Abbreviation LMi := (reopen_keyed_lawful (meta_key im c)).
Local Abbreviation LPi := (reopen_keyed_lawful (payload_key im c)).

Lemma open_serves_yields (E : Error -> Prop) (open : M HS Oram) n (h : HS) A : image_serves im c open n h A ->
  yields E open h (fun oram h' => holds im c n oram A /\ clear h' /\ files h' = files h).
Proof.
  intros [Hc Ho]. destruct (Ho h eq_refl (proj1 Hc)) as (oram & h2 & Eo & Hf & Hfl & Hh). eapply yields_eq; [exact Eo|].
  split; [done|]. split; [|done]. split; [done|]. rewrite Hf. apply Hc.
Qed.

Lemma holds_length n (oram : Oram) A : holds im c n oram A -> lenZ A = logical_blocks p /\ n <= u64_max.
Proof.
  intros ((T & Hi) & Hp & Hr). split; [rewrite <-Hp; by apply (oi_blocks _ _ _ Hi)|].
  destruct Hr as [_ Hr]. destruct (oi_schedule _ _ _ Hi). lia.
Qed.
Lemma holds_pending n (oram : Oram) A : holds im c n oram A -> exists k, pending_evictions (schedule oram) = Ok k.
Proof. intros ((T & Hi) & _ & _). eexists. apply pending_evictions_ok, Hi. Qed.

Lemma holds_batch k (oram : Oram) A ids budget : holds im c (lenZ ids + k) oram A -> 0 <= k ->
  Forall (fun id => 0 <= id < lenZ A) ids -> 0 <= budget ->
  (exists o1 o2 n, read_batch ids oram = (Ok (arr_get A <$> ids), o1) /\ drain_evictions budget o1 = (Ok n, o2) /\ holds im c k o2 A) \/
  (exists o1, read_batch ids oram = (Err (stash_full p), o1)).
Proof.
  intros (Hi & Hp & Hr) Hk Hids Hb.
  destruct (batch_cases (LM := LMi) (LP := LPi) k oram A ids budget) as [(o1 & o2 & n & E1 & E2 & [Hi2 Hr2] & Hp2 & _)|(_ & o1 & E1)];
    [by split|done..| |].
  - left. exists o1, o2, n. split; [done|]. split; [done|]. split; [done|]. split; [congruence|done].
  - right. exists o1. by rewrite <-Hp.
Qed.
Lemma holds_read k (oram : Oram) A id budget : holds im c (1 + k) oram A -> 0 <= k -> 0 <= id < lenZ A -> 0 <= budget ->
  (exists o1 o2 n, read id oram = (Ok (arr_get A id), o1) /\ drain_evictions budget o1 = (Ok n, o2) /\ holds im c k o2 A) \/
  (exists o1, read id oram = (Err (stash_full p), o1)).
Proof.
  intros (Hi & Hp & Hr) Hk Hid Hb.
  destruct (read_cases (LM := LMi) (LP := LPi) k oram A id budget) as [(o1 & o2 & n & E1 & E2 & [Hi2 Hr2] & Hp2 & _)|(_ & o1 & E1)];
    [by split|done..| |].
  - left. exists o1, o2, n. split; [done|]. split; [done|]. split; [done|]. split; [congruence|done].
  - right. exists o1. by rewrite <-Hp.
Qed.

(** Methods on what a command owns: the run fails with the method's error. *)
Lemma yields_run_fails {S X} (E : Error -> Prop) (m : M S X) s e s' (h : HS) Q : m s = (Err e, s') -> E e -> yields E (run_on m s) h Q.
Proof. intros Em HE. unfold yields, run_on, lift. by rewrite Em. Qed.

Lemma draws_yields (E : Error -> Prop) (m count : Z) (rng : R) (h : HS) : 0 < m -> 0 <= count ->
  yields E (run_on (draws m count) rng) h (fun drawn h' => h' = h /\ lenZ drawn.1 = count /\ Forall (fun id => 0 <= id < m) drawn.1).
Proof.
  intros Hm Hc.
  assert (forall l rng, exists ids rng', mapM (fun _ : Z => draw (R := R) m) l rng = (Ok ids, rng') /\ lenZ ids = lenZ l /\
    Forall (fun id => 0 <= id < m) ids) as Hd.
  { induction l as [|i l IH]; intros g; cbn [mapM]; [by exists [], g|].
    unfold draw at 1, bind at 1. destruct (next_u64 g) as [w g1]. rewrite (proj2 (Z.eqb_neq m 0)) by lia.
    destruct (IH g1) as (ids & g2 & E2 & Hl & Hr). rewrite (bind_eq _ _ _ _ _ E2). exists (w mod m :: ids), g2.
    split; [done|]. rewrite !lenZ_cons, Hl. split; [done|]. constructor; [by apply Z.mod_pos_bound|done]. }
  destruct (Hd (seqZ 0 count) rng) as (ids & rng' & Ed & Hl & Hr). eapply yields_run_on; [exact Ed|]. cbn. split; [done|].
  split; [|done]. rewrite Hl. unfold lenZ. rewrite length_seqZ. lia.
Qed.
Lemma draw_yields (E : Error -> Prop) (m : Z) (rng : R) (h : HS) : 0 < m ->
  yields E (run_on (draw m) rng) h (fun drawn h' => h' = h /\ 0 <= drawn.1 < m).
Proof.
  intros Hm. unfold yields, run_on, draw, lift. destruct (next_u64 rng) as [w rng1]. rewrite (proj2 (Z.eqb_neq m 0)) by lia.
  cbn. split; [done|]. by apply Z.mod_pos_bound.
Qed.

(** The file of a table, opened as its packed source *)
Lemma source_yields (E : Error -> Prop) (table : CuckooTableInfo) per b (h : HS) :
  clear h -> files h !! render (ct_path table) = Some b -> header_ok (ct_level table) (lenZ b) table -> described_bytes table <= u64_max ->
  0 < per -> bin_size table * per <= u64_max ->
  yields E (cuckoo_open table per) h (fun s h' => clear h' /\ files h' = files h /\
    cuckoo_source_ok s /\ cu_table s = table /\ cu_bins_per_block s = per /\ cu_mmap s = b).
Proof.
  intros Hc Hb Hh Hd Hper Hfit.
  destruct (cuckoo_open_ok (ct_level table) table b per h (proj1 Hc) Hb) as (s & h' & Es & Hs & Ht & Hp & Hm); [by apply (proj2 Hc _ _ Hb)|done..|].
  destruct (cuckoo_open_files _ _ _ _ _ Es (proj1 Hc)) as [Hf Hfl]. eapply yields_eq; [exact Es|].
  split; [split; [done|rewrite Hf; apply Hc]|]. by split_and!.
Qed.

Lemma full_error : err (stash_full p).
Proof. by left. Qed.
Lemma count_up i n : 0 <= i -> i < n -> n <= u64_max -> add64 i 1 = i + 1.
Proof. intros Hi Hn Hu. unfold u64_max in Hu. rewrite add64_small by (unfold u64_max; lia). done. Qed.

(** ** [verify-circuit-bins] *)

Lemma verify_bins_yields (s : CuckooPackedBlockReader) drain bins n rd rng (h : HS) :
  cuckoo_source_ok s -> bin_reader_ok s rd -> 0 <= drain -> 0 <= bins <= u64_max -> 0 <= n ->
  holds im c (bins + n) (cb_oram rd) (cuckoo_array s) ->
  yields err (foldM (verify_bin (cu_table s) s drain) (rd, rng, mkReport 0 0 0) (seqZ 0 bins)) h
    (fun acc h' => h' = h /\ holds im c n (cb_oram acc.1.1) (cuckoo_array s) /\ rp_verified acc.2 = bins).
Proof.
  intros Hs Hrd Hd Hbins Hn Hh. set (t := cu_table s).
  assert (0 < total_bins t) as Htb by (destruct Hs as [Ht _ _ _ _ _ _]; by destruct (table_sizes _ Ht) as (_ & _ & _ & ? & _)).
  eapply yields_mono; [apply (foldM_yields err _ (fun i (acc : CircuitCuckooBinReader RS RS R * R * BenchReport) h' =>
    h' = h /\ bin_reader_ok s acc.1.1 /\ holds im c (bins - i + n) (cb_oram acc.1.1) (cuckoo_array s) /\ rp_verified acc.2 = i))|].
  - intros i [[r g] rp] g' Hi (-> & Hr & Ho & Hv). cbn [fst snd] in *. unfold verify_bin.
    eapply yields_step; [by apply (draw_yields err)|]. intros [b g2] ? [-> Hb]. cbn [fst] in Hb.
    destruct (bin_block s b Hs Hb) as [Hblk Hlen].
    destruct (holds_read (bins - i - 1 + n) (cb_oram r) (cuckoo_array s) (b / cu_bins_per_block s) drain) as [(o1 & o2 & k & E1 & E2 & Ho2)|(o1 & E1)];
      [by replace (1 + (bins - i - 1 + n)) with (bins - i + n) by lia|lia|by rewrite Hlen|done| |].
    + destruct (read_bin_run s r b drain o1 o2 k Hs Hr Hb E1 E2) as (got & Eg & _ & Hpl).
      apply yields_bind. eapply yields_run_on; [exact Eg|]. cbn [fst snd]. apply yields_bind. eapply yields_lift; [by apply cuckoo_read_bin_ok|].
      apply yields_bind, guard_yields; [by apply bool_decide_eq_true_2|]. apply (yields_ret err). cbn [fst snd rp_verified].
      split; [done|]. split; [exact Hr|]. split; [by replace (bins - (i + 1) + n) with (bins - i - 1 + n) by lia|]. rewrite Hv. by apply (count_up i bins); lia.
    + apply yields_bind. eapply yields_run_fails; [by eapply read_bin_fails|apply full_error].
  - lia.
  - cbn [fst snd rp_verified]. rewrite Z.sub_0_r. done.
  - intros [[r g] rp] g' (-> & _ & Ho & Hv). by rewrite Z.sub_diag in Ho.
Qed.

(** ** [bench-circuit] *)

Definition verifier_fits (v : option CuckooPackedBlockReader) (A : list bytes) : Prop :=
  match v with Some s => cuckoo_source_ok s /\ A = cuckoo_array s | None => True end.
Definition checked (v : option CuckooPackedBlockReader) (n : Z) : Z := match v with Some _ => n | None => 0 end.

Lemma check_blocks_ok v A ids sum n total : verifier_fits v A -> Forall (fun id => 0 <= id < lenZ A) ids ->
  0 <= n -> n + lenZ ids <= total <= u64_max ->
  exists sum', ofold (check_block v) (sum, checked v n) (zip ids (arr_get A <$> ids)) = Ok (sum', checked v (n + lenZ ids)).
Proof.
  intros Hv Hids. revert sum n. induction Hids as [|id ids Hid _ IH]; intros sum n Hn Ht; cbn [fmap list_fmap zip zip_with ofold].
  { exists sum. by rewrite Z.add_0_r. }
  pose proof (lenZ_nonneg ids) as Hl. rewrite lenZ_cons in *.
  assert (check_block v (sum, checked v n) (id, arr_get A id) = Ok (checksum_payload sum (arr_get A id), checked v (n + 1))) as ->.
  { unfold check_block. destruct v as [s|]; [|done]. destruct Hv as [Hs ->]. assert (lenZ (cuckoo_array s) = cu_logical_blocks s) as Hlen.
    { unfold cuckoo_array. rewrite lenZ_fmap. unfold lenZ. rewrite length_seqZ. pose proof (lenZ_nonneg (cuckoo_array s)) as Hp.
      unfold cuckoo_array in Hid. rewrite lenZ_fmap in Hid. unfold lenZ in Hid. rewrite length_seqZ in Hid. lia. }
    rewrite Hlen in Hid. rewrite cuckoo_read_block_ok by done. unfold cuckoo_array. rewrite arr_get_map by done. cbn [obind].
    rewrite bool_decide_eq_true_2 by done. cbn [guardo obind checked]. by rewrite (count_up n total) by lia. }
  cbn [obind]. destruct (IH (checksum_payload sum (arr_get A id)) (n + 1)) as (sum' & E); [lia|lia|]. exists sum'. rewrite E. by rewrite <-Z.add_assoc.
Qed.

Lemma bench_batches_yields v drain ops batch_size n (oram : Oram) rng A (h : HS) :
  verifier_fits v A -> 0 <= drain -> 0 <= ops <= u64_max -> 0 < batch_size -> 0 <= n -> 0 < logical_blocks p -> holds im c (ops + n) oram A ->
  yields err (run_batches (bench_circuit_batch v drain) ops batch_size (oram, rng, mkReport 0 0 0)) h
    (fun acc h' => h' = h /\ holds im c n acc.1.1 A /\ rp_verified acc.2 = checked v ops).
Proof.
  intros Hv Hd Hops Hb Hn Hlb Ho. destruct (holds_length _ _ _ Ho) as [HA _].
  eapply yields_mono; [apply (batches_yields err _ (fun i (acc : Oram * R * BenchReport) h' =>
    h' = h /\ holds im c (ops - i + n) acc.1.1 A /\ rp_verified acc.2 = checked v i))|].
  - intros i len [[r g] rp] g' Hi Hlen Hle (-> & Hr & Hver). cbn [fst snd] in *. unfold bench_circuit_batch.
    pose proof Hr as (_ & -> & _). eapply yields_step; [by apply (draws_yields err); [|lia]|]. intros [ids g2] ? (-> & Hl & Hids). cbn [fst] in *.
    rewrite <-HA in Hids.
    destruct (holds_batch (ops - (i + len) + n) r A ids (mul64 drain len)) as [(o1 & o2 & k & E1 & E2 & Ho2)|(o1 & E1)];
      [by replace (lenZ ids + (ops - (i + len) + n)) with (ops - i + n) by lia|lia|done|by apply Z.mod_pos_bound| |].
    + apply yields_bind. eapply yields_run_on; [exact E1|]. rewrite Hver. cbn [fst snd].
      destruct (check_blocks_ok v A ids (rp_checksum rp) i ops Hv Hids) as (sum' & E); [lia|lia|].
      apply yields_bind. eapply yields_lift; [exact E|]. apply yields_bind. eapply yields_run_on; [exact E2|]. apply (yields_ret err). cbn [fst snd rp_verified].
      by rewrite Hl.
    + apply yields_bind. eapply yields_run_fails; [exact E1|apply full_error].
  - lia.
  - done.
  - cbn [fst snd rp_verified]. rewrite Z.sub_0_r. by destruct v.
  - intros [[r g] rp] g' (-> & Ho2 & Hver). by rewrite Z.sub_diag in Ho2.
Qed.

(** ** [bench-direct] *)

Lemma file_read_at_ok contents off len (h : HS) : clear h -> 0 <= off -> 0 <= len -> off + len <= lenZ contents ->
  file_read_at contents off len h = (Ok (take (Z.to_nat len) (drop (Z.to_nat off) contents)), h).
Proof.
  intros [Hf _] Ho Hl Hle. unfold file_read_at. rewrite (bind_eq _ _ _ _ _ (no_fault h Hf)), bind_guardm. cbn [negb].
  rewrite bool_decide_eq_true_2 by done.
  rewrite (bind_eq _ _ _ _ _ (no_fault h Hf)). rewrite (proj2 (Z.ltb_ge _ _)) by lia. unfold lift, slice.
  by rewrite (proj2 (Z.leb_le 0 off)), (proj2 (Z.leb_le 0 len)), (proj2 (Z.leb_le _ _)) by lia.
Qed.

Section Index.
Context (s : DirectIndexPackedBlockReader) (Hs : index_source_ok s).
Local Abbreviation md := (is_metadata s).
Context (Hinfo : from_info (is_info s) (dm_items_per_block md) = Ok md) (Hsome : 0 < dti_records (is_info s)).
Local Abbreviation fns := (dti_hash_fns (is_info s)).

(** A script hash of the file *)
Definition file_hash (sh : bytes) : Prop := hash_ok sh /\ exists r, r ∈ file_records s /\ record_hash r = sh.

Lemma file_hash_found sh d : file_hash sh -> lk_found (lookup_of s sh d) = true.
Proof.
  intros [[Hl Hb] (r & Hr & Er)]. pose proof (lookup_of_spec s sh d Hs Hinfo Hl Hb) as Hspec. cbv zeta in Hspec.
  destruct (lk_found _); [done|]. destruct Hspec as (_ & _ & Hno). by destruct (Hno r Hr).
Qed.

Lemma sum_lookups_ok shs sum : Forall file_hash shs -> exists sum', ofold sum_lookup sum ((fun sh => lookup_of s sh 0) <$> shs) = Ok sum'.
Proof.
  intros Hshs. revert sum. induction Hshs as [|sh shs Hsh _ IH]; intros sum; cbn [fmap list_fmap ofold]; [by exists sum|].
  unfold sum_lookup at 1. rewrite file_hash_found by done. cbn [guardo obind]. apply IH.
Qed.

Lemma random_hashes_yields (E : Error -> Prop) count rng (h : HS) : clear h -> 0 <= count ->
  yields E (read_random_direct_index_hashes (is_mmap s) (dm_source_records md) count rng) h
    (fun acc h' => h' = h /\ lenZ acc.1 = count /\ Forall file_hash acc.1).
Proof.
  intros Hc Hcount. assert (dm_source_records md = dti_records (is_info s)) as ->.
  { unfold from_info in Hinfo. destruct (dm_items_per_block md =? 0); [done|]. apply Ok_inj in Hinfo. set (f := dm_source_records). by rewrite <-Hinfo. }
  unfold read_random_direct_index_hashes. apply yields_bind, guard_yields; [by rewrite (proj2 (Z.eqb_neq _ _)) by lia|].
  apply (foldM_yields E _ (fun i (acc : list bytes * R) h' => h' = h /\ lenZ acc.1 = i /\ Forall file_hash acc.1)); [|done|done].
  intros i [hs g] h' Hi (-> & Hl & Hall). cbn [fst snd] in *. eapply yields_step; [by apply (draw_yields E)|].
  intros [r g2] ? [-> Hr]. cbn [fst snd] in *. destruct Hs as [_ _ _ _ _ [_ Hr32] Hfile _ _ _ _ _ _].
  change DIRECT_INDEX_INPUT_RECORD_SIZE with 25 in Hfile. unfold u32_max in Hr32.
  assert (mul64 r 25 = 25 * r) as Em by (rewrite mul64_small by (unfold u64_max; lia); lia).
  destruct (is_record s Hs r Hr) as (_ & Hlr & Hbr).
  apply yields_bind. eapply yields_eq.
  { unfold read_direct_index_record. change DIRECT_INDEX_INPUT_RECORD_SIZE with 25. rewrite Em. apply file_read_at_ok; [done|lia|lia|lia]. }
  cbn beta. change (take (Z.to_nat 25) (drop (Z.to_nat (25 * r)) (is_mmap s))) with (record_at (is_mmap s) r).
  apply yields_bind. eapply yields_lift; [exact (record_hash_slice _ Hlr)|]. apply (yields_ret E). cbn [fst snd]. split; [done|].
  split; [by rewrite lenZ_app, lenZ_cons, Hl|]. apply Forall_app. split; [done|]. constructor; [|done].
  assert (lenZ (record_hash (record_at (is_mmap s) r)) = DIRECT_SCRIPT_HASH_SIZE) as Hh.
  { unfold record_hash, lenZ in *. rewrite length_take. change DIRECT_SCRIPT_HASH_SIZE with 20. lia. }
  split; [split; [done|]|].
  - unfold record_hash. by apply Forall_take.
  - exists (record_at (is_mmap s) r). split; [|done]. apply elem_of_file_records. by exists r.
Qed.

Lemma index_batches_yields drain ops batch_size n (rd : CircuitDirectIndexReader RS RS R) rng (h : HS) : clear h ->
  ir_metadata rd = md -> 0 <= drain -> 0 <= ops <= u64_max -> 0 < batch_size -> 0 <= n ->
  holds im c (fns * ops + n) (ir_oram rd) (index_array s) ->
  yields err (run_batches (bench_index_batch (is_mmap s) drain) ops batch_size (rd, rng, mkReport 0 0 0)) h
    (fun acc h' => h' = h /\ holds im c n (ir_oram acc.1.1) (index_array s) /\ rp_verified acc.2 = ops).
Proof.
  intros Hc Hmd Hd Hops Hb Hn Ho. pose proof (ix_fns _ Hs) as Hfns.
  eapply yields_mono; [apply (batches_yields err _ (fun i (acc : CircuitDirectIndexReader RS RS R * R * BenchReport) h' =>
    h' = h /\ ir_metadata acc.1.1 = md /\ holds im c (fns * (ops - i) + n) (ir_oram acc.1.1) (index_array s) /\ rp_verified acc.2 = i))|].
  - intros i len [[r g] rp] g' Hi Hlen Hle (-> & Hm & Hr & Hver). cbn [fst snd] in *. unfold bench_index_batch. rewrite Hm.
    eapply yields_step; [by apply (random_hashes_yields err); [|lia]|]. intros [shs g2] ? (-> & Hl & Hshs). cbn [fst] in *.
    assert (Forall hash_ok shs) as Hok by (eapply Forall_impl; [exact Hshs|]; by intros ? [? _]).
    pose proof (flat_length s Hs Hinfo shs Hok) as Hfl.
    destruct (holds_batch (fns * (ops - (i + len)) + n) (ir_oram r) (index_array s) (shs ≫= hash_ids s) (mul64 drain (fns * lenZ shs)))
      as [(o1 & o2 & k & E1 & E2 & Ho2)|(o1 & E1)].
    + rewrite Hfl, Hl. by replace (fns * len + (fns * (ops - (i + len)) + n)) with (fns * (ops - i) + n) by lia.
    + nia.
    + by apply (flat_range s Hs Hinfo).
    + by apply Z.mod_pos_bound.
    + apply yields_bind. eapply yields_run_on; [by eapply (lookup_many_run s Hs Hinfo)|]. cbn [fst snd bl_lookups bl_drained_evictions].
      destruct (sum_lookups_ok shs (rp_checksum rp) Hshs) as [sum' E]. apply yields_bind. eapply yields_lift; [exact E|]. apply (yields_ret err).
      cbn [fst snd rp_verified]. split; [done|]. split; [exact Hm|]. split; [exact Ho2|]. rewrite lenZ_fmap, Hl, Hver. apply add64_small. lia.
    + apply yields_bind. eapply yields_run_fails; [by eapply (lookup_many_fails s Hs Hinfo)|apply full_error].
  - lia.
  - done.
  - cbn [fst snd rp_verified]. by rewrite Z.sub_0_r.
  - intros [[r g] rp] g' (-> & _ & Ho2 & Hver). by rewrite Z.sub_diag, Z.mul_0_r in Ho2.
Qed.

End Index.

Section Chunk.
Context (s : DirectChunkPackedBlockReader) (Hs : chunk_source_ok s).
Local Abbreviation md := (cs_metadata s).
Context (Hsome : 0 < dm_total_items md).

Lemma sum_chunks_yields (E : Error -> Prop) ids sum (h : HS) : clear h -> Forall (fun id => 0 <= id < dm_total_items md) ids ->
  yields E (foldM (sum_chunk (cs_mmap s)) sum ((fun id => chunk_read_of s id 0) <$> ids)) h (fun _ h' => h' = h).
Proof.
  intros Hc Hids. revert sum. induction Hids as [|id ids Hid _ IH]; intros sum; cbn [fmap list_fmap foldM]; [by apply (yields_ret E)|].
  pose proof Hs as [_ _ _ Hf _ _ _ _ Hlen]. change DIRECT_CHUNK_RECORD_SIZE with 40 in Hf.
  assert (sum_chunk (cs_mmap s) sum (chunk_read_of s id 0) h = (Ok (checksum_payload sum (chunk_item s id)), h)) as E1.
  { unfold sum_chunk, read_direct_chunk_record. change DIRECT_CHUNK_RECORD_SIZE with 40. cbn [chunk_read_of cr_chunk_id cr_payload].
    rewrite mul64_small by lia. rewrite (bind_eq _ _ _ _ _ (file_read_at_ok (cs_mmap s) (id * 40) 40 h Hc ltac:(lia) ltac:(lia) ltac:(lia))).
    rewrite bind_guardm, bool_decide_eq_true_2 by done. done. }
  apply yields_bind. eapply yields_eq; [exact E1|]. apply IH.
Qed.

Lemma chunk_batches_yields drain ops batch_size n (rd : CircuitDirectChunkReader RS RS R) rng (h : HS) : clear h ->
  ch_metadata rd = md -> 0 <= drain -> 0 <= ops <= u64_max -> 0 < batch_size -> 0 <= n ->
  holds im c (ops + n) (ch_oram rd) (chunk_array s) ->
  yields err (run_batches (bench_chunk_batch (cs_mmap s) drain) ops batch_size (rd, rng, mkReport 0 0 0)) h
    (fun acc h' => h' = h /\ holds im c n (ch_oram acc.1.1) (chunk_array s) /\ rp_verified acc.2 = ops).
Proof.
  intros Hc Hmd Hd Hops Hb Hn Ho.
  eapply yields_mono; [apply (batches_yields err _ (fun i (acc : CircuitDirectChunkReader RS RS R * R * BenchReport) h' =>
    h' = h /\ ch_metadata acc.1.1 = md /\ holds im c (ops - i + n) (ch_oram acc.1.1) (chunk_array s) /\ rp_verified acc.2 = i))|].
  - intros i len [[r g] rp] g' Hi Hlen Hle (-> & Hm & Hr & Hver). cbn [fst snd] in *. unfold bench_chunk_batch. rewrite Hm.
    eapply yields_step; [by apply (draws_yields err); [|lia]|]. intros [ids g2] ? (-> & Hl & Hids). cbn [fst] in *.
    destruct (holds_batch (ops - (i + len) + n) (ch_oram r) (chunk_array s) (chunk_blocks s ids) (mul64 drain (lenZ ids)))
      as [(o1 & o2 & k & E1 & E2 & Ho2)|(o1 & E1)].
    + unfold chunk_blocks. rewrite lenZ_fmap, Hl. by replace (len + (ops - (i + len) + n)) with (ops - i + n) by lia.
    + lia.
    + by apply chunk_blocks_range.
    + by apply Z.mod_pos_bound.
    + apply yields_bind. eapply yields_run_on; [by eapply (read_chunks_run s Hs)|]. cbn [fst snd cb_reads cb_drained_evictions].
      eapply yields_step; [by apply (sum_chunks_yields err)|]. cbn beta. intros sum' ? ->. apply (yields_ret err).
      cbn [fst snd rp_verified]. split; [done|]. split; [exact Hm|]. split; [exact Ho2|]. rewrite lenZ_fmap, Hl, Hver. apply add64_small. lia.
    + apply yields_bind. eapply yields_run_fails; [by eapply (read_chunks_fails s Hs)|apply full_error].
  - lia.
  - done.
  - cbn [fst snd rp_verified]. by rewrite Z.sub_0_r.
  - intros [[r g] rp] g' (-> & _ & Ho2 & Hver). by rewrite Z.sub_diag in Ho2.
Qed.

End Chunk.

(** ** Closing *)

Lemma finish_yields n (oram : Oram) A (report : BenchReport) (h : HS) : NoDup (path_names paths) -> holds im c n oram A -> clear h ->
  yields err (let* _ := finish_bench_table (C := C) paths (opt_auth_store o) (opt_state_key_hex o) false oram in ret report) h
    (fun r h' => r = report /\ touches (session_names paths) h h' /\ closed im c n h' A).
Proof.
  intros Hnames Ho Hc. eapply yields_step; [apply (finish_closes im c Hfits Hnames err n); [by right|exact Ho|exact Hc]|].
  cbn beta. intros _ h' [Ht Hcl]. by apply (yields_ret err).
Qed.

End Confirm.

(** ** The commands *)

Section Commands.
Context {C OS R : Type} `{CipherLaws C} `{OsRandom OS} `{HostIo OS} `{Hex} `{HashLaws} `{SL : SubtleLaws} `{Rng R}.
Context `{BincodeLaws (CircuitOramState R)} `{BincodeLaws (LegacyCircuitOramState R)}.
Context `{BincodeLaws CircuitStoreAuthState} `{BincodeLaws LegacyCircuitStoreAuthState} `{BincodeLaws DirectTableMetadata} `{MmapLaws}.
Context (Hio : forall path, Forall (fun t => t <> TransferError) (io_script (OS := OS) path)).
Local Abbreviation HS := (Host OS).

(** A property of a host that only its files [own] bear on *)
Definition framed (own : list string) (P : HS -> Prop) : Prop :=
  forall ks h h', touches ks h h' -> (forall q, q ∈ own -> q ∉ ks) -> P h -> P h'.

(** A loop over levels whose steps write the files of their level alone *)
Lemma levels_yield {L X} (E : Error -> Prop) (step : L -> M HS X) (names : L -> list string) (own : list string) (I : HS -> Prop)
    (Pre : L -> HS -> Prop) (Post : L -> X -> HS -> Prop) levels :
  (forall l l' q, l <> l' -> q ∈ names l -> q ∉ names l') -> framed own I -> (forall l q, l ∈ levels -> q ∈ own -> q ∉ names l) ->
  (forall l, framed (names l) (Pre l)) -> (forall l x, framed (names l) (Post l x)) ->
  (forall l h, l ∈ levels -> clear h -> I h -> Pre l h -> yields E (step l) h (fun x h' => touches (names l) h h' /\ Post l x h')) ->
  NoDup levels -> forall h, clear h -> I h -> (forall l, l ∈ levels -> Pre l h) ->
  yields E (mapM step levels) h (fun xs h' => touches (levels ≫= names) h h' /\ Forall2 (fun l x => Post l x h') levels xs).
Proof.
  intros Hap HI Hown HPre HPost Hstep. induction levels as [|l levels IH]; intros Hnd h Hc Hi Hl.
  { apply (yields_ret E). split; [by apply touches_refl|constructor]. }
  apply NoDup_cons in Hnd as [Hni Hnd]. assert (forall l', l' ∈ levels -> l' <> l) as Hne by (by intros l' Hin ->).
  cbn [mapM]. eapply yields_step; [apply Hstep; [by left|done|done|apply Hl; by left]|]. cbn beta. intros x h1 [Ht1 Hx].
  eapply yields_step; [apply IH; [intros l' q Hin; apply Hown; by right|intros l' h' Hin; apply Hstep; by right|done|by eapply touches_clear|..]|].
  - eapply HI; [exact Ht1| |done]. intros q Hq. apply Hown; [by left|done].
  - intros l' Hin. eapply HPre; [exact Ht1| |apply Hl; by right]. intros q. by apply Hap, Hne.
  - cbn beta. intros xs h2 [Ht2 Hxs]. apply (yields_ret E). rewrite bind_cons. split.
    + eapply touches_trans; eapply touches_weaken; [|exact Ht1| |exact Ht2]; intros q Hq; apply elem_of_app; auto.
    + constructor; [|done]. eapply HPost; [exact Ht2| |exact Hx]. intros q Hq (l' & Hq' & Hin)%list_elem_of_bind.
      by apply (Hap l l' q); [intros ->|..].
Qed.
Lemma Forall2_each {A B} (P : A -> B -> Prop) l k : Forall2 P l k -> forall x, x ∈ l -> exists y, P x y.
Proof. intros Hf x Hx. destruct (list_elem_of_lookup_1 _ _ Hx) as [i Hi]. destruct (Forall2_lookup_l _ _ _ _ _ Hf Hi) as (y & _ & Hy). by exists y. Qed.
Lemma iterM_mapM {S A} (f : A -> M S unit) l s : iterM f l s = (let* _ := mapM f l in ret tt) s.
Proof.
  revert s. induction l as [|x l IH]; intros s; [done|]. cbn [iterM mapM]. unfold bind in *. destruct (f x s) as [[u| | |] s']; [|done..].
  rewrite IH. by destruct (mapM f l s') as [[us| | |] s''].
Qed.

Lemma yields_iterM {S A} (E : Error -> Prop) (f : A -> M S unit) l s Q :
  yields E (mapM f l) s (fun _ s' => Q tt s') -> yields E (iterM f l) s Q.
Proof. unfold yields. rewrite iterM_mapM. unfold bind. by destruct (mapM f l s) as [[us| | |] s']. Qed.

(** A cuckoo table beside an image of its packed bins *)
Record table_beside (dir : string) (table : CuckooTableInfo) (o : ImageOptions) (p : OramParams) (b : bytes) (h : HS) : Prop := {
  tb_file_at : files h !! render (ct_path table) = Some b;
  tb_apart : render (ct_path table) ∉ path_names (circuit_output_paths dir (ct_level table));
  tb_header : header_ok (ct_level table) (lenZ b) table;
  tb_described : described_bytes table <= u64_max;
  tb_pack : 0 < opt_pack o;
  tb_bin : bin_size table * opt_pack o <= u64_max;
  tb_blocks : logical_blocks p = div_ceil (total_bins table) (opt_pack o);
  tb_size : block_size p = mul64 (bin_size table) (opt_pack o)
}.
Definition table_array (table : CuckooTableInfo) (o : ImageOptions) (p : OramParams) (b : bytes) : list bytes :=
  packed (item_in b (ct_data_offset table) (bin_size table)) (total_bins table) (opt_pack o) (bin_size table) <$> seqZ 0 (logical_blocks p).

Lemma table_beside_touched dir table o p b (h h' : HS) ks : ks ⊆ path_names (circuit_output_paths dir (ct_level table)) ->
  touches ks h h' -> table_beside dir table o p b h -> table_beside dir table o p b h'.
Proof.
  intros Hk Ht [? Ha ? ? ? ? ? ?]. split; try done. rewrite (touches_lookup _ _ _ _ Ht); [done|]. intros Hin. by apply Ha, Hk.
Qed.

Lemma session_names_sub ps : session_names ps ⊆ path_names ps.
Proof. names_sub. Qed.

Lemma beside_blocks dir table o p b (h : HS) : table_beside dir table o p b h -> 0 < total_bins table /\ 0 < logical_blocks p.
Proof.
  intros [_ _ Hh Hd Hpk _ Hlb _]. destruct (table_sizes table (header_table_ok _ _ _ Hh Hd)) as (_ & _ & _ & Htb & _).
  split; [done|]. pose proof (item_block (total_bins table) (opt_pack o) Hpk 0 ltac:(lia)) as Hi. rewrite Hlb. lia.
Qed.
(** The source opened beside the image serves its blocks. *)
Lemma beside_source (s : CuckooPackedBlockReader) dir table o p b (h : HS) : table_beside dir table o p b h ->
  cuckoo_source_ok s -> cu_table s = table -> cu_bins_per_block s = opt_pack o -> cu_mmap s = b ->
  cuckoo_array s = table_array table o p b /\ cu_logical_blocks s = logical_blocks p /\ cu_block_payload_bytes s = block_size p /\
  0 < total_bins table /\ 0 < logical_blocks p.
Proof.
  intros Hbs Hs Ht Hp Hm. destruct (beside_blocks _ _ _ _ _ _ Hbs) as [Htb Hlb0]. destruct Hbs as [_ _ Hh Hd Hpk Hbin Hlb Hsz].
  destruct (table_sizes table (header_table_ok _ _ _ Hh Hd)) as (_ & Hb0 & _).
  assert (cu_logical_blocks s = logical_blocks p) as Hl by (rewrite (cu_blocks s Hs), Ht, Hp; by rewrite Hlb).
  split; [|split; [done|split; [rewrite (cu_payload s Hs), Ht, Hp, Hsz, mul64_small by nia; lia|split; [done|]]]].
  - unfold cuckoo_array, table_array, cuckoo_content, file_bin. by rewrite Hl, Ht, Hp, Hm.
  - done.
Qed.

Lemma verify_table_yields dir table o p c b bins drain seed n (h : HS) :
  let im := circuit_image dir (ct_level table) o p in
  image_fits im c -> table_beside dir table o p b h -> 0 <= bins -> 0 <= n -> 0 <= drain ->
  image_serves im c (open_circuit_image (R := R) dir (ct_level table) o) (bins + n) h (table_array table o p b) ->
  yields (session_error im) (verify_circuit_bin_table (C := C) (R := R) dir table o bins drain seed false) h (fun report h' =>
    rp_verified report = bins /\ touches (session_names (i_paths im)) h h' /\
    closed (R := R) im c n h' (table_array table o p b)).
Proof.
  intros im Hfits Hb Hbins Hn Hd Hserves. unfold verify_circuit_bin_table.
  eapply yields_step; [exact (open_serves_yields im c (session_error im) _ _ h _ Hserves)|]. cbn beta. intros oram h1 (Ho & Hc1 & Hf1).
  pose proof Hb as [Hfile _ Hh Hdesc Hpk Hbin Hlb Hsz].
  assert (bin_reader_new table (opt_pack o) oram = Ok (mkBinReader (ct_level table) (total_bins table) (opt_pack o) (bin_size table) oram)) as Er.
  { unfold bin_reader_new. rewrite (proj2 (Z.eqb_neq _ _)) by lia. destruct Ho as (_ & -> & _). change (i_params im) with p.
    by rewrite Hlb, Hsz, !Z.eqb_refl. }
  apply yields_bind. eapply yields_lift; [exact Er|].
  eapply yields_step; [by apply (source_yields (session_error im) table (opt_pack o) b h1); rewrite ?Hf1|].
  cbn beta. intros s h2 (Hc2 & Hf2 & Hs & Ht & Hp & Hm).
  destruct (beside_source s dir table o p b h Hb Hs Ht Hp Hm) as (HA & _).
  destruct (holds_pending im c _ _ _ Ho) as [k Ek]. apply yields_bind. eapply yields_lift; [exact Ek|]. rewrite <-HA in *.
  destruct (holds_length im c _ _ _ Ho) as [_ Hu].
  eapply yields_step.
  { rewrite <-Ht at 1. apply (verify_bins_yields im c s drain bins n); [done| |done|lia|done|exact Ho].
    by rewrite <-Ht, <-Hp. }
  cbn beta. intros [[rd g] report] ? (-> & Ho' & Hv). cbn [fst snd] in *.
  eapply yields_mono; [exact (finish_yields im c Hfits n (cb_oram rd) _ report h2 (output_paths_apart dir (cuckoo_label (ct_level table))) Ho' Hc2)|].
  intros r h' (-> & Ht' & Hs'). split; [exact Hv|]. split; [|exact Hs'].
  eapply touches_trans; [|exact Ht']. apply touches_same; [done|congruence].
Qed.

Lemma bench_table_yields dir level with_table table o p c b ops batch_size drain seed n A (h : HS) :
  let im := circuit_image dir level o p in
  image_fits im c -> (with_table = true -> ct_level table = level /\ table_beside dir table o p b h /\ A = table_array table o p b) ->
  0 <= ops -> 0 <= n -> 0 <= drain -> 0 < batch_size -> 0 < logical_blocks p ->
  image_serves im c (open_circuit_image (R := R) dir level o) (ops + n) h A ->
  yields (session_error im)
    (bench_circuit_table (C := C) (R := R) dir level (if with_table then Some table else None) o ops batch_size drain seed false) h (fun report h' =>
    rp_verified report = (if with_table then ops else 0) /\ touches (session_names (i_paths im)) h h' /\
    closed (R := R) im c n h' A).
Proof.
  intros im Hfits Hb Hops Hn Hd Hbs Hlb Hserves. unfold bench_circuit_table.
  eapply yields_step; [exact (open_serves_yields im c (session_error im) _ _ h _ Hserves)|]. cbn beta. intros oram h1 (Ho & Hc1 & Hf1).
  assert (yields (session_error im) (open_verifier (if with_table then Some table else None) (opt_pack o) (co_params oram)) h1
    (fun v h2 => clear h2 /\ files h2 = files h1 /\ verifier_fits v A /\ checked v ops = (if with_table then ops else 0))) as Hv.
  { destruct with_table; [|by apply (yields_ret (session_error im))]. destruct Hb as (<- & Hb & ->); [done|].
    pose proof Hb as [Hfile _ Hh Hdesc Hpk Hbin Hlbk Hsz]. unfold open_verifier.
    eapply yields_step; [by apply (source_yields (session_error im) table (opt_pack o) b h1); rewrite ?Hf1|].
    cbn beta. intros s h2 (Hc2 & Hf2 & Hs & Ht & Hp & Hm). destruct (beside_source s dir table o p b h Hb Hs Ht Hp Hm) as (HA & Hls & Hps & _).
    destruct Ho as (_ & Hop & _). apply yields_bind, guard_yields; [by rewrite Hop, Hls, Hps, !Z.eqb_refl|].
    apply (yields_ret (session_error im)). by split_and!. }
  eapply yields_step; [exact Hv|]. cbn beta. intros v h2 (Hc2 & Hf2 & Hvf & Hck).
  destruct (holds_pending im c _ _ _ Ho) as [k Ek]. apply yields_bind. eapply yields_lift; [exact Ek|].
  destruct (holds_length im c _ _ _ Ho) as [_ Hu].
  eapply yields_step; [apply (bench_batches_yields im c v drain ops batch_size n oram _ A h2 Hvf); (lia || done)|].
  cbn beta. intros [[oram2 g] report] ? (-> & Ho' & Hver). cbn [fst snd] in *.
  eapply yields_mono; [exact (finish_yields im c Hfits n oram2 A report h2 (output_paths_apart dir (cuckoo_label level)) Ho' Hc2)|].
  intros r h' (-> & Ht' & Hs'). split; [by rewrite Hver|]. split; [|exact Hs'].
  eapply touches_trans; [|exact Ht']. apply touches_same; [done|congruence].
Qed.

(** A cuckoo table file that [from_file] accepts, built into an image by
    [build_circuit_table]: [bench_circuit_table] with the table, for any number of
    operations in batches, and then [verify_circuit_bin_table], for any number of bins,
    compare what they read with the file and confirm every block and every bin they
    draw; the image still serves the table after them.  The only errors are a full
    stash and a state that cannot be serialized or sealed. *)
Theorem circuit_commands_confirm dir level path (table : CuckooTableInfo) (o : ImageOptions) est p c seed b
    ops batch_size d1 s1 bins d2 s2 n (h0 h : HS) :
  let im := circuit_image dir level o p in
  clear h0 -> files h0 !! render path = Some b -> from_file level path h0 = (Ok table, h) -> render path ∉ path_names (i_paths im) ->
  described_bytes table <= u64_max -> 0 < opt_pack o -> bin_size table * opt_pack o <= u64_max ->
  cuckoo_estimate (image_sizing o) table = Ok est -> image_params o (ce_sizes est) = Ok p -> image_fits im c -> build_fits im ->
  0 <= ops -> 0 < batch_size -> 0 <= d1 -> 0 <= bins -> 0 <= d2 -> 0 <= n -> can_record (ops + (bins + n)) (schedule_new p) ->
  yields (build_error im)
    (let* _ := build_circuit_table (C := C) (R := R) dir table o seed in
     let* benched := bench_circuit_table (C := C) (R := R) dir level (Some table) o ops batch_size d1 s1 false in
     let* confirmed := verify_circuit_bin_table (C := C) (R := R) dir table o bins d2 s2 false in
     ret (benched, confirmed)) h
    (fun reports h' => rp_verified reports.1 = ops /\ rp_verified reports.2 = bins /\
       image_serves im c (open_circuit_image (R := R) dir level o) n h' (table_array table o p b)).
Proof.
  intros im [Hf0 Hb0] Hfile Hfrom Hapart Hdesc Hpack Hbin Hest Hpar Hfits Hbuild Hops Hbs Hd1 Hbins Hd2 Hn Hrec.
  destruct (from_file_inv level path h0 h table b Hfile (Hb0 _ _ Hfile) Hfrom) as (Hhd & <- & Hf1 & Hfl1).
  pose proof (hd_level _ _ _ Hhd) as El. subst level.
  assert (clear h) as Hh by (split; [by apply Hfl1|by rewrite Hf1]). rewrite <-Hf1 in Hfile.
  destruct (image_params_sizes o table est p Hest Hpar) as [Hlb Hbsz].
  assert (table_beside dir table o p b h) as Hb by by split.
  eapply yields_step; [exact (circuit_built Hio dir table o est p c seed b _ h Hest Hpar Hfits Hbuild Hhd Hdesc Hpack Hbin Hfile Hapart Hrec Hh)|].
  cbn beta. intros _ h1 [Hs1%(closed_serves _ _ Hio Hfits) Ht1]. pose proof (table_beside_touched _ _ _ _ _ _ _ _ ltac:(done) Ht1 Hb) as Hb1.
  pose proof (proj2 (beside_blocks _ _ _ _ _ _ Hb)) as Hlbp.
  eapply yields_step.
  { exact (bench_table_yields dir (ct_level table) true table o p c b ops batch_size d1 s1 (bins + n) _ h1 Hfits
      (fun _ => conj eq_refl (conj Hb1 eq_refl)) Hops ltac:(lia) Hd1 Hbs Hlbp Hs1). }
  cbn beta. intros r1 h2 (Hv1 & Ht2 & Hs2%(closed_serves _ _ Hio Hfits)). pose proof (table_beside_touched _ _ _ _ _ _ _ _ (session_names_sub _) Ht2 Hb1) as Hb2.
  eapply yields_step; [exact (verify_table_yields dir table o p c b bins d2 s2 n h2 Hfits Hb2 Hbins Hn Hd2 Hs2)|].
  cbn beta. intros r2 h3 (Hv2 & _ & Hs3%(closed_serves _ _ Hio Hfits)). by apply (yields_ret (build_error im)).
Qed.

End Commands.

(** ** The packed cuckoo table of [ImageSpec] *)

#[local] Existing Instance bool_subtle.
#[local] Existing Instance bool_subtle_laws.
#[local] Existing Instance plain_mmap.
#[local] Existing Instance plain_mmap_laws.

Lemma circuit_commands_confirm_witness :
  yields (build_error demo_cuckoo_image)
    (let* _ := build_circuit_table (C := bytes) (R := Z) "out" demo_table embedded_options [5] in
     let* benched := bench_circuit_table (C := bytes) (R := Z) "out" Index (Some demo_table) embedded_options 5 2 1 [6] false in
     let* confirmed := verify_circuit_bin_table (C := bytes) (R := Z) "out" demo_table embedded_options 4 2 [7] false in
     ret (benched, confirmed)) demo_cuckoo_host
    (fun reports h => rp_verified reports.1 = 5 /\ rp_verified reports.2 = 4 /\
       image_serves demo_cuckoo_image None (open_circuit_image (C := bytes) (R := Z) "out" Index embedded_options) 80 h
         [replicate 13 1 ++ replicate 13 2; replicate 13 3 ++ replicate 13 4]).
Proof.
  destruct demo_estimates as (est & Ee & Ep).
  refine (circuit_commands_confirm (C := bytes) (OS := Z) (R := Z) whole_io_ok "out" Index demo_table_path demo_table embedded_options est
    demo_cuckoo_params None [5] demo_table_file 5 2 1 [6] 4 2 [7] 80 demo_cuckoo_host demo_cuckoo_host demo_cuckoo_clear eq_refl
    (proj1 demo_table_parses) _ _ _ _ Ee Ep (proj1 demo_cuckoo_fits) (proj2 demo_cuckoo_fits) _ _ _ _ _ _ _).
  - apply (bool_decide_eq_false_1 _). vm_compute. reflexivity.
  - vm_compute; discriminate.
  - reflexivity.
  - vm_compute; discriminate.
  - discriminate.
  - reflexivity.
  - discriminate.
  - discriminate.
  - discriminate.
  - discriminate.
  - split; vm_compute; discriminate.
Defined.
