(* ===== verification/BenchDirect.v ===== *)
(** * The commands on direct tables

    [build-direct] followed by [bench-direct] on the file the image was built from: every
    script hash of the file is found, every chunk is the file's. *)

From S2P Require Import Prelude Ct Block Params Store Schedule Stash Rng State Circuit Blocks CircuitInv CircuitSpec OramReads Aead Hash SealedState FileStore Evidence.
From S2P Require Import CandidateBins Direct Packed IndexTable IndexProofs DirectReader DirectLookup DirectSpec.
From S2P Require Import Fixint SealedSpec EvidenceSpec Build BuildProofs Float64 Sizing Disk ReopenStore ReopenKeys ImageFiles ImageOps ImageOpen ImageRest ImageSession ImageBuild ImageSpec Bench BenchSpec.

(** ** Reading files leaves the host *)

Section Files.
Context {OS : Type} `{MmapLaws}.
Local Abbreviation HS := (Host OS).

Lemma open_mmap_files path (h h' : HS) b : open_mmap path h = (Ok b, h') -> faults h = [] -> files h' = files h /\ faults h' = [].
Proof.
  destruct h as [fs fl o]. cbn. intros Eo ->. unfold open_mmap, fs_read, next_fault, gets, bind, lift in Eo. cbn in Eo.
  destruct (fs !! _); [|done]. cbn in Eo. destruct (mmap _); [|done]. cbn in Eo. by injection Eo as _ <-.
Qed.
Lemma index_build_files info per (h h' : HS) s : index_build info per h = (Ok s, h') -> faults h = [] -> files h' = files h /\ faults h' = [].
Proof.
  unfold index_build. rewrite bind_guardm. destruct (bool_decide _); [|done]. intros E Hf.
  destruct (open_mmap (dti_path info) h) as [[b|e| |] h1] eqn:Eo; [rewrite (bind_eq _ _ _ _ _ Eo) in E|by unfold bind in E; rewrite Eo in E..].
  rewrite bind_lift in E. destruct (build_direct_index_placement info b); [|done..]. rewrite bind_lift in E. destruct (from_info info per); [|done..].
  injection E as _ <-. by eapply open_mmap_files.
Qed.

Lemma fs_len_ok path (h : HS) b : faults h = [] -> files h !! render path = Some b -> Direct.fs_len path h = (Ok (lenZ b), h).
Proof. intros Hf Hb. unfold Direct.fs_len. rewrite (bind_eq _ _ _ _ _ (no_fault h Hf)), bind_gets. by rewrite Hb. Qed.

(** A CHUNK file as its packed source *)
Lemma from_chunks_file_ok path (h h1 : HS) info b : faults h = [] -> files h !! render path = Some b ->
  from_chunks_file path h = (Ok info, h1) ->
  dti_level info = DirectChunk /\ dti_path info = path /\ dti_file_bytes info = lenZ b /\ lenZ b = dti_total_items info * DIRECT_CHUNK_RECORD_SIZE /\
  dti_item_size info = DIRECT_CHUNK_RECORD_SIZE /\ files h1 = files h /\ faults h1 = [].
Proof.
  intros Hf Hb. unfold from_chunks_file. rewrite (bind_eq _ _ _ _ _ (fs_len_ok path h b Hf Hb)), bind_guardm. destruct (lenZ b mod _ =? 0) eqn:E3; [|done]. intros [= <- <-]. cbn. zbool.
  split_and!; try done. apply Z.div_exact in E3; [lia|done].
Qed.

Lemma chunk_open_ok info b per (h : HS) : faults h = [] -> files h !! render (dti_path info) = Some b -> 0 < lenZ b <= u64_max -> bytes_ok b ->
  dti_level info = DirectChunk -> lenZ b = dti_total_items info * DIRECT_CHUNK_RECORD_SIZE -> dti_item_size info = DIRECT_CHUNK_RECORD_SIZE ->
  0 < per -> DIRECT_CHUNK_RECORD_SIZE * per <= u64_max ->
  exists s h', chunk_open info per h = (Ok s, h') /\ files h' = files h /\ faults h' = [] /\ chunk_source_ok s /\ cs_mmap s = b /\
    from_info info per = Ok (cs_metadata s) /\ dm_items_per_block (cs_metadata s) = per.
Proof.
  intros Hf Hb Hl Hby Hlev Hrec Hsz Hper Hfit. unfold chunk_open. rewrite bind_guardm, bool_decide_eq_true_2 by done.
  destruct (open_mmap_ok _ h b Hf Hb) as (h' & E); [lia|]. destruct (open_mmap_files _ _ _ _ E Hf) as [Hf' Hfl'].
  rewrite (bind_eq _ _ _ _ _ E), bind_lift. unfold from_info. rewrite (proj2 (Z.eqb_neq per 0)) by lia.
  eexists _, h'. split; [reflexivity|]. split; [done|]. split; [done|]. change DIRECT_CHUNK_RECORD_SIZE with 40 in *.
  split; [|done]. split; cbn; try done; try lia. by rewrite Hsz, mul64_small by lia.
Qed.

(** Metadata made from the file information is valid. *)
Lemma from_info_valid info per md : from_info info per = Ok md -> dti_item_size info <> 0 ->
  (dti_level info = DirectIndex -> dti_item_size info = mul64 (dti_slots_per_bin info) DIRECT_INDEX_SLOT_SIZE /\
     dti_slots_per_bin info <> 0 /\ dti_hash_fns info <> 0) ->
  (dti_level info = DirectChunk -> dti_item_size info = DIRECT_CHUNK_RECORD_SIZE) -> direct_validate md = Ok tt.
Proof.
  intros Hi Hsz Hix Hck. unfold from_info in Hi. destruct (per =? 0) eqn:Ep; [done|]. apply Ok_inj in Hi as <-. unfold direct_validate.
  cbn [dm_version dm_items_per_block dm_item_size dm_logical_blocks dm_total_items dm_block_payload_bytes dm_level dm_slots_per_bin dm_hash_fns].
  rewrite !Z.eqb_refl, Ep, (proj2 (Z.eqb_neq _ 0) Hsz). cbn [negb guardo obind]. destruct (dti_level info).
  - destruct (Hix eq_refl) as (Hs & H1 & H2). apply Z.eqb_neq in H1, H2. by rewrite Hs, Z.eqb_refl, H1, H2.
  - by rewrite (Hck eq_refl), Z.eqb_refl.
Qed.

End Files.

(** ** [bench-direct] on an image of the table *)

Section Commands.
Context {C OS R : Type} `{CipherLaws C} `{OsRandom OS} `{HostIo OS} `{Hex} `{HashLaws} `{SL : SubtleLaws} `{Rng R}.
Context `{BincodeLaws (CircuitOramState R)} `{BincodeLaws (LegacyCircuitOramState R)}.
Context `{BincodeLaws CircuitStoreAuthState} `{BincodeLaws LegacyCircuitStoreAuthState} `{BincodeLaws DirectTableMetadata} `{MmapLaws}.
Context (Hio : forall path, Forall (fun t => t <> TransferError) (io_script (OS := OS) path)).
Local Abbreviation HS := (Host OS).
Local Abbreviation RS := (CircuitReopenPageStore (BoxStore C OS)).
Local Abbreviation Oram := (CircuitOram RS RS R).

(** The metadata and the source file beside an image *)
Record source_beside (dir : string) (level : DirectLevel) (source_file : FilePath) (md : DirectTableMetadata) (p : OramParams) (b : bytes) (h : HS) : Prop := {
  sb_metadata : metadata_saved (direct_output_paths dir level) md h;
  sb_source : files h !! render source_file = Some b;
  sb_apart : render source_file ∉ path_names (direct_output_paths dir level);
  sb_bytes : dm_source_file_bytes md = lenZ b;
  sb_level : dm_level md = level;
  sb_valid : direct_validate md = Ok tt;
  sb_blocks : logical_blocks p = dm_logical_blocks md;
  sb_size : block_size p = dm_block_payload_bytes md
}.

Lemma metadata_kept ps md (h h' : HS) : NoDup (path_names ps) -> touches (session_names ps) h h' -> metadata_saved ps md h -> metadata_saved ps md h'.
Proof.
  intros Hnames Ht (b & Hb & Hd). exists b. split; [|done]. names_apart Hnames. rewrite (touches_lookup _ _ _ _ Ht); [done|].
  unfold session_names. cbn [fmap list_fmap]. names_ne.
Qed.

Lemma direct_load_yields (E : Error -> Prop) ps md (h : HS) : clear h -> metadata_saved ps md h -> direct_validate md = Ok tt ->
  yields E (direct_load (metadata_path ps)) h (fun md' h' => md' = md /\ clear h' /\ files h' = files h).
Proof.
  intros [Hf Hby] (b & Hb & Hd) Hv. unfold direct_load. apply yields_bind. eapply yields_eq; [exact (fs_read_ok _ h b Hf Hb)|].
  apply yields_bind. eapply yields_lift; [by rewrite Hd|]. apply yields_bind. eapply yields_lift; [exact Hv|]. by apply (yields_ret E).
Qed.

(** The steps both levels share: load, check, open, read the source. *)
Lemma bench_direct_opens dir level source_file (o : ImageOptions) p c md b k A ops batch_size drain seed (h : HS) Q :
  let im := direct_image dir level o p in
  source_beside dir level source_file md p b h -> clear h -> image_serves im c (open_direct_image (R := R) dir level o) k h A ->
  (forall (oram : Oram) h', holds im c k oram A -> clear h' -> files h' = files h ->
     yields (session_error im) (match level with
       | DirectIndex =>
           let* reader := lift (index_reader_new md oram) in
           let* acc := run_batches (bench_index_batch b drain) ops batch_size (reader, from_seed seed, mkReport 0 0 0) in
           let '(reader, _, report) := acc in
           let* _ := finish_bench_table (C := C) (i_paths im) (opt_auth_store o) (opt_state_key_hex o) false (ir_oram reader) in
           ret report
       | DirectChunk =>
           let* reader := lift (chunk_reader_new md oram) in
           let* acc := run_batches (bench_chunk_batch b drain) ops batch_size (reader, from_seed seed, mkReport 0 0 0) in
           let '(reader, _, report) := acc in
           let* _ := finish_bench_table (C := C) (i_paths im) (opt_auth_store o) (opt_state_key_hex o) false (ch_oram reader) in
           ret report
       end) h' Q) ->
  yields (session_error im) (bench_direct_table (C := C) (R := R) dir level source_file o ops batch_size drain seed false) h Q.
Proof.
  intros im [Hmd Hsrc _ Hlen Hlev Hval _ _] Hc Hserves Hk. unfold bench_direct_table.
  eapply yields_step; [by apply (direct_load_yields (session_error im) _ md)|]. cbn beta. intros md' h1 (-> & Hc1 & Hf1).
  apply yields_bind, guard_yields; [by apply bool_decide_eq_true_2|].
  rewrite <-Hf1 in Hsrc. apply yields_bind. unfold validate_direct_source_for_metadata. apply yields_bind.
  eapply yields_eq; [exact (fs_len_ok source_file h1 b (proj1 Hc1) Hsrc)|]. apply guard_yields; [by rewrite Hlen, Z.eqb_refl|].
  eapply yields_step.
  { apply (open_serves_yields im c (session_error im) _ k h1 A). destruct Hserves as [_ Ho]. split; [done|]. rewrite Hf1. exact Ho. }
  cbn beta. intros oram h2 (Ho & Hc2 & Hf2).
  rewrite <-Hf2 in Hsrc. apply yields_bind. eapply yields_eq; [exact (fs_read_ok source_file h2 b (proj1 Hc2) Hsrc)|].
  destruct (holds_pending im c _ _ _ Ho) as [q Eq]. apply yields_bind. eapply yields_lift; [exact Eq|].
  apply (Hk oram (mkHost (files h2) [] (os h2))); [done|split; [done|apply Hc2]|cbn; congruence].
Qed.

Lemma reader_dimensions dir level o p c k A (oram : Oram) md : holds (direct_image dir level o p) c k oram A ->
  logical_blocks p = dm_logical_blocks md -> block_size p = dm_block_payload_bytes md -> validate_oram_dimensions md oram = Ok tt.
Proof. intros (_ & Hp & _) Hl Hb. unfold validate_oram_dimensions. rewrite Hp. cbn [direct_image i_params]. by rewrite Hl, Hb, !Z.eqb_refl. Qed.

Lemma bench_index_yields dir source_file (o : ImageOptions) p c (s : DirectIndexPackedBlockReader) ops batch_size drain seed n (h : HS) :
  let im := direct_image dir DirectIndex o p in let fns := dti_hash_fns (is_info s) in
  image_fits im c -> index_source_ok s -> from_info (is_info s) (dm_items_per_block (is_metadata s)) = Ok (is_metadata s) ->
  0 < dti_records (is_info s) -> source_beside dir DirectIndex source_file (is_metadata s) p (is_mmap s) h ->
  0 <= ops <= u64_max -> 0 <= n -> 0 <= drain -> 0 < batch_size ->
  image_serves im c (open_direct_image (R := R) dir DirectIndex o) (fns * ops + n) h (index_array s) ->
  yields (session_error im) (bench_direct_table (C := C) (R := R) dir DirectIndex source_file o ops batch_size drain seed false) h (fun report h' =>
    rp_verified report = ops /\ touches (session_names (i_paths im)) h h' /\
    closed (R := R) im c n h' (index_array s)).
Proof.
  intros im fns Hfits Hs Hinfo Hsome Hb Hops Hn Hd Hbs Hserves.
  eapply bench_direct_opens; [exact Hb|apply Hserves|exact Hserves|]. intros oram h1 Ho Hc1 Hf1. cbv iota.
  pose proof Hb as [_ _ _ _ Hlev Hval Hlb Hsz].
  assert (index_reader_new (is_metadata s) oram = Ok (mkIndexReader (is_metadata s) oram)) as Er.
  { unfold index_reader_new. rewrite Hval. cbn [obind]. rewrite bool_decide_eq_true_2 by done. cbn [guardo obind].
    by rewrite (reader_dimensions dir DirectIndex o p c _ _ oram _ Ho Hlb Hsz). }
  apply yields_bind. eapply yields_lift; [exact Er|].
  eapply yields_step; [eapply (index_batches_yields im c s Hs Hinfo Hsome drain ops batch_size n); [exact Hc1|reflexivity|exact Hd|exact Hops|exact Hbs|exact Hn|exact Ho]|].
  cbn beta. intros [[rd g] report] ? (-> & Ho' & Hv). cbn [fst snd] in *.
  eapply yields_mono; [exact (finish_yields im c Hfits n (ir_oram rd) _ report h1 (output_paths_apart dir _) Ho' Hc1)|].
  intros r h' (-> & Ht' & Hs'). split; [exact Hv|]. split; [|exact Hs']. eapply touches_trans; [|exact Ht']. by apply touches_same.
Qed.

Lemma bench_chunk_yields dir source_file (o : ImageOptions) p c (s : DirectChunkPackedBlockReader) ops batch_size drain seed n (h : HS) :
  let im := direct_image dir DirectChunk o p in
  image_fits im c -> chunk_source_ok s -> 0 < dm_total_items (cs_metadata s) ->
  source_beside dir DirectChunk source_file (cs_metadata s) p (cs_mmap s) h ->
  0 <= ops <= u64_max -> 0 <= n -> 0 <= drain -> 0 < batch_size ->
  image_serves im c (open_direct_image (R := R) dir DirectChunk o) (ops + n) h (chunk_array s) ->
  yields (session_error im) (bench_direct_table (C := C) (R := R) dir DirectChunk source_file o ops batch_size drain seed false) h (fun report h' =>
    rp_verified report = ops /\ touches (session_names (i_paths im)) h h' /\
    closed (R := R) im c n h' (chunk_array s)).
Proof.
  intros im Hfits Hs Hsome Hb Hops Hn Hd Hbs Hserves.
  eapply bench_direct_opens; [exact Hb|apply Hserves|exact Hserves|]. intros oram h1 Ho Hc1 Hf1. cbv iota.
  pose proof Hb as [_ _ _ _ Hlev Hval Hlb Hsz].
  assert (chunk_reader_new (cs_metadata s) oram = Ok (mkChunkReader (cs_metadata s) oram)) as Er.
  { unfold chunk_reader_new. rewrite Hval. cbn [obind]. rewrite bool_decide_eq_true_2 by done. cbn [guardo obind].
    by rewrite (reader_dimensions dir DirectChunk o p c _ _ oram _ Ho Hlb Hsz). }
  apply yields_bind. eapply yields_lift; [exact Er|].
  eapply yields_step; [eapply (chunk_batches_yields im c s Hs Hsome drain ops batch_size n); [exact Hc1|reflexivity|exact Hd|exact Hops|exact Hbs|exact Hn|exact Ho]|].
  cbn beta. intros [[rd g] report] ? (-> & Ho' & Hv). cbn [fst snd] in *.
  eapply yields_mono; [exact (finish_yields im c Hfits n (ch_oram rd) _ report h1 (output_paths_apart dir _) Ho' Hc1)|].
  intros r h' (-> & Ht' & Hs'). split; [exact Hv|]. split; [|exact Hs']. eapply touches_trans; [|exact Ht']. by apply touches_same.
Qed.

(** ** Building, then reading back *)

Lemma yields_error {S X} (E E' : Error -> Prop) (m : M S X) s Q : yields E m s Q -> (forall e, E e -> E' e) -> yields E' m s Q.
Proof. unfold yields. intros Hy HE. destruct (m s) as [[a|e| |] s']; auto. Qed.

Lemma from_index_file_bytes path slots fns load seed (h h1 : HS) info b : faults h = [] -> files h !! render path = Some b ->
  from_index_file path slots fns load seed h = (Ok info, h1) -> dti_file_bytes info = lenZ b.
Proof.
  intros Hf Hb. unfold from_index_file. rewrite bind_guardm. destruct (negb _); [|done].
  rewrite bind_guardm. destruct (negb _); [|done]. rewrite bind_guardm. destruct (f64_lt _ _ && _); [|done].
  rewrite (bind_eq _ _ _ _ _ (fs_len_ok path h b Hf Hb)), bind_guardm. destruct (_ =? 0); [|done]. rewrite bind_lift.
  destruct (compute_direct_index_bins _ _ _); [|done..]. by intros [= <- _].
Qed.

(** What [from_info] copies and computes *)
Lemma from_info_fields info per md : from_info info per = Ok md ->
  dm_level md = dti_level info /\ dm_source_file_bytes md = dti_file_bytes info /\ dm_logical_blocks md = div_ceil (dti_total_items info) per /\
  dm_block_payload_bytes md = mul64 (dti_item_size info) per /\ dm_total_items md = dti_total_items info.
Proof. unfold from_info. destruct (per =? 0); [done|]. by intros <-%Ok_inj. Qed.

(** The image a source was built into, with the source file beside it *)
Lemma built_beside dir (o : ImageOptions) (info : DirectTableInfo) per md p path b (h h1 : HS) :
  from_info info per = Ok md -> direct_validate md = Ok tt ->
  logical_blocks p = div_ceil (dti_total_items info) per -> block_size p = mul64 (dti_item_size info) per ->
  dti_file_bytes info = lenZ b -> files h !! render path = Some b -> render path ∉ path_names (direct_output_paths dir (dti_level info)) ->
  touches (path_names (direct_output_paths dir (dti_level info))) h h1 -> metadata_saved (direct_output_paths dir (dti_level info)) md h1 ->
  source_beside dir (dti_level info) path md p b h1.
Proof.
  intros Hi Hval Hlb Hsz Hlen Hb Hap Ht Hm. destruct (from_info_fields info per md Hi) as (Hl & Hfb & Hbl & Hpl & _).
  split; try done; [by rewrite (touches_lookup _ _ _ _ Ht)|congruence..].
Qed.

(** The evidence a build returns is of the state in the state file. *)
Definition state_recorded (im : ImageSpec) (level : DirectLevel) (ev : DirectControllerStateEvidence) (h : HS) : Prop :=
  exists st : CircuitOramState R, state_saved im st h /\ direct_controller_state_evidence level (state_path (i_paths im)) st = Ok ev.

(** What an INDEX or a CHUNK file becomes *)
Definition index_built dir path (info : DirectTableInfo) o p c b n (ev : DirectControllerStateEvidence) (h h' : HS) : Prop :=
  let im := direct_image dir DirectIndex o p in
  touches (path_names (i_paths im)) h h' /\ state_recorded im DirectIndex ev h' /\
  exists s, index_source_ok s /\ is_info s = info /\ is_mmap s = b /\ dm_items_per_block (is_metadata s) = opt_pack o /\
    from_info info (opt_pack o) = Ok (is_metadata s) /\ source_beside dir DirectIndex path (is_metadata s) p b h' /\
    closed (R := R) im c n h' (index_array s).
Definition chunk_built dir path (info : DirectTableInfo) o p c b n (ev : DirectControllerStateEvidence) (h h' : HS) : Prop :=
  let im := direct_image dir DirectChunk o p in
  touches (path_names (i_paths im)) h h' /\ state_recorded im DirectChunk ev h' /\
  exists s, chunk_source_ok s /\ cs_mmap s = b /\ dm_items_per_block (cs_metadata s) = opt_pack o /\
    from_info info (opt_pack o) = Ok (cs_metadata s) /\ source_beside dir DirectChunk path (cs_metadata s) p b h' /\
    closed (R := R) im c n h' (chunk_array s).

Definition KICKS : string := "direct index cuckoo insertion failed after {} kicks; records={} bins={} slots_per_bin={} hash_fns={} load_factor={:.4}".

Lemma index_table_built dir path slots fns load iseed (info : DirectTableInfo) (o : ImageOptions) est p c seed b n (h0 h h1 : HS) :
  let im := direct_image dir DirectIndex o p in
  clear h0 -> files h0 !! render path = Some b -> 0 < lenZ b -> from_index_file path slots fns load iseed h0 = (Ok info, h) ->
  render path ∉ path_names (i_paths im) -> 0 < slots -> 0 < fns <= dti_total_items info -> 0 < opt_pack o -> dti_records info <= u32_max ->
  dti_total_items info * slots <= u64_max -> slots * DIRECT_INDEX_SLOT_SIZE * opt_pack o <= u64_max ->
  direct_estimate (image_sizing o) info = Ok est -> image_params o (de_sizes est) = Ok p -> image_fits im c -> build_fits im ->
  can_record n (schedule_new p) -> clear h1 -> files h1 !! render path = Some b ->
  yields (fun e => build_error im e \/ e = InvalidInput KICKS)
    (build_direct_table (C := C) (R := R) dir info o seed) h1 (fun ev h' => index_built dir path info o p c b n ev h1 h').
Proof.
  intros im [Hf0 Hb0] Hfile Hl Hfrom Hap Hsl Hfn Hpk Hr32 Hts Hfit Hest Hpar Hfits Hbuild Hrec Hc Hfile1.
  pose proof (Hb0 _ _ Hfile) as Hby. pose proof (from_index_file_bytes path slots fns load iseed h0 h info b Hf0 Hfile Hfrom) as Hlen.
  destruct (from_index_file_ok path slots fns load iseed h0 info h b Hf0 Hfile Hfrom) as (Hlev & <- & Hrb & <- & <- & Hs0 & Hfn0 & Hsz & _).
  destruct (direct_params_sizes o info est p Hest Hpar) as [Hlb Hbsz]. change DIRECT_INDEX_SLOT_SIZE with 26 in *.
  change DIRECT_INDEX_INPUT_RECORD_SIZE with 25 in Hrb.
  unfold build_direct_table. apply yields_bind. eapply yields_lift; [exact Hest|]. apply yields_bind. eapply yields_lift; [exact Hpar|].
  rewrite Hlev. cbv iota zeta. apply yields_bind.
  destruct (index_build_ok info b (opt_pack o) h1 (proj1 Hc) Hfile1 Hl Hby Hlev Hrb Hsz Hsl Hfn Hpk Hr32 Hts Hfit)
    as [[h2 E]|(s & h2 & E & Hs & Hmm & Hinfo & Hi & Hper)]; [unfold yields; rewrite E; by right|].
  eapply yields_eq; [exact E|]. destruct (index_build_files _ _ _ _ _ E (proj1 Hc)) as [Hf2 Hfl2]. rewrite <-Hf2 in Hfile1.
  assert (clear h2) as Hc2 by (split; [done|rewrite Hf2; apply Hc]).
  destruct (from_info_fields info (opt_pack o) (is_metadata s) Hi) as (_ & _ & Hbl & Hpl & _).
  assert (dti_slots_per_bin info * 26 <= u64_max) as Hsu by nia. rewrite mul64_small in Hsz by lia.
  assert (direct_validate (is_metadata s) = Ok tt) as Hval.
  { eapply from_info_valid; [exact Hi|lia| |congruence]. intros _. change DIRECT_INDEX_SLOT_SIZE with 26. rewrite mul64_small by lia. split_and!; [done|lia|lia]. }
  pose proof (direct_built Hio dir o info p c s (is_metadata s) seed (index_content s) n h2) as Hy.
  cbv zeta in Hy. rewrite Hlev in Hy. fold im in Hy. eapply yields_mono.
  { eapply yields_error; [apply Hy|by left]; clear Hy; try done.
    - split; [exact Hs|]. split; [cbn; congruence|done].
    - cbn. congruence.
    - intros id Hid. replace (block_size p) with (dm_block_payload_bytes (is_metadata s)) by congruence. apply index_content_ok; [done|].
      replace (dm_logical_blocks (is_metadata s)) with (logical_blocks p) by congruence. done. }
  cbn beta. intros ev h3 (Hs3 & Ht3 & Hm3 & Hev). clear Hy.
  assert (index_content s <$> seqZ 0 (logical_blocks p) = index_array s) as EA by (unfold index_array; do 2 f_equal; congruence). rewrite EA in Hs3.
  assert (source_beside dir DirectIndex (dti_path info) (is_metadata s) p b h3) as Hbeside.
  { rewrite <-Hlev. eapply built_beside; rewrite ?Hlev; done. }
  split; [eapply touches_trans; [|exact Ht3]; by apply touches_same|]. split; [exact Hev|]. by exists s.
Qed.

Lemma chunk_table_built dir path (info : DirectTableInfo) (o : ImageOptions) est p c seed b n (h0 h h1 : HS) :
  let im := direct_image dir DirectChunk o p in
  clear h0 -> files h0 !! render path = Some b -> 0 < lenZ b <= u64_max -> from_chunks_file path h0 = (Ok info, h) ->
  render path ∉ path_names (i_paths im) -> 0 < opt_pack o -> DIRECT_CHUNK_RECORD_SIZE * opt_pack o <= u64_max ->
  direct_estimate (image_sizing o) info = Ok est -> image_params o (de_sizes est) = Ok p -> image_fits im c -> build_fits im ->
  can_record n (schedule_new p) -> clear h1 -> files h1 !! render path = Some b ->
  yields (build_error im)
    (build_direct_table (C := C) (R := R) dir info o seed) h1 (fun ev h' => chunk_built dir path info o p c b n ev h1 h').
Proof.
  intros im [Hf0 Hb0] Hfile Hl Hfrom Hap Hpk Hfit Hest Hpar Hfits Hbuild Hrec Hc Hfile1.
  pose proof (Hb0 _ _ Hfile) as Hby.
  destruct (from_chunks_file_ok path h0 h info b Hf0 Hfile Hfrom) as (Hlev & <- & Hlen & Hrb & Hsz & _).
  destruct (direct_params_sizes o info est p Hest Hpar) as [Hlb Hbsz].
  unfold build_direct_table. apply yields_bind. eapply yields_lift; [exact Hest|]. apply yields_bind. eapply yields_lift; [exact Hpar|].
  rewrite Hlev. cbv iota zeta. apply yields_bind.
  destruct (chunk_open_ok info b (opt_pack o) h1 (proj1 Hc) Hfile1 Hl Hby Hlev Hrb Hsz Hpk Hfit) as (s & h2 & E & Hf2 & Hfl2 & Hs & Hmm & Hi & Hper).
  eapply yields_eq; [exact E|]. rewrite <-Hf2 in Hfile1.
  assert (clear h2) as Hc2 by (split; [done|rewrite Hf2; apply Hc]).
  destruct (from_info_fields info (opt_pack o) (cs_metadata s) Hi) as (_ & _ & Hbl & Hpl & Htot).
  assert (direct_validate (cs_metadata s) = Ok tt) as Hval by (eapply from_info_valid; [exact Hi|by rewrite Hsz|congruence|done]).
  change DIRECT_CHUNK_RECORD_SIZE with 40 in Hrb.
  pose proof (direct_built Hio dir o info p c s (cs_metadata s) seed (chunk_content s) n h2) as Hy.
  cbv zeta in Hy. rewrite Hlev in Hy. fold im in Hy. eapply yields_mono.
  { apply Hy; clear Hy; try done.
    - split; [exact Hs|]. split; [cbn; congruence|done].
    - cbn. congruence.
    - intros id Hid. replace (block_size p) with (dm_block_payload_bytes (cs_metadata s)) by congruence. apply chunk_content_ok; [done|].
      replace (dm_logical_blocks (cs_metadata s)) with (logical_blocks p) by congruence. done. }
  cbn beta. intros ev h3 (Hs3 & Ht3 & Hm3 & Hev). clear Hy.
  assert (chunk_content s <$> seqZ 0 (logical_blocks p) = chunk_array s) as EA by (unfold chunk_array; do 2 f_equal; congruence). rewrite EA in Hs3.
  assert (source_beside dir DirectChunk (dti_path info) (cs_metadata s) p b h3) as Hbeside.
  { rewrite <-Hlev. eapply built_beside; rewrite ?Hlev; done. }
  split; [eapply touches_trans; [|exact Ht3]; by apply touches_same|]. split; [exact Hev|]. by exists s.
Qed.

(** An INDEX file that [from_index_file] accepts, built into an image by
    [build_direct_table], and then [bench_direct_table] on the file, for any number of
    lookups in batches: every script hash drawn from the file is found, and the image
    still serves the table after them.  The only errors are a cuckoo insertion that runs
    out of kicks, a full stash, and a state that cannot be serialized or sealed. *)
Theorem direct_index_confirmed dir path slots fns load iseed (info : DirectTableInfo) (o : ImageOptions) est p c seed b
    ops batch_size drain qseed n (h0 h : HS) :
  let im := direct_image dir DirectIndex o p in
  clear h0 -> files h0 !! render path = Some b -> 0 < lenZ b -> from_index_file path slots fns load iseed h0 = (Ok info, h) ->
  render path ∉ path_names (i_paths im) -> 0 < slots -> 0 < fns <= dti_total_items info -> 0 < opt_pack o -> dti_records info <= u32_max ->
  dti_total_items info * slots <= u64_max -> slots * DIRECT_INDEX_SLOT_SIZE * opt_pack o <= u64_max ->
  direct_estimate (image_sizing o) info = Ok est -> image_params o (de_sizes est) = Ok p -> image_fits im c -> build_fits im ->
  0 <= ops <= u64_max -> 0 < batch_size -> 0 <= drain -> 0 <= n -> can_record (fns * ops + n) (schedule_new p) ->
  yields (fun e => build_error im e \/ e = InvalidInput KICKS)
    (let* _ := build_direct_table (C := C) (R := R) dir info o seed in
     bench_direct_table (C := C) (R := R) dir DirectIndex path o ops batch_size drain qseed false) h
    (fun report h' => rp_verified report = ops /\ exists s, index_source_ok s /\ is_info s = info /\ is_mmap s = b /\
       image_serves im c (open_direct_image (R := R) dir DirectIndex o) n h' (index_array s)).
Proof.
  intros im Hh0 Hfile Hl Hfrom Hap Hsl Hfn Hpk Hr32 Hts Hfit Hest Hpar Hfits Hbuild Hops Hbs Hd Hn Hrec.
  destruct (from_index_file_ok path slots fns load iseed h0 info h b (proj1 Hh0) Hfile Hfrom) as (_ & _ & Hrb & _ & Hfns & _ & _ & _ & Hfiles & Hf1).
  assert (clear h) as Hc by (split; [done|rewrite Hfiles; apply Hh0]).
  eapply yields_step; [apply (index_table_built dir path slots fns load iseed info o est p c seed b (fns * ops + n) h0 h h); try done; by rewrite Hfiles|].
  cbn beta. intros ev h3 (_ & _ & s & Hs & Hinfo & Hmm & Hper & Hi & Hbeside & Hs3%(closed_serves _ _ Hio Hfits)).
  eapply yields_error; [eapply yields_mono|by left].
  - apply (bench_index_yields dir path o p c s ops batch_size drain qseed n h3 Hfits Hs); rewrite ?Hmm, ?Hinfo, ?Hfns, ?Hper; try done.
    change DIRECT_INDEX_INPUT_RECORD_SIZE with 25 in Hrb. lia.
  - cbn beta. intros report h4 (Hv & _ & Hs4%(closed_serves _ _ Hio Hfits)). split; [done|]. by exists s.
Qed.

(** The same for a CHUNK file: every chunk [bench_direct_table] reads through the
    controller equals the file's. *)
Theorem direct_chunks_confirmed dir path (info : DirectTableInfo) (o : ImageOptions) est p c seed b ops batch_size drain qseed n (h0 h : HS) :
  let im := direct_image dir DirectChunk o p in
  clear h0 -> files h0 !! render path = Some b -> 0 < lenZ b <= u64_max -> from_chunks_file path h0 = (Ok info, h) ->
  render path ∉ path_names (i_paths im) -> 0 < opt_pack o -> DIRECT_CHUNK_RECORD_SIZE * opt_pack o <= u64_max ->
  direct_estimate (image_sizing o) info = Ok est -> image_params o (de_sizes est) = Ok p -> image_fits im c -> build_fits im ->
  0 <= ops <= u64_max -> 0 < batch_size -> 0 <= drain -> 0 <= n -> can_record (ops + n) (schedule_new p) ->
  yields (build_error im)
    (let* _ := build_direct_table (C := C) (R := R) dir info o seed in
     bench_direct_table (C := C) (R := R) dir DirectChunk path o ops batch_size drain qseed false) h
    (fun report h' => rp_verified report = ops /\ exists s, chunk_source_ok s /\ cs_mmap s = b /\ from_info info (opt_pack o) = Ok (cs_metadata s) /\
       image_serves im c (open_direct_image (R := R) dir DirectChunk o) n h' (chunk_array s)).
Proof.
  intros im Hh0 Hfile Hl Hfrom Hap Hpk Hfit Hest Hpar Hfits Hbuild Hops Hbs Hd Hn Hrec.
  destruct (from_chunks_file_ok path h0 h info b (proj1 Hh0) Hfile Hfrom) as (_ & _ & Hlen & Hrb & Hsz & Hfiles & Hf1).
  change DIRECT_CHUNK_RECORD_SIZE with 40 in *.
  assert (clear h) as Hc by (split; [done|rewrite Hfiles; apply Hh0]).
  eapply yields_step; [apply (chunk_table_built dir path info o est p c seed b (ops + n) h0 h h); try done; by rewrite Hfiles|].
  cbn beta. intros ev h3 (_ & _ & s & Hs & Hmm & Hper & Hi & Hbeside & Hs3%(closed_serves _ _ Hio Hfits)).
  destruct (from_info_fields info (opt_pack o) (cs_metadata s) Hi) as (_ & _ & _ & _ & Htot).
  eapply yields_mono; [apply (bench_chunk_yields dir path o p c s ops batch_size drain qseed n h3 Hfits Hs); rewrite ?Hmm, ?Htot; try done; lia|].
  cbn beta. intros report h4 (Hv & _ & Hs4%(closed_serves _ _ Hio Hfits)). split; [done|]. by exists s.
Qed.

End Commands.

(** ** The files of [DirectSpec] *)

#[local] Existing Instance bool_subtle.
#[local] Existing Instance bool_subtle_laws.
#[local] Existing Instance plain_mmap.
#[local] Existing Instance plain_mmap_laws.

Lemma estimate_params o info p :
  match direct_estimate (image_sizing o) info with Ok e => image_params o (de_sizes e) | _ => Panic end = Ok p ->
  exists est, direct_estimate (image_sizing o) info = Ok est /\ image_params o (de_sizes est) = Ok p.
Proof. intros He. destruct (direct_estimate _ _) as [est| | |]; [by exists est|done..]. Qed.

Definition demo_index_params : OramParams := mkParams 3 26 2 4 8.
Definition demo_index_image : ImageSpec := direct_image "out" DirectIndex sealed_options demo_index_params.
Lemma demo_index_fits : image_fits demo_index_image (Some (replicate 32 7)) /\ build_fits demo_index_image.
Proof. split; [image_fits_tac|]. split; (by vm_compute) || (repeat split; by vm_compute). Qed.
Lemma demo_index_clear : clear demo_table_host.
Proof. split; [done|]. apply map_Forall_singleton, demo_file_ok. Qed.
Lemma demo_index_estimate : exists est, direct_estimate (image_sizing sealed_options) demo_info = Ok est /\
  image_params sealed_options (de_sizes est) = Ok demo_index_params.
Proof. apply estimate_params. vm_compute. reflexivity. Qed.

Lemma direct_index_confirmed_witness :
  yields (fun e => build_error demo_index_image e \/ e = InvalidInput KICKS)
    (let* _ := build_direct_table (C := bytes) (R := Z) "out" demo_info sealed_options [5] in
     bench_direct_table (C := bytes) (R := Z) "out" DirectIndex DirectSpec.demo_path sealed_options 5 2 1 [6] false) demo_table_host
    (fun report h => rp_verified report = 5 /\ exists s, index_source_ok s /\ is_info s = demo_info /\ is_mmap s = demo_file /\
       image_serves demo_index_image (Some (replicate 32 7)) (open_direct_image (C := bytes) (R := Z) "out" DirectIndex sealed_options) 90 h (index_array s)).
Proof.
  destruct demo_index_estimate as (est & Ee & Ep).
  refine (direct_index_confirmed (C := bytes) (OS := Z) (R := Z) whole_io_ok "out" DirectSpec.demo_path 1 2 DIRECT_INDEX_DEFAULT_LOAD_FACTOR 5 demo_info sealed_options
    est demo_index_params (Some (replicate 32 7)) [5] demo_file 5 2 1 [6] 90 demo_table_host demo_table_host demo_index_clear _ eq_refl
    _ _ _ _ _ _ _ _ Ee Ep (proj1 demo_index_fits) (proj2 demo_index_fits) _ _ _ _ _); try (by vm_compute); try (by split; vm_compute).
  apply (bool_decide_eq_false_1 _). vm_compute. reflexivity.
Defined.

Definition demo_chunk_path : FilePath := mkPath "" "chunks" (Some "bin"%string).
Definition demo_chunk_host : Host Z := mkHost {[ render demo_chunk_path := demo_chunk_file ]} [] 0.
Definition demo_chunk_info : DirectTableInfo := mkDirectInfo DirectChunk demo_chunk_path 200 5 1 0 f64_1 0 5 40.
Definition demo_chunk_params : OramParams := mkParams 3 80 2 4 8.
Definition demo_chunk_image : ImageSpec := direct_image "out" DirectChunk embedded_options demo_chunk_params.
Lemma demo_chunk_fits : image_fits demo_chunk_image None /\ build_fits demo_chunk_image.
Proof. split; [image_fits_tac|]. split; (by vm_compute) || (repeat split; by vm_compute). Qed.
Lemma demo_chunk_clear : clear demo_chunk_host.
Proof. split; [done|]. apply map_Forall_singleton. apply (bool_decide_eq_true_1 _). vm_compute. reflexivity. Qed.
Lemma demo_chunk_estimate : exists est, direct_estimate (image_sizing embedded_options) demo_chunk_info = Ok est /\
  image_params embedded_options (de_sizes est) = Ok demo_chunk_params.
Proof. apply estimate_params. vm_compute. reflexivity. Qed.

Lemma direct_chunks_confirmed_witness :
  yields (build_error demo_chunk_image)
    (let* _ := build_direct_table (C := bytes) (R := Z) "out" demo_chunk_info embedded_options [5] in
     bench_direct_table (C := bytes) (R := Z) "out" DirectChunk demo_chunk_path embedded_options 7 3 2 [6] false) demo_chunk_host
    (fun report h => rp_verified report = 7 /\ exists s, chunk_source_ok s /\ cs_mmap s = demo_chunk_file /\
       from_info demo_chunk_info 2 = Ok (cs_metadata s) /\
       image_serves demo_chunk_image None (open_direct_image (C := bytes) (R := Z) "out" DirectChunk embedded_options) 90 h (chunk_array s)).
Proof.
  destruct demo_chunk_estimate as (est & Ee & Ep).
  refine (direct_chunks_confirmed (C := bytes) (OS := Z) (R := Z) whole_io_ok "out" demo_chunk_path demo_chunk_info embedded_options
    est demo_chunk_params None [5] demo_chunk_file 7 3 2 [6] 90 demo_chunk_host demo_chunk_host demo_chunk_clear _
    _ _ _ _ _ Ee Ep (proj1 demo_chunk_fits) (proj2 demo_chunk_fits) _ _ _ _ _); try (by vm_compute); try (by split; vm_compute).
  apply (bool_decide_eq_false_1 _). vm_compute. reflexivity.
Defined.
