(* ===== verification/PosMapScan.v ===== *)
(** * Benchmarks of position-map scans ([src/src/bin/oramctl.rs], [bench-pos-map])

    [bench-pos-map] times a plain lookup of a position map, a masked scan, a scan that
    also updates, and scans that answer a batch.  The timings are not modelled; the
    checksum a run prints folds every leaf that was looked up.  The second half gives
    the run on a plain array and shows that it prints the same checksums. *)

From S2P Require Import Prelude Ct PosMap Rng Bench.

(** ** The scans *)

Section Ops.
Context `{Subtle}.

(** [make_pos_map] *)
Definition make_pos_map (size : Z) : list Z :=
  (fun idx => wrap 32 (wrap 32 (wrap 32 idx * 1664525) + 1013904223)) <$> seqZ 0 size.

(** [direct_pos_map_lookup]; [black_box] is the identity *)
Definition direct_pos_map_lookup (pos_map : list Z) (logical_id : Z) : outcome Z := indexZ pos_map logical_id.

(** [linear_scan_pos_map_lookup] *)
Definition linear_scan_pos_map_lookup (pos_map : list Z) (logical_id : Z) : Z :=
  foldl (fun out (il : Z * Z) => cmov_u32 out il.2 (eq_usize il.1 logical_id)) 0 (enumerate pos_map).

(** [linear_scan_pos_map_access]: the loop carries the old leaf and rewrites each entry. *)
Fixpoint access_scan (logical_id new_leaf old_leaf : Z) (entries : list (Z * Z)) : Z * list Z :=
  match entries with
  | [] => (old_leaf, [])
  | (idx, leaf) :: entries =>
      let choice := eq_usize idx logical_id in
      let old_leaf := cmov_u32 old_leaf leaf choice in
      let leaf := cmov_u32 leaf new_leaf choice in
      let (old_leaf, pos_map) := access_scan logical_id new_leaf old_leaf entries in
      (old_leaf, leaf :: pos_map)
  end.
Definition linear_scan_pos_map_access (pos_map : list Z) (logical_id new_leaf : Z) : Z * list Z :=
  access_scan logical_id new_leaf 0 (enumerate pos_map).

(** [logical_ids.iter().zip(out.iter_mut())]: results past the shorter list are left. *)
Fixpoint zip_mut {A} (f : A -> Z -> Z) (xs : list A) (out : list Z) : list Z :=
  match xs, out with x :: xs, o :: out => f x o :: zip_mut f xs out | _, _ => out end.

(** [checksum_words] *)
Definition checksum_words (words : list Z) : Z := foldl (fun acc word => Z.lxor (rotate_left64 acc 7) word) 0 words.

(** [batch_scan_pos_map_lookup]: the checksum and [out] *)
Definition batch_scan_pos_map_lookup (pos_map logical_ids out : list Z) : Z * list Z :=
  let out := (fun _ => 0) <$> out in
  let out := foldl (fun out (il : Z * Z) =>
    zip_mut (fun logical_id out_leaf => cmov_u32 out_leaf il.2 (eq_usize il.1 logical_id)) logical_ids out) out (enumerate pos_map) in
  (checksum_words out, out).

(** The inner loop of [batch_scan_pos_map_update]: one entry is offered to every result
    and takes the new leaf of every id it has. *)
Fixpoint update_entry (idx old_leaf leaf : Z) (updates : list (Z * Z)) (out : list Z) : Z * list Z :=
  match updates, out with
  | (logical_id, new_leaf) :: updates, out_leaf :: out =>
      let choice := eq_usize idx logical_id in
      let out_leaf := cmov_u32 out_leaf old_leaf choice in
      let leaf := cmov_u32 leaf new_leaf choice in
      let (leaf, out) := update_entry idx old_leaf leaf updates out in
      (leaf, out_leaf :: out)
  | _, _ => (leaf, out)
  end.
Fixpoint update_scan (updates : list (Z * Z)) (out : list Z) (entries : list (Z * Z)) : list Z * list Z :=
  match entries with
  | [] => ([], out)
  | (idx, leaf) :: entries =>
      let (leaf, out) := update_entry idx leaf leaf updates out in
      let (pos_map, out) := update_scan updates out entries in
      (leaf :: pos_map, out)
  end.
(** [batch_scan_pos_map_update]: the checksum, the map and [out] *)
Definition batch_scan_pos_map_update (pos_map logical_ids new_leaves out : list Z) : Z * list Z * list Z :=
  let out := (fun _ => 0) <$> out in
  let (pos_map, out) := update_scan (zip logical_ids new_leaves) out (enumerate pos_map) in
  (checksum_words out, pos_map, out).

(** [fill_batch_new_leaves] *)
Definition fill_batch_new_leaves (logical_ids : list Z) (batch_idx : Z) (out : list Z) : list Z :=
  zip_mut (fun (sl : Z * Z) _ =>
    Z.lxor (Z.lxor (wrap 32 (wrap 32 batch_idx * 0x9e3779b9)) (wrap 32 (wrap 32 sl.1 * 0x85ebca6b))) (wrap 32 sl.2))
    (enumerate logical_ids) out.

End Ops.

(** ** The command *)

(** What [print_pos_map_bench] and [print_pos_map_batch_bench] print, but for the time. *)
Record PosMapReport : Type := mkPosReport {
  pr_mode : string;
  pr_size : Z;
  pr_map_bytes : Z;
  pr_batch_size : option Z;
  pr_ops : Z;
  pr_scanned_bytes : Z;
  pr_checksum : Z
}.

(** [print_pos_map_bench] *)
Definition print_pos_map_bench (mode : string) (size map_bytes ops checksum : Z) : PosMapReport :=
  let scanned_bytes := if bool_decide (mode = "direct") then mul64 ops 4
                       else if bool_decide (mode = "scan") then mul64 ops map_bytes
                       else if bool_decide (mode = "scan_update") then mul64 (mul64 ops map_bytes) 2
                       else 0 in
  mkPosReport mode size map_bytes None ops scanned_bytes checksum.
(** [print_pos_map_batch_bench] *)
Definition print_pos_map_batch_bench (mode : string) (size map_bytes batch_size ops checksum : Z) : PosMapReport :=
  let scanned_bytes := if bool_decide (mode = "batch_scan") then mul64 ops map_bytes
                       else if bool_decide (mode = "batch_scan_update") then mul64 (mul64 ops map_bytes) 2
                       else 0 in
  mkPosReport mode size map_bytes (Some batch_size) ops scanned_bytes checksum.

Section Command.
Context `{Subtle} {R : Type} `{Rng R}.

(** [make_queries] *)
Definition make_queries (size count : Z) (seed : bytes) : outcome (list Z) := (draws size count (from_seed seed)).1.

(** The loops over single queries: the position map and the checksum *)
Definition warmup_query (st : list Z * Z) (logical_id : Z) : outcome (list Z * Z) :=
  let '(pos_map, checksum) := st in
  let? leaf := direct_pos_map_lookup pos_map logical_id in
  let checksum := Z.lxor checksum leaf in
  let checksum := Z.lxor checksum (linear_scan_pos_map_lookup pos_map logical_id) in
  let (old_leaf, pos_map) := linear_scan_pos_map_access pos_map logical_id (wrap 32 logical_id) in
  Ok (pos_map, Z.lxor checksum old_leaf).
Definition direct_query (pos_map : list Z) (checksum logical_id : Z) : outcome Z :=
  let? leaf := direct_pos_map_lookup pos_map logical_id in Ok (Z.lxor checksum leaf).
Definition scan_query (pos_map : list Z) (checksum logical_id : Z) : Z :=
  Z.lxor checksum (linear_scan_pos_map_lookup pos_map logical_id).
Definition access_new_leaf (op_idx logical_id : Z) : Z := Z.lxor (wrap 32 (wrap 32 op_idx * 0x9e3779b9)) (wrap 32 logical_id).
Definition access_query (st : list Z * Z) (q : Z * Z) : list Z * Z :=
  let '(pos_map, checksum) := st in
  let (old_leaf, pos_map) := linear_scan_pos_map_access pos_map q.2 (access_new_leaf q.1 q.2) in
  (pos_map, Z.lxor checksum old_leaf).

(** [&batch_queries[start..start + batch_size]] *)
Definition batch_ids (batch_queries : list Z) (max_batch_size batch_size batch_idx : Z) : outcome (list Z) :=
  slice batch_queries (mul64 batch_idx max_batch_size) batch_size.

(** The loops over batches: the position map, the checksum, [out] and [new_leaves] *)
Record BatchRun : Type := mkBatchRun { br_pos_map : list Z; br_checksum : Z; br_out : list Z; br_new_leaves : list Z }.
Definition batch_lookup (ids : Z -> outcome (list Z)) (st : BatchRun) (batch_idx : Z) : outcome BatchRun :=
  let? logical_ids := ids batch_idx in
  let (sum, out) := batch_scan_pos_map_lookup (br_pos_map st) logical_ids (br_out st) in
  Ok (mkBatchRun (br_pos_map st) (Z.lxor (br_checksum st) sum) out (br_new_leaves st)).
Definition batch_update (ids : Z -> outcome (list Z)) (st : BatchRun) (batch_idx : Z) : outcome BatchRun :=
  let? logical_ids := ids batch_idx in
  let new_leaves := fill_batch_new_leaves logical_ids batch_idx (br_new_leaves st) in
  let '(sum, pos_map, out) := batch_scan_pos_map_update (br_pos_map st) logical_ids new_leaves (br_out st) in
  Ok (mkBatchRun pos_map (Z.lxor (br_checksum st) sum) out new_leaves).

(** The body of the loop over the batch sizes *)
Definition bench_batch_size (size map_bytes ops warmup_ops max_batch_size : Z) (batch_queries : list Z)
    (st : list Z * Z * list PosMapReport) (batch_size : Z) : outcome (list Z * Z * list PosMapReport) :=
  let '(pos_map, checksum, reports) := st in
  let ids := batch_ids batch_queries max_batch_size batch_size in
  let run := mkBatchRun pos_map checksum (zeros batch_size) (zeros batch_size) in
  let? run := ofold (fun run batch_idx => let? run := batch_lookup ids run batch_idx in batch_update ids run batch_idx)
                run (seqZ 0 warmup_ops) in
  let? run := ofold (batch_lookup ids) run (add64 warmup_ops <$> seqZ 0 ops) in
  let? run := ofold (batch_update ids) run (add64 warmup_ops <$> seqZ 0 ops) in
  let report mode := print_pos_map_batch_bench mode size map_bytes batch_size ops (br_checksum run) in
  Ok (br_pos_map run, br_checksum run, reports ++ [report "batch_scan"%string; report "batch_scan_update"%string]).

(** The body of the loop over the sizes *)
Definition bench_pos_map_size (ops warmup_ops : Z) (batch_sizes : list Z) (query_seed : bytes) (size : Z) : outcome (list PosMapReport) :=
  let? _ := guardo (negb (size =? 0)) (InvalidInput "--sizes entries must be > 0") in
  let pos_map := make_pos_map size in
  let? queries := make_queries size (add64 ops warmup_ops) query_seed in
  let? warmup := slice queries 0 warmup_ops in
  let? st := ofold warmup_query (pos_map, 0) warmup in
  let measured := drop (Z.to_nat warmup_ops) queries in
  let? checksum := ofold (direct_query st.1) st.2 measured in
  let checksum := foldl (scan_query st.1) checksum measured in
  let st := foldl access_query (st.1, checksum) (enumerate measured) in
  let map_bytes := mul64 size 4 in
  let report mode := print_pos_map_bench mode size map_bytes ops st.2 in
  let reports := [report "direct"%string; report "scan"%string; report "scan_update"%string] in
  let max_batch_size := foldl Z.max 0 batch_sizes in
  if 0 <? max_batch_size then
    let? batch_queries := make_queries size (mul64 (add64 ops warmup_ops) max_batch_size) query_seed in
    let? st := ofold (bench_batch_size size map_bytes ops warmup_ops max_batch_size batch_queries) (st.1, st.2, reports) batch_sizes in
    Ok st.2
  else Ok reports.

(** [bench_pos_maps] *)
Definition bench_pos_maps (sizes : list Z) (ops warmup_ops : Z) (batch_sizes : list Z) (query_seed : bytes) : outcome (list PosMapReport) :=
  let? _ := guardo (negb (lenZ sizes =? 0)) (InvalidInput "at least one --sizes value is required") in
  let? _ := guardo (negb (ops =? 0)) (InvalidInput "--ops must be > 0") in
  let? _ := guardo (negb (bool_decide (0 ∈ batch_sizes))) (InvalidInput "--batch-sizes entries must be > 0") in
  let? reports := omap_m (bench_pos_map_size ops warmup_ops batch_sizes query_seed) sizes in
  Ok (concat reports).

End Command.

(** ** The run on a plain array *)

Section Reference.
Context {R : Type} `{Rng R}.

Fixpoint query_list (size : Z) (n : nat) (r : R) : list Z :=
  match n with O => [] | S n => let (word, r) := next_u64 r in word mod size :: query_list size n r end.

(** One lookup and update each; a warm-up looks the same leaf up three times. *)
Definition array_warmup (st : list Z * Z) (id : Z) : list Z * Z := (pm_set st.1 (id, wrap 32 id), Z.lxor st.2 (pm_get st.1 id)).
Definition array_access (st : list Z * Z) (q : Z * Z) : list Z * Z :=
  (pm_set st.1 (q.2, access_new_leaf q.1 q.2), Z.lxor st.2 (pm_get st.1 q.2)).

(** A batch looks its leaves up before it stores the new ones, in order. *)
Definition batch_leaves (ids : list Z) (batch_idx : Z) : list Z := fill_batch_new_leaves ids batch_idx (zeros (lenZ ids)).
Definition array_batch_sum (pos_map ids : list Z) : Z := checksum_words (pm_get pos_map <$> ids).
Definition array_batch_set (pos_map ids : list Z) (batch_idx : Z) : list Z := foldl pm_set pos_map (zip ids (batch_leaves ids batch_idx)).

(** The benchmark of one batch size: the warm-up leaves the checksum as it was. *)
Definition array_batch_size (size ops warmup_ops max_batch_size : Z) (batch_queries : list Z)
    (st : list Z * Z * list PosMapReport) (batch_size : Z) : list Z * Z * list PosMapReport :=
  let '(pos_map, checksum, reports) := st in
  let ids batch_idx := take (Z.to_nat batch_size) (drop (Z.to_nat (batch_idx * max_batch_size)) batch_queries) in
  let measured := Z.add warmup_ops <$> seqZ 0 ops in
  let pos_map := foldl (fun pm i => array_batch_set pm (ids i) i) pos_map (seqZ 0 warmup_ops) in
  let checksum := foldl (fun cs i => Z.lxor cs (array_batch_sum pos_map (ids i))) checksum measured in
  let st := foldl (fun st i => (array_batch_set st.1 (ids i) i, Z.lxor st.2 (array_batch_sum st.1 (ids i)))) (pos_map, checksum) measured in
  let report mode := print_pos_map_batch_bench mode size (size * 4) batch_size ops st.2 in
  (st.1, st.2, reports ++ [report "batch_scan"%string; report "batch_scan_update"%string]).

(** The benchmark of one size: the plain lookups and the scans cancel in the checksum. *)
Definition array_bench_size (ops warmup_ops : Z) (batch_sizes : list Z) (query_seed : bytes) (size : Z) : list PosMapReport :=
  let queries := query_list size (Z.to_nat (ops + warmup_ops)) (from_seed query_seed) in
  let st := foldl array_warmup (make_pos_map size, 0) (take (Z.to_nat warmup_ops) queries) in
  let st := foldl array_access st (enumerate (drop (Z.to_nat warmup_ops) queries)) in
  let report mode := print_pos_map_bench mode size (size * 4) ops st.2 in
  let reports := [report "direct"%string; report "scan"%string; report "scan_update"%string] in
  let max_batch_size := foldl Z.max 0 batch_sizes in
  let batch_queries := query_list size (Z.to_nat ((ops + warmup_ops) * max_batch_size)) (from_seed query_seed) in
  (foldl (array_batch_size size ops warmup_ops max_batch_size batch_queries) (st.1, st.2, reports) batch_sizes).2.
End Reference.

(** ** The scans are array operations *)

Section Scans.
Context `{SubtleLaws}.

Lemma linear_scan_lookup pm id : 0 <= id -> linear_scan_pos_map_lookup pm id = pm_get pm id.
Proof. apply scan_pos_map_lookup_get. Qed.

Lemma access_scan_eq id nl es : forall old,
  access_scan id nl old es = (foldl (fun out (il : Z * Z) => cmov_u32 out il.2 (eq_usize il.1 id)) old es,
                              (fun il : Z * Z => cmov_u32 il.2 nl (eq_usize il.1 id)) <$> es).
Proof. induction es as [|[i x] es IH]; intros old; cbn [access_scan foldl fst snd]; [done|]. by rewrite IH. Qed.
Lemma linear_scan_access pm id nl : 0 <= id -> linear_scan_pos_map_access pm id nl = (pm_get pm id, pm_set pm (id, nl)).
Proof.
  intros Hid. unfold linear_scan_pos_map_access. rewrite access_scan_eq. f_equal; [by apply scan_pos_map_lookup_get|by apply scan_pos_map_update_set].
Qed.

Lemma zip_mut_zip {A} (f : A -> Z -> Z) xs out : length xs = length out -> zip_mut f xs out = zip_with f xs out.
Proof. revert out. induction xs as [|x xs IH]; intros [|o out] Hl; simplify_eq/=; [done|]. by rewrite IH. Qed.
Lemma length_zip_mut {A} (f : A -> Z -> Z) xs out : length (zip_mut f xs out) = length out.
Proof. revert out. induction xs as [|x xs IH]; intros [|o out]; cbn [zip_mut length]; [done..|]. by rewrite IH. Qed.
Lemma reset_out (out : list Z) : (fun _ => 0) <$> out = replicate (length out) 0.
Proof. induction out as [|o out IH]; [done|]. cbn. by rewrite <-IH. Qed.

(** The result of a batch, however its results start *)
Lemma offer_all ids es : forall out, length out = length ids ->
  foldl (fun out (il : Z * Z) => zip_mut (fun id o => cmov_u32 o il.2 (eq_usize il.1 id)) ids out) out es =
  foldl (fun out (il : Z * Z) => zip_with (fun id o => cmov_u32 o il.2 (eq_u64 il.1 id)) ids out) out es.
Proof.
  induction es as [|il es IH]; intros out Hl; [done|]. cbn [foldl]. rewrite (zip_mut_zip _ ids out) by done. apply IH. rewrite length_zip_with. lia.
Qed.
Lemma batch_lookup_eq pm ids out : Forall (fun id => 0 <= id) ids -> length out = length ids ->
  batch_scan_pos_map_lookup pm ids out = (array_batch_sum pm ids, pm_get pm <$> ids).
Proof.
  intros Hids Hl. unfold batch_scan_pos_map_lookup, array_batch_sum.
  rewrite reset_out, Hl, offer_all by apply length_replicate.
  change (foldl _ _ (enumerate pm)) with (scan_pos_map_lookup_batch pm ids). by rewrite scan_pos_map_lookup_batch_get.
Qed.

Lemma update_entry_eq idx old updates : forall leaf out, length out = length updates ->
  update_entry idx old leaf updates out =
    (foldl (fun leaf (u : Z * Z) => cmov_u32 leaf u.2 (eq_u64 idx u.1)) leaf updates,
     zip_with (fun id o => cmov_u32 o old (eq_u64 idx id)) updates.*1 out).
Proof.
  induction updates as [|[id nl] us IH]; intros leaf [|o out] Hl; simplify_eq/=; [done|]. by rewrite IH.
Qed.
Lemma update_scan_eq updates es : forall out, length out = length updates ->
  update_scan updates out es =
    ((fun il : Z * Z => foldl (fun leaf (u : Z * Z) => cmov_u32 leaf u.2 (eq_u64 il.1 u.1)) il.2 updates) <$> es,
     foldl (fun out (il : Z * Z) => zip_with (fun id o => cmov_u32 o il.2 (eq_u64 il.1 id)) updates.*1 out) out es).
Proof.
  induction es as [|[i x] es IH]; intros out Hl; [done|]. cbn [update_scan fmap list_fmap foldl fst snd].
  rewrite update_entry_eq by done. rewrite IH; [done|]. rewrite length_zip_with, length_fmap. lia.
Qed.
Lemma batch_update_eq pm ids nls out : Forall (fun id => 0 <= id) ids -> length nls = length ids -> length out = length ids ->
  batch_scan_pos_map_update pm ids nls out = (array_batch_sum pm ids, foldl pm_set pm (zip ids nls), pm_get pm <$> ids).
Proof.
  intros Hids Hn Hl. unfold batch_scan_pos_map_update, array_batch_sum. rewrite reset_out, Hl.
  rewrite update_scan_eq by (rewrite length_replicate, length_zip_with; lia). rewrite fst_zip by lia.
  change (foldl _ _ (enumerate pm)) with (scan_pos_map_lookup_batch pm ids).
  change (_ <$> enumerate pm) with (scan_pos_map_update_batch pm ids nls).
  by rewrite scan_pos_map_lookup_batch_get, scan_pos_map_update_batch_set.
Qed.
Lemma zip_with_first {A B} (g : A -> Z) (xs : list A) (out : list B) : length xs = length out -> zip_with (fun x _ => g x) xs out = g <$> xs.
Proof. revert out. induction xs as [|x xs IH]; intros [|o out] Hl; simplify_eq/=; [done|]. by rewrite IH. Qed.
Lemma fill_eq ids idx out : length out = length ids -> fill_batch_new_leaves ids idx out = batch_leaves ids idx.
Proof.
  intros Hl. unfold batch_leaves, fill_batch_new_leaves. assert (length (enumerate ids) = length ids) as He by apply length_enumerate_from.
  assert (length (zeros (lenZ ids)) = length ids) as Hz by (unfold zeros, lenZ; rewrite length_replicate; lia).
  by rewrite !zip_mut_zip, !zip_with_first by congruence.
Qed.
Lemma length_batch_leaves ids idx : length (batch_leaves ids idx) = length ids.
Proof. unfold batch_leaves, fill_batch_new_leaves, zeros, lenZ. rewrite length_zip_mut, length_replicate. lia. Qed.

End Scans.

(** ** The benchmark is the run on a plain array *)

Section Bench.
Context `{SubtleLaws} {R : Type} `{Rng R}.

Lemma query_list_ok size n : 0 < size -> forall r : R, Forall (fun id => 0 <= id < size) (query_list size n r) /\ length (query_list size n r) = n.
Proof.
  intros Hs. induction n as [|n IH]; intros r; [done|]. cbn [query_list]. destruct (next_u64 r) as [w r']. destruct (IH r') as [IH1 IH2].
  split; [constructor; [by apply Z.mod_pos_bound|done]|cbn; by rewrite IH2].
Qed.
Lemma make_queries_eq size n seed : 0 < size -> 0 <= n -> make_queries (R := R) size n seed = Ok (query_list size (Z.to_nat n) (from_seed (R := R) seed)).
Proof.
  intros Hs Hn. unfold make_queries, draws. rewrite <-(Z2Nat.id n) at 1 by done. generalize (from_seed (R := R) seed) 0. generalize (Z.to_nat n) as k.
  induction k as [|k IH]; intros r i; [done|]. rewrite seqZ_cons by lia. cbn [mapM query_list]. unfold bind at 1, draw at 1.
  replace (Z.pred (Z.of_nat (Datatypes.S k))) with (Z.of_nat k) by lia.
  specialize (fun r => IH r (Z.succ i)). destruct (next_u64 r) as [w r']. rewrite (proj2 (Z.eqb_neq _ _)) by lia.
  unfold bind. specialize (IH r'). destruct (mapM _ _ r') as [[l|e| |] r'']; simplify_eq/=. done.
Qed.

Lemma make_pos_map_size size : 0 <= size -> length (make_pos_map size) = Z.to_nat size.
Proof. intros. unfold make_pos_map. by rewrite length_fmap, length_seqZ. Qed.

(** Looking everything up twice leaves the checksum. *)
Lemma xor_twice {A} (g : A -> Z) l : forall cs, foldl (fun cs x => Z.lxor cs (g x)) (foldl (fun cs x => Z.lxor cs (g x)) cs l) l = cs.
Proof.
  assert (forall cs, foldl (fun cs x => Z.lxor cs (g x)) cs l = Z.lxor cs (foldl (fun cs x => Z.lxor cs (g x)) 0 l)) as E.
  { induction l as [|x l IH]; intros cs; cbn [foldl]; [by rewrite Z.lxor_0_r|]. rewrite IH, (IH (Z.lxor 0 _)), Z.lxor_0_l. apply Z.lxor_assoc. }
  intros cs. rewrite !(E (foldl _ _ _)), E, Z.lxor_assoc, Z.lxor_nilpotent. apply Z.lxor_0_r.
Qed.

Section Size.
Context (size : Z).
Local Abbreviation id_ok := (fun id => 0 <= id < size).
Local Notation map_ok pm := (length pm = Z.to_nat size).

Lemma direct_lookup pm id : map_ok pm -> 0 <= id < size -> direct_pos_map_lookup pm id = Ok (pm_get pm id).
Proof.
  intros Hm Hi. unfold direct_pos_map_lookup, pm_get. destruct (lookup_lt_is_Some_2 pm (Z.to_nat id)) as [x E]; [lia|].
  rewrite E. apply indexZ_lookup; [done|lia].
Qed.
Lemma set_map_ok pm u : map_ok pm -> map_ok (pm_set pm u).
Proof. intros Hm. unfold pm_set. by rewrite length_insert. Qed.
Lemma sets_map_ok pm us : map_ok pm -> map_ok (foldl pm_set pm us).
Proof. intros Hm. by rewrite length_pm_sets. Qed.

Lemma warmup_eq ids : Forall id_ok ids -> forall st, map_ok st.1 ->
  ofold warmup_query st ids = Ok (foldl array_warmup st ids) /\ map_ok (foldl array_warmup st ids).1.
Proof.
  induction 1 as [|id ids Hid _ IH]; intros [pm cs] Hm; [done|]. cbv beta in Hid. cbn [ofold foldl warmup_query fst].
  rewrite direct_lookup by done. cbn [obind]. rewrite linear_scan_lookup, linear_scan_access by lia. cbn [obind].
  rewrite (Z.lxor_assoc (Z.lxor cs _)), Z.lxor_assoc, Z.lxor_nilpotent, Z.lxor_0_r. apply (IH (array_warmup (pm, cs) id)). by apply set_map_ok.
Qed.
Lemma measured_eq pm ids cs : map_ok pm -> Forall id_ok ids ->
  exists cs', ofold (direct_query pm) cs ids = Ok cs' /\ foldl (scan_query pm) cs' ids = cs.
Proof.
  intros Hm Hids. exists (foldl (fun cs id => Z.lxor cs (pm_get pm id)) cs ids). split.
  - revert cs. induction Hids as [|id ids Hid _ IH]; intros cs; [done|]. cbn [ofold foldl]. unfold direct_query at 1. rewrite direct_lookup by done. cbn [obind]. apply IH.
  - rewrite <-(xor_twice (pm_get pm) ids cs) at 2. generalize (foldl (fun cs id => Z.lxor cs (pm_get pm id)) cs ids) as c.
    induction Hids as [|id ids Hid _ IH]; intros c; [done|]. cbv beta in Hid. cbn [foldl]. unfold scan_query at 2. rewrite linear_scan_lookup by lia. apply IH.
Qed.
Lemma access_eq qs : Forall (fun q : Z * Z => id_ok q.2) qs -> forall st, map_ok st.1 ->
  foldl access_query st qs = foldl array_access st qs /\ map_ok (foldl array_access st qs).1.
Proof.
  induction 1 as [|q qs Hq _ IH]; intros [pm cs] Hm; [done|]. cbv beta in Hq. cbn [foldl access_query].
  rewrite linear_scan_access by lia. apply (IH (array_access (pm, cs) q)). by apply set_map_ok.
Qed.

(** Batches: the ids of each, in range, and the slice they come from *)
Context (ids : Z -> list Z) (batch_size : Z) (Hbatch : 0 < batch_size) (fetch : Z -> outcome (list Z)) (idxs : list Z).
Hypothesis Hfetch : forall i, i ∈ idxs -> fetch i = Ok (ids i) /\ Forall (fun id => 0 <= id) (ids i) /\ length (ids i) = Z.to_nat batch_size.

Definition run_ok (run : BatchRun) : Prop :=
  map_ok (br_pos_map run) /\ length (br_out run) = Z.to_nat batch_size /\ length (br_new_leaves run) = Z.to_nat batch_size.

Lemma lookup_step run i : run_ok run -> i ∈ idxs -> exists run', batch_lookup fetch run i = Ok run' /\ run_ok run' /\
  br_pos_map run' = br_pos_map run /\ br_checksum run' = Z.lxor (br_checksum run) (array_batch_sum (br_pos_map run) (ids i)).
Proof.
  intros (Hm & Ho & Hn) Hi. destruct (Hfetch i Hi) as (Ef & Hids & Hl). unfold batch_lookup. rewrite Ef. cbn [obind].
  rewrite batch_lookup_eq by (done || congruence). eexists. split; [done|]. split; [|done]. split; [done|]. split; [|done]. cbn. by rewrite length_fmap.
Qed.
Lemma update_step run i : run_ok run -> i ∈ idxs -> exists run', batch_update fetch run i = Ok run' /\ run_ok run' /\
  br_pos_map run' = array_batch_set (br_pos_map run) (ids i) i /\
  br_checksum run' = Z.lxor (br_checksum run) (array_batch_sum (br_pos_map run) (ids i)).
Proof.
  intros (Hm & Ho & Hn) Hi. destruct (Hfetch i Hi) as (Ef & Hids & Hl). unfold batch_update. rewrite Ef. cbn [obind].
  rewrite fill_eq by congruence. rewrite batch_update_eq by (rewrite ?length_batch_leaves; done || congruence).
  eexists. split; [done|]. split; [|done]. split; [by apply sets_map_ok|]. split; cbn; [by rewrite length_fmap|by rewrite length_batch_leaves].
Qed.

(** A loop over the batches that steps as [f] does on the map and the checksum *)
Lemma batch_loop (step : BatchRun -> Z -> outcome BatchRun) (f : list Z * Z -> Z -> list Z * Z) :
  (forall run i, run_ok run -> i ∈ idxs -> exists run', step run i = Ok run' /\ run_ok run' /\
     (br_pos_map run', br_checksum run') = f (br_pos_map run, br_checksum run) i) ->
  forall bs run, run_ok run -> bs ⊆ idxs -> exists run', ofold step run bs = Ok run' /\ run_ok run' /\
    (br_pos_map run', br_checksum run') = foldl f (br_pos_map run, br_checksum run) bs.
Proof.
  intros Hstep bs. induction bs as [|i bs IH]; intros run Hrun Hsub; [by exists run|]. cbn [ofold foldl].
  destruct (Hstep run i Hrun) as (run1 & E1 & H1' & E1'); [apply Hsub; left|]. rewrite E1, <-E1'. cbn [obind].
  apply IH; [done|]. intros x Hx. apply Hsub. by right.
Qed.
End Size.

Lemma fold_first {A B C} (g : A -> C -> A) l : forall (a : A) (b : B), foldl (fun st x => (g st.1 x, st.2)) (a, b) l = (foldl g a l, b).
Proof. induction l as [|x l IH]; intros a b; [done|]. apply IH. Qed.
Lemma fold_second {A B C} (h : A -> B -> C -> B) l : forall (a : A) (b : B), foldl (fun st x => (st.1, h st.1 st.2 x)) (a, b) l = (a, foldl (h a) b l).
Proof. induction l as [|x l IH]; intros a b; [done|]. apply IH. Qed.

(** The batches of a run are slices of the queries. *)
Lemma batch_fetch size bq ops warmup_ops max_batch_size batch_size i :
  Forall (fun id => 0 <= id < size) bq -> lenZ bq = (ops + warmup_ops) * max_batch_size -> (ops + warmup_ops) * max_batch_size <= u64_max ->
  0 < batch_size <= max_batch_size -> 0 <= i < ops + warmup_ops ->
  let ids := take (Z.to_nat batch_size) (drop (Z.to_nat (i * max_batch_size)) bq) in
  batch_ids bq max_batch_size batch_size i = Ok ids /\ Forall (fun id => 0 <= id) ids /\ length ids = Z.to_nat batch_size.
Proof.
  intros Hbq Hl Hmax Hb Hi ids. assert (0 <= i * max_batch_size /\ (i + 1) * max_batch_size <= (ops + warmup_ops) * max_batch_size) as [Hi0 Hi1] by nia.
  unfold batch_ids. rewrite mul64_small by lia. unfold slice.
  rewrite (proj2 (Z.leb_le 0 (i * _))), (proj2 (Z.leb_le 0 batch_size)), (proj2 (Z.leb_le _ (lenZ bq))) by lia. split; [done|]. split.
  - apply Forall_take, Forall_drop. eapply Forall_impl; [exact Hbq|]. cbn. lia.
  - subst ids. rewrite length_take, length_drop. unfold lenZ in Hl. lia.
Qed.

Lemma bench_batch_size_eq size ops warmup_ops max_batch_size bq batch_size pm cs reports :
  0 < size -> length pm = Z.to_nat size -> 0 <= ops -> 0 <= warmup_ops -> ops + warmup_ops <= u64_max ->
  Forall (fun id => 0 <= id < size) bq -> lenZ bq = (ops + warmup_ops) * max_batch_size -> (ops + warmup_ops) * max_batch_size <= u64_max ->
  0 < batch_size <= max_batch_size ->
  let st := array_batch_size size ops warmup_ops max_batch_size bq (pm, cs, reports) batch_size in
  bench_batch_size size (size * 4) ops warmup_ops max_batch_size bq (pm, cs, reports) batch_size = Ok st /\ length st.1.1 = Z.to_nat size.
Proof.
  intros Hs Hm Ho Hw Hsum Hbq Hl Hmax Hb. unfold bench_batch_size, array_batch_size. cbv zeta.
  set (ids := fun i => take (Z.to_nat batch_size) (drop (Z.to_nat (i * max_batch_size)) bq)).
  set (idxs := seqZ 0 (ops + warmup_ops)).
  assert (forall i, i ∈ idxs -> batch_ids bq max_batch_size batch_size i = Ok (ids i) /\ Forall (fun id => 0 <= id) (ids i) /\ length (ids i) = Z.to_nat batch_size) as Hf.
  { intros i Hi%elem_of_seqZ. by apply (batch_fetch size bq ops warmup_ops). }
  assert (add64 warmup_ops <$> seqZ 0 ops = Z.add warmup_ops <$> seqZ 0 ops) as ->.
  { apply list_fmap_ext. intros k i Hk%list_elem_of_lookup_2%elem_of_seqZ. apply add64_small. lia. }
  assert (seqZ 0 warmup_ops ⊆ idxs) as Hwarm by (intros i Hi; apply elem_of_seqZ in Hi; apply elem_of_seqZ; lia).
  assert (Z.add warmup_ops <$> seqZ 0 ops ⊆ idxs) as Hmeas.
  { intros i Hi. apply list_elem_of_fmap in Hi as (k & -> & Hk%elem_of_seqZ). apply elem_of_seqZ. lia. }
  pose proof (lookup_step size ids batch_size (batch_ids bq max_batch_size batch_size) idxs Hf) as Hlk.
  pose proof (update_step size ids batch_size (batch_ids bq max_batch_size batch_size) idxs Hf) as Hup.
  destruct (batch_loop size batch_size idxs
    (fun run i => let? run := batch_lookup (batch_ids bq max_batch_size batch_size) run i in batch_update (batch_ids bq max_batch_size batch_size) run i)
    (fun st i => (array_batch_set st.1 (ids i) i, st.2))) with (bs := seqZ 0 warmup_ops) (run := mkBatchRun pm cs (zeros batch_size) (zeros batch_size))
    as (run1 & E1 & Hr1 & Es1).
  { intros run i Hr Hi. destruct (Hlk run i Hr Hi) as (r1 & E1 & Hr1 & P1 & C1), (Hup r1 i Hr1 Hi) as (r2 & E2 & Hr2 & P2 & C2).
    exists r2. rewrite E1. split; [done|]. split; [done|]. cbn. by rewrite P2, C2, P1, C1, Z.lxor_assoc, Z.lxor_nilpotent, Z.lxor_0_r. }
  { split; [done|]. by split; apply length_replicate. }
  { done. }
  rewrite E1. cbn [obind]. cbn [br_pos_map br_checksum] in Es1. rewrite (fold_first (fun pm i => array_batch_set pm (ids i) i)) in Es1. injection Es1 as P1 C1.
  destruct (batch_loop size batch_size idxs _ (fun st i => (st.1, Z.lxor st.2 (array_batch_sum st.1 (ids i))))
    ltac:(intros run i Hr Hi; destruct (Hlk run i Hr Hi) as (r1 & F1 & Hr1' & Q1 & D1); exists r1; cbn; by rewrite Q1, D1)
    _ run1 Hr1 Hmeas) as (run2 & E2 & Hr2 & Es2).
  rewrite E2. cbn [obind]. rewrite (fold_second (fun pm cs i => Z.lxor cs (array_batch_sum pm (ids i)))), P1, C1 in Es2. injection Es2 as P2 C2.
  destruct (batch_loop size batch_size idxs _ (fun st i => (array_batch_set st.1 (ids i) i, Z.lxor st.2 (array_batch_sum st.1 (ids i))))
    ltac:(intros run i Hr Hi; destruct (Hup run i Hr Hi) as (r1 & F1 & Hr1' & Q1 & D1); exists r1; cbn; by rewrite Q1, D1)
    _ run2 Hr2 Hmeas) as (run3 & E3 & Hr3 & Es3).
  rewrite E3. cbn [obind]. rewrite P2, C2 in Es3.
  destruct Hr3 as [Hr3 _]. match type of Es3 with _ = ?F =>
    change (Ok (br_pos_map run3, br_checksum run3, reports ++
                [print_pos_map_batch_bench "batch_scan" size (size * 4) batch_size ops (br_checksum run3);
                 print_pos_map_batch_bench "batch_scan_update" size (size * 4) batch_size ops (br_checksum run3)]) =
            Ok (F.1, F.2, reports ++
                [print_pos_map_batch_bench "batch_scan" size (size * 4) batch_size ops F.2;
                 print_pos_map_batch_bench "batch_scan_update" size (size * 4) batch_size ops F.2]) /\ length F.1 = Z.to_nat size) end.
  by rewrite <-Es3.
Qed.

Lemma max_bounds l : forall m, m <= foldl Z.max m l /\ Forall (fun x => x <= foldl Z.max m l) l.
Proof.
  induction l as [|x l IH]; intros m; [done|]. cbn [foldl]. destruct (IH (Z.max m x)) as [H1' H2']. split; [lia|]. constructor; [lia|done].
Qed.

Lemma bench_pos_map_size_eq size ops warmup_ops batch_sizes seed :
  0 < size -> size * 4 <= u64_max -> 0 < ops -> 0 <= warmup_ops -> ops + warmup_ops <= u64_max -> Forall (fun b => 0 < b) batch_sizes ->
  (ops + warmup_ops) * foldl Z.max 0 batch_sizes <= u64_max ->
  bench_pos_map_size (R := R) ops warmup_ops batch_sizes seed size = Ok (array_bench_size (R := R) ops warmup_ops batch_sizes seed size).
Proof.
  intros Hs Hs4 Ho Hw Hsum Hbs Hmax. unfold bench_pos_map_size, array_bench_size. cbv zeta. rewrite (proj2 (Z.eqb_neq size 0)) by lia. cbn [negb guardo obind].
  rewrite add64_small by lia. rewrite (mul64_small size) by lia. rewrite make_queries_eq by lia. cbn [obind].
  set (qs := query_list size (Z.to_nat (ops + warmup_ops)) (from_seed seed)).
  destruct (query_list_ok size (Z.to_nat (ops + warmup_ops)) Hs (from_seed (R := R) seed)) as [Hq Hql]. fold qs in Hq, Hql.
  assert (slice qs 0 warmup_ops = Ok (take (Z.to_nat warmup_ops) qs)) as ->.
  { unfold slice. rewrite (proj2 (Z.leb_le 0 warmup_ops)), (proj2 (Z.leb_le (0 + _) _)) by (unfold lenZ; lia). done. }
  cbn [obind]. destruct (warmup_eq size (take (Z.to_nat warmup_ops) qs) ltac:(by apply Forall_take) (make_pos_map size, 0)) as [-> Hm1];
    [by apply make_pos_map_size, Z.lt_le_incl|]. cbn [obind].
  set (st1 := foldl array_warmup _ _) in *. set (measured := drop _ qs). assert (Forall (fun id => 0 <= id < size) measured) as Hmq by by apply Forall_drop.
  destruct (measured_eq size st1.1 measured st1.2 Hm1 Hmq) as (cs & -> & Ecs). cbn [obind]. rewrite Ecs. replace (st1.1, st1.2) with st1 by apply surjective_pairing.
  destruct (access_eq size (enumerate measured)) with (st := st1) as [-> Hm2]; [|done|].
  { apply Forall_lookup_2. intros k q Hk. rewrite lookup_enumerate in Hk. destruct (measured !! k) as [x|] eqn:Ex; simplify_eq/=.
    by apply (Forall_lookup_1 _ _ _ _ Hmq Ex). }
  set (st2 := foldl array_access _ _) in *. destruct (max_bounds batch_sizes 0) as [Hmx0 Hmx].
  destruct (0 <? foldl Z.max 0 batch_sizes) eqn:Epos; zbool.
  2: { destruct batch_sizes as [|b bs]; [done|]. apply Forall_cons in Hbs as [Hb _], Hmx as [Hbm _]. lia. }
  rewrite mul64_small by lia. rewrite make_queries_eq by lia. cbn [obind].
  set (bq := query_list size _ (from_seed seed)).
  destruct (query_list_ok size (Z.to_nat ((ops + warmup_ops) * foldl Z.max 0 batch_sizes)) Hs (from_seed (R := R) seed)) as [Hbq Hbl]. fold bq in Hbq, Hbl.
  match goal with |- context [ofold _ (st2.1, st2.2, ?reports) batch_sizes] => generalize reports as rs end. intros rs.
  assert (forall bs pm cs rs, Forall (fun b => 0 < b <= foldl Z.max 0 batch_sizes) bs -> length pm = Z.to_nat size ->
    ofold (bench_batch_size size (size * 4) ops warmup_ops (foldl Z.max 0 batch_sizes) bq) (pm, cs, rs) bs =
    Ok (foldl (array_batch_size size ops warmup_ops (foldl Z.max 0 batch_sizes) bq) (pm, cs, rs) bs)) as Hloop.
  { induction bs as [|b bs IH]; intros pm c rs' Hb Hpm; [done|]. apply Forall_cons in Hb as [Hb1 Hb2]. cbn [ofold foldl].
    destruct (bench_batch_size_eq size ops warmup_ops (foldl Z.max 0 batch_sizes) bq b pm c rs') as [-> Hpm']; try done; [lia|unfold lenZ; lia|].
    cbn [obind]. destruct (array_batch_size _ _ _ _ _ _ b) as [[pm' cs'] rs'']. by apply IH. }
  rewrite Hloop; [done| |exact Hm2]. apply Forall_and. by split.
Qed.

(** C28: [bench-pos-map] measures what it says: with sizes, operations and batch sizes that
    are positive and whose products are words, every run ends, and the lines it prints carry
    the checksums of the same run on a plain array - each masked scan, single or batched,
    looks up what an array lookup gives and stores what an array assignment stores, an id
    repeated in a batch keeping its last leaf. *)
Theorem pos_map_scans_are_array_runs sizes ops warmup_ops batch_sizes seed :
  sizes <> [] -> Forall (fun size => 0 < size /\ size * 4 <= u64_max) sizes -> 0 < ops -> 0 <= warmup_ops -> ops + warmup_ops <= u64_max ->
  Forall (fun b => 0 < b) batch_sizes -> (ops + warmup_ops) * foldl Z.max 0 batch_sizes <= u64_max ->
  bench_pos_maps (R := R) sizes ops warmup_ops batch_sizes seed = Ok (concat (array_bench_size (R := R) ops warmup_ops batch_sizes seed <$> sizes)).
Proof.
  intros Hne Hsz Ho Hw Hsum Hbs Hmax. unfold bench_pos_maps. pose proof (lenZ_nonneg sizes).
  rewrite (proj2 (Z.eqb_neq (lenZ sizes) 0)) by (destruct sizes; [done|rewrite lenZ_cons in *; pose proof (lenZ_nonneg sizes); lia]).
  rewrite (proj2 (Z.eqb_neq ops 0)) by lia. cbn [negb guardo obind].
  rewrite bool_decide_eq_false_2 by (intros Hin; rewrite Forall_forall in Hbs; specialize (Hbs _ Hin); lia). cbn [negb guardo obind].
  rewrite (omap_m_pure _ (array_bench_size (R := R) ops warmup_ops batch_sizes seed)); [done|].
  rewrite Forall_forall in Hsz. intros size Hin. destruct (Hsz size Hin). by apply bench_pos_map_size_eq.
Qed.
End Bench.

#[local] Existing Instance bool_subtle.
#[local] Existing Instance bool_subtle_laws.

Lemma pos_map_scans_are_array_runs_witness :
  bench_pos_maps (R := Z) [3; 5] 2 1 [1; 4] [] = Ok (concat (array_bench_size (R := Z) 2 1 [1; 4] [] <$> [3; 5])) /\
  length (concat (array_bench_size (R := Z) 2 1 [1; 4] [] <$> [3; 5])) = 14%nat.
Proof.
  split; [|vm_compute; reflexivity].
  refine (pos_map_scans_are_array_runs [3; 5] 2 1 [1; 4] [] _ _ _ _ _ _ _).
  - discriminate.
  - repeat constructor; vm_compute; discriminate.
  - reflexivity.
  - discriminate.
  - vm_compute; discriminate.
  - by repeat constructor.
  - vm_compute; discriminate.
Defined.
