(* ===== verification/BuildDirect.v ===== *)
(** * The command [build-direct] ([src/src/bin/oramctl.rs])

    [build_direct_images] binds the source files to the certified database, builds the
    image of each level asked for and writes the build evidence, which lists the files
    of the output directory with their hashes.  A directory is the files whose paths
    begin with its name; subdirectories, which the listing skips, are not modelled.  How
    the evidence is written as JSON and with bincode is third-party code. *)

From S2P Require Import Prelude Ct Params Store Rng State Aead Hash SealedState Embedded Evidence Float64 Direct.
From S2P Require Import Disk ImageFiles ImageOps Bench.
From Stdlib Require Import Ascii.

(** ** The evidence *)

(** Mirror of [struct DirectOramParamsEvidence]. *)
Record DirectOramParamsEvidence : Type := mkParamsEvidence {
  pe_pack : Z;
  pe_leaf_divisor : Z;
  pe_bucket_size : Z;
  pe_stash_capacity : Z;
  pe_cache_levels : Z;
  pe_auth_store : bool;
  pe_auth_layout : string;
  pe_auth_trusted_levels : Z;
  pe_auth_hash_page_size : Z;
  pe_index_slots_per_bin : Z;
  pe_index_hash_fns : Z;
  pe_index_load_factor : f64;
  pe_index_seed : Z;
  pe_oram_rng_seed_hex : string
}.

(** Mirror of [struct OramBuildEvidence]. *)
Record OramBuildEvidence : Type := mkBuildEvidence {
  be_version : Z;
  be_build : string;
  be_strict_source_binding : bool;
  be_db_certification : DbCertificationEvidence;
  be_db_build_evidence : option ArtifactEvidence;
  be_root_bundle_payload : option ArtifactEvidence;
  be_source_files : DirectSourceFilesEvidence;
  be_oram_params : DirectOramParamsEvidence;
  be_output_artifacts : list ArtifactEvidence;
  be_controller_states : list DirectControllerStateEvidence
}.

(** [serde_json::to_vec_pretty] of one type *)
Class Json (A : Type) : Type := { to_vec_pretty : A -> option bytes }.

(** ** Directories *)

(** The name and the extension of a file: what is before and after the last dot, when
    the name does not begin with it *)
Fixpoint split_last_dot (name : string) : option (string * string) :=
  match name with
  | EmptyString => None
  | String a rest =>
      match split_last_dot rest with
      | Some (stem, ext) => Some (String a stem, ext)
      | None => if Ascii.eqb a "."%char then Some (EmptyString, rest) else None
      end
  end.
Definition entry_path (dir name : string) : FilePath :=
  match split_last_dot name with
  | Some (String a stem, ext) => mkPath (dir +:+ "/")%string (String a stem) (Some ext)
  | _ => mkPath (dir +:+ "/")%string name None
  end.

(** [s.strip_prefix(prefix)] *)
Fixpoint strip_prefix (prefix s : string) : option string :=
  match prefix, s with
  | EmptyString, s => Some s
  | String a prefix, String b s => if Ascii.eqb a b then strip_prefix prefix s else None
  | String _ _, EmptyString => None
  end.
Definition starts_with (prefix s : string) : bool := match strip_prefix prefix s with Some _ => true | None => false end.
Fixpoint has_slash (s : string) : bool :=
  match s with EmptyString => false | String a s => Ascii.eqb a "/"%char || has_slash s end.

(** The names of the files of a directory, which [fs::read_dir] lists in some order *)
Definition dir_names (dir : string) (fs : gmap string bytes) : list string :=
  omap (fun path => match strip_prefix (dir +:+ "/")%string path with
                    | Some name => if has_slash name then None else Some name
                    | None => None
                    end) (fst <$> map_to_list fs).

(** The order of the paths of one directory *)
Definition path_le (a b : string) : Prop := String.leb a b = true.
#[export] Instance path_le_dec : RelDecision path_le := fun a b => bool_eq_dec (String.leb a b) true.

(** ** The command *)

Section Command.
Context {C OS R : Type} `{Cipher C} `{OsRandom OS} `{HostIo OS} `{Hex} `{Hash} `{Subtle} `{Rng R}.
Context `{Bincode (CircuitOramState R)} `{Bincode (LegacyCircuitOramState R)}.
Context `{Bincode CircuitStoreAuthState} `{Bincode LegacyCircuitStoreAuthState} `{Bincode DirectTableMetadata} `{Mmap}.
Context `{Json OramBuildEvidence} `{Bincode OramBuildEvidence}.
Local Abbreviation HM := (M (Host OS)).

(** [fs::write] *)
Definition fs_write (path : FilePath) (data : bytes) : HM unit :=
  let* _ := file_create path in write_and_flush path data.

(** [direct_oram_params_evidence] *)
Definition direct_oram_params_evidence (o : ImageOptions) (index_slots_per_bin index_hash_fns : Z) (index_load_factor : f64) (index_seed : Z)
    (seed : bytes) : DirectOramParamsEvidence :=
  mkParamsEvidence (opt_pack o) (opt_leaf_divisor o) (opt_bucket_size o) (opt_stash_capacity o) (opt_cache_levels o) (opt_auth_store o)
    (layout_label (opt_auth_layout o)) (opt_auth_trusted_levels o) (opt_auth_hash_page_size o) index_slots_per_bin index_hash_fns
    index_load_factor index_seed (hex_encode seed).

(** [direct_output_artifact_manifest] *)
Definition is_output (name : string) : bool := starts_with "direct-index." name || starts_with "direct-chunk." name.
Definition direct_output_artifact_manifest (out_dir : string) : HM (list ArtifactEvidence) :=
  let* _ := fs_visit in
  let* names := gets (fun h => dir_names out_dir (files h)) in
  let* _ := iterM (fun _ => let* _ := fs_visit in fs_visit) names in
  let paths := merge_sort path_le (filter (fun name => is_output name = true) names) in
  mapM (fun name => artifact_evidence (entry_path out_dir name)) paths.

Definition ORAM_BUILD_EVIDENCE_JSON_FILE (out_dir : string) : FilePath := join out_dir "oram-build-evidence" "json".
Definition ORAM_BUILD_EVIDENCE_BIN_FILE (out_dir : string) : FilePath := join out_dir "oram-build-evidence" "bin".
(** [write_oram_build_evidence] *)
Definition write_oram_build_evidence (out_dir : string) (evidence : OramBuildEvidence) : HM unit :=
  let* json := lift (ok_or (to_vec_pretty evidence) (InvalidInput "serialize ORAM build evidence JSON: {err}")) in
  let* _ := fs_write (ORAM_BUILD_EVIDENCE_JSON_FILE out_dir) json in
  let* encoded := lift (ok_or (bin_serialize evidence) BincodeError) in
  fs_write (ORAM_BUILD_EVIDENCE_BIN_FILE out_dir) encoded.

(** [path.map(artifact_evidence).transpose()?] *)
Definition optional_artifact (path : option FilePath) : HM (option ArtifactEvidence) :=
  match path with Some path => let* a := artifact_evidence path in ret (Some a) | None => ret None end.

(** [build_direct_images] *)
Definition build_direct_images (index_file chunks_file : FilePath) (out_dir : string) (level : DirectLevelArg) (o : ImageOptions)
    (index_slots_per_bin index_hash_fns : Z) (index_load_factor : f64) (index_seed : Z) (seed : bytes)
    (evidence_inputs : DirectBuildEvidenceInputs) : HM unit :=
  let* _ := guardm (negb (opt_pack o =? 0)) (InvalidInput "--pack must be > 0") in
  let* _ := guardm (negb (opt_leaf_divisor o =? 0)) (InvalidInput "--leaf-divisor must be > 0") in
  let* _ := if opt_encrypted o then let* _ := lift (parse_required_key (opt_key_hex o)) in ret tt else ret tt in
  let* _ := fs_visit in
  let* infos := direct_infos index_file chunks_file index_slots_per_bin index_hash_fns index_load_factor index_seed in
  let* bound := bind_sources infos evidence_inputs in
  let '(source_files, certified_db) := bound in
  let* controller_states := mapM (fun selected_level =>
    let* info := lift (find_level selected_level infos) in
    build_direct_table (C := C) (R := R) out_dir info o (derive_direct_level_seed seed (dti_level info))) (direct_level_levels level) in
  let* db_build_evidence := optional_artifact (in_db_build_evidence evidence_inputs) in
  let* root_bundle_payload := optional_artifact (in_root_bundle_payload evidence_inputs) in
  let* output_artifacts := direct_output_artifact_manifest out_dir in
  write_oram_build_evidence out_dir
    (mkBuildEvidence ORAM_BUILD_EVIDENCE_VERSION "bitcoinpir-oram/direct-build" (strict_source_binding evidence_inputs)
       (build_db_certification_evidence evidence_inputs certified_db) db_build_evidence root_bundle_payload source_files
       (direct_oram_params_evidence o index_slots_per_bin index_hash_fns index_load_factor index_seed seed)
       output_artifacts controller_states).

End Command.
