(* ===== verification/BuildDirectSpec.v ===== *)
(** * What [build-direct] leaves

    On a host whose operations do not fail: the listing of the output directory, and the
    whole command - the images of the levels asked for, and the evidence about the sources,
    the states and the files. *)

From S2P Require Import Prelude Ct Params Store Writable Schedule Bucket Rng State Circuit Blocks Build Aead Hash TieredMerkle SealedState Fixint FileStore.
From S2P Require Import Evidence EvidenceSpec Float64 Direct IndexTable Packed Slots IndexProofs DirectSpec Sizing Disk ReopenStore ImageFiles ImageOpen ImageOps ImageRest.
From S2P Require Import OramReads DirectReader DirectLookup ImageSession ImageBuild ImageSpec Bench BenchSpec BenchDirect BuildDirect.
From Stdlib Require Import Ascii.

(** ** Names *)

Lemma app_inj_string (a b c : string) : (a +:+ b = a +:+ c)%string -> b = c.
Proof. induction a as [|x a IH]; [done|]. intros E. injection E. done. Qed.

Lemma split_last_dot_app name stem ext : split_last_dot name = Some (stem, ext) -> name = (stem +:+ ("." +:+ ext))%string.
Proof.
  revert stem. induction name as [|a name IH]; intros stem E; [done|]. cbn [split_last_dot] in E.
  destruct (split_last_dot name) as [[st ex]|].
  - injection E as <- <-. exact (f_equal (String a) (IH st eq_refl)).
  - destruct (Ascii.eqb_spec a "."%char) as [->|]; [|done]. by injection E as <- <-.
Qed.
(** [Path::display] and [Path::file_name] of an entry *)
Definition file_name (p : FilePath) : string := (file_stem p +:+ match extension p with Some e => "." +:+ e | None => "" end)%string.
Lemma app_empty_string (s : string) : (s +:+ "")%string = s.
Proof. induction s as [|a s IH]; [done|]. exact (f_equal (String a) IH). Qed.
Lemma entry_path_names dir name : file_name (entry_path dir name) = name /\ render (entry_path dir name) = (dir +:+ "/" +:+ name)%string.
Proof.
  assert (file_name (entry_path dir name) = name /\ parent (entry_path dir name) = (dir +:+ "/")%string) as [Hf Hp].
  { unfold entry_path, file_name. destruct (split_last_dot name) as [[[|a stem] ext]|] eqn:E; cbn [file_stem extension parent]; rewrite ?app_empty_string; split; try done.
    by apply split_last_dot_app in E. }
  split; [done|]. transitivity (dir +:+ "/" +:+ file_name (entry_path dir name))%string; [|by rewrite Hf].
  unfold render, file_name. by rewrite Hp, !string_app_assoc.
Qed.

Lemma strip_prefix_Some prefix s rest : strip_prefix prefix s = Some rest <-> s = (prefix +:+ rest)%string.
Proof.
  revert s. induction prefix as [|a prefix IH]; intros s; cbn; [naive_solver|].
  destruct s as [|b s]; [done|]. destruct (Ascii.eqb_spec a b) as [->|Hne]; [rewrite IH; split; [by intros ->|intros E; by injection E]|]. split; [done|]. intros E. injection E as Hba _. by destruct Hne.
Qed.
Lemma starts_with_app prefix rest : starts_with prefix (prefix +:+ rest)%string = true.
Proof. unfold starts_with. by rewrite (proj2 (strip_prefix_Some _ _ rest) eq_refl). Qed.

Lemma elem_of_dir_names dir fs name : name ∈ dir_names dir fs <-> has_slash name = false /\ is_Some (fs !! (dir +:+ "/" +:+ name)%string).
Proof.
  unfold dir_names. rewrite list_elem_of_omap. split.
  - intros (path & Hp & E). apply list_elem_of_fmap in Hp as ([k b] & -> & Hk%elem_of_map_to_list). cbn in E.
    destruct (strip_prefix _ k) as [rest|] eqn:Ek; [|done]. apply strip_prefix_Some in Ek as ->. destruct (has_slash rest) eqn:Es; [done|].
    injection E as <-. split; [done|]. rewrite string_app_assoc in Hk. by exists b.
  - intros [Hs [b Hb]]. exists (dir +:+ "/" +:+ name)%string. split.
    + apply list_elem_of_fmap. exists ((dir +:+ "/" +:+ name)%string, b). split; [done|]. by apply elem_of_map_to_list.
    + rewrite (proj2 (strip_prefix_Some _ _ name)) by by rewrite string_app_assoc. by rewrite Hs.
Qed.
Lemma dir_names_NoDup dir fs : NoDup (dir_names dir fs).
Proof.
  unfold dir_names. pose proof (NoDup_fst_map_to_list fs) as Hnd. induction (fst <$> map_to_list fs) as [|k l IH]; [constructor|].
  apply NoDup_cons in Hnd as [Hk Hnd]. specialize (IH Hnd). cbn [omap list_omap].
  destruct (strip_prefix _ k) as [rest|] eqn:Ek; [|done]. destruct (has_slash rest) eqn:Es; [done|]. constructor; [|done].
  intros (k' & Hk' & E)%list_elem_of_omap. destruct (strip_prefix _ k') as [rest'|] eqn:Ek'; [|done]. destruct (has_slash rest'); [done|].
  injection E as ->. apply strip_prefix_Some in Ek as ->, Ek' as ->. done.
Qed.

(** ** The manifest *)

Section Manifest.
Context {OS : Type} `{Hash} `{Hex}.

(** What the evidence says of a file *)
Definition artifact_of (path : FilePath) (b : bytes) : ArtifactEvidence := mkArtifact (render path) (file_name path) (hex_encode (sha256 b)) (lenZ b).

(** The outputs of a build in a directory, in the order of their names *)
Record lists_outputs (dir : string) (fs : gmap string bytes) (artifacts : list ArtifactEvidence) : Prop := {
  lo_sorted : StronglySorted (fun a b => path_le (ar_file_name a) (ar_file_name b)) artifacts;
  lo_once : NoDup (ar_file_name <$> artifacts);
  lo_exact : forall a, a ∈ artifacts <-> exists name b, is_output name = true /\ has_slash name = false /\
    fs !! (dir +:+ "/" +:+ name)%string = Some b /\ a = artifact_of (entry_path dir name) b
}.

Lemma reads_artifact path (h : Host OS) b : faults h = [] -> files h !! render path = Some b -> artifact_evidence path h = (Ok (artifact_of path b), h).
Proof.
  intros Hf Hb. unfold artifact_evidence. rewrite (bind_eq _ _ _ (sha256 b, lenZ b) h); [done|].
  pose proof (reads_sha256_file path h Hf) as E. unfold reads in E. rewrite E. unfold contents. by rewrite Hb.
Qed.
Lemma visit_ok (h : Host OS) : faults h = [] -> fs_visit h = (Ok tt, h).
Proof. intros Hf. unfold fs_visit. by rewrite (bind_eq _ _ _ _ _ (no_fault h Hf)). Qed.

Lemma visits_ok {A} (l : list A) (h : Host OS) : faults h = [] -> iterM (fun _ => let* _ := fs_visit in fs_visit) l h = (Ok tt, h).
Proof.
  intros Hf. induction l as [|x l IH]; [done|]. cbn [iterM]. rewrite (bind_eq _ _ _ tt h); [exact IH|].
  rewrite (bind_eq _ _ _ _ _ (visit_ok h Hf)). by apply visit_ok.
Qed.

#[local] Instance path_le_total : Total path_le.
Proof. intros a b. destruct (String.leb_total a b); auto. Qed.
#[local] Instance path_le_trans : Transitive path_le.
Proof.
  intros a b c. unfold path_le, String.leb. revert b c. induction a as [|x a IH]; intros [|y b] [|z c]; cbn; try done.
  unfold Ascii.compare. destruct (N.compare_spec (N_of_ascii x) (N_of_ascii y)) as [Exy|Hxy|Hxy]; [|intros _|done].
  - rewrite Exy. destruct (N.compare_spec (N_of_ascii y) (N_of_ascii z)); [apply IH|done|done].
  - destruct (N.compare_spec (N_of_ascii y) (N_of_ascii z)) as [Eyz|Hyz|Hyz]; [|intros _|done].
    + intros _. by rewrite <-Eyz, (proj2 (N.compare_lt_iff _ _) Hxy).
    + by rewrite (proj2 (N.compare_lt_iff _ _) (N.lt_trans _ _ _ Hxy Hyz)).
Qed.

Lemma manifest_lists dir (h : Host OS) : faults h = [] ->
  exists artifacts, direct_output_artifact_manifest dir h = (Ok artifacts, h) /\ lists_outputs dir (files h) artifacts.
Proof.
  intros Hf. set (names := merge_sort path_le (filter (fun name => is_output name = true) (dir_names dir (files h)))).
  set (artifact := fun name => artifact_of (entry_path dir name) (default [] (files h !! (dir +:+ "/" +:+ name)%string))).
  assert (forall name, name ∈ names <-> is_output name = true /\ has_slash name = false /\ is_Some (files h !! (dir +:+ "/" +:+ name)%string)) as Hin.
  { intros name. unfold names. rewrite merge_sort_Permutation, list_elem_of_filter, elem_of_dir_names. done. }
  exists (artifact <$> names). split.
  - unfold direct_output_artifact_manifest. rewrite (bind_eq _ _ _ _ _ (visit_ok h Hf)), bind_gets.
    rewrite (bind_eq _ _ _ tt h).
    2: { by apply visits_ok. }
    fold names. assert (forall name, name ∈ names -> is_Some (files h !! (dir +:+ "/" +:+ name)%string)) as Hex by (intros name Hn; by apply Hin in Hn as (_ & _ & ?)).
    clear Hin. clearbody names. induction names as [|name l IH]; [done|]. cbn [mapM fmap list_fmap]. destruct (Hex name) as [b Hb]; [by left|].
    rewrite (bind_eq _ _ _ (artifact name) h); [|unfold artifact; rewrite Hb; apply reads_artifact; [done|by rewrite (proj2 (entry_path_names dir name))]].
    rewrite (bind_eq _ _ _ (artifact <$> l) h); [done|]. apply IH. intros n Hn. apply Hex. by right.
  - assert (forall name, ar_file_name (artifact name) = name) as Hname by (intros name; apply (entry_path_names dir name)).
    split.
    + assert (StronglySorted path_le names) as Hs.
      { apply (StronglySorted_merge_sort path_le). }
      clear Hin. clearbody names. induction Hs as [|name l _ IH Hall]; constructor; [exact IH|]. apply Forall_fmap. eapply Forall_impl; [exact Hall|]. intros n Hn.
      change (path_le (ar_file_name (artifact name)) (ar_file_name (artifact n))). by rewrite !Hname.
    + rewrite <-list_fmap_compose. rewrite (list_fmap_ext _ id) by (intros; apply Hname). rewrite list_fmap_id. unfold names.
      rewrite merge_sort_Permutation. apply NoDup_filter, dir_names_NoDup.
    + intros a. rewrite list_elem_of_fmap. split.
      * intros (name & -> & (Ho & Hs & [b Hb])%Hin). exists name, b. unfold artifact. by rewrite Hb.
      * intros (name & b & Ho & Hs & Hb & ->). exists name. unfold artifact. rewrite Hb. split; [done|]. apply Hin. by rewrite Hb.
Qed.

(** A file that is no output does not change the list. *)
Lemma lists_outputs_insert dir fs artifacts name x : is_output name = false ->
  lists_outputs dir fs artifacts -> lists_outputs dir (<[(dir +:+ "/" +:+ name)%string := x]> fs) artifacts.
Proof.
  intros Hn [Hs Ho He]. split; [done..|]. intros a. rewrite He. split; intros (nm & b & Hout & Hsl & Hb & ->); exists nm, b; (split; [done|]; split; [done|]; split; [|done]).
  - rewrite lookup_insert_ne; [done|]. intros E%app_inj_string%app_inj_string. congruence.
  - rewrite lookup_insert_ne in Hb; [done|]. intros E%app_inj_string%app_inj_string. congruence.
Qed.
End Manifest.

(** ** The command *)

(** Serializers yield bytes. *)
Class JsonLaws (A : Type) `{Json A} : Prop := { json_bytes : forall (x : A) b, to_vec_pretty x = Some b -> bytes_ok b }.

(** The files of an image begin with its label. *)
Lemma output_label dir label q : q ∈ path_names (output_paths dir label) -> exists s, q = (dir +:+ "/" +:+ label +:+ s)%string.
Proof.
  unfold path_names, output_paths, tmp_path, with_extension, render, join. cbn [fmap list_fmap meta_image payload_image
    meta_hash_image payload_hash_image state_path auth_state_path metadata_path parent file_stem extension].
  intros Hq. repeat (apply elem_of_cons in Hq as [->|Hq]; [eexists; rewrite !string_app_assoc; reflexivity|]). by apply not_elem_of_nil in Hq.
Qed.
Lemma output_name dir level q : q ∈ path_names (direct_output_paths dir level) ->
  exists s, q = (dir +:+ "/" +:+ "direct-" +:+ direct_label level +:+ s)%string.
Proof. intros (s & ->)%output_label. exists s. by rewrite !string_app_assoc. Qed.
Lemma levels_apart dir l1 l2 q : l1 <> l2 -> q ∈ path_names (direct_output_paths dir l1) -> q ∉ path_names (direct_output_paths dir l2).
Proof.
  intros Hne (s1 & E1)%output_name (s2 & E2)%output_name. rewrite E1 in E2.
  apply app_inj_string, app_inj_string, app_inj_string in E2. by destruct l1, l2.
Qed.
Lemma evidence_apart dir level q : q ∈ path_names (direct_output_paths dir level) ->
  q <> render (ORAM_BUILD_EVIDENCE_JSON_FILE dir) /\ q <> render (ORAM_BUILD_EVIDENCE_BIN_FILE dir).
Proof.
  intros (s & ->)%output_name. unfold ORAM_BUILD_EVIDENCE_JSON_FILE, ORAM_BUILD_EVIDENCE_BIN_FILE, join, render. cbn [parent file_stem extension].
  rewrite !string_app_assoc. split; intros E%app_inj_string%app_inj_string; destruct level; discriminate E.
Qed.

Section Command.
Context {C OS R : Type} `{CipherLaws C} `{OsRandom OS} `{HostIo OS} `{Hex} `{HashLaws} `{SL : SubtleLaws} `{Rng R}.
Context `{BincodeLaws (CircuitOramState R)} `{BincodeLaws (LegacyCircuitOramState R)}.
Context `{BincodeLaws CircuitStoreAuthState} `{BincodeLaws LegacyCircuitStoreAuthState} `{BincodeLaws DirectTableMetadata} `{MmapLaws}.
Context `{JsonLaws OramBuildEvidence} `{BincodeLaws OramBuildEvidence}.
Context (Hio : forall path, Forall (fun t => t <> TransferError) (io_script (OS := OS) path)).
Local Abbreviation HS := (Host OS).

Lemma fs_write_yields (E : Error -> Prop) path data (h : HS) : bytes_ok data -> clear h ->
  yields E (fs_write path data) h (fun _ h' => clear h' /\ files h' = <[render path := data]> (files h)).
Proof.
  intros Hd [Hf Hb]. destruct h as [fs fl ro]. cbn in Hf, Hb. subst fl.
  unfold yields, fs_write, file_create, write_and_flush, next_fault, bind, modify. cbn [head tail default id files faults os set_files].
  rewrite insert_insert_eq. split; [|done]. split; [done|]. by apply map_Forall_insert_2.
Qed.

Lemma direct_infos_eq index_file chunks_file slots fns load iseed (h0 h1 h2 : HS) index chunks :
  from_index_file index_file slots fns load iseed h0 = (Ok index, h1) -> from_chunks_file chunks_file h1 = (Ok chunks, h2) ->
  direct_infos index_file chunks_file slots fns load iseed h0 = (Ok [index; chunks], h2).
Proof. intros E1 E2. unfold direct_infos. by rewrite (bind_eq _ _ _ _ _ E1), (bind_eq _ _ _ _ _ E2). Qed.

(** The key of encrypted images is given, as the commands check first. *)
Lemma key_checked im (c : option C) (h : HS) : image_fits im c -> check_options (opt_encrypted (i_options im)) (opt_key_hex (i_options im)) h = (Ok tt, h).
Proof.
  intros Hf. destruct (cipher_for_encrypted _ _ _ (if_cipher _ _ Hf)) as [Henc Hkey]. unfold check_options. rewrite Henc. destruct c as [k|]; [|done].
  destruct (Hkey k eq_refl) as (key & Ek & _). rewrite bool_decide_eq_true_2 by by eexists. by rewrite bind_lift, Ek.
Qed.

(** *** The inputs of a build *)

Record BuildInputs : Type := mkBuildInputs {
  bi_dir : string;
  bi_index_file : FilePath;
  bi_chunks_file : FilePath;
  bi_options : ImageOptions;
  bi_slots : Z;
  bi_fns : Z;
  bi_load : f64;
  bi_index_seed : Z;
  bi_evidence : DirectBuildEvidenceInputs
}.
Context (i : BuildInputs).
Local Abbreviation dir := (bi_dir i).
Local Abbreviation o := (bi_options i).

(** The contents of the source files, what the tables of them are, and what is certified *)
Record BuildSources : Type := mkBuildSources {
  bs_index_bytes : bytes;
  bs_chunk_bytes : bytes;
  bs_index : DirectTableInfo;
  bs_chunks : DirectTableInfo;
  bs_certified : option CertifiedDbBinding
}.
Context (s : BuildSources).
Definition bs_evidence : DirectSourceFilesEvidence :=
  mkSourcesEvidence (source_evidence (bs_index s) 25 (bs_index_bytes s)) (source_evidence (bs_chunks s) 40 (bs_chunk_bytes s)).

(** The host has the sources; they and the certified database are as the options expect. *)
Record sources_bound (h0 : HS) : Prop := {
  sb_clear : clear h0;
  sb_index_file : files h0 !! render (bi_index_file i) = Some (bs_index_bytes s);
  sb_chunks_file : files h0 !! render (bi_chunks_file i) = Some (bs_chunk_bytes s);
  sb_index_info : from_index_file (bi_index_file i) (bi_slots i) (bi_fns i) (bi_load i) (bi_index_seed i) h0 = (Ok (bs_index s), h0);
  sb_chunks_info : from_chunks_file (bi_chunks_file i) h0 = (Ok (bs_chunks s), h0);
  sb_certified : certified_by (files h0) (bi_evidence i) (bs_certified s);
  sb_binding : binding_holds (bi_evidence i) bs_evidence (bs_certified s)
}.

Definition input_paths : list FilePath :=
  bi_index_file i :: bi_chunks_file i :: option_list (in_db_build_evidence (bi_evidence i)) ++ option_list (in_root_bundle_payload (bi_evidence i)).

(** Tables the images can hold, with [n level] accesses after the build *)
Context (c : option C) (n : DirectLevel -> Z) (params_of : DirectLevel -> OramParams).
Definition info_of (level : DirectLevel) : DirectTableInfo := match level with DirectIndex => bs_index s | DirectChunk => bs_chunks s end.
Record level_fits (level : DirectLevel) : Prop := {
  lf_estimate : exists est, direct_estimate (image_sizing o) (info_of level) = Ok est /\ image_params o (de_sizes est) = Ok (params_of level);
  lf_image : image_fits (direct_image dir level o (params_of level)) c;
  lf_build : build_fits (direct_image dir level o (params_of level));
  lf_record : can_record (n level) (schedule_new (params_of level));
  lf_apart : forall path, path ∈ input_paths -> render path ∉ path_names (direct_output_paths dir level);
  lf_pack : 0 < opt_pack o;
  lf_table : match level with
    | DirectIndex => 0 < lenZ (bs_index_bytes s) /\ 0 < bi_slots i /\ 0 < bi_fns i <= dti_total_items (bs_index s) /\ dti_records (bs_index s) <= u32_max /\
        dti_total_items (bs_index s) * bi_slots i <= u64_max /\ bi_slots i * DIRECT_INDEX_SLOT_SIZE * opt_pack o <= u64_max
    | DirectChunk => 0 < lenZ (bs_chunk_bytes s) <= u64_max /\ DIRECT_CHUNK_RECORD_SIZE * opt_pack o <= u64_max
    end
}.

Definition direct_build_error (e : Error) : Prop :=
  (exists level, build_error (direct_image dir level o (params_of level)) e) \/ e = InvalidInput KICKS \/
  e = InvalidInput "serialize ORAM build evidence JSON: {err}" \/ e = BincodeError.

(** *** One level *)

Definition source_path (level : DirectLevel) : FilePath := match level with DirectIndex => bi_index_file i | DirectChunk => bi_chunks_file i end.
Definition source_bytes (level : DirectLevel) : bytes := match level with DirectIndex => bs_index_bytes s | DirectChunk => bs_chunk_bytes s end.
(** The metadata of a level's table, saved beside its image *)
Record ready (level : DirectLevel) (md : DirectTableMetadata) (h : HS) : Prop := {
  rd_info : from_info (info_of level) (opt_pack o) = Ok md;
  rd_pack : dm_items_per_block md = opt_pack o;
  rd_valid : direct_validate md = Ok tt;
  rd_blocks : logical_blocks (params_of level) = dm_logical_blocks md;
  rd_size : block_size (params_of level) = dm_block_payload_bytes md;
  rd_saved : metadata_saved (direct_output_paths dir level) md h
}.

(** The image of a level is closed over the blocks of its table for [k] accesses. *)
Definition level_closed (k : Z) (level : DirectLevel) (h : HS) : Prop :=
  let im := direct_image dir level o (params_of level) in
  match level with
  | DirectIndex => exists t, index_source_ok t /\ is_info t = bs_index s /\ is_mmap t = bs_index_bytes s /\ ready level (is_metadata t) h /\
      closed (R := R) im c k h (index_array t)
  | DirectChunk => exists t, chunk_source_ok t /\ cs_mmap t = bs_chunk_bytes s /\ ready level (cs_metadata t) h /\
      closed (R := R) im c k h (chunk_array t)
  end.
(** It is, and the evidence is of its saved state. *)
Definition level_done (level : DirectLevel) (ev : DirectControllerStateEvidence) (h : HS) : Prop :=
  state_recorded (R := R) (direct_image dir level o (params_of level)) level ev h /\ level_closed (n level) level h.

Lemma ready_frame ks level md (h h' : HS) : touches ks h h' -> (forall q, q ∈ path_names (direct_output_paths dir level) -> q ∉ ks) ->
  ready level md h -> ready level md h'.
Proof.
  intros Ht Hks [Hi Hp Hv Hl Hb (b & Hf & Hd)]. split; try done. exists b. split; [|done]. rewrite (touches_lookup _ _ _ _ Ht); [done|]. apply Hks.
  unfold path_names. cbn [fmap list_fmap app]. repeat first [apply list_elem_of_here | apply list_elem_of_further].
Qed.
Lemma level_closed_frame ks k level (h h' : HS) : touches ks h h' -> (forall q, q ∈ path_names (direct_output_paths dir level) -> q ∉ ks) ->
  level_closed k level h -> level_closed k level h'.
Proof.
  intros Ht Hks Hl. destruct level; [destruct Hl as (t & Ht1 & Ht2 & Ht3 & Hr & Hc)|destruct Hl as (t & Ht1 & Ht3 & Hr & Hc)]; exists t; repeat (split; [done|]);
    (split; [by eapply ready_frame|by eapply closed_frame]).
Qed.
Lemma level_done_frame ks level ev (h h' : HS) : touches ks h h' -> (forall q, q ∈ path_names (direct_output_paths dir level) -> q ∉ ks) ->
  level_done level ev h -> level_done level ev h'.
Proof.
  intros Ht Hks [(st & Hst & Hev) Hl]. split; [exists st; split; [|done]; by eapply state_saved_frame|by eapply level_closed_frame].
Qed.

Definition build_level (seed : bytes) (level : DirectLevel) : M HS DirectControllerStateEvidence :=
  let* info := lift (find_level level [bs_index s; bs_chunks s]) in
  build_direct_table (C := C) (R := R) dir info o (derive_direct_level_seed seed (dti_level info)).

Context (h0 : HS) (Hbound : sources_bound h0).

Lemma info_levels : dti_level (bs_index s) = DirectIndex /\ dti_path (bs_index s) = bi_index_file i /\ dti_file_bytes (bs_index s) = lenZ (bs_index_bytes s) /\
  dti_level (bs_chunks s) = DirectChunk /\ dti_path (bs_chunks s) = bi_chunks_file i /\ dti_file_bytes (bs_chunks s) = lenZ (bs_chunk_bytes s).
Proof.
  destruct Hbound as [[Hf _] Hi Hc Hii Hci _ _].
  destruct (from_index_file_ok _ _ _ _ _ h0 _ h0 _ Hf Hi Hii) as (H1' & H2' & _). destruct (from_chunks_file_ok _ h0 h0 _ _ Hf Hc Hci) as (H3' & H4' & H5' & _).
  pose proof (from_index_file_bytes _ _ _ _ _ h0 h0 _ _ Hf Hi Hii). done.
Qed.

Lemma build_level_yields seed level (h : HS) : level_fits level -> clear h ->
  files h !! render (bi_index_file i) = Some (bs_index_bytes s) -> files h !! render (bi_chunks_file i) = Some (bs_chunk_bytes s) ->
  yields direct_build_error (build_level seed level) h
    (fun ev h' => touches (path_names (direct_output_paths dir level)) h h' /\ level_done level ev h').
Proof.
  intros [(est & Hest & Hpar) Him Hbd Hrec Hap Hpk Htab] Hh Hbi Hbc. destruct info_levels as (Hli & _ & _ & Hlc & _). unfold build_level, find_level. cbn [find].
  destruct Hbound as [Hcl Hi Hc Hii Hci _ _]. apply yields_bind. rewrite Hli, Hlc. destruct level; cbn [info_of] in *.
  - rewrite bool_decide_eq_true_2 by done. apply (yields_ret direct_build_error). destruct Htab as (Hl & Hs & Hf & Hr & Hts & Hfit).
    eapply yields_mono; [eapply yields_error; [apply (index_table_built Hio dir (bi_index_file i) (bi_slots i) (bi_fns i) (bi_load i) (bi_index_seed i)
      (bs_index s) o est (params_of DirectIndex) c _ (bs_index_bytes s) (n DirectIndex) h0 h0 h); try done; apply Hap; left|]|].
    + intros e [He| ->]; [left; by exists DirectIndex|by right; left].
    + intros ev h' (Ht & Hev & t & Ht1 & Ht2 & Ht3 & Hpp & Hfi & [] & Hcd). split; [done|]. split; [done|]. exists t. by repeat (split; [done|]).
  - rewrite bool_decide_eq_false_2, bool_decide_eq_true_2 by done. apply (yields_ret direct_build_error). destruct Htab as (Hl & Hfit).
    eapply yields_mono; [eapply yields_error; [apply (chunk_table_built Hio dir (bi_chunks_file i) (bs_chunks s) o est (params_of DirectChunk) c _
      (bs_chunk_bytes s) (n DirectChunk) h0 h0 h); try done; apply Hap; right; left|]|].
    + intros e He. left. by exists DirectChunk.
    + intros ev h' (Ht & Hev & t & Ht1 & Ht2 & Hpp & Hfi & [] & Hcd). split; [done|]. split; [done|]. exists t. by repeat (split; [done|]).
Qed.

(** *** All levels *)

Definition level_names (levels : list DirectLevel) : list string := levels ≫= fun level => path_names (direct_output_paths dir level).

Lemma build_levels_yields seed levels (h : HS) : NoDup levels -> (forall level, level ∈ levels -> level_fits level) -> clear h ->
  (forall path, path ∈ input_paths -> files h !! render path = files h0 !! render path) ->
  yields direct_build_error (mapM (build_level seed) levels) h (fun evs h' => touches (level_names levels) h h' /\
    Forall2 (fun level ev => level_done level ev h') levels evs).
Proof.
  intros Hnd Hfits Hh Hin. apply (levels_yield direct_build_error _ (fun level => path_names (direct_output_paths dir level)) (render <$> input_paths)
    (fun h => forall path, path ∈ input_paths -> files h !! render path = files h0 !! render path) (fun _ _ => True) level_done); try done.
  - intros l l' q. apply levels_apart.
  - intros ks h1 h2 Ht Hk Hi path Hp. rewrite (touches_lookup _ _ _ _ Ht); [by apply Hi|]. by apply Hk, list_elem_of_fmap_2.
  - intros l q Hl (path & -> & Hp)%list_elem_of_fmap. by apply (lf_apart _ (Hfits l Hl)).
  - intros l ev ks h1 h2. apply level_done_frame.
  - intros l h1 Hl Hc1 Hi _. apply build_level_yields; [by apply Hfits|done|rewrite Hi by left; apply Hbound|rewrite Hi by (right; left); apply Hbound].
Qed.

(** What an evidence file says of one of the inputs *)
Definition input_artifact (path : FilePath) : ArtifactEvidence := artifact_of path (default [] (files h0 !! render path)).
Lemma optional_artifact_ok path (h : HS) : clear h -> (forall q, path = Some q -> files h !! render q = files h0 !! render q /\ is_Some (files h0 !! render q)) ->
  optional_artifact path h = (Ok (input_artifact <$> path), h).
Proof.
  intros [Hf _] Hp. destruct path as [q|]; [|done]. destruct (Hp q eq_refl) as [Hq [b Hb]]. unfold optional_artifact, input_artifact.
  rewrite (bind_eq _ _ _ (artifact_of q b) h); [cbn; by rewrite Hb|]. apply reads_artifact; [done|congruence].
Qed.
Lemma evidence_given : (forall p, in_db_build_evidence (bi_evidence i) = Some p -> is_Some (files h0 !! render p)) /\
  (forall q, in_root_bundle_payload (bi_evidence i) = Some q -> is_Some (files h0 !! render q)).
Proof.
  pose proof (sb_certified _ Hbound) as Hc. unfold certified_by in Hc.
  destruct (in_db_build_evidence _) as [p|], (in_root_bundle_payload _) as [q|]; split; intros ? [= <-]; destruct_and?; destruct_or?;
    repeat match goal with E : exists _, _ |- _ => destruct E | E : _ /\ _ |- _ => destruct E end; by eexists.
Qed.

Lemma direct_levels lv : NoDup (direct_level_levels lv) /\ exists level, level ∈ direct_level_levels lv.
Proof. split; [apply (bool_decide_eq_true_1 _); by destruct lv|]. destruct lv; eexists; left. Qed.

(** The image of a level opens as the blocks of its table, for [k] accesses. *)
Definition level_serves (k : Z) (level : DirectLevel) (h : HS) : Prop :=
  let im := direct_image dir level o (params_of level) in
  match level with
  | DirectIndex => exists t, index_source_ok t /\ is_info t = bs_index s /\ is_mmap t = bs_index_bytes s /\
      image_serves im c (open_direct_image (R := R) dir level o) k h (index_array t)
  | DirectChunk => exists t, chunk_source_ok t /\ from_info (bs_chunks s) (opt_pack o) = Ok (cs_metadata t) /\ cs_mmap t = bs_chunk_bytes s /\
      image_serves im c (open_direct_image (R := R) dir level o) k h (chunk_array t)
  end.
Lemma closed_level_serves k level h : level_fits level -> level_closed k level h -> level_serves k level h.
Proof.
  intros Hf Hl. pose proof (lf_image _ Hf) as Him.
  destruct level; [destruct Hl as (t & Ht1 & Ht2 & Ht3 & Hr & Hc%(closed_serves _ _ Hio Him))|destruct Hl as (t & Ht1 & Ht3 & Hr & Hc%(closed_serves _ _ Hio Him))];
    exists t; [done|]. by destruct Hr.
Qed.

(** The evidence of a build, as its two files on [h] hold it *)
Record evidence_written (lv : DirectLevelArg) (h : HS) (ev : OramBuildEvidence) : Prop := {
  ew_json : exists json, to_vec_pretty ev = Some json /\ files h !! render (ORAM_BUILD_EVIDENCE_JSON_FILE dir) = Some json;
  ew_bin : exists encoded, bin_serialize ev = Some encoded /\ files h !! render (ORAM_BUILD_EVIDENCE_BIN_FILE dir) = Some encoded;
  ew_sources : be_source_files ev = bs_evidence;
  ew_strict : be_strict_source_binding ev = strict_source_binding (bi_evidence i);
  ew_certified : be_db_certification ev = build_db_certification_evidence (bi_evidence i) (bs_certified s);
  ew_db : be_db_build_evidence ev = input_artifact <$> in_db_build_evidence (bi_evidence i);
  ew_bundle : be_root_bundle_payload ev = input_artifact <$> in_root_bundle_payload (bi_evidence i);
  ew_outputs : lists_outputs dir (files h) (be_output_artifacts ev);
  ew_states : Forall2 (fun level st => state_recorded (R := R) (direct_image dir level o (params_of level)) level st h)
                (direct_level_levels lv) (be_controller_states ev)
}.

Lemma write_evidence_yields lv ev artifacts (h : HS) : clear h -> be_output_artifacts ev = artifacts -> lists_outputs dir (files h) artifacts ->
  Forall2 (fun level st => level_done level st h) (direct_level_levels lv) (be_controller_states ev) ->
  be_source_files ev = bs_evidence -> be_strict_source_binding ev = strict_source_binding (bi_evidence i) ->
  be_db_certification ev = build_db_certification_evidence (bi_evidence i) (bs_certified s) ->
  be_db_build_evidence ev = input_artifact <$> in_db_build_evidence (bi_evidence i) ->
  be_root_bundle_payload ev = input_artifact <$> in_root_bundle_payload (bi_evidence i) ->
  yields direct_build_error (write_oram_build_evidence dir ev) h (fun _ h' =>
    touches (render <$> [ORAM_BUILD_EVIDENCE_JSON_FILE dir; ORAM_BUILD_EVIDENCE_BIN_FILE dir]) h h' /\
    (forall level, level ∈ direct_level_levels lv -> level_closed (n level) level h') /\ evidence_written lv h' ev).
Proof.
  intros Hh <- Hlist Hdone Hsrc Hstr Hcert Hdb Hroot. unfold write_oram_build_evidence. apply yields_bind.
  destruct (to_vec_pretty ev) as [json|] eqn:Ej; [|by right; right; left]. eapply yields_lift; [done|].
  eapply yields_step; [apply fs_write_yields; [by eapply json_bytes|done]|]. cbn beta. intros _ h1 [Hh1 Hf1]. apply yields_bind.
  destruct (bin_serialize ev) as [encoded|] eqn:Eb; [|by right; right; right]. eapply yields_lift; [done|].
  eapply yields_mono; [apply fs_write_yields; [exact (SealedState.bin_bytes ev encoded Eb)|done]|]. cbn beta. intros _ h2 [Hh2 Hf2]. rewrite Hf1 in Hf2.
  set (json_path := render (ORAM_BUILD_EVIDENCE_JSON_FILE dir)) in *. set (bin_path := render (ORAM_BUILD_EVIDENCE_BIN_FILE dir)) in *.
  assert (json_path = (dir +:+ "/" +:+ "oram-build-evidence.json")%string) as Ejp
    by (unfold json_path, ORAM_BUILD_EVIDENCE_JSON_FILE, join, render; cbn [parent file_stem extension]; by rewrite !string_app_assoc).
  assert (bin_path = (dir +:+ "/" +:+ "oram-build-evidence.bin")%string) as Ebp
    by (unfold bin_path, ORAM_BUILD_EVIDENCE_BIN_FILE, join, render; cbn [parent file_stem extension]; by rewrite !string_app_assoc).
  assert (json_path <> bin_path) as Hjb by (rewrite Ejp, Ebp; intros E%app_inj_string%app_inj_string; discriminate E).
  assert (touches [json_path; bin_path] h h2) as Ht.
  { split; [done|]. intros q Hq. rewrite Hf2, !lookup_insert_ne; [done|set_solver..]. }
  assert (Forall2 (fun level st => level_done level st h2) (direct_level_levels lv) (be_controller_states ev)) as Hdone2.
  { eapply Forall2_impl; [exact Hdone|]. intros level st Hd. eapply level_done_frame; [exact Ht| |exact Hd].
    intros q [Hn1 Hn2]%evidence_apart. fold json_path in Hn1. fold bin_path in Hn2. set_solver. }
  split; [exact Ht|]. split.
  - intros level Hl. by destruct (Forall2_each _ _ _ Hdone2 level Hl) as (st & _ & Hd).
  - split; try done.
    + exists json. split; [done|]. by rewrite Hf2, lookup_insert_ne, lookup_insert_eq by done.
    + exists encoded. split; [done|]. by rewrite Hf2, lookup_insert_eq.
    + rewrite Hf2, Ejp, Ebp. apply lists_outputs_insert; [reflexivity|]. by apply lists_outputs_insert; [reflexivity|].
    + eapply Forall2_impl; [exact Hdone2|]. intros level st [Hst _]. exact Hst.
Qed.

(** *** The whole command *)

Definition build_command (lv : DirectLevelArg) (seed : bytes) : M HS unit :=
  build_direct_images (C := C) (R := R) (bi_index_file i) (bi_chunks_file i) dir lv o (bi_slots i) (bi_fns i) (bi_load i) (bi_index_seed i)
    seed (bi_evidence i).
Definition written_names (lv : DirectLevelArg) : list string :=
  level_names (direct_level_levels lv) ++ (render <$> [ORAM_BUILD_EVIDENCE_JSON_FILE dir; ORAM_BUILD_EVIDENCE_BIN_FILE dir]).

Lemma key_given level (h : HS) : level_fits level -> check_options (opt_encrypted o) (opt_key_hex o) h = (Ok tt, h).
Proof. intros Hf. exact (key_checked (direct_image dir level o (params_of level)) c h (lf_image _ Hf)). Qed.

Lemma build_command_yields lv seed : (forall level, level ∈ direct_level_levels lv -> level_fits level) ->
  yields direct_build_error (build_command lv seed) h0 (fun _ h' => touches (written_names lv) h0 h' /\
    (forall level, level ∈ direct_level_levels lv -> level_closed (n level) level h') /\ exists ev, evidence_written lv h' ev).
Proof.
  intros Hfits. destruct (direct_levels lv) as [Hnd [l0 Hl0]]. pose proof (Hfits l0 Hl0) as [(est & Hest & _) Him _ _ _ Hpk _].
  pose proof Hbound as [Hh Hbi Hbc Hii Hci Hcert Hbind]. destruct info_levels as (Hli & Hpi & Hbyi & Hlc & Hpc & Hbyc).
  unfold build_command, build_direct_images. apply yields_bind, guard_yields; [by rewrite (proj2 (Z.eqb_neq _ 0)) by lia|].
  apply yields_bind, guard_yields.
  { unfold direct_estimate in Hest. cbn [image_sizing sz_per_block sz_leaf_divisor] in Hest. destruct (opt_pack o =? 0); [done|]. by destruct (opt_leaf_divisor o =? 0). }
  apply yields_bind.
  eapply yields_eq; [exact (key_given l0 h0 (Hfits l0 Hl0))|]. apply yields_bind. eapply yields_eq; [exact (visit_ok h0 (proj1 Hh))|].
  apply yields_bind. eapply yields_eq; [by eapply direct_infos_eq|]. apply yields_bind.
  destruct (bind_sources_spec h0 (bs_index s) (bs_chunks s) (bi_evidence i) (proj1 Hh) Hli Hlc) as (r & Er & _ & Hr).
  assert (r = Ok (bs_evidence, bs_certified s)) as ->.
  { apply Hr. split; [|done]. exists (bs_index_bytes s), (bs_chunk_bytes s). rewrite Hpi, Hpc. done. }
  eapply yields_eq; [exact Er|]. cbv iota beta.
  eapply yields_step; [apply (build_levels_yields seed (direct_level_levels lv) h0 Hnd Hfits Hh); done|]. cbn beta. intros states h1 [Ht1 Hd1].
  assert (forall path, path ∈ input_paths -> files h1 !! render path = files h0 !! render path) as Hin.
  { intros path Hp. rewrite (touches_lookup _ _ _ _ Ht1); [done|]. intros (l & Hq & Hl)%list_elem_of_bind. by apply (lf_apart _ (Hfits l Hl) path Hp). }
  pose proof (touches_clear _ _ _ Ht1) as Hh1. destruct evidence_given as [Hg1 Hg2].
  apply yields_bind. eapply yields_eq; [apply (optional_artifact_ok _ h1 Hh1); intros q Eq; split; [|by apply Hg1]|].
  { apply Hin. unfold input_paths. rewrite Eq. right. right. left. }
  apply yields_bind. eapply yields_eq; [apply (optional_artifact_ok _ h1 Hh1); intros q Eq; split; [|by apply Hg2]|].
  { apply Hin. unfold input_paths. rewrite Eq. do 2 right. apply elem_of_app. right. left. }
  destruct (manifest_lists dir h1 (proj1 Hh1)) as (artifacts & Ea & Hlist). apply yields_bind. eapply yields_eq; [exact Ea|].
  eapply yields_mono; [apply (write_evidence_yields lv _ artifacts h1 Hh1); done|]. cbn beta. intros _ h2 (Ht2 & Hs & Hw). split; [|split; [done|by eexists]].
  eapply touches_trans; eapply touches_weaken; [|exact Ht1| |exact Ht2]; intros q Hq; apply elem_of_app; auto.
Qed.

(** C5: [build-direct], on a host whose file operations succeed, with sources, certified
    evidence and options that agree: it ends with the image of every level asked for, which
    opens again as the blocks of its table, and with two files that hold one evidence.
    The evidence names the hash of each source and of each evidence file as they were, of
    the saved state of each controller, and lists, once and in order, exactly the files
    of the images in the output directory with the hashes they have.  Otherwise it stops
    because a stash is full, an insertion runs out of kicks, or a state or the evidence
    cannot be serialized or sealed. *)
Theorem build_direct_evidence_exact lv seed :
  (forall level, level ∈ direct_level_levels lv -> level_fits level) ->
  yields direct_build_error
    (build_direct_images (C := C) (R := R) (bi_index_file i) (bi_chunks_file i) dir lv o (bi_slots i) (bi_fns i) (bi_load i) (bi_index_seed i)
       seed (bi_evidence i)) h0
    (fun _ h' => (forall level, level ∈ direct_level_levels lv -> level_serves (n level) level h') /\ exists ev, evidence_written lv h' ev).
Proof.
  intros Hfits. eapply yields_mono; [exact (build_command_yields lv seed Hfits)|]. cbn beta. intros _ h' (_ & Hs & Hw). split; [|done].
  intros level Hl. apply closed_level_serves; [by apply Hfits|by apply Hs].
Qed.
End Command.

(** ** A concrete build *)

#[local] Existing Instance bool_subtle.
#[local] Existing Instance bool_subtle_laws.
#[local] Existing Instance plain_mmap.
#[local] Existing Instance plain_mmap_laws.

(** An encoding of the evidence, for both files *)
Definition f64_codec : codec f64 :=
  map_codec (fun x : (bool + bool) + (unit + bool * (Z * (bool * Z))) => match x with
      | inl (inl b) => S754_zero b | inl (inr b) => S754_infinity b | inr (inl _) => S754_nan
      | inr (inr (b, (m, (n, e)))) => S754_finite b (Z.to_pos m) (if n then - e else e)
      end)
    (fun x => match x with
      | S754_zero b => inl (inl b) | S754_infinity b => inl (inr b) | S754_nan => inr (inl tt)
      | S754_finite b m e => inr (inr (b, (Z.pos m, (e <? 0, Z.abs e))))
      end)
    (sum_codec 1 (sum_codec 1 bool_codec bool_codec) (sum_codec 1 unit_codec (pair_codec bool_codec (pair_codec u64_codec (pair_codec bool_codec u64_codec))))).
Definition anchor_codec : codec ChainAnchorEvidence :=
  map_codec (fun '(h, s) => mkAnchorEvidence h s) (fun a => (ae_height a, ae_block_hash_hex a)) (pair_codec u32_codec string_codec).
Definition certification_codec : codec DbCertificationEvidence :=
  map_codec (fun '(a, (b, (c, (d, (e, f))))) => mkCertEvidence a b c d e f)
    (fun e => (ce_build_kind e, (ce_network_magic_hex e, (ce_from_anchor e, (ce_anchor e, (ce_from_muhash_hex e, ce_to_muhash_hex e))))))
    (pair_codec (option_codec string_codec) (pair_codec (option_codec string_codec) (pair_codec (option_codec anchor_codec)
      (pair_codec (option_codec anchor_codec) (pair_codec (option_codec string_codec) (option_codec string_codec)))))).
Definition artifact_codec : codec ArtifactEvidence :=
  map_codec (fun '(a, (b, (c, d))) => mkArtifact a b c d) (fun x => (ar_path x, (ar_file_name x, (ar_sha256 x, ar_bytes x))))
    (pair_codec string_codec (pair_codec string_codec (pair_codec string_codec u64_codec))).
Definition source_codec : codec DirectSourceFileEvidence :=
  map_codec (fun '(a, (b, (c, (d, (e, (f, g)))))) => mkSourceEvidence a b c d e f g)
    (fun x => (sf_level x, (sf_path x, (sf_sha256 x, (sf_bytes x, (sf_records x, (sf_record_size x, sf_sha256_bytes x)))))))
    (pair_codec string_codec (pair_codec string_codec (pair_codec string_codec (pair_codec u64_codec (pair_codec u64_codec
      (pair_codec u64_codec (list_codec (word_codec 1)))))))).
Definition sources_codec : codec DirectSourceFilesEvidence :=
  map_codec (fun '(a, b) => mkSourcesEvidence a b) (fun x => (sfs_index x, sfs_chunks x)) (pair_codec source_codec source_codec).
Definition oram_params_codec : codec DirectOramParamsEvidence :=
  map_codec (fun '(a, (b, (c, (d, (e, (f, (g, (h, (i, (j, (k, (l, (m, n))))))))))))) => mkParamsEvidence a b c d e f g h i j k l m n)
    (fun x => (pe_pack x, (pe_leaf_divisor x, (pe_bucket_size x, (pe_stash_capacity x, (pe_cache_levels x, (pe_auth_store x, (pe_auth_layout x,
      (pe_auth_trusted_levels x, (pe_auth_hash_page_size x, (pe_index_slots_per_bin x, (pe_index_hash_fns x, (pe_index_load_factor x,
      (pe_index_seed x, pe_oram_rng_seed_hex x))))))))))))))
    (pair_codec u64_codec (pair_codec u64_codec (pair_codec u64_codec (pair_codec u64_codec (pair_codec u64_codec (pair_codec bool_codec
      (pair_codec string_codec (pair_codec u64_codec (pair_codec u64_codec (pair_codec u64_codec (pair_codec u64_codec (pair_codec f64_codec
      (pair_codec u64_codec string_codec))))))))))))).
Definition tiered_root_codec : codec TieredMerkleRootEvidence :=
  map_codec (fun '(a, (b, (c, (d, (e, (f, (g, h))))))) => mkTieredEvidence a b c d e f g h)
    (fun x => (te_store_id_hex x, (te_page_count x, (te_page_size x, (te_trusted_levels x, (te_hash_page_size x, (te_root_hash_hex x,
      (te_trusted_hashes_sha256 x, te_trusted_hashes x))))))))
    (pair_codec string_codec (pair_codec u64_codec (pair_codec u64_codec (pair_codec u64_codec (pair_codec u64_codec (pair_codec string_codec
      (pair_codec string_codec u64_codec))))))).
Definition embedded_root_codec : codec EmbeddedTreeRootEvidence :=
  map_codec (fun '(a, (b, (c, d))) => mkEmbeddedEvidence a b c d)
    (fun x => (ee_store_id_hex x, (ee_page_count x, (ee_logical_page_size x, ee_root_hash_hex x))))
    (pair_codec string_codec (pair_codec u64_codec (pair_codec u64_codec string_codec))).
Definition roots_codec : codec AuthRootsEvidence :=
  map_codec (fun x => match x with inl (m, p) => TieredMerkleRoots m p | inr (m, p) => EmbeddedTreeRoots m p end)
    (fun x => match x with TieredMerkleRoots m p => inl (m, p) | EmbeddedTreeRoots m p => inr (m, p) end)
    (sum_codec 1 (pair_codec tiered_root_codec tiered_root_codec) (pair_codec embedded_root_codec embedded_root_codec)).
Definition controller_codec : codec DirectControllerStateEvidence :=
  map_codec (fun '(a, (b, (c, (d, e)))) => mkStateEvidence a b c d e)
    (fun x => (se_level x, (se_state_path x, (se_sha256 x, (se_bytes x, se_auth_roots x)))))
    (pair_codec level_codec (pair_codec string_codec (pair_codec string_codec (pair_codec u64_codec (option_codec roots_codec))))).
Definition evidence_codec : codec OramBuildEvidence :=
  map_codec (fun '(a, (b, (c, (d, (e, (f, (g, (h, (i, j))))))))) => mkBuildEvidence a b c d e f g h i j)
    (fun x => (be_version x, (be_build x, (be_strict_source_binding x, (be_db_certification x, (be_db_build_evidence x, (be_root_bundle_payload x,
      (be_source_files x, (be_oram_params x, (be_output_artifacts x, be_controller_states x))))))))))
    (pair_codec u32_codec (pair_codec string_codec (pair_codec bool_codec (pair_codec certification_codec (pair_codec (option_codec artifact_codec)
      (pair_codec (option_codec artifact_codec) (pair_codec sources_codec (pair_codec oram_params_codec (pair_codec (list_codec artifact_codec)
      (list_codec controller_codec)))))))))).

Lemma f64_codec_ok : codec_ok f64_codec.
Proof.
  apply map_codec_ok; [repeat apply sum_codec_ok; try lia; unfold u64_codec; eauto with oram|].
  intros [| | |b m e]; try done. cbn. f_equal. destruct (e <? 0) eqn:E; zbool; lia.
Qed.
Lemma evidence_codec_ok : codec_ok evidence_codec.
Proof.
  pose proof string_codec_ok. pose proof level_codec_ok. pose proof f64_codec_ok.
  assert (codec_ok anchor_codec) by (apply map_codec_ok; [unfold u32_codec; eauto with oram|by intros []]).
  assert (codec_ok artifact_codec) by (apply map_codec_ok; [unfold u64_codec; eauto 10 with oram|by intros []]).
  assert (codec_ok certification_codec) by (apply map_codec_ok; [eauto 20 with oram|by intros []]).
  assert (codec_ok source_codec) by (apply map_codec_ok; [unfold u64_codec; eauto 20 with oram|by intros []]).
  assert (codec_ok sources_codec) by (apply map_codec_ok; [eauto with oram|by intros []]).
  assert (codec_ok oram_params_codec) by (apply map_codec_ok; [unfold u64_codec; eauto 40 with oram|by intros []]).
  assert (codec_ok tiered_root_codec) by (apply map_codec_ok; [unfold u64_codec; eauto 20 with oram|by intros []]).
  assert (codec_ok embedded_root_codec) by (apply map_codec_ok; [unfold u64_codec; eauto 20 with oram|by intros []]).
  assert (codec_ok roots_codec) by (apply map_codec_ok; [apply sum_codec_ok; [lia|eauto with oram..]|by intros []]).
  assert (codec_ok controller_codec) by (apply map_codec_ok; [unfold u64_codec; eauto 20 with oram|by intros []]).
  apply map_codec_ok; [unfold u32_codec; eauto 40 with oram|by intros []].
Qed.
#[local] Instance fixint_evidence : Bincode OramBuildEvidence := codec_bincode evidence_codec.
#[local] Instance fixint_evidence_laws : BincodeLaws OramBuildEvidence := codec_bincode_laws _ evidence_codec_ok.
#[local] Instance plain_json : Json OramBuildEvidence := { to_vec_pretty := bin_serialize }.
#[local] Instance plain_json_laws : JsonLaws OramBuildEvidence.
Proof. split. exact SealedState.bin_bytes. Qed.

(** A strict build of both levels, with sealed files, a cache and hashes in sidecars *)
Definition build_chunk_path : FilePath := mkPath "" "chunks" (Some "bin"%string).
Definition build_host : Host Z :=
  mkHost (<[render DirectSpec.demo_path := demo_file]> (<[render build_chunk_path := demo_chunk_file]>
    (<[render demo_evidence_path := encode_evidence demo_evidence]> {[ render demo_payload_path := encode_bundle demo_bundle ]}))) [] 0.
Definition build_inputs : BuildInputs :=
  mkBuildInputs "out" DirectSpec.demo_path build_chunk_path sealed_options 1 2 DIRECT_INDEX_DEFAULT_LOAD_FACTOR 5
    (mkInputs (Some demo_evidence_path) (Some demo_payload_path) (Some (replicate 32 3)) None (Some (sha256 demo_file)) (Some (sha256 demo_chunk_file)) true).
Definition build_chunk_info : DirectTableInfo := mkDirectInfo DirectChunk build_chunk_path 200 5 1 0 f64_1 0 5 40.
Definition build_sources : BuildSources :=
  mkBuildSources demo_file demo_chunk_file demo_info build_chunk_info (Some (evidence_binding demo_evidence)).
Definition build_chunk_params : OramParams := mkParams 5 40 2 8 8.
Definition build_params (level : DirectLevel) : OramParams := match level with DirectIndex => demo_index_params | DirectChunk => build_chunk_params end.

Lemma build_chunk_fits :
  image_fits (direct_image "out" DirectChunk sealed_options build_chunk_params) (Some (replicate 32 7)) /\
  build_fits (direct_image "out" DirectChunk sealed_options build_chunk_params).
Proof. split; [image_fits_tac|]. split; (by vm_compute) || (repeat split; by vm_compute). Qed.
Lemma build_bound : sources_bound build_inputs build_sources build_host.
Proof.
  split.
  - split; [done|]. repeat apply map_Forall_insert_2; [exact demo_file_ok|apply (bool_decide_eq_true_1 _); vm_compute; reflexivity..|].
    apply map_Forall_empty.
  - vm_compute. reflexivity.
  - vm_compute. reflexivity.
  - vm_compute. reflexivity.
  - vm_compute. reflexivity.
  - exists (encode_evidence demo_evidence), (evidence_binding demo_evidence), (encode_bundle demo_bundle), (bundle_binding demo_bundle).
    split_and!; (vm_compute; reflexivity) || idtac. split_and!; reflexivity.
  - split.
    + intros x [= <-]. reflexivity.
    + intros x [= <-]. reflexivity.
    + intros m bd [= <-] [= <-]. reflexivity.
    + intros m bd Hm. discriminate Hm.
    + intros _. split_and!; eexists; reflexivity.
Qed.
Lemma build_levels_fit n level : can_record (n level) (schedule_new (build_params level)) ->
  level_fits build_inputs build_sources (Some (replicate 32 7)) n build_params level.
Proof.
  intros Hn. destruct level.
  - destruct demo_index_estimate as (est & Ee & Ep). split; [exists est; by split|apply demo_index_fits|apply demo_index_fits|exact Hn| |by vm_compute|].
    + intros path Hp. apply (bool_decide_eq_false_1 _). repeat (apply elem_of_cons in Hp as [->|Hp]; [vm_compute; reflexivity|]). by apply not_elem_of_nil in Hp.
    + split_and!; by vm_compute.
  - assert (exists est, direct_estimate (image_sizing sealed_options) build_chunk_info = Ok est /\ image_params sealed_options (de_sizes est) = Ok build_chunk_params)
      as (est & Ee & Ep) by (apply estimate_params; vm_compute; reflexivity).
    split; [exists est; by split|apply build_chunk_fits|apply build_chunk_fits|exact Hn| |by vm_compute|].
    + intros path Hp. apply (bool_decide_eq_false_1 _). repeat (apply elem_of_cons in Hp as [->|Hp]; [vm_compute; reflexivity|]). by apply not_elem_of_nil in Hp.
    + split_and!; by vm_compute.
Qed.

Lemma build_direct_evidence_exact_witness :
  yields (direct_build_error build_inputs build_params)
    (build_direct_images (C := bytes) (R := Z) DirectSpec.demo_path build_chunk_path "out" DirectLevelAll sealed_options 1 2
       DIRECT_INDEX_DEFAULT_LOAD_FACTOR 5 [5] (bi_evidence build_inputs)) build_host
    (fun _ h => (forall level, level ∈ [DirectIndex; DirectChunk] ->
         level_serves (C := bytes) (R := Z) build_inputs build_sources (Some (replicate 32 7)) build_params 90 level h) /\
       exists ev, evidence_written (C := bytes) (R := Z) build_inputs build_sources build_params build_host DirectLevelAll h ev).
Proof.
  refine (build_direct_evidence_exact (C := bytes) (OS := Z) (R := Z) whole_io_ok build_inputs build_sources (Some (replicate 32 7)) (fun _ => 90) build_params
    build_host build_bound DirectLevelAll [5] _).
  intros level _. apply build_levels_fit. destruct level; split; by vm_compute.
Defined.
