(* ===== verification/BatchIo.v ===== *)
(** * The planner of a batch's page accesses ([src/src/bin/oramctl.rs], [plan-direct-batch-io])

    [plan-direct-batch-io] draws the leaves of a batch of queries and counts, without
    building an image, the pages the stores would access: data pages past the cache,
    and the pages of hashes of a sidecar. *)

From S2P Require Import Prelude Params Store Schedule Bucket Rng SealedState FileStore Merkle Evidence Embedded Direct Float64 Sizing ImageFiles Bench.

(** ** Touched pages *)

(** Mirror of [struct PageTouchStats]; a [BTreeSet] is a finite set, read in ascending
    order. *)
Record PageTouchStats : Type := mkTouch { touches : Z; pages : gset Z }.
Definition no_touches : PageTouchStats := mkTouch 0 ∅.
(** [PageTouchStats::add] *)
Definition touch_add (page_idx : Z) (s : PageTouchStats) : PageTouchStats := mkTouch (add64 (touches s) 1) ({[page_idx]} ∪ pages s).
(** [PageTouchStats::unique_pages] *)
Definition unique_pages (s : PageTouchStats) : Z := Z.of_nat (size (pages s)).
(** [contiguous_runs] *)
Definition ascending (pages : gset Z) : list Z := merge_sort Z.le (elements pages).
Definition contiguous_runs (pages : gset Z) : Z :=
  (foldl (fun (acc : Z * option Z) page =>
     let '(runs, previous) := acc in
     let runs := match previous with
                 | None => runs + 1
                 | Some prev => if page =? prev + 1 then runs else runs + 1
                 end in
     (runs, Some page)) (0, None) (ascending pages)).1.
(** [PageTouchStats::runs], [logical_bytes], [unique_bytes] *)
Definition touch_runs (s : PageTouchStats) : Z := contiguous_runs (pages s).
Definition logical_bytes (page_bytes : Z) (s : PageTouchStats) : Z := mul64 (touches s) page_bytes.
Definition unique_bytes (page_bytes : Z) (s : PageTouchStats) : Z := mul64 (unique_pages s) page_bytes.

(** Mirror of [struct StoreIoPlan]. *)
Record StoreIoPlan : Type := mkStorePlan {
  data_reads : PageTouchStats;
  data_writes : PageTouchStats;
  hash_reads : PageTouchStats;
  hash_writes : PageTouchStats
}.
Definition empty_store_plan : StoreIoPlan := mkStorePlan no_touches no_touches no_touches no_touches.

(** ** The pages of hashes *)

(** Mirror of [struct MerkleIoPlanner]. *)
Record MerkleIoPlanner : Type := mkPlanner {
  mp_leaf_base : Z;
  mp_trusted_node_limit : Z;
  mp_disk_hash_nodes : Z;
  mp_hashes_per_page : Z;
  mp_hash_page_size : Z
}.

(** [MerkleIoPlanner::new] *)
Definition planner_new (page_count trusted_levels hash_page_size : Z) : outcome MerkleIoPlanner :=
  let? _ := guardo (negb (page_count =? 0)) (InvalidInput "page_count must be > 0") in
  let? _ := guardo (negb (hash_page_size <? 32)) (InvalidInput "hash page size must be at least 32") in
  let? leaf_base := ok_or (checked_next_power_of_two page_count) (InvalidInput "page_count is too large") in
  let tree_levels := trailing_zeros leaf_base + 1 in
  let? _ := guardo (negb ((trusted_levels =? 0) || (tree_levels <? trusted_levels)))
              (InvalidInput "trusted_levels {} out of range 1..={}") in
  let? trusted_node_limit := ok_or (if trusted_levels <? 64 then Some (2 ^ trusted_levels) else None)
                               (InvalidInput "trusted_levels is too large") in
  let hashes_per_page := hash_page_size / 32 in
  let disk_hash_nodes := wrap 64 (leaf_base * 2 - trusted_node_limit) in
  Ok (mkPlanner leaf_base trusted_node_limit disk_hash_nodes hashes_per_page hash_page_size).

(** [MerkleIoPlanner::disk_hash_page] *)
Definition disk_hash_page (pl : MerkleIoPlanner) (node_idx : Z) : outcome (option Z) :=
  if node_idx <? mp_trusted_node_limit pl then Ok None
  else
    let disk_offset := node_idx - mp_trusted_node_limit pl in
    let? _ := guardo (negb (mp_disk_hash_nodes pl <=? disk_offset)) (InvalidInput "Merkle disk offset {} out of range {}") in
    Ok (Some (disk_offset / mp_hashes_per_page pl)).

(** [MerkleIoPlanner::add_hash_read] *)
Definition add_hash_read (pl : MerkleIoPlanner) (node_idx : Z) (hash_reads : PageTouchStats) : outcome PageTouchStats :=
  let? page := disk_hash_page pl node_idx in
  match page with Some page_idx => Ok (touch_add page_idx hash_reads) | None => Ok hash_reads end.
(** [MerkleIoPlanner::add_hash_write] *)
Definition add_hash_write (pl : MerkleIoPlanner) (node_idx : Z) (rw : PageTouchStats * PageTouchStats) :
    outcome (PageTouchStats * PageTouchStats) :=
  let? page := disk_hash_page pl node_idx in
  match page with Some page_idx => Ok (touch_add page_idx rw.1, touch_add page_idx rw.2) | None => Ok rw end.

(** The [while] loops of [add_read] and [add_write]; a node is halved at each turn. *)
Fixpoint add_read_loop (fuel : nat) (pl : MerkleIoPlanner) (node_idx : Z) (hash_reads : PageTouchStats) : outcome PageTouchStats :=
  match fuel with
  | O => Diverges
  | S fuel =>
      if mp_trusted_node_limit pl <=? node_idx then
        let? hash_reads := add_hash_read pl (Z.lxor node_idx 1) hash_reads in
        add_read_loop fuel pl (node_idx / 2) hash_reads
      else Ok hash_reads
  end.
Fixpoint add_write_loop (fuel : nat) (pl : MerkleIoPlanner) (node_idx : Z) (rw : PageTouchStats * PageTouchStats) :
    outcome (PageTouchStats * PageTouchStats) :=
  match fuel with
  | O => Diverges
  | S fuel =>
      if 1 <? node_idx then
        let? reads := add_hash_read pl (Z.lxor node_idx 1) rw.1 in
        let? rw := add_hash_write pl (node_idx / 2) (reads, rw.2) in
        add_write_loop fuel pl (node_idx / 2) rw
      else Ok rw
  end.
(** [MerkleIoPlanner::add_read], [MerkleIoPlanner::add_write] *)
Definition add_read (pl : MerkleIoPlanner) (page_idx : Z) (hash_reads : PageTouchStats) : outcome PageTouchStats :=
  add_read_loop 65 pl (mp_leaf_base pl + page_idx) hash_reads.
Definition add_write (pl : MerkleIoPlanner) (page_idx : Z) (rw : PageTouchStats * PageTouchStats) : outcome (PageTouchStats * PageTouchStats) :=
  let node_idx := mp_leaf_base pl + page_idx in
  let? rw := add_hash_write pl node_idx rw in
  add_write_loop 65 pl node_idx rw.

(** ** The plan *)

Inductive BatchStoreKind : Type := StoreMeta | StorePayload.
Inductive BatchAuthPlan : Type := PlanNone | PlanSidecar (auth : MerkleIoPlanner) | PlanEmbeddedTree.
(** [BatchAuthPlan::inline_auth_bytes_per_page] *)
Definition inline_auth_bytes_per_page (a : BatchAuthPlan) : Z :=
  match a with PlanEmbeddedTree => EMBEDDED_TREE_AUTH_BYTES_PER_PAGE | _ => 0 end.

(** Mirror of [struct BatchIoPlan]. *)
Record BatchIoPlan : Type := mkBatchPlan {
  bp_cached_pages : Z;
  bp_encrypted : bool;
  bp_meta_page_size : Z;
  bp_payload_page_size : Z;
  bp_auth : BatchAuthPlan;
  bp_meta : StoreIoPlan;
  bp_payload : StoreIoPlan
}.

(** [BatchIoPlan::new] *)
Definition batch_plan_new (data_page_count cached_pages : Z) (encrypted : bool) (meta_page_size payload_page_size : Z)
    (auth_store : bool) (auth_layout : AuthLayoutArg) (auth_trusted_levels auth_hash_page_size : Z) : outcome BatchIoPlan :=
  let? auth := if negb auth_store then Ok PlanNone
               else match auth_layout with
                    | LayoutSidecar => let? pl := planner_new data_page_count auth_trusted_levels auth_hash_page_size in Ok (PlanSidecar pl)
                    | LayoutEmbeddedTree => Ok PlanEmbeddedTree
                    end in
  Ok (mkBatchPlan cached_pages encrypted meta_page_size payload_page_size auth empty_store_plan empty_store_plan).

(** [BatchIoPlan::store], [BatchIoPlan::store_mut] *)
Definition plan_store (plan : BatchIoPlan) (store : BatchStoreKind) : StoreIoPlan :=
  match store with StoreMeta => bp_meta plan | StorePayload => bp_payload plan end.
Definition set_plan_store (store : BatchStoreKind) (x : StoreIoPlan) (plan : BatchIoPlan) : BatchIoPlan :=
  match store with
  | StoreMeta => mkBatchPlan (bp_cached_pages plan) (bp_encrypted plan) (bp_meta_page_size plan) (bp_payload_page_size plan) (bp_auth plan) x (bp_payload plan)
  | StorePayload => mkBatchPlan (bp_cached_pages plan) (bp_encrypted plan) (bp_meta_page_size plan) (bp_payload_page_size plan) (bp_auth plan) (bp_meta plan) x
  end.

(** [BatchIoPlan::add_data_read], [BatchIoPlan::add_data_write] *)
Definition add_data_read (store : BatchStoreKind) (page_idx : Z) (plan : BatchIoPlan) : outcome BatchIoPlan :=
  let x := plan_store plan store in
  let x := if bp_cached_pages plan <=? page_idx then mkStorePlan (touch_add page_idx (data_reads x)) (data_writes x) (hash_reads x) (hash_writes x) else x in
  match bp_auth plan with
  | PlanSidecar auth =>
      let? reads := add_read auth page_idx (hash_reads x) in
      Ok (set_plan_store store (mkStorePlan (data_reads x) (data_writes x) reads (hash_writes x)) plan)
  | _ => Ok (set_plan_store store x plan)
  end.
Definition add_data_write (store : BatchStoreKind) (page_idx : Z) (plan : BatchIoPlan) : outcome BatchIoPlan :=
  let x := plan_store plan store in
  let x := if bp_cached_pages plan <=? page_idx then mkStorePlan (data_reads x) (touch_add page_idx (data_writes x)) (hash_reads x) (hash_writes x) else x in
  match bp_auth plan with
  | PlanSidecar auth =>
      let? rw := add_write auth page_idx (hash_reads x, hash_writes x) in
      Ok (set_plan_store store (mkStorePlan (data_reads x) (data_writes x) rw.1 rw.2) plan)
  | _ => Ok (set_plan_store store x plan)
  end.

(** [BatchIoPlan::data_page_size], [data_plaintext_page_size], [data_backing_page_size],
    [hash_backing_page_size] *)
Definition data_page_size (plan : BatchIoPlan) (store : BatchStoreKind) : Z :=
  match store with StoreMeta => bp_meta_page_size plan | StorePayload => bp_payload_page_size plan end.
Definition data_plaintext_page_size (plan : BatchIoPlan) (store : BatchStoreKind) : Z :=
  add64 (data_page_size plan store) (inline_auth_bytes_per_page (bp_auth plan)).
Definition data_backing_page_size (plan : BatchIoPlan) (store : BatchStoreKind) : Z :=
  backing_page_bytes (data_plaintext_page_size plan store) (bp_encrypted plan).
Definition hash_backing_page_size (plan : BatchIoPlan) : Z :=
  match bp_auth plan with PlanSidecar auth => backing_page_bytes (mp_hash_page_size auth) (bp_encrypted plan) | _ => 0 end.

(** [BatchIoPlan::add_online_path] *)
Definition add_online_path (p : OramParams) (leaf : Z) (plan : BatchIoPlan) : outcome BatchIoPlan :=
  ofold (fun plan node_idx =>
    let? plan := add_data_read StoreMeta node_idx plan in
    let? plan := add_data_read StorePayload node_idx plan in
    let? plan := add_data_write StoreMeta node_idx plan in
    add_data_write StorePayload node_idx plan) plan (path_nodes p leaf).
(** [BatchIoPlan::add_eviction_path] *)
Definition add_eviction_path (p : OramParams) (leaf : Z) (plan : BatchIoPlan) : outcome BatchIoPlan :=
  let path := path_nodes p leaf in
  let? plan := ofold (fun plan node_idx =>
    let? plan := add_data_read StoreMeta node_idx plan in
    add_data_read StoreMeta node_idx plan) plan path in
  let? plan := ofold (fun plan node_idx => add_data_read StorePayload node_idx plan) plan path in
  ofold (fun plan node_idx =>
    let? plan := add_data_write StoreMeta node_idx plan in
    add_data_write StorePayload node_idx plan) plan path.

(** ** The report *)

Inductive BatchLayer : Type := LayerData | LayerHash.
(** A line [print_batch_io_plan] prints for a layer of a store: page sizes, reads and
    writes as touches, unique pages and runs, page operations, runs and bytes. *)
Record BatchIoLine : Type := mkLine {
  bl_store : BatchStoreKind;
  bl_layer : BatchLayer;
  bl_plaintext_page_bytes : Z;
  bl_backing_page_bytes : Z;
  bl_read : Z * Z * Z;
  bl_write : Z * Z * Z;
  bl_current_ops : Z;
  bl_coalesced_runs : Z;
  bl_current_bytes : Z;
  bl_unique_bytes : Z
}.
Definition touch_summary (s : PageTouchStats) : Z * Z * Z := (touches s, unique_pages s, touch_runs s).
Definition batch_io_line (store : BatchStoreKind) (layer : BatchLayer) (plaintext_page_size backing_page_size : Z)
    (reads writes : PageTouchStats) : BatchIoLine :=
  mkLine store layer plaintext_page_size backing_page_size (touch_summary reads) (touch_summary writes)
    (add64 (touches reads) (touches writes))
    (add64 (touch_runs reads) (touch_runs writes))
    (add64 (logical_bytes backing_page_size reads) (logical_bytes backing_page_size writes))
    (add64 (unique_bytes backing_page_size reads) (unique_bytes backing_page_size writes)).

(** The lines of the data of both stores, and of the hashes of a sidecar *)
Definition data_lines (plan : BatchIoPlan) : list BatchIoLine :=
  (fun store => let stats := plan_store plan store in
     batch_io_line store LayerData (data_plaintext_page_size plan store) (data_backing_page_size plan store) (data_reads stats) (data_writes stats))
  <$> [StoreMeta; StorePayload].
Definition hash_lines (plan : BatchIoPlan) : list BatchIoLine :=
  match bp_auth plan with
  | PlanSidecar auth =>
      (fun store => let stats := plan_store plan store in
         batch_io_line store LayerHash (mp_hash_page_size auth) (hash_backing_page_size plan) (hash_reads stats) (hash_writes stats))
      <$> [StoreMeta; StorePayload]
  | _ => []
  end.

(** The numbers of [print_batch_io_plan] *)
Record BatchIoReport : Type := mkBatchReport {
  bt_lines : list BatchIoLine;
  bt_evictions_drained : Z;
  bt_current_ops : Z;
  bt_coalesced_runs : Z;
  bt_current_bytes : Z;
  bt_unique_bytes : Z;
  bt_ratio : f64
}.
Definition sum64 (l : list Z) : Z := foldl add64 0 l.
Definition batch_io_report (plan : BatchIoPlan) (evictions_drained : Z) : BatchIoReport :=
  let lines := data_lines plan ++ hash_lines plan in
  let total_current_ops := sum64 (bl_current_ops <$> lines) in
  let total_coalesced_runs := sum64 (bl_coalesced_runs <$> lines) in
  mkBatchReport lines evictions_drained total_current_ops total_coalesced_runs
    (sum64 (bl_current_bytes <$> lines)) (sum64 (bl_unique_bytes <$> lines))
    (if total_current_ops =? 0 then f64_1 else f64_div (f64_of_Z total_coalesced_runs) (f64_of_Z total_current_ops)).

(** ** The queries of a batch *)

(** The body of the loop over the queries, for the leaf drawn: the plan, the schedule and
    the evictions drained so far. *)
Definition plan_query (p : OramParams) (drain_per_access : Z) (acc : BatchIoPlan * CircuitEvictionSchedule * Z) (leaf : Z) :
    outcome (BatchIoPlan * CircuitEvictionSchedule * Z) :=
  let '(plan, schedule, evictions_drained) := acc in
  let? plan := add_online_path p leaf plan in
  let (r, schedule) := record_access schedule in
  let? _ := r in
  let (r, schedule) := schedule_drain_evictions drain_per_access schedule in
  let? leaves := r in
  let? acc := ofold (fun (acc : BatchIoPlan * Z) leaf =>
    let? plan := add_eviction_path p leaf acc.1 in Ok (plan, add64 acc.2 1)) (plan, evictions_drained) leaves in
  Ok (acc.1, schedule, acc.2).

Section Commands.
Context {R : Type} `{Rng R}.

(** The loop over the queries: [(rng.next_u64() % params.leaves as u64) as u32] *)
Definition plan_queries (p : OramParams) (queries drain_per_access : Z) (plan : BatchIoPlan) (rng : R) : outcome (BatchIoPlan * Z) :=
  let? acc := ofold (fun (acc : BatchIoPlan * CircuitEvictionSchedule * Z * R) (_ : Z) =>
    let '(acc, rng) := acc in
    let (word, rng) := next_u64 rng in
    let? leaf := if leaves p =? 0 then Panic else Ok (wrap 32 (word mod leaves p)) in
    let? acc := plan_query p drain_per_access acc leaf in
    Ok (acc, rng)) (plan, schedule_new p, 0, rng) (seqZ 0 queries) in
  let '(plan, _, evictions_drained, _) := acc in
  Ok (plan, evictions_drained).

(** [derive_batch_io_seed] *)
Definition derive_batch_io_seed (seed : bytes) (level : DirectLevel) : bytes :=
  alter (fun b => Z.lxor b (match level with DirectIndex => 0x11 | DirectChunk => 0x22 end)) 0%nat seed.

(** The options of [plan-direct-batch-io] *)
Record BatchIoOptions : Type := mkBatchOptions {
  bo_pack : Z;
  bo_leaf_divisor : Z;
  bo_bucket_size : Z;
  bo_cache_levels : Z;
  bo_queries : Z;
  bo_drain_per_access : Z;
  bo_auth_store : bool;
  bo_auth_layout : AuthLayoutArg;
  bo_auth_trusted_levels : Z;
  bo_auth_hash_page_size : Z;
  bo_encrypted : bool
}.

(** The body of the loop over the levels *)
Definition plan_direct_table (o : BatchIoOptions) (query_seed : bytes) (info : DirectTableInfo) : outcome BatchIoReport :=
  let sizing := mkSizing (bo_pack o) (bo_leaf_divisor o) (bo_bucket_size o) 4096 (bo_cache_levels o) in
  let? estimate := direct_estimate sizing info in
  let sizes := de_sizes estimate in
  let? p := with_leaves (es_logical_blocks sizes) (es_block_payload_bytes sizes) (es_leaves sizes) in
  let? p := with_bucket_size p (bo_bucket_size o) in
  let? p := with_stash_capacity p 4096 in
  let? cached_pages := cached_pages_for_levels p (bo_cache_levels o) in
  let rng := from_seed (derive_batch_io_seed query_seed (dti_level info)) in
  let? plan := batch_plan_new (bucket_count p) cached_pages (bo_encrypted o) (circuit_meta_page_bytes (bucket_size p))
                 (circuit_payload_page_bytes (bucket_size p) (block_size p)) (bo_auth_store o) (bo_auth_layout o)
                 (bo_auth_trusted_levels o) (bo_auth_hash_page_size o) in
  let? planned := plan_queries p (bo_queries o) (bo_drain_per_access o) plan rng in
  Ok (batch_io_report planned.1 planned.2).

(** [plan_direct_batch_io]: the reports of the levels asked for *)
Definition plan_direct_batch_io {OS} (index_file chunks_file : FilePath) (level : DirectLevelArg) (o : BatchIoOptions)
    (index_slots_per_bin index_hash_fns : Z) (index_load_factor : f64) (index_seed : Z) (query_seed : bytes) :
    M (Host OS) (list BatchIoReport) :=
  let* _ := guardm (negb (bo_queries o =? 0)) (InvalidInput "--queries must be > 0") in
  let* _ := guardm (negb (bo_pack o =? 0)) (InvalidInput "--pack must be > 0") in
  let* _ := guardm (negb (bo_leaf_divisor o =? 0)) (InvalidInput "--leaf-divisor must be > 0") in
  let* _ := guardm (negb (bo_auth_store o && match bo_auth_layout o with LayoutSidecar => true | LayoutEmbeddedTree => false end && (bo_auth_hash_page_size o <? 32)))
              (InvalidInput "--auth-hash-page-size must be at least 32") in
  let* infos := direct_infos index_file chunks_file index_slots_per_bin index_hash_fns index_load_factor index_seed in
  mapM (fun selected_level =>
    let* info := lift (find_level selected_level infos) in
    lift (plan_direct_table o query_seed info)) (direct_level_levels level).
End Commands.
