(* ===== verification/BatchIoSpec.v ===== *)
(** * The planner counts the accesses of the stores

    On stores with a cache and a sidecar of hashes, over pages and hash pages that are
    traced, a batch of queries accesses what [plan-direct-batch-io] counts for the leaves
    it looks up, except that the planner counts the metadata pages of an eviction as read
    twice. *)

From S2P Require Import Prelude Ct Block Params Store Trace Schedule Bucket Rng State Evict EvictPath Circuit Blocks CircuitInv CircuitOps.
From S2P Require Import Build BuildProofs CircuitSpec CircuitTrace Oblivious FrontCache Hash Merkle TieredMerkle Disk StoreTraces.
From S2P Require Import SealedState FileStore Embedded Evidence Direct Float64 Sizing Disk ImageFiles BatchIo.

(** ** Touches of a list of pages *)

Definition touch_all (l : list Z) (s : PageTouchStats) : PageTouchStats := foldl (fun s i => touch_add i s) s l.
(** The touches of a list, counted from nothing *)
Definition counted (l : list Z) : PageTouchStats := mkTouch (wrap 64 (lenZ l)) (list_to_set l).

Lemma touch_add_comm i j s : touch_add i (touch_add j s) = touch_add j (touch_add i s).
Proof. unfold touch_add. cbn. f_equal. set_solver. Qed.
Lemma touch_all_app l1 l2 s : touch_all (l1 ++ l2) s = touch_all l2 (touch_all l1 s).
Proof. apply foldl_app. Qed.
Lemma touch_all_perm l1 l2 s : l1 ≡ₚ l2 -> touch_all l1 s = touch_all l2 s.
Proof.
  intros Hp. revert s. induction Hp as [|x l1 l2 _ IH|x y l|l1 l2 l3 _ IH1 _ IH2]; intros s; [done|apply IH| |by rewrite IH1].
  unfold touch_all. cbn [foldl]. by rewrite touch_add_comm.
Qed.
Lemma touch_all_counted l : touch_all l no_touches = counted l.
Proof.
  induction l as [|x l IH] using rev_ind; [done|]. rewrite touch_all_app, IH. unfold counted, touch_all, touch_add. cbn [foldl touches pages].
  rewrite list_to_set_app_L. f_equal; [|set_solver].
  unfold add64, wrap. rewrite Zplus_mod_idemp_l. unfold lenZ. rewrite length_app. cbn. f_equal. lia.
Qed.

(** ** Runs of pages *)

(** The first pages of the runs of an ascending list *)
Fixpoint run_starts (prev : option Z) (l : list Z) : list Z :=
  match l with
  | [] => []
  | page :: l => (if bool_decide (prev = Some (page - 1)) then [] else [page]) ++ run_starts (Some page) l
  end.
(** The transfers [(first, length)] move the pages of [pages] and no other. *)
Definition transfers_cover (transfers : list (Z * Z)) (pages : gset Z) : Prop :=
  forall i, i ∈ pages <-> exists t, t ∈ transfers /\ t.1 <= i < t.1 + t.2.

Lemma contiguous_runs_starts pages : contiguous_runs pages = lenZ (run_starts None (ascending pages)).
Proof.
  unfold contiguous_runs. generalize (ascending pages) as l. intros l.
  assert (forall n prev, (foldl (fun (acc : Z * option Z) page =>
     let '(runs, previous) := acc in
     (match previous with None => runs + 1 | Some prev => if page =? prev + 1 then runs else runs + 1 end, Some page)) (n, prev) l).1 =
    n + lenZ (run_starts prev l)) as E; [|exact (E 0 None)].
  induction l as [|a l IH]; intros n prev; cbn [foldl run_starts]; [unfold lenZ; cbn; lia|].
  rewrite IH, lenZ_app. destruct prev as [q|]; [|rewrite bool_decide_eq_false_2 by done; unfold lenZ; cbn; lia].
  case_bool_decide as E; destruct (a =? q + 1) eqn:E2; zbool; unfold lenZ; cbn; try lia; [simplify_eq; lia|exfalso; apply E; f_equal; lia].
Qed.

Lemma ascending_sorted pages : StronglySorted Z.lt (ascending pages) /\ forall i, i ∈ ascending pages <-> i ∈ pages.
Proof.
  unfold ascending. pose proof (merge_sort_Permutation Z.le (elements pages)) as Hp.
  assert (StronglySorted Z.le (merge_sort Z.le (elements pages))) as Hs by (apply StronglySorted_merge_sort; apply _).
  split; [|intros i; rewrite Hp; apply elem_of_elements].
  assert (NoDup (merge_sort Z.le (elements pages))) as Hnd by (rewrite Hp; apply NoDup_elements).
  clear Hp. induction Hs as [|a l Hs IH Ha]; constructor; apply NoDup_cons in Hnd as [Hna Hnd]; [by apply IH|].
  rewrite Forall_forall in Ha |- *. intros x Hx. specialize (Ha x Hx). assert (a <> x) by (intros ->; by apply Hna). lia.
Qed.

Lemma strictly_NoDup l : StronglySorted Z.lt l -> NoDup l.
Proof. induction 1 as [|a l _ IH Ha]; constructor; [|done]. intros Hin. rewrite Forall_forall in Ha. specialize (Ha _ Hin). lia. Qed.
Lemma run_starts_sublist prev l : run_starts prev l `sublist_of` l.
Proof. revert prev. induction l as [|a l IH]; intros prev; cbn [run_starts]; [constructor|]. case_bool_decide; cbn [app]; by constructor. Qed.
Lemma run_starts_first l : StronglySorted Z.lt l -> forall prev s, (forall q, prev = Some q -> Forall (Z.lt q) l) -> s ∈ run_starts prev l ->
  s - 1 ∉ l /\ prev <> Some (s - 1).
Proof.
  induction 1 as [|a l _ IH Ha]; intros prev s Hq Hs; cbn [run_starts] in Hs; [by apply elem_of_nil in Hs|].
  apply elem_of_app in Hs as [Hs|Hs].
  - case_bool_decide as Ep; [by apply elem_of_nil in Hs|]. apply list_elem_of_singleton in Hs as ->. split; [|done].
    rewrite Forall_forall in Ha. intros [Hc|Hc]%elem_of_cons; [lia|]. specialize (Ha _ Hc). lia.
  - assert (s ∈ l) as Hin by by eapply sublist_subseteq; [apply run_starts_sublist|].
    assert (a < s) as Has by by rewrite Forall_forall in Ha; apply Ha.
    destruct (IH (Some a) s) as [Hn Hne]; [intros q [= <-]; exact Ha|exact Hs|]. split.
    + rewrite elem_of_cons. intros [<-|Hc]; [by apply Hne; f_equal|by apply Hn].
    + intros Ep. specialize (Hq _ Ep). apply Forall_cons in Hq as [Hqa _]. lia.
Qed.
(** The runs of a list after [q], which the first pages may extend *)
Lemma runs_transfer l : StronglySorted Z.lt l -> forall q, Forall (Z.lt q) l -> exists k transfers, 0 <= k /\
  length transfers = length (run_starts (Some q) l) /\
  forall i, i ∈ l <-> q < i <= q + k \/ exists t, t ∈ transfers /\ t.1 <= i < t.1 + t.2.
Proof.
  induction 1 as [|a l _ IH Ha]; intros q Hq.
  { exists 0, []. split; [done|]. split; [done|]. intros i. rewrite elem_of_nil. split; [done|]. intros [?|(t & Ht & _)]; [lia|by apply elem_of_nil in Ht]. }
  apply Forall_cons in Hq as [Hqa _]. destruct (IH a Ha) as (k & ts & Hk & Hlen & Hts). cbn [run_starts].
  case_bool_decide as E.
  - injection E as ->. exists (k + 1), ts. split; [lia|]. split; [done|]. intros i. rewrite elem_of_cons, Hts. split.
    + intros [->|[?|?]]; [left; lia|left; lia|by right].
    + intros [?|?]; [|by right; right]. destruct (decide (i = a)); [by left|right; left; lia].
  - exists 0, ((a, k + 1) :: ts). split; [lia|]. split; [cbn; by rewrite Hlen|]. intros i. rewrite elem_of_cons, Hts.
    setoid_rewrite elem_of_cons. split.
    + intros [->|[?|(t & Ht & ?)]]; right; [exists (a, k + 1)|exists (a, k + 1)|by exists t; auto]; (split; [by left|cbn; lia]).
    + intros [?|(t & [->|Ht] & Hi)]; [lia| |right; right; by exists t]. cbn in Hi. destruct (decide (i = a)); [by left|right; left; lia].
Qed.

(** C20: the floor of coalesced runs [plan-direct-batch-io] reports for a set of pages is
    what its name says: the pages can be moved, and no other page with them, by that many
    transfers of consecutive pages, and by no fewer. *)
Theorem coalesced_floor_is_optimal (pages : gset Z) :
  (exists transfers, transfers_cover transfers pages /\ lenZ transfers = contiguous_runs pages) /\
  (forall transfers, transfers_cover transfers pages -> contiguous_runs pages <= lenZ transfers).
Proof.
  rewrite contiguous_runs_starts. destruct (ascending_sorted pages) as [Hs Hin]. unfold transfers_cover. setoid_rewrite <-Hin. split.
  - destruct Hs as [|a l Hs Ha]; [exists []|].
    + split; [|done]. intros i. split; [by intros ?%elem_of_nil|intros (t & Ht & _); by apply elem_of_nil in Ht].
    + destruct (runs_transfer l Hs a Ha) as (k & ts & Hk & Hlen & Hts). exists ((a, k + 1) :: ts).
      split; [|cbn [run_starts]; rewrite bool_decide_eq_false_2 by done; unfold lenZ; cbn; by rewrite Hlen].
      intros i. rewrite elem_of_cons, Hts. setoid_rewrite elem_of_cons. split.
      * intros [->|[?|(t & Ht & ?)]]; [exists (a, k + 1)|exists (a, k + 1)|by exists t; auto]; (split; [by left|cbn; lia]).
      * intros (t & [->|Ht] & Hi); [|right; right; by exists t]. cbn in Hi. destruct (decide (i = a)); [by left|right; left; lia].
  - intros ts Hts. unfold lenZ. apply inj_le. rewrite <-(length_map fst ts). apply submseteq_length.
    apply NoDup_submseteq; [eapply sublist_NoDup; [by apply strictly_NoDup|apply run_starts_sublist]|].
    intros s Hsin. assert (s ∈ ascending pages) as Hl by by eapply sublist_subseteq; [apply run_starts_sublist|].
    destruct (run_starts_first _ Hs None s) as [Hn _]; [done..|].
    destruct (proj1 (Hts s) Hl) as (t & Ht & Hi). apply list_elem_of_fmap. exists t. split; [|done].
    destruct (decide (s = t.1)) as [|Hne]; [done|]. exfalso. apply Hn. apply Hts. exists t. split; [done|lia].
Qed.

(** ** Reads and writes of a list of events *)

Definition reads_in (evs : list TraceEvent) : list Z := evs ≫= fun e => match e with TraceRead i => [i] | TraceWrite _ => [] end.
Definition writes_in (evs : list TraceEvent) : list Z := evs ≫= fun e => match e with TraceRead _ => [] | TraceWrite i => [i] end.

Lemma reads_app a b : reads_in (a ++ b) = reads_in a ++ reads_in b. Proof. apply bind_app. Qed.
Lemma writes_app a b : writes_in (a ++ b) = writes_in a ++ writes_in b. Proof. apply bind_app. Qed.
Lemma reads_reads l : reads_in (TraceRead <$> l) = l.
Proof. induction l as [|i l IH]; [done|]. cbn [fmap list_fmap]. unfold reads_in in *. by rewrite bind_cons, IH. Qed.
Lemma writes_reads l : writes_in (TraceRead <$> l) = [].
Proof. induction l as [|i l IH]; [done|]. cbn [fmap list_fmap]. unfold writes_in in *. by rewrite bind_cons, IH. Qed.

Definition add_events (evs : list TraceEvent) (rw : PageTouchStats * PageTouchStats) : PageTouchStats * PageTouchStats :=
  (touch_all (reads_in evs) rw.1, touch_all (writes_in evs) rw.2).
Lemma add_events_app a b rw : add_events (a ++ b) rw = add_events b (add_events a rw).
Proof. unfold add_events. by rewrite reads_app, writes_app, !touch_all_app. Qed.

(** What the accesses to the data and to the hashes add to a store's plan *)
Definition add_accesses (d h : list TraceEvent) (x : StoreIoPlan) : StoreIoPlan :=
  mkStorePlan (touch_all (reads_in d) (data_reads x)) (touch_all (writes_in d) (data_writes x))
    (touch_all (reads_in h) (hash_reads x)) (touch_all (writes_in h) (hash_writes x)).
(** The plan of a store whose logs are [d] and [h] *)
Definition plan_of (d h : list TraceEvent) : StoreIoPlan :=
  mkStorePlan (counted (reads_in d)) (counted (writes_in d)) (counted (reads_in h)) (counted (writes_in h)).
Lemma add_accesses_plan d h : add_accesses d h empty_store_plan = plan_of d h.
Proof. unfold add_accesses, plan_of. cbn [data_reads data_writes hash_reads hash_writes empty_store_plan]. by rewrite !touch_all_counted. Qed.
Lemma add_accesses_app d1 d2 h1 h2 x : add_accesses (d1 ++ d2) (h1 ++ h2) x = add_accesses d2 h2 (add_accesses d1 h1 x).
Proof. unfold add_accesses. cbn. by rewrite !reads_app, !writes_app, !touch_all_app. Qed.
Lemma add_accesses_perm d1 d2 h1 h2 x : d1 ≡ₚ d2 -> h1 ≡ₚ h2 -> add_accesses d1 h1 x = add_accesses d2 h2 x.
Proof. intros Hd Hh. unfold add_accesses, reads_in, writes_in. f_equal; apply touch_all_perm; by rewrite ?Hd, ?Hh. Qed.

(** ** The planner of hash pages *)

Definition planner_layout (pl : MerkleIoPlanner) : HashLayout := mkHashLayout (mp_leaf_base pl) (mp_trusted_node_limit pl) (mp_hashes_per_page pl).

(** A planner for a tree over [count] pages *)
Record planner_ok (count : Z) (pl : MerkleIoPlanner) : Prop := {
  po_base : count <= mp_leaf_base pl <= 2 ^ 62;
  po_limit : 2 <= mp_trusted_node_limit pl;
  po_nodes : mp_disk_hash_nodes pl = 2 * mp_leaf_base pl - mp_trusted_node_limit pl
}.

Section Planner.
Context (count : Z) (pl : MerkleIoPlanner) (Hpl : planner_ok count pl).
Local Abbreviation L := (planner_layout pl).

Lemma disk_hash_page_ok n : n < 2 * mp_leaf_base pl -> disk_hash_page pl n = Ok (head (touched L n)).
Proof.
  intros Hn. unfold disk_hash_page, touched. cbn [planner_layout hl_limit hl_per_page]. destruct (n <? mp_trusted_node_limit pl) eqn:E; [done|]. zbool.
  rewrite (po_nodes _ _ Hpl), (proj2 (Z.leb_gt _ _)) by lia. done.
Qed.
Lemma touched_cases n : touched L n = [] \/ exists i, touched L n = [i].
Proof. unfold touched. destruct (_ <? _); [by left|right; by eexists]. Qed.
Lemma add_hash_read_ok n st : n < 2 * mp_leaf_base pl -> add_hash_read pl n st = Ok (touch_all (touched L n) st).
Proof. intros Hn. unfold add_hash_read. rewrite disk_hash_page_ok by done. by destruct (touched_cases n) as [->|[i ->]]. Qed.
Lemma add_hash_write_ok n rw : n < 2 * mp_leaf_base pl -> add_hash_write pl n rw = Ok (add_events (rewrite_touches L n) rw).
Proof.
  intros Hn. unfold add_hash_write, rewrite_touches. rewrite disk_hash_page_ok by done. destruct rw as [r w].
  by destruct (touched_cases n) as [->|[i ->]].
Qed.

(** Halving [n] at each turn leaves the loops with the nodes [upwards] lists. *)
Lemma add_read_loop_ok fuel n st : n < 2 ^ Z.of_nat fuel -> n < 2 * mp_leaf_base pl ->
  add_read_loop (Datatypes.S fuel) pl n st =
    Ok (touch_all (reads_in (upwards (Datatypes.S fuel) (hl_limit L) n ≫= fun n => TraceRead <$> touched L (sibling_node n))) st).
Proof.
  pose proof (po_limit _ _ Hpl) as Hlim. revert n st. induction fuel as [|fuel IH]; intros n st Hf Hn; cbn [add_read_loop upwards planner_layout hl_limit] in *.
  { change (2 ^ Z.of_nat 0) with 1 in Hf. by rewrite (proj2 (Z.leb_gt _ _)) by lia. }
  destruct (mp_trusted_node_limit pl <=? n) eqn:E; [|done]. zbool.
  destruct (sibling_range n (mp_leaf_base pl)) as [Hs Hh]; [lia|].
  rewrite add_hash_read_ok by (fold (sibling_node n); lia). cbn [obind]. rewrite Nat2Z.inj_succ, Z.pow_succ_r in Hf by lia.
  rewrite IH by (try apply Z.div_lt_upper_bound; lia).
  rewrite (bind_cons (fun n => TraceRead <$> touched L (sibling_node n))), reads_app, touch_all_app, reads_reads. done.
Qed.
Lemma add_write_loop_ok fuel n rw : n < 2 ^ Z.of_nat fuel -> n < 2 * mp_leaf_base pl ->
  add_write_loop (Datatypes.S fuel) pl n rw =
    Ok (add_events (upwards (Datatypes.S fuel) 2 n ≫= fun n => (TraceRead <$> touched L (sibling_node n)) ++ rewrite_touches L (n / 2)) rw).
Proof.
  revert n rw. induction fuel as [|fuel IH]; intros n rw Hf Hn; cbn [add_write_loop upwards] in *.
  { change (2 ^ Z.of_nat 0) with 1 in Hf. rewrite (proj2 (Z.ltb_ge _ _)), (proj2 (Z.leb_gt _ _)) by lia. by destruct rw. }
  replace (2 <=? n) with (1 <? n) by lia. destruct (1 <? n) eqn:E; [|by destruct rw]. zbool.
  destruct (sibling_range n (mp_leaf_base pl)) as [Hs Hh]; [lia|]. fold (sibling_node n).
  rewrite add_hash_read_ok by lia. cbn [obind]. rewrite add_hash_write_ok by lia. cbn [obind].
  rewrite Nat2Z.inj_succ, Z.pow_succ_r in Hf by lia. rewrite IH by (try apply Z.div_lt_upper_bound; lia).
  rewrite (bind_cons (fun n => (TraceRead <$> touched L (sibling_node n)) ++ rewrite_touches L (n / 2))), !add_events_app. do 3 f_equal.
  destruct rw as [r w]. unfold add_events. cbn [fst snd]. by rewrite reads_reads, writes_reads.
Qed.

Lemma verify_writes_nothing i : writes_in (verify_touches L i) = [].
Proof.
  unfold verify_touches. induction (upwards _ _ _) as [|n l IH]; [done|]. by rewrite bind_cons, writes_app, writes_reads.
Qed.
Lemma add_read_ok i st : 0 <= i < count -> add_read pl i st = Ok (touch_all (reads_in (verify_touches L i)) st).
Proof.
  intros Hi. pose proof (po_base _ _ Hpl). unfold add_read. rewrite add_read_loop_ok; [done|change (2 ^ Z.of_nat 64) with (2 ^ 62 * 4); lia|lia].
Qed.
Lemma add_write_ok i rw : 0 <= i < count -> add_write pl i rw = Ok (add_events (update_touches L i) rw).
Proof.
  intros Hi. pose proof (po_base _ _ Hpl). unfold add_write. rewrite add_hash_write_ok by lia. cbn [obind].
  rewrite add_write_loop_ok by (try change (2 ^ Z.of_nat 64) with (2 ^ 62 * 4); lia). unfold update_touches. by rewrite add_events_app.
Qed.

End Planner.

(** ** The plan *)

(** What the planner counts an access of a store to do to the hashes *)
Definition auth_event (a : BatchAuthPlan) (e : TraceEvent) : list TraceEvent :=
  match a with PlanSidecar pl => hash_touches (planner_layout pl) e | _ => [] end.
Definition auth_ok (count : Z) (a : BatchAuthPlan) : Prop := match a with PlanSidecar pl => planner_ok count pl | _ => True end.

(** The plan after the accesses [em] of the metadata store and [ep] of the payload store *)
Definition plan_add (plan : BatchIoPlan) (evs : list TraceEvent) (x : StoreIoPlan) : StoreIoPlan :=
  add_accesses (evs ≫= cache_event (bp_cached_pages plan)) (evs ≫= auth_event (bp_auth plan)) x.
Definition planned (plan : BatchIoPlan) (em ep : list TraceEvent) : BatchIoPlan :=
  mkBatchPlan (bp_cached_pages plan) (bp_encrypted plan) (bp_meta_page_size plan) (bp_payload_page_size plan) (bp_auth plan)
    (plan_add plan em (bp_meta plan)) (plan_add plan ep (bp_payload plan)).

Lemma planned_nil plan : planned plan [] [] = plan.
Proof. destruct plan as [? ? ? ? ? [] []]. done. Qed.
Lemma planned_app plan m1 p1 m2 p2 : planned (planned plan m1 p1) m2 p2 = planned plan (m1 ++ m2) (p1 ++ p2).
Proof. unfold planned, plan_add. cbn. by rewrite !bind_app, !add_accesses_app. Qed.
Lemma planned_perm plan m1 p1 m2 p2 : m1 ≡ₚ m2 -> p1 ≡ₚ p2 -> planned plan m1 p1 = planned plan m2 p2.
Proof. intros Hm Hp. unfold planned, plan_add. f_equal; apply add_accesses_perm; by rewrite ?Hm, ?Hp. Qed.

Section Plan.
Context (p : OramParams) (Hp : params_ok p).

Definition fits_plan (plan : BatchIoPlan) : Prop := auth_ok (bucket_count p) (bp_auth plan).
(** The accesses of one store *)
Definition to_store (store : BatchStoreKind) (e : TraceEvent) : list TraceEvent * list TraceEvent :=
  match store with StoreMeta => ([e], []) | StorePayload => ([], [e]) end.

Lemma add_data_ok (write : bool) store i plan : fits_plan plan -> 0 <= i < bucket_count p ->
  (if write then add_data_write else add_data_read) store i plan =
    let es := to_store store (if write then TraceWrite i else TraceRead i) in Ok (planned plan es.1 es.2).
Proof.
  unfold fits_plan. intros Ha Hi.
  destruct plan as [c enc ms ps a m q]. cbn [bp_auth] in *.
  assert (forall x e, plan_add (mkBatchPlan c enc ms ps a m q) [e] x = add_accesses (cache_event c e) (auth_event a e) x) as E1.
  { intros x e. unfold plan_add. cbn [bp_cached_pages bp_auth]. by rewrite !bind_cons, !app_nil_r. }
  assert (forall x, plan_add (mkBatchPlan c enc ms ps a m q) [] x = x) as E0 by by intros [].
  destruct write; unfold add_data_write, add_data_read; cbn [bp_cached_pages bp_auth]; replace (c <=? i) with (negb (i <? c)) by lia;
    destruct store; cbn [plan_store bp_meta bp_payload to_store fst snd]; unfold planned; cbn [bp_cached_pages bp_encrypted bp_meta_page_size bp_payload_page_size bp_auth bp_meta bp_payload];
    rewrite E1, E0; unfold cache_event, add_accesses; cbn [page_of]; destruct a as [|pl|]; cbn [auth_event hash_touches];
    destruct (i <? c); cbn [negb hash_reads hash_writes data_reads data_writes];
    rewrite ?(add_write_ok (bucket_count p) pl Ha) by done; rewrite ?(add_read_ok (bucket_count p) pl Ha) by done; cbn [obind];
    rewrite ?verify_writes_nothing; try (by destruct m); try (by destruct q); done.
Qed.

(** A loop whose steps each make accesses *)
Lemma loop_planned (step : BatchIoPlan -> Z -> outcome BatchIoPlan) (m q : Z -> list TraceEvent) l plan : fits_plan plan ->
  (forall plan i, fits_plan plan -> i ∈ l -> step plan i = Ok (planned plan (m i) (q i))) ->
  ofold step plan l = Ok (planned plan (l ≫= m) (l ≫= q)).
Proof.
  intros Ha Hs. revert plan Ha. induction l as [|i l IH]; intros plan Ha; cbn [ofold]; [by rewrite planned_nil|].
  rewrite Hs by (done || apply list_elem_of_here). cbn [obind]. rewrite IH; [|intros; apply Hs; [done|by apply list_elem_of_further]|done].
  by rewrite planned_app.
Qed.

Lemma pairs_perm (f : Z -> list TraceEvent) (a b : Z -> list TraceEvent) l : (forall i, f i = a i ++ b i) -> (l ≫= f) ≡ₚ (l ≫= a) ++ (l ≫= b).
Proof.
  intros Hf. induction l as [|i l IH]; [done|]. rewrite !bind_cons, Hf, IH. rewrite <-!app_assoc. apply Permutation_app_head.
  by rewrite Permutation_app_swap_app.
Qed.
Lemma fmap_as_bind {A B} (f : A -> B) l : (l ≫= fun x => [f x]) = f <$> l.
Proof. induction l as [|x l IH]; [done|]. by rewrite bind_cons, IH. Qed.

Ltac add_step := match goal with
  | |- context [add_data_read ?st ?i ?pl] => rewrite (add_data_ok false st i pl) by (done || eauto)
  | |- context [add_data_write ?st ?i ?pl] => rewrite (add_data_ok true st i pl) by (done || eauto)
  end; cbv zeta; cbn [obind to_store fst snd].

Context (lf : Z) (Hlf : leaf_ok p lf).
Local Abbreviation path := (path_nodes p lf).

Lemma online_planned plan : fits_plan plan -> add_online_path p lf plan = Ok (planned plan (path_trace [path]) (path_trace [path])).
Proof.
  intros Ha. unfold add_online_path. erewrite (loop_planned _ (fun i => [TraceRead i; TraceWrite i]) (fun i => [TraceRead i; TraceWrite i])); [|done|].
  - f_equal. unfold path_trace. cbn [concat]. rewrite app_nil_r. apply planned_perm;
      (rewrite (pairs_perm _ (fun i => [TraceRead i]) (fun i => [TraceWrite i])) by done; by rewrite !fmap_as_bind).
  - intros plan' i Ha' Hi. pose proof (path_nodes_range p Hp lf i Hlf Hi). repeat add_step. by rewrite !planned_app.
Qed.

Lemma eviction_planned plan : fits_plan plan ->
  add_eviction_path p lf plan = Ok (planned plan (path_trace [path] ++ (TraceRead <$> path)) (path_trace [path])).
Proof.
  intros Ha. unfold add_eviction_path.
  erewrite (loop_planned _ (fun i => [TraceRead i; TraceRead i]) (fun _ => [])); [|done|]; cbn [obind].
  2: { intros plan' i Ha' Hi. pose proof (path_nodes_range p Hp lf i Hlf Hi). repeat add_step. by rewrite !planned_app. }
  erewrite (loop_planned _ (fun _ => []) (fun i => [TraceRead i])); [|done|]; cbn [obind].
  2: { intros plan' i Ha' Hi. pose proof (path_nodes_range p Hp lf i Hlf Hi). by repeat add_step. }
  erewrite (loop_planned _ (fun i => [TraceWrite i]) (fun i => [TraceWrite i])); [|done|].
  2: { intros plan' i Ha' Hi. pose proof (path_nodes_range p Hp lf i Hlf Hi). repeat add_step. by rewrite !planned_app. }
  assert (forall l : list Z, (l ≫= fun _ => []) = ([] : list TraceEvent)) as E0 by (induction l; done).
  f_equal. rewrite !planned_app, !fmap_as_bind, !E0. unfold path_trace. cbn [concat app]. rewrite !app_nil_r. apply planned_perm; [|done].
  rewrite (pairs_perm _ (fun i => [TraceRead i]) (fun i => [TraceRead i])) by done. rewrite fmap_as_bind.
  rewrite <-!app_assoc. apply Permutation_app_head, Permutation_app_comm.
Qed.

End Plan.

(** ** A batch of queries *)

Section Batch.
Context (p : OramParams) (Hp : params_ok p) (d : Z) (Hd : 0 <= d).

(** The leaves evicted after a query, and the schedule they leave *)
Definition drained (s : CircuitEvictionSchedule) : list Z := eviction_leaves (issue 1 s) (Z.min d (debt (issue 1 s))).
Definition after_query (s : CircuitEvictionSchedule) : CircuitEvictionSchedule := advance (Z.min d (debt (issue 1 s))) (issue 1 s).
Fixpoint batch_trace (leaves : list Z) (s : CircuitEvictionSchedule) : list TraceEvent :=
  match leaves with
  | [] => []
  | lf :: leaves => path_trace [path_nodes p lf] ++ path_trace (path_nodes p <$> drained s) ++ batch_trace leaves (after_query s)
  end.
Fixpoint batch_drained (leaves : list Z) (s : CircuitEvictionSchedule) : list Z :=
  match leaves with [] => [] | _ :: leaves => drained s ++ batch_drained leaves (after_query s) end.
(** The paths of the evictions, read *)
Definition paths_read (leaves : list Z) : list TraceEvent := TraceRead <$> concat (path_nodes p <$> leaves).

Lemma paths_read_app a b : paths_read (a ++ b) = paths_read a ++ paths_read b.
Proof. unfold paths_read. by rewrite fmap_app, concat_app, fmap_app. Qed.
Lemma paths_read_cons a l : paths_read (a :: l) = (TraceRead <$> path_nodes p a) ++ paths_read l.
Proof. unfold paths_read. cbn [fmap list_fmap concat]. by rewrite fmap_app. Qed.
Lemma path_trace_cons a l : path_trace (a :: l) ≡ₚ path_trace [a] ++ path_trace l.
Proof.
  unfold path_trace. cbn [concat]. rewrite app_nil_r, !fmap_app, <-!app_assoc. apply Permutation_app_head.
  by rewrite Permutation_app_swap_app.
Qed.

Lemma evictions_planned leaves plan n : Forall (leaf_ok p) leaves -> fits_plan p plan -> 0 <= n <= u64_max ->
  ofold (fun (acc : BatchIoPlan * Z) leaf => let? plan := add_eviction_path p leaf acc.1 in Ok (plan, add64 acc.2 1)) (plan, n) leaves =
    Ok (planned plan (path_trace (path_nodes p <$> leaves) ++ paths_read leaves) (path_trace (path_nodes p <$> leaves)), wrap 64 (n + lenZ leaves)).
Proof.
  intros Hl. revert plan n. induction Hl as [|lf leaves Hlf Hl IH]; intros plan n Ha Hn; cbn [ofold fst snd].
  { rewrite planned_nil, Z.add_0_r, wrap_small by (unfold u64_max in Hn; lia). reflexivity. }
  rewrite (eviction_planned p Hp lf Hlf plan Ha). cbn [obind]. rewrite IH; [|done|unfold add64, wrap, u64_max; pose proof (Z.mod_pos_bound (n + 1) (2 ^ 64)); lia].
  rewrite planned_app. do 2 f_equal.
  - apply planned_perm; cbn [fmap list_fmap]; rewrite (path_trace_cons _ (path_nodes p <$> leaves)); [|done].
    rewrite paths_read_cons. rewrite <-!app_assoc. apply Permutation_app_head. by rewrite Permutation_app_swap_app.
  - unfold add64, wrap. rewrite Zplus_mod_idemp_l. unfold lenZ. cbn [length]. f_equal. lia.
Qed.

Lemma drained_ok s : sch_leaf_bits s = leaf_bits p -> Forall (leaf_ok p) (drained s).
Proof.
  intros Hs. unfold drained, eviction_leaves. apply Forall_fmap, Forall_true. intros i. cbn. unfold leaf_ok.
  rewrite Hs, (ok_leaves p Hp). apply reverse_bits_mod_range. pose proof (ok_bits p Hp). lia.
Qed.

Lemma query_planned plan s n lf : leaf_ok p lf -> fits_plan p plan -> schedule_ok s -> sch_leaf_bits s = leaf_bits p -> can_record 1 s ->
  0 <= n <= u64_max ->
  plan_query p d (plan, s, n) lf =
    Ok (planned plan (path_trace [path_nodes p lf] ++ path_trace (path_nodes p <$> drained s) ++ paths_read (drained s))
          (path_trace [path_nodes p lf] ++ path_trace (path_nodes p <$> drained s)), after_query s, wrap 64 (n + lenZ (drained s))) /\
  schedule_ok (after_query s).
Proof.
  intros Hlf Ha Hs Hb Hr Hn. unfold plan_query. rewrite (online_planned p Hp lf Hlf plan Ha). cbn [obind].
  destruct (record_access_ok s Hs Hr) as [-> Hs1]. cbn [obind]. unfold schedule_drain_evictions.
  destruct (drain_loop_ok (Z.to_nat d) (issue 1 s) Hs1) as [E Hs2]. rewrite Z2Nat.id in E, Hs2 by done. rewrite E. cbn [obind].
  fold (drained s) (after_query s). rewrite evictions_planned; [|by apply drained_ok|done|done]. cbn [obind fst snd]. by rewrite planned_app.
Qed.

Lemma batch_planned leaves plan s n : Forall (leaf_ok p) leaves -> fits_plan p plan -> schedule_ok s -> sch_leaf_bits s = leaf_bits p ->
  can_record (lenZ leaves) s -> 0 <= n <= u64_max ->
  exists s', ofold (plan_query p d) (plan, s, n) leaves =
    Ok (planned plan (batch_trace leaves s ++ paths_read (batch_drained leaves s)) (batch_trace leaves s), s',
        wrap 64 (n + lenZ (batch_drained leaves s))).
Proof.
  intros Hl. revert plan s n. induction Hl as [|lf leaves Hlf Hl IH]; intros plan s n Ha Hs Hb Hr Hn; cbn [ofold batch_trace batch_drained].
  { exists s. rewrite planned_nil, Z.add_0_r, wrap_small by (unfold u64_max in Hn; lia). done. }
  assert (lenZ (lf :: leaves) = 1 + lenZ leaves) as El by (unfold lenZ; cbn [length]; lia). rewrite El in Hr. pose proof (lenZ_nonneg leaves).
  destruct (query_planned plan s n lf Hlf Ha Hs Hb) as [E Hs']; [by apply (can_record_mono 1 (1 + lenZ leaves)); [lia|..]|done|].
  rewrite E. cbn [obind].
  match goal with |- context [ofold _ (?pl, _, _) leaves] => destruct (IH pl (after_query s) (wrap 64 (n + lenZ (drained s)))) as [s' E'] end; try done.
  - destruct Hr as [Hr1 Hr2]. unfold after_query. split; cbn; lia.
  - unfold wrap, u64_max. pose proof (Z.mod_pos_bound (n + lenZ (drained s)) (2 ^ 64)). lia.
  - exists s'. rewrite E', planned_app, lenZ_app. unfold wrap at 1 2. rewrite Zplus_mod_idemp_l, Z.add_assoc. do 3 f_equal.
    apply planned_perm; [|by rewrite <-app_assoc]. rewrite paths_read_app, <-!app_assoc. do 2 apply Permutation_app_head. by rewrite Permutation_app_swap_app.
Qed.

(** The leaves of the online requests of a batch, and what the requests access *)
Definition single (q : request) : Prop := match q with ReqAccess _ | ReqDummy => True | _ => False end.
Definition batch_requests (qs : list request) : list request := qs ≫= fun q => [q; ReqDrain d].

Section Leaves.
Context {R : Type} `{Rng R}.

Fixpoint online_leaves (qs : list request) (v : view) : list Z :=
  match qs with
  | [] => []
  | q :: qs => let (lfs, v) := view_step p q v in lfs ++ online_leaves qs (view_step p (ReqDrain d) v).2
  end.
Lemma batch_requests_trace qs (v : view) : Forall single qs -> view_trace p (batch_requests qs) v = batch_trace (online_leaves qs v) (v_schedule v).
Proof.
  intros Hqs. revert v. induction Hqs as [|q qs Hq Hqs IH]; intros v; [done|]. unfold batch_requests. rewrite bind_cons. fold (batch_requests qs).
  destruct q; try done; cbn [view_trace view_step app online_leaves batch_trace fmap list_fmap v_schedule fst snd]; rewrite IH; done.
Qed.

(** The planner's draws are the generator's leaves. *)
Lemma draw_is_leaf (r : R) : (if leaves p =? 0 then Panic else Ok (wrap 32 ((next_u64 r).1 mod leaves p))) = Ok (next_leaf p r).
Proof.
  pose proof (leaves_pos p Hp). pose proof (ok_leaves p Hp) as Hlv. destruct (random_leaf_eq p Hp r) as [_ Hr].
  rewrite (proj2 (Z.eqb_neq _ _)) by lia. f_equal. unfold next_leaf in *.
  assert (Z.land (next_u64 r).1 (leaves p - 1) = (next_u64 r).1 mod leaves p) as El.
  2: { rewrite <-El. apply wrap_small. pose proof (leaf_ok_u32 p Hp _ Hr) as Hu. unfold is_u32, u32_max in Hu. lia. }
  destruct (ok_bits p Hp). replace (leaves p - 1) with (Z.ones (leaf_bits p)) by (rewrite Z.ones_equiv; lia). by rewrite Z.land_ones, Hlv by lia.
Qed.
Lemma plan_loop_eq k : forall plan s m i (r : R),
  (let? acc := ofold (fun (acc : BatchIoPlan * CircuitEvictionSchedule * Z * R) (_ : Z) =>
     let '(acc, rng) := acc in
     let (word, rng) := next_u64 rng in
     let? leaf := if leaves p =? 0 then Panic else Ok (wrap 32 (word mod leaves p)) in
     let? acc := plan_query p d acc leaf in Ok (acc, rng)) (plan, s, m, r) (seqZ i (Z.of_nat k)) in
   let '(plan, _, evictions_drained, _) := acc in Ok (plan, evictions_drained)) =
  let? acc := ofold (plan_query p d) (plan, s, m) (leaf_stream p k r).1 in Ok (acc.1.1, acc.2).
Proof.
  induction k as [|k IH]; intros plan s m i r; [done|]. rewrite seqZ_cons by lia. cbn [ofold leaf_stream].
  pose proof (draw_is_leaf r) as Hdr. destruct (next_u64 r) as [word r'] eqn:Er. cbn [fst snd] in *. rewrite Hdr. cbn [obind].
  replace (Z.pred (Z.of_nat (Datatypes.S k))) with (Z.of_nat k) by lia.
  specialize (fun plan s m => IH plan s m (Z.succ i) r'). destruct (leaf_stream p k r') as [lfs r'']. cbn [fst ofold] in *.
  destruct (plan_query p d (plan, s, m) (next_leaf p r)) as [[[plan' s'] m']|e| |]; cbn [obind]; [apply IH|done..].
Qed.
Lemma plan_queries_eq n plan (r : R) : 0 <= n ->
  plan_queries p n d plan r =
    let? acc := ofold (plan_query p d) (plan, schedule_new p, 0) (leaf_stream p (Z.to_nat n) r).1 in Ok (acc.1.1, acc.2).
Proof. intros Hn. rewrite <-(plan_loop_eq (Z.to_nat n) plan (schedule_new p) 0 0 r), Z2Nat.id by done. done. Qed.
End Leaves.

End Batch.

(** ** The plan and the run *)

Section Run.
Context `{SL : SubtleLaws} `{HashLaws} {M1 M2 P1 P2 R : Type} `{Rng R}.
Context `{LawfulPageStore M1} `{LawfulPageStore M2} `{LawfulPageStore P1} `{LawfulPageStore P2}.
Local Abbreviation Oram := (CircuitOram (Sidecar M1 M2) (Sidecar P1 P2) R).

(** A planner made for the dimensions of a sidecar has its layout. *)
Lemma planner_for {S T} `{LawfulPageStore S} `{LawfulPageStore T} (s : Sidecar S T) levels hash_size pl :
  tiered_shape s -> planner_new (tm_page_count s) levels hash_size = Ok pl -> tm_trusted_levels s = levels -> tm_hashes_per_page s = hash_size / 32 ->
  planner_ok (tm_page_count s) pl /\ planner_layout pl = layout_of s.
Proof.
  intros Hs Hpl Hlv Hpp. destruct (tiered_pos s Hs) as (_ & _ & _ & Hlim & _).
  destruct Hs as [_ _ _ _ Hb _ _ Hl2 _ Hn _ _ Hbase].
  unfold planner_new in Hpl. unfold leaf_base_for_page_count in Hbase. destruct (tm_page_count s =? 0); [done|]. cbn [negb guardo obind] in Hpl.
  destruct (hash_size <? 32); [done|]. cbn [negb guardo obind] in Hpl. destruct (checked_next_power_of_two _) as [base|]; [|done].
  cbn [ok_or obind] in Hpl, Hbase. injection Hbase as ->. destruct (_ || _); [done|]. cbn [negb guardo obind] in Hpl.
  destruct (levels <? 64) eqn:El; [|done]. cbn [ok_or obind] in Hpl. injection Hpl as <-. rewrite <-Hlv, <-Hl2.
  split; [|unfold planner_layout, layout_of; cbn; by rewrite Hpp].
  split; cbn [mp_leaf_base mp_trusted_node_limit mp_disk_hash_nodes]; [lia|lia|]. rewrite wrap_small; [lia|]. change (2 ^ 64) with (4 * 2 ^ 62). lia.
Qed.

Lemma single_accesses (ops : list op) d : Forall (fun a => single (request_of a)) ops -> total_accesses (ops ≫= fun a => [a; OpDrain d]) = lenZ ops.
Proof.
  induction 1 as [|a ops Ha _ IH]; [done|]. rewrite bind_cons. unfold total_accesses in *. cbn [app foldr]. rewrite IH.
  unfold lenZ. cbn [length]. destruct a; try done; cbn [op_accesses]; lia.
Qed.
Lemma batch_ops_requests (ops : list op) d : request_of <$> (ops ≫= fun a => [a; OpDrain d]) = batch_requests d (request_of <$> ops).
Proof. unfold batch_requests. induction ops as [|a ops IH]; [done|]. cbn [fmap list_fmap]. by rewrite !bind_cons, fmap_app, IH. Qed.

(** C19: on authenticated, cached stores a batch of queries - accesses or dummies, each
    followed by a drain of [d] evictions - makes exactly the accesses to data pages and
    to pages of hashes that [plan-direct-batch-io] counts when it draws the leaves the
    batch looks up: the same numbers of reads and writes, of the same pages, for the
    payload store and, for the metadata store, with every path evicted counted as read
    once more than the controller reads it. *)
Theorem batch_plan_counts_accesses (ops : list op) cached encrypted meta_size payload_size levels hash_size plan0 d r
    (o o' : Oram) A T outs :
  let p := co_params o in
  let qs := request_of <$> ops in
  oram_inv o A T -> schedule o = schedule_new p ->
  cached_of (meta_store o) = cached -> tm_trusted_levels (meta_store o) = levels -> tm_hashes_per_page (meta_store o) = hash_size / 32 ->
  cached_of (payload_store o) = cached -> tm_trusted_levels (payload_store o) = levels -> tm_hashes_per_page (payload_store o) = hash_size / 32 ->
  batch_plan_new (bucket_count p) cached encrypted meta_size payload_size true LayoutSidecar levels hash_size = Ok plan0 ->
  Forall (fun a => single (request_of a) /\ op_ok p a) ops -> 0 <= d -> can_record (lenZ ops) (schedule_new p) ->
  (leaf_stream p (length ops) r).1 = online_leaves p d qs (view_of o) ->
  exec_ops (ops ≫= fun a => [a; OpDrain d]) o = (Ok outs, o') ->
  exists plan evicted dm hm dp hp,
    plan_queries p (lenZ ops) d plan0 r = Ok (plan, wrap 64 (lenZ evicted)) /\
    data_trace (meta_store o') = data_trace (meta_store o) ++ dm /\ hash_trace (meta_store o') = hash_trace (meta_store o) ++ hm /\
    data_trace (payload_store o') = data_trace (payload_store o) ++ dp /\ hash_trace (payload_store o') = hash_trace (payload_store o) ++ hp /\
    bp_payload plan = plan_of dp hp /\
    bp_meta plan = plan_of (dm ++ (paths_read p evicted ≫= cache_event cached)) (hm ++ (paths_read p evicted ≫= hash_touches (layout_of (meta_store o)))).
Proof.
  intros p qs Ho Hsch Hc1 Hl1 Hh1 Hc2 Hl2 Hh2 Hplan Hops Hd Hrec Hleaves E.
  pose proof (oi_params _ _ _ Ho) as Hp. pose proof (oi_bits _ _ _ Ho) as Hbits. pose proof (oi_schedule _ _ _ Ho) as Hsok.
  apply Forall_and in Hops as [Hsg Hok].
  assert (Forall (op_ok p) (ops ≫= fun a => [a; OpDrain d])) as Hok'.
  { clear -Hok Hd. induction Hok; [constructor|]. rewrite bind_cons. by repeat apply Forall_cons_2. }
  pose proof (sidecar_traces _ o o' A T outs Ho Hok' ltac:(by rewrite single_accesses, Hsch) E) as Ht. cbv zeta in Ht.
  rewrite batch_ops_requests in Ht. fold p qs in Ht.
  assert (Forall single qs) as Hqs by by apply Forall_fmap.
  rewrite (batch_requests_trace p d qs (view_of o) Hqs), <-Hleaves in Ht. change (v_schedule (view_of o)) with (schedule o) in Ht. rewrite Hsch in Ht.
  destruct (random_leaves_eq p Hp (length ops) r) as (_ & Hlen & Hlok).
  destruct (oi_stores _ _ _ Ho) as [([Hms _] & Hmc & _) ([Hps _] & Hpc & _)].
  change (pp_page_count ?s) with (tm_page_count s) in Hmc, Hpc. fold p in Hmc, Hpc.
  unfold batch_plan_new in Hplan. cbn [negb] in Hplan. destruct (planner_new (bucket_count p) levels hash_size) as [pl|e| |] eqn:Epl; [|done..].
  cbn [obind] in Hplan. injection Hplan as <-.
  destruct (planner_for (meta_store o) levels hash_size pl Hms ltac:(by rewrite Hmc) Hl1 Hh1) as [Hpok HL1].
  destruct (planner_for (payload_store o) levels hash_size pl Hps ltac:(by rewrite Hpc) Hl2 Hh2) as [_ HL2].
  rewrite Hmc in Hpok. rewrite plan_queries_eq by (done || apply lenZ_nonneg). replace (Z.to_nat (lenZ ops)) with (length ops) by (unfold lenZ; lia).
  set (leaves := (leaf_stream p (length ops) r).1) in *.
  match goal with |- context [ofold _ (?pl0, _, _) leaves] => destruct (batch_planned p Hp d Hd leaves pl0 (schedule_new p) 0 Hlok) as [s' E'] end;
    [exact Hpok|by rewrite <-Hsch|by rewrite <-Hsch|replace (lenZ leaves) with (lenZ ops) by (unfold lenZ; congruence); exact Hrec|done|].
  setoid_rewrite E'. cbn [obind fst snd]. rewrite Z.add_0_l.
  do 2 eexists. exists (batch_trace p d leaves (schedule_new p) ≫= cache_event cached), (batch_trace p d leaves (schedule_new p) ≫= hash_touches (layout_of (meta_store o))),
    (batch_trace p d leaves (schedule_new p) ≫= cache_event cached), (batch_trace p d leaves (schedule_new p) ≫= hash_touches (layout_of (payload_store o))).
  split; [reflexivity|]. destruct Ht as (H1' & H2' & H3' & H4'). rewrite Hc1 in H1'. rewrite Hc2 in H3'.
  split; [exact H1'|]. split; [exact H2'|]. split; [exact H3'|]. split; [exact H4'|].
  cbn [planned bp_payload bp_meta]. unfold plan_add. cbn [bp_cached_pages bp_auth bp_payload bp_meta].
  change (auth_event (PlanSidecar pl)) with (hash_touches (planner_layout pl)).
  split; [rewrite <-HL2; apply add_accesses_plan|]. rewrite <-HL1, <-!bind_app. apply add_accesses_plan.
Qed.
End Run.

(** Dummies look up the leaves a planner with the same generator draws. *)
Lemma dummies_look_up {R} `{Rng R} p d n : forall v : view (R := R), online_leaves p d (replicate n ReqDummy) v = (leaf_stream p n (v_rng v)).1.
Proof.
  induction n as [|n IH]; intros v; [done|]. cbn [replicate online_leaves view_step leaf_stream]. rewrite IH. cbn [view_step v_rng snd].
  by destruct (leaf_stream p n (next_u64 (v_rng v)).2).
Qed.

#[local] Existing Instance bool_subtle.
#[local] Existing Instance bool_subtle_laws.

Lemma batch_plan_counts_accesses_witness :
  exists (o o' : CircuitOram (Sidecar MemPageStore MemPageStore) (Sidecar MemPageStore MemPageStore) Z) outs plan0 plan evicted dm hm dp hp,
    obind demo_build demo_stack = Ok o /\ exec_ops (replicate 3 OpDummy ≫= fun a => [a; OpDrain 2]) o = (Ok outs, o') /\
    batch_plan_new 7 3 false 26 4 true LayoutSidecar 2 64 = Ok plan0 /\
    plan_queries demo_params 3 2 plan0 (rng o) = Ok (plan, wrap 64 (lenZ evicted)) /\
    data_trace (meta_store o') = data_trace (meta_store o) ++ dm /\ hash_trace (meta_store o') = hash_trace (meta_store o) ++ hm /\
    data_trace (payload_store o') = data_trace (payload_store o) ++ dp /\ hash_trace (payload_store o') = hash_trace (payload_store o) ++ hp /\
    bp_payload plan = plan_of dp hp /\
    bp_meta plan = plan_of (dm ++ (paths_read demo_params evicted ≫= cache_event 3))
                     (hm ++ (paths_read demo_params evicted ≫= hash_touches (layout_of (meta_store o)))).
Proof.
  destruct demo_inv as (i & T & Ei & Hi & Hpi & Hsi & Hsti).
  destruct (demo_stack_ok i _ _ Hi Hpi) as (o & Eo & Ho & Hpo & Hso & Hvo & Hcm & Hcp).
  assert (schedule o = schedule_new demo_params) as Hsc.
  { unfold view_of in Hvo. injection Hvo as _ _ ->. exact Hsi. }
  destruct (demo_stack_runs o _ _ (replicate 3 OpDummy ≫= fun a => [a; OpDrain 2]) Ho Hpo) as (outs & o' & E);
    [by rewrite Hso|exact Hsc|by repeat constructor|vm_compute; discriminate|split; vm_compute; discriminate|].
  assert (forall s : Sidecar MemPageStore MemPageStore, configuration s = (demo_layout, 2, 3) ->
    cached_of s = 3 /\ tm_trusted_levels s = 2 /\ tm_hashes_per_page s = 64 / 32) as Hconf.
  { intros s Hc. split; [exact (f_equal snd Hc)|]. split; [exact (f_equal (fun c => c.1.2) Hc)|]. exact (f_equal (fun c => hl_per_page c.1.1) Hc). }
  destruct (Hconf _ Hcm) as (C1 & L1 & P1), (Hconf _ Hcp) as (C2 & L2 & P2).
  assert (exists plan0, batch_plan_new 7 3 false 26 4 true LayoutSidecar 2 64 = Ok plan0) as [plan0 Ep] by (eexists; vm_compute; reflexivity).
  destruct (batch_plan_counts_accesses (replicate 3 OpDummy) 3 false 26 4 2 64 plan0 2 (rng o) o o' demo_blocks T outs Ho)
    as (plan & evicted & dm & hm & dp & hp & Hall).
  - rewrite Hpo. exact Hsc.
  - exact C1.
  - exact L1.
  - exact P1.
  - exact C2.
  - exact L2.
  - exact P2.
  - rewrite Hpo. exact Ep.
  - by repeat constructor.
  - done.
  - rewrite Hpo. split; vm_compute; discriminate.
  - symmetry. exact (dummies_look_up (co_params o) 2 3 (view_of o)).
  - exact E.
  - rewrite Hpo in Hall. exists o, o', outs, plan0, plan, evicted, dm, hm, dp, hp. split; [rewrite Ei; exact Eo|]. split; [exact E|]. split; [exact Ep|]. exact Hall.
Defined.
