(* ===== verification/Sweeps.v ===== *)
(** * Sweeps over sizes and simulations ([src/src/bin/oramctl.rs])

    [size-cuckoo] and [size-direct] estimate the images of tables for every packing and
    tree asked for; [stress-circuit] and [stress-ring-direct] simulate them.  A command
    returns the numbers it prints, in order. *)

From S2P Require Import Prelude Params Rng SealedState Evidence Float64 Direct Cuckoo Sizing ImageFiles ImageOps Stress RingStress BatchIo.

(** [for x in l] around a body that prints lines *)
Definition flat_mapM {S A B} (f : A -> M S (list B)) (l : list A) : M S (list B) := let* rows := mapM f l in ret (concat rows).
Definition flat_omap {A B} (f : A -> outcome (list B)) (l : list A) : outcome (list B) := let? rows := omap_m f l in Ok (concat rows).
Definition is_nil {A} (l : list A) : bool := match l with [] => true | _ => false end.

(** [gib], [mib] *)
Definition f64_1024 : f64 := f64_of_Z 1024.
Definition mib (bytes : Z) : f64 := f64_div (f64_div (f64_of_Z bytes) f64_1024) f64_1024.
Definition gib (bytes : Z) : f64 := f64_div (mib bytes) f64_1024.

(** ** Sizes *)

(** The totals of the tables of a line *)
Record SizeTotals : Type := mkTotals {
  tt_image_plaintext : Z;
  tt_image_aead : Z;
  tt_pos_map : Z;
  tt_trusted_state_floor : Z;
  tt_front_cache_plaintext : Z;
  tt_front_cache_aead : Z
}.
Definition add_estimate (t : SizeTotals) (e : OramSizes) : SizeTotals :=
  mkTotals (add64 (tt_image_plaintext t) (es_image_plaintext_bytes e)) (add64 (tt_image_aead t) (es_image_aead_bytes e))
    (add64 (tt_pos_map t) (es_pos_map_bytes e)) (add64 (tt_trusted_state_floor t) (es_trusted_state_floor_bytes e))
    (add64 (tt_front_cache_plaintext t) (es_front_cache_plaintext_bytes e)) (add64 (tt_front_cache_aead t) (es_front_cache_aead_bytes e)).

(** The lines of one packing and divisor: an estimate for each table, the totals and
    [expansion_aead_vs_cuckoo] or [expansion_aead_vs_direct_source] *)
Record SizeRow (E : Type) : Type := mkRow { row_pack : Z; row_leaf_divisor : Z; row_estimates : list E; row_totals : SizeTotals; row_expansion : f64 }.
Arguments mkRow {E}. Arguments row_pack {E}. Arguments row_leaf_divisor {E}. Arguments row_estimates {E}. Arguments row_totals {E}. Arguments row_expansion {E}.
Definition size_row {T E} (estimate : OramSizing -> T -> outcome E) (sizes : E -> OramSizes) (tables : list T)
    (original bucket_size stash_capacity cache_levels pack leaf_divisor : Z) : outcome (SizeRow E) :=
  let sizing := mkSizing pack leaf_divisor bucket_size stash_capacity cache_levels in
  let? estimates := omap_m (estimate sizing) tables in
  let totals := foldl add_estimate (mkTotals 0 0 0 0 0 0) (sizes <$> estimates) in
  Ok (mkRow pack leaf_divisor estimates totals (f64_div (f64_of_Z (tt_image_aead totals)) (f64_of_Z (Z.max original 1)))).
Definition size_rows {T E} (estimate : OramSizing -> T -> outcome E) (sizes : E -> OramSizes) (tables : list T)
    (original : Z) (packs leaf_divisors : list Z) (bucket_size stash_capacity cache_levels : Z) : outcome (list (SizeRow E)) :=
  flat_omap (fun pack => omap_m (size_row estimate sizes tables original bucket_size stash_capacity cache_levels pack) leaf_divisors) packs.

Section Commands.
Context {OS : Type}.
Local Abbreviation HM := (M (Host OS)).

Definition check_lists (packs leaf_divisors : list Z) : HM unit :=
  let* _ := guardm (negb (is_nil packs)) (InvalidInput "at least one --packs value is required") in
  guardm (negb (is_nil leaf_divisors)) (InvalidInput "at least one --leaf-divisors value is required").

(** [print_cuckoo_sizes]: the tables, their bytes and the rows of each directory *)
Definition print_cuckoo_sizes (db_dirs : list string) (packs leaf_divisors : list Z) (bucket_size stash_capacity cache_levels : Z) :
    HM (list (list CuckooTableInfo * Z * list (SizeRow CuckooOramEstimate))) :=
  let* _ := check_lists packs leaf_divisors in
  mapM (fun db_dir =>
    let* both := load_pair db_dir in
    let tables := [both.1; both.2] in
    let original_cuckoo_bytes := sum64 (ct_file_bytes <$> tables) in
    let* rows := lift (size_rows cuckoo_estimate ce_sizes tables original_cuckoo_bytes packs leaf_divisors bucket_size stash_capacity cache_levels) in
    ret (tables, original_cuckoo_bytes, rows)) db_dirs.

(** [print_direct_sizes] *)
Definition print_direct_sizes (index_file chunks_file : FilePath) (packs leaf_divisors : list Z) (bucket_size stash_capacity cache_levels : Z)
    (index_slots_per_bin index_hash_fns : Z) (index_load_factor : f64) (index_seed : Z) :
    HM (list DirectTableInfo * Z * list (SizeRow DirectOramEstimate)) :=
  let* _ := check_lists packs leaf_divisors in
  let* infos := direct_infos index_file chunks_file index_slots_per_bin index_hash_fns index_load_factor index_seed in
  let original_direct_bytes := sum64 (dti_file_bytes <$> infos) in
  let* rows := lift (size_rows direct_estimate de_sizes infos original_direct_bytes packs leaf_divisors bucket_size stash_capacity cache_levels) in
  ret (infos, original_direct_bytes, rows).

(** ** Simulations *)

Context {R : Type} `{Rng R}.

(** The body of the loops of [print_circuit_stress] *)
Definition stress_table (bucket_size stash_capacity ops warmup_ops : Z) (pattern : CircuitStressPattern) (drain_per_access burst_interval burst_budget : Z)
    (max_debt : option Z) (seed : bytes) (table : CuckooTableInfo) (pack leaf_divisor : Z) : outcome (CuckooOramEstimate * CircuitStressReport) :=
  let sizing := mkSizing pack leaf_divisor bucket_size stash_capacity 0 in
  let? estimate := cuckoo_estimate sizing table in
  let sizes := ce_sizes estimate in
  let? params := with_leaves (es_logical_blocks sizes) (es_block_payload_bytes sizes) (es_leaves sizes) in
  let? params := with_bucket_size params bucket_size in
  let? params := with_stash_capacity params stash_capacity in
  let? report := stress_circuit (R := R)
    (mkStressConfig params ops warmup_ops pattern seed drain_per_access burst_interval burst_budget max_debt) in
  Ok (estimate, report).

(** [print_circuit_stress] *)
Definition print_circuit_stress (db_dirs : list string) (packs leaf_divisors : list Z) (bucket_size stash_capacity ops warmup_ops : Z)
    (pattern : CircuitStressPattern) (drain_per_access burst_interval burst_budget : Z) (max_debt : option Z) (seed : bytes) :
    HM (list (CuckooOramEstimate * CircuitStressReport)) :=
  let* _ := check_lists packs leaf_divisors in
  flat_mapM (fun db_dir =>
    let* both := load_pair db_dir in
    lift (flat_omap (fun table =>
      flat_omap (fun pack =>
        omap_m (stress_table bucket_size stash_capacity ops warmup_ops pattern drain_per_access burst_interval burst_budget max_debt seed table pack)
          leaf_divisors) packs) [both.1; both.2])) db_dirs.

(** [ring_direct_params] *)
Definition ring_direct_params (info : DirectTableInfo) (pack leaf_divisor bucket_size stash_capacity : Z) : outcome OramParams :=
  let? _ := guardo (negb (pack =? 0)) (InvalidInput "--packs entries must be > 0") in
  let? _ := guardo (negb (leaf_divisor =? 0)) (InvalidInput "--leaf-divisors entries must be > 0") in
  let? _ := guardo (negb (bucket_size =? 0)) (InvalidInput "--bucket-sizes entries must be > 0") in
  let? _ := guardo (negb (stash_capacity =? 0)) (InvalidInput "--stash-capacities entries must be > 0") in
  let logical_blocks := div_ceil (dti_total_items info) pack in
  let target_leaves := Z.max (div_ceil logical_blocks leaf_divisor) 2 in
  let? leaves := checked_leaves target_leaves in
  let? block_payload_bytes := ok_or (checked_mul64 (dti_item_size info) pack) (InvalidParams "direct block payload size overflow") in
  let? params := with_leaves logical_blocks block_payload_bytes leaves in
  let? params := with_bucket_size params bucket_size in
  Ok (mkParams (Params.logical_blocks params) (block_size params) (Params.bucket_size params) (Params.leaves params) stash_capacity).

(** The run of one point of the sweep *)
Definition ring_point (dummy_slots : option Z) (ops warmup_ops : Z) (pattern : CircuitStressPattern) (auth_store : bool)
    (auth_trusted_levels auth_hash_page_size : Z) (seed : bytes) (info : DirectTableInfo)
    (pack leaf_divisor bucket_size eviction_period stash_capacity cache_levels : Z) : outcome RingStressReport :=
  let run_dummy_slots := default eviction_period dummy_slots in
  let? params := ring_direct_params info pack leaf_divisor bucket_size stash_capacity in
  stress_ring (R := R) (mkRingConfig params run_dummy_slots ops warmup_ops pattern (derive_direct_level_seed seed (dti_level info))
    eviction_period cache_levels auth_store auth_trusted_levels auth_hash_page_size).

(** [print_ring_direct_stress] *)
Definition print_ring_direct_stress (index_file chunks_file : FilePath)
    (packs leaf_divisors bucket_sizes eviction_periods stash_capacities cache_levels_values : list Z) (dummy_slots : option Z)
    (ops warmup_ops : Z) (pattern : CircuitStressPattern) (auth_store : bool) (auth_trusted_levels auth_hash_page_size : Z)
    (index_slots_per_bin index_hash_fns : Z) (index_load_factor : f64) (index_seed : Z) (seed : bytes) :
    HM (list DirectTableInfo * Z * list RingStressReport) :=
  let* _ := check_lists packs leaf_divisors in
  let* _ := guardm (negb (is_nil bucket_sizes)) (InvalidInput "at least one --bucket-sizes value is required") in
  let* _ := guardm (negb (is_nil eviction_periods)) (InvalidInput "at least one --eviction-periods value is required") in
  let* _ := guardm (negb (is_nil stash_capacities)) (InvalidInput "at least one --stash-capacities value is required") in
  let* _ := guardm (negb (is_nil cache_levels_values)) (InvalidInput "at least one --cache-levels value is required") in
  let* infos := direct_infos index_file chunks_file index_slots_per_bin index_hash_fns index_load_factor index_seed in
  let original_direct_bytes := sum64 (dti_file_bytes <$> infos) in
  let* reports := lift (
    flat_omap (fun info => flat_omap (fun pack => flat_omap (fun leaf_divisor => flat_omap (fun bucket_size =>
      flat_omap (fun eviction_period => flat_omap (fun stash_capacity =>
        omap_m (ring_point dummy_slots ops warmup_ops pattern auth_store auth_trusted_levels auth_hash_page_size seed info
                  pack leaf_divisor bucket_size eviction_period stash_capacity) cache_levels_values)
      stash_capacities) eviction_periods) bucket_sizes) leaf_divisors) packs) infos) in
  ret (infos, original_direct_bytes, reports).

End Commands.

(** ** The simulated tree is the image's *)

(** [stress-ring-direct] simulates the trees that [size-direct] describes and
    [build-direct] builds: for options that are not zero and a payload size that is a
    word, the parameters of an image are those of the simulation, checked once more for
    a stash that holds a path, and fail when and as these do. *)
Theorem ring_sweep_simulates_images (o : ImageOptions) (info : DirectTableInfo) :
  0 < opt_pack o -> 0 < opt_leaf_divisor o -> 0 < opt_bucket_size o -> 0 < opt_stash_capacity o ->
  0 <= dti_item_size info -> dti_item_size info * opt_pack o <= u64_max ->
  (let? estimate := direct_estimate (image_sizing o) info in image_params o (de_sizes estimate)) =
  (let? params := ring_direct_params info (opt_pack o) (opt_leaf_divisor o) (opt_bucket_size o) (opt_stash_capacity o) in
   with_stash_capacity params (opt_stash_capacity o)).
Proof.
  intros Hpk Hld Hbk Hst Hsz Hfit. unfold direct_estimate, ring_direct_params, oram_sizes.
  cbn [image_sizing sz_per_block sz_leaf_divisor sz_bucket_size sz_stash_capacity sz_cache_levels].
  rewrite !(proj2 (Z.eqb_neq _ 0)) by lia. cbn [negb guardo obind].
  destruct (checked_leaves _) as [lv|e| |] eqn:Elv; try done. cbn [obind].
  unfold checked_mul64. rewrite (proj2 (Z.leb_le _ _)), mul64_small by nia. cbn [ok_or obind].
  destruct (with_leaves _ _ lv) as [p|e| |] eqn:Ep; try done. cbn [obind].
  unfold with_bucket_size. rewrite !(proj2 (Z.eqb_neq (opt_bucket_size o) 0)) by lia. cbn [obind].
  set (q := mkParams (logical_blocks p) (block_size p) (opt_bucket_size o) (leaves p) (stash_capacity p)).
  match goal with |- _ = ?rhs => change rhs with (with_stash_capacity q (opt_stash_capacity o)) end.
  destruct (with_stash_capacity q (opt_stash_capacity o)) as [r|e| |] eqn:Er; try done. cbn [obind].
  unfold image_params. cbn [de_sizes es_logical_blocks es_block_payload_bytes es_leaves]. rewrite Ep. cbn [obind].
  unfold with_bucket_size. rewrite (proj2 (Z.eqb_neq (opt_bucket_size o) 0)) by lia. cbn [obind]. exact Er.
Qed.

Lemma ring_sweep_simulates_images_witness :
  let o := mkOptions 2 2 2 8 false None None 0 false LayoutSidecar 0 0 in
  let info := mkDirectInfo DirectChunk (mkPath "" "chunks" None) 200 5 1 0 f64_1 0 5 40 in
  (let? estimate := direct_estimate (image_sizing o) info in image_params o (de_sizes estimate)) =
    (let? params := ring_direct_params info 2 2 2 8 in with_stash_capacity params 8) /\
  (let? params := ring_direct_params info 2 2 2 8 in with_stash_capacity params 8) = Ok (mkParams 3 80 2 2 8).
Proof.
  cbv zeta. split; [|vm_compute; reflexivity].
  refine (ring_sweep_simulates_images (mkOptions 2 2 2 8 false None None 0 false LayoutSidecar 0 0)
    (mkDirectInfo DirectChunk (mkPath "" "chunks" None) 200 5 1 0 f64_1 0 5 40) _ _ _ _ _ _); vm_compute; (reflexivity || discriminate).
Defined.
