(* ===== verification/Commands.v ===== *)
(** * The command line ([src/src/bin/oramctl.rs], [main])

    The arguments of each command as [clap] parses them, with the values of the ones
    that are left out, and the dispatch: seeds and hashes are parsed before the command
    starts.  A command returns the numbers it prints.  The last parts run [build-direct]
    and then [bench-direct] on what it leaves, and likewise [build-circuit],
    [bench-circuit] and [verify-circuit-bins]. *)

From S2P Require Import PosMapScan BatchIo Sweeps.
From S2P Require Import Prelude Ct Params Store Writable Schedule Bucket Rng State Circuit Blocks Build Aead Hash TieredMerkle SealedState Fixint FileStore.
From S2P Require Import Evidence EvidenceSpec Float64 Direct IndexTable Packed Slots IndexProofs DirectSpec Cuckoo CuckooSpec Sizing Stress RingStress Disk ReopenStore ImageFiles ImageOpen ImageOps ImageRest.
From S2P Require Import OramReads DirectReader DirectLookup ImageSession ImageBuild ImageSpec Extract Bench BenchSpec BenchDirect BuildDirect BuildDirectSpec.

(** ** Arguments *)

(** The options of the INDEX table, which four commands share *)
Record IndexArgs : Type := mkIndexArgs { ia_slots_per_bin : Z; ia_hash_fns : Z; ia_load_factor : f64; ia_seed : Z }.
Definition default_index_args : IndexArgs :=
  mkIndexArgs DIRECT_INDEX_DEFAULT_SLOTS_PER_BIN DIRECT_INDEX_DEFAULT_HASH_FNS DIRECT_INDEX_DEFAULT_LOAD_FACTOR DIRECT_INDEX_DEFAULT_SEED.

(** The options of the commands that reopen images *)
Record OpenArgs : Type := mkOpenArgs {
  oa_encrypted : bool;
  oa_key_hex : option string;
  oa_state_key_hex : option string;
  oa_cache_levels : Z;
  oa_auth_store : bool;
  oa_query_seed_hex : option string;
  oa_no_save : bool
}.
Definition default_open_args : OpenArgs := mkOpenArgs false None None 0 false None false.

Record SizeCuckooArgs : Type := mkSizeCuckoo {
  zc_db_dirs : list string;
  zc_packs : list Z;
  zc_leaf_divisors : list Z;
  zc_bucket_size : Z;
  zc_stash_capacity : Z;
  zc_cache_levels : Z
}.
Definition size_cuckoo_defaults (db_dirs : list string) : SizeCuckooArgs := mkSizeCuckoo db_dirs [8] [1; 2; 4; 8] 4 512 5.

Record SizeDirectArgs : Type := mkSizeDirect {
  zd_index_file : FilePath;
  zd_chunks_file : FilePath;
  zd_packs : list Z;
  zd_leaf_divisors : list Z;
  zd_bucket_size : Z;
  zd_stash_capacity : Z;
  zd_cache_levels : Z;
  zd_index : IndexArgs
}.
Definition size_direct_defaults (index_file chunks_file : FilePath) : SizeDirectArgs :=
  mkSizeDirect index_file chunks_file [16] [1; 2; 4; 8] 2 4096 5 default_index_args.

Record BuildCircuitArgs : Type := mkBuildCircuit {
  bc_db_dir : string;
  bc_out_dir : string;
  bc_level : LevelArg;
  bc_options : ImageOptions;
  bc_seed_hex : option string
}.
Definition build_circuit_defaults (db_dir out_dir : string) : BuildCircuitArgs :=
  mkBuildCircuit db_dir out_dir LevelAll (mkOptions 16 4 2 4096 false None None 0 false LayoutSidecar 1 4096) None.

Record BuildDirectArgs : Type := mkBuildDirect {
  bd_index_file : FilePath;
  bd_chunks_file : FilePath;
  bd_out_dir : string;
  bd_level : DirectLevelArg;
  bd_options : ImageOptions;
  bd_index : IndexArgs;
  bd_seed_hex : option string;
  bd_db_build_evidence : option FilePath;
  bd_root_bundle_payload : option FilePath;
  bd_expected_muhash : option string;
  bd_expected_from_muhash : option string;
  bd_expected_index_sha256 : option string;
  bd_expected_chunks_sha256 : option string;
  bd_strict_source_binding : bool
}.
Definition build_direct_defaults (index_file chunks_file : FilePath) (out_dir : string) : BuildDirectArgs :=
  mkBuildDirect index_file chunks_file out_dir DirectLevelAll (mkOptions 16 2 2 4096 false None None 0 false LayoutSidecar 1 4096)
    default_index_args None None None None None None None false.

Record BenchDirectArgs : Type := mkBenchDirect {
  nd_oram_dir : string;
  nd_index_file : FilePath;
  nd_chunks_file : FilePath;
  nd_level : DirectLevelArg;
  nd_ops : Z;
  nd_batch_size : Z;
  nd_drain_per_access : Z;
  nd_open : OpenArgs
}.
Definition bench_direct_defaults (oram_dir : string) (index_file chunks_file : FilePath) : BenchDirectArgs :=
  mkBenchDirect oram_dir index_file chunks_file DirectLevelAll 1000 16 2 default_open_args.

Record BenchCircuitArgs : Type := mkBenchCircuit {
  nc_oram_dir : string;
  nc_db_dir : option string;
  nc_level : LevelArg;
  nc_pack : Z;
  nc_ops : Z;
  nc_batch_size : Z;
  nc_drain_per_access : Z;
  nc_open : OpenArgs
}.
Definition bench_circuit_defaults (oram_dir : string) : BenchCircuitArgs := mkBenchCircuit oram_dir None LevelAll 16 1000 1 2 default_open_args.

Record VerifyCircuitBinsArgs : Type := mkVerifyBins {
  vc_oram_dir : string;
  vc_db_dir : string;
  vc_level : LevelArg;
  vc_pack : Z;
  vc_bins : Z;
  vc_drain_per_access : Z;
  vc_open : OpenArgs
}.
Definition verify_circuit_bins_defaults (oram_dir db_dir : string) : VerifyCircuitBinsArgs :=
  mkVerifyBins oram_dir db_dir LevelAll 16 1000 2 default_open_args.

Inductive StressPatternArg : Type := PatternRandom | PatternRoundRobin.
(** [From<StressPatternArg> for CircuitStressPattern] *)
Definition stress_pattern (p : StressPatternArg) : CircuitStressPattern := match p with PatternRandom => Random | PatternRoundRobin => RoundRobin end.

Record StressCircuitArgs : Type := mkStressCircuit {
  tc_db_dirs : list string;
  tc_packs : list Z;
  tc_leaf_divisors : list Z;
  tc_bucket_size : Z;
  tc_stash_capacity : Z;
  tc_ops : Z;
  tc_warmup_ops : Z;
  tc_pattern : StressPatternArg;
  tc_drain_per_access : Z;
  tc_burst_interval : Z;
  tc_burst_budget : Z;
  tc_max_debt : option Z;
  tc_seed_hex : option string
}.
Definition stress_circuit_defaults (db_dirs : list string) : StressCircuitArgs :=
  mkStressCircuit db_dirs [16] [4] 2 512 100000 10000 PatternRandom 2 0 0 None None.

Record StressRingDirectArgs : Type := mkStressRing {
  tr_index_file : FilePath;
  tr_chunks_file : FilePath;
  tr_case_label : string;
  tr_packs : list Z;
  tr_leaf_divisors : list Z;
  tr_bucket_sizes : list Z;
  tr_eviction_periods : list Z;
  tr_stash_capacities : list Z;
  tr_cache_levels : list Z;
  tr_dummy_slots : option Z;
  tr_ops : Z;
  tr_warmup_ops : Z;
  tr_pattern : StressPatternArg;
  tr_auth_store : bool;
  tr_auth_trusted_levels : Z;
  tr_auth_hash_page_size : Z;
  tr_index : IndexArgs;
  tr_seed_hex : option string
}.
Definition stress_ring_direct_defaults (index_file chunks_file : FilePath) : StressRingDirectArgs :=
  mkStressRing index_file chunks_file "direct" [16] [2] [4; 8; 16; 32] [4; 8; 16; 32; 48] [128; 256; 512] [0; 2; 3; 4] None 100000 10000
    PatternRandom false 1 4096 default_index_args None.

Record PlanDirectBatchIoArgs : Type := mkPlanDirect {
  pd_index_file : FilePath;
  pd_chunks_file : FilePath;
  pd_case_label : string;
  pd_level : DirectLevelArg;
  pd_options : BatchIoOptions;
  pd_index : IndexArgs;
  pd_query_seed_hex : option string
}.
Definition plan_direct_batch_io_defaults (index_file chunks_file : FilePath) : PlanDirectBatchIoArgs :=
  mkPlanDirect index_file chunks_file "direct" DirectLevelAll (mkBatchOptions 16 2 2 0 50 2 false LayoutSidecar 1 4096 false) default_index_args None.

Record BenchPosMapArgs : Type := mkBenchPosMap {
  np_sizes : list Z;
  np_ops : Z;
  np_warmup_ops : Z;
  np_batch_sizes : list Z;
  np_query_seed_hex : option string
}.
Definition bench_pos_map_defaults : BenchPosMapArgs := mkBenchPosMap [249760; 561660; 2660429; 5334640] 100 10 [50; 100] None.

(** Mirror of [enum Command]. *)
Inductive Command : Type :=
| SizeCuckoo (a : SizeCuckooArgs)
| SizeDirect (a : SizeDirectArgs)
| ExtractDirectChunks (chunk_cuckoo_file out_file : FilePath)
| BuildCircuit (a : BuildCircuitArgs)
| BuildDirect (a : BuildDirectArgs)
| BenchDirect (a : BenchDirectArgs)
| BenchCircuit (a : BenchCircuitArgs)
| VerifyCircuitBins (a : VerifyCircuitBinsArgs)
| StressCircuit (a : StressCircuitArgs)
| StressRingDirect (a : StressRingDirectArgs)
| PlanDirectBatchIo (a : PlanDirectBatchIoArgs)
| BenchPosMap (a : BenchPosMapArgs).

(** What a command prints *)
Inductive Printed : Type :=
| PrintedCuckooSizes (dbs : list (list CuckooTableInfo * Z * list (SizeRow CuckooOramEstimate)))
| PrintedDirectSizes (sizes : list DirectTableInfo * Z * list (SizeRow DirectOramEstimate))
| PrintedExtract (report : ExtractReport)
| PrintedBuild
| PrintedBench (reports : list BenchReport)
| PrintedStress (reports : list (CuckooOramEstimate * CircuitStressReport))
| PrintedRing (reports : list DirectTableInfo * Z * list RingStressReport)
| PrintedPlan (reports : list BatchIoReport)
| PrintedPosMap (reports : list PosMapReport).

(** ** The dispatch *)

Section Main.
Context {C OS R : Type} `{Cipher C} `{OsRandom OS} `{HostIo OS} `{Hex} `{Hash} `{Subtle} `{Rng R}.
Context `{Bincode (CircuitOramState R)} `{Bincode (LegacyCircuitOramState R)}.
Context `{Bincode CircuitStoreAuthState} `{Bincode LegacyCircuitStoreAuthState} `{Bincode DirectTableMetadata} `{Mmap}.
Context `{Json OramBuildEvidence} `{Bincode OramBuildEvidence}.
Local Abbreviation HM := (M (Host OS)).

(** The image options of a command that reopens images: the ones that only a build
    reads are not given. *)
Definition reopen_options (pack : Z) (a : OpenArgs) : ImageOptions :=
  mkOptions pack 0 0 0 (oa_encrypted a) (oa_key_hex a) (oa_state_key_hex a) (oa_cache_levels a) (oa_auth_store a) LayoutSidecar 0 0.

(** The arms of [main]; those without a seed call the command directly. *)
Definition main_build_circuit (a : BuildCircuitArgs) : HM unit :=
  let* seed := lift (parse_seed (bc_seed_hex a) 0x06) in
  build_circuit_images (C := C) (R := R) (bc_db_dir a) (bc_out_dir a) (bc_level a) (bc_options a) seed.
Definition main_build_direct (a : BuildDirectArgs) : HM unit :=
  let* seed := lift (parse_seed (bd_seed_hex a) 0x0a) in
  let* evidence_inputs := lift (inputs_parse (bd_db_build_evidence a) (bd_root_bundle_payload a) (bd_expected_muhash a)
    (bd_expected_from_muhash a) (bd_expected_index_sha256 a) (bd_expected_chunks_sha256 a) (bd_strict_source_binding a)) in
  build_direct_images (C := C) (R := R) (bd_index_file a) (bd_chunks_file a) (bd_out_dir a) (bd_level a) (bd_options a)
    (ia_slots_per_bin (bd_index a)) (ia_hash_fns (bd_index a)) (ia_load_factor (bd_index a)) (ia_seed (bd_index a)) seed evidence_inputs.
Definition main_bench_direct (a : BenchDirectArgs) : HM (list BenchReport) :=
  let* query_seed := lift (parse_seed (oa_query_seed_hex (nd_open a)) 0x0d) in
  bench_direct_images (C := C) (R := R) (nd_oram_dir a) (nd_index_file a) (nd_chunks_file a) (nd_level a) (reopen_options 0 (nd_open a))
    (nd_ops a) (nd_batch_size a) (nd_drain_per_access a) query_seed (oa_no_save (nd_open a)).
Definition main_bench_circuit (a : BenchCircuitArgs) : HM (list BenchReport) :=
  let* query_seed := lift (parse_seed (oa_query_seed_hex (nc_open a)) 0x04) in
  bench_circuit_images (C := C) (R := R) (nc_oram_dir a) (nc_db_dir a) (nc_level a) (reopen_options (nc_pack a) (nc_open a))
    (nc_ops a) (nc_batch_size a) (nc_drain_per_access a) query_seed (oa_no_save (nc_open a)).
Definition main_verify_circuit_bins (a : VerifyCircuitBinsArgs) : HM (list BenchReport) :=
  let* query_seed := lift (parse_seed (oa_query_seed_hex (vc_open a)) 0x08) in
  verify_circuit_bins (C := C) (R := R) (vc_oram_dir a) (vc_db_dir a) (vc_level a) (reopen_options (vc_pack a) (vc_open a))
    (vc_bins a) (vc_drain_per_access a) query_seed (oa_no_save (vc_open a)).
Definition main_stress_circuit (a : StressCircuitArgs) : HM (list (CuckooOramEstimate * CircuitStressReport)) :=
  let* seed := lift (parse_seed (tc_seed_hex a) 0x05) in
  print_circuit_stress (R := R) (tc_db_dirs a) (tc_packs a) (tc_leaf_divisors a) (tc_bucket_size a) (tc_stash_capacity a) (tc_ops a)
    (tc_warmup_ops a) (stress_pattern (tc_pattern a)) (tc_drain_per_access a) (tc_burst_interval a) (tc_burst_budget a) (tc_max_debt a) seed.
Definition main_stress_ring_direct (a : StressRingDirectArgs) : HM (list DirectTableInfo * Z * list RingStressReport) :=
  let* seed := lift (parse_seed (tr_seed_hex a) 0x0b) in
  print_ring_direct_stress (R := R) (tr_index_file a) (tr_chunks_file a) (tr_packs a) (tr_leaf_divisors a) (tr_bucket_sizes a)
    (tr_eviction_periods a) (tr_stash_capacities a) (tr_cache_levels a) (tr_dummy_slots a) (tr_ops a) (tr_warmup_ops a) (stress_pattern (tr_pattern a))
    (tr_auth_store a) (tr_auth_trusted_levels a) (tr_auth_hash_page_size a) (ia_slots_per_bin (tr_index a)) (ia_hash_fns (tr_index a))
    (ia_load_factor (tr_index a)) (ia_seed (tr_index a)) seed.
Definition main_plan_direct_batch_io (a : PlanDirectBatchIoArgs) : HM (list BatchIoReport) :=
  let* query_seed := lift (parse_seed (pd_query_seed_hex a) 0x0c) in
  plan_direct_batch_io (R := R) (pd_index_file a) (pd_chunks_file a) (pd_level a) (pd_options a) (ia_slots_per_bin (pd_index a))
    (ia_hash_fns (pd_index a)) (ia_load_factor (pd_index a)) (ia_seed (pd_index a)) query_seed.
Definition main_bench_pos_map (a : BenchPosMapArgs) : HM (list PosMapReport) :=
  let* query_seed := lift (parse_seed (np_query_seed_hex a) 0x09) in
  lift (bench_pos_maps (R := R) (np_sizes a) (np_ops a) (np_warmup_ops a) (np_batch_sizes a) query_seed).

(** [main] *)
Definition main (command : Command) : HM Printed :=
  match command with
  | SizeCuckoo a =>
      let* sizes := print_cuckoo_sizes (zc_db_dirs a) (zc_packs a) (zc_leaf_divisors a) (zc_bucket_size a) (zc_stash_capacity a) (zc_cache_levels a) in
      ret (PrintedCuckooSizes sizes)
  | SizeDirect a =>
      let* sizes := print_direct_sizes (zd_index_file a) (zd_chunks_file a) (zd_packs a) (zd_leaf_divisors a) (zd_bucket_size a) (zd_stash_capacity a)
        (zd_cache_levels a) (ia_slots_per_bin (zd_index a)) (ia_hash_fns (zd_index a)) (ia_load_factor (zd_index a)) (ia_seed (zd_index a)) in
      ret (PrintedDirectSizes sizes)
  | ExtractDirectChunks chunk_cuckoo_file out_file =>
      let* report := extract_direct_chunks chunk_cuckoo_file out_file in
      ret (PrintedExtract report)
  | BuildCircuit a => let* _ := main_build_circuit a in ret PrintedBuild
  | BuildDirect a => let* _ := main_build_direct a in ret PrintedBuild
  | BenchDirect a => let* reports := main_bench_direct a in ret (PrintedBench reports)
  | BenchCircuit a => let* reports := main_bench_circuit a in ret (PrintedBench reports)
  | VerifyCircuitBins a => let* reports := main_verify_circuit_bins a in ret (PrintedBench reports)
  | StressCircuit a => let* reports := main_stress_circuit a in ret (PrintedStress reports)
  | StressRingDirect a => let* reports := main_stress_ring_direct a in ret (PrintedRing reports)
  | PlanDirectBatchIo a => let* reports := main_plan_direct_batch_io a in ret (PrintedPlan reports)
  | BenchPosMap a => let* reports := main_bench_pos_map a in ret (PrintedPosMap reports)
  end.

End Main.

(** ** Building, then reading back *)

Section Confirm.
Context {C OS R : Type} `{CipherLaws C} `{OsRandom OS} `{HostIo OS} `{Hex} `{HashLaws} `{SL : SubtleLaws} `{Rng R}.
Context `{BincodeLaws (CircuitOramState R)} `{BincodeLaws (LegacyCircuitOramState R)}.
Context `{BincodeLaws CircuitStoreAuthState} `{BincodeLaws LegacyCircuitStoreAuthState} `{BincodeLaws DirectTableMetadata} `{MmapLaws}.
Context `{JsonLaws OramBuildEvidence} `{BincodeLaws OramBuildEvidence}.
Context (Hio : forall path, Forall (fun t => t <> TransferError) (io_script (OS := OS) path)).
Local Abbreviation HS := (Host OS).

(** The arguments that reopen what a build with given options made *)
Definition open_args_of (o : ImageOptions) (query_seed_hex : option string) : OpenArgs :=
  mkOpenArgs (opt_encrypted o) (opt_key_hex o) (opt_state_key_hex o) (opt_cache_levels o) (opt_auth_store o) query_seed_hex false.

Context (i : BuildInputs) (s : BuildSources) (c : option C) (params_of : DirectLevel -> OramParams) (h0 : HS) (Hbound : sources_bound i s h0).
Context (ops batch_size drain m : Z) (Hops : 0 <= ops <= u64_max) (Hbs : 0 < batch_size) (Hd : 0 <= drain) (Hm : 0 <= m).
Local Abbreviation dir := (bi_dir i).
Local Abbreviation o := (bi_options i).

(** A lookup accesses every candidate bin of a script hash; a read accesses one block. *)
Definition accesses (level : DirectLevel) : Z := match level with DirectIndex => bi_fns i * ops + m | DirectChunk => ops + m end.
Local Abbreviation fits := (level_fits i s c accesses params_of).
Local Abbreviation closed_for := (level_closed (R := R) i s c params_of).

Lemma session_names_in ps q : q ∈ session_names ps -> q ∈ path_names ps.
Proof.
  unfold session_names, path_names. cbn [fmap list_fmap app]. intros Hq.
  repeat (apply elem_of_cons in Hq as [->|Hq]; [repeat first [apply list_elem_of_here | apply list_elem_of_further]|]). by apply not_elem_of_nil in Hq.
Qed.

Lemma ready_beside level md (h : HS) : fits level -> ready i s params_of level md h ->
  files h !! render (source_path i level) = Some (source_bytes s level) ->
  source_beside dir level (source_path i level) md (params_of level) (source_bytes s level) h.
Proof.
  intros Hf [Hi _ Hv Hl Hb Hs] Hfile. destruct (from_info_fields _ _ _ Hi) as (Hlev & Hbytes & _).
  destruct (info_levels i s h0 Hbound) as (E1 & _ & E3 & E4 & _ & E6).
  split; try done; [|rewrite Hbytes; by destruct level|rewrite Hlev; by destruct level].
  apply (lf_apart _ _ _ _ _ _ Hf). destruct level; [left|right; left].
Qed.

Lemma bench_level_yields qseed level (h : HS) : fits level -> closed_for (accesses level) level h ->
  files h !! render (source_path i level) = Some (source_bytes s level) ->
  yields (direct_build_error i params_of)
    (bench_direct_table (C := C) (R := R) dir level (source_path i level) (reopen_options 0 (open_args_of o None)) ops batch_size drain qseed false) h
    (fun report h' => rp_verified report = ops /\ touches (path_names (direct_output_paths dir level)) h h' /\ closed_for m level h').
Proof.
  intros Hf Hcl Hfile. pose proof (lf_image _ _ _ _ _ _ Hf) as Him. pose proof Hbound as [[Hf0 _] Hib Hcb Hii Hci _ _].
  destruct (from_index_file_ok _ _ _ _ _ h0 _ h0 _ Hf0 Hib Hii) as (_ & _ & Hrb & _ & Hfns & _).
  destruct (from_chunks_file_ok _ h0 h0 _ _ Hf0 Hcb Hci) as (_ & _ & Hcl0 & Hcr & _).
  change (yields (direct_build_error i params_of) (bench_direct_table (C := C) (R := R) dir level (source_path i level) o ops batch_size drain qseed false) h
    (fun report h' => rp_verified report = ops /\ touches (path_names (direct_output_paths dir level)) h h' /\ closed_for m level h')).
  assert (forall q, q ∈ session_names (direct_output_paths dir level) -> q ∈ path_names (direct_output_paths dir level)) as Hn by apply session_names_in.
  eapply yields_error; [|intros e He; left; by exists level].
  destruct level; [destruct Hcl as (t & Ht & Hti & Htm & Hr & Hc%(closed_serves _ _ Hio Him))|destruct Hcl as (t & Ht & Htm & Hr & Hc%(closed_serves _ _ Hio Him))];
    pose proof (ready_beside _ _ h Hf Hr Hfile) as Hb; cbn [source_bytes] in Hb; rewrite <-Htm in Hb; pose proof (rd_info _ _ _ _ _ _ Hr) as Hi;
    pose proof (rd_pack _ _ _ _ _ _ Hr) as Hp; pose proof (proj1 (lf_table _ _ _ _ _ _ Hf)) as Hl; eapply yields_mono.
  - apply (bench_index_yields dir _ o _ c t ops batch_size drain qseed m h Him Ht); rewrite ?Hti, ?Hp, ?Hfns; try done.
    change DIRECT_INDEX_INPUT_RECORD_SIZE with 25 in Hrb. lia.
  - cbn beta. intros report h' (Hv & Htch & Hc'). split; [done|]. split; [by eapply touches_weaken|]. exists t. do 3 (split; [done|]). split; [|done].
    destruct Hr. split; try done. by eapply metadata_kept; [apply output_paths_apart|exact Htch|].
  - apply (bench_chunk_yields dir _ o _ c t ops batch_size drain qseed m h Him Ht); try done.
    destruct (from_info_fields _ _ _ Hi) as (_ & _ & _ & _ & ->). change DIRECT_CHUNK_RECORD_SIZE with 40 in Hcr. cbn [info_of]. lia.
  - cbn beta. intros report h' (Hv & Htch & Hc'). split; [done|]. split; [by eapply touches_weaken|]. exists t. do 2 (split; [done|]). split; [|done].
    destruct Hr. split; try done. by eapply metadata_kept; [apply output_paths_apart|exact Htch|].
Qed.

(** The benchmark of each level leaves the images of the others. *)
Lemma bench_levels_yields query_seed levels (h : HS) : NoDup levels -> clear h -> (forall level, level ∈ levels -> fits level) ->
  (forall level, files h !! render (source_path i level) = Some (source_bytes s level)) -> (forall level, level ∈ levels -> closed_for (accesses level) level h) ->
  yields (direct_build_error i params_of)
    (mapM (fun level => bench_direct_table (C := C) (R := R) dir level (source_path i level) (reopen_options 0 (open_args_of o None)) ops batch_size drain
       (derive_direct_level_seed query_seed level) false) levels) h
    (fun reports h' => touches (level_names i levels) h h' /\ Forall2 (fun level report => fits level /\ rp_verified report = ops /\ closed_for m level h') levels reports).
Proof.
  intros Hnd Hc Hfits Hfiles Hcl.
  apply (levels_yield _ _ (fun level => path_names (direct_output_paths dir level)) (render <$> [bi_index_file i; bi_chunks_file i])
    (fun h => forall level, files h !! render (source_path i level) = Some (source_bytes s level)) (fun level h => closed_for (accesses level) level h)
    (fun level report h => fits level /\ rp_verified report = ops /\ closed_for m level h)); try done.
  - intros l l' q. apply levels_apart.
  - intros ks h1 h2 Ht Hk Hi level. rewrite (touches_lookup _ _ _ _ Ht); [done|]. apply Hk. destruct level; [left|right; left].
  - intros l q Hl (path & -> & Hp)%list_elem_of_fmap. apply (lf_apart _ _ _ _ _ _ (Hfits l Hl)). unfold input_paths. set_solver.
  - intros l ks h1 h2. apply level_closed_frame.
  - intros l report ks h1 h2 Ht Hk (Hf & Hv & Hc'). split; [done|]. split; [done|]. by eapply level_closed_frame.
  - intros l h1 Hl _ Hf Hpre. eapply yields_mono; [by apply bench_level_yields; [apply Hfits|..]|].
    cbn beta. intros report h2 (Hv & Ht & Hc'). split; [done|]. split; [by apply Hfits|done].
Qed.
End Confirm.

Section Together.
Context {C OS R : Type} `{CipherLaws C} `{OsRandom OS} `{HostIo OS} `{Hex} `{HashLaws} `{SL : SubtleLaws} `{Rng R}.
Context `{BincodeLaws (CircuitOramState R)} `{BincodeLaws (LegacyCircuitOramState R)}.
Context `{BincodeLaws CircuitStoreAuthState} `{BincodeLaws LegacyCircuitStoreAuthState} `{BincodeLaws DirectTableMetadata} `{MmapLaws}.
Context `{JsonLaws OramBuildEvidence} `{BincodeLaws OramBuildEvidence}.
Context (Hio : forall path, Forall (fun t => t <> TransferError) (io_script (OS := OS) path)).

(** The inputs that the arguments of [build-direct] name *)
Definition build_inputs_of (a : BuildDirectArgs) (evidence : DirectBuildEvidenceInputs) : BuildInputs :=
  mkBuildInputs (bd_out_dir a) (bd_index_file a) (bd_chunks_file a) (bd_options a) (ia_slots_per_bin (bd_index a)) (ia_hash_fns (bd_index a))
    (ia_load_factor (bd_index a)) (ia_seed (bd_index a)) evidence.
(** The arguments of a [bench-direct] of what it built *)
Definition bench_args_of (a : BuildDirectArgs) (ops batch_size drain : Z) (query_seed_hex : option string) : BenchDirectArgs :=
  mkBenchDirect (bd_out_dir a) (bd_index_file a) (bd_chunks_file a) (bd_level a) ops batch_size drain (open_args_of (bd_options a) query_seed_hex).

(** C4: the tool's [build-direct] and then its [bench-direct] with the same files,
    levels and keys, on a host whose file operations succeed: of every level, each
    script hash and each chunk the benchmark draws is confirmed against the source
    file, [ops] of them, although INDEX and CHUNK images share the directory, and both
    images still open as the blocks of their tables afterwards.  The only errors are
    those of the build and a full stash or a state that cannot be sealed. *)
Theorem direct_commands_confirm (a : BuildDirectArgs) evidence seed query_seed_hex query_seed s (c : option C) params_of
    ops batch_size drain m (h0 : Host OS) :
  let i := build_inputs_of a evidence in let levels := direct_level_levels (bd_level a) in
  parse_seed (bd_seed_hex a) 0x0a = Ok seed -> parse_seed query_seed_hex 0x0d = Ok query_seed ->
  inputs_parse (bd_db_build_evidence a) (bd_root_bundle_payload a) (bd_expected_muhash a) (bd_expected_from_muhash a) (bd_expected_index_sha256 a)
    (bd_expected_chunks_sha256 a) (bd_strict_source_binding a) = Ok evidence ->
  sources_bound i s h0 -> (forall level, level ∈ levels -> level_fits i s c (accesses i ops m) params_of level) ->
  (forall level, render (source_path i level) ∉ render <$> [ORAM_BUILD_EVIDENCE_JSON_FILE (bd_out_dir a); ORAM_BUILD_EVIDENCE_BIN_FILE (bd_out_dir a)]) ->
  0 <= ops <= u64_max -> 0 < batch_size -> 0 <= drain -> 0 <= m ->
  yields (direct_build_error i params_of)
    (let* _ := main (C := C) (R := R) (BuildDirect a) in main (C := C) (R := R) (BenchDirect (bench_args_of a ops batch_size drain query_seed_hex))) h0
    (fun printed h' => exists reports, printed = PrintedBench reports /\
       Forall2 (fun level report => rp_verified report = ops /\ level_serves (R := R) i s c params_of m level h') levels reports).
Proof.
  intros i levels Hseed Hqseed Hin Hbound Hfits Hapart Hops Hbs Hd Hm. destruct (direct_levels (bd_level a)) as [Hnd [l0 Hl0]].
  assert (yields (direct_build_error i params_of) (main (C := C) (R := R) (BuildDirect a)) h0 (fun _ h1 => touches (written_names i (bd_level a)) h0 h1 /\
    forall level, level ∈ levels -> level_closed (R := R) i s c params_of (accesses i ops m level) level h1)) as Hbuild.
  { cbn [main]. eapply yields_step.
    - unfold main_build_direct. apply yields_bind. eapply yields_lift; [exact Hseed|]. apply yields_bind. eapply yields_lift; [exact Hin|].
      exact (build_command_yields Hio i s c (accesses i ops m) params_of h0 Hbound (bd_level a) seed Hfits).
    - cbn beta. intros _ h1 (Ht1 & Hcl & _). by apply (yields_ret (direct_build_error i params_of)). }
  eapply yields_step; [exact Hbuild|].
  cbn beta. intros _ h1 [Ht1 Hcl]. cbn [main]. pose proof (touches_clear _ _ _ Ht1) as Hc1.
  unfold main_bench_direct, bench_direct_images. cbn [bench_args_of nd_open nd_oram_dir nd_index_file nd_chunks_file nd_level nd_ops nd_batch_size nd_drain_per_access
    open_args_of oa_query_seed_hex oa_no_save].
  apply yields_bind, yields_bind. eapply yields_lift; [exact Hqseed|]. apply yields_bind, guard_yields; [by rewrite (proj2 (Z.eqb_neq _ 0)) by lia|].
  apply yields_bind. eapply yields_eq; [exact (key_given i s c _ params_of l0 h1 (Hfits l0 Hl0))|].
  assert (forall level, files h1 !! render (source_path i level) = Some (source_bytes s level)) as Hfiles.
  { intros level. rewrite (touches_lookup _ _ _ _ Ht1); [by destruct level; apply Hbound|].
    unfold written_names. rewrite elem_of_app. intros [(l & Hq & Hl')%list_elem_of_bind|Hq]; [|by eapply Hapart].
    apply (lf_apart _ _ _ _ _ _ (Hfits l Hl')) in Hq; [done|]. destruct level; [left|right; left]. }
  eapply yields_mono; [exact (bench_levels_yields Hio i s c params_of h0 Hbound ops batch_size drain m Hops Hbs Hd Hm query_seed levels h1 Hnd Hc1 Hfits Hfiles Hcl)|].
  cbn beta. intros reports h2 [_ Hr]. apply (yields_ret (direct_build_error i params_of)). exists reports. split; [done|].
  eapply Forall2_impl; [exact Hr|]. intros level report (Hf & Hv & Hlc). split; [done|]. by eapply closed_level_serves.
Qed.
End Together.

(** ** The commands of cuckoo tables *)

Section Circuit.
Context {C OS R : Type} `{CipherLaws C} `{OsRandom OS} `{HostIo OS} `{Hex} `{HashLaws} `{SL : SubtleLaws} `{Rng R}.
Context `{BincodeLaws (CircuitOramState R)} `{BincodeLaws (LegacyCircuitOramState R)}.
Context `{BincodeLaws CircuitStoreAuthState} `{BincodeLaws LegacyCircuitStoreAuthState} `{BincodeLaws DirectTableMetadata} `{MmapLaws}.
Context `{JsonLaws OramBuildEvidence} `{BincodeLaws OramBuildEvidence}.
Context (Hio : forall path, Forall (fun t => t <> TransferError) (io_script (OS := OS) path)).
Local Abbreviation HS := (Host OS).

Context (a : BuildCircuitArgs) (c : option C).
Local Abbreviation dir := (bc_out_dir a).
Local Abbreviation db := (bc_db_dir a).
Local Abbreviation o := (bc_options a).

(** The two table files of a database *)
Record CuckooPair : Type := mkPair { cp_bytes : CuckooLevel -> bytes; cp_table : CuckooLevel -> CuckooTableInfo; cp_params : CuckooLevel -> OramParams }.
Context (t : CuckooPair).
Record pair_loaded (h : HS) : Prop := {
  pl_clear : clear h;
  pl_file : forall level, files h !! render (filename db level) = Some (cp_bytes t level);
  pl_table : forall level, from_file level (filename db level) h = (Ok (cp_table t level), h)
}.

(** A table whose image can be built and accessed [n] times *)
Local Abbreviation image := (fun level => circuit_image dir level o (cp_params t level)).
Local Abbreviation names := (fun level => path_names (circuit_output_paths dir level)).
Record table_fits (n : Z) (level : CuckooLevel) : Prop := {
  tf_estimate : exists est, cuckoo_estimate (image_sizing o) (cp_table t level) = Ok est /\ image_params o (ce_sizes est) = Ok (cp_params t level);
  tf_image : image_fits (image level) c;
  tf_build : build_fits (image level);
  tf_record : can_record n (schedule_new (cp_params t level));
  tf_apart : forall l, render (filename db l) ∉ names level;
  tf_described : described_bytes (cp_table t level) <= u64_max;
  tf_pack : 0 < opt_pack o;
  tf_bin : bin_size (cp_table t level) * opt_pack o <= u64_max
}.
Definition table_closed (k : Z) (level : CuckooLevel) (h : HS) : Prop :=
  closed (R := R) (image level) c k h (table_array (cp_table t level) o (cp_params t level) (cp_bytes t level)).
Definition circuit_error (e : Error) : Prop := exists level, build_error (image level) e.
Definition circuit_names (levels : list CuckooLevel) : list string := levels ≫= names.

(** *** Facts of one level *)

Lemma pair_levels (h : HS) level : pair_loaded h -> ct_level (cp_table t level) = level /\ ct_path (cp_table t level) = filename db level /\
  header_ok level (lenZ (cp_bytes t level)) (cp_table t level).
Proof.
  intros [[Hf Hb] Hfile Htab]. destruct (from_file_inv level _ h h _ _ (Hfile level) (Hb _ _ (Hfile level)) (Htab level)) as (Hh & Hp & _).
  split; [exact (hd_level _ _ _ Hh)|done].
Qed.
Lemma pair_elsewhere (h h' : HS) ks : pair_loaded h -> touches ks h h' -> (forall l, render (filename db l) ∉ ks) -> pair_loaded h'.
Proof.
  intros [Hc Hfile Htab] Ht Hk. pose proof (touches_clear _ _ _ Ht) as Hc'.
  assert (forall l, files h' !! render (filename db l) = files h !! render (filename db l)) as E by (intros l; by apply (touches_lookup _ _ _ _ Ht)).
  split; [done|intros l; by rewrite E|]. intros l. eapply from_file_elsewhere; [apply Hc|apply Hc'|apply E|apply Htab].
Qed.
Lemma load_pair_loaded (h : HS) : pair_loaded h -> load_pair db h = (Ok (cp_table t Index, cp_table t Chunk), h).
Proof. intros Hp. unfold load_pair. by rewrite (bind_eq _ _ _ _ _ (pl_table h Hp Index)), (bind_eq _ _ _ _ _ (pl_table h Hp Chunk)). Qed.
Lemma find_level_table (h : HS) level : pair_loaded h ->
  List.find (fun x => bool_decide (ct_level x = level)) [cp_table t Index; cp_table t Chunk] = Some (cp_table t level).
Proof.
  intros Hp. destruct (pair_levels h Index Hp) as [Ei _], (pair_levels h Chunk Hp) as [Ec _]. cbn [List.find]. rewrite Ei, Ec.
  destruct level; [by rewrite bool_decide_eq_true_2|]. by rewrite bool_decide_eq_false_2, bool_decide_eq_true_2.
Qed.
Lemma fits_beside n (h : HS) level : pair_loaded h -> table_fits n level ->
  table_beside dir (cp_table t level) o (cp_params t level) (cp_bytes t level) h.
Proof.
  intros Hp [(est & Hest & Hpar) _ _ _ Hap Hd Hpk Hbin]. destruct (pair_levels h level Hp) as (El & Epath & Hh).
  destruct (image_params_sizes o _ est _ Hest Hpar) as [Hlb Hsz]. split; try done; rewrite ?El, ?Epath; [apply Hp|apply Hap|done].
Qed.
Lemma circuit_levels_apart l1 l2 q : l1 <> l2 -> q ∈ names l1 -> q ∉ names l2.
Proof. intros Hne (s1 & E1)%output_label (s2 & E2)%output_label. rewrite E1 in E2. apply app_inj_string, app_inj_string in E2. by destruct l1, l2. Qed.
Lemma table_closed_apart k level ks (h h' : HS) : touches ks h h' -> (forall q, q ∈ names level -> q ∉ ks) -> table_closed k level h -> table_closed k level h'.
Proof. intros Ht Hk. by eapply closed_frame. Qed.

(** *** One level of each command *)

Lemma build_circuit_level n seed level (h : HS) : pair_loaded h -> table_fits n level ->
  yields circuit_error (let* table := lift (find_table level (cp_table t Index, cp_table t Chunk)) in
      build_circuit_table (C := C) (R := R) dir table o (derive_level_seed seed (ct_level table))) h
    (fun _ h' => touches (names level) h h' /\ table_closed n level h').
Proof.
  intros Hp Hf. destruct (pair_levels h level Hp) as (El & Epath & Hh). pose proof Hf as [(est & Hest & Hpar) Him Hbd Hrec Hap Hd Hpk Hbin].
  apply yields_bind. eapply yields_lift; [unfold find_table; cbn [fst snd]; by rewrite (find_level_table h level Hp)|].
  rewrite El. pose proof (circuit_built (R := R) Hio dir (cp_table t level) o est (cp_params t level) c (derive_level_seed seed level)
    (cp_bytes t level) n h) as Hy. cbv zeta in Hy. rewrite El, Epath in Hy.
  eapply yields_mono; [eapply yields_error; [apply Hy; done || apply Hp|intros e He; by exists level]|].
  cbn beta. intros u h' [Hc Ht]. by split.
Qed.
Lemma bench_circuit_level ops batch_size drain query_seed k n level (h : HS) : pair_loaded h -> table_fits n level ->
  0 <= ops -> 0 <= k -> 0 <= drain -> 0 < batch_size -> table_closed (ops + k) level h ->
  yields circuit_error
    (bench_circuit_table (C := C) (R := R) dir level (List.find (fun x => bool_decide (ct_level x = level)) [cp_table t Index; cp_table t Chunk])
       (reopen_options (opt_pack o) (open_args_of o None)) ops batch_size drain (derive_level_seed query_seed level) false) h
    (fun report h' => touches (names level) h h' /\ rp_verified report = ops /\ table_closed k level h').
Proof.
  intros Hp Hf Hops Hk Hd Hbs Hcl. pose proof (fits_beside n h level Hp Hf) as Hb. destruct (pair_levels h level Hp) as (El & _). rewrite (find_level_table h level Hp).
  pose proof (tf_image n level Hf) as Him. pose proof (proj2 (beside_blocks _ _ _ _ _ _ Hb)) as Hlb.
  pose proof (bench_table_yields (R := R) dir level true (cp_table t level) o (cp_params t level) c (cp_bytes t level) ops batch_size drain
    (derive_level_seed query_seed level) k _ h Him (fun _ => conj El (conj Hb eq_refl)) Hops Hk Hd Hbs Hlb (closed_serves _ _ Hio Him _ _ _ Hcl)) as Hy.
  eapply yields_mono; [eapply yields_error; [exact Hy|intros e He; by exists level]|].
  cbn beta. intros report h' (Hv & Ht & Hc). split; [eapply touches_weaken; [apply session_names_sub|exact Ht]|done].
Qed.
Lemma verify_circuit_level bins drain query_seed k n level (h : HS) : pair_loaded h -> table_fits n level ->
  0 <= bins -> 0 <= k -> 0 <= drain -> table_closed (bins + k) level h ->
  yields circuit_error
    (let* table := lift (find_table level (cp_table t Index, cp_table t Chunk)) in
     verify_circuit_bin_table (C := C) (R := R) dir table (reopen_options (opt_pack o) (open_args_of o None)) bins drain (derive_level_seed query_seed level) false) h
    (fun report h' => touches (names level) h h' /\ rp_verified report = bins /\ table_closed k level h').
Proof.
  intros Hp Hf Hbins Hk Hd Hcl. pose proof (fits_beside n h level Hp Hf) as Hb. destruct (pair_levels h level Hp) as (El & _).
  pose proof (tf_image n level Hf) as Him. apply yields_bind.
  eapply yields_lift; [unfold find_table; cbn [fst snd]; by rewrite (find_level_table h level Hp)|].
  pose proof (verify_table_yields (R := R) dir (cp_table t level) o (cp_params t level) c (cp_bytes t level) bins drain
    (derive_level_seed query_seed level) k h) as Hy. cbv zeta in Hy. rewrite El in Hy.
  specialize (Hy Him Hb Hbins Hk Hd (closed_serves _ _ Hio Him _ _ _ Hcl)).
  eapply yields_mono; [eapply yields_error; [exact Hy|intros e He; by exists level]|].
  cbn beta. intros report h' (Hv & Ht & Hc). split; [eapply touches_weaken; [apply session_names_sub|exact Ht]|done].
Qed.

(** *** All levels *)

Lemma table_closed_framed k level : framed (names level) (table_closed k level).
Proof. intros ks h h'. apply table_closed_apart. Qed.

Lemma pair_levels_yield {X} (step : CuckooLevel -> M HS X) n k (P : X -> Prop) (Pre : CuckooLevel -> HS -> Prop) levels (h : HS) :
  NoDup levels -> (forall level, level ∈ levels -> table_fits n level) -> (forall level, framed (names level) (Pre level)) ->
  (forall level h, level ∈ levels -> pair_loaded h -> Pre level h ->
     yields circuit_error (step level) h (fun x h' => touches (names level) h h' /\ P x /\ table_closed k level h')) ->
  pair_loaded h -> (forall level, level ∈ levels -> Pre level h) ->
  yields circuit_error (mapM step levels) h (fun xs h' => pair_loaded h' /\ Forall2 (fun level x => P x /\ table_closed k level h') levels xs).
Proof.
  intros Hnd Hfits HPre Hstep Hp Hpre. pose proof (pl_clear h Hp) as Hc.
  assert (forall level q, level ∈ levels -> q ∈ render <$> [filename db Index; filename db Chunk] -> q ∉ names level) as Hown.
  { intros level q Hl (f & -> & Hin)%list_elem_of_fmap. apply elem_of_cons in Hin as [->|Hin%list_elem_of_singleton]; [|subst f]; apply (tf_apart n level (Hfits level Hl)). }
  assert (framed (render <$> [filename db Index; filename db Chunk]) pair_loaded) as HI.
  { intros ks h1 h2 Ht Hk Hp1. eapply pair_elsewhere; [exact Hp1|exact Ht|]. intros l. apply Hk. destruct l; [left|right; left]. }
  eapply yields_mono; [apply (levels_yield circuit_error step names _ pair_loaded Pre (fun level x h => P x /\ table_closed k level h) levels circuit_levels_apart
    HI Hown HPre); [|intros level h1 Hl _; by apply Hstep|exact Hnd|exact Hc|exact Hp|exact Hpre]|].
  - intros level x ks h1 h2 Ht Hk [HPx Hcl]. split; [done|]. by apply (table_closed_framed k level ks h1).
  - cbn beta. intros xs h' [Ht Hxs]. split; [|done]. eapply HI; [exact Ht| |exact Hp].
    intros q Hq (level & Hq' & Hl)%list_elem_of_bind. by apply (Hown level q Hl Hq).
Qed.

(** *** The commands *)

Lemma circuit_key n level (h : HS) : table_fits n level -> check_options (opt_encrypted o) (opt_key_hex o) h = (Ok tt, h).
Proof. intros Hf. exact (key_checked (image level) c h (tf_image n level Hf)). Qed.

(** The arguments of [bench-circuit] and [verify-circuit-bins] for what was built *)
Definition bench_circuit_of (ops batch_size drain : Z) (query_seed_hex : option string) : BenchCircuitArgs :=
  mkBenchCircuit dir (Some db) (bc_level a) (opt_pack o) ops batch_size drain (open_args_of o query_seed_hex).
Definition verify_bins_of (bins drain : Z) (query_seed_hex : option string) : VerifyCircuitBinsArgs :=
  mkVerifyBins dir db (bc_level a) (opt_pack o) bins drain (open_args_of o query_seed_hex).

Local Abbreviation levels := (level_levels (bc_level a)).
Lemma circuit_levels : NoDup levels /\ exists level, level ∈ levels.
Proof. split; [apply (bool_decide_eq_true_1 _); by destruct (bc_level a)|]. destruct (bc_level a); eexists; left. Qed.

Lemma main_build_circuit_yields n seed (h : HS) : parse_seed (bc_seed_hex a) 0x06 = Ok seed -> pair_loaded h -> (forall level, level ∈ levels -> table_fits n level) ->
  yields circuit_error (main_build_circuit (C := C) (R := R) a) h (fun _ h' => pair_loaded h' /\ forall level, level ∈ levels -> table_closed n level h').
Proof.
  intros Hseed Hp Hfits. destruct circuit_levels as [Hnd [l0 Hl0]]. pose proof (Hfits l0 Hl0) as Hf0. unfold main_build_circuit, build_circuit_images.
  apply yields_bind. eapply yields_lift; [exact Hseed|]. pose proof (tf_pack n l0 Hf0) as Hpk.
  apply yields_bind, guard_yields; [by rewrite (proj2 (Z.eqb_neq _ 0)) by lia|]. apply yields_bind, guard_yields.
  { destruct (tf_estimate n l0 Hf0) as (est & Hest & _). unfold cuckoo_estimate in Hest. cbn [image_sizing sz_per_block sz_leaf_divisor] in Hest.
    destruct (opt_pack o =? 0); [done|]. by destruct (opt_leaf_divisor o =? 0). }
  apply yields_bind. eapply yields_eq; [exact (circuit_key n l0 h Hf0)|].
  apply yields_bind. eapply yields_eq; [exact (visit_ok h (proj1 (pl_clear h Hp)))|].
  apply yields_bind. eapply yields_eq; [exact (load_pair_loaded h Hp)|]. apply yields_iterM. eapply yields_mono.
  - apply (pair_levels_yield _ n n (fun _ => True) (fun _ _ => True) levels h Hnd Hfits); try done.
    intros level h1 Hl Hp1 _. eapply yields_mono; [apply (build_circuit_level n seed level h1 Hp1 (Hfits level Hl))|]. cbn beta. naive_solver.
  - cbn beta. intros us h' [Hp' Hall]. split; [done|]. intros level Hl. by destruct (Forall2_each _ _ _ Hall level Hl) as (u & _ & Hcl).
Qed.

Context (ops batch_size d1 bins d2 m : Z) (Hops : 0 <= ops) (Hbs : 0 < batch_size) (Hd1 : 0 <= d1) (Hbins : 0 <= bins) (Hd2 : 0 <= d2) (Hm : 0 <= m).

Lemma main_bench_circuit_yields n k seed query_seed_hex (h : HS) : 0 <= k -> parse_seed query_seed_hex 0x04 = Ok seed -> pair_loaded h ->
  (forall level, level ∈ levels -> table_fits n level) -> (forall level, level ∈ levels -> table_closed (ops + k) level h) ->
  yields circuit_error (main_bench_circuit (C := C) (R := R) (bench_circuit_of ops batch_size d1 query_seed_hex)) h (fun reports h' =>
    pair_loaded h' /\ Forall2 (fun level report => rp_verified report = ops /\ table_closed k level h') levels reports).
Proof.
  intros Hk Hseed Hp Hfits Hcl. destruct circuit_levels as [Hnd [l0 Hl0]]. pose proof (Hfits l0 Hl0) as Hf0. pose proof (tf_pack n l0 Hf0) as Hpk.
  unfold main_bench_circuit, bench_circuit_images.
  apply yields_bind. eapply yields_lift; [exact Hseed|]. apply yields_bind, guard_yields; [cbn; by rewrite (proj2 (Z.eqb_neq _ 0)) by lia|].
  apply yields_bind, guard_yields; [cbn; by rewrite (proj2 (Z.eqb_neq _ 0)) by lia|].
  apply yields_bind. eapply yields_eq; [exact (circuit_key n l0 h Hf0)|].
  apply yields_bind, yields_bind. eapply yields_eq; [exact (load_pair_loaded h Hp)|]. apply (yields_ret circuit_error).
  apply (pair_levels_yield _ n k (fun report => rp_verified report = ops) (table_closed (ops + k)) levels h Hnd Hfits (table_closed_framed _)); [|done..].
  intros level h1 Hl Hp1 Hc1. exact (bench_circuit_level ops batch_size d1 seed k n level h1 Hp1 (Hfits level Hl) Hops Hk Hd1 Hbs Hc1).
Qed.
Lemma main_verify_circuit_yields n seed query_seed_hex (h : HS) : parse_seed query_seed_hex 0x08 = Ok seed -> pair_loaded h ->
  (forall level, level ∈ levels -> table_fits n level) -> (forall level, level ∈ levels -> table_closed (bins + m) level h) ->
  yields circuit_error (main_verify_circuit_bins (C := C) (R := R) (verify_bins_of bins d2 query_seed_hex)) h (fun reports h' =>
    pair_loaded h' /\ Forall2 (fun level report => rp_verified report = bins /\ table_closed m level h') levels reports).
Proof.
  intros Hseed Hp Hfits Hcl. destruct circuit_levels as [Hnd [l0 Hl0]]. pose proof (Hfits l0 Hl0) as Hf0. pose proof (tf_pack n l0 Hf0) as Hpk.
  unfold main_verify_circuit_bins, verify_circuit_bins.
  apply yields_bind. eapply yields_lift; [exact Hseed|]. apply yields_bind, guard_yields; [cbn; by rewrite (proj2 (Z.eqb_neq _ 0)) by lia|].
  apply yields_bind. eapply yields_eq; [exact (circuit_key n l0 h Hf0)|].
  apply yields_bind. eapply yields_eq; [exact (load_pair_loaded h Hp)|].
  apply (pair_levels_yield _ n m (fun report => rp_verified report = bins) (table_closed (bins + m)) levels h Hnd Hfits (table_closed_framed _)); [|done..].
  intros level h1 Hl Hp1 Hc1. exact (verify_circuit_level bins d2 seed m n level h1 Hp1 (Hfits level Hl) Hbins Hm Hd2 Hc1).
Qed.

(** C6: the tool's [build-circuit], [bench-circuit] and [verify-circuit-bins] in turn,
    with the same directories, levels and keys, on a host whose file operations succeed
    and whose database has two tables that [from_file] accepts: at every level the
    benchmark confirms the [ops] blocks and the check the [bins] bins they draw against
    the table files, although the images of both levels share the directory, and every
    image still opens as the blocks of its table.  The only errors are a full stash and
    a state that cannot be serialized or sealed. *)
Theorem circuit_tool_confirms seed s1 seed1 s2 seed2 (h0 : HS) :
  parse_seed (bc_seed_hex a) 0x06 = Ok seed -> parse_seed s1 0x04 = Ok seed1 -> parse_seed s2 0x08 = Ok seed2 ->
  pair_loaded h0 -> (forall level, level ∈ level_levels (bc_level a) -> table_fits (ops + (bins + m)) level) ->
  yields circuit_error
    (let* _ := main (C := C) (R := R) (BuildCircuit a) in
     let* benched := main (C := C) (R := R) (BenchCircuit (bench_circuit_of ops batch_size d1 s1)) in
     let* confirmed := main (C := C) (R := R) (VerifyCircuitBins (verify_bins_of bins d2 s2)) in
     ret (benched, confirmed)) h0
    (fun printed h' => exists benched confirmed, printed = (PrintedBench benched, PrintedBench confirmed) /\
       Forall2 (fun _ report => rp_verified report = ops) (level_levels (bc_level a)) benched /\
       Forall2 (fun level report => rp_verified report = bins /\
         image_serves (circuit_image dir level o (cp_params t level)) c (open_circuit_image (R := R) dir level o) m h'
           (table_array (cp_table t level) o (cp_params t level) (cp_bytes t level))) (level_levels (bc_level a)) confirmed).
Proof.
  intros Hseed Hs1 Hs2 Hp Hfits. cbn [main].
  apply yields_bind. eapply yields_step; [exact (main_build_circuit_yields _ seed h0 Hseed Hp Hfits)|].
  cbn beta. intros _ h1 [Hp1 Hc1]. apply (yields_ret circuit_error), yields_bind.
  eapply yields_step; [exact (main_bench_circuit_yields _ (bins + m) seed1 s1 h1 ltac:(lia) Hs1 Hp1 Hfits Hc1)|].
  cbn beta. intros benched h2 [Hp2 Hb]. apply (yields_ret circuit_error), yields_bind.
  assert (forall level, level ∈ levels -> table_closed (bins + m) level h2) as Hc2 by (intros level Hl; by destruct (Forall2_each _ _ _ Hb level Hl) as (r & _ & Hcl)).
  eapply yields_step; [exact (main_verify_circuit_yields _ seed2 s2 h2 Hs2 Hp2 Hfits Hc2)|].
  cbn beta. intros confirmed h3 [_ Hv]. apply (yields_ret circuit_error). exists benched, confirmed. split; [done|]. split.
  - eapply Forall2_impl; [exact Hb|]. by intros level report [Hr _].
  - apply Forall2_same_length_lookup. split; [exact (Forall2_length _ _ _ Hv)|]. intros i level report Hl Hr.
    destruct (Forall2_lookup_lr _ _ _ _ _ _ Hv Hl Hr) as [Hver Hcl]. split; [done|].
    exact (closed_serves _ _ Hio (tf_image _ level (Hfits level (list_elem_of_lookup_2 _ _ _ Hl))) _ _ _ Hcl).
Qed.
End Circuit.

(** ** A concrete run *)

#[local] Existing Instance bool_subtle.
#[local] Existing Instance bool_subtle_laws.
#[local] Existing Instance plain_mmap.
#[local] Existing Instance plain_mmap_laws.
#[local] Existing Instance fixint_evidence.
#[local] Existing Instance fixint_evidence_laws.
#[local] Existing Instance plain_json.
#[local] Existing Instance plain_json_laws.

(** The strict build of [BuildDirectSpec] from its arguments, with the default seed *)
Definition demo_arguments : BuildDirectArgs :=
  mkBuildDirect DirectSpec.demo_path build_chunk_path "out" DirectLevelAll sealed_options (mkIndexArgs 1 2 DIRECT_INDEX_DEFAULT_LOAD_FACTOR 5) None
    (Some demo_evidence_path) (Some demo_payload_path) (Some (hex_encode (replicate 32 3))) None (Some (hex_encode (sha256 DirectSpec.demo_file)))
    (Some (hex_encode (sha256 DirectSpec.demo_chunk_file))) true.

Lemma direct_commands_confirm_witness :
  yields (direct_build_error build_inputs build_params)
    (let* _ := main (C := bytes) (R := Z) (BuildDirect demo_arguments) in
     main (C := bytes) (R := Z) (BenchDirect (bench_args_of demo_arguments 5 2 1 (Some demo_key_hex)))) build_host
    (fun printed h => exists reports, printed = PrintedBench reports /\
       Forall2 (fun level report => rp_verified report = 5 /\
         level_serves (C := bytes) (R := Z) build_inputs build_sources (Some (replicate 32 7)) build_params 80 level h) [DirectIndex; DirectChunk] reports).
Proof.
  refine (direct_commands_confirm (C := bytes) (OS := Z) (R := Z) whole_io_ok demo_arguments (bi_evidence build_inputs) (replicate 32 10)
    (Some demo_key_hex) (replicate 32 7) build_sources (Some (replicate 32 7)) build_params 5 2 1 80 build_host eq_refl _ _ build_bound _ _ _ _ _ _).
  - vm_compute. reflexivity.
  - vm_compute. reflexivity.
  - intros level _. apply build_levels_fit. destruct level; split; by vm_compute.
  - intros level. apply (bool_decide_eq_false_1 _). destruct level; vm_compute; reflexivity.
  - by split; vm_compute.
  - by vm_compute.
  - by vm_compute.
  - by vm_compute.
Defined.

(** The tables of [CuckooSpec] and [Extract] in one directory, with the default seeds *)
Definition demo_pair : CuckooPair :=
  mkPair (fun level => match level with Index => demo_table_file | Chunk => Extract.demo_chunk_file end)
    (fun level => match level with Index => demo_table | Chunk => demo_chunk_table end)
    (fun level => match level with Index => demo_cuckoo_params | Chunk => mkParams 2 88 2 2 8 end).
Definition pair_host : Host Z :=
  mkHost (<[render demo_table_path := demo_table_file]> {[ render Extract.demo_chunk_path := Extract.demo_chunk_file ]}) [] 0.
Definition demo_circuit_arguments : BuildCircuitArgs := mkBuildCircuit "db" "out" LevelAll embedded_options None.

Lemma demo_pair_loaded : pair_loaded demo_circuit_arguments demo_pair pair_host.
Proof.
  split.
  - split; [done|]. apply map_Forall_insert_2; [exact demo_table_bytes|]. apply map_Forall_singleton, (bool_decide_eq_true_1 _). vm_compute. reflexivity.
  - intros []; vm_compute; reflexivity.
  - intros []; vm_compute; reflexivity.
Qed.
Lemma demo_pair_fits n level : can_record n (schedule_new (cp_params demo_pair level)) ->
  table_fits demo_circuit_arguments (None : option bytes) demo_pair n level.
Proof.
  intros Hn. assert (exists est, cuckoo_estimate (image_sizing embedded_options) (cp_table demo_pair level) = Ok est /\
    image_params embedded_options (ce_sizes est) = Ok (cp_params demo_pair level)) as Hest.
  { assert (match cuckoo_estimate (image_sizing embedded_options) (cp_table demo_pair level) with
            | Ok e => image_params embedded_options (ce_sizes e) | _ => Panic end = Ok (cp_params demo_pair level)) as He by (destruct level; vm_compute; reflexivity).
    destruct (cuckoo_estimate _ _) as [est| | |]; [by exists est|done..]. }
  split; [exact Hest| | |exact Hn| | | |].
  - destruct level; image_fits_tac.
  - destruct level; split; (by vm_compute) || (repeat split; by vm_compute).
  - intros l. apply (bool_decide_eq_false_1 _). destruct level, l; vm_compute; reflexivity.
  - destruct level; vm_compute; discriminate.
  - reflexivity.
  - destruct level; vm_compute; discriminate.
Qed.

Lemma circuit_tool_confirms_witness :
  yields (circuit_error demo_circuit_arguments demo_pair)
    (let* _ := main (C := bytes) (R := Z) (BuildCircuit demo_circuit_arguments) in
     let* benched := main (C := bytes) (R := Z) (BenchCircuit (bench_circuit_of demo_circuit_arguments 5 2 1 None)) in
     let* confirmed := main (C := bytes) (R := Z) (VerifyCircuitBins (verify_bins_of demo_circuit_arguments 4 2 None)) in
     ret (benched, confirmed)) pair_host
    (fun printed h => exists benched confirmed, printed = (PrintedBench benched, PrintedBench confirmed) /\
       Forall2 (fun _ report => rp_verified report = 5) [Index; Chunk] benched /\
       Forall2 (fun level report => rp_verified report = 4 /\
         image_serves (circuit_image "out" level embedded_options (cp_params demo_pair level)) None
           (open_circuit_image (C := bytes) (R := Z) "out" level embedded_options) 80 h
           (table_array (cp_table demo_pair level) embedded_options (cp_params demo_pair level) (cp_bytes demo_pair level))) [Index; Chunk] confirmed).
Proof.
  refine (circuit_tool_confirms (C := bytes) (OS := Z) (R := Z) whole_io_ok demo_circuit_arguments None demo_pair 5 2 1 4 2 80 _ _ _ _ _ _
    (replicate 32 6) None (replicate 32 4) None (replicate 32 8) pair_host eq_refl eq_refl eq_refl demo_pair_loaded _).
  - by vm_compute.
  - by vm_compute.
  - by vm_compute.
  - by vm_compute.
  - by vm_compute.
  - by vm_compute.
  - intros level _. apply demo_pair_fits. destruct level; split; vm_compute; discriminate.
Defined.
